(* ===== verification/_CoqProject ===== *)
-Q . S2P
Prelude.v
Memory.v
TlsfBits.v
Tlsf.v
TlsfHdr.v
TlsfList.v
TlsfInv.v
TlsfOps.v
TlsfLoose.v
TlsfSearch.v
TlsfSpec.v
TlsfPool.v
TlsfCheck.v
TlsfClaims.v
KlibString.v
KlibSort.v
Ext4Errno.v
Ext4Bitmap.v
Ext4Crc.v
Ext4Hash.v
Ext4Layout.v
Ext4Super.v
Ext4BlockGroup.v
Ext4Inode.v
Ext4Dir.v
Ext4Bcache.v
Ext4BcacheInv.v
Ext4BcacheSpec.v
Ext4BlockIo.v
Ext4Store.v
Ext4Client.v
Ext4Fs.v
Ext4Groups.v
Ext4Balloc.v
Ext4File.v
Ext4Extent.v
Ext4ExtentOps.v
Ext4ExtentTree.v
Ext4ExtentFind.v
Ext4BallocSpec.v
Ext4BallocRun.v
Ext4BallocRefine.v
Ext4Ialloc.v
Ext4FsInode.v
Ext4DirIdx.v
Ext4DirOps.v
RustInode.v
RustFs.v
Ext4Mount.v
Ext4IallocSpec.v
Ext4IallocRefine.v
Ext4Sample.v
Ext4ExtentLookup.v
Ext4ExtentLeaf.v
Ext4BallocClient.v
Ext4InodeData.v
Ext4ExtentCreate.v
Ext4FsAppend.v
Ext4DirSpec.v
Ext4DirIter.v
RustDir.v
RustClaims.v
Ext4DirAdd.v
Ext4IallocClient.v
KlibMalloc.v
Fdt.v
FdtRo.v
FdtSafe.v
FdtTree.v
Entry.v
EntryMap.v
EntryKaddr.v
EntryBoot.v
