(* ===== verification/Prelude.v ===== *)
(** KernelX: verification of the C code of the kernel and of its file system.

    * The program

    KernelX is a kernel for riscv64.  Its core is written in Rust; the parts
    written in C are the early boot code and the small C library ([src/clib/src]),
    the memory allocator TLSF ([src/clib/lib/tlsf]), the device tree library
    libfdt ([src/clib/lib/libfdt]) and the file system library lwext4
    ([src/lib/lwext4_rust/c/lwext4]).  This development models the C parts and the Rust crate
    lwext4_rust ([src/lib/lwext4_rust/src]) through which the kernel calls lwext4.

    How they interact.  [__riscv_init] of the boot code checks the device tree
    that the firmware passes with libfdt, copies it behind the kernel, reads the
    end of memory from it and builds the first page table.  The Rust kernel then
    gives a region of memory to [init_heap] of the C library, whose [malloc],
    [calloc], [realloc] and [free] call TLSF.  lwext4 allocates with them and
    sorts with [qsort]; it reaches the disk through a block device interface
    that the Rust side implements, with a cache of blocks in between.  Its
    higher layers read and write bitmaps, superblock, group descriptors, inodes
    and directory blocks in cached blocks, all of them with checksums.

    * The files

    Foundations.  [Prelude]: machine integers as [Z] with their wrap-around
    written out ([uw], [sw]), the operators of [cint_scope], tactics and generic
    lemmas.  [Memory]: byte-addressed little-endian memory.

    TLSF, [tlsf.c].  [TlsfBits] (bit scans, size classes) and [Tlsf] (headers,
    free lists, split and merge, pools, the public calls, the consistency
    checks) are the code.  [TlsfHdr], [TlsfList], [TlsfInv], [TlsfOps],
    [TlsfLoose], [TlsfSearch], [TlsfSpec], [TlsfPool] and [TlsfCheck] hold the
    invariant and one lemma per operation; [TlsfClaims] has the contract.
    [control_t] is the record [heap]; block headers stay in byte memory.

    lwext4.  [Ext4Errno] ([ext4_errno.h]); [Ext4Bitmap] ([ext4_bitmap.c]);
    [Ext4Crc] ([ext4_crc32.c], CRC-16 of [ext4_block_group.c]); [Ext4Hash]
    ([ext4_hash.c]); [Ext4Layout] (structures of [ext4_types.h] as lists of
    fields); [Ext4Super] ([ext4_super.c]); [Ext4BlockGroup]
    ([ext4_block_group.h], checksums of [ext4_fs.c], [ext4_balloc.c] and
    [ext4_ialloc.c]); [Ext4Inode] ([ext4_inode.c], checksum and link counts of
    [ext4_fs.c]); [Ext4Dir] ([ext4_dir.h] and the one-block part of
    [ext4_dir.c]); [Ext4Bcache] ([ext4_bcache.c] and the cached access of
    [ext4_blockdev.c]), with its invariant in [Ext4BcacheInv] and its theorems in
    [Ext4BcacheSpec]; [Ext4BlockIo] (byte access of [ext4_blockdev.c]).  The
    device is the class [BlockIface], and what the code relies on is
    [BlockIfaceLaws]: a read or write that succeeds transfers the blocks asked
    for, one that fails changes nothing outside them.  A perfect disk and one that
    refuses every transfer are its instances.  [Ext4Mount] has the reading and
    writing of the superblock, [ext4_fs_init] and [ext4_fs_fini].

    lwext4 above the cache.  [Ext4Store]: the cache as its clients see it, the
    class [Device] of buffers and their failures and the monad [M] of the code
    above; [Ext4Client]: clients that choose the next call from the answers so
    far, and why each follows the specification of its operations; [Ext4File]:
    the monad [F] of code that works on one inode.  The code: [Ext4Fs] (group
    descriptors of [ext4_fs.c]), [Ext4Balloc] ([ext4_balloc.c]), [Ext4Ialloc]
    ([ext4_ialloc.c]), [Ext4Extent] and [Ext4ExtentOps] ([ext4_extent.c]) and
    [Ext4FsInode] (inodes, indirect blocks, truncation and appending of
    [ext4_fs.c]), [Ext4DirIdx] ([ext4_dir_idx.c]) and [Ext4DirOps] (the walks over
    directories of [ext4_dir.c]).  [Ext4Groups] is the layout of a file system and what may
    change without disturbing it; [Ext4BallocSpec], [Ext4BallocRun],
    [Ext4BallocRefine] and [Ext4BallocClient] treat the block allocator,
    [Ext4IallocSpec], [Ext4IallocRefine] and [Ext4IallocClient] the inode
    allocator, [Ext4ExtentTree], [Ext4ExtentFind] and [Ext4ExtentLookup] the
    search in extent trees, [Ext4ExtentLeaf], [Ext4InodeData],
    [Ext4ExtentCreate] and [Ext4FsAppend] the growth of files, [Ext4DirSpec] and
    [Ext4DirAdd] directories as maps, [Ext4DirIter] the iterator over their
    records.  [Ext4Sample] is a file system of 64 blocks
    on which the theorems are tried.

    lwext4_rust.  [RustInode] ([src/inode]) and [RustFs] ([src/fs.rs]) are the
    code, [RustDir] and [RustClaims] have the theorems.

    C library.  [KlibString] ([string.c]), [KlibSort] ([stdlib.c]) and
    [KlibMalloc] ([malloc.c], on [TlsfClaims]).

    libfdt.  [Fdt] ([fdt.c]) and [FdtRo] ([fdt_ro.c], [fdt_check.c],
    [fdt_addresses.c]) are the code; [FdtSafe] shows that it is safe on any
    contents, [FdtTree] that it is right on trees.

    Boot.  [Entry] ([fdt.c], [init.c], [mapkernel.c] of [arch/riscv/entry]) is
    the code; its state is physical memory, which also holds the variables that
    [symbol.S] and the linker script place ([layout]).  [EntryMap] and [EntryKaddr] treat
    the page table, [EntryBoot] the whole boot, with the libfdt theorems.

    * How code is translated

    Pure C functions are functions, code that writes memory takes and returns
    it.  [None] stands for a failed assertion, a use of a dropped object or a
    loop out of fuel; the theorems say that a result exists.  A function with
    several results returns a tuple.  Callbacks and the device are arguments.
    Definitions bear the names of the source; a loop inside a function is a
    definition named after it.

    * What the theorems show

    Allocator.  Every history of legal calls refines an abstract map of live
    blocks ([tlsf_contract]); the heap stays well formed ([heap_invariant],
    [live_blocks], [checks_pass]); a request is refused exactly if every free block
    is smaller than the class its search starts from ([malloc_refusal],
    [search_good_fit], [size_classes]); setting up
    ([create_with_pool_ok]) and [calloc] ([calloc_zeroed]).

    Device tree.  [fdt_check_full] accepts exactly the blobs whose structure block
    is [balanced] ([check_full_spec]), among them every blob of the format
    ([conforming_accepted]); the readers return and stay inside any blob with a
    valid header ([readers_confined], [check_full_confined]); on a tree they
    find what they should ([getprop_by_name], [subnode_by_name],
    [walks_in_order]).

    Boot.  All loops of [__riscv_init] end ([init_ends]) and with a good blob it boots
    ([init_boots], [memory_top_found]); the page table it builds refines a list
    of mappings under the translation of Sv39 ([map_kaddr_refines],
    [kernel_mapped]).

    File system.  The block cache answers like the disk it caches, also when
    the device fails ([cache_refines_disk], [cache_flush_durable],
    [cache_shake_room]); byte access is exact ([byte_access]); mounting refuses
    what it does not know and unmounting leaves a clean device ([mount_cycle]);
    the allocators refine allocators on sets, with all counters, checksums and
    references ([balloc_refines], [ialloc_refines]), as long as the goal of an
    allocation lies in the file system, which the code does not check ([legal],
    [goal_legal]); the lookup of a block is
    that of the list of extents in trees of any depth ([extent_lookup]), if accesses to
    nodes outside the inode fail at their read only ([device_ok]), a block
    that is created is mapped at its place and nowhere else ([extent_create])
    and a file grows by it ([append_block]); a directory without an index is a
    map from names to inodes, over all its blocks ([directory_find],
    [directory_remove], [directory_add]) as each block is one ([dir_find],
    [dir_insert], [dir_remove]); [has_children] of lwext4_rust answers by that map
    ([has_children_spec]) and times are kept exactly ([times_roundtrip]);
    bitmaps ([bmap_bits_free_range], [bmap_find_clr_aligned]); checksums equal
    their polynomials and detect changes ([crc_tables_exact],
    [inode_csum_protects], [sb_csum_protects], [bitmap_csums_protect]); group and
    index name every block once ([groups_partition], [group_counts_add_up]); accessors
    ([bg_accessors_roundtrip]); hashes ([htree_hash_result]).

    C library.  [qsort_rearranges].

    Beside these stand theorems on inputs where the code departs from its
    intention, each with the concrete input: among others [qsort_missorts],
    [calloc_wraps], [bmap_find_clr_unaligned], [invalidate_skips],
    [failed_write_unreported], [insert_stuck], [find_reads_past_block],
    [range_check_wraps], [ialloc_hangs], [prepend_moves], [convert_corrupts],
    [append_unwritten], [top_truncated], [text_tail_not_executable],
    [early_failure_stops], [check_full_late_property], [rename_same_loses], [rename_loses_dotdot], [create_without_inodes] and
    [ctime_overwrites_next].

    * Fuel

    Loops that are not structural take fuel, and every theorem that uses one
    gives a bound under which it cannot run out.  libfdt: the size of the blob,
    because every tag moves the offset forward.  Directory blocks: an eighth of
    the block size, because a record of a well-formed block has at least 8
    bytes.  The cache: one more than the number of unreferenced buffers
    (shaking) or of listed dirty buffers (flushing).  Bitmaps: the number of
    bits.  Strings: one more than the length.  [tlsf_check]: one more
    than the number of blocks, and a round per 32 bytes for [tlsf_check_pool].
    The loops of the boot: one more than the number of pages or of bytes; they give
    [None] when it runs out, and [init_ends] excludes that.

    * Not modelled

    The Rust kernel proper (scheduling, memory management, drivers, system calls),
    the assembly ([entry.S], [symbol.S], the vDSO) and the user tests: no C code.
    lwext4_rust: the contents of files ([file.rs]), which it reads and writes past
    the block cache, and the adapter of the block device.  libfdt: editing, building and overlaying trees,
    paths and aliases, which the kernel does not call.  lwext4: extended
    attributes, the journal, [mkfs], the partition table and the layer of mount
    points and paths, which the kernel does not use.  The directory index is
    modelled without theorems of its own: the theorems on directories are about
    those without one.  Locks of the
    block device and debugging output have no effect on the results.  The
    red-black trees of the cache stand for their sequences in order; the macros
    of [tree.h] are not modelled. *)
From stdpp Require Export base numbers list gmap.
From Stdlib Require Export ZArith Lia.
#[global] Open Scope Z_scope.

(** * Machine integers

    A [w]-bit unsigned C integer is a [Z]; every place where the C code can
    wrap is written out with [u8], [u16], [u32] or [u64]. *)

Definition uw (w z : Z) : Z := z mod 2 ^ w.
Abbreviation u8 := (uw 8).
Abbreviation u16 := (uw 16).
Abbreviation u32 := (uw 32).
Abbreviation u64 := (uw 64).

(** Conversion to a signed [w]-bit integer (two's complement). *)
Definition sw (w z : Z) : Z :=
  let u := uw w z in if u <? 2 ^ (w - 1) then u else u - 2 ^ w.
Abbreviation s8 := (sw 8).
Abbreviation s32 := (sw 32).

Declare Scope cint_scope.
Delimit Scope cint_scope with cint.
Notation "x .& y" := (Z.land x y) (at level 42, left associativity) : cint_scope.
Notation "x .| y" := (Z.lor x y) (at level 44, left associativity) : cint_scope.
Notation "x .^ y" := (Z.lxor x y) (at level 43, left associativity) : cint_scope.
Notation "x .<< n" := (Z.shiftl x n) (at level 41, left associativity) : cint_scope.
Notation "x .>> n" := (Z.shiftr x n) (at level 41, left associativity) : cint_scope.
#[global] Open Scope cint_scope.

(** C truth value of an integer. *)
Definition c_true (z : Z) : bool := negb (z =? 0).

(** * Automation *)

Create HintDb cint discriminated.
#[export] Hint Constants Opaque : cint.

(** Turn boolean comparisons of the context into propositions. *)
Ltac zb1 :=
  match goal with
  | H : (_ <? _) = true |- _ => apply Z.ltb_lt in H
  | H : (_ <? _) = false |- _ => apply Z.ltb_ge in H
  | H : (_ <=? _) = true |- _ => apply Z.leb_le in H
  | H : (_ <=? _) = false |- _ => apply Z.leb_gt in H
  | H : (_ =? _) = true |- _ => apply Z.eqb_eq in H
  | H : (_ =? _) = false |- _ => apply Z.eqb_neq in H
  | H : negb _ = true |- _ => apply negb_true_iff in H
  | H : negb _ = false |- _ => apply negb_false_iff in H
  | H : andb _ _ = true |- _ => apply andb_true_iff in H; destruct H
  | H : andb _ _ = false |- _ => apply andb_false_iff in H
  | H : orb _ _ = true |- _ => apply orb_true_iff in H
  | H : orb _ _ = false |- _ => apply orb_false_iff in H; destruct H
  end.
Ltac zb := repeat zb1.

(** Case split on the condition of an [if] of the goal. *)
Ltac case_if :=
  match goal with
  | |- context [if ?b then _ else _] => let E := fresh "E" in destruct b eqn:E; zb
  end.
Ltac case_if_in H :=
  match type of H with
  | context [if ?b then _ else _] => let E := fresh "E" in destruct b eqn:E; zb
  end.

(** [pow2 w] replaces a literal power of two by its value, so that [lia] sees it. *)
Ltac pow2 :=
  repeat match goal with
  | |- context [2 ^ ?k] =>
      let v := eval vm_compute in (2 ^ k) in
      match v with Zpos _ => change (2 ^ k) with v end
  | H : context [2 ^ ?k] |- _ =>
      let v := eval vm_compute in (2 ^ k) in
      match v with Zpos _ => change (2 ^ k) with v in H end
  end.

(** Evaluate closed bit operations of the goal. *)
Ltac bits_eval :=
  repeat match goal with
  | |- context [?op ?a ?b] =>
      match op with Z.land => idtac | Z.lor => idtac | Z.lxor => idtac end;
      let v := eval vm_compute in (op a b) in
      match v with Z0 => idtac | Zpos _ => idtac | Zneg _ => idtac end;
      change (op a b) with v
  end.

(** * Lemmas on wrapped integers *)

Lemma uw_range w z : 0 <= w -> 0 <= uw w z < 2 ^ w.
Proof. intros; unfold uw; apply Z.mod_pos_bound; lia. Qed.

Lemma uw_small w z : 0 <= z < 2 ^ w -> uw w z = z.
Proof. intros; unfold uw; by apply Z.mod_small. Qed.

Lemma uw_uw w z : 0 <= w -> uw w (uw w z) = uw w z.
Proof. intros. apply uw_small, uw_range; lia. Qed.

Lemma uw_nonneg w z : 0 <= w -> 0 <= uw w z.
Proof. intros. by apply uw_range. Qed.

Lemma uw_land w z : 0 <= w -> uw w z = z .& Z.ones w.
Proof. intros. unfold uw. by rewrite Z.land_ones by lia. Qed.

Lemma uw_testbit w z i :
  0 <= w -> Z.testbit (uw w z) i = if i <? w then Z.testbit z i else false.
Proof.
  intros Hw. unfold uw. case_if.
  - destruct (decide (0 <= i)); [by rewrite Z.mod_pow2_bits_low by lia|].
    by rewrite !Z.testbit_neg_r by lia.
  - by rewrite Z.mod_pow2_bits_high by lia.
Qed.

Lemma uw_add_l w a b : 0 <= w -> uw w (uw w a + b) = uw w (a + b).
Proof. intros; unfold uw. by rewrite Zplus_mod_idemp_l. Qed.

Lemma uw_add_r w a b : 0 <= w -> uw w (a + uw w b) = uw w (a + b).
Proof. intros; unfold uw. by rewrite Zplus_mod_idemp_r. Qed.

Lemma uw_sub_l w a b : 0 <= w -> uw w (uw w a - b) = uw w (a - b).
Proof. intros; unfold uw. by rewrite Zminus_mod_idemp_l. Qed.

Lemma sw_small w z : 0 < w -> 0 <= z < 2 ^ (w - 1) -> sw w z = z.
Proof.
  intros Hw H. unfold sw.
  assert (2 ^ (w - 1) <= 2 ^ w) by (apply Z.pow_le_mono_r; lia).
  rewrite uw_small by lia. case_if; lia.
Qed.

(** Discharge a side condition on a wrapped expression by arithmetic. *)
Ltac usmall :=
  match goal with |- context [uw ?w ?z] => rewrite (uw_small w z) by (pow2; lia) end.
Ltac usmalls := repeat usmall.

(** * Bits *)

Lemma Z_testbit_high w z i : 0 <= z < 2 ^ w -> 0 <= w -> w <= i -> Z.testbit z i = false.
Proof.
  intros Hz Hw Hi. rewrite <- (Z.mod_small z (2 ^ w)) by lia.
  by apply Z.mod_pow2_bits_high.
Qed.

Lemma land_range w a b : 0 <= w -> 0 <= a < 2 ^ w -> 0 <= a .& b < 2 ^ w.
Proof.
  intros Hw Ha.
  assert (a .& b = uw w (a .& b)) as ->; [|by apply uw_range].
  apply Z.bits_inj'; intros i Hi. rewrite uw_testbit, Z.land_spec by lia.
  case_if; [done|]. by rewrite (Z_testbit_high w a i).
Qed.

Lemma lor_range w a b :
  0 <= w -> 0 <= a < 2 ^ w -> 0 <= b < 2 ^ w -> 0 <= a .| b < 2 ^ w.
Proof.
  intros Hw Ha Hb.
  assert (a .| b = uw w (a .| b)) as ->; [|by apply uw_range].
  apply Z.bits_inj'; intros i Hi. rewrite uw_testbit, Z.lor_spec by lia.
  case_if; [done|]. by rewrite (Z_testbit_high w a i), (Z_testbit_high w b i).
Qed.

Lemma lxor_range w a b :
  0 <= w -> 0 <= a < 2 ^ w -> 0 <= b < 2 ^ w -> 0 <= a .^ b < 2 ^ w.
Proof.
  intros Hw Ha Hb.
  assert (a .^ b = uw w (a .^ b)) as ->; [|by apply uw_range].
  apply Z.bits_inj'; intros i Hi. rewrite uw_testbit, Z.lxor_spec by lia.
  case_if; [done|]. by rewrite (Z_testbit_high w a i), (Z_testbit_high w b i).
Qed.

Lemma shiftl_pow2 a n : 0 <= n -> a .<< n = a * 2 ^ n.
Proof. intros. by rewrite Z.shiftl_mul_pow2. Qed.

Lemma shiftr_pow2 a n : 0 <= n -> a .>> n = a / 2 ^ n.
Proof. intros. by rewrite Z.shiftr_div_pow2. Qed.

(** Disjoint bits: [lor] is addition. *)
Lemma lor_add_disjoint hi lo k :
  0 <= k -> 0 <= lo < 2 ^ k -> (hi * 2 ^ k) .| lo = hi * 2 ^ k + lo.
Proof.
  intros Hk Hlo. rewrite <- Z.lxor_lor; [symmetry; apply Z.add_nocarry_lxor|];
    rewrite <- shiftl_pow2 by lia;
    (apply Z.bits_inj'; intros i Hi; rewrite Z.land_spec, Z.shiftl_spec, Z.bits_0 by lia;
     destruct (decide (i < k));
     [by rewrite Z.testbit_neg_r by lia
     | by rewrite (Z_testbit_high k lo i), andb_false_r by lia]).
Qed.

(** Adjacent subranges of bits of a word. *)
Lemma split_word z k : 0 <= k -> (z / 2 ^ k) * 2 ^ k + z mod 2 ^ k = z.
Proof. intros. rewrite (Z.mul_comm (z / 2 ^ k)). symmetry. apply Z.div_mod. lia. Qed.

(** Setting and clearing one bit of a [w]-bit word. *)
Lemma uw_bit w k : 0 <= k < w -> uw w (1 .<< k) = 2 ^ k.
Proof.
  intros. rewrite shiftl_pow2, Z.mul_1_l by lia. apply uw_small.
  split; [lia|]. apply Z.pow_lt_mono_r; lia.
Qed.

Lemma set_bit_spec w x k i :
  0 <= k < w -> Z.testbit (x .| uw w (1 .<< k)) i = Z.testbit x i || (i =? k).
Proof.
  intros. rewrite uw_bit, Z.lor_spec, Z.pow2_bits_eqb by lia. f_equal. apply Z.eqb_sym.
Qed.

Lemma clear_bit_spec w x k i :
  0 <= k < w -> 0 <= x < 2 ^ w ->
  Z.testbit (x .& uw w (Z.lnot (uw w (1 .<< k)))) i = Z.testbit x i && negb (i =? k).
Proof.
  intros Hk Hx. rewrite uw_bit by lia. rewrite Z.land_spec, uw_testbit by lia.
  destruct (decide (i < 0)); [by rewrite !Z.testbit_neg_r by lia|].
  rewrite Z.lnot_spec, Z.pow2_bits_eqb, (Z.eqb_sym k) by lia.
  case_if; [done|]. by rewrite (Z_testbit_high w x i) by lia.
Qed.

Lemma testbit_one k i : 0 <= k -> 0 <= i -> Z.testbit (1 .<< k) i = (i =? k).
Proof.
  intros. rewrite Z.shiftl_spec by lia. destruct (decide (i = k)) as [->|].
  - by rewrite Z.sub_diag, Z.eqb_refl.
  - assert ((i =? k) = false) as -> by lia. destruct (decide (i < k)); [by rewrite Z.testbit_neg_r by lia|].
    rewrite (Z_testbit_high 1) by (pow2; lia). done.
Qed.

Lemma testbit_true_nonzero x i : Z.testbit x i = true -> x <> 0.
Proof. intros H ->. by rewrite Z.bits_0 in H. Qed.

(** [x & (1 << k)] as a condition. *)
Lemma c_true_land_bit x k : 0 <= k -> c_true (x .& (1 .<< k)) = Z.testbit x k.
Proof.
  intros Hk. unfold c_true. destruct (Z.testbit x k) eqn:E.
  - apply negb_true_iff, Z.eqb_neq. apply (testbit_true_nonzero _ k).
    by rewrite Z.land_spec, E, testbit_one, Z.eqb_refl by lia.
  - apply negb_false_iff, Z.eqb_eq, Z.bits_inj'. intros i Hi.
    rewrite Z.land_spec, testbit_one, Z.bits_0 by lia. destruct (decide (i = k)) as [->|]; [by rewrite E|].
    by assert ((i =? k) = false) as -> by lia; rewrite andb_false_r.
Qed.
