(* ===== verification/Memory.v ===== *)
(** Byte-addressed memory with little-endian words, as seen by the C code on
    riscv64: loads and stores of one to eight bytes, [memcpy], [memset] and the
    bytes of a buffer, with their laws. *)
From S2P Require Import Prelude.

(** ** Model *)

Definition memory := Z -> Z.

Definition st8 (m : memory) (a v : Z) : memory :=
  fun x => if x =? a then u8 v else m x.

(** [n]-byte little-endian load and store. *)
Fixpoint ldn (n : nat) (m : memory) (a : Z) : Z :=
  match n with
  | O => 0
  | S n => u8 (m a) + 256 * ldn n m (a + 1)
  end.

Fixpoint stn (n : nat) (m : memory) (a v : Z) : memory :=
  match n with
  | O => m
  | S n => stn n (st8 m a v) (a + 1) (v / 256)
  end.

Definition ld8 (m : memory) (a : Z) : Z := u8 (m a).
Definition ld16 (m : memory) (a : Z) : Z := ldn 2 m a.
Definition ld32 (m : memory) (a : Z) : Z := ldn 4 m a.
Definition ld64 (m : memory) (a : Z) : Z := ldn 8 m a.
Definition st16 (m : memory) (a v : Z) : memory := stn 2 m a v.
Definition st32 (m : memory) (a v : Z) : memory := stn 4 m a v.
Definition st64 (m : memory) (a v : Z) : memory := stn 8 m a v.

(** [memcpy] or [memmove]: the source is read before it is written; and [memset]. *)
Definition memcpy (m : memory) (dst src n : Z) : memory :=
  fun x => if (dst <=? x) && (x <? dst + n) then m (src + (x - dst)) else m x.

Definition memset (m : memory) (dst v n : Z) : memory :=
  fun x => if (dst <=? x) && (x <? dst + n) then u8 v else m x.

(** ** Laws *)

(** [m] and [m'] agree on the bytes [lo, hi). *)
Definition same_on (lo hi : Z) (m m' : memory) : Prop :=
  forall x, lo <= x < hi -> m' x = m x.

Lemma ldn_range n m a : 0 <= ldn n m a < 2 ^ (8 * Z.of_nat n).
Proof.
  revert a; induction n as [|n IH]; intros a; cbn [ldn]; [lia|].
  pose proof (uw_range 8 (m a) ltac:(lia)). specialize (IH (a + 1)).
  replace (8 * Z.of_nat (S n)) with (8 + 8 * Z.of_nat n) by lia.
  rewrite Z.pow_add_r by lia. change (2 ^ 8) with 256 in *. lia.
Qed.

Lemma ld64_range m a : 0 <= ld64 m a < 2 ^ 64.
Proof. apply (ldn_range 8). Qed.

Lemma stn_other n m a v x : x < a \/ a + Z.of_nat n <= x -> stn n m a v x = m x.
Proof.
  revert m a v; induction n as [|n IH]; intros m a v Hx; cbn [stn]; [done|].
  rewrite IH by lia. unfold st8. case_if; [lia|done].
Qed.

Lemma ldn_ext n m m' a :
  same_on a (a + Z.of_nat n) m m' -> ldn n m' a = ldn n m a.
Proof.
  revert a; induction n as [|n IH]; intros a H; cbn [ldn]; [done|].
  rewrite (H a) by lia. rewrite (IH (a + 1)); [done|].
  intros x Hx. apply H. lia.
Qed.

Lemma ldn_stn_same n m a v : ldn n (stn n m a v) a = v mod 2 ^ (8 * Z.of_nat n).
Proof.
  revert m a v; induction n as [|n IH]; intros m a v; cbn [ldn stn].
  { by rewrite Z.mod_1_r. }
  rewrite IH, stn_other by lia. unfold st8. rewrite Z.eqb_refl, uw_uw by lia.
  replace (8 * Z.of_nat (S n)) with (8 + 8 * Z.of_nat n) by lia.
  rewrite Z.pow_add_r, Z.rem_mul_r by lia. unfold uw. change (2 ^ 8) with 256. lia.
Qed.

Lemma ld64_st64_same m a v : 0 <= v < 2 ^ 64 -> ld64 (st64 m a v) a = v.
Proof. intros. unfold ld64, st64. rewrite ldn_stn_same. by apply Z.mod_small. Qed.

Lemma ld64_ext m m' a : same_on a (a + 8) m m' -> ld64 m' a = ld64 m a.
Proof. apply (ldn_ext 8). Qed.

Lemma st64_other m a v x : x < a \/ a + 8 <= x -> st64 m a v x = m x.
Proof. apply (stn_other 8). Qed.

Lemma ld64_st64_other m a v b : b + 8 <= a \/ a + 8 <= b -> ld64 (st64 m a v) b = ld64 m b.
Proof. intros. apply ld64_ext. intros x Hx. apply st64_other. lia. Qed.

Lemma same_on_refl lo hi m : same_on lo hi m m.
Proof. by intros x _. Qed.

Lemma same_on_trans lo hi m m' m'' :
  same_on lo hi m m' -> same_on lo hi m' m'' -> same_on lo hi m m''.
Proof. intros H H' x Hx. by rewrite H', H. Qed.

Lemma same_on_weaken lo hi lo' hi' m m' :
  same_on lo hi m m' -> lo <= lo' -> hi' <= hi -> same_on lo' hi' m m'.
Proof. intros H ?? x Hx. apply H. lia. Qed.

Lemma same_on_st64 lo hi m a v : hi <= a \/ a + 8 <= lo -> same_on lo hi m (st64 m a v).
Proof. intros ? x Hx. apply st64_other. lia. Qed.

(** Fields of any width. *)
Lemma ldn_stn_other n k m a v b :
  b + Z.of_nat n <= a \/ a + Z.of_nat k <= b -> ldn n (stn k m a v) b = ldn n m b.
Proof. intros. apply ldn_ext. intros x Hx. apply stn_other. lia. Qed.

Lemma ld8_st8_same m a v : ld8 (st8 m a v) a = u8 v.
Proof. unfold ld8, st8. rewrite Z.eqb_refl. by apply uw_uw. Qed.

Lemma ld8_st8_other m a v b : b <> a -> ld8 (st8 m a v) b = ld8 m b.
Proof. intros. unfold ld8, st8. case_if; [lia|done]. Qed.

Lemma ld8_range m a : 0 <= ld8 m a < 256.
Proof. apply (uw_range 8). lia. Qed.

Lemma ld16_range m a : 0 <= ld16 m a < 2 ^ 16.
Proof. apply (ldn_range 2). Qed.

Lemma ld32_range m a : 0 <= ld32 m a < 2 ^ 32.
Proof. apply (ldn_range 4). Qed.

Lemma ld16_st16_same m a v : ld16 (st16 m a v) a = u16 v.
Proof. apply (ldn_stn_same 2). Qed.

Lemma ld32_st32_same m a v : ld32 (st32 m a v) a = u32 v.
Proof. apply (ldn_stn_same 4). Qed.

#[global] Opaque ld64 st64.
#[export] Hint Resolve ld8_range ld16_range ld32_range ld64_range same_on_refl : cint.

(** The [n] bytes at [p]. *)
Definition bytes_of (m : memory) (p : Z) (n : nat) : list Z :=
  (fun k => ld8 m (p + Z.of_nat k)) <$> seq 0 n.

Lemma bytes_of_S m p n : bytes_of m p (S n) = ld8 m p :: bytes_of m (p + 1) n.
Proof.
  unfold bytes_of. cbn [seq]. rewrite fmap_cons, Z.add_0_r. f_equal.
  rewrite <- seq_shift, <- list_fmap_compose. apply list_fmap_ext. intros k x _. cbn. f_equal. lia.
Qed.

Lemma bytes_of_app m p n1 n2 :
  bytes_of m p (n1 + n2) = bytes_of m p n1 ++ bytes_of m (p + Z.of_nat n1) n2.
Proof.
  revert p. induction n1 as [|n IH]; intros p; [by rewrite Z.add_0_r|].
  cbn [Nat.add]. rewrite !bytes_of_S, IH. cbn [app]. do 3 f_equal. lia.
Qed.

Lemma bytes_of_other m p n a v : a < p \/ p + Z.of_nat n <= a -> bytes_of (st8 m a v) p n = bytes_of m p n.
Proof.
  intros Ha. unfold bytes_of. apply list_fmap_ext. intros k x Hk. apply lookup_seq in Hk as [-> Hk].
  apply ld8_st8_other. lia.
Qed.

Lemma bytes_of_ext m m' p n : same_on p (p + Z.of_nat n) m m' -> bytes_of m' p n = bytes_of m p n.
Proof.
  revert p; induction n as [|n IH]; intros p H; [done|]. rewrite !bytes_of_S, (IH (p + 1)).
  - unfold ld8. by rewrite (H p) by lia.
  - intros x Hx. apply H. lia.
Qed.
