(* ===== verification/TlsfBits.v ===== *)
(** TLSF, part 1: the arithmetic of [clib/lib/tlsf/tlsf.c]: bit searches,
    alignment, and the mapping of block sizes to the two-level class index. *)
From S2P Require Import Prelude.

(** ** Model *)

(** Constants for the 64-bit build ([TLSF_64BIT]). *)
Definition SL_INDEX_COUNT_LOG2 : Z := 5.
Definition ALIGN_SIZE_LOG2 : Z := 3.
Definition ALIGN_SIZE : Z := 1 .<< ALIGN_SIZE_LOG2.
Definition FL_INDEX_MAX : Z := 32.
Definition SL_INDEX_COUNT : Z := 1 .<< SL_INDEX_COUNT_LOG2.
Definition FL_INDEX_SHIFT : Z := SL_INDEX_COUNT_LOG2 + ALIGN_SIZE_LOG2.
Definition FL_INDEX_COUNT : Z := FL_INDEX_MAX - FL_INDEX_SHIFT + 1.
Definition SMALL_BLOCK_SIZE : Z := 1 .<< FL_INDEX_SHIFT.

(** [sizeof(block_header_t)] and the constants derived from the layout. *)
Definition sizeof_block_header : Z := 32.
Definition block_header_overhead : Z := 8.
Definition block_start_offset : Z := 8 + 8.
Definition block_size_min : Z := sizeof_block_header - 8.
Definition block_size_max : Z := 1 .<< FL_INDEX_MAX.

(** [static int __ffs(unsigned int x)] *)
Definition __ffs (x : Z) : Z :=
  if x =? 0 then 0 else
  let x := x .& u32 (- x) in
  let n := 0 in
  let '(n, x) := if 0xFFFF <? x then (n + 16, x .>> 16) else (n, x) in
  let '(n, x) := if 0xFF <? x then (n + 8, x .>> 8) else (n, x) in
  let '(n, x) := if 0xF <? x then (n + 4, x .>> 4) else (n, x) in
  let '(n, x) := if 0x3 <? x then (n + 2, x .>> 2) else (n, x) in
  let n := if 0x1 <? x then n + 1 else n in
  n + 1.

Definition tlsf_ffs (word : Z) : Z := __ffs word - 1.

(** [static unsigned int __clz(unsigned int x)] *)
Definition __clz (x : Z) : Z :=
  if x =? 0 then 32 else
  let n := 0 in
  let '(n, x) := if x <=? 0x0000FFFF then (n + 16, u32 (x .<< 16)) else (n, x) in
  let '(n, x) := if x <=? 0x00FFFFFF then (n + 8, u32 (x .<< 8)) else (n, x) in
  let '(n, x) := if x <=? 0x0FFFFFFF then (n + 4, u32 (x .<< 4)) else (n, x) in
  let '(n, x) := if x <=? 0x3FFFFFFF then (n + 2, u32 (x .<< 2)) else (n, x) in
  let n := if x <=? 0x7FFFFFFF then n + 1 else n in
  n.

Definition tlsf_fls (word : Z) : Z :=
  let bit := if c_true word then 32 - __clz word else 0 in
  bit - 1.

(** [int high = (int)(size >> 32)] is passed back to an [unsigned int]
    parameter, hence [u32 (s32 _)]. *)
Definition tlsf_fls_sizet (size : Z) : Z :=
  let high := s32 (size .>> 32) in
  if c_true high then 32 + tlsf_fls (u32 high)
  else tlsf_fls (u32 (s32 size) .& 0xffffffff).

Definition align_up (x align : Z) : Z :=
  u64 (x + u64 (align - 1)) .& u64 (Z.lnot (u64 (align - 1))).

Definition align_down (x align : Z) : Z :=
  u64 (x - (x .& u64 (align - 1))).

(** Pointers are 64-bit unsigned addresses; [tlsfptr_t] arithmetic mixes with
    [size_t] and is therefore unsigned as well. *)
Definition align_ptr (ptr align : Z) : Z :=
  u64 (ptr + u64 (align - 1)) .& u64 (Z.lnot (u64 (align - 1))).

Definition adjust_request_size (size align : Z) : Z :=
  if c_true size then
    let aligned := align_up size align in
    if aligned <? block_size_max
    then (if block_size_min <? aligned then aligned else block_size_min)
    else 0
  else 0.

Definition mapping_insert (size : Z) : Z * Z :=
  if size <? SMALL_BLOCK_SIZE then
    (0, Z.quot (s32 size) (Z.quot SMALL_BLOCK_SIZE SL_INDEX_COUNT))
  else
    let fl := tlsf_fls_sizet size in
    let sl := s32 (size .>> (fl - SL_INDEX_COUNT_LOG2)) .^ (1 .<< SL_INDEX_COUNT_LOG2) in
    (fl - (FL_INDEX_SHIFT - 1), sl).

Definition mapping_search (size : Z) : Z * Z :=
  let size :=
    if SMALL_BLOCK_SIZE <=? size then
      let round := u64 (s32 (1 .<< (tlsf_fls_sizet size - SL_INDEX_COUNT_LOG2)) - 1) in
      u64 (size + round)
    else size in
  mapping_insert size.

(** ** Bit searches *)

(** Index of the lowest set bit. *)
Fixpoint pos_ctz (p : positive) : Z :=
  match p with
  | xO q => Z.succ (pos_ctz q)
  | _ => 0
  end.
Definition ctz (z : Z) : Z := match z with Zpos p => pos_ctz p | _ => 0 end.

Lemma pos_ctz_nonneg p : 0 <= pos_ctz p.
Proof. induction p; cbn; lia. Qed.

Lemma land_neg p : Zpos p .& Z.opp (Zpos p) = 2 ^ pos_ctz p.
Proof.
  induction p as [p IH|p IH|]; cbn [pos_ctz].
  - rewrite Pos2Z.inj_xI. apply Z.bits_inj'; intros i Hi.
    replace (- (2 * Z.pos p + 1)) with (2 * Z.lnot (Z.pos p) + 1) by (unfold Z.lnot; lia).
    rewrite Z.land_spec. destruct (decide (i = 0)) as [->|].
    { by rewrite !Z.testbit_odd_0. }
    replace i with (Z.succ (i - 1)) by lia.
    rewrite !Z.testbit_odd_succ by lia.
    rewrite Z.lnot_spec by lia. rewrite andb_negb_r. change (2 ^ 0) with (2 ^ 0).
    rewrite Z.pow2_bits_false by lia. done.
  - rewrite Pos2Z.inj_xO. rewrite Z.pow_succ_r by apply pos_ctz_nonneg. rewrite <- IH.
    replace (- (2 * Z.pos p)) with (2 * - Z.pos p) by lia.
    change 2 with (2 ^ 1). rewrite !(Z.mul_comm (2 ^ 1)), <- !Z.shiftl_mul_pow2 by lia.
    by rewrite Z.shiftl_land.
  - done.
Qed.

Lemma ctz_testbit x : 0 < x -> Z.testbit x (ctz x) = true.
Proof.
  destruct x as [|p|p]; try lia. intros _. unfold ctz.
  induction p as [p IH|p IH|]; [done| |done].
  cbn [pos_ctz]. pose proof (pos_ctz_nonneg p). rewrite Pos2Z.inj_xO.
  by rewrite Z.double_bits_succ.
Qed.

Lemma ctz_below x i : 0 < x -> i < ctz x -> Z.testbit x i = false.
Proof.
  destruct x as [|p|p]; try lia. intros _. unfold ctz. revert i.
  induction p as [p IH|p IH|]; intros i Hi; cbn [pos_ctz] in Hi;
    try by rewrite Z.testbit_neg_r.
  destruct (decide (i < 0)); [by rewrite Z.testbit_neg_r|].
  rewrite Pos2Z.inj_xO. destruct (decide (i = 0)) as [->|]; [by rewrite Z.testbit_even_0|].
  replace i with (Z.succ (i - 1)) by lia. rewrite Z.double_bits_succ. apply IH. lia.
Qed.

Lemma ctz_range x w : 0 < x < 2 ^ w -> 0 <= w -> 0 <= ctz x < w.
Proof.
  intros Hx Hw. split; [destruct x; try lia; apply pos_ctz_nonneg|].
  destruct (decide (ctz x < w)); [done|].
  pose proof (ctz_testbit x ltac:(lia)) as Ht.
  by rewrite (Z_testbit_high w x) in Ht by lia.
Qed.

Lemma ffs_pow2 k : 0 <= k < 32 ->
  (let x := 2 ^ k in
   let n := 0 in
   let '(n, x) := if 0xFFFF <? x then (n + 16, x .>> 16) else (n, x) in
   let '(n, x) := if 0xFF <? x then (n + 8, x .>> 8) else (n, x) in
   let '(n, x) := if 0xF <? x then (n + 4, x .>> 4) else (n, x) in
   let '(n, x) := if 0x3 <? x then (n + 2, x .>> 2) else (n, x) in
   let n := if 0x1 <? x then n + 1 else n in
   n + 1) = k + 1.
Proof.
  intros Hk.
  assert (k ∈ seqZ 0 32) as Hin by (apply elem_of_seqZ; lia).
  clear Hk. revert k Hin. apply Forall_forall. by vm_compute; repeat constructor.
Qed.

Lemma tlsf_ffs_spec x : 0 < x < 2 ^ 32 -> tlsf_ffs x = ctz x.
Proof.
  intros Hx. unfold tlsf_ffs, __ffs. case_if; [lia|].
  assert (x .& u32 (- x) = 2 ^ ctz x) as ->.
  { rewrite uw_land by lia. rewrite (Z.land_comm (- x)), Z.land_assoc.
    rewrite <- uw_land by lia. usmall.
    destruct x as [|p|p]; try lia. apply land_neg. }
  pose proof (ffs_pow2 (ctz x) (ctz_range x 32 Hx ltac:(lia))) as H. cbv zeta in H. lia.
Qed.

(** One halving step of [__clz]: shifting left by [k] keeps the value in range
    and adds [k] to its logarithm. *)
Lemma clz_step k x :
  0 <= k <= 32 -> 0 < x <= 2 ^ (32 - k) - 1 ->
  u32 (x .<< k) = x * 2 ^ k /\ Z.log2 (x * 2 ^ k) = Z.log2 x + k.
Proof.
  intros Hk Hx. rewrite shiftl_pow2 by lia.
  assert (2 ^ 32 = 2 ^ (32 - k) * 2 ^ k) as E by (rewrite <- Z.pow_add_r; [f_equal; lia|lia..]).
  split; [apply uw_small; nia|]. rewrite Z.log2_mul_pow2 by lia. lia.
Qed.

(** One round of [__clz]: the count and the shifted word stay related to [x0]. *)
Lemma clz_round x0 k lim n x :
  0 < k <= 16 -> lim = 2 ^ (32 - k) - 1 ->
  n = Z.log2 x - Z.log2 x0 -> 2 ^ (32 - 2 * k) <= x < 2 ^ 32 ->
  exists n' x', (if x <=? lim then (n + k, u32 (x .<< k)) else (n, x)) = (n', x') /\
    n' = Z.log2 x' - Z.log2 x0 /\ 2 ^ (32 - k) <= x' < 2 ^ 32.
Proof.
  intros Hk -> Hn Hx. case_if; [|eexists _, _; split; [done|lia]].
  assert (2 ^ (32 - k) = 2 ^ (32 - 2 * k) * 2 ^ k) as Ek
    by (rewrite <- Z.pow_add_r; [f_equal; lia|lia..]).
  assert (2 ^ 32 = 2 ^ (32 - k) * 2 ^ k) as E32
    by (rewrite <- Z.pow_add_r; [f_equal; lia|lia..]).
  assert (0 < 2 ^ (32 - 2 * k)) by (apply Z.pow_pos_nonneg; lia).
  destruct (clz_step k x) as [E1 E2]; [lia..|].
  eexists _, _; split; [done|]. rewrite E1, E2. split; [lia|nia].
Qed.

Lemma __clz_spec x : 0 < x < 2 ^ 32 -> __clz x = 31 - Z.log2 x.
Proof.
  intros Hx. unfold __clz. case_if; [lia|]. cbv zeta.
  destruct (clz_round x 16 0xFFFF 0 x) as (n1 & x1 & -> & H1 & B1); [lia..|].
  destruct (clz_round x 8 0xFFFFFF n1 x1) as (n2 & x2 & -> & H2 & B2); [lia..|].
  destruct (clz_round x 4 0xFFFFFFF n2 x2) as (n3 & x3 & -> & H3 & B3); [lia..|].
  destruct (clz_round x 2 0x3FFFFFFF n3 x3) as (n4 & x4 & -> & H4 & B4); [lia..|].
  case_if.
  - rewrite (Z.log2_unique x4 30) in H4 by (pow2; lia). lia.
  - rewrite (Z.log2_unique x4 31) in H4 by (pow2; lia). lia.
Qed.

Lemma tlsf_fls_spec x : 0 < x < 2 ^ 32 -> tlsf_fls x = Z.log2 x.
Proof.
  intros Hx. unfold tlsf_fls, c_true. case_if; [|lia].
  rewrite __clz_spec by done. lia.
Qed.

Lemma u32_s32 z : u32 (s32 z) = u32 z.
Proof.
  unfold sw. case_if; [by rewrite uw_uw|]. unfold uw.
  rewrite <- (Z.mod_add (z mod 2 ^ 32 - 2 ^ 32) 1) by lia.
  replace (z mod 2 ^ 32 - 2 ^ 32 + 1 * 2 ^ 32) with (z mod 2 ^ 32) by lia.
  by rewrite Z.mod_mod by lia.
Qed.

Lemma s32_zero z : 0 <= z < 2 ^ 32 -> (s32 z =? 0) = (z =? 0).
Proof. intros H. unfold sw. rewrite uw_small by done. pow2. repeat case_if; lia. Qed.

Lemma tlsf_fls_sizet_spec x : 0 < x < 2 ^ 64 -> tlsf_fls_sizet x = Z.log2 x.
Proof.
  intros Hx. unfold tlsf_fls_sizet, c_true.
  assert (0 <= x .>> 32 < 2 ^ 32) as Hh.
  { rewrite shiftr_pow2 by lia. pow2. split; [apply Z.div_pos; lia|].
    apply Z.div_lt_upper_bound; lia. }
  rewrite s32_zero by done. rewrite !u32_s32. case_if.
  - rewrite (uw_small 32 (x .>> 32)) by done. rewrite tlsf_fls_spec by lia.
    rewrite Z.log2_shiftr by lia.
    assert (32 <= Z.log2 x); [|lia]. apply Z.log2_le_pow2; [lia|].
    rewrite shiftr_pow2 in * by lia. pow2.
    destruct (decide (x < 4294967296)); [|lia]. rewrite Z.div_small in *; lia.
  - rewrite shiftr_pow2 in * by lia. apply Z.div_small_iff in E; [|lia].
    rewrite (Z.land_ones _ 32), uw_small by lia. rewrite Z.mod_small by lia.
    apply tlsf_fls_spec. lia.
Qed.

(** ** Alignment *)

Lemma land_lnot_ones y k :
  0 <= k <= 64 -> 0 <= y < 2 ^ 64 -> y .& u64 (Z.lnot (2 ^ k - 1)) = y - y mod 2 ^ k.
Proof.
  intros Hk Hy.
  assert (y - y mod 2 ^ k = (y .>> k) .<< k) as ->.
  { rewrite shiftl_pow2, shiftr_pow2 by lia.
    pose proof (split_word y k ltac:(lia)). lia. }
  replace (2 ^ k - 1) with (Z.ones k) by (rewrite Z.ones_equiv; lia).
  apply Z.bits_inj'; intros i Hi. rewrite Z.land_spec, uw_testbit by lia.
  rewrite Z.lnot_spec by lia. rewrite Z.shiftl_spec by lia.
  destruct (decide (i < k)).
  - rewrite Z.ones_spec_low, (Z.testbit_neg_r _ (i - k)) by lia.
    case_if; by rewrite andb_false_r.
  - rewrite Z.ones_spec_high by lia. rewrite Z.shiftr_spec by lia.
    replace (i - k + k) with i by lia. case_if; [by rewrite andb_true_r|].
    by rewrite (Z_testbit_high 64 y i) by lia.
Qed.

(** Round up to a multiple of [a]. *)
Definition round_up (x a : Z) : Z := (x + a - 1) / a * a.

Lemma round_up_spec x a : 0 < a ->
  x <= round_up x a < x + a /\ (a | round_up x a).
Proof.
  intros Ha. unfold round_up. split; [|by exists ((x + a - 1) / a)].
  pose proof (Z.mul_div_le (x + a - 1) a Ha).
  pose proof (Z.mul_succ_div_gt (x + a - 1) a Ha). lia.
Qed.

Lemma round_up_divides x a : 0 < a -> (a | x) -> round_up x a = x.
Proof.
  intros Ha [q ->]. unfold round_up.
  replace (q * a + a - 1) with ((a - 1) + q * a) by lia.
  rewrite Z.div_add, Z.div_small by lia. lia.
Qed.

Lemma align_up_spec x k :
  0 <= k <= 63 -> 0 <= x -> x + 2 ^ k - 1 < 2 ^ 64 ->
  align_up x (2 ^ k) = round_up x (2 ^ k).
Proof.
  intros Hk Hx Hb. unfold align_up.
  assert (0 < 2 ^ k) by (apply Z.pow_pos_nonneg; lia).
  rewrite (uw_small 64 (2 ^ k - 1)) by lia.
  rewrite (uw_small 64 (x + _)) by lia.
  rewrite land_lnot_ones by lia. unfold round_up.
  replace (x + (2 ^ k - 1)) with (x + 2 ^ k - 1) by lia.
  pose proof (split_word (x + 2 ^ k - 1) k ltac:(lia)). lia.
Qed.

Lemma align_ptr_align_up ptr align : align_ptr ptr align = align_up ptr align.
Proof. reflexivity. Qed.

Lemma align_down_spec x k :
  0 <= k <= 63 -> 0 <= x < 2 ^ 64 -> align_down x (2 ^ k) = x - x mod 2 ^ k.
Proof.
  intros Hk Hx. unfold align_down.
  assert (0 < 2 ^ k) by (apply Z.pow_pos_nonneg; lia).
  assert (2 ^ k <= 2 ^ 63) by (apply Z.pow_le_mono_r; lia).
  rewrite (uw_small 64 (2 ^ k - 1)) by (pow2; lia).
  replace (2 ^ k - 1) with (Z.ones k) by (rewrite Z.ones_equiv; lia).
  rewrite Z.land_ones by lia. apply uw_small.
  pose proof (Z.mod_pos_bound x (2 ^ k)). pose proof (Z.mod_le x (2 ^ k)). lia.
Qed.

(** A successful size adjustment: at least the request, at least the minimum
    block size, a multiple of 8, and below [block_size_max]. *)
Lemma adjust_request_size_spec size k :
  3 <= k <= 63 -> 0 <= size -> size + 2 ^ k - 1 < 2 ^ 64 ->
  let r := adjust_request_size size (2 ^ k) in
  r = 0 \/ (0 < size /\ size <= r < 2 ^ 32 /\ 24 <= r /\ (8 | r)).
Proof.
  intros Hk Hs Hb r. subst r. unfold adjust_request_size, c_true.
  assert (2 ^ 3 <= 2 ^ k) by (apply Z.pow_le_mono_r; lia).
  case_if; [|by left]. case_if; [|by left]. right.
  change block_size_max with (2 ^ 32) in *. change block_size_min with 24.
  assert (8 | 2 ^ k) as H8.
  { exists (2 ^ (k - 3)). change 8 with (2 ^ 3). rewrite <- Z.pow_add_r by lia. f_equal; lia. }
  rewrite align_up_spec in * by lia.
  destruct (round_up_spec size (2 ^ k)) as [? Hd]; [lia|].
  pose proof (Z.divide_trans _ _ _ H8 Hd).
  case_if; repeat split; try lia; [done|by exists 3].
Qed.

(** ** Size classes *)

(** Smallest size of class [(fl, sl)]. *)
Definition class_min (c : Z * Z) : Z :=
  if c.1 =? 0 then c.2 * 8 else 2 ^ (c.1 + 7) + c.2 * 2 ^ (c.1 + 2).

Definition class_valid (c : Z * Z) : Prop :=
  0 <= c.1 < FL_INDEX_COUNT /\ 0 <= c.2 < SL_INDEX_COUNT.

(** The order in which classes are searched. *)
Definition class_le (c d : Z * Z) : Prop :=
  c.1 < d.1 \/ (c.1 = d.1 /\ c.2 <= d.2).

Lemma mapping_insert_small size :
  0 <= size < 256 -> mapping_insert size = (0, size / 8).
Proof.
  intros H. unfold mapping_insert. change SMALL_BLOCK_SIZE with 256.
  case_if; [|lia]. rewrite sw_small by lia. change (256 ÷ SL_INDEX_COUNT) with 8.
  by rewrite Z.quot_div_nonneg by lia.
Qed.

Lemma mapping_insert_large size f :
  8 <= f < 63 -> 2 ^ f <= size < 2 ^ (f + 1) ->
  mapping_insert size = (f - 7, size / 2 ^ (f - 5) - 32) /\
  32 <= size / 2 ^ (f - 5) < 64.
Proof.
  intros Hf Hs. unfold mapping_insert. change SMALL_BLOCK_SIZE with (2 ^ 8).
  change SL_INDEX_COUNT_LOG2 with 5. change (FL_INDEX_SHIFT - 1) with 7.
  assert (2 ^ 8 <= 2 ^ f) by (apply Z.pow_le_mono_r; lia).
  assert (2 ^ (f + 1) <= 2 ^ 63) by (apply Z.pow_le_mono_r; lia).
  case_if; [lia|].
  rewrite tlsf_fls_sizet_spec by (pow2; lia).
  rewrite (Z.log2_unique size f) by (rewrite <- ?Z.add_1_r; lia).
  rewrite shiftr_pow2 by lia.
  assert (2 ^ f = 32 * 2 ^ (f - 5)) as Ef
    by (change 32 with (2 ^ 5); rewrite <- Z.pow_add_r by lia; f_equal; lia).
  assert (2 ^ (f + 1) = 64 * 2 ^ (f - 5)) as Ef1
    by (change 64 with (2 ^ 6); rewrite <- Z.pow_add_r by lia; f_equal; lia).
  assert (0 < 2 ^ (f - 5)) by (apply Z.pow_pos_nonneg; lia).
  assert (32 <= size / 2 ^ (f - 5) < 64) as Hq.
  { split; [apply Z.div_le_lower_bound|apply Z.div_lt_upper_bound]; lia. }
  split; [|done]. rewrite sw_small by lia. f_equal.
  change (1 .<< 5) with 32. set (q := size / 2 ^ (f - 5)) in *.
  assert (q ∈ seqZ 32 32) as Hin by (apply elem_of_seqZ; lia).
  clearbody q. clear - Hin. revert q Hin. apply Forall_forall.
  by vm_compute; repeat constructor.
Qed.

(** A size of at least 256 lies in a power-of-two interval. *)
Lemma size_log size : 256 <= size < 2 ^ 64 ->
  exists f, 8 <= f < 64 /\ 2 ^ f <= size < 2 ^ (f + 1) /\ f = Z.log2 size.
Proof.
  intros H. exists (Z.log2 size). pose proof (Z.log2_spec size ltac:(lia)) as L.
  rewrite Z.add_1_r. repeat split; try lia.
  - change 8 with (Z.log2 256). apply Z.log2_le_mono. lia.
  - apply Z.log2_lt_pow2; lia.
Qed.

Lemma log2_lt32 size f : 2 ^ f <= size < 2 ^ 32 -> 0 <= f -> f < 32.
Proof. intros H Hf. apply (Z.pow_lt_mono_r_iff 2); lia. Qed.

(** The class of any size a block can have is a valid index into
    [sl_bitmap] and [blocks], and the size is at least the class minimum. *)
Lemma mapping_insert_valid size :
  0 <= size < 2 ^ 32 ->
  class_valid (mapping_insert size) /\ class_min (mapping_insert size) <= size.
Proof.
  intros H. unfold class_valid, class_min.
  change FL_INDEX_COUNT with 25. change SL_INDEX_COUNT with 32.
  destruct (decide (size < 256)).
  - rewrite mapping_insert_small by lia. cbn [fst snd].
    pose proof (Z.mul_div_le size 8). assert (size / 8 < 32) by (apply Z.div_lt_upper_bound; lia).
    assert (0 <= size / 8) by (apply Z.div_pos; lia). cbn. lia.
  - destruct (size_log size) as (f & Hf & Hs & _); [lia|].
    pose proof (log2_lt32 size f ltac:(lia) ltac:(lia)).
    destruct (mapping_insert_large size f) as [-> Hq]; [lia..|]. cbn [fst snd].
    split; [lia|]. case_if; [lia|].
    replace (f - 7 + 7) with f by lia. replace (f - 7 + 2) with (f - 5) by lia.
    assert (2 ^ f = 32 * 2 ^ (f - 5))
      by (change 32 with (2 ^ 5); rewrite <- Z.pow_add_r by lia; f_equal; lia).
    pose proof (Z.mul_div_le size (2 ^ (f - 5))). nia.
Qed.

Lemma class_min_mono c d :
  class_valid c -> class_valid d -> class_le c d -> class_min c <= class_min d.
Proof.
  destruct c as [f s], d as [f' s']. unfold class_valid, class_le, class_min; cbn [fst snd].
  change FL_INDEX_COUNT with 25. change SL_INDEX_COUNT with 32.
  intros Hc Hd Hle.
  assert (forall n, 0 <= n -> 2 ^ (n + 7) = 32 * 2 ^ (n + 2) /\ 0 < 2 ^ (n + 2)) as P.
  { intros n Hn. split; [|apply Z.pow_pos_nonneg; lia].
    change 32 with (2 ^ 5). rewrite <- Z.pow_add_r by lia. f_equal; lia. }
  destruct (P f) as [E1 P1]; [lia|]. destruct (P f') as [E2 P2]; [lia|].
  destruct Hle as [Hlt|[<- Hs]]; [|case_if; nia].
  repeat case_if; try lia.
  - assert (2 ^ 8 <= 2 ^ (f' + 7)) by (apply Z.pow_le_mono_r; lia). nia.
  - assert (2 ^ (f + 8) <= 2 ^ (f' + 7)) by (apply Z.pow_le_mono_r; lia).
    replace (f + 8) with (Z.succ (f + 7)) in * by lia. rewrite Z.pow_succ_r in * by lia. nia.
Qed.

(** [mapping_search] rounds up: every block of a class it can lead to is
    large enough for the request. *)
Lemma mapping_search_min size :
  0 < size < 2 ^ 32 -> (8 | size) -> class_valid (mapping_search size) ->
  size <= class_min (mapping_search size).
Proof.
  intros H [q Hq] Hv. unfold mapping_search in *. change SMALL_BLOCK_SIZE with 256 in *.
  case_if; [|rewrite mapping_insert_small by lia; unfold class_min; cbn [fst snd Z.eqb];
             subst size; rewrite Z.div_mul by lia; lia].
  destruct (size_log size) as (f & Hf & Hs & El); [lia|].
  pose proof (log2_lt32 size f ltac:(lia) ltac:(lia)).
  rewrite tlsf_fls_sizet_spec, <- El in * by lia.
  change SL_INDEX_COUNT_LOG2 with 5 in *. rewrite shiftl_pow2 in * by lia.
  rewrite Z.mul_1_l in *.
  assert (2 ^ (f - 5) <= 2 ^ 26) by (apply Z.pow_le_mono_r; lia).
  assert (0 < 2 ^ (f - 5)) by (apply Z.pow_pos_nonneg; lia).
  rewrite sw_small in * by (pow2; lia).
  rewrite (uw_small 64 (2 ^ (f - 5) - 1)), uw_small in * by (pow2; lia).
  set (s := size + (2 ^ (f - 5) - 1)) in *.
  assert (2 ^ f = 32 * 2 ^ (f - 5)) as Ef
    by (change 32 with (2 ^ 5); rewrite <- Z.pow_add_r by lia; f_equal; lia).
  assert (2 ^ (f + 1) = 2 * 2 ^ f) as Ef1 by (rewrite Z.pow_add_r by lia; lia).
  destruct (decide (s < 2 ^ (f + 1))) as [Hlt|Hge].
  - destruct (mapping_insert_large s f) as [-> Hq']; [lia..|].
    unfold class_min; cbn [fst snd]. case_if; [lia|].
    replace (f - 7 + 7) with f by lia. replace (f - 7 + 2) with (f - 5) by lia.
    pose proof (Z.mul_succ_div_gt s (2 ^ (f - 5)) ltac:(lia)). nia.
  - assert (2 ^ (f + 1 + 1) = 2 * 2 ^ (f + 1)) as Ef2 by (rewrite (Z.pow_add_r _ (f + 1)) by lia; lia).
    destruct (mapping_insert_large s (f + 1)) as [-> Hq']; [lia..|].
    unfold class_min; cbn [fst snd]. case_if; [lia|].
    replace (f + 1 - 7 + 7) with (f + 1) by lia. replace (f + 1 - 7 + 2) with (f - 4) by lia.
    assert (0 < 2 ^ (f - 4)) by (apply Z.pow_pos_nonneg; lia).
    replace (f + 1 - 5) with (f - 4) in * by lia. nia.
Qed.

Lemma mapping_search_range size :
  0 < size < 2 ^ 32 ->
  0 <= (mapping_search size).1 /\ 0 <= (mapping_search size).2 < SL_INDEX_COUNT.
Proof.
  intros H. unfold mapping_search. change SMALL_BLOCK_SIZE with 256. change SL_INDEX_COUNT with 32.
  match goal with |- context [mapping_insert ?x] => set (s := x) end.
  assert (0 < s < 2 ^ 33) as Hs.
  { subst s. case_if; [|pow2; lia].
    destruct (size_log size) as (f & Hf & Hs & El); [lia|].
    pose proof (log2_lt32 size f ltac:(lia) ltac:(lia)).
    rewrite tlsf_fls_sizet_spec, <- El by lia. change SL_INDEX_COUNT_LOG2 with 5.
    rewrite shiftl_pow2 by lia.
    assert (2 ^ (f - 5) <= 2 ^ 26) by (apply Z.pow_le_mono_r; lia).
    assert (0 < 2 ^ (f - 5)) by (apply Z.pow_pos_nonneg; lia).
    rewrite Z.mul_1_l, sw_small by (pow2; lia).
    rewrite (uw_small 64 (2 ^ (f - 5) - 1)), uw_small by (pow2; lia). pow2; lia. }
  clearbody s. destruct (decide (s < 256)).
  - rewrite mapping_insert_small by lia. cbn [fst snd].
    assert (s / 8 < 32) by (apply Z.div_lt_upper_bound; lia).
    assert (0 <= s / 8) by (apply Z.div_pos; lia). lia.
  - destruct (size_log s) as (f & Hf & Hs' & El); [lia|].
    assert (f < 33) by (apply (Z.pow_lt_mono_r_iff 2); lia).
    destruct (mapping_insert_large s f) as [-> Hq']; [lia..|]. cbn [fst snd]. lia.
Qed.

(** Larger sizes are in later classes. *)
Lemma mapping_insert_mono size size' :
  0 <= size <= size' -> size' < 2 ^ 63 -> class_le (mapping_insert size) (mapping_insert size').
Proof.
  intros H H'. destruct (decide (size' < 256)).
  { rewrite !mapping_insert_small by lia. right; cbn. split; [done|]. apply Z.div_le_mono; lia. }
  destruct (size_log size') as (f' & Hf' & Hs' & El'); [pow2; lia|].
  assert (f' < 63) by (apply (Z.pow_lt_mono_r_iff 2); lia).
  destruct (mapping_insert_large size' f' ltac:(lia) Hs') as [-> _].
  destruct (decide (size < 256)).
  { rewrite mapping_insert_small by lia. left; cbn. lia. }
  destruct (size_log size) as (f & Hf & Hs & El); [pow2; lia|].
  assert (f <= f') as Hff by (rewrite El, El'; apply Z.log2_le_mono; lia).
  destruct (mapping_insert_large size f ltac:(lia) Hs) as [-> _].
  destruct (decide (f = f')) as [->|]; [|left; cbn; lia].
  right; cbn. split; [done|]. apply Z.sub_le_mono_r, Z.div_le_mono; [|lia].
  apply Z.pow_pos_nonneg; lia.
Qed.

(** A request rounded up to the next boundary of its size classes. *)
Definition class_size (size : Z) : Z :=
  if SMALL_BLOCK_SIZE <=? size then
    let step := 2 ^ (Z.log2 size - 5) in (size + step - 1) / step * step
  else size.

Lemma mapping_search_large size f : 256 <= size < 2 ^ 32 -> 8 <= f -> 2 ^ f <= size < 2 ^ (f + 1) ->
  mapping_search size = mapping_insert (size + 2 ^ (f - 5) - 1).
Proof.
  intros H Hf Hs. pose proof (log2_lt32 size f ltac:(lia) ltac:(lia)). unfold mapping_search. change SMALL_BLOCK_SIZE with 256.
  rewrite (proj2 (Z.leb_le 256 size)) by lia. rewrite tlsf_fls_sizet_spec by (pow2; lia).
  rewrite (Z.log2_unique size f) by (rewrite <- ?Z.add_1_r; lia). change SL_INDEX_COUNT_LOG2 with 5.
  assert (2 ^ (f - 5) <= 2 ^ 26) by (apply Z.pow_le_mono_r; lia).
  assert (0 < 2 ^ (f - 5)) by (apply Z.pow_pos_nonneg; lia).
  f_equal. rewrite shiftl_pow2, Z.mul_1_l by lia.
  change (2 ^ 26) with 67108864 in *. rewrite sw_small by (pow2; lia).
  rewrite (uw_small 64 (2 ^ (f - 5) - 1)) by (pow2; lia). rewrite uw_small by (pow2; lia). lia.
Qed.

(** The classes of sizes from [2 ^ f] on. *)
Lemma class_le_large f q s : 8 <= f < 63 -> 32 <= q -> q < 64 -> 0 <= s < 2 ^ 32 ->
  class_le (f - 7, q - 32) (mapping_insert s) <-> q * 2 ^ (f - 5) <= s.
Proof.
  intros Hf Hq Hq' Hs. assert (2 ^ f = 32 * 2 ^ (f - 5)) as Ef
    by (change 32 with (2 ^ 5); rewrite <- Z.pow_add_r by lia; f_equal; lia).
  assert (2 ^ (f + 1) = 2 * 2 ^ f) as Ef1 by (rewrite Z.pow_add_r by lia; lia).
  assert (0 < 2 ^ (f - 5)) by (apply Z.pow_pos_nonneg; lia). assert (2 ^ 8 <= 2 ^ f) by (apply Z.pow_le_mono_r; lia).
  unfold class_le; cbn [fst snd]. destruct (decide (s < 256)).
  { rewrite mapping_insert_small by lia. cbn [fst snd]. nia. }
  destruct (size_log s) as (f' & Hf' & Hs' & _); [lia|]. pose proof (log2_lt32 s f' ltac:(lia) ltac:(lia)).
  destruct (mapping_insert_large s f') as [-> _]; [lia..|]. cbn [fst snd]. destruct (Z.lt_trichotomy f f') as [Hlt|[<-|Hgt]].
  - assert (2 ^ (f + 1) <= 2 ^ f') by (apply Z.pow_le_mono_r; lia). split; [nia|lia].
  - transitivity (q <= s / 2 ^ (f - 5)); [lia|]. split; intros Hle.
    + pose proof (Z.mul_div_le s (2 ^ (f - 5))). nia.
    + apply Z.div_le_lower_bound; lia.
  - assert (2 ^ (f' + 1) <= 2 ^ f) by (apply Z.pow_le_mono_r; lia). split; [lia|nia].
Qed.

(** A search finds exactly the sizes from the rounded request on. *)
Lemma mapping_search_exact size s : 0 < size < 2 ^ 32 -> (8 | size) -> 0 <= s < 2 ^ 32 ->
  class_le (mapping_search size) (mapping_insert s) <-> class_size size <= s.
Proof.
  intros H [k Hk] Hs. unfold class_size. change SMALL_BLOCK_SIZE with 256. destruct (256 <=? size) eqn:E; zb.
  - destruct (size_log size) as (f & Hf & Hsz & <-); [lia|]. pose proof (log2_lt32 size f ltac:(lia) ltac:(lia)).
    rewrite (mapping_search_large size f) by lia. cbv zeta. set (step := 2 ^ (f - 5)). set (t := size + step - 1). assert (Et : t = size + step - 1) by done. clearbody t.
    assert (0 < step) by (apply Z.pow_pos_nonneg; lia).
    assert (2 ^ f = 32 * step) as Ef by (change 32 with (2 ^ 5); unfold step; rewrite <- Z.pow_add_r by lia; f_equal; lia).
    assert (2 ^ (f + 1) = 64 * step) as Ef1 by (rewrite Z.pow_add_r by lia; lia). destruct (decide (t < 2 ^ (f + 1))).
    + destruct (mapping_insert_large t f) as [-> Hq]; [lia..|]. fold step in Hq |- *. apply class_le_large; lia.
    + assert (2 ^ (f + 1 + 1) = 2 * 2 ^ (f + 1)) by (rewrite (Z.pow_add_r _ (f + 1)) by lia; lia).
      destruct (mapping_insert_large t (f + 1)) as [-> Hq]; [lia..|]. rewrite class_le_large by lia.
      replace (2 ^ (f + 1 - 5)) with (2 * step) in * by (unfold step; replace (f + 1 - 5) with (Z.succ (f - 5)) by lia; rewrite Z.pow_succ_r; lia).
      assert (t / (2 * step) = 32) as -> by (symmetry; apply (Z.div_unique_pos _ _ _ (t - 2 * step * 32)); lia).
      assert (t / step = 64) as -> by (symmetry; apply (Z.div_unique_pos _ _ _ (t - step * 64)); lia). lia.
  - unfold mapping_search. change SMALL_BLOCK_SIZE with 256. rewrite (proj2 (Z.leb_gt 256 size)) by lia.
    rewrite (mapping_insert_small size) by lia. subst size. rewrite Z.div_mul by lia. unfold class_le; cbn [fst snd].
    destruct (decide (s < 256)).
    + rewrite mapping_insert_small by lia. cbn [fst snd]. transitivity (k <= s / 8); [lia|]. split; intros Hle.
      * pose proof (Z.mul_div_le s 8). lia.
      * apply Z.div_le_lower_bound; lia.
    + destruct (size_log s) as (f' & Hf' & Hs' & _); [lia|]. pose proof (log2_lt32 s f' ltac:(lia) ltac:(lia)).
      destruct (mapping_insert_large s f') as [-> _]; [lia..|]. cbn [fst snd]. lia.
Qed.
