(* ===== verification/Tlsf.v ===== *)
(** TLSF, part 2: the operations of [clib/lib/tlsf/tlsf.c] on the heap.

    Block headers live in byte memory at the address of the block; [control_t]
    is the record [heap], except for its first member [block_null], which the
    list operations write through pointers and which therefore lives in memory
    at the address [ctl] of the control structure. *)
From S2P Require Import Prelude Memory TlsfBits.

(** ** State *)

Record heap := Heap {
  ctl : Z;                      (* address of control_t = &control->block_null *)
  fl_bitmap : Z;
  sl_bitmap : list Z;
  blocks : list (list Z);
  hmem : memory
}.

Definition set_mem (h : heap) (m : memory) : heap :=
  Heap (ctl h) (fl_bitmap h) (sl_bitmap h) (blocks h) m.

(** Array accesses [sl_bitmap[fl]] and [blocks[fl][sl]]. *)
Definition sl_get (h : heap) (fl : Z) : Z := default 0 (sl_bitmap h !! Z.to_nat fl).
Definition sl_set (h : heap) (fl v : Z) : heap :=
  Heap (ctl h) (fl_bitmap h) (<[Z.to_nat fl := v]> (sl_bitmap h)) (blocks h) (hmem h).
Definition fl_set (h : heap) (v : Z) : heap :=
  Heap (ctl h) v (sl_bitmap h) (blocks h) (hmem h).
Definition blocks_get (h : heap) (fl sl : Z) : Z :=
  default 0 (default [] (blocks h !! Z.to_nat fl) !! Z.to_nat sl).
Definition blocks_set (h : heap) (fl sl v : Z) : heap :=
  Heap (ctl h) (fl_bitmap h) (sl_bitmap h)
       (alter (<[Z.to_nat sl := v]>) (Z.to_nat fl) (blocks h)) (hmem h).

(** Fields of [block_header_t]. *)
Definition prev_phys_block (b : Z) : Z := b.
Definition size_field (b : Z) : Z := b + 8.
Definition next_free (b : Z) : Z := b + 16.
Definition prev_free (b : Z) : Z := b + 24.

Definition block_header_free_bit : Z := 1 .<< 0.
Definition block_header_prev_free_bit : Z := 1 .<< 1.
Definition header_bits : Z := block_header_free_bit .| block_header_prev_free_bit.

(** ** Header operations *)

Definition block_size (m : memory) (b : Z) : Z :=
  ld64 m (size_field b) .& u64 (Z.lnot header_bits).

Definition block_set_size (m : memory) (b size : Z) : memory :=
  let oldsize := ld64 m (size_field b) in
  st64 m (size_field b) (size .| (oldsize .& header_bits)).

Definition block_is_last (m : memory) (b : Z) : bool := block_size m b =? 0.

Definition block_is_free (m : memory) (b : Z) : bool :=
  c_true (s32 (ld64 m (size_field b) .& block_header_free_bit)).

Definition block_set_free (m : memory) (b : Z) : memory :=
  st64 m (size_field b) (ld64 m (size_field b) .| block_header_free_bit).

Definition block_set_used (m : memory) (b : Z) : memory :=
  st64 m (size_field b) (ld64 m (size_field b) .& u64 (Z.lnot block_header_free_bit)).

Definition block_is_prev_free (m : memory) (b : Z) : bool :=
  c_true (s32 (ld64 m (size_field b) .& block_header_prev_free_bit)).

Definition block_set_prev_free (m : memory) (b : Z) : memory :=
  st64 m (size_field b) (ld64 m (size_field b) .| block_header_prev_free_bit).

Definition block_set_prev_used (m : memory) (b : Z) : memory :=
  st64 m (size_field b) (ld64 m (size_field b) .& u64 (Z.lnot block_header_prev_free_bit)).

Definition block_from_ptr (ptr : Z) : Z := u64 (ptr - block_start_offset).
Definition block_to_ptr (b : Z) : Z := u64 (b + block_start_offset).
Definition offset_to_block (ptr size : Z) : Z := u64 (ptr + size).

Definition block_prev (m : memory) (b : Z) : Z := ld64 m (prev_phys_block b).

Definition block_next (m : memory) (b : Z) : Z :=
  offset_to_block (block_to_ptr b) (u64 (block_size m b - block_header_overhead)).

Definition block_link_next (m : memory) (b : Z) : memory * Z :=
  let next := block_next m b in
  (st64 m (prev_phys_block next) b, next).

Definition block_mark_as_free (m : memory) (b : Z) : memory :=
  let '(m, next) := block_link_next m b in
  let m := block_set_prev_free m next in
  block_set_free m b.

Definition block_mark_as_used (m : memory) (b : Z) : memory :=
  let next := block_next m b in
  let m := block_set_prev_used m next in
  block_set_used m b.

(** ** Free lists *)

(** Returns the block and the updated [*fli], [*sli]. *)
Definition search_suitable_block (h : heap) (fli sli : Z) : Z * Z * Z :=
  let fl := fli in
  let sl := sli in
  let sl_map := sl_get h fl .& u32 (u32 (Z.lnot 0) .<< sl) in
  if c_true sl_map then
    let sl := tlsf_ffs sl_map in
    (blocks_get h fl sl, fl, sl)
  else
    let fl_map := fl_bitmap h .& u32 (u32 (Z.lnot 0) .<< (fl + 1)) in
    if c_true fl_map then
      let fl := tlsf_ffs fl_map in
      let sl_map := sl_get h fl in
      let sl := tlsf_ffs sl_map in
      (blocks_get h fl sl, fl, sl)
    else (0, fl, sl).

Definition remove_free_block (h : heap) (block fl sl : Z) : heap :=
  let m := hmem h in
  let prev := ld64 m (prev_free block) in
  let next := ld64 m (next_free block) in
  let m := st64 m (prev_free next) prev in
  let m := st64 m (next_free prev) next in
  let h := set_mem h m in
  if blocks_get h fl sl =? block then
    let h := blocks_set h fl sl next in
    if next =? ctl h then
      let h := sl_set h fl (sl_get h fl .& u32 (Z.lnot (u32 (1 .<< sl)))) in
      if c_true (sl_get h fl) then h
      else fl_set h (fl_bitmap h .& u32 (Z.lnot (u32 (1 .<< fl))))
    else h
  else h.

Definition insert_free_block (h : heap) (block fl sl : Z) : heap :=
  let current := blocks_get h fl sl in
  let m := hmem h in
  let m := st64 m (next_free block) current in
  let m := st64 m (prev_free block) (ctl h) in
  let m := st64 m (prev_free current) block in
  let h := set_mem h m in
  let h := blocks_set h fl sl block in
  let h := fl_set h (fl_bitmap h .| u32 (1 .<< fl)) in
  sl_set h fl (sl_get h fl .| u32 (1 .<< sl)).

Definition block_remove (h : heap) (block : Z) : heap :=
  let '(fl, sl) := mapping_insert (block_size (hmem h) block) in
  remove_free_block h block fl sl.

Definition block_insert (h : heap) (block : Z) : heap :=
  let '(fl, sl) := mapping_insert (block_size (hmem h) block) in
  insert_free_block h block fl sl.

(** ** Splitting and merging *)

Definition block_can_split (m : memory) (block size : Z) : bool :=
  u64 (sizeof_block_header + size) <=? block_size m block.

Definition block_split (m : memory) (block size : Z) : memory * Z :=
  let remaining := offset_to_block (block_to_ptr block) (u64 (size - block_header_overhead)) in
  let remain_size := u64 (block_size m block - u64 (size + block_header_overhead)) in
  let m := block_set_size m remaining remain_size in
  let m := block_set_size m block size in
  let m := block_mark_as_free m remaining in
  (m, remaining).

Definition block_absorb (m : memory) (prev block : Z) : memory * Z :=
  let m := st64 m (size_field prev)
             (u64 (ld64 m (size_field prev) + u64 (block_size m block + block_header_overhead))) in
  let '(m, _) := block_link_next m prev in
  (m, prev).

Definition block_merge_prev (h : heap) (block : Z) : heap * Z :=
  if block_is_prev_free (hmem h) block then
    let prev := block_prev (hmem h) block in
    let h := block_remove h prev in
    let '(m, block) := block_absorb (hmem h) prev block in
    (set_mem h m, block)
  else (h, block).

Definition block_merge_next (h : heap) (block : Z) : heap * Z :=
  let next := block_next (hmem h) block in
  if block_is_free (hmem h) next then
    let h := block_remove h next in
    let '(m, block) := block_absorb (hmem h) block next in
    (set_mem h m, block)
  else (h, block).

Definition block_trim_free (h : heap) (block size : Z) : heap :=
  if block_can_split (hmem h) block size then
    let '(m, remaining_block) := block_split (hmem h) block size in
    let '(m, _) := block_link_next m block in
    let m := block_set_prev_free m remaining_block in
    block_insert (set_mem h m) remaining_block
  else h.

Definition block_trim_used (h : heap) (block size : Z) : heap :=
  if block_can_split (hmem h) block size then
    let '(m, remaining_block) := block_split (hmem h) block size in
    let m := block_set_prev_used m remaining_block in
    let '(h, remaining_block) := block_merge_next (set_mem h m) remaining_block in
    block_insert h remaining_block
  else h.

Definition block_trim_free_leading (h : heap) (block size : Z) : heap * Z :=
  if block_can_split (hmem h) block size then
    let '(m, remaining_block) :=
      block_split (hmem h) block (u64 (size - block_header_overhead)) in
    let m := block_set_prev_free m remaining_block in
    let '(m, _) := block_link_next m block in
    (block_insert (set_mem h m) block, remaining_block)
  else (h, block).

Definition block_locate_free (h : heap) (size : Z) : heap * Z :=
  let '(block, fl, sl) :=
    if c_true size then
      let '(fl, sl) := mapping_search size in
      if fl <? FL_INDEX_COUNT then search_suitable_block h fl sl else (0, fl, sl)
    else (0, 0, 0) in
  if c_true block then (remove_free_block h block fl sl, block) else (h, block).

Definition block_prepare_used (h : heap) (block size : Z) : heap * Z :=
  if c_true block then
    let h := block_trim_free h block size in
    let h := set_mem h (block_mark_as_used (hmem h) block) in
    (h, block_to_ptr block)
  else (h, 0).

(** ** Construction *)

Definition sizeof_control : Z := 32 + 4 + 4 * FL_INDEX_COUNT + 8 * FL_INDEX_COUNT * SL_INDEX_COUNT.
Definition tlsf_size : Z := sizeof_control.
Definition tlsf_align_size : Z := ALIGN_SIZE.
Definition tlsf_block_size_min : Z := block_size_min.
Definition tlsf_block_size_max : Z := block_size_max.
Definition tlsf_pool_overhead : Z := 2 * block_header_overhead.
Definition tlsf_alloc_overhead : Z := block_header_overhead.

Definition control_construct (control : Z) (m : memory) : heap :=
  let m := st64 m (next_free control) control in
  let m := st64 m (prev_free control) control in
  Heap control 0
    (replicate (Z.to_nat FL_INDEX_COUNT) 0)
    (replicate (Z.to_nat FL_INDEX_COUNT) (replicate (Z.to_nat SL_INDEX_COUNT) control))
    m.

(** Returns the pool address, 0 on failure. *)
Definition tlsf_add_pool (h : heap) (mem bytes : Z) : heap * Z :=
  let pool_overhead := tlsf_pool_overhead in
  let pool_bytes := align_down (u64 (bytes - pool_overhead)) ALIGN_SIZE in
  if c_true (Z.rem (sw 64 mem) ALIGN_SIZE) then (h, 0)
  else if (pool_bytes <? block_size_min) || (block_size_max <? pool_bytes) then (h, 0)
  else
    let block := offset_to_block mem (u64 (- block_header_overhead)) in
    let m := block_set_size (hmem h) block pool_bytes in
    let m := block_set_free m block in
    let m := block_set_prev_used m block in
    let h := block_insert (set_mem h m) block in
    let '(m, next) := block_link_next (hmem h) block in
    let m := block_set_size m next 0 in
    let m := block_set_used m next in
    let m := block_set_prev_free m next in
    (set_mem h m, mem).

Definition tlsf_remove_pool (h : heap) (pool : Z) : heap :=
  let block := offset_to_block pool (u64 (- block_header_overhead)) in
  let '(fl, sl) := mapping_insert (block_size (hmem h) block) in
  remove_free_block h block fl sl.

Definition tlsf_create (mem : Z) (m : memory) : option heap :=
  if c_true (Z.rem (sw 64 mem) ALIGN_SIZE) then None
  else Some (control_construct mem m).

(** When [tlsf_create] returns NULL, [mem + tlsf_size()] is misaligned as well
    and [tlsf_add_pool] returns before it touches the control structure. *)
Definition tlsf_create_with_pool (mem bytes : Z) (m : memory) : option heap :=
  match tlsf_create mem m with
  | Some h => Some (tlsf_add_pool h (u64 (mem + tlsf_size)) (u64 (bytes - tlsf_size))).1
  | None => None
  end.

Definition tlsf_get_pool (h : heap) : Z := u64 (ctl h + tlsf_size).

(** ** Main interface *)

Definition tlsf_malloc (h : heap) (size : Z) : heap * Z :=
  let adjust := adjust_request_size size ALIGN_SIZE in
  let '(h, block) := block_locate_free h adjust in
  block_prepare_used h block adjust.

Definition tlsf_memalign (h : heap) (align size : Z) : heap * Z :=
  let adjust := adjust_request_size size ALIGN_SIZE in
  let gap_minimum := sizeof_block_header in
  let size_with_gap := adjust_request_size (u64 (u64 (adjust + align) + gap_minimum)) align in
  let aligned_size := if c_true adjust && (ALIGN_SIZE <? align) then size_with_gap else adjust in
  let '(h, block) := block_locate_free h aligned_size in
  let '(h, block) :=
    if c_true block then
      let ptr := block_to_ptr block in
      let aligned := align_ptr ptr align in
      let gap := u64 (aligned - ptr) in
      let '(aligned, gap) :=
        if c_true gap && (gap <? gap_minimum) then
          let gap_remain := u64 (gap_minimum - gap) in
          let offset := if align <? gap_remain then gap_remain else align in
          let next_aligned := u64 (aligned + offset) in
          let aligned := align_ptr next_aligned align in
          (aligned, u64 (aligned - ptr))
        else (aligned, gap) in
      if c_true gap then block_trim_free_leading h block gap else (h, block)
    else (h, block) in
  block_prepare_used h block adjust.

Definition tlsf_free (h : heap) (ptr : Z) : heap :=
  if c_true ptr then
    let block := block_from_ptr ptr in
    let h := set_mem h (block_mark_as_free (hmem h) block) in
    let '(h, block) := block_merge_prev h block in
    let '(h, block) := block_merge_next h block in
    block_insert h block
  else h.

Definition tlsf_realloc (h : heap) (ptr size : Z) : heap * Z :=
  if c_true ptr && (size =? 0) then (tlsf_free h ptr, 0)
  else if negb (c_true ptr) then tlsf_malloc h size
  else
    let block := block_from_ptr ptr in
    let next := block_next (hmem h) block in
    let cursize := block_size (hmem h) block in
    let combined := u64 (u64 (cursize + block_size (hmem h) next) + block_header_overhead) in
    let adjust := adjust_request_size size ALIGN_SIZE in
    if (cursize <? adjust) && (negb (block_is_free (hmem h) next) || (combined <? adjust)) then
      let '(h, p) := tlsf_malloc h size in
      if c_true p then
        let minsize := if cursize <? size then cursize else size in
        let h := set_mem h (memcpy (hmem h) p ptr minsize) in
        (tlsf_free h ptr, p)
      else (h, p)
    else
      let h :=
        if cursize <? adjust then
          let '(h, _) := block_merge_next h block in
          set_mem h (block_mark_as_used (hmem h) block)
        else h in
      (block_trim_used h block adjust, ptr).

Definition tlsf_block_size (h : heap) (ptr : Z) : Z :=
  if c_true ptr then block_size (hmem h) (block_from_ptr ptr) else 0.

(** ** Consistency checks *)

(** [tlsf_insist]: one failed check lowers the status. *)
Definition insist (x : bool) (status : Z) : Z := if x then status else status - 1.

Record integrity_t := Integ { prev_status : Z; status : Z }.

Definition integrity_walker (m : memory) (ptr size : Z) (used : bool) (integ : integrity_t) : integrity_t :=
  let block := block_from_ptr ptr in
  let this_prev_status := if block_is_prev_free m block then 1 else 0 in
  let this_status := if block_is_free m block then 1 else 0 in
  let this_block_size := block_size m block in
  let st := 0 in
  let st := insist (prev_status integ =? this_prev_status) st in
  let st := insist (size =? this_block_size) st in
  Integ this_status (status integ + st).

(** The loop over one free list; [None] when the fuel runs out. *)
Fixpoint tlsf_check_list (fuel : nat) (h : heap) (i j block status : Z) : option Z :=
  match fuel with
  | O => None
  | S fuel =>
    if block =? ctl h then Some status
    else
      let m := hmem h in
      let status := insist (block_is_free m block) status in
      let status := insist (negb (block_is_prev_free m block)) status in
      let status := insist (negb (block_is_free m (block_next m block))) status in
      let status := insist (block_is_prev_free m (block_next m block)) status in
      let status := insist (block_size_min <=? block_size m block) status in
      let '(fli, sli) := mapping_insert (block_size m block) in
      let status := insist ((fli =? i) && (sli =? j)) status in
      tlsf_check_list fuel h i j (ld64 m (next_free block)) status
  end.

(** The body of the two nested loops. *)
Definition tlsf_check_class (fuel : nat) (h : heap) (i j status : Z) : option Z :=
  let fl_map := fl_bitmap h .& u32 (1 .<< i) in
  let sl_list := sl_get h i in
  let sl_map := sl_list .& u32 (1 .<< j) in
  let block := blocks_get h i j in
  let status := if c_true fl_map then status else insist (negb (c_true sl_map)) status in
  if negb (c_true sl_map) then Some (insist (block =? ctl h) status)
  else
    let status := insist (c_true sl_list) status in
    let status := insist (negb (block =? ctl h)) status in
    tlsf_check_list fuel h i j block status.

Definition tlsf_check (fuel : nat) (h : heap) : option Z :=
  foldl (fun acc i =>
      foldl (fun acc j => status ← acc; tlsf_check_class fuel h i j status)
            acc (seqZ 0 SL_INDEX_COUNT))
    (Some 0) (seqZ 0 FL_INDEX_COUNT).

Definition default_walker {U} (m : memory) (ptr size : Z) (used : bool) (user : U) : U := user.

Fixpoint walk_blocks {U} (fuel : nat) (m : memory) (walker : memory -> Z -> Z -> bool -> U -> U)
    (block : Z) (user : U) : option U :=
  match fuel with
  | O => None
  | S fuel =>
    if c_true block && negb (block_is_last m block) then
      walk_blocks fuel m walker (block_next m block)
        (walker m (block_to_ptr block) (block_size m block) (negb (block_is_free m block)) user)
    else Some user
  end.

Definition tlsf_walk_pool {U} (fuel : nat) (m : memory) (pool : Z)
    (walker : option (memory -> Z -> Z -> bool -> U -> U)) (user : U) : option U :=
  let pool_walker := default default_walker walker in
  let block := offset_to_block pool (u64 (- block_header_overhead)) in
  walk_blocks fuel m pool_walker block user.

Definition tlsf_check_pool (fuel : nat) (m : memory) (pool : Z) : option Z :=
  status <$> tlsf_walk_pool fuel m pool (Some integrity_walker) (Integ 0 0).
