(* ===== verification/TlsfHdr.v ===== *)
(** TLSF, part 3: what the header operations do to an encoded size field. *)
From S2P Require Import Prelude Memory TlsfBits Tlsf.

(** ** Model of a block *)

(** What the heap knows of one block: its size, its two flag bits, and the
    pool (first block and sentinel address) it belongs to. *)
Record binfo := Blk { bsize : Z; bfree : bool; bpfree : bool; bpool : Z * Z }.

Definition set_bsize (i : binfo) (s : Z) : binfo := Blk s (bfree i) (bpfree i) (bpool i).
Definition set_bfree (i : binfo) (f : bool) : binfo := Blk (bsize i) f (bpfree i) (bpool i).
Definition set_bpfree (i : binfo) (p : bool) : binfo := Blk (bsize i) (bfree i) p (bpool i).

(** The contents of the size field. *)
Definition enc (i : binfo) : Z := bsize i + (Z.b2z (bfree i) + 2 * Z.b2z (bpfree i)).

Definition size_ok (s : Z) : Prop := 0 <= s < 2 ^ 64 - 8 /\ (8 | s).

(** Block that follows block [a] of size [s]. *)
Definition next_of (a s : Z) : Z := a + 8 + s.

(** ** Flag arithmetic *)

Section low_bits.
Context (k r c : Z) (Hr : 0 <= r < 4) (Hc : 0 <= c < 4).

Lemma low_split : 4 * k + r = (k * 2 ^ 2) .| r.
Proof. rewrite lor_add_disjoint by (pow2; lia). pow2; lia. Qed.

Lemma low_land : (4 * k + r) .& c = r .& c.
Proof.
  rewrite low_split, Z.land_lor_distr_l.
  assert ((k * 2 ^ 2) .& c = 0) as ->; [|by rewrite Z.lor_0_l].
  rewrite <- shiftl_pow2 by lia. apply Z.bits_inj'; intros i Hi.
  rewrite Z.land_spec, Z.bits_0. destruct (decide (i < 2)).
  - by rewrite Z.shiftl_spec_low.
  - by rewrite (Z_testbit_high 2 c i), andb_false_r by (pow2; lia).
Qed.

Lemma low_lor : (4 * k + r) .| c = 4 * k + (r .| c).
Proof.
  rewrite low_split, <- Z.lor_assoc.
  pose proof (lor_range 2 r c ltac:(lia) Hr Hc).
  rewrite lor_add_disjoint by (pow2; lia). pow2; lia.
Qed.
End low_bits.

Lemma clear_bits y c :
  0 <= y < 2 ^ 64 -> 0 <= c -> y .& u64 (Z.lnot c) = y - (y .& c).
Proof.
  intros Hy Hc. rewrite Z.sub_nocarry_ldiff.
  - apply Z.bits_inj'; intros i Hi.
    rewrite Z.land_spec, uw_testbit, Z.ldiff_spec, Z.land_spec, Z.lnot_spec by lia.
    destruct (decide (i < 64)); case_if; try lia.
    + by destruct (Z.testbit y i), (Z.testbit c i).
    + by rewrite (Z_testbit_high 64 y i) by lia.
  - apply Z.bits_inj'; intros i Hi. rewrite Z.ldiff_spec, Z.land_spec, Z.bits_0.
    by destruct (Z.testbit y i), (Z.testbit c i).
Qed.

Lemma enc_form i : size_ok (bsize i) ->
  exists k, bsize i = 4 * k /\ enc i = 4 * k + (Z.b2z (bfree i) + 2 * Z.b2z (bpfree i)).
Proof. intros [_ [q Hq]]. exists (2 * q). unfold enc. lia. Qed.

Lemma enc_range i : size_ok (bsize i) -> 0 <= enc i < 2 ^ 64.
Proof. intros [? _]. unfold enc. destruct (bfree i), (bpfree i); cbn [Z.b2z]; pow2; lia. Qed.

Lemma header_bits_eq : header_bits = 3.
Proof. reflexivity. Qed.

(** ** Header operations on an encoded field *)

Section header.
Context (m : memory) (a : Z) (i : binfo).
Context (Hok : size_ok (bsize i)) (Hm : ld64 m (a + 8) = enc i).

Local Ltac hdr :=
  let k := fresh "k" in let E1 := fresh in let E2 := fresh in
  destruct (enc_form i Hok) as (k & E1 & E2);
  pose proof (enc_range i Hok);
  unfold block_size, block_set_size, block_is_free, block_is_prev_free, block_set_free,
    block_set_used, block_set_prev_free, block_set_prev_used, size_field;
  rewrite ?Hm, ?header_bits_eq;
  change block_header_free_bit with 1; change block_header_prev_free_bit with 2;
  rewrite ?clear_bits by lia;
  rewrite ?E2, ?low_land, ?low_lor by (destruct (bfree i), (bpfree i); cbn; lia).

Local Ltac flags := destruct (bfree i), (bpfree i); bits_eval; cbn [Z.b2z]; lia.

Lemma block_size_enc : block_size m a = bsize i.
Proof. hdr. flags. Qed.

Lemma block_is_free_enc : block_is_free m a = bfree i.
Proof. hdr. by destruct (bfree i), (bpfree i). Qed.

Lemma block_is_prev_free_enc : block_is_prev_free m a = bpfree i.
Proof. hdr. by destruct (bfree i), (bpfree i). Qed.

Lemma block_set_size_enc s : size_ok s ->
  block_set_size m a s = st64 m (a + 8) (enc (set_bsize i s)).
Proof.
  intros [? [q Hq]]. hdr. f_equal. unfold enc, set_bsize; cbn [bsize bfree bpfree].
  replace s with (4 * (2 * q) + 0) by lia.
  rewrite low_lor by (destruct (bfree i), (bpfree i); bits_eval; cbn; lia).
  flags.
Qed.

Lemma block_set_free_enc : block_set_free m a = st64 m (a + 8) (enc (set_bfree i true)).
Proof.
  hdr. f_equal. unfold enc, set_bfree; cbn [bsize bfree bpfree].
  flags.
Qed.

Lemma block_set_used_enc : block_set_used m a = st64 m (a + 8) (enc (set_bfree i false)).
Proof.
  hdr. f_equal. unfold enc, set_bfree; cbn [bsize bfree bpfree].
  flags.
Qed.

Lemma block_set_prev_free_enc :
  block_set_prev_free m a = st64 m (a + 8) (enc (set_bpfree i true)).
Proof.
  hdr. f_equal. unfold enc, set_bpfree; cbn [bsize bfree bpfree].
  flags.
Qed.

Lemma block_set_prev_used_enc :
  block_set_prev_used m a = st64 m (a + 8) (enc (set_bpfree i false)).
Proof.
  hdr. f_equal. unfold enc, set_bpfree; cbn [bsize bfree bpfree].
  flags.
Qed.

Lemma block_next_enc : 0 <= a -> 8 <= bsize i -> a + 16 + bsize i < 2 ^ 64 ->
  block_next m a = next_of a (bsize i).
Proof.
  intros. unfold block_next, offset_to_block, block_to_ptr, next_of.
  rewrite block_size_enc. change block_start_offset with 16.
  change block_header_overhead with 8.
  rewrite (uw_small 64 (a + 16)), (uw_small 64 (bsize i - 8)), uw_small by (pow2; lia). lia.
Qed.
End header.

(** Setting the size of a header whose old contents are unknown keeps two
    arbitrary flag bits. *)
Lemma block_set_size_raw m a s p : size_ok s ->
  exists f pf, block_set_size m a s = st64 m (a + 8) (enc (Blk s f pf p)).
Proof.
  intros [Hs [q Hq]]. unfold block_set_size, size_field. rewrite header_bits_eq.
  set (w := ld64 m (a + 8)).
  assert (0 <= w .& 3 < 4) as Hw.
  { rewrite (Z.land_ones _ 2) by lia. apply Z.mod_pos_bound. lia. }
  exists (Z.testbit (w .& 3) 0), (Z.testbit (w .& 3) 1). f_equal.
  unfold enc; cbn [bsize bfree bpfree].
  generalize dependent (w .& 3). intros r Hr.
  replace s with (4 * (2 * q) + 0) by lia. rewrite low_lor by lia.
  assert (r = 0 \/ r = 1 \/ r = 2 \/ r = 3) as [->|[->|[->| ->]]] by lia; bits_eval; cbn; lia.
Qed.
