(* ===== verification/TlsfList.v ===== *)
(** TLSF, part 4: the segregated free lists.  [lists_ok h F L] says that the
    bitmaps, the list heads and the [next_free]/[prev_free] links of the heap
    [h] describe, for every class, the list [L fl sl], and that the listed
    blocks are exactly those of the partial map [F] (address to size), each in
    the list of its class. *)
From S2P Require Import Prelude Memory TlsfBits Tlsf.

(** ** Specification *)

(** Doubly linked segment: [p] precedes it and [e] follows it. *)
Fixpoint dlseg (m : memory) (e p : Z) (l : list Z) : Prop :=
  match l with
  | [] => True
  | b :: l' => ld64 m (b + 24) = p /\ ld64 m (b + 16) = hd e l' /\ dlseg m e b l'
  end.

Definition node (h : heap) (F : Z -> option Z) (x : Z) : Prop := x = ctl h \/ is_Some (F x).

(** Nodes are pairwise at least a header apart. *)
Definition apart (P : Z -> Prop) : Prop :=
  forall x y, P x -> P y -> x <> y -> x + 32 <= y \/ y + 32 <= x.

Record lists_ok (h : heap) (F : Z -> option Z) (L : Z -> Z -> list Z) : Prop := {
  lo_sl_len : length (sl_bitmap h) = 25%nat;
  lo_bl_len : length (blocks h) = 25%nat;
  lo_bl_inner : Forall (fun l => length l = 32%nat) (blocks h);
  lo_head fl sl : class_valid (fl, sl) -> blocks_get h fl sl = hd (ctl h) (L fl sl);
  lo_sl_range fl : 0 <= fl < 25 -> 0 <= sl_get h fl < 2 ^ 32;
  lo_sl_bit fl sl : class_valid (fl, sl) ->
    Z.testbit (sl_get h fl) sl = bool_decide (L fl sl <> []);
  lo_fl_range : 0 <= fl_bitmap h < 2 ^ 25;
  lo_fl_bit fl : 0 <= fl < 25 -> Z.testbit (fl_bitmap h) fl = negb (sl_get h fl =? 0);
  lo_dl fl sl : class_valid (fl, sl) -> dlseg (hmem h) (ctl h) (ctl h) (L fl sl);
  lo_nodup fl sl : class_valid (fl, sl) -> NoDup (L fl sl);
  lo_mem fl sl b : class_valid (fl, sl) ->
    b ∈ L fl sl <-> exists s, F b = Some s /\ mapping_insert s = (fl, sl);
  lo_ctl : F (ctl h) = None;
  lo_size b s : F b = Some s -> 0 <= s < 2 ^ 32;
  lo_addr x : node h F x -> 0 < x < 2 ^ 64 - 32;
  lo_sep : apart (node h F)
}.

Definition F_add (F : Z -> option Z) (b s : Z) : Z -> option Z :=
  fun x => if decide (x = b) then Some s else F x.
Definition F_del (F : Z -> option Z) (b : Z) : Z -> option Z :=
  fun x => if decide (x = b) then None else F x.

(** ** Segments *)

Lemma dlseg_app m e p l1 l2 :
  dlseg m e p (l1 ++ l2) <-> dlseg m (hd e l2) p l1 /\ dlseg m e (List.last l1 p) l2.
Proof.
  revert p; induction l1 as [|b l1 IH]; intros p; cbn [app dlseg]; [by cbn; tauto|].
  rewrite IH. assert (hd e (l1 ++ l2) = hd (hd e l2) l1) as -> by by destruct l1.
  assert (List.last (b :: l1) p = List.last l1 b) as ->; [|tauto].
  clear. revert b p. induction l1 as [|c l1 IH]; intros b p; [done|].
  change (List.last (c :: l1) p = List.last (c :: l1) b). by rewrite !(IH c).
Qed.

Lemma dlseg_frame m m' e p l :
  dlseg m e p l ->
  (forall b, b ∈ l -> ld64 m' (b + 24) = ld64 m (b + 24) /\ ld64 m' (b + 16) = ld64 m (b + 16)) ->
  dlseg m' e p l.
Proof.
  revert p; induction l as [|b l IH]; intros p; cbn [dlseg]; [done|].
  intros (H1 & H2 & H3) Hf. destruct (Hf b) as [-> ->]; [set_solver|].
  split; [done|]. split; [done|]. apply IH; [done|]. intros c Hc. apply Hf. set_solver.
Qed.

Section stores.
Context (P : Z -> Prop) (Hap : apart P).

(** A store into the links of a node outside the segment. *)
Lemma dlseg_st_out m e p l c o v :
  dlseg m e p l -> Forall P l -> P c -> c ∉ l -> 16 <= o <= 24 ->
  dlseg (st64 m (c + o) v) e p l.
Proof.
  intros H HP Hc Hn Ho. eapply dlseg_frame; [done|]. intros x Hx.
  rewrite Forall_forall in HP.
  destruct (Hap x c) as [?|?]; [by apply HP|done|set_solver|..];
    by rewrite !ld64_st64_other by lia.
Qed.

(** Changing what precedes or follows a non-empty segment. *)
Lemma dlseg_st_prev m e p p' b l :
  dlseg m e p (b :: l) -> Forall P (b :: l) -> b ∉ l -> 0 <= p' < 2 ^ 64 ->
  dlseg (st64 m (b + 24) p') e p' (b :: l).
Proof.
  intros (H1 & H2 & H3) HP Hb Hp. inv HP as [|?? Pb Pl]. cbn [dlseg].
  rewrite ld64_st64_same by done. rewrite ld64_st64_other by lia.
  split; [done|]. split; [done|]. by apply dlseg_st_out.
Qed.

Lemma dlseg_st_next m e e' p b l :
  dlseg m e p (l ++ [b]) -> Forall P (l ++ [b]) -> b ∉ l -> 0 <= e' < 2 ^ 64 ->
  dlseg (st64 m (b + 16) e') e' p (l ++ [b]).
Proof.
  rewrite !dlseg_app, Forall_app, Forall_singleton. cbn [dlseg hd].
  intros (H1 & H2 & H3 & _) [Pl Pb] Hb He.
  rewrite ld64_st64_same by done. rewrite ld64_st64_other by lia.
  split_and!; try done. by apply dlseg_st_out.
Qed.

(** Unlinking [b]. *)
Lemma dlseg_unlink m e l1 b l2 :
  P e -> Forall P (l1 ++ b :: l2) -> NoDup (e :: l1 ++ b :: l2) ->
  (forall x, P x -> 0 <= x < 2 ^ 64) ->
  dlseg m e e (l1 ++ b :: l2) ->
  let q := List.last l1 e in let n := hd e l2 in
  dlseg (st64 (st64 m (n + 24) q) (q + 16) n) e e (l1 ++ l2).
Proof.
  intros Pe HP Hnd Hr H q n.
  apply NoDup_cons in Hnd as [He Hnd]. apply NoDup_app in Hnd as (Hnd1 & Hd & Hnd2).
  apply NoDup_cons in Hnd2 as [Hb2 Hnd2].
  rewrite Forall_app, Forall_cons in HP. destruct HP as (P1 & Pb & P2).
  apply dlseg_app in H as [H1 (_ & _ & H2)]. cbn [hd] in H1. apply dlseg_app.
  assert (q = e /\ l1 = [] \/ exists l1', l1 = l1' ++ [q]) as Hq.
  { subst q. destruct l1 as [|c l1' _] using rev_ind; [by left|right].
    exists l1'. by rewrite List.last_last. }
  assert (n = e /\ l2 = [] \/ exists l2', l2 = n :: l2') as Hn
    by (subst n; destruct l2; [by left|right; eauto]).
  change (List.last l1 e) with q. change (hd e l2) with n. clearbody q n.
  assert (P q) by (destruct Hq as [[-> _]|[l1' ->]]; [done|by rewrite Forall_app, Forall_singleton in P1; destruct P1]).
  assert (P n) by (destruct Hn as [[-> _]|[l2' ->]]; [done|by inv P2]).
  assert (q ∉ l2) by (destruct Hq as [[-> _]|[l1' ->]]; set_solver).
  assert (n ∉ l1) by (destruct Hn as [[-> _]|[l2' ->]]; set_solver).
  split.
  - destruct Hq as [[_ ->]|[l1' E]]; [done|]. rewrite E in *.
    apply NoDup_app in Hnd1 as (_ & Hq1 & _).
    apply (dlseg_st_next _ b); [|done|set_solver|auto].
    apply dlseg_st_out; auto; lia.
  - apply dlseg_st_out; auto; [|lia].
    destruct Hn as [[_ ->]|[l2' E]]; [done|]. rewrite E in *.
    apply NoDup_cons in Hnd2 as [? _]. eapply dlseg_st_prev; eauto.
Qed.

(** Linking [b] in front. *)
Lemma dlseg_link m e l b :
  P e -> P b -> Forall P l -> NoDup (e :: b :: l) -> (forall x, P x -> 0 <= x < 2 ^ 64) ->
  dlseg m e e l ->
  dlseg (st64 (st64 (st64 m (b + 16) (hd e l)) (b + 24) e) (hd e l + 24) b) e e (b :: l).
Proof.
  intros Pe Pb HP Hnd Hr H. apply NoDup_cons in Hnd as [He Hnd].
  apply NoDup_cons in Hnd as [Hb Hnd].
  set (m1 := st64 (st64 m (b + 16) (hd e l)) (b + 24) e).
  assert (dlseg m1 e e l) as H1 by (subst m1; repeat (apply dlseg_st_out; auto; try lia)).
  assert (P (hd e l)) as Pc by (destruct l; [done|by inv HP]).
  assert (hd e l <> b) by (destruct l; set_solver).
  destruct (Hap (hd e l) b) as [?|?]; try done; (cbn [dlseg];
    rewrite !(ld64_st64_other _ (hd e l + 24)) by lia; subst m1;
    rewrite ld64_st64_same by auto; rewrite ld64_st64_other by lia;
    rewrite ld64_st64_same by auto; split; [done|split; [done|]];
    destruct l as [|c l]; [done|]; cbn [hd] in *;
    apply NoDup_cons in Hnd as [? _]; eapply dlseg_st_prev; eauto).
Qed.
End stores.

(** ** Array accesses *)

Lemma sl_get_set h fl fl' v :
  0 <= fl < 25 -> 0 <= fl' < 25 -> length (sl_bitmap h) = 25%nat ->
  sl_get (sl_set h fl v) fl' = if decide (fl' = fl) then v else sl_get h fl'.
Proof.
  intros Hf Hf' Hl. unfold sl_get, sl_set; cbn [sl_bitmap]. case_decide as E.
  - subst. by rewrite list_lookup_insert_eq by lia.
  - by rewrite list_lookup_insert_ne by lia.
Qed.

Lemma blocks_get_set h fl sl fl' sl' v :
  class_valid (fl, sl) -> class_valid (fl', sl') ->
  length (blocks h) = 25%nat -> Forall (fun l => length l = 32%nat) (blocks h) ->
  blocks_get (blocks_set h fl sl v) fl' sl' =
    if decide (fl' = fl /\ sl' = sl) then v else blocks_get h fl' sl'.
Proof.
  unfold class_valid; cbn [fst snd]. change FL_INDEX_COUNT with 25. change SL_INDEX_COUNT with 32.
  intros [? ?] [? ?] Hl Hi. unfold blocks_get, blocks_set; cbn [blocks].
  destruct (decide (fl' = fl)) as [->|].
  - rewrite list_lookup_alter_eq.
    destruct (lookup_lt_is_Some_2 (blocks h) (Z.to_nat fl)) as [r Hr]; [lia|].
    rewrite Hr. cbn [fmap option_fmap option_map default id].
    assert (length r = 32%nat) by (rewrite Forall_lookup in Hi; eauto).
    destruct (decide (sl' = sl)) as [->|].
    + rewrite list_lookup_insert_eq by lia. by rewrite decide_True.
    + rewrite list_lookup_insert_ne by lia. by rewrite decide_False by naive_solver.
  - rewrite list_lookup_alter_ne by lia. by rewrite decide_False by naive_solver.
Qed.

Lemma blocks_set_inner h fl sl v :
  Forall (fun l => length l = 32%nat) (blocks h) ->
  Forall (fun l => length l = 32%nat) (blocks (blocks_set h fl sl v)).
Proof.
  intros H. cbn [blocks blocks_set]. rewrite Forall_lookup in *. intros j l Hl.
  destruct (decide (j = Z.to_nat fl)) as [->|].
  - rewrite list_lookup_alter_eq in Hl. destruct (blocks h !! Z.to_nat fl) eqn:E; [|done].
    cbn in Hl. simplify_eq. rewrite length_insert. eauto.
  - rewrite list_lookup_alter_ne in Hl by done. eauto.
Qed.

(** ** Frame *)

Lemma lists_ok_frame h F L m' :
  lists_ok h F L ->
  (forall b, is_Some (F b) -> same_on (b + 16) (b + 32) (hmem h) m') ->
  lists_ok (set_mem h m') F L.
Proof.
  intros [] Hf. split; try done. intros fl sl Hv. eapply dlseg_frame; [by apply lo_dl0|].
  intros b Hb. cbn [ctl set_mem hmem]. apply lo_mem0 in Hb as (s & Hs & _); [|done].
  specialize (Hf b (mk_is_Some _ _ Hs)).
  split; apply ld64_ext; eapply same_on_weaken; eauto; lia.
Qed.

Lemma lists_ok_ext h F F' L : (forall b, F' b = F b) -> lists_ok h F L -> lists_ok h F' L.
Proof.
  intros HF []. split; try done.
  - intros fl sl b Hv. rewrite lo_mem0 by done. by setoid_rewrite HF.
  - by rewrite HF.
  - intros b s. rewrite HF. apply lo_size0.
  - intros x [->|Hx]; apply lo_addr0; [by left|right; by rewrite <- HF].
  - intros x y Hx Hy. apply lo_sep0; unfold node in *; by rewrite ?HF in *.
Qed.


(** ** Removal and insertion *)

(** Only the links of nodes change. *)
Definition links_only (h : heap) (P : Z -> Prop) (h' : heap) : Prop :=
  ctl h' = ctl h /\
  forall x, (forall y, P y -> x < y + 16 \/ y + 32 <= x) -> hmem h' x = hmem h x.

Definition L_upd (L : Z -> Z -> list Z) (fl sl : Z) (l : list Z) : Z -> Z -> list Z :=
  fun fl' sl' => if decide (fl' = fl /\ sl' = sl) then l else L fl' sl'.

Lemma list_nodes h F L fl sl :
  lists_ok h F L -> class_valid (fl, sl) -> Forall (node h F) (L fl sl).
Proof.
  intros H Hv. apply Forall_forall. intros b Hb. right.
  apply (lo_mem _ _ _ H) in Hb as (s & -> & _); [done|]. done.
Qed.

Lemma list_nodup_ctl h F L fl sl :
  lists_ok h F L -> class_valid (fl, sl) -> NoDup (ctl h :: L fl sl).
Proof.
  intros H Hv. apply NoDup_cons. split; [|by apply (lo_nodup _ _ _ H)].
  intros Hb. apply (lo_mem _ _ _ H) in Hb as (s & Hs & _); [|done].
  by rewrite (lo_ctl _ _ _ H) in Hs.
Qed.

(** The lists of the other classes only contain other nodes. *)
Lemma list_disjoint h F L fl sl fl' sl' b :
  lists_ok h F L -> class_valid (fl, sl) -> class_valid (fl', sl') ->
  b ∈ L fl sl -> b ∈ L fl' sl' -> fl' = fl /\ sl' = sl.
Proof.
  intros H Hv Hv' Hb Hb'. apply (lo_mem _ _ _ H) in Hb as (s & Hs & E); [|done].
  apply (lo_mem _ _ _ H) in Hb' as (s' & Hs' & E'); [|done].
  simplify_eq. rewrite E in E'. by simplify_eq.
Qed.

Section remove.
Context (h : heap) (F : Z -> option Z) (L : Z -> Z -> list Z) (H : lists_ok h F L).
Context (b s fl sl : Z) (HF : F b = Some s) (Hs : mapping_insert s = (fl, sl)).
Context (l1 l2 : list Z) (HL : L fl sl = l1 ++ b :: l2).

Let q := List.last l1 (ctl h).
Let n := hd (ctl h) l2.
Let m' := st64 (st64 (hmem h) (n + 24) q) (q + 16) n.

Lemma remove_class : class_valid (fl, sl).
Proof. rewrite <- Hs. apply mapping_insert_valid. by eapply lo_size. Qed.

Lemma remove_links : ld64 (hmem h) (b + 24) = q /\ ld64 (hmem h) (b + 16) = n.
Proof.
  pose proof (lo_dl _ _ _ H fl sl remove_class) as D. rewrite HL in D.
  apply dlseg_app in D as [_ (D1 & D2 & _)]. done.
Qed.

Lemma remove_ends : node h F q /\ node h F n /\ q <> b /\ n <> b.
Proof.
  pose proof (list_nodes _ _ _ _ _ H remove_class) as N.
  pose proof (list_nodup_ctl _ _ _ _ _ H remove_class) as D.
  rewrite HL in N, D. rewrite Forall_app, Forall_cons in N. destruct N as (N1 & Nb & N2).
  subst q n. split_and!.
  - destruct l1 as [|c l _] using rev_ind; [by left|]. rewrite List.last_last.
    rewrite Forall_app, Forall_singleton in N1. by destruct N1.
  - destruct l2; [by left|]. by inv N2.
  - destruct l1 as [|c l _] using rev_ind; [cbn; apply NoDup_cons in D; set_solver|].
    rewrite List.last_last. apply NoDup_cons in D as [_ D]. apply NoDup_app in D. set_solver.
  - destruct l2; cbn; [apply NoDup_cons in D; set_solver|].
    apply NoDup_cons in D as [_ D]. apply NoDup_app in D as (_ & _ & D).
    apply NoDup_cons in D. set_solver.
Qed.

Lemma remove_dl fl' sl' : class_valid (fl', sl') ->
  dlseg m' (ctl h) (ctl h) (L_upd L fl sl (l1 ++ l2) fl' sl').
Proof.
  intros Hv. unfold L_upd. pose proof remove_class as Hc. case_decide as E.
  - destruct E as [-> ->].
    apply (dlseg_unlink (node h F)) with (b := b); rewrite <- ?HL.
    + by eapply lo_sep.
    + by left.
    + by apply (list_nodes _ _ _ _ _ H).
    + by apply (list_nodup_ctl _ _ _ _ _ H).
    + intros x Hx. pose proof (lo_addr _ _ _ H x Hx). lia.
    + by apply (lo_dl _ _ _ H).
  - destruct remove_ends as (Nq & Nn & _ & _).
    pose proof (list_nodup_ctl _ _ _ _ _ H Hv) as Hd'. apply NoDup_cons in Hd' as [Hd' _].
    assert (forall x, x = ctl h \/ x ∈ L fl sl -> x ∉ L fl' sl') as Hout.
    { intros x [->|Hx] Hx'; [done|]. apply E, (list_disjoint _ _ _ _ _ _ _ x H); done. }
    apply (dlseg_st_out (node h F)); try lia; try done; [by eapply lo_sep| |by apply (list_nodes _ _ _ _ _ H)|].
    apply (dlseg_st_out (node h F)); try lia; try done; [by eapply lo_sep|by eapply lo_dl|by apply (list_nodes _ _ _ _ _ H)|].
    all: apply Hout; subst q n; rewrite HL.
    + destruct l2; [by left|]. right. set_solver.
    + destruct l1 as [|c l _] using rev_ind; [by left|]. rewrite List.last_last. right. set_solver.
Qed.

(** Any heap with the new links, heads and bitmaps is well formed. *)
Lemma remove_intro h' :
  ctl h' = ctl h -> hmem h' = m' ->
  length (sl_bitmap h') = 25%nat -> length (blocks h') = 25%nat ->
  Forall (fun l => length l = 32%nat) (blocks h') ->
  (forall fl' sl', class_valid (fl', sl') ->
     blocks_get h' fl' sl' = hd (ctl h) (L_upd L fl sl (l1 ++ l2) fl' sl')) ->
  (forall fl', 0 <= fl' < 25 -> 0 <= sl_get h' fl' < 2 ^ 32) ->
  (forall fl' sl', class_valid (fl', sl') ->
     Z.testbit (sl_get h' fl') sl' = bool_decide (L_upd L fl sl (l1 ++ l2) fl' sl' <> [])) ->
  0 <= fl_bitmap h' < 2 ^ 25 ->
  (forall fl', 0 <= fl' < 25 -> Z.testbit (fl_bitmap h') fl' = negb (sl_get h' fl' =? 0)) ->
  lists_ok h' (F_del F b) (L_upd L fl sl (l1 ++ l2)).
Proof.
  intros Hctl Hmem ??? Hh ??? Hf.
  assert (forall x, node h' (F_del F b) x -> node h F x) as Hnode.
  { unfold node, F_del. rewrite Hctl. intros x [?|Hx]; [by left|right].
    case_decide; [|done]. by destruct Hx. }
  pose proof remove_class as Hc. pose proof (lo_nodup _ _ _ H _ _ Hc) as Hnd.
  rewrite HL in Hnd. pose proof Hnd as Hnd'.
  apply NoDup_app in Hnd' as (_ & Hd & Hnd2). apply NoDup_cons in Hnd2 as [Hb2 _].
  split; rewrite ?Hctl, ?Hmem; try done.
  - intros fl' sl' Hv. by apply remove_dl.
  - intros fl' sl' Hv. unfold L_upd. case_decide; [|by apply (lo_nodup _ _ _ H)].
    rewrite <- Permutation_middle in Hnd. by apply NoDup_cons in Hnd as [_ ?].
  - intros fl' sl' x Hv. unfold L_upd, F_del. case_decide as E.
    + destruct E as [-> ->]. pose proof (lo_mem _ _ _ H fl sl x Hc) as Hm. rewrite HL in Hm.
      case_decide as Ex; [subst x|]; set_solver.
    + pose proof (lo_mem _ _ _ H fl' sl' x Hv) as Hm. case_decide as Ex; [subst x|done].
      split; [|naive_solver]. rewrite Hm. intros (s' & Hs' & Es'). exfalso. apply E.
      rewrite HF in Hs'. simplify_eq. rewrite Hs in Es'. by simplify_eq.
  - unfold F_del. case_decide; [done|]. by eapply lo_ctl.
  - intros x s'. unfold F_del. case_decide; [done|]. by eapply lo_size.
  - intros x Hx. by apply (lo_addr _ _ _ H), Hnode.
  - intros x y Hx Hy. by apply (lo_sep _ _ _ H); apply Hnode.
Qed.

Lemma remove_links_only h' : ctl h' = ctl h -> hmem h' = m' -> links_only h (node h F) h'.
Proof.
  intros Hc Hm. split; [done|]. intros x Hx. rewrite Hm. unfold m'.
  destruct remove_ends as (Nq & Nn & _ & _).
  pose proof (Hx q Nq). pose proof (Hx n Nn). by rewrite !st64_other by lia.
Qed.

Lemma remove_free_block_eq :
  remove_free_block h b fl sl =
    if decide (l1 = []) then
      let h1 := blocks_set (set_mem h m') fl sl n in
      if decide (l2 = []) then
        let h2 := sl_set h1 fl (sl_get h fl .& u32 (Z.lnot (u32 (1 .<< sl)))) in
        if c_true (sl_get h2 fl) then h2
        else fl_set h2 (fl_bitmap h .& u32 (Z.lnot (u32 (1 .<< fl))))
      else h1
    else set_mem h m'.
Proof.
  unfold remove_free_block, prev_free, next_free.
  destruct remove_links as [-> ->]. fold m'.
  change (blocks_get (set_mem h m') fl sl) with (blocks_get h fl sl).
  rewrite (lo_head _ _ _ H fl sl remove_class), HL.
  pose proof (list_nodup_ctl _ _ _ _ _ H remove_class) as D. rewrite HL in D.
  apply NoDup_cons in D as [Dc D]. apply NoDup_app in D as (_ & D1 & D2).
  destruct (decide (l1 = [])) as [E1|E1].
  - rewrite E1. cbn [app hd]. rewrite Z.eqb_refl. cbn [ctl blocks_set set_mem].
    destruct (decide (l2 = [])) as [E2|E2].
    + unfold n. rewrite E2. cbn [hd]. by rewrite Z.eqb_refl.
    + destruct (n =? ctl h) eqn:En; [|done]. apply Z.eqb_eq in En.
      exfalso. apply Dc. unfold n in En. destruct l2; [done|]. cbn in En. subst. set_solver.
  - destruct (_ =? b) eqn:Eb; [|done]. apply Z.eqb_eq in Eb. exfalso.
    destruct l1 as [|c l]; [done|]. cbn in Eb. subst. apply (D1 b); set_solver.
Qed.
End remove.

Lemma c_true_testbit x w : 0 <= x < 2 ^ w -> 0 <= w ->
  (forall i, 0 <= i < w -> Z.testbit x i = false) -> c_true x = false.
Proof.
  intros Hx Hw Hb. unfold c_true. apply negb_false_iff, Z.eqb_eq, Z.bits_inj'.
  intros i Hi. rewrite Z.bits_0. destruct (decide (i < w)); [by apply Hb|].
  apply (Z_testbit_high w); lia.
Qed.

Lemma remove_free_block_ok h F L b s fl sl :
  lists_ok h F L -> F b = Some s -> mapping_insert s = (fl, sl) ->
  exists L', lists_ok (remove_free_block h b fl sl) (F_del F b) L' /\
    links_only h (node h F) (remove_free_block h b fl sl).
Proof.
  intros H HF Hs. pose proof (remove_class _ _ _ H _ _ _ _ HF Hs) as Hc.
  assert (b ∈ L fl sl) as Hb by (apply (lo_mem _ _ _ H); eauto).
  apply list_elem_of_split in Hb as (l1 & l2 & HL).
  exists (L_upd L fl sl (l1 ++ l2)).
  pose proof Hc as Hc'. unfold class_valid in Hc'; cbn [fst snd] in Hc'.
  change FL_INDEX_COUNT with 25 in Hc'. change SL_INDEX_COUNT with 32 in Hc'.
  pose proof (lo_head _ _ _ H) as Hhd. pose proof (lo_sl_bit _ _ _ H) as Hslb.
  pose proof (lo_sl_range _ _ _ H) as Hslr. pose proof (lo_fl_bit _ _ _ H) as Hflb.
  pose proof (lo_fl_range _ _ _ H) as Hflr.
  pose proof (lo_sl_len _ _ _ H). pose proof (lo_bl_len _ _ _ H). pose proof (lo_bl_inner _ _ _ H).
  rewrite (remove_free_block_eq _ _ _ H _ _ _ _ HF Hs _ _ HL).
  destruct (decide (l1 = [])) as [->|Hl1]; cbv zeta; [|].
  2: { (* not the head: only the links change *)
    split; [|by eapply remove_links_only].
    eapply remove_intro; eauto; intros fl' sl' Hv; change (blocks_get (set_mem h _)) with (blocks_get h);
      change (sl_get (set_mem h _)) with (sl_get h); rewrite ?Hhd, ?Hslb by done;
      unfold L_upd; case_decide as E; try done; destruct E as [-> ->]; rewrite HL;
      destruct l1; done. }
  set (m' := st64 _ _ _). set (n := hd (ctl h) l2).
  destruct (decide (l2 = [])) as [E2|E2].
  2: { (* a new head *)
    split; [|by eapply remove_links_only].
    eapply remove_intro; eauto; try (by rewrite ?length_alter); try (by apply blocks_set_inner).
    - cbn [blocks blocks_set set_mem]. by rewrite length_alter.
    - intros fl' sl' Hv. rewrite blocks_get_set by done. unfold L_upd.
      change (blocks_get (set_mem h m')) with (blocks_get h). rewrite Hhd by done.
      by case_decide.
    - intros fl' sl' Hv. change (sl_get (blocks_set _ _ _ _)) with (sl_get h). rewrite Hslb by done.
      unfold L_upd. case_decide as E; [|done]. destruct E as [-> ->]. rewrite HL.
      by destruct l2. }
  (* the list becomes empty *)
  set (h1 := blocks_set (set_mem h m') fl sl n).
  set (v := sl_get h fl .& u32 (Z.lnot (u32 (1 .<< sl)))).
  assert (0 <= v < 2 ^ 32) as Hv by (apply land_range; [lia|apply Hslr; lia]).
  assert (forall i, Z.testbit v i = Z.testbit (sl_get h fl) i && negb (i =? sl)) as Hvb
    by (intros i; apply clear_bit_spec; [lia|apply Hslr; lia]).
  assert (forall fl', 0 <= fl' < 25 ->
            sl_get (sl_set h1 fl v) fl' = if decide (fl' = fl) then v else sl_get h fl') as Hg
    by (intros; rewrite sl_get_set by (lia || done); by case_decide).
  rewrite Hg by lia. rewrite decide_True by done.
  set (h2 := sl_set h1 fl v) in *.
  set (h3 := if c_true v then h2 else fl_set h2 (fl_bitmap h .& u32 (Z.lnot (u32 (1 .<< fl))))).
  assert (forall fl', sl_get h3 fl' = sl_get h2 fl') as Hg3 by (intros; subst h3; by destruct (c_true v)).
  assert (ctl h3 = ctl h /\ hmem h3 = m' /\ sl_bitmap h3 = sl_bitmap h2 /\ blocks h3 = blocks h1)
    as (E3 & E4 & E5 & E6) by (subst h3; by destruct (c_true v)).
  assert (forall x y, blocks_get h3 x y = blocks_get h1 x y) as Hb3 by (intros; unfold blocks_get; by rewrite E6).
  split; [|by eapply remove_links_only].
  eapply remove_intro; eauto.
  - rewrite E5. subst h2. cbn [sl_bitmap sl_set]. by rewrite length_insert.
  - rewrite E6. subst h1. cbn [blocks blocks_set set_mem]. by rewrite length_alter.
  - rewrite E6. by apply blocks_set_inner.
  - intros fl' sl' Hv'. rewrite Hb3. subst h1. rewrite blocks_get_set by done. unfold L_upd.
    change (blocks_get (set_mem h m')) with (blocks_get h). rewrite Hhd by done. by case_decide.
  - intros fl' Hf'. rewrite Hg3, Hg by done. case_decide; auto.
  - intros fl' sl' Hv'. rewrite Hg3, Hg by (destruct Hv' as [? _]; done). unfold L_upd.
    destruct (decide (fl' = fl)) as [->|Hne];
      [|rewrite (decide_False (P := fl' = fl /\ _)) by (by intros []); by apply Hslb].
    rewrite Hvb. destruct (decide (sl' = sl)) as [->|Hne].
    + rewrite decide_True, E2, Z.eqb_refl by done. by rewrite andb_false_r.
    + rewrite decide_False by (by intros []). rewrite (proj2 (Z.eqb_neq sl' sl)) by done.
      rewrite andb_true_r. by apply Hslb.
  - subst h3. destruct (c_true v); cbn [fl_bitmap fl_set]; [done|]. by apply land_range.
  - intros fl' Hf'. rewrite Hg3, Hg by done. subst h3. unfold c_true.
    assert (Z.testbit (fl_bitmap h) fl = true) as Hset.
    { rewrite Hflb by lia. apply negb_true_iff, Z.eqb_neq, (testbit_true_nonzero _ sl).
      rewrite Hslb, HL by done. done. }
    destruct (v =? 0) eqn:Ev; cbn [negb fl_bitmap fl_set].
    + rewrite clear_bit_spec by (pow2; lia). case_decide as Ef.
      * subst. by rewrite Z.eqb_refl, Ev, andb_false_r.
      * rewrite (proj2 (Z.eqb_neq fl' fl)) by done. by rewrite andb_true_r, Hflb.
    + change (fl_bitmap h2) with (fl_bitmap h). case_decide as Ef; [|by apply Hflb].
      subst. by rewrite Ev.
Qed.

Section insert.
Context (h : heap) (F : Z -> option Z) (L : Z -> Z -> list Z) (H : lists_ok h F L).
Context (b s fl sl : Z) (HF : F b = None) (Hb : b <> ctl h).
Context (Hsz : 0 <= s < 2 ^ 32) (Hs : mapping_insert s = (fl, sl)).
Context (Hap : apart (fun x => x = b \/ node h F x)) (Hba : 0 < b < 2 ^ 64 - 32).

Let c := hd (ctl h) (L fl sl).
Let m' := st64 (st64 (st64 (hmem h) (b + 16) c) (b + 24) (ctl h)) (c + 24) b.
Let L' := L_upd L fl sl (b :: L fl sl).

Lemma insert_class : class_valid (fl, sl).
Proof. rewrite <- Hs. by apply mapping_insert_valid. Qed.

Lemma insert_head_node : node h F c.
Proof.
  pose proof (list_nodes _ _ _ _ _ H insert_class) as N. unfold c.
  destruct (L fl sl); [by left|]. by inv N.
Qed.

Lemma insert_fresh fl' sl' : class_valid (fl', sl') -> b ∉ L fl' sl'.
Proof.
  intros Hv Hin. apply (lo_mem _ _ _ H) in Hin as (s' & Hs' & _); [|done]. congruence.
Qed.

Lemma insert_nodes fl' sl' : class_valid (fl', sl') ->
  Forall (fun x => x = b \/ node h F x) (L fl' sl').
Proof.
  intros Hv. eapply Forall_impl; [by apply (list_nodes _ _ _ _ _ H)|]. by right.
Qed.

Lemma insert_dl fl' sl' : class_valid (fl', sl') -> dlseg m' (ctl h) (ctl h) (L' fl' sl').
Proof.
  intros Hv. pose proof insert_class as Hc. unfold L', L_upd. case_decide as E.
  - destruct E as [-> ->]. apply (dlseg_link _ Hap).
    + right. by left.
    + by left.
    + by apply insert_nodes.
    + pose proof (list_nodup_ctl _ _ _ _ _ H Hc) as D. apply NoDup_cons in D as [D1 D2].
      apply NoDup_cons; split; [set_solver|]. apply NoDup_cons; split; [by apply insert_fresh|done].
    + intros x [->|Hx]; [lia|]. pose proof (lo_addr _ _ _ H x Hx). lia.
    + by apply (lo_dl _ _ _ H).
  - pose proof (list_nodup_ctl _ _ _ _ _ H Hv) as D. apply NoDup_cons in D as [D1 D2].
    repeat apply (dlseg_st_out _ Hap); try lia; try (by apply insert_nodes);
      try (by apply insert_fresh); try (by left); [by apply (lo_dl _ _ _ H)|right; apply insert_head_node|].
    unfold c. destruct (L fl sl) as [|x l] eqn:El; [done|]. cbn [hd]. intros Hx. apply E.
    apply (list_disjoint _ _ _ _ _ _ _ x H); try done. rewrite El. set_solver.
Qed.

Lemma insert_free_block_mem : hmem (insert_free_block h b fl sl) = m'.
Proof.
  unfold insert_free_block, m', c, next_free, prev_free.
  by rewrite (lo_head _ _ _ H) by apply insert_class.
Qed.

Lemma insert_sl_get fl' : 0 <= fl' < 25 ->
  sl_get (insert_free_block h b fl sl) fl' =
    if decide (fl' = fl) then sl_get h fl .| u32 (1 .<< sl) else sl_get h fl'.
Proof.
  intros Hf. pose proof insert_class as [? _]. unfold insert_free_block.
  rewrite sl_get_set; [by case_decide|done|done|]. by apply (lo_sl_len _ _ _ H).
Qed.

Lemma insert_blocks_get fl' sl' : class_valid (fl', sl') ->
  blocks_get (insert_free_block h b fl sl) fl' sl' = hd (ctl h) (L' fl' sl').
Proof.
  intros Hv. unfold L', L_upd, insert_free_block.
  match goal with |- context [sl_set (fl_set ?h1 _)] =>
    change (blocks_get h1 fl' sl' = hd (ctl h) (if decide (fl' = fl /\ sl' = sl)
      then b :: L fl sl else L fl' sl')) end.
  rewrite blocks_get_set; [|apply insert_class|done|by apply (lo_bl_len _ _ _ H)|by apply (lo_bl_inner _ _ _ H)].
  case_decide; [done|]. by apply (lo_head _ _ _ H).
Qed.

Lemma insert_free_block_ok :
  lists_ok (insert_free_block h b fl sl) (F_add F b s) L' /\
  links_only h (fun x => x = b \/ node h F x) (insert_free_block h b fl sl).
Proof.
  pose proof insert_class as Hc.
  assert (0 <= fl < 25 /\ 0 <= sl < 32) as Hc' by exact Hc.
  assert (forall x, node (insert_free_block h b fl sl) (F_add F b s) x -> x = b \/ node h F x) as Hnode.
  { unfold node, F_add. cbn. intros x [?|Hx]; [by right; left|]. case_decide; [by left|by right; right]. }
  pose proof (lo_fl_range _ _ _ H). pose proof (lo_sl_range _ _ _ H) as Hsr.
  split; [split|split].
  - cbn. rewrite length_insert. by apply (lo_sl_len _ _ _ H).
  - cbn. rewrite length_alter. by apply (lo_bl_len _ _ _ H).
  - apply (blocks_set_inner h fl sl b). by apply (lo_bl_inner _ _ _ H).
  - apply insert_blocks_get.
  - intros fl' Hf'. rewrite insert_sl_get by done. case_decide; [|by apply Hsr].
    apply lor_range; [lia|apply Hsr; lia|]. apply uw_range. lia.
  - intros fl' sl' Hv. rewrite insert_sl_get by (destruct Hv; done). unfold L', L_upd.
    destruct (decide (fl' = fl)) as [->|Hne];
      [|rewrite (decide_False (P := fl' = fl /\ _)) by (by intros []); by apply (lo_sl_bit _ _ _ H)].
    rewrite set_bit_spec by lia. rewrite (lo_sl_bit _ _ _ H) by done.
    destruct (decide (sl' = sl)) as [->|Hne].
    + by rewrite decide_True, Z.eqb_refl, orb_true_r by done.
    + rewrite decide_False by (by intros []). rewrite (proj2 (Z.eqb_neq sl' sl)) by done.
      by rewrite orb_false_r.
  - cbn. apply lor_range; [lia|done|]. rewrite uw_bit by lia.
    split; [lia|]. apply Z.pow_lt_mono_r; lia.
  - intros fl' Hf'. rewrite insert_sl_get by done.
    change (fl_bitmap (insert_free_block h b fl sl)) with (fl_bitmap h .| u32 (1 .<< fl)).
    rewrite set_bit_spec by lia. case_decide as E.
    + subst. rewrite Z.eqb_refl, orb_true_r. symmetry. apply negb_true_iff, Z.eqb_neq.
      apply (testbit_true_nonzero _ sl). rewrite set_bit_spec by lia.
      by rewrite Z.eqb_refl, orb_true_r.
    + rewrite (proj2 (Z.eqb_neq fl' fl)), orb_false_r by done. by apply (lo_fl_bit _ _ _ H).
  - rewrite insert_free_block_mem. apply insert_dl.
  - intros fl' sl' Hv. unfold L', L_upd. case_decide; [|by apply (lo_nodup _ _ _ H)].
    apply NoDup_cons. split; [by apply insert_fresh|by apply (lo_nodup _ _ _ H)].
  - intros fl' sl' x Hv. unfold L', L_upd, F_add.
    pose proof (lo_mem _ _ _ H fl' sl' x Hv) as Hm. pose proof (insert_fresh fl' sl' Hv).
    destruct (decide (x = b)) as [->|Hx]; case_decide as E.
    + destruct E as [-> ->]. split; [|set_solver]. intros _. by exists s.
    + split; [done|]. intros (s' & Es & Es'). simplify_eq. rewrite Hs in Es'. naive_solver.
    + destruct E as [-> ->]. rewrite elem_of_cons, <- Hm. naive_solver.
    + done.
  - cbn. unfold F_add. rewrite decide_False by done. by apply (lo_ctl _ _ _ H).
  - intros x s'. unfold F_add. case_decide; [by intros [= <-]|]. by apply (lo_size _ _ _ H).
  - intros x [->|Hx]%Hnode; [done|by apply (lo_addr _ _ _ H)].
  - intros x y Hx Hy. by apply Hap; apply Hnode.
  - done.
  - intros x Hx. rewrite insert_free_block_mem. unfold m'.
    pose proof (Hx b ltac:(by left)). pose proof (Hx c ltac:(right; apply insert_head_node)).
    by rewrite !st64_other by lia.
Qed.
End insert.
