(* ===== verification/TlsfInv.v ===== *)
(** TLSF, part 5: the heap invariant and how the block operations act on it.

    The physical heap is a finite map from block addresses to [binfo].
    [shape] is its geometry, [hdrs] and [feet] tie it to memory, [lists_ok]
    (file [TlsfList]) ties the free lists to it; [wf] is their conjunction and
    holds between any two steps of an operation, [inv] adds what holds between
    calls: the two flag bits agree, no two free neighbours, and every free
    block is listed. *)
From S2P Require Import Prelude Memory TlsfBits Tlsf TlsfHdr TlsfList.

(** ** Specification *)

Record shape (c : Z) (B : gmap Z binfo) : Prop := {
  sh_addr a i : B !! a = Some i -> 0 < a /\ (8 | a) /\ a + 16 + bsize i < 2 ^ 64 - 2 ^ 33;
  sh_size a i : B !! a = Some i ->
    (8 | bsize i) /\ (bsize i = 0 /\ bfree i = false \/ 24 <= bsize i < 2 ^ 32);
  sh_next a i : B !! a = Some i -> bsize i <> 0 ->
    exists j, B !! next_of a (bsize i) = Some j /\ bpool j = bpool i;
  sh_sep a i a' i' : B !! a = Some i -> B !! a' = Some i' -> a < a' -> next_of a (bsize i) <= a';
  sh_pool a i : B !! a = Some i -> bsize i <> 0 ->
    (bpool i).1 <= a /\ next_of a (bsize i) <= (bpool i).2 /\ (bpool i).2 - (bpool i).1 - 8 < 2 ^ 32;
  sh_ctl a i : B !! a = Some i -> a + 16 + bsize i <= c \/ c + sizeof_control <= a + 8;
  sh_c : 0 < c /\ (8 | c) /\ c + sizeof_control < 2 ^ 64
}.

Definition hdrs (m : memory) (B : gmap Z binfo) : Prop :=
  forall a i, B !! a = Some i -> ld64 m (a + 8) = enc i.

(** The word that follows a free block points back to it; the blocks of [e] are
    exempt, in the middle of an operation. *)
Definition feet (e : list Z) (m : memory) (B : gmap Z binfo) : Prop :=
  forall a i, B !! a = Some i -> bfree i = true -> a ∉ e -> ld64 m (next_of a (bsize i)) = a.

Definition listed_free (B : gmap Z binfo) (F : Z -> option Z) : Prop :=
  forall b s, F b = Some s -> exists i, B !! b = Some i /\ bfree i = true /\ bsize i = s.

Record wf (h : heap) (B : gmap Z binfo) (F : Z -> option Z) (e : list Z) : Prop := {
  wf_shape : shape (ctl h) B;
  wf_hdrs : hdrs (hmem h) B;
  wf_feet : feet e (hmem h) B;
  wf_lists : exists L, lists_ok h F L;
  wf_listed : listed_free B F
}.

(** The block at [n] follows a free block. *)
Definition pred_free (B : gmap Z binfo) (n : Z) : Prop :=
  exists p j, B !! p = Some j /\ bfree j = true /\ next_of p (bsize j) = n.

(** The prev-free bits are right, those of [E] aside. *)
Definition flags_ok (E : list Z) (B : gmap Z binfo) : Prop :=
  forall n i, B !! n = Some i -> n ∉ E -> (bpfree i = true <-> pred_free B n).

Definition free_map (B : gmap Z binfo) : Z -> option Z :=
  fun a => i ← B !! a; if bfree i then Some (bsize i) else None.

Record inv (h : heap) (B : gmap Z binfo) : Prop := {
  inv_wf : wf h B (free_map B) [];
  inv_flags : flags_ok [] B;
  inv_coalesced a i : B !! a = Some i -> bfree i = true -> bpfree i = false
}.

(** Size of the allocated block at [x]. *)
Definition used (B : gmap Z binfo) (x : Z) : option Z :=
  i ← B !! x; if bfree i || (bsize i =? 0) then None else Some (bsize i).

(** Outside [T] the same blocks are allocated, with the same contents. *)
Definition kept (T : list Z) (h : heap) (B : gmap Z binfo) (h' : heap) (B' : gmap Z binfo) : Prop :=
  ctl h' = ctl h /\ (forall x, x ∉ T -> used B' x = used B x) /\
  forall x s, x ∉ T -> used B x = Some s -> same_on (x + 16) (x + 16 + s) (hmem h) (hmem h').

(** ** Automation *)

Ltac ins_cases :=
  repeat match goal with
  | H : <[_:=_]> _ !! _ = Some _ |- _ => apply lookup_insert_Some in H as [[? ?]|[? ?]]; [subst|]
  | H : delete _ _ !! _ = Some _ |- _ => apply lookup_delete_Some in H as [? ?]
  end.

(** Separation facts between two blocks of the heap. *)
Lemma shape_sep c B a i a' i' :
  shape c B -> B !! a = Some i -> B !! a' = Some i' -> a <> a' ->
  next_of a (bsize i) <= a' \/ next_of a' (bsize i') <= a.
Proof.
  intros H Ha Ha' Hne. destruct (decide (a < a')).
  - left. by eapply sh_sep.
  - right. eapply sh_sep; eauto. lia.
Qed.

Lemma shape_size c B a i : shape c B -> B !! a = Some i ->
  0 <= bsize i < 2 ^ 32 /\ size_ok (bsize i) /\ (bsize i <> 0 -> 24 <= bsize i).
Proof.
  intros H Ha. destruct (sh_size _ _ H a i Ha) as [Hd Hs]. unfold size_ok.
  split; [lia|]. split; [split; [pow2; lia|done]|lia].
Qed.

(** Free blocks and [block_null] are nodes of the free lists. *)
Lemma shape_apart h B F :
  shape (ctl h) B -> listed_free B F ->
  forall b i, B !! b = Some i -> bsize i <> 0 -> apart (fun x => x = b \/ node h F x).
Proof.
  intros H HF b i Hb Hi x y Hx Hy Hne.
  assert (forall z, z = b \/ node h F z -> z = ctl h \/ exists j, B !! z = Some j /\ 24 <= bsize j) as Hz.
  { intros z [->|[->|[s Hs]]]; [right|by left|right].
    - exists i. split; [done|]. by eapply shape_size.
    - destruct (HF z s Hs) as (j & Hj & Hf & _). exists j. split; [done|].
      destruct (sh_size _ _ H z j Hj) as [_ [[_ ?]|?]]; [congruence|lia]. }
  change sizeof_control with 6536 in *.
  destruct (Hz x Hx) as [->|(j & Hj & Sj)], (Hz y Hy) as [->|(k & Hk & Sk)]; try done.
  - pose proof (sh_ctl _ _ H y k Hk). change sizeof_control with 6536 in *. lia.
  - pose proof (sh_ctl _ _ H x j Hj). change sizeof_control with 6536 in *. lia.
  - pose proof (shape_sep _ _ x j y k H Hj Hk Hne). unfold next_of in *. lia.
Qed.

Lemma shape_footprint c B a i a' i' :
  shape c B -> B !! a = Some i -> B !! a' = Some i' -> a <> a' ->
  a + 16 + bsize i <= a' + 8 \/ a' + 16 + bsize i' <= a + 8.
Proof.
  intros H Ha Ha' Hne. pose proof (shape_sep _ _ _ _ _ _ H Ha Ha' Hne). unfold next_of in *. lia.
Qed.

(** ** Frames *)

Lemma used_Some B x s : used B x = Some s <->
  exists i, B !! x = Some i /\ bfree i = false /\ bsize i = s /\ s <> 0.
Proof.
  unfold used. destruct (B !! x) as [i|]; cbn.
  - destruct (bfree i) eqn:Ef; cbn; [split; [done|]; intros (? & ? & ? & _); congruence|].
    case_if; split; try done.
    + intros (? & [= <-] & _ & <- & ?). lia.
    + intros [= <-]. exists i. auto.
    + intros (? & [= <-] & _ & <- & ?). done.
  - split; [done|]. by intros (? & ? & _).
Qed.

Lemma used_insert B a i x : x <> a -> used (<[a := i]> B) x = used B x.
Proof. intros. unfold used. by rewrite lookup_insert_ne. Qed.

Lemma used_delete B a x : x <> a -> used (delete a B) x = used B x.
Proof. intros. unfold used. by rewrite lookup_delete_ne. Qed.

Lemma used_set B a i i' x : B !! a = Some i -> bfree i' = bfree i ->
  (bfree i = true \/ bsize i' = bsize i) -> used (<[a := i']> B) x = used B x.
Proof.
  intros Ha Hf Hs. destruct (decide (x = a)) as [->|]; [|by apply used_insert].
  unfold used. rewrite lookup_insert_eq, Ha. cbn. rewrite Hf.
  destruct Hs as [->| ->]; [done|]. done.
Qed.

Lemma used_free B x : (forall i, B !! x = Some i -> bfree i = true) -> used B x = None.
Proof.
  intros H. destruct (used B x) as [s|] eqn:E; [|done].
  apply used_Some in E as (i & Hi & Hf & _). specialize (H i Hi). congruence.
Qed.

Lemma kept_refl T h B : kept T h B h B.
Proof. split; [done|]. split; [done|]. intros. apply same_on_refl. Qed.

Lemma kept_trans T h B h' B' h'' B'' :
  kept T h B h' B' -> kept T h' B' h'' B'' -> kept T h B h'' B''.
Proof.
  intros (C1 & U1 & S1) (C2 & U2 & S2). split; [congruence|]. split.
  - intros x Hx. by rewrite U2, U1.
  - intros x s Hx Hs. eapply same_on_trans; [by apply S1|]. apply S2; [done|]. by rewrite U1.
Qed.

(** To show a step keeps the other blocks, it is enough to look at their memory. *)
Lemma kept_intro (T : list Z) h B h' B' :
  ctl h' = ctl h -> (forall x, x ∉ T -> used B' x = used B x) ->
  (forall x i, x ∉ T -> B !! x = Some i -> bfree i = false -> bsize i <> 0 ->
     same_on (x + 16) (x + 16 + bsize i) (hmem h) (hmem h')) -> kept T h B h' B'.
Proof.
  intros Hc Hu Hs. split; [done|]. split; [done|].
  intros x s Hx (i & Hi & Hf & <- & Hnz)%used_Some. eauto.
Qed.

(** A change confined to the links of free blocks and of [block_null]. *)
Lemma links_only_same h B h' P x i lo hi :
  shape (ctl h) B ->
  (forall y, P y -> y = ctl h \/ exists i, B !! y = Some i /\ bfree i = true) ->
  links_only h P h' -> B !! x = Some i -> x + 8 <= lo -> hi <= x + 16 + bsize i ->
  (bfree i = false \/ hi <= x + 16 \/ x + 32 <= lo) -> same_on lo hi (hmem h) (hmem h').
Proof.
  intros H HP [Hc Hm] Hx Hlo Hhi Hor w Hw. apply Hm. intros y Hy.
  destruct (HP y Hy) as [->|(j & Hj & Hjf)].
  - pose proof (sh_ctl _ _ H x i Hx). change sizeof_control with 6536 in *. lia.
  - destruct (decide (y = x)) as [->|Hne]; [simplify_eq; destruct Hor as [?|?]; [congruence|lia]|].
    destruct (sh_size _ _ H y j Hj) as [_ [[_ ?]|?]]; [congruence|].
    destruct (shape_footprint _ _ _ _ _ _ H Hj Hx Hne); lia.
Qed.

Lemma links_only_wf h B F e h' P :
  shape (ctl h) B -> hdrs (hmem h) B -> feet e (hmem h) B ->
  (forall y, P y -> y = ctl h \/ exists i, B !! y = Some i /\ bfree i = true) ->
  links_only h P h' -> (exists L, lists_ok h' F L) -> listed_free B F ->
  wf h' B F e /\ forall T, kept T h B h' B.
Proof.
  intros H Hh Hf HP Ho HL HF.
  pose proof (fun x i lo hi => links_only_same h B h' P x i lo hi H HP Ho) as Hs.
  destruct Ho as [Hc _]. split.
  - split; rewrite ?Hc; auto.
    + intros a i Ha. rewrite <- (Hh a i Ha). apply ld64_ext, (Hs a i); auto; [lia| |right; left; lia].
      pose proof (shape_size _ _ _ _ H Ha). lia.
    + intros a i Ha Hfr He. rewrite <- (Hf a i Ha Hfr He) at 2. unfold next_of.
      destruct (sh_size _ _ H a i Ha) as [_ [[_ ?]|?]]; [congruence|].
      apply ld64_ext, (Hs a i); auto; lia.
  - intros T. apply kept_intro; [done..|]. intros x i _ Hx Hxf Hxs. apply (Hs x i); auto; lia.
Qed.

Lemma listed_nodes h B F : listed_free B F ->
  forall y, node h F y -> y = ctl h \/ exists i, B !! y = Some i /\ bfree i = true.
Proof. intros HF y [->|[s Hs]]; [by left|right]. destruct (HF y s Hs) as (i & ? & ? & _). eauto. Qed.

(** A store into the footprint of block [a], outside its links if it is listed. *)
Section own_store.
Context (h : heap) (B : gmap Z binfo) (F : Z -> option Z) (a w v : Z) (i : binfo).
Context (H : shape (ctl h) B) (Ha : B !! a = Some i).
Context (Hlo : a + 8 <= w) (Hhi : w + 8 <= a + 16 + bsize i).

Lemma own_store_other x j : B !! x = Some j -> x <> a ->
  same_on (x + 8) (x + 16 + bsize j) (hmem h) (st64 (hmem h) w v).
Proof.
  intros Hx Hne. apply same_on_st64. destruct (shape_footprint _ _ _ _ _ _ H Ha Hx); lia.
Qed.

Lemma own_store_hdr x j : B !! x = Some j -> x <> a ->
  ld64 (st64 (hmem h) w v) (x + 8) = ld64 (hmem h) (x + 8).
Proof.
  intros Hx Hne. pose proof (shape_size _ _ _ _ H Hx).
  apply ld64_ext. eapply same_on_weaken; [by apply own_store_other|lia..].
Qed.

Lemma own_store_foot x j : B !! x = Some j -> x <> a ->
  ld64 (st64 (hmem h) w v) (next_of x (bsize j)) = ld64 (hmem h) (next_of x (bsize j)).
Proof.
  intros Hx Hne. pose proof (shape_size _ _ _ _ H Hx). unfold next_of.
  apply ld64_ext. eapply same_on_weaken; [by apply own_store_other|lia..].
Qed.

Lemma own_store_lists L : listed_free B F -> lists_ok h F L ->
  F a = None \/ w + 8 <= a + 16 \/ a + 32 <= w ->
  lists_ok (set_mem h (st64 (hmem h) w v)) F L.
Proof.
  intros HF HL Hor. apply lists_ok_frame; [done|]. intros b [s Hb].
  destruct (HF b s Hb) as (j & Hj & Hjf & _).
  destruct (sh_size _ _ H b j Hj) as [_ [[_ ?]|?]]; [congruence|].
  destruct (decide (b = a)) as [->|Hne].
  - apply same_on_st64. destruct Hor as [?|?]; [congruence|lia].
  - eapply same_on_weaken; [by apply own_store_other|lia..].
Qed.

Lemma own_store_kept (T : list Z) : a ∈ T \/ (bfree i = true \/ w + 8 <= a + 16) ->
  forall x j, x ∉ T -> B !! x = Some j -> bfree j = false -> bsize j <> 0 ->
    same_on (x + 16) (x + 16 + bsize j) (hmem h) (st64 (hmem h) w v).
Proof.
  intros Ht x j Hx Hj Hf Hs. destruct (decide (x = a)) as [->|Hne].
  - simplify_eq. apply same_on_st64. destruct Ht as [?|[?|?]]; [congruence..|lia].
  - eapply same_on_weaken; [by apply own_store_other|lia..].
Qed.
End own_store.

(** ** Steps on the free lists *)

Lemma wf_remove h B F e b s fl sl :
  wf h B F e -> F b = Some s -> mapping_insert s = (fl, sl) ->
  let h' := remove_free_block h b fl sl in
  wf h' B (F_del F b) e /\ forall T, kept T h B h' B.
Proof.
  intros [Hs Hh Hf [L HL] HF] Hb Hm h'.
  destruct (remove_free_block_ok h F L b s fl sl HL Hb Hm) as (L' & HL' & Ho).
  destruct (links_only_wf h B (F_del F b) e h' (node h F)) as [Hw Hk]; eauto using listed_nodes.
  - intros x s'. unfold F_del. case_decide; [done|]. apply HF.
Qed.

Lemma wf_insert h B F e b i :
  wf h B F e -> B !! b = Some i -> bfree i = true -> F b = None ->
  let h' := block_insert h b in
  wf h' B (F_add F b (bsize i)) e /\ forall T, kept T h B h' B.
Proof.
  intros [Hs Hh Hf [L HL] HF] Hb Hbf HFb h'.
  destruct (shape_size _ _ _ _ Hs Hb) as (Hr & Hok & _).
  destruct (sh_size _ _ Hs b i Hb) as [_ [[_ ?]|Hge]]; [congruence|].
  destruct (sh_addr _ _ Hs b i Hb) as (Hp & _ & Ha).
  assert (b <> ctl h) as Hc.
  { pose proof (sh_ctl _ _ Hs b i Hb). change sizeof_control with 6536 in *. lia. }
  subst h'. unfold block_insert. rewrite (block_size_enc _ _ i Hok (Hh b i Hb)).
  destruct (mapping_insert (bsize i)) as [fl sl] eqn:Hm.
  destruct (insert_free_block_ok h F L HL b (bsize i) fl sl HFb Hc Hr Hm) as [HL' Ho].
  { eapply shape_apart; eauto. lia. }
  { lia. }
  destruct (links_only_wf h B (F_add F b (bsize i)) e (insert_free_block h b fl sl)
              (fun x => x = b \/ node h F x)) as [Hw Hk]; eauto.
  - intros y [->|Hy]; [right; eauto|]. by eapply listed_nodes.
  - intros x s'. unfold F_add. case_decide; [|apply HF]. intros [= <-]. subst. eauto.
Qed.

Lemma wf_block_remove h B F e b i :
  wf h B F e -> B !! b = Some i -> F b = Some (bsize i) ->
  let h' := block_remove h b in
  wf h' B (F_del F b) e /\ forall T, kept T h B h' B.
Proof.
  intros H Hb HFb h'. subst h'. unfold block_remove.
  destruct (shape_size _ _ _ _ (wf_shape _ _ _ _ H) Hb) as (_ & Hok & _).
  rewrite (block_size_enc _ _ i Hok (wf_hdrs _ _ _ _ H b i Hb)).
  destruct (mapping_insert (bsize i)) as [fl sl] eqn:Hm. by eapply wf_remove.
Qed.

(** ** Steps on headers *)

Lemma shape_flags c B a i i' :
  shape c B -> B !! a = Some i -> bsize i' = bsize i -> bpool i' = bpool i ->
  (bsize i = 0 -> bfree i' = false) -> shape c (<[a:=i']> B).
Proof.
  intros H Ha Es Ep H0. destruct H as [S1 S2 S3 S4 S5 S6 S7]. split; try done.
  - intros x j Hx. ins_cases; [rewrite Es|]; eauto.
  - intros x j Hx. ins_cases; eauto. rewrite Es. destruct (S2 _ _ Ha) as [? [[? _]|?]]; eauto.
  - intros x j Hx Hs. assert (exists k, B !! next_of x (bsize j) = Some k /\ bpool k = bpool j) as (k & Hk & Ek).
    { ins_cases; eauto. rewrite Es, Ep in *. eauto. }
    destruct (decide (next_of x (bsize j) = a)) as [En|En].
    + rewrite En in *. rewrite lookup_insert_eq. simplify_eq. exists i'. split; [done|congruence].
    + rewrite lookup_insert_ne by done. eauto.
  - intros x j x' j' Hx Hx'. ins_cases; rewrite ?Es; try lia; eauto.
  - intros x j Hx Hs. ins_cases; eauto. rewrite Es, Ep in *. eauto.
  - intros x j Hx. ins_cases; eauto. rewrite Es. eauto.
Qed.

Lemma wf_set_hdr h B F e a i i' :
  wf h B F e -> B !! a = Some i -> bsize i' = bsize i -> bpool i' = bpool i ->
  (bfree i' = false -> F a = None) -> (bsize i = 0 -> bfree i' = false) ->
  (bfree i' = true -> a ∈ e \/ ld64 (hmem h) (next_of a (bsize i)) = a) ->
  let h' := set_mem h (st64 (hmem h) (a + 8) (enc i')) in
  wf h' (<[a:=i']> B) F e /\
  (forall T : list Z, a ∈ T \/ bfree i' = bfree i -> kept T h B h' (<[a:=i']> B)) /\
  (forall x j, B !! x = Some j -> bsize j <> 0 ->
     ld64 (hmem h') (next_of x (bsize j)) = ld64 (hmem h) (next_of x (bsize j))).
Proof.
  intros [Hs Hh Hf [L HL] HF] Ha Es Ep HF' H0 Hfo h'.
  destruct (shape_size _ _ _ _ Hs Ha) as (Hr & Hok & H24).
  assert (forall x j, B !! x = Some j -> bsize j <> 0 ->
     ld64 (hmem h') (next_of x (bsize j)) = ld64 (hmem h) (next_of x (bsize j))) as Hfeet.
  { intros x j Hx Hnz. destruct (decide (x = a)) as [->|Hne].
    - assert (j = i) as -> by congruence. cbn [hmem set_mem]. unfold next_of. apply ld64_st64_other. lia.
    - by apply (own_store_foot h B a (a + 8) _ i Hs Ha ltac:(lia) ltac:(lia)). }
  split; [split|split]; try done.
  - eapply shape_flags; eauto.
  - intros x j Hx. ins_cases.
    + apply ld64_st64_same, enc_range. by rewrite Es.
    + change (hmem h') with (st64 (hmem h) (a + 8) (enc i')).
      rewrite (own_store_hdr h B a (a + 8) _ i Hs Ha) with (j := j); eauto; lia.
  - intros x j Hx Hjf He. ins_cases.
    + rewrite Es. rewrite Hfeet; [by destruct (Hfo Hjf)|done|]. intros ?. rewrite H0 in Hjf; done.
    + rewrite Hfeet; [by apply Hf|done|]. destruct (sh_size _ _ Hs x j) as [_ [[_ ?]|?]]; [done|congruence|lia].
  - exists L. apply (own_store_lists h B F a (a + 8) _ i); auto; lia.
  - intros x s Hx. destruct (HF x s Hx) as (j & Hj & Hjf & Hjs).
    destruct (decide (x = a)) as [->|Hne]; [|rewrite lookup_insert_ne by done; eauto].
    rewrite lookup_insert_eq. exists i'. split; [done|].
    split; [|congruence]. destruct (bfree i') eqn:E; [done|]. rewrite HF' in Hx; done.
  - intros T Ht. apply kept_intro; [done|..].
    + intros x Hx. destruct (decide (x = a)) as [->|]; [|by apply used_insert].
      destruct Ht; [done|]. by apply (used_set _ _ i); auto.
    + intros x j Hx Hj Hjf Hjs. destruct (decide (x = a)) as [->|Hne].
      * apply same_on_st64. lia.
      * eapply same_on_weaken; [by eapply (own_store_other h B a (a + 8) _ i); eauto; lia|lia..].
Qed.

(** [block_link_next]: the block after [a] points back to [a]. *)
Lemma wf_link_next h B F e a i :
  wf h B F e -> B !! a = Some i -> bsize i <> 0 ->
  let h' := set_mem h (block_link_next (hmem h) a).1 in
  (block_link_next (hmem h) a).2 = next_of a (bsize i) /\
  wf h' B F (filter (fun x => x <> a) e) /\
  ld64 (hmem h') (next_of a (bsize i)) = a /\
  (forall T : list Z, a ∈ T \/ bfree i = true -> kept T h B h' B).
Proof.
  intros [Hs Hh Hf [L HL] HF] Ha Hne h'.
  destruct (shape_size _ _ _ _ Hs Ha) as (Hr & Hok & H24). specialize (H24 Hne).
  destruct (sh_addr _ _ Hs a i Ha) as (Hp & _ & Hb).
  assert (block_next (hmem h) a = next_of a (bsize i)) as En.
  { apply block_next_enc; auto; lia. }
  assert (hmem h' = st64 (hmem h) (next_of a (bsize i)) a) as Em.
  { subst h'. unfold block_link_next, prev_phys_block. by rewrite En. }
  assert (ld64 (hmem h') (next_of a (bsize i)) = a) as El by (rewrite Em; apply ld64_st64_same; lia).
  assert (a + 8 <= next_of a (bsize i)) by (unfold next_of; lia).
  assert (next_of a (bsize i) + 8 <= a + 16 + bsize i) by (unfold next_of; lia).
  split; [by unfold block_link_next|]. split; [split|split]; try done.
  - intros x j Hx. rewrite Em. destruct (decide (x = a)) as [->|Hxa].
    + simplify_eq. rewrite ld64_st64_other by (unfold next_of; lia). eauto.
    + rewrite (own_store_hdr h B a _ _ i Hs Ha) with (j := j); eauto.
  - intros x j Hx Hjf He. destruct (decide (x = a)) as [->|Hxa]; [by simplify_eq|].
    rewrite Em. rewrite (own_store_foot h B a _ _ i Hs Ha) with (j := j) by done.
    apply Hf; [done..|]. intros Hin. apply He. by apply list_elem_of_filter.
  - exists L. assert (h' = set_mem h (hmem h')) as -> by done. rewrite Em.
    apply (own_store_lists h B F a _ _ i); auto. unfold next_of. lia.
  - intros T Ht. apply kept_intro; [done..|]. intros x j Hx Hj Hjf Hjs. rewrite Em.
    eapply (own_store_kept h B a _ _ i Hs Ha) with (T := T); eauto. tauto.
Qed.

(** ** Splitting *)

Lemma shape_inside c B a i r : shape c B -> B !! a = Some i ->
  a < r < next_of a (bsize i) -> B !! r = None.
Proof.
  intros H Ha Hr. destruct (B !! r) as [j|] eqn:E; [|done].
  pose proof (sh_sep _ _ H a i r j Ha E). lia.
Qed.

Section split.
Context (c : Z) (B : gmap Z binfo) (a s : Z) (i : binfo) (f pf : bool).
Context (H : shape c B) (Ha : B !! a = Some i).
Context (Hs : 24 <= s) (Hd : (8 | s)) (Hs' : 24 <= bsize i - s - 8).

Let s' := bsize i - s - 8.
Let r := next_of a s.
Let B' := <[r := Blk s' f pf (bpool i)]> (<[a := set_bsize i s]> B).

Lemma split_fresh : B !! r = None /\ r <> a /\ next_of r s' = next_of a (bsize i).
Proof.
  unfold r, s', next_of in *. split; [|lia].
  eapply shape_inside; eauto. unfold next_of. lia.
Qed.

Lemma shape_split : shape c B'.
Proof.
  destruct split_fresh as (Hr & Hra & Hn).
  destruct (sh_size _ _ H a i Ha) as [[q Hq] [[? _]|Hsz]]; [lia|].
  destruct (sh_addr _ _ H a i Ha) as (Hp & [qa Hqa] & Hb).
  destruct Hd as [qs Hqs].
  destruct (sh_next _ _ H a i Ha) as (n & Hn' & Epn); [lia|].
  destruct (sh_pool _ _ H a i Ha) as (P1 & P2 & P3); [lia|].
  assert (forall x j, B' !! x = Some j ->
    (x = r /\ j = Blk s' f pf (bpool i)) \/ (x = a /\ j = set_bsize i s) \/
    (x <> r /\ x <> a /\ B !! x = Some j)) as Hc.
  { intros x j Hx. unfold B' in Hx. ins_cases; auto. }
  unfold B'. split.
  - intros x j Hx. destruct (Hc x j Hx) as [[-> ->]|[[-> ->]|(? & ? & Hx')]]; [| |by eapply (sh_addr _ _ H)];
      cbn [bsize set_bsize]; unfold r, s', next_of; split_and!; try lia.
    + exists (qa + 1 + qs). lia.
    + by exists qa.
  - intros x j Hx. destruct (Hc x j Hx) as [[-> ->]|[[-> ->]|(? & ? & Hx')]]; [| |by eapply (sh_size _ _ H)];
      cbn [bsize set_bsize bfree]; split; try (right; unfold s'; lia).
    + exists (q - qs - 1). unfold s'. lia.
    + by exists qs.
  - intros x j Hx Hnz. destruct (Hc x j Hx) as [[-> ->]|[[-> ->]|(Hxr & Hxa & Hx')]];
      cbn [bsize set_bsize bpool] in *.
    + rewrite Hn. rewrite !lookup_insert_ne by (unfold r, next_of in *; lia). eauto.
    + fold r. rewrite lookup_insert_eq. eauto.
    + destruct (sh_next _ _ H x j Hx' Hnz) as (k & Hk & Ek).
      assert (next_of x (bsize j) <> r) by congruence.
      rewrite lookup_insert_ne by done.
      destruct (decide (next_of x (bsize j) = a)) as [E|E].
      * rewrite E in *. rewrite lookup_insert_eq. eexists; split; [done|]. cbn. congruence.
      * rewrite lookup_insert_ne by done. eauto.
  - intros x j x' j' Hx Hx' Hlt.
    destruct (Hc x j Hx) as [[-> ->]|[[-> ->]|(Hxr & Hxa & Hxb)]],
      (Hc x' j' Hx') as [[-> ->]|[[-> ->]|(Hxr' & Hxa' & Hxb')]];
      cbn [bsize set_bsize] in *; try lia.
    + unfold r, s', next_of in *. lia.
    + rewrite Hn. apply (sh_sep _ _ H a i x' j' Ha Hxb').
      assert (a <> x') by congruence.
      destruct (shape_sep _ _ _ _ _ _ H Ha Hxb'); unfold r, next_of in *; lia.
    + pose proof (sh_sep _ _ H a i x' j' Ha Hxb' Hlt). unfold next_of in *. lia.
    + destruct (decide (x < a)); [|].
      * pose proof (sh_sep _ _ H x j a i Hxb Ha ltac:(lia)). unfold r, next_of in *. lia.
      * pose proof (sh_sep _ _ H a i x j Ha Hxb ltac:(lia)). unfold r, next_of in *. lia.
    + by apply (sh_sep _ _ H x j a i).
    + by apply (sh_sep _ _ H x j x' j').
  - intros x j Hx Hnz. destruct (Hc x j Hx) as [[-> ->]|[[-> ->]|(? & ? & Hx')]];
      cbn [bsize set_bsize bpool]; [| |by eapply (sh_pool _ _ H)];
      unfold r, s', next_of in *; lia.
  - intros x j Hx. pose proof (sh_ctl _ _ H a i Ha).
    destruct (Hc x j Hx) as [[-> ->]|[[-> ->]|(? & ? & Hx')]];
      cbn [bsize set_bsize]; [| |by eapply (sh_ctl _ _ H)]; unfold r, s', next_of in *; lia.
  - by apply (sh_c _ _ H).
Qed.
End split.

(** The two [block_set_size] calls of [block_split]. *)
Lemma wf_split h B F e a i s :
  wf h B F e -> B !! a = Some i -> F a = None ->
  24 <= s -> (8 | s) -> 24 <= bsize i - s - 8 ->
  let r := next_of a s in let s' := bsize i - s - 8 in
  let h' := set_mem h (block_set_size (block_set_size (hmem h) r s') a s) in
  exists f pf,
    wf h' (<[r := Blk s' f pf (bpool i)]> (<[a := set_bsize i s]> B)) F (a :: r :: e) /\
    (forall T : list Z, r ∈ T -> a ∈ T \/ bfree i = true ->
       kept T h B h' (<[r := Blk s' f pf (bpool i)]> (<[a := set_bsize i s]> B))) /\
    same_on (a + 16) (a + 16 + s) (hmem h) (hmem h').
Proof.
  intros [Hs Hh Hf [L HL] HF] Ha HFa H24 Hd Hs' r s' h'.
  destruct (shape_size _ _ _ _ Hs Ha) as (Hr & Hok & _).
  assert (size_ok s') as Hok'.
  { unfold size_ok. split; [pow2; subst s'; lia|]. destruct Hd as [q Hq].
    destruct Hok as [_ [q' Hq']]. exists (q' - q - 1). subst s'. lia. }
  destruct (block_set_size_raw (hmem h) r s' (bpool i) Hok') as (f & pf & Em1).
  destruct (split_fresh (ctl h) B a s i Hs Ha H24 Hs') as (Hfr & Hra & Hnx).
  fold r s' in Hfr, Hra, Hnx.
  assert (r = a + 8 + s) as Er by done.
  assert (a + 8 <= r + 8 /\ r + 8 + 8 <= a + 16 + bsize i) as [Hw1 Hw2] by lia.
  exists f, pf. subst h'. rewrite Em1.
  set (m1 := st64 (hmem h) (r + 8) _).
  assert (ld64 m1 (a + 8) = enc i) as Ha1 by (subst m1; rewrite ld64_st64_other by lia; auto).
  rewrite (block_set_size_enc m1 a i Hok Ha1) by (split; [pow2; lia|done]).
  set (m2 := st64 m1 (a + 8) _). set (h1 := set_mem h m1).
  assert (forall x j, B !! x = Some j -> x <> a ->
    same_on (x + 8) (x + 16 + bsize j) (hmem h) m2) as Hoth.
  { intros x j Hx Hne. eapply same_on_trans;
      [by eapply (own_store_other h B a (r + 8) _ i); eauto; lia
      |by eapply (own_store_other h1 B a (a + 8) _ i); eauto; lia]. }
  split; [split|split].
  - by apply shape_split.
  - intros x j Hx. cbn [hmem set_mem]. ins_cases.
    + unfold m2. rewrite ld64_st64_other by lia. apply ld64_st64_same, enc_range. done.
    + apply ld64_st64_same, enc_range. split; [cbn; pow2; lia|done].
    + rewrite <- (Hh x j) by done. pose proof (shape_size _ _ x j Hs ltac:(done)).
      apply ld64_ext. eapply same_on_weaken; [eapply Hoth; eauto|lia..].
  - intros x j Hx Hjf He. cbn [hmem set_mem]. apply not_elem_of_cons in He as [? He].
    apply not_elem_of_cons in He as [? He]. ins_cases; [done..|].
    rewrite <- (Hf x j) at 2 by done. pose proof (shape_size _ _ x j Hs ltac:(done)).
    unfold next_of. apply ld64_ext. eapply same_on_weaken; [eapply Hoth; eauto|lia..].
  - exists L. apply (own_store_lists h1 B F a (a + 8) _ i); auto; [lia..|].
    apply (own_store_lists h B F a (r + 8) _ i); auto.
  - intros x sx Hx. destruct (HF x sx Hx) as (j & Hj & Hjf & Ej). exists j.
    rewrite !lookup_insert_ne by congruence. done.
  - intros T HrT Ht. apply kept_intro; [done|..].
    { intros x Hx. rewrite used_insert by congruence.
      destruct (decide (x = a)) as [->|]; [|by apply used_insert].
      destruct Ht; [done|]. apply (used_set _ _ i); auto. }
    intros x j Hx Hj Hjf Hjs.
    assert (x <> a) by (intros ->; destruct Ht; congruence).
    eapply same_on_weaken; [eapply Hoth; eauto|lia..].
  - eapply same_on_trans; apply same_on_st64; lia.
Qed.

(** ** Merging *)

Section absorb.
Context (c : Z) (B : gmap Z binfo) (a : Z) (i j : binfo).
Context (H : shape c B) (Ha : B !! a = Some i) (Hi : bsize i <> 0).
Context (Hn : B !! next_of a (bsize i) = Some j) (Hj : bsize j <> 0).

Let n := next_of a (bsize i).
Let s := bsize i + 8 + bsize j.
Let B' := delete n (<[a := set_bsize i s]> B).

Lemma absorb_next : next_of n (bsize j) = next_of a s /\ 24 <= s < 2 ^ 32 /\ (8 | s) /\ a < n.
Proof.
  destruct (sh_next _ _ H a i Ha Hi) as (j' & Hj' & Ep). simplify_eq.
  destruct (sh_pool _ _ H a i Ha Hi) as (P1 & P2 & P3).
  destruct (sh_pool _ _ H _ _ Hn Hj) as (Q1 & Q2 & Q3).
  destruct (shape_size _ _ _ _ H Ha) as (_ & [_ [q Hq]] & S1).
  destruct (shape_size _ _ _ _ H Hn) as (_ & [_ [q' Hq']] & S2).
  rewrite Ep in *. unfold n, s, next_of in *. split_and!; try lia. exists (q + 1 + q'). lia.
Qed.

Lemma shape_absorb : shape c B'.
Proof.
  destruct absorb_next as (En & Hs & Hd & Han).
  destruct (sh_addr _ _ H a i Ha) as (Hp & Hda & Hb).
  destruct (sh_addr _ _ H _ _ Hn) as (_ & _ & Hbn).
  destruct (sh_next _ _ H _ _ Hn Hj) as (k & Hk & Ek).
  destruct (sh_next _ _ H _ _ Ha Hi) as (j' & Hj' & Ep). simplify_eq.
  destruct (sh_pool _ _ H a i Ha Hi) as (P1 & P2 & P3).
  destruct (sh_pool _ _ H _ _ Hn Hj) as (Q1 & Q2 & Q3).
  pose proof (shape_size _ _ _ _ H Hn) as (? & _ & ?).
  assert (forall x k, B' !! x = Some k ->
    (x = a /\ k = set_bsize i s) \/ (x <> n /\ x <> a /\ B !! x = Some k)) as Hc.
  { intros x k' Hx. unfold B' in Hx. ins_cases; auto. }
  unfold B'. split.
  - intros x l Hx. destruct (Hc x l Hx) as [[-> ->]|(? & ? & Hx')]; [|by eapply (sh_addr _ _ H)].
    cbn [bsize set_bsize]. unfold n, s, next_of in *. split_and!; try done; lia.
  - intros x l Hx. destruct (Hc x l Hx) as [[-> ->]|(? & ? & Hx')]; [|by eapply (sh_size _ _ H)].
    cbn [bsize set_bsize]. auto.
  - intros x l Hx Hnz. destruct (Hc x l Hx) as [[-> ->]|(Hxn & Hxa & Hx')]; cbn [bsize set_bsize bpool].
    + rewrite <- En. fold n in Hk.
      rewrite lookup_delete_ne, lookup_insert_ne by (unfold next_of in *; lia).
      exists k. split; [done|congruence].
    + destruct (sh_next _ _ H x l Hx' Hnz) as (k' & Hk' & Ek').
      assert (next_of x (bsize l) <> n).
      { intros E. pose proof (shape_sep _ _ _ _ _ _ H Ha Hx' ltac:(done)).
        pose proof (shape_size _ _ _ _ H Hx'). unfold n, next_of in *. lia. }
      rewrite lookup_delete_ne by done.
      destruct (decide (next_of x (bsize l) = a)) as [E|E].
      * rewrite E in *. rewrite lookup_insert_eq. eexists; split; [done|]. cbn. congruence.
      * rewrite lookup_insert_ne by done. eauto.
  - intros x l x' l' Hx Hx' Hlt.
    destruct (Hc x l Hx) as [[-> ->]|(Hxn & Hxa & Hxb)],
      (Hc x' l' Hx') as [[-> ->]|(Hxn' & Hxa' & Hxb')]; cbn [bsize set_bsize] in *; try lia.
    + rewrite <- En. apply (sh_sep _ _ H _ _ _ _ Hn Hxb').
      pose proof (sh_sep _ _ H _ _ _ _ Ha Hxb' Hlt) as Hle. fold n in Hle |- *. lia.
    + by apply (sh_sep _ _ H x l a i).
    + by apply (sh_sep _ _ H x l x' l').
  - intros x l Hx Hnz. destruct (Hc x l Hx) as [[-> ->]|(? & ? & Hx')]; [|by eapply (sh_pool _ _ H)].
    cbn [bsize set_bsize bpool]. rewrite <- En. rewrite Ep in *. fold n in P2, Q2. lia.
  - intros x l Hx. destruct (Hc x l Hx) as [[-> ->]|(? & ? & Hx')]; [|by eapply (sh_ctl _ _ H)].
    cbn [bsize set_bsize]. pose proof (sh_ctl _ _ H _ _ Ha). pose proof (sh_ctl _ _ H _ _ Hn).
    pose proof (sh_c _ _ H). change sizeof_control with 6536 in *.
    unfold n, s, next_of in *. lia.
  - by apply (sh_c _ _ H).
Qed.
End absorb.

Lemma wf_absorb h B F e a i j :
  wf h B F e -> B !! a = Some i -> bsize i <> 0 ->
  B !! next_of a (bsize i) = Some j -> bsize j <> 0 ->
  F a = None -> F (next_of a (bsize i)) = None ->
  let n := next_of a (bsize i) in
  let B' := delete n (<[a := set_bsize i (bsize i + 8 + bsize j)]> B) in
  let h' := set_mem h (block_absorb (hmem h) a n).1 in
  (block_absorb (hmem h) a n).2 = a /\
  wf h' B' F (filter (fun x => x <> a) e) /\
  (forall T : list Z, (a ∈ T \/ bfree i = true) -> bfree j = true -> kept T h B h' B') /\
  same_on (a + 16) (a + 16 + bsize i) (hmem h) (hmem h').
Proof.
  intros [Hs Hh Hf [L HL] HF] Ha Hi Hn Hj HFa HFn n B' h'.
  set (s := bsize i + 8 + bsize j).
  destruct (absorb_next (ctl h) B a i j Hs Ha Hi Hn Hj) as (En & Hsz & Hd & Han).
  fold n s in En, Hsz, Hd, Han.
  destruct (shape_size _ _ _ _ Hs Ha) as (_ & Hok & Si).
  destruct (shape_size _ _ _ _ Hs Hn) as (_ & Hokn & Sn).
  destruct (sh_addr _ _ Hs a i Ha) as (Hp & _ & Hb).
  destruct (sh_addr _ _ Hs _ _ Hn) as (_ & _ & Hbn). fold n in Hbn.
  set (i' := set_bsize i s).
  assert (size_ok (bsize i')) as Hok' by (split; [cbn; pow2; lia|done]).
  set (m1 := st64 (hmem h) (a + 8) (enc i')).
  assert (ld64 m1 (a + 8) = enc i') as E1 by by apply ld64_st64_same, enc_range.
  assert (block_next m1 a = next_of a s) as Enx.
  { apply (block_next_enc m1 a i'); auto; cbn [bsize i' set_bsize]; unfold n, s, next_of in *; lia. }
  assert (hmem h' = st64 m1 (next_of a s) a /\ (block_absorb (hmem h) a n).2 = a) as [Em E2].
  { unfold h', block_absorb, size_field. rewrite (Hh _ _ Ha).
    rewrite (block_size_enc _ n j Hokn (Hh _ _ Hn)).
    assert (u64 (enc i + u64 (bsize j + block_header_overhead)) = enc i') as ->.
    { change block_header_overhead with 8. rewrite uw_add_r by lia.
      unfold i', s, enc; cbn [bsize bfree bpfree set_bsize].
      rewrite uw_small; [lia|]. destruct (bfree i), (bpfree i); cbn; pow2; lia. }
    fold m1. unfold block_link_next, prev_phys_block. by rewrite Enx. }
  assert (forall x k, B !! x = Some k -> x <> a -> x <> n ->
    same_on (x + 8) (x + 16 + bsize k) (hmem h) (hmem h')) as Hoth.
  { intros x k Hx Hxa Hxn. rewrite Em. pose proof (shape_footprint _ _ _ _ _ _ Hs Ha Hx ltac:(done)).
    pose proof (shape_footprint _ _ _ _ _ _ Hs Hn Hx ltac:(done)).
    eapply same_on_trans; apply same_on_st64; unfold n, s, next_of in *; lia. }
  split; [done|]. split; [split|split].
  - by apply shape_absorb.
  - intros x k Hx. unfold B' in Hx. ins_cases.
    + rewrite Em, ld64_st64_other by (unfold next_of; lia). done.
    + rewrite <- (Hh x k) by done. pose proof (shape_size _ _ x k Hs ltac:(done)).
      apply ld64_ext. eapply same_on_weaken; [eapply Hoth; eauto|lia..].
  - intros x k Hx Hjf He. unfold B' in Hx. ins_cases.
    + rewrite Em. apply ld64_st64_same. lia.
    + rewrite <- (Hf x k) at 2; [|done..|rewrite list_elem_of_filter in He; naive_solver].
      pose proof (shape_size _ _ x k Hs ltac:(done)).
      unfold next_of. apply ld64_ext. eapply same_on_weaken; [eapply Hoth; eauto|lia..].
  - exists L. assert (h' = set_mem h (hmem h')) as -> by done. apply lists_ok_frame; [done|].
    intros b [sb Hb']. destruct (HF b sb Hb') as (k & Hk & Hkf & _).
    destruct (sh_size _ _ Hs b k Hk) as [_ [[_ ?]|?]]; [congruence|].
    eapply same_on_weaken; [eapply Hoth; eauto; unfold n; congruence|lia..].
  - intros x sx Hx. destruct (HF x sx Hx) as (k & Hk & Hkf & Es). exists k. unfold B', n.
    rewrite lookup_delete_ne, lookup_insert_ne by congruence. done.
  - intros T Ht Hjf. apply kept_intro; [done|..].
    { intros x Hx. destruct (decide (x = n)) as [->|].
      - unfold used, B', n. by rewrite lookup_delete_eq, Hn; cbn; rewrite Hjf.
      - unfold B'. rewrite used_delete by done.
        destruct (decide (x = a)) as [->|]; [|by apply used_insert].
        destruct Ht; [done|]. apply (used_set _ _ i); auto. }
    intros x k Hx Hk Hkf Hks.
    assert (x <> a) by (intros ->; destruct Ht; congruence).
    assert (x <> n) by (intros ->; unfold n in *; congruence).
    eapply same_on_weaken; [eapply Hoth; eauto|lia..].
  - rewrite Em. eapply same_on_trans; apply same_on_st64; unfold s, next_of; lia.
Qed.
