(* ===== verification/TlsfOps.v ===== *)
(** TLSF, part 6: the block operations ([block_mark_as_free], [block_split],
    [block_merge_next], ...) as transformations of the heap map. *)
From S2P Require Import Prelude Memory TlsfBits Tlsf TlsfHdr TlsfList TlsfInv.

(** ** Neighbours *)

Lemma next_inj c B x i y j : shape c B -> B !! x = Some i -> B !! y = Some j ->
  next_of x (bsize i) = next_of y (bsize j) -> x = y.
Proof.
  intros H Hx Hy E. destruct (decide (x = y)) as [|Hne]; [done|].
  destruct (shape_sep _ _ _ _ _ _ H Hx Hy Hne);
    pose proof (shape_size _ _ _ _ H Hx); pose proof (shape_size _ _ _ _ H Hy);
    unfold next_of in *; lia.
Qed.

Lemma next_ne c B a i : shape c B -> B !! a = Some i -> next_of a (bsize i) <> a.
Proof. intros H Ha. pose proof (shape_size _ _ _ _ H Ha). unfold next_of. lia. Qed.

Lemma pred_free_next c B a i : shape c B -> B !! a = Some i ->
  pred_free B (next_of a (bsize i)) <-> bfree i = true.
Proof.
  intros H Ha. split; [|by exists a, i].
  intros (p & j & Hp & Hf & E). assert (p = a) as -> by by eapply next_inj. congruence.
Qed.

Lemma pred_free_mono (B B' : gmap Z binfo) n :
  (forall p j, B !! p = Some j -> bfree j = true -> next_of p (bsize j) = n ->
     exists j', B' !! p = Some j' /\ bfree j' = true /\ next_of p (bsize j') = n) ->
  pred_free B n -> pred_free B' n.
Proof. intros H (p & j & Hp & Hf & E). destruct (H p j Hp Hf E) as (j' & ?). by exists p, j'. Qed.

(** ** The prev-free bits *)

Lemma flags_weaken E E' B : (forall x, x ∈ E -> x ∈ E') -> flags_ok E B -> flags_ok E' B.
Proof. intros HE H n i Hn Hi. apply (H n i Hn). auto. Qed.

Section flags.
Context (c : Z) (B : gmap Z binfo) (E : list Z) (a : Z) (i j : binfo).
Context (H : shape c B) (Hfl : flags_ok E B) (Ha : B !! a = Some i).
Let n := next_of a (bsize i).

Lemma flags_set_pfree v : (v = true <-> pred_free B a) ->
  flags_ok (filter (fun x => x <> a) E) (<[a := set_bpfree i v]> B).
Proof.
  intros Hv x k Hx He.
  assert (pred_free (<[a := set_bpfree i v]> B) x <-> pred_free B x) as ->.
  { clear Hx. split; apply pred_free_mono; intros p l Hp Hf En.
    - ins_cases; [|eauto]. by exists i.
    - destruct (decide (p = a)) as [->|]; [|rewrite lookup_insert_ne by done; eauto].
      rewrite lookup_insert_eq. simplify_eq. by eexists. }
  ins_cases; [done|]. apply Hfl; [done|]. intros Hin. apply He, list_elem_of_filter. done.
Qed.

(** [block_mark_as_free] and [block_mark_as_used]. *)
Lemma flags_mark v : B !! n = Some j ->
  flags_ok (filter (fun x => x <> n) E) (<[a := set_bfree i v]> (<[n := set_bpfree j v]> B)).
Proof.
  intros Hn x k Hx He. pose proof (next_ne _ _ _ _ H Ha) as Hna. fold n in Hna.
  set (B' := <[a := set_bfree i v]> (<[n := set_bpfree j v]> B)).
  assert (pred_free B' n <-> v = true) as Hpn.
  { clear Hx. split.
    - intros (p & l & Hp & Hf & En). unfold B' in Hp. ins_cases; [done|..]; exfalso.
      + pose proof (shape_size _ _ _ _ H Hn). cbn [bsize set_bpfree] in En. unfold next_of in *. lia.
      + assert (p = a); [|done]. by eapply (next_inj c B).
    - intros ->. exists a, (set_bfree i true). unfold B'. by rewrite lookup_insert_eq. }
  destruct (decide (x = n)) as [->|Hxn].
  { rewrite Hpn. rewrite lookup_insert_ne, lookup_insert_eq in Hx by done. by simplify_eq. }
  assert (pred_free B' x <-> pred_free B x) as ->.
  { clear Hx. unfold B'. split; apply pred_free_mono; intros p l Hp Hf En.
    - ins_cases; [by destruct Hxn|by exists j|eauto].
    - destruct (decide (p = a)) as [->|]; [by simplify_eq; destruct Hxn|].
      rewrite lookup_insert_ne by done.
      destruct (decide (p = n)) as [->|]; [|rewrite lookup_insert_ne by done; eauto].
      rewrite lookup_insert_eq. simplify_eq. by eexists. }
  assert (x ∉ E) by (intros ?; apply He, list_elem_of_filter; done).
  ins_cases; [by apply (Hfl _ i)|done|by apply Hfl].
Qed.

Lemma flags_split s f pf : 24 <= s -> 24 <= bsize i - s - 8 ->
  flags_ok (next_of a s :: n :: E)
    (<[next_of a s := Blk (bsize i - s - 8) f pf (bpool i)]> (<[a := set_bsize i s]> B)).
Proof.
  intros Hs Hs' x k Hx He. destruct (split_fresh c B a s i H Ha Hs Hs') as (Hr & Hra & Hrn).
  apply not_elem_of_cons in He as [Hxr He]. apply not_elem_of_cons in He as [Hxn He].
  set (B' := <[next_of a s := Blk _ f pf (bpool i)]> _).
  assert (pred_free B' x <-> pred_free B x) as ->.
  { clear Hx. unfold B'. split; apply pred_free_mono; intros p l Hp Hf En.
    - ins_cases; [|done|eauto]. cbn [bsize] in *. by destruct Hxn.
    - assert (p <> a) by (intros ->; simplify_eq; by destruct Hxn).
      rewrite !lookup_insert_ne by congruence. eauto. }
  ins_cases; [done|by apply (Hfl _ i)|by apply Hfl].
Qed.

Lemma flags_absorb : B !! n = Some j -> bsize i <> 0 -> bsize j <> 0 ->
  flags_ok (next_of n (bsize j) :: E)
    (delete n (<[a := set_bsize i (bsize i + 8 + bsize j)]> B)).
Proof.
  intros Hn Hi Hj x k Hx He. apply not_elem_of_cons in He as [Hxn He].
  destruct (absorb_next c B a i j H Ha Hi Hn Hj) as (En & _). fold n in En.
  assert (x <> n) as Hxn'. { intros ->. by rewrite lookup_delete_eq in Hx. }
  set (B' := delete n _).
  assert (pred_free B' x <-> pred_free B x) as ->.
  { clear Hx. unfold B'. split; apply pred_free_mono; intros p l Hp Hf Ex.
    - ins_cases; [|eauto]. cbn [bsize set_bsize] in *. by destruct Hxn.
    - assert (p <> a) by (intros ->; simplify_eq; done).
      assert (p <> n) by (intros ->; simplify_eq; done).
      rewrite lookup_delete_ne, lookup_insert_ne by congruence. eauto. }
  ins_cases; [by apply (Hfl _ i)|by apply Hfl].
Qed.
End flags.

(** ** Weakening *)

Lemma wf_exempt h B F e e' : wf h B F e ->
  (forall x i, B !! x = Some i -> bfree i = true -> x ∈ e -> x ∈ e') -> wf h B F e'.
Proof. intros [Hs Hh Hf HL HF] He. split; try done. intros x i Hx Hi Hn. apply Hf; eauto. Qed.

Lemma wf_ext h B F F' e : (forall x, F' x = F x) -> wf h B F e -> wf h B F' e.
Proof.
  intros HF [Hs Hh Hf [L HL] Hl]. split; try done.
  - exists L. by eapply lists_ok_ext.
  - intros b s. rewrite HF. apply Hl.
Qed.

Lemma kept_weaken (T T' : list Z) h B h' B' :
  (forall x, x ∈ T -> x ∈ T' \/ used B x = None /\ used B' x = None) ->
  kept T h B h' B' -> kept T' h B h' B'.
Proof.
  intros HT (Hc & Hu & Hs). split; [done|]. split.
  - intros x Hx. destruct (decide (x ∈ T)) as [Hin|]; [|auto].
    destruct (HT x Hin) as [|[E1 E2]]; [done|congruence].
  - intros x s Hx Hxs. destruct (decide (x ∈ T)) as [Hin|]; [|auto].
    destruct (HT x Hin) as [|[E1 E2]]; [done|congruence].
Qed.

Lemma wf_unlisted h B F e a i : wf h B F e -> B !! a = Some i -> bfree i = false -> F a = None.
Proof.
  intros H Ha Hi. destruct (F a) as [s|] eqn:E; [|done].
  destruct (wf_listed _ _ _ _ H a s E) as (j & Hj & Hjf & _). congruence.
Qed.

Lemma wf_size h B F e a i : wf h B F e -> B !! a = Some i -> size_ok (bsize i).
Proof. intros [H _ _ _ _] Ha. by eapply shape_size. Qed.

Lemma wf_free_size h B F e a i : wf h B F e -> B !! a = Some i -> bfree i = true -> bsize i <> 0.
Proof. intros [H _ _ _ _] Ha Hf. destruct (sh_size _ _ H a i Ha) as [_ [[_ ?]|?]]; [congruence|lia]. Qed.

(** A change of the prev-free bit alone. *)
Lemma wf_set_pfree h B F e a i v :
  wf h B F e -> B !! a = Some i ->
  let h' := set_mem h (st64 (hmem h) (a + 8) (enc (set_bpfree i v))) in
  wf h' (<[a := set_bpfree i v]> B) F e /\
  (forall T, kept T h B h' (<[a := set_bpfree i v]> B)) /\
  (forall x j, B !! x = Some j -> bsize j <> 0 ->
     ld64 (hmem h') (next_of x (bsize j)) = ld64 (hmem h) (next_of x (bsize j))).
Proof.
  intros H Ha h'. destruct (wf_set_hdr h B F e a i (set_bpfree i v)) as (Hw & Hk & Hf); [done..| | | |].
  - cbn. intros Hf. by eapply wf_unlisted.
  - cbn. intros H0. destruct (bfree i) eqn:E; [|done]. by destruct (wf_free_size _ _ _ _ _ _ H Ha E).
  - cbn. intros Hf. destruct (decide (a ∈ e)); [by left|right]. by apply (wf_feet _ _ _ _ H).
  - split; [done|]. split; [|done]. intros T. apply Hk. auto.
Qed.

(** ** [block_mark_as_free] and [block_mark_as_used] *)

Section mark.
Context (h : heap) (B : gmap Z binfo) (F : Z -> option Z) (e : list Z) (a : Z) (i j : binfo).
Context (H : wf h B F e) (Ha : B !! a = Some i) (Hi : bsize i <> 0) (HFa : F a = None).
Let n := next_of a (bsize i).
Context (Hn : B !! n = Some j).

Lemma block_mark_as_free_ok :
  let h' := set_mem h (block_mark_as_free (hmem h) a) in
  let B' := <[a := set_bfree i true]> (<[n := set_bpfree j true]> B) in
  wf h' B' F (filter (fun x => x <> a) e) /\
  (forall T : list Z, a ∈ T \/ bfree i = true -> kept T h B h' B').
Proof.
  intros h' B'. unfold block_mark_as_free in h'.
  pose proof (next_ne _ _ _ _ (wf_shape _ _ _ _ H) Ha) as Hna. fold n in Hna.
  destruct (wf_link_next h B F e a i H Ha Hi) as (E1 & H1 & F1 & K1).
  destruct (block_link_next (hmem h) a) as [m1 nx]. cbn [fst snd] in *. subst nx.
  set (h1 := set_mem h m1) in *. fold n in F1.
  destruct (wf_set_pfree h1 B F _ n j true H1 Hn) as (H2 & K2 & F2).
  set (B2 := <[n := set_bpfree j true]> B) in *. set (h2 := set_mem h1 _) in *.
  assert (B2 !! a = Some i) as Ha2 by (unfold B2; by rewrite lookup_insert_ne).
  destruct (wf_set_hdr h2 B2 F _ a i (set_bfree i true) H2 Ha2) as (H3 & K3 & F3);
    [done..|intros _; right; by rewrite (F2 a i Ha Hi)|].
  assert (h' = set_mem h2 (st64 (hmem h2) (a + 8) (enc (set_bfree i true)))) as ->.
  { unfold h'. fold n. rewrite (block_set_prev_free_enc m1 n j); [|by apply (wf_size _ _ _ _ _ _ H Hn)|by apply (wf_hdrs _ _ _ _ H1)].
    change (st64 m1 (n + 8) _) with (hmem h2).
    rewrite (block_set_free_enc (hmem h2) a i); [done|by apply (wf_size _ _ _ _ _ _ H Ha)|by apply (wf_hdrs _ _ _ _ H2)]. }
  split; [done|]. intros T HT. eapply kept_trans; [by apply K1|]. eapply kept_trans; [by apply K2|].
  apply K3. destruct HT as [|Ef]; [by left|right; by rewrite Ef].
Qed.

Lemma block_mark_as_used_ok :
  let h' := set_mem h (block_mark_as_used (hmem h) a) in
  let B' := <[a := set_bfree i false]> (<[n := set_bpfree j false]> B) in
  wf h' B' F e /\ (forall T : list Z, a ∈ T \/ bfree i = false -> kept T h B h' B').
Proof.
  intros h' B'. unfold block_mark_as_used in h'.
  pose proof (next_ne _ _ _ _ (wf_shape _ _ _ _ H) Ha) as Hna. fold n in Hna.
  destruct (wf_set_pfree h B F _ n j false H Hn) as (H2 & K2 & F2).
  set (B2 := <[n := set_bpfree j false]> B) in *. set (h2 := set_mem h (st64 _ _ _)) in *.
  assert (B2 !! a = Some i) as Ha2 by (unfold B2; by rewrite lookup_insert_ne).
  destruct (wf_set_hdr h2 B2 F e a i (set_bfree i false) H2 Ha2) as (H3 & K3 & F3); auto; [done|].
  destruct (sh_addr _ _ (wf_shape _ _ _ _ H) a i Ha) as (? & _ & ?).
  destruct (shape_size _ _ _ _ (wf_shape _ _ _ _ H) Ha) as (? & Hok & ?).
  assert (h' = set_mem h2 (st64 (hmem h2) (a + 8) (enc (set_bfree i false)))) as ->.
  { unfold h'. rewrite (block_next_enc (hmem h) a i); [|done|by apply (wf_hdrs _ _ _ _ H)|lia..].
    fold n. rewrite (block_set_prev_used_enc _ n j); [|by apply (wf_size _ _ _ _ _ _ H Hn)|by apply (wf_hdrs _ _ _ _ H)].
    change (st64 (hmem h) (n + 8) _) with (hmem h2).
    rewrite (block_set_used_enc (hmem h2) a i); [done|by apply (wf_size _ _ _ _ _ _ H Ha)|by apply (wf_hdrs _ _ _ _ H2)]. }
  split; [done|]. intros T HT. eapply kept_trans; [by apply K2|]. apply K3.
  destruct HT; [by left|by right].
Qed.
End mark.

(** ** [block_split] *)

Section split_op.
Context (h : heap) (B : gmap Z binfo) (F : Z -> option Z) (e E : list Z) (a s : Z) (i j : binfo).
Context (H : wf h B F e) (Hfl : flags_ok E B) (Ha : B !! a = Some i) (HFa : F a = None).
Context (H24 : 24 <= s) (Hd : (8 | s)) (Hs' : 24 <= bsize i - s - 8).
Let n := next_of a (bsize i).
Let r := next_of a s.
Let s' := bsize i - s - 8.
Context (Hn : B !! n = Some j).

Definition split_map (pf : bool) : gmap Z binfo :=
  <[r := Blk s' true pf (bpool i)]> (<[n := set_bpfree j true]> (<[a := set_bsize i s]> B)).

Lemma split_places : B !! r = None /\ r <> a /\ r <> n /\ n <> a /\ next_of r s' = n /\ F r = None.
Proof.
  destruct (split_fresh (ctl h) B a s i (wf_shape _ _ _ _ H) Ha H24 Hs') as (Hr & Hra & Hrn).
  fold r s' in Hr, Hra, Hrn. split_and!; try done.
  - intros E0. congruence.
  - by eapply next_ne; [apply H|].
  - destruct (F r) as [q|] eqn:Er; [|done]. destruct (wf_listed _ _ _ _ H r q Er) as (k & ? & _). congruence.
Qed.

Lemma block_split_eq :
  block_split (hmem h) a s =
    (block_mark_as_free (block_set_size (block_set_size (hmem h) r s') a s) r, r).
Proof.
  destruct (sh_addr _ _ (wf_shape _ _ _ _ H) a i Ha) as (? & _ & ?).
  destruct (shape_size _ _ _ _ (wf_shape _ _ _ _ H) Ha) as (? & Hok & ?).
  unfold block_split. rewrite (block_size_enc _ _ i) by (done || apply H, Ha).
  assert (offset_to_block (block_to_ptr a) (u64 (s - block_header_overhead)) = r) as ->.
  { unfold offset_to_block, block_to_ptr, r, next_of. change block_header_overhead with 8.
    change block_start_offset with 16. usmalls. lia. }
  assert (u64 (bsize i - u64 (s + block_header_overhead)) = s') as ->; [|done].
  change block_header_overhead with 8. usmalls. unfold s'. lia.
Qed.

Lemma block_split_ok :
  let h' := set_mem h (block_split (hmem h) a s).1 in
  exists pf, let B' := split_map pf in
    wf h' B' F (a :: e) /\ flags_ok (r :: E) B' /\
    (forall T : list Z, a ∈ T \/ bfree i = true -> kept T h B h' B') /\
    (bfree i = false -> same_on (a + 16) (a + 16 + s) (hmem h) (hmem h')).
Proof.
  intros h'. destruct split_places as (Hr & Hra & Hrn & Hna & Hnx & HFr).
  destruct (wf_split h B F e a i s H Ha HFa H24 Hd Hs') as (f & pf & H1 & K1 & S1).
  fold r s' in H1, K1, S1. set (h1 := set_mem h (block_set_size _ _ _)) in *.
  pose proof (flags_split _ _ E a i (wf_shape _ _ _ _ H) Hfl Ha s f pf H24 Hs') as G1.
  fold r s' n in G1. set (B1 := <[r := Blk s' f pf (bpool i)]> _) in *.
  assert (B1 !! r = Some (Blk s' f pf (bpool i))) as Hr1 by (unfold B1; by rewrite lookup_insert_eq).
  assert (B1 !! next_of r s' = Some j) as Hn1 by (unfold B1; rewrite Hnx, !lookup_insert_ne by done; done).
  destruct (block_mark_as_free_ok h1 B1 F _ r _ j H1 Hr1) as [H2 K2]; [cbn; unfold s'; lia|done..|].
  pose proof (flags_mark _ _ _ r _ j (wf_shape _ _ _ _ H1) G1 Hr1 true Hn1) as G2.
  assert (h' = set_mem h1 (block_mark_as_free (hmem h1) r)) as Eh by (unfold h'; by rewrite block_split_eq).
  assert (<[r := set_bfree (Blk s' f pf (bpool i)) true]> (<[next_of r s' := set_bpfree j true]> B1)
          = split_map pf) as EB.
  { unfold B1, split_map. rewrite Hnx. rewrite (insert_insert_ne _ n r) by done.
    by rewrite insert_insert_eq. }
  cbn [bsize] in H2, K2, G2. rewrite EB in H2, K2, G2. rewrite <- Eh in H2, K2.
  exists pf. cbv zeta. split_and!.
  - eapply wf_exempt; [exact H2|]. intros x k _ _. rewrite list_elem_of_filter, !elem_of_cons. tauto.
  - eapply flags_weaken; [|exact G2]. intros x. rewrite Hnx, list_elem_of_filter, !elem_of_cons. tauto.
  - intros T HT. apply (kept_weaken (r :: T)).
    + intros x [->|]%elem_of_cons; [right|by left].
      split; apply used_free; intros k Hk; [congruence|].
      unfold split_map in Hk. rewrite lookup_insert_eq in Hk. by injection Hk as <-.
    + eapply kept_trans; [apply K1|apply K2]; rewrite !elem_of_cons; tauto.
  - intros Hif. eapply same_on_trans; [exact S1|].
    destruct (K2 [r] ltac:(rewrite elem_of_cons; auto)) as (_ & _ & K3).
    apply (K3 a s); [by rewrite list_elem_of_singleton|]. apply used_Some. exists (set_bsize i s).
    unfold B1. rewrite lookup_insert_ne, lookup_insert_eq by done. split; [reflexivity|]. split; [exact Hif|]. split; [reflexivity|lia].
Qed.
End split_op.
