(* ===== verification/TlsfLoose.v ===== *)
(** TLSF, part 7: heaps with one loose block.  In the middle of an allocation,
    a release or a resize one block is marked free and is in no free list
    ([loose]).  The operations between two public calls take [inv] heaps to
    loose ones, loose heaps to loose ones, and loose heaps back to [inv]. *)
From S2P Require Import Prelude Memory TlsfBits Tlsf TlsfHdr TlsfList TlsfInv TlsfOps.

Record loose (h : heap) (B : gmap Z binfo) (a : Z) (i : binfo) : Prop := {
  ls_wf : wf h B (F_del (free_map B) a) [];
  ls_flags : flags_ok [] B;
  ls_self : B !! a = Some i;
  ls_free : bfree i = true;
  ls_coalesced x k : B !! x = Some k -> bfree k = true ->
    x <> a -> x <> next_of a (bsize i) -> bpfree k = false
}.

(** ** Free maps *)

Lemma free_map_insert B a i x :
  free_map (<[a := i]> B) x =
    if decide (x = a) then (if bfree i then Some (bsize i) else None) else free_map B x.
Proof.
  unfold free_map. case_decide; [subst; by rewrite lookup_insert_eq|by rewrite lookup_insert_ne].
Qed.

Lemma free_map_delete B a x :
  free_map (delete a B) x = if decide (x = a) then None else free_map B x.
Proof.
  unfold free_map. case_decide; [subst; by rewrite lookup_delete_eq|by rewrite lookup_delete_ne].
Qed.

Lemma free_map_lookup B a i : B !! a = Some i ->
  free_map B a = if bfree i then Some (bsize i) else None.
Proof. intros Ha. unfold free_map. by rewrite Ha. Qed.

(** Equations between free maps after a step. *)
Ltac fm_solve :=
  intros x; unfold F_del, F_add; repeat first [rewrite free_map_insert | rewrite free_map_delete];
  repeat case_decide; subst; cbn [bfree bsize set_bfree set_bsize set_bpfree];
  try congruence; try done.

Lemma loose_next h B a i : loose h B a i ->
  exists j, B !! next_of a (bsize i) = Some j /\ bpool j = bpool i /\ bpfree j = true /\
    next_of a (bsize i) <> a /\ bsize i <> 0.
Proof.
  intros H. pose proof (ls_wf _ _ _ _ H) as Hw. pose proof (wf_shape _ _ _ _ Hw) as Hs.
  pose proof (wf_free_size _ _ _ _ _ _ Hw (ls_self _ _ _ _ H) (ls_free _ _ _ _ H)) as Hnz.
  destruct (sh_next _ _ Hs a i (ls_self _ _ _ _ H) Hnz) as (j & Hj & Ep).
  exists j. split; [done|]. split; [done|]. split; [|split; [|done]].
  - apply (ls_flags _ _ _ _ H _ _ Hj); [apply not_elem_of_nil|].
    apply (pred_free_next _ _ _ _ Hs (ls_self _ _ _ _ H)), (ls_free _ _ _ _ H).
  - by eapply next_ne, ls_self.
Qed.

Lemma F_del_self F a : F_del F a a = None.
Proof. unfold F_del. by case_decide. Qed.

(** ** Closing a loose heap *)

(** The loose block becomes an allocated block. *)
Lemma loose_mark_used h B a i : loose h B a i ->
  let h' := set_mem h (block_mark_as_used (hmem h) a) in
  exists B', inv h' B' /\ (forall T : list Z, a ∈ T -> kept T h B h' B') /\
    B' !! a = Some (set_bfree i false).
Proof.
  intros H h'. destruct (loose_next _ _ _ _ H) as (j & Hj & _ & Hp & Hna & Hnz).
  destruct H as [Hw Hfl Ha Hf Hc].
  destruct (block_mark_as_used_ok _ _ _ _ _ _ j Hw Ha Hnz (F_del_self _ _) Hj) as [Hw' Hk].
  pose proof (flags_mark _ _ _ a i j (wf_shape _ _ _ _ Hw) Hfl Ha false Hj) as Hfl'.
  eexists. split; [split|split].
  - eapply wf_ext; [|exact Hw']. pose proof (free_map_lookup _ _ _ Hj). fm_solve.
  - exact Hfl'.
  - intros x k Hx Hk'. ins_cases; [done|done|by eauto].
  - intros T HT. apply Hk. by left.
  - by rewrite lookup_insert_eq.
Qed.

(** The loose block goes to its free list. *)
Lemma loose_insert h B a i j : loose h B a i -> bpfree i = false ->
  B !! next_of a (bsize i) = Some j -> bfree j = false ->
  inv (block_insert h a) B /\ forall T, kept T h B (block_insert h a) B.
Proof.
  intros [Hw Hfl Ha Hf Hc] Hp Hj Hjf.
  destruct (wf_insert _ _ _ _ a i Hw Ha Hf (F_del_self _ _)) as [Hw' Hk].
  split; [split|done].
  - eapply wf_ext; [|exact Hw']. pose proof (free_map_lookup _ _ _ Ha) as E. rewrite Hf in E. fm_solve.
  - done.
  - intros x k Hx Hk'. destruct (decide (x = a)) as [->|]; [congruence|].
    destruct (decide (x = next_of a (bsize i))) as [->|]; [congruence|eauto].
Qed.

(** ** Splitting a free block *)

Section split_free.
Context (h : heap) (B : gmap Z binfo) (F : Z -> option Z) (a s : Z) (i j : binfo).
Context (H : wf h B F []) (Hfl : flags_ok [] B) (Ha : B !! a = Some i) (HFa : F a = None).
Context (Hif : bfree i = true) (H24 : 24 <= s) (Hd : (8 | s)) (Hs' : 24 <= bsize i - s - 8).
Context (Hn : B !! next_of a (bsize i) = Some j).
Let r := next_of a s.
Let B' := split_map B a s i j.

Lemma split_map_lookup pf :
  B' pf !! a = Some (set_bsize i s) /\ B' pf !! r = Some (Blk (bsize i - s - 8) true pf (bpool i)).
Proof.
  destruct (split_places h B F [] a s i j H Ha H24 Hs' Hn) as (Hr & Hra & Hrn & Hna & Hnx & HFr).
  unfold B', split_map, r. rewrite lookup_insert_eq. split; [|done].
  rewrite !lookup_insert_ne, lookup_insert_eq by done. done.
Qed.

Lemma split_map_pfree pf v :
  <[r := set_bpfree (Blk (bsize i - s - 8) true pf (bpool i)) v]> (B' pf) = B' v.
Proof. unfold B', split_map, r. by rewrite insert_insert_eq. Qed.

Lemma split_flags pf c : shape c (B' pf) -> flags_ok [r] (B' pf) -> flags_ok [] (B' true).
Proof.
  intros Hs G. destruct (split_map_lookup pf) as [La Lr].
  rewrite <- (split_map_pfree pf true).
  assert (([] : list Z) = filter (fun x => x <> r) [r]) as ->.
  { by rewrite filter_cons_False by (intros ?; done). }
  eapply flags_set_pfree; [exact G|exact Lr|]. split; [intros _|done].
  apply (pred_free_next _ _ _ _ Hs La). exact Hif.
Qed.

(** As in [block_trim_free]. *)
Lemma split_link_first :
  let h' := set_mem h (block_set_prev_free (block_link_next (block_split (hmem h) a s).1 a).1 r) in
  wf h' (B' true) F [] /\ flags_ok [] (B' true) /\ forall T, kept T h B h' (B' true).
Proof.
  intros h'. destruct (block_split_ok h B F [] [] a s i j H Hfl Ha HFa H24 Hd Hs' Hn) as (pf & H1 & G1 & K1 & _).
  fold r in G1. change (split_map B a s i j pf) with (B' pf) in *. set (h1 := set_mem h (block_split _ _ _).1) in *.
  destruct (split_map_lookup pf) as [La Lr].
  destruct (wf_link_next h1 _ F _ a _ H1 La) as (_ & H2 & _ & K2); [cbn; lia|].
  set (h2 := set_mem h1 _) in H2, K2.
  destruct (wf_set_pfree h2 _ F _ r _ true H2 Lr) as (H3 & K3 & _).
  rewrite split_map_pfree in H3, K3.
  assert (h' = set_mem h2 (st64 (hmem h2) (r + 8) (enc (set_bpfree (Blk (bsize i - s - 8) true pf (bpool i)) true)))) as ->.
  { unfold h'. rewrite (block_set_prev_free_enc _ r (Blk (bsize i - s - 8) true pf (bpool i)));
      [done|by apply (wf_size _ _ _ _ _ _ H1 Lr)|by apply (wf_hdrs _ _ _ _ H2)]. }
  split_and!.
  - eapply wf_exempt; [exact H3|]. intros x k _ _. rewrite list_elem_of_filter, elem_of_cons. tauto.
  - eapply split_flags; [apply (wf_shape _ _ _ _ H1)|exact G1].
  - intros T. eapply kept_trans; [apply K1; by right|].
    eapply kept_trans; [apply K2; by right|apply K3].
Qed.

(** As in [block_trim_free_leading]. *)
Lemma split_link_last :
  let h' := set_mem h (block_link_next (block_set_prev_free (block_split (hmem h) a s).1 r) a).1 in
  wf h' (B' true) F [] /\ flags_ok [] (B' true) /\ forall T, kept T h B h' (B' true).
Proof.
  intros h'. destruct (block_split_ok h B F [] [] a s i j H Hfl Ha HFa H24 Hd Hs' Hn) as (pf & H1 & G1 & K1 & _).
  fold r in G1. change (split_map B a s i j pf) with (B' pf) in *. set (h1 := set_mem h (block_split _ _ _).1) in *.
  destruct (split_map_lookup pf) as [La Lr]. destruct (split_map_lookup true) as [La' _].
  destruct (wf_set_pfree h1 _ F _ r _ true H1 Lr) as (H2 & K2 & _).
  rewrite split_map_pfree in H2, K2. set (h2 := set_mem h1 (st64 _ _ _)) in H2, K2.
  destruct (wf_link_next h2 _ F _ a _ H2 La') as (_ & H3 & _ & K3); [cbn; lia|].
  assert (h' = set_mem h2 (block_link_next (hmem h2) a).1) as ->.
  { unfold h'. rewrite (block_set_prev_free_enc _ r (Blk (bsize i - s - 8) true pf (bpool i)));
      [done|by apply (wf_size _ _ _ _ _ _ H1 Lr)|by apply (wf_hdrs _ _ _ _ H1)]. }
  split_and!.
  - eapply wf_exempt; [exact H3|]. intros x k _ _. rewrite list_elem_of_filter, elem_of_cons. tauto.
  - eapply split_flags; [apply (wf_shape _ _ _ _ H1)|exact G1].
  - intros T. eapply kept_trans; [apply K1; by right|].
    eapply kept_trans; [apply K2|apply K3; by right].
Qed.
End split_free.

Lemma block_can_split_ok h B F e a i s : wf h B F e -> B !! a = Some i -> 0 <= s < 2 ^ 64 - 2 ^ 33 ->
  block_can_split (hmem h) a s = (32 + s <=? bsize i).
Proof.
  intros H Ha Hs. unfold block_can_split. change sizeof_block_header with 32.
  rewrite (block_size_enc _ _ i) by (by eapply wf_size || apply H, Ha). usmalls. done.
Qed.

Lemma block_trim_free_ok h B a i j s : loose h B a i -> 24 <= s < 2 ^ 32 -> (8 | s) ->
  s <= bsize i -> B !! next_of a (bsize i) = Some j -> bfree j = false ->
  let h' := block_trim_free h a s in
  exists B' i', loose h' B' a i' /\ (forall T, kept T h B h' B') /\
    s <= bsize i' < s + 32 /\ bpfree i' = bpfree i.
Proof.
  intros H Hs Hd Hle Hj Hjf h'. pose proof H as [Hw Hfl Ha Hf Hc]. unfold h', block_trim_free.
  rewrite (block_can_split_ok _ _ _ _ _ i _ Hw Ha) by (pow2; lia). case_if; cycle 1.
  { exists B, i. split; [done|]. split; [intros; apply kept_refl|]. split; [lia|done]. }
  assert (24 <= bsize i - s - 8) as Hs' by lia.
  destruct (split_link_first h B _ a s i j Hw Hfl Ha (F_del_self _ _) Hf ltac:(lia) Hd Hs' Hj) as (H1 & G1 & K1).
  destruct (split_map_lookup h B _ a s i j Hw Ha ltac:(lia) Hs' Hj true) as [La Lr].
  destruct (split_places h B _ [] a s i j Hw Ha ltac:(lia) Hs' Hj) as (Hr & Hra & Hrn & Hna & Hnx & HFr).
  pose proof (block_split_eq h B _ [] a s i Hw Ha ltac:(lia) Hs') as Eq.
  destruct (block_split (hmem h) a s) as [m1 r1]. injection Eq as _ ->.
  cbn [fst] in *. destruct (block_link_next m1 a) as [m2 ?]. cbn [fst] in *.
  destruct (wf_insert _ _ _ _ _ _ H1 Lr eq_refl HFr) as [H2 K2].
  exists (split_map B a s i j true), (set_bsize i s).
  split; [split|split; [|cbn; split; [lia|done]]].
  - eapply wf_ext; [|exact H2]. pose proof (free_map_lookup _ _ _ Hj). unfold split_map. fm_solve.
  - done.
  - done.
  - done.
  - intros x k Hx Hk Hxa Hxr. unfold split_map in Hx. cbn [bsize set_bsize] in Hxr.
    ins_cases; [done|cbn in Hk; congruence|done|by eauto].
  - intros T. eapply kept_trans; [apply K1|apply K2].
Qed.

(** The leading part of a loose block goes to its free list; the rest becomes
    the loose block. *)
Lemma block_trim_free_leading_ok h B a i j gap : loose h B a i -> bpfree i = false ->
  B !! next_of a (bsize i) = Some j -> bfree j = false ->
  32 <= gap -> (8 | gap) -> gap + 32 <= bsize i ->
  let h' := (block_trim_free_leading h a gap).1 in
  let r := a + gap in
  (block_trim_free_leading h a gap).2 = r /\
  exists B' k, loose h' B' r (Blk (bsize i - gap) true true (bpool i)) /\
    (forall T, kept T h B h' B') /\
    B' !! next_of r (bsize i - gap) = Some k /\ bfree k = false.
Proof.
  intros H Hp Hj Hjf Hg Hd Hle h' r. pose proof H as [Hw Hfl Ha Hf Hc].
  destruct (shape_size _ _ _ _ (wf_shape _ _ _ _ Hw) Ha) as (? & _ & _).
  unfold h', block_trim_free_leading. change block_header_overhead with 8.
  rewrite (block_can_split_ok _ _ _ _ _ i _ Hw Ha) by (pow2; lia). case_if; [|lia].
  rewrite (uw_small 64 (gap - 8)) by (pow2; lia). set (s := gap - 8).
  assert (24 <= s) as H24 by (unfold s; lia).
  assert (8 | s) as Hd' by (unfold s; apply Z.divide_sub_r; [done|by exists 1]).
  assert (24 <= bsize i - s - 8) as Hs' by (unfold s; lia).
  assert (next_of a s = r) as Er by (unfold next_of, s, r; lia).
  assert (bsize i - s - 8 = bsize i - gap) as Es by (unfold s; lia). clearbody r s.
  destruct (split_link_last h B _ a s i j Hw Hfl Ha (F_del_self _ _) Hf H24 Hd' Hs' Hj) as (H1 & G1 & K1).
  destruct (split_map_lookup h B _ a s i j Hw Ha H24 Hs' Hj true) as [La Lr].
  destruct (split_places h B _ [] a s i j Hw Ha H24 Hs' Hj) as (Hr & Hra & Hrn & Hna & Hnx & HFr).
  pose proof (block_split_eq h B _ [] a s i Hw Ha H24 Hs') as Eq.
  destruct (block_split (hmem h) a s) as [m1 r1]. injection Eq as _ ->. cbn [fst] in *.
  destruct (block_link_next _ a) as [m2 ?]. cbn [fst snd] in *. rewrite Er in *.
  destruct (wf_insert _ _ _ _ a _ H1 La Hf (F_del_self _ _)) as [H2 K2].
  split; [done|]. exists (split_map B a s i j true), (set_bpfree j true).
  split; [split|split; [|split]].
  - eapply wf_ext; [|exact H2]. pose proof (free_map_lookup _ _ _ Hj). unfold split_map. rewrite Er. fm_solve.
    + unfold free_map. by rewrite Hr.
    + by rewrite Hf.
  - done.
  - by rewrite <- Es.
  - done.
  - intros x k Hx Hk Hxa Hxr. unfold split_map in Hx. rewrite Er in Hx.
    ins_cases; [done|cbn in Hk; congruence|done|].
    apply (Hc x k); [done..|]. congruence.
  - intros T. eapply kept_trans; [apply K1|apply K2].
  - rewrite <- Es, Hnx. unfold split_map. rewrite lookup_insert_ne, lookup_insert_eq by congruence. done.
  - done.
Qed.

(** ** Releasing and merging *)

Lemma inv_mark_free h B a i : inv h B -> B !! a = Some i -> bfree i = false -> bsize i <> 0 ->
  let h' := set_mem h (block_mark_as_free (hmem h) a) in
  exists B', loose h' B' a (set_bfree i true) /\ (forall T : list Z, a ∈ T -> kept T h B h' B') /\
    used B' a = None.
Proof.
  intros [Hw Hfl Hc] Ha Hf Hnz h'.
  destruct (sh_next _ _ (wf_shape _ _ _ _ Hw) a i Ha Hnz) as (j & Hj & _).
  pose proof (wf_unlisted _ _ _ _ _ _ Hw Ha Hf) as HFa.
  destruct (block_mark_as_free_ok _ _ _ _ _ _ j Hw Ha Hnz HFa Hj) as [Hw' Hk].
  pose proof (flags_mark _ _ _ a i j (wf_shape _ _ _ _ Hw) Hfl Ha true Hj) as Hfl'.
  eexists. split; [split|split].
  - eapply wf_ext; [|exact Hw']. pose proof (free_map_lookup _ _ _ Hj). fm_solve.
  - exact Hfl'.
  - by rewrite lookup_insert_eq.
  - done.
  - intros x k Hx Hk' Hxa Hxn. ins_cases; [done..|by eauto].
  - intros T HT. apply Hk. by left.
  - apply used_free. intros k. rewrite lookup_insert_eq. by intros [= <-].
Qed.

Lemma flags_close n E B : flags_ok (n :: E) B ->
  (forall i, B !! n = Some i -> bpfree i = true <-> pred_free B n) -> flags_ok E B.
Proof.
  intros H Hn x i Hx HE. destruct (decide (x = n)) as [->|]; [by apply Hn|].
  apply (H x i Hx). by apply not_elem_of_cons.
Qed.

(** Two adjacent free blocks, neither of them listed. *)
Lemma absorb_free_ok h B F a i j :
  wf h B F [] -> flags_ok [] B -> B !! a = Some i -> bfree i = true ->
  let n := next_of a (bsize i) in
  B !! n = Some j -> bfree j = true -> F a = None -> F n = None ->
  let i' := set_bsize i (bsize i + 8 + bsize j) in
  let B' := delete n (<[a := i']> B) in
  let h' := set_mem h (block_absorb (hmem h) a n).1 in
  (block_absorb (hmem h) a n).2 = a /\ wf h' B' F [] /\ flags_ok [] B' /\
  (forall T, kept T h B h' B') /\ B' !! a = Some i' /\
  next_of a (bsize i') = next_of n (bsize j).
Proof.
  intros H Hfl Ha Hif n Hn Hjf HFa HFn i' B' h'. pose proof (wf_shape _ _ _ _ H) as Hs.
  pose proof (wf_free_size _ _ _ _ _ _ H Ha Hif) as Hi.
  pose proof (wf_free_size _ _ _ _ _ _ H Hn Hjf) as Hj.
  destruct (wf_absorb h B F [] a i j H Ha Hi Hn Hj HFa HFn) as (E1 & H1 & K1 & _).
  destruct (absorb_next _ _ _ _ _ Hs Ha Hi Hn Hj) as (En & _ & _ & Hlt).
  pose proof (flags_absorb _ _ _ _ _ _ Hs Hfl Ha Hn Hi Hj) as G1. fold n in E1, H1, K1, En, G1, Hlt.
  assert (B' !! a = Some i') as La.
  { unfold B'. rewrite lookup_delete_ne, lookup_insert_eq by lia. done. }
  split_and!; [exact E1|exact H1| |intros T; apply K1; auto|exact La|by rewrite En].
  apply (flags_close (next_of n (bsize j))); [exact G1|]. intros k Hk.
  assert (next_of n (bsize j) <> a /\ next_of n (bsize j) <> n) as [? ?].
  { pose proof (shape_size _ _ _ _ Hs Hn). unfold next_of in *. lia. }
  unfold B' in Hk. rewrite lookup_delete_ne, lookup_insert_ne in Hk by done.
  split; intros _.
  - rewrite En. apply (pred_free_next (ctl h) B' a i'); [by apply (wf_shape _ _ _ _ H1)|done|done].
  - apply (Hfl _ _ Hk); [apply not_elem_of_nil|]. by apply (pred_free_next _ _ _ _ Hs Hn).
Qed.

Lemma block_merge_prev_ok h B a i : loose h B a i ->
  let h' := (block_merge_prev h a).1 in let a' := (block_merge_prev h a).2 in
  exists B' i', loose h' B' a' i' /\ (forall T, kept T h B h' B') /\ bpfree i' = false.
Proof.
  intros H. pose proof H as [Hw Hfl Ha Hf Hc]. unfold block_merge_prev.
  rewrite (block_is_prev_free_enc _ _ i) by (by eapply wf_size || apply Hw, Ha).
  destruct (bpfree i) eqn:Hp; [|exists B, i; split; [done|]; split; [intros; apply kept_refl|done]].
  apply (Hfl _ _ Ha) in Hp as (p & k & Hk & Hkf & En); [|apply not_elem_of_nil].
  pose proof (wf_shape _ _ _ _ Hw) as Hs.
  pose proof (shape_size _ _ _ _ Hs Hk) as (Rk & _). pose proof (shape_size _ _ _ _ Hs Ha) as (Ri & _).
  assert (p <> a /\ p <> next_of a (bsize i)) as [Hpa Hpn] by (unfold next_of in *; lia).
  assert (block_prev (hmem h) a = p) as ->.
  { unfold block_prev, prev_phys_block. rewrite <- En.
    apply (wf_feet _ _ _ _ Hw p k); [done..|apply not_elem_of_nil]. }
  destruct (wf_block_remove _ _ _ _ p k Hw Hk) as [H1 K1].
  { unfold F_del. case_decide; [done|]. by rewrite (free_map_lookup _ _ _ Hk), Hkf. }
  rewrite <- En in *.
  destruct (absorb_free_ok _ _ _ p k i H1 Hfl Hk Hkf Ha Hf) as (E2 & H2 & G2 & K2 & L2 & N2).
  { by apply F_del_self. }
  { unfold F_del. case_decide; [done|]. by case_decide. }
  destruct (block_absorb _ p _) as [m2 b2]. cbn [fst snd] in *. subst b2.
  eexists _, _. split; [split; [| |exact L2|done|]|split].
  - eapply wf_ext; [|exact H2]. fm_solve.
  - exact G2.
  - intros x l Hx Hl Hxp Hxn. rewrite N2 in Hxn. clear L2. ins_cases; [done|by eauto].
  - intros T. eapply kept_trans; [apply K1|apply K2].
  - cbn. by eapply Hc.
Qed.

Lemma block_merge_next_ok h B a i : loose h B a i -> bpfree i = false ->
  let h' := (block_merge_next h a).1 in
  (block_merge_next h a).2 = a /\
  exists B' i' j', loose h' B' a i' /\ (forall T, kept T h B h' B') /\ bpfree i' = false /\
    B' !! next_of a (bsize i') = Some j' /\ bfree j' = false.
Proof.
  intros H Hp. destruct (loose_next _ _ _ _ H) as (j & Hj & _ & Hjp & Hna & Hnz).
  pose proof H as [Hw Hfl Ha Hf Hc]. pose proof (wf_shape _ _ _ _ Hw) as Hs.
  destruct (sh_addr _ _ Hs a i Ha) as (A1 & _ & A2). destruct (shape_size _ _ _ _ Hs Ha) as (A3 & Hok & A4).
  unfold block_merge_next. rewrite (block_next_enc _ _ i) by (done || lia || apply Hw, Ha).
  rewrite (block_is_free_enc _ _ j) by (apply (wf_size _ _ _ _ _ _ Hw Hj) || apply Hw, Hj).
  destruct (bfree j) eqn:Hjf; cycle 1.
  { split; [done|]. exists B, i, j. split; [done|]. split; [intros; apply kept_refl|done]. }
  destruct (wf_block_remove _ _ _ _ _ j Hw Hj) as [H1 K1].
  { unfold F_del. case_decide; [done|]. by rewrite (free_map_lookup _ _ _ Hj), Hjf. }
  destruct (absorb_free_ok _ _ _ a i j H1 Hfl Ha Hf Hj Hjf) as (E2 & H2 & G2 & K2 & L2 & N2).
  { unfold F_del. case_decide; [done|]. by case_decide. }
  { by apply F_del_self. }
  destruct (block_absorb _ a _) as [m2 b2]. cbn [fst snd] in *. subst b2.
  split; [done|].
  destruct (sh_next _ _ Hs _ _ Hj (wf_free_size _ _ _ _ _ _ Hw Hj Hjf)) as (k & Hk & _).
  assert (next_of (next_of a (bsize i)) (bsize j) <> a /\
          next_of (next_of a (bsize i)) (bsize j) <> next_of a (bsize i)) as [Hka Hkn].
  { pose proof (shape_size _ _ _ _ Hs Hj). unfold next_of in *. lia. }
  eexists _, _, k. split; [split; [| |exact L2|done|]|split; [|split; [done|split]]].
  - eapply wf_ext; [|exact H2]. fm_solve.
  - exact G2.
  - intros x l Hx Hl Hxp Hxn. rewrite N2 in Hxn. clear L2. ins_cases; [done|by eauto].
  - intros T. eapply kept_trans; [apply K1|apply K2].
  - rewrite N2, lookup_delete_ne, lookup_insert_ne by done. exact Hk.
  - destruct (bfree k) eqn:Hkf; [|done]. rewrite <- (Hc _ _ Hk Hkf Hka Hkn). symmetry.
    apply (Hfl _ _ Hk); [apply not_elem_of_nil|]. by apply (pred_free_next _ _ _ _ Hs Hj).
Qed.

(** ** Resizing an allocated block *)

Lemma used_kept T h B h' B' x : kept T h B h' B' -> x ∉ T -> used B' x = used B x.
Proof. intros (_ & Hu & _). apply Hu. Qed.

Lemma kept_same T h B h' B' x s : kept T h B h' B' -> x ∉ T -> used B x = Some s ->
  same_on (x + 16) (x + 16 + s) (hmem h) (hmem h').
Proof. intros (_ & _ & Hs). apply Hs. Qed.

Lemma used_intro B x i : B !! x = Some i -> bfree i = false -> bsize i <> 0 -> used B x = Some (bsize i).
Proof. intros. apply used_Some. eauto. Qed.

(** The tail cut from an allocated block, before it meets its neighbour. *)
Lemma split_used_loose h B a i j s : inv h B -> B !! a = Some i -> bfree i = false ->
  24 <= s -> (8 | s) -> 24 <= bsize i - s - 8 -> B !! next_of a (bsize i) = Some j ->
  let r := next_of a s in
  let h' := set_mem h (block_set_prev_used (block_split (hmem h) a s).1 r) in
  exists B', loose h' B' r (Blk (bsize i - s - 8) true false (bpool i)) /\
    (forall T : list Z, a ∈ T -> kept T h B h' B') /\ used B' a = Some s /\
    same_on (a + 16) (a + 16 + s) (hmem h) (hmem h').
Proof.
  intros [Hw Hfl Hc] Ha Hf H24 Hd Hs' Hj r h'.
  pose proof (wf_unlisted _ _ _ _ _ _ Hw Ha Hf) as HFa.
  destruct (block_split_ok h B _ [] [] a s i j Hw Hfl Ha HFa H24 Hd Hs' Hj) as (pf & H1 & G1 & K1 & S1).
  destruct (split_map_lookup h B _ a s i j Hw Ha H24 Hs' Hj pf) as [La Lr].
  destruct (split_map_lookup h B _ a s i j Hw Ha H24 Hs' Hj false) as [La' Lr'].
  destruct (split_places h B _ [] a s i j Hw Ha H24 Hs' Hj) as (Hr & Hra & Hrn & Hna & Hnx & HFr).
  fold r in G1, Lr, Lr', Hr, Hra, Hrn, Hnx, HFr. set (h1 := set_mem h (block_split _ _ _).1) in *.
  assert (wf h1 (split_map B a s i j pf) (free_map B) []) as H1'.
  { eapply wf_exempt; [exact H1|]. intros x k Hx Hk ->%list_elem_of_singleton.
    rewrite La in Hx. simplify_eq. cbn in Hk. congruence. }
  destruct (wf_set_pfree h1 _ _ _ r _ false H1' Lr) as (H2 & K2 & _).
  pose proof (split_map_pfree B a s i j pf false) as EB. fold r in EB. rewrite EB in H2, K2.
  set (h2 := set_mem h1 (st64 _ _ _)) in H2, K2.
  assert (h' = h2) as ->.
  { unfold h', h2. rewrite (block_set_prev_used_enc _ r (Blk (bsize i - s - 8) true pf (bpool i)));
      [done|by apply (wf_size _ _ _ _ _ _ H1 Lr)|by apply (wf_hdrs _ _ _ _ H1)]. }
  assert (used (split_map B a s i j false) a = Some s) as Hu.
  { apply (used_intro _ _ (set_bsize i s)); [done|done|cbn; lia]. }
  exists (split_map B a s i j false). split; [split|split; [|split; [done|]]].
  - eapply wf_ext; [|exact H2]. pose proof (free_map_lookup _ _ _ Hj). unfold split_map. fold r.
    clearbody r. fm_solve.
    rewrite (free_map_lookup _ _ _ Ha), Hf. done.
  - rewrite <- EB.
    assert (([] : list Z) = filter (fun x => x <> r) [r]) as -> by (by rewrite filter_cons_False by (intros ?; done)).
    eapply flags_set_pfree; [exact G1|exact Lr|]. split; [done|].
    intros Hp. apply (pred_free_next _ _ _ _ (wf_shape _ _ _ _ H1) La) in Hp. cbn in Hp. congruence.
  - exact Lr'.
  - done.
  - intros x k Hx Hk Hxr Hxn. unfold split_map in Hx. cbn [bsize] in Hxn. fold r in Hx. clear La La' Lr Lr'.
    ins_cases; [done|done|cbn in Hk; congruence|by eauto].
  - intros T HT. eapply kept_trans; [apply K1; by left|apply K2].
  - eapply same_on_trans; [by apply S1|]. apply (kept_same [] _ _ _ _ _ _ (K2 [])); [apply not_elem_of_nil|].
    by apply (used_intro _ _ (set_bsize i s) La); [|cbn; lia].
Qed.

Lemma block_trim_used_ok h B a i s : inv h B -> B !! a = Some i -> bfree i = false ->
  bsize i <> 0 -> 24 <= s < 2 ^ 32 -> (8 | s) ->
  let h' := block_trim_used h a s in
  exists B' s', inv h' B' /\ (forall T : list Z, a ∈ T -> kept T h B h' B') /\ used B' a = Some s' /\
    (s' = s \/ s' = bsize i /\ s' < s + 32) /\ s' <= bsize i /\
    same_on (a + 16) (a + 16 + s') (hmem h) (hmem h').
Proof.
  intros H Ha Hf Hnz Hs Hd h'. pose proof (inv_wf _ _ H) as Hw. unfold h', block_trim_used.
  rewrite (block_can_split_ok _ _ _ _ _ i _ Hw Ha) by (pow2; lia). case_if; cycle 1.
  { exists B, (bsize i). split; [done|]. split; [intros; apply kept_refl|]. split; [by apply used_intro|].
    split; [lia|]. split; [lia|]. apply same_on_refl. }
  assert (24 <= bsize i - s - 8) as Hs' by lia.
  destruct (sh_next _ _ (wf_shape _ _ _ _ Hw) a i Ha) as (j & Hj & _); [done|].
  destruct (split_used_loose h B a i j s H Ha Hf ltac:(lia) Hd Hs' Hj) as (B1 & H1 & K1 & U1 & S1).
  pose proof (block_split_eq h B _ [] a s i Hw Ha ltac:(lia) Hs') as Eq.
  destruct (block_split (hmem h) a s) as [m1 r1]. injection Eq as _ ->. cbn [fst] in *.
  destruct (block_merge_next_ok _ _ _ _ H1 eq_refl) as (E2 & B2 & i2 & j2 & H2 & K2 & P2 & N2 & J2).
  destruct (block_merge_next _ _) as [h2 r2]. cbn [fst snd] in *. subst r2.
  destruct (loose_insert _ _ _ _ j2 H2 P2 N2 J2) as [H3 K3].
  pose proof (kept_trans _ _ _ _ _ _ _ (K2 []) (K3 [])) as K.
  exists B2, s. split; [done|]. split; [|split; [|split; [by left|split; [lia|]]]].
  - intros T HT. eapply kept_trans; [by apply K1|]. eapply kept_trans; [apply K2|apply K3].
  - rewrite (used_kept _ _ _ _ _ _ K); [done|apply not_elem_of_nil].
  - eapply same_on_trans; [exact S1|]. apply (kept_same _ _ _ _ _ _ _ K); [apply not_elem_of_nil|done].
Qed.

(** [tlsf_realloc] grows a block into its free right neighbour. *)
Lemma grow_ok h B a i j : inv h B -> B !! a = Some i -> bfree i = false -> bsize i <> 0 ->
  B !! next_of a (bsize i) = Some j -> bfree j = true ->
  let h1 := (block_merge_next h a).1 in
  let h' := set_mem h1 (block_mark_as_used (hmem h1) a) in
  exists B', inv h' B' /\ (forall T : list Z, a ∈ T -> kept T h B h' B') /\
    used B' a = Some (bsize i + 8 + bsize j) /\
    same_on (a + 16) (a + 16 + bsize i) (hmem h) (hmem h').
Proof.
  intros [Hw Hfl Hc] Ha Hf Hnz Hj Hjf. pose proof (wf_shape _ _ _ _ Hw) as Hs.
  pose proof (wf_free_size _ _ _ _ _ _ Hw Hj Hjf) as Hjz.
  destruct (sh_addr _ _ Hs a i Ha) as (A1 & _ & A2). destruct (shape_size _ _ _ _ Hs Ha) as (A3 & Hok & A4).
  unfold block_merge_next. rewrite (block_next_enc _ _ i) by (done || lia || apply Hw, Ha).
  rewrite (block_is_free_enc _ _ j) by (apply (wf_size _ _ _ _ _ _ Hw Hj) || apply Hw, Hj). rewrite Hjf.
  destruct (wf_block_remove _ _ _ _ _ j Hw Hj) as [H1 K1]; [by rewrite (free_map_lookup _ _ _ Hj), Hjf|].
  assert (F_del (free_map B) (next_of a (bsize i)) a = None) as HFa.
  { unfold F_del. case_decide; [done|]. by rewrite (free_map_lookup _ _ _ Ha), Hf. }
  destruct (wf_absorb _ _ _ _ a i j H1 Ha Hnz Hj Hjz HFa (F_del_self _ _)) as (_ & H2 & K2 & S2).
  pose proof (flags_absorb _ _ _ _ _ _ Hs Hfl Ha Hj Hnz Hjz) as G2.
  destruct (absorb_next _ _ _ _ _ Hs Ha Hnz Hj Hjz) as (En & ? & _ & Hlt).
  destruct (block_absorb _ a _) as [m2 b2]. cbn [fst snd] in *.
  set (i' := set_bsize i (bsize i + 8 + bsize j)) in *. set (B2 := delete _ (<[a := i']> B)) in *.
  assert (B2 !! a = Some i') as La by (unfold B2; rewrite lookup_delete_ne, lookup_insert_eq by lia; done).
  destruct (sh_next _ _ (wf_shape _ _ _ _ H2) a i' La) as (k & Hk & _); [cbn; lia|].
  destruct (block_mark_as_used_ok _ _ _ _ _ _ k H2 La ltac:(cbn; lia) HFa Hk) as [H3 K3].
  pose proof (flags_mark _ _ _ _ _ k (wf_shape _ _ _ _ H2) G2 La false Hk) as G3.
  eexists. split; [split|split; [|split]].
  - eapply wf_ext; [|exact H3]. pose proof (free_map_lookup _ _ _ Hk) as Ek.
    unfold B2 in Ek |- *. rewrite free_map_delete, free_map_insert in Ek. intros x.
    unfold F_del. repeat first [rewrite free_map_insert | rewrite free_map_delete].
    repeat case_decide; subst; cbn [bfree bsize set_bfree set_bpfree] in *; try congruence; try done.
    all: by rewrite (free_map_lookup _ _ _ Ha), Hf.
  - eapply flags_weaken; [|exact G3]. intros x. rewrite list_elem_of_filter, elem_of_cons.
    change (bsize i') with (bsize i + 8 + bsize j). rewrite En. tauto.
  - intros x l Hx Hl. clear La Hk. unfold B2 in Hx. ins_cases; [cbn in Hl; congruence|done|cbn in Hl; congruence|by eauto].
  - intros T HT. eapply kept_trans; [apply K1|]. eapply kept_trans; [apply K2; auto|apply K3; by left].
  - apply (used_intro _ _ (set_bfree i' false)); [by rewrite lookup_insert_eq|done|cbn; lia].
  - eapply same_on_trans; [apply (kept_same _ _ _ _ _ a _ (K1 [])); [apply not_elem_of_nil|by apply used_intro]|].
    eapply same_on_trans; [exact S2|].
    eapply same_on_weaken; [apply (kept_same _ _ _ _ _ a (bsize i') (K3 [] (or_intror Hf))); [apply not_elem_of_nil|]|..].
    + apply (used_intro _ _ i' La Hf). cbn. lia.
    + lia.
    + change (bsize i') with (bsize i + 8 + bsize j). pose proof (shape_size _ _ _ _ Hs Hj). lia.
Qed.
