(* ===== verification/TlsfSearch.v ===== *)
(** TLSF, part 8: the good-fit search.  The two bitmap scans find the smallest
    non-empty class at or above the requested one, or report that there is none. *)
From S2P Require Import Prelude Memory TlsfBits Tlsf TlsfHdr TlsfList TlsfInv TlsfOps TlsfLoose.

(** [~0U << k] *)
Lemma mask_testbit k b : 0 <= k -> 0 <= b ->
  Z.testbit (u32 (u32 (Z.lnot 0) .<< k)) b = (k <=? b) && (b <? 32).
Proof.
  intros Hk Hb. rewrite uw_testbit by lia. rewrite Z.shiftl_spec by lia.
  destruct (decide (k <= b)).
  - rewrite uw_testbit, Z.lnot_spec, Z.bits_0 by lia. cbn [negb].
    repeat case_if; try done; lia.
  - rewrite Z.testbit_neg_r by lia. repeat case_if; try done; lia.
Qed.

(** The lowest bit of [bits & (~0U << k)]. *)
Lemma masked_ffs bits k : 0 <= bits < 2 ^ 32 -> 0 <= k ->
  let map := bits .& u32 (u32 (Z.lnot 0) .<< k) in
  if c_true map then
    k <= tlsf_ffs map < 32 /\ Z.testbit bits (tlsf_ffs map) = true /\
    (forall b, k <= b < tlsf_ffs map -> Z.testbit bits b = false)
  else forall b, k <= b < 32 -> Z.testbit bits b = false.
Proof.
  intros Hb Hk map.
  assert (0 <= map < 2 ^ 32) as Hm by (apply land_range; done || lia).
  assert (forall b, k <= b < 32 -> Z.testbit map b = Z.testbit bits b) as Ht.
  { intros b Hb'. unfold map. rewrite Z.land_spec, mask_testbit by lia.
    assert ((k <=? b) && (b <? 32) = true) as -> by lia. by rewrite andb_true_r. }
  destruct (c_true map) eqn:E; unfold c_true in E.
  - assert (0 < map) by lia. rewrite tlsf_ffs_spec by lia.
    pose proof (ctz_range map 32 ltac:(lia) ltac:(lia)) as Hr.
    pose proof (ctz_testbit map ltac:(lia)) as Hc.
    assert (k <= ctz map).
    { unfold map in Hc at 1. rewrite Z.land_spec, mask_testbit in Hc by lia. apply andb_true_iff in Hc as [_ Hc].
      apply andb_true_iff in Hc as [Hc _]. lia. }
    split; [lia|]. split; [by rewrite <- Ht by lia|].
    intros b Hb'. rewrite <- Ht by lia. apply ctz_below; lia.
  - intros b Hb'. rewrite <- Ht by done. assert (map = 0) as -> by lia. apply Z.bits_0.
Qed.

Lemma class_valid_elim f s : class_valid (f, s) -> 0 <= f < 25 /\ 0 <= s < 32.
Proof. done. Qed.

Lemma class_valid_intro f s : 0 <= f < 25 -> 0 <= s < 32 -> class_valid (f, s).
Proof. done. Qed.

Section search.
Context (h : heap) (F : Z -> option Z) (L : Z -> Z -> list Z) (H : lists_ok h F L).

Lemma head_listed fl sl : class_valid (fl, sl) -> Z.testbit (sl_get h fl) sl = true ->
  L fl sl <> [] /\ exists s, F (blocks_get h fl sl) = Some s /\ mapping_insert s = (fl, sl).
Proof.
  intros Hv Hb. rewrite (lo_sl_bit _ _ _ H) in Hb by done. apply bool_decide_eq_true in Hb.
  split; [done|]. apply (lo_mem _ _ _ H); [done|]. rewrite (lo_head _ _ _ H) by done.
  destruct (L fl sl); [done|]. apply list_elem_of_here.
Qed.

Lemma sl_bit_clear fl sl : class_valid (fl, sl) -> Z.testbit (sl_get h fl) sl = false -> L fl sl = [].
Proof.
  intros Hv Hb. rewrite (lo_sl_bit _ _ _ H) in Hb by done. apply bool_decide_eq_false in Hb.
  by destruct (L fl sl); [|destruct Hb].
Qed.

Lemma fl_bit_clear fl sl : class_valid (fl, sl) -> Z.testbit (fl_bitmap h) fl = false -> L fl sl = [].
Proof.
  intros [Hv1 Hv2] Hb. cbn in Hv1, Hv2. change FL_INDEX_COUNT with 25 in *.
  rewrite (lo_fl_bit _ _ _ H) in Hb by done. apply sl_bit_clear; [done|].
  assert (sl_get h fl = 0) as -> by lia. apply Z.bits_0.
Qed.

Lemma search_suitable_block_ok fl sl b fl' sl' : class_valid (fl, sl) ->
  search_suitable_block h fl sl = (b, fl', sl') ->
  (b = 0 /\ forall f s, class_valid (f, s) -> class_le (fl, sl) (f, s) -> L f s = []) \/
  (class_valid (fl', sl') /\ class_le (fl, sl) (fl', sl') /\
   (exists s, F b = Some s /\ mapping_insert s = (fl', sl')) /\
   forall f s, class_valid (f, s) -> class_le (fl, sl) (f, s) -> L f s <> [] ->
     class_le (fl', sl') (f, s)).
Proof.
  intros [Hv1 Hv2]%class_valid_elim. unfold search_suitable_block.
  pose proof (masked_ffs (sl_get h fl) sl (lo_sl_range _ _ _ H _ Hv1) ltac:(lia)) as M1. cbv zeta in M1.
  destruct (c_true _) in M1 |- *.
  { destruct M1 as (R1 & T1 & B1). intros [= <- <- <-]. right.
    set (sl1 := tlsf_ffs _) in *. assert (class_valid (fl, sl1)) as Hv by (apply class_valid_intro; lia).
    split; [done|]. split; [right; cbn; lia|]. split; [by apply head_listed|].
    intros f s Hfs [Hlt|[Ef Hle]] Hne; pose proof Hfs as [Hf Hs]%class_valid_elim; cbn in *; [left; cbn; lia|]. subst f. right; cbn. split; [done|].
    destruct (decide (s < sl1)); [|lia]. destruct Hne. apply sl_bit_clear; [done|]. apply B1. lia. }
  pose proof (lo_fl_range _ _ _ H) as Hfr.
  pose proof (masked_ffs (fl_bitmap h) (fl + 1) ltac:(pow2; lia) ltac:(lia)) as M2. cbv zeta in M2.
  assert (forall s, sl <= s < 32 -> L fl s = []) as Hfl.
  { intros s Hs. apply sl_bit_clear; [apply class_valid_intro; lia|by apply M1]. }
  destruct (c_true _) in M2 |- *; intros [= <- <- <-].
  - right. destruct M2 as (R2 & T2 & B2). set (fl1 := tlsf_ffs _) in *.
    assert (0 <= fl1 < 25) as Hf1.
    { split; [lia|]. destruct (decide (fl1 < 25)); [done|]. rewrite (Z_testbit_high 25) in T2; [done|lia..]. }
    pose proof T2 as T2'. rewrite (lo_fl_bit _ _ _ H) in T2' by done.
    pose proof (lo_sl_range _ _ _ H _ Hf1) as Hr. set (w := sl_get h fl1) in *.
    assert (0 < w) as Hw by lia. rewrite (tlsf_ffs_spec w) by lia.
    pose proof (ctz_range w 32 ltac:(lia) ltac:(lia)) as Hc.
    assert (class_valid (fl1, ctz w)) as Hv by (apply class_valid_intro; lia).
    split; [done|]. split; [left; cbn; lia|]. split; [apply head_listed; [done|apply ctz_testbit; lia]|].
    intros f s Hfs Hle Hne. pose proof Hfs as [Hf Hs]%class_valid_elim.
    destruct (decide (f = fl1)) as [->|].
    + right; cbn. split; [done|]. destruct (decide (s < ctz w)); [|lia].
      destruct Hne. apply sl_bit_clear; [done|]. fold w. apply ctz_below; lia.
    + left; cbn. destruct (decide (f < fl1)); [|lia]. destruct Hne.
      destruct Hle as [Hlt|[Ef Hle]]; cbn in *; [|subst f; apply Hfl; lia].
      apply fl_bit_clear; [done|]. apply B2. lia.
  - left. split; [done|]. intros f s Hfs [Hlt|[Ef Hle]]; pose proof Hfs as [Hf Hs]%class_valid_elim; cbn in *; [|subst f; apply Hfl; lia].
    apply fl_bit_clear; [done|]. apply M2. lia.
Qed.
End search.

(** ** [block_locate_free] *)

(** Taking a listed block off its list leaves it loose. *)
Lemma inv_remove h B a i fl sl : inv h B -> B !! a = Some i -> bfree i = true ->
  mapping_insert (bsize i) = (fl, sl) ->
  loose (remove_free_block h a fl sl) B a i /\
  (forall T, kept T h B (remove_free_block h a fl sl) B) /\ bpfree i = false /\
  exists j, B !! next_of a (bsize i) = Some j /\ bfree j = false.
Proof.
  intros [Hw Hfl Hc] Ha Hf Hm.
  destruct (wf_remove _ _ _ _ a (bsize i) fl sl Hw) as [Hw' Hk]; [|done|].
  { by rewrite (free_map_lookup _ _ _ Ha), Hf. }
  assert (loose (remove_free_block h a fl sl) B a i) as Hl by (split; eauto).
  split; [done|]. split; [done|]. split; [by eauto|].
  destruct (loose_next _ _ _ _ Hl) as (j & Hj & _ & Hp & _). exists j. split; [done|].
  destruct (bfree j) eqn:E; [|done]. rewrite (Hc _ _ Hj E) in Hp. done.
Qed.

Lemma block_locate_free_ok h B s h' b : inv h B -> 24 <= s < 2 ^ 32 -> (8 | s) ->
  block_locate_free h s = (h', b) ->
  (b = 0 /\ h' = h /\ forall x i, B !! x = Some i -> bfree i = true ->
     ~ class_le (mapping_search s) (mapping_insert (bsize i))) \/
  (exists i j, b <> 0 /\ loose h' B b i /\ (forall T, kept T h B h' B) /\ s <= bsize i /\ bpfree i = false /\
     B !! next_of b (bsize i) = Some j /\ bfree j = false /\
     bfree i = true /\ class_le (mapping_search s) (mapping_insert (bsize i))).
Proof.
  intros H Hs Hd. pose proof (inv_wf _ _ H) as Hw. pose proof (wf_shape _ _ _ _ Hw) as Hsh.
  destruct (wf_lists _ _ _ _ Hw) as [L HL]. unfold block_locate_free, c_true.
  case_if; [|lia]. destruct (mapping_search_range s ltac:(lia)) as [Hr1 Hr2].
  destruct (mapping_search s) as [fl sl] eqn:Ems. cbn [fst snd] in *.
  change FL_INDEX_COUNT with 25. change SL_INDEX_COUNT with 32 in *.
  assert (forall x i, B !! x = Some i -> bfree i = true ->
    class_valid (mapping_insert (bsize i)) /\ x ∈ L (mapping_insert (bsize i)).1 (mapping_insert (bsize i)).2) as HB.
  { intros x i Hx Hi. destruct (shape_size _ _ _ _ Hsh Hx) as [Hsz _].
    destruct (mapping_insert_valid (bsize i) Hsz) as [Hv _]. split; [done|].
    apply (lo_mem _ _ _ HL); [by rewrite <- surjective_pairing|]. exists (bsize i).
    rewrite (free_map_lookup _ _ _ Hx), Hi. by destruct (mapping_insert (bsize i)). }
  case_if; cycle 1.
  { cbn. intros [= <- <-]. left. split; [done|]. split; [done|]. intros x i Hx Hi Hle.
    destruct (HB x i Hx Hi) as [[? ?] _]. change FL_INDEX_COUNT with 25 in *.
    destruct Hle as [|[]]; cbn in *; lia. }
  destruct (search_suitable_block h fl sl) as [[b' fl'] sl'] eqn:Es.
  assert (class_valid (fl, sl)) as Hv by (apply class_valid_intro; lia).
  destruct (search_suitable_block_ok h _ L HL fl sl b' fl' sl' Hv Es) as [[-> Hnone]|(Hv' & Hle & (sb & Hb & Hm) & _)].
  { cbn. intros [= <- <-]. left. split; [done|]. split; [done|]. intros x i Hx Hi Hle.
    destruct (HB x i Hx Hi) as [Hvi Hin].
    rewrite (Hnone (mapping_insert (bsize i)).1 (mapping_insert (bsize i)).2) in Hin.
    - by apply not_elem_of_nil in Hin.
    - by rewrite <- surjective_pairing.
    - by rewrite <- surjective_pairing. }
  destruct (wf_listed _ _ _ _ Hw b' sb Hb) as (i & Hi & Hif & <-).
  destruct (sh_addr _ _ Hsh b' i Hi) as [Hpos _].
  case_if; [|lia]. intros [= <- <-]. right.
  destruct (inv_remove h B b' i fl' sl' H Hi Hif Hm) as (Hl & Hk & Hp & j & Hj & Hjf).
  exists i, j. split_and!; try done; [|by rewrite Hm].
  destruct (shape_size _ _ _ _ Hsh Hi) as [Hsz _]. destruct (mapping_insert_valid (bsize i) Hsz) as [_ Hmin].
  rewrite Hm in Hmin. pose proof (mapping_search_min s ltac:(lia) Hd) as Hms. rewrite Ems in Hms.
  pose proof (class_min_mono _ _ Hv Hv' Hle). specialize (Hms Hv). lia.
Qed.
