(* ===== verification/TlsfSpec.v ===== *)
(** TLSF, part 9: what the public operations do.  Each lemma takes a heap that
    satisfies [inv] to one that does, says which block is allocated or released,
    and that every other allocated block keeps its size and contents. *)
From S2P Require Import Prelude Memory TlsfBits Tlsf TlsfHdr TlsfList TlsfInv TlsfOps TlsfLoose TlsfSearch.

(** ** Allocated blocks *)

Lemma used_facts h B a s : inv h B -> used B a = Some s ->
  0 < a /\ (8 | a) /\ 24 <= s < 2 ^ 32 /\ (8 | s) /\ a + 16 + s < 2 ^ 64 - 2 ^ 33 /\
  block_size (hmem h) a = s /\ (a + 16 + s <= ctl h \/ ctl h + sizeof_control <= a + 8).
Proof.
  intros [Hw _ _] (i & Hi & _ & <- & Hnz)%used_Some. pose proof (wf_shape _ _ _ _ Hw) as Hs.
  destruct (sh_addr _ _ Hs a i Hi) as (? & ? & ?). destruct (sh_size _ _ Hs a i Hi) as [? [[? _]|?]]; [lia|].
  split_and!; try done; try lia.
  - apply block_size_enc; [by eapply wf_size|by apply Hw].
  - by apply (sh_ctl _ _ Hs).
Qed.

(** The payloads of two allocated blocks do not overlap. *)
Lemma used_disjoint h B a s a' s' : inv h B -> used B a = Some s -> used B a' = Some s' -> a <> a' ->
  a + 16 + s <= a' + 16 \/ a' + 16 + s' <= a + 16.
Proof.
  intros [Hw _ _] (i & Hi & _ & <- & _)%used_Some (j & Hj & _ & <- & _)%used_Some Hne.
  pose proof (shape_footprint _ _ _ _ _ _ (wf_shape _ _ _ _ Hw) Hi Hj Hne). lia.
Qed.

(** Stores into the payload of an allocated block. *)
Lemma inv_payload h B a s m : inv h B -> used B a = Some s ->
  (forall x, ~ (a + 16 <= x < a + 16 + s) -> m x = hmem h x) ->
  inv (set_mem h m) B /\ kept [a] h B (set_mem h m) B.
Proof.
  intros [Hw Hfl Hc] (i & Hi & Hif & <- & Hnz)%used_Some Hm.
  pose proof (wf_shape _ _ _ _ Hw) as Hs. destruct Hw as [_ Hh Hf [L HL] HF].
  assert (forall x j, B !! x = Some j -> x <> a -> same_on (x + 8) (x + 16 + bsize j) (hmem h) m) as Hoth.
  { intros x j Hx Hne w Hw. apply Hm. destruct (shape_footprint _ _ _ _ _ _ Hs Hi Hx); [done|lia..]. }
  split; [split; [split|..]|]; try done.
  - intros x j Hx. rewrite <- (Hh x j Hx). apply ld64_ext. destruct (decide (x = a)) as [->|].
    + intros w Hw. apply Hm. lia.
    + pose proof (shape_size _ _ _ _ Hs Hx). eapply same_on_weaken; [by apply Hoth|lia..].
  - intros x j Hx Hjf He. rewrite <- (Hf x j Hx Hjf He) at 2. apply ld64_ext. unfold next_of.
    pose proof (shape_size _ _ _ _ Hs Hx). eapply same_on_weaken; [apply Hoth; [done|congruence]|lia..].
  - exists L. apply lists_ok_frame; [done|]. intros b [sb Hb].
    destruct (HF b sb Hb) as (j & Hj & Hjf & _).
    destruct (sh_size _ _ Hs b j Hj) as [_ [[_ ?]|?]]; [congruence|].
    eapply same_on_weaken; [apply Hoth; [done|congruence]|lia..].
  - apply kept_intro; [done..|]. intros x j Hx Hj Hjf Hjs.
    eapply same_on_weaken; [apply Hoth; [done|]|lia..]. intros ->. apply Hx, list_elem_of_singleton. done.
Qed.

(** ** [block_prepare_used] *)

Lemma block_prepare_used_ok h B a i j s h' p : loose h B a i -> 24 <= s < 2 ^ 32 -> (8 | s) ->
  s <= bsize i -> B !! next_of a (bsize i) = Some j -> bfree j = false ->
  block_prepare_used h a s = (h', p) ->
  p = a + 16 /\ exists B' s', inv h' B' /\ kept [a] h B h' B' /\ used B' a = Some s' /\ s <= s' < s + 32.
Proof.
  intros H Hs Hd Hle Hj Hjf. unfold block_prepare_used, c_true.
  destruct (sh_addr _ _ (wf_shape _ _ _ _ (ls_wf _ _ _ _ H)) a i (ls_self _ _ _ _ H)) as (A1 & _ & A2).
  case_if; [|lia]. intros [= <- <-]. split.
  { unfold block_to_ptr. change block_start_offset with 16. apply uw_small. lia. }
  destruct (block_trim_free_ok h B a i j s H Hs Hd Hle Hj Hjf) as (B1 & i1 & H1 & K1 & S1 & _).
  destruct (loose_mark_used _ _ _ _ H1) as (B2 & H2 & K2 & L2).
  exists B2, (bsize i1). split; [done|]. split; [|split; [|done]].
  - eapply kept_trans; [apply K1|]. apply K2. by apply list_elem_of_singleton.
  - apply (used_intro _ _ (set_bfree i1 false)); [done..|]. cbn. lia.
Qed.

Lemma adjust_malloc size : 0 <= size < 2 ^ 64 - 7 ->
  let s := adjust_request_size size ALIGN_SIZE in
  s = 0 \/ (0 < size /\ size <= s /\ 24 <= s < 2 ^ 32 /\ (8 | s)).
Proof.
  intros Hs. pose proof (adjust_request_size_spec size 3 ltac:(lia) ltac:(lia) ltac:(pow2; lia)) as Ha.
  cbv zeta in *. change (2 ^ 3) with ALIGN_SIZE in Ha.
  destruct Ha as [?|(? & ? & ? & ?)]; [by left|right]. split_and!; try done; lia.
Qed.

Lemma locate_zero h : block_locate_free h 0 = (h, 0).
Proof. reflexivity. Qed.

Lemma tlsf_malloc_inv h B size h' p : inv h B -> 0 <= size < 2 ^ 64 - 7 ->
  tlsf_malloc h size = (h', p) ->
  (p = 0 /\ h' = h) \/
  exists a B' s', p = a + 16 /\ inv h' B' /\ kept [a] h B h' B' /\ used B a = None /\
    used B' a = Some s' /\ size <= s'.
Proof.
  intros H Hs. unfold tlsf_malloc.
  destruct (adjust_malloc size Hs) as [->|(Hpos & Hle & Hr & Hd)].
  { rewrite locate_zero. intros [= <- <-]. by left. }
  set (s := adjust_request_size size ALIGN_SIZE) in *.
  destruct (block_locate_free h s) as [h1 b] eqn:El.
  destruct (block_locate_free_ok h B s h1 b H Hr Hd El) as [(-> & -> & _)|(i & j & Hb & Hl & Hk & Hsi & Hp & Hj & Hjf & _ & _)].
  { intros [= <- <-]. by left. }
  intros Ep. right.
  destruct (block_prepare_used_ok h1 B b i j s h' p Hl Hr Hd Hsi Hj Hjf Ep) as (-> & B' & s' & H' & K' & U' & Hs').
  exists b, B', s'. split_and!; try done; [eapply kept_trans; [apply Hk|done]| |lia].
  apply used_free. intros k Hk'. rewrite (ls_self _ _ _ _ Hl) in Hk'. simplify_eq. apply Hl.
Qed.

(** ** [tlsf_free] *)

Lemma block_from_ptr_ok a : 0 < a -> a + 16 < 2 ^ 64 -> block_from_ptr (a + 16) = a.
Proof. intros. unfold block_from_ptr. change block_start_offset with 16. usmalls. lia. Qed.

Lemma tlsf_free_inv h B a s : inv h B -> used B a = Some s ->
  let h' := tlsf_free h (a + 16) in
  exists B', inv h' B' /\ kept [a] h B h' B' /\ used B' a = None.
Proof.
  intros H Hu. destruct (used_facts _ _ _ _ H Hu) as (A1 & _ & A2 & _ & A3 & _).
  unfold tlsf_free, c_true. case_if; [|lia]. rewrite block_from_ptr_ok by lia.
  apply used_Some in Hu as (i & Hi & Hif & <- & Hnz).
  destruct (inv_mark_free h B a i H Hi Hif Hnz) as (B1 & H1 & K1 & U1). set (h1 := set_mem h _) in *.
  destruct (block_merge_prev_ok _ _ _ _ H1) as (B2 & i2 & H2 & K2 & P2).
  destruct (block_merge_prev h1 a) as [h2 a2]. cbn [fst snd] in *.
  destruct (block_merge_next_ok _ _ _ _ H2 P2) as (E3 & B3 & i3 & j3 & H3 & K3 & P3 & N3 & J3).
  destruct (block_merge_next h2 a2) as [h3 a3]. cbn [fst snd] in *. subst a3.
  destruct (loose_insert _ _ _ _ j3 H3 P3 N3 J3) as [H4 K4].
  pose proof (fun T => kept_trans T _ _ _ _ _ _ (K2 T) (kept_trans T _ _ _ _ _ _ (K3 T) (K4 T))) as K.
  exists B3. split; [done|]. split.
  - eapply kept_trans; [apply K1; by apply list_elem_of_singleton|apply K].
  - rewrite (used_kept _ _ _ _ _ _ (K [])); [done|apply not_elem_of_nil].
Qed.

(** ** [tlsf_memalign] *)

Lemma pow2_pos k : 0 <= k -> 0 < 2 ^ k.
Proof. intros. by apply Z.pow_pos_nonneg. Qed.

Lemma divide_pow2 j k : 0 <= j <= k -> (2 ^ j | 2 ^ k).
Proof. intros. exists (2 ^ (k - j)). rewrite <- Z.pow_add_r by lia. f_equal. lia. Qed.

Lemma align_ptr_spec p k : 0 <= k <= 63 -> 0 <= p -> p + 2 ^ k - 1 < 2 ^ 64 ->
  p <= align_ptr p (2 ^ k) < p + 2 ^ k /\ (2 ^ k | align_ptr p (2 ^ k)).
Proof.
  intros Hk Hp Hb. change (align_ptr p (2 ^ k)) with (align_up p (2 ^ k)).
  rewrite align_up_spec by done. apply round_up_spec, pow2_pos. lia.
Qed.

Lemma align_ptr_aligned p k : 0 <= k <= 63 -> 0 <= p -> p + 2 ^ k - 1 < 2 ^ 64 -> (2 ^ k | p) ->
  align_ptr p (2 ^ k) = p.
Proof.
  intros Hk Hp Hb Hd. change (align_ptr p (2 ^ k)) with (align_up p (2 ^ k)).
  rewrite align_up_spec by done. apply round_up_divides; [apply pow2_pos; lia|done].
Qed.

(** The gap [tlsf_memalign] leaves in front of the aligned block. *)
Definition memalign_gap (ptr align : Z) : Z :=
  let aligned := align_ptr ptr align in
  let gap := u64 (aligned - ptr) in
  if c_true gap && (gap <? sizeof_block_header) then
    let gap_remain := u64 (sizeof_block_header - gap) in
    let offset := if align <? gap_remain then gap_remain else align in
    u64 (align_ptr (u64 (aligned + offset)) align - ptr)
  else gap.

Lemma memalign_gap_spec ptr k : 4 <= k <= 62 -> (8 | ptr) -> 0 <= ptr ->
  ptr + 2 * 2 ^ k + 64 < 2 ^ 64 ->
  let gap := memalign_gap ptr (2 ^ k) in
  (2 ^ k | ptr + gap) /\ (8 | gap) /\ (gap = 0 \/ 32 <= gap) /\ gap <= 2 ^ k + 24.
Proof.
  intros Hk [q Hq] Hp Hb gap. unfold gap, memalign_gap. set (A := 2 ^ k) in *.
  change sizeof_block_header with 32.
  assert (16 <= A) as HA by (change 16 with (2 ^ 4); apply Z.pow_le_mono_r; lia).
  destruct (divide_pow2 4 k ltac:(lia)) as [qa Hqa]. change (2 ^ 4) with 16 in Hqa. fold A in Hqa.
  destruct (align_ptr_spec ptr k ltac:(lia) Hp ltac:(fold A; lia)) as [Hr [qr Hqr]]. fold A in Hr, Hqr.
  set (al := align_ptr ptr A) in *.
  rewrite (uw_small 64 (al - ptr)) by lia. unfold c_true.
  assert (exists g, al - ptr = 8 * g) as [g Hg] by (exists (qr * qa * 2 - q); rewrite Hqr, Hq, Hqa; lia).
  case_if; cycle 1.
  { split; [exists qr; lia|]. split; [exists g; lia|]. lia. }
  rewrite (uw_small 64 (32 - (al - ptr))) by lia. case_if.
  - (* the remaining gap exceeds the alignment: only for 16-byte alignment *)
    assert (qa = 1) as -> by nia. assert (A = 16) as EA by lia.
    assert (k = 4) as Ek.
    { destruct (decide (5 <= k)); [|lia]. assert (2 ^ 5 <= A) by (apply Z.pow_le_mono_r; lia).
      change (2 ^ 5) with 32 in *. lia. }
    assert (al - ptr = 8) as Eg by lia. rewrite Eg.
    rewrite (uw_small 64 (al + (32 - 8))) by lia.
    assert (align_ptr (al + (32 - 8)) A = al + 32) as ->.
    { change (align_up (al + 24) (2 ^ k) = al + 32). rewrite align_up_spec by (fold A; lia).
      fold A. rewrite EA. unfold round_up.
      replace (al + 24 + 16 - 1) with (7 + (qr + 2) * 16) by lia.
      rewrite Z.div_add, Z.div_small by lia. lia. }
    rewrite uw_small by lia.
    split; [exists (qr + 2); lia|]. split; [exists 5; lia|]. lia.
  - rewrite (uw_small 64 (al + A)) by lia.
    assert (align_ptr (al + A) A = al + A) as ->.
    { apply align_ptr_aligned; [lia|lia|fold A; lia|exists (qr + 1); fold A; lia]. }
    rewrite uw_small by lia. split; [exists (qr + 1); lia|]. split; [exists (g + 2 * qa); lia|]. lia.
Qed.

Lemma tlsf_memalign_eq h align size :
  tlsf_memalign h align size =
    let adjust := adjust_request_size size ALIGN_SIZE in
    let aligned_size :=
      if c_true adjust && (ALIGN_SIZE <? align)
      then adjust_request_size (u64 (u64 (adjust + align) + sizeof_block_header)) align
      else adjust in
    let '(h, block) := block_locate_free h aligned_size in
    let '(h, block) :=
      if c_true block then
        let gap := memalign_gap (block_to_ptr block) align in
        if c_true gap then block_trim_free_leading h block gap else (h, block)
      else (h, block) in
    block_prepare_used h block adjust.
Proof.
  unfold tlsf_memalign, memalign_gap. cbv zeta. destruct (block_locate_free _ _) as [h1 b].
  destruct (c_true b); [|done].
  destruct (c_true (u64 _) && _); [|done]. done.
Qed.

(** The size searched for leaves room for the gap and the request. *)
Lemma memalign_fits ptr k size : 0 <= k <= 62 -> (8 | ptr) -> 0 < ptr -> ptr < 2 ^ 64 - 2 ^ 33 ->
  0 <= size < 2 ^ 64 - 7 ->
  let adjust := adjust_request_size size ALIGN_SIZE in
  let s := if c_true adjust && (ALIGN_SIZE <? 2 ^ k)
           then adjust_request_size (u64 (u64 (adjust + 2 ^ k) + sizeof_block_header)) (2 ^ k)
           else adjust in
  s = 0 \/
  (24 <= adjust < 2 ^ 32 /\ (8 | adjust) /\ size <= adjust <= s /\ 24 <= s < 2 ^ 32 /\ (8 | s) /\
   let gap := memalign_gap ptr (2 ^ k) in
   (2 ^ k | ptr + gap) /\ (8 | gap) /\ (gap = 0 \/ 32 <= gap /\ gap + adjust <= s /\ gap + 32 <= s)).
Proof.
  intros Hk Hd Hp Hb Hs adjust s. unfold s. unfold c_true.
  pose proof (adjust_malloc size Hs) as Ha. cbv zeta in Ha. fold adjust in Ha. clearbody adjust.
  destruct Ha as [E|(Hpos & Hle & Hr & Hda)].
  { left. rewrite E. done. }
  change ALIGN_SIZE with 8. change sizeof_block_header with 32.
  assert (0 < 2 ^ k) by (apply pow2_pos; lia).
  case_if; cycle 1.
  - right. assert (k <= 3) by (destruct (decide (4 <= k)); [|lia];
      assert (2 ^ 4 <= 2 ^ k) by (apply Z.pow_le_mono_r; lia); change (2 ^ 4) with 16 in *; lia).
    assert (2 ^ k | ptr) as Hkp by (eapply Z.divide_trans; [apply (divide_pow2 k 3); lia|done]).
    assert (2 ^ k <= 2 ^ 3) by (apply Z.pow_le_mono_r; lia). change (2 ^ 3) with 8 in *.
    assert (memalign_gap ptr (2 ^ k) = 0) as ->.
    { unfold memalign_gap. rewrite align_ptr_aligned by (done || lia). by rewrite Z.sub_diag. }
    rewrite Z.add_0_r. split_and!; try done; try lia. exists 0; lia.
  - assert (4 <= k).
    { destruct (decide (4 <= k)); [done|]. assert (2 ^ k <= 2 ^ 3) by (apply Z.pow_le_mono_r; lia).
      change (2 ^ 3) with 8 in *. lia. }
    assert (2 ^ k <= 2 ^ 62) by (apply Z.pow_le_mono_r; lia). change (2 ^ 62) with 4611686018427387904 in *.
    rewrite (uw_small 64 (adjust + 2 ^ k)) by (pow2; lia). rewrite uw_small by (pow2; lia).
    pose proof (adjust_request_size_spec (adjust + 2 ^ k + 32) k ltac:(lia) ltac:(lia) ltac:(pow2; lia)) as Hsz.
    cbv zeta in Hsz. destruct Hsz as [E|(_ & Hge & H24 & H8)]; [by left|right].
    pose proof (memalign_gap_spec ptr k ltac:(lia) Hd ltac:(lia) ltac:(pow2; lia)) as (G1 & G2 & G3 & G4).
    split_and!; try done; lia.
Qed.

Lemma tlsf_memalign_inv h B k size h' p : inv h B -> 0 <= k <= 62 -> 0 <= size < 2 ^ 64 - 7 ->
  tlsf_memalign h (2 ^ k) size = (h', p) ->
  (p = 0 /\ h' = h) \/
  exists a B' s', p = a + 16 /\ inv h' B' /\ kept [a] h B h' B' /\ used B a = None /\
    used B' a = Some s' /\ size <= s' /\ (2 ^ k | p).
Proof.
  intros H Hk Hs. rewrite tlsf_memalign_eq. cbv zeta.
  set (adjust := adjust_request_size size ALIGN_SIZE).
  set (s := if c_true adjust && _ then _ else _).
  destruct (decide (s = 0)) as [->|Hs0]; [rewrite locate_zero; intros [= <- <-]; by left|].
  assert (24 <= s < 2 ^ 32 /\ (8 | s)) as [Hr Hd].
  { destruct (memalign_fits 8 k size Hk ltac:(by exists 1) ltac:(lia) ltac:(pow2; lia) Hs) as [?|(_ & _ & _ & ? & ? & _)]; done. }
  destruct (block_locate_free h s) as [h1 b] eqn:El.
  destruct (block_locate_free_ok h B s h1 b H Hr Hd El) as [(-> & -> & _)|(i & j & Hb & Hl & Hkp & Hsi & Hp & Hj & Hjf & _ & _)].
  { intros [= <- <-]. by left. }
  pose proof (ls_self _ _ _ _ Hl) as Hi. pose proof (wf_shape _ _ _ _ (ls_wf _ _ _ _ Hl)) as Hsh.
  destruct (sh_addr _ _ Hsh b i Hi) as (A1 & A2 & A3). destruct (shape_size _ _ _ _ Hsh Hi) as (A4 & _).
  unfold c_true at 1. case_if; [|lia].
  assert (block_to_ptr b = b + 16) as ->.
  { unfold block_to_ptr. change block_start_offset with 16. apply uw_small. lia. }
  destruct (memalign_fits (b + 16) k size Hk ltac:(apply Z.divide_add_r; [done|by exists 2]) ltac:(lia) ltac:(lia) Hs)
    as [?|(Ra & Da & La & _ & _ & G)]; [done|]. cbv zeta in G.
  set (gap := memalign_gap (b + 16) (2 ^ k)) in *. destruct G as (G1 & G2 & G3).
  unfold c_true. case_if.
  - destruct G3 as [|(G3 & G4 & G5)]; [lia|]. fold adjust s in G4, G5, Ra, Da, La.
    destruct (block_trim_free_leading_ok h1 B b i j gap Hl Hp Hj Hjf G3 G2 ltac:(lia)) as (Er & B2 & k2 & Hl2 & K2 & N2 & J2).
    destruct (block_trim_free_leading h1 b gap) as [h2 b2]. cbn [fst snd] in *. subst b2.
    intros Ep. right.
    destruct (block_prepare_used_ok h2 B2 _ _ k2 adjust h' p Hl2 Ra Da ltac:(cbn; lia) N2 J2 Ep) as (-> & B' & s' & H' & K' & U' & Hs').
    exists (b + gap), B', s'. split_and!; try done.
    + eapply kept_trans; [apply Hkp|]. eapply kept_trans; [apply K2|done].
    + rewrite <- (used_kept _ _ _ _ _ _ (K2 []) (not_elem_of_nil _)).
      apply used_free. intros k' Hk'. rewrite (ls_self _ _ _ _ Hl2) in Hk'. by simplify_eq.
    + lia.
    + by replace (b + gap + 16) with (b + 16 + gap) by lia.
  - fold adjust s in Ra, Da, La. intros Ep. right.
    destruct (block_prepare_used_ok h1 B b i j adjust h' p Hl Ra Da ltac:(lia) Hj Hjf Ep) as (-> & B' & s' & H' & K' & U' & Hs').
    exists b, B', s'. split_and!; try done.
    + eapply kept_trans; [apply Hkp|done].
    + apply used_free. intros k' Hk'. rewrite Hi in Hk'. simplify_eq. apply Hl.
    + lia.
    + assert (gap = 0) as Eg by lia. by rewrite Eg, Z.add_0_r in G1.
Qed.

(** ** [tlsf_realloc] *)

(** The in-place part: grow into the right neighbour if needed, then trim. *)
Lemma realloc_in_place h B a i j s : inv h B -> B !! a = Some i -> bfree i = false -> bsize i <> 0 ->
  B !! next_of a (bsize i) = Some j -> 24 <= s < 2 ^ 32 -> (8 | s) ->
  (bsize i < s -> bfree j = true /\ s <= bsize i + 8 + bsize j) ->
  let h1 := if bsize i <? s then
              let '(h, _) := block_merge_next h a in set_mem h (block_mark_as_used (hmem h) a)
            else h in
  let h' := block_trim_used h1 a s in
  exists B' s', inv h' B' /\ kept [a] h B h' B' /\ used B' a = Some s' /\ s <= s' /\
    same_on (a + 16) (a + 16 + Z.min (bsize i) s') (hmem h) (hmem h').
Proof.
  intros H Hi Hif Hnz Hj Hs Hd Hg h1 h'. pose proof (proj2 (list_elem_of_singleton a a) eq_refl) as Hin.
  assert (exists B1 i1, inv h1 B1 /\ kept [a] h B h1 B1 /\ B1 !! a = Some i1 /\ bfree i1 = false /\
    s <= bsize i1 /\ same_on (a + 16) (a + 16 + bsize i) (hmem h) (hmem h1)) as (B1 & i1 & H1 & K1 & L1 & F1 & S1 & M1).
  { unfold h1. case_if; cycle 1.
    { exists B, i. split_and!; first [done|lia|apply kept_refl|apply same_on_refl]. }
    destruct (Hg ltac:(lia)) as [Hjf Hfit].
    destruct (grow_ok h B a i j H Hi Hif Hnz Hj Hjf) as (B1 & H1 & K1 & U1 & M1).
    destruct (block_merge_next h a) as [h2 ?]. cbn [fst] in *.
    apply used_Some in U1 as (i1 & L1 & F1 & S1 & _).
    exists B1, i1. split_and!; first [done|lia|by apply K1]. }
  destruct (block_trim_used_ok h1 B1 a i1 s H1 L1 F1 ltac:(lia) Hs Hd) as (B2 & s2 & H2 & K2 & U2 & V2 & W2 & M2).
  exists B2, s2. split_and!; try done.
  - eapply kept_trans; [done|by apply K2].
  - lia.
  - eapply same_on_trans; (eapply same_on_weaken; [eassumption|lia..]).
Qed.

(** The moving part: the new block receives the bytes the two sizes share. *)
Lemma realloc_move h B a s size h1 p1 : inv h B -> used B a = Some s -> 0 < size < 2 ^ 64 - 7 ->
  tlsf_malloc h size = (h1, p1) -> p1 <> 0 ->
  let n := if s <? size then s else size in
  let h' := tlsf_free (set_mem h1 (memcpy (hmem h1) p1 (a + 16) n)) (a + 16) in
  exists a' B' s', p1 = a' + 16 /\ a' <> a /\ inv h' B' /\ kept [a; a'] h B h' B' /\
    used B a' = None /\ used B' a = None /\ used B' a' = Some s' /\ size <= s' /\
    forall k, 0 <= k < Z.min s size -> hmem h' (p1 + k) = hmem h (a + 16 + k).
Proof.
  intros H Hu Hs Em Hp1 n h'.
  destruct (tlsf_malloc_inv h B size h1 p1 H ltac:(lia) Em) as [[? _]|(a' & B1 & s1 & -> & H1 & K1 & U0 & U1 & S1)]; [done|].
  assert (a' <> a) as Hne by congruence.
  assert (a ∉ [a']) as Hna by (rewrite list_elem_of_singleton; congruence).
  assert (a' ∉ [a]) as Hna' by (rewrite list_elem_of_singleton; congruence).
  pose proof (used_kept _ _ _ _ _ _ K1 Hna) as Ua. rewrite Hu in Ua.
  pose proof (kept_same _ _ _ _ _ _ _ K1 Hna Hu) as Sa.
  assert (n = Z.min s size) as En by (unfold n; case_if; lia). clearbody n. subst n.
  destruct (used_facts _ _ _ _ H Hu) as (_ & _ & Rs & _).
  set (m := memcpy _ _ _ _) in h'.
  assert (forall x, m x = if (a' + 16 <=? x) && (x <? a' + 16 + Z.min s size)
                          then hmem h1 (a + 16 + (x - (a' + 16))) else hmem h1 x) as Hm by done. clearbody m.
  destruct (inv_payload h1 B1 a' s1 m H1 U1) as [H2 K2].
  { intros x Hx. rewrite Hm. case_if; [lia|done]. }
  destruct (tlsf_free_inv _ _ a s H2 Ua) as (B3 & H3 & K3 & U3). fold h' in H3, K3.
  exists a', B3, s1. split_and!; try done.
  - apply (kept_trans _ h B h1 B1); [eapply kept_weaken; [|exact K1]|].
    { intros x Hx. left. rewrite elem_of_cons. by right. }
    eapply kept_trans; (eapply kept_weaken; [|eassumption]);
      intros x ->%list_elem_of_singleton; left; rewrite !elem_of_cons; tauto.
  - by rewrite (used_kept _ _ _ _ _ _ K3 Hna').
  - intros k Hk. pose proof (kept_same _ _ _ _ _ _ _ K3 Hna' U1) as S3.
    rewrite (S3 (a' + 16 + k)) by lia. cbn [hmem set_mem]. rewrite Hm. case_if; [|lia].
    rewrite (Sa _) by lia. f_equal. lia.
Qed.

Lemma tlsf_realloc_inv h B a s size h' r : inv h B -> used B a = Some s ->
  0 < size < 2 ^ 64 - 7 -> adjust_request_size size ALIGN_SIZE <> 0 ->
  tlsf_realloc h (a + 16) size = (h', r) ->
  (r = 0 /\ h' = h) \/
  exists a' B' s', r = a' + 16 /\ inv h' B' /\ kept [a; a'] h B h' B' /\
    used B' a' = Some s' /\ size <= s' /\ (a' = a \/ used B a' = None /\ used B' a = None) /\
    forall k, 0 <= k < Z.min s size -> hmem h' (r + k) = hmem h (a + 16 + k).
Proof.
  intros H Hu Hs Hadj. destruct (used_facts _ _ _ _ H Hu) as (A1 & A2 & A3 & A4 & A5 & A6 & _).
  pose proof Hu as (i & Hi & Hif & Es & Hnz)%used_Some. pose proof (inv_wf _ _ H) as Hw.
  pose proof (wf_shape _ _ _ _ Hw) as Hsh.
  destruct (sh_next _ _ Hsh a i Hi ltac:(lia)) as (j & Hj & Epj). rewrite Es in Hj.
  destruct (shape_size _ _ _ _ Hsh Hj) as (Hjr & Hjok & _).
  unfold tlsf_realloc, c_true. case_if; [lia|]. case_if; [lia|]. clear E E0.
  rewrite block_from_ptr_ok by lia. rewrite A6.
  rewrite (block_next_enc _ a i), Es by (first [by eapply wf_size | by apply Hw | lia]).
  rewrite (block_size_enc _ _ j), (block_is_free_enc _ _ j) by (done || apply Hw, Hj).
  change block_header_overhead with 8. rewrite (uw_small 64 (s + bsize j)) by (pow2; lia).
  rewrite uw_small by (pow2; lia).
  destruct (adjust_malloc size ltac:(lia)) as [?|(_ & Hle & Hr & Hd)]; [done|].
  set (adjust := adjust_request_size size ALIGN_SIZE) in *. case_if.
  - destruct (tlsf_malloc h size) as [h1 p1] eqn:Em. case_if; cycle 1.
    { intros [= <- <-]. left. destruct (tlsf_malloc_inv h B size h1 p1 H ltac:(lia) Em) as [[-> ->]|(a' & B1 & s1 & -> & Hi1 & _ & _ & Hu1 & _)]; [done|].
      pose proof (used_facts _ _ _ _ Hi1 Hu1). lia. }
    intros [= <- <-]. right.
    destruct (realloc_move h B a s size h1 p1 H Hu Hs Em ltac:(lia)) as (a' & B' & s' & Ep & Hne & H' & K' & U1 & U2 & U3 & Hsz & Hc).
    exists a', B', s'. split_and!; try done. by right.
  - intros [= <- <-]. right. rewrite <- Es in Hj.
    assert (bsize i < adjust -> bfree j = true /\ adjust <= bsize i + 8 + bsize j) as Hfit.
    { destruct (bfree j); cbn in *; lia. }
    destruct (realloc_in_place h B a i j adjust H Hi Hif ltac:(lia) Hj Hr Hd Hfit) as (B' & s' & H' & K' & U' & S' & M').
    rewrite Es in H', K', M'. exists a, B', s'. split_and!; try done.
    + eapply kept_weaken; [|exact K']. intros x ->%list_elem_of_singleton. left. rewrite !elem_of_cons. tauto.
    + lia.
    + by left.
    + intros k Hk. apply M'. lia.
Qed.
