(* ===== verification/TlsfPool.v ===== *)
(** TLSF, part 10: creating a heap and giving it memory.  An empty control
    structure satisfies the invariant, and [tlsf_add_pool] extends it with one
    free block and the sentinel that ends the pool. *)
From S2P Require Import Prelude Memory TlsfBits Tlsf TlsfHdr TlsfList TlsfInv TlsfOps TlsfLoose TlsfSearch TlsfSpec.

(** ** The empty heap *)

Lemma empty_get c m fl sl : class_valid (fl, sl) ->
  sl_get (control_construct c m) fl = 0 /\ blocks_get (control_construct c m) fl sl = c.
Proof.
  intros [Hf Hs]%class_valid_elim. unfold sl_get, blocks_get, control_construct.
  cbn [sl_bitmap blocks].
  change (Z.to_nat FL_INDEX_COUNT) with 25%nat. change (Z.to_nat SL_INDEX_COUNT) with 32%nat.
  rewrite (lookup_replicate_2 25 0 (Z.to_nat fl)), (lookup_replicate_2 25 (replicate 32 c) (Z.to_nat fl)) by lia.
  cbn [default from_option id]. by rewrite lookup_replicate_2 by lia.
Qed.

Lemma control_construct_inv c m : 0 < c -> (8 | c) -> c + sizeof_control < 2 ^ 64 ->
  inv (control_construct c m) ∅.
Proof.
  intros Hc Hd Hb. change sizeof_control with 6536 in Hb. split; [split|..].
  - split; try done; intros *; by rewrite ?lookup_empty.
  - intros a i. by rewrite lookup_empty.
  - intros a i. by rewrite lookup_empty.
  - exists (fun _ _ => []). split; try done.
    + by repeat constructor.
    + intros fl sl Hv. by apply empty_get.
    + intros fl Hf. destruct (empty_get c m fl 0) as [-> _]; [by apply class_valid_intro; lia|lia].
    + intros fl sl Hv. destruct (empty_get c m fl sl Hv) as [-> _]. by rewrite Z.bits_0.
    + intros fl Hf. destruct (empty_get c m fl 0) as [-> _]; [by apply class_valid_intro; lia|].
      cbn [fl_bitmap control_construct]. by rewrite Z.bits_0.
    + intros. apply NoDup_nil_2.
    + intros fl sl b Hv. split; [by intros ?%not_elem_of_nil|]. intros (s & Hs & _).
      unfold free_map in Hs. by rewrite lookup_empty in Hs.
    + intros x [->|[s Hs]]; [cbn; lia|]. unfold free_map in Hs. by rewrite lookup_empty in Hs.
    + intros x y [->|[s Hs]] [->|[s' Hs']]; try done; unfold free_map in *; by rewrite lookup_empty in *.
  - intros b s Hs. unfold free_map in Hs. by rewrite lookup_empty in Hs.
  - intros a i. by rewrite lookup_empty.
  - intros a i. by rewrite lookup_empty.
Qed.

(** ** A fresh header *)

Lemma init_header m a s (f pf : bool) p : size_ok s ->
  let m1 := block_set_size m a s in
  let m2 := if f then block_set_free m1 a else block_set_used m1 a in
  let m' := if pf then block_set_prev_free m2 a else block_set_prev_used m2 a in
  ld64 m' (a + 8) = enc (Blk s f pf p) /\ forall x, x < a + 8 \/ a + 16 <= x -> m' x = m x.
Proof.
  intros Hs m1 m2 m'. destruct (block_set_size_raw m a s p Hs) as (f0 & pf0 & E1).
  set (i0 := Blk s f0 pf0 p) in *.
  assert (ld64 m1 (a + 8) = enc i0) as L1 by (unfold m1; rewrite E1; by apply ld64_st64_same, enc_range).
  set (i1 := Blk s f pf0 p).
  assert (m2 = st64 m1 (a + 8) (enc i1)) as E2.
  { unfold m2. destruct f; [by rewrite (block_set_free_enc m1 a i0)|by rewrite (block_set_used_enc m1 a i0)]. }
  assert (ld64 m2 (a + 8) = enc i1) as L2 by (rewrite E2; by apply ld64_st64_same, enc_range).
  assert (m' = st64 m2 (a + 8) (enc (Blk s f pf p))) as E3.
  { unfold m'. destruct pf; [by rewrite (block_set_prev_free_enc m2 a i1)|by rewrite (block_set_prev_used_enc m2 a i1)]. }
  rewrite E3. split; [by apply ld64_st64_same, enc_range|].
  intros x Hx. rewrite st64_other, E2, st64_other by lia. unfold m1. rewrite E1. apply st64_other. lia.
Qed.

(** ** [tlsf_add_pool] *)

(** The bytes [lo, hi) meet neither a block of the heap nor the control structure. *)
Definition region_free (h : heap) (B : gmap Z binfo) (lo hi : Z) : Prop :=
  (forall x i, B !! x = Some i -> x + 16 + bsize i <= lo \/ hi <= x + 8) /\
  (hi <= ctl h \/ ctl h + sizeof_control <= lo).

Section add_pool.
Context (h : heap) (B : gmap Z binfo) (mem ps : Z).
Context (H : inv h B) (Hd : (8 | mem)) (Hpos : 8 < mem) (Hps : 24 <= ps < 2 ^ 32) (Hdp : (8 | ps)).
Context (Htop : mem + ps + 16 < 2 ^ 64 - 2 ^ 33) (Hreg : region_free h B mem (mem + ps + 16)).

Let a := mem - 8.
Let n := next_of a ps.
Let I := Blk ps true false (a, n).
Let J := Blk 0 false true (a, n).
Definition pool_map : gmap Z binfo := <[a := I]> (<[n := J]> B).

Lemma pool_cases x k : pool_map !! x = Some k ->
  (x = a /\ k = I) \/ (x = n /\ k = J) \/ (x <> a /\ x <> n /\ B !! x = Some k).
Proof. unfold pool_map. intros Hx. ins_cases; auto. Qed.

Lemma pool_fresh : B !! a = None /\ B !! n = None /\ n <> a.
Proof.
  destruct Hreg as [Hr _]. unfold n, next_of, a. split_and!; [..|lia];
    match goal with |- ?l = None => destruct l as [k|] eqn:E; [|done] end;
    pose proof (Hr _ _ E); pose proof (shape_size _ _ _ _ (wf_shape _ _ _ _ (inv_wf _ _ H)) E); lia.
Qed.

Lemma pool_lookup : pool_map !! a = Some I /\ pool_map !! n = Some J.
Proof.
  destruct pool_fresh as (_ & _ & Hna). unfold pool_map.
  rewrite lookup_insert_eq, lookup_insert_ne, lookup_insert_eq by done. done.
Qed.

Lemma pool_shape : shape (ctl h) pool_map.
Proof.
  pose proof (wf_shape _ _ _ _ (inv_wf _ _ H)) as Hs. destruct Hreg as [Hr Hc].
  destruct pool_fresh as (Ha & Hn & Hna). destruct pool_lookup as [La Ln].
  destruct Hd as [q Hq]. destruct Hdp as [q' Hq']. change sizeof_control with 6536 in *.
  split.
  - intros x k [[-> ->]|[[-> ->]|(_ & _ & Hx)]]%pool_cases; [..|by eapply (sh_addr _ _ Hs)];
      cbn [bsize I J]; unfold n, a, next_of; split_and!; try lia.
    + exists (q - 1). lia.
    + exists (q + q'). lia.
  - intros x k [[-> ->]|[[-> ->]|(_ & _ & Hx)]]%pool_cases; [..|by eapply (sh_size _ _ Hs)];
      cbn [bsize bfree I J]; (split; [done || by exists 0|]); [right; lia|by left].
  - intros x k [[-> ->]|[[-> ->]|(Hxa & Hxn & Hx)]]%pool_cases Hnz; [by exists J|done|].
    destruct (sh_next _ _ Hs x k Hx Hnz) as (l & Hl & El). exists l. split; [|done].
    unfold pool_map. rewrite !lookup_insert_ne by congruence. done.
  - intros x k x' k' Hx Hx' Hlt.
    destruct (pool_cases _ _ Hx) as [[-> ->]|[[-> ->]|(_ & _ & Hxb)]],
      (pool_cases _ _ Hx') as [[-> ->]|[[-> ->]|(_ & _ & Hxb')]]; try lia;
      [..|by apply (sh_sep _ _ Hs x k x' k')];
      repeat match goal with
      | Hb : B !! _ = Some _ |- _ =>
          pose proof (Hr _ _ Hb); pose proof (proj1 (shape_size _ _ _ _ Hs Hb)); clear Hb
      end; cbn [bsize I J] in *; unfold n, a, next_of in *; lia.
  - intros x k [[-> ->]|[[-> ->]|(_ & _ & Hx)]]%pool_cases Hnz; [|done|by eapply (sh_pool _ _ Hs)].
    cbn [bsize bpool fst snd I]. unfold n, next_of. lia.
  - intros x k [[-> ->]|[[-> ->]|(_ & _ & Hx)]]%pool_cases; [..|by eapply (sh_ctl _ _ Hs)];
      cbn [bsize I J]; change sizeof_control with 6536; unfold n, a, next_of in *; lia.
  - apply (sh_c _ _ Hs).
Qed.

Lemma pool_flags : flags_ok [] pool_map.
Proof.
  destruct pool_fresh as (Ha & Hn & Hna). destruct pool_lookup as [La Ln]. destruct Hreg as [Hr _].
  pose proof (wf_shape _ _ _ _ (inv_wf _ _ H)) as Hs.
  intros x k Hx Hnil. destruct (pool_cases _ _ Hx) as [[-> ->]|[[-> ->]|(Hxa & Hxn & Hx')]]; cbn [bpfree I J].
  - split; [done|]. intros (p & l & [[-> ->]|[[-> ->]|(_ & _ & Hp)]]%pool_cases & Hf & E); [|done|].
    + by destruct Hna.
    + pose proof (wf_free_size _ _ _ _ _ _ (inv_wf _ _ H) Hp Hf) as Hnz.
      destruct (sh_next _ _ Hs p l Hp Hnz) as (? & ? & _). congruence.
  - split; [intros _|done]. by exists a, I.
  - rewrite (inv_flags _ _ H x k Hx' Hnil).
    split; apply pred_free_mono; intros p l Hp Hf E.
    + exists l. unfold pool_map. rewrite !lookup_insert_ne by congruence. done.
    + apply pool_cases in Hp as [[-> ->]|[[-> ->]|(_ & _ & Hp)]]; [|done|by eauto].
      by destruct Hxn.
Qed.

(** Memory outside the pool is written only at the links of listed blocks. *)
Lemma pool_insert_lists m1 :
  ld64 m1 (a + 8) = enc I -> (forall x, x < a + 8 \/ a + 16 <= x -> m1 x = hmem h x) ->
  let h2 := block_insert (set_mem h m1) a in
  (exists L, lists_ok h2 (F_add (free_map B) a ps) L) /\ ctl h2 = ctl h /\
  (forall x k lo hi, pool_map !! x = Some k -> x + 8 <= lo -> hi <= x + 16 + bsize k ->
     (bfree k = false \/ hi <= x + 16 \/ x + 32 <= lo) -> same_on lo hi m1 (hmem h2)).
Proof.
  intros L1 O1 h2. pose proof (inv_wf _ _ H) as Hw. destruct (wf_lists _ _ _ _ Hw) as [L HL].
  pose proof (wf_shape _ _ _ _ Hw) as Hs. destruct pool_fresh as (Ha & Hn & Hna).
  destruct pool_lookup as [La Ln]. destruct Hreg as [Hr Hc]. change sizeof_control with 6536 in *.
  assert (size_ok ps) as Hok by (split; [pow2; lia|done]).
  assert (lists_ok (set_mem h m1) (free_map B) L) as HL1.
  { apply lists_ok_frame; [done|]. intros b [sb Hb] x Hx. apply O1.
    destruct (wf_listed _ _ _ _ Hw b sb Hb) as (k & Hk & Hkf & _).
    pose proof (Hr _ _ Hk). pose proof (wf_free_size _ _ _ _ _ _ Hw Hk Hkf).
    pose proof (shape_size _ _ _ _ Hs Hk). unfold a. lia. }
  unfold h2, block_insert. rewrite (block_size_enc (hmem (set_mem h m1)) a I Hok L1). cbn [bsize I].
  destruct (mapping_insert ps) as [fl sl] eqn:Em.
  assert (forall y, y = a \/ node (set_mem h m1) (free_map B) y ->
    y = ctl h \/ exists i, pool_map !! y = Some i /\ bfree i = true) as Hnodes.
  { intros y [->|[->|[sy Hy]]]; [right; by exists I|by left|right].
    destruct (wf_listed _ _ _ _ Hw y sy Hy) as (k & Hk & Hkf & _). exists k.
    unfold pool_map. rewrite !lookup_insert_ne by congruence. done. }
  destruct (insert_free_block_ok (set_mem h m1) (free_map B) L HL1 a ps fl sl) as [HL2 Ho].
  - unfold free_map. by rewrite Ha.
  - cbn. unfold a. lia.
  - lia.
  - done.
  - intros x y Hx Hy Hne.
    destruct (Hnodes x Hx) as [->|(k & Hk & Hkf)], (Hnodes y Hy) as [->|(l & Hl & Hlf)]; [done|..];
      repeat match goal with
      | Hb : pool_map !! ?z = Some ?k, Hf : bfree ?k = true |- _ =>
          pose proof (sh_ctl _ _ pool_shape _ _ Hb);
          destruct (sh_size _ _ pool_shape _ _ Hb) as [_ [[_ ?]|?]]; [congruence|clear Hf]
      end; change sizeof_control with 6536 in *; try lia.
    pose proof (shape_footprint _ _ _ _ _ _ pool_shape Hk Hl Hne). lia.
  - unfold a. lia.
  - split; [by eexists|]. split; [apply Ho|].
    intros x k lo hi Hx Hlo Hhi Hor.
    by apply (links_only_same (set_mem h m1) pool_map _ _ x k lo hi pool_shape Hnodes Ho).
Qed.
Lemma tlsf_add_pool_eq bytes m1 h2 :
  16 <= bytes < 2 ^ 64 -> align_down (bytes - 16) 8 = ps ->
  m1 = block_set_prev_used (block_set_free (block_set_size (hmem h) a ps) a) a ->
  h2 = block_insert (set_mem h m1) a -> ld64 (hmem h2) (a + 8) = enc I ->
  tlsf_add_pool h mem bytes =
    (set_mem h2 (block_set_prev_free (block_set_used (block_set_size (st64 (hmem h2) n a) n 0) n) n), mem).
Proof.
  intros Hb Ep -> -> L2. unfold tlsf_add_pool. change tlsf_pool_overhead with 16. change ALIGN_SIZE with 8.
  change block_header_overhead with 8. rewrite (uw_small 64 (bytes - 16)) by lia. rewrite Ep.
  assert (c_true (Z.rem (sw 64 mem) 8) = false) as ->.
  { unfold c_true, sw. rewrite uw_small by lia. destruct Hd as [q Hq]. case_if.
    - by rewrite Hq, Z.rem_mul by lia.
    - replace (mem - 2 ^ 64) with ((q - 2305843009213693952) * 8) by (pow2; lia). by rewrite Z.rem_mul by lia. }
  change block_size_min with 24. change block_size_max with (2 ^ 32). case_if; [lia|].
  assert (offset_to_block mem (u64 (Z.opp 8)) = a) as ->.
  { unfold offset_to_block. rewrite uw_add_r by lia. rewrite uw_small by (pow2; lia). unfold a. lia. }
  set (h2 := block_insert _ a) in *.
  unfold block_link_next. rewrite (block_next_enc _ a I).
  - unfold prev_phys_block. cbn [bsize I]. fold n. done.
  - split; [cbn; pow2; lia|done].
  - done.
  - unfold a. lia.
  - cbn. lia.
  - cbn. unfold a. pow2. lia.
Qed.

Lemma tlsf_add_pool_inv bytes :
  16 <= bytes < 2 ^ 64 -> align_down (bytes - 16) 8 = ps ->
  let h' := (tlsf_add_pool h mem bytes).1 in
  (tlsf_add_pool h mem bytes).2 = mem /\ inv h' pool_map /\ kept [] h B h' pool_map.
Proof.
  intros Hb Ep. pose proof pool_shape as Hs'. destruct pool_fresh as (Ha & Hn & Hna).
  destruct pool_lookup as [La Ln]. pose proof (inv_wf _ _ H) as Hw. destruct Hreg as [Hr Hc].
  destruct (init_header (hmem h) a ps true false (a, n)) as [L1 O1]; [split; [pow2; lia|done]|].
  cbn [fst snd] in *. set (m1 := block_set_prev_used _ a) in *.
  destruct (pool_insert_lists m1 L1 O1) as ([L HL] & Hc2 & O2). set (h2 := block_insert _ a) in *.
  assert (ld64 (hmem h2) (a + 8) = enc I) as L2.
  { change (enc I) with (enc (Blk ps true false (a, n))). rewrite <- L1. apply ld64_ext, (O2 a I); cbn; lia || auto. }
  destruct (init_header (st64 (hmem h2) n a) n 0 false true (a, n)) as [L3 O3]; [by split; [pow2; lia|exists 0]|].
  rewrite (tlsf_add_pool_eq bytes m1 h2 Hb Ep eq_refl eq_refl L2). cbn [fst snd].
  set (m4 := block_set_prev_free _ n) in *. assert (n = a + 8 + ps) as En by done.
  assert (forall x, x < n \/ n + 16 <= x -> m4 x = hmem h2 x) as O4.
  { intros x Hx. rewrite O3, st64_other by lia. done. }
  assert (ld64 m4 n = a) as L4.
  { rewrite <- (ld64_st64_same (hmem h2) n a) by (unfold a; lia). apply ld64_ext. intros x Hx. apply O3. lia. }
  assert (forall x k, B !! x = Some k -> x <> a /\ x <> n /\ pool_map !! x = Some k) as HB.
  { intros x k Hx. unfold pool_map. rewrite !lookup_insert_ne by congruence. split_and!; congruence. }
  assert (forall x k lo hi, B !! x = Some k -> x + 8 <= lo -> hi <= x + 16 + bsize k ->
     (bfree k = false \/ hi <= x + 16 \/ x + 32 <= lo) -> same_on lo hi (hmem h) m4) as Hold.
  { intros x k lo hi Hx Hlo Hhi Hor w Hww. pose proof (Hr _ _ Hx).
    rewrite O4 by (unfold a in *; lia). destruct (HB x k Hx) as (_ & _ & Hx').
    rewrite (O2 x k lo hi Hx' Hlo Hhi Hor w Hww). apply O1. unfold a in *. lia. }
  split; [done|]. split; [split; [split|..]|].
  - cbn [ctl set_mem]. by rewrite Hc2.
  - intros x k Hx. cbn [hmem set_mem]. destruct (pool_cases _ _ Hx) as [[-> ->]|[[-> ->]|(_ & _ & Hx')]]; [|done|].
    + rewrite <- L2. apply ld64_ext. intros x Hx'. apply O4. lia.
    + rewrite <- (wf_hdrs _ _ _ _ Hw x k Hx'). apply ld64_ext.
      pose proof (shape_size _ _ _ _ Hs' Hx). apply (Hold x k); lia || auto.
  - intros x k Hx Hf _. cbn [hmem set_mem]. destruct (pool_cases _ _ Hx) as [[-> ->]|[[-> ->]|(_ & _ & Hx')]]; [done..|].
    rewrite <- (wf_feet _ _ _ _ Hw x k Hx' Hf) at 2 by apply not_elem_of_nil. apply ld64_ext. unfold next_of.
    destruct (sh_size _ _ Hs' x k Hx) as [_ [[_ ?]|?]]; [congruence|]. apply (Hold x k); lia || auto.
  - exists L. eapply lists_ok_ext; [|apply lists_ok_frame; [exact HL|]].
    + intros x. unfold F_add. unfold pool_map. rewrite !free_map_insert. repeat case_decide; try done.
      cbn. subst. unfold free_map. by rewrite Hn.
    + intros b [sb Hbs] w Hww. apply O4. unfold F_add in Hbs. case_decide; [subst b; lia|].
      destruct (wf_listed _ _ _ _ Hw b sb Hbs) as (k & Hk & Hkf & _). pose proof (Hr _ _ Hk).
      destruct (sh_size _ _ (wf_shape _ _ _ _ Hw) b k Hk) as [_ [[_ ?]|?]]; [congruence|]. unfold a in *. lia.
  - intros x sx Hx. unfold free_map in Hx. destruct (pool_map !! x) as [k|] eqn:E; [|done]. cbn in Hx.
    destruct (bfree k) eqn:Ef; [|done]. injection Hx as <-. eauto.
  - exact pool_flags.
  - intros x k Hx Hf. destruct (pool_cases _ _ Hx) as [[-> ->]|[[-> ->]|(_ & _ & Hx')]]; [done..|].
    by apply (inv_coalesced _ _ H x k).
  - apply kept_intro; [done|..].
    + intros x _. unfold pool_map. destruct (decide (x = a)) as [->|].
      { rewrite !used_free; [done|..]; intros k Hk; [congruence|]. rewrite lookup_insert_eq in Hk. by simplify_eq. }
      rewrite used_insert by done. destruct (decide (x = n)) as [->|]; [|by apply used_insert].
      unfold used. rewrite lookup_insert_eq, Hn. done.
    + intros x k _ Hx Hkf Hks. apply (Hold x k); lia || auto.
Qed.
End add_pool.
