(* ===== verification/TlsfCheck.v ===== *)
(** TLSF, part 11: the consistency checks [tlsf_check] and [tlsf_check_pool]
    terminate and report no error on every heap that satisfies the invariant. *)
From S2P Require Import Prelude Memory TlsfBits Tlsf TlsfHdr TlsfList TlsfInv TlsfOps TlsfLoose TlsfSearch TlsfSpec.
From S2P Require Import TlsfPool.

(** What the checks look at, for a free block. *)
Lemma inv_free_block h B a i : inv h B -> B !! a = Some i -> bfree i = true ->
  block_is_free (hmem h) a = true /\ block_is_prev_free (hmem h) a = false /\
  block_is_free (hmem h) (block_next (hmem h) a) = false /\
  block_is_prev_free (hmem h) (block_next (hmem h) a) = true /\
  block_size (hmem h) a = bsize i /\ 24 <= bsize i < 2 ^ 32 /\ a <> ctl h.
Proof.
  intros H Ha Hf. pose proof (inv_wf _ _ H) as Hw. pose proof (wf_shape _ _ _ _ Hw) as Hs.
  pose proof (wf_size _ _ _ _ _ _ Hw Ha) as Hok. pose proof (wf_hdrs _ _ _ _ Hw _ _ Ha) as Hh.
  pose proof (wf_free_size _ _ _ _ _ _ Hw Ha Hf) as Hnz.
  destruct (sh_addr _ _ Hs a i Ha) as (A1 & _ & A2). destruct (shape_size _ _ _ _ Hs Ha) as (A3 & _ & A4).
  destruct (sh_next _ _ Hs a i Ha Hnz) as (j & Hj & _).
  rewrite (block_next_enc _ a i) by (done || lia).
  pose proof (wf_size _ _ _ _ _ _ Hw Hj) as Hokj. pose proof (wf_hdrs _ _ _ _ Hw _ _ Hj) as Hhj.
  rewrite (block_is_free_enc _ a i), (block_is_prev_free_enc _ a i), (block_size_enc _ a i) by done.
  rewrite (block_is_free_enc _ _ j), (block_is_prev_free_enc _ _ j) by done.
  assert (bpfree j = true) as Hp.
  { apply (inv_flags _ _ H _ _ Hj); [apply not_elem_of_nil|]. by apply (pred_free_next _ _ _ _ Hs Ha). }
  split_and!; try done; try lia.
  - by apply (inv_coalesced _ _ H a i).
  - destruct (bfree j) eqn:E; [|done]. by rewrite (inv_coalesced _ _ H _ _ Hj E) in Hp.
  - pose proof (sh_ctl _ _ Hs a i Ha). change sizeof_control with 6536 in *. lia.
Qed.

Lemma tlsf_check_list_ok h B p l fi sl fuel : inv h B -> class_valid (fi, sl) ->
  dlseg (hmem h) (ctl h) p l ->
  (forall b, b ∈ l -> exists i, B !! b = Some i /\ bfree i = true /\ mapping_insert (bsize i) = (fi, sl)) ->
  (length l < fuel)%nat ->
  tlsf_check_list fuel h fi sl (hd (ctl h) l) 0 = Some 0.
Proof.
  intros H Hv. revert p fuel. induction l as [|b l IH]; intros p fuel Hd Hl Hlen;
    (destruct fuel as [|fuel]; [cbn in Hlen; lia|]); cbn [tlsf_check_list hd].
  { by rewrite Z.eqb_refl. }
  destruct Hd as (_ & Hn & Hd). destruct (Hl b) as (i & Hi & Hf & Hm); [apply list_elem_of_here|].
  destruct (inv_free_block h B b i H Hi Hf) as (-> & -> & -> & -> & -> & Hsz & Hc).
  rewrite Hm. change block_size_min with 24. unfold insist, next_free. cbn [negb].
  assert ((24 <=? bsize i) = true) as -> by lia. assert ((b =? ctl h) = false) as -> by lia.
  rewrite !Z.eqb_refl. cbn [andb].
  rewrite Hn. apply (IH b); [done| |cbn in Hlen; lia].
  intros b' Hb'. apply Hl. by apply list_elem_of_further.
Qed.

Lemma c_true_bit x i : 0 <= i < 32 -> c_true (x .& u32 (1 .<< i)) = Z.testbit x i.
Proof.
  intros Hi. rewrite uw_bit by lia. rewrite <- c_true_land_bit, shiftl_pow2, Z.mul_1_l by lia. done.
Qed.

Lemma tlsf_check_class_ok h B L fi sl fuel : inv h B -> lists_ok h (free_map B) L ->
  class_valid (fi, sl) -> (length (L fi sl) < fuel)%nat ->
  tlsf_check_class fuel h fi sl 0 = Some 0.
Proof.
  intros H HL Hv Hlen. pose proof Hv as [Hf Hs]%class_valid_elim. unfold tlsf_check_class.
  rewrite !c_true_bit by lia. rewrite (lo_head _ _ _ HL) by done.
  rewrite (lo_fl_bit _ _ _ HL) by lia. rewrite (lo_sl_bit _ _ _ HL) by done.
  case_bool_decide as Hne; cbn [negb].
  - assert (sl_get h fi <> 0) as Hz.
    { apply (testbit_true_nonzero _ sl). rewrite (lo_sl_bit _ _ _ HL) by done. by apply bool_decide_eq_true. }
    unfold c_true. assert ((sl_get h fi =? 0) = false) as -> by lia. cbn [negb insist].
    assert ((hd (ctl h) (L fi sl) =? ctl h) = false) as ->.
    { pose proof (list_nodup_ctl _ _ _ _ _ HL Hv) as D. apply Z.eqb_neq. intros E.
      destruct (L fi sl); [done|]. cbn in E. subst. apply NoDup_cons in D as [D _].
      apply D. rewrite elem_of_cons. by left. }
    cbn [negb]. eapply tlsf_check_list_ok; [done..|by apply (lo_dl _ _ _ HL)| |done].
    intros b Hb. apply (lo_mem _ _ _ HL) in Hb as (s & Hs' & Hm); [|done].
    destruct (wf_listed _ _ _ _ (inv_wf _ _ H) b s Hs') as (i & ? & ? & <-). eauto.
  - assert (L fi sl = []) as -> by (destruct (L fi sl); [done|by destruct Hne]).
    cbn [hd]. rewrite Z.eqb_refl. by destruct (negb _).
Qed.

Lemma nodup_keys_length (B : gmap Z binfo) (l : list Z) :
  NoDup l -> (forall b, b ∈ l -> is_Some (B !! b)) -> (length l <= size B)%nat.
Proof.
  intros Hd Hl. rewrite <- size_dom. unfold size, set_size. cbn.
  apply submseteq_length. apply NoDup_submseteq; [done|].
  intros b Hb. apply elem_of_elements, elem_of_dom. by apply Hl.
Qed.

Lemma foldl_fixed {A S} (f : S -> A -> S) (s : S) (l : list A) :
  (forall x, x ∈ l -> f s x = s) -> foldl f s l = s.
Proof.
  induction l as [|x l IH]; intros H; [done|]. cbn. rewrite (H x) by apply list_elem_of_here.
  apply IH. intros y Hy. apply H. by apply list_elem_of_further.
Qed.

Lemma tlsf_check_ok h B fuel : inv h B -> (size B < fuel)%nat -> tlsf_check fuel h = Some 0.
Proof.
  intros H Hlen. pose proof (inv_wf _ _ H) as Hw. destruct (wf_lists _ _ _ _ Hw) as [L HL].
  unfold tlsf_check. apply foldl_fixed. intros i Hi%elem_of_seqZ. apply foldl_fixed. intros j Hj%elem_of_seqZ.
  change FL_INDEX_COUNT with 25 in Hi. change SL_INDEX_COUNT with 32 in Hj. cbn [mbind option_bind].
  assert (class_valid (i, j)) as Hv by (apply class_valid_intro; lia).
  eapply tlsf_check_class_ok; [done..|]. eapply Nat.le_lt_trans; [|done].
  apply nodup_keys_length; [by apply (lo_nodup _ _ _ HL)|].
  intros b (s & Hs & _)%(lo_mem _ _ _ HL); [|done].
  destruct (wf_listed _ _ _ _ Hw b s Hs) as (k & -> & _). done.
Qed.

(** ** [tlsf_check_pool] *)

(** The walk from a block to the end of its pool. *)
Lemma walk_integrity h B fuel : inv h B -> forall a i ps,
  B !! a = Some i -> ps = Z.b2z (bpfree i) -> (bpool i).2 - a < 32 * Z.of_nat fuel ->
  (bsize i = 0 -> (0 < fuel)%nat) ->
  exists ps', walk_blocks fuel (hmem h) integrity_walker a (Integ ps 0) = Some (Integ ps' 0).
Proof.
  intros H. pose proof (inv_wf _ _ H) as Hw. pose proof (wf_shape _ _ _ _ Hw) as Hs.
  induction fuel as [|fuel IH]; intros a i ps Ha Hps Hfuel H0.
  { destruct (decide (bsize i = 0)) as [E|Hnz]; [specialize (H0 E); lia|].
    destruct (sh_pool _ _ Hs a i Ha Hnz) as (_ & ? & _). pose proof (shape_size _ _ _ _ Hs Ha). unfold next_of in *. lia. }
  pose proof (wf_size _ _ _ _ _ _ Hw Ha) as Hok. pose proof (wf_hdrs _ _ _ _ Hw _ _ Ha) as Hh.
  destruct (sh_addr _ _ Hs a i Ha) as (A1 & _ & A2). destruct (shape_size _ _ _ _ Hs Ha) as (A3 & _ & A4).
  cbn [walk_blocks]. unfold block_is_last. rewrite (block_size_enc _ a i) by done.
  unfold c_true. assert ((a =? 0) = false) as -> by lia. cbn [negb andb].
  destruct (bsize i =? 0) eqn:Ez; cbn [negb]; [by eexists|].
  rewrite (block_next_enc _ a i) by (done || lia).
  destruct (sh_next _ _ Hs a i Ha ltac:(lia)) as (j & Hj & Ej).
  assert (integrity_walker (hmem h) (block_to_ptr a) (bsize i) (negb (block_is_free (hmem h) a)) (Integ ps 0)
          = Integ (Z.b2z (bpfree j)) 0) as ->.
  { unfold integrity_walker.
    assert (block_from_ptr (block_to_ptr a) = a) as ->.
    { unfold block_to_ptr. change block_start_offset with 16. rewrite uw_small by lia. apply block_from_ptr_ok; lia. }
    rewrite (block_is_free_enc _ a i), (block_is_prev_free_enc _ a i), (block_size_enc _ a i) by done.
    rewrite Z.eqb_refl. cbn [prev_status status insist].
    assert ((ps =? (if bpfree i then 1 else 0)) = true) as -> by (subst ps; by destruct (bpfree i)).
    assert (bpfree j = bfree i) as ->; [|by destruct (bfree i)].
    pose proof (inv_flags _ _ H _ _ Hj (not_elem_of_nil _)) as Hf.
    rewrite (pred_free_next _ _ _ _ Hs Ha) in Hf. destruct (bpfree j), (bfree i); naive_solver. }
  destruct (sh_pool _ _ Hs a i Ha ltac:(lia)) as (_ & P2 & _).
  apply (IH _ j); [done|done|rewrite Ej; unfold next_of in *; lia|]. intros _.
  destruct fuel; [unfold next_of in *; lia|lia].
Qed.

Lemma tlsf_check_pool_ok h B a i fuel : inv h B -> B !! a = Some i -> bsize i <> 0 -> (bpool i).1 = a ->
  (bpool i).2 - a < 32 * Z.of_nat fuel -> tlsf_check_pool fuel (hmem h) (a + 8) = Some 0.
Proof.
  intros H Ha Hnz Hp Hf. pose proof (wf_shape _ _ _ _ (inv_wf _ _ H)) as Hs.
  destruct (sh_addr _ _ Hs a i Ha) as (A1 & _ & A2). destruct (shape_size _ _ _ _ Hs Ha) as (A3 & _ & A4).
  unfold tlsf_check_pool, tlsf_walk_pool. cbn [default from_option id].
  assert (offset_to_block (a + 8) (u64 (Z.opp block_header_overhead)) = a) as ->.
  { unfold offset_to_block. change block_header_overhead with 8. rewrite uw_add_r by lia.
    rewrite uw_small by (pow2; lia). lia. }
  assert (bpfree i = false) as Hpf.
  { destruct (bpfree i) eqn:E; [|done]. apply (inv_flags _ _ H _ _ Ha) in E; [|apply not_elem_of_nil].
    destruct E as (p & k & Hk & Hkf & En).
    pose proof (wf_free_size _ _ _ _ _ _ (inv_wf _ _ H) Hk Hkf) as Hkz.
    destruct (sh_next _ _ Hs p k Hk Hkz) as (i' & Hi' & Ep). rewrite En in Hi'. simplify_eq.
    destruct (sh_pool _ _ Hs p k Hk Hkz) as (Q1 & _). pose proof (shape_size _ _ _ _ Hs Hk).
    rewrite <- Ep in Q1. unfold next_of in *. lia. }
  destruct (walk_integrity h B fuel H a i 0 Ha) as [ps' E]; [by rewrite Hpf|done|done|].
  by rewrite E.
Qed.
