(* ===== verification/TlsfClaims.v ===== *)
(** TLSF, part 12: the allocator against its contract.

    The contract sees a heap as a partial map from pointers to usable sizes and
    the bytes of memory.  [spec] says what each public call may do to it,
    [legal] what the caller owes.  The theorems show that the code implements
    the contract step by step, and hence along every legal sequence of calls;
    then come the facts the contract does not mention: when a request is
    refused, what the consistency checks return, and the inputs on which the
    code departs from the contract. *)
From S2P Require Import Prelude Memory TlsfBits Tlsf TlsfHdr TlsfList TlsfInv TlsfOps TlsfLoose TlsfSearch TlsfSpec.
From S2P Require Import TlsfPool TlsfCheck.

(** ** The contract *)

Inductive call :=
| CMalloc (size : Z)
| CMemalign (align size : Z)
| CFree (ptr : Z)
| CRealloc (ptr size : Z)
| CStore (ptr off v : Z). (* the client writes a byte of its block *)

Definition exec (h : heap) (c : call) : heap * Z :=
  match c with
  | CMalloc size => tlsf_malloc h size
  | CMemalign align size => tlsf_memalign h align size
  | CFree ptr => (tlsf_free h ptr, 0)
  | CRealloc ptr size => tlsf_realloc h ptr size
  | CStore ptr off v => (set_mem h (st8 (hmem h) (ptr + off) v), 0)
  end.

(** Usable size of each live pointer, and the bytes of memory. *)
Record view := View { live : Z -> option Z; bytes : memory }.

(** Pointers outside [T] keep their size and contents. *)
Definition frame (T : list Z) (v v' : view) : Prop :=
  (forall q, q ∉ T -> live v' q = live v q) /\
  (forall q s, q ∉ T -> live v q = Some s -> same_on q (q + s) (bytes v) (bytes v')).

(** [p] is live with at least [size] bytes, apart from every other live block. *)
Definition gives (v : view) (p size : Z) : Prop :=
  p <> 0 /\ (8 | p) /\ exists s, live v p = Some s /\ size <= s /\
    forall q t, live v q = Some t -> q <> p -> p + s <= q \/ q + t <= p.

Definition refused (v : view) (r : Z) (v' : view) : Prop := r = 0 /\ frame [] v v'.

Definition spec_alloc (align size : Z) (v : view) (r : Z) (v' : view) : Prop :=
  refused v r v' \/ (gives v' r size /\ (align | r) /\ live v r = None /\ frame [r] v v').

Definition spec_free (ptr : Z) (v v' : view) : Prop :=
  if ptr =? 0 then frame [] v v' else live v' ptr = None /\ frame [ptr] v v'.

Definition spec_realloc (ptr size : Z) (v : view) (r : Z) (v' : view) : Prop :=
  refused v r v' \/
  (gives v' r size /\ frame [ptr; r] v v' /\
   (r = ptr \/ live v r = None /\ live v' ptr = None) /\
   exists s, live v ptr = Some s /\
     forall k, 0 <= k < Z.min s size -> bytes v' (r + k) = bytes v (ptr + k)).

Definition spec (c : call) (v : view) (r : Z) (v' : view) : Prop :=
  match c with
  | CMalloc size => spec_alloc 8 size v r v'
  | CMemalign align size => spec_alloc align size v r v'
  | CFree ptr => spec_free ptr v v'
  | CRealloc ptr size =>
      if ptr =? 0 then spec_alloc 8 size v r v'
      else if size =? 0 then r = 0 /\ spec_free ptr v v'
      else spec_realloc ptr size v r v'
  | CStore ptr off x =>
      live v' ptr = live v ptr /\ frame [ptr] v v' /\ bytes v' = st8 (bytes v) (ptr + off) x
  end.

(** What the caller owes: live pointers, sizes that do not wrap around, a power
    of two as alignment, and, when it resizes, a size the allocator can round up. *)
Definition legal (v : view) (c : call) : Prop :=
  match c with
  | CMalloc size => 0 <= size < 2 ^ 64 - 7
  | CMemalign align size => (exists k, 0 <= k <= 62 /\ align = 2 ^ k) /\ 0 <= size < 2 ^ 64 - 7
  | CFree ptr => ptr = 0 \/ is_Some (live v ptr)
  | CRealloc ptr size =>
      0 <= size < 2 ^ 64 - 7 /\
      (ptr = 0 \/ is_Some (live v ptr) /\ (size = 0 \/ adjust_request_size size ALIGN_SIZE <> 0))
  | CStore ptr off _ => exists s, live v ptr = Some s /\ 0 <= off < s
  end.

Definition view_of (h : heap) (B : gmap Z binfo) : view := View (fun p => used B (p - 16)) (hmem h).

(** The heaps a client can produce, with what it knows is live: it starts from a
    created heap and makes legal calls; what a call made live is read back from
    the result and [tlsf_block_size]. *)
Definition track (A : Z -> option Z) (c : call) (r : Z) (h' : heap) : Z -> option Z :=
  let give A p := if p =? 0 then A else F_add A p (tlsf_block_size h' p) in
  match c with
  | CMalloc _ | CMemalign _ _ => give A r
  | CFree ptr => F_del A ptr
  | CRealloc ptr size =>
      if ptr =? 0 then give A r
      else if size =? 0 then F_del A ptr
      else if r =? 0 then A else give (F_del A ptr) r
  | CStore _ _ _ => A
  end.

Inductive reachable : heap -> (Z -> option Z) -> Prop :=
| reach_create mem bytes m h :
    tlsf_create_with_pool mem bytes m = Some h ->
    0 < mem -> (8 | mem) -> tlsf_size + 40 <= bytes < tlsf_size + 16 + 2 ^ 32 ->
    mem + bytes < 2 ^ 64 - 2 ^ 33 ->
    reachable h (fun _ => None)
| reach_call h A c h' r :
    reachable h A -> legal (View A (hmem h)) c -> exec h c = (h', r) ->
    reachable h' (track A c r h').

(** ** From the heap map to the contract *)

Lemma frame_kept T T' h B h' B' : kept T h B h' B' -> (forall x, x ∈ T -> x + 16 ∈ T') ->
  frame T' (view_of h B) (view_of h' B').
Proof.
  intros (_ & Hu & Hs) HT. split; cbn [live bytes view_of].
  - intros q Hq. apply Hu. intros Hin. apply Hq. specialize (HT _ Hin). by rewrite Z.sub_add in HT.
  - intros q s Hq Hqs. assert (q - 16 ∉ T) as Hn.
    { intros Hin. apply Hq. specialize (HT _ Hin). by rewrite Z.sub_add in HT. }
    pose proof (Hs _ _ Hn Hqs) as Hsame. by rewrite Z.sub_add in Hsame.
Qed.

Lemma frame_refl T v : frame T v v.
Proof. split; [done|]. intros. apply same_on_refl. Qed.

Lemma gives_used h B a s size : inv h B -> used B a = Some s -> size <= s ->
  gives (view_of h B) (a + 16) size.
Proof.
  intros H Hu Hle. destruct (used_facts _ _ _ _ H Hu) as (A1 & A2 & _).
  split; [lia|]. split; [apply Z.divide_add_r; [done|by exists 2]|]. exists s. cbn [live view_of].
  replace (a + 16 - 16) with a by lia. split; [done|]. split; [done|].
  intros q t Hq Hne. destruct (used_disjoint h B a s (q - 16) t H Hu Hq ltac:(lia)); lia.
Qed.

Lemma singleton_shift (a x : Z) : x ∈ [a] -> x + 16 ∈ [a + 16].
Proof. rewrite !list_elem_of_singleton. congruence. Qed.

Lemma live_used h B p s : live (view_of h B) p = Some s -> exists a, p = a + 16 /\ used B a = Some s.
Proof. intros Hp. exists (p - 16). split; [lia|done]. Qed.

Lemma alloc_view h B h' p size align : inv h B ->
  (p = 0 /\ h' = h) \/
  (exists a B' s', p = a + 16 /\ inv h' B' /\ kept [a] h B h' B' /\ used B a = None /\
     used B' a = Some s' /\ size <= s' /\ (align | p)) ->
  exists B', inv h' B' /\ spec_alloc align size (view_of h B) p (view_of h' B').
Proof.
  intros H [[-> ->]|(a & B' & s' & -> & H' & K' & U & U' & Hs & Hal)].
  - exists B. split; [done|]. left. split; [done|]. apply frame_refl.
  - exists B'. split; [done|]. right. split; [by eapply gives_used|]. split; [done|]. split.
    + cbn. by replace (a + 16 - 16) with a by lia.
    + eapply frame_kept; [done|]. apply singleton_shift.
Qed.

Lemma malloc_view h B size h' p : inv h B -> 0 <= size < 2 ^ 64 - 7 -> tlsf_malloc h size = (h', p) ->
  exists B', inv h' B' /\ spec_alloc 8 size (view_of h B) p (view_of h' B').
Proof.
  intros H Hs E. apply alloc_view; [done|].
  destruct (tlsf_malloc_inv h B size h' p H Hs E) as [|(a & B' & s' & -> & H' & K' & U & U' & Hle)]; [by left|right].
  exists a, B', s'. split_and!; try done. destruct (used_facts _ _ _ _ H' U') as (_ & ? & _).
  apply Z.divide_add_r; [done|by exists 2].
Qed.

Lemma free_view h B ptr : inv h B -> ptr = 0 \/ is_Some (live (view_of h B) ptr) ->
  exists B', inv (tlsf_free h ptr) B' /\ spec_free ptr (view_of h B) (view_of (tlsf_free h ptr) B').
Proof.
  intros H [->|[s (a & -> & Hu)%live_used]].
  - exists B. split; [done|]. apply frame_refl.
  - destruct (tlsf_free_inv h B a s H Hu) as (B' & H' & K' & U'). exists B'. split; [done|].
    destruct (used_facts _ _ _ _ H Hu) as (A1 & _). unfold spec_free. case_if; [lia|]. split.
    + cbn. by replace (a + 16 - 16) with a by lia.
    + eapply frame_kept; [done|]. apply singleton_shift.
Qed.

Lemma realloc_view h B a s size h' r : inv h B -> used B a = Some s -> 0 < size < 2 ^ 64 - 7 ->
  adjust_request_size size ALIGN_SIZE <> 0 -> tlsf_realloc h (a + 16) size = (h', r) ->
  exists B', inv h' B' /\ spec_realloc (a + 16) size (view_of h B) r (view_of h' B').
Proof.
  intros H Hu Hs Hadj E.
  destruct (tlsf_realloc_inv h B a s size h' r H Hu Hs Hadj E)
    as [[-> ->]|(a' & B' & s' & -> & H' & K' & U' & Hle & Hor & Hc)].
  - exists B. split; [done|]. left. split; [done|]. apply frame_refl.
  - exists B'. split; [done|]. right. split; [by eapply gives_used|]. split; [|split].
    + eapply frame_kept; [done|]. intros x. rewrite !elem_of_cons, !elem_of_nil. intuition congruence.
    + cbn. replace (a' + 16 - 16) with a' by lia. replace (a + 16 - 16) with a by lia.
      destruct Hor as [->|?]; auto.
    + exists s. cbn. replace (a + 16 - 16) with a by lia. done.
Qed.

Lemma exec_view h B c h' r : inv h B -> legal (view_of h B) c -> exec h c = (h', r) ->
  exists B', inv h' B' /\ spec c (view_of h B) r (view_of h' B').
Proof.
  intros H Hl E. destruct c as [size|align size|ptr|ptr size|ptr off x]; cbn [exec legal spec] in *.
  - by apply malloc_view.
  - destruct Hl as [(k & Hk & ->) Hs]. apply alloc_view; [done|]. by apply (tlsf_memalign_inv h B k size).
  - injection E as <- <-. by apply free_view.
  - destruct Hl as [Hs Hp]. case_if.
    { subst ptr. apply malloc_view; [done..|]. unfold tlsf_realloc in E. done. }
    destruct Hp as [->|[Hlive Hsz]]; [done|]. case_if.
    + subst size. unfold tlsf_realloc, c_true in E. rewrite Z.eqb_refl in E.
      assert ((ptr =? 0) = false) as Ez by lia. rewrite Ez in E. cbn in E. injection E as <- <-.
      destruct (free_view h B ptr H (or_intror Hlive)) as (B' & H' & Hsp). by exists B'.
    + destruct Hlive as [s (a & -> & Hu)%live_used]. destruct Hsz as [->|Hadj]; [done|].
      by apply (realloc_view h B a s); [..|lia| |].
  - destruct Hl as (s & (a & -> & Hu)%live_used & Ho). injection E as <- <-. exists B.
    destruct (inv_payload h B a s (st8 (hmem h) (a + 16 + off) x) H Hu) as [H' K'].
    { intros y Hy. unfold st8. case_if; [lia|done]. }
    split; [done|]. split; [done|]. split; [|done].
    eapply frame_kept; [done|]. apply singleton_shift.
Qed.

(** ** Reachable heaps *)

Lemma create_inv mem bytes m h : tlsf_create_with_pool mem bytes m = Some h ->
  0 < mem -> (8 | mem) -> tlsf_size + 40 <= bytes < tlsf_size + 16 + 2 ^ 32 ->
  mem + bytes < 2 ^ 64 - 2 ^ 33 ->
  exists B, inv h B /\ (forall x, used B x = None) /\
    exists i, B !! (mem + tlsf_size - 8) = Some i /\ bfree i = true /\
      bytes - tlsf_size - 24 < bsize i <= bytes - tlsf_size - 16.
Proof.
  change tlsf_size with 6536. intros E Hm Hd Hb Ht. unfold tlsf_create_with_pool, tlsf_create in E.
  destruct (c_true _); [done|]. injection E as <-. change tlsf_size with 6536.
  rewrite !uw_small by (pow2; lia). set (h0 := control_construct mem m).
  set (ps := align_down (bytes - 6536 - 16) 8).
  assert (ps = bytes - 6536 - 16 - (bytes - 6536 - 16) mod 8) as Eps.
  { unfold ps. change 8 with (2 ^ 3) at 1. rewrite align_down_spec by (pow2; lia). done. }
  pose proof (Z.mod_pos_bound (bytes - 6536 - 16) 8 ltac:(lia)) as Hmod.
  assert (8 | ps) as Hdp.
  { rewrite Eps. exists ((bytes - 6536 - 16) / 8). pose proof (Z.div_mod (bytes - 6536 - 16) 8). lia. }
  assert (inv h0 ∅) as H0 by (apply control_construct_inv; [done..|change sizeof_control with 6536; lia]).
  assert (8 | mem + 6536) as Hdm by (apply Z.divide_add_r; [done|by exists 817]).
  assert (forall n, 24 <= n -> n - n mod 8 >= 24) as Hge.
  { intros n Hn. pose proof (Z.div_mod n 8 ltac:(lia)). pose proof (Z.mod_pos_bound n 8 ltac:(lia)).
    assert (3 <= n / 8) by (apply Z.div_le_lower_bound; lia). lia. }
  specialize (Hge (bytes - 6536 - 16) ltac:(lia)).
  destruct (tlsf_add_pool_inv h0 ∅ (mem + 6536) ps H0 Hdm ltac:(lia) ltac:(lia) Hdp ltac:(lia)) with (bytes := bytes - 6536)
    as (_ & H1 & K1); [|lia|done|].
  { split; [intros x i; by rewrite lookup_empty|]. right. change sizeof_control with 6536. cbn. lia. }
  eexists. split; [exact H1|]. split.
  - intros x. rewrite (used_kept _ _ _ _ _ _ K1 (not_elem_of_nil _)). done.
  - eexists. split; [unfold pool_map; by rewrite lookup_insert_eq|]. cbn. split; [done|lia].
Qed.

Lemma legal_ext v v' c : (forall p, live v p = live v' p) -> legal v c -> legal v' c.
Proof. intros E. destruct c; cbn [legal]; rewrite <- ?E; done. Qed.

Lemma tlsf_block_size_live h B p s : inv h B -> live (view_of h B) p = Some s -> tlsf_block_size h p = s.
Proof.
  intros H (a & -> & Hu)%live_used. destruct (used_facts _ _ _ _ H Hu) as (A1 & _ & A0 & _ & A2 & A3 & _).
  unfold tlsf_block_size, c_true. case_if; [|lia]. rewrite block_from_ptr_ok by lia. done.
Qed.

Section track_ok.
Context (h : heap) (B : gmap Z binfo) (h' : heap) (B' : gmap Z binfo) (A : Z -> option Z).
Context (H' : inv h' B') (HA : forall p, A p = live (view_of h B) p).

Lemma track_give p size A0 : gives (view_of h' B') p size ->
  (forall q, q <> p -> A0 q = live (view_of h' B') q) ->
  forall q, (if p =? 0 then A0 else F_add A0 p (tlsf_block_size h' p)) q = live (view_of h' B') q.
Proof.
  intros (Hp & _ & s & Hs & _) Ho q. case_if; [lia|]. unfold F_add. case_decide; [|by apply Ho].
  subst q. rewrite Hs. f_equal. by eapply tlsf_block_size_live.
Qed.

Lemma track_alloc align size r : spec_alloc align size (view_of h B) r (view_of h' B') ->
  forall q, (if r =? 0 then A else F_add A r (tlsf_block_size h' r)) q = live (view_of h' B') q.
Proof.
  intros [[-> [Hf _]]|(Hg & _ & _ & [Hf _])] q.
  - rewrite Z.eqb_refl, HA. symmetry. apply Hf, not_elem_of_nil.
  - eapply track_give; [done|]. intros q' Hq. rewrite HA. symmetry. apply Hf. by rewrite list_elem_of_singleton.
Qed.

Lemma track_free ptr : ptr = 0 \/ is_Some (live (view_of h B) ptr) ->
  (ptr = 0 -> live (view_of h B) ptr = None) ->
  spec_free ptr (view_of h B) (view_of h' B') -> forall q, F_del A ptr q = live (view_of h' B') q.
Proof.
  intros Hp H0 Hs q. unfold spec_free in Hs. unfold F_del. destruct (ptr =? 0) eqn:E.
  - destruct Hs as [Hf _]. assert (ptr = 0) as Ez by lia. specialize (H0 Ez).
    rewrite Hf by apply not_elem_of_nil. case_decide; [subst q; done|apply HA].
  - destruct Hs as [Hn [Hf _]]. case_decide; [subst q; done|]. rewrite HA. symmetry.
    apply Hf. by rewrite list_elem_of_singleton.
Qed.

Lemma track_realloc ptr size r : spec_realloc ptr size (view_of h B) r (view_of h' B') ->
  forall q, (if r =? 0 then A else if r =? 0 then F_del A ptr else F_add (F_del A ptr) r (tlsf_block_size h' r)) q
    = live (view_of h' B') q.
Proof.
  intros [[-> [Hf _]]|(Hg & [Hf _] & Hor & _)] q.
  - rewrite Z.eqb_refl, HA. symmetry. apply Hf, not_elem_of_nil.
  - pose proof Hg as [Hr _]. destruct (r =? 0) eqn:E; [lia|].
    pose proof (track_give r size (F_del A ptr) Hg) as G. rewrite E in G. apply G.
    intros q' Hq. unfold F_del. case_decide; [subst q'; destruct Hor as [->|[_ ->]]; done|].
    rewrite HA. symmetry. apply Hf. rewrite !elem_of_cons, elem_of_nil. tauto.
Qed.
End track_ok.

Lemma null_not_live h B : inv h B -> live (view_of h B) 0 = None.
Proof.
  intros H. destruct (live (view_of h B) 0) as [s|] eqn:E; [|done].
  apply live_used in E as (a & Ea & Hu). pose proof (used_facts _ _ _ _ H Hu). lia.
Qed.

Lemma track_sound h B h' B' A c r : inv h B -> inv h' B' ->
  (forall p, A p = live (view_of h B) p) -> legal (view_of h B) c ->
  spec c (view_of h B) r (view_of h' B') -> forall p, track A c r h' p = live (view_of h' B') p.
Proof.
  intros H H' HA Hl' Hs. destruct c as [size|align size|ptr|ptr size|ptr off x]; cbn [track spec legal] in *.
  - by eapply track_alloc.
  - by eapply track_alloc.
  - eapply track_free; [done..|intros ->; by apply null_not_live|done].
  - destruct (ptr =? 0) eqn:Ez; [by eapply track_alloc|]. destruct (size =? 0).
    + destruct Hs as [_ Hs]. destruct Hl' as [_ [->|[Hlive _]]]; [done|].
      eapply track_free; [done|by right|intros ->; done|done].
    + by eapply track_realloc.
  - intros p. destruct Hs as (Hp & [Hf _] & _). rewrite HA.
    destruct (decide (p = ptr)) as [->|]; [done|]. symmetry. apply Hf. by rewrite list_elem_of_singleton.
Qed.

Lemma reachable_inv h A : reachable h A ->
  exists B, inv h B /\ forall p, A p = live (view_of h B) p.
Proof.
  induction 1 as [mem bytes m h E Hm Hd Hb Ht|h A c h' r _ (B & H & HA) Hl E].
  { destruct (create_inv mem bytes m h E Hm Hd Hb Ht) as (B & H & Hu & _). exists B. split; [done|].
    intros p. cbn. by rewrite Hu. }
  assert (legal (view_of h B) c) as Hl' by (by eapply legal_ext; [|exact Hl]).
  destruct (exec_view h B c h' r H Hl' E) as (B' & H' & Hs). exists B'. split; [done|].
  by apply (track_sound h B h' B' A c r).
Qed.

(** The contract speaks of live pointers one by one. *)
Lemma frame_ext T v v' w w' : (forall p, live v p = live w p) -> (forall p, live v' p = live w' p) ->
  bytes v = bytes w -> bytes v' = bytes w' -> frame T v v' -> frame T w w'.
Proof.
  intros E E' Eb Eb' [H1 H2]. split.
  - intros q Hq. rewrite <- E, <- E'. auto.
  - intros q s Hq. rewrite <- E, <- Eb, <- Eb'. auto.
Qed.

Lemma gives_ext v w p size : (forall p, live v p = live w p) -> gives v p size -> gives w p size.
Proof.
  intros E (H0 & H8 & s & Hs & Hle & Hd). split; [done|]. split; [done|]. exists s.
  rewrite <- E. split; [done|]. split; [done|]. intros q t. rewrite <- E. auto.
Qed.

Lemma spec_ext c v r v' w w' : (forall p, live v p = live w p) -> (forall p, live v' p = live w' p) ->
  bytes v = bytes w -> bytes v' = bytes w' -> spec c v r v' -> spec c w r w'.
Proof.
  intros E E' Eb Eb'.
  assert (forall T, frame T v v' -> frame T w w') as Hf by (intros T; by apply frame_ext).
  assert (forall p size, gives v' p size -> gives w' p size) as Hg by (intros; by eapply gives_ext).
  assert (forall al size, spec_alloc al size v r v' -> spec_alloc al size w r w') as Ha.
  { intros al size [[? ?]|(? & ? & ? & ?)]; [left; split; auto|right]. rewrite <- E. auto. }
  assert (forall ptr, spec_free ptr v v' -> spec_free ptr w w') as Hfr.
  { intros ptr. unfold spec_free. case_if; [auto|]. intros [? ?]. rewrite <- E'. auto. }
  destruct c as [size|al size|ptr|ptr size|ptr off x]; cbn [spec]; auto.
  - case_if; [auto|]. case_if; [intros [? ?]; auto|].
    intros [[? ?]|(? & ? & ? & s & ? & ?)]; [left; split; auto|right].
    split; [auto|]. split; [auto|]. rewrite <- !E, <- E'. split; [done|]. exists s. rewrite <- Eb, <- Eb'. auto.
  - intros (? & ? & ?). rewrite <- E, <- E', <- Eb, <- Eb'. auto.
Qed.

(** A heap of about 10 kB, for the examples. *)
Definition demo_memory : memory := fun _ => 0.
Definition demo : heap :=
  default (control_construct 4096 demo_memory) (tlsf_create_with_pool 4096 16384 demo_memory).

Lemma demo_created : tlsf_create_with_pool 4096 16384 demo_memory = Some demo.
Proof. reflexivity. Qed.

Lemma demo_reachable : reachable demo (fun _ => None).
Proof.
  apply (reach_create 4096 16384 demo_memory demo demo_created); try lia.
  - by exists 512.
  - change tlsf_size with 6536. lia.
Qed.

Lemma demo_inv : exists B, inv demo B /\ forall p, used B p = None.
Proof.
  destruct (create_inv 4096 16384 demo_memory demo demo_created) as (B & H & Hu & _); try lia.
  - by exists 512.
  - change tlsf_size with 6536. lia.
  - eauto.
Qed.

Lemma demo_malloc : exec demo (CMalloc 100) = ((tlsf_malloc demo 100).1, 10640).
Proof.
  assert ((exec demo (CMalloc 100)).2 = 10640) as E by (vm_compute; reflexivity).
  rewrite <- E. apply surjective_pairing.
Qed.

Lemma demo_malloc_reachable :
  reachable (tlsf_malloc demo 100).1 (track (fun _ => None) (CMalloc 100) 10640 (tlsf_malloc demo 100).1).
Proof.
  apply (reach_call demo (fun _ => None) (CMalloc 100)); [exact demo_reachable|cbn; lia|exact demo_malloc].
Qed.

(** ** The theorems *)

(** C1. The allocator implements its contract along every history: from a
    created heap, after any sequence of legal calls, the next legal call returns
    either NULL with nothing changed or a fresh, aligned block that is large
    enough and overlaps no live block; releasing and resizing affect only the
    blocks named; every other live block keeps its size and its contents, and a
    resized block keeps the bytes both sizes share. *)
Theorem tlsf_contract h A c h' r :
  reachable h A -> legal (View A (hmem h)) c -> exec h c = (h', r) ->
  reachable h' (track A c r h') /\
  spec c (View A (hmem h)) r (View (track A c r h') (hmem h')).
Proof.
  intros Hr Hl E. assert (reachable h' (track A c r h')) as Hr' by by eapply reach_call.
  split; [done|]. destruct (reachable_inv h A Hr) as (B & H & HA).
  pose proof Hl as Hl'. eapply (legal_ext _ (view_of h B)) in Hl'; [|done].
  destruct (exec_view h B c h' r H Hl' E) as (B' & H' & Hs).
  apply (spec_ext c (view_of h B) r (view_of h' B')); [|..|done|done|exact Hs]; intros p; symmetry; [apply HA|].
  by apply (track_sound h B h' B' A c r).
Qed.

Lemma tlsf_contract_witness :
  let h' := (tlsf_malloc demo 100).1 in
  spec (CMalloc 100) (View (fun _ => None) (hmem demo)) 10640
    (View (track (fun _ => None) (CMalloc 100) 10640 h') (hmem h')).
Proof.
  apply (tlsf_contract demo (fun _ => None) (CMalloc 100) (tlsf_malloc demo 100).1 10640 demo_reachable).
  - cbn. lia.
  - exact demo_malloc.
Defined.

(** C23. Live blocks of a reachable heap are 8-byte aligned, at least 24 bytes
    large, inside the address space, disjoint from each other and from the
    control structure, and [tlsf_block_size] reports their size. *)
Theorem live_blocks h A p s :
  reachable h A -> A p = Some s ->
  (8 | p) /\ 24 <= s < 2 ^ 32 /\ 0 < p /\ p + s < 2 ^ 64 /\ tlsf_block_size h p = s /\
  (p + s <= ctl h \/ ctl h + sizeof_control <= p) /\
  forall q t, A q = Some t -> q <> p -> p + s <= q \/ q + t <= p.
Proof.
  intros Hr Hp. destruct (reachable_inv h A Hr) as (B & H & HA). rewrite HA in Hp.
  pose proof (tlsf_block_size_live h B p s H Hp) as Hb. apply live_used in Hp as (a & -> & Hu).
  destruct (used_facts _ _ _ _ H Hu) as (A1 & A2 & A3 & _ & A5 & _ & A7).
  destruct (gives_used h B a s s H Hu ltac:(lia)) as (_ & A8 & s' & Hs' & _ & Hd).
  cbn in Hs'. replace (a + 16 - 16) with a in Hs' by lia. simplify_eq.
  split_and!; try done; try (pow2; lia). intros q t Hq. rewrite HA in Hq. by apply Hd.
Qed.

Lemma live_blocks_witness :
  let h' := (tlsf_malloc demo 100).1 in
  tlsf_block_size h' 10640 = 104 /\ (10640 + 104 <= ctl h' \/ ctl h' + sizeof_control <= 10640).
Proof.
  destruct (live_blocks _ _ 10640 104 demo_malloc_reachable) as (_ & _ & _ & _ & Hb & Hc & _);
    [vm_compute; reflexivity|].
  split; assumption.
Defined.

(** C20. Every reachable heap is physically well formed: there is a map of its
    blocks such that the headers in memory encode it, consecutive blocks tile
    their pool, the prev-free bits and back pointers agree with it, no two free
    blocks are adjacent, the two bitmaps and the 800 doubly linked lists hold
    exactly the free blocks by size class, and the allocated blocks are exactly
    the live ones. *)
Theorem heap_invariant h A :
  reachable h A ->
  exists B, inv h B /\ forall p, A p = used B (p - 16).
Proof. intros Hr. destruct (reachable_inv h A Hr) as (B & H & HA). by exists B. Qed.

Lemma heap_invariant_witness :
  let h' := tlsf_free (tlsf_malloc demo 100).1 10640 in
  exists B, inv h' B /\ forall p,
    track (track (fun _ => None) (CMalloc 100) 10640 (tlsf_malloc demo 100).1) (CFree 10640) 0 h' p
    = used B (p - 16).
Proof.
  apply heap_invariant. apply (reach_call _ _ (CFree 10640) _ 0 demo_malloc_reachable); [|reflexivity].
  right. exists 104. vm_compute. reflexivity.
Defined.

(** C24. When a request is refused: [tlsf_malloc] returns NULL on a size it can serve
    exactly if every free block is smaller than the request rounded up to the next
    boundary of its size classes, a multiple of a 32nd of the power of two below it. *)
Theorem malloc_refusal h B size :
  inv h B -> 0 <= size < 2 ^ 64 - 7 ->
  let adjust := adjust_request_size size ALIGN_SIZE in
  adjust <> 0 ->
  (tlsf_malloc h size).2 = 0 <-> forall x i, B !! x = Some i -> bfree i = true -> bsize i < class_size adjust.
Proof.
  intros H Hs adjust Ha. unfold tlsf_malloc. fold adjust.
  destruct (adjust_malloc size Hs) as [?|(_ & _ & Hr & Hd)]; [done|]. fold adjust in Hr, Hd.
  assert (Hfit : forall x i, B !! x = Some i -> class_le (mapping_search adjust) (mapping_insert (bsize i)) <-> class_size adjust <= bsize i).
  { intros x i Hx. destruct (shape_size _ _ _ _ (wf_shape _ _ _ _ (inv_wf _ _ H)) Hx) as [Hsz _]. apply mapping_search_exact; [lia|done|lia]. }
  destruct (block_locate_free h adjust) as [h1 b] eqn:El.
  destruct (block_locate_free_ok h B adjust h1 b H Hr Hd El) as [(-> & _ & Hno)|(k & j & Hb & Hl & _ & Hsi & _ & Hj & Hjf & Hk & Hle)].
  - split; [|done]. intros _ x i Hx Hi. specialize (Hno x i Hx Hi). rewrite (Hfit x i Hx) in Hno. lia.
  - pose proof (ls_self _ _ _ _ Hl) as Hbk. apply (Hfit b k Hbk) in Hle. split; [|intros Hall; specialize (Hall b k Hbk Hk); lia].
    destruct (block_prepare_used h1 b adjust) as [h' p] eqn:Ep. cbn. intros Hn.
    destruct (block_prepare_used_ok h1 B b k j adjust h' p Hl Hr Hd Hsi Hj Hjf Ep) as [-> _].
    destruct (sh_addr _ _ (wf_shape _ _ _ _ (ls_wf _ _ _ _ Hl)) b k Hbk) as [? _]. lia.
Qed.

Lemma malloc_refusal_witness :
  exists B, inv demo B /\ forall x i, B !! x = Some i -> bfree i = true -> bsize i < class_size 10000.
Proof.
  destruct demo_inv as (B & H & _). exists B. split; [exact H|].
  apply (malloc_refusal demo B 10000 H); [lia| |]; vm_compute; [discriminate|reflexivity].
Defined.

(** The two-level bitmap search is a good fit: the block it returns heads
    the first non-empty list at or after the requested class, and it returns
    NULL exactly when all those lists are empty. *)
Theorem search_good_fit h F L fl sl b fl' sl' :
  lists_ok h F L -> class_valid (fl, sl) -> search_suitable_block h fl sl = (b, fl', sl') ->
  (b = 0 /\ forall f s, class_valid (f, s) -> class_le (fl, sl) (f, s) -> L f s = []) \/
  (class_valid (fl', sl') /\ class_le (fl, sl) (fl', sl') /\
   (exists s, F b = Some s /\ mapping_insert s = (fl', sl')) /\
   forall f s, class_valid (f, s) -> class_le (fl, sl) (f, s) -> L f s <> [] ->
     class_le (fl', sl') (f, s)).
Proof. intros HL Hv. by apply search_suitable_block_ok. Qed.

Lemma search_good_fit_witness :
  exists F L, lists_ok demo F L /\ search_suitable_block demo 0 3 = (10624, 6, 6) /\
    exists s, F 10624 = Some s /\ mapping_insert s = (6, 6).
Proof.
  destruct demo_inv as (B & H & _). destruct (wf_lists _ _ _ _ (inv_wf _ _ H)) as [L HL].
  exists (free_map B), L. split; [exact HL|].
  assert (search_suitable_block demo 0 3 = (10624, 6, 6)) as E by (vm_compute; reflexivity). split; [exact E|].
  destruct (search_good_fit demo (free_map B) L 0 3 10624 6 6 HL) as [[Hn _]|(_ & _ & Hs & _)];
    [vm_compute; repeat split; discriminate|exact E|discriminate Hn|exact Hs].
Defined.

(** [tlsf_create_with_pool] sets up a heap with nothing allocated and one
    free block that holds the whole region but the control structure, two
    words of overhead and at most 7 bytes of rounding. *)
Theorem create_with_pool_ok mem bytes m h :
  tlsf_create_with_pool mem bytes m = Some h ->
  0 < mem -> (8 | mem) -> tlsf_size + 40 <= bytes < tlsf_size + 16 + 2 ^ 32 ->
  mem + bytes < 2 ^ 64 - 2 ^ 33 ->
  exists B, inv h B /\ (forall x, used B x = None) /\
    exists i, B !! (mem + tlsf_size - 8) = Some i /\ bfree i = true /\
      bytes - tlsf_size - 24 < bsize i <= bytes - tlsf_size - 16.
Proof. apply create_inv. Qed.

Lemma create_with_pool_ok_witness :
  exists B i, inv demo B /\ B !! (4096 + tlsf_size - 8) = Some i /\ bfree i = true.
Proof.
  destruct (create_with_pool_ok 4096 16384 demo_memory demo demo_created) as (B & H & _ & i & Hi & Hf & _);
    [lia|by exists 512|change tlsf_size with 6536; lia|lia|].
  exists B, i. split; [exact H|]. split; [exact Hi|exact Hf].
Defined.

(** C35. On a well-formed heap both consistency checks end and find no error:
    the loops of [tlsf_check] over the free lists and the walk of
    [tlsf_check_pool] over a pool run to completion, with a number of rounds
    bounded by the number of blocks and by the pool's length, and return 0. *)
Theorem checks_pass h B a i fuel :
  inv h B -> (size B < fuel)%nat ->
  B !! a = Some i -> bsize i <> 0 -> (bpool i).1 = a -> (bpool i).2 - a < 32 * Z.of_nat fuel ->
  tlsf_check fuel h = Some 0 /\ tlsf_check_pool fuel (hmem h) (a + 8) = Some 0.
Proof.
  intros H Hf Ha Hnz Hp Hl. split; [by eapply tlsf_check_ok|by eapply tlsf_check_pool_ok].
Qed.

Lemma checks_pass_witness : exists fuel,
  tlsf_check fuel demo = Some 0 /\ tlsf_check_pool fuel (hmem demo) 10632 = Some 0.
Proof.
  destruct (tlsf_add_pool_inv (control_construct 4096 demo_memory) ∅ 10632 9832) with (bytes := 9848)
    as (_ & H & _); try lia.
  - apply control_construct_inv; [lia|by exists 512|vm_compute; reflexivity].
  - by exists 1329.
  - by exists 1229.
  - split; [intros x j; by rewrite lookup_empty|]. right. vm_compute. discriminate.
  - reflexivity.
  - exists 1000%nat. apply (checks_pass demo _ 10624 (Blk 9832 true false (10624, 20464)) 1000 H);
      [vm_compute; lia|reflexivity|discriminate|reflexivity|vm_compute; reflexivity].
Defined.

(** C36. Size classes: every size below 4 GiB has a class inside the 25 by 32
    tables and is at least the minimum of that class, larger sizes are in later
    classes, and a search starts at a class all of whose blocks are large enough. *)
Theorem size_classes size :
  0 < size < 2 ^ 32 ->
  class_valid (mapping_insert size) /\ class_min (mapping_insert size) <= size /\
  (forall size', size <= size' < 2 ^ 32 -> class_le (mapping_insert size) (mapping_insert size')) /\
  ((8 | size) -> class_valid (mapping_search size) ->
   forall size', 0 <= size' < 2 ^ 32 -> class_le (mapping_search size) (mapping_insert size') -> size <= size').
Proof.
  intros Hs. destruct (mapping_insert_valid size ltac:(lia)) as [Hv Hm].
  split; [done|]. split; [done|]. split.
  - intros size' Hs'. apply mapping_insert_mono; [lia|pow2; lia].
  - intros Hd Hv' size' Hs' Hle. destruct (mapping_insert_valid size' Hs') as [Hv2 Hm2].
    pose proof (mapping_search_min size Hs Hd Hv'). pose proof (class_min_mono _ _ Hv' Hv2 Hle). lia.
Qed.

Lemma size_classes_witness : class_le (mapping_insert 1000) (mapping_insert 5000) /\ 1000 <= 1024.
Proof.
  destruct (size_classes 1000) as (_ & _ & H1 & H2); [lia|]. split; [apply H1; lia|].
  refine (H2 _ _ 1024 _ _); [by exists 125|vm_compute; repeat split; discriminate|lia|].
  vm_compute. left. reflexivity.
Defined.

(** The portable bit scans are exact: [tlsf_ffs] is the index of the lowest
    set bit of a 32-bit word, [tlsf_fls] and [tlsf_fls_sizet] the index of the
    highest set bit of a 32-bit and of a 64-bit word, and 0 has none. *)
Theorem bit_scans x :
  0 <= x < 2 ^ 64 ->
  (x = 0 -> tlsf_ffs x = -1 /\ tlsf_fls x = -1 /\ tlsf_fls_sizet x = -1) /\
  (0 < x -> tlsf_fls_sizet x = Z.log2 x) /\
  (0 < x < 2 ^ 32 -> tlsf_fls x = Z.log2 x /\ Z.testbit x (tlsf_ffs x) = true /\
     forall i, i < tlsf_ffs x -> Z.testbit x i = false).
Proof.
  intros Hx. split; [intros ->; by vm_compute|]. split.
  - intros Hp. apply tlsf_fls_sizet_spec. lia.
  - intros Hp. rewrite tlsf_ffs_spec, tlsf_fls_spec by lia. split; [done|].
    split; [apply ctz_testbit; lia|]. intros i Hi. apply ctz_below; lia.
Qed.

Lemma bit_scans_witness : tlsf_fls_sizet (2 ^ 40 + 12) = 40 /\ tlsf_ffs 40 = 3.
Proof.
  split; [|vm_compute; reflexivity].
  destruct (bit_scans (2 ^ 40 + 12)) as (_ & H & _); [vm_compute; split; [discriminate|reflexivity]|].
  rewrite H; reflexivity.
Defined.

(** ** Where the code leaves the contract *)

(** Requests within 7 bytes of SIZE_MAX wrap around in the rounding and are
    served as if one byte had been asked for: the caller gets a 24-byte block. *)
Theorem malloc_wraps h size :
  2 ^ 64 - 7 <= size < 2 ^ 64 -> tlsf_malloc h size = tlsf_malloc h 1.
Proof.
  intros Hs. unfold tlsf_malloc.
  assert (adjust_request_size size ALIGN_SIZE = adjust_request_size 1 ALIGN_SIZE) as ->; [|done].
  assert (exists k, 0 <= k < 7 /\ size = 2 ^ 64 - 7 + k) as (k & Hk & ->) by (exists (size - (2 ^ 64 - 7)); lia).
  assert (k = 0 \/ k = 1 \/ k = 2 \/ k = 3 \/ k = 4 \/ k = 5 \/ k = 6) as Hc by lia.
  by destruct_or! Hc; subst k; vm_compute.
Qed.

Lemma malloc_wraps_witness :
  (tlsf_malloc demo (2 ^ 64 - 1)).2 = 10640 /\
  tlsf_block_size (tlsf_malloc demo (2 ^ 64 - 1)).1 10640 = 24.
Proof. rewrite malloc_wraps by lia. by vm_compute. Defined.

(** A resize beyond 4 GiB, which no block can satisfy, reports success: the
    rounding yields 0, the comparison with the current size takes the shrinking
    path, and the old pointer is returned although its block is smaller than
    the size asked for. *)
Theorem realloc_huge h A p s size :
  reachable h A -> A p = Some s -> 2 ^ 32 <= size < 2 ^ 64 - 7 ->
  (tlsf_realloc h p size).2 = p /\ s < size.
Proof.
  intros Hr Hp Hs. destruct (reachable_inv h A Hr) as (B & H & HA). rewrite HA in Hp.
  pose proof (tlsf_block_size_live h B p s H Hp) as Hb. apply live_used in Hp as (a & -> & Hu).
  destruct (used_facts _ _ _ _ H Hu) as (A1 & _ & A3 & _ & A5 & A6 & _).
  assert (adjust_request_size size ALIGN_SIZE = 0) as Eadj.
  { unfold adjust_request_size, c_true. case_if; [|done]. change ALIGN_SIZE with (2 ^ 3).
    rewrite align_up_spec by (pow2; lia). destruct (round_up_spec size (2 ^ 3)) as [? _]; [pow2; lia|].
    change block_size_max with (2 ^ 32). case_if; [lia|done]. }
  split; [|lia]. unfold tlsf_realloc. rewrite Eadj. unfold c_true.
  assert ((a + 16 =? 0) = false) as -> by lia. assert ((size =? 0) = false) as -> by lia. cbn [negb andb].
  rewrite block_from_ptr_ok, A6 by lia. assert ((s <? 0) = false) as -> by lia. done.
Qed.

Lemma realloc_huge_witness :
  (tlsf_realloc (tlsf_malloc demo 100).1 10640 (2 ^ 33)).2 = 10640 /\ 104 < 2 ^ 33.
Proof.
  apply (realloc_huge _ _ 10640 104 (2 ^ 33) demo_malloc_reachable); [vm_compute; reflexivity|lia].
Defined.

(** [tlsf_add_pool] accepts a pool whose block would be exactly 4 GiB,
    a size whose class lies outside the tables: the first index is 25. *)
Theorem add_pool_max h mem :
  (8 | mem) -> 0 <= mem < 2 ^ 64 ->
  (tlsf_add_pool h mem (2 ^ 32 + 16)).2 = mem /\
  mapping_insert (align_down (2 ^ 32 + 16 - tlsf_pool_overhead) ALIGN_SIZE) = (25, 0) /\
  FL_INDEX_COUNT = 25.
Proof.
  intros [q Hq] Hm. split; [|split; by vm_compute]. unfold tlsf_add_pool.
  assert (c_true (Z.rem (sw 64 mem) ALIGN_SIZE) = false) as ->.
  { unfold c_true, sw. change ALIGN_SIZE with 8. rewrite uw_small by lia. case_if.
    - by rewrite Hq, Z.rem_mul by lia.
    - replace (mem - 2 ^ 64) with ((q - 2305843009213693952) * 8) by (pow2; lia). by rewrite Z.rem_mul by lia. }
  change (_ || _) with false. cbn [negb]. destruct (block_link_next _ _). done.
Qed.

Lemma add_pool_max_witness : (tlsf_add_pool demo (2 ^ 40) (2 ^ 32 + 16)).2 = 2 ^ 40.
Proof. apply (add_pool_max demo (2 ^ 40)); [by exists (2 ^ 37)|lia]. Defined.
