(* ===== verification/KlibString.v ===== *)
(** The kernel C library, strings: [src/clib/src/klib/string.c].

    [char] is unsigned on riscv64.  The loops that run to a terminator take
    fuel; [length l + 1] turns are enough on a string [l]. *)
From S2P Require Import Prelude Memory.
#[local] Open Scope Z_scope.

(** ** Model *)

Fixpoint strcmp (fuel : nat) (m : memory) (s1 s2 : Z) : option Z :=
  match fuel with
  | O => None
  | S fuel =>
    if c_true (ld8 m s1) && (ld8 m s1 =? ld8 m s2) then strcmp fuel m (s1 + 1) (s2 + 1)
    else Some (ld8 m s1 - ld8 m s2)
  end.

Fixpoint strncmp_loop (fuel : nat) (m : memory) (s1 s2 n : Z) : option Z :=
  match fuel with
  | O => None
  | S fuel =>
    if c_true n && c_true (ld8 m s1) && (ld8 m s1 =? ld8 m s2)
    then strncmp_loop fuel m (s1 + 1) (s2 + 1) (u64 (n - 1))
    else Some (if c_true n then ld8 m s1 - ld8 m s2 else 0)
  end.

Definition strncmp (m : memory) (s1 s2 n : Z) : option Z := strncmp_loop (S (Z.to_nat n)) m s1 s2 n.

Fixpoint strcpy_loop (fuel : nat) (m : memory) (d src : Z) : option memory :=
  match fuel with
  | O => None
  | S fuel =>
    let c := ld8 m src in
    let m := st8 m d c in
    if c_true c then strcpy_loop fuel m (d + 1) (src + 1) else Some m
  end.

Definition strcpy (fuel : nat) (m : memory) (dest src : Z) : option (memory * Z) :=
  m ← strcpy_loop fuel m dest src; Some (m, dest).

Fixpoint strnlen_loop (fuel : nat) (m : memory) (s maxlen l : Z) : option Z :=
  match fuel with
  | O => None
  | S fuel =>
    if (l <? maxlen) && c_true (ld8 m (s + l)) then strnlen_loop fuel m s maxlen (u64 (l + 1)) else Some l
  end.

Definition strnlen (m : memory) (s maxlen : Z) : option Z := strnlen_loop (S (Z.to_nat maxlen)) m s maxlen 0.

Fixpoint strrchr_loop (fuel : nat) (m : memory) (s c ret : Z) : option Z :=
  match fuel with
  | O => None
  | S fuel =>
    let ret := if ld8 m s =? c then s else ret in
    if c_true (ld8 m s) then strrchr_loop fuel m (s + 1) c ret else Some ret
  end.

Definition strrchr (fuel : nat) (m : memory) (s ch : Z) : option Z := strrchr_loop fuel m s (u8 ch) 0.

(** [while (n--)] runs [n] times. *)
Fixpoint memchr_loop (n : nat) (m : memory) (p c : Z) : Z :=
  match n with
  | O => 0
  | S n => if negb (ld8 m p =? c) then memchr_loop n m (p + 1) c else p
  end.

Definition memchr (m : memory) (ptr ch n : Z) : Z := memchr_loop (Z.to_nat n) m ptr (u8 ch).

(** ** Strings in memory *)

(** The characters [l], none of them 0, start at [p] and are followed by 0. *)
Fixpoint cstr (m : memory) (p : Z) (l : list Z) : Prop :=
  match l with
  | [] => ld8 m p = 0
  | c :: l => ld8 m p = c /\ c <> 0 /\ cstr m (p + 1) l
  end.

(** Lexicographic comparison of unsigned characters. *)
Fixpoint lex (l1 l2 : list Z) : comparison :=
  match l1, l2 with
  | [], [] => Eq
  | [], _ :: _ => Lt
  | _ :: _, [] => Gt
  | a :: l1, b :: l2 => match a ?= b with Eq => lex l1 l2 | c => c end
  end.

Lemma lex_eq l1 : forall l2, lex l1 l2 = Eq <-> l1 = l2.
Proof.
  induction l1 as [|a l1 IH]; intros [|b l2]; cbn; try done.
  destruct (Z.compare_spec a b) as [->|?|?]; rewrite ?IH; [|naive_solver lia..].
  split; [by intros ->|by intros [=]].
Qed.

Lemma cstr_range m p l : cstr m p l -> Forall (fun c => 0 < c < 256) l.
Proof.
  revert p; induction l as [|c l IH]; intros p H; [constructor|]. destruct H as (Hc & Hz & H).
  pose proof (ld8_range m p). constructor; [lia|by eapply IH].
Qed.

(** The byte at offset [k] of a string. *)
Lemma cstr_lookup m p l k c : cstr m p l -> l !! k = Some c -> ld8 m (p + Z.of_nat k) = c /\ c <> 0.
Proof.
  revert p k; induction l as [|a l IH]; intros p [|k] H Hk; try done; destruct H as (Ha & Hz & H).
  - cbn in Hk. simplify_eq. by rewrite Z.add_0_r.
  - replace (p + Z.of_nat (S k)) with (p + 1 + Z.of_nat k) by lia. by apply (IH (p + 1)).
Qed.

Lemma cstr_end m p l : cstr m p l -> ld8 m (p + Z.of_nat (length l)) = 0.
Proof.
  revert p; induction l as [|a l IH]; intros p H; cbn [length].
  - by rewrite Z.add_0_r.
  - destruct H as (_ & _ & H). replace (p + Z.of_nat (S (length l))) with (p + 1 + Z.of_nat (length l)) by lia. by apply IH.
Qed.

Lemma cstr_ext m m' p l : (forall x, p <= x <= p + Z.of_nat (length l) -> ld8 m' x = ld8 m x) ->
  cstr m p l -> cstr m' p l.
Proof.
  revert p; induction l as [|a l IH]; intros p E H; cbn [length] in E.
  - cbn. rewrite E by lia. done.
  - destruct H as (Ha & Hz & H). cbn. split; [by rewrite E by lia|]. split; [done|].
    apply IH; [|done]. intros x Hx. apply E. lia.
Qed.

Lemma strcmp_ok l1 : forall m s1 s2 l2 fuel, cstr m s1 l1 -> cstr m s2 l2 -> (length l1 < fuel)%nat ->
  exists r, strcmp fuel m s1 s2 = Some r /\ (r ?= 0) = lex l1 l2.
Proof.
  induction l1 as [|a l1 IH]; intros m s1 s2 l2 [|fuel] H1 H2 Hf; cbn [length] in Hf; try lia; cbn [strcmp].
  - cbn in H1. rewrite H1. exists (0 - ld8 m s2). split; [done|].
    destruct l2 as [|b l2]; [cbn in H2; by rewrite H2|]. destruct H2 as (Hb & Hz & _).
    pose proof (ld8_range m s2). cbn. apply Z.compare_lt_iff. lia.
  - destruct H1 as (Ha & Hz & H1). rewrite Ha. unfold c_true. rewrite (proj2 (Z.eqb_neq a 0)) by done. cbn [negb andb].
    destruct l2 as [|b l2]; cbn [lex].
    + cbn in H2. rewrite H2. rewrite (proj2 (Z.eqb_neq a 0)) by done. eexists; split; [done|].
      pose proof (ld8_range m s1). apply Z.compare_gt_iff. lia.
    + destruct H2 as (Hb & Hzb & H2). rewrite Hb. destruct (Z.compare_spec a b) as [->|?|?].
      * rewrite Z.eqb_refl. apply IH; (done || lia).
      * rewrite (proj2 (Z.eqb_neq a b)) by lia. eexists; split; [done|]. apply Z.compare_lt_iff. lia.
      * rewrite (proj2 (Z.eqb_neq a b)) by lia. eexists; split; [done|]. apply Z.compare_gt_iff. lia.
Qed.

Lemma strncmp_loop_ok k : forall m s1 s2 l1 l2 fuel, cstr m s1 l1 -> cstr m s2 l2 -> (k < fuel)%nat ->
  Z.of_nat k < 2 ^ 64 ->
  exists r, strncmp_loop fuel m s1 s2 (Z.of_nat k) = Some r /\ (r ?= 0) = lex (take k l1) (take k l2).
Proof.
  induction k as [|k IH]; intros m s1 s2 l1 l2 [|fuel] H1 H2 Hf Hk; try lia; cbn [strncmp_loop].
  { eexists; split; [done|]. by rewrite !take_0. }
  unfold c_true. rewrite (proj2 (Z.eqb_neq (Z.of_nat (S k)) 0)) by lia. cbn [negb andb].
  replace (Z.of_nat (S k) - 1) with (Z.of_nat k) by lia. rewrite uw_small by lia.
  pose proof (ld8_range m s1). pose proof (ld8_range m s2).
  destruct l1 as [|a l1], l2 as [|b l2]; cbn [take lex].
  - cbn in H1, H2. rewrite H1, H2. by eexists.
  - cbn in H1. destruct H2 as (Hb & Hz & H2). rewrite H1. eexists; split; [done|]. apply Z.compare_lt_iff. lia.
  - destruct H1 as (Ha & Hz & H1). cbn in H2. rewrite Ha, H2, (proj2 (Z.eqb_neq a 0)) by done.
    cbn [negb andb]. eexists; split; [done|]. apply Z.compare_gt_iff. lia.
  - destruct H1 as (Ha & Hz & H1), H2 as (Hb & Hzb & H2). rewrite Ha, Hb, (proj2 (Z.eqb_neq a 0)) by done.
    cbn [negb andb]. destruct (Z.compare_spec a b) as [->|?|?].
    + rewrite Z.eqb_refl. apply IH; (done || lia).
    + rewrite (proj2 (Z.eqb_neq a b)) by lia. eexists; split; [done|]. apply Z.compare_lt_iff. lia.
    + rewrite (proj2 (Z.eqb_neq a b)) by lia. eexists; split; [done|]. apply Z.compare_gt_iff. lia.
Qed.

Lemma strcpy_loop_ok l : forall m d src fuel, cstr m src l -> (length l < fuel)%nat ->
  d + Z.of_nat (length l) < src \/ src + Z.of_nat (length l) < d ->
  exists m', strcpy_loop fuel m d src = Some m' /\ cstr m' d l /\
    forall x, x < d \/ d + Z.of_nat (length l) < x -> m' x = m x.
Proof.
  induction l as [|a l IH]; intros m d src [|fuel] H Hf Hd; cbn [length] in *; try lia; cbn [strcpy_loop].
  - cbn in H. rewrite H. eexists; split; [done|]. split; [cbn; by rewrite ld8_st8_same|].
    intros x Hx. unfold st8. case_if; [lia|done].
  - destruct H as (Ha & Hz & H). rewrite Ha. unfold c_true at 1. rewrite (proj2 (Z.eqb_neq a 0)) by done. cbn [negb].
    destruct (IH (st8 m d a) (d + 1) (src + 1) fuel) as (m' & E & Hc & Hfr); [|lia|lia|].
    { eapply cstr_ext; [|exact H]. intros x Hx. apply ld8_st8_other. lia. }
    exists m'. split; [done|]. pose proof (ld8_range m src). split; [|intros x Hx; rewrite Hfr by lia;
      unfold st8; case_if; [lia|done]].
    cbn. split; [|done]. unfold ld8. rewrite Hfr by lia. unfold st8. rewrite Z.eqb_refl, uw_uw by lia.
    apply uw_small. pow2; lia.
Qed.

Lemma strnlen_loop_ok m s maxlen : forall l k fuel, cstr m (s + k) l -> 0 <= k <= maxlen -> maxlen < 2 ^ 64 ->
  (Z.to_nat (maxlen - k) < fuel)%nat ->
  strnlen_loop fuel m s maxlen k = Some (Z.min maxlen (k + Z.of_nat (length l))).
Proof.
  induction l as [|a l IH]; intros k [|fuel] H Hk Hm Hf; cbn [length] in *; try lia; cbn [strnlen_loop].
  - cbn in H. rewrite H. cbn. rewrite andb_false_r. f_equal. lia.
  - destruct H as (Ha & Hz & H). rewrite Ha. unfold c_true. rewrite (proj2 (Z.eqb_neq a 0)) by done.
    cbn [negb]. rewrite andb_true_r. case_if.
    + rewrite uw_small by lia. rewrite IH; [f_equal; lia|by replace (s + (k + 1)) with (s + k + 1) by lia|lia..].
    + f_equal. lia.
Qed.

(** A buffer without terminator in its first [maxlen] bytes. *)
Lemma strnlen_loop_full m s maxlen : forall n k fuel, n = Z.to_nat (maxlen - k) -> 0 <= k <= maxlen -> maxlen < 2 ^ 64 ->
  (forall i, k <= i < maxlen -> ld8 m (s + i) <> 0) -> (n < fuel)%nat ->
  strnlen_loop fuel m s maxlen k = Some maxlen.
Proof.
  induction n as [|n IH]; intros k [|fuel] En Hk Hm Hz Hf; try lia; cbn [strnlen_loop].
  - assert (k = maxlen) as -> by lia. rewrite Z.ltb_irrefl. done.
  - rewrite (proj2 (Z.ltb_lt _ _)) by lia. unfold c_true. rewrite (proj2 (Z.eqb_neq _ 0)) by (apply Hz; lia).
    cbn [negb andb]. rewrite uw_small by lia. apply IH; try lia. intros i Hi. apply Hz. lia.
Qed.

(** The last address of [c] among the characters and the terminator. *)
Definition is_last (m : memory) (s : Z) (l : list Z) (c r : Z) : Prop :=
  (s <= r <= s + Z.of_nat (length l) /\ ld8 m r = c /\
   forall x, r < x <= s + Z.of_nat (length l) -> ld8 m x <> c) \/
  (r = 0 /\ forall x, s <= x <= s + Z.of_nat (length l) -> ld8 m x <> c).

Lemma strrchr_loop_ok l : forall m s c ret fuel, cstr m s l -> (length l < fuel)%nat ->
  exists r, strrchr_loop fuel m s c ret = Some r /\
    ((s <= r <= s + Z.of_nat (length l) /\ ld8 m r = c /\
      forall x, r < x <= s + Z.of_nat (length l) -> ld8 m x <> c) \/
     (r = ret /\ forall x, s <= x <= s + Z.of_nat (length l) -> ld8 m x <> c)).
Proof.
  induction l as [|a l IH]; intros m s c ret [|fuel] H Hf; cbn [length] in *; try lia; cbn [strrchr_loop].
  - cbn in H. rewrite H. change (c_true 0) with false. eexists; split; [done|]. case_if.
    + left. split; [lia|]. split; [congruence|]. intros; lia.
    + right. split; [done|]. intros x Hx. replace x with s by lia. congruence.
  - destruct H as (Ha & Hz & H). rewrite Ha. unfold c_true. rewrite (proj2 (Z.eqb_neq a 0)) by done. cbn [negb].
    destruct (IH m (s + 1) c (if a =? c then s else ret) fuel H ltac:(lia)) as (r & E & [(Hr & Hc & Hl)|(Hr & Hl)]);
      exists r; (split; [done|]).
    + left. split; [lia|]. split; [done|]. intros x Hx. apply Hl. lia.
    + case_if_in Hr.
      * left. subst r. split; [lia|]. split; [congruence|]. intros x Hx. apply Hl. lia.
      * right. split; [done|]. intros x Hx. destruct (decide (x = s)) as [->|]; [congruence|]. apply Hl. lia.
Qed.

Lemma memchr_loop_ok n : forall m p c,
  (memchr_loop n m p c = 0 /\ forall x, p <= x < p + Z.of_nat n -> ld8 m x <> c) \/
  (p <= memchr_loop n m p c < p + Z.of_nat n /\ ld8 m (memchr_loop n m p c) = c /\
   forall x, p <= x < memchr_loop n m p c -> ld8 m x <> c).
Proof.
  induction n as [|n IH]; intros m p c; cbn [memchr_loop].
  - left. split; [done|]. intros; lia.
  - destruct (Z.eqb_spec (ld8 m p) c); cbn [negb].
    + right. split; [lia|]. split; [done|]. intros; lia.
    + destruct (IH m (p + 1) c) as [(E & H)|(Hr & Hc & H)]; [left|right].
      * split; [done|]. intros x Hx. destruct (decide (x = p)) as [->|]; [done|]. apply H. lia.
      * split; [lia|]. split; [done|]. intros x Hx. destruct (decide (x = p)) as [->|]; [done|]. apply H. lia.
Qed.

(** The string [l] at address [p] of an otherwise zero memory. *)
Fixpoint place (m : memory) (p : Z) (l : list Z) : memory :=
  match l with [] => m | c :: l => place (st8 m p c) (p + 1) l end.

(** ** Theorems *)

(** Comparison of strings: [strcmp] ends and its sign is the lexicographic order
    of the two strings as unsigned characters; [strncmp] does the same for the
    first [n] characters.  In particular the result is 0 exactly for equal
    strings (equal prefixes). *)
Theorem string_compare m s1 s2 l1 l2 n fuel :
  cstr m s1 l1 -> cstr m s2 l2 -> (length l1 < fuel)%nat -> 0 <= n < 2 ^ 64 ->
  (exists r, strcmp fuel m s1 s2 = Some r /\ (r ?= 0) = lex l1 l2 /\ (r = 0 <-> l1 = l2)) /\
  (exists r, strncmp m s1 s2 n = Some r /\ (r ?= 0) = lex (take (Z.to_nat n) l1) (take (Z.to_nat n) l2) /\
     (r = 0 <-> take (Z.to_nat n) l1 = take (Z.to_nat n) l2)).
Proof.
  intros H1 H2 Hf Hn. split.
  - destruct (strcmp_ok l1 m s1 s2 l2 fuel H1 H2 Hf) as (r & E & Hr). exists r. split; [done|]. split; [done|].
    by rewrite <- lex_eq, <- Hr, Z.compare_eq_iff.
  - destruct (strncmp_loop_ok (Z.to_nat n) m s1 s2 l1 l2 (S (Z.to_nat n)) H1 H2) as (r & E & Hr); [lia..|].
    rewrite Z2Nat.id in E by lia. exists r. split; [done|]. split; [done|].
    by rewrite <- lex_eq, <- Hr, Z.compare_eq_iff.
Qed.

Lemma string_compare_witness :
  let m := place (place (fun _ => 0) 16 [109; 101; 109]) 32 [109; 101; 110] in
  exists r, strncmp m 16 32 2 = Some r /\ r = 0.
Proof.
  destruct (string_compare (place (place (fun _ => 0) 16 [109; 101; 109]) 32 [109; 101; 110]) 16 32
    [109; 101; 109] [109; 101; 110] 2 4) as (_ & r & E & _ & H);
    [vm_compute; repeat split; discriminate|vm_compute; repeat split; discriminate|cbn; lia|lia|].
  exists r. split; [exact E|]. apply H. reflexivity.
Defined.

(** [strcpy] ends, returns its destination, makes it hold the source string and
    writes nothing outside the copy, when the two do not overlap. *)
Theorem strcpy_ok m dest src l fuel :
  cstr m src l -> (length l < fuel)%nat ->
  dest + Z.of_nat (length l) < src \/ src + Z.of_nat (length l) < dest ->
  exists m', strcpy fuel m dest src = Some (m', dest) /\ cstr m' dest l /\
    forall x, x < dest \/ dest + Z.of_nat (length l) < x -> m' x = m x.
Proof.
  intros H Hf Hd. destruct (strcpy_loop_ok l m dest src fuel H Hf Hd) as (m' & E & Hc & Hfr).
  exists m'. split; [|done]. unfold strcpy. by rewrite E.
Qed.

Lemma strcpy_ok_witness :
  exists m', strcpy 4 (place (fun _ => 0) 16 [97; 98; 99]) 64 16 = Some (m', 64) /\ cstr m' 64 [97; 98; 99].
Proof.
  destruct (strcpy_ok (place (fun _ => 0) 16 [97; 98; 99]) 64 16 [97; 98; 99] 4) as (m' & E & H & _);
    [vm_compute; repeat split; discriminate|cbn; lia|cbn; lia|].
  exists m'. split; [exact E|exact H].
Defined.

(** Searching: [strnlen] is the length of the string cut at [maxlen], and
    [maxlen] when the buffer has no terminator; [strrchr] finds the last and
    [memchr] the first place of the character, or NULL when there is none. *)
Theorem string_search m s l ch maxlen fuel :
  cstr m s l -> (length l < fuel)%nat -> 0 <= maxlen < 2 ^ 64 ->
  strnlen m s maxlen = Some (Z.min maxlen (Z.of_nat (length l))) /\
  (exists r, strrchr fuel m s ch = Some r /\ is_last m s l (u8 ch) r) /\
  forall p n, 0 <= n ->
    ((forall i, 0 <= i < maxlen -> ld8 m (p + i) <> 0) -> strnlen m p maxlen = Some maxlen) /\
    ((memchr m p ch n = 0 /\ forall x, p <= x < p + n -> ld8 m x <> u8 ch) \/
     (p <= memchr m p ch n < p + n /\ ld8 m (memchr m p ch n) = u8 ch /\
      forall x, p <= x < memchr m p ch n -> ld8 m x <> u8 ch)).
Proof.
  intros H Hf Hm. split; [|split].
  - unfold strnlen. rewrite (strnlen_loop_ok m s maxlen l 0); [done|by rewrite Z.add_0_r|lia..].
  - by apply strrchr_loop_ok.
  - intros p n Hn. split.
    + intros Hz. apply (strnlen_loop_full m p maxlen (Z.to_nat (maxlen - 0)) 0); try lia. done.
    + unfold memchr. destruct (memchr_loop_ok (Z.to_nat n) m p (u8 ch)) as [E|E]; rewrite Z2Nat.id in E by lia; tauto.
Qed.

Lemma string_search_witness :
  strnlen (place (fun _ => 0) 16 [97; 98; 97]) 16 10 = Some 3 /\
  strrchr 4 (place (fun _ => 0) 16 [97; 98; 97]) 16 97 = Some 18.
Proof.
  destruct (string_search (place (fun _ => 0) 16 [97; 98; 97]) 16 [97; 98; 97] 97 10 4) as (H & (r & E & _) & _);
    [vm_compute; repeat split; discriminate|cbn; lia|lia|].
  split; [exact H|]. rewrite E. vm_compute in E. congruence.
Defined.
