(* ===== verification/KlibSort.v ===== *)
(** The kernel C library, sorting: [src/clib/src/klib/stdlib.c].

    The comparison is a callback that reads memory.  The pivot is a pointer into
    the array being partitioned, so a swap can change the element it points to;
    the model keeps it an address. *)
From S2P Require Import Prelude Memory.
#[local] Open Scope Z_scope.

(** ** Model *)

Fixpoint swap_loop (size : nat) (m : memory) (a b : Z) : memory :=
  match size with
  | O => m
  | S size =>
    let tmp := ld8 m a in
    let m := st8 m a (ld8 m b) in
    let m := st8 m b tmp in
    swap_loop size m (a + 1) (b + 1)
  end.

Definition swap (m : memory) (a b size : Z) : memory := swap_loop (Z.to_nat size) m a b.

Section qsort.
Context (compar : memory -> Z -> Z -> Z).

(** [while (compar(base + i * size, pivot) < 0) i++;] *)
Fixpoint scan_up (fuel : nat) (m : memory) (base size pivot i : Z) : option Z :=
  match fuel with
  | O => None
  | S fuel =>
    if compar m (base + i * size) pivot <? 0 then scan_up fuel m base size pivot (u64 (i + 1)) else Some i
  end.

(** [while (compar(base + j * size, pivot) > 0) j--;] *)
Fixpoint scan_down (fuel : nat) (m : memory) (base size pivot j : Z) : option Z :=
  match fuel with
  | O => None
  | S fuel =>
    if 0 <? compar m (base + j * size) pivot then scan_down fuel m base size pivot (u64 (j - 1)) else Some j
  end.

(** [while (i <= j)]; [lim] bounds the scans. *)
Fixpoint partition_loop (fuel lim : nat) (m : memory) (base size pivot i j : Z) : option (memory * Z * Z) :=
  match fuel with
  | O => None
  | S fuel =>
    if i <=? j then
      i ← scan_up lim m base size pivot i;
      j ← scan_down lim m base size pivot j;
      if i <=? j then
        let m := swap m (base + i * size) (base + j * size) size in
        let i := u64 (i + 1) in
        let j := if 0 <? j then j - 1 else j in
        partition_loop fuel lim m base size pivot i j
      else partition_loop fuel lim m base size pivot i j
    else Some (m, i, j)
  end.

Fixpoint _qsort_inner (fuel lim : nat) (m : memory) (base left right size : Z) : option memory :=
  match fuel with
  | O => None
  | S fuel =>
    if right <=? left then Some m
    else
      let pivot := base + (u64 (left + right) / 2) * size in
      '(m, i, j) ← partition_loop lim lim m base size pivot left right;
      m ← if left <? j then _qsort_inner fuel lim m base left j size else Some m;
      if i <? right then _qsort_inner fuel lim m base i right size else Some m
  end.

Definition qsort (fuel : nat) (m : memory) (base n size : Z) : option memory :=
  if n <=? 1 then Some m else _qsort_inner fuel fuel m base 0 (n - 1) size.

End qsort.

(** ** Elements *)

(** The bytes of element [k]. *)
Definition elem (base size : Z) (m : memory) (k : Z) : list Z := bytes_of m (base + k * size) (Z.to_nat size).

Definition elems (base size n : Z) (m : memory) : list (list Z) :=
  (fun k => elem base size m (Z.of_nat k)) <$> seq 0 (Z.to_nat n).

Lemma bytes_of_lookup m p n k : (k < n)%nat -> bytes_of m p n !! k = Some (ld8 m (p + Z.of_nat k)).
Proof. intros Hk. unfold bytes_of. rewrite list_lookup_fmap, lookup_seq_lt by done. done. Qed.

Lemma bytes_of_eq m m' p p' n :
  (forall k, 0 <= k < Z.of_nat n -> ld8 m' (p' + k) = ld8 m (p + k)) -> bytes_of m' p' n = bytes_of m p n.
Proof.
  intros H. unfold bytes_of. apply list_fmap_ext. intros i k Hk. apply lookup_seq in Hk as [-> Hk]. apply H. lia.
Qed.

(** Exchange of two ranges that are equal or disjoint. *)
Lemma swap_loop_ld8 n : forall m a b, a = b \/ a + Z.of_nat n <= b \/ b + Z.of_nat n <= a -> forall x,
  ld8 (swap_loop n m a b) x =
    if decide (a <= x < a + Z.of_nat n) then ld8 m (b + (x - a))
    else if decide (b <= x < b + Z.of_nat n) then ld8 m (a + (x - b)) else ld8 m x.
Proof.
  induction n as [|n IH]; intros m a b Hd x; cbn [swap_loop].
  { repeat case_decide; done || lia. }
  rewrite IH by lia.
  assert (forall y, ld8 (st8 (st8 m a (ld8 m b)) b (ld8 m a)) y =
    if decide (y = a) then ld8 m b else if decide (y = b) then ld8 m a else ld8 m y) as Hs.
  { intros y. pose proof (ld8_range m a). pose proof (ld8_range m b). unfold ld8 at 1, st8.
    repeat case_if; repeat case_decide; try lia; subst; rewrite ?uw_uw by lia; try (unfold ld8; by rewrite ?uw_uw by lia). }
  rewrite !Hs. repeat case_decide; try lia; try (f_equal; lia).
Qed.

Section swap.
Context (base size : Z) (m : memory) (i j : Z).
Hypothesis (Hsize : 0 < size).
Let m' := swap m (base + i * size) (base + j * size) size.

Lemma slots_apart k l : k <> l -> k * size + size <= l * size \/ l * size + size <= k * size.
Proof. intros Hk. destruct (decide (k < l)); [left|right]; nia. Qed.

Lemma swap_ld8 x :
  ld8 m' x =
    if decide (base + i * size <= x < base + i * size + size) then ld8 m (base + j * size + (x - (base + i * size)))
    else if decide (base + j * size <= x < base + j * size + size) then ld8 m (base + i * size + (x - (base + j * size)))
    else ld8 m x.
Proof.
  assert (base + i * size = base + j * size \/ base + i * size + Z.of_nat (Z.to_nat size) <= base + j * size \/
    base + j * size + Z.of_nat (Z.to_nat size) <= base + i * size) as Hd.
  { rewrite Z2Nat.id by lia. destruct (decide (i = j)) as [->|H]; [by left|]. pose proof (slots_apart i j H). lia. }
  unfold m', swap. rewrite (swap_loop_ld8 _ m _ _ Hd x), Z2Nat.id by lia. done.
Qed.

Lemma swap_elem k :
  elem base size m' k = elem base size m (if decide (k = i) then j else if decide (k = j) then i else k).
Proof.
  unfold elem. apply bytes_of_eq. intros o Ho. rewrite Z2Nat.id in Ho by lia. rewrite swap_ld8.
  pose proof (slots_apart k i). pose proof (slots_apart k j).
  destruct (decide (k = i)) as [->|Hki].
  - rewrite decide_True by lia. f_equal. lia.
  - rewrite decide_False by lia. destruct (decide (k = j)) as [->|Hkj].
    + rewrite decide_True by lia. f_equal. lia.
    + rewrite decide_False by lia. done.
Qed.

Lemma swap_frame n x : 0 <= i < n -> 0 <= j < n -> x < base \/ base + n * size <= x -> ld8 m' x = ld8 m x.
Proof. intros Hi Hj Hx. rewrite swap_ld8. rewrite !decide_False by nia. done. Qed.
End swap.

Lemma elems_swap base size n m i j : 0 < size -> 0 <= i < n -> 0 <= j < n ->
  elems base size n (swap m (base + i * size) (base + j * size) size) ≡ₚ elems base size n m.
Proof.
  intros Hs. revert i j. assert (forall i j, 0 <= i < j -> j < n ->
    elems base size n (swap m (base + i * size) (base + j * size) size) ≡ₚ elems base size n m) as Hlt.
  { intros i j Hij Hj. set (a := Z.to_nat i). set (b := Z.to_nat (j - i - 1)).
    set (c := Z.to_nat (n - j - 1)).
    unfold elems. replace (Z.to_nat n) with (a + (1 + (b + (1 + c))))%nat by lia.
    rewrite !seq_app, !fmap_app. cbn [seq fmap list_fmap].
    assert (forall s l, (forall k, In k (seq s l) -> Z.of_nat k <> i /\ Z.of_nat k <> j) ->
      (fun k => elem base size (swap m (base + i * size) (base + j * size) size) (Z.of_nat k)) <$> seq s l =
      (fun k => elem base size m (Z.of_nat k)) <$> seq s l) as Hsame.
    { intros s l Hk. apply list_fmap_ext. intros q k Hq. rewrite swap_elem by lia.
      destruct (Hk k) as [H1 H2]; [by apply list_elem_of_In, list_elem_of_lookup; eexists|].
      by rewrite !decide_False. }
    rewrite !Hsame by (intros k Hk; apply in_seq in Hk; lia).
    rewrite !swap_elem by lia.
    rewrite (decide_True (P := Z.of_nat (0 + a) = i)), (decide_False (P := Z.of_nat (0 + a + 1 + b) = i)),
      (decide_True (P := Z.of_nat (0 + a + 1 + b) = j)) by lia.
    replace (Z.of_nat (0 + a)) with i by lia. replace (Z.of_nat (0 + a + 1 + b)) with j by lia.
    solve_Permutation. }
  intros i j Hi Hj. destruct (decide (i = j)) as [->|Hne].
  - unfold elems. erewrite list_fmap_ext; [done|]. intros q k _. rewrite swap_elem by lia.
    by repeat case_decide; subst.
  - destruct (decide (i < j)); [apply Hlt; lia|].
    assert (elems base size n (swap m (base + i * size) (base + j * size) size) =
            elems base size n (swap m (base + j * size) (base + i * size) size)) as ->; [|apply Hlt; lia].
    unfold elems. apply list_fmap_ext. intros q k _. rewrite !swap_elem by lia. f_equal.
    repeat case_decide; lia.
Qed.

(** ** The comparison callback

    What [qsort] needs of it: it looks at the bytes of the two elements only, an
    element equals itself, and swapping the arguments swaps the sign. *)
Class Comparison (compar : memory -> Z -> Z -> Z) (base size n : Z) := {
  cmp_val : list Z -> list Z -> Z;
  cmp_reads m k l : 0 <= k < n -> 0 <= l < n ->
    compar m (base + k * size) (base + l * size) = cmp_val (elem base size m k) (elem base size m l);
  cmp_refl x : cmp_val x x = 0;
  cmp_sym x y : cmp_val x y < 0 <-> 0 < cmp_val y x }.

Section sort.
Context (compar : memory -> Z -> Z -> Z) (base size n : Z) `{!Comparison compar base size n}.
Hypothesis (Hsize : 0 < size) (Hn : n < 2 ^ 63).

(** Elements [k] that stop the upward and the downward scan. *)
Definition not_below (m : memory) (p k : Z) : Prop := 0 <= cmp_val (elem base size m k) (elem base size m p).
Definition not_above (m : memory) (p k : Z) : Prop := cmp_val (elem base size m k) (elem base size m p) <= 0.

Lemma scan_up_ok m p x : forall d i fuel, d = Z.to_nat (x - i) -> 0 <= p < n -> 0 <= i <= x -> x < n ->
  not_below m p x -> (d < fuel)%nat ->
  exists r, scan_up compar fuel m base size (base + p * size) i = Some r /\ i <= r <= x /\ not_below m p r.
Proof.
  induction d as [|d IH]; intros i [|fuel] Hd Hp Hi Hx Hs Hf; try lia; cbn [scan_up];
    rewrite cmp_reads by lia.
  - assert (i = x) as -> by lia. unfold not_below in Hs. case_if; [lia|]. exists x. split; [done|]. split; [lia|done].
  - case_if.
    + rewrite uw_small by lia. destruct (IH (i + 1) fuel) as (r & -> & Hr & Hs'); [lia..|done|lia|].
      exists r. split; [done|]. split; [lia|done].
    + exists i. split; [done|]. split; [lia|done].
Qed.

Lemma scan_down_ok m p y : forall d j fuel, d = Z.to_nat (j - y) -> 0 <= p < n -> 0 <= y <= j -> j < n ->
  not_above m p y -> (d < fuel)%nat ->
  exists r, scan_down compar fuel m base size (base + p * size) j = Some r /\ y <= r <= j /\ not_above m p r.
Proof.
  induction d as [|d IH]; intros j [|fuel] Hd Hp Hj Hx Hs Hf; try lia; cbn [scan_down];
    rewrite cmp_reads by lia.
  - assert (j = y) as -> by lia. unfold not_above in Hs. case_if; [lia|]. exists y. split; [done|]. split; [lia|done].
  - case_if.
    + rewrite uw_small by lia. destruct (IH (j - 1) fuel) as (r & -> & Hr & Hs'); [lia..|done|lia|].
      exists r. split; [done|]. split; [lia|done].
    + exists j. split; [done|]. split; [lia|done].
Qed.

(** After the swap of the two stopped elements both still stop the scans, even
    when one of them was the pivot. *)
Lemma swap_stops m p i j : not_below m p i -> not_above m p j ->
  let m' := swap m (base + i * size) (base + j * size) size in not_below m' p j /\ not_above m' p i.
Proof.
  intros Hi Hj m'. unfold not_below, not_above in *. unfold m'. rewrite !swap_elem by done.
  pose proof (cmp_sym (elem base size m i) (elem base size m j)).
  pose proof (cmp_sym (elem base size m j) (elem base size m i)).
  pose proof (cmp_sym (elem base size m i) (elem base size m p)).
  pose proof (cmp_sym (elem base size m j) (elem base size m p)).
  pose proof (cmp_sym (elem base size m p) (elem base size m i)).
  pose proof (cmp_sym (elem base size m p) (elem base size m j)).
  repeat case_decide; subst; rewrite ?cmp_refl in *; lia.
Qed.

(** Loop invariant: while the indices have not crossed, both scans will stop
    inside [left, right]. *)
Definition ready (m : memory) (p left right i j : Z) : Prop :=
  i <= j -> (exists x, i <= x <= right /\ not_below m p x) /\ (exists y, left <= y <= j /\ not_above m p y).

(** What the sort does to memory. *)
Definition rearranged (m m' : memory) : Prop :=
  elems base size n m' ≡ₚ elems base size n m /\
  forall x, x < base \/ base + n * size <= x -> ld8 m' x = ld8 m x.

#[local] Instance rearranged_preorder : PreOrder rearranged.
Proof.
  split; [by split|]. intros m1 m2 m3 [P1 F1] [P2 F2]. split; [by rewrite P2|].
  intros x Hx. by rewrite F2, F1.
Qed.

Lemma swap_rearranged m i j : 0 <= i < n -> 0 <= j < n ->
  rearranged m (swap m (base + i * size) (base + j * size) size).
Proof. intros Hi Hj. split; [by apply elems_swap|]. intros x Hx. by eapply swap_frame. Qed.

Lemma partition_loop_ok p left right lim :
  0 <= p < n -> 0 <= left -> right < n -> (Z.to_nat (right - left) < lim)%nat ->
  forall d m i j fuel, d = Z.to_nat (j + 1 - i) -> left <= i -> 0 <= j <= right -> left - 1 <= j -> i <= right + 1 ->
  ready m p left right i j -> (d < fuel)%nat ->
  exists m' i' j', partition_loop compar fuel lim m base size (base + p * size) i j = Some (m', i', j') /\
    rearranged m m' /\ j' < i' /\ i <= i' <= right + 1 /\ 0 <= j' <= j /\ left - 1 <= j'.
Proof.
  intros Hp Hl Hr Hlim. induction d as [d IH] using lt_wf_ind. intros m i j [|fuel] Hd Hi Hj Hjl Hir Hrdy Hf; [lia|].
  cbn [partition_loop]. case_if.
  2:{ exists m, i, j. split; [done|]. split; [done|]. lia. }
  destruct Hrdy as ((x & Hx & Hsx) & (y & Hy & Hsy)); [done|].
  destruct (scan_up_ok m p x (Z.to_nat (x - i)) i lim) as (i2 & -> & Hi2 & Hs2); [lia..|done|lia|]. cbn [mbind option_bind].
  destruct (scan_down_ok m p y (Z.to_nat (j - y)) j lim) as (j2 & -> & Hj2 & Ht2); [lia..|done|lia|]. cbn [mbind option_bind].
  case_if.
  - rewrite (uw_small 64 (i2 + 1)) by lia.
    set (m1 := swap m (base + i2 * size) (base + j2 * size) size).
    destruct (swap_stops m p i2 j2 Hs2 Ht2) as [S1 S2]. fold m1 in S1, S2.
    set (j3 := if 0 <? j2 then j2 - 1 else j2).
    assert (j3 = j2 - 1 /\ 0 < j2 \/ j3 = 0 /\ j2 = 0) as Hj3 by (unfold j3; case_if; lia).
    destruct (IH (Z.to_nat (j3 + 1 - (i2 + 1))) ltac:(lia) m1 (i2 + 1) j3 fuel) as (m' & i' & j' & El & R & H); try lia.
    { intros Hc. split; [exists j2|exists i2]; (split; [lia|done]). }
    exists m', i', j'. split; [exact El|]. split; [|lia].
    transitivity m1; [|exact R]. apply swap_rearranged; lia.
  - destruct fuel as [|fuel]; [lia|]. cbn [partition_loop]. case_if; [lia|].
    exists m, i2, j2. split; [done|]. split; [done|]. lia.
Qed.

(** One partition makes progress: the first turn swaps around the pivot. *)
Lemma partition_progress m left right lim :
  0 <= left < right -> right < n -> (Z.to_nat (right - left) + 2 < lim)%nat ->
  let p := u64 (left + right) / 2 in
  exists m' i' j', partition_loop compar lim lim m base size (base + p * size) left right = Some (m', i', j') /\
    rearranged m m' /\ left < i' <= right + 1 /\ 0 <= j' < right /\ left - 1 <= j'.
Proof.
  intros Hl Hr Hlim p. assert (left <= p <= right /\ p < right) as Hp.
  { unfold p. rewrite uw_small by lia. pose proof (Z.div_mod (left + right) 2 ltac:(lia)).
    pose proof (Z.mod_pos_bound (left + right) 2 ltac:(lia)). lia. }
  destruct lim as [|lim]; [lia|]. cbn [partition_loop]. set (L := S lim). case_if; [|lia].
  assert (not_below m p p) as Hb by (unfold not_below; rewrite cmp_refl; lia).
  assert (not_above m p p) as Ha by (unfold not_above; rewrite cmp_refl; lia).
  destruct (scan_up_ok m p p (Z.to_nat (p - left)) left L) as (i2 & -> & Hi2 & Hs2); [lia..|done|lia|]. cbn [mbind option_bind].
  destruct (scan_down_ok m p p (Z.to_nat (right - p)) right L) as (j2 & -> & Hj2 & Ht2); [lia..|done|lia|]. cbn [mbind option_bind].
  case_if; [|lia]. rewrite (uw_small 64 (i2 + 1)) by lia.
  set (m1 := swap m (base + i2 * size) (base + j2 * size) size).
  destruct (swap_stops m p i2 j2 Hs2 Ht2) as [S1 S2]. fold m1 in S1, S2.
  set (j3 := if 0 <? j2 then j2 - 1 else j2).
  assert (j3 = j2 - 1 /\ 0 < j2 \/ j3 = 0 /\ j2 = 0) as Hj3 by (unfold j3; case_if; lia).
  destruct (partition_loop_ok p left right L) with (d := Z.to_nat (j3 + 1 - (i2 + 1))) (m := m1) (i := i2 + 1) (j := j3)
    (fuel := lim) as (m' & i' & j' & El & R & H); try lia.
  { intros Hc. split; [exists j2|exists i2]; (split; [lia|done]). }
  exists m', i', j'. split; [exact El|]. split; [|lia].
  transitivity m1; [|exact R]. apply swap_rearranged; lia.
Qed.

Lemma qsort_inner_ok lim : forall d m left right fuel, d = Z.to_nat (right - left) -> 0 <= left -> right < n ->
  (Z.to_nat n + 2 < lim)%nat -> (d < fuel)%nat ->
  exists m', _qsort_inner compar fuel lim m base left right size = Some m' /\ rearranged m m'.
Proof.
  induction d as [d IH] using lt_wf_ind. intros m left right [|fuel] Hd Hl Hr Hlim Hf; [lia|]. cbn [_qsort_inner].
  case_if; [by exists m|].
  destruct (partition_progress m left right lim) as (m1 & i & j & -> & R1 & Hi & Hj & Hjl); [lia..|].
  cbn [mbind option_bind].
  assert (exists m2, (if left <? j then _qsort_inner compar fuel lim m1 base left j size else Some m1) = Some m2 /\
    rearranged m1 m2) as (m2 & -> & R2).
  { case_if; [|by exists m1]. apply (IH (Z.to_nat (j - left))); lia. }
  cbn [mbind option_bind].
  assert (exists m3, (if i <? right then _qsort_inner compar fuel lim m2 base i right size else Some m2) = Some m3 /\
    rearranged m2 m3) as (m3 & E3 & R3).
  { case_if; [|by exists m2]. apply (IH (Z.to_nat (right - i))); lia. }
  exists m3. split; [exact E3|]. by rewrite R1, R2.
Qed.
End sort.

(** Arrays of unsigned characters in their natural order. *)
Definition compar_u8 (m : memory) (a b : Z) : Z := ld8 m a - ld8 m b.

#[local] Instance compar_u8_comparison base n : Comparison compar_u8 base 1 n.
Proof.
  refine {| cmp_val x y := default 0 (head x) - default 0 (head y) |}; [|intros; lia..].
  intros m k l _ _. unfold compar_u8, elem. change (Z.to_nat 1) with 1%nat. by rewrite !bytes_of_S.
Defined.

(** The bytes 2, 3, 1, 0 at address 16. *)
Definition sample_array : memory := st8 (st8 (st8 (st8 (fun _ => 0) 16 2) 17 3) 18 1) 19 0.

(** ** Theorems *)

(** C14. [qsort] ends, within a recursion depth and a number of loop turns linear in
    the number of elements, leaves a rearrangement of the same elements, and
    writes nothing outside the array: neither scan ever leaves it, although the
    pivot moves during the partition. *)
Theorem qsort_rearranges compar base size n (H : Comparison compar base size n) m fuel :
  0 < size -> 0 <= n < 2 ^ 63 -> (Z.to_nat n + 2 < fuel)%nat ->
  exists m', qsort compar fuel m base n size = Some m' /\
    elems base size n m' ≡ₚ elems base size n m /\
    forall x, x < base \/ base + n * size <= x -> ld8 m' x = ld8 m x.
Proof.
  intros Hs Hn Hf. unfold qsort. case_if; [by exists m|].
  destruct (qsort_inner_ok compar base size n Hs ltac:(lia) fuel (Z.to_nat (n - 1 - 0)) m 0 (n - 1) fuel)
    as (m' & E' & R); [lia..|]. by exists m'.
Qed.

Lemma qsort_rearranges_witness :
  exists m', qsort compar_u8 8 sample_array 16 4 1 = Some m' /\ elems 16 1 4 m' ≡ₚ elems 16 1 4 sample_array.
Proof.
  destruct (qsort_rearranges compar_u8 16 1 4 (compar_u8_comparison 16 4) sample_array 8) as (m' & E & P & _);
    [reflexivity|split; [discriminate|reflexivity]|cbn; lia|].
  exists m'. split; [exact E|exact P].
Defined.

(** It does not always sort: the pivot is read through a pointer into the array
    after a swap has moved another element there.  On the characters 2, 3, 1, 0
    the result is 0, 2, 1, 3. *)
Theorem qsort_missorts :
  exists m', qsort compar_u8 8 sample_array 16 4 1 = Some m' /\ bytes_of m' 16 4 = [0; 2; 1; 3].
Proof.
  assert (bytes_of (default (fun _ => 0) (qsort compar_u8 8 sample_array 16 4 1)) 16 4 = [0; 2; 1; 3]) as E
    by (vm_compute; reflexivity).
  destruct (qsort compar_u8 8 sample_array 16 4 1) as [m'|] eqn:Eq; [by exists m'|]. discriminate.
Qed.
