(* ===== verification/Ext4Errno.v ===== *)
(** lwext4, status codes: [include/ext4_errno.h]. *)
From S2P Require Import Prelude.

Definition EOK : Z := 0.
Definition EPERM : Z := 1.
Definition ENOENT : Z := 2.
Definition EIO : Z := 5.
Definition ENXIO : Z := 6.
Definition ENOMEM : Z := 12.
Definition EEXIST : Z := 17.
Definition ENOTDIR : Z := 20.
Definition EISDIR : Z := 21.
Definition EINVAL : Z := 22.
Definition EFBIG : Z := 27.
Definition ENOSPC : Z := 28.
Definition EROFS : Z := 30.
Definition EMLINK : Z := 31.
Definition ERANGE : Z := 34.
Definition ENOTEMPTY : Z := 39.
Definition ENODATA : Z := 61.
Definition ENOTSUP : Z := 95.
