(* ===== verification/Ext4Bitmap.v ===== *)
(** lwext4, bitmaps: [include/ext4_bitmap.h] and [src/ext4_bitmap.c].

    A bitmap is an array of bytes at address [bmap]; the loops walk it bit by
    bit up to a byte boundary, then byte by byte, then bit by bit again.
    [None] is returned only when a loop runs out of fuel; the theorems show
    that the fuel given is enough.  The build has [CONFIG_UNALIGNED_ACCESS] off. *)
From S2P Require Import Prelude Memory Ext4Errno.


(** ** Code *)

Definition ext4_bmap_bit_set (m : memory) (bmap bit : Z) : memory :=
  st8 m (bmap + (bit .>> 3)) (ld8 m (bmap + (bit .>> 3)) .| (1 .<< (bit .& 7))).

Definition ext4_bmap_bit_clr (m : memory) (bmap bit : Z) : memory :=
  st8 m (bmap + (bit .>> 3)) (ld8 m (bmap + (bit .>> 3)) .& Z.lnot (1 .<< (bit .& 7))).

Definition ext4_bmap_is_bit_set (m : memory) (bmap bit : Z) : bool :=
  c_true (ld8 m (bmap + (bit .>> 3)) .& (1 .<< (bit .& 7))).

Definition ext4_bmap_is_bit_clr (m : memory) (bmap bit : Z) : bool :=
  negb (ext4_bmap_is_bit_set m bmap bit).

(** [while (i & 7)]: the bits before the first byte boundary.  [None] in the
    second component is the early [return]. *)
Fixpoint bits_free_head (fuel : nat) (m : memory) (bmap i bcnt : Z) : option (memory * option (Z * Z)) :=
  match fuel with
  | O => None
  | S fuel =>
    if c_true (i .& 7) then
      if negb (c_true bcnt) then Some (m, None)
      else bits_free_head fuel (ext4_bmap_bit_clr m bmap i) bmap (u32 (i + 1)) (u32 (bcnt - 1))
    else Some (m, Some (i, bcnt))
  end.

(** [while (bcnt >= 8)] *)
Fixpoint bits_free_bytes (fuel : nat) (m : memory) (bmap bcnt : Z) : option (memory * Z * Z) :=
  match fuel with
  | O => None
  | S fuel =>
    if 8 <=? bcnt then bits_free_bytes fuel (st8 m bmap 0) (bmap + 1) (u32 (bcnt - 8))
    else Some (m, bmap, bcnt)
  end.

(** [for (i = 0; i < bcnt; ++i)] *)
Fixpoint bits_free_tail (fuel : nat) (m : memory) (bmap i bcnt : Z) : option memory :=
  match fuel with
  | O => None
  | S fuel =>
    if i <? bcnt then bits_free_tail fuel (ext4_bmap_bit_clr m bmap i) bmap (u32 (i + 1)) bcnt
    else Some m
  end.

Definition ext4_bmap_bits_free (m : memory) (bmap sbit bcnt : Z) : option memory :=
  '(m, r) ← bits_free_head 8 m bmap sbit bcnt;
  match r with
  | None => Some m
  | Some (i, bcnt) =>
    let sbit := i in
    let bmap := bmap + (sbit .>> 3) in
    '(m, bmap, bcnt) ← bits_free_bytes (S (Z.to_nat bcnt)) m bmap bcnt;
    bits_free_tail 9 m bmap 0 bcnt
  end.

(** The loops of [ext4_bmap_bit_find_clr] either return a result (an error
    code and [*bit_id]) or go on with their state. *)
Inductive found := Return (rc bit_id : Z) | Continue (i bcnt : Z).

Fixpoint find_clr_head (fuel : nat) (m : memory) (bmap sbit i bcnt bit_id : Z) : option found :=
  match fuel with
  | O => None
  | S fuel =>
    if c_true (i .& 7) then
      if negb (c_true bcnt) then Some (Return ENOSPC bit_id)
      else if ext4_bmap_is_bit_clr m bmap i then Some (Return EOK sbit)
      else find_clr_head fuel m bmap sbit (u32 (i + 1)) (u32 (bcnt - 1)) bit_id
    else Some (Continue i bcnt)
  end.

(** [for (i = 0; i < n; ++i)] over the bits of one byte. *)
Fixpoint find_clr_byte (fuel : nat) (m : memory) (bmap sbit i n : Z) : option (option Z) :=
  match fuel with
  | O => None
  | S fuel =>
    if i <? n then
      if ext4_bmap_is_bit_clr m bmap i then Some (Some (u32 (sbit + i)))
      else find_clr_byte fuel m bmap sbit (u32 (i + 1)) n
    else Some None
  end.

(** [while (bcnt >= 8)], then the last loop. *)
Fixpoint find_clr_bytes (fuel : nat) (m : memory) (bmap sbit bcnt bit_id : Z) : option (Z * Z) :=
  match fuel with
  | O => None
  | S fuel =>
    if 8 <=? bcnt then
      if negb (ld8 m bmap =? 255) then
        r ← find_clr_byte 9 m bmap sbit 0 8;
        match r with
        | Some b => Some (EOK, b)
        | None => find_clr_bytes fuel m (bmap + 1) (u32 (sbit + 8)) (u32 (bcnt - 8)) bit_id
        end
      else find_clr_bytes fuel m (bmap + 1) (u32 (sbit + 8)) (u32 (bcnt - 8)) bit_id
    else
      r ← find_clr_byte 9 m bmap sbit 0 bcnt;
      match r with
      | Some b => Some (EOK, b)
      | None => Some (ENOSPC, bit_id)
      end
  end.

(** Returns the error code and the new value of [*bit_id]. *)
Definition ext4_bmap_bit_find_clr (m : memory) (bmap sbit ebit bit_id : Z) : option (Z * Z) :=
  let bcnt := u32 (ebit - sbit) in
  r ← find_clr_head 8 m bmap sbit sbit bcnt bit_id;
  match r with
  | Return rc b => Some (rc, b)
  | Continue i bcnt =>
    let sbit := i in
    find_clr_bytes (S (Z.to_nat bcnt)) m (bmap + (sbit .>> 3)) sbit bcnt bit_id
  end.

(** ** Bits of a bitmap *)

Definition bget (m : memory) (bmap i : Z) : bool := Z.testbit (ld8 m (bmap + i / 8)) (i mod 8).

Lemma byte_of bit : 0 <= bit -> bit .>> 3 = bit / 8 /\ bit .& 7 = bit mod 8.
Proof.
  intros. rewrite shiftr_pow2 by lia. change 7 with (Z.ones 3). by rewrite Z.land_ones by lia.
Qed.

Lemma bget_shift m bmap k i : bget m (bmap + k) i = bget m bmap (i + 8 * k).
Proof.
  unfold bget. replace (i + 8 * k) with (i + k * 8) by lia. rewrite Z.div_add, Z.mod_add by lia.
  do 2 f_equal. lia.
Qed.

Lemma same_bit i b : i / 8 = b / 8 -> i mod 8 = b mod 8 <-> i = b.
Proof.
  intros E. split; [|congruence]. intros E'.
  rewrite (Z.div_mod i 8 ltac:(lia)), (Z.div_mod b 8) by lia. by rewrite E, E'.
Qed.

Lemma is_bit_set_ok m bmap bit : 0 <= bit -> ext4_bmap_is_bit_set m bmap bit = bget m bmap bit.
Proof.
  intros Hb. unfold ext4_bmap_is_bit_set. destruct (byte_of bit Hb) as [-> ->].
  apply c_true_land_bit, Z.mod_pos_bound. lia.
Qed.

Lemma bget_st8 m bmap k v i : 0 <= i ->
  bget (st8 m (bmap + k) v) bmap i = if i / 8 =? k then Z.testbit (u8 v) (i mod 8) else bget m bmap i.
Proof.
  intros Hi. unfold bget. case_if.
  - subst k. by rewrite ld8_st8_same.
  - rewrite ld8_st8_other by lia. done.
Qed.

Lemma bget_clr m bmap b i : 0 <= b -> 0 <= i ->
  bget (ext4_bmap_bit_clr m bmap b) bmap i = if i =? b then false else bget m bmap i.
Proof.
  intros Hb Hi. unfold ext4_bmap_bit_clr. destruct (byte_of b Hb) as [-> ->].
  rewrite bget_st8 by done. pose proof (Z.mod_pos_bound i 8 ltac:(lia)). pose proof (Z.mod_pos_bound b 8 ltac:(lia)).
  destruct (i / 8 =? b / 8) eqn:E; zb; [|case_if; [congruence|done]].
  rewrite uw_testbit, Z.land_spec, Z.lnot_spec, testbit_one by lia.
  assert ((i mod 8 <? 8) = true) as -> by lia. unfold bget. rewrite E.
  destruct (i =? b) eqn:Eb; zb.
  - subst i. by rewrite Z.eqb_refl, andb_false_r.
  - assert ((i mod 8 =? b mod 8) = false) as -> by (apply Z.eqb_neq; rewrite same_bit; done).
    apply andb_true_r.
Qed.

Lemma bget_set m bmap b i : 0 <= b -> 0 <= i ->
  bget (ext4_bmap_bit_set m bmap b) bmap i = if i =? b then true else bget m bmap i.
Proof.
  intros Hb Hi. unfold ext4_bmap_bit_set. destruct (byte_of b Hb) as [-> ->].
  rewrite bget_st8 by done. pose proof (Z.mod_pos_bound i 8 ltac:(lia)). pose proof (Z.mod_pos_bound b 8 ltac:(lia)).
  destruct (i / 8 =? b / 8) eqn:E; zb; [|case_if; [congruence|done]].
  rewrite uw_testbit, Z.lor_spec, testbit_one by lia.
  assert ((i mod 8 <? 8) = true) as -> by lia. unfold bget. rewrite E.
  destruct (i =? b) eqn:Eb; zb.
  - subst i. by rewrite Z.eqb_refl, orb_true_r.
  - assert ((i mod 8 =? b mod 8) = false) as -> by (apply Z.eqb_neq; rewrite same_bit; done).
    apply orb_false_r.
Qed.

(** [m'] is [m] with the bits of [lo, hi) cleared, and nothing else changed. *)
Definition cleared (bmap lo hi : Z) (m m' : memory) : Prop :=
  (forall i, 0 <= i -> bget m' bmap i = if (lo <=? i) && (i <? hi) then false else bget m bmap i) /\
  (forall a, a < bmap -> ld8 m' a = ld8 m a).

Lemma cleared_nil bmap lo hi m : hi <= lo -> cleared bmap lo hi m m.
Proof. intros. split; [|done]. intros i Hi. case_if; [lia|done]. Qed.

Lemma cleared_app bmap lo mid hi m m' m'' : lo <= mid <= hi ->
  cleared bmap lo mid m m' -> cleared bmap mid hi m' m'' -> cleared bmap lo hi m m''.
Proof.
  intros Hr [H1 F1] [H2 F2]. split.
  - intros i Hi. rewrite H2, H1 by done.
    destruct ((mid <=? i) && (i <? hi)) eqn:A, ((lo <=? i) && (i <? mid)) eqn:B, ((lo <=? i) && (i <? hi)) eqn:C;
      zb; try done; lia.
  - intros a Ha. by rewrite F2, F1.
Qed.

Lemma cleared_one m bmap b : 0 <= b -> cleared bmap b (b + 1) m (ext4_bmap_bit_clr m bmap b).
Proof.
  intros Hb. split.
  - intros i Hi. rewrite bget_clr by done. repeat case_if; try done; lia.
  - intros a Ha. unfold ext4_bmap_bit_clr. destruct (byte_of b Hb) as [-> _].
    apply ld8_st8_other. pose proof (Z.div_pos b 8). lia.
Qed.

Lemma cleared_byte m bmap : cleared bmap 0 8 m (st8 m bmap 0).
Proof.
  split.
  - intros i Hi. rewrite <- (Z.add_0_r bmap) at 1. rewrite bget_st8 by done.
    change (u8 0) with 0. rewrite Z.bits_0.
    destruct (i / 8 =? 0) eqn:E, ((0 <=? i) && (i <? 8)) eqn:C; zb; try done.
    + apply Z.div_small_iff in E; lia.
    + rewrite Z.div_small in E by lia. done.
  - intros a Ha. apply ld8_st8_other. lia.
Qed.

Lemma cleared_shift bmap k lo hi m m' : 0 <= k -> 0 <= lo ->
  cleared (bmap + k) lo hi m m' -> cleared bmap (lo + 8 * k) (hi + 8 * k) m m'.
Proof.
  intros Hk Hlo [H F]. split.
  - intros i Hi. destruct (decide (8 * k <= i)).
    + specialize (H (i - 8 * k) ltac:(lia)). rewrite !bget_shift in H.
      replace (i - 8 * k + 8 * k) with i in H by lia. rewrite H.
      repeat case_if; try done; lia.
    + case_if; [lia|]. unfold bget. rewrite F; [done|]. 
      assert (i / 8 < k) by (apply Z.div_lt_upper_bound; lia). lia.
  - intros a Ha. apply F. lia.
Qed.

(** ** [ext4_bmap_bits_free] *)

Lemma neg_mod8 i : 0 <= i -> (i mod 8 = 0 -> (- i) mod 8 = 0) /\
  (i mod 8 <> 0 -> (- i) mod 8 = 8 - i mod 8 /\ (- (i + 1)) mod 8 = (- i) mod 8 - 1).
Proof.
  intros Hi. split; intros H; [apply Z.mod_opp_l_z; lia|].
  rewrite (Z.mod_opp_l_nz i 8) by lia. split; [done|].
  pose proof (Z.mod_pos_bound i 8 ltac:(lia)).
  replace (- (i + 1)) with (7 - i mod 8 + (- (i / 8) - 1) * 8) by (pose proof (Z.div_mod i 8 ltac:(lia)); lia).
  rewrite Z.mod_add, Z.mod_small by lia. lia.
Qed.

Lemma land7_true i : 0 <= i -> c_true (i .& 7) = negb (i mod 8 =? 0).
Proof. intros Hi. by destruct (byte_of i Hi) as [_ ->]. Qed.

Lemma bits_free_head_ok bmap fuel : forall m i bcnt, 0 <= i -> 0 <= bcnt -> i + bcnt < 2 ^ 32 ->
  (- i) mod 8 < Z.of_nat fuel ->
  exists m' r, bits_free_head fuel m bmap i bcnt = Some (m', r) /\
    match r with
    | None => cleared bmap i (i + bcnt) m m'
    | Some (i', bcnt') => i <= i' /\ i' + bcnt' = i + bcnt /\ 0 <= bcnt' /\ i' mod 8 = 0 /\ cleared bmap i i' m m'
    end.
Proof.
  induction fuel as [|fuel IH]; intros m i bcnt Hi Hb Hs Hf.
  { pose proof (Z.mod_pos_bound (- i) 8 ltac:(lia)). lia. }
  cbn [bits_free_head]. rewrite land7_true by done. destruct (neg_mod8 i Hi) as [N0 N1].
  destruct (i mod 8 =? 0) eqn:E; zb; cbn [negb].
  { exists m, (Some (i, bcnt)). split; [done|]. split_and!; try lia. apply cleared_nil. lia. }
  unfold c_true. case_if.
  { exists m, None. split; [done|]. apply cleared_nil. lia. }
  destruct (N1 E) as [N2 N3]. usmalls.
  destruct (IH (ext4_bmap_bit_clr m bmap i) (i + 1) (bcnt - 1)) as (m' & r & Hr & Hm); [lia..|].
  exists m', r. split; [done|]. destruct r as [[i' bcnt']|].
  - destruct Hm as (? & ? & ? & ? & Hc). split_and!; try lia.
    apply (cleared_app _ _ (i + 1) _ _ (ext4_bmap_bit_clr m bmap i)); [lia|apply cleared_one; lia|done].
  - replace (i + bcnt) with (i + 1 + (bcnt - 1)) by lia.
    apply (cleared_app _ _ (i + 1) _ _ (ext4_bmap_bit_clr m bmap i)); [lia|apply cleared_one; lia|done].
Qed.

Lemma bits_free_bytes_ok fuel : forall m bmap bcnt, 0 <= bcnt < 2 ^ 32 -> (Z.to_nat bcnt < fuel)%nat ->
  exists m' k, bits_free_bytes fuel m bmap bcnt = Some (m', bmap + k, bcnt - 8 * k) /\
    0 <= k /\ 0 <= bcnt - 8 * k < 8 /\ cleared bmap 0 (8 * k) m m'.
Proof.
  induction fuel as [|fuel IH]; intros m bmap bcnt Hb Hf; [lia|]. cbn [bits_free_bytes]. case_if.
  - usmalls. destruct (IH (st8 m bmap 0) (bmap + 1) (bcnt - 8)) as (m' & k & -> & Hk & Hr & Hc); [lia..|].
    exists m', (k + 1). split; [apply f_equal, f_equal2; [apply f_equal2; [done|lia]|lia]|]. split; [lia|]. split; [lia|].
    apply (cleared_app _ _ 8 _ _ (st8 m bmap 0)); [lia|apply cleared_byte|].
    apply (cleared_shift bmap 1) in Hc; [|lia..]. by replace (8 * (k + 1)) with (8 * k + 8 * 1) by lia.
  - exists m, 0. split; [apply f_equal, f_equal2; [apply f_equal2; [done|lia]|lia]|]. split; [lia|]. split; [lia|]. apply cleared_nil. lia.
Qed.

Lemma bits_free_tail_ok bmap bcnt fuel : forall m i, 0 <= i <= bcnt -> bcnt < 2 ^ 31 ->
  (Z.to_nat (bcnt - i) < fuel)%nat ->
  exists m', bits_free_tail fuel m bmap i bcnt = Some m' /\ cleared bmap i bcnt m m'.
Proof.
  induction fuel as [|fuel IH]; intros m i Hi Hb Hf; [lia|]. cbn [bits_free_tail]. case_if.
  - usmalls. destruct (IH (ext4_bmap_bit_clr m bmap i) (i + 1)) as (m' & -> & Hc); [lia..|].
    exists m'. split; [done|].
    apply (cleared_app _ _ (i + 1) _ _ (ext4_bmap_bit_clr m bmap i)); [lia|apply cleared_one; lia|done].
  - exists m. split; [done|]. apply cleared_nil. lia.
Qed.

Lemma bits_free_ok m bmap sbit bcnt : 0 <= sbit -> 0 <= bcnt -> sbit + bcnt < 2 ^ 32 ->
  exists m', ext4_bmap_bits_free m bmap sbit bcnt = Some m' /\ cleared bmap sbit (sbit + bcnt) m m'.
Proof.
  intros Hs Hb Hsum. unfold ext4_bmap_bits_free.
  pose proof (Z.mod_pos_bound (- sbit) 8 ltac:(lia)).
  destruct (bits_free_head_ok bmap 8 m sbit bcnt Hs Hb Hsum ltac:(lia)) as (m1 & r & -> & H1). cbn [mbind option_bind].
  destruct r as [[i b1]|]; [|by exists m1]. destruct H1 as (Hi & Hsum' & Hb1 & Hm & Hc1).
  assert (i .>> 3 = i / 8 /\ i = 8 * (i / 8)) as [-> Ei].
  { split; [by apply byte_of; lia|]. pose proof (Z.div_mod i 8 ltac:(lia)). lia. }
  destruct (bits_free_bytes_ok (S (Z.to_nat b1)) m1 (bmap + i / 8) b1) as (m2 & k & -> & Hk & Hr & Hc2); [lia..|].
  cbn [mbind option_bind].
  destruct (bits_free_tail_ok (bmap + i / 8 + k) (b1 - 8 * k) 9 m2 0) as (m3 & -> & Hc3); [pow2; lia..|].
  exists m3. split; [done|].
  apply cleared_shift in Hc2; [|lia..]. rewrite <- Z.add_assoc in Hc3. apply cleared_shift in Hc3; [|lia..].
  apply (cleared_app _ _ i _ _ m1); [lia|done|].
  apply (cleared_app _ _ (i + 8 * k) _ _ m2); [lia|..].
  - by replace i with (0 + 8 * (i / 8)) at 1 by lia; replace (i + 8 * k) with (8 * k + 8 * (i / 8)) by lia.
  - replace (i + 8 * k) with (0 + 8 * (i / 8 + k)) by lia.
    by replace (sbit + bcnt) with (b1 - 8 * k + 8 * (i / 8 + k)) by lia.
Qed.

(** ** [ext4_bmap_bit_find_clr] *)

Definition all_set (m : memory) (bmap lo hi : Z) : Prop := forall i, lo <= i < hi -> bget m bmap i = true.

Definition first_clear (m : memory) (bmap lo hi b : Z) : Prop :=
  lo <= b < hi /\ bget m bmap b = false /\ all_set m bmap lo b.

Lemma all_set_app m bmap lo mid hi :
  all_set m bmap lo mid -> all_set m bmap mid hi -> all_set m bmap lo hi.
Proof. intros H1 H2 i Hi. destruct (decide (i < mid)); [apply H1|apply H2]; lia. Qed.

Lemma first_clear_app m bmap lo mid hi b :
  lo <= mid -> all_set m bmap lo mid -> first_clear m bmap mid hi b -> first_clear m bmap lo hi b.
Proof. intros Hl H1 (Hr & Hb & H2). split; [lia|]. split; [done|]. by eapply all_set_app. Qed.

Lemma all_set_one m bmap i : bget m bmap i = true -> all_set m bmap i (i + 1).
Proof. intros H k Hk. by replace k with i by lia. Qed.

Lemma is_bit_clr_ok m bmap bit : 0 <= bit -> ext4_bmap_is_bit_clr m bmap bit = negb (bget m bmap bit).
Proof. intros. unfold ext4_bmap_is_bit_clr. by rewrite is_bit_set_ok. Qed.

Lemma find_clr_head_ok m bmap sbit bit_id fuel : forall i bcnt, 0 <= i -> 0 <= bcnt -> i + bcnt < 2 ^ 32 ->
  (- i) mod 8 < Z.of_nat fuel ->
  (find_clr_head fuel m bmap sbit i bcnt bit_id = Some (Return ENOSPC bit_id) /\ all_set m bmap i (i + bcnt)) \/
  (find_clr_head fuel m bmap sbit i bcnt bit_id = Some (Return EOK sbit) /\
     exists b, first_clear m bmap i (i + bcnt) b /\ b < i + (- i) mod 8) \/
  (exists bcnt', find_clr_head fuel m bmap sbit i bcnt bit_id = Some (Continue (i + (- i) mod 8) bcnt') /\
     i + (- i) mod 8 + bcnt' = i + bcnt /\ 0 <= bcnt' /\ all_set m bmap i (i + (- i) mod 8)).
Proof.
  induction fuel as [|fuel IH]; intros i bcnt Hi Hb Hs Hf.
  { pose proof (Z.mod_pos_bound (- i) 8 ltac:(lia)). lia. }
  cbn [find_clr_head]. rewrite land7_true by done. destruct (neg_mod8 i Hi) as [N0 N1].
  destruct (i mod 8 =? 0) eqn:E; zb; cbn [negb].
  { right; right. exists bcnt. rewrite N0 by done. rewrite Z.add_0_r. split_and!; try done; try lia.
    intros k Hk. lia. }
  destruct (N1 E) as [N2 N3]. pose proof (Z.mod_pos_bound i 8 ltac:(lia)).
  unfold c_true. case_if.
  { left. split; [done|]. intros k Hk. lia. }
  rewrite is_bit_clr_ok by done. destruct (bget m bmap i) eqn:Eb; cbn [negb]; cycle 1.
  { right; left. split; [done|]. exists i. split; [|lia]. split; [lia|]. split; [done|]. intros k Hk. lia. }
  usmalls. pose proof (all_set_one _ _ _ Eb) as H1.
  replace (i + (- i) mod 8) with (i + 1 + (- (i + 1)) mod 8) by lia.
  replace (i + bcnt) with (i + 1 + (bcnt - 1)) by lia.
  destruct (IH (i + 1) (bcnt - 1)) as [[-> Ha]|[[-> (b & Hc & Hl)]|(b' & -> & Hs' & Hb' & Ha)]]; [lia..| | |].
  - left. split; [done|]. by eapply all_set_app.
  - right; left. split; [done|]. exists b. split; [|done]. eapply first_clear_app; [|done..]. lia.
  - right; right. exists b'. split_and!; try done. by eapply all_set_app.
Qed.

Lemma find_clr_byte_ok m bmap sbit n fuel : forall i, 0 <= i <= n -> n <= 8 -> 0 <= sbit -> sbit + n <= 2 ^ 32 ->
  (Z.to_nat (n - i) < fuel)%nat ->
  (exists k, find_clr_byte fuel m bmap sbit i n = Some (Some (sbit + k)) /\ first_clear m bmap i n k) \/
  (find_clr_byte fuel m bmap sbit i n = Some None /\ all_set m bmap i n).
Proof.
  induction fuel as [|fuel IH]; intros i Hi Hn Hs Hsn Hf; [lia|]. cbn [find_clr_byte]. case_if; cycle 1.
  { right. split; [done|]. intros k Hk. lia. }
  rewrite is_bit_clr_ok by lia. destruct (bget m bmap i) eqn:Eb; cbn [negb]; cycle 1.
  { left. exists i. usmalls. split; [done|]. split; [lia|]. split; [done|]. intros k Hk. lia. }
  usmalls. pose proof (all_set_one _ _ _ Eb) as H1.
  destruct (IH (i + 1)) as [(k & -> & Hc)|[-> Ha]]; [lia..| |].
  - left. exists k. split; [done|]. eapply first_clear_app; [|done..]. lia.
  - right. split; [done|]. by eapply all_set_app.
Qed.

Lemma full_byte m bmap : ld8 m bmap = 255 -> all_set m bmap 0 8.
Proof.
  intros E i Hi. unfold bget. rewrite Z.div_small, Z.add_0_r, E, Z.mod_small by lia.
  assert (i = 0 \/ i = 1 \/ i = 2 \/ i = 3 \/ i = 4 \/ i = 5 \/ i = 6 \/ i = 7) as Hc by lia.
  by destruct_or! Hc; subst i.
Qed.

Lemma all_set_shift m bmap k lo hi : all_set m (bmap + k) lo hi -> all_set m bmap (lo + 8 * k) (hi + 8 * k).
Proof.
  intros H i Hi. specialize (H (i - 8 * k) ltac:(lia)). rewrite bget_shift in H.
  by replace (i - 8 * k + 8 * k) with i in H by lia.
Qed.

Lemma first_clear_shift m bmap k lo hi b :
  first_clear m (bmap + k) lo hi b -> first_clear m bmap (lo + 8 * k) (hi + 8 * k) (b + 8 * k).
Proof.
  intros (Hr & Hb & Ha). split; [lia|]. split; [by rewrite <- bget_shift|]. by apply all_set_shift.
Qed.

Lemma find_clr_bytes_ok m bit_id fuel : forall bmap sbit bcnt, 0 <= bcnt -> 0 <= sbit -> sbit + bcnt < 2 ^ 32 ->
  (Z.to_nat bcnt < fuel)%nat ->
  (exists k, find_clr_bytes fuel m bmap sbit bcnt bit_id = Some (EOK, sbit + k) /\ first_clear m bmap 0 bcnt k) \/
  (find_clr_bytes fuel m bmap sbit bcnt bit_id = Some (ENOSPC, bit_id) /\ all_set m bmap 0 bcnt).
Proof.
  induction fuel as [|fuel IH]; intros bmap sbit bcnt Hb Hs Hsum Hf; [lia|]. cbn [find_clr_bytes]. case_if.
  - assert (all_set m bmap 0 8 ->
      (exists k, find_clr_bytes fuel m (bmap + 1) (u32 (sbit + 8)) (u32 (bcnt - 8)) bit_id = Some (EOK, sbit + k) /\
         first_clear m bmap 0 bcnt k) \/
      (find_clr_bytes fuel m (bmap + 1) (u32 (sbit + 8)) (u32 (bcnt - 8)) bit_id = Some (ENOSPC, bit_id) /\
         all_set m bmap 0 bcnt)) as Hgo.
    { intros H8. usmalls. destruct (IH (bmap + 1) (sbit + 8) (bcnt - 8)) as [(k & -> & Hc)|[-> Ha]]; [lia..| |].
      - left. exists (k + 8). split; [do 2 f_equal; lia|].
        apply (first_clear_app _ _ _ 8); [lia|done|]. apply first_clear_shift in Hc.
        by replace (bcnt - 8 + 8 * 1) with bcnt in Hc by lia.
      - right. split; [done|]. apply (all_set_app _ _ _ 8); [done|]. apply all_set_shift in Ha.
        by replace (bcnt - 8 + 8 * 1) with bcnt in Ha by lia. }
    destruct (ld8 m bmap =? 255) eqn:E8; zb; cbn [negb]; [by apply Hgo, full_byte|].
    destruct (find_clr_byte_ok m bmap sbit 8 9 0) as [(k & -> & Hc)|[-> Ha]]; [lia..| |]; cbn [mbind option_bind].
    + left. exists k. split; [done|]. destruct Hc as (? & ? & ?). split; [lia|done].
    + by apply Hgo.
  - destruct (find_clr_byte_ok m bmap sbit bcnt 9 0) as [(k & -> & Hc)|[-> Ha]]; [lia..| |]; cbn [mbind option_bind].
    + left. by exists k.
    + by right.
Qed.

Lemma find_clr_ok m bmap sbit ebit bit_id : 0 <= sbit <= ebit -> ebit < 2 ^ 32 ->
  (exists c, first_clear m bmap sbit ebit c /\
     ext4_bmap_bit_find_clr m bmap sbit ebit bit_id =
       Some (EOK, if c <? sbit + (- sbit) mod 8 then sbit else c)) \/
  (all_set m bmap sbit ebit /\ ext4_bmap_bit_find_clr m bmap sbit ebit bit_id = Some (ENOSPC, bit_id)).
Proof.
  intros Hs He. unfold ext4_bmap_bit_find_clr. usmalls.
  pose proof (Z.mod_pos_bound (- sbit) 8 ltac:(lia)) as Hm. set (i := sbit + (- sbit) mod 8) in *.
  destruct (find_clr_head_ok m bmap sbit bit_id 8 sbit (ebit - sbit)) as [[-> Ha]|[[-> (c & Hc & Hl)]|(b & -> & Hsum & Hb & Ha)]];
    [lia..| | |]; rewrite ?Zplus_minus in *; cbn [mbind option_bind].
  - by right.
  - left. exists c. split; [done|]. fold i in Hl. case_if; [done|lia].
  - fold i in Ha, Hsum |- *.
    assert (i .>> 3 = i / 8 /\ i = 8 * (i / 8)) as [-> Ei].
    { split; [by apply byte_of; lia|]. pose proof (Z.div_mod i 8 ltac:(lia)) as Hd.
      assert (i mod 8 = 0) as E0; [|lia].
      unfold i. rewrite Z.add_mod, Z.mod_mod, <- Z.add_mod, Z.add_opp_diag_r by lia. done. }
    assert (forall x, x + 8 * (i / 8) = i + x) as Ex by lia.
    destruct (find_clr_bytes_ok m bit_id (S (Z.to_nat b)) (bmap + i / 8) i b) as [(k & -> & Hc)|[-> Hall]]; [lia..| |].
    + left. exists (i + k). apply first_clear_shift in Hc. rewrite !Ex, Z.add_0_r, Hsum in Hc.
      split; [by apply (first_clear_app _ _ _ i); [lia|..]|]. destruct Hc as (? & _). case_if; [lia|done].
    + right. split; [|done]. apply all_set_shift in Hall. rewrite !Ex, Z.add_0_r, Hsum in Hall.
      by eapply all_set_app.
Qed.

(** ** Theorems *)

(** Setting or clearing a bit of a bitmap changes that bit and no other,
    and the two tests read back what was written. *)
Theorem bmap_bit_update m bmap b i :
  0 <= b -> 0 <= i ->
  ext4_bmap_is_bit_set (ext4_bmap_bit_set m bmap b) bmap i =
    (if i =? b then true else ext4_bmap_is_bit_set m bmap i) /\
  ext4_bmap_is_bit_clr (ext4_bmap_bit_clr m bmap b) bmap i =
    (if i =? b then true else ext4_bmap_is_bit_clr m bmap i).
Proof.
  intros Hb Hi. rewrite !is_bit_clr_ok, !is_bit_set_ok, bget_set, bget_clr by done.
  split; [done|]. by destruct (i =? b).
Qed.

Lemma bmap_bit_update_witness :
  ext4_bmap_is_bit_set (ext4_bmap_bit_set (fun _ => 0) 100 13) 100 13 = true.
Proof. apply (bmap_bit_update (fun _ => 0) 100 13 13); lia. Defined.

(** C19. Releasing a range ends, clears exactly the bits of the range, whatever
    its alignment, and leaves the memory before the bitmap alone. *)
Theorem bmap_bits_free_range m bmap sbit bcnt :
  0 <= sbit -> 0 <= bcnt -> sbit + bcnt < 2 ^ 32 ->
  exists m', ext4_bmap_bits_free m bmap sbit bcnt = Some m' /\
    (forall i, 0 <= i -> ext4_bmap_is_bit_set m' bmap i =
       if (sbit <=? i) && (i <? sbit + bcnt) then false else ext4_bmap_is_bit_set m bmap i) /\
    (forall a, a < bmap -> ld8 m' a = ld8 m a).
Proof.
  intros Hs Hb Hsum. destruct (bits_free_ok m bmap sbit bcnt Hs Hb Hsum) as (m' & E & Hc & Hf).
  exists m'. split; [done|]. split; [|done]. intros i Hi. rewrite !is_bit_set_ok by done. by apply Hc.
Qed.

Lemma bmap_bits_free_range_witness :
  exists m', ext4_bmap_bits_free (fun _ => 255) 100 5 30 = Some m' /\
    ext4_bmap_is_bit_set m' 100 34 = false /\ ext4_bmap_is_bit_set m' 100 35 = true.
Proof.
  destruct (bmap_bits_free_range (fun _ => 255) 100 5 30) as (m' & E & H & _); [lia..|].
  exists m'. split; [exact E|]. split; rewrite H by lia; reflexivity.
Defined.

(** A search that starts at a byte boundary returns the first clear bit of
    the range, and ENOSPC, leaving [*bit_id] alone, exactly when there is none. *)
Theorem bmap_find_clr_aligned m bmap sbit ebit bit_id :
  0 <= sbit <= ebit -> ebit < 2 ^ 32 -> sbit mod 8 = 0 ->
  (exists c, sbit <= c < ebit /\ ext4_bmap_is_bit_clr m bmap c = true /\
     (forall i, sbit <= i < c -> ext4_bmap_is_bit_set m bmap i = true) /\
     ext4_bmap_bit_find_clr m bmap sbit ebit bit_id = Some (EOK, c)) \/
  ((forall i, sbit <= i < ebit -> ext4_bmap_is_bit_set m bmap i = true) /\
   ext4_bmap_bit_find_clr m bmap sbit ebit bit_id = Some (ENOSPC, bit_id)).
Proof.
  intros Hs He Hm. destruct (neg_mod8 sbit ltac:(lia)) as [N0 _]. specialize (N0 Hm).
  destruct (find_clr_ok m bmap sbit ebit bit_id Hs He) as [(c & (Hr & Hc & Ha) & ->)|[Ha ->]].
  - left. exists c. rewrite is_bit_clr_ok, Hc by lia. rewrite N0, Z.add_0_r. case_if; [lia|].
    split_and!; try done; try lia. intros i Hi. rewrite is_bit_set_ok by lia. by apply Ha.
  - right. split; [|done]. intros i Hi. rewrite is_bit_set_ok by lia. by apply Ha.
Qed.

Lemma bmap_find_clr_aligned_witness :
  let m := fun a => if a =? 102 then 247 else 255 in
  exists c, 8 <= c < 40 /\ ext4_bmap_is_bit_clr m 100 c = true /\
    ext4_bmap_bit_find_clr m 100 8 40 0 = Some (EOK, c).
Proof.
  destruct (bmap_find_clr_aligned (fun a => if a =? 102 then 247 else 255) 100 8 40 0)
    as [(c & Hr & Hc & _ & E)|[_ E]]; [lia|lia|reflexivity| |].
  - exists c. split; [exact Hr|]. split; [exact Hc|exact E].
  - discriminate E.
Defined.

(** Started inside a byte, the search answers with the start bit itself when
    the first clear bit lies in the rest of that byte, even if the start bit is
    in use: the caller is handed an occupied bit. *)
Theorem bmap_find_clr_unaligned m bmap sbit ebit bit_id c :
  0 <= sbit -> ebit < 2 ^ 32 -> sbit <= c < ebit -> c < sbit + (- sbit) mod 8 ->
  ext4_bmap_is_bit_clr m bmap c = true ->
  (forall i, sbit <= i < c -> ext4_bmap_is_bit_set m bmap i = true) ->
  ext4_bmap_bit_find_clr m bmap sbit ebit bit_id = Some (EOK, sbit).
Proof.
  intros Hs He Hc Hb Hclr Hset. rewrite is_bit_clr_ok in Hclr by lia. apply negb_true_iff in Hclr.
  destruct (find_clr_ok m bmap sbit ebit bit_id ltac:(lia) He) as [(c' & (Hr & Hc' & Ha) & ->)|[Ha _]].
  - assert (c' = c) as ->; [|by case_if; [|lia]].
    destruct (Z.lt_trichotomy c' c) as [Hlt|[?|Hgt]]; [|done|].
    + specialize (Hset c' ltac:(lia)). rewrite is_bit_set_ok in Hset by lia. congruence.
    + specialize (Ha c ltac:(lia)). congruence.
  - specialize (Ha c ltac:(lia)). congruence.
Qed.

Lemma bmap_find_clr_unaligned_witness :
  ext4_bmap_is_bit_set (fun _ => 31) 100 3 = true /\
  ext4_bmap_bit_find_clr (fun _ => 31) 100 3 40 0 = Some (EOK, 3).
Proof.
  split; [reflexivity|]. apply (bmap_find_clr_unaligned _ _ _ _ _ 5); [lia..|reflexivity|reflexivity|].
  intros i Hi. assert (i = 3 \/ i = 4) as [->| ->] by lia; reflexivity.
Defined.
