(* ===== verification/Ext4Crc.v ===== *)
(** lwext4, checksums: [src/ext4_crc32.c] and the CRC-16 of
    [src/ext4_block_group.c].  The code indexes a 256-entry table per byte; the
    reference is the bit-by-bit shift register of the reflected polynomial. *)
From S2P Require Import Prelude Memory.

(** ** Code *)

Definition crc32_tab : list Z :=
  [0x00000000; 0x77073096; 0xee0e612c; 0x990951ba; 0x076dc419; 0x706af48f; 0xe963a535; 0x9e6495a3;
   0x0edb8832; 0x79dcb8a4; 0xe0d5e91e; 0x97d2d988; 0x09b64c2b; 0x7eb17cbd; 0xe7b82d07; 0x90bf1d91;
   0x1db71064; 0x6ab020f2; 0xf3b97148; 0x84be41de; 0x1adad47d; 0x6ddde4eb; 0xf4d4b551; 0x83d385c7;
   0x136c9856; 0x646ba8c0; 0xfd62f97a; 0x8a65c9ec; 0x14015c4f; 0x63066cd9; 0xfa0f3d63; 0x8d080df5;
   0x3b6e20c8; 0x4c69105e; 0xd56041e4; 0xa2677172; 0x3c03e4d1; 0x4b04d447; 0xd20d85fd; 0xa50ab56b;
   0x35b5a8fa; 0x42b2986c; 0xdbbbc9d6; 0xacbcf940; 0x32d86ce3; 0x45df5c75; 0xdcd60dcf; 0xabd13d59;
   0x26d930ac; 0x51de003a; 0xc8d75180; 0xbfd06116; 0x21b4f4b5; 0x56b3c423; 0xcfba9599; 0xb8bda50f;
   0x2802b89e; 0x5f058808; 0xc60cd9b2; 0xb10be924; 0x2f6f7c87; 0x58684c11; 0xc1611dab; 0xb6662d3d;
   0x76dc4190; 0x01db7106; 0x98d220bc; 0xefd5102a; 0x71b18589; 0x06b6b51f; 0x9fbfe4a5; 0xe8b8d433;
   0x7807c9a2; 0x0f00f934; 0x9609a88e; 0xe10e9818; 0x7f6a0dbb; 0x086d3d2d; 0x91646c97; 0xe6635c01;
   0x6b6b51f4; 0x1c6c6162; 0x856530d8; 0xf262004e; 0x6c0695ed; 0x1b01a57b; 0x8208f4c1; 0xf50fc457;
   0x65b0d9c6; 0x12b7e950; 0x8bbeb8ea; 0xfcb9887c; 0x62dd1ddf; 0x15da2d49; 0x8cd37cf3; 0xfbd44c65;
   0x4db26158; 0x3ab551ce; 0xa3bc0074; 0xd4bb30e2; 0x4adfa541; 0x3dd895d7; 0xa4d1c46d; 0xd3d6f4fb;
   0x4369e96a; 0x346ed9fc; 0xad678846; 0xda60b8d0; 0x44042d73; 0x33031de5; 0xaa0a4c5f; 0xdd0d7cc9;
   0x5005713c; 0x270241aa; 0xbe0b1010; 0xc90c2086; 0x5768b525; 0x206f85b3; 0xb966d409; 0xce61e49f;
   0x5edef90e; 0x29d9c998; 0xb0d09822; 0xc7d7a8b4; 0x59b33d17; 0x2eb40d81; 0xb7bd5c3b; 0xc0ba6cad;
   0xedb88320; 0x9abfb3b6; 0x03b6e20c; 0x74b1d29a; 0xead54739; 0x9dd277af; 0x04db2615; 0x73dc1683;
   0xe3630b12; 0x94643b84; 0x0d6d6a3e; 0x7a6a5aa8; 0xe40ecf0b; 0x9309ff9d; 0x0a00ae27; 0x7d079eb1;
   0xf00f9344; 0x8708a3d2; 0x1e01f268; 0x6906c2fe; 0xf762575d; 0x806567cb; 0x196c3671; 0x6e6b06e7;
   0xfed41b76; 0x89d32be0; 0x10da7a5a; 0x67dd4acc; 0xf9b9df6f; 0x8ebeeff9; 0x17b7be43; 0x60b08ed5;
   0xd6d6a3e8; 0xa1d1937e; 0x38d8c2c4; 0x4fdff252; 0xd1bb67f1; 0xa6bc5767; 0x3fb506dd; 0x48b2364b;
   0xd80d2bda; 0xaf0a1b4c; 0x36034af6; 0x41047a60; 0xdf60efc3; 0xa867df55; 0x316e8eef; 0x4669be79;
   0xcb61b38c; 0xbc66831a; 0x256fd2a0; 0x5268e236; 0xcc0c7795; 0xbb0b4703; 0x220216b9; 0x5505262f;
   0xc5ba3bbe; 0xb2bd0b28; 0x2bb45a92; 0x5cb36a04; 0xc2d7ffa7; 0xb5d0cf31; 0x2cd99e8b; 0x5bdeae1d;
   0x9b64c2b0; 0xec63f226; 0x756aa39c; 0x026d930a; 0x9c0906a9; 0xeb0e363f; 0x72076785; 0x05005713;
   0x95bf4a82; 0xe2b87a14; 0x7bb12bae; 0x0cb61b38; 0x92d28e9b; 0xe5d5be0d; 0x7cdcefb7; 0x0bdbdf21;
   0x86d3d2d4; 0xf1d4e242; 0x68ddb3f8; 0x1fda836e; 0x81be16cd; 0xf6b9265b; 0x6fb077e1; 0x18b74777;
   0x88085ae6; 0xff0f6a70; 0x66063bca; 0x11010b5c; 0x8f659eff; 0xf862ae69; 0x616bffd3; 0x166ccf45;
   0xa00ae278; 0xd70dd2ee; 0x4e048354; 0x3903b3c2; 0xa7672661; 0xd06016f7; 0x4969474d; 0x3e6e77db;
   0xaed16a4a; 0xd9d65adc; 0x40df0b66; 0x37d83bf0; 0xa9bcae53; 0xdebb9ec5; 0x47b2cf7f; 0x30b5ffe9;
   0xbdbdf21c; 0xcabac28a; 0x53b39330; 0x24b4a3a6; 0xbad03605; 0xcdd70693; 0x54de5729; 0x23d967bf;
   0xb3667a2e; 0xc4614ab8; 0x5d681b02; 0x2a6f2b94; 0xb40bbe37; 0xc30c8ea1; 0x5a05df1b; 0x2d02ef8d].

Definition crc32c_tab : list Z :=
  [0x00000000; 0xf26b8303; 0xe13b70f7; 0x1350f3f4; 0xc79a971f; 0x35f1141c; 0x26a1e7e8; 0xd4ca64eb;
   0x8ad958cf; 0x78b2dbcc; 0x6be22838; 0x9989ab3b; 0x4d43cfd0; 0xbf284cd3; 0xac78bf27; 0x5e133c24;
   0x105ec76f; 0xe235446c; 0xf165b798; 0x030e349b; 0xd7c45070; 0x25afd373; 0x36ff2087; 0xc494a384;
   0x9a879fa0; 0x68ec1ca3; 0x7bbcef57; 0x89d76c54; 0x5d1d08bf; 0xaf768bbc; 0xbc267848; 0x4e4dfb4b;
   0x20bd8ede; 0xd2d60ddd; 0xc186fe29; 0x33ed7d2a; 0xe72719c1; 0x154c9ac2; 0x061c6936; 0xf477ea35;
   0xaa64d611; 0x580f5512; 0x4b5fa6e6; 0xb93425e5; 0x6dfe410e; 0x9f95c20d; 0x8cc531f9; 0x7eaeb2fa;
   0x30e349b1; 0xc288cab2; 0xd1d83946; 0x23b3ba45; 0xf779deae; 0x05125dad; 0x1642ae59; 0xe4292d5a;
   0xba3a117e; 0x4851927d; 0x5b016189; 0xa96ae28a; 0x7da08661; 0x8fcb0562; 0x9c9bf696; 0x6ef07595;
   0x417b1dbc; 0xb3109ebf; 0xa0406d4b; 0x522bee48; 0x86e18aa3; 0x748a09a0; 0x67dafa54; 0x95b17957;
   0xcba24573; 0x39c9c670; 0x2a993584; 0xd8f2b687; 0x0c38d26c; 0xfe53516f; 0xed03a29b; 0x1f682198;
   0x5125dad3; 0xa34e59d0; 0xb01eaa24; 0x42752927; 0x96bf4dcc; 0x64d4cecf; 0x77843d3b; 0x85efbe38;
   0xdbfc821c; 0x2997011f; 0x3ac7f2eb; 0xc8ac71e8; 0x1c661503; 0xee0d9600; 0xfd5d65f4; 0x0f36e6f7;
   0x61c69362; 0x93ad1061; 0x80fde395; 0x72966096; 0xa65c047d; 0x5437877e; 0x4767748a; 0xb50cf789;
   0xeb1fcbad; 0x197448ae; 0x0a24bb5a; 0xf84f3859; 0x2c855cb2; 0xdeeedfb1; 0xcdbe2c45; 0x3fd5af46;
   0x7198540d; 0x83f3d70e; 0x90a324fa; 0x62c8a7f9; 0xb602c312; 0x44694011; 0x5739b3e5; 0xa55230e6;
   0xfb410cc2; 0x092a8fc1; 0x1a7a7c35; 0xe811ff36; 0x3cdb9bdd; 0xceb018de; 0xdde0eb2a; 0x2f8b6829;
   0x82f63b78; 0x709db87b; 0x63cd4b8f; 0x91a6c88c; 0x456cac67; 0xb7072f64; 0xa457dc90; 0x563c5f93;
   0x082f63b7; 0xfa44e0b4; 0xe9141340; 0x1b7f9043; 0xcfb5f4a8; 0x3dde77ab; 0x2e8e845f; 0xdce5075c;
   0x92a8fc17; 0x60c37f14; 0x73938ce0; 0x81f80fe3; 0x55326b08; 0xa759e80b; 0xb4091bff; 0x466298fc;
   0x1871a4d8; 0xea1a27db; 0xf94ad42f; 0x0b21572c; 0xdfeb33c7; 0x2d80b0c4; 0x3ed04330; 0xccbbc033;
   0xa24bb5a6; 0x502036a5; 0x4370c551; 0xb11b4652; 0x65d122b9; 0x97baa1ba; 0x84ea524e; 0x7681d14d;
   0x2892ed69; 0xdaf96e6a; 0xc9a99d9e; 0x3bc21e9d; 0xef087a76; 0x1d63f975; 0x0e330a81; 0xfc588982;
   0xb21572c9; 0x407ef1ca; 0x532e023e; 0xa145813d; 0x758fe5d6; 0x87e466d5; 0x94b49521; 0x66df1622;
   0x38cc2a06; 0xcaa7a905; 0xd9f75af1; 0x2b9cd9f2; 0xff56bd19; 0x0d3d3e1a; 0x1e6dcdee; 0xec064eed;
   0xc38d26c4; 0x31e6a5c7; 0x22b65633; 0xd0ddd530; 0x0417b1db; 0xf67c32d8; 0xe52cc12c; 0x1747422f;
   0x49547e0b; 0xbb3ffd08; 0xa86f0efc; 0x5a048dff; 0x8ecee914; 0x7ca56a17; 0x6ff599e3; 0x9d9e1ae0;
   0xd3d3e1ab; 0x21b862a8; 0x32e8915c; 0xc083125f; 0x144976b4; 0xe622f5b7; 0xf5720643; 0x07198540;
   0x590ab964; 0xab613a67; 0xb831c993; 0x4a5a4a90; 0x9e902e7b; 0x6cfbad78; 0x7fab5e8c; 0x8dc0dd8f;
   0xe330a81a; 0x115b2b19; 0x020bd8ed; 0xf0605bee; 0x24aa3f05; 0xd6c1bc06; 0xc5914ff2; 0x37faccf1;
   0x69e9f0d5; 0x9b8273d6; 0x88d28022; 0x7ab90321; 0xae7367ca; 0x5c18e4c9; 0x4f48173d; 0xbd23943e;
   0xf36e6f75; 0x0105ec76; 0x12551f82; 0xe03e9c81; 0x34f4f86a; 0xc69f7b69; 0xd5cf889d; 0x27a40b9e;
   0x79b737ba; 0x8bdcb4b9; 0x988c474d; 0x6ae7c44e; 0xbe2da0a5; 0x4c4623a6; 0x5f16d052; 0xad7d5351].

Definition crc16_tab : list Z :=
  [0x0000; 0xc0c1; 0xc181; 0x0140; 0xc301; 0x03c0; 0x0280; 0xc241;
   0xc601; 0x06c0; 0x0780; 0xc741; 0x0500; 0xc5c1; 0xc481; 0x0440;
   0xcc01; 0x0cc0; 0x0d80; 0xcd41; 0x0f00; 0xcfc1; 0xce81; 0x0e40;
   0x0a00; 0xcac1; 0xcb81; 0x0b40; 0xc901; 0x09c0; 0x0880; 0xc841;
   0xd801; 0x18c0; 0x1980; 0xd941; 0x1b00; 0xdbc1; 0xda81; 0x1a40;
   0x1e00; 0xdec1; 0xdf81; 0x1f40; 0xdd01; 0x1dc0; 0x1c80; 0xdc41;
   0x1400; 0xd4c1; 0xd581; 0x1540; 0xd701; 0x17c0; 0x1680; 0xd641;
   0xd201; 0x12c0; 0x1380; 0xd341; 0x1100; 0xd1c1; 0xd081; 0x1040;
   0xf001; 0x30c0; 0x3180; 0xf141; 0x3300; 0xf3c1; 0xf281; 0x3240;
   0x3600; 0xf6c1; 0xf781; 0x3740; 0xf501; 0x35c0; 0x3480; 0xf441;
   0x3c00; 0xfcc1; 0xfd81; 0x3d40; 0xff01; 0x3fc0; 0x3e80; 0xfe41;
   0xfa01; 0x3ac0; 0x3b80; 0xfb41; 0x3900; 0xf9c1; 0xf881; 0x3840;
   0x2800; 0xe8c1; 0xe981; 0x2940; 0xeb01; 0x2bc0; 0x2a80; 0xea41;
   0xee01; 0x2ec0; 0x2f80; 0xef41; 0x2d00; 0xedc1; 0xec81; 0x2c40;
   0xe401; 0x24c0; 0x2580; 0xe541; 0x2700; 0xe7c1; 0xe681; 0x2640;
   0x2200; 0xe2c1; 0xe381; 0x2340; 0xe101; 0x21c0; 0x2080; 0xe041;
   0xa001; 0x60c0; 0x6180; 0xa141; 0x6300; 0xa3c1; 0xa281; 0x6240;
   0x6600; 0xa6c1; 0xa781; 0x6740; 0xa501; 0x65c0; 0x6480; 0xa441;
   0x6c00; 0xacc1; 0xad81; 0x6d40; 0xaf01; 0x6fc0; 0x6e80; 0xae41;
   0xaa01; 0x6ac0; 0x6b80; 0xab41; 0x6900; 0xa9c1; 0xa881; 0x6840;
   0x7800; 0xb8c1; 0xb981; 0x7940; 0xbb01; 0x7bc0; 0x7a80; 0xba41;
   0xbe01; 0x7ec0; 0x7f80; 0xbf41; 0x7d00; 0xbdc1; 0xbc81; 0x7c40;
   0xb401; 0x74c0; 0x7580; 0xb541; 0x7700; 0xb7c1; 0xb681; 0x7640;
   0x7200; 0xb2c1; 0xb381; 0x7340; 0xb101; 0x71c0; 0x7080; 0xb041;
   0x5000; 0x90c1; 0x9181; 0x5140; 0x9301; 0x53c0; 0x5280; 0x9241;
   0x9601; 0x56c0; 0x5780; 0x9741; 0x5500; 0x95c1; 0x9481; 0x5440;
   0x9c01; 0x5cc0; 0x5d80; 0x9d41; 0x5f00; 0x9fc1; 0x9e81; 0x5e40;
   0x5a00; 0x9ac1; 0x9b81; 0x5b40; 0x9901; 0x59c0; 0x5880; 0x9841;
   0x8801; 0x48c0; 0x4980; 0x8941; 0x4b00; 0x8bc1; 0x8a81; 0x4a40;
   0x4e00; 0x8ec1; 0x8f81; 0x4f40; 0x8d01; 0x4dc0; 0x4c80; 0x8c41;
   0x4400; 0x84c1; 0x8581; 0x4540; 0x8701; 0x47c0; 0x4680; 0x8641;
   0x8201; 0x42c0; 0x4380; 0x8341; 0x4100; 0x81c1; 0x8081; 0x4040].

Definition tab_get (tab : list Z) (i : Z) : Z := default 0 (tab !! Z.to_nat i).

(** [while (size--)]: the byte count is the recursion measure. *)
Fixpoint crc32_loop (size : nat) (tab : list Z) (m : memory) (crc p : Z) : Z :=
  match size with
  | O => crc
  | S size => crc32_loop size tab m (tab_get tab ((crc .^ ld8 m p) .& 0xff) .^ (crc .>> 8)) (p + 1)
  end.

Definition crc32 (m : memory) (crc buf size : Z) (tab : list Z) : Z :=
  crc32_loop (Z.to_nat size) tab m crc buf.

Definition ext4_crc32 (m : memory) (crc buf size : Z) : Z := crc32 m crc buf size crc32_tab.
Definition ext4_crc32c (m : memory) (crc buf size : Z) : Z := crc32 m crc buf size crc32c_tab.

Fixpoint crc16_loop (len : nat) (m : memory) (crc buffer : Z) : Z :=
  match len with
  | O => crc
  | S len =>
    crc16_loop len m
      ((((crc .>> 8) .& 0xff) .^ tab_get crc16_tab ((crc .^ ld8 m buffer) .& 0xff)) .& 0x0000ffff)
      (buffer + 1)
  end.

Definition ext4_bg_crc16 (m : memory) (crc buffer len : Z) : Z :=
  crc16_loop (Z.to_nat len) m crc buffer.

(** ** Reference: the shift register *)

Definition crc_step (poly c : Z) : Z := if Z.odd c then (c .>> 1) .^ poly else c .>> 1.

Fixpoint crc_steps (n : nat) (poly c : Z) : Z :=
  match n with O => c | S n => crc_steps n poly (crc_step poly c) end.

Definition crc_byte (poly c b : Z) : Z := crc_steps 8 poly (c .^ b).

Definition crc_bits (poly c : Z) (l : list Z) : Z := foldl (crc_byte poly) c l.

(** ** The register is linear *)

Lemma odd_lxor a b : Z.odd (a .^ b) = xorb (Z.odd a) (Z.odd b).
Proof. rewrite <- !Z.bit0_odd. apply Z.lxor_spec. Qed.

Lemma crc_step_lxor poly a b : crc_step poly (a .^ b) = crc_step poly a .^ crc_step poly b.
Proof.
  unfold crc_step. rewrite odd_lxor, Z.shiftr_lxor.
  apply Z.bits_inj'; intros i Hi.
  destruct (Z.odd a), (Z.odd b); cbn [xorb]; rewrite ?Z.lxor_spec;
    by destruct (Z.testbit (a .>> 1) i), (Z.testbit (b .>> 1) i), (Z.testbit poly i).
Qed.

Lemma crc_steps_lxor n poly : forall a b, crc_steps n poly (a .^ b) = crc_steps n poly a .^ crc_steps n poly b.
Proof. induction n as [|n IH]; intros a b; cbn [crc_steps]; [done|]. by rewrite crc_step_lxor, IH. Qed.

(** High bits move down unchanged while the low bits are zero. *)
Lemma crc_steps_high n poly : forall h, crc_steps n poly (h .<< Z.of_nat n) = h.
Proof.
  induction n as [|n IH]; intros h; cbn [crc_steps]; [apply Z.shiftl_0_r|].
  replace (Z.of_nat (S n)) with (Z.of_nat n + 1) by lia.
  unfold crc_step. rewrite <- Z.bit0_odd, Z.shiftl_spec_low by lia.
  rewrite Z.shiftr_shiftl_l by lia. replace (Z.of_nat n + 1 - 1) with (Z.of_nat n) by lia. apply IH.
Qed.

Lemma split_byte c : c = (c .& 0xff) .^ ((c .>> 8) .<< 8).
Proof.
  apply Z.bits_inj'; intros i Hi. rewrite Z.lxor_spec, Z.land_spec. change 0xff with (Z.ones 8).
  destruct (decide (i < 8)).
  - rewrite Z.ones_spec_low, Z.shiftl_spec_low, andb_true_r, xorb_false_r by lia. done.
  - rewrite Z.ones_spec_high, andb_false_r, xorb_false_l, Z.shiftl_spec, Z.shiftr_spec by lia. f_equal. lia.
Qed.

Lemma crc_byte_split poly c b : 0 <= b < 256 ->
  crc_byte poly c b = crc_steps 8 poly ((c .^ b) .& 0xff) .^ (c .>> 8).
Proof.
  intros Hb. unfold crc_byte. rewrite (split_byte (c .^ b)) at 1. rewrite crc_steps_lxor. f_equal.
  rewrite (crc_steps_high 8 poly). rewrite Z.shiftr_lxor.
  assert (b .>> 8 = 0) as -> by (rewrite shiftr_pow2 by lia; apply Z.div_small; pow2; lia).
  apply Z.lxor_0_r.
Qed.

(** ** The tables *)

Definition table_ok (poly : Z) (tab : list Z) : bool :=
  forallb (fun i => tab_get tab i =? crc_steps 8 poly i) (seqZ 0 256).

Lemma table_ok_get poly tab i : table_ok poly tab = true -> 0 <= i < 256 ->
  tab_get tab i = crc_steps 8 poly i.
Proof.
  intros H Hi. unfold table_ok in H. rewrite forallb_forall in H.
  apply Z.eqb_eq, H. apply list_elem_of_In, elem_of_seqZ. lia.
Qed.

Lemma crc32_tab_ok : table_ok 0xedb88320 crc32_tab = true.
Proof. vm_compute. reflexivity. Qed.
Lemma crc32c_tab_ok : table_ok 0x82f63b78 crc32c_tab = true.
Proof. vm_compute. reflexivity. Qed.
Lemma crc16_tab_ok : table_ok 0xa001 crc16_tab = true.
Proof. vm_compute. reflexivity. Qed.

Lemma land_ff x : 0 <= x .& 0xff < 256.
Proof. change 0xff with (Z.ones 8). rewrite Z.land_ones by lia. apply Z.mod_pos_bound. lia. Qed.

Lemma crc32_loop_bits poly tab m n : table_ok poly tab = true -> forall crc p,
  crc32_loop n tab m crc p = crc_bits poly crc (bytes_of m p n).
Proof.
  intros Ht. induction n as [|n IH]; intros crc p; [done|].
  rewrite bytes_of_S. cbn [crc32_loop crc_bits foldl]. rewrite IH. unfold crc_bits. f_equal.
  rewrite crc_byte_split by apply ld8_range. by rewrite (table_ok_get poly) by (done || apply land_ff).
Qed.

Lemma crc_step_range w poly c : 0 < w -> 0 <= poly < 2 ^ w -> 0 <= c < 2 ^ w -> 0 <= crc_step poly c < 2 ^ w.
Proof.
  intros Hw Hp Hc. unfold crc_step.
  assert (0 <= c .>> 1 < 2 ^ w).
  { rewrite shiftr_pow2 by lia. change (2 ^ 1) with 2. split; [apply Z.div_pos; lia|].
    apply Z.div_lt_upper_bound; lia. }
  destruct (Z.odd c); [apply lxor_range; lia|done].
Qed.

Lemma crc_steps_range w poly n : 0 < w -> 0 <= poly < 2 ^ w -> forall c, 0 <= c < 2 ^ w ->
  0 <= crc_steps n poly c < 2 ^ w.
Proof.
  intros Hw Hp. induction n as [|n IH]; intros c Hc; cbn [crc_steps]; [done|]. by apply IH, crc_step_range.
Qed.

Lemma byte_in_range w m p : 8 <= w -> 0 <= ld8 m p < 2 ^ w.
Proof.
  intros Hw. pose proof (ld8_range m p). assert (2 ^ 8 <= 2 ^ w) by (apply Z.pow_le_mono_r; lia).
  change (2 ^ 8) with 256 in *. lia.
Qed.

Lemma crc_byte_range w poly c b : 8 <= w -> 0 <= poly < 2 ^ w -> 0 <= c < 2 ^ w -> 0 <= b < 2 ^ w ->
  0 <= crc_byte poly c b < 2 ^ w.
Proof. intros. apply crc_steps_range; [lia|done|]. apply lxor_range; lia. Qed.

Lemma crc16_loop_bits m n : forall crc p, 0 <= crc < 2 ^ 16 ->
  crc16_loop n m crc p = crc_bits 0xa001 crc (bytes_of m p n).
Proof.
  induction n as [|n IH]; intros crc p Hc; [done|].
  assert (((((crc .>> 8) .& 0xff) .^ tab_get crc16_tab ((crc .^ ld8 m p) .& 0xff)) .& 0x0000ffff)
          = crc_byte 0xa001 crc (ld8 m p)) as E.
  { rewrite crc_byte_split by apply ld8_range. rewrite (table_ok_get 0xa001) by (exact crc16_tab_ok || apply land_ff).
    assert (0 <= crc .>> 8 < 256) as Hh.
    { rewrite shiftr_pow2 by lia. split; [apply Z.div_pos; lia|]. apply Z.div_lt_upper_bound; pow2; lia. }
    change 0xff with (Z.ones 8) at 1. rewrite Z.land_ones, Z.mod_small by (pow2; lia).
    rewrite Z.lxor_comm. change 0x0000ffff with (Z.ones 16). rewrite Z.land_ones by lia. apply Z.mod_small.
    apply lxor_range; [lia| |pow2; lia]. apply crc_steps_range; [lia|pow2; lia|].
    pose proof (land_ff (crc .^ ld8 m p)). pow2; lia. }
  rewrite bytes_of_S. cbn [crc16_loop crc_bits foldl]. rewrite E. apply IH.
  apply crc_byte_range; [lia|pow2; lia|done|by apply byte_in_range].
Qed.

(** ** The register is reversible *)

(** The top bit of the polynomial records the bit that was shifted out. *)
Lemma crc_step_inj w poly a b : 0 < w -> Z.testbit poly (w - 1) = true ->
  0 <= a < 2 ^ w -> 0 <= b < 2 ^ w -> crc_step poly a = crc_step poly b -> a = b.
Proof.
  intros Hw Hp Ha Hb E.
  assert (forall c, 0 <= c < 2 ^ w -> Z.testbit (crc_step poly c) (w - 1) = Z.odd c) as Ho.
  { intros c Hc. unfold crc_step. destruct (Z.odd c) eqn:Eo.
    - rewrite Z.lxor_spec, Z.shiftr_spec, Hp by lia. by rewrite (Z_testbit_high w c) by lia.
    - rewrite Z.shiftr_spec by lia. apply (Z_testbit_high w); lia. }
  assert (Z.odd a = Z.odd b) as Eo by by rewrite <- !Ho, E.
  assert (a .>> 1 = b .>> 1) as Es.
  { unfold crc_step in E. rewrite Eo in E. destruct (Z.odd b); [|done].
    apply (f_equal (fun x => x .^ poly)) in E. by rewrite !Z.lxor_assoc, Z.lxor_nilpotent, !Z.lxor_0_r in E. }
  rewrite !shiftr_pow2 in Es by lia. change (2 ^ 1) with 2 in Es.
  rewrite (Z.div_mod a 2), (Z.div_mod b 2) by lia. rewrite Es. f_equal.
  by rewrite !Zmod_odd, Eo.
Qed.

Lemma crc_steps_inj w poly n : 0 < w -> 0 <= poly < 2 ^ w -> Z.testbit poly (w - 1) = true ->
  forall a b, 0 <= a < 2 ^ w -> 0 <= b < 2 ^ w -> crc_steps n poly a = crc_steps n poly b -> a = b.
Proof.
  intros Hw Hp Ht. induction n as [|n IH]; intros a b Ha Hb E; cbn [crc_steps] in E; [done|].
  apply (crc_step_inj w poly); [done..|]. apply IH; [by apply crc_step_range..|done].
Qed.

Lemma lxor_cancel_r a b c : a .^ c = b .^ c -> a = b.
Proof.
  intros E. apply (f_equal (fun x => x .^ c)) in E.
  by rewrite !Z.lxor_assoc, Z.lxor_nilpotent, !Z.lxor_0_r in E.
Qed.

Section detect.
Context (w poly : Z) (Hw : 8 <= w) (Hp : 0 <= poly < 2 ^ w) (Ht : Z.testbit poly (w - 1) = true).

Lemma crc_bits_state_inj l : Forall (fun x => 0 <= x < 2 ^ w) l -> forall a b,
  0 <= a < 2 ^ w -> 0 <= b < 2 ^ w -> crc_bits poly a l = crc_bits poly b l -> a = b.
Proof.
  induction 1 as [|x l Hx _ IH]; intros a b Ha Hb E; [done|].
  apply (lxor_cancel_r _ _ x). apply (crc_steps_inj w poly 8); [lia|done|done|apply lxor_range; lia..|].
  apply IH; [by apply crc_byte_range..|done].
Qed.

Lemma crc_bits_detects l1 x y l2 c :
  Forall (fun x => 0 <= x < 2 ^ w) (l1 ++ x :: y :: l2) -> 0 <= c < 2 ^ w -> x <> y ->
  crc_bits poly c (l1 ++ x :: l2) <> crc_bits poly c (l1 ++ y :: l2).
Proof.
  intros Hl Hc Hxy E. apply Forall_app in Hl as [Hl1 Hl]. apply Forall_cons in Hl as [Hx Hl].
  apply Forall_cons in Hl as [Hy Hl2]. unfold crc_bits in E. rewrite !foldl_app in E. cbn [foldl] in E.
  set (d := foldl (crc_byte poly) c l1) in E.
  assert (0 <= d < 2 ^ w) as Hd.
  { unfold d. clear E d. revert c Hc. induction Hl1 as [|z l Hz _ IH]; intros c Hc; [done|].
    cbn [foldl]. apply IH. by apply crc_byte_range. }
  apply crc_bits_state_inj in E; [|done|by apply crc_byte_range..].
  apply crc_steps_inj with (w := w) in E; [|lia|done|done|apply lxor_range; lia..].
  rewrite !(Z.lxor_comm d) in E. by apply lxor_cancel_r in E.
Qed.
End detect.

Lemma bytes_of_range w m p n : 8 <= w -> Forall (fun x => 0 <= x < 2 ^ w) (bytes_of m p n).
Proof. intros Hw. apply Forall_fmap, Forall_true. intros k. apply (byte_in_range w m (p + Z.of_nat k) Hw). Qed.

(** One byte of the buffer in the middle of the others. *)
Lemma bytes_of_split m p n a : p <= a < p + Z.of_nat n ->
  exists n1 n2, bytes_of m p n = bytes_of m p n1 ++ ld8 m a :: bytes_of m (a + 1) n2 /\
    a = p + Z.of_nat n1 /\ n = (n1 + S n2)%nat.
Proof.
  intros Ha. exists (Z.to_nat (a - p)), (n - S (Z.to_nat (a - p)))%nat.
  assert (n = (Z.to_nat (a - p) + S (n - S (Z.to_nat (a - p))))%nat) as En by lia.
  split; [|split; [lia|done]]. rewrite En at 1. rewrite bytes_of_app, bytes_of_S.
  by replace (p + Z.of_nat (Z.to_nat (a - p))) with a by lia.
Qed.

Lemma crc_detects w poly m p n a v c : 8 <= w -> 0 <= poly < 2 ^ w -> Z.testbit poly (w - 1) = true ->
  0 <= c < 2 ^ w -> p <= a < p + Z.of_nat n -> u8 v <> ld8 m a ->
  crc_bits poly c (bytes_of (st8 m a v) p n) <> crc_bits poly c (bytes_of m p n).
Proof.
  intros Hw Hp Ht Hc Ha Hv.
  destruct (bytes_of_split m p n a Ha) as (n1 & n2 & -> & Ea & En).
  subst n. rewrite bytes_of_app, bytes_of_S, <- Ea, ld8_st8_same, !bytes_of_other by lia.
  apply (crc_bits_detects w); [done..| |done|done].
  apply Forall_app; split; [by apply bytes_of_range|].
  repeat (apply Forall_cons; split); [|by apply byte_in_range|by apply bytes_of_range].
  rewrite <- (ld8_st8_same m a v). by apply byte_in_range.
Qed.

Lemma crc_bits_range16 m p n crc : 0 <= crc < 2 ^ 16 ->
  0 <= crc_bits 0xa001 crc (bytes_of m p n) < 2 ^ 16.
Proof.
  unfold crc_bits. generalize (bytes_of_range 16 m p n ltac:(lia)). generalize (bytes_of m p n).
  intros l Hl. revert crc. induction Hl as [|x l Hx _ IH]; intros crc Hc; [done|].
  cbn [foldl]. apply IH. apply crc_byte_range; [lia|pow2; lia|done|done].
Qed.

Lemma ext4_crc32c_bits m crc buf size :
  ext4_crc32c m crc buf size = crc_bits 0x82f63b78 crc (bytes_of m buf (Z.to_nat size)).
Proof. apply crc32_loop_bits, crc32c_tab_ok. Qed.

Lemma ext4_crc32c_ext m m' crc buf size : same_on buf (buf + size) m m' ->
  ext4_crc32c m' crc buf size = ext4_crc32c m crc buf size.
Proof.
  intros H. rewrite !ext4_crc32c_bits. f_equal. apply bytes_of_ext.
  intros x Hx. apply H. lia.
Qed.

Lemma ext4_crc32c_range m crc buf size : 0 <= crc < 2 ^ 32 -> 0 <= ext4_crc32c m crc buf size < 2 ^ 32.
Proof.
  intros Hc. rewrite ext4_crc32c_bits. unfold crc_bits. revert crc Hc.
  generalize (bytes_of_range 32 m buf (Z.to_nat size) ltac:(lia)).
  generalize (bytes_of m buf (Z.to_nat size)) as l.
  induction l as [|x l IH]; intros Hl crc Hc; cbn [foldl]; [done|].
  apply Forall_cons in Hl as [Hx Hl]. apply (IH Hl). apply crc_byte_range; (done || lia).
Qed.

Lemma ext4_crc32c_detects m crc buf size a v :
  0 <= crc < 2 ^ 32 -> buf <= a < buf + size -> u8 v <> ld8 m a ->
  ext4_crc32c (st8 m a v) crc buf size <> ext4_crc32c m crc buf size.
Proof.
  intros Hc Ha Hv. rewrite !ext4_crc32c_bits. apply (crc_detects 32); try done; pow2; lia.
Qed.

(** ** Theorems *)

(** C18. The table-driven checksums compute the standard ones: [ext4_crc32] is
    the reflected CRC-32 with polynomial 0xEDB88320, [ext4_crc32c] the one with
    the Castagnoli polynomial 0x82F63B78, and [ext4_bg_crc16] the CRC-16 with
    polynomial 0xA001, each fed one bit at a time. *)
Theorem crc_tables_exact m crc buf size :
  ext4_crc32 m crc buf size = crc_bits 0xedb88320 crc (bytes_of m buf (Z.to_nat size)) /\
  ext4_crc32c m crc buf size = crc_bits 0x82f63b78 crc (bytes_of m buf (Z.to_nat size)) /\
  (0 <= crc < 2 ^ 16 ->
   ext4_bg_crc16 m crc buf size = crc_bits 0xa001 crc (bytes_of m buf (Z.to_nat size))).
Proof.
  split; [by apply crc32_loop_bits, crc32_tab_ok|].
  split; [apply ext4_crc32c_bits|apply crc16_loop_bits].
Qed.

Lemma crc_tables_exact_witness :
  ext4_bg_crc16 (fun a => a) 0xffff 49 9 = crc_bits 0xa001 0xffff (bytes_of (fun a => a) 49 9).
Proof. apply (crc_tables_exact (fun a => a) 0xffff 49 9). lia. Defined.

(** Checksums can be computed in pieces: feeding a buffer in two parts, the
    second starting from the result of the first, gives the checksum of the
    whole.  The file system chains them over several fields this way. *)
Theorem crc_chain m crc buf n1 n2 :
  0 <= n1 -> 0 <= n2 ->
  ext4_crc32c m (ext4_crc32c m crc buf n1) (buf + n1) n2 = ext4_crc32c m crc buf (n1 + n2) /\
  (0 <= crc < 2 ^ 16 ->
   ext4_bg_crc16 m (ext4_bg_crc16 m crc buf n1) (buf + n1) n2 = ext4_bg_crc16 m crc buf (n1 + n2)).
Proof.
  intros H1 H2. assert (buf + n1 = buf + Z.of_nat (Z.to_nat n1)) as -> by lia.
  unfold ext4_crc32c, crc32, ext4_bg_crc16. rewrite !Z2Nat.inj_add by done. split; [|intros Hc].
  - rewrite !(crc32_loop_bits 0x82f63b78) by exact crc32c_tab_ok.
    rewrite bytes_of_app. unfold crc_bits. by rewrite foldl_app.
  - rewrite (crc16_loop_bits _ (Z.to_nat n1)), !crc16_loop_bits by (done || by apply crc_bits_range16).
    rewrite bytes_of_app. unfold crc_bits. by rewrite foldl_app.
Qed.

Lemma crc_chain_witness :
  ext4_crc32c (fun a => a) (ext4_crc32c (fun a => a) 0xffffffff 100 4) 104 8
  = ext4_crc32c (fun a => a) 0xffffffff 100 12.
Proof. apply (crc_chain (fun a => a) 0xffffffff 100 4 8); lia. Defined.

(** Any change of a single byte of the data changes the checksum: all three
    checksums detect every error burst confined to one byte. *)
Theorem crc_detects_byte m buf size a v crc :
  buf <= a < buf + size -> u8 v <> ld8 m a ->
  (0 <= crc < 2 ^ 32 ->
   ext4_crc32 (st8 m a v) crc buf size <> ext4_crc32 m crc buf size /\
   ext4_crc32c (st8 m a v) crc buf size <> ext4_crc32c m crc buf size) /\
  (0 <= crc < 2 ^ 16 ->
   ext4_bg_crc16 (st8 m a v) crc buf size <> ext4_bg_crc16 m crc buf size).
Proof.
  intros Ha Hv. unfold ext4_crc32, ext4_crc32c, ext4_bg_crc16, crc32.
  split; intros Hc; [split|].
  - rewrite !(crc32_loop_bits 0xedb88320) by exact crc32_tab_ok. apply (crc_detects 32); try done; pow2; lia.
  - by apply ext4_crc32c_detects.
  - rewrite !crc16_loop_bits by done. apply (crc_detects 16); try done; pow2; lia.
Qed.

Lemma crc_detects_byte_witness :
  ext4_crc32c (st8 (fun _ => 7) 105 8) 0xffffffff 100 12 <> ext4_crc32c (fun _ => 7) 0xffffffff 100 12.
Proof.
  apply (crc_detects_byte (fun _ => 7) 100 12 105 8 0xffffffff); [lia|discriminate|lia].
Defined.
