(* ===== verification/Ext4Hash.v ===== *)
(** lwext4, directory hashes: [src/ext4_hash.c].

    Words are 32 bits wide.  The four-word state is a 4-tuple, the data block a
    list of words; a name is a pointer into byte memory with a length. *)
From S2P Require Import Prelude Memory.

(** ** Code *)

Definition EXT2_HTREE_LEGACY : Z := 0.
Definition EXT2_HTREE_HALF_MD4 : Z := 1.
Definition EXT2_HTREE_TEA : Z := 2.
Definition EXT2_HTREE_LEGACY_UNSIGNED : Z := 3.
Definition EXT2_HTREE_HALF_MD4_UNSIGNED : Z := 4.
Definition EXT2_HTREE_TEA_UNSIGNED : Z := 5.
Definition EXT2_HTREE_EOF : Z := 0x7fffffff.
Definition HASH_ENOTSUP : Z := 95.

Definition hF (x y z : Z) : Z := (x .& y) .| (u32 (Z.lnot x) .& z).
Definition hG (x y z : Z) : Z := (x .& y) .| (x .& z) .| (y .& z).
Definition hH (x y z : Z) : Z := x .^ y .^ z.

Definition ROTATE_LEFT (x n : Z) : Z := u32 (x .<< n) .| (x .>> (32 - n)).

Definition FF (a b c d x s : Z) : Z := ROTATE_LEFT (u32 (a + u32 (hF b c d + x))) s.
Definition GG (a b c d x s : Z) : Z := ROTATE_LEFT (u32 (a + u32 (hG b c d + x + 0x5a827999))) s.
Definition HH (a b c d x s : Z) : Z := ROTATE_LEFT (u32 (a + u32 (hH b c d + x + 0x6ed9eba1))) s.

Definition hash4 : Type := Z * Z * Z * Z.
Definition word (data : list Z) (i : nat) : Z := default 0 (data !! i).

Definition ext2_half_md4 (hash : hash4) (data : list Z) : hash4 :=
  let '(h0, h1, h2, h3) := hash in
  let D := word data in
  let '(a, b, c, d) := hash in
  (* Round 1 *)
  let a := FF a b c d (D 0%nat) 3 in
  let d := FF d a b c (D 1%nat) 7 in
  let c := FF c d a b (D 2%nat) 11 in
  let b := FF b c d a (D 3%nat) 19 in
  let a := FF a b c d (D 4%nat) 3 in
  let d := FF d a b c (D 5%nat) 7 in
  let c := FF c d a b (D 6%nat) 11 in
  let b := FF b c d a (D 7%nat) 19 in
  (* Round 2 *)
  let a := GG a b c d (D 1%nat) 3 in
  let d := GG d a b c (D 3%nat) 5 in
  let c := GG c d a b (D 5%nat) 9 in
  let b := GG b c d a (D 7%nat) 13 in
  let a := GG a b c d (D 0%nat) 3 in
  let d := GG d a b c (D 2%nat) 5 in
  let c := GG c d a b (D 4%nat) 9 in
  let b := GG b c d a (D 6%nat) 13 in
  (* Round 3 *)
  let a := HH a b c d (D 3%nat) 3 in
  let d := HH d a b c (D 7%nat) 9 in
  let c := HH c d a b (D 2%nat) 11 in
  let b := HH b c d a (D 6%nat) 15 in
  let a := HH a b c d (D 1%nat) 3 in
  let d := HH d a b c (D 5%nat) 9 in
  let c := HH c d a b (D 0%nat) 11 in
  let b := HH b c d a (D 4%nat) 15 in
  (u32 (h0 + a), u32 (h1 + b), u32 (h2 + c), u32 (h3 + d)).

Definition tea_delta : Z := 0x9e3779b9.

(** [while (n-- > 0)], from round [i] on. *)
Fixpoint tea_rounds (n : nat) (i : Z) (data : list Z) (x y : Z) : Z * Z :=
  match n with
  | O => (x, y)
  | S n =>
    let D := word data in
    let sum := u32 (i * tea_delta) in
    let x := u32 (x + (u32 (u32 (y .<< 4) + D 0%nat) .^ u32 (y + sum) .^ u32 ((y .>> 5) + D 1%nat))) in
    let y := u32 (y + (u32 (u32 (x .<< 4) + D 2%nat) .^ u32 (x + sum) .^ u32 ((x .>> 5) + D 3%nat))) in
    tea_rounds n (i + 1) data x y
  end.

Definition ext2_tea (hash : hash4) (data : list Z) : hash4 :=
  let '(h0, h1, h2, h3) := hash in
  let '(x, y) := tea_rounds 16 1 data h0 h1 in
  (u32 (h0 + x), u32 (h1 + y), h2, h3).

(** A character read as [unsigned char] or as [signed char]. *)
Definition name_char (m : memory) (p : Z) (unsigned_char : bool) : Z :=
  if unsigned_char then ld8 m p else sw 8 (ld8 m p).

Fixpoint legacy_loop (n : nat) (m : memory) (p : Z) (unsigned_char : bool) (h1 h2 : Z) : Z :=
  match n with
  | O => h1
  | S n =>
    let val := name_char m p unsigned_char in
    let multi := 0x6d22f5 in
    let h0 := u32 (h2 + (h1 .^ u32 (val * multi))) in
    let h0 := if c_true (h0 .& 0x80000000) then u32 (h0 - 0x7fffffff) else h0 in
    legacy_loop n m (p + 1) unsigned_char h0 h1
  end.

Definition ext2_legacy_hash (m : memory) (name len : Z) (unsigned_char : bool) : Z :=
  u32 (legacy_loop (Z.to_nat len) m name unsigned_char 0x12a3fe2d 0x37abe8f9 .<< 1).

(** The copying loop, from index [i] on: returns the words written, [buf_val]
    and [dlen]. *)
Fixpoint prep_loop (n : nat) (m : memory) (src i : Z) (unsigned_char : bool) (padding buf_val dlen : Z)
    (dst : list Z) : list Z * Z * Z :=
  match n with
  | O => (dst, buf_val, dlen)
  | S n =>
    let buf_byte := name_char m (src + i) unsigned_char in
    let buf_val := if i mod 4 =? 0 then padding else buf_val in
    let buf_val := u32 (buf_val .<< 8) in
    let buf_val := u32 (buf_val + buf_byte) in
    if i mod 4 =? 3
    then prep_loop n m src (i + 1) unsigned_char padding padding (dlen - 4) (dst ++ [buf_val])
    else prep_loop n m src (i + 1) unsigned_char padding buf_val dlen dst
  end.

(** [while (dlen >= 0) *dst++ = padding]; a block has at most 8 words. *)
Fixpoint prep_pad (fuel : nat) (padding dlen : Z) (dst : list Z) : list Z :=
  match fuel with
  | O => dst
  | S fuel => if 0 <=? dlen then prep_pad fuel padding (dlen - 4) (dst ++ [padding]) else dst
  end.

Definition ext2_prep_hashbuf (m : memory) (src slen dlen : Z) (unsigned_char : bool) : list Z :=
  let padding := u32 (slen .| u32 (slen .<< 8) .| u32 (slen .<< 16) .| u32 (slen .<< 24)) in
  let len := if dlen <? slen then dlen else slen in
  let '(dst, buf_val, dlen) := prep_loop (Z.to_nat len) m src 0 unsigned_char padding padding dlen [] in
  let dlen := dlen - 4 in
  let dst := if 0 <=? dlen then dst ++ [buf_val] else dst in
  let dlen := dlen - 4 in
  prep_pad 8 padding dlen dst.

(** The two loops over blocks of 16 and 32 bytes; [None] when out of fuel. *)
Fixpoint tea_blocks (fuel : nat) (m : memory) (name len : Z) (unsigned_char : bool) (hash : hash4) : option hash4 :=
  match fuel with
  | O => None
  | S fuel =>
    if 0 <? len then
      tea_blocks fuel m (name + 16) (len - 16) unsigned_char
        (ext2_tea hash (ext2_prep_hashbuf m name len 16 unsigned_char))
    else Some hash
  end.

Fixpoint md4_blocks (fuel : nat) (m : memory) (name len : Z) (unsigned_char : bool) (hash : hash4) : option hash4 :=
  match fuel with
  | O => None
  | S fuel =>
    if 0 <? len then
      md4_blocks fuel m (name + 32) (len - 32) unsigned_char
        (ext2_half_md4 hash (ext2_prep_hashbuf m name len 32 unsigned_char))
    else Some hash
  end.

(** Error code, [*hash_major] and [*hash_minor]; [None] for [hash_seed] is the
    null pointer, [-1] the answer to a null [name] or [hash_major]. *)
Definition ext2_htree_hash (m : memory) (name len : Z) (hash_seed : option hash4) (hash_version : Z)
    : option (Z * Z * Z) :=
  if name =? 0 then Some (-1, 0, 0)
  else if (len <? 1) || (255 <? len) then Some (HASH_ENOTSUP, 0, 0)
  else
    let hash := default (0x67452301, 0xefcdab89, 0x98badcfe, 0x10325476) hash_seed in
    let finish major minor :=
      let major := major .& u32 (Z.lnot 1) in
      let major := if major =? EXT2_HTREE_EOF .<< 1 then (EXT2_HTREE_EOF - 1) .<< 1 else major in
      Some (0, major, minor) in
    let tea unsigned_char :=
      '(h0, h1, _, _) ← tea_blocks 256 m name len unsigned_char hash; finish h0 h1 in
    let legacy unsigned_char := finish (ext2_legacy_hash m name len unsigned_char) 0 in
    let half_md4 unsigned_char :=
      '(_, h1, h2, _) ← md4_blocks 256 m name len unsigned_char hash; finish h1 h2 in
    if hash_version =? EXT2_HTREE_TEA_UNSIGNED then tea true
    else if hash_version =? EXT2_HTREE_TEA then tea false
    else if hash_version =? EXT2_HTREE_LEGACY_UNSIGNED then legacy true
    else if hash_version =? EXT2_HTREE_LEGACY then legacy false
    else if hash_version =? EXT2_HTREE_HALF_MD4_UNSIGNED then half_md4 true
    else if hash_version =? EXT2_HTREE_HALF_MD4 then half_md4 false
    else Some (HASH_ENOTSUP, 0, 0).

(** ** [ext2_prep_hashbuf] packs the name into words *)

Section prep.
Context (m : memory) (src : Z) (uc : bool) (padding : Z).

Definition pack (v i : Z) : Z := u32 (u32 (v .<< 8) + name_char m (src + i) uc).

(** Word [k] of a block that holds [len] characters: big-endian, the padding
    supplies the missing characters. *)
Definition packed_word (len k : Z) : Z :=
  foldl pack padding (seqZ (4 * k) (Z.min 4 (len - 4 * k))).

Lemma seqZ_snoc a n : 0 <= n -> seqZ a (n + 1) = seqZ a n ++ [a + n].
Proof. intros. rewrite seqZ_app by lia. do 2 f_equal. Qed.

Lemma div4_succ i : 0 <= i -> i mod 4 <> 3 -> (i + 1) / 4 = i / 4 /\ (i + 1) mod 4 = i mod 4 + 1.
Proof.
  intros Hi Hn. pose proof (Z.mod_pos_bound i 4 ltac:(lia)).
  assert (i + 1 = (i mod 4 + 1) + (i / 4) * 4) as E by (pose proof (Z.div_mod i 4 ltac:(lia)); lia).
  rewrite E at 1 2. rewrite Z.div_add, Z.mod_add, Z.div_small, Z.mod_small by lia. lia.
Qed.

Lemma div4_carry i : 0 <= i -> i mod 4 = 3 -> (i + 1) / 4 = i / 4 + 1 /\ (i + 1) mod 4 = 0.
Proof.
  intros Hi Hn. assert (i + 1 = 0 + (i / 4 + 1) * 4) as E by (pose proof (Z.div_mod i 4 ltac:(lia)); lia).
  rewrite E at 1 2. by rewrite Z.div_add, Z.mod_add by lia.
Qed.

Lemma prep_loop_ok len n : forall i dst buf_val dlen, 0 <= i -> i + Z.of_nat n = len ->
  dst = packed_word len <$> seqZ 0 (i / 4) ->
  buf_val = foldl pack padding (seqZ (4 * (i / 4)) (i mod 4)) ->
  prep_loop n m src i uc padding buf_val dlen dst =
    (packed_word len <$> seqZ 0 (len / 4), foldl pack padding (seqZ (4 * (len / 4)) (len mod 4)),
     dlen - 4 * (len / 4 - i / 4)).
Proof.
  induction n as [|n IH]; intros i dst bv dlen Hi Hl -> ->.
  { assert (i = len) as <- by lia. cbn [prep_loop]. do 2 f_equal. lia. }
  cbn [prep_loop]. pose proof (Z.mod_pos_bound i 4 ltac:(lia)) as Hm.
  set (bv := foldl pack padding (seqZ (4 * (i / 4)) (i mod 4))).
  assert ((if i mod 4 =? 0 then padding else bv) = bv) as ->.
  { case_if; [|done]. unfold bv. by rewrite E. }
  change (u32 (u32 (bv .<< 8) + name_char m (src + i) uc)) with (pack bv i).
  assert (pack bv i = foldl pack padding (seqZ (4 * (i / 4)) (i mod 4 + 1))) as ->.
  { rewrite seqZ_snoc, foldl_app by lia. cbn [foldl]. unfold bv. f_equal.
    pose proof (Z.div_mod i 4 ltac:(lia)). lia. }
  destruct (i mod 4 =? 3) eqn:E3; zb.
  - destruct (div4_carry i Hi E3) as [Ed Em].
    rewrite IH; [|lia|lia| |].
    + rewrite Ed. f_equal. lia.
    + rewrite Ed, (seqZ_snoc 0 (i / 4)), fmap_app by (apply Z.div_pos; lia). do 2 f_equal. cbn. unfold packed_word.
      rewrite E3. pose proof (Z.div_mod i 4 ltac:(lia)). by rewrite Z.min_l by lia.
    + by rewrite Em.
  - destruct (div4_succ i Hi E3) as [Ed Em]. rewrite IH; [|lia|lia|by rewrite Ed|by rewrite Ed, Em].
    by rewrite Ed.
Qed.

Lemma prep_pad_ok fuel : forall dlen dst, dlen < 4 * Z.of_nat fuel -> -4 <= dlen -> dlen mod 4 = 0 ->
  prep_pad fuel padding dlen dst = dst ++ replicate (Z.to_nat (dlen / 4 + 1)) padding.
Proof.
  induction fuel as [|fuel IH]; intros dlen dst Hf Hge Hd.
  { assert (dlen = -4) as -> by (pose proof (Z.div_mod dlen 4 ltac:(lia)); lia). by rewrite app_nil_r. }
  cbn [prep_pad]. assert (dlen = 4 * (dlen / 4)) as Ed by (pose proof (Z.div_mod dlen 4 ltac:(lia)); lia).
  case_if.
  - assert ((dlen - 4) / 4 = dlen / 4 - 1) as Eq.
    { replace (dlen - 4) with (dlen + (-1) * 4) by lia. rewrite Z.div_add by lia. lia. }
    rewrite IH; [|lia|lia|replace (dlen - 4) with (dlen + (-1) * 4) by lia; by rewrite Z.mod_add by lia].
    rewrite Eq, <- app_assoc. f_equal.
    replace (Z.to_nat (dlen / 4 + 1)) with (S (Z.to_nat (dlen / 4 - 1 + 1))) by lia. done.
  - assert (dlen = -4) as -> by lia. by rewrite app_nil_r.
Qed.
End prep.

Lemma seqZ_split n k : 0 <= k <= n -> seqZ 0 n = seqZ 0 k ++ seqZ k (n - k).
Proof. intros. rewrite <- seqZ_app by lia. f_equal. lia. Qed.

Lemma prep_hashbuf_ok m src slen dlen uc : 0 < slen < 256 -> 4 <= dlen <= 32 -> dlen mod 4 = 0 ->
  ext2_prep_hashbuf m src slen dlen uc =
    packed_word m src uc (slen * 0x1010101) (Z.min slen dlen) <$> seqZ 0 (dlen / 4).
Proof.
  intros Hs Hd Hm. unfold ext2_prep_hashbuf.
  assert (u32 (slen .| u32 (slen .<< 8) .| u32 (slen .<< 16) .| u32 (slen .<< 24)) = slen * 0x1010101) as ->.
  { rewrite !shiftl_pow2 by lia. rewrite !(uw_small 32 (slen * _)) by (pow2; lia).
    rewrite (Z.lor_comm slen), lor_add_disjoint by (pow2; lia).
    rewrite (Z.lor_comm (_ + _)), lor_add_disjoint by (pow2; lia).
    rewrite (Z.lor_comm (_ + _)), lor_add_disjoint by (pow2; lia).
    rewrite uw_small by (pow2; lia). pow2. lia. }
  set (pad := slen * 0x1010101). set (len := Z.min slen dlen).
  assert ((if dlen <? slen then dlen else slen) = len) as -> by (case_if; lia).
  rewrite (prep_loop_ok m src uc pad len); [|lia|lia|done|done].
  change (0 / 4) with 0. rewrite Z.sub_0_r.
  assert (dlen = 4 * (dlen / 4)) as Ed by (pose proof (Z.div_mod dlen 4 ltac:(lia)); lia).
  assert (len = 4 * (len / 4) + len mod 4) as El by (apply Z.div_mod; lia).
  pose proof (Z.mod_pos_bound len 4 ltac:(lia)) as Hr. pose proof (Z.div_pos len 4 ltac:(lia) ltac:(lia)) as Hq.
  set (q := len / 4) in *. set (Q := dlen / 4) in *. set (r := len mod 4) in *.
  assert (forall k, q < k -> packed_word m src uc pad len k = pad) as Hpad.
  { intros k Hk. unfold packed_word. rewrite seqZ_nil by lia. done. }
  case_if.
  - rewrite prep_pad_ok; [|lia|lia|].
    + rewrite (seqZ_split Q (q + 1)), seqZ_snoc, !fmap_app by lia. f_equal; [f_equal|].
      * cbn. unfold packed_word. do 2 f_equal. rewrite Z.min_r by lia. f_equal. lia.
      * assert ((dlen - 4 * q - 4 - 4) / 4 + 1 = Q - (q + 1)) as ->.
        { replace (dlen - 4 * q - 4 - 4) with ((Q - q - 2) * 4) by lia. rewrite Z.div_mul by lia. lia. }
        symmetry. apply list_eq_same_length with (n := Z.to_nat (Q - (q + 1)));
          [by rewrite length_replicate|by rewrite length_fmap, length_seqZ|].
        intros k x y Hk Hx Hy. apply lookup_replicate in Hy as [-> _].
        rewrite list_lookup_fmap in Hx. apply fmap_Some in Hx as (z & Hz & ->). apply lookup_seqZ in Hz as [-> _].
        apply Hpad. lia.
    + replace (dlen - 4 * q - 4 - 4) with ((Q - q - 2) * 4) by lia. by rewrite Z.mod_mul by lia.
  - assert (q = Q) as -> by lia. cbn [prep_pad]. case_if; [lia|done].
Qed.

(** ** The block loops *)

Lemma tea_blocks_total m uc fuel : forall name len hash, len <= 16 * Z.of_nat fuel ->
  exists h, tea_blocks (S fuel) m name len uc hash = Some h.
Proof.
  induction fuel as [|fuel IH]; intros name len hash Hf; cbn [tea_blocks]; (case_if; [|by eexists]); [lia|].
  apply IH. lia.
Qed.

Lemma md4_blocks_total m uc fuel : forall name len hash, len <= 32 * Z.of_nat fuel ->
  exists h, md4_blocks (S fuel) m name len uc hash = Some h.
Proof.
  induction fuel as [|fuel IH]; intros name len hash Hf; cbn [md4_blocks]; (case_if; [|by eexists]); [lia|].
  apply IH. lia.
Qed.

(** Names whose characters are all below 128 read the same either way. *)
Definition ascii (m : memory) (name len : Z) : Prop := forall i, 0 <= i < len -> ld8 m (name + i) < 128.

Lemma name_char_ascii m p : ld8 m p < 128 -> name_char m p false = name_char m p true.
Proof. intros H. unfold name_char. apply sw_small; [lia|]. pose proof (ld8_range m p). pow2. lia. Qed.

Lemma legacy_ascii m n : forall p h1 h2, ascii m p (Z.of_nat n) ->
  legacy_loop n m p false h1 h2 = legacy_loop n m p true h1 h2.
Proof.
  induction n as [|n IH]; intros p h1 h2 Ha; cbn [legacy_loop]; [done|].
  assert (ld8 m p < 128) by (rewrite <- (Z.add_0_r p); apply Ha; lia).
  rewrite name_char_ascii by done. apply IH.
  intros i Hi. replace (p + 1 + i) with (p + (i + 1)) by lia. apply Ha. lia.
Qed.

Lemma prep_ascii m src slen dlen : 0 < slen -> 0 <= dlen -> ascii m src slen ->
  ext2_prep_hashbuf m src slen dlen false = ext2_prep_hashbuf m src slen dlen true.
Proof.
  intros Hs Hd Ha. unfold ext2_prep_hashbuf. set (pad := u32 (slen .| _ .| _ .| _)).
  assert (forall n i bv dl dst, 0 <= i -> i + Z.of_nat n <= slen ->
    prep_loop n m src i false pad bv dl dst = prep_loop n m src i true pad bv dl dst) as Hl.
  { induction n as [|n IH]; intros i bv dl dst Hi Hn; cbn [prep_loop]; [done|].
    rewrite name_char_ascii by (apply Ha; lia). case_if; rewrite IH by lia; done. }
  rewrite Hl; [done|lia|]. case_if; lia.
Qed.

Lemma blocks_ascii m fuel : forall name len hash, ascii m name len ->
  tea_blocks fuel m name len false hash = tea_blocks fuel m name len true hash /\
  md4_blocks fuel m name len false hash = md4_blocks fuel m name len true hash.
Proof.
  induction fuel as [|fuel IH]; intros name len hash Ha; cbn [tea_blocks md4_blocks]; [done|].
  case_if; [|done]. rewrite !prep_ascii by (done || lia).
  assert (forall k, 0 < k -> ascii m (name + k) (len - k)) as Hk.
  { intros k Hk i Hi. rewrite <- Z.add_assoc. apply Ha. lia. }
  split; apply IH; apply Hk; lia.
Qed.

(** ** Theorems *)

(** C40. Hashing is total, rejects every name outside 1 to 255 characters and
    every unknown version with ENOTSUP and zero outputs, and otherwise yields an
    even 32-bit major hash that is never the end-of-directory marker. *)
Theorem htree_hash_result m name len seed version :
  name <> 0 ->
  exists rc major minor, ext2_htree_hash m name len seed version = Some (rc, major, minor) /\
    (rc = 0 <-> 1 <= len <= 255 /\ 0 <= version <= 5) /\
    (rc <> 0 -> rc = HASH_ENOTSUP /\ major = 0 /\ minor = 0) /\
    0 <= major < 2 ^ 32 /\ Z.even major = true /\ major <> 0xfffffffe.
Proof.
  intros Hn. unfold ext2_htree_hash. case_if; [done|]. case_if.
  { exists HASH_ENOTSUP, 0, 0. unfold HASH_ENOTSUP. split_and!; try done; try lia. }
  set (hash := default (0x67452301, 0xefcdab89, 0x98badcfe, 0x10325476) seed).
  assert (forall major minor,
    let major' := let major := major .& u32 (Z.lnot 1) in
      if major =? EXT2_HTREE_EOF .<< 1 then (EXT2_HTREE_EOF - 1) .<< 1 else major in
    (0 <= version <= 5) ->
    exists rc mj mn, Some (0, major', minor) = Some (rc, mj, mn) /\
      (rc = 0 <-> 1 <= len <= 255 /\ 0 <= version <= 5) /\
      (rc <> 0 -> rc = HASH_ENOTSUP /\ mj = 0 /\ mn = 0) /\
      0 <= mj < 2 ^ 32 /\ Z.even mj = true /\ mj <> 0xfffffffe) as Hfin.
  { intros major minor major' Hv. exists 0, major', minor. split; [done|]. split; [lia|]. split; [done|].
    unfold major'. change (EXT2_HTREE_EOF .<< 1) with 0xfffffffe. change (u32 (Z.lnot 1)) with 0xfffffffe.
    case_if; [split_and!; vm_compute; done|]. rewrite Z.land_comm in *.
    split; [apply land_range; [lia|pow2; lia]|]. split; [|done].
    rewrite <- Z.negb_odd, <- Z.bit0_odd, Z.land_spec. done. }
  destruct (tea_blocks_total m true 255 name len hash ltac:(lia)) as ([[[a0 a1] a2] a3] & Et1).
  destruct (tea_blocks_total m false 255 name len hash ltac:(lia)) as ([[[b0 b1] b2] b3] & Et2).
  destruct (md4_blocks_total m true 255 name len hash ltac:(lia)) as ([[[c0 c1] c2] c3] & Em1).
  destruct (md4_blocks_total m false 255 name len hash ltac:(lia)) as ([[[d0 d1] d2] d3] & Em2).
  rewrite Et1, Et2, Em1, Em2. cbn [mbind option_bind].
  unfold EXT2_HTREE_TEA_UNSIGNED, EXT2_HTREE_TEA, EXT2_HTREE_LEGACY_UNSIGNED, EXT2_HTREE_LEGACY,
    EXT2_HTREE_HALF_MD4_UNSIGNED, EXT2_HTREE_HALF_MD4.
  repeat (case_if; [apply Hfin; lia|]).
  exists HASH_ENOTSUP, 0, 0. unfold HASH_ENOTSUP. split_and!; try done; try lia.
Qed.

Lemma htree_hash_result_witness : exists major minor,
  ext2_htree_hash (fun a => a) 97 8 None EXT2_HTREE_HALF_MD4 = Some (0, major, minor) /\ Z.even major = true.
Proof.
  destruct (htree_hash_result (fun a => a) 97 8 None EXT2_HTREE_HALF_MD4) as (rc & mj & mn & E & Hrc & _ & _ & He & _);
    [discriminate|].
  assert (rc = 0) as -> by (apply Hrc; split; [lia|unfold EXT2_HTREE_HALF_MD4; lia]).
  exists mj, mn. split; [exact E|exact He].
Defined.

(** The signed and the unsigned variant of each of the three algorithms give
    the same hash for names of 7-bit characters, so directories indexed under
    either convention stay readable for such names. *)
Theorem htree_hash_ascii m name len seed v :
  ascii m name len -> v = EXT2_HTREE_LEGACY \/ v = EXT2_HTREE_HALF_MD4 \/ v = EXT2_HTREE_TEA ->
  ext2_htree_hash m name len seed v = ext2_htree_hash m name len seed (v + 3).
Proof.
  intros Ha Hv. unfold ext2_htree_hash. case_if; [done|]. case_if; [done|].
  set (hash := default (0x67452301, 0xefcdab89, 0x98badcfe, 0x10325476) seed). destruct (blocks_ascii m 256 name len hash Ha) as [Et Em].
  assert (ext2_legacy_hash m name len false = ext2_legacy_hash m name len true) as El.
  { unfold ext2_legacy_hash. rewrite legacy_ascii; [done|]. by rewrite Z2Nat.id by lia. }
  rewrite Et, Em, El. generalize (tea_blocks 256 m name len true hash) (md4_blocks 256 m name len true hash)
    (ext2_legacy_hash m name len true). intros t d l. by destruct_or! Hv; subst v.
Qed.

Lemma htree_hash_ascii_witness :
  ext2_htree_hash (fun a => a) 97 8 None EXT2_HTREE_TEA = ext2_htree_hash (fun a => a) 97 8 None 5.
Proof.
  apply (htree_hash_ascii (fun a => a) 97 8 None EXT2_HTREE_TEA); [|right; right; reflexivity].
  intros i Hi. assert (i = 0 \/ i = 1 \/ i = 2 \/ i = 3 \/ i = 4 \/ i = 5 \/ i = 6 \/ i = 7) as Hc by lia.
  repeat (destruct Hc as [->|Hc]; [reflexivity|]). subst i. reflexivity.
Defined.

(** Before hashing, a name is cut into big-endian words: word [k] holds the
    characters [4k] to [4k+3], and positions past the end of the name are filled
    from the length repeated in every byte; a 16- or 32-byte block is always
    filled completely. *)
Theorem prep_hashbuf_words m src slen dlen uc :
  0 < slen < 256 -> dlen = 16 \/ dlen = 32 ->
  ext2_prep_hashbuf m src slen dlen uc =
    packed_word m src uc (slen * 0x1010101) (Z.min slen dlen) <$> seqZ 0 (dlen / 4).
Proof. intros Hs Hd. apply prep_hashbuf_ok; [done|lia|]. by destruct Hd as [->| ->]. Qed.

Lemma prep_hashbuf_words_witness :
  ext2_prep_hashbuf (fun a => a) 97 6 16 true = [0x61626364; 0x06066566; 0x06060606; 0x06060606].
Proof. rewrite (prep_hashbuf_words (fun a => a) 97 6 16 true); [reflexivity|lia|lia]. Defined.
