(* ===== verification/Ext4Layout.v ===== *)
(** lwext4, on-disk structures: [include/ext4_types.h].

    A packed structure is the list of its fields with their sizes in bytes; a
    field is the offset and the size computed from that list, and reads and
    writes go through little-endian memory ([to_le16] and [to_le32] are the
    identity on this machine). *)
From stdpp Require Import strings.
From S2P Require Import Prelude Memory.
#[local] Open Scope string_scope.
#[local] Open Scope Z_scope.

(** ** Structures *)

(** [struct ext4_sblock] *)
Definition sb_layout : list (string * Z) :=
  [("inodes_count", 4); ("blocks_count_lo", 4); ("reserved_blocks_count_lo", 4);
   ("free_blocks_count_lo", 4); ("free_inodes_count", 4); ("first_data_block", 4);
   ("log_block_size", 4); ("log_cluster_size", 4); ("blocks_per_group", 4); ("frags_per_group", 4);
   ("inodes_per_group", 4); ("mount_time", 4); ("write_time", 4); ("mount_count", 2);
   ("max_mount_count", 2); ("magic", 2); ("state", 2); ("errors", 2); ("minor_rev_level", 2);
   ("last_check_time", 4); ("check_interval", 4); ("creator_os", 4); ("rev_level", 4);
   ("def_resuid", 2); ("def_resgid", 2); ("first_inode", 4); ("inode_size", 2);
   ("block_group_index", 2); ("features_compatible", 4); ("features_incompatible", 4);
   ("features_read_only", 4); ("uuid", 16); ("volume_name", 16); ("last_mounted", 64);
   ("algorithm_usage_bitmap", 4); ("s_prealloc_blocks", 1); ("s_prealloc_dir_blocks", 1);
   ("s_reserved_gdt_blocks", 2); ("journal_uuid", 16); ("journal_inode_number", 4);
   ("journal_dev", 4); ("last_orphan", 4); ("hash_seed", 16); ("default_hash_version", 1);
   ("journal_backup_type", 1); ("desc_size", 2); ("default_mount_opts", 4); ("first_meta_bg", 4);
   ("mkfs_time", 4); ("journal_blocks", 68); ("blocks_count_hi", 4);
   ("reserved_blocks_count_hi", 4); ("free_blocks_count_hi", 4); ("min_extra_isize", 2);
   ("want_extra_isize", 2); ("flags", 4); ("raid_stride", 2); ("mmp_interval", 2);
   ("mmp_block", 8); ("raid_stripe_width", 4); ("log_groups_per_flex", 1); ("checksum_type", 1);
   ("reserved_pad", 2); ("kbytes_written", 8); ("snapshot_inum", 4); ("snapshot_id", 4);
   ("snapshot_r_blocks_count", 8); ("snapshot_list", 4); ("error_count", 4);
   ("first_error_time", 4); ("first_error_ino", 4); ("first_error_block", 8);
   ("first_error_func", 32); ("first_error_line", 4); ("last_error_time", 4);
   ("last_error_ino", 4); ("last_error_line", 4); ("last_error_block", 8); ("last_error_func", 32);
   ("mount_opts", 64); ("usr_quota_inum", 4); ("grp_quota_inum", 4); ("overhead_clusters", 4);
   ("backup_bgs", 8); ("encrypt_algos", 4); ("encrypt_pw_salt", 16); ("lpf_ino", 4);
   ("padding", 400); ("checksum", 4)].

(** [struct ext4_bgroup] *)
Definition bg_layout : list (string * Z) :=
  [("block_bitmap_lo", 4); ("inode_bitmap_lo", 4); ("inode_table_first_block_lo", 4);
   ("free_blocks_count_lo", 2); ("free_inodes_count_lo", 2); ("used_dirs_count_lo", 2);
   ("flags", 2); ("exclude_bitmap_lo", 4); ("block_bitmap_csum_lo", 2);
   ("inode_bitmap_csum_lo", 2); ("itable_unused_lo", 2); ("checksum", 2); ("block_bitmap_hi", 4);
   ("inode_bitmap_hi", 4); ("inode_table_first_block_hi", 4); ("free_blocks_count_hi", 2);
   ("free_inodes_count_hi", 2); ("used_dirs_count_hi", 2); ("itable_unused_hi", 2);
   ("exclude_bitmap_hi", 4); ("block_bitmap_csum_hi", 2); ("inode_bitmap_csum_hi", 2);
   ("reserved", 4)].

(** [struct ext4_inode]; the union [osd2] with its [linux2] member. *)
Definition ino_layout : list (string * Z) :=
  [("mode", 2); ("uid", 2); ("size_lo", 4); ("access_time", 4); ("change_inode_time", 4);
   ("modification_time", 4); ("deletion_time", 4); ("gid", 2); ("links_count", 2);
   ("blocks_count_lo", 4); ("flags", 4); ("unused_osd1", 4); ("blocks", 60); ("generation", 4);
   ("file_acl_lo", 4); ("size_hi", 4); ("obso_faddr", 4); ("blocks_high", 2); ("file_acl_high", 2);
   ("uid_high", 2); ("gid_high", 2); ("checksum_lo", 2); ("reserved2", 2); ("extra_isize", 2);
   ("checksum_hi", 2); ("ctime_extra", 4); ("mtime_extra", 4); ("atime_extra", 4); ("crtime", 4);
   ("crtime_extra", 4); ("version_hi", 4)].

(** ** Fields *)

Record field := Field { f_off : Z; f_len : Z }.

Fixpoint find_field (l : list (string * Z)) (off : Z) (name : string) : option field :=
  match l with
  | [] => None
  | (n, w) :: l => if String.eqb n name then Some (Field off w) else find_field l (off + w) name
  end.

Definition field_of (l : list (string * Z)) (name : string) : field :=
  default (Field 0 0) (find_field l 0 name).

Definition struct_size (l : list (string * Z)) : Z := foldr (fun p acc => p.2 + acc) 0 l.

(** [s->f] and [s->f = v], the value cut to the width of the field. *)
Definition fget (f : field) (m : memory) (s : Z) : Z := ldn (Z.to_nat (f_len f)) m (s + f_off f).
Definition fset (f : field) (m : memory) (s v : Z) : memory := stn (Z.to_nat (f_len f)) m (s + f_off f) v.

Definition sb_inodes_count : field := Eval vm_compute in field_of sb_layout "inodes_count".
Definition sb_blocks_count_lo : field := Eval vm_compute in field_of sb_layout "blocks_count_lo".
Definition sb_reserved_blocks_count_lo : field := Eval vm_compute in field_of sb_layout "reserved_blocks_count_lo".
Definition sb_free_blocks_count_lo : field := Eval vm_compute in field_of sb_layout "free_blocks_count_lo".
Definition sb_free_inodes_count : field := Eval vm_compute in field_of sb_layout "free_inodes_count".
Definition sb_first_data_block : field := Eval vm_compute in field_of sb_layout "first_data_block".
Definition sb_log_block_size : field := Eval vm_compute in field_of sb_layout "log_block_size".
Definition sb_log_cluster_size : field := Eval vm_compute in field_of sb_layout "log_cluster_size".
Definition sb_blocks_per_group : field := Eval vm_compute in field_of sb_layout "blocks_per_group".
Definition sb_inodes_per_group : field := Eval vm_compute in field_of sb_layout "inodes_per_group".
Definition sb_mount_count : field := Eval vm_compute in field_of sb_layout "mount_count".
Definition sb_magic : field := Eval vm_compute in field_of sb_layout "magic".
Definition sb_state : field := Eval vm_compute in field_of sb_layout "state".
Definition sb_rev_level : field := Eval vm_compute in field_of sb_layout "rev_level".
Definition sb_first_inode : field := Eval vm_compute in field_of sb_layout "first_inode".
Definition sb_inode_size : field := Eval vm_compute in field_of sb_layout "inode_size".
Definition sb_features_compatible : field := Eval vm_compute in field_of sb_layout "features_compatible".
Definition sb_features_incompatible : field := Eval vm_compute in field_of sb_layout "features_incompatible".
Definition sb_features_read_only : field := Eval vm_compute in field_of sb_layout "features_read_only".
Definition sb_uuid : field := Eval vm_compute in field_of sb_layout "uuid".
Definition sb_s_reserved_gdt_blocks : field := Eval vm_compute in field_of sb_layout "s_reserved_gdt_blocks".
Definition sb_creator_os : field := Eval vm_compute in field_of sb_layout "creator_os".
Definition sb_desc_size : field := Eval vm_compute in field_of sb_layout "desc_size".
Definition sb_first_meta_bg : field := Eval vm_compute in field_of sb_layout "first_meta_bg".
Definition sb_blocks_count_hi : field := Eval vm_compute in field_of sb_layout "blocks_count_hi".
Definition sb_free_blocks_count_hi : field := Eval vm_compute in field_of sb_layout "free_blocks_count_hi".
Definition sb_min_extra_isize : field := Eval vm_compute in field_of sb_layout "min_extra_isize".
Definition sb_want_extra_isize : field := Eval vm_compute in field_of sb_layout "want_extra_isize".
Definition sb_flags : field := Eval vm_compute in field_of sb_layout "flags".
Definition sb_log_groups_per_flex : field := Eval vm_compute in field_of sb_layout "log_groups_per_flex".
Definition sb_checksum_type : field := Eval vm_compute in field_of sb_layout "checksum_type".
Definition sb_checksum : field := Eval vm_compute in field_of sb_layout "checksum".

Definition bg_block_bitmap_lo : field := Eval vm_compute in field_of bg_layout "block_bitmap_lo".
Definition bg_inode_bitmap_lo : field := Eval vm_compute in field_of bg_layout "inode_bitmap_lo".
Definition bg_inode_table_first_block_lo : field := Eval vm_compute in field_of bg_layout "inode_table_first_block_lo".
Definition bg_free_blocks_count_lo : field := Eval vm_compute in field_of bg_layout "free_blocks_count_lo".
Definition bg_free_inodes_count_lo : field := Eval vm_compute in field_of bg_layout "free_inodes_count_lo".
Definition bg_used_dirs_count_lo : field := Eval vm_compute in field_of bg_layout "used_dirs_count_lo".
Definition bg_flags : field := Eval vm_compute in field_of bg_layout "flags".
Definition bg_exclude_bitmap_lo : field := Eval vm_compute in field_of bg_layout "exclude_bitmap_lo".
Definition bg_block_bitmap_csum_lo : field := Eval vm_compute in field_of bg_layout "block_bitmap_csum_lo".
Definition bg_inode_bitmap_csum_lo : field := Eval vm_compute in field_of bg_layout "inode_bitmap_csum_lo".
Definition bg_itable_unused_lo : field := Eval vm_compute in field_of bg_layout "itable_unused_lo".
Definition bg_checksum : field := Eval vm_compute in field_of bg_layout "checksum".
Definition bg_block_bitmap_hi : field := Eval vm_compute in field_of bg_layout "block_bitmap_hi".
Definition bg_inode_bitmap_hi : field := Eval vm_compute in field_of bg_layout "inode_bitmap_hi".
Definition bg_inode_table_first_block_hi : field := Eval vm_compute in field_of bg_layout "inode_table_first_block_hi".
Definition bg_free_blocks_count_hi : field := Eval vm_compute in field_of bg_layout "free_blocks_count_hi".
Definition bg_free_inodes_count_hi : field := Eval vm_compute in field_of bg_layout "free_inodes_count_hi".
Definition bg_used_dirs_count_hi : field := Eval vm_compute in field_of bg_layout "used_dirs_count_hi".
Definition bg_itable_unused_hi : field := Eval vm_compute in field_of bg_layout "itable_unused_hi".
Definition bg_exclude_bitmap_hi : field := Eval vm_compute in field_of bg_layout "exclude_bitmap_hi".
Definition bg_block_bitmap_csum_hi : field := Eval vm_compute in field_of bg_layout "block_bitmap_csum_hi".
Definition bg_inode_bitmap_csum_hi : field := Eval vm_compute in field_of bg_layout "inode_bitmap_csum_hi".
Definition bg_reserved : field := Eval vm_compute in field_of bg_layout "reserved".

Definition ino_mode : field := Eval vm_compute in field_of ino_layout "mode".
Definition ino_uid : field := Eval vm_compute in field_of ino_layout "uid".
Definition ino_size_lo : field := Eval vm_compute in field_of ino_layout "size_lo".
Definition ino_access_time : field := Eval vm_compute in field_of ino_layout "access_time".
Definition ino_change_inode_time : field := Eval vm_compute in field_of ino_layout "change_inode_time".
Definition ino_modification_time : field := Eval vm_compute in field_of ino_layout "modification_time".
Definition ino_deletion_time : field := Eval vm_compute in field_of ino_layout "deletion_time".
Definition ino_gid : field := Eval vm_compute in field_of ino_layout "gid".
Definition ino_links_count : field := Eval vm_compute in field_of ino_layout "links_count".
Definition ino_blocks_count_lo : field := Eval vm_compute in field_of ino_layout "blocks_count_lo".
Definition ino_flags : field := Eval vm_compute in field_of ino_layout "flags".
Definition ino_blocks : field := Eval vm_compute in field_of ino_layout "blocks".
Definition ino_generation : field := Eval vm_compute in field_of ino_layout "generation".
Definition ino_file_acl_lo : field := Eval vm_compute in field_of ino_layout "file_acl_lo".
Definition ino_size_hi : field := Eval vm_compute in field_of ino_layout "size_hi".
Definition ino_obso_faddr : field := Eval vm_compute in field_of ino_layout "obso_faddr".
Definition ino_blocks_high : field := Eval vm_compute in field_of ino_layout "blocks_high".
Definition ino_file_acl_high : field := Eval vm_compute in field_of ino_layout "file_acl_high".
Definition ino_uid_high : field := Eval vm_compute in field_of ino_layout "uid_high".
Definition ino_gid_high : field := Eval vm_compute in field_of ino_layout "gid_high".
Definition ino_checksum_lo : field := Eval vm_compute in field_of ino_layout "checksum_lo".
Definition ino_extra_isize : field := Eval vm_compute in field_of ino_layout "extra_isize".
Definition ino_checksum_hi : field := Eval vm_compute in field_of ino_layout "checksum_hi".
Definition ino_ctime_extra : field := Eval vm_compute in field_of ino_layout "ctime_extra".
Definition ino_mtime_extra : field := Eval vm_compute in field_of ino_layout "mtime_extra".
Definition ino_atime_extra : field := Eval vm_compute in field_of ino_layout "atime_extra".
Definition ino_crtime : field := Eval vm_compute in field_of ino_layout "crtime".
Definition ino_crtime_extra : field := Eval vm_compute in field_of ino_layout "crtime_extra".
Definition ino_version_hi : field := Eval vm_compute in field_of ino_layout "version_hi".

(** ** Laws of fields *)

Definition f_disjoint (f g : field) : Prop := f_off f + f_len f <= f_off g \/ f_off g + f_len g <= f_off f.

Lemma fget_range f m s : 0 <= fget f m s < 2 ^ (8 * Z.of_nat (Z.to_nat (f_len f))).
Proof. apply ldn_range. Qed.

Lemma fget_fset_same f m s v : 0 <= f_len f -> 0 <= v < 2 ^ (8 * f_len f) -> fget f (fset f m s v) s = v.
Proof.
  intros Hl Hv. unfold fget, fset. rewrite ldn_stn_same, Z2Nat.id by done. by apply Z.mod_small.
Qed.

Lemma fget_fset_mod f m s v : 0 <= f_len f -> fget f (fset f m s v) s = uw (8 * f_len f) v.
Proof. intros Hl. unfold fget, fset. by rewrite ldn_stn_same, Z2Nat.id by done. Qed.

Lemma fget_fset_other f g m s v : 0 <= f_len f -> 0 <= f_len g -> f_disjoint f g ->
  fget f (fset g m s v) s = fget f m s.
Proof. intros Hf Hg Hd. apply ldn_stn_other. unfold f_disjoint in Hd. lia. Qed.

(** Fields of another structure, elsewhere in memory. *)
Lemma fget_fset_far f g m s t v : 0 <= f_len f -> 0 <= f_len g ->
  s + f_off f + f_len f <= t + f_off g \/ t + f_off g + f_len g <= s + f_off f ->
  fget f (fset g m t v) s = fget f m s.
Proof. intros Hf Hg Hd. apply ldn_stn_other. lia. Qed.

(** A changed byte of a field changes the field. *)
Lemma ldn_byte n m a k : (k < n)%nat -> (ldn n m a / 2 ^ (8 * Z.of_nat k)) mod 256 = ld8 m (a + Z.of_nat k).
Proof.
  revert a k; induction n as [|n IH]; intros a k Hk; [lia|]. cbn [ldn].
  pose proof (uw_range 8 (m a) ltac:(lia)) as Hb. change (2 ^ 8) with 256 in Hb.
  destruct k as [|k].
  - rewrite Z.div_1_r, Z.add_0_r, Z.mul_comm, Z.mod_add by lia. by apply Z.mod_small.
  - replace (8 * Z.of_nat (S k)) with (8 + 8 * Z.of_nat k) by lia.
    rewrite Z.pow_add_r, <- Z.div_div by lia. change (2 ^ 8) with 256.
    rewrite (Z.mul_comm 256), Z.div_add, (Z.div_small (u8 _)), Z.add_0_l, IH by lia. f_equal. lia.
Qed.

Lemma fget_st8_in f m s a v : s + f_off f <= a < s + f_off f + f_len f -> u8 v <> ld8 m a ->
  fget f (st8 m a v) s <> fget f m s.
Proof.
  intros Ha Hv E. apply Hv. unfold fget in E. set (k := Z.to_nat (a - (s + f_off f))).
  replace a with (s + f_off f + Z.of_nat k) by lia.
  rewrite <- (ldn_byte (Z.to_nat (f_len f)) m), <- E by lia. rewrite ldn_byte by lia.
  replace (s + f_off f + Z.of_nat k) with a by lia. by rewrite ld8_st8_same.
Qed.

Lemma fget_st8_out f m s a v : a < s + f_off f \/ s + f_off f + f_len f <= a -> 0 <= f_len f ->
  fget f (st8 m a v) s = fget f m s.
Proof. intros Ha Hf. apply ldn_ext. intros x Hx. unfold st8. case_if; [lia|done]. Qed.

(** Closed facts about fields. *)
Ltac fld := first [done | lia | (unfold f_disjoint; cbn; lia)].

(** ** Theorem *)

(** The structures have their on-disk sizes, the superblock checksum is its
    last word, and in each structure no two fields overlap. *)
Theorem layouts_exact :
  struct_size sb_layout = 1024 /\ f_off sb_checksum = 1020 /\ f_len sb_checksum = 4 /\
  struct_size bg_layout = 64 /\ f_off bg_checksum = 30 /\ f_off bg_block_bitmap_hi = 32 /\
  struct_size ino_layout = 156 /\ f_off ino_extra_isize = 128 /\
  forall l, l = sb_layout \/ l = bg_layout \/ l = ino_layout ->
    forall i j p q, (i < j)%nat -> l !! i = Some p -> l !! j = Some q ->
      f_off (field_of l p.1) + f_len (field_of l p.1) <= f_off (field_of l q.1).
Proof.
  split_and!; try reflexivity. intros l Hl i j p q Hij Hp Hq.
  assert (forallb (fun i => forallb (fun j =>
      match l !! i, l !! (i + 1 + j)%nat with
      | Some p, Some q => f_off (field_of l p.1) + f_len (field_of l p.1) <=? f_off (field_of l q.1)
      | _, _ => true
      end) (seq 0 (length l))) (seq 0 (length l)) = true) as H.
  { destruct_or! Hl; subst l; vm_compute; reflexivity. }
  rewrite forallb_forall in H. specialize (H i). rewrite forallb_forall in H.
  pose proof (lookup_lt_Some _ _ _ Hp). pose proof (lookup_lt_Some _ _ _ Hq).
  specialize (H ltac:(apply in_seq; lia) (j - i - 1)%nat ltac:(apply in_seq; lia)).
  replace (i + 1 + (j - i - 1))%nat with j in H by lia. rewrite Hp, Hq in H. by apply Z.leb_le.
Qed.

Lemma layouts_exact_witness :
  f_off (field_of bg_layout "flags") + f_len (field_of bg_layout "flags") <= f_off (field_of bg_layout "checksum").
Proof.
  destruct layouts_exact as (_ & _ & _ & _ & _ & _ & _ & _ & H).
  refine (H bg_layout _ 6%nat 11%nat _ _ _ eq_refl eq_refl); [right; left; reflexivity|lia].
Defined.
