(* ===== verification/Ext4Super.v ===== *)
(** lwext4, the superblock: [include/ext4_super.h] and [src/ext4_super.c].

    The superblock is the 1024 bytes at [s] of a memory [m].  [1024 << log] is
    kept at 32 bits; C leaves shift counts of 32 and more undefined, and a
    division by zero too, so the theorems that depend on them assume the
    block sizes of the format ([log_block_size <= 6]). *)
From S2P Require Import Prelude Memory Ext4Crc Ext4Layout.
#[local] Open Scope Z_scope.
#[local] Open Scope cint_scope.

(** ** Model *)

Definition EXT4_SUPERBLOCK_MAGIC : Z := 0xEF53.
Definition EXT4_SUPERBLOCK_OFFSET : Z := 1024.
Definition EXT4_SUPERBLOCK_SIZE : Z := 1024.
Definition EXT4_FRO_COM_SPARSE_SUPER : Z := 0x0001.
Definition EXT4_FRO_COM_GDT_CSUM : Z := 0x0010.
Definition EXT4_FRO_COM_HUGE_FILE : Z := 0x0008.
Definition EXT4_FRO_COM_METADATA_CSUM : Z := 0x0400.
Definition EXT4_FINCOM_META_BG : Z := 0x0010.
Definition EXT4_MIN_BLOCK_GROUP_DESCRIPTOR_SIZE : Z := 32.
Definition EXT4_MAX_BLOCK_GROUP_DESCRIPTOR_SIZE : Z := 64.
Definition EXT4_CHECKSUM_CRC32C : Z := 1.
Definition EXT4_CRC32_INIT : Z := 0xFFFFFFFF.

Definition ext4_sb_get_blocks_cnt (m : memory) (s : Z) : Z :=
  u64 (fget sb_blocks_count_hi m s .<< 32) .| fget sb_blocks_count_lo m s.

Definition ext4_sb_set_blocks_cnt (m : memory) (s cnt : Z) : memory :=
  let m := fset sb_blocks_count_lo m s (u64 (cnt .<< 32) .>> 32) in
  fset sb_blocks_count_hi m s (cnt .>> 32).

Definition ext4_sb_get_free_blocks_cnt (m : memory) (s : Z) : Z :=
  u64 (fget sb_free_blocks_count_hi m s .<< 32) .| fget sb_free_blocks_count_lo m s.

Definition ext4_sb_set_free_blocks_cnt (m : memory) (s cnt : Z) : memory :=
  let m := fset sb_free_blocks_count_lo m s (u64 (cnt .<< 32) .>> 32) in
  fset sb_free_blocks_count_hi m s (cnt .>> 32).

Definition ext4_sb_get_block_size (m : memory) (s : Z) : Z := u32 (1024 .<< fget sb_log_block_size m s).

Definition ext4_sb_get_desc_size (m : memory) (s : Z) : Z :=
  let size := fget sb_desc_size m s in
  if size <? EXT4_MIN_BLOCK_GROUP_DESCRIPTOR_SIZE then EXT4_MIN_BLOCK_GROUP_DESCRIPTOR_SIZE else size.

Definition ext4_sb_check_flag (m : memory) (s v : Z) : bool := c_true (fget sb_flags m s .& v).
Definition ext4_sb_feature_com (m : memory) (s v : Z) : bool := c_true (fget sb_features_compatible m s .& v).
Definition ext4_sb_feature_incom (m : memory) (s v : Z) : bool := c_true (fget sb_features_incompatible m s .& v).
Definition ext4_sb_feature_ro_com (m : memory) (s v : Z) : bool := c_true (fget sb_features_read_only m s .& v).

Definition ext4_sb_bg_to_flex (m : memory) (s block_group : Z) : Z :=
  block_group .>> fget sb_log_groups_per_flex m s.
Definition ext4_sb_flex_bg_size (m : memory) (s : Z) : Z := u32 (1 .<< fget sb_log_groups_per_flex m s).
Definition ext4_sb_first_meta_bg (m : memory) (s : Z) : Z := fget sb_first_meta_bg m s.

Definition ext4_block_group_cnt (m : memory) (s : Z) : Z :=
  let blocks_count := ext4_sb_get_blocks_cnt m s in
  let blocks_per_group := fget sb_blocks_per_group m s in
  let block_groups_count := u32 (blocks_count / blocks_per_group) in
  if c_true (blocks_count mod blocks_per_group) then u32 (block_groups_count + 1) else block_groups_count.

Definition ext4_blocks_in_group_cnt (m : memory) (s bgid : Z) : Z :=
  let block_group_count := ext4_block_group_cnt m s in
  let blocks_per_group := fget sb_blocks_per_group m s in
  let total_blocks := ext4_sb_get_blocks_cnt m s in
  if bgid <? u32 (block_group_count - 1) then blocks_per_group
  else u32 (u64 (total_blocks - u32 (u32 (block_group_count - 1) * blocks_per_group))).

Definition ext4_inodes_in_group_cnt (m : memory) (s bgid : Z) : Z :=
  let block_group_count := ext4_block_group_cnt m s in
  let inodes_per_group := fget sb_inodes_per_group m s in
  let total_inodes := fget sb_inodes_count m s in
  if bgid <? u32 (block_group_count - 1) then inodes_per_group
  else u32 (total_inodes - u32 (u32 (block_group_count - 1) * inodes_per_group)).

Definition ext4_sb_csum (m : memory) (s : Z) : Z := ext4_crc32c m EXT4_CRC32_INIT s (f_off sb_checksum).

Definition ext4_sb_verify_csum (m : memory) (s : Z) : bool :=
  if negb (ext4_sb_feature_ro_com m s EXT4_FRO_COM_METADATA_CSUM) then true
  else if negb (fget sb_checksum_type m s =? EXT4_CHECKSUM_CRC32C) then false
  else fget sb_checksum m s =? ext4_sb_csum m s.

Definition ext4_sb_set_csum (m : memory) (s : Z) : memory :=
  if negb (ext4_sb_feature_ro_com m s EXT4_FRO_COM_METADATA_CSUM) then m
  else fset sb_checksum m s (ext4_sb_csum m s).

Definition ext4_sb_check (m : memory) (s : Z) : bool :=
  if negb (fget sb_magic m s =? EXT4_SUPERBLOCK_MAGIC) then false
  else if fget sb_inodes_count m s =? 0 then false
  else if ext4_sb_get_blocks_cnt m s =? 0 then false
  else if fget sb_blocks_per_group m s =? 0 then false
  else if fget sb_inodes_per_group m s =? 0 then false
  else if fget sb_inode_size m s <? 128 then false
  else if fget sb_first_inode m s <? 11 then false
  else if ext4_sb_get_desc_size m s <? EXT4_MIN_BLOCK_GROUP_DESCRIPTOR_SIZE then false
  else if EXT4_MAX_BLOCK_GROUP_DESCRIPTOR_SIZE <? ext4_sb_get_desc_size m s then false
  else if negb (ext4_sb_verify_csum m s) then false
  else true.

(** The loop divides [a] by [b >= 2] each turn: 32 turns are enough at 32 bits
    ([is_power_of_ok]). *)
Fixpoint is_power_of_loop (fuel : nat) (a b : Z) : option bool :=
  match fuel with
  | O => None
  | S fuel =>
      if a <? b then Some false
      else if a =? b then Some true
      else if negb (a mod b =? 0) then Some false
      else is_power_of_loop fuel (a / b) b
  end.

Definition is_power_of (a b : Z) : option bool := is_power_of_loop 32 a b.

Definition ext4_sb_sparse (group : Z) : option bool :=
  if group <=? 1 then Some true
  else if negb (c_true (group .& 1)) then Some false
  else
    b7 ← is_power_of group 7;
    if (b7 : bool) then Some true else
    b5 ← is_power_of group 5;
    if (b5 : bool) then Some true else is_power_of group 3.

Definition ext4_sb_is_super_in_bg (m : memory) (s group : Z) : option bool :=
  if ext4_sb_feature_ro_com m s EXT4_FRO_COM_SPARSE_SUPER then ext4_sb_sparse group else Some true.

Definition ext4_bg_num_gdb_meta (m : memory) (s group : Z) : Z :=
  let dsc_per_block := ext4_sb_get_block_size m s / ext4_sb_get_desc_size m s in
  let metagroup := group / dsc_per_block in
  let first := u32 (metagroup * dsc_per_block) in
  let last := u32 (first + dsc_per_block - 1) in
  if (group =? first) || (group =? u32 (first + 1)) || (group =? last) then 1 else 0.

Definition ext4_bg_num_gdb_nometa (m : memory) (s group : Z) : option Z :=
  super ← ext4_sb_is_super_in_bg m s group;
  if negb super then Some 0 else
  let dsc_per_block := ext4_sb_get_block_size m s / ext4_sb_get_desc_size m s in
  let db_count := u32 (ext4_block_group_cnt m s + dsc_per_block - 1) / dsc_per_block in
  if ext4_sb_feature_incom m s EXT4_FINCOM_META_BG then Some (ext4_sb_first_meta_bg m s)
  else Some db_count.

Definition ext4_bg_num_gdb (m : memory) (s group : Z) : option Z :=
  let dsc_per_block := ext4_sb_get_block_size m s / ext4_sb_get_desc_size m s in
  let first_meta_bg := ext4_sb_first_meta_bg m s in
  let metagroup := group / dsc_per_block in
  if negb (ext4_sb_feature_incom m s EXT4_FINCOM_META_BG) || (metagroup <? first_meta_bg)
  then ext4_bg_num_gdb_nometa m s group
  else Some (ext4_bg_num_gdb_meta m s group).

Definition ext4_num_base_meta_clusters (m : memory) (s block_group : Z) : option Z :=
  let dsc_per_block := ext4_sb_get_block_size m s / ext4_sb_get_desc_size m s in
  super ← ext4_sb_is_super_in_bg m s block_group;
  let num := if (super : bool) then 1 else 0 in
  num ←
    if negb (ext4_sb_feature_incom m s EXT4_FINCOM_META_BG) ||
       (block_group <? u32 (ext4_sb_first_meta_bg m s * dsc_per_block))
    then
      if c_true num then
        gdb ← ext4_bg_num_gdb m s block_group;
        Some (u32 (u32 (num + gdb) + fget sb_s_reserved_gdt_blocks m s))
      else Some num
    else
      gdb ← ext4_bg_num_gdb m s block_group;
      Some (u32 (num + gdb));
  let clustersize := u32 (1024 .<< fget sb_log_cluster_size m s) in
  let cluster_ratio := clustersize / ext4_sb_get_block_size m s in
  Some (u32 (num + cluster_ratio - 1) .>> fget sb_log_cluster_size m s).

#[local] Opaque ext4_crc32c.

(** ** Words split over a low and a high field *)

Lemma join_lo_hi k v : 0 <= k -> 0 <= v -> ((v .>> k) .<< k) .| uw k v = v.
Proof.
  intros Hk Hv. rewrite shiftl_pow2, shiftr_pow2, lor_add_disjoint by (done || by apply uw_range).
  by apply split_word.
Qed.

Lemma cut_lo cnt : 0 <= cnt -> u64 (cnt .<< 32) .>> 32 = u32 cnt.
Proof.
  intros Hc. unfold uw. rewrite shiftl_pow2, shiftr_pow2 by lia.
  change (2 ^ 64) with (2 ^ 32 * 2 ^ 32). rewrite Z.mul_mod_distr_r by lia.
  by rewrite Z.div_mul.
Qed.

Lemma hi_range v : 0 <= v < 2 ^ 64 -> 0 <= v .>> 32 < 2 ^ 32.
Proof.
  intros Hv. rewrite shiftr_pow2 by lia. split; [apply Z.div_pos; lia|].
  apply Z.div_lt_upper_bound; [lia|]. pow2; lia.
Qed.

Lemma join_word v : 0 <= v < 2 ^ 64 -> u64 ((v .>> 32) .<< 32) .| u32 v = v.
Proof.
  intros Hv. rewrite uw_small; [apply join_lo_hi; lia|].
  rewrite shiftl_pow2, shiftr_pow2 by lia. pose proof (Z.mul_div_le v (2 ^ 32) ltac:(lia)).
  pose proof (Z.div_pos v (2 ^ 32)). pow2; lia.
Qed.

Lemma wide_range hi lo : 0 <= lo < 2 ^ 32 -> 0 <= u64 (hi .<< 32) .| lo < 2 ^ 64.
Proof. intros. apply lor_range; [lia|apply uw_range; lia|pow2; lia]. Qed.

Lemma blocks_cnt_range m s : 0 <= ext4_sb_get_blocks_cnt m s < 2 ^ 64.
Proof. apply wide_range, (fget_range sb_blocks_count_lo). Qed.

(** ** Powers *)

Lemma is_power_of_loop_ok fuel : forall a b, 2 <= b -> 1 <= a < 2 ^ Z.of_nat fuel ->
  exists r, is_power_of_loop fuel a b = Some r /\ (r = true <-> exists k, 1 <= k /\ a = b ^ k).
Proof.
  induction fuel as [|fuel IH]; intros a b Hb Ha; [cbn in Ha; lia|]. cbn [is_power_of_loop].
  assert (forall k, 1 <= k -> b ^ k = b * b ^ (k - 1)) as Hpow.
  { intros k Hk. rewrite <- Z.pow_succ_r by lia. f_equal. lia. }
  assert (forall k, 0 <= k -> 1 <= b ^ k) as Hpos by (intros; apply (Z.pow_le_mono_r b 0); lia).
  repeat case_if.
  - exists false. split; [done|]. split; [done|]. intros (k & Hk & ->).
    rewrite Hpow in * by done. pose proof (Hpos (k - 1)). nia.
  - exists true. split; [done|]. split; [|done]. intros _. exists 1. lia.
  - exists false. split; [done|]. split; [done|]. intros (k & Hk & ->).
    rewrite Hpow in * by done. rewrite Z.mul_comm, Z.mod_mul in * by lia. done.
  - pose proof (Z.div_mod a b ltac:(lia)) as Hd.
    destruct (IH (a / b) b Hb) as (r & -> & Hr).
    { rewrite Nat2Z.inj_succ, Z.pow_succ_r in Ha by lia. split; [nia|].
      apply Z.div_lt_upper_bound; nia. }
    exists r. split; [done|]. rewrite Hr. split; intros (k & Hk & Ek).
    + exists (k + 1). split; [lia|]. rewrite Hpow, Z.add_simpl_r by lia. lia.
    + assert (k <> 1) by (intros ->; lia). exists (k - 1). split; [lia|].
      rewrite Ek, Hpow by lia. rewrite Z.mul_comm. apply Z.div_mul. lia.
Qed.

Lemma is_power_of_ok a b : 2 <= b -> 1 <= a < 2 ^ 32 ->
  exists r, is_power_of a b = Some r /\ (r = true <-> exists k, 1 <= k /\ a = b ^ k).
Proof. apply (is_power_of_loop_ok 32). Qed.

Lemma odd_pow b k : Z.odd b = true -> 1 <= k -> Z.odd (b ^ k) = true.
Proof. intros Hb Hk. by rewrite Z.odd_pow by lia. Qed.

Definition sparse_group (g : Z) : Prop :=
  g <= 1 \/ exists b k, (b = 3 \/ b = 5 \/ b = 7) /\ 1 <= k /\ g = b ^ k.

Lemma ext4_sb_sparse_ok g : 0 <= g < 2 ^ 32 ->
  exists r, ext4_sb_sparse g = Some r /\ (r = true <-> sparse_group g).
Proof.
  intros Hg. unfold ext4_sb_sparse, sparse_group. case_if; [exists true; naive_solver|].
  destruct (c_true (g .& 1)) eqn:Ho; cbn [negb].
  - destruct (is_power_of_ok g 7) as (r7 & -> & H7); [lia..|].
    destruct (is_power_of_ok g 5) as (r5 & -> & H5); [lia..|].
    destruct (is_power_of_ok g 3) as (r3 & -> & H3); [lia..|].
    cbn [mbind option_bind].
    exists (r7 || r5 || r3). split; [by destruct r7, r5, r3|].
    rewrite !orb_true_iff, H7, H5, H3. naive_solver lia.
  - exists false. split; [done|]. split; [done|]. intros [|(b & k & Hb & Hk & ->)]; [lia|].
    assert (Z.testbit (b ^ k) 0 = true) as Ht.
    { rewrite Z.bit0_odd. apply odd_pow; [by destruct_or! Hb; subst|done]. }
    rewrite <- (c_true_land_bit _ 0) in Ht by lia. change (1 .<< 0) with 1 in Ht. congruence.
Qed.

(** ** Groups *)

Lemma block_group_cnt_split m s :
  let n := ext4_block_group_cnt m s in
  let per := fget sb_blocks_per_group m s in
  let total := ext4_sb_get_blocks_cnt m s in
  1 <= per -> 1 <= total -> total <= per * (2 ^ 32 - 1) ->
  1 <= n < 2 ^ 32 /\ exists r, 1 <= r <= per /\ total = (n - 1) * per + r.
Proof.
  intros n per total Hp Ht Hmax. pose proof (Z.div_mod total per ltac:(lia)) as Hd.
  pose proof (Z.mod_pos_bound total per ltac:(lia)) as Hm.
  assert (0 <= total / per < 2 ^ 32) as Hq.
  { split; [apply Z.div_pos; lia|]. apply Z.div_lt_upper_bound; lia. }
  subst n. unfold ext4_block_group_cnt. fold per total. rewrite (uw_small 32 (total / per)) by done.
  unfold c_true. case_if; zb.
  - assert (total / per < 2 ^ 32 - 1) by nia. rewrite uw_small by lia. split; [lia|].
    exists (total mod per). split; lia.
  - split; [nia|]. exists per. split; [lia|]. nia.
Qed.

Definition zsum (f : Z -> Z) (n : Z) : Z := foldr (fun i acc => f (Z.of_nat i) + acc) 0 (seq 0 (Z.to_nat n)).

Lemma foldr_sum_app (f : Z -> Z) l1 l2 :
  foldr (fun i acc => f (Z.of_nat i) + acc) 0 (l1 ++ l2) =
  foldr (fun i acc => f (Z.of_nat i) + acc) 0 l1 + foldr (fun i acc => f (Z.of_nat i) + acc) 0 l2.
Proof. induction l1 as [|x l1 IH]; cbn; [done|]. rewrite IH. lia. Qed.

(** All summands but the last are [c]. *)
Lemma zsum_succ f n : 0 <= n -> zsum f (n + 1) = zsum f n + f n.
Proof.
  intros Hn. unfold zsum. replace (Z.to_nat (n + 1)) with (Z.to_nat n + 1)%nat by lia.
  rewrite seq_app. cbn [seq]. rewrite foldr_sum_app. cbn [foldr]. rewrite Nat.add_0_l, Z2Nat.id by lia. lia.
Qed.

Lemma zsum_ind (P : Z -> Prop) : P 0 -> (forall n, 0 <= n -> P n -> P (n + 1)) -> forall n, 0 <= n -> P n.
Proof. intros H0 HS. apply natlike_ind; [done|]. intros n Hn. rewrite <- Z.add_1_r. by apply HS. Qed.

(** Two sums that differ by [d] in each term. *)
Lemma zsum_add f g d n : 0 <= n -> (forall i, 0 <= i < n -> g i = f i + d i) -> zsum g n = zsum f n + zsum d n.
Proof.
  intros Hn. revert n Hn. apply (zsum_ind (fun n => (forall i, 0 <= i < n -> g i = f i + d i) -> zsum g n = zsum f n + zsum d n)); [done|].
  intros n Hn IH Hd. rewrite !zsum_succ, IH, Hd by (done || lia || (intros; apply Hd; lia)). lia.
Qed.

Lemma zsum_ext f g n : (forall i, 0 <= i < n -> g i = f i) -> zsum g n = zsum f n.
Proof.
  intros Hf. destruct (decide (0 <= n)) as [Hn|Hn]; [|unfold zsum; by replace (Z.to_nat n) with 0%nat by lia]. revert n Hn Hf.
  apply (zsum_ind (fun n => (forall i, 0 <= i < n -> g i = f i) -> zsum g n = zsum f n)); [done|].
  intros n Hn IH Hf. rewrite !zsum_succ, IH, Hf by (done || lia || (intros; apply Hf; lia)). done.
Qed.

Lemma zsum_range lo hi c n : 0 <= lo <= hi -> hi <= n ->
  zsum (fun i => if (lo <=? i) && (i <? hi) then c else 0) n = (hi - lo) * c.
Proof.
  intros Hl Hn. transitivity (Z.max 0 (Z.min n hi - lo) * c); [|by rewrite Z.min_r, Z.max_r by lia]. assert (0 <= n) as Hn0 by lia. clear Hn. revert n Hn0.
  apply (zsum_ind (fun n => zsum _ n = Z.max 0 (Z.min n hi - lo) * c)); [by rewrite Z.min_l, Z.max_l by lia|]. intros n Hn IH. rewrite zsum_succ, IH by lia.
  case_if; zb.
  - rewrite (Z.min_l n), (Z.min_l (n + 1)), !Z.max_r by lia. lia.
  - assert (Z.max 0 (Z.min (n + 1) hi - lo) = Z.max 0 (Z.min n hi - lo)) as -> by lia. lia.
Qed.

Lemma zsum_bounds f c n : 0 <= n -> (forall i, 0 <= i < n -> 0 <= f i <= c i) -> 0 <= zsum f n <= zsum c n.
Proof.
  intros Hn. revert n Hn. apply (zsum_ind (fun n => (forall i, 0 <= i < n -> 0 <= f i <= c i) -> 0 <= zsum f n <= zsum c n)); [done|].
  intros n Hn IH Hf. rewrite !zsum_succ by lia. specialize (Hf n ltac:(lia)) as Hfn.
  specialize (IH ltac:(intros; apply Hf; lia)). lia.
Qed.

Lemma zsum_const_last f n c : 1 <= n -> (forall i, 0 <= i < n - 1 -> f i = c) ->
  zsum f n = (n - 1) * c + f (n - 1).
Proof.
  intros Hn Hc. unfold zsum. replace (Z.to_nat n) with (Z.to_nat (n - 1) + 1)%nat by lia.
  rewrite seq_app, foldr_sum_app. cbn [seq foldr]. replace (Z.of_nat (0 + Z.to_nat (n - 1))) with (n - 1) by lia.
  assert (forall k, (k <= Z.to_nat (n - 1))%nat ->
    foldr (fun i acc => f (Z.of_nat i) + acc) 0 (seq 0 k) = Z.of_nat k * c) as H.
  { induction k as [|k IH]; intros Hk; [done|].
    replace (S k) with (k + 1)%nat by lia. rewrite seq_app, foldr_sum_app, IH by lia. cbn.
    rewrite Hc by lia. lia. }
  rewrite H, Z2Nat.id by lia. lia.
Qed.

Lemma ext4_sb_check_facts m s : ext4_sb_check m s = true ->
  fget sb_magic m s = EXT4_SUPERBLOCK_MAGIC /\ 1 <= fget sb_inodes_count m s /\
  1 <= ext4_sb_get_blocks_cnt m s /\ 1 <= fget sb_blocks_per_group m s /\
  1 <= fget sb_inodes_per_group m s /\ 128 <= fget sb_inode_size m s /\ 11 <= fget sb_first_inode m s /\
  32 <= ext4_sb_get_desc_size m s <= 64 /\ ext4_sb_verify_csum m s = true.
Proof.
  unfold ext4_sb_check, EXT4_MIN_BLOCK_GROUP_DESCRIPTOR_SIZE, EXT4_MAX_BLOCK_GROUP_DESCRIPTOR_SIZE.
  pose proof (fget_range sb_inodes_count m s). pose proof (blocks_cnt_range m s).
  pose proof (fget_range sb_blocks_per_group m s). pose proof (fget_range sb_inodes_per_group m s).
  intros Hc. repeat case_if_in Hc; try done. zb. split_and!; (done || lia).
Qed.

Lemma csum_same m m' s : same_on s (s + 1020) m m' -> ext4_sb_csum m' s = ext4_sb_csum m s.
Proof. intros H. unfold ext4_sb_csum. by apply ext4_crc32c_ext. Qed.

Lemma fset_other f m s v x : 0 <= f_len f -> x < s + f_off f \/ s + f_off f + f_len f <= x -> fset f m s v x = m x.
Proof. intros Hf Hx. apply stn_other. lia. Qed.

Lemma crc_init_range : 0 <= EXT4_CRC32_INIT < 2 ^ 32.
Proof. by unfold EXT4_CRC32_INIT. Qed.

Lemma csum_range m s : 0 <= ext4_sb_csum m s < 2 ^ 32.
Proof. apply (ext4_crc32c_range m EXT4_CRC32_INIT s), crc_init_range. Qed.

Lemma csum_detects m s a v : s <= a < s + 1020 -> u8 v <> ld8 m a ->
  ext4_sb_csum (st8 m a v) s <> ext4_sb_csum m s.
Proof. apply (ext4_crc32c_detects m EXT4_CRC32_INIT s 1020), crc_init_range. Qed.

Lemma set_csum_other m s x : x < s + 1020 \/ s + 1024 <= x -> ext4_sb_set_csum m s x = m x.
Proof. intros Hx. unfold ext4_sb_set_csum. case_if; [done|]. apply fset_other; [done|]. cbn. lia. Qed.

Lemma set_csum_get f m s : 0 <= f_len f -> f_off f + f_len f <= 1020 ->
  fget f (ext4_sb_set_csum m s) s = fget f m s.
Proof. intros Hf Ho. apply ldn_ext. intros x Hx. apply set_csum_other. lia. Qed.

(** A superblock that passes [ext4_sb_check]: 4 KiB blocks, 100000 blocks in
    groups of 32768, checksums on. *)
Definition sample_sb : memory :=
  let w f v m := fset f m 0 v in
  ext4_sb_set_csum
    (w sb_magic 0xEF53 (w sb_inodes_count 32000 (w sb_blocks_count_lo 100000 (w sb_blocks_per_group 32768
    (w sb_inodes_per_group 8000 (w sb_inode_size 256 (w sb_first_inode 11 (w sb_log_block_size 2
    (w sb_log_cluster_size 2 (w sb_features_read_only 0x401 (w sb_checksum_type 1 (fun _ => 0)))))))))))) 0.

(** ** Theorems *)

(** The 64-bit block counts of the superblock, kept as two 32-bit halves,
    read back as they were set, and setting one of them leaves every other
    field alone. *)
Theorem sb_counts_roundtrip m s cnt :
  0 <= cnt < 2 ^ 64 ->
  ext4_sb_get_blocks_cnt (ext4_sb_set_blocks_cnt m s cnt) s = cnt /\
  ext4_sb_get_free_blocks_cnt (ext4_sb_set_free_blocks_cnt m s cnt) s = cnt /\
  (forall f, 0 <= f_len f -> f_disjoint f sb_blocks_count_lo -> f_disjoint f sb_blocks_count_hi ->
     fget f (ext4_sb_set_blocks_cnt m s cnt) s = fget f m s) /\
  (forall f, 0 <= f_len f -> f_disjoint f sb_free_blocks_count_lo -> f_disjoint f sb_free_blocks_count_hi ->
     fget f (ext4_sb_set_free_blocks_cnt m s cnt) s = fget f m s).
Proof.
  intros Hc. pose proof (hi_range cnt Hc). pose proof (uw_range 32 cnt ltac:(lia)).
  unfold ext4_sb_get_blocks_cnt, ext4_sb_set_blocks_cnt, ext4_sb_get_free_blocks_cnt,
    ext4_sb_set_free_blocks_cnt. rewrite cut_lo by lia. split_and!.
  1,2: rewrite fget_fset_same, fget_fset_other, fget_fset_same by fld; by apply join_word.
  all: intros f Hf H1 H2; rewrite !fget_fset_other by fld; done.
Qed.

Lemma sb_counts_roundtrip_witness :
  ext4_sb_get_blocks_cnt (ext4_sb_set_blocks_cnt sample_sb 0 (2 ^ 40 + 5)) 0 = 2 ^ 40 + 5.
Proof. apply (sb_counts_roundtrip sample_sb 0 (2 ^ 40 + 5)). split; [discriminate|reflexivity]. Defined.

(** All groups but the last are full, and the last holds the rest. *)
Lemma blocks_in_group_cases m s :
  let n := ext4_block_group_cnt m s in
  let per := fget sb_blocks_per_group m s in
  let total := ext4_sb_get_blocks_cnt m s in
  1 <= per -> 1 <= total -> total <= per * (2 ^ 32 - 1) ->
  (forall g, 0 <= g < n - 1 -> ext4_blocks_in_group_cnt m s g = per) /\
  1 <= ext4_blocks_in_group_cnt m s (n - 1) <= per /\
  total = (n - 1) * per + ext4_blocks_in_group_cnt m s (n - 1).
Proof.
  intros n per total Hp Ht Hmax. destruct (block_group_cnt_split m s Hp Ht Hmax) as (Hn & r & Hr & Hs).
  fold n per in Hn, Hr, Hs. pose proof (fget_range sb_blocks_per_group m s) as Hpr. change (2 ^ _) with (2 ^ 32) in Hpr.
  fold per in Hpr.
  assert (ext4_blocks_in_group_cnt m s (n - 1) = r) as Hlast.
  { unfold ext4_blocks_in_group_cnt. fold n per. rewrite (uw_small 32 (n - 1)) by lia.
    case_if; [lia|]. unfold uw. rewrite Z.mod_mod_divide by (exists (2 ^ 32); done).
    rewrite Zminus_mod_idemp_r, Hs. replace ((n - 1) * per + r - (n - 1) * per) with r by lia.
    apply Z.mod_small. lia. }
  rewrite Hlast. split; [|split; [done|exact Hs]].
  intros g Hg. unfold ext4_blocks_in_group_cnt. fold n per. rewrite (uw_small 32 (n - 1)) by lia. case_if; [done|lia].
Qed.

(** The counts of the groups add up to the block count, although the product is
    computed at 32 bits.  The inode counts add up when the inode count covers the
    groups before the last. *)
Theorem group_counts_add_up m s :
  let n := ext4_block_group_cnt m s in
  let per := fget sb_blocks_per_group m s in
  ext4_sb_check m s = true -> ext4_sb_get_blocks_cnt m s <= per * (2 ^ 32 - 1) ->
  1 <= n /\
  (forall g, 0 <= g < n -> 1 <= ext4_blocks_in_group_cnt m s g <= per) /\
  zsum (ext4_blocks_in_group_cnt m s) n = ext4_sb_get_blocks_cnt m s /\
  ((n - 1) * fget sb_inodes_per_group m s <= fget sb_inodes_count m s ->
   zsum (ext4_inodes_in_group_cnt m s) n = fget sb_inodes_count m s).
Proof.
  intros n per Hc Hmax. pose proof (ext4_sb_check_facts m s Hc) as (_ & _ & Ht & Hp & Hi & _).
  destruct (block_group_cnt_split m s Hp Ht Hmax) as (Hn & _). fold n in Hn.
  destruct (blocks_in_group_cases m s Hp Ht Hmax) as (Hfull & Hlast & Hs). fold n per in Hfull, Hlast, Hs.
  pose proof (fget_range sb_inodes_count m s) as Hir. change (2 ^ _) with (2 ^ 32) in Hir.
  split; [lia|]. split; [|split].
  - intros g Hg. destruct (decide (g = n - 1)) as [->|]; [lia|]. rewrite Hfull by lia. lia.
  - rewrite (zsum_const_last _ n per) by (done || lia). lia.
  - intros Hcover. rewrite (zsum_const_last _ n (fget sb_inodes_per_group m s)); [|lia|].
    + unfold ext4_inodes_in_group_cnt. fold n. rewrite (uw_small 32 (n - 1)) by lia.
      case_if; [lia|]. unfold uw. rewrite Zminus_mod_idemp_r, Z.mod_small by nia. lia.
    + intros g Hg. unfold ext4_inodes_in_group_cnt. fold n. rewrite (uw_small 32 (n - 1)) by lia.
      case_if; [done|lia].
Qed.

Lemma group_counts_add_up_witness :
  zsum (ext4_blocks_in_group_cnt sample_sb 0) (ext4_block_group_cnt sample_sb 0) =
    ext4_sb_get_blocks_cnt sample_sb 0 /\
  ext4_sb_get_blocks_cnt sample_sb 0 = 100000 /\ ext4_blocks_in_group_cnt sample_sb 0 3 = 1696.
Proof.
  split; [|vm_compute; split; reflexivity].
  apply (group_counts_add_up sample_sb 0); vm_compute; [reflexivity|discriminate].
Defined.

(** [ext4_sb_sparse] terminates and selects exactly groups 0 and 1 and the
    powers of 3, 5 and 7. *)
Theorem sparse_groups g :
  0 <= g < 2 ^ 32 ->
  exists r, ext4_sb_sparse g = Some r /\ (r = true <-> sparse_group g).
Proof. apply ext4_sb_sparse_ok. Qed.

Lemma sparse_groups_witness : sparse_group 343.
Proof.
  destruct (sparse_groups 343) as (r & E & H); [split; [discriminate|reflexivity]|].
  apply H. vm_compute in E. congruence.
Defined.

(** C37. The superblock checksum: after [ext4_sb_set_csum] the superblock
    verifies, the other bytes are untouched, and any later change of one byte
    is detected, as long as the checksum feature itself still reads as on. *)
Theorem sb_csum_protects m s :
  fget sb_checksum_type m s = EXT4_CHECKSUM_CRC32C ->
  let m' := ext4_sb_set_csum m s in
  ext4_sb_verify_csum m' s = true /\
  (forall x, x < s + 1020 \/ s + 1024 <= x -> m' x = m x) /\
  (forall a v, s <= a < s + 1024 -> u8 v <> ld8 m' a ->
     ext4_sb_feature_ro_com (st8 m' a v) s EXT4_FRO_COM_METADATA_CSUM = true ->
     ext4_sb_feature_ro_com m s EXT4_FRO_COM_METADATA_CSUM = true ->
     ext4_sb_verify_csum (st8 m' a v) s = false).
Proof.
  intros Ht m'.
  assert (forall v, ext4_sb_feature_ro_com m' s v = ext4_sb_feature_ro_com m s v) as Hro.
  { intros v. unfold ext4_sb_feature_ro_com, m'. by rewrite set_csum_get by fld. }
  assert (ext4_sb_csum m' s = ext4_sb_csum m s) as Hcs.
  { apply csum_same. intros x Hx. apply set_csum_other. lia. }
  assert (fget sb_checksum_type m' s = EXT4_CHECKSUM_CRC32C) as Ht'.
  { unfold m'. by rewrite set_csum_get by fld. }
  assert (ext4_sb_feature_ro_com m s EXT4_FRO_COM_METADATA_CSUM = true ->
          fget sb_checksum m' s = ext4_sb_csum m s) as Hget.
  { intros Hon. unfold m', ext4_sb_set_csum. rewrite Hon. cbn [negb].
    apply fget_fset_same; [done|]. apply csum_range. }
  split; [|split].
  - unfold ext4_sb_verify_csum. rewrite Hro, Ht', Hcs, Z.eqb_refl. cbn [negb].
    case_if; [done|]. apply Z.eqb_eq, Hget. done.
  - intros x Hx. by apply set_csum_other.
  - intros a v Ha Hv Hon' Hon. specialize (Hget Hon). unfold ext4_sb_verify_csum. rewrite Hon'. cbn [negb].
    case_if; [done|]. apply Z.eqb_neq. destruct (decide (a < s + 1020)).
    + rewrite fget_st8_out, Hget, <- Hcs by (cbn; lia). apply not_eq_sym.
      refine (csum_detects m' s a v (conj (proj1 Ha) l) Hv).
    + rewrite (csum_same m') by (intros x Hx; unfold st8; case_if; [lia|done]).
      rewrite Hcs, <- Hget. apply fget_st8_in; [cbn; lia|done].
Qed.

Lemma sb_csum_protects_witness :
  ext4_sb_verify_csum (ext4_sb_set_csum sample_sb 0) 0 = true /\
  ext4_sb_verify_csum (st8 (ext4_sb_set_csum sample_sb 0) 24 3) 0 = false.
Proof.
  assert (fget sb_checksum_type sample_sb 0 = EXT4_CHECKSUM_CRC32C) as Ht by (vm_compute; reflexivity).
  destruct (sb_csum_protects sample_sb 0 Ht) as (H1 & _ & H3). split; [exact H1|].
  apply H3; vm_compute; [split; [discriminate|reflexivity]|discriminate|reflexivity..].
Defined.

(** Where the group descriptors live.  In a superblock-carrying group of a
    file system without meta block groups, the descriptor blocks hold all
    descriptors and the last is not empty.  With meta block groups, the groups
    from [first_meta_bg] on carry one descriptor block in exactly the first,
    the second and the last group of each meta group. *)
Theorem gdb_placement m s group :
  let d := ext4_sb_get_block_size m s / ext4_sb_get_desc_size m s in
  1 <= d -> 0 <= group -> group + d < 2 ^ 32 -> ext4_block_group_cnt m s + d < 2 ^ 32 ->
  (ext4_sb_feature_incom m s EXT4_FINCOM_META_BG = false ->
   ext4_sb_is_super_in_bg m s group = Some true ->
   exists k, ext4_bg_num_gdb m s group = Some k /\
     ext4_block_group_cnt m s <= k * d < ext4_block_group_cnt m s + d) /\
  (ext4_sb_feature_incom m s EXT4_FINCOM_META_BG = true -> ext4_sb_first_meta_bg m s <= group / d ->
   ext4_bg_num_gdb m s group =
     Some (if decide (group mod d = 0 \/ group mod d = 1 \/ group mod d = d - 1) then 1 else 0)).
Proof.
  intros d Hd Hg Hgd Hn. assert (0 <= ext4_block_group_cnt m s) as Hn0.
  { unfold ext4_block_group_cnt. case_if; apply uw_range; lia. }
  unfold ext4_bg_num_gdb. fold d. split; [intros Hf Hs|intros Hf Hm]; rewrite Hf; cbn [negb orb].
  - unfold ext4_bg_num_gdb_nometa. rewrite Hs, Hf. cbn [mbind option_bind negb]. fold d.
    rewrite uw_small by lia. eexists; split; [done|]. set (n := ext4_block_group_cnt m s) in *.
    pose proof (Z.div_mod (n + d - 1) d ltac:(lia)). pose proof (Z.mod_pos_bound (n + d - 1) d ltac:(lia)). nia.
  - case_if; [lia|]. f_equal. unfold ext4_bg_num_gdb_meta. fold d.
    pose proof (Z.div_mod group d ltac:(lia)) as Hdm. pose proof (Z.mod_pos_bound group d ltac:(lia)) as Hmb.
    assert (0 <= group / d) by (apply Z.div_pos; lia).
    rewrite (Z.mul_comm (group / d)). assert (0 <= d * (group / d)) by nia.
    set (first := d * (group / d)) in *. rewrite (uw_small 32 first), !(uw_small 32) by lia.
    case_decide as Hdec; case_if; try done; exfalso; lia.
Qed.

(** The sample with meta block groups from the start. *)
Definition sample_meta_sb : memory := fset sb_features_incompatible sample_sb 0 EXT4_FINCOM_META_BG.

Lemma gdb_placement_witness :
  (exists k, ext4_bg_num_gdb sample_sb 0 3 = Some k /\ 4 <= k * 128 < 132) /\
  ext4_bg_num_gdb sample_meta_sb 0 130 = Some 0 /\ ext4_bg_num_gdb sample_meta_sb 0 255 = Some 1.
Proof.
  assert (ext4_block_group_cnt sample_sb 0 = 4) as E4 by (vm_compute; reflexivity).
  assert (ext4_sb_get_block_size sample_sb 0 / ext4_sb_get_desc_size sample_sb 0 = 128) as E128
    by (vm_compute; reflexivity).
  pose proof (gdb_placement sample_sb 0 3) as H. cbv zeta in H. rewrite E4, E128 in H.
  split; [apply H; vm_compute; congruence|].
  split.
  - etransitivity; [apply (gdb_placement sample_meta_sb 0 130); vm_compute; congruence|].
    vm_compute. reflexivity.
  - etransitivity; [apply (gdb_placement sample_meta_sb 0 255); vm_compute; congruence|].
    vm_compute. reflexivity.
Defined.

(** [ext4_num_base_meta_clusters] divides by the cluster size in bytes
    instead of the blocks of a cluster: with clusters of one block ([l] the
    logarithm of both), a superblock group of fewer than [2^l] metadata blocks
    is reported to need none.  (Nothing in the library calls the function.) *)
Theorem base_meta_clusters_short m s group k :
  ext4_sb_feature_incom m s EXT4_FINCOM_META_BG = false ->
  fget sb_log_cluster_size m s = fget sb_log_block_size m s -> fget sb_log_block_size m s <= 6 ->
  ext4_sb_is_super_in_bg m s group = Some true -> ext4_bg_num_gdb m s group = Some k -> 0 <= k ->
  1 + k + fget sb_s_reserved_gdt_blocks m s < 2 ^ fget sb_log_block_size m s ->
  ext4_num_base_meta_clusters m s group = Some 0.
Proof.
  intros Hf Hl H6 Hs Hk Hk0 Hlt. unfold ext4_num_base_meta_clusters.
  rewrite Hs, Hf, Hk, Hl. cbn [mbind option_bind negb orb c_true Z.eqb]. f_equal.
  pose proof (fget_range sb_s_reserved_gdt_blocks m s) as Hr.
  pose proof (fget_range sb_log_block_size m s) as Hl0. unfold ext4_sb_get_block_size.
  set (l := fget sb_log_block_size m s) in *. set (r := fget sb_s_reserved_gdt_blocks m s) in *.
  clearbody l r. clear Hf Hs Hk.
  assert (2 ^ l <= 2 ^ 6) by (apply Z.pow_le_mono_r; lia). pose proof (Z.pow_pos_nonneg 2 l).
  rewrite (uw_small 32 (1024 .<< l)) by (rewrite shiftl_pow2 by lia; pow2; lia).
  rewrite Z.div_same by (rewrite shiftl_pow2; lia).
  change (2 ^ 6) with 64 in *. rewrite (uw_small 32 (1 + k)), (uw_small 32 (1 + k + r)), (uw_small 32 (_ - 1)) by lia.
  rewrite shiftr_pow2 by lia. apply Z.div_small. lia.
Qed.

Lemma base_meta_clusters_short_witness : ext4_num_base_meta_clusters sample_sb 0 3 = Some 0.
Proof. apply (base_meta_clusters_short sample_sb 0 3 1); vm_compute; congruence. Defined.
