(* ===== verification/Ext4BlockGroup.v ===== *)
(** lwext4, block group descriptors: [include/ext4_block_group.h], the
    descriptor checksum of [src/ext4_fs.c] and the bitmap checksums of
    [src/ext4_balloc.c] and [src/ext4_ialloc.c].

    The descriptor is at [bg], the superblock at [s], in one memory.  The
    fields of the second half of a descriptor exist only when the descriptor
    size of the superblock is above 32. *)
From S2P Require Import Prelude Memory Ext4Crc Ext4Layout Ext4Super.
#[local] Open Scope Z_scope.
#[local] Open Scope cint_scope.

(** ** Model *)

Definition EXT4_FINCOM_64BIT : Z := 0x0080.

Definition ext4_bg_get_block_bitmap (m : memory) (bg s : Z) : Z :=
  let v := fget bg_block_bitmap_lo m bg in
  if EXT4_MIN_BLOCK_GROUP_DESCRIPTOR_SIZE <? ext4_sb_get_desc_size m s
  then v .| u64 (fget bg_block_bitmap_hi m bg .<< 32) else v.

Definition ext4_bg_set_block_bitmap (m : memory) (bg s blk : Z) : memory :=
  let m := fset bg_block_bitmap_lo m bg (u32 blk) in
  if EXT4_MIN_BLOCK_GROUP_DESCRIPTOR_SIZE <? ext4_sb_get_desc_size m s
  then fset bg_block_bitmap_hi m bg (blk .>> 32) else m.

Definition ext4_bg_get_inode_bitmap (m : memory) (bg s : Z) : Z :=
  let v := fget bg_inode_bitmap_lo m bg in
  if EXT4_MIN_BLOCK_GROUP_DESCRIPTOR_SIZE <? ext4_sb_get_desc_size m s
  then v .| u64 (fget bg_inode_bitmap_hi m bg .<< 32) else v.

Definition ext4_bg_set_inode_bitmap (m : memory) (bg s blk : Z) : memory :=
  let m := fset bg_inode_bitmap_lo m bg (u32 blk) in
  if EXT4_MIN_BLOCK_GROUP_DESCRIPTOR_SIZE <? ext4_sb_get_desc_size m s
  then fset bg_inode_bitmap_hi m bg (blk .>> 32) else m.

Definition ext4_bg_get_inode_table_first_block (m : memory) (bg s : Z) : Z :=
  let v := fget bg_inode_table_first_block_lo m bg in
  if EXT4_MIN_BLOCK_GROUP_DESCRIPTOR_SIZE <? ext4_sb_get_desc_size m s
  then v .| u64 (fget bg_inode_table_first_block_hi m bg .<< 32) else v.

Definition ext4_bg_set_inode_table_first_block (m : memory) (bg s blk : Z) : memory :=
  let m := fset bg_inode_table_first_block_lo m bg (u32 blk) in
  if EXT4_MIN_BLOCK_GROUP_DESCRIPTOR_SIZE <? ext4_sb_get_desc_size m s
  then fset bg_inode_table_first_block_hi m bg (blk .>> 32) else m.

Definition ext4_bg_get_free_blocks_count (m : memory) (bg s : Z) : Z :=
  let v := fget bg_free_blocks_count_lo m bg in
  if EXT4_MIN_BLOCK_GROUP_DESCRIPTOR_SIZE <? ext4_sb_get_desc_size m s
  then v .| u32 (fget bg_free_blocks_count_hi m bg .<< 16) else v.

Definition ext4_bg_set_free_blocks_count (m : memory) (bg s cnt : Z) : memory :=
  let m := fset bg_free_blocks_count_lo m bg (u32 (cnt .<< 16) .>> 16) in
  if EXT4_MIN_BLOCK_GROUP_DESCRIPTOR_SIZE <? ext4_sb_get_desc_size m s
  then fset bg_free_blocks_count_hi m bg (cnt .>> 16) else m.

Definition ext4_bg_get_free_inodes_count (m : memory) (bg s : Z) : Z :=
  let v := fget bg_free_inodes_count_lo m bg in
  if EXT4_MIN_BLOCK_GROUP_DESCRIPTOR_SIZE <? ext4_sb_get_desc_size m s
  then v .| u32 (fget bg_free_inodes_count_hi m bg .<< 16) else v.

Definition ext4_bg_set_free_inodes_count (m : memory) (bg s cnt : Z) : memory :=
  let m := fset bg_free_inodes_count_lo m bg (u32 (cnt .<< 16) .>> 16) in
  if EXT4_MIN_BLOCK_GROUP_DESCRIPTOR_SIZE <? ext4_sb_get_desc_size m s
  then fset bg_free_inodes_count_hi m bg (cnt .>> 16) else m.

Definition ext4_bg_get_used_dirs_count (m : memory) (bg s : Z) : Z :=
  let v := fget bg_used_dirs_count_lo m bg in
  if EXT4_MIN_BLOCK_GROUP_DESCRIPTOR_SIZE <? ext4_sb_get_desc_size m s
  then v .| u32 (fget bg_used_dirs_count_hi m bg .<< 16) else v.

Definition ext4_bg_set_used_dirs_count (m : memory) (bg s cnt : Z) : memory :=
  let m := fset bg_used_dirs_count_lo m bg (u32 (cnt .<< 16) .>> 16) in
  if EXT4_MIN_BLOCK_GROUP_DESCRIPTOR_SIZE <? ext4_sb_get_desc_size m s
  then fset bg_used_dirs_count_hi m bg (cnt .>> 16) else m.

Definition ext4_bg_get_itable_unused (m : memory) (bg s : Z) : Z :=
  let v := fget bg_itable_unused_lo m bg in
  if EXT4_MIN_BLOCK_GROUP_DESCRIPTOR_SIZE <? ext4_sb_get_desc_size m s
  then v .| u32 (fget bg_itable_unused_hi m bg .<< 16) else v.

Definition ext4_bg_set_itable_unused (m : memory) (bg s cnt : Z) : memory :=
  let m := fset bg_itable_unused_lo m bg (u32 (cnt .<< 16) .>> 16) in
  if EXT4_MIN_BLOCK_GROUP_DESCRIPTOR_SIZE <? ext4_sb_get_desc_size m s
  then fset bg_itable_unused_hi m bg (cnt .>> 16) else m.

Definition ext4_bg_set_checksum (m : memory) (bg crc : Z) : memory := fset bg_checksum m bg crc.

Definition ext4_bg_has_flag (m : memory) (bg f : Z) : bool := c_true (fget bg_flags m bg .& f).

Definition ext4_bg_set_flag (m : memory) (bg f : Z) : memory :=
  let flags := fget bg_flags m bg in
  let flags := u16 (flags .| f) in
  fset bg_flags m bg flags.

Definition ext4_bg_clear_flag (m : memory) (bg f : Z) : memory :=
  let flags := fget bg_flags m bg in
  let flags := u16 (flags .& u32 (Z.lnot f)) in
  fset bg_flags m bg flags.

(** The address of a 32-bit local that holds [v], in a memory of its own. *)
Definition local32 (v : Z) : memory := st32 (fun _ => 0) 0 v.

(** The checksum field is zeroed for the time of the computation and then
    written back, so the memory is part of the result. *)
Definition ext4_fs_bg_checksum (m : memory) (sb bgid bg : Z) : memory * Z :=
  if ext4_sb_feature_ro_com m sb EXT4_FRO_COM_METADATA_CSUM then
    let orig_checksum := fget bg_checksum m bg in
    let m := fset bg_checksum m bg 0 in
    let checksum := ext4_crc32c m EXT4_CRC32_INIT (sb + f_off sb_uuid) 16 in
    let checksum := ext4_crc32c (local32 bgid) checksum 0 4 in
    let checksum := ext4_crc32c m checksum bg (ext4_sb_get_desc_size m sb) in
    let m := fset bg_checksum m bg orig_checksum in
    (m, checksum .& 0xFFFF)
  else if ext4_sb_feature_ro_com m sb EXT4_FRO_COM_GDT_CSUM then
    let offset := f_off bg_checksum in
    let crc := ext4_bg_crc16 m 0xFFFF (sb + f_off sb_uuid) 16 in
    let crc := ext4_bg_crc16 (local32 bgid) crc 0 4 in
    let crc := ext4_bg_crc16 m crc bg offset in
    let offset := offset + 2 in
    if ext4_sb_feature_incom m sb EXT4_FINCOM_64BIT && (offset <? ext4_sb_get_desc_size m sb)
    then (m, ext4_bg_crc16 m crc (bg + offset) (ext4_sb_get_desc_size m sb - offset))
    else (m, crc)
  else (m, 0).

Definition ext4_fs_verify_bg_csum (m : memory) (sb bgid bg : Z) : memory * bool :=
  if negb (ext4_sb_feature_ro_com m sb EXT4_FRO_COM_METADATA_CSUM) then (m, true)
  else
    let '(m, crc) := ext4_fs_bg_checksum m sb bgid bg in
    (m, crc =? fget bg_checksum m bg).

(** The checksum step of [ext4_fs_put_block_group_ref]. *)
Definition put_bg_checksum (m : memory) (sb bgid bg : Z) : memory :=
  let '(m, cs) := ext4_fs_bg_checksum m sb bgid bg in
  fset bg_checksum m bg cs.

Definition ext4_balloc_bitmap_csum (m : memory) (sb bitmap : Z) : Z :=
  if ext4_sb_feature_ro_com m sb EXT4_FRO_COM_METADATA_CSUM then
    let blocks_per_group := fget sb_blocks_per_group m sb in
    let checksum := ext4_crc32c m EXT4_CRC32_INIT (sb + f_off sb_uuid) 16 in
    ext4_crc32c m checksum bitmap (blocks_per_group / 8)
  else 0.

Definition ext4_ialloc_bitmap_csum (m : memory) (sb bitmap : Z) : Z :=
  if ext4_sb_feature_ro_com m sb EXT4_FRO_COM_METADATA_CSUM then
    let inodes_per_group := fget sb_inodes_per_group m sb in
    let csum := ext4_crc32c m EXT4_CRC32_INIT (sb + f_off sb_uuid) 16 in
    ext4_crc32c m csum bitmap (u32 (inodes_per_group + 7) / 8)
  else 0.

Definition ext4_balloc_set_bitmap_csum (m : memory) (sb bg bitmap : Z) : memory :=
  let desc_size := ext4_sb_get_desc_size m sb in
  let checksum := ext4_balloc_bitmap_csum m sb bitmap in
  let lo_checksum := u16 (checksum .& 0xFFFF) in
  let hi_checksum := u16 (checksum .>> 16) in
  if negb (ext4_sb_feature_ro_com m sb EXT4_FRO_COM_METADATA_CSUM) then m
  else
    let m := fset bg_block_bitmap_csum_lo m bg lo_checksum in
    if desc_size =? EXT4_MAX_BLOCK_GROUP_DESCRIPTOR_SIZE
    then fset bg_block_bitmap_csum_hi m bg hi_checksum else m.

Definition ext4_balloc_verify_bitmap_csum (m : memory) (sb bg bitmap : Z) : bool :=
  let desc_size := ext4_sb_get_desc_size m sb in
  let checksum := ext4_balloc_bitmap_csum m sb bitmap in
  let lo_checksum := u16 (checksum .& 0xFFFF) in
  let hi_checksum := u16 (checksum .>> 16) in
  if negb (ext4_sb_feature_ro_com m sb EXT4_FRO_COM_METADATA_CSUM) then true
  else if negb (fget bg_block_bitmap_csum_lo m bg =? lo_checksum) then false
  else if desc_size =? EXT4_MAX_BLOCK_GROUP_DESCRIPTOR_SIZE
  then if negb (fget bg_block_bitmap_csum_hi m bg =? hi_checksum) then false else true
  else true.

Definition ext4_ialloc_set_bitmap_csum (m : memory) (sb bg bitmap : Z) : memory :=
  let desc_size := ext4_sb_get_desc_size m sb in
  let checksum := ext4_ialloc_bitmap_csum m sb bitmap in
  let lo_checksum := u16 (checksum .& 0xFFFF) in
  let hi_checksum := u16 (checksum .>> 16) in
  if negb (ext4_sb_feature_ro_com m sb EXT4_FRO_COM_METADATA_CSUM) then m
  else
    let m := fset bg_inode_bitmap_csum_lo m bg lo_checksum in
    if desc_size =? EXT4_MAX_BLOCK_GROUP_DESCRIPTOR_SIZE
    then fset bg_inode_bitmap_csum_hi m bg hi_checksum else m.

Definition ext4_ialloc_verify_bitmap_csum (m : memory) (sb bg bitmap : Z) : bool :=
  let desc_size := ext4_sb_get_desc_size m sb in
  let checksum := ext4_ialloc_bitmap_csum m sb bitmap in
  let lo_checksum := u16 (checksum .& 0xFFFF) in
  let hi_checksum := u16 (checksum .>> 16) in
  if negb (ext4_sb_feature_ro_com m sb EXT4_FRO_COM_METADATA_CSUM) then true
  else if negb (fget bg_inode_bitmap_csum_lo m bg =? lo_checksum) then false
  else if desc_size =? EXT4_MAX_BLOCK_GROUP_DESCRIPTOR_SIZE
  then if negb (fget bg_inode_bitmap_csum_hi m bg =? hi_checksum) then false else true
  else true.

#[local] Opaque ext4_crc32c ext4_bg_crc16.

(** ** The accessors as a family *)

(** A getter and a setter of a count or an address of [2 * w] bits. *)
Record accessor := Accessor {
  a_get : memory -> Z -> Z -> Z;
  a_set : memory -> Z -> Z -> Z -> memory;
  a_lo : field; a_hi : field; a_w : Z }.

Definition bg_accessors : list accessor :=
  [Accessor ext4_bg_get_block_bitmap ext4_bg_set_block_bitmap bg_block_bitmap_lo bg_block_bitmap_hi 32;
   Accessor ext4_bg_get_inode_bitmap ext4_bg_set_inode_bitmap bg_inode_bitmap_lo bg_inode_bitmap_hi 32;
   Accessor ext4_bg_get_inode_table_first_block ext4_bg_set_inode_table_first_block bg_inode_table_first_block_lo bg_inode_table_first_block_hi 32;
   Accessor ext4_bg_get_free_blocks_count ext4_bg_set_free_blocks_count bg_free_blocks_count_lo bg_free_blocks_count_hi 16;
   Accessor ext4_bg_get_free_inodes_count ext4_bg_set_free_inodes_count bg_free_inodes_count_lo bg_free_inodes_count_hi 16;
   Accessor ext4_bg_get_used_dirs_count ext4_bg_set_used_dirs_count bg_used_dirs_count_lo bg_used_dirs_count_hi 16;
   Accessor ext4_bg_get_itable_unused ext4_bg_set_itable_unused bg_itable_unused_lo bg_itable_unused_hi 16].

(** Superblock and descriptor do not overlap. *)
Definition apart (bg s : Z) : Prop := bg + 64 <= s \/ s + 1024 <= bg.

Definition desc_is_wide (m : memory) (s : Z) : bool :=
  EXT4_MIN_BLOCK_GROUP_DESCRIPTOR_SIZE <? ext4_sb_get_desc_size m s.

(** What an accessor does, in terms of its two fields. *)
Definition accessor_ok (a : accessor) : Prop :=
  (forall m bg s, a_get a m bg s =
     if desc_is_wide m s then fget (a_lo a) m bg .| uw (2 * a_w a) (fget (a_hi a) m bg .<< a_w a)
     else fget (a_lo a) m bg) /\
  (forall m bg s v, 0 <= v < 2 ^ (2 * a_w a) -> a_set a m bg s v =
     let m := fset (a_lo a) m bg (uw (a_w a) v) in
     if desc_is_wide m s then fset (a_hi a) m bg (v .>> a_w a) else m) /\
  1 <= a_w a /\ 8 * f_len (a_lo a) = a_w a /\ 8 * f_len (a_hi a) = a_w a /\
  0 <= f_off (a_lo a) /\ f_off (a_lo a) + f_len (a_lo a) <= 32 /\
  32 <= f_off (a_hi a) /\ f_off (a_hi a) + f_len (a_hi a) <= 64.

Lemma cut_half w cnt : 0 <= w -> 0 <= cnt -> uw (2 * w) (cnt .<< w) .>> w = uw w cnt.
Proof.
  intros Hw Hc. unfold uw. rewrite shiftl_pow2, shiftr_pow2 by lia.
  replace (2 * w) with (w + w) by lia. rewrite Z.pow_add_r, Z.mul_mod_distr_r by lia.
  by rewrite Z.div_mul by lia.
Qed.

Lemma bg_accessors_ok : Forall accessor_ok bg_accessors.
Proof.
  repeat constructor; cbn; try done; try lia.
  all: intros m bg s v Hv; change (2 * 16) with 32; rewrite <- (cut_half 16) by lia; reflexivity.
Qed.

Lemma desc_size_fset f m bg s v : 0 <= f_off f -> 0 <= f_len f -> f_off f + f_len f <= 64 -> apart bg s ->
  ext4_sb_get_desc_size (fset f m bg v) s = ext4_sb_get_desc_size m s.
Proof.
  intros H0 H1 H2 Ha. unfold ext4_sb_get_desc_size.
  rewrite fget_fset_far; [done|done|lia|]. unfold apart in Ha. cbn. lia.
Qed.

Lemma desc_is_wide_fset f m bg s v : 0 <= f_off f -> 0 <= f_len f -> f_off f + f_len f <= 64 -> apart bg s ->
  desc_is_wide (fset f m bg v) s = desc_is_wide m s.
Proof. intros. unfold desc_is_wide. by rewrite desc_size_fset. Qed.

Lemma accessors_disjoint i j a b : i <> j -> bg_accessors !! i = Some a -> bg_accessors !! j = Some b ->
  f_disjoint (a_lo a) (a_lo b) /\ f_disjoint (a_hi a) (a_hi b).
Proof.
  intros Hij Ha Hb.
  do 7 (destruct i as [|i]; [do 7 (destruct j as [|j]; [try done; cbn in *; simplify_eq; cbn;
    unfold f_disjoint; cbn; lia|]); done|]). done.
Qed.

(** The value of an accessor depends on its two fields and the descriptor size. *)
Lemma accessor_get_ext a m m' bg s : accessor_ok a ->
  fget (a_lo a) m' bg = fget (a_lo a) m bg -> fget (a_hi a) m' bg = fget (a_hi a) m bg ->
  desc_is_wide m' s = desc_is_wide m s -> a_get a m' bg s = a_get a m bg s.
Proof. intros (Hg & _) H1 H2 H3. by rewrite !Hg, H1, H2, H3. Qed.

Section set.
Context (a : accessor) (m : memory) (bg s v : Z).
Hypothesis (Hok : accessor_ok a) (Hap : apart bg s) (Hv : 0 <= v < 2 ^ (2 * a_w a)).

Lemma accessor_set_wide : desc_is_wide (a_set a m bg s v) s = desc_is_wide m s.
Proof.
  destruct Hok as (_ & -> & Hw & Hl & Hh & Ho & Hb & Ho' & Hb'); [|done].
  cbn zeta. case_if; rewrite !desc_is_wide_fset by (done || lia); done.
Qed.

Lemma accessor_set_get :
  a_get a (a_set a m bg s v) bg s = if desc_is_wide m s then v else uw (a_w a) v.
Proof.
  pose proof accessor_set_wide as Hwide.
  destruct Hok as (Hg & Hs & Hw & Hl & Hh & Ho & Hb & Ho' & Hb'). rewrite Hg, Hwide, Hs by done.
  cbn zeta. rewrite desc_is_wide_fset by (done || lia).
  pose proof (uw_range (a_w a) v ltac:(lia)) as Hlo.
  assert (0 <= v .>> a_w a < 2 ^ a_w a) as Hhi.
  { rewrite shiftr_pow2 by lia. split; [apply Z.div_pos; lia|]. apply Z.div_lt_upper_bound; [lia|].
    rewrite <- Z.pow_add_r, Z.add_diag by lia. lia. }
  case_if.
  - rewrite fget_fset_other, !fget_fset_same by (first [rewrite ?Hl, ?Hh; done | lia | (unfold f_disjoint; lia)]).
    rewrite Z.lor_comm, uw_small; [apply join_lo_hi; lia|].
    rewrite shiftl_pow2, shiftr_pow2 by lia. pose proof (Z.mul_div_le v (2 ^ a_w a) ltac:(lia)).
    split; [|lia]. apply Z.mul_nonneg_nonneg; [apply Z.div_pos|]; lia.
  - rewrite fget_fset_same by (rewrite ?Hl; (done || lia)). done.
Qed.

(** A setter writes its own fields only, and nothing past the descriptor. *)
Lemma accessor_set_frame x :
  x < bg \/ bg + (if desc_is_wide m s then 64 else 32) <= x -> a_set a m bg s v x = m x.
Proof.
  destruct Hok as (_ & -> & Hw & Hl & Hh & Ho & Hb & Ho' & Hb'); [|done].
  cbn zeta. rewrite desc_is_wide_fset by (done || lia). case_if; intros Hx; rewrite !fset_other by lia; done.
Qed.

Lemma accessor_set_field f : 0 <= f_len f -> f_disjoint f (a_lo a) -> f_disjoint f (a_hi a) ->
  fget f (a_set a m bg s v) bg = fget f m bg.
Proof.
  intros Hf H1 H2. destruct Hok as (_ & -> & Hw & Hl & Hh & Ho & Hb & Ho' & Hb'); [|done].
  cbn zeta. case_if; rewrite !fget_fset_other by (done || lia); done.
Qed.
End set.

(** ** Checksums *)

Lemma local_fset_ld8 m f bg x : 0 <= f_len f ->
  ld8 (fset f (fset f m bg 0) bg (fget f m bg)) x = ld8 m x.
Proof.
  intros Hf. unfold fset, fget, ld8. set (n := Z.to_nat (f_len f)). set (a := bg + f_off f).
  destruct (decide (a <= x < a + Z.of_nat n)) as [Hx|]; [|by rewrite !stn_other by lia].
  pose proof (ldn_byte n (stn n (stn n m a 0) a (ldn n m a)) a (Z.to_nat (x - a)) ltac:(lia)) as H.
  rewrite ldn_stn_same, (Z.mod_small (ldn n m a)) in H by apply ldn_range.
  rewrite ldn_byte in H by lia. replace (a + Z.of_nat (Z.to_nat (x - a))) with x in H by lia. done.
Qed.

Lemma fget_ld8 f m m' s : (forall x, ld8 m' x = ld8 m x) -> fget f m' s = fget f m s.
Proof.
  intros H. unfold fget. generalize (s + f_off f). induction (Z.to_nat (f_len f)) as [|n IH]; intros a; [done|].
  cbn [ldn]. unfold ld8 in H. by rewrite H, IH.
Qed.

Lemma zeroed_ld8 m m' bg : (forall x, x < bg + 30 \/ bg + 32 <= x -> ld8 m' x = ld8 m x) ->
  forall x, ld8 (fset bg_checksum m' bg 0) x = ld8 (fset bg_checksum m bg 0) x.
Proof.
  intros H x. destruct (decide (bg + 30 <= x < bg + 32)) as [Hx|Hx].
  - unfold fset. change (Z.to_nat (f_len bg_checksum)) with 2%nat. cbn [stn f_off bg_checksum]. unfold ld8, st8.
    repeat case_if; try done; lia.
  - unfold ld8. rewrite !fset_other by (cbn; lia). apply H. lia.
Qed.

Lemma crc32c_ld8 m m' crc buf size : (forall x, ld8 m' x = ld8 m x) ->
  ext4_crc32c m' crc buf size = ext4_crc32c m crc buf size.
Proof.
  intros H. rewrite !ext4_crc32c_bits. f_equal. generalize buf. generalize (Z.to_nat size).
  induction n as [|n IH]; intros p; [done|]. by rewrite !bytes_of_S, H, IH.
Qed.

Lemma ro_com_ext m m' s v : fget sb_features_read_only m' s = fget sb_features_read_only m s ->
  ext4_sb_feature_ro_com m' s v = ext4_sb_feature_ro_com m s v.
Proof. unfold ext4_sb_feature_ro_com. by intros ->. Qed.

Lemma sb_field_apart f g m bg s v : 0 <= f_off f -> 0 <= f_len f -> f_off f + f_len f <= 1024 ->
  0 <= f_off g -> 0 <= f_len g -> f_off g + f_len g <= 64 -> apart bg s ->
  fget f (fset g m bg v) s = fget f m s.
Proof. unfold apart. intros. apply fget_fset_far; lia. Qed.

(** The descriptor checksum ignores the checksum field. *)
Lemma bg_checksum_ext m m' sb bgid bg : apart bg sb ->
  (forall x, x < bg + 30 \/ bg + 32 <= x -> ld8 m' x = ld8 m x) ->
  ext4_sb_feature_ro_com m sb EXT4_FRO_COM_METADATA_CSUM = true ->
  (ext4_fs_bg_checksum m' sb bgid bg).2 = (ext4_fs_bg_checksum m sb bgid bg).2.
Proof.
  intros Hap H Hon.
  assert (forall f, 0 <= f_off f -> 0 <= f_len f -> f_off f + f_len f <= 1024 ->
    fget f m' sb = fget f m sb) as Hsb.
  { intros f H0 H1 H2. rewrite <- (sb_field_apart f bg_checksum m' bg sb 0) by (done || fld).
    rewrite <- (sb_field_apart f bg_checksum m bg sb 0) by (done || fld). apply fget_ld8.
    by apply zeroed_ld8. }
  unfold ext4_fs_bg_checksum. rewrite (ro_com_ext m m'), Hon by (apply Hsb; fld). cbn [snd]. f_equal.
  rewrite !desc_size_fset by (done || fld).
  assert (ext4_sb_get_desc_size m' sb = ext4_sb_get_desc_size m sb) as ->.
  { unfold ext4_sb_get_desc_size. by rewrite Hsb by fld. }
  rewrite !(crc32c_ld8 (fset bg_checksum m bg 0) (fset bg_checksum m' bg 0)); [done|by apply zeroed_ld8..].
Qed.

(** The two halves of a checksum stored in 16-bit fields determine it. *)
Lemma halves_inj c d : 0 <= c < 2 ^ 32 -> 0 <= d < 2 ^ 32 ->
  u16 (c .& 0xFFFF) = u16 (d .& 0xFFFF) -> u16 (c .>> 16) = u16 (d .>> 16) -> c = d.
Proof.
  intros Hc Hd. change 0xFFFF with (Z.ones 16). rewrite <- !uw_land, !uw_uw by lia.
  rewrite !shiftr_pow2 by lia. unfold uw.
  rewrite !(Z.mod_small (_ / _)) by (split; [apply Z.div_pos; lia|apply Z.div_lt_upper_bound; pow2; lia]).
  intros H1 H2. rewrite <- (split_word c 16), <- (split_word d 16) by lia. by rewrite H1, H2.
Qed.

(** Computing the descriptor checksum changes no byte. *)
Lemma bg_checksum_pure m sb bgid bg x : ld8 (ext4_fs_bg_checksum m sb bgid bg).1 x = ld8 m x.
Proof. unfold ext4_fs_bg_checksum. repeat case_if; try done. cbn [fst]. by apply local_fset_ld8. Qed.

Lemma bg_checksum_range m sb bgid bg :
  ext4_sb_feature_ro_com m sb EXT4_FRO_COM_METADATA_CSUM = true ->
  0 <= (ext4_fs_bg_checksum m sb bgid bg).2 < 2 ^ 16.
Proof.
  intros Hon. unfold ext4_fs_bg_checksum. rewrite Hon. cbn [snd].
  rewrite Z.land_comm. apply land_range; [lia|]. pow2; lia.
Qed.

Lemma put_bg_ld8 m sb bgid bg x : x < bg + 30 \/ bg + 32 <= x ->
  ld8 (put_bg_checksum m sb bgid bg) x = ld8 m x.
Proof.
  intros Hx. rewrite <- (bg_checksum_pure m sb bgid bg x). unfold put_bg_checksum.
  destruct (ext4_fs_bg_checksum m sb bgid bg) as [m1 cs]. unfold ld8. by rewrite fset_other by (cbn; lia).
Qed.

(** Fields of the superblock do not see a change confined to the checksum field. *)
Lemma sb_field_csum f m m' bg s : 0 <= f_off f -> 0 <= f_len f -> f_off f + f_len f <= 1024 -> apart bg s ->
  (forall x, x < bg + 30 \/ bg + 32 <= x -> ld8 m' x = ld8 m x) -> fget f m' s = fget f m s.
Proof.
  intros H0 H1 H2 Hap H. rewrite <- (sb_field_apart f bg_checksum m' bg s 0) by (done || fld).
  rewrite <- (sb_field_apart f bg_checksum m bg s 0) by (done || fld). by apply fget_ld8, zeroed_ld8.
Qed.

Lemma bg_verify_put m sb bgid bg : apart bg sb ->
  ext4_sb_feature_ro_com m sb EXT4_FRO_COM_METADATA_CSUM = true ->
  (ext4_fs_verify_bg_csum (put_bg_checksum m sb bgid bg) sb bgid bg).2 = true.
Proof.
  intros Hap Hon. pose proof (put_bg_ld8 m sb bgid bg) as Hp.
  unfold ext4_fs_verify_bg_csum. rewrite (ro_com_ext m), Hon by (apply (sb_field_csum _ _ _ bg); fld). cbn [negb].
  pose proof (bg_checksum_ext m _ sb bgid bg Hap Hp Hon) as E.
  pose proof (bg_checksum_pure (put_bg_checksum m sb bgid bg) sb bgid bg) as P.
  destruct (ext4_fs_bg_checksum (put_bg_checksum m sb bgid bg) sb bgid bg) as [m2 cs]. cbn [fst snd] in *.
  apply Z.eqb_eq. rewrite (fget_ld8 _ _ _ _ P). unfold put_bg_checksum.
  pose proof (bg_checksum_range m sb bgid bg Hon) as R.
  destruct (ext4_fs_bg_checksum m sb bgid bg) as [m1 c1]. cbn [fst snd] in *.
  rewrite fget_fset_same by (done || exact R). done.
Qed.

(** *** Bitmap checksums

    The block and the inode bitmap have the same code over different fields
    and lengths; [cs m] is the checksum and [len m] the bytes it covers. *)
Section bitmap.
Context (cs : memory -> Z -> Z -> Z) (lo hi per : field) (len : Z -> Z).

Definition set_bitmap_csum (m : memory) (sb bg bitmap : Z) : memory :=
  if negb (ext4_sb_feature_ro_com m sb EXT4_FRO_COM_METADATA_CSUM) then m
  else
    let m' := fset lo m bg (u16 (cs m sb bitmap .& 0xFFFF)) in
    if ext4_sb_get_desc_size m sb =? EXT4_MAX_BLOCK_GROUP_DESCRIPTOR_SIZE
    then fset hi m' bg (u16 (cs m sb bitmap .>> 16)) else m'.

Definition verify_bitmap_csum (m : memory) (sb bg bitmap : Z) : bool :=
  if negb (ext4_sb_feature_ro_com m sb EXT4_FRO_COM_METADATA_CSUM) then true
  else if negb (fget lo m bg =? u16 (cs m sb bitmap .& 0xFFFF)) then false
  else if ext4_sb_get_desc_size m sb =? EXT4_MAX_BLOCK_GROUP_DESCRIPTOR_SIZE
  then if negb (fget hi m bg =? u16 (cs m sb bitmap .>> 16)) then false else true
  else true.

Hypothesis Hcs : forall m sb bitmap, cs m sb bitmap =
  if ext4_sb_feature_ro_com m sb EXT4_FRO_COM_METADATA_CSUM
  then ext4_crc32c m (ext4_crc32c m EXT4_CRC32_INIT (sb + f_off sb_uuid) 16) bitmap (len (fget per m sb))
  else 0.
Hypothesis Hfields : f_len lo = 2 /\ f_len hi = 2 /\ f_disjoint lo hi /\
  0 <= f_off lo <= 62 /\ 0 <= f_off hi <= 62 /\ 0 <= f_off per <= 1020 /\ f_len per = 4.

Definition bitmap_apart (m : memory) (sb bg bitmap : Z) : Prop :=
  let n := len (fget per m sb) in
  apart bg sb /\
  (bitmap + n <= sb \/ sb + 1024 <= bitmap) /\ (bitmap + n <= bg \/ bg + 64 <= bitmap).

Lemma cs_range m sb bitmap : 0 <= cs m sb bitmap < 2 ^ 32.
Proof. rewrite Hcs. case_if; [|lia]. apply ext4_crc32c_range, ext4_crc32c_range, crc_init_range. Qed.

(** Only the superblock and the bitmap matter. *)
Lemma cs_same m m' sb bitmap : same_on sb (sb + 1024) m m' ->
  same_on bitmap (bitmap + len (fget per m sb)) m m' -> cs m' sb bitmap = cs m sb bitmap.
Proof.
  intros H1 H2. rewrite !Hcs.
  assert (fget per m' sb = fget per m sb) as -> by (apply ldn_ext; intros x Hx; apply H1; lia).
  rewrite (ro_com_ext m m') by (apply ldn_ext; intros x Hx; apply H1; cbn in Hx; lia).
  case_if; [|done]. rewrite (ext4_crc32c_ext m m' _ bitmap) by done. f_equal.
  apply ext4_crc32c_ext. intros x Hx. apply H1. cbn in Hx. lia.
Qed.

Lemma desc_size_ext m m' sb : same_on sb (sb + 1024) m m' ->
  ext4_sb_get_desc_size m' sb = ext4_sb_get_desc_size m sb.
Proof.
  intros H. unfold ext4_sb_get_desc_size. assert (fget sb_desc_size m' sb = fget sb_desc_size m sb) as ->; [|done].
  apply ldn_ext. intros x Hx. apply H. cbn in Hx. lia.
Qed.

Lemma set_bitmap_frame m sb bg bitmap x : x < bg \/ bg + 64 <= x -> set_bitmap_csum m sb bg bitmap x = m x.
Proof.
  intros Hx. unfold set_bitmap_csum. destruct Hfields as (H1 & H2 & _ & H3 & H4 & _).
  repeat case_if; rewrite ?fset_other by lia; done.
Qed.

Lemma set_bitmap_fields m sb bg bitmap :
  ext4_sb_feature_ro_com m sb EXT4_FRO_COM_METADATA_CSUM = true ->
  fget lo (set_bitmap_csum m sb bg bitmap) bg = u16 (cs m sb bitmap .& 0xFFFF) /\
  (ext4_sb_get_desc_size m sb = 64 ->
   fget hi (set_bitmap_csum m sb bg bitmap) bg = u16 (cs m sb bitmap .>> 16)).
Proof.
  intros Hon. unfold set_bitmap_csum. rewrite Hon. cbn [negb]. destruct Hfields as (H1 & H2 & H3 & _).
  pose proof (uw_range 16 (cs m sb bitmap .& 0xFFFF) ltac:(lia)).
  pose proof (uw_range 16 (cs m sb bitmap .>> 16) ltac:(lia)).
  unfold EXT4_MAX_BLOCK_GROUP_DESCRIPTOR_SIZE. split; [|intros ->; cbn [Z.eqb Pos.eqb]].
  - case_if; [rewrite fget_fset_other by (done || lia)|];
      (apply fget_fset_same; [lia|]; rewrite H1; done).
  - apply fget_fset_same; [lia|]. by rewrite H2.
Qed.

Lemma bitmap_csum_protects m sb bg bitmap :
  let m' := set_bitmap_csum m sb bg bitmap in
  bitmap_apart m sb bg bitmap ->
  verify_bitmap_csum m' sb bg bitmap = true /\
  (ext4_sb_feature_ro_com m sb EXT4_FRO_COM_METADATA_CSUM = true -> ext4_sb_get_desc_size m sb = 64 ->
   forall a v, bitmap <= a < bitmap + len (fget per m sb) -> u8 v <> ld8 m a ->
     verify_bitmap_csum (st8 m' a v) sb bg bitmap = false).
Proof.
  intros m' (Hap & Hb1 & Hb2). pose proof (set_bitmap_frame m sb bg bitmap) as Hfr. fold m' in Hfr.
  assert (same_on sb (sb + 1024) m m') as Hsb by (intros x Hx; apply Hfr; unfold apart in Hap; lia).
  assert (cs m' sb bitmap = cs m sb bitmap) as Hc.
  { apply cs_same; [done|]. intros x Hx. apply Hfr. lia. }
  assert (forall k, ext4_sb_feature_ro_com m' sb k = ext4_sb_feature_ro_com m sb k) as Hro.
  { intros k. apply ro_com_ext, ldn_ext. intros x Hx. apply Hsb. cbn in Hx. lia. }
  pose proof (desc_size_ext m m' sb Hsb) as Hds. split.
  - unfold verify_bitmap_csum. rewrite Hro, Hds, Hc. case_if; [done|].
    destruct (set_bitmap_fields m sb bg bitmap) as [Hlo Hhi]; [done|]. fold m' in Hlo, Hhi.
    rewrite Hlo, Z.eqb_refl. cbn [negb]. case_if; [|done]. by rewrite Hhi, Z.eqb_refl.
  - intros Hon H64 a v Ha Hv. destruct (set_bitmap_fields m sb bg bitmap Hon) as [Hlo Hhi]. specialize (Hhi H64).
    fold m' in Hlo, Hhi. apply not_true_is_false. intros Hver.
    assert (same_on sb (sb + 1024) m' (st8 m' a v)) as Hsb'.
    { intros x Hx. unfold st8. case_if; [lia|done]. }
    destruct Hfields as (F1 & F2 & _ & F3 & F4 & F5 & F6). unfold verify_bitmap_csum in Hver.
    rewrite (ro_com_ext m'), Hro, Hon, (desc_size_ext m'), Hds, H64 in Hver
      by (done || (apply ldn_ext; intros x Hx; apply Hsb'; cbn in Hx; lia)).
    rewrite !fget_st8_out, Hlo, Hhi in Hver by lia. cbn [negb] in Hver.
    change (64 =? EXT4_MAX_BLOCK_GROUP_DESCRIPTOR_SIZE) with true in Hver.
    case_if_in Hver; [done|]. case_if_in Hver; [done|].
    assert (cs (st8 m' a v) sb bitmap = cs m sb bitmap) as Heq.
    { symmetry. apply halves_inj; [apply cs_range|apply cs_range|done..]. }
    revert Heq. rewrite <- Hc, !Hcs, (ro_com_ext m'), Hro, Hon
      by (apply ldn_ext; intros x Hx; apply Hsb'; cbn in Hx; lia).
    assert (fget per (st8 m' a v) sb = fget per m' sb) as -> by (apply ldn_ext; intros x Hx; apply Hsb'; lia).
    assert (fget per m' sb = fget per m sb) as -> by (apply ldn_ext; intros x Hx; apply Hsb; lia).
    rewrite (ext4_crc32c_ext m' (st8 m' a v) EXT4_CRC32_INIT)
      by (intros x Hx; apply Hsb'; cbn in Hx; lia).
    apply ext4_crc32c_detects; [apply ext4_crc32c_range, crc_init_range|done|].
    unfold ld8. rewrite Hfr by lia. done.
Qed.
End bitmap.

(** ** Theorems *)

(** C39. Every address and count of a block group descriptor reads back as it
    was set: in full with wide descriptors, its low half with 32-byte ones.
    Setting one leaves the others unchanged and writes nothing outside the
    descriptor; with 32-byte descriptors nothing of the next one is touched. *)
Theorem bg_accessors_roundtrip i a m bg s v :
  bg_accessors !! i = Some a -> apart bg s -> 0 <= v < 2 ^ (2 * a_w a) ->
  a_get a (a_set a m bg s v) bg s = (if desc_is_wide m s then v else uw (a_w a) v) /\
  (forall j b, j <> i -> bg_accessors !! j = Some b -> a_get b (a_set a m bg s v) bg s = a_get b m bg s) /\
  (forall x, x < bg \/ bg + (if desc_is_wide m s then 64 else 32) <= x -> a_set a m bg s v x = m x).
Proof.
  intros Ha Hap Hv. pose proof (Forall_lookup_1 _ _ _ _ bg_accessors_ok Ha) as Hok.
  split; [by apply accessor_set_get|split; [|intros x; by apply accessor_set_frame]].
  intros j b Hij Hb. pose proof (Forall_lookup_1 _ _ _ _ bg_accessors_ok Hb) as Hokb.
  destruct (accessors_disjoint j i b a Hij Hb Ha) as [D1 D2].
  pose proof Hok as (_ & _ & Hw & Hl & Hh & Ho & Hp & Ho' & Hp').
  pose proof Hokb as (_ & _ & Hwb & Hlb & Hhb & Hob & Hpb & Hob' & Hpb').
  apply accessor_get_ext; [done| | |by apply accessor_set_wide];
    apply accessor_set_field; try done; (lia || (unfold f_disjoint; lia)).
Qed.

(** A wide descriptor at 2048 beside a superblock at 0. *)
Definition sample_bg : memory := fset sb_desc_size (fun _ => 0) 0 64.

Lemma bg_accessors_roundtrip_witness :
  ext4_bg_get_free_blocks_count (ext4_bg_set_free_blocks_count sample_bg 2048 0 70000) 2048 0 = 70000.
Proof.
  refine (proj1 (bg_accessors_roundtrip 3 _ sample_bg 2048 0 70000 eq_refl _ _)).
  - right. discriminate.
  - split; [discriminate|reflexivity].
Defined.

(** Flags of a descriptor: after setting (clearing) a flag bit it reads as
    set (clear), and the other flags read as before. *)
Theorem bg_flags_ok m bg k j :
  0 <= k < 16 -> 0 <= j < 16 ->
  ext4_bg_has_flag (ext4_bg_set_flag m bg (1 .<< k)) bg (1 .<< j) =
    (ext4_bg_has_flag m bg (1 .<< j) || (j =? k)) /\
  ext4_bg_has_flag (ext4_bg_clear_flag m bg (1 .<< k)) bg (1 .<< j) =
    (ext4_bg_has_flag m bg (1 .<< j) && negb (j =? k)).
Proof.
  intros Hk Hj. unfold ext4_bg_has_flag, ext4_bg_set_flag, ext4_bg_clear_flag.
  rewrite !fget_fset_mod by done. rewrite !c_true_land_bit by lia. change (8 * f_len bg_flags) with 16.
  rewrite !uw_testbit by lia. rewrite !(proj2 (Z.ltb_lt j 16)) by lia. cbn [andb].
  rewrite Z.lor_spec, Z.land_spec, uw_testbit, Z.lnot_spec, !testbit_one by lia.
  rewrite (proj2 (Z.ltb_lt j 32)) by lia. by rewrite ?andb_true_r, ?andb_true_l.
Qed.

Lemma bg_flags_ok_witness :
  ext4_bg_has_flag (ext4_bg_set_flag sample_bg 2048 (1 .<< 2)) 2048 (1 .<< 2) = true /\
  ext4_bg_has_flag (ext4_bg_clear_flag sample_bg 2048 (1 .<< 2)) 2048 (1 .<< 2) = false.
Proof.
  destruct (bg_flags_ok sample_bg 2048 2 2) as [H1 H2]; [split; [discriminate|reflexivity]..|].
  split; [etransitivity; [exact H1|reflexivity]|etransitivity; [exact H2|reflexivity]].
Defined.

(** Descriptor checksums: the checksum written when a descriptor is put
    back verifies when it is read again, and neither computing nor verifying it
    changes any other byte, although the field is zeroed in between. *)
Theorem bg_csum_roundtrip m sb bgid bg :
  apart bg sb ->
  (ext4_fs_verify_bg_csum (put_bg_checksum m sb bgid bg) sb bgid bg).2 = true /\
  (forall x, x < bg + 30 \/ bg + 32 <= x -> ld8 (put_bg_checksum m sb bgid bg) x = ld8 m x) /\
  (forall x, ld8 (ext4_fs_verify_bg_csum m sb bgid bg).1 x = ld8 m x).
Proof.
  intros Hap. pose proof (put_bg_ld8 m sb bgid bg) as Hput. split; [|split; [done|]].
  - destruct (ext4_sb_feature_ro_com m sb EXT4_FRO_COM_METADATA_CSUM) eqn:Hon; [by apply bg_verify_put|].
    unfold ext4_fs_verify_bg_csum. by rewrite (ro_com_ext m), Hon by (apply (sb_field_csum _ _ _ bg); fld).
  - intros x. unfold ext4_fs_verify_bg_csum. case_if; [done|].
    pose proof (bg_checksum_pure m sb bgid bg x). by destruct (ext4_fs_bg_checksum m sb bgid bg).
Qed.

(** A superblock at 0 with checksums on and a descriptor at 2048. *)
Definition sample_bg_csum : memory :=
  fset sb_blocks_per_group (fset sb_features_read_only sample_bg 0 EXT4_FRO_COM_METADATA_CSUM) 0 64.

Lemma bg_csum_roundtrip_witness :
  (ext4_fs_verify_bg_csum (put_bg_checksum sample_bg_csum 0 7 2048) 0 7 2048).2 = true /\
  (ext4_fs_verify_bg_csum (put_bg_checksum sample_bg_csum 0 7 2048) 0 8 2048).2 = false.
Proof.
  split; [|vm_compute; reflexivity].
  apply (bg_csum_roundtrip sample_bg_csum 0 7 2048). right. discriminate.
Defined.

(** Bitmap checksums: a block bitmap and an inode bitmap verify after their
    checksum is set, and with 64-byte descriptors, which hold the whole
    checksum, any later change of one byte of the bitmap is detected. *)
Theorem bitmap_csums_protect m sb bg bitmap :
  let m1 := ext4_balloc_set_bitmap_csum m sb bg bitmap in
  let m2 := ext4_ialloc_set_bitmap_csum m sb bg bitmap in
  let wide := ext4_sb_feature_ro_com m sb EXT4_FRO_COM_METADATA_CSUM = true /\ ext4_sb_get_desc_size m sb = 64 in
  (bitmap_apart sb_blocks_per_group (fun n => n / 8) m sb bg bitmap ->
   ext4_balloc_verify_bitmap_csum m1 sb bg bitmap = true /\
   (wide -> forall a v, bitmap <= a < bitmap + fget sb_blocks_per_group m sb / 8 -> u8 v <> ld8 m a ->
      ext4_balloc_verify_bitmap_csum (st8 m1 a v) sb bg bitmap = false)) /\
  (bitmap_apart sb_inodes_per_group (fun n => u32 (n + 7) / 8) m sb bg bitmap ->
   ext4_ialloc_verify_bitmap_csum m2 sb bg bitmap = true /\
   (wide -> forall a v, bitmap <= a < bitmap + u32 (fget sb_inodes_per_group m sb + 7) / 8 -> u8 v <> ld8 m a ->
      ext4_ialloc_verify_bitmap_csum (st8 m2 a v) sb bg bitmap = false)).
Proof.
  intros m1 m2 wide. split; intros Hb.
  - destruct (bitmap_csum_protects ext4_balloc_bitmap_csum bg_block_bitmap_csum_lo bg_block_bitmap_csum_hi
      sb_blocks_per_group (fun n => n / 8) (fun _ _ _ => eq_refl) ltac:(split_and!; fld) m sb bg bitmap Hb) as [H1 H2].
    split; [exact H1|]. intros [Hw1 Hw2] a v Ha Hv. exact (H2 Hw1 Hw2 a v Ha Hv).
  - destruct (bitmap_csum_protects ext4_ialloc_bitmap_csum bg_inode_bitmap_csum_lo bg_inode_bitmap_csum_hi
      sb_inodes_per_group (fun n => u32 (n + 7) / 8) (fun _ _ _ => eq_refl) ltac:(split_and!; fld) m sb bg bitmap Hb)
      as [H1 H2].
    split; [exact H1|]. intros [Hw1 Hw2] a v Ha Hv. exact (H2 Hw1 Hw2 a v Ha Hv).
Qed.

Lemma bitmap_csums_protect_witness :
  ext4_balloc_verify_bitmap_csum
    (st8 (ext4_balloc_set_bitmap_csum sample_bg_csum 0 2048 4096) 4099 1) 0 2048 4096 = false.
Proof.
  refine (proj2 (proj1 (bitmap_csums_protect sample_bg_csum 0 2048 4096) _) _ 4099 1 _ _).
  - unfold bitmap_apart, apart. split; [right; discriminate|].
    split; right; discriminate.
  - split; vm_compute; reflexivity.
  - split; [discriminate|vm_compute; reflexivity].
  - vm_compute. discriminate.
Defined.
