(* ===== verification/Ext4Inode.v ===== *)
(** lwext4, inodes: [src/ext4_inode.c], and the inode checksum and link counts
    of [src/ext4_fs.c].

    The inode is at [ino] and the superblock at [sb] of one memory.  An inode
    of 128 bytes has no fields from [extra_isize] on. *)
From S2P Require Import Prelude Memory Ext4Errno Ext4Bitmap Ext4Crc Ext4Layout Ext4Super Ext4BlockGroup.
#[local] Open Scope Z_scope.
#[local] Open Scope cint_scope.

(** ** Model *)

Definition EXT4_SUPERBLOCK_OS_LINUX : Z := 0.
Definition EXT4_SUPERBLOCK_OS_HURD : Z := 1.
Definition EXT4_GOOD_OLD_INODE_SIZE : Z := 128.
Definition EXT4_INODE_INDIRECT_BLOCK : Z := 12.
Definition EXT4_INODE_MODE_FIFO : Z := 0x1000.
Definition EXT4_INODE_MODE_CHARDEV : Z := 0x2000.
Definition EXT4_INODE_MODE_DIRECTORY : Z := 0x4000.
Definition EXT4_INODE_MODE_BLOCKDEV : Z := 0x6000.
Definition EXT4_INODE_MODE_FILE : Z := 0x8000.
Definition EXT4_INODE_MODE_SOFTLINK : Z := 0xA000.
Definition EXT4_INODE_MODE_SOCKET : Z := 0xC000.
Definition EXT4_INODE_MODE_TYPE_MASK : Z := 0xF000.
Definition EXT4_INODE_FLAG_IMMUTABLE : Z := 0x00000010.
Definition EXT4_INODE_FLAG_APPEND : Z := 0x00000020.
Definition EXT4_INODE_FLAG_INDEX : Z := 0x00001000.
Definition EXT4_INODE_FLAG_HUGE_FILE : Z := 0x00040000.
Definition EXT4_FCOM_DIR_INDEX : Z := 0x0020.
Definition EXT4_FRO_COM_DIR_NLINK : Z := 0x0020.
Definition EXT4_LINK_MAX : Z := 65000.

(** [osd2.hurd2.mode_high], over [osd2.linux2.file_acl_high]. *)
Definition ino_mode_high : field := ino_file_acl_high.

(** The loop halves [size] until it is at most 256; 24 turns are enough at 32
    bits. *)
Fixpoint block_bits_loop (fuel : nat) (bits size : Z) : Z :=
  match fuel with
  | O => bits
  | S fuel =>
      let bits := u32 (bits + 1) in
      let size := size .>> 1 in
      if 256 <? size then block_bits_loop fuel bits size else bits
  end.

Definition ext4_inode_block_bits_count (block_size : Z) : Z := block_bits_loop 24 8 block_size.

Definition ext4_inode_get_mode (m : memory) (sb ino : Z) : Z :=
  let v := fget ino_mode m ino in
  if fget sb_creator_os m sb =? EXT4_SUPERBLOCK_OS_HURD
  then v .| u32 (fget ino_mode_high m ino .<< 16) else v.

Definition ext4_inode_set_mode (m : memory) (sb ino mode : Z) : memory :=
  let m := fset ino_mode m ino (u32 (mode .<< 16) .>> 16) in
  if fget sb_creator_os m sb =? EXT4_SUPERBLOCK_OS_HURD
  then fset ino_mode_high m ino (mode .>> 16) else m.

Definition ext4_inode_type (m : memory) (sb ino : Z) : Z :=
  ext4_inode_get_mode m sb ino .& EXT4_INODE_MODE_TYPE_MASK.

Definition ext4_inode_is_type (m : memory) (sb ino type : Z) : bool := ext4_inode_type m sb ino =? type.

Definition ext4_inode_get_uid (m : memory) (ino : Z) : Z := fget ino_uid m ino.
Definition ext4_inode_set_uid (m : memory) (ino uid : Z) : memory := fset ino_uid m ino uid.

Definition ext4_inode_get_size (m : memory) (sb ino : Z) : Z :=
  let v := fget ino_size_lo m ino in
  if (0 <? fget sb_rev_level m sb) && ext4_inode_is_type m sb ino EXT4_INODE_MODE_FILE
  then v .| u64 (fget ino_size_hi m ino .<< 32) else v.

Definition ext4_inode_set_size (m : memory) (ino size : Z) : memory :=
  let m := fset ino_size_lo m ino (u64 (size .<< 32) .>> 32) in
  fset ino_size_hi m ino (size .>> 32).

Definition ext4_inode_get_csum (m : memory) (sb ino : Z) : Z :=
  let inode_size := fget sb_inode_size m sb in
  let v := fget ino_checksum_lo m ino in
  if EXT4_GOOD_OLD_INODE_SIZE <? inode_size then v .| u32 (fget ino_checksum_hi m ino .<< 16) else v.

Definition ext4_inode_set_csum (m : memory) (sb ino checksum : Z) : memory :=
  let inode_size := fget sb_inode_size m sb in
  let m := fset ino_checksum_lo m ino (u32 (checksum .<< 16) .>> 16) in
  if EXT4_GOOD_OLD_INODE_SIZE <? inode_size then fset ino_checksum_hi m ino (checksum .>> 16) else m.

Definition ext4_inode_get_access_time (m : memory) (ino : Z) : Z := fget ino_access_time m ino.
Definition ext4_inode_set_access_time (m : memory) (ino time : Z) : memory := fset ino_access_time m ino time.
Definition ext4_inode_get_change_inode_time (m : memory) (ino : Z) : Z := fget ino_change_inode_time m ino.
Definition ext4_inode_set_change_inode_time (m : memory) (ino time : Z) : memory :=
  fset ino_change_inode_time m ino time.
Definition ext4_inode_get_modif_time (m : memory) (ino : Z) : Z := fget ino_modification_time m ino.
Definition ext4_inode_set_modif_time (m : memory) (ino time : Z) : memory := fset ino_modification_time m ino time.
Definition ext4_inode_get_del_time (m : memory) (ino : Z) : Z := fget ino_deletion_time m ino.
Definition ext4_inode_set_del_time (m : memory) (ino time : Z) : memory := fset ino_deletion_time m ino time.
Definition ext4_inode_get_gid (m : memory) (ino : Z) : Z := fget ino_gid m ino.
Definition ext4_inode_set_gid (m : memory) (ino gid : Z) : memory := fset ino_gid m ino gid.
Definition ext4_inode_get_links_cnt (m : memory) (ino : Z) : Z := fget ino_links_count m ino.
Definition ext4_inode_set_links_cnt (m : memory) (ino cnt : Z) : memory := fset ino_links_count m ino cnt.
Definition ext4_inode_get_flags (m : memory) (ino : Z) : Z := fget ino_flags m ino.
Definition ext4_inode_set_flags (m : memory) (ino flags : Z) : memory := fset ino_flags m ino flags.
Definition ext4_inode_get_generation (m : memory) (ino : Z) : Z := fget ino_generation m ino.
Definition ext4_inode_set_generation (m : memory) (ino gen : Z) : memory := fset ino_generation m ino gen.

Definition ext4_inode_has_flag (m : memory) (ino f : Z) : bool := c_true (ext4_inode_get_flags m ino .& f).

Definition ext4_inode_clear_flag (m : memory) (ino f : Z) : memory :=
  let flags := ext4_inode_get_flags m ino in
  let flags := flags .& u32 (Z.lnot f) in
  ext4_inode_set_flags m ino flags.

Definition ext4_inode_set_flag (m : memory) (ino f : Z) : memory :=
  let flags := ext4_inode_get_flags m ino in
  let flags := flags .| f in
  ext4_inode_set_flags m ino flags.

Definition ext4_inode_get_blocks_count (m : memory) (sb ino : Z) : Z :=
  let cnt := fget ino_blocks_count_lo m ino in
  if ext4_sb_feature_ro_com m sb EXT4_FRO_COM_HUGE_FILE then
    let cnt := cnt .| u64 (fget ino_blocks_high m ino .<< 32) in
    if ext4_inode_has_flag m ino EXT4_INODE_FLAG_HUGE_FILE then
      let block_count := ext4_sb_get_block_size m sb in
      let b := ext4_inode_block_bits_count block_count in
      u64 (cnt .<< (b - 9))
    else cnt
  else cnt.

Definition ext4_inode_set_blocks_count (m : memory) (sb ino count : Z) : memory * Z :=
  let max := u64 (Z.lnot 0) .>> 32 in
  if count <=? max then
    let m := fset ino_blocks_count_lo m ino (u32 count) in
    let m := fset ino_blocks_high m ino 0 in
    (ext4_inode_clear_flag m ino EXT4_INODE_FLAG_HUGE_FILE, EOK)
  else if negb (ext4_sb_feature_ro_com m sb EXT4_FRO_COM_HUGE_FILE) then (m, EINVAL)
  else
    let max := u64 (Z.lnot 0) .>> 16 in
    if count <=? max then
      let m := fset ino_blocks_count_lo m ino (u32 count) in
      let m := fset ino_blocks_high m ino (u16 (count .>> 32)) in
      (ext4_inode_clear_flag m ino EXT4_INODE_FLAG_HUGE_FILE, EOK)
    else
      let block_count := ext4_sb_get_block_size m sb in
      let block_bits := ext4_inode_block_bits_count block_count in
      let m := ext4_inode_set_flag m ino EXT4_INODE_FLAG_HUGE_FILE in
      let count := count .>> (block_bits - 9) in
      let m := fset ino_blocks_count_lo m ino (u32 count) in
      (fset ino_blocks_high m ino (u16 (count .>> 32)), EOK).

Definition ext4_inode_get_extra_isize (m : memory) (sb ino : Z) : Z :=
  let inode_size := fget sb_inode_size m sb in
  if EXT4_GOOD_OLD_INODE_SIZE <? inode_size then fget ino_extra_isize m ino else 0.

Definition ext4_inode_set_extra_isize (m : memory) (sb ino size : Z) : memory :=
  let inode_size := fget sb_inode_size m sb in
  if EXT4_GOOD_OLD_INODE_SIZE <? inode_size then fset ino_extra_isize m ino size else m.

Definition ext4_inode_get_file_acl (m : memory) (ino sb : Z) : Z :=
  let v := fget ino_file_acl_lo m ino in
  if fget sb_creator_os m sb =? EXT4_SUPERBLOCK_OS_LINUX
  then v .| u32 (fget ino_file_acl_high m ino .<< 16) else v.

Definition ext4_inode_set_file_acl (m : memory) (ino sb acl : Z) : memory :=
  let m := fset ino_file_acl_lo m ino (u64 (acl .<< 32) .>> 32) in
  if fget sb_creator_os m sb =? EXT4_SUPERBLOCK_OS_LINUX
  then fset ino_file_acl_high m ino (u16 (acl .>> 32)) else m.

(** [inode->blocks[idx]] *)
Definition ino_block (idx : Z) : field := Field (f_off ino_blocks + 4 * idx) 4.

Definition ext4_inode_get_direct_block (m : memory) (ino idx : Z) : Z := fget (ino_block idx) m ino.
Definition ext4_inode_set_direct_block (m : memory) (ino idx block : Z) : memory :=
  fset (ino_block idx) m ino block.
Definition ext4_inode_get_indirect_block (m : memory) (ino idx : Z) : Z :=
  fget (ino_block (u32 (idx + EXT4_INODE_INDIRECT_BLOCK))) m ino.
Definition ext4_inode_set_indirect_block (m : memory) (ino idx block : Z) : memory :=
  fset (ino_block (u32 (idx + EXT4_INODE_INDIRECT_BLOCK))) m ino block.

Definition ext4_inode_get_dev (m : memory) (ino : Z) : Z :=
  let dev_0 := ext4_inode_get_direct_block m ino 0 in
  let dev_1 := ext4_inode_get_direct_block m ino 1 in
  if c_true dev_0 then dev_0 else dev_1.

Definition ext4_inode_set_dev (m : memory) (ino dev : Z) : memory :=
  if c_true (dev .& u32 (Z.lnot 0xFFFF)) then ext4_inode_set_direct_block m ino 1 dev
  else ext4_inode_set_direct_block m ino 0 dev.

Definition ext4_inode_can_truncate (m : memory) (sb ino : Z) : bool :=
  if ext4_inode_has_flag m ino EXT4_INODE_FLAG_APPEND || ext4_inode_has_flag m ino EXT4_INODE_FLAG_IMMUTABLE
  then false
  else if ext4_inode_is_type m sb ino EXT4_INODE_MODE_FILE
       || ext4_inode_is_type m sb ino EXT4_INODE_MODE_DIRECTORY
       || ext4_inode_is_type m sb ino EXT4_INODE_MODE_SOFTLINK
  then true
  else false.

Definition ext4_fs_inode_checksum (m : memory) (sb index ino : Z) : memory * Z :=
  let inode_size := fget sb_inode_size m sb in
  if ext4_sb_feature_ro_com m sb EXT4_FRO_COM_METADATA_CSUM then
    let ino_gen := ext4_inode_get_generation m ino in
    let orig_checksum := ext4_inode_get_csum m sb ino in
    let m := ext4_inode_set_csum m sb ino 0 in
    let checksum := ext4_crc32c m EXT4_CRC32_INIT (sb + f_off sb_uuid) 16 in
    let checksum := ext4_crc32c (local32 index) checksum 0 4 in
    let checksum := ext4_crc32c (local32 ino_gen) checksum 0 4 in
    let checksum := ext4_crc32c m checksum ino inode_size in
    let m := ext4_inode_set_csum m sb ino orig_checksum in
    (m, if inode_size =? EXT4_GOOD_OLD_INODE_SIZE then checksum .& 0xFFFF else checksum)
  else (m, 0).

Definition ext4_fs_set_inode_checksum (m : memory) (sb index ino : Z) : memory :=
  if negb (ext4_sb_feature_ro_com m sb EXT4_FRO_COM_METADATA_CSUM) then m
  else
    let '(m, csum) := ext4_fs_inode_checksum m sb index ino in
    ext4_inode_set_csum m sb ino csum.

Definition ext4_fs_verify_inode_csum (m : memory) (sb index ino : Z) : memory * bool :=
  if negb (ext4_sb_feature_ro_com m sb EXT4_FRO_COM_METADATA_CSUM) then (m, true)
  else
    let stored := ext4_inode_get_csum m sb ino in
    let '(m, csum) := ext4_fs_inode_checksum m sb index ino in
    (m, stored =? csum).

Definition ext4_fs_inode_links_count_inc (m : memory) (sb ino : Z) : memory :=
  let link := ext4_inode_get_links_cnt m ino in
  let link := u16 (link + 1) in
  let m := ext4_inode_set_links_cnt m ino link in
  let is_dx := ext4_sb_feature_com m sb EXT4_FCOM_DIR_INDEX && ext4_inode_has_flag m ino EXT4_INODE_FLAG_INDEX in
  if is_dx && (1 <? link) then
    if (EXT4_LINK_MAX <=? link) || (link =? 2) then
      let m := ext4_inode_set_links_cnt m ino 1 in
      let v := fget sb_features_read_only m sb in
      let v := v .| EXT4_FRO_COM_DIR_NLINK in
      fset sb_features_read_only m sb v
    else m
  else m.

Definition ext4_fs_inode_links_count_dec (m : memory) (sb ino : Z) : memory :=
  let links := ext4_inode_get_links_cnt m ino in
  if negb (ext4_inode_is_type m sb ino EXT4_INODE_MODE_DIRECTORY) then
    if 0 <? links then ext4_inode_set_links_cnt m ino (links - 1) else m
  else if 2 <? links then ext4_inode_set_links_cnt m ino (links - 1) else m.

(** The [EXT4_DE_*] codes and their modes. *)
Inductive filetype :=
  EXT4_DE_UNKNOWN | EXT4_DE_REG_FILE | EXT4_DE_DIR | EXT4_DE_CHRDEV | EXT4_DE_BLKDEV | EXT4_DE_FIFO
  | EXT4_DE_SOCK | EXT4_DE_SYMLINK.

Definition ext4_fs_correspond_inode_mode (t : filetype) : Z :=
  match t with
  | EXT4_DE_DIR => EXT4_INODE_MODE_DIRECTORY
  | EXT4_DE_REG_FILE => EXT4_INODE_MODE_FILE
  | EXT4_DE_SYMLINK => EXT4_INODE_MODE_SOFTLINK
  | EXT4_DE_CHRDEV => EXT4_INODE_MODE_CHARDEV
  | EXT4_DE_BLKDEV => EXT4_INODE_MODE_BLOCKDEV
  | EXT4_DE_FIFO => EXT4_INODE_MODE_FIFO
  | EXT4_DE_SOCK => EXT4_INODE_MODE_SOCKET
  | EXT4_DE_UNKNOWN => EXT4_INODE_MODE_FILE
  end.

#[local] Opaque ext4_crc32c.

(** ** Fields *)

(** Superblock and inode do not overlap ([n] the bytes of the inode). *)
Definition ino_apart (n ino sb : Z) : Prop := ino + n <= sb \/ sb + 1024 <= ino.

Lemma sb_get_fset f g m ino sb v : 0 <= f_off f -> 0 <= f_len f -> f_off f + f_len f <= 1024 ->
  0 <= f_off g -> 0 <= f_len g -> f_off g + f_len g <= 132 -> ino_apart 132 ino sb ->
  fget f (fset g m ino v) sb = fget f m sb.
Proof. unfold ino_apart. intros. apply fget_fset_far; lia. Qed.

Lemma has_flag_set m ino k : 0 <= k < 32 ->
  ext4_inode_has_flag (ext4_inode_set_flag m ino (1 .<< k)) ino (1 .<< k) = true.
Proof.
  intros Hk. unfold ext4_inode_has_flag, ext4_inode_set_flag, ext4_inode_get_flags, ext4_inode_set_flags.
  rewrite fget_fset_mod by done. rewrite c_true_land_bit by lia. change (8 * f_len ino_flags) with 32.
  rewrite uw_testbit, Z.lor_spec, testbit_one, Z.eqb_refl, orb_true_r by lia. by rewrite (proj2 (Z.ltb_lt k 32)) by lia.
Qed.

Lemma has_flag_clear m ino k : 0 <= k < 32 ->
  ext4_inode_has_flag (ext4_inode_clear_flag m ino (1 .<< k)) ino (1 .<< k) = false.
Proof.
  intros Hk. unfold ext4_inode_has_flag, ext4_inode_clear_flag, ext4_inode_get_flags, ext4_inode_set_flags.
  rewrite fget_fset_mod by done. rewrite c_true_land_bit by lia. change (8 * f_len ino_flags) with 32.
  rewrite uw_testbit, Z.land_spec, uw_testbit, Z.lnot_spec, testbit_one, Z.eqb_refl by lia.
  by rewrite (proj2 (Z.ltb_lt k 32)), andb_false_r by lia.
Qed.

Lemma has_flag_fset f m ino v k : 0 <= f_len f -> f_disjoint ino_flags f ->
  ext4_inode_has_flag (fset f m ino v) ino k = ext4_inode_has_flag m ino k.
Proof.
  intros Hf Hd. unfold ext4_inode_has_flag, ext4_inode_get_flags. by rewrite fget_fset_other by (done || fld).
Qed.

Lemma flag_field f m ino k : 0 <= f_len f -> f_disjoint f ino_flags ->
  fget f (ext4_inode_clear_flag m ino k) ino = fget f m ino /\
  fget f (ext4_inode_set_flag m ino k) ino = fget f m ino.
Proof.
  intros Hf Hd. unfold ext4_inode_clear_flag, ext4_inode_set_flag, ext4_inode_set_flags.
  by rewrite !fget_fset_other by (done || fld).
Qed.

Lemma sb_field_flag f m ino sb k : 0 <= f_off f -> 0 <= f_len f -> f_off f + f_len f <= 1024 ->
  ino_apart 132 ino sb ->
  fget f (ext4_inode_clear_flag m ino k) sb = fget f m sb /\
  fget f (ext4_inode_set_flag m ino k) sb = fget f m sb.
Proof.
  intros. unfold ext4_inode_clear_flag, ext4_inode_set_flag, ext4_inode_set_flags.
  by rewrite !sb_get_fset by (done || fld).
Qed.

(** ** Block counts *)

Lemma block_bits_ok l : 0 <= l <= 6 -> ext4_inode_block_bits_count (u32 (1024 .<< l)) = l + 10.
Proof.
  intros Hl. assert (l = 0 \/ l = 1 \/ l = 2 \/ l = 3 \/ l = 4 \/ l = 5 \/ l = 6) as H by lia.
  destruct_or! H; subst l; reflexivity.
Qed.

(** The 48-bit count of the inode. *)
Definition raw_blocks (m : memory) (ino : Z) : Z :=
  fget ino_blocks_count_lo m ino .| u64 (fget ino_blocks_high m ino .<< 32).

Definition store_raw (m : memory) (ino c : Z) : memory :=
  fset ino_blocks_high (fset ino_blocks_count_lo m ino (u32 c)) ino (u16 (c .>> 32)).

Lemma raw_store m ino c : 0 <= c < 2 ^ 48 -> raw_blocks (store_raw m ino c) ino = c.
Proof.
  intros Hc. unfold raw_blocks, store_raw.
  assert (0 <= c .>> 32 < 2 ^ 16) as Hh.
  { rewrite shiftr_pow2 by lia. split; [apply Z.div_pos; lia|]. apply Z.div_lt_upper_bound; pow2; lia. }
  rewrite (uw_small 16 (c .>> 32)) by done. pose proof (uw_range 32 c ltac:(lia)).
  rewrite fget_fset_other, !fget_fset_same by (done || fld). rewrite Z.lor_comm, (uw_small 64).
  - apply join_lo_hi; lia.
  - rewrite shiftl_pow2 by lia. pow2; lia.
Qed.

Lemma raw_flag m ino k :
  raw_blocks (ext4_inode_clear_flag m ino k) ino = raw_blocks m ino /\
  raw_blocks (ext4_inode_set_flag m ino k) ino = raw_blocks m ino.
Proof.
  unfold raw_blocks. split; f_equal; try (apply (flag_field ino_blocks_count_lo); fld); do 2 f_equal;
    apply (flag_field ino_blocks_high); fld.
Qed.

Lemma get_blocks_count_raw m sb ino :
  ext4_inode_get_blocks_count m sb ino =
  if ext4_sb_feature_ro_com m sb EXT4_FRO_COM_HUGE_FILE then
    if ext4_inode_has_flag m ino EXT4_INODE_FLAG_HUGE_FILE
    then u64 (raw_blocks m ino .<< (ext4_inode_block_bits_count (ext4_sb_get_block_size m sb) - 9))
    else raw_blocks m ino
  else fget ino_blocks_count_lo m ino.
Proof. done. Qed.

Lemma huge_flag_bit : EXT4_INODE_FLAG_HUGE_FILE = 1 .<< 18.
Proof. done. Qed.

(** Setting the count changes no flag but [EXT4_INODE_FLAG_HUGE_FILE]. *)
Lemma land_without v H f : 0 <= v < 2 ^ 32 -> 0 <= H -> f .& H = 0 -> (v .& u32 (Z.lnot H)) .& f = v .& f.
Proof.
  intros Hv HH Hf. apply Z.bits_inj'. intros i Hi. rewrite !Z.land_spec, uw_testbit by lia.
  destruct (i <? 32) eqn:E32; [|apply Z.ltb_ge in E32; by rewrite (Z_testbit_high 32 v i) by (done || lia)].
  pose proof (f_equal (fun z => Z.testbit z i) Hf) as Hb. cbv beta in Hb. rewrite Z.land_spec, Z.testbit_0_l in Hb.
  rewrite Z.lnot_spec by done. by destruct (Z.testbit v i), (Z.testbit f i), (Z.testbit H i).
Qed.

Lemma blocks_count_flags m sb ino count f : f .& EXT4_INODE_FLAG_HUGE_FILE = 0 ->
  ext4_inode_has_flag (ext4_inode_set_blocks_count m sb ino count).1 ino f = ext4_inode_has_flag m ino f.
Proof.
  intros Hf. unfold ext4_inode_has_flag. f_equal. unfold ext4_inode_get_flags.
  pose proof (fget_range ino_flags m ino) as Hr. change (2 ^ _) with (2 ^ 32) in Hr.
  assert (forall m', fget ino_flags m' ino = fget ino_flags m ino ->
    fget ino_flags (ext4_inode_clear_flag m' ino EXT4_INODE_FLAG_HUGE_FILE) ino .& f = fget ino_flags m ino .& f) as Hc.
  { intros m' E. unfold ext4_inode_clear_flag, ext4_inode_set_flags, ext4_inode_get_flags. rewrite E.
    rewrite fget_fset_same; [apply land_without; done || lia|done|].
    change (2 ^ (8 * f_len ino_flags)) with (2 ^ 32). apply land_range; lia. }
  unfold ext4_inode_set_blocks_count. repeat case_if; cbn [fst]; try (apply Hc; rewrite !fget_fset_other by (done || fld); done); [done|].
  rewrite !fget_fset_other by (done || fld). unfold ext4_inode_set_flag, ext4_inode_set_flags, ext4_inode_get_flags.
  rewrite fget_fset_same; [|done|].
  - by rewrite Z.land_lor_distr_l, (Z.land_comm EXT4_INODE_FLAG_HUGE_FILE), Hf, Z.lor_0_r.
  - change (2 ^ (8 * f_len ino_flags)) with (2 ^ 32). apply lor_range; (lia || done).
Qed.

Lemma blocks_count_small m sb ino count : ino_apart 132 ino sb ->
  0 <= count < 2 ^ 32 \/ (ext4_sb_feature_ro_com m sb EXT4_FRO_COM_HUGE_FILE = true /\ 0 <= count < 2 ^ 48) ->
  (ext4_inode_set_blocks_count m sb ino count).2 = EOK /\
  ext4_inode_get_blocks_count (ext4_inode_set_blocks_count m sb ino count).1 sb ino = count.
Proof.
  intros Hap Hc.
  assert (0 <= count < 2 ^ 48) as Hc48 by (destruct Hc as [?|[_ ?]]; [pow2; lia|done]).
  assert (exists m1, m1 = store_raw m ino count /\ ext4_inode_set_blocks_count m sb ino count =
    (ext4_inode_clear_flag m1 ino EXT4_INODE_FLAG_HUGE_FILE, EOK)) as (m1 & Em1 & E).
  { eexists; split; [done|]. unfold ext4_inode_set_blocks_count, store_raw.
    change (u64 (Z.lnot 0) .>> 32) with (2 ^ 32 - 1). change (u64 (Z.lnot 0) .>> 16) with (2 ^ 48 - 1).
    case_if.
    - rewrite shiftr_pow2, Z.div_small by lia. done.
    - destruct Hc as [?|[-> ?]]; [lia|]. cbn [negb]. case_if; [done|lia]. }
  rewrite E. cbn [fst snd]. split; [done|]. rewrite get_blocks_count_raw.
  rewrite huge_flag_bit, has_flag_clear, <- huge_flag_bit by lia.
  rewrite (proj1 (raw_flag m1 ino _)), (proj1 (flag_field ino_blocks_count_lo _ _ _ ltac:(done) ltac:(fld))).
  rewrite (ro_com_ext m1) by (apply sb_field_flag; [fld..|exact Hap]). subst m1.
  rewrite raw_store by done. case_if; [done|].
  rewrite (ro_com_ext m) in * by (unfold store_raw; rewrite !sb_get_fset by (done || fld); done).
  destruct Hc as [?|[? _]]; [|congruence]. unfold store_raw. rewrite uw_small by done.
  rewrite fget_fset_other, fget_fset_same by (done || fld). done.
Qed.

Lemma blocks_count_huge m sb ino count : ino_apart 132 ino sb -> fget sb_log_block_size m sb <= 6 ->
  ext4_sb_feature_ro_com m sb EXT4_FRO_COM_HUGE_FILE = true ->
  2 ^ 48 <= count < 2 ^ (49 + fget sb_log_block_size m sb) ->
  (ext4_inode_set_blocks_count m sb ino count).2 = EOK /\
  ext4_inode_get_blocks_count (ext4_inode_set_blocks_count m sb ino count).1 sb ino =
    count - count mod 2 ^ (fget sb_log_block_size m sb + 1).
Proof.
  intros Hap H6 Hon Hc. pose proof (fget_range sb_log_block_size m sb) as Hl.
  set (l := fget sb_log_block_size m sb) in *.
  assert (ext4_inode_block_bits_count (ext4_sb_get_block_size m sb) - 9 = l + 1) as Hbits.
  { unfold ext4_sb_get_block_size. fold l. rewrite block_bits_ok by lia. lia. }
  set (m0 := ext4_inode_set_flag m ino EXT4_INODE_FLAG_HUGE_FILE).
  assert (ext4_inode_set_blocks_count m sb ino count = (store_raw m0 ino (count .>> (l + 1)), EOK)) as ->.
  { unfold ext4_inode_set_blocks_count. change (u64 (Z.lnot 0) .>> 32) with (2 ^ 32 - 1).
    change (u64 (Z.lnot 0) .>> 16) with (2 ^ 48 - 1). rewrite Hon, Hbits. case_if; [lia|].
    cbn [negb]. case_if; [lia|]. done. }
  cbn [fst snd]. split; [done|].
  assert (forall f, 0 <= f_off f -> 0 <= f_len f -> f_off f + f_len f <= 1024 ->
    fget f (store_raw m0 ino (count .>> (l + 1))) sb = fget f m sb) as Hsb.
  { intros f F0 F1 F2. unfold store_raw. rewrite !sb_get_fset by (done || fld). by apply sb_field_flag. }
  rewrite get_blocks_count_raw, (ro_com_ext m), Hon by (apply Hsb; fld).
  unfold ext4_sb_get_block_size. rewrite Hsb by fld. fold l.
  fold (ext4_sb_get_block_size m sb). rewrite block_bits_ok by lia.
  replace (l + 10 - 9) with (l + 1) by lia.
  assert (ext4_inode_has_flag (store_raw m0 ino (count .>> (l + 1))) ino EXT4_INODE_FLAG_HUGE_FILE = true) as ->.
  { unfold store_raw. rewrite !has_flag_fset by fld. unfold m0. rewrite huge_flag_bit.
    apply has_flag_set. lia. }
  assert (2 ^ (49 + l) <= 2 ^ 64) by (apply Z.pow_le_mono_r; lia). assert (0 < 2 ^ (l + 1)) by (apply Z.pow_pos_nonneg; lia).
  pose proof (Z.div_mod count (2 ^ (l + 1)) ltac:(lia)) as Hd.
  pose proof (Z.mod_pos_bound count (2 ^ (l + 1)) ltac:(lia)) as Hm.
  pose proof (Z.mod_le count (2 ^ (l + 1)) ltac:(lia) ltac:(lia)).
  rewrite shiftr_pow2 by lia. rewrite raw_store.
  - rewrite shiftl_pow2, Z.mul_comm, uw_small by lia. lia.
  - split; [apply Z.div_pos; lia|]. apply Z.div_lt_upper_bound; [lia|].
    rewrite <- Z.pow_add_r by lia. replace (l + 1 + 48) with (49 + l) by lia. lia.
Qed.

(** ** Checksums *)

(** Byte [x] belongs to the checksum fields of the inode. *)
Definition in_csum (ino x : Z) : Prop := ino + 124 <= x < ino + 126 \/ ino + 130 <= x < ino + 132.

Section csum.
Context (m : memory) (sb ino index : Z).
Hypothesis (Hsize : 132 <= fget sb_inode_size m sb) (Hap : ino_apart (fget sb_inode_size m sb) ino sb).

Lemma ino_apart_132 : ino_apart 132 ino sb.
Proof. unfold ino_apart in *. lia. Qed.

Lemma set_csum_big c : ext4_inode_set_csum m sb ino c =
  fset ino_checksum_hi (fset ino_checksum_lo m ino (u32 (c .<< 16) .>> 16)) ino (c .>> 16).
Proof. unfold ext4_inode_set_csum, EXT4_GOOD_OLD_INODE_SIZE. case_if; [done|lia]. Qed.

Lemma get_csum_big : ext4_inode_get_csum m sb ino =
  fget ino_checksum_lo m ino .| u32 (fget ino_checksum_hi m ino .<< 16).
Proof. unfold ext4_inode_get_csum, EXT4_GOOD_OLD_INODE_SIZE. case_if; [done|lia]. Qed.

Lemma set_csum_frame c x : ~ in_csum ino x -> ext4_inode_set_csum m sb ino c x = m x.
Proof. intros Hx. rewrite set_csum_big, !fset_other; try done; cbn; unfold in_csum in Hx; lia. Qed.

Lemma set_csum_sb c f : 0 <= f_off f -> 0 <= f_len f -> f_off f + f_len f <= 1024 ->
  fget f (ext4_inode_set_csum m sb ino c) sb = fget f m sb.
Proof.
  intros. rewrite set_csum_big. rewrite !sb_get_fset by (done || fld || apply ino_apart_132). done.
Qed.

Lemma halves_join lo hi : 0 <= lo < 2 ^ 16 -> 0 <= hi < 2 ^ 16 -> lo .| u32 (hi .<< 16) = hi * 2 ^ 16 + lo.
Proof.
  intros Hl Hh. rewrite shiftl_pow2, uw_small by (pow2; lia). rewrite Z.lor_comm. by apply lor_add_disjoint.
Qed.

(** A byte of the checksum fields is a byte of the checksum. *)
Lemma get_csum_st8_in a v : in_csum ino a -> u8 v <> ld8 m a ->
  ext4_inode_get_csum (st8 m a v) sb ino <> ext4_inode_get_csum m sb ino.
Proof.
  intros Ha Hv. pose proof ino_apart_132 as Hap'. unfold in_csum in Ha. unfold ino_apart in Hap'.
  unfold ext4_inode_get_csum, EXT4_GOOD_OLD_INODE_SIZE.
  rewrite fget_st8_out by (cbn; lia). case_if; [|lia].
  pose proof (fget_range ino_checksum_lo m ino) as L1. pose proof (fget_range ino_checksum_lo (st8 m a v) ino) as L2.
  pose proof (fget_range ino_checksum_hi m ino) as H1. pose proof (fget_range ino_checksum_hi (st8 m a v) ino) as H2.
  change (2 ^ _) with (2 ^ 16) in L1, L2, H1, H2.
  rewrite !halves_join by done. destruct Ha as [Ha|Ha].
  - assert (fget ino_checksum_lo (st8 m a v) ino <> fget ino_checksum_lo m ino) by (apply fget_st8_in; cbn; (done || lia)).
    rewrite (fget_st8_out ino_checksum_hi) by (cbn; lia). lia.
  - assert (fget ino_checksum_hi (st8 m a v) ino <> fget ino_checksum_hi m ino) by (apply fget_st8_in; cbn; (done || lia)).
    rewrite (fget_st8_out ino_checksum_lo) by (cbn; lia). lia.
Qed.

Lemma get_set_csum c : 0 <= c < 2 ^ 32 ->
  ext4_inode_get_csum (ext4_inode_set_csum m sb ino c) sb ino = c.
Proof.
  intros Hc. unfold ext4_inode_get_csum. rewrite set_csum_sb by fld.
  unfold EXT4_GOOD_OLD_INODE_SIZE. case_if; [|lia]. rewrite set_csum_big.
  change (u32 (c .<< 16)) with (uw (2 * 16) (c .<< 16)). rewrite cut_half by lia.
  pose proof (uw_range 16 c ltac:(lia)).
  assert (0 <= c .>> 16 < 2 ^ 16).
  { rewrite shiftr_pow2 by lia. split; [apply Z.div_pos; lia|apply Z.div_lt_upper_bound; pow2; lia]. }
  rewrite fget_fset_same, fget_fset_other, fget_fset_same by (done || fld).
  rewrite halves_join, shiftr_pow2 by (done || lia). apply split_word. lia.
Qed.

(** The seed of the checksum: uuid, inode number and generation. *)
Definition csum_seed (gen : Z) : Z :=
  ext4_crc32c (local32 gen)
    (ext4_crc32c (local32 index) (ext4_crc32c m EXT4_CRC32_INIT (sb + f_off sb_uuid) 16) 0 4) 0 4.

Lemma csum_seed_range gen : 0 <= csum_seed gen < 2 ^ 32.
Proof. do 3 apply ext4_crc32c_range. apply crc_init_range. Qed.

Lemma inode_checksum_eq :
  ext4_sb_feature_ro_com m sb EXT4_FRO_COM_METADATA_CSUM = true ->
  (ext4_fs_inode_checksum m sb index ino).2 =
  ext4_crc32c (ext4_inode_set_csum m sb ino 0) (csum_seed (fget ino_generation m ino)) ino (fget sb_inode_size m sb).
Proof.
  intros Hon. unfold ext4_fs_inode_checksum. rewrite Hon. cbn [snd].
  unfold EXT4_GOOD_OLD_INODE_SIZE. case_if; [lia|]. f_equal. unfold csum_seed, ext4_inode_get_generation.
  do 2 f_equal. apply ext4_crc32c_ext. intros x Hx. apply set_csum_frame.
  pose proof ino_apart_132. unfold in_csum, ino_apart in *. cbn in Hx. lia.
Qed.

Lemma inode_checksum_range :
  ext4_sb_feature_ro_com m sb EXT4_FRO_COM_METADATA_CSUM = true ->
  0 <= (ext4_fs_inode_checksum m sb index ino).2 < 2 ^ 32.
Proof. intros Hon. rewrite inode_checksum_eq by done. apply ext4_crc32c_range, csum_seed_range. Qed.

Lemma inode_checksum_pure x : ~ in_csum ino x -> (ext4_fs_inode_checksum m sb index ino).1 x = m x.
Proof.
  intros Hx. unfold ext4_fs_inode_checksum. case_if; [|done]. cbn [fst].
  unfold ext4_inode_set_csum at 1. rewrite set_csum_sb by fld.
  unfold EXT4_GOOD_OLD_INODE_SIZE. case_if; [|lia]. unfold in_csum in Hx.
  rewrite !fset_other by (cbn; lia). by apply set_csum_frame.
Qed.
End csum.

Section csum_change.
Context (m m' : memory) (sb ino index : Z).
Hypothesis (Hsize : 132 <= fget sb_inode_size m sb) (Hap : ino_apart (fget sb_inode_size m sb) ino sb).
Hypothesis (Hon : ext4_sb_feature_ro_com m sb EXT4_FRO_COM_METADATA_CSUM = true).

(** Outside the checksum fields only [a] may differ, and not in the generation. *)
Context (a : Z).
Hypothesis (Ha : ino <= a < ino + fget sb_inode_size m sb) (Hgen : a < ino + 100 \/ ino + 104 <= a).
Hypothesis (Hsame : forall x, ~ in_csum ino x -> x <> a -> m' x = m x).

Lemma change_sb f : 0 <= f_off f -> 0 <= f_len f -> f_off f + f_len f <= 1024 -> fget f m' sb = fget f m sb.
Proof.
  intros. apply ldn_ext. intros x Hx. apply Hsame; unfold in_csum, ino_apart in *; lia.
Qed.

Lemma change_on : ext4_sb_feature_ro_com m' sb EXT4_FRO_COM_METADATA_CSUM = true.
Proof. rewrite <- Hon. apply ro_com_ext, change_sb; fld. Qed.

Lemma change_checksum :
  (ext4_fs_inode_checksum m' sb index ino).2 =
  ext4_crc32c (ext4_inode_set_csum m' sb ino 0) (csum_seed m sb index (fget ino_generation m ino)) ino
    (fget sb_inode_size m sb).
Proof.
  rewrite inode_checksum_eq; [|rewrite change_sb by fld; (done || lia)..|apply change_on].
  rewrite (change_sb sb_inode_size) by fld.
  assert (fget ino_generation m' ino = fget ino_generation m ino) as ->.
  { apply ldn_ext. intros x Hx. cbn in Hx. apply Hsame; unfold in_csum; lia. }
  f_equal. unfold csum_seed. do 2 f_equal. apply ext4_crc32c_ext. intros x Hx. cbn in Hx.
  apply Hsame; unfold in_csum, ino_apart in *; lia.
Qed.

(** The zeroed copies agree except at [a]. *)
Lemma change_zeroed x : x <> a -> ext4_inode_set_csum m' sb ino 0 x = ext4_inode_set_csum m sb ino 0 x.
Proof.
  intros Hx. rewrite (set_csum_big m), (set_csum_big m') by (rewrite ?change_sb by fld; lia).
  unfold fset. change (Z.to_nat _) with 2%nat. cbn [stn f_off ino_checksum_lo ino_checksum_hi].
  unfold st8. repeat case_if; try done. apply Hsame; unfold in_csum; lia.
Qed.
End csum_change.

Section csum_set.
Context (m : memory) (sb ino index : Z).
Hypothesis (Hsize : 132 <= fget sb_inode_size m sb) (Hap : ino_apart (fget sb_inode_size m sb) ino sb).
Hypothesis (Hon : ext4_sb_feature_ro_com m sb EXT4_FRO_COM_METADATA_CSUM = true).
Let m1 := ext4_fs_set_inode_checksum m sb index ino.
Let c := (ext4_fs_inode_checksum m sb index ino).2.

Lemma checksum_mem_sb f : 0 <= f_off f -> 0 <= f_len f -> f_off f + f_len f <= 1024 ->
  fget f (ext4_fs_inode_checksum m sb index ino).1 sb = fget f m sb.
Proof.
  intros. apply ldn_ext. intros x Hx. apply inode_checksum_pure; [done..|].
  unfold in_csum, ino_apart in *. lia.
Qed.

Lemma set_checksum_eq : m1 = ext4_inode_set_csum (ext4_fs_inode_checksum m sb index ino).1 sb ino c.
Proof.
  unfold m1, ext4_fs_set_inode_checksum, c. rewrite Hon. cbn [negb].
  by destruct (ext4_fs_inode_checksum m sb index ino).
Qed.

Lemma set_checksum_frame x : ~ in_csum ino x -> m1 x = m x.
Proof.
  intros Hx. rewrite set_checksum_eq, set_csum_frame; [by apply inode_checksum_pure|
    rewrite checksum_mem_sb by fld; done..|done].
Qed.

Lemma set_checksum_stored : ext4_inode_get_csum m1 sb ino = c.
Proof.
  rewrite set_checksum_eq. apply get_set_csum; [rewrite checksum_mem_sb by fld; done..|].
  by apply inode_checksum_range.
Qed.

(** Recomputed on a copy that differs from [m] outside the checksum at most at [a]. *)
Lemma recompute_same m' : (forall x, ~ in_csum ino x -> m' x = m x) ->
  (ext4_fs_inode_checksum m' sb index ino).2 = c.
Proof.
  intros H. unfold c. rewrite (change_checksum m m' sb ino index Hsize Hap Hon ino) by (done || lia || auto).
  rewrite inode_checksum_eq by done. apply ext4_crc32c_ext. intros x _.
  destruct (decide (x = ino)) as [->|].
  - apply (change_zeroed m m' sb ino Hsize Hap (ino + 1)); (lia || auto).
  - apply (change_zeroed m m' sb ino Hsize Hap ino); (lia || auto).
Qed.

Lemma recompute_changed m' a : ino <= a < ino + fget sb_inode_size m sb -> a < ino + 100 \/ ino + 104 <= a ->
  ~ in_csum ino a -> (forall x, ~ in_csum ino x -> x <> a -> m' x = m x) -> ld8 m' a <> ld8 m a ->
  (ext4_fs_inode_checksum m' sb index ino).2 <> c.
Proof.
  intros Ha Hg Hin H Hd. unfold c.
  assert (132 <= fget sb_inode_size m' sb) as Hs'.
  { rewrite (change_sb m m' sb ino Hsize Hap a Ha Hg H) by fld. exact Hsize. }
  rewrite (change_checksum m m' sb ino index Hsize Hap Hon a), (inode_checksum_eq m) by (done || lia).
  rewrite (crc32c_ld8 (st8 (ext4_inode_set_csum m sb ino 0) a (ld8 m' a)) (ext4_inode_set_csum m' sb ino 0)).
  - apply ext4_crc32c_detects; [apply csum_seed_range|exact Ha|].
    unfold ld8. rewrite (set_csum_frame m sb ino Hsize 0 a Hin), uw_uw by lia. exact Hd.
  - intros x. destruct (decide (x = a)) as [->|Hx].
    + rewrite ld8_st8_same. unfold ld8. rewrite (set_csum_frame m' sb ino Hs' 0 a Hin). symmetry. apply uw_uw. lia.
    + rewrite ld8_st8_other by exact Hx. unfold ld8.
      rewrite (change_zeroed m m' sb ino Hsize Hap a Ha Hg H x Hx). reflexivity.
Qed.

Lemma verify_set_checksum : (ext4_fs_verify_inode_csum m1 sb index ino).2 = true.
Proof.
  pose proof (recompute_same m1 set_checksum_frame) as Hc. pose proof set_checksum_stored as Hs.
  assert (ext4_sb_feature_ro_com m1 sb EXT4_FRO_COM_METADATA_CSUM = true) as Hon1.
  { rewrite <- Hon. apply ro_com_ext, ldn_ext. intros x Hx. apply set_checksum_frame.
    cbn in Hx. unfold in_csum, ino_apart in *. lia. }
  unfold ext4_fs_verify_inode_csum. rewrite Hon1, Hs. cbn [negb].
  destruct (ext4_fs_inode_checksum m1 sb index ino) as [m2 c2]. cbn [snd] in *. by apply Z.eqb_eq.
Qed.

Lemma verify_changed a v : ino <= a < ino + fget sb_inode_size m sb -> a < ino + 100 \/ ino + 104 <= a ->
  u8 v <> ld8 m1 a -> (ext4_fs_verify_inode_csum (st8 m1 a v) sb index ino).2 = false.
Proof.
  intros Ha Hg Hv. set (m2 := st8 m1 a v).
  assert (forall x, x <> a -> m2 x = m1 x) as H21 by (intros x Hx; unfold m2, st8; case_if; [lia|reflexivity]).
  assert (forall x, ~ in_csum ino x -> x <> a -> m2 x = m x) as H2.
  { intros x Hx Hxa. rewrite H21 by exact Hxa. by apply set_checksum_frame. }
  assert (ext4_sb_feature_ro_com m2 sb EXT4_FRO_COM_METADATA_CSUM = true) as Hon2
    by exact (change_on m m2 sb ino Hsize Hap Hon a Ha Hg H2).
  assert (forall f, 0 <= f_off f -> 0 <= f_len f -> f_off f + f_len f <= 1024 -> fget f m1 sb = fget f m sb) as Hsb.
  { intros f F0 F1 F2. apply ldn_ext. intros x Hx. apply set_checksum_frame. unfold in_csum, ino_apart in *. lia. }
  assert (132 <= fget sb_inode_size m1 sb) as Hs1 by (rewrite Hsb by fld; exact Hsize).
  assert (ino_apart (fget sb_inode_size m1 sb) ino sb) as Hap1 by (rewrite Hsb by fld; exact Hap).
  assert (ext4_inode_get_csum m2 sb ino <> (ext4_fs_inode_checksum m2 sb index ino).2) as Hne.
  { destruct (decide (in_csum ino a)) as [Hin|Hin].
    - rewrite (recompute_same m2), <- set_checksum_stored.
      + by apply get_csum_st8_in.
      + intros x Hx. apply H2; [exact Hx|]. intros ->. contradiction.
    - assert (ext4_inode_get_csum m2 sb ino = c) as ->.
      { rewrite <- set_checksum_stored. unfold ext4_inode_get_csum.
        pose proof Hap as Hap2. unfold in_csum in Hin. unfold ino_apart in Hap2. unfold m2. rewrite !fget_st8_out by (cbn; lia). reflexivity. }
      apply not_eq_sym, (recompute_changed m2 a Ha Hg Hin H2).
      unfold m2. rewrite ld8_st8_same. unfold ld8 in Hv |- *. rewrite set_checksum_frame in Hv by exact Hin. exact Hv. }
  unfold ext4_fs_verify_inode_csum. rewrite Hon2. cbn [negb].
  destruct (ext4_fs_inode_checksum m2 sb index ino) as [m3 c3]. cbn [snd] in *. by apply Z.eqb_neq.
Qed.
End csum_set.

(** A superblock at 0 (4 KiB blocks, 256-byte inodes, revision 1, checksums and
    huge files on) and a regular file at 2048. *)
Definition sample_ino : memory :=
  let w f v m := fset f m 0 v in
  fset ino_mode
    (w sb_rev_level 1 (w sb_inode_size 256 (w sb_log_block_size 2 (w sb_features_read_only 0x408 (fun _ => 0)))))
    2048 0x81A4.

(** ** Theorems *)

(** Mode and size: the type of an inode is the type set in its mode, and
    the size reads back in full for a regular file of a revision 1 file system
    and modulo [2^32] otherwise. *)
Theorem inode_mode_size m sb ino mode size :
  ino_apart 132 ino sb -> 0 <= mode < 2 ^ 16 -> 0 <= size < 2 ^ 64 ->
  ext4_inode_type (ext4_inode_set_mode m sb ino mode) sb ino = mode .& EXT4_INODE_MODE_TYPE_MASK /\
  ext4_inode_get_size (ext4_inode_set_size m ino size) sb ino =
    (if (0 <? fget sb_rev_level m sb) && ext4_inode_is_type m sb ino EXT4_INODE_MODE_FILE
     then size else u32 size).
Proof.
  intros Hap Hm Hs. split.
  - unfold ext4_inode_type, ext4_inode_get_mode, ext4_inode_set_mode.
    change (u32 (mode .<< 16)) with (uw (2 * 16) (mode .<< 16)). rewrite cut_half, (uw_small 16 mode) by lia.
    rewrite sb_get_fset by (done || fld).
    destruct (fget sb_creator_os m sb =? EXT4_SUPERBLOCK_OS_HURD) eqn:Hos; rewrite ?sb_get_fset, Hos by (done || fld).
    + assert (mode .>> 16 = 0) as -> by (rewrite shiftr_pow2 by lia; apply Z.div_small; lia).
      rewrite (fget_fset_other ino_mode), !fget_fset_same by (done || fld).
      change (u32 (0 .<< 16)) with 0. by rewrite Z.lor_0_r.
    + by rewrite fget_fset_same by (done || fld).
  - unfold ext4_inode_get_size, ext4_inode_set_size, ext4_inode_is_type, ext4_inode_type, ext4_inode_get_mode.
    rewrite !sb_get_fset by (done || fld). rewrite !(fget_fset_other ino_mode) by fld.
    rewrite !(fget_fset_other ino_mode_high) by fld. rewrite cut_lo by lia.
    pose proof (hi_range size Hs). pose proof (uw_range 32 size ltac:(lia)).
    rewrite (fget_fset_other ino_size_lo), !fget_fset_same by (done || fld).
    case_if; [|done]. rewrite Z.lor_comm. by apply join_word.
Qed.

Lemma inode_mode_size_witness :
  ext4_inode_get_size (ext4_inode_set_size sample_ino 2048 (2 ^ 33 + 7)) 0 2048 = 2 ^ 33 + 7 /\
  ext4_inode_type (ext4_inode_set_mode sample_ino 0 2048 0x41ED) 0 2048 = EXT4_INODE_MODE_DIRECTORY.
Proof.
  destruct (inode_mode_size sample_ino 0 2048 0x41ED (2 ^ 33 + 7)) as [H1 H2];
    [right; discriminate|split; [discriminate|reflexivity]..|].
  split; [etransitivity; [exact H2|vm_compute; reflexivity]|etransitivity; [exact H1|reflexivity]].
Defined.

(** Block counts of inodes: a count below [2^32], or below [2^48] with the
    huge-file feature, reads back exactly; a larger one is stored in file
    system blocks and reads back rounded down to whole blocks; without the
    feature a count from [2^32] on is refused and nothing changes. *)
Theorem inode_blocks_count m sb ino count :
  let l := fget sb_log_block_size m sb in
  let huge := ext4_sb_feature_ro_com m sb EXT4_FRO_COM_HUGE_FILE in
  let '(m', rc) := ext4_inode_set_blocks_count m sb ino count in
  ino_apart 132 ino sb -> l <= 6 -> 0 <= count < 2 ^ (49 + l) ->
  (huge = false -> 2 ^ 32 <= count -> m' = m /\ rc = EINVAL) /\
  (huge = true \/ count < 2 ^ 32 ->
   rc = EOK /\
   ext4_inode_get_blocks_count m' sb ino =
     if count <? 2 ^ 48 then count else count - count mod 2 ^ (l + 1)).
Proof.
  intros l huge. destruct (ext4_inode_set_blocks_count m sb ino count) as [m' rc] eqn:E.
  intros Hap Hl Hc. split.
  - intros Hh H32. unfold huge in Hh. unfold ext4_inode_set_blocks_count in E.
    change (u64 (Z.lnot 0) .>> 32) with (2 ^ 32 - 1) in E. rewrite Hh in E. cbn [negb] in E.
    case_if_in E; [lia|]. by simplify_eq.
  - intros Hh. case_if.
    + pose proof (blocks_count_small m sb ino count Hap) as [H1 H2]; [|by rewrite E in H1, H2].
      destruct Hh as [Hh|Hh]; [right; split; [exact Hh|lia]|left; lia].
    + assert (huge = true) as Hh' by (destruct Hh as [Hh|Hh]; [exact Hh|lia]).
      pose proof (blocks_count_huge m sb ino count Hap Hl Hh' ltac:(unfold l in Hc; lia)) as [H1 H2].
      by rewrite E in H1, H2.
Qed.

Lemma inode_blocks_count_witness :
  ext4_inode_get_blocks_count (ext4_inode_set_blocks_count sample_ino 0 2048 (2 ^ 48 + 13)).1 0 2048 = 2 ^ 48 + 8.
Proof.
  pose proof (inode_blocks_count sample_ino 0 2048 (2 ^ 48 + 13)) as H. cbv zeta in H.
  destruct (ext4_inode_set_blocks_count sample_ino 0 2048 (2 ^ 48 + 13)) as [m' rc] eqn:E. cbn [fst].
  destruct H as [_ H].
  - right. discriminate.
  - vm_compute. discriminate.
  - vm_compute. split; [discriminate|reflexivity].
  - destruct H as [_ H]; [left; vm_compute; reflexivity|]. etransitivity; [exact H|vm_compute; reflexivity].
Defined.

(** C12. Inode checksums: with checksums on and inodes of more than 128 bytes,
    an inode verifies after its checksum is set, the bytes outside the checksum
    fields are unchanged, and any later change of one byte of the inode other
    than its generation is detected. *)
Theorem inode_csum_protects m sb ino index :
  132 <= fget sb_inode_size m sb -> ino_apart (fget sb_inode_size m sb) ino sb ->
  ext4_sb_feature_ro_com m sb EXT4_FRO_COM_METADATA_CSUM = true ->
  let m' := ext4_fs_set_inode_checksum m sb index ino in
  (ext4_fs_verify_inode_csum m' sb index ino).2 = true /\
  (forall x, ~ in_csum ino x -> m' x = m x) /\
  (forall a v, ino <= a < ino + fget sb_inode_size m sb -> a < ino + 100 \/ ino + 104 <= a ->
     u8 v <> ld8 m' a -> (ext4_fs_verify_inode_csum (st8 m' a v) sb index ino).2 = false).
Proof.
  intros Hs Hap Hon m'. split; [by apply verify_set_checksum|].
  split; [intros x; by apply set_checksum_frame|intros a v; by apply verify_changed].
Qed.

Lemma inode_csum_protects_witness :
  let m := ext4_fs_set_inode_checksum sample_ino 0 12 2048 in
  (ext4_fs_verify_inode_csum m 0 12 2048).2 = true /\
  (ext4_fs_verify_inode_csum (st8 m 2049 1) 0 12 2048).2 = false.
Proof.
  destruct (inode_csum_protects sample_ino 0 2048 12) as (H1 & _ & H3).
  - vm_compute. discriminate.
  - right. discriminate.
  - vm_compute. reflexivity.
  - split; [exact H1|]. apply H3; [|left; reflexivity|vm_compute; discriminate].
    vm_compute. split; [discriminate|reflexivity].
Defined.

(** The file ACL address does not survive: [ext4_inode_set_file_acl] stores
    bits 32 to 47 in [file_acl_high], but the getter reads them back 16 bits too
    low, into bits 16 to 31 of the address. *)
Theorem inode_file_acl_mismatch m sb ino lo hi :
  ino_apart 132 ino sb -> fget sb_creator_os m sb = EXT4_SUPERBLOCK_OS_LINUX ->
  0 <= lo < 2 ^ 16 -> 0 < hi < 2 ^ 16 ->
  ext4_inode_get_file_acl (ext4_inode_set_file_acl m ino sb (hi * 2 ^ 32 + lo)) ino sb = hi * 2 ^ 16 + lo.
Proof.
  intros Hap Hos Hlo Hhi. unfold ext4_inode_get_file_acl, ext4_inode_set_file_acl.
  rewrite cut_lo by lia.
  assert (u32 (hi * 2 ^ 32 + lo) = lo) as ->.
  { unfold uw. rewrite Z.add_comm, Z.mod_add by lia. apply Z.mod_small. pow2; lia. }
  assert ((hi * 2 ^ 32 + lo) .>> 32 = hi) as ->.
  { rewrite shiftr_pow2 by lia. rewrite Z.add_comm, Z.div_add, Z.div_small by (pow2; lia). lia. }
  rewrite (uw_small 16 hi) by lia. rewrite sb_get_fset, Hos by (done || fld). cbn [Z.eqb].
  change (EXT4_SUPERBLOCK_OS_LINUX =? EXT4_SUPERBLOCK_OS_LINUX) with true. cbn iota.
  rewrite !sb_get_fset, Hos by (done || fld).
  change (EXT4_SUPERBLOCK_OS_LINUX =? EXT4_SUPERBLOCK_OS_LINUX) with true. cbn iota.
  rewrite (fget_fset_other ino_file_acl_lo), !fget_fset_same by (fld || (cbn; pow2; lia)).
  apply halves_join; lia.
Qed.

Lemma inode_file_acl_mismatch_witness :
  ext4_inode_get_file_acl (ext4_inode_set_file_acl sample_ino 2048 0 (1 * 2 ^ 32 + 5)) 2048 0 = 1 * 2 ^ 16 + 5.
Proof.
  apply (inode_file_acl_mismatch sample_ino 0 2048 5 1);
    [right; discriminate|vm_compute; reflexivity|split; [discriminate|reflexivity]|split; reflexivity].
Defined.

(** Device numbers: on an inode without device, a number reads back as it
    was set; but once a small number is there, setting one above 16 bits leaves
    the old one in place, and the getter still returns the old one. *)
Theorem inode_dev_stale m ino dev dev' :
  0 <= dev < 2 ^ 32 -> 2 ^ 16 <= dev' < 2 ^ 32 ->
  (ext4_inode_get_direct_block m ino 0 = 0 -> ext4_inode_get_dev (ext4_inode_set_dev m ino dev) ino = dev \/ dev = 0) /\
  (0 < dev < 2 ^ 16 -> ext4_inode_get_dev (ext4_inode_set_dev (ext4_inode_set_dev m ino dev) ino dev') ino = dev).
Proof.
  intros Hd Hd'. assert (forall d, 0 <= d < 2 ^ 32 -> c_true (d .& u32 (Z.lnot 0xFFFF)) = (2 ^ 16 <=? d)) as Hhi.
  { intros d Hr. change (u32 (Z.lnot 0xFFFF)) with (Z.ldiff (Z.ones 32) (Z.ones 16)).
    assert (d .& Z.ldiff (Z.ones 32) (Z.ones 16) = Z.ldiff d (Z.ones 16)) as ->.
    { apply Z.bits_inj'. intros i Hi. rewrite Z.land_spec, !Z.ldiff_spec.
      destruct (decide (i < 32)); [rewrite Z.ones_spec_low by lia; done|].
      rewrite (Z_testbit_high 32 d i) by lia. done. }
    rewrite Z.ldiff_ones_r, shiftr_pow2, shiftl_pow2 by lia. unfold c_true.
    pose proof (Z.div_mod d (2 ^ 16) ltac:(lia)). pose proof (Z.mod_pos_bound d (2 ^ 16) ltac:(lia)).
    pose proof (Z.div_pos d (2 ^ 16)). destruct (Z.leb_spec (2 ^ 16) d); [|rewrite Z.div_small by lia; done].
    apply negb_true_iff, Z.eqb_neq. lia. }
  assert (f_disjoint (ino_block 0) (ino_block 1)) as D by (unfold f_disjoint; cbn; lia).
  assert (f_disjoint (ino_block 1) (ino_block 0)) as D' by (unfold f_disjoint; cbn; lia).
  unfold ext4_inode_get_dev, ext4_inode_set_dev, ext4_inode_get_direct_block, ext4_inode_set_direct_block.
  rewrite !Hhi by lia. split; [intros H0|intros Hsmall].
  - destruct (Z.leb_spec (2 ^ 16) dev).
    + rewrite (fget_fset_other (ino_block 0)), H0 by (done || fld). cbn [c_true Z.eqb negb].
      rewrite fget_fset_same by (done || fld). by left.
    + rewrite fget_fset_same by (done || fld). unfold c_true. case_if; [by left|by right].
  - rewrite (proj2 (Z.leb_gt (2 ^ 16) dev)), (proj2 (Z.leb_le (2 ^ 16) dev')) by lia.
    rewrite (fget_fset_other (ino_block 0)), fget_fset_same by (done || fld). unfold c_true. case_if; [done|lia].
Qed.

Lemma inode_dev_stale_witness :
  ext4_inode_get_dev (ext4_inode_set_dev (ext4_inode_set_dev sample_ino 2048 0x801) 2048 0x10000) 2048 = 0x801.
Proof.
  apply (inode_dev_stale sample_ino 2048 0x801 0x10000);
    [split; [discriminate|reflexivity]|split; [discriminate|reflexivity]|split; reflexivity].
Defined.
