(* ===== verification/Ext4Dir.v ===== *)
(** lwext4, linear directory blocks: the entry accessors of
    [include/ext4_dir.h] and the part of [src/ext4_dir.c] that works on one
    block in memory: its checksum tail, writing, inserting, finding and removing
    an entry.

    A block is at [data] of the memory that also holds the superblock [sb], the
    inodes and the name of the caller.  [ext4_assert] stops the kernel, which is
    [None] here, and so is a loop that runs out of fuel. *)
From stdpp Require Import strings.
From S2P Require Import Prelude Memory Ext4Errno Ext4Bitmap Ext4Crc Ext4Layout Ext4Super Ext4BlockGroup Ext4Inode.
#[local] Open Scope Z_scope.
#[local] Open Scope cint_scope.

(** ** Model *)

(** [struct ext4_dir_en] without its name, which is [struct ext4_fake_dir_entry]. *)
Definition de_layout : list (string * Z) :=
  [("inode", 4); ("entry_len", 2); ("name_len", 1); ("in", 1)]%string.

(** [struct ext4_dir_entry_tail] *)
Definition tail_layout : list (string * Z) :=
  [("reserved_zero1", 4); ("rec_len", 2); ("reserved_zero2", 1); ("reserved_ft", 1); ("checksum", 4)]%string.

Definition de_inode : field := Eval vm_compute in field_of de_layout "inode".
Definition de_entry_len : field := Eval vm_compute in field_of de_layout "entry_len".
Definition de_name_len : field := Eval vm_compute in field_of de_layout "name_len".
(** The union [in] of [name_length_high] and [inode_type]. *)
Definition de_in : field := Eval vm_compute in field_of de_layout "in".
Definition tail_reserved_zero1 : field := Eval vm_compute in field_of tail_layout "reserved_zero1".
Definition tail_rec_len : field := Eval vm_compute in field_of tail_layout "rec_len".
Definition tail_reserved_zero2 : field := Eval vm_compute in field_of tail_layout "reserved_zero2".
Definition tail_reserved_ft : field := Eval vm_compute in field_of tail_layout "reserved_ft".
Definition tail_checksum : field := Eval vm_compute in field_of tail_layout "checksum".
Definition sb_minor_rev_level : field := Eval vm_compute in field_of sb_layout "minor_rev_level".

Definition sizeof_fake : Z := Eval vm_compute in struct_size de_layout.
Definition sizeof_tail : Z := Eval vm_compute in struct_size tail_layout.

Definition EXT4_DE_UNKNOWN : Z := 0.
Definition EXT4_DE_REG_FILE : Z := 1.
Definition EXT4_DE_DIR : Z := 2.
Definition EXT4_DE_CHRDEV : Z := 3.
Definition EXT4_DE_BLKDEV : Z := 4.
Definition EXT4_DE_FIFO : Z := 5.
Definition EXT4_DE_SOCK : Z := 6.
Definition EXT4_DE_SYMLINK : Z := 7.
Definition EXT4_DIRENTRY_DIR_CSUM : Z := 0xDE.

Definition ext4_dir_en_get_inode (m : memory) (de : Z) : Z := fget de_inode m de.
Definition ext4_dir_en_set_inode (m : memory) (de inode : Z) : memory := fset de_inode m de inode.
Definition ext4_dir_en_get_entry_len (m : memory) (de : Z) : Z := fget de_entry_len m de.
Definition ext4_dir_en_set_entry_len (m : memory) (de l : Z) : memory := fset de_entry_len m de l.

Definition ext4_dir_en_get_name_len (m : memory) (sb de : Z) : Z :=
  let v := fget de_name_len m de in
  if (fget sb_rev_level m sb =? 0) && (fget sb_minor_rev_level m sb <? 5)
  then v .| u16 (fget de_in m de .<< 8) else v.

Definition ext4_dir_en_set_name_len (m : memory) (sb de len : Z) : memory :=
  let m := fset de_name_len m de ((len .<< 8) .>> 8) in
  if (fget sb_rev_level m sb =? 0) && (fget sb_minor_rev_level m sb <? 5)
  then fset de_in m de (len .>> 8) else m.

Definition ext4_dir_en_get_inode_type (m : memory) (sb de : Z) : Z :=
  if (0 <? fget sb_rev_level m sb) || (5 <=? fget sb_minor_rev_level m sb)
  then fget de_in m de else EXT4_DE_UNKNOWN.

Definition ext4_dir_en_set_inode_type (m : memory) (sb de t : Z) : memory :=
  if (0 <? fget sb_rev_level m sb) || (5 <=? fget sb_minor_rev_level m sb)
  then fset de_in m de t else m.

Definition EXT4_DIRENT_TAIL (block blocksize : Z) : Z := block + (blocksize - sizeof_tail).

(** [None] is the null pointer. *)
Definition ext4_dir_get_tail (m : memory) (sb de : Z) : option Z :=
  let t := EXT4_DIRENT_TAIL de (ext4_sb_get_block_size m sb) in
  if c_true (fget tail_reserved_zero1 m t) || c_true (fget tail_reserved_zero2 m t) then None
  else if negb (fget tail_rec_len m t =? sizeof_tail) then None
  else if negb (fget tail_reserved_ft m t =? EXT4_DIRENTRY_DIR_CSUM) then None
  else Some t.

(** The directory is the inode number [index] with its inode at [ino]. *)
Definition ext4_dir_csum (m : memory) (sb index ino dirent size : Z) : Z :=
  let ino_gen := ext4_inode_get_generation m ino in
  let csum := ext4_crc32c m EXT4_CRC32_INIT (sb + f_off sb_uuid) 16 in
  let csum := ext4_crc32c (local32 index) csum 0 4 in
  let csum := ext4_crc32c (local32 ino_gen) csum 0 4 in
  ext4_crc32c m csum dirent size.

Definition ext4_dir_csum_verify (m : memory) (sb index ino dirent : Z) : bool :=
  if ext4_sb_feature_ro_com m sb EXT4_FRO_COM_METADATA_CSUM then
    match ext4_dir_get_tail m sb dirent with
    | None => false
    | Some t => fget tail_checksum m t =? ext4_dir_csum m sb index ino dirent (t - dirent)
    end
  else true.

Definition ext4_dir_init_entry_tail (m : memory) (t : Z) : memory :=
  let m := memset m t 0 sizeof_tail in
  let m := fset tail_rec_len m t sizeof_tail in
  fset tail_reserved_ft m t EXT4_DIRENTRY_DIR_CSUM.

Definition ext4_dir_set_csum (m : memory) (sb index ino dirent : Z) : memory :=
  if ext4_sb_feature_ro_com m sb EXT4_FRO_COM_METADATA_CSUM then
    match ext4_dir_get_tail m sb dirent with
    | None => m
    | Some t => fset tail_checksum m t (ext4_dir_csum m sb index ino dirent (t - dirent))
    end
  else m.

(** The [switch] of [ext4_dir_write_entry]. *)
Definition de_type_of (type : Z) : Z :=
  if type =? EXT4_INODE_MODE_DIRECTORY then EXT4_DE_DIR
  else if type =? EXT4_INODE_MODE_FILE then EXT4_DE_REG_FILE
  else if type =? EXT4_INODE_MODE_SOFTLINK then EXT4_DE_SYMLINK
  else if type =? EXT4_INODE_MODE_CHARDEV then EXT4_DE_CHRDEV
  else if type =? EXT4_INODE_MODE_BLOCKDEV then EXT4_DE_BLKDEV
  else if type =? EXT4_INODE_MODE_FIFO then EXT4_DE_FIFO
  else if type =? EXT4_INODE_MODE_SOCKET then EXT4_DE_SOCK
  else EXT4_DE_UNKNOWN.

(** The child is the inode number [cindex] with its inode at [child]. *)
Definition ext4_dir_write_entry (m : memory) (sb en entry_len cindex child name name_len : Z) : option memory :=
  if negb (entry_len <=? ext4_sb_get_block_size m sb) then None
  else
    let m := ext4_dir_en_set_inode_type m sb en (de_type_of (ext4_inode_type m sb child)) in
    let m := ext4_dir_en_set_inode m en cindex in
    let m := ext4_dir_en_set_entry_len m en entry_len in
    let m := ext4_dir_en_set_name_len m sb en (u16 name_len) in
    Some (memcpy m (en + sizeof_fake) name name_len).

(** The loop of [ext4_dir_try_insert_entry]: the status and the memory.  The
    block is marked dirty exactly when the status is [EOK]. *)
Fixpoint insert_loop (fuel : nat) (m : memory) (sb index ino data cindex child name name_len required_len start stop : Z)
    : option (Z * memory) :=
  match fuel with
  | O => None
  | S fuel =>
      if negb (start <? stop) then Some (ENOSPC, m)
      else
        let inode := ext4_dir_en_get_inode m start in
        let rec_len := ext4_dir_en_get_entry_len m start in
        let itype := ext4_dir_en_get_inode_type m sb start in
        if (inode =? 0) && negb (itype =? EXT4_DIRENTRY_DIR_CSUM) && (required_len <=? rec_len) then
          m ← ext4_dir_write_entry m sb start rec_len cindex child name name_len;
          Some (EOK, ext4_dir_set_csum m sb index ino data)
        else
          let used_len := ext4_dir_en_get_name_len m sb start in
          let sz := u16 (sizeof_fake + used_len) in
          let sz := if negb (used_len mod 4 =? 0) then u16 (sz + (4 - used_len mod 4)) else sz in
          let free_space := u16 (rec_len - sz) in
          if negb (inode =? 0) && (required_len <=? free_space) then
            let new_entry := start + sz in
            let m := ext4_dir_en_set_entry_len m start sz in
            m ← ext4_dir_write_entry m sb new_entry free_space cindex child name name_len;
            Some (EOK, ext4_dir_set_csum m sb index ino data)
          else insert_loop fuel m sb index ino data cindex child name name_len required_len (start + rec_len) stop
  end.

Definition ext4_dir_try_insert_entry (fuel : nat) (m : memory) (sb index ino data cindex child name name_len : Z)
    : option (Z * memory) :=
  let block_size := ext4_sb_get_block_size m sb in
  let required_len := u16 (sizeof_fake + name_len) in
  let required_len :=
    if negb (required_len mod 4 =? 0) then u16 (required_len + (4 - required_len mod 4)) else required_len in
  insert_loop fuel m sb index ino data cindex child name name_len required_len data (data + block_size).

(** The difference of the first two bytes that differ. *)
Fixpoint memcmp (n : nat) (m : memory) (p q : Z) : Z :=
  match n with
  | O => 0
  | S n => if ld8 m p =? ld8 m q then memcmp n m (p + 1) (q + 1) else ld8 m p - ld8 m q
  end.

(** The status and, with [EOK], the entry found. *)
Fixpoint find_loop (fuel : nat) (m : memory) (sb name_len name de addr_limit : Z) : option (Z * Z) :=
  match fuel with
  | O => None
  | S fuel =>
      if negb (de <? addr_limit) then Some (ENOENT, 0)
      else if addr_limit <? de + name_len then Some (ENOENT, 0)
      else if negb (ext4_dir_en_get_inode m de =? 0) && (ext4_dir_en_get_name_len m sb de =? name_len)
              && (memcmp (Z.to_nat name_len) m name (de + sizeof_fake) =? 0)
      then Some (EOK, de)
      else
        let de_len := ext4_dir_en_get_entry_len m de in
        if de_len =? 0 then Some (EINVAL, 0)
        else find_loop fuel m sb name_len name (de + de_len) addr_limit
  end.

Definition ext4_dir_find_in_block (fuel : nat) (m : memory) (data sb name_len name : Z) : option (Z * Z) :=
  find_loop fuel m sb name_len name data (data + ext4_sb_get_block_size m sb).

(** The direct predecessor of the entry at [pos]: its offset. *)
Fixpoint predecessor_loop (fuel : nat) (m : memory) (data pos offset de_len : Z) : option (Z * Z) :=
  match fuel with
  | O => None
  | S fuel =>
      if u32 (offset + de_len) <? pos then
        let offset := u32 (offset + de_len) in
        predecessor_loop fuel m data pos offset (ext4_dir_en_get_entry_len m (data + offset))
      else Some (offset, de_len)
  end.

(** [ext4_dir_remove_entry] from the entry found to the dirty block. *)
Definition remove_found (fuel : nat) (m : memory) (sb index ino data dentry : Z) : option memory :=
  let m := ext4_dir_en_set_inode m dentry 0 in
  let pos := u32 (dentry - data) in
  m ← (if negb (pos =? 0) then
         '(offset, de_len) ← predecessor_loop fuel m data pos 0 (ext4_dir_en_get_entry_len m data);
         if negb (u32 (de_len + offset) =? pos) then None
         else
           let del_len := ext4_dir_en_get_entry_len m dentry in
           Some (ext4_dir_en_set_entry_len m (data + offset) (u16 (de_len + del_len)))
       else Some m);
  Some (ext4_dir_set_csum m sb index ino data).

(** The check of an iterator at [curr_off] whose block is at [data]: the status
    and [it->curr]. *)
Definition ext4_dir_iterator_set (m : memory) (sb data curr_off block_size : Z) : Z * option Z :=
  let off_in_block := curr_off mod block_size in
  if negb (off_in_block mod 4 =? 0) then (EIO, None)
  else if u32 (block_size - 8) <? off_in_block then (EIO, None)
  else
    let en := data + off_in_block in
    let length := ext4_dir_en_get_entry_len m en in
    if block_size <? u32 (off_in_block + length) then (EIO, None)
    else if length - 8 <? ext4_dir_en_get_name_len m sb en then (EIO, None)
    else (EOK, Some en).

(** ** Blocks as lists of entries *)

(** A record of the block: its offset and length, the inode number (0 when the
    record is free), the name and the type. *)
Record dent := Dent { d_off : Z; d_len : Z; d_ino : Z; d_name : list Z; d_type : Z }.

Definition holds (m : memory) (sb data : Z) (d : dent) : Prop :=
  let de := data + d_off d in
  ext4_dir_en_get_inode m de = d_ino d /\ ext4_dir_en_get_entry_len m de = d_len d /\
  ext4_dir_en_get_inode_type m sb de = d_type d /\
  (d_ino d <> 0 -> sizeof_fake + Z.of_nat (length (d_name d)) <= d_len d /\
    ext4_dir_en_get_name_len m sb de = Z.of_nat (length (d_name d)) /\
    bytes_of m (de + sizeof_fake) (length (d_name d)) = d_name d).

(** The records [l] fill the block from [off] to [stop]. *)
Fixpoint chain (m : memory) (sb data off : Z) (l : list dent) (stop : Z) : Prop :=
  match l with
  | [] => off = stop
  | d :: l =>
      d_off d = off /\ sizeof_fake <= d_len d /\ d_len d mod 4 = 0 /\ holds m sb data d /\
      chain m sb data (off + d_len d) l stop
  end.

Definition has_csum (m : memory) (sb : Z) : bool := ext4_sb_feature_ro_com m sb EXT4_FRO_COM_METADATA_CSUM.
Definition has_types (m : memory) (sb : Z) : bool :=
  (0 <? fget sb_rev_level m sb) || (5 <=? fget sb_minor_rev_level m sb).

(** With metadata checksums the last record is the checksum tail. *)
Definition tailed (m : memory) (sb data : Z) (l : list dent) : Prop :=
  let bs := ext4_sb_get_block_size m sb in
  has_csum m sb = true ->
    has_types m sb = true /\
    ext4_dir_get_tail m sb data = Some (data + bs - sizeof_tail) /\
    exists l0 d, l = l0 ++ [d] /\ d_off d = bs - sizeof_tail.

Definition dir_block (m : memory) (sb data : Z) (l : list dent) : Prop :=
  chain m sb data 0 l (ext4_sb_get_block_size m sb) /\ tailed m sb data l.

(** What the block says: names with inode number and type. *)
Definition live (d : dent) : Prop := d_ino d <> 0.
Definition said (d : dent) : list Z * (Z * Z) := (d_name d, (d_ino d, d_type d)).
Definition entries (l : list dent) : list (list Z * (Z * Z)) := said <$> filter live l.

(** Bytes a record needs for its header and name, and those it can give away. *)
Definition need (n : Z) : Z := (sizeof_fake + n + 3) / 4 * 4.
Definition room (d : dent) : Z :=
  if d_ino d =? 0 then (if d_type d =? EXT4_DIRENTRY_DIR_CSUM then 0 else d_len d)
  else d_len d - need (Z.of_nat (length (d_name d))).

(** The records that replace [d] when an entry is put into it. *)
Definition put (name : list Z) (ino type : Z) (d : dent) : list dent :=
  if d_ino d =? 0 then [Dent (d_off d) (d_len d) ino name type]
  else
    let sz := need (Z.of_nat (length (d_name d))) in
    [Dent (d_off d) sz (d_ino d) (d_name d) (d_type d); Dent (d_off d + sz) (d_len d - sz) ino name type].

(** ** Writing an entry *)

Lemma old_rev_types m sb : (fget sb_rev_level m sb =? 0) && (fget sb_minor_rev_level m sb <? 5) = negb (has_types m sb).
Proof.
  unfold has_types. pose proof (fget_range sb_rev_level m sb). pose proof (fget_range sb_minor_rev_level m sb).
  destruct (fget sb_rev_level m sb =? 0) eqn:?, (fget sb_minor_rev_level m sb <? 5) eqn:?,
    (0 <? fget sb_rev_level m sb) eqn:?, (5 <=? fget sb_minor_rev_level m sb) eqn:?; zb; (done || lia).
Qed.

Definition new_type (m : memory) (sb child : Z) : Z :=
  if has_types m sb then de_type_of (ext4_inode_type m sb child) else EXT4_DE_UNKNOWN.

Lemma de_type_range t : 0 <= de_type_of t < 8.
Proof. unfold de_type_of. repeat case_if; by vm_compute. Qed.

(** Accessors read their own bytes and the superblock only. *)
Lemma same_on_split lo mid hi m m' : same_on lo mid m m' -> same_on mid hi m m' -> same_on lo hi m m'.
Proof. intros H1 H2 x Hx. destruct (decide (x < mid)); [apply H1|apply H2]; lia. Qed.

Lemma fget_ext f m m' s : 0 <= f_len f -> same_on (s + f_off f) (s + f_off f + f_len f) m m' -> fget f m' s = fget f m s.
Proof. intros Hf H. apply ldn_ext. by rewrite Z2Nat.id. Qed.

Lemma fget_sb f m m' sb : same_on sb (sb + 1024) m m' -> 0 <= f_off f -> 0 <= f_len f -> f_off f + f_len f <= 1024 ->
  fget f m' sb = fget f m sb.
Proof. intros H ???. apply fget_ext; [done|]. eapply same_on_weaken; [exact H|lia..]. Qed.

Section sb_ext.
Context (m m' : memory) (sb : Z) (Hsame : same_on sb (sb + 1024) m m').

Lemma block_size_sb : ext4_sb_get_block_size m' sb = ext4_sb_get_block_size m sb.
Proof. unfold ext4_sb_get_block_size. by rewrite (fget_sb _ m) by fld. Qed.

Lemma has_types_sb : has_types m' sb = has_types m sb.
Proof. unfold has_types. by rewrite !(fget_sb _ m m') by fld. Qed.

Lemma has_csum_sb : has_csum m' sb = has_csum m sb.
Proof. unfold has_csum, ext4_sb_feature_ro_com. by rewrite (fget_sb _ m) by fld. Qed.

Lemma get_type_ext de : same_on de (de + 8) m m' -> ext4_dir_en_get_inode_type m' sb de = ext4_dir_en_get_inode_type m sb de.
Proof.
  intros H. unfold ext4_dir_en_get_inode_type. rewrite !(fget_sb _ m m') by fld.
  rewrite (fget_ext de_in m); [done|done|]. eapply same_on_weaken; [exact H|cbn; lia..].
Qed.

Lemma get_name_len_ext de : same_on de (de + 8) m m' -> ext4_dir_en_get_name_len m' sb de = ext4_dir_en_get_name_len m sb de.
Proof.
  intros H. unfold ext4_dir_en_get_name_len. rewrite !(fget_sb _ m m') by fld.
  rewrite (fget_ext de_in m), (fget_ext de_name_len m); try done; (eapply same_on_weaken; [exact H|cbn; lia..]).
Qed.
End sb_ext.

Lemma get_inode_ext m m' de : same_on de (de + 8) m m' -> ext4_dir_en_get_inode m' de = ext4_dir_en_get_inode m de.
Proof. intros H. apply fget_ext; [done|]. eapply same_on_weaken; [exact H|cbn; lia..]. Qed.

Lemma get_entry_len_ext m m' de : same_on de (de + 8) m m' -> ext4_dir_en_get_entry_len m' de = ext4_dir_en_get_entry_len m de.
Proof. intros H. apply fget_ext; [done|]. eapply same_on_weaken; [exact H|cbn; lia..]. Qed.

Lemma memcpy_other m d s n x : x < d \/ d + n <= x -> memcpy m d s n x = m x.
Proof. intros H. unfold memcpy. case_if; [lia|done]. Qed.

Lemma bytes_of_memcpy m d s n : bytes_of (memcpy m d s (Z.of_nat n)) d n = bytes_of m s n.
Proof.
  unfold bytes_of. apply list_fmap_ext. intros k x Hk. apply lookup_seq in Hk as [-> Hk].
  unfold ld8, memcpy. case_if; [do 2 f_equal; lia|destruct E; zb; lia].
Qed.

Section write.
Context (m : memory) (sb en entry_len cindex child name : Z) (nl : nat).
Let name_len := Z.of_nat nl.
Hypothesis (Hnl : name_len < 256) (Hlen : 0 <= entry_len < 2 ^ 16) (Hci : 0 <= cindex < 2 ^ 32).
Hypothesis (Hsb : sb + 1024 <= en \/ en + 8 + name_len <= sb).
Hypothesis (Hname : name + name_len <= en \/ en + 8 + name_len <= name).

Let m1 := ext4_dir_en_set_inode_type m sb en (de_type_of (ext4_inode_type m sb child)).
Let m2 := ext4_dir_en_set_inode m1 en cindex.
Let m3 := ext4_dir_en_set_entry_len m2 en entry_len.
Let m4 := ext4_dir_en_set_name_len m3 sb en (u16 name_len).

Lemma header_frame1 x : x < en \/ en + 8 <= x -> m1 x = m x.
Proof. intros Hx. unfold m1, ext4_dir_en_set_inode_type. case_if; [apply fset_other; [done|cbn; lia]|done]. Qed.

Lemma header_frame3 x : x < en \/ en + 8 <= x -> m3 x = m x.
Proof. intros Hx. unfold m3, m2. unfold ext4_dir_en_set_entry_len, ext4_dir_en_set_inode.
  rewrite !fset_other by (cbn; lia). by apply header_frame1. Qed.

Lemma header_frame x : x < en \/ en + 8 <= x -> m4 x = m x.
Proof.
  intros Hx. unfold m4, ext4_dir_en_set_name_len. case_if; rewrite !fset_other by (cbn; lia); by apply header_frame3.
Qed.

Lemma sb_far x : sb <= x < sb + 1024 -> x < en \/ en + 8 <= x.
Proof. lia. Qed.

Lemma has_types1 : has_types m1 sb = has_types m sb.
Proof. apply has_types_sb. intros x Hx. by apply header_frame1, sb_far. Qed.

Lemma has_types3 : has_types m3 sb = has_types m sb.
Proof. apply has_types_sb. intros x Hx. by apply header_frame3, sb_far. Qed.

Lemma has_types4 : has_types m4 sb = has_types m sb.
Proof. apply has_types_sb. intros x Hx. by apply header_frame, sb_far. Qed.
Lemma header_name : m4 = if has_types m sb then fset de_name_len m3 en name_len
  else fset de_in (fset de_name_len m3 en name_len) en 0.
Proof.
  unfold m4, ext4_dir_en_set_name_len. rewrite (uw_small 16) by (unfold name_len in *; pow2; lia).
  rewrite Z.shiftr_shiftl_l, Z.shiftl_0_r, old_rev_types by lia.
  rewrite (has_types_sb m) by (intros x Hx; rewrite fset_other by (cbn; lia); by apply header_frame3, sb_far).
  rewrite (Z.shiftr_div_pow2 _ 8), Z.div_small by (unfold name_len in *; pow2; lia). by destruct (has_types m sb).
Qed.

Lemma header_reads :
  ext4_dir_en_get_inode m4 en = cindex /\ ext4_dir_en_get_entry_len m4 en = entry_len /\
  ext4_dir_en_get_inode_type m4 sb en = new_type m sb child /\ ext4_dir_en_get_name_len m4 sb en = name_len.
Proof.
  unfold ext4_dir_en_get_inode_type, ext4_dir_en_get_name_len. rewrite old_rev_types. fold (has_types m4 sb).
  rewrite has_types4. unfold new_type, ext4_dir_en_get_inode, ext4_dir_en_get_entry_len. rewrite header_name.
  pose proof (de_type_range (ext4_inode_type m sb child)).
  unfold m3, m2, ext4_dir_en_set_entry_len, ext4_dir_en_set_inode, m1, ext4_dir_en_set_inode_type.
  fold (has_types m sb).
  destruct (has_types m sb); cbn [negb];
    repeat first [rewrite fget_fset_same by (try done; cbn [f_len de_inode de_entry_len de_name_len de_in];
                    unfold name_len in *; pow2; lia)
                 |rewrite fget_fset_other by fld]; try done.
  by rewrite Z.lor_0_r.
Qed.

Lemma write_entry_ok : entry_len <= ext4_sb_get_block_size m sb -> exists m',
  ext4_dir_write_entry m sb en entry_len cindex child name name_len = Some m' /\
  (forall x, x < en \/ en + 8 + name_len <= x -> m' x = m x) /\
  ext4_dir_en_get_inode m' en = cindex /\ ext4_dir_en_get_entry_len m' en = entry_len /\
  ext4_dir_en_get_inode_type m' sb en = new_type m sb child /\ ext4_dir_en_get_name_len m' sb en = name_len /\
  bytes_of m' (en + sizeof_fake) nl = bytes_of m name nl.
Proof.
  intros Hbs. exists (memcpy m4 (en + sizeof_fake) name name_len).
  assert (forall x, x < en + 8 \/ en + 8 + name_len <= x -> memcpy m4 (en + sizeof_fake) name name_len x = m4 x) as Hf.
  { intros x Hx. apply memcpy_other. unfold sizeof_fake. lia. }
  split; [unfold ext4_dir_write_entry; rewrite (proj2 (Z.leb_le _ _) Hbs); done|].
  split; [intros x Hx; rewrite Hf by lia; apply header_frame; lia|].
  destruct header_reads as (H1 & H2 & H3 & H4).
  assert (same_on en (en + 8) m4 (memcpy m4 (en + sizeof_fake) name name_len)) as He by (intros x Hx; apply Hf; lia).
  assert (same_on sb (sb + 1024) m4 (memcpy m4 (en + sizeof_fake) name name_len)) as Hs by (intros x Hx; apply Hf; lia).
  split; [by rewrite (get_inode_ext m4)|]. split; [by rewrite (get_entry_len_ext m4)|].
  split; [by rewrite (get_type_ext m4)|]. split; [by rewrite (get_name_len_ext m4)|].
  unfold name_len. rewrite bytes_of_memcpy. apply bytes_of_ext. intros x Hx. apply header_frame. fold name_len in Hx. lia.
Qed.
End write.

(** ** Chains of records *)

Lemma holds_ext m m' sb data d :
  same_on sb (sb + 1024) m m' -> same_on (data + d_off d) (data + d_off d + 8) m m' ->
  (d_ino d <> 0 -> same_on (data + d_off d) (data + d_off d + d_len d) m m') ->
  holds m sb data d -> holds m' sb data d.
Proof.
  intros Hs Hh Hl (H1 & H2 & H3 & H4). unfold holds. cbv zeta.
  rewrite (get_inode_ext m m' _ Hh), (get_entry_len_ext m m' _ Hh), (get_type_ext m m' sb Hs _ Hh),
    (get_name_len_ext m m' sb Hs _ Hh).
  do 3 (split; [done|]). intros Hd. destruct (H4 Hd) as (H5 & H6 & H7). do 2 (split; [done|]).
  rewrite (bytes_of_ext m); [done|]. eapply same_on_weaken; [exact (Hl Hd)|unfold sizeof_fake in *; lia..].
Qed.

Lemma chain_app m sb data l1 l2 stop : forall off,
  chain m sb data off (l1 ++ l2) stop <-> exists mid, chain m sb data off l1 mid /\ chain m sb data mid l2 stop.
Proof.
  induction l1 as [|d l1 IH]; intros off; cbn [app chain].
  - split; [intros H; by exists off|]. by intros (? & -> & ?).
  - rewrite IH. naive_solver.
Qed.

Lemma chain_le m sb data l stop : forall off, chain m sb data off l stop -> off <= stop.
Proof.
  induction l as [|d l IH]; intros off; cbn [chain]; [lia|]. intros (_ & ? & _ & _ & H).
  apply IH in H. unfold sizeof_fake in *. lia.
Qed.

Lemma chain_in m sb data l stop off d : chain m sb data off l stop -> d ∈ l ->
  off <= d_off d /\ d_off d + d_len d <= stop /\ 8 <= d_len d /\ d_len d mod 4 = 0 /\ holds m sb data d.
Proof.
  intros H (l1 & l2 & ->)%list_elem_of_split. apply chain_app in H as (mid & H1 & H2 & H3 & H4 & H5 & H6).
  apply chain_le in H1, H6. unfold sizeof_fake in *. split_and!; (done || lia).
Qed.

(** Only the records that are hit can change. *)
Lemma chain_ext m m' sb data l stop off :
  same_on sb (sb + 1024) m m' -> same_on (data + off) (data + stop) m m' ->
  chain m sb data off l stop -> chain m' sb data off l stop.
Proof.
  intros Hs. revert off. induction l as [|d l IH]; intros off Hd; cbn [chain]; [done|].
  intros (<- & H1 & H2 & H3 & H4). pose proof (chain_le _ _ _ _ _ _ H4). unfold sizeof_fake in *.
  do 3 (split; [done|]). split.
  - apply (holds_ext m); [done|..|done].
    + eapply same_on_weaken; [exact Hd|lia..].
    + intros _. eapply same_on_weaken; [exact Hd|lia..].
  - apply IH; [|done]. eapply same_on_weaken; [exact Hd|lia..].
Qed.

Lemma need_bounds n : 0 <= n -> 8 + n <= need n < 12 + n /\ need n mod 4 = 0.
Proof.
  intros Hn. unfold need, sizeof_fake. split; [|by rewrite Z.mod_mul].
  pose proof (Z.div_mod (8 + n + 3) 4 ltac:(lia)). pose proof (Z.mod_pos_bound (8 + n + 3) 4 ltac:(lia)). lia.
Qed.

Lemma need_fits n len : 0 <= n -> 8 + n <= len -> len mod 4 = 0 -> need n <= len.
Proof.
  intros Hn Hl Hm. unfold need, sizeof_fake. pose proof (Z.div_mod len 4 ltac:(lia)).
  assert ((8 + n + 3) / 4 <= len / 4); [|lia].
  apply Z.div_le_lower_bound; [lia|]. Z.to_euclidean_division_equations. lia.
Qed.

(** The rounding of the code. *)
Lemma round_need n : 0 <= n < 60000 ->
  (if negb (u16 (sizeof_fake + n) mod 4 =? 0)
   then u16 (u16 (sizeof_fake + n) + (4 - u16 (sizeof_fake + n) mod 4)) else u16 (sizeof_fake + n)) = need n.
Proof.
  intros Hn. unfold need, sizeof_fake. rewrite !(uw_small 16 (8 + n)) by (pow2; lia).
  case_if; [|Z.to_euclidean_division_equations; lia].
  rewrite uw_small by (pow2; Z.to_euclidean_division_equations; lia). Z.to_euclidean_division_equations. lia.
Qed.

Lemma round_used n : 0 <= n -> need n < 2 ^ 16 ->
  (if negb (n mod 4 =? 0) then u16 (u16 (sizeof_fake + n) + (4 - n mod 4)) else u16 (sizeof_fake + n)) = need n.
Proof.
  intros Hn Hs. pose proof (need_bounds n Hn) as [Hb _].
  unfold need, sizeof_fake in *. rewrite !(uw_small 16 (8 + n)) by lia.
  case_if; [|Z.to_euclidean_division_equations; lia].
  rewrite uw_small by (pow2; Z.to_euclidean_division_equations; lia). Z.to_euclidean_division_equations. lia.
Qed.

(** ** The checksum tail *)

Lemma get_tail_facts m sb data t : ext4_dir_get_tail m sb data = Some t ->
  t = data + ext4_sb_get_block_size m sb - 12 /\ ext4_dir_en_get_inode m t = 0 /\
  ext4_dir_en_get_entry_len m t = 12 /\ fget de_in m t = EXT4_DIRENTRY_DIR_CSUM.
Proof.
  unfold ext4_dir_get_tail. intros H. repeat case_if_in H; try done. injection H as <-.
  unfold c_true, EXT4_DIRENT_TAIL, sizeof_tail in *. zb. rewrite Z.add_sub_assoc in *. done.
Qed.

Definition apart (a n data bs : Z) : Prop := a + n <= data \/ data + bs <= a.

Section csum.
Context (m m' : memory) (sb data index ino : Z).
Let bs := ext4_sb_get_block_size m sb.
Hypothesis (Hs : same_on sb (sb + 1024) m m').

Lemma get_tail_ext : same_on (data + bs - 12) (data + bs - 4) m m' ->
  ext4_dir_get_tail m' sb data = ext4_dir_get_tail m sb data.
Proof.
  intros H. unfold ext4_dir_get_tail. rewrite (block_size_sb m m' sb Hs). fold bs. unfold EXT4_DIRENT_TAIL, sizeof_tail.
  rewrite !(fget_ext _ m m') by (try done; (eapply same_on_weaken; [exact H|cbn; lia..])). done.
Qed.

Lemma dir_csum_ext size : same_on ino (ino + 128) m m' -> same_on data (data + size) m m' ->
  ext4_dir_csum m' sb index ino data size = ext4_dir_csum m sb index ino data size.
Proof.
  intros Hi Hd. unfold ext4_dir_csum, ext4_inode_get_generation.
  rewrite (fget_ext _ m m') by (try done; (eapply same_on_weaken; [exact Hi|cbn; lia..])).
  rewrite (ext4_crc32c_ext m m' EXT4_CRC32_INIT) by (eapply same_on_weaken; [exact Hs|cbn; lia..]).
  by apply ext4_crc32c_ext.
Qed.
End csum.

Lemma dir_csum_range m sb data index ino size : 0 <= ext4_dir_csum m sb index ino data size < 2 ^ 32.
Proof. do 4 apply ext4_crc32c_range. apply crc_init_range. Qed.

Section set_csum.
Context (m : memory) (sb data index ino : Z).
Let bs := ext4_sb_get_block_size m sb.
Let m' := ext4_dir_set_csum m sb index ino data.
Hypothesis (Hbs : 1024 <= bs) (Hsb : apart sb 1024 data bs) (Hino : apart ino 128 data bs).

Lemma set_csum_cases :
  (has_csum m sb = false \/ ext4_dir_get_tail m sb data = None) /\ m' = m \/
  (has_csum m sb = true /\ ext4_dir_get_tail m sb data = Some (data + bs - 12) /\
   m' = fset tail_checksum m (data + bs - 12) (ext4_dir_csum m sb index ino data (bs - 12))).
Proof.
  unfold m', ext4_dir_set_csum. fold (has_csum m sb). destruct (has_csum m sb); [|by left; split; [left|]].
  destruct (ext4_dir_get_tail m sb data) as [t|] eqn:Ht; [|by left; split; [right|]]. right. split; [done|].
  destruct (get_tail_facts _ _ _ _ Ht) as (-> & _). fold bs. split; [done|]. do 2 f_equal. lia.
Qed.

Lemma dir_set_csum_frame x : x < data + bs - 4 \/ data + bs <= x -> m' x = m x.
Proof.
  intros Hx. destruct set_csum_cases as [(_ & ->)|(_ & _ & ->)]; [done|]. apply fset_other; [done|]. cbn. lia.
Qed.

Lemma dir_set_csum_sb : same_on sb (sb + 1024) m m'.
Proof. intros x Hx. apply dir_set_csum_frame. unfold apart in *. lia. Qed.

Lemma set_csum_tail : ext4_dir_get_tail m' sb data = ext4_dir_get_tail m sb data.
Proof. apply (get_tail_ext m m'); [apply dir_set_csum_sb|]. intros x Hx. apply dir_set_csum_frame. fold bs in Hx. lia. Qed.

Lemma set_csum_verifies : (has_csum m sb = true -> ext4_dir_get_tail m sb data <> None) ->
  ext4_dir_csum_verify m' sb index ino data = true.
Proof.
  intros Ht. unfold ext4_dir_csum_verify. fold (has_csum m' sb). rewrite (has_csum_sb m m' sb dir_set_csum_sb).
  destruct (has_csum m sb) eqn:Hc; [|done]. rewrite set_csum_tail.
  destruct set_csum_cases as [([?|?] & _)|(_ & H1 & H2)]; [congruence|by destruct Ht|].
  rewrite H1, (dir_csum_ext m m') by
    (first [apply dir_set_csum_sb | intros x Hx; apply dir_set_csum_frame; unfold apart in *; lia]).
  rewrite H2, fget_fset_same by (done || apply dir_csum_range).
  apply Z.eqb_eq. f_equal. lia.
Qed.

(** The checksum is outside every record that says something. *)
Lemma set_csum_keeps l : dir_block m sb data l -> dir_block m' sb data l.
Proof.
  intros [Hl Ht]. destruct set_csum_cases as [(_ & ->)|(Hc & H1 & H2)]; [done|].
  destruct (Ht Hc) as (Hty & _ & l0 & d & -> & Hd). unfold dir_block, tailed.
  rewrite (block_size_sb m m'), (has_csum_sb m m'), (has_types_sb m m'), set_csum_tail by apply dir_set_csum_sb.
  fold bs in Hl, Hd |- *. split; [|intros _; split_and!; eauto].
  apply chain_app in Hl as (mid & Hl0 & Hdd & Hlen & Hmod & Hh & Hend). cbn in Hend.
  unfold sizeof_tail in Hd. apply chain_app. exists mid. split.
  - apply (chain_ext m); [apply dir_set_csum_sb| |done]. intros x Hx. apply dir_set_csum_frame. lia.
  - cbn. do 3 (split; [done|]). split; [|lia]. apply (holds_ext m); [apply dir_set_csum_sb|..|done].
    + intros x Hx. apply dir_set_csum_frame. lia.
    + intros Hn. exfalso. apply Hn. destruct Hh as (<- & _).
      destruct (get_tail_facts _ _ _ _ H1) as (_ & Hz & _). rewrite Hd. by rewrite Z.add_sub_assoc.
Qed.
End set_csum.

(** ** Inserting *)

Lemma bytes_of_length m p n : length (bytes_of m p n) = n.
Proof. unfold bytes_of. by rewrite length_fmap, length_seq. Qed.

Lemma set_entry_len_frame m de v x : x < de + 4 \/ de + 6 <= x -> ext4_dir_en_set_entry_len m de v x = m x.
Proof. intros Hx. apply fset_other; [done|]. cbn. lia. Qed.

(** A record of another length still says the same. *)
Lemma cut_holds m sb data d sz : holds m sb data d -> apart sb 1024 (data + d_off d) 8 -> 0 <= sz < 2 ^ 16 ->
  (live d -> sizeof_fake + Z.of_nat (length (d_name d)) <= sz) ->
  holds (ext4_dir_en_set_entry_len m (data + d_off d) sz) sb data (Dent (d_off d) sz (d_ino d) (d_name d) (d_type d)).
Proof.
  intros (H1 & H2 & H3 & H4) Ho Hz Hn. unfold sizeof_fake, apart in *. unfold holds. cbn [d_off d_len d_ino d_name d_type].
  assert (same_on sb (sb + 1024) m (ext4_dir_en_set_entry_len m (data + d_off d) sz)) as Hs.
  { intros x Hx. apply set_entry_len_frame. lia. }
  unfold ext4_dir_en_get_inode, ext4_dir_en_get_inode_type, ext4_dir_en_get_name_len, ext4_dir_en_get_entry_len in *.
  rewrite !(fget_sb _ m (ext4_dir_en_set_entry_len _ _ _) sb) by fld.
  unfold ext4_dir_en_set_entry_len. rewrite fget_fset_same by done. rewrite !fget_fset_other by fld.
  do 3 (split; [done|]). intros Hd. destruct (H4 Hd) as (H5 & H6 & H7). split; [by apply Hn|]. split; [done|].
  rewrite (bytes_of_ext m); [done|]. intros x Hx. apply set_entry_len_frame. unfold sizeof_fake in Hx. lia.
Qed.
Section insert.
Context (m : memory) (sb data index ino cindex child name : Z) (nl : nat).
Let bs := ext4_sb_get_block_size m sb.
Hypothesis (Hbs : 1024 <= bs < 2 ^ 16) (Hsb : apart sb 1024 data bs) (Hino : apart ino 128 data bs).
Hypothesis (Hname : apart name (Z.of_nat nl) data bs) (Hnl : Z.of_nat nl < 256) (Hci : 0 < cindex < 2 ^ 32).
Let nm := bytes_of m name nl.
Let ty := new_type m sb child.
Let rl := need (Z.of_nat nl).

(** A new entry of [len] bytes at [off]. *)
Lemma write_holds off len : 0 <= off -> rl <= len -> off + len <= bs -> exists m',
  ext4_dir_write_entry m sb (data + off) len cindex child name (Z.of_nat nl) = Some m' /\
  (forall x, x < data + off \/ data + off + rl <= x -> m' x = m x) /\
  holds m' sb data (Dent off len cindex nm ty).
Proof.
  intros Ho Hl He. pose proof (need_bounds (Z.of_nat nl) ltac:(lia)) as [Hn _]. fold rl in Hn. unfold apart in *.
  destruct (write_entry_ok m sb (data + off) len cindex child name nl) as (m' & E & Hf & H1 & H2 & H3 & H4 & H5);
    try lia.
  exists m'. split; [done|]. split; [intros x Hx; apply Hf; lia|]. unfold holds. cbn [d_off d_len d_ino d_name d_type].
  do 3 (split; [done|]). intros _. rewrite (bytes_of_length m name nl : length nm = nl).
  split_and!; [unfold sizeof_fake; lia|done..].
Qed.

(** A free record takes the entry. *)
Lemma put_free d l : chain m sb data (d_off d) (d :: l) bs -> 0 <= d_off d -> d_ino d = 0 -> rl <= d_len d -> exists m',
  ext4_dir_write_entry m sb (data + d_off d) (d_len d) cindex child name (Z.of_nat nl) = Some m' /\
  (forall x, x < data + d_off d \/ data + d_off d + d_len d <= x -> m' x = m x) /\
  chain m' sb data (d_off d) (put nm cindex ty d ++ l) bs.
Proof.
  intros (_ & H1 & H2 & _ & H4) Ho Hd Hr. pose proof (chain_le _ _ _ _ _ _ H4).
  destruct (write_holds (d_off d) (d_len d)) as (m' & E & Hf & Hh); [lia..|]. exists m'. split; [done|].
  assert (forall x, x < data + d_off d \/ data + d_off d + d_len d <= x -> m' x = m x) as Hf' by (intros; apply Hf; lia).
  split; [done|]. unfold put. rewrite Hd. cbn. do 4 (split; [done|]). unfold apart, sizeof_fake in *.
  apply (chain_ext m); [..|done]; intros x Hx; apply Hf; lia.
Qed.

End insert.

Lemma new_type_ext m m' sb child : same_on sb (sb + 1024) m m' -> same_on child (child + 128) m m' ->
  new_type m' sb child = new_type m sb child.
Proof.
  intros Hs Hc. unfold new_type, ext4_inode_type, ext4_inode_get_mode.
  rewrite (has_types_sb m m' sb Hs), !(fget_sb _ m m' sb) by fld.
  rewrite !(fget_ext _ m m' child) by (try done; (eapply same_on_weaken; [exact Hc|cbn; lia..])). done.
Qed.

Section insert_loop.
Context (m : memory) (sb data index ino cindex child name : Z) (nl : nat).
Let bs := ext4_sb_get_block_size m sb.
Hypothesis (Hbs : 1024 <= bs < 2 ^ 16) (Hsb : apart sb 1024 data bs) (Hino : apart ino 128 data bs).
Hypothesis (Hchild : apart child 128 data bs).
Hypothesis (Hname : apart name (Z.of_nat nl) data bs) (Hnl : Z.of_nat nl < 256) (Hci : 0 < cindex < 2 ^ 32).
Let nm := bytes_of m name nl.
Let ty := new_type m sb child.
Let rl := need (Z.of_nat nl).

(** A record in use is cut and the entry written behind it. *)
Lemma put_split d l : chain m sb data (d_off d) (d :: l) bs -> 0 <= d_off d -> live d ->
  let sz := need (Z.of_nat (length (d_name d))) in
  rl <= d_len d - sz -> exists m',
  ext4_dir_write_entry (ext4_dir_en_set_entry_len m (data + d_off d) sz) sb (data + d_off d + sz) (d_len d - sz)
    cindex child name (Z.of_nat nl) = Some m' /\
  (forall x, x < data + d_off d \/ data + d_off d + d_len d <= x -> m' x = m x) /\
  chain m' sb data (d_off d) (put nm cindex ty d ++ l) bs.
Proof.
  intros (_ & H1 & H2 & H3 & H4) Ho Hd sz Hr. pose proof (chain_le _ _ _ _ _ _ H4) as Hend.
  pose proof (need_bounds (Z.of_nat nl) ltac:(lia)) as [Hn _]. fold rl in Hn.
  pose proof (need_bounds (Z.of_nat (length (d_name d))) ltac:(lia)) as [Hu Hu4]. fold sz in Hu, Hu4.
  set (m2 := ext4_dir_en_set_entry_len m (data + d_off d) sz).
  assert (forall x, x < data + d_off d \/ data + d_off d + sz <= x -> m2 x = m x) as Hm2.
  { intros x Hx. apply (set_entry_len_frame m (data + d_off d) sz). lia. }
  assert (holds m2 sb data (Dent (d_off d) sz (d_ino d) (d_name d) (d_type d))) as Hh2.
  { apply cut_holds; try done; try intros _; unfold sizeof_fake, apart in *; lia. }
  assert (same_on sb (sb + 1024) m m2) as Hs by (intros x Hx; apply Hm2; unfold apart in *; lia).
  assert (bytes_of m2 name nl = nm) as Enm.
  { apply bytes_of_ext. intros x Hx. apply Hm2. unfold apart in *. lia. }
  assert (new_type m2 sb child = ty) as Ety.
  { apply new_type_ext; [done|]. intros x Hx. apply Hm2. unfold apart in *. lia. }
  destruct (write_holds m2 sb data cindex child name nl) with (off := d_off d + sz) (len := d_len d - sz)
    as (m' & E & Hf & Hh); rewrite ?(block_size_sb m m2 sb Hs); try done; try lia.
  rewrite Enm, Ety in Hh. rewrite Z.add_assoc in E, Hf. exists m'. split; [done|].
  split; [intros x Hx; rewrite Hf, Hm2 by lia; done|].
  unfold put. destruct (Z.eqb_spec (d_ino d) 0); [done|]. cbn [app chain d_off d_len].
  assert (same_on sb (sb + 1024) m2 m') as Hs' by (intros x Hx; apply Hf; unfold apart in *; lia).
  assert ((d_len d - sz) mod 4 = 0) by (Z.to_euclidean_division_equations; lia).
  unfold sizeof_fake in *. do 3 (split; [done || lia|]). split.
  { apply (holds_ext m2); [done|..|done]; cbn [d_off d_len]; intros; intros x Hx; apply Hf; lia. }
  do 4 (split; [done || lia|]).
  fold sz. replace (d_off d + sz + (d_len d - sz)) with (d_off d + d_len d) by lia.
  apply (chain_ext m); [by eapply same_on_trans| |done]. intros x Hx. rewrite Hf, Hm2 by lia. done.
Qed.
Lemma insert_step fuel d l : chain m sb data (d_off d) (d :: l) bs -> 0 <= d_off d ->
  insert_loop (S fuel) m sb index ino data cindex child name (Z.of_nat nl) rl (data + d_off d) (data + bs) =
  if rl <=? room d then
    m' ← (if d_ino d =? 0
          then ext4_dir_write_entry m sb (data + d_off d) (d_len d) cindex child name (Z.of_nat nl)
          else
            let sz := need (Z.of_nat (length (d_name d))) in
            ext4_dir_write_entry (ext4_dir_en_set_entry_len m (data + d_off d) sz) sb (data + d_off d + sz)
              (d_len d - sz) cindex child name (Z.of_nat nl));
    Some (EOK, ext4_dir_set_csum m' sb index ino data)
  else insert_loop fuel m sb index ino data cindex child name (Z.of_nat nl) rl (data + (d_off d + d_len d)) (data + bs).
Proof.
  intros (_ & H1 & H2 & H3 & H4) Ho. pose proof (need_bounds (Z.of_nat nl) ltac:(lia)) as [Hn _]. fold rl in Hn.
  pose proof (chain_le _ _ _ _ _ _ H4). pose proof H3 as (E1 & E2 & E3 & E4).
  cbn [insert_loop]. rewrite E1, E2, E3. unfold sizeof_fake in H1. case_if; [lia|].
  rewrite <- (Z.add_assoc data (d_off d) (d_len d)). unfold room.
  destruct (Z.eqb_spec (d_ino d) 0) as [Hd|Hd]; cbn [negb andb].
  - destruct (d_type d =? EXT4_DIRENTRY_DIR_CSUM); cbn [negb andb]; [|done].
    destruct (Z.leb_spec rl 0); [lia|done].
  - destruct (E4 Hd) as (E5 & E6 & _). unfold sizeof_fake in E5.
    pose proof (need_fits (Z.of_nat (length (d_name d))) (d_len d) ltac:(lia) ltac:(lia) H2).
    pose proof (need_bounds (Z.of_nat (length (d_name d))) ltac:(lia)) as [? _].
    rewrite E6, round_used by lia.
    rewrite (uw_small 16 (d_len d - _)) by lia. done.
Qed.

Lemma insert_loop_ok l : forall off fuel, chain m sb data off l bs -> 0 <= off -> (length l < fuel)%nat ->
  let run := insert_loop fuel m sb index ino data cindex child name (Z.of_nat nl) rl (data + off) (data + bs) in
  (Forall (fun d => room d < rl) l /\ run = Some (ENOSPC, m)) \/
  exists l1 d l2 m', l = l1 ++ d :: l2 /\ Forall (fun d => room d < rl) l1 /\ rl <= room d /\
    run = Some (EOK, ext4_dir_set_csum m' sb index ino data) /\
    (forall x, x < data + d_off d \/ data + d_off d + d_len d <= x -> m' x = m x) /\
    chain m' sb data off (l1 ++ put nm cindex ty d ++ l2) bs.
Proof.
  pose proof (need_bounds (Z.of_nat nl) ltac:(lia)) as [Hn _]. fold rl in Hn.
  induction l as [|d l IH]; intros off fuel Hl Ho Hfuel; (destruct fuel as [|fuel]; [cbn in Hfuel; lia|]).
  { cbn in Hl. left. split; [done|]. cbn [insert_loop]. case_if; [done|lia]. }
  pose proof Hl as (<- & H1 & H2 & H3 & H4). cbv zeta. rewrite (insert_step fuel d l Hl Ho). unfold sizeof_fake in H1.
  destruct (Z.leb_spec rl (room d)) as [Hr|Hr].
  - right. exists [], d, l. unfold room in Hr. destruct (Z.eqb_spec (d_ino d) 0) as [Hd|Hd].
    + destruct (put_free m sb data cindex child name nl) with (d := d) (l := l) as (m' & E & Hf & Hc);
        try done; [by destruct (d_type d =? EXT4_DIRENTRY_DIR_CSUM); lia|].
      exists m'. rewrite E. unfold room. rewrite Hd. done.
    + destruct (put_split d l Hl Ho Hd Hr) as (m' & E & Hf & Hc).
      exists m'. cbv zeta. rewrite E. unfold room. destruct (Z.eqb_spec (d_ino d) 0); done.
  - destruct (IH (d_off d + d_len d) fuel H4 ltac:(lia) ltac:(cbn in Hfuel; lia)) as
      [(Hf & E)|(l1 & d' & l2 & m' & -> & Hf & Hr' & E & Hx & Hc)]; cbv zeta in E; rewrite E.
    + left. split; [by constructor|done].
    + right. exists (d :: l1), d', l2, m'. split; [done|]. split; [by constructor|]. do 3 (split; [done|]).
      cbn [app chain]. do 3 (split; [done|]). split; [|done].
      destruct (chain_in _ _ _ _ _ _ d' H4) as (? & ? & _); [set_solver|].
      apply (holds_ext m); [..|done]; intros; intros x Hx'; apply Hx; unfold apart in *; lia.
Qed.
End insert_loop.

Lemma tail_record m sb data l0 t : dir_block m sb data (l0 ++ [t]) -> has_csum m sb = true ->
  d_ino t = 0 /\ d_type t = EXT4_DIRENTRY_DIR_CSUM.
Proof.
  intros [Hl Ht] Hc. destruct (Ht Hc) as (Hty & H1 & l1 & t' & E & Ho). apply app_inj_tail in E as [-> ->].
  apply chain_in with (d := t') in Hl as (_ & _ & _ & _ & E1 & _ & E3 & _); [|set_solver].
  apply get_tail_facts in H1 as (_ & Hz & _ & Hi). unfold sizeof_tail in *.
  rewrite Ho, Z.add_sub_assoc in E1, E3. rewrite <- E1, <- E3, Hz. split; [done|].
  unfold ext4_dir_en_get_inode_type. fold (has_types m sb). by rewrite Hty.
Qed.

(** Records replaced in front of the tail. *)
Lemma replace_tailed m m' sb data l1 ds l2 lo hi ds' :
  let bs := ext4_sb_get_block_size m sb in
  dir_block m sb data (l1 ++ ds ++ l2) -> apart sb 1024 data bs -> (l2 = [] -> has_csum m sb = false) ->
  0 <= lo -> chain m sb data lo ds hi -> hi <= bs -> (forall d, d ∈ l2 -> hi <= d_off d) ->
  (forall x, x < data + lo \/ data + hi <= x -> m' x = m x) ->
  tailed m' sb data (l1 ++ ds' ++ l2).
Proof.
  intros bs Hl Hsb Hnt Hlo Hds Hhi Hl2 Hf.
  assert (same_on sb (sb + 1024) m m') as Hs by (intros x Hx; apply Hf; unfold apart in *; lia).
  unfold tailed. rewrite (block_size_sb m m' sb Hs), (has_csum_sb m m' sb Hs), (has_types_sb m m' sb Hs). fold bs.
  intros Hc. destruct (proj2 Hl Hc) as (Hty & Ht & l0 & t & E & Ho). fold bs in Ho, Ht.
  destruct l2 as [|x l2 _] using rev_ind; [by rewrite Hnt in Hc|].
  rewrite !app_assoc in E. apply app_inj_tail in E as [_ ->].
  specialize (Hl2 t ltac:(set_solver)). unfold sizeof_tail in *.
  split; [done|]. split.
  - rewrite <- Ht. apply (get_tail_ext m m'); [done|]. fold bs. intros y Hy. apply Hf. lia.
  - exists (l1 ++ ds' ++ l2), t. split; [by rewrite !app_assoc|done].
Qed.

(** The checksum is written last, after which the block is whole. *)
Lemma seal_block m m' sb data index ino l' :
  let bs := ext4_sb_get_block_size m sb in
  1024 <= bs -> apart sb 1024 data bs -> apart ino 128 data bs ->
  (forall x, x < data \/ data + bs <= x -> m' x = m x) ->
  chain m' sb data 0 l' bs -> tailed m' sb data l' ->
  let m'' := ext4_dir_set_csum m' sb index ino data in
  (forall x, x < data \/ data + bs <= x -> m'' x = m x) /\ dir_block m'' sb data l' /\
  ext4_dir_csum_verify m'' sb index ino data = true.
Proof.
  intros bs Hbs Hsb Hino Hf Hc Ht m''.
  assert (same_on sb (sb + 1024) m m') as Hs by (intros x Hx; apply Hf; unfold apart in *; lia).
  pose proof (block_size_sb m m' sb Hs) as Eb. fold bs in Eb. split.
  - intros x Hx. unfold m''. rewrite dir_set_csum_frame; rewrite ?Eb; try done; try lia. by apply Hf.
  - split.
    + apply set_csum_keeps; rewrite ?Eb; try done; try lia. split; [by rewrite Eb|done].
    + apply set_csum_verifies; rewrite ?Eb; try done; try lia. intros Hcs. destruct (Ht Hcs) as (_ & -> & _). done.
Qed.

Section try_insert.
Context (m : memory) (sb data index ino cindex child name : Z) (nl : nat) (l : list dent).
Let bs := ext4_sb_get_block_size m sb.
Hypothesis (Hbs : 1024 <= bs < 2 ^ 16) (Hsb : apart sb 1024 data bs) (Hino : apart ino 128 data bs).
Hypothesis (Hchild : apart child 128 data bs).
Hypothesis (Hname : apart name (Z.of_nat nl) data bs) (Hnl : Z.of_nat nl < 256) (Hci : 0 < cindex < 2 ^ 32).
Hypothesis (Hl : dir_block m sb data l).

Lemma try_insert_cases fuel : (length l < fuel)%nat ->
  let nm := bytes_of m name nl in
  let run := ext4_dir_try_insert_entry fuel m sb index ino data cindex child name (Z.of_nat nl) in
  (Forall (fun d => room d < need (Z.of_nat nl)) l /\ run = Some (ENOSPC, m)) \/
  exists l1 d l2 m', l = l1 ++ d :: l2 /\ need (Z.of_nat nl) <= room d /\ run = Some (EOK, m') /\
    (forall x, x < data \/ data + bs <= x -> m' x = m x) /\
    dir_block m' sb data (l1 ++ put nm cindex (new_type m sb child) d ++ l2) /\
    ext4_dir_csum_verify m' sb index ino data = true.
Proof.
  intros Hfuel nm run. unfold run, ext4_dir_try_insert_entry. rewrite round_need by lia. fold bs.
  pose proof (insert_loop_ok m sb data index ino cindex child name nl Hbs Hsb Hino Hchild Hname Hnl Hci l 0 fuel
    (proj1 Hl) ltac:(lia) Hfuel) as H. cbv zeta in H. rewrite Z.add_0_r in H. fold bs in H.
  pose proof (need_bounds (Z.of_nat nl) ltac:(lia)) as [Hn _].
  destruct H as [(Hf & E)|(l1 & d & l2 & m' & El & _ & Hr & E & Hf & Hc)]; [by left|right].
  exists l1, d, l2, (ext4_dir_set_csum m' sb index ino data). do 3 (split; [done|]).
  destruct (chain_in _ _ _ _ _ _ d (proj1 Hl)) as (? & Hend & ? & Hd4 & Hh); [subst l; set_solver|]. fold bs in Hend.
  apply (seal_block m); try done; [lia|intros x Hx; apply Hf; lia|].
  subst l. pose proof (proj1 Hl) as Hch. apply chain_app in Hch as (mid & _ & Hmid & _ & _ & _ & Hch).
  apply (replace_tailed m m' sb data l1 [d] l2 (d_off d) (d_off d + d_len d)); try done.
  - intros ->. destruct (has_csum m sb) eqn:Hc'; [|done]. exfalso.
    destruct (tail_record _ _ _ _ _ Hl Hc') as [Ez Et]. unfold room in Hr. rewrite Ez, Et, !Z.eqb_refl in Hr. lia.
  - intros d' Hd'. rewrite Hmid. by apply (chain_in _ _ _ _ _ _ d' Hch).
  - intros x Hx. apply Hf. lia.
Qed.
End try_insert.

(** ** Finding *)

Lemma memcmp_bytes n m : forall p q, memcmp n m p q = 0 <-> bytes_of m p n = bytes_of m q n.
Proof.
  induction n as [|n IH]; intros p q; cbn [memcmp]; [done|]. rewrite !bytes_of_S. case_if.
  - rewrite IH, E. split; [by intros ->|by intros [= ->]].
  - split; [lia|by intros [= ?]].
Qed.

(** The entry is the first record in use with the name. *)
Definition named (name : list Z) (d : dent) : Prop := live d /\ d_name d = name.

#[global] Instance live_dec d : Decision (live d).
Proof. unfold live. apply _. Defined.
#[global] Instance named_dec name d : Decision (named name d).
Proof. unfold named. apply _. Defined.

Section find.
Context (m : memory) (sb data name : Z) (nl : nat).
Let bs := ext4_sb_get_block_size m sb.
Let nm := bytes_of m name nl.

Lemma find_loop_ok l : forall off fuel, chain m sb data off l bs -> (length l < fuel)%nat ->
  find_loop fuel m sb (Z.of_nat nl) name (data + off) (data + bs) =
  Some match list_find (named nm) l with Some (_, d) => (EOK, data + d_off d) | None => (ENOENT, 0) end.
Proof.
  induction l as [|d l IH]; intros off fuel Hl Hfuel; (destruct fuel as [|fuel]; [cbn in Hfuel; lia|]); cbn [find_loop].
  { cbn in Hl. case_if; [done|lia]. }
  pose proof Hl as (<- & H1 & H2 & (E1 & E2 & E3 & E4) & H4). unfold sizeof_fake in H1.
  pose proof (chain_le _ _ _ _ _ _ H4). case_if; [lia|].
  destruct (Z.ltb_spec (data + bs) (data + d_off d + Z.of_nat nl)) as [Hlong|Hlong].
  { rewrite (proj2 (list_find_None _ _)); [done|]. apply Forall_forall. intros d' Hd' [Hlive Hn].
    destruct (chain_in _ _ _ _ _ _ d' Hl Hd') as (? & ? & ? & _ & _ & _ & _ & Hin).
    destruct (Hin Hlive) as (Hlen & _). rewrite Hn in Hlen. unfold nm, sizeof_fake in Hlen.
    rewrite bytes_of_length in Hlen. lia. }
  rewrite E1, E2. cbn [list_find].
  assert (negb (d_ino d =? 0) && (ext4_dir_en_get_name_len m sb (data + d_off d) =? Z.of_nat nl)
      && (memcmp (Z.to_nat (Z.of_nat nl)) m name (data + d_off d + sizeof_fake) =? 0) = bool_decide (named nm d)) as ->.
  { apply Bool.eq_iff_eq_true. rewrite bool_decide_eq_true, !andb_true_iff, negb_true_iff, Z.eqb_neq, !Z.eqb_eq,
      Nat2Z.id, memcmp_bytes. unfold named, live. split.
    - intros [[Hd En] Em]. destruct (E4 Hd) as (_ & E6 & E7). split; [done|].
      unfold nm. rewrite Em, <- E7 at 1. f_equal. lia.
    - intros [Hd En]. destruct (E4 Hd) as (_ & E6 & E7). rewrite En in E6, E7. unfold nm in E6, E7.
      rewrite bytes_of_length in E6, E7. done. }
  case_bool_decide as Hd.
  - by rewrite decide_True.
  - rewrite decide_False by done. case_if; [lia|]. rewrite <- Z.add_assoc, IH by (done || (cbn in Hfuel; lia)).
    by destruct (list_find (named nm) l) as [[? ?]|].
Qed.
End find.

(** ** Removing *)

(** The records in front of and with the removed one. *)
Definition without (l1 : list dent) (d : dent) : list dent :=
  match last l1 with
  | None => [Dent (d_off d) (d_len d) 0 (d_name d) (d_type d)]
  | Some p => removelast l1 ++ [Dent (d_off p) (d_len p + d_len d) (d_ino p) (d_name p) (d_type p)]
  end.

Lemma predecessor_ok m sb data pos : pos < 2 ^ 32 -> forall l d p off fuel, chain m sb data off (d :: l) pos ->
  last (d :: l) = Some p -> 0 <= off -> (length l < fuel)%nat ->
  predecessor_loop fuel m data pos off (d_len d) = Some (d_off p, d_len p).
Proof.
  intros Hpos. induction l as [|d' l IH]; intros d p off fuel Hl Hp Ho Hfuel;
    (destruct fuel as [|fuel]; [cbn in Hfuel; lia|]); cbn [predecessor_loop].
  - destruct Hl as (<- & H1 & _ & _ & Hend). cbn in Hend. injection Hp as <-. unfold sizeof_fake in *.
    rewrite uw_small by lia. case_if; [lia|done].
  - pose proof Hl as (<- & H1 & _ & _ & H4). pose proof H4 as (E & H1' & _ & (_ & E2 & _) & H5).
    pose proof (chain_le _ _ _ _ _ _ H5). unfold sizeof_fake in *.
    rewrite uw_small by lia. case_if; [|lia]. rewrite E in E2. rewrite E2.
    apply IH; try done; [lia|cbn in Hfuel; lia].
Qed.

Section remove.
Context (m : memory) (sb data index ino : Z) (l1 l2 : list dent) (d : dent).
Let bs := ext4_sb_get_block_size m sb.
Hypothesis (Hbs : 1024 <= bs < 2 ^ 16) (Hsb : apart sb 1024 data bs) (Hino : apart ino 128 data bs).
Hypothesis (Hl : dir_block m sb data (l1 ++ d :: l2)) (Hd : live d).
Let m1 := ext4_dir_en_set_inode m (data + d_off d) 0.

Lemma removed_parts : chain m sb data 0 l1 (d_off d) /\ 0 <= d_off d /\ d_off d + d_len d <= bs /\ 8 <= d_len d /\
  d_len d mod 4 = 0 /\ holds m sb data d /\ chain m sb data (d_off d + d_len d) l2 bs.
Proof.
  destruct Hl as [Hc _]. apply chain_app in Hc as (mid & H1 & <- & H2 & H3 & H4 & H5).
  pose proof (chain_le _ _ _ _ _ _ H1). pose proof (chain_le _ _ _ _ _ _ H5). unfold sizeof_fake in *. fold bs in H5.
  split; [done|]. do 4 (split; [done || lia|]). done.
Qed.

Lemma set_inode_frame x : x < data + d_off d \/ data + d_off d + 4 <= x -> m1 x = m x.
Proof. intros Hx. apply fset_other; [done|]. cbn. lia. Qed.

Lemma removed_sb : same_on sb (sb + 1024) m m1.
Proof. destruct removed_parts as (_ & ? & ? & ? & _). intros x Hx. apply set_inode_frame. unfold apart in *. lia. Qed.

Lemma removed_holds : holds m1 sb data (Dent (d_off d) (d_len d) 0 (d_name d) (d_type d)).
Proof.
  destruct removed_parts as (_ & _ & _ & _ & _ & (H1 & H2 & H3 & _) & _). unfold holds. cbn [d_off d_len d_ino d_name d_type].
  unfold ext4_dir_en_get_inode, ext4_dir_en_get_inode_type, ext4_dir_en_get_entry_len in *.
  rewrite !(fget_sb _ m m1 sb) by (apply removed_sb || fld). unfold m1, ext4_dir_en_set_inode.
  rewrite fget_fset_same by done. rewrite !fget_fset_other by fld. done.
Qed.

Lemma live_not_last : l2 = [] -> has_csum m sb = false.
Proof.
  intros ->. destruct (has_csum m sb) eqn:Hc; [|done]. destruct (tail_record _ _ _ _ _ Hl Hc) as [Ez _]. by destruct Hd.
Qed.
Lemma removed_first : l1 = [] -> chain m1 sb data 0 (without l1 d ++ l2) bs /\ tailed m1 sb data (without l1 d ++ l2).
Proof.
  intros E. destruct removed_parts as (H1 & Ho & He & H8 & H4 & Hh & H2). rewrite E in H1. cbn in H1.
  unfold without. rewrite E. cbn [last]. split.
  - cbn [app chain d_off d_len]. do 3 (split; [done|]). split; [apply removed_holds|].
    replace (0 + d_len d) with (d_off d + d_len d) by lia. apply (chain_ext m); [apply removed_sb| |done]. intros x Hx. apply set_inode_frame. lia.
  - apply (replace_tailed m m1 sb data [] [d] l2 (d_off d) (d_off d + d_len d)
      [Dent (d_off d) (d_len d) 0 (d_name d) (d_type d)]); try done.
    + generalize Hl. by rewrite E.
    + apply live_not_last.
    + intros d' Hd'. by apply (chain_in _ _ _ _ _ _ d' H2).
    + intros x Hx. apply set_inode_frame. lia.
Qed.

Section merge.
Context (l0 : list dent) (p : dent) (Hp : l1 = l0 ++ [p]).
Let m2 := ext4_dir_en_set_entry_len m1 (data + d_off p) (d_len p + d_len d).

Lemma pred_parts : chain m sb data 0 l0 (d_off p) /\ 0 <= d_off p /\ 8 <= d_len p /\ d_len p mod 4 = 0 /\
  holds m sb data p /\ d_off p + d_len p = d_off d.
Proof.
  destruct removed_parts as (H1 & _). rewrite Hp in H1. apply chain_app in H1 as (mid & H1 & <- & H2 & H3 & H4 & H5).
  pose proof (chain_le _ _ _ _ _ _ H1). do 4 (split; [done|]). done.
Qed.

Lemma merged_frame x : x < data + d_off p \/ data + d_off d + d_len d <= x -> m2 x = m x.
Proof.
  intros Hx. destruct pred_parts as (_ & _ & ? & _ & _ & ?). destruct removed_parts as (_ & _ & _ & ? & _).
  unfold m2. rewrite set_entry_len_frame by lia. apply set_inode_frame. lia.
Qed.

Lemma merged_sb : same_on sb (sb + 1024) m m2.
Proof.
  destruct pred_parts as (_ & ? & ? & _ & _ & ?). destruct removed_parts as (_ & _ & ? & ? & _).
  intros x Hx. apply merged_frame. unfold apart in *. lia.
Qed.

Lemma merged_last : chain m2 sb data 0 (without l1 d ++ l2) bs /\ tailed m2 sb data (without l1 d ++ l2).
Proof.
  destruct pred_parts as (P1 & P2 & P3 & P4 & P5 & P6). destruct removed_parts as (_ & Ho & He & H8 & H4 & Hh & H2).
  unfold without. rewrite Hp, last_snoc, removelast_last, <- app_assoc. split.
  - apply chain_app. exists (d_off p). split.
    { apply (chain_ext m); [apply merged_sb| |done]. intros x Hx. apply merged_frame. lia. }
    cbn [app chain d_off d_len]. unfold sizeof_fake. split; [done|]. split; [lia|].
    split; [Z.to_euclidean_division_equations; lia|]. split.
    + apply cut_holds; [|unfold apart in *; lia..|].
      * apply (holds_ext m); [apply removed_sb|..|done]; intros; intros x Hx; apply set_inode_frame; lia.
      * intros Hlp. destruct P5 as (_ & _ & _ & P5). specialize (P5 Hlp). lia.
    + rewrite Z.add_assoc, P6. apply (chain_ext m); [apply merged_sb| |done]. intros x Hx. apply merged_frame. lia.
  - apply (replace_tailed m m2 sb data l0 [p; d] l2 (d_off p) (d_off d + d_len d)
      [Dent (d_off p) (d_len p + d_len d) (d_ino p) (d_name p) (d_type p)]); try done.
    + generalize Hl. rewrite Hp, <- app_assoc. done.
    + apply live_not_last.
    + cbn [chain]. rewrite P6. unfold sizeof_fake. do 4 (split; [done|]). done.
    + intros d' Hd'. by apply (chain_in _ _ _ _ _ _ d' H2).
    + intros x Hx. apply merged_frame. lia.
Qed.
End merge.

Lemma remove_found_ok fuel : (length l1 < fuel)%nat -> exists m',
  remove_found fuel m sb index ino data (data + d_off d) = Some m' /\
  (forall x, x < data \/ data + bs <= x -> m' x = m x) /\ dir_block m' sb data (without l1 d ++ l2) /\
  ext4_dir_csum_verify m' sb index ino data = true.
Proof.
  intros Hfuel. destruct removed_parts as (H1 & Ho & He & H8 & H4 & Hh & H2).
  unfold remove_found. fold m1. replace (data + d_off d - data) with (d_off d) by lia.
  rewrite (uw_small 32 (d_off d)) by (pow2; lia).
  destruct (Z.eqb_spec (d_off d) 0) as [E|E]; cbn [negb].
  - assert (l1 = []) as El1.
    { destruct l1 as [|p l]; [done|]. destruct H1 as (_ & ? & _ & _ & Hc). apply chain_le in Hc.
      unfold sizeof_fake in *. lia. }
    destruct (removed_first El1) as [Hc Ht]. eexists. split; [reflexivity|].
    apply (seal_block m m1); try done; [lia|]. intros x Hx. apply set_inode_frame. lia.
  - assert (exists l0 p, l1 = l0 ++ [p]) as (l0 & p & Hp).
    { destruct l1 as [|p l0 _] using rev_ind; [by cbn in H1|eauto]. }
    destruct (pred_parts l0 p Hp) as (P1 & P2 & P3 & P4 & P5 & P6).
    assert (predecessor_loop fuel m1 data (d_off d) 0 (ext4_dir_en_get_entry_len m1 data) = Some (d_off p, d_len p)) as ->.
    { apply (chain_ext m m1) in H1; [|apply removed_sb|intros x Hx; apply set_inode_frame; lia].
      assert (last l1 = Some p) as Hlast by (rewrite Hp; apply last_snoc).
      clear P1 Hp. destruct l1 as [|d0 l]; [done|]. pose proof H1 as (E0 & _ & _ & (_ & E2 & _) & _).
      rewrite E0, Z.add_0_r in E2. rewrite E2. cbn in Hfuel.
      apply (predecessor_ok m1 sb data (d_off d) ltac:(pow2; lia) l); (done || lia). }
    cbn [mbind option_bind]. rewrite (Z.add_comm (d_len p)), P6, (uw_small 32 (d_off d)) by (pow2; lia).
    rewrite Z.eqb_refl. cbn [negb mbind option_bind].
    assert (ext4_dir_en_get_entry_len m1 (data + d_off d) = d_len d) as -> by apply removed_holds.
    rewrite (uw_small 16 (d_len p + d_len d)) by (pow2; lia). destruct (merged_last l0 p Hp) as [Hc Ht].
    eexists. split; [reflexivity|]. eapply (seal_block m); try done; [lia|].
    intros x Hx. eapply merged_frame; [exact Hp|]. lia.
Qed.
End remove.

(** ** The block as a map from names *)

Definition dir_map (l : list dent) : gmap (list Z) (Z * Z) := list_to_map (entries l).
Definition unique (l : list dent) : Prop := NoDup (entries l).*1.

Lemma entries_app l1 l2 : entries (l1 ++ l2) = entries l1 ++ entries l2.
Proof. unfold entries. by rewrite filter_app, fmap_app. Qed.

Lemma entries_put name ino type d : ino <> 0 ->
  entries (put name ino type d) = entries [d] ++ [(name, (ino, type))].
Proof.
  intros Hi. unfold put, entries. destruct (Z.eqb_spec (d_ino d) 0) as [Hd|Hd].
  - rewrite (filter_cons_False _ d) by (unfold live; lia). by rewrite filter_cons_True by done.
  - by rewrite !filter_cons_True by done.
Qed.

Lemma entries_without l1 d : live d -> entries (without l1 d) = entries l1.
Proof.
  intros Hd. unfold without. destruct l1 as [|p l1 _] using rev_ind; [done|].
  rewrite last_snoc, removelast_last, !entries_app. f_equal. unfold entries.
  destruct (decide (live p)); [rewrite !filter_cons_True by done|rewrite !filter_cons_False by done]; done.
Qed.

Lemma entries_elem l d : d ∈ l -> live d -> said d ∈ entries l.
Proof. intros. apply list_elem_of_fmap_2. by apply list_elem_of_filter. Qed.

Lemma find_map l name : unique l ->
  match list_find (named name) l with
  | Some (_, d) => d ∈ l /\ named name d /\ dir_map l !! name = Some (d_ino d, d_type d)
  | None => dir_map l !! name = None
  end.
Proof.
  intros Hu. destruct (list_find (named name) l) as [[i d]|] eqn:E.
  - apply list_find_Some in E as (Hi & Hn & _). pose proof (list_elem_of_lookup_2 _ _ _ Hi) as Hd.
    split; [done|]. split; [done|]. apply elem_of_list_to_map_1; [done|].
    destruct Hn as [Hl <-]. by apply entries_elem.
  - apply list_find_None in E. apply not_elem_of_list_to_map_1. intros Hin.
    apply list_elem_of_fmap in Hin as ([n v] & -> & Hin). apply list_elem_of_fmap in Hin as (d & Eq & Hd).
    apply list_elem_of_filter in Hd as [Hl Hd]. rewrite Forall_forall in E. apply (E d Hd). split; [done|].
    by injection Eq as -> ?.
Qed.

Lemma chain_length m sb data l stop : forall off, chain m sb data off l stop -> 8 * Z.of_nat (length l) <= stop - off.
Proof.
  induction l as [|d l IH]; intros off; cbn [chain length]; [lia|]. intros (_ & ? & _ & _ & H). apply IH in H.
  unfold sizeof_fake in *. lia.
Qed.

Lemma block_fuel m sb data l fuel : dir_block m sb data l -> ext4_sb_get_block_size m sb < 8 * Z.of_nat fuel ->
  (length l < fuel)%nat.
Proof. intros [H _] Hf. apply chain_length in H. lia. Qed.

(** The superblock and the inode of the directory lie outside the block. *)
Definition placed (m : memory) (sb data ino : Z) : Prop :=
  let bs := ext4_sb_get_block_size m sb in
  1024 <= bs < 2 ^ 16 /\ apart sb 1024 data bs /\ apart ino 128 data bs.

(** ** Example

    A block of 1024 bytes with checksums on, with the superblock at 0, the
    block at 4096, the directory 12 at 8192, its child 13 at 8448 and names at
    9000 and 9100. *)
Definition sample_dir_base : memory :=
  let m := fset sb_features_read_only (fset sb_rev_level (fun _ => 0) 0 1) 0 EXT4_FRO_COM_METADATA_CSUM in
  let m := fset ino_mode (fset ino_mode m 8192 0x41ED) 8448 0x81A4 in
  let m := st8 (st8 m 9000 97) 9001 98 in
  st8 (st8 (st8 m 9100 120) 9101 121) 9102 122.

Definition sample_dir : memory :=
  let m := memset sample_dir_base 4096 0 1024 in
  let m := default m (ext4_dir_write_entry m 0 4096 1012 13 8448 9000 2) in
  let m := ext4_dir_init_entry_tail m (EXT4_DIRENT_TAIL 4096 1024) in
  ext4_dir_set_csum m 0 12 8192 4096.

Definition sample_records : list dent := [Dent 0 1012 13 [97; 98] 1; Dent 1012 12 0 [] 0xDE].

Lemma sample_dir_block : dir_block sample_dir 0 4096 sample_records.
Proof.
  split.
  - cbn [chain sample_records d_off d_len]. unfold holds. cbn [d_off d_len d_ino d_name d_type length].
    repeat split; try (vm_compute; congruence).
  - intros _. repeat split; try (vm_compute; reflexivity). by exists [Dent 0 1012 13 [97; 98] 1], (Dent 1012 12 0 [] 0xDE).
Qed.

Lemma sample_placed : placed sample_dir 0 4096 8192.
Proof. repeat split; try (vm_compute; congruence); (left; vm_compute; congruence) || (right; vm_compute; congruence). Qed.

Lemma sample_unique : unique sample_records.
Proof. repeat constructor. set_solver. Qed.

Lemma sample_fuel : ext4_sb_get_block_size sample_dir 0 < 8 * Z.of_nat 200.
Proof. vm_compute. reflexivity. Qed.

(** ** Theorems *)

(** Finding a name in a directory block looks it up: [ext4_dir_find_in_block]
    ends, with the record in use that has the name when the block maps the name
    to an inode number and type, and with [ENOENT] when it does not. *)
Theorem dir_find m sb data ino name nl l fuel :
  placed m sb data ino -> dir_block m sb data l -> unique l -> ext4_sb_get_block_size m sb < 8 * Z.of_nat fuel ->
  let run := ext4_dir_find_in_block fuel m data sb (Z.of_nat nl) name in
  match dir_map l !! bytes_of m name nl with
  | Some (i, t) => exists d, d ∈ l /\ run = Some (EOK, data + d_off d) /\ d_name d = bytes_of m name nl /\
      ext4_dir_en_get_inode m (data + d_off d) = i /\ ext4_dir_en_get_inode_type m sb (data + d_off d) = t
  | None => run = Some (ENOENT, 0)
  end.
Proof.
  intros (Hbs & _ & _) Hl Hu Hf run. pose proof (block_fuel _ _ _ _ _ Hl Hf) as Hfuel.
  pose proof (find_loop_ok m sb data name nl l 0 fuel (proj1 Hl) Hfuel) as E. rewrite Z.add_0_r in E.
  fold run in E. pose proof (find_map l (bytes_of m name nl) Hu) as Hm.
  destruct (list_find _ l) as [[k d]|]; [|by rewrite Hm].
  destruct Hm as (Hd & [Hlive Hn] & ->). exists d. do 3 (split; [done|]).
  destruct (chain_in _ _ _ _ _ _ d (proj1 Hl) Hd) as (_ & _ & _ & _ & H1 & _ & H3 & _). done.
Qed.

Lemma dir_find_witness : exists d, d ∈ sample_records /\
  ext4_dir_find_in_block 200 sample_dir 4096 0 2 9000 = Some (EOK, 4096 + d_off d) /\ d_name d = [97; 98].
Proof.
  assert (dir_map sample_records !! bytes_of sample_dir 9000 2 = Some (13, 1)) as E by (vm_compute; reflexivity).
  assert (bytes_of sample_dir 9000 2 = [97; 98]) as En by (vm_compute; reflexivity).
  pose proof (dir_find sample_dir 0 4096 8192 9000 2 sample_records 200 sample_placed sample_dir_block
    sample_unique sample_fuel) as H. cbv zeta in H. rewrite E, En in H.
  destruct H as (d & Hd & Hr & Hn & _). exists d. split; [exact Hd|]. split; [exact Hr|exact Hn].
Defined.

(** Inserting a new name into a directory block: [ext4_dir_try_insert_entry]
    ends; it refuses with [ENOSPC] and changes nothing exactly when no record has
    room for the entry, and otherwise the block is well-formed again, maps the
    name to the child and every other name as before, has a valid checksum, and
    no byte outside it changed. *)
Theorem dir_insert m sb data index ino cindex child name nl l fuel :
  let bs := ext4_sb_get_block_size m sb in
  let nm := bytes_of m name nl in
  placed m sb data ino -> apart child 128 data bs -> apart name (Z.of_nat nl) data bs ->
  Z.of_nat nl < 256 -> 0 < cindex < 2 ^ 32 -> dir_block m sb data l -> unique l -> dir_map l !! nm = None ->
  bs < 8 * Z.of_nat fuel ->
  let run := ext4_dir_try_insert_entry fuel m sb index ino data cindex child name (Z.of_nat nl) in
  ((forall d, d ∈ l -> room d < need (Z.of_nat nl)) /\ run = Some (ENOSPC, m)) \/
  ((exists d, d ∈ l /\ need (Z.of_nat nl) <= room d) /\
   exists m' l', run = Some (EOK, m') /\ dir_block m' sb data l' /\ unique l' /\
     dir_map l' = <[nm := (cindex, new_type m sb child)]> (dir_map l) /\
     ext4_dir_csum_verify m' sb index ino data = true /\
     forall x, x < data \/ data + bs <= x -> m' x = m x).
Proof.
  intros bs nm (Hbs & Hsb & Hino) Hc Hn Hnl Hci Hl Hu Hnew Hf run.
  destruct (try_insert_cases m sb data index ino cindex child name nl l Hbs Hsb Hino Hc Hn Hnl Hci Hl fuel
    (block_fuel _ _ _ _ _ Hl Hf)) as [[Hr E]|(l1 & d & l2 & m' & -> & Hr & E & Hx & Hb & Hv)].
  { left. split; [by apply Forall_forall|done]. }
  right. split; [exists d; split; [set_solver|done]|]. eexists m', _. split; [exact E|]. split; [exact Hb|].
  assert (entries (l1 ++ put nm cindex (new_type m sb child) d ++ l2) ≡ₚ
    (nm, (cindex, new_type m sb child)) :: entries (l1 ++ d :: l2)) as Hp.
  { rewrite (cons_middle d), !entries_app, entries_put by lia. solve_Permutation. }
  assert (unique (l1 ++ put nm cindex (new_type m sb child) d ++ l2)) as Hu'.
  { unfold unique. rewrite Hp. cbn. constructor; [by apply not_elem_of_list_to_map_2|done]. }
  split; [done|]. split; [|done]. unfold dir_map. by rewrite (list_to_map_proper _ _ Hu' Hp).
Qed.

Lemma dir_insert_witness : exists m' l',
  ext4_dir_try_insert_entry 200 sample_dir 0 12 8192 4096 13 8448 9100 3 = Some (EOK, m') /\
  dir_block m' 0 4096 l' /\ dir_map l' = <[[120; 121; 122] := (13, 1)]> (dir_map sample_records).
Proof.
  assert (bytes_of sample_dir 9100 3 = [120; 121; 122]) as En by (vm_compute; reflexivity).
  assert (new_type sample_dir 0 8448 = 1) as Et by (vm_compute; reflexivity).
  assert (room (Dent 0 1012 13 [97; 98] 1) < need 3 -> False) as Hr by (vm_compute; congruence).
  pose proof (dir_insert sample_dir 0 4096 12 8192 13 8448 9100 3 sample_records 200 sample_placed) as H.
  cbv zeta in H. rewrite En, Et in H.
  destruct H as [[H _]|[_ (m' & l' & H & Hb & _ & Hm & _)]];
    [right; vm_compute; congruence|right; vm_compute; congruence|reflexivity|split; reflexivity|exact sample_dir_block|
     exact sample_unique|reflexivity|exact sample_fuel|destruct Hr; apply H; by left|].
  exists m', l'. split; [exact H|]. split; [exact Hb|exact Hm].
Defined.

(** Removing a record in use from a directory block ends: the space goes to
    the record in front of it or, for the first one, stays as a free record; the
    block is well-formed again, forgets the name and no other, has a valid
    checksum, and no byte outside it changed. *)
Theorem dir_remove m sb data index ino l d fuel :
  placed m sb data ino -> dir_block m sb data l -> unique l -> d ∈ l -> live d ->
  ext4_sb_get_block_size m sb < 8 * Z.of_nat fuel ->
  exists m' l', remove_found fuel m sb index ino data (data + d_off d) = Some m' /\ dir_block m' sb data l' /\
    unique l' /\ dir_map l' = delete (d_name d) (dir_map l) /\
    ext4_dir_csum_verify m' sb index ino data = true /\
    forall x, x < data \/ data + ext4_sb_get_block_size m sb <= x -> m' x = m x.
Proof.
  intros (Hbs & Hsb & Hino) Hl Hu Hd Hlive Hf. pose proof (block_fuel _ _ _ _ _ Hl Hf) as Hfuel.
  apply list_elem_of_split in Hd as (l1 & l2 & ->).
  destruct (remove_found_ok m sb data index ino l1 l2 d Hbs Hsb Hino Hl Hlive fuel) as (m' & E & Hx & Hb & Hv).
  { rewrite length_app in Hfuel. lia. }
  exists m', (without l1 d ++ l2). do 2 (split; [done|]).
  assert (entries (l1 ++ d :: l2) = entries l1 ++ said d :: entries l2) as E1.
  { rewrite (cons_middle d), !entries_app. unfold entries at 2. by rewrite filter_cons_True by done. }
  unfold unique, dir_map in *. rewrite E1 in *. rewrite entries_app, entries_without by done.
  rewrite fmap_app, fmap_cons in Hu.
  assert (entries l1 ++ said d :: entries l2 ≡ₚ said d :: entries l1 ++ entries l2) as Hp by solve_Permutation.
  assert (NoDup ((said d :: entries l1 ++ entries l2).*1)) as Hu2.
  { rewrite fmap_cons, fmap_app. by rewrite Permutation_middle. }
  pose proof Hu2 as Hu3. rewrite fmap_cons in Hu3. apply NoDup_cons in Hu3 as [Hni Hu3].
  split; [done|]. split; [|done]. rewrite <- (list_to_map_proper _ _ Hu2 (symmetry Hp)). cbn.
  symmetry. apply delete_insert_id. by apply not_elem_of_list_to_map_1.
Qed.

Lemma dir_remove_witness : exists m' l', remove_found 200 sample_dir 0 12 8192 4096 4096 = Some m' /\
  dir_block m' 0 4096 l' /\ dir_map l' = ∅.
Proof.
  destruct (dir_remove sample_dir 0 4096 12 8192 sample_records (Dent 0 1012 13 [97; 98] 1) 200 sample_placed
    sample_dir_block sample_unique ltac:(by left) ltac:(discriminate) sample_fuel) as (m' & l' & H & Hb & _ & Hm & _).
  exists m', l'. split; [exact H|]. split; [exact Hb|exact Hm].
Defined.

(** Insertion does not check the lengths of the records it walks over: at a free
    record of length 0 it stays for ever, and a record in use that is shorter
    than its name makes the free space wrap around at 16 bits and the kernel stop
    at the assertion of [ext4_dir_write_entry].  [ext4_dir_find_in_block] reports
    the former as [EINVAL]. *)
Theorem insert_stuck m sb data index ino cindex child name nl fuel :
  let bs := ext4_sb_get_block_size m sb in
  let inode := ext4_dir_en_get_inode m data in
  let rec_len := ext4_dir_en_get_entry_len m data in
  let used := ext4_dir_en_get_name_len m sb data in
  1024 <= bs <= 32768 -> apart sb 1024 data bs -> 0 <= nl < 256 -> used < 256 ->
  (inode = 0 /\ rec_len = 0) \/ (inode <> 0 /\ rec_len < need used) ->
  ext4_dir_try_insert_entry fuel m sb index ino data cindex child name nl = None.
Proof.
  intros bs inode rec_len used Hbs Hsb Hnl Hu Hcase. unfold ext4_dir_try_insert_entry. rewrite round_need by lia. fold bs.
  pose proof (need_bounds nl ltac:(lia)) as [Hn _].
  pose proof (fget_range de_entry_len m data) as Hr. fold (ext4_dir_en_get_entry_len m data) rec_len in Hr.
  induction fuel as [|fuel IH]; [done|]. cbn [insert_loop]. fold inode rec_len used. case_if; [lia|].
  destruct Hcase as [[-> ->]|[Hi Hlt]].
  - rewrite andb_comm. destruct (Z.leb_spec (need nl) 0); [lia|]. cbn [andb negb Z.eqb].
    rewrite Z.add_0_r. apply IH.
  - assert (0 <= used) as Hu0.
    { unfold used, ext4_dir_en_get_name_len. pose proof (fget_range de_name_len m data). case_if; [|lia].
      apply Z.lor_nonneg. split; [lia|]. by apply uw_nonneg. }
    pose proof (need_bounds used Hu0) as [Hb _].
    destruct (Z.eqb_spec inode 0); [done|]. cbn [andb negb]. rewrite round_used by lia.
    assert (u16 (rec_len - need used) = rec_len - need used + 2 ^ 16) as ->.
    { unfold uw. rewrite <- (Z.mod_add _ 1) by lia. rewrite Z.mod_small; lia. }
    destruct (Z.leb_spec (need nl) (rec_len - need used + 2 ^ 16)); [|pow2; lia].
    unfold ext4_dir_write_entry. rewrite (block_size_sb m) by
      (intros x Hx; apply set_entry_len_frame; unfold apart in *; lia). fold bs.
    destruct (Z.leb_spec (rec_len - need used + 2 ^ 16) bs); [pow2; lia|done].
Qed.

Lemma insert_stuck_witness :
  ext4_dir_try_insert_entry 100000 (memset sample_dir_base 4096 0 1024) 0 12 8192 4096 13 8448 9100 3 = None.
Proof.
  apply (insert_stuck _ 0 4096 12 8192 13 8448 9100 3); [split; vm_compute; congruence|left; vm_compute; congruence|
    split; vm_compute; congruence|vm_compute; congruence|left; split; vm_compute; congruence].
Defined.

(** A block whose last record is a header with a name length of two: the name
    compared with the caller's lies behind the end of the block. *)
Definition sample_short : memory :=
  let m := memset sample_dir_base 4096 0 1024 in
  let m := ext4_dir_en_set_entry_len m 4096 1016 in
  let m := ext4_dir_en_set_inode (ext4_dir_en_set_entry_len m 5112 8) 5112 13 in
  ext4_dir_en_set_name_len m 0 5112 2.

(** The bound of [ext4_dir_find_in_block] leaves out the header of the record, so
    that a damaged block makes it read past the end of the block: what it
    answers depends on bytes that are not part of it. *)
Theorem find_reads_past_block : exists m m',
  same_on 0 1024 m m' /\ same_on 4096 (4096 + ext4_sb_get_block_size m 0) m m' /\ same_on 9000 9002 m m' /\
  ext4_dir_find_in_block 200 m 4096 0 2 9000 = Some (ENOENT, 0) /\
  ext4_dir_find_in_block 200 m' 4096 0 2 9000 = Some (EOK, 5112).
Proof.
  exists sample_short, (st8 (st8 sample_short 5120 97) 5121 98).
  assert (forall lo hi, hi <= 5120 \/ 5122 <= lo -> same_on lo hi sample_short (st8 (st8 sample_short 5120 97) 5121 98)) as H.
  { intros lo hi Hx x Hy. unfold st8. do 2 (case_if; [lia|]). done. }
  split; [apply H; lia|]. split; [apply H; vm_compute; left; congruence|]. split; [apply H; lia|].
  split; vm_compute; reflexivity.
Qed.

(** An entry that an iterator delivers lies in its block with its header and its
    name, whatever the block holds; and in a well-formed block the iterator
    delivers every record that is in use. *)
Theorem iterator_safe m sb data off l :
  let bs := ext4_sb_get_block_size m sb in
  8 <= bs < 2 ^ 16 -> 0 <= off < bs ->
  (forall en, ext4_dir_iterator_set m sb data off bs = (EOK, Some en) ->
     en = data + off /\ off + 8 + ext4_dir_en_get_name_len m sb en <= off + ext4_dir_en_get_entry_len m en <= bs) /\
  (forall d, chain m sb data 0 l bs -> d ∈ l -> live d -> d_off d mod 4 = 0 -> off = d_off d ->
     ext4_dir_iterator_set m sb data off bs = (EOK, Some (data + off))).
Proof.
  intros bs Hbs Hoff. unfold ext4_dir_iterator_set. rewrite (Z.mod_small off bs) by lia.
  pose proof (ld16_range m (data + off + 4)) as Hr.
  change (ld16 m (data + off + 4)) with (ext4_dir_en_get_entry_len m (data + off)) in Hr.
  rewrite (uw_small 32 (bs - 8)), (uw_small 32 (off + ext4_dir_en_get_entry_len m (data + off))) by (pow2; lia). split.
  - intros en E. repeat case_if_in E; try done. injection E as <-. split; [done|]. lia.
  - intros d Hc Hd Hlive H4 ->. destruct (chain_in _ _ _ _ _ _ d Hc Hd) as (? & ? & ? & _ & _ & E2 & _ & E4).
    destruct (E4 Hlive) as (E5 & E6 & _). rewrite E2, E6. unfold sizeof_fake in *.
    case_if; [done|]. case_if; [lia|]. case_if; [lia|]. case_if; [lia|done].
Qed.

Lemma iterator_safe_witness : ext4_dir_iterator_set sample_dir 0 4096 0 1024 = (EOK, Some 4096).
Proof.
  refine (proj2 (iterator_safe sample_dir 0 4096 0 sample_records _ _) (Dent 0 1012 13 [97; 98] 1)
    (proj1 sample_dir_block) _ _ eq_refl eq_refl); [split; vm_compute; congruence|split; vm_compute; congruence|by left|discriminate].
Defined.
