(* ===== verification/Ext4Bcache.v ===== *)
(** lwext4, the block cache: [src/ext4_bcache.c], [include/ext4_bcache.h] and
    the cached access of [src/ext4_blockdev.c].

    A buffer is named by its block address, the key of the tree [lba_root] that
    holds every buffer; the tree [lru_root] of the unreferenced ones is its
    in-order sequence of addresses.  The device behind [bread] and [bwrite] is a
    class.  [None] stands for a failed assertion, a pointer to a dropped buffer
    or a loop that runs out of fuel.  A callback [end_write] is recorded with
    its argument and the status; what the journal does in it is not part of
    this model. *)
From stdpp Require Import sorting.
From S2P Require Import Prelude Memory Ext4Errno.
#[local] Open Scope Z_scope.
#[local] Open Scope cint_scope.

(** ** The device *)

(** [struct ext4_blockdev_iface]: [bread dev blk cnt] gives the status, the
    bytes read and the device, [bwrite dev bytes blk cnt] the status and the
    device.  [contents] is what is stored, byte by byte. *)
Class BlockIface (D : Type) := {
  ph_bsize : Z;
  bread : D -> Z -> Z -> Z * list Z * D;
  bwrite : D -> list Z -> Z -> Z -> Z * D;
  contents : D -> memory;
}.

(** Reading does not change what is stored and delivers it; writing changes the
    blocks written only and, when it succeeds, stores the bytes. *)
Class BlockIfaceLaws (D : Type) `{BlockIface D} := {
  ph_bsize_pos : 0 < ph_bsize;
  bread_keeps d blk cnt x : contents (bread d blk cnt).2 x = contents d x;
  bread_gets d blk cnt : (bread d blk cnt).1.1 = 0 ->
    (bread d blk cnt).1.2 = bytes_of (contents d) (blk * ph_bsize) (Z.to_nat (cnt * ph_bsize));
  bread_length d blk cnt : length (bread d blk cnt).1.2 = Z.to_nat (cnt * ph_bsize);
  bread_bytes d blk cnt : Forall (fun b => 0 <= b < 256) (bread d blk cnt).1.2;
  bwrite_keeps d l blk cnt x : x < blk * ph_bsize \/ (blk + cnt) * ph_bsize <= x ->
    contents (bwrite d l blk cnt).2 x = contents d x;
  bwrite_puts d l blk cnt : Z.of_nat (length l) = cnt * ph_bsize -> Forall (fun b => 0 <= b < 256) l ->
    (bwrite d l blk cnt).1 = 0 ->
    bytes_of (contents (bwrite d l blk cnt).2) (blk * ph_bsize) (length l) = l;
}.

(** ** Model *)


Definition BC_UPTODATE : Z := 0.
Definition BC_DIRTY : Z := 1.
Definition BC_FLUSH : Z := 2.
Definition BC_TMP : Z := 3.

(** [struct ext4_buf]; [end_write] is the argument of the callback when one is
    set. *)
Record ext4_buf := Buf {
  flags : Z; data : list Z; lru_id : Z; refctr : Z; on_dirty_list : bool; end_write : option Z
}.

(** [struct ext4_bcache] *)
Record ext4_bcache := Bcache {
  cnt : Z; itemsize : Z; lru_ctr : Z; ref_blocks : Z; max_ref_blocks : Z; dont_shake : bool;
  lba_root : gmap Z ext4_buf; lru_root : list Z; dirty_list : list Z
}.

Definition ext4_bcache_set_flag (b : ext4_buf) (k : Z) : ext4_buf :=
  Buf (flags b .| (1 .<< k)) (data b) (lru_id b) (refctr b) (on_dirty_list b) (end_write b).
Definition ext4_bcache_clear_flag (b : ext4_buf) (k : Z) : ext4_buf :=
  Buf (flags b .& Z.lnot (1 .<< k)) (data b) (lru_id b) (refctr b) (on_dirty_list b) (end_write b).
Definition ext4_bcache_test_flag (b : ext4_buf) (k : Z) : bool := c_true ((flags b .& (1 .<< k)) .>> k).

Definition ext4_bcache_set_dirty (b : ext4_buf) : ext4_buf :=
  ext4_bcache_set_flag (ext4_bcache_set_flag b BC_UPTODATE) BC_DIRTY.
Definition ext4_bcache_clear_dirty (b : ext4_buf) : ext4_buf :=
  ext4_bcache_clear_flag (ext4_bcache_clear_flag b BC_UPTODATE) BC_DIRTY.

Definition ext4_bcache_inc_ref (b : ext4_buf) : ext4_buf :=
  Buf (flags b) (data b) (lru_id b) (u32 (refctr b + 1)) (on_dirty_list b) (end_write b).
Definition ext4_bcache_dec_ref (b : ext4_buf) : ext4_buf :=
  Buf (flags b) (data b) (lru_id b) (u32 (refctr b - 1)) (on_dirty_list b) (end_write b).

Definition set_data (b : ext4_buf) (l : list Z) : ext4_buf :=
  Buf (flags b) l (lru_id b) (refctr b) (on_dirty_list b) (end_write b).
Definition set_lru_id (b : ext4_buf) (i : Z) : ext4_buf :=
  Buf (flags b) (data b) i (refctr b) (on_dirty_list b) (end_write b).
Definition set_on_list (b : ext4_buf) (on : bool) : ext4_buf :=
  Buf (flags b) (data b) (lru_id b) (refctr b) on (end_write b).
Definition set_end_write (b : ext4_buf) (e : option Z) : ext4_buf :=
  Buf (flags b) (data b) (lru_id b) (refctr b) (on_dirty_list b) e.

Definition set_root (c : ext4_bcache) (r : gmap Z ext4_buf) : ext4_bcache :=
  Bcache (cnt c) (itemsize c) (lru_ctr c) (ref_blocks c) (max_ref_blocks c) (dont_shake c) r (lru_root c) (dirty_list c).
Definition set_lru (c : ext4_bcache) (l : list Z) : ext4_bcache :=
  Bcache (cnt c) (itemsize c) (lru_ctr c) (ref_blocks c) (max_ref_blocks c) (dont_shake c) (lba_root c) l (dirty_list c).
Definition set_dirty_list (c : ext4_bcache) (l : list Z) : ext4_bcache :=
  Bcache (cnt c) (itemsize c) (lru_ctr c) (ref_blocks c) (max_ref_blocks c) (dont_shake c) (lba_root c) (lru_root c) l.
Definition set_shake (c : ext4_bcache) (x : bool) : ext4_bcache :=
  Bcache (cnt c) (itemsize c) (lru_ctr c) (ref_blocks c) (max_ref_blocks c) x (lba_root c) (lru_root c) (dirty_list c).
Definition set_lru_ctr (c : ext4_bcache) (x : Z) : ext4_bcache :=
  Bcache (cnt c) (itemsize c) x (ref_blocks c) (max_ref_blocks c) (dont_shake c) (lba_root c) (lru_root c) (dirty_list c).
Definition set_refs (c : ext4_bcache) (x mx : Z) : ext4_bcache :=
  Bcache (cnt c) (itemsize c) (lru_ctr c) x mx (dont_shake c) (lba_root c) (lru_root c) (dirty_list c).

(** The buffer at [a] changed by [f]. *)
Definition upd (c : ext4_bcache) (a : Z) (f : ext4_buf -> ext4_buf) : ext4_bcache := set_root c (alter f a (lba_root c)).

Definition ext4_bcache_init_dynamic (cnt itemsize : Z) : option ext4_bcache :=
  if c_true cnt && c_true itemsize then Some (Bcache cnt itemsize 0 0 0 false ∅ [] []) else None.

Definition ext4_bcache_fini_dynamic : ext4_bcache := Bcache 0 0 0 0 0 false ∅ [] [].

(** [RB_INSERT] of the tree ordered by [lru_id]: nothing is inserted when the
    key is there. *)
Fixpoint rb_insert (id : Z -> Z) (a : Z) (l : list Z) : list Z :=
  match l with
  | [] => [a]
  | x :: t => if id a <? id x then a :: l else if id a =? id x then l else x :: rb_insert id a t
  end.

Definition rb_remove (a : Z) (l : list Z) : list Z := filter (fun x => x <> a) l.

Definition id_of (c : ext4_bcache) (a : Z) : Z := default 0 (lru_id <$> lba_root c !! a).

Definition ext4_bcache_insert_dirty_node (c : ext4_bcache) (a : Z) : ext4_bcache :=
  match lba_root c !! a with
  | Some b =>
      if negb (on_dirty_list b)
      then upd (set_dirty_list c (a :: dirty_list c)) a (fun b => set_on_list b true) else c
  | None => c
  end.

Definition ext4_bcache_remove_dirty_node (c : ext4_bcache) (a : Z) : ext4_bcache :=
  match lba_root c !! a with
  | Some b =>
      if on_dirty_list b
      then upd (set_dirty_list c (rb_remove a (dirty_list c))) a (fun b => set_on_list b false) else c
  | None => c
  end.

(** A zeroed descriptor with the memory of [ext4_malloc]. *)
Definition ext4_buf_alloc (mem : list Z) : ext4_buf := Buf 0 mem 0 0 false None.

Definition ext4_buf_lookup (c : ext4_bcache) (a : Z) : option ext4_buf := lba_root c !! a.
Definition ext4_buf_lowest_lru (c : ext4_bcache) : option Z := head (lru_root c).
Definition ext4_bcache_is_full (c : ext4_bcache) : bool := cnt c <=? ref_blocks c.

Definition ext4_bcache_drop_buf (c : ext4_bcache) (a : Z) : option ext4_bcache :=
  b ← lba_root c !! a;
  let c := if refctr b =? 0 then set_lru c (rb_remove a (lru_root c)) else c in
  let c := if ext4_bcache_test_flag b BC_DIRTY then ext4_bcache_remove_dirty_node c a else c in
  let c := set_root c (delete a (lba_root c)) in
  Some (set_refs c (u32 (ref_blocks c - 1)) (max_ref_blocks c)).

Definition ext4_bcache_invalidate_buf (c : ext4_bcache) (a : Z) : ext4_bcache :=
  let c := upd c a (fun b => set_end_write b None) in
  let c :=
    match lba_root c !! a with
    | Some b => if ext4_bcache_test_flag b BC_DIRTY then ext4_bcache_remove_dirty_node c a else c
    | None => c
    end in
  upd c a ext4_bcache_clear_dirty.

(** [RB_FOREACH_FROM] over the addresses [l], which ascend. *)
Fixpoint invalidate_loop (c : ext4_bcache) (l : list Z) (last : Z) : ext4_bcache :=
  match l with
  | [] => c
  | a :: l => if last <? a then c else invalidate_loop (ext4_bcache_invalidate_buf c a) l last
  end.

(** The buffers in the order of their addresses. *)
Definition in_order (c : ext4_bcache) : list Z := merge_sort Z.le (elements (dom (lba_root c))).

Definition ext4_bcache_invalidate_lba (c : ext4_bcache) (from n : Z) : ext4_bcache :=
  let last := u64 (u64 (from + n) - 1) in
  match ext4_buf_lookup c from with
  | None => c
  | Some _ => invalidate_loop c (filter (fun a => from <= a) (in_order c)) last
  end.

Definition ext4_bcache_find_get (c : ext4_bcache) (a : Z) : bool * ext4_bcache :=
  match ext4_buf_lookup c a with
  | None => (false, c)
  | Some b =>
      let c :=
        if refctr b =? 0 then
          let c := set_lru_ctr c (u32 (lru_ctr c + 1)) in
          let c := upd c a (fun b => set_lru_id b (lru_ctr c)) in
          let c := set_lru c (rb_remove a (lru_root c)) in
          if ext4_bcache_test_flag b BC_DIRTY then ext4_bcache_remove_dirty_node c a else c
        else c in
      (true, upd c a ext4_bcache_inc_ref)
  end.

(** [mem] is what the allocator gives: [None] is out of memory. *)
Definition ext4_bcache_alloc (c : ext4_bcache) (a : Z) (mem : option (list Z)) : Z * ext4_bcache :=
  let '(found, c) := ext4_bcache_find_get c a in
  if found then (EOK, c)
  else
    match mem with
    | None => (ENOMEM, c)
    | Some mem =>
        let c := set_root c (<[a := ext4_buf_alloc mem]> (lba_root c)) in
        let refs := u32 (ref_blocks c + 1) in
        let c := set_refs c refs (if max_ref_blocks c <? refs then refs else max_ref_blocks c) in
        let c := upd c a ext4_bcache_inc_ref in
        let c := set_lru_ctr c (u32 (lru_ctr c + 1)) in
        (EOK, upd c a (fun b => set_lru_id b (lru_ctr c)))
    end.

Section device.
Context {D : Type} `{BlockIface D}.

(** [struct ext4_blockdev] with its cache and its device, and the callbacks run
    so far: address, status and argument. *)
Record ext4_blockdev := Bdev {
  bc : ext4_bcache; dev : D; ph_refctr : Z; part_offset : Z; part_size : Z; lg_bsize : Z; lg_bcnt : Z;
  cache_write_back : Z; bread_ctr : Z; bwrite_ctr : Z; ended : list (Z * Z * Z)
}.

Definition set_bc (s : ext4_blockdev) (c : ext4_bcache) : ext4_blockdev :=
  Bdev c (dev s) (ph_refctr s) (part_offset s) (part_size s) (lg_bsize s) (lg_bcnt s) (cache_write_back s)
    (bread_ctr s) (bwrite_ctr s) (ended s).
Definition set_dev (s : ext4_blockdev) (d : D) (rc wc : Z) : ext4_blockdev :=
  Bdev (bc s) d (ph_refctr s) (part_offset s) (part_size s) (lg_bsize s) (lg_bcnt s) (cache_write_back s) rc wc (ended s).

Definition ext4_bdif_bread (s : ext4_blockdev) (blk n : Z) : Z * list Z * ext4_blockdev :=
  let '(r, l, d) := bread (dev s) blk n in (r, l, set_dev s d (u32 (bread_ctr s + 1)) (bwrite_ctr s)).

Definition ext4_bdif_bwrite (s : ext4_blockdev) (l : list Z) (blk n : Z) : Z * ext4_blockdev :=
  let '(r, d) := bwrite (dev s) l blk n in (r, set_dev s d (bread_ctr s) (u32 (bwrite_ctr s + 1))).

(** [rc] is the status of [open] and of [close]. *)
Definition set_ph_refctr (s : ext4_blockdev) (n : Z) : ext4_blockdev :=
  Bdev (bc s) (dev s) n (part_offset s) (part_size s) (lg_bsize s) (lg_bcnt s) (cache_write_back s)
    (bread_ctr s) (bwrite_ctr s) (ended s).

Definition ext4_block_init (s : ext4_blockdev) (rc : Z) : Z * ext4_blockdev :=
  if c_true (ph_refctr s) then (EOK, set_ph_refctr s (u32 (ph_refctr s + 1)))
  else if negb (rc =? EOK) then (rc, s)
  else (EOK, set_ph_refctr s 1).

Definition ext4_block_fini (s : ext4_blockdev) (rc : Z) : Z * ext4_blockdev :=
  if negb (c_true (ph_refctr s)) then (EOK, s)
  else
    let s := set_ph_refctr s (u32 (ph_refctr s - 1)) in
    if c_true (ph_refctr s) then (EOK, s) else (rc, s).

Definition ext4_block_bind_bcache (s : ext4_blockdev) (c : ext4_bcache) : Z * ext4_blockdev := (EOK, set_bc s c).

Definition ext4_block_set_lb_size (s : ext4_blockdev) (lb_bsize : Z) : option ext4_blockdev :=
  if c_true (lb_bsize mod ph_bsize) then None
  else Some (Bdev (bc s) (dev s) (ph_refctr s) (part_offset s) (part_size s) lb_bsize (part_size s / lb_bsize)
               (cache_write_back s) (bread_ctr s) (bwrite_ctr s) (ended s)).

Definition pba_of (s : ext4_blockdev) (a : Z) : Z := u64 (u64 (a * lg_bsize s) + part_offset s) / ph_bsize.
Definition pb_cnt_of (s : ext4_blockdev) : Z := lg_bsize s / ph_bsize.

Definition ext4_blocks_get_direct (s : ext4_blockdev) (a n : Z) : Z * list Z * ext4_blockdev :=
  ext4_bdif_bread s (pba_of s a) (u32 (pb_cnt_of s * n)).

Definition ext4_blocks_set_direct (s : ext4_blockdev) (l : list Z) (a n : Z) : Z * ext4_blockdev :=
  ext4_bdif_bwrite s l (pba_of s a) (u32 (pb_cnt_of s * n)).

(** The callback, between setting and clearing [dont_shake]. *)
Definition run_end_write (s : ext4_blockdev) (a r : Z) (e : option Z) : ext4_blockdev :=
  match e with
  | None => s
  | Some arg =>
      Bdev (set_shake (bc s) false) (dev s) (ph_refctr s) (part_offset s) (part_size s) (lg_bsize s) (lg_bcnt s)
        (cache_write_back s) (bread_ctr s) (bwrite_ctr s) ((a, r, arg) :: ended s)
  end.

Definition ext4_block_flush_buf (s : ext4_blockdev) (a : Z) : option (Z * ext4_blockdev) :=
  b ← lba_root (bc s) !! a;
  if ext4_bcache_test_flag b BC_DIRTY && ext4_bcache_test_flag b BC_UPTODATE then
    let '(r, s) := ext4_blocks_set_direct s (data b) a 1 in
    if c_true r then Some (r, run_end_write s a r (end_write b))
    else
      let s := set_bc s (ext4_bcache_remove_dirty_node (bc s) a) in
      let s := set_bc s (upd (bc s) a (fun b => ext4_bcache_clear_flag b BC_DIRTY)) in
      Some (EOK, run_end_write s a r (end_write b))
  else Some (EOK, s).

(** [lb_id] is the address of the block, which must not be 0. *)
Definition ext4_bcache_free (s : ext4_blockdev) (a : Z) : option (Z * ext4_blockdev) :=
  if a =? 0 then None
  else
    b ← lba_root (bc s) !! a;
    if refctr b =? 0 then None
    else
      let s := set_bc s (upd (bc s) a ext4_bcache_dec_ref) in
      if negb (u32 (refctr b - 1) =? 0) then Some (EOK, s)
      else
        let s := set_bc s (set_lru (bc s) (rb_insert (id_of (bc s)) a (lru_root (bc s)))) in
        s ← (if ext4_bcache_test_flag b BC_DIRTY && ext4_bcache_test_flag b BC_UPTODATE then
               if c_true (cache_write_back s) && negb (ext4_bcache_test_flag b BC_FLUSH)
                  && negb (ext4_bcache_test_flag b BC_TMP)
               then Some (set_bc s (ext4_bcache_insert_dirty_node (bc s) a))
               else
                 '(_, s) ← ext4_block_flush_buf s a;
                 Some (set_bc s (upd (bc s) a (fun b => ext4_bcache_clear_flag b BC_FLUSH)))
             else Some s);
        b ← lba_root (bc s) !! a;
        if negb (ext4_bcache_test_flag b BC_UPTODATE) || ext4_bcache_test_flag b BC_TMP then
          c ← ext4_bcache_drop_buf (bc s) a; Some (EOK, set_bc s c)
        else Some (EOK, s).

Definition ext4_block_flush_lba (s : ext4_blockdev) (a : Z) : option (Z * ext4_blockdev) :=
  let '(found, c) := ext4_bcache_find_get (bc s) a in
  let s := set_bc s c in
  if found then
    '(r, s) ← ext4_block_flush_buf s a;
    '(_, s) ← ext4_bcache_free s a;
    Some (r, s)
  else Some (EOK, s).

Fixpoint shake_loop (fuel : nat) (s : ext4_blockdev) : option (Z * ext4_blockdev) :=
  match fuel with
  | O => None
  | S fuel =>
      match ext4_buf_lowest_lru (bc s) with
      | None => Some (EOK, s)
      | Some a =>
          if negb (ext4_bcache_is_full (bc s)) then Some (EOK, s)
          else
            b ← lba_root (bc s) !! a;
            '(r, s) ← (if ext4_bcache_test_flag b BC_DIRTY then ext4_block_flush_buf s a else Some (EOK, s));
            if negb (r =? EOK) then Some (r, s)
            else c ← ext4_bcache_drop_buf (bc s) a; shake_loop fuel (set_bc s c)
      end
  end.

Definition ext4_block_cache_shake (fuel : nat) (s : ext4_blockdev) : option (Z * ext4_blockdev) :=
  if dont_shake (bc s) then Some (EOK, s)
  else
    '(r, s) ← shake_loop fuel (set_bc s (set_shake (bc s) true));
    Some (r, set_bc s (set_shake (bc s) false)).

Definition ext4_block_get_noread (fuel : nat) (s : ext4_blockdev) (a : Z) (mem : option (list Z))
    : option (Z * ext4_blockdev) :=
  if ph_refctr s =? 0 then Some (EIO, s)
  else if negb (a <? lg_bcnt s) then Some (ENXIO, s)
  else
    '(r, s) ← ext4_block_cache_shake fuel s;
    if negb (r =? EOK) then Some (r, s)
    else let '(r, c) := ext4_bcache_alloc (bc s) a mem in Some (r, set_bc s c).

Definition ext4_block_get (fuel : nat) (s : ext4_blockdev) (a : Z) (mem : option (list Z)) : option (Z * ext4_blockdev) :=
  '(r, s) ← ext4_block_get_noread fuel s a mem;
  if negb (r =? EOK) then Some (r, s)
  else
    b ← lba_root (bc s) !! a;
    if ext4_bcache_test_flag b BC_UPTODATE then Some (EOK, s)
    else
      let '(r, l, s) := ext4_blocks_get_direct s a 1 in
      let s := set_bc s (upd (bc s) a (fun b => set_data b l)) in
      if negb (r =? EOK) then '(_, s) ← ext4_bcache_free s a; Some (r, s)
      else Some (EOK, set_bc s (upd (bc s) a (fun b => ext4_bcache_set_flag b BC_UPTODATE))).

Definition ext4_block_set (s : ext4_blockdev) (a : Z) : option (Z * ext4_blockdev) :=
  if ph_refctr s =? 0 then Some (EIO, s) else ext4_bcache_free s a.

Fixpoint flush_loop (fuel : nat) (s : ext4_blockdev) : option (Z * ext4_blockdev) :=
  match fuel with
  | O => None
  | S fuel =>
      match dirty_list (bc s) with
      | [] => Some (EOK, s)
      | a :: _ =>
          '(r, s) ← ext4_block_flush_buf s a;
          if negb (r =? EOK) then Some (r, s) else flush_loop fuel s
      end
  end.

Definition ext4_block_cache_flush (fuel : nat) (s : ext4_blockdev) : option (Z * ext4_blockdev) := flush_loop fuel s.

Definition set_write_back (s : ext4_blockdev) (n : Z) : ext4_blockdev :=
  Bdev (bc s) (dev s) (ph_refctr s) (part_offset s) (part_size s) (lg_bsize s) (lg_bcnt s) n
    (bread_ctr s) (bwrite_ctr s) (ended s).

Definition ext4_block_cache_write_back (fuel : nat) (s : ext4_blockdev) (on_off : Z) : option (Z * ext4_blockdev) :=
  let s := if c_true on_off then set_write_back s (u32 (cache_write_back s + 1)) else s in
  let s := if negb (c_true on_off) && c_true (cache_write_back s)
           then set_write_back s (u32 (cache_write_back s - 1)) else s in
  if c_true (cache_write_back s) then Some (EOK, s) else ext4_block_cache_flush fuel s.

(** [ext4_trans_set_block_dirty] of [src/ext4_trans.c] without a journal. *)
Definition ext4_trans_set_block_dirty (s : ext4_blockdev) (a : Z) : ext4_blockdev :=
  set_bc s (upd (bc s) a ext4_bcache_set_dirty).

(** [RB_FOREACH_SAFE] over the addresses, which ascend. *)
Fixpoint cleanup_loop (s : ext4_blockdev) (l : list Z) : option ext4_blockdev :=
  match l with
  | [] => Some s
  | a :: l =>
      '(_, s) ← ext4_block_flush_buf s a;
      c ← ext4_bcache_drop_buf (bc s) a;
      cleanup_loop (set_bc s c) l
  end.

Definition ext4_bcache_cleanup (s : ext4_blockdev) : option ext4_blockdev := cleanup_loop s (in_order (bc s)).
End device.

(** ** Blocks on the device *)

Section blocks.
Context {D : Type} `{BlockIfaceLaws D}.
Implicit Types s : ext4_blockdev (D := D).

(** The block at [a] as the device stores it. *)
Definition stored s (a : Z) : list Z :=
  bytes_of (contents (dev s)) (a * lg_bsize s + part_offset s) (Z.to_nat (lg_bsize s)).

(** Blocks are made of whole device blocks and lie below 2^64. *)
Definition geometry s : Prop :=
  0 < lg_bsize s < 2 ^ 32 /\ lg_bsize s mod ph_bsize = 0 /\
  0 <= part_offset s /\ part_offset s mod ph_bsize = 0 /\ 0 <= lg_bcnt s /\
  lg_bcnt s * lg_bsize s + part_offset s <= 2 ^ 64.

(** Everything but the cache, the device and the counters. *)
Definition same_setup s s' : Prop :=
  ph_refctr s' = ph_refctr s /\ part_offset s' = part_offset s /\ part_size s' = part_size s /\
  lg_bsize s' = lg_bsize s /\ lg_bcnt s' = lg_bcnt s /\ cache_write_back s' = cache_write_back s.

Definition bytes (l : list Z) : Prop := Forall (fun b => 0 <= b < 256) l.

Lemma same_setup_refl s : same_setup s s.
Proof. done. Qed.

Lemma same_setup_trans s s' s'' : same_setup s s' -> same_setup s' s'' -> same_setup s s''.
Proof. unfold same_setup. intuition congruence. Qed.

Lemma same_setup_geometry s s' : same_setup s s' -> geometry s -> geometry s'.
Proof. unfold same_setup, geometry. intros (_ & -> & _ & -> & -> & _). done. Qed.

Lemma stored_ext s s' a : same_setup s s' ->
  (forall x, a * lg_bsize s + part_offset s <= x < (a + 1) * lg_bsize s + part_offset s ->
    contents (dev s') x = contents (dev s) x) -> stored s' a = stored s a.
Proof.
  intros (_ & Eo & _ & El & _) Hx. unfold stored. rewrite Eo, El. apply bytes_of_ext. intros x Hx'. apply Hx. lia.
Qed.

Lemma block_place s a : geometry s -> 0 <= a < lg_bcnt s ->
  pba_of s a * ph_bsize = a * lg_bsize s + part_offset s /\ u32 (pb_cnt_of s * 1) * ph_bsize = lg_bsize s.
Proof.
  intros (Hl & Hm & Ho & Hom & Hc & Ht) Ha. pose proof ph_bsize_pos as Hp.
  assert (0 <= a * lg_bsize s + part_offset s < 2 ^ 64) by nia. unfold pba_of, pb_cnt_of. split.
  - rewrite uw_small by (rewrite uw_small; nia). rewrite uw_small by nia.
    apply Z.mod_divide in Hm as [k Hk]; [|lia]. apply Z.mod_divide in Hom as [j Hj]; [|lia].
    rewrite Hk, Hj. replace (a * (k * ph_bsize) + j * ph_bsize) with ((a * k + j) * ph_bsize) by lia.
    by rewrite Z.div_mul by lia.
  - rewrite Z.mul_1_r. apply Z.mod_divide in Hm as [k Hk]; [|lia]. rewrite Hk, Z.div_mul by lia.
    rewrite uw_small; [done|]. nia.
Qed.

Lemma read_block s a : geometry s -> 0 <= a < lg_bcnt s ->
  let '(r, l, s') := ext4_blocks_get_direct s a 1 in
  bc s' = bc s /\ ended s' = ended s /\ same_setup s s' /\ (forall x, stored s' x = stored s x) /\
  Z.of_nat (length l) = lg_bsize s /\ bytes l /\ (r = EOK -> l = stored s a).
Proof.
  intros Hg Ha. pose proof (block_place s a Hg Ha) as [E1 E2].
  unfold ext4_blocks_get_direct, ext4_bdif_bread.
  pose proof (bread_keeps (dev s) (pba_of s a) (u32 (pb_cnt_of s * 1))) as Hk.
  pose proof (bread_gets (dev s) (pba_of s a) (u32 (pb_cnt_of s * 1))) as Hr.
  pose proof (bread_length (dev s) (pba_of s a) (u32 (pb_cnt_of s * 1))) as Hl.
  pose proof (bread_bytes (dev s) (pba_of s a) (u32 (pb_cnt_of s * 1))) as Hb.
  destruct (bread _ _ _) as [[r l] d]. cbn in *. rewrite E2 in Hr, Hl. rewrite E1 in Hr.
  destruct Hg as (Hlg & _). do 3 (split; [done|]). split; [|split; [lia|done]].
  intros x. apply stored_ext; [done|]. intros y _. apply Hk.
Qed.

Lemma write_block s l a : geometry s -> 0 <= a < lg_bcnt s -> Z.of_nat (length l) = lg_bsize s -> bytes l ->
  let '(r, s') := ext4_blocks_set_direct s l a 1 in
  bc s' = bc s /\ ended s' = ended s /\ same_setup s s' /\ (forall x, x <> a -> stored s' x = stored s x) /\
  (r = EOK -> stored s' a = l).
Proof.
  intros Hg Ha Hl Hb. pose proof (block_place s a Hg Ha) as [E1 E2].
  unfold ext4_blocks_set_direct, ext4_bdif_bwrite.
  pose proof (bwrite_keeps (dev s) l (pba_of s a) (u32 (pb_cnt_of s * 1))) as Hk.
  pose proof (bwrite_puts (dev s) l (pba_of s a) (u32 (pb_cnt_of s * 1))) as Hp.
  destruct (bwrite _ _ _ _) as [r d]. cbn in *. rewrite Z.mul_add_distr_r, E1, E2 in Hk. rewrite E1, E2 in Hp.
  destruct Hg as (Hlg & _). do 3 (split; [done|]). split.
  - intros x Hx. apply stored_ext; [done|]. intros y Hy. apply Hk. nia.
  - intros ->. unfold stored. cbn. replace (Z.to_nat (lg_bsize s)) with (length l) by lia. by apply Hp.
Qed.
End blocks.

(** ** Devices

    A device in memory, and one whose writes fail. *)
Definition ram_read (d : memory) (blk n : Z) : list Z := bytes_of d (blk * 512) (Z.to_nat (n * 512)).
Definition ram_write (d : memory) (l : list Z) (blk n : Z) : memory :=
  fun x => if (blk * 512 <=? x) && (x <? (blk + n) * 512) then default 0 (l !! Z.to_nat (x - blk * 512)) else d x.

Record ram := Ram { ram_bytes : memory }.
Record broken := Broken { broken_bytes : memory }.

#[export] Instance ram_iface : BlockIface ram := {
  ph_bsize := 512;
  bread d blk n := (0, ram_read (ram_bytes d) blk n, d);
  bwrite d l blk n := (0, Ram (ram_write (ram_bytes d) l blk n));
  contents := ram_bytes;
}.

#[export] Instance broken_iface : BlockIface broken := {
  ph_bsize := 512;
  bread d blk n := (0, ram_read (broken_bytes d) blk n, d);
  bwrite d l blk n := (EIO, d);
  contents := broken_bytes;
}.

Lemma ram_read_bytes d blk n : Forall (fun b => 0 <= b < 256) (ram_read d blk n).
Proof. apply Forall_fmap, Forall_forall. intros k _. cbn. apply ld8_range. Qed.

Lemma ram_read_length d blk n : length (ram_read d blk n) = Z.to_nat (n * 512).
Proof. unfold ram_read, bytes_of. by rewrite length_fmap, length_seq. Qed.

Lemma ram_write_puts d l blk n : Z.of_nat (length l) = n * 512 -> Forall (fun b => 0 <= b < 256) l ->
  bytes_of (ram_write d l blk n) (blk * 512) (length l) = l.
Proof.
  intros Hl Hb. apply list_eq. intros i. unfold bytes_of. rewrite list_lookup_fmap.
  destruct (decide (i < length l)%nat) as [Hi|Hi].
  - rewrite lookup_seq_lt by done. cbn. destruct (lookup_lt_is_Some_2 l i Hi) as [b Eb]. rewrite Eb. f_equal.
    rewrite Forall_lookup in Hb. unfold ld8, ram_write.
    case_if; [|destruct E; zb; lia]. replace (Z.to_nat _) with i by lia. rewrite Eb. cbn. apply uw_small.
    pow2. by apply (Hb i).
  - rewrite lookup_seq_ge by lia. cbn. symmetry. apply lookup_ge_None. lia.
Qed.

#[export] Instance ram_laws : BlockIfaceLaws ram.
Proof.
  split; try done.
  - intros. apply ram_read_length.
  - intros. apply ram_read_bytes.
  - intros d l blk n x Hx. cbn. unfold ram_write. cbn in Hx. case_if; [lia|done].
  - intros d l blk n Hl Hb _. by apply ram_write_puts.
Qed.

#[export] Instance broken_laws : BlockIfaceLaws broken.
Proof.
  split; try done.
  - intros. apply ram_read_length.
  - intros. apply ram_read_bytes.
Qed.
