(* ===== verification/Ext4BcacheInv.v ===== *)
(** lwext4, the block cache by itself: the two trees, the list of dirty buffers
    and the flags agree ([wf]), and the operations that do not touch the device
    keep it so. *)
From stdpp Require Import sorting.
From S2P Require Import Prelude Memory Ext4Errno Ext4Bcache.
#[local] Open Scope Z_scope.
#[local] Open Scope cint_scope.

(** ** The cache by itself *)

Lemma test_flag_bit b k : 0 <= k -> ext4_bcache_test_flag b k = Z.testbit (flags b) k.
Proof.
  intros Hk. unfold ext4_bcache_test_flag. rewrite <- (c_true_land_bit (flags b) k Hk). unfold c_true. f_equal.
  apply Bool.eq_iff_eq_true. rewrite !Z.eqb_eq. split; [|intros ->; by rewrite Z.shiftr_0_l].
  intros E. apply Z.bits_inj'. intros i Hi. rewrite Z.land_spec, Z.bits_0, testbit_one by lia.
  destruct (Z.eqb_spec i k) as [->|]; [|by rewrite andb_false_r].
  assert (Z.testbit (Z.shiftr (flags b .& (1 .<< k)) k) 0 = false) as Hb by by rewrite E.
  rewrite Z.shiftr_spec, Z.add_0_l, Z.land_spec, testbit_one, Z.eqb_refl in Hb by lia. done.
Qed.

Lemma test_set_flag b k j : 0 <= k -> 0 <= j ->
  ext4_bcache_test_flag (ext4_bcache_set_flag b k) j = ext4_bcache_test_flag b j || (j =? k).
Proof. intros. rewrite !test_flag_bit by lia. cbn. by rewrite Z.lor_spec, testbit_one by lia. Qed.

Lemma test_clear_flag b k j : 0 <= k -> 0 <= j ->
  ext4_bcache_test_flag (ext4_bcache_clear_flag b k) j = ext4_bcache_test_flag b j && negb (j =? k).
Proof. intros. rewrite !test_flag_bit by lia. cbn. by rewrite Z.land_spec, Z.lnot_spec, testbit_one by lia. Qed.

Definition uptodate (b : ext4_buf) : bool := ext4_bcache_test_flag b BC_UPTODATE.
Definition dirty (b : ext4_buf) : bool := ext4_bcache_test_flag b BC_DIRTY.

Lemma elem_of_rb_remove a l x : x ∈ rb_remove a l <-> x ∈ l /\ x <> a.
Proof. unfold rb_remove. rewrite list_elem_of_filter. tauto. Qed.

Lemma rb_remove_absent a l : a ∉ l -> rb_remove a l = l.
Proof.
  unfold rb_remove. intros Ha. induction l as [|x l IH]; [done|]. apply not_elem_of_cons in Ha as [Hx Ha].
  rewrite filter_cons_True by done. f_equal. auto.
Qed.

Lemma elem_of_rb_insert id a l x : (forall y, y ∈ l -> id y <> id a) -> x ∈ rb_insert id a l <-> x = a \/ x ∈ l.
Proof.
  induction l as [|y l IH]; intros Hd; cbn [rb_insert]; [set_solver|].
  pose proof (Hd y ltac:(set_solver)). case_if; [set_solver|]. case_if; [lia|].
  rewrite !elem_of_cons, IH by set_solver. tauto.
Qed.

Lemma rb_insert_ext id id' a l : (forall x, id' x = id x) -> rb_insert id a l = rb_insert id' a l.
Proof. intros He. induction l as [|x l IH]; cbn [rb_insert]; [done|]. by rewrite !He, IH. Qed.

(** The order of the tree. *)
Definition ordered (id : Z -> Z) (l : list Z) : Prop := StronglySorted (fun x y => id x < id y) l.

Lemma ordered_ext id id' l : (forall x, x ∈ l -> id' x = id x) -> ordered id l -> ordered id' l.
Proof.
  intros He H. induction H as [|x l H IH Hx]; [constructor|]. constructor; [apply IH; set_solver|].
  rewrite Forall_forall in *. intros y Hy. rewrite !He by set_solver. by apply Hx.
Qed.

Lemma sorted_filter (R : Z -> Z -> Prop) (P : Z -> Prop) `{!forall x, Decision (P x)} l :
  StronglySorted R l -> StronglySorted R (filter P l).
Proof.
  intros Hs. induction Hs as [|x l Hs IH Hx]; [constructor|]. rewrite filter_cons. case_decide; [|done].
  constructor; [done|]. rewrite Forall_forall in *. intros y Hy. apply Hx. by apply list_elem_of_filter in Hy as [_ ?].
Qed.

Lemma ordered_remove id a l : ordered id l -> ordered id (rb_remove a l).
Proof. apply sorted_filter. Qed.

Lemma ordered_insert id a l : ordered id l -> (forall y, y ∈ l -> id y <> id a) -> ordered id (rb_insert id a l).
Proof.
  intros H Hd. induction H as [|x l H IH Hx]; cbn [rb_insert]; [repeat constructor|].
  pose proof (Hd x ltac:(set_solver)). rewrite Forall_forall in Hx. case_if.
  - constructor; [constructor; [done|by apply Forall_forall]|]. apply Forall_forall. intros y Hy.
    apply elem_of_cons in Hy as [->|Hy]; [done|]. specialize (Hx y Hy). lia.
  - case_if; [lia|]. constructor; [apply IH; set_solver|]. apply Forall_forall. intros y Hy.
    apply elem_of_rb_insert in Hy as [->|Hy]; [lia|by apply Hx|set_solver].
Qed.

Lemma ordered_NoDup id l : ordered id l -> NoDup l.
Proof.
  intros H. induction H as [|x l H IH Hx]; constructor; [|done]. intros Hin. rewrite Forall_forall in Hx.
  specialize (Hx x Hin). lia.
Qed.

(** A buffer by itself: only unreferenced, dirty and valid ones are listed. *)
Definition buf_ok (b : ext4_buf) : Prop :=
  0 <= refctr b < 2 ^ 32 /\ (dirty b = true -> uptodate b = true) /\
  (on_dirty_list b = true -> refctr b = 0 /\ dirty b = true).

(** The trees and the list agree. *)
Record wf (c : ext4_bcache) : Prop := {
  wf_buf a b : lba_root c !! a = Some b -> buf_ok b /\ 0 <= lru_id b <= lru_ctr c;
  wf_ids a a' b b' : lba_root c !! a = Some b -> lba_root c !! a' = Some b' -> lru_id b = lru_id b' -> a = a';
  wf_lru a : a ∈ lru_root c <-> exists b, lba_root c !! a = Some b /\ refctr b = 0;
  wf_ordered : ordered (id_of c) (lru_root c);
  wf_nodup : NoDup (dirty_list c);
  wf_dirty a : a ∈ dirty_list c <-> exists b, lba_root c !! a = Some b /\ on_dirty_list b = true;
  wf_count : ref_blocks c = Z.of_nat (size (lba_root c));
}.

Lemma id_of_insert c a b x : id_of (set_root c (<[a := b]> (lba_root c))) x = if decide (x = a) then lru_id b else id_of c x.
Proof. unfold id_of. cbn. case_decide; [by subst; rewrite lookup_insert_eq|by rewrite lookup_insert_ne]. Qed.

Lemma exists_insert (P : ext4_buf -> Prop) (m : gmap Z ext4_buf) a b x :
  (exists b', <[a := b]> m !! x = Some b' /\ P b') <-> x = a /\ P b \/ x <> a /\ exists b', m !! x = Some b' /\ P b'.
Proof.
  destruct (decide (x = a)) as [->|Hx].
  - rewrite lookup_insert_eq. naive_solver.
  - rewrite lookup_insert_ne by done. naive_solver.
Qed.

(** One buffer put in place, with its places in tree and list. *)
Lemma wf_put c c' a b :
  wf c -> lba_root c' = <[a := b]> (lba_root c) -> buf_ok b -> lru_ctr c <= lru_ctr c' -> 0 <= lru_id b <= lru_ctr c' ->
  (forall x bx, x <> a -> lba_root c !! x = Some bx -> lru_id bx <> lru_id b) ->
  lru_root c' = (if refctr b =? 0 then rb_insert (id_of c') a (rb_remove a (lru_root c)) else rb_remove a (lru_root c)) ->
  dirty_list c' = (if on_dirty_list b then a :: rb_remove a (dirty_list c) else rb_remove a (dirty_list c)) ->
  ref_blocks c' = Z.of_nat (size (lba_root c')) -> wf c'.
Proof.
  intros Hc Er Hb Hctr Hid Hids El Ed En.
  assert (forall x, id_of c' x = if decide (x = a) then lru_id b else id_of c x) as Hio.
  { intros x. rewrite <- id_of_insert. unfold id_of. cbn. by rewrite Er. }
  assert (forall y, y ∈ rb_remove a (lru_root c) -> id_of c' y <> id_of c' a) as Hdiff.
  { intros y [Hy Hne]%elem_of_rb_remove. rewrite !Hio, decide_False, decide_True by done.
    apply (wf_lru c Hc) in Hy as (by' & Hy & _). unfold id_of. rewrite Hy. by eapply Hids. }
  assert (ordered (id_of c') (rb_remove a (lru_root c))) as Hord.
  { apply (ordered_ext (id_of c)); [|apply ordered_remove, (wf_ordered c Hc)].
    intros x [_ Hx]%elem_of_rb_remove. by rewrite Hio, decide_False. }
  split.
  - intros x bx. rewrite Er. intros [[<- <-]|[Hx E]]%lookup_insert_Some; [done|].
    destruct (wf_buf c Hc x bx E) as [? ?]. split; [done|lia].
  - intros x x' bx bx'. rewrite Er.
    intros [[<- <-]|[Hx E]]%lookup_insert_Some [[<- <-]|[Hx' E']]%lookup_insert_Some Heq; [done|..].
    + by destruct (Hids x' bx').
    + by destruct (Hids x bx).
    + by eapply (wf_ids c Hc).
  - intros x. rewrite El, Er. case_if.
    + rewrite elem_of_rb_insert, elem_of_rb_remove, (wf_lru c Hc), exists_insert by done.
      destruct (decide (x = a)); tauto.
    + rewrite elem_of_rb_remove, (wf_lru c Hc), exists_insert. tauto.
  - rewrite El. case_if; [by apply ordered_insert|done].
  - rewrite Ed. assert (NoDup (rb_remove a (dirty_list c))) by apply NoDup_filter, (wf_nodup c Hc).
    destruct (on_dirty_list b); [|done]. constructor; [|done]. intros [_ ?]%elem_of_rb_remove. done.
  - intros x. rewrite Ed, Er, exists_insert. destruct (on_dirty_list b) eqn:Eo.
    + rewrite elem_of_cons, elem_of_rb_remove, (wf_dirty c Hc). destruct (decide (x = a)); tauto.
    + rewrite elem_of_rb_remove, (wf_dirty c Hc). destruct (decide (x = a)); naive_solver.
  - done.
Qed.

(** One buffer dropped. *)
Lemma wf_drop c c' a b :
  wf c -> lba_root c !! a = Some b -> lba_root c' = delete a (lba_root c) -> lru_ctr c <= lru_ctr c' ->
  lru_root c' = rb_remove a (lru_root c) -> dirty_list c' = rb_remove a (dirty_list c) ->
  ref_blocks c' = ref_blocks c - 1 -> wf c'.
Proof.
  intros Hc Ea Er Hctr El Ed En. split.
  - intros x bx. rewrite Er. intros [_ E]%lookup_delete_Some. destruct (wf_buf c Hc x bx E). split; [done|lia].
  - intros x x' bx bx'. rewrite Er. intros [_ E]%lookup_delete_Some [_ E']%lookup_delete_Some. by apply (wf_ids c Hc).
  - intros x. rewrite El, Er, elem_of_rb_remove, (wf_lru c Hc). setoid_rewrite lookup_delete_Some. naive_solver.
  - rewrite El. apply (ordered_ext (id_of c)); [|apply ordered_remove, (wf_ordered c Hc)].
    intros x [_ Hx]%elem_of_rb_remove. unfold id_of. by rewrite Er, lookup_delete_ne.
  - rewrite Ed. apply NoDup_filter, (wf_nodup c Hc).
  - intros x. rewrite Ed, Er, elem_of_rb_remove, (wf_dirty c Hc). setoid_rewrite lookup_delete_Some. naive_solver.
  - rewrite En, (wf_count c Hc), Er, map_size_delete_Some by eauto.
    assert (size (lba_root c) <> 0%nat); [|lia]. intros E%map_size_empty_iff. by rewrite E in Ea.
Qed.

Lemma alter_put (f : ext4_buf -> ext4_buf) (m : gmap Z ext4_buf) a b : m !! a = Some b -> alter f a m = <[a := f b]> m.
Proof.
  intros Ha. apply map_eq. intros x. destruct (decide (x = a)) as [->|Hx].
  - by rewrite lookup_alter_eq, lookup_insert_eq, Ha.
  - by rewrite lookup_alter_ne, lookup_insert_ne.
Qed.

Lemma rb_reinsert id a l : ordered id l -> a ∈ l -> rb_insert id a (rb_remove a l) = l.
Proof.
  intros H. induction H as [|x l H IH Hx]; [by intros ?%not_elem_of_nil|]. rewrite Forall_forall in Hx. intros Ha.
  unfold rb_remove. destruct (decide (x = a)) as [->|Hne].
  - rewrite filter_cons_False by tauto. fold (rb_remove a l).
    rewrite rb_remove_absent by (intros Hin; specialize (Hx a Hin); lia).
    destruct l as [|y l]; [done|]. cbn [rb_insert]. specialize (Hx y ltac:(set_solver)).
    by case_if; [|lia].
  - rewrite filter_cons_True by done. fold (rb_remove a l). cbn [rb_insert].
    assert (a ∈ l) as Ha' by set_solver. specialize (Hx a Ha'). case_if; [lia|]. case_if; [lia|]. by rewrite IH.
Qed.

(** What is in no list under [wf]. *)
Lemma wf_referenced c a b : wf c -> lba_root c !! a = Some b -> refctr b <> 0 -> a ∉ lru_root c.
Proof. intros Hc Ha Hr (b' & E & Hz)%(wf_lru c Hc). congruence. Qed.

Lemma cached_unlisted c a b : wf c -> lba_root c !! a = Some b -> on_dirty_list b = false -> a ∉ dirty_list c.
Proof. intros Hc Ha Hr (b' & E & Hz)%(wf_dirty c Hc). congruence. Qed.

Lemma wf_clean c a b : wf c -> lba_root c !! a = Some b -> dirty b = false -> a ∉ dirty_list c.
Proof.
  intros Hc Ha Hd. apply (cached_unlisted c a b Hc Ha). destruct (wf_buf c Hc a b Ha) as [(_ & _ & Ho) _].
  destruct (on_dirty_list b); [|done]. destruct Ho; [done|congruence].
Qed.

Lemma remove_node_eq c a b : lba_root c !! a = Some b -> (on_dirty_list b = false -> a ∉ dirty_list c) ->
  ext4_bcache_remove_dirty_node c a =
  set_root (set_dirty_list c (rb_remove a (dirty_list c))) (<[a := set_on_list b false]> (lba_root c)).
Proof.
  intros Ha Hn. unfold ext4_bcache_remove_dirty_node. rewrite Ha. destruct (on_dirty_list b) eqn:Eo.
  - unfold upd. cbn [set_dirty_list lba_root]. by rewrite (alter_put _ _ _ _ Ha).
  - rewrite rb_remove_absent by auto.
    assert (set_on_list b false = b) as -> by (destruct b; cbn in *; by subst). rewrite insert_id by done. by destruct c.
Qed.

(** Taking a buffer off the list when it is dirty takes it off the list. *)
Lemma unlist_eq c a b (t : bool) : lba_root c !! a = Some b -> (on_dirty_list b = false -> a ∉ dirty_list c) ->
  (on_dirty_list b = true -> t = true) ->
  (if t then ext4_bcache_remove_dirty_node c a else c) =
  set_root (set_dirty_list c (rb_remove a (dirty_list c))) (<[a := set_on_list b false]> (lba_root c)).
Proof.
  intros Ha Hn Ht. destruct t; [by apply remove_node_eq|]. rewrite <- remove_node_eq by done.
  unfold ext4_bcache_remove_dirty_node. rewrite Ha. destruct (on_dirty_list b); [by discriminate Ht|done].
Qed.

(** A buffer changed in place. *)
Lemma wf_same c c' a b b' :
  wf c -> lba_root c !! a = Some b -> lba_root c' = <[a := b']> (lba_root c) -> buf_ok b' ->
  refctr b' = refctr b -> lru_id b' = lru_id b -> on_dirty_list b' = on_dirty_list b ->
  lru_ctr c' = lru_ctr c -> lru_root c' = lru_root c -> dirty_list c' = dirty_list c -> ref_blocks c' = ref_blocks c -> wf c'.
Proof.
  intros Hc Ha Er Hb Erf Eid Eon Ec El Ed En. destruct (wf_buf c Hc a b Ha) as [_ Hid].
  assert (forall x, id_of c' x = id_of c x) as Hio.
  { intros x. unfold id_of. rewrite Er. destruct (decide (x = a)) as [->|]; [|by rewrite lookup_insert_ne].
    rewrite lookup_insert_eq, Ha. cbn. done. }
  split.
  - intros x bx. rewrite Er, Ec. intros [[<- <-]|[_ E]]%lookup_insert_Some; [by rewrite Eid|by apply (wf_buf c Hc x)].
  - intros x x' bx bx'. rewrite Er.
    intros [[<- <-]|[Hx E]]%lookup_insert_Some [[<- <-]|[Hx' E']]%lookup_insert_Some Heq; [done|..];
      eapply (wf_ids c Hc); eauto; congruence.
  - intros x. rewrite El, Er, exists_insert, (wf_lru c Hc). destruct (decide (x = a)) as [->|]; [|tauto].
    rewrite Ha, Erf. split; [intros (? & [= <-] & ?); by left|intros [[_ ?]|[? _]]; [by exists b|done]].
  - rewrite El. apply (ordered_ext (id_of c)); [by intros|apply (wf_ordered c Hc)].
  - rewrite Ed. apply (wf_nodup c Hc).
  - intros x. rewrite Ed, Er, exists_insert, (wf_dirty c Hc). destruct (decide (x = a)) as [->|]; [|tauto].
    rewrite Ha, Eon. split; [intros (? & [= <-] & ?); by left|intros [[_ ?]|[? _]]; [by exists b|done]].
  - rewrite En, (wf_count c Hc), Er, map_size_insert_Some by eauto. done.
Qed.

(** A buffer changed in place and put on the list or taken off it. *)
Lemma wf_relist c c' a b b' :
  wf c -> lba_root c !! a = Some b -> lba_root c' = <[a := b']> (lba_root c) -> buf_ok b' ->
  refctr b' = refctr b -> lru_id b' = lru_id b -> lru_ctr c' = lru_ctr c -> lru_root c' = lru_root c ->
  dirty_list c' = (if on_dirty_list b' then a :: rb_remove a (dirty_list c) else rb_remove a (dirty_list c)) ->
  ref_blocks c' = ref_blocks c -> wf c'.
Proof.
  intros Hc Ha Er Hb Erf Eid Ec El Ed En. destruct (wf_buf c Hc a b Ha) as [_ Hid].
  apply (wf_put c c' a b'); try done; rewrite ?Ec, ?Eid; try done.
  - intros x bx Hx Ex Heq. apply Hx. by eapply (wf_ids c Hc).
  - rewrite El, Erf. destruct (Z.eqb_spec (refctr b) 0) as [Hz|Hz].
    + rewrite <- (rb_reinsert (id_of c) a (lru_root c)) at 1; [|apply (wf_ordered c Hc)|apply (wf_lru c Hc); eauto].
      apply rb_insert_ext. intros x. unfold id_of. rewrite Er.
      destruct (decide (x = a)) as [->|]; [rewrite lookup_insert_eq, Ha; cbn; done|by rewrite lookup_insert_ne].
    + by rewrite rb_remove_absent by by apply (wf_referenced c a b).
  - by rewrite En, (wf_count c Hc), Er, map_size_insert_Some by eauto.
Qed.

(** The parts no operation on buffers changes. *)
Definition same_limits (c c' : ext4_bcache) : Prop := cnt c' = cnt c /\ itemsize c' = itemsize c.

Definition touch (c : ext4_bcache) (b : ext4_buf) : ext4_buf :=
  Buf (flags b) (data b) (if refctr b =? 0 then lru_ctr c + 1 else lru_id b) (refctr b + 1) false (end_write b).

Lemma find_get_ok c a b : wf c -> lba_root c !! a = Some b -> 0 <= lru_ctr c -> lru_ctr c + 1 < 2 ^ 32 -> refctr b + 1 < 2 ^ 32 ->
  let c' := (ext4_bcache_find_get c a).2 in
  (ext4_bcache_find_get c a).1 = true /\ wf c' /\ lba_root c' = <[a := touch c b]> (lba_root c) /\
  lru_root c' = rb_remove a (lru_root c) /\ dirty_list c' = rb_remove a (dirty_list c) /\ same_limits c c' /\
  dont_shake c' = dont_shake c /\ ref_blocks c' = ref_blocks c /\ lru_ctr c <= lru_ctr c' <= lru_ctr c + 1.
Proof.
  intros Hc Ha Hl Hlc Hr c'. destruct (wf_buf c Hc a b Ha) as [(Hrf & Hdu & Hon) Hid].
  assert (lba_root c' = <[a := touch c b]> (lba_root c) /\ lru_root c' = rb_remove a (lru_root c) /\
    dirty_list c' = rb_remove a (dirty_list c) /\ same_limits c c' /\ dont_shake c' = dont_shake c /\
    ref_blocks c' = ref_blocks c /\ lru_ctr c' = (if refctr b =? 0 then lru_ctr c + 1 else lru_ctr c)) as Hc'.
  { unfold c', ext4_bcache_find_get, ext4_buf_lookup. rewrite Ha. cbn [snd].
    destruct (Z.eqb_spec (refctr b) 0) as [Hz|Hz].
    - set (c1 := set_lru (upd (set_lru_ctr c (u32 (lru_ctr c + 1))) a
        (fun b => set_lru_id b (lru_ctr (set_lru_ctr c (u32 (lru_ctr c + 1)))))) (rb_remove a (lru_root c))).
      assert (lba_root c1 = <[a := set_lru_id b (lru_ctr c + 1)]> (lba_root c)) as E1.
      { cbn. rewrite (alter_put _ _ _ _ Ha), (uw_small 32) by lia. done. }
      cbv zeta. change (set_lru _ (rb_remove a (lru_root (upd (set_lru_ctr c (u32 (lru_ctr c + 1))) a _)))) with c1.
      rewrite (unlist_eq c1 a (set_lru_id b (lru_ctr c + 1))); [|by rewrite E1, lookup_insert_eq|..].
      + unfold upd. cbn [set_root set_dirty_list lba_root dirty_list lru_root dont_shake ref_blocks lru_ctr].
        rewrite E1, insert_insert_eq. erewrite alter_put by apply lookup_insert_eq. rewrite insert_insert_eq.
        split; [f_equal; unfold touch, ext4_bcache_inc_ref; cbn; by rewrite Hz|]. cbn. by rewrite (uw_small 32) by lia.
      + cbn. by apply (cached_unlisted c a b).
      + cbn. intros Ho. by destruct (Hon Ho).
    - assert (on_dirty_list b = false) as Ho.
      { destruct (on_dirty_list b); [|done]. by destruct Hon. }
      unfold upd. cbn. rewrite (alter_put _ _ _ _ Ha), !rb_remove_absent;
        [|by apply (cached_unlisted c a b)|by apply (wf_referenced c a b)].
      split; [|done]. f_equal. unfold ext4_bcache_inc_ref, touch. rewrite Ho, (uw_small 32) by lia.
      by destruct (Z.eqb_spec (refctr b) 0). }
  split; [unfold ext4_bcache_find_get, ext4_buf_lookup; by rewrite Ha|].
  destruct Hc' as (Er & El & Ed & Es & Eds & En & Ec).
  assert (lru_ctr c <= lru_ctr c' <= lru_ctr c + 1) by (rewrite Ec; case_if; lia).
  split; [|done]. apply (wf_put c c' a (touch c b)); try done.
  - split; [cbn; lia|]. split; [apply Hdu|done].
  - lia.
  - cbn. rewrite Ec. case_if; lia.
  - intros x bx Hx Ex. destruct (wf_buf c Hc x bx Ex) as [_ ?]. cbn. case_if; [lia|].
    intros Heq. apply Hx. by eapply (wf_ids c Hc).
  - cbn [refctr touch]. case_if; [lia|done].
  - rewrite En, (wf_count c Hc), Er, map_size_insert_Some by eauto. done.
Qed.

Lemma wf_absent c a : wf c -> lba_root c !! a = None -> a ∉ lru_root c /\ a ∉ dirty_list c.
Proof.
  intros Hc Ha. split.
  - intros (b & E & _)%(wf_lru c Hc). congruence.
  - intros (b & E & _)%(wf_dirty c Hc). congruence.
Qed.

Lemma alloc_new_ok c a mem : wf c -> lba_root c !! a = None -> 0 <= lru_ctr c -> lru_ctr c + 1 < 2 ^ 32 ->
  ref_blocks c + 1 < 2 ^ 32 ->
  let c' := (ext4_bcache_alloc c a (Some mem)).2 in
  (ext4_bcache_alloc c a (Some mem)).1 = EOK /\ wf c' /\
  lba_root c' = <[a := Buf 0 mem (lru_ctr c + 1) 1 false None]> (lba_root c) /\ lru_root c' = lru_root c /\
  dirty_list c' = dirty_list c /\ same_limits c c' /\ dont_shake c' = dont_shake c /\
  ref_blocks c' = ref_blocks c + 1 /\ lru_ctr c' = lru_ctr c + 1.
Proof.
  intros Hc Ha Hl Hlc Hrb c'. destruct (wf_absent c a Hc Ha) as [Hnl Hnd]. pose proof (wf_count c Hc).
  assert (lba_root c' = <[a := Buf 0 mem (lru_ctr c + 1) 1 false None]> (lba_root c) /\ lru_root c' = lru_root c /\
    dirty_list c' = dirty_list c /\ same_limits c c' /\ dont_shake c' = dont_shake c /\
    ref_blocks c' = ref_blocks c + 1 /\ lru_ctr c' = lru_ctr c + 1) as Hc'.
  { unfold c', ext4_bcache_alloc, ext4_bcache_find_get, ext4_buf_lookup. rewrite Ha. unfold upd. cbn.
    do 2 (erewrite (alter_put _ (<[a:=_]> _)) by apply lookup_insert_eq; rewrite insert_insert_eq).
    rewrite (uw_small 32 (lru_ctr c + 1)), (uw_small 32 (ref_blocks c + 1)) by lia. done. }
  split; [unfold ext4_bcache_alloc, ext4_bcache_find_get, ext4_buf_lookup; by rewrite Ha|].
  destruct Hc' as (Er & El & Ed & Es & Eds & En & Ec). split; [|done].
  apply (wf_put c c' a (Buf 0 mem (lru_ctr c + 1) 1 false None)); try done; cbn; try lia.
  - intros x bx Hx Ex. destruct (wf_buf c Hc x bx Ex) as [_ ?]. lia.
  - by rewrite rb_remove_absent.
  - by rewrite rb_remove_absent.
  - rewrite En, Er, map_size_insert_None by done. lia.
Qed.

Lemma drop_ok c a b : wf c -> lba_root c !! a = Some b -> ref_blocks c < 2 ^ 32 -> exists c',
  ext4_bcache_drop_buf c a = Some c' /\ wf c' /\ lba_root c' = delete a (lba_root c) /\
  lru_root c' = rb_remove a (lru_root c) /\ dirty_list c' = rb_remove a (dirty_list c) /\ same_limits c c' /\
  dont_shake c' = dont_shake c /\ ref_blocks c' = ref_blocks c - 1 /\ lru_ctr c' = lru_ctr c.
Proof.
  intros Hc Ha Hrb. destruct (wf_buf c Hc a b Ha) as [(Hrf & Hdu & Hon) Hid]. pose proof (wf_count c Hc) as Hn.
  assert (size (lba_root c) <> 0%nat) by (intros E%map_size_empty_iff; by rewrite E in Ha).
  set (c1 := set_lru c (rb_remove a (lru_root c))).
  assert ((if refctr b =? 0 then set_lru c (rb_remove a (lru_root c)) else c) = c1) as E1.
  { unfold c1. destruct (Z.eqb_spec (refctr b) 0); [done|].
    rewrite rb_remove_absent by by apply (wf_referenced c a b). by destruct c. }
  unfold ext4_bcache_drop_buf. rewrite Ha. cbn [mbind option_bind]. rewrite E1.
  rewrite (unlist_eq c1 a b); [|done|by apply (cached_unlisted c a b)|intros Ho; by destruct (Hon Ho)].
  eexists. split; [reflexivity|]. cbn. rewrite delete_insert_eq, (uw_small 32) by lia.
  split; [|done]. by eapply (wf_drop c).
Qed.

(** An invalidated buffer. *)
Definition invalid (b : ext4_buf) : ext4_buf := ext4_bcache_clear_dirty (set_on_list (set_end_write b None) false).

Lemma invalid_flags b : dirty (invalid b) = false /\ uptodate (invalid b) = false.
Proof.
  unfold dirty, uptodate, invalid, ext4_bcache_clear_dirty. rewrite !test_clear_flag by done. cbn.
  split; [by rewrite andb_false_r|by rewrite andb_false_r].
Qed.

Lemma invalidate_buf_ok c a b : wf c -> lba_root c !! a = Some b ->
  let c' := ext4_bcache_invalidate_buf c a in
  wf c' /\ lba_root c' = <[a := invalid b]> (lba_root c) /\ lru_root c' = lru_root c /\ lru_ctr c' = lru_ctr c /\
  dirty_list c' = rb_remove a (dirty_list c).
Proof.
  intros Hc Ha c'. destruct (wf_buf c Hc a b Ha) as [(Hr & Hdu & Hon) Hid].
  set (c1 := upd c a (fun b => set_end_write b None)).
  assert (lba_root c1 = <[a := set_end_write b None]> (lba_root c)) as E1 by (cbn; by rewrite (alter_put _ _ _ _ Ha)).
  assert (lba_root c' = <[a := invalid b]> (lba_root c) /\ lru_root c' = lru_root c /\ lru_ctr c' = lru_ctr c /\
    dirty_list c' = rb_remove a (dirty_list c) /\ ref_blocks c' = ref_blocks c) as (Er & El & Ec & Ed & En).
  { unfold c', ext4_bcache_invalidate_buf. fold c1. rewrite E1, lookup_insert_eq. cbv zeta.
    rewrite (unlist_eq c1 a (set_end_write b None)); [|by rewrite E1, lookup_insert_eq|cbn; by apply (cached_unlisted c a b)|
      cbn; intros Ho; by destruct (Hon Ho)].
    unfold upd. cbn [set_root set_dirty_list lba_root dirty_list lru_root lru_ctr ref_blocks].
    rewrite E1, insert_insert_eq. erewrite alter_put by apply lookup_insert_eq. by rewrite insert_insert_eq. }
  split; [|done]. apply (wf_relist c c' a b (invalid b)); try done. destruct (invalid_flags b) as [Hd' Hu'].
  split; [done|]. by rewrite Hd'.
Qed.

Lemma invalidate_loop_ok last l : forall c, wf c -> StronglySorted Z.lt l -> (forall x, x ∈ l -> is_Some (lba_root c !! x)) ->
  let c' := invalidate_loop c l last in
  wf c' /\ forall x, lba_root c' !! x = if decide (x ∈ l /\ x <= last) then invalid <$> lba_root c !! x else lba_root c !! x.
Proof.
  induction l as [|a l IH]; intros c Hc Hs Hin; cbn [invalidate_loop].
  { split; [done|]. intros x. rewrite decide_False; [done|]. intros [?%not_elem_of_nil _]. done. }
  apply StronglySorted_inv in Hs as [Hs Hlt]. rewrite Forall_forall in Hlt. case_if.
  - split; [done|]. intros x. rewrite decide_False; [done|]. intros [[->|Hx]%elem_of_cons Hle]; [lia|].
    specialize (Hlt x Hx). lia.
  - destruct (Hin a ltac:(by left)) as [b Ha]. destruct (invalidate_buf_ok c a b Hc Ha) as (Hc1 & Er & _).
    destruct (IH _ Hc1 Hs) as [Hc' Hr'].
    { intros x Hx. rewrite Er. destruct (decide (x = a)) as [->|]; [rewrite lookup_insert_eq; eauto|].
      rewrite lookup_insert_ne by done. apply Hin. by right. }
    split; [done|]. intros x. rewrite Hr', Er. destruct (decide (x = a)) as [->|Hx].
    + rewrite decide_False by (intros [Hl _]; specialize (Hlt a Hl); lia).
      rewrite decide_True by (split; [by left|lia]). by rewrite lookup_insert_eq, Ha.
    + rewrite lookup_insert_ne by done.
      destruct (decide (x ∈ l /\ x <= last)) as [[H1 H2]|Hn].
      * by rewrite decide_True by (split; [by right|done]).
      * rewrite decide_False; [done|]. intros [[->|H1]%elem_of_cons H2]; [done|tauto].
Qed.

Lemma in_order_elem c x : x ∈ in_order c <-> is_Some (lba_root c !! x).
Proof. unfold in_order. by rewrite merge_sort_Permutation, elem_of_elements, elem_of_dom. Qed.

Lemma in_order_sorted c : StronglySorted Z.lt (in_order c).
Proof.
  unfold in_order. set (l := merge_sort Z.le (elements (dom (lba_root c)))).
  assert (StronglySorted Z.le l) as H by (apply StronglySorted_merge_sort; apply _).
  assert (NoDup l) as Hn by (unfold l; rewrite merge_sort_Permutation; apply NoDup_elements).
  clearbody l. induction H as [|x l H IH Hx]; [constructor|]. apply NoDup_cons in Hn as [Hx' Hn].
  constructor; [by apply IH|]. rewrite Forall_forall in *. intros y Hy. specialize (Hx y Hy).
  assert (x <> y) by (intros ->; done). lia.
Qed.

Lemma wf_shake c x : wf c -> wf (set_shake c x).
Proof. intros Hc. split; apply Hc. Qed.
