(* ===== verification/Ext4BcacheSpec.v ===== *)
(** lwext4, the block cache over its device: whatever the cache keeps, flushes
    or evicts, a client sees one disk.  The invariant [inv] ties the buffers to
    the device, [view] is what clients see, and [cache_refines_disk] is the
    refinement. *)
From stdpp Require Import sorting.
From S2P Require Import Prelude Memory Ext4Errno Ext4Bcache Ext4BcacheInv.
#[local] Open Scope Z_scope.
#[local] Open Scope cint_scope.

(** ** The cache over the device *)

Section cache.
Context {D : Type} `{BlockIfaceLaws D}.
Implicit Types s : ext4_blockdev (D := D).

(** Buffers have the size of a block, and those that are valid and not dirty
    agree with the device. *)
Definition coherent s : Prop := forall a b, lba_root (bc s) !! a = Some b ->
  0 <= a < lg_bcnt s /\ Z.of_nat (length (data b)) = lg_bsize s /\ bytes (data b) /\
  (uptodate b = true -> dirty b = false -> data b = stored s a).

(** [BC_TMP] is for the buffers of the journal. *)
Definition plain s : Prop := forall a b, lba_root (bc s) !! a = Some b -> ext4_bcache_test_flag b BC_TMP = false.

Record inv s : Prop := {
  inv_geometry : geometry s;
  inv_wf : wf (bc s);
  inv_coherent : coherent s;
  inv_ctr : 0 <= lru_ctr (bc s);
  inv_refs : ref_blocks (bc s) < 2 ^ 32;
  inv_plain : plain s;
}.

(** What a client sees of block [a]. *)
Definition view s (a : Z) : list Z :=
  match lba_root (bc s) !! a with
  | Some b => if uptodate b then data b else stored s a
  | None => stored s a
  end.

(** The operations that only move data between cache and device. *)
Definition keeps s s' : Prop := inv s' /\ same_setup s s' /\ same_limits (bc s) (bc s') /\ forall x, view s' x = view s x.

Lemma keeps_refl s : inv s -> keeps s s.
Proof. done. Qed.

Lemma keeps_trans s s' s'' : keeps s s' -> keeps s' s'' -> keeps s s''.
Proof.
  intros (_ & H1 & [H2 H3] & H4) (Hi & H1' & [H2' H3'] & H4'). split; [done|].
  split; [by eapply same_setup_trans|]. split; [split; congruence|]. intros x. by rewrite H4'.
Qed.

Definition cleaned (b : ext4_buf) : ext4_buf := ext4_bcache_clear_flag (set_on_list b false) BC_DIRTY.

Lemma cleaned_flags b : dirty (cleaned b) = false /\ uptodate (cleaned b) = uptodate b /\
  ext4_bcache_test_flag (cleaned b) BC_TMP = ext4_bcache_test_flag b BC_TMP.
Proof.
  unfold dirty, uptodate, cleaned. rewrite !test_clear_flag by done. cbn [Z.eqb negb].
  split; [by rewrite andb_false_r|]. cbn. by rewrite !andb_true_r.
Qed.

(** A state with the trees and lists of [c], whatever else it has. *)
Lemma end_write_ok s a r e : inv s -> keeps s (run_end_write s a r e) /\
  lba_root (bc (run_end_write s a r e)) = lba_root (bc s) /\ lru_root (bc (run_end_write s a r e)) = lru_root (bc s) /\
  dirty_list (bc (run_end_write s a r e)) = dirty_list (bc s) /\
  ref_blocks (bc (run_end_write s a r e)) = ref_blocks (bc s) /\ lru_ctr (bc (run_end_write s a r e)) = lru_ctr (bc s) /\
  forall x, stored (run_end_write s a r e) x = stored s x.
Proof.
  intros Hi. destruct e as [arg|]; cbn; [|done]. split; [|done]. split; [|done].
  destruct Hi as [Hg Hw Hc H1 H2 H3]. split; [exact Hg|by apply wf_shake|exact Hc|exact H1|exact H2|exact H3].
Qed.

(** Results of flushing buffer [a]. *)
Definition flushed s a r s' : Prop :=
  keeps s s' /\ lru_root (bc s') = lru_root (bc s) /\ ref_blocks (bc s') = ref_blocks (bc s) /\
  lru_ctr (bc s') = lru_ctr (bc s) /\ (forall x, x <> a -> lba_root (bc s') !! x = lba_root (bc s) !! x) /\
  (forall x, x <> a -> stored s' x = stored s x) /\
  exists b, lba_root (bc s) !! a = Some b /\
    if r =? EOK
    then lba_root (bc s') !! a = Some (if dirty b then cleaned b else b) /\
         dirty_list (bc s') = rb_remove a (dirty_list (bc s)) /\ (dirty b = true -> stored s' a = data b)
    else dirty b = true /\ lba_root (bc s') !! a = Some b /\ dirty_list (bc s') = dirty_list (bc s).

(** One buffer replaced, and at most its block of the device changed. *)
Lemma keeps_put s s' a b' : inv s -> same_setup s s' -> same_limits (bc s) (bc s') -> wf (bc s') ->
  lba_root (bc s') = <[a := b']> (lba_root (bc s)) -> 0 <= lru_ctr (bc s') -> ref_blocks (bc s') < 2 ^ 32 ->
  0 <= a < lg_bcnt s -> Z.of_nat (length (data b')) = lg_bsize s -> bytes (data b') ->
  (uptodate b' = true -> dirty b' = false -> data b' = stored s' a) ->
  (forall x, x <> a -> stored s' x = stored s x) ->
  (if uptodate b' then data b' else stored s' a) = view s a -> ext4_bcache_test_flag b' BC_TMP = false -> keeps s s'.
Proof.
  intros Hi Hs Hlim Hw Er Hct Hrf Ha Hl Hb Hst Hoth Hv Ht.
  assert (lg_bsize s' = lg_bsize s /\ lg_bcnt s' = lg_bcnt s) as [El Ec] by (destruct Hs as (_ & _ & _ & ? & ? & _); done).
  split; [split; try done; [by eapply same_setup_geometry, Hi|..]|split; [done|split; [done|]]].
  - intros x bx. rewrite Er, El, Ec. intros [[<- <-]|[Hx E]]%lookup_insert_Some; [done|].
    destruct (inv_coherent s Hi x bx E) as (? & ? & ? & H'). rewrite Hoth by done. done.
  - intros x bx. rewrite Er. intros [[<- <-]|[Hx E]]%lookup_insert_Some; [done|]. by apply (inv_plain s Hi x).
  - intros x. unfold view at 1. rewrite Er. destruct (decide (x = a)) as [->|Hx].
    + by rewrite lookup_insert_eq.
    + rewrite lookup_insert_ne, Hoth by done. done.
Qed.

Lemma flush_buf_ok s a b : inv s -> lba_root (bc s) !! a = Some b ->
  exists r s', ext4_block_flush_buf s a = Some (r, s') /\ flushed s a r s'.
Proof.
  intros Hi Ha. pose proof Hi as [Hg Hw Hc Hct Hrf Hpl]. destruct (Hc a b Ha) as (Hrange & Hlen & Hbytes & _).
  destruct (wf_buf _ Hw a b Ha) as [(Hr & Hdu & Hon) Hid].
  unfold ext4_block_flush_buf. rewrite Ha. cbn [mbind option_bind]. fold (dirty b) (uptodate b).
  destruct (dirty b) eqn:Hd; cbn [andb].
  2: { exists EOK, s. split; [done|]. split; [by apply keeps_refl|]. do 5 (split; [done|]). exists b. split; [done|].
       rewrite Hd. cbn. split; [done|]. split; [|done]. by rewrite rb_remove_absent by by apply (wf_clean _ a b). }
  rewrite (Hdu eq_refl). pose proof (write_block s (data b) a Hg Hrange Hlen Hbytes) as Hwr.
  destruct (ext4_blocks_set_direct s (data b) a 1) as [r s1]. destruct Hwr as (Eb & Een & Hset & Hst & Hok).
  assert (view s a = data b) as Hv by (unfold view; by rewrite Ha, (Hdu eq_refl)).
  unfold c_true. destruct (Z.eqb_spec r 0) as [->|Hne]; cbn [negb].
  - set (s2 := set_bc s1 (upd (ext4_bcache_remove_dirty_node (bc s1) a) a (fun b => ext4_bcache_clear_flag b BC_DIRTY))).
    assert (bc s2 = set_root (set_dirty_list (bc s) (rb_remove a (dirty_list (bc s)))) (<[a := cleaned b]> (lba_root (bc s)))) as E2.
    { cbn. rewrite Eb, (remove_node_eq _ _ _ Ha) by (by apply (cached_unlisted _ a b)). unfold upd. cbn.
      erewrite alter_put by apply lookup_insert_eq. rewrite insert_insert_eq. done. }
    destruct (cleaned_flags b) as (Hcd & Hcu & Hct').
    assert (wf (bc s2)) as Hw2.
    { rewrite E2. apply (wf_relist (bc s) _ a b (cleaned b)); try done. split; [done|]. by rewrite Hcd. }
    assert (keeps s s2) as Hk2.
    { apply (keeps_put s s2 a (cleaned b)); try done; rewrite ?E2; try done.
      - intros _ _. symmetry. exact (Hok eq_refl).
      - rewrite Hcu, (Hdu eq_refl). done.
      - rewrite Hct'. by apply (Hpl a). }
    destruct (end_write_ok s2 a 0 (end_write b) (proj1 Hk2)) as (Hk3 & E3 & E4 & E5 & E6 & E7 & E8).
    exists EOK, (run_end_write s2 a 0 (end_write b)). split; [reflexivity|]. split; [by eapply keeps_trans|].
    rewrite E4, E6, E7, E3, E5, E2. cbn. do 3 (split; [done|]). split; [intros x Hx; by rewrite lookup_insert_ne|].
    split; [intros x Hx; rewrite E8; by apply Hst|]. exists b. rewrite Hd, lookup_insert_eq. split; [done|]. do 2 (split; [done|]). intros _. rewrite E8. by apply Hok.
  - assert (keeps s s1) as Hk1.
    { apply (keeps_put s s1 a b); rewrite ?Eb, ?insert_id by done; try done; [congruence|by rewrite (Hdu eq_refl)|by apply (Hpl a)]. }
    destruct (end_write_ok s1 a r (end_write b) (proj1 Hk1)) as (Hk3 & E3 & E4 & E5 & E6 & E7 & E8).
    exists r, (run_end_write s1 a r (end_write b)). split; [reflexivity|]. split; [by eapply keeps_trans|].
    rewrite E4, E6, E7, E3, E5, Eb. do 4 (split; [done|]).
    split; [intros x Hx; rewrite E8; by apply Hst|]. exists b. split; [done|].
    by destruct (Z.eqb_spec r EOK).
Qed.
(** A buffer that is not needed dropped. *)
Lemma keeps_drop s a b : inv s -> lba_root (bc s) !! a = Some b -> (uptodate b = true -> dirty b = false) ->
  exists c', ext4_bcache_drop_buf (bc s) a = Some c' /\ keeps s (set_bc s c') /\ lba_root c' = delete a (lba_root (bc s)) /\
    lru_root c' = rb_remove a (lru_root (bc s)) /\ ref_blocks c' = ref_blocks (bc s) - 1 /\ lru_ctr c' = lru_ctr (bc s).
Proof.
  intros Hi Ha Hd. pose proof Hi as [Hg Hw Hc Hct Hrf Hpl]. destruct (Hc a b Ha) as (_ & _ & _ & Hst).
  destruct (drop_ok (bc s) a b Hw Ha Hrf) as (c' & E & Hw' & Er & El & Ed & Es & Eds & En & Ec).
  exists c'. split; [done|]. split; [|done]. split; [split|split; [done|split; [done|]]].
  - exact Hg.
  - exact Hw'.
  - intros x bx. cbn [bc set_bc]. rewrite Er. intros [_ Ex]%lookup_delete_Some. exact (Hc x bx Ex).
  - cbn. lia.
  - cbn. lia.
  - intros x bx. cbn [bc set_bc]. rewrite Er. intros [_ Ex]%lookup_delete_Some. exact (Hpl x bx Ex).
  - intros x. unfold view. cbn [bc set_bc]. rewrite Er. change (stored (set_bc s c') x) with (stored s x).
    destruct (decide (x = a)) as [->|]; [|by rewrite lookup_delete_ne].
    rewrite lookup_delete_eq, Ha. destruct (uptodate b); [by rewrite Hst by auto|done].
Qed.

(** References held on block [a]. *)
Definition refs s (a : Z) : Z := default 0 (refctr <$> lba_root (bc s) !! a).

Lemma length_rb_remove a l : a ∈ l -> (length (rb_remove a l) < length l)%nat.
Proof.
  intros Ha. induction l as [|x l IH]; [by apply not_elem_of_nil in Ha|]. unfold rb_remove. rewrite filter_cons.
  case_decide as Hx; [|pose proof (length_filter (fun x => x <> a) l); cbn; lia].
  cbn. apply elem_of_cons in Ha as [->|Ha]; [done|]. specialize (IH Ha). unfold rb_remove in IH. lia.
Qed.

Lemma shake_loop_ok fuel : forall s, inv s -> (length (lru_root (bc s)) < fuel)%nat ->
  exists r s', shake_loop fuel s = Some (r, s') /\ keeps s s' /\ lru_ctr (bc s') = lru_ctr (bc s) /\
    ref_blocks (bc s') <= ref_blocks (bc s) /\
    (forall x b, lba_root (bc s') !! x = Some b -> lba_root (bc s) !! x = Some b) /\
    (forall x b, lba_root (bc s) !! x = Some b -> refctr b <> 0 -> lba_root (bc s') !! x = Some b) /\
    (r = EOK -> lru_root (bc s') = [] \/ ext4_bcache_is_full (bc s') = false).
Proof.
  induction fuel as [|fuel IH]; intros s Hi Hf; [lia|]. cbn [shake_loop]. unfold ext4_buf_lowest_lru.
  destruct (lru_root (bc s)) as [|a l] eqn:El; cbn [head].
  { exists EOK, s. split; [done|]. split; [by apply keeps_refl|]. do 4 (split; [done|]). by left. }
  destruct (ext4_bcache_is_full (bc s)) eqn:Efull; cbn [negb].
  2: { exists EOK, s. split; [done|]. split; [by apply keeps_refl|]. do 4 (split; [done|]). by right. }
  destruct (proj1 (wf_lru _ (inv_wf s Hi) a)) as (b & Ha & Hz); [rewrite El; by left|].
  rewrite Ha. cbn [mbind option_bind].
  assert (exists r s1, (if ext4_bcache_test_flag b BC_DIRTY then ext4_block_flush_buf s a else Some (EOK, s)) = Some (r, s1) /\
    flushed s a r s1) as (r & s1 & -> & Hfl).
  { destruct (flush_buf_ok s a b Hi Ha) as (r & s1 & E & Hfl). destruct (ext4_bcache_test_flag b BC_DIRTY) eqn:Hd; [eauto|].
    exists EOK, s. split; [done|]. unfold ext4_block_flush_buf in E. rewrite Ha in E. cbn in E. rewrite Hd in E.
    cbn in E. by injection E as <- <-. }
  cbn [mbind option_bind]. destruct Hfl as (Hk & El1 & En1 & Ec1 & Hoth & _ & b0 & Ha0 & Hr).
  assert (b0 = b) as -> by congruence. destruct (Z.eqb_spec r EOK) as [->|Hne]; cbn [negb].
  2: { exists r, s1. split; [done|]. split; [done|]. split; [done|]. split; [lia|].
       destruct Hr as (_ & Ha1 & _). split; [|split; [|done]].
       - intros x bx Hx. destruct (decide (x = a)) as [->|Hxa]; [congruence|by rewrite <- Hoth].
       - intros x bx Hx _. destruct (decide (x = a)) as [->|Hxa]; [congruence|by rewrite Hoth]. }
  destruct Hr as (Ha1 & _).
  destruct (keeps_drop s1 a _ (proj1 Hk) Ha1) as (c & E & Hkd & Er & Elr & En & Ec).
  { destruct (dirty b) eqn:Hd; [intros _; by destruct (cleaned_flags b)|done]. }
  rewrite E. cbn [mbind option_bind].
  destruct (IH (set_bc s1 c) (proj1 Hkd)) as (r & s' & -> & Hk' & Ec' & En' & Hsub & Hkeep & Hend).
  { cbn. rewrite Elr, El1, El. pose proof (length_rb_remove a (a :: l) ltac:(by left)). cbn in *. lia. }
  exists r, s'. split; [done|]. split; [by eapply keeps_trans; [exact Hk|eapply keeps_trans]|]. cbn in *.
  split; [congruence|]. split; [lia|]. split; [|split; [|done]].
  - intros x bx Hx. apply Hsub in Hx. rewrite Er in Hx. apply lookup_delete_Some in Hx as [Hne Hx].
    by rewrite Hoth in Hx.
  - intros x bx Hx Hr. apply Hkeep; [|done]. rewrite Er, lookup_delete_ne by congruence.
    destruct (decide (x = a)) as [->|Hxa]; [congruence|by rewrite Hoth].
Qed.
Lemma keeps_shake s x : inv s -> keeps s (set_bc s (set_shake (bc s) x)).
Proof.
  intros [Hg Hw Hc H1 H2 H3]. split; [|done].
  split; [exact Hg|by apply wf_shake|exact Hc|exact H1|exact H2|exact H3].
Qed.

(** Results of shaking: buffers in use stay as they are, and some of the others. *)
Definition shaken s s' : Prop :=
  keeps s s' /\ lru_ctr (bc s') = lru_ctr (bc s) /\ ref_blocks (bc s') <= ref_blocks (bc s) /\
  (forall x b, lba_root (bc s') !! x = Some b -> lba_root (bc s) !! x = Some b) /\
  (forall x b, lba_root (bc s) !! x = Some b -> refctr b <> 0 -> lba_root (bc s') !! x = Some b).

Lemma cache_shake_ok s fuel : inv s -> (length (lru_root (bc s)) < fuel)%nat ->
  exists r s', ext4_block_cache_shake fuel s = Some (r, s') /\ shaken s s' /\
    (r = EOK -> dont_shake (bc s) = false -> lru_root (bc s') = [] \/ ext4_bcache_is_full (bc s') = false).
Proof.
  intros Hi Hf. unfold ext4_block_cache_shake. destruct (dont_shake (bc s)).
  { exists EOK, s. split; [done|]. split; [|done]. split; [by apply keeps_refl|done]. }
  pose proof (keeps_shake s true Hi) as Hk0.
  destruct (shake_loop_ok fuel _ (proj1 Hk0)) as (r & s1 & E & Hk & Ec & En & H1 & H2 & H3); [done|].
  rewrite E. cbn [mbind option_bind]. eexists r, _. split; [reflexivity|]. split; [|intros ? _; by apply H3].
  split; [|done]. eapply keeps_trans; [exact Hk0|]. eapply keeps_trans; [exact Hk|]. apply keeps_shake, Hk.
Qed.

Lemma shaken_refs s s' x : inv s -> shaken s s' -> refs s' x = refs s x.
Proof.
  intros Hi (Hk & _ & _ & Hsub & Hkeep). unfold refs. destruct (lba_root (bc s') !! x) as [b|] eqn:E.
  - by rewrite (Hsub _ _ E).
  - destruct (lba_root (bc s) !! x) as [b|] eqn:E'; [|done]. cbn.
    destruct (decide (refctr b = 0)); [done|]. by rewrite (Hkeep _ _ E') in E.
Qed.

(** A reference more on [a], and the others as before. *)
Definition one_more s a s' : Prop := refs s' a = refs s a + 1 /\ forall x, x <> a -> refs s' x = refs s x.

(** There is a number left for the buffers and their order. *)
Definition can_count s a : Prop :=
  lru_ctr (bc s) + 1 < 2 ^ 32 /\ ref_blocks (bc s) + 1 < 2 ^ 32 /\ refs s a + 1 < 2 ^ 32.

(** Memory from the allocator. *)
Definition fits s (mem : list Z) : Prop := Z.of_nat (length mem) = lg_bsize s /\ bytes mem.

Lemma refs_put s s' a b : lba_root (bc s') = <[a := b]> (lba_root (bc s)) -> refctr b = refs s a + 1 -> one_more s a s'.
Proof.
  intros Er Hr. unfold one_more, refs. rewrite Er. split; [by rewrite lookup_insert_eq|].
  intros x Hx. by rewrite lookup_insert_ne.
Qed.

Lemma alloc_ok s a mem : inv s -> 0 <= a < lg_bcnt s -> can_count s a -> fits s mem ->
  let '(r, c) := ext4_bcache_alloc (bc s) a (Some mem) in
  r = EOK /\ keeps s (set_bc s c) /\ one_more s a (set_bc s c) /\
  (exists b, lba_root c !! a = Some b /\ refctr b <> 0) /\ lru_ctr c <= lru_ctr (bc s) + 1.
Proof.
  intros Hi Ha (H1 & H2 & H3) [Hml Hmb]. pose proof Hi as [Hg Hw Hc Hct Hrf Hpl].
  destruct (lba_root (bc s) !! a) as [b|] eqn:Eb.
  - destruct (wf_buf _ Hw a b Eb) as [(Hr & _) _]. destruct (Hc a b Eb) as (_ & Hl & Hby & Hst).
    assert (refs s a = refctr b) as Erf by (unfold refs; by rewrite Eb). rewrite Erf in H3.
    destruct (find_get_ok (bc s) a b Hw Eb Hct H1 H3) as (Ef & Hw' & Er & El & Ed & Es & Eds & En & Ec).
    unfold ext4_bcache_alloc. destruct (ext4_bcache_find_get (bc s) a) as [f c]. cbn in *. subst f.
    split; [done|]. split; [|split; [|split; [|lia]]].
    + apply (keeps_put s _ a (touch (bc s) b)); try done; cbn; try lia.
      * unfold view. rewrite Eb. done.
      * by apply (Hpl a b).
    + apply (refs_put _ _ _ (touch (bc s) b)); [done|]. cbn. lia.
    + rewrite Er, lookup_insert_eq. eexists. split; [done|]. cbn. lia.
  - destruct (alloc_new_ok (bc s) a mem Hw Eb Hct H1 H2) as (Er0 & Hw' & Er & El & Ed & Es & Eds & En & Ec).
    destruct (ext4_bcache_alloc (bc s) a (Some mem)) as [r c]. cbn in *. subst r.
    split; [done|]. split; [|split; [|split; [|lia]]].
    + apply (keeps_put s _ a (Buf 0 mem (lru_ctr (bc s) + 1) 1 false None)); try done; cbn; try lia.
      unfold view. by rewrite Eb.
    + apply (refs_put _ _ _ (Buf 0 mem (lru_ctr (bc s) + 1) 1 false None)); [done|]. unfold refs. by rewrite Eb.
    + rewrite Er, lookup_insert_eq. by eexists.
Qed.
(** A reference less on [a], and the others as before. *)
Definition one_less s a s' : Prop := refs s' a = refs s a - 1 /\ forall x, x <> a -> refs s' x = refs s x.

Lemma refs_put' s s' a b : lba_root (bc s') = <[a := b]> (lba_root (bc s)) -> refctr b = refs s a - 1 -> one_less s a s'.
Proof.
  intros Er Hr. unfold one_less, refs. rewrite Er. split; [by rewrite lookup_insert_eq|].
  intros x Hx. by rewrite lookup_insert_ne.
Qed.

(** References when buffer [a] keeps its own and the others are untouched. *)
Lemma refs_same s s' a b b' : lba_root (bc s) !! a = Some b -> lba_root (bc s') !! a = Some b' -> refctr b' = refctr b ->
  (forall x, x <> a -> lba_root (bc s') !! x = lba_root (bc s) !! x) -> forall x, refs s' x = refs s x.
Proof.
  intros Ha Ha' Hr Hx x. unfold refs. destruct (decide (x = a)) as [->|Hne]; [|by rewrite Hx].
  rewrite Ha, Ha'. cbn. done.
Qed.

(** The released buffer [b]: one reference less. *)
Definition released (b : ext4_buf) : ext4_buf :=
  Buf (flags b) (data b) (lru_id b) (refctr b - 1) (on_dirty_list b) (end_write b).

Section free.
Context (s : ext4_blockdev (D := D)) (a : Z) (b : ext4_buf).
Hypothesis (Hi : inv s) (Ha : lba_root (bc s) !! a = Some b) (Hrf : refctr b <> 0).

Lemma release_unlisted : on_dirty_list b = false.
Proof.
  destruct (wf_buf _ (inv_wf s Hi) a b Ha) as [(_ & _ & Hon) _]. destruct (on_dirty_list b); [|done].
  by destruct Hon.
Qed.

Lemma release_ok c : lba_root c = <[a := released b]> (lba_root (bc s)) ->
  lru_root c = (if refctr b - 1 =? 0 then rb_insert (id_of c) a (lru_root (bc s)) else lru_root (bc s)) ->
  dirty_list c = dirty_list (bc s) -> lru_ctr c = lru_ctr (bc s) -> ref_blocks c = ref_blocks (bc s) ->
  same_limits (bc s) c -> keeps s (set_bc s c) /\ one_less s a (set_bc s c).
Proof.
  intros Er El Ed Ec En Hs. pose proof Hi as [Hg Hw Hc Hct Href Hpl]. destruct (wf_buf _ Hw a b Ha) as [(Hr & Hdu & _) Hid].
  destruct (Hc a b Ha) as (Hrange & Hlen & Hby & Hst). split.
  - apply (keeps_put s _ a (released b)); try done; cbn; try lia.
    + apply (wf_put (bc s) c a (released b)); try done; cbn; rewrite ?Ec; try lia.
      * split; [cbn; lia|]. split; [done|]. cbn. by rewrite release_unlisted.
      * intros x bx Hx Ex Heq. apply Hx. by eapply (wf_ids _ Hw).
      * rewrite El. by rewrite (rb_remove_absent a (lru_root (bc s))) by by apply (wf_referenced _ a b).
      * rewrite Ed, release_unlisted. by rewrite rb_remove_absent by by apply (cached_unlisted _ a b Hw Ha release_unlisted).
      * rewrite En, (wf_count _ Hw), Er, map_size_insert_Some by eauto. done.
    + unfold view. by rewrite Ha.
    + by apply (Hpl a b).
  - apply (refs_put' _ _ _ (released b)); [done|]. unfold refs. by rewrite Ha.
Qed.
End free.
(** The released buffer is listed or flushed when it is dirty. *)
Section settle.
Context (s : ext4_blockdev (D := D)) (a : Z) (b : ext4_buf).
Hypothesis (Hi : inv s) (Ha : lba_root (bc s) !! a = Some b) (Hz : refctr b = 0).

Definition settled s' : Prop := keeps s s' /\ (forall x, x <> a -> lba_root (bc s') !! x = lba_root (bc s) !! x) /\
  exists b', lba_root (bc s') !! a = Some b' /\ refctr b' = 0 /\ uptodate b' = uptodate b /\
    ext4_bcache_test_flag b' BC_TMP = ext4_bcache_test_flag b BC_TMP.

Lemma list_ok : on_dirty_list b = false -> dirty b = true ->
  settled (set_bc s (ext4_bcache_insert_dirty_node (bc s) a)).
Proof.
  intros Ho Hd. pose proof Hi as [Hg Hw Hc Hct Href Hpl]. destruct (wf_buf _ Hw a b Ha) as [(Hr & Hdu & _) Hid].
  destruct (Hc a b Ha) as (Hrange & Hlen & Hby & Hst).
  unfold ext4_bcache_insert_dirty_node. rewrite Ha, Ho. cbn [negb].
  assert (lba_root (upd (set_dirty_list (bc s) (a :: dirty_list (bc s))) a (fun b => set_on_list b true)) =
    <[a := set_on_list b true]> (lba_root (bc s))) as Er by (cbn; by rewrite (alter_put _ _ _ _ Ha)).
  split; [|split].
  - apply (keeps_put s _ a (set_on_list b true)); try done.
    + apply (wf_relist (bc s) _ a b (set_on_list b true)); try done.
      cbn. by rewrite rb_remove_absent by by apply (cached_unlisted _ a b).
    + unfold view. by rewrite Ha.
    + by apply (Hpl a b).
  - intros x Hx. cbn [bc set_bc]. rewrite Er. by rewrite lookup_insert_ne.
  - exists (set_on_list b true). cbn [bc set_bc]. by rewrite Er, lookup_insert_eq.
Qed.

Lemma clear_flush_ok s1 b1 : inv s1 -> lba_root (bc s1) !! a = Some b1 ->
  let b2 := ext4_bcache_clear_flag b1 BC_FLUSH in
  let s2 := set_bc s1 (upd (bc s1) a (fun b => ext4_bcache_clear_flag b BC_FLUSH)) in
  keeps s1 s2 /\ lba_root (bc s2) = <[a := b2]> (lba_root (bc s1)) /\ uptodate b2 = uptodate b1 /\ dirty b2 = dirty b1 /\
  ext4_bcache_test_flag b2 BC_TMP = ext4_bcache_test_flag b1 BC_TMP.
Proof.
  intros Hi1 Ha1 b2 s2. pose proof Hi1 as [Hg Hw Hc Hct Href Hpl]. destruct (wf_buf _ Hw a b1 Ha1) as [Hb Hid].
  destruct (Hc a b1 Ha1) as (Hrange & Hlen & Hby & Hst).
  assert (uptodate b2 = uptodate b1 /\ dirty b2 = dirty b1 /\
    ext4_bcache_test_flag b2 BC_TMP = ext4_bcache_test_flag b1 BC_TMP) as (Eu & Ed & Et).
  { unfold b2, uptodate, dirty. rewrite !test_clear_flag by done. cbn. by rewrite !andb_true_r. }
  assert (lba_root (bc s2) = <[a := b2]> (lba_root (bc s1))) as Er by (cbn; by rewrite (alter_put _ _ _ _ Ha1)).
  split; [|done]. apply (keeps_put s1 s2 a b2); try done.
  - apply (wf_same (bc s1) _ a b1 b2); try done. destruct Hb as (? & ? & ?). split; [done|]. by rewrite Eu, Ed.
  - rewrite Eu, Ed. apply Hst.
  - rewrite Eu. unfold view. by rewrite Ha1.
  - rewrite Et. by apply (Hpl a).
Qed.

Lemma flush_settles : exists s', (
    '(_, s) ← ext4_block_flush_buf s a; Some (set_bc s (upd (bc s) a (fun b => ext4_bcache_clear_flag b BC_FLUSH))))
    = Some s' /\ settled s'.
Proof.
  destruct (flush_buf_ok s a b Hi Ha) as (r & s1 & -> & Hk & _ & _ & _ & Hoth & _ & b0 & Ha0 & Hr).
  assert (b0 = b) as -> by congruence. cbn [mbind option_bind]. eexists. split; [reflexivity|].
  assert (exists b1, lba_root (bc s1) !! a = Some b1 /\ refctr b1 = 0 /\ uptodate b1 = uptodate b /\
    ext4_bcache_test_flag b1 BC_TMP = ext4_bcache_test_flag b BC_TMP) as (b1 & Ha1 & Hz1 & Hu1 & Ht1).
  { destruct (r =? EOK).
    - destruct Hr as (Ha1 & _). eexists. split; [exact Ha1|]. destruct (dirty b); [|done]. split; [done|].
      split; apply cleaned_flags.
    - destruct Hr as (_ & Ha1 & _). eauto. }
  destruct (clear_flush_ok s1 b1 (proj1 Hk) Ha1) as (Hk2 & Er & Eu & _ & Et).
  split; [by eapply keeps_trans|]. split.
  - intros x Hx. rewrite Er, lookup_insert_ne by done. by apply Hoth.
  - eexists. rewrite Er, lookup_insert_eq. split; [done|]. split; [done|]. by rewrite Eu, Et.
Qed.
End settle.
(** The last two steps of releasing: settle, and drop what is not valid. *)
Lemma free_last s a b : inv s -> lba_root (bc s) !! a = Some b -> refctr b = 0 -> on_dirty_list b = false ->
  exists s', (
    s ← (if ext4_bcache_test_flag b BC_DIRTY && ext4_bcache_test_flag b BC_UPTODATE then
           if c_true (cache_write_back s) && negb (ext4_bcache_test_flag b BC_FLUSH)
              && negb (ext4_bcache_test_flag b BC_TMP)
           then Some (set_bc s (ext4_bcache_insert_dirty_node (bc s) a))
           else
             '(_, s) ← ext4_block_flush_buf s a;
             Some (set_bc s (upd (bc s) a (fun b => ext4_bcache_clear_flag b BC_FLUSH)))
         else Some s);
    b ← lba_root (bc s) !! a;
    if negb (ext4_bcache_test_flag b BC_UPTODATE) || ext4_bcache_test_flag b BC_TMP then
      c ← ext4_bcache_drop_buf (bc s) a; Some (EOK, set_bc s c)
    else Some (EOK, s)) = Some (EOK, s') /\ keeps s s' /\ forall x, refs s' x = refs s x.
Proof.
  intros Hi Ha Hz Ho. pose proof (inv_plain s Hi a b Ha) as Ht.
  assert (exists s1, (if ext4_bcache_test_flag b BC_DIRTY && ext4_bcache_test_flag b BC_UPTODATE then
           if c_true (cache_write_back s) && negb (ext4_bcache_test_flag b BC_FLUSH)
              && negb (ext4_bcache_test_flag b BC_TMP)
           then Some (set_bc s (ext4_bcache_insert_dirty_node (bc s) a))
           else
             '(_, s) ← ext4_block_flush_buf s a;
             Some (set_bc s (upd (bc s) a (fun b => ext4_bcache_clear_flag b BC_FLUSH)))
         else Some s) = Some s1 /\ settled s a b s1) as (s1 & -> & Hk & Hoth & b1 & Ha1 & Hz1 & Hu1 & Ht1).
  { destruct (ext4_bcache_test_flag b BC_DIRTY && _) eqn:Hd; zb.
    - case_if; [|by apply flush_settles]. eexists. split; [reflexivity|]. by apply list_ok.
    - exists s. split; [done|]. split; [by apply keeps_refl|]. split; [done|]. by exists b. }
  cbn [mbind option_bind]. rewrite Ha1. cbn [mbind option_bind]. rewrite Ht1, Ht, orb_false_r.
  pose proof (refs_same s s1 a b b1 Ha Ha1 ltac:(congruence) Hoth) as Hrefs.
  fold (uptodate b1). destruct (uptodate b1) eqn:Eu; cbn [negb]; [by exists s1|].
  destruct (keeps_drop s1 a b1 (proj1 Hk) Ha1) as (c & -> & Hkd & Er & _); [by rewrite Eu|].
  cbn [mbind option_bind]. eexists. split; [reflexivity|]. split; [by eapply keeps_trans|].
  intros x. rewrite <- Hrefs. unfold refs. cbn [bc set_bc]. rewrite Er.
  destruct (decide (x = a)) as [->|]; [|by rewrite lookup_delete_ne]. rewrite lookup_delete_eq, Ha1. cbn. done.
Qed.

Lemma free_ok s a b : inv s -> a <> 0 -> lba_root (bc s) !! a = Some b -> refctr b <> 0 ->
  exists s', ext4_bcache_free s a = Some (EOK, s') /\ keeps s s' /\ one_less s a s'.
Proof.
  intros Hi Ha0 Ha Hr. destruct (wf_buf _ (inv_wf s Hi) a b Ha) as [(Hrr & _) _].
  unfold ext4_bcache_free. destruct (Z.eqb_spec a 0); [done|]. rewrite Ha. cbn [mbind option_bind].
  destruct (Z.eqb_spec (refctr b) 0); [done|]. cbv zeta. rewrite (uw_small 32 (refctr b - 1)) by lia.
  set (s1 := set_bc s (upd (bc s) a ext4_bcache_dec_ref)).
  assert (lba_root (bc s1) = <[a := released b]> (lba_root (bc s))) as Er1.
  { cbn. rewrite (alter_put _ _ _ _ Ha). unfold ext4_bcache_dec_ref, released. by rewrite (uw_small 32) by lia. }
  destruct (Z.eqb_spec (refctr b - 1) 0) as [Hz|Hz]; cbn [negb].
  2: { exists s1. split; [done|]. apply (release_ok s a b Hi Ha Hr); try done.
       destruct (Z.eqb_spec (refctr b - 1) 0); done. }
  set (s2 := set_bc s1 (set_lru (bc s1) (rb_insert (id_of (bc s1)) a (lru_root (bc s1))))).
  destruct (release_ok s a b Hi Ha Hr (bc s2)) as [Hk2 Hl2]; try done.
  { rewrite Hz. done. }
  change (set_bc s (bc s2)) with s2 in *.
  destruct (free_last s2 a (released b) (proj1 Hk2)) as (s3 & E & Hk3 & Hrefs).
  { change (lba_root (bc s2)) with (lba_root (bc s1)). by rewrite Er1, lookup_insert_eq. }
  { done. }
  { cbn. apply (release_unlisted s a b Hi Ha Hr). }
  exists s3. split; [exact E|]. split; [by eapply keeps_trans|].
  destruct Hl2 as [H1 H2]. split; [by rewrite Hrefs|]. intros x Hx. by rewrite Hrefs, H2.
Qed.
(** What the allocator may give. *)
Definition grants s (mem : option (list Z)) : Prop := forall l, mem = Some l -> fits s l.

Lemma one_more_refs s s1 a s' : (forall x, refs s1 x = refs s x) -> one_more s1 a s' -> one_more s a s'.
Proof. intros Hr [H1 H2]. split; [by rewrite H1, Hr|]. intros x Hx. by rewrite H2, Hr. Qed.

Lemma shaken_can s s' a : inv s -> shaken s s' -> can_count s a -> can_count s' a.
Proof.
  intros Hi Hs (H1 & H2 & H3). unfold can_count. rewrite (shaken_refs s s') by done.
  destruct Hs as (_ & -> & ? & _). lia.
Qed.

Lemma get_noread_ok s a mem fuel : inv s -> ph_refctr s <> 0 -> 0 <= a < lg_bcnt s -> can_count s a -> grants s mem ->
  (length (lru_root (bc s)) < fuel)%nat ->
  exists r s', ext4_block_get_noread fuel s a mem = Some (r, s') /\ keeps s s' /\
    if r =? EOK then one_more s a s' /\ exists b, lba_root (bc s') !! a = Some b /\ refctr b <> 0
    else forall x, refs s' x = refs s x.
Proof.
  intros Hi Hph Ha Hcan Hmem Hf. unfold ext4_block_get_noread. destruct (Z.eqb_spec (ph_refctr s) 0); [done|].
  destruct (Z.ltb_spec a (lg_bcnt s)); [|lia]. cbn [negb].
  destruct (cache_shake_ok s fuel Hi Hf) as (r & s1 & -> & Hsh & _). cbn [mbind option_bind].
  pose proof (fun x => shaken_refs s s1 x Hi Hsh) as Hrefs. pose proof (shaken_can s s1 a Hi Hsh Hcan) as Hcan1.
  pose proof Hsh as (Hk & _). destruct (Z.eqb_spec r EOK) as [->|Hne]; cbn [negb].
  2: { exists r, s1. split; [done|]. split; [done|]. destruct (Z.eqb_spec r EOK); done. }
  assert (lg_bcnt s1 = lg_bcnt s /\ lg_bsize s1 = lg_bsize s) as [Ec El] by (destruct Hk as (_ & (_ & _ & _ & ? & ? & _) & _); done).
  assert (forall l, fits s1 l -> let '(r, c) := ext4_bcache_alloc (bc s1) a (Some l) in
    r = EOK /\ keeps s1 (set_bc s1 c) /\ one_more s1 a (set_bc s1 c) /\
    exists b, lba_root c !! a = Some b /\ refctr b <> 0) as Halloc.
  { intros l Hl. pose proof (alloc_ok s1 a l (proj1 Hk) ltac:(lia) Hcan1 Hl) as H'.
    destruct (ext4_bcache_alloc (bc s1) a (Some l)). by destruct H' as (? & ? & ? & ? & _). }
  assert (forall l, fits s1 l -> let '(r, c) := ext4_bcache_alloc (bc s1) a (Some l) in exists r0 s',
    Some (r, set_bc s1 c) = Some (r0, s') /\ keeps s s' /\
    if r0 =? EOK then one_more s a s' /\ exists b, lba_root (bc s') !! a = Some b /\ refctr b <> 0
    else forall x, refs s' x = refs s x) as Hgo.
  { intros l Hl. specialize (Halloc l Hl). destruct (ext4_bcache_alloc (bc s1) a (Some l)) as [r c].
    destruct Halloc as (-> & Hk' & Hm & Hb). eexists EOK, _. split; [reflexivity|]. split; [by eapply keeps_trans|].
    cbn. split; [by eapply one_more_refs|done]. }
  destruct mem as [l|].
  { assert (fits s1 l) as Hl by (unfold fits; rewrite El; by apply Hmem). specialize (Hgo l Hl).
    by destruct (ext4_bcache_alloc (bc s1) a (Some l)). }
  destruct (lba_root (bc s1) !! a) as [b|] eqn:Eb.
  - assert (fits s1 (data b)) as Hl by (destruct (inv_coherent s1 (proj1 Hk) a b Eb) as (_ & ? & ? & _); done).
    specialize (Hgo _ Hl). replace (ext4_bcache_alloc (bc s1) a None) with (ext4_bcache_alloc (bc s1) a (Some (data b))).
    2: { unfold ext4_bcache_alloc, ext4_bcache_find_get, ext4_buf_lookup. by rewrite Eb. }
    by destruct (ext4_bcache_alloc (bc s1) a (Some (data b))).
  - exists ENOMEM, s1. split; [|done]. unfold ext4_bcache_alloc, ext4_bcache_find_get, ext4_buf_lookup. rewrite Eb.
    by destruct s1.
Qed.
(** A buffer changed in place without a new view of its block. *)
Lemma keeps_change s s1 a b f : inv s -> lba_root (bc s) !! a = Some b -> bc s1 = bc s -> same_setup s s1 ->
  (forall x, stored s1 x = stored s x) -> uptodate b = false ->
  refctr (f b) = refctr b -> lru_id (f b) = lru_id b -> on_dirty_list (f b) = on_dirty_list b ->
  ext4_bcache_test_flag (f b) BC_TMP = false -> dirty (f b) = false -> fits s (data (f b)) ->
  (uptodate (f b) = true -> data (f b) = stored s a) ->
  let s2 := set_bc s1 (upd (bc s1) a f) in
  keeps s s2 /\ lba_root (bc s2) = <[a := f b]> (lba_root (bc s)).
Proof.
  intros Hi Ha Eb Hset Hst Hu Hr Hl Ho Ht Hd [Hlen Hby] Hv s2. pose proof Hi as [Hg Hw Hc Hct Hrf Hpl].
  destruct (wf_buf _ Hw a b Ha) as [(Hrr & Hdu & Hon) Hid]. destruct (Hc a b Ha) as (Hrange & _).
  assert (lba_root (bc s2) = <[a := f b]> (lba_root (bc s))) as Er by (cbn; by rewrite Eb, (alter_put _ _ _ _ Ha)).
  assert (forall x, stored s2 x = stored s x) as Hst2 by exact Hst.
  split; [|done]. apply (keeps_put s s2 a (f b)); try done; cbn; rewrite ?Eb; try done.
  - apply (wf_same (bc s) _ a b (f b)); try done.
    + cbn. by rewrite (alter_put _ _ _ _ Ha).
    + split; [by rewrite Hr|]. rewrite Hd. split; [done|]. rewrite Ho, Hr. intros E. destruct (Hon E) as [_ Ed].
      rewrite (Hdu Ed) in Hu. done.
  - intros Hu' _. rewrite Hst2. by apply Hv.
  - rewrite Hst2. unfold view. rewrite Ha, Hu. destruct (uptodate (f b)); [by apply Hv|done].
Qed.

(** Reading a block into its buffer. *)
Lemma fill_ok s a b : inv s -> lba_root (bc s) !! a = Some b -> uptodate b = false -> refctr b <> 0 -> a <> 0 ->
  exists r s', (
      let '(r, l, s) := ext4_blocks_get_direct s a 1 in
      let s := set_bc s (upd (bc s) a (fun b => set_data b l)) in
      if negb (r =? EOK) then '(_, s) ← ext4_bcache_free s a; Some (r, s)
      else Some (EOK, set_bc s (upd (bc s) a (fun b => ext4_bcache_set_flag b BC_UPTODATE)))) = Some (r, s') /\
    keeps s s' /\
    if r =? EOK
    then (forall x, refs s' x = refs s x) /\
         exists b', lba_root (bc s') !! a = Some b' /\ uptodate b' = true /\ data b' = view s a
    else one_less s a s'.
Proof.
  intros Hi Hb Hu Hrb Ha0. destruct (inv_coherent s Hi a b Hb) as (Hrange & _).
  pose proof (read_block s a (inv_geometry s Hi) Hrange) as Hrd. pose proof (inv_plain s Hi a b Hb) as Htmp.
  destruct (ext4_blocks_get_direct s a 1) as [[r l] s2]. destruct Hrd as (Eb & _ & Hs2 & Hst & Hl & Hby & Hget).
  assert (dirty b = false) as Hdb.
  { destruct (dirty b) eqn:Hd; [|done]. destruct (wf_buf _ (inv_wf s Hi) a b Hb) as [(_ & Hdu & _) _].
    rewrite (Hdu Hd) in Hu. done. }
  destruct (keeps_change s s2 a b (fun b => set_data b l)) as [Hk3 Er3]; try done.
  { change (uptodate b = true -> l = stored s a). by rewrite Hu. }
  set (s3 := set_bc s2 (upd (bc s2) a (fun b => set_data b l))) in *.
  assert (lba_root (bc s3) !! a = Some (set_data b l)) as Hb3 by by rewrite Er3, lookup_insert_eq.
  assert (forall x, refs s3 x = refs s x) as Hrefs3.
  { apply (refs_same s s3 a b (set_data b l)); try done. intros x Hx. by rewrite Er3, lookup_insert_ne. }
  destruct (Z.eqb_spec r EOK) as [->|Hne]; cbn [negb].
  - destruct (keeps_change s3 s3 a (set_data b l) (fun b => ext4_bcache_set_flag b BC_UPTODATE)) as [Hk4 Er4]; try done.
    { apply Hk3. }
    { rewrite test_set_flag by done. cbn. by rewrite orb_false_r. }
    { unfold dirty. rewrite test_set_flag by done. cbn. by rewrite orb_false_r. }
    { split; [|done]. destruct Hk3 as (_ & (_ & _ & _ & -> & _) & _). done. }
    { intros _. cbn. rewrite (Hget eq_refl). symmetry. apply Hst. }
    eexists EOK, _. split; [reflexivity|]. split; [by eapply keeps_trans|]. split.
    + intros x. rewrite <- Hrefs3. eapply refs_same; [exact Hb3|rewrite Er4; apply lookup_insert_eq|done|].
      intros y Hy. by rewrite Er4, lookup_insert_ne.
    + eexists. rewrite Er4, lookup_insert_eq. split; [done|].
      split; [unfold uptodate; rewrite test_set_flag by done; by rewrite orb_true_r|].
      cbn. rewrite (Hget eq_refl). unfold view. by rewrite Hb, Hu.
  - destruct (free_ok s3 a (set_data b l)) as (s4 & E & Hk4 & H1 & H2); try done; [apply Hk3|].
    rewrite E. cbn [mbind option_bind]. exists r, s4. split; [done|]. split; [by eapply keeps_trans|].
    destruct (Z.eqb_spec r EOK); [done|]. split; [by rewrite H1, Hrefs3|]. intros x Hx. by rewrite H2, Hrefs3.
Qed.

Lemma get_ok s a mem fuel : inv s -> ph_refctr s <> 0 -> 0 < a < lg_bcnt s -> can_count s a -> grants s mem ->
  (length (lru_root (bc s)) < fuel)%nat ->
  exists r s', ext4_block_get fuel s a mem = Some (r, s') /\ keeps s s' /\
    if r =? EOK then one_more s a s' /\ exists b, lba_root (bc s') !! a = Some b /\ uptodate b = true /\ data b = view s a
    else forall x, refs s' x = refs s x.
Proof.
  intros Hi Hph Ha Hcan Hmem Hf. unfold ext4_block_get.
  destruct (get_noread_ok s a mem fuel Hi Hph ltac:(lia) Hcan Hmem Hf) as (r & s1 & -> & Hk & Hr).
  cbn [mbind option_bind]. destruct (Z.eqb_spec r EOK) as [->|Hne]; cbn [negb].
  2: { exists r, s1. split; [done|]. split; [done|]. by destruct (Z.eqb_spec r EOK). }
  destruct Hr as ([Hm1 Hm2] & b & Hb & Hrb). rewrite Hb. cbn [mbind option_bind]. fold (uptodate b).
  assert (view s1 a = view s a) as Hv by apply Hk. destruct (uptodate b) eqn:Hu.
  { exists EOK, s1. split; [done|]. split; [done|]. cbn. split; [done|]. exists b. split; [done|]. split; [done|].
    rewrite <- Hv. unfold view. by rewrite Hb, Hu. }
  destruct (fill_ok s1 a b (proj1 Hk) Hb Hu Hrb ltac:(lia)) as (r & s' & E & Hk' & Hr).
  exists r, s'. split; [exact E|]. split; [by eapply keeps_trans|]. destruct (Z.eqb_spec r EOK) as [->|Hne].
  - destruct Hr as (Hrefs & Hb'). rewrite <- Hv. split; [|done]. split; [by rewrite Hrefs|].
    intros x Hx. by rewrite Hrefs, Hm2.
  - destruct Hr as [H1 H2]. intros x. destruct (decide (x = a)) as [->|Hx]; [lia|]. by rewrite H2, Hm2.
Qed.

Lemma flush_loop_ok fuel : forall s, inv s -> (length (dirty_list (bc s)) < fuel)%nat ->
  exists r s', flush_loop fuel s = Some (r, s') /\ keeps s s' /\
    (forall x, x ∉ dirty_list (bc s) -> stored s' x = stored s x) /\
    (r = EOK -> dirty_list (bc s') = [] /\ forall a, a ∈ dirty_list (bc s) -> stored s' a = view s a).
Proof.
  induction fuel as [|fuel IH]; intros s Hi Hf; [lia|]. cbn [flush_loop].
  destruct (dirty_list (bc s)) as [|a l] eqn:El.
  { exists EOK, s. split; [done|]. split; [by apply keeps_refl|]. split; [done|]. intros _. split; [done|].
    by intros a ?%not_elem_of_nil. }
  destruct (proj1 (wf_dirty _ (inv_wf s Hi) a)) as (b & Ha & Ho); [rewrite El; by left|].
  destruct (wf_buf _ (inv_wf s Hi) a b Ha) as [(_ & Hdu & Hon) _]. destruct (Hon Ho) as [_ Hd].
  pose proof (wf_nodup _ (inv_wf s Hi)) as Hnd. rewrite El in Hnd. apply NoDup_cons in Hnd as [Hna Hnd].
  destruct (flush_buf_ok s a b Hi Ha) as (r & s1 & -> & Hk & _ & _ & _ & _ & Hst & b0 & Ha0 & Hr).
  assert (b0 = b) as -> by congruence. cbn [mbind option_bind]. destruct (Z.eqb_spec r EOK) as [->|Hne]; cbn [negb].
  2: { exists r, s1. split; [done|]. split; [done|]. split; [|done]. intros x Hx. apply Hst. set_solver. }
  destruct Hr as (_ & Ed & Hsa). rewrite El in Ed. unfold rb_remove in Ed.
  rewrite filter_cons_False in Ed by tauto. fold (rb_remove a l) in Ed. rewrite rb_remove_absent in Ed by done.
  destruct (IH s1 (proj1 Hk)) as (r & s' & -> & Hk' & Hst' & Hend); [rewrite Ed; cbn in Hf; lia|].
  rewrite Ed in Hst', Hend. exists r, s'. split; [done|]. split; [by eapply keeps_trans|]. split.
  - intros x Hx. rewrite Hst' by set_solver. apply Hst. set_solver.
  - intros Er. destruct (Hend Er) as [Hnil Hall]. split; [done|]. intros x [->|Hx]%elem_of_cons.
    + rewrite Hst', (Hsa Hd) by done. unfold view. by rewrite Ha, (Hdu Hd).
    + rewrite Hall by done. apply Hk.
Qed.
(** A client that holds a block writes [l] through its pointer and marks it. *)
Definition modify s (a : Z) (l : list Z) : ext4_blockdev :=
  ext4_trans_set_block_dirty (set_bc s (upd (bc s) a (fun b => set_data b l))) a.

Definition modified (b : ext4_buf) (l : list Z) : ext4_buf := ext4_bcache_set_dirty (set_data b l).

Lemma modify_ok s a b l : inv s -> lba_root (bc s) !! a = Some b -> refctr b <> 0 -> fits s l ->
  let s' := modify s a l in
  inv s' /\ same_setup s s' /\ (forall x, view s' x = if decide (x = a) then l else view s x) /\
  forall x, refs s' x = refs s x.
Proof.
  intros Hi Ha Hr [Hl Hby] s'. pose proof Hi as [Hg Hw Hc Hct Hrf Hpl].
  destruct (wf_buf _ Hw a b Ha) as [(Hrr & Hdu & Hon) Hid]. destruct (Hc a b Ha) as (Hrange & _).
  assert (lba_root (bc s') = <[a := modified b l]> (lba_root (bc s))) as Er.
  { cbn. rewrite (alter_put _ _ _ _ Ha). erewrite alter_put by apply lookup_insert_eq. by rewrite insert_insert_eq. }
  assert (uptodate (modified b l) = true /\ dirty (modified b l) = true /\
    ext4_bcache_test_flag (modified b l) BC_TMP = ext4_bcache_test_flag b BC_TMP) as (Eu & Ed & Et).
  { unfold uptodate, dirty, modified, ext4_bcache_set_dirty. rewrite !test_set_flag by done. cbn.
    by rewrite !orb_false_r, !orb_true_r. }
  assert (wf (bc s')) as Hw'.
  { apply (wf_same (bc s) (bc s') a b (modified b l)); try done. split; [done|]. rewrite Eu. split; [done|].
    intros E. by destruct (Hon E). }
  split; [split; try done|split; [done|split]].
  - intros x bx. rewrite Er. intros [[<- <-]|[Hx Ex]]%lookup_insert_Some; [|exact (Hc x bx Ex)].
    do 3 (split; [done|]). by rewrite Ed.
  - intros x bx. rewrite Er. intros [[<- <-]|[Hx Ex]]%lookup_insert_Some; [rewrite Et; by apply (Hpl a)|by apply (Hpl x)].
  - intros x. unfold view at 1. rewrite Er. case_decide as Hx; [subst; by rewrite lookup_insert_eq, Eu|].
    by rewrite lookup_insert_ne.
  - apply (refs_same s s' a b (modified b l)); try done; [by rewrite Er, lookup_insert_eq|].
    intros x Hx. by rewrite Er, lookup_insert_ne.
Qed.

(** ** The cache as a disk

    Requests of a client, and what carries them out. *)
Inductive request := Get (a : Z) (mem : option (list Z)) | Put (a : Z) | Modify (a : Z) (l : list Z) | Sync.

Definition exec s (q : request) : option (Z * list Z * ext4_blockdev) :=
  match q with
  | Get a mem =>
      '(r, s) ← ext4_block_get (S (length (lru_root (bc s)))) s a mem;
      Some (r, match lba_root (bc s) !! a with Some b => if r =? EOK then data b else [] | None => [] end, s)
  | Put a => '(r, s) ← ext4_block_set s a; Some (r, [], s)
  | Modify a l => Some (EOK, [], modify s a l)
  | Sync => '(r, s) ← ext4_block_cache_flush (S (length (dirty_list (bc s)))) s; Some (r, [], s)
  end.

(** What clients must respect. *)
Definition legal s (q : request) : Prop :=
  ph_refctr s <> 0 /\
  match q with
  | Get a mem => 0 < a < lg_bcnt s /\ can_count s a /\ grants s mem
  | Put a => a <> 0 /\ 0 < refs s a
  | Modify a l => 0 < refs s a /\ fits s l
  | Sync => True
  end.

(** The abstract disk: the contents of each block and the references held. *)
Definition disk : Type := (Z -> list Z) * (Z -> Z).

Definition disk_step (d : disk) (q : request) (r : Z) (out : list Z) (d' : disk) : Prop :=
  let '(v, h) := d in
  let '(v', h') := d' in
  match q with
  | Get a _ =>
      (forall x, v' x = v x) /\
      if r =? EOK then out = v a /\ forall x, h' x = if decide (x = a) then h x + 1 else h x
      else forall x, h' x = h x
  | Put a => r = EOK /\ (forall x, v' x = v x) /\ forall x, h' x = if decide (x = a) then h x - 1 else h x
  | Modify a l => r = EOK /\ (forall x, v' x = if decide (x = a) then l else v x) /\ forall x, h' x = h x
  | Sync => (forall x, v' x = v x) /\ forall x, h' x = h x
  end.

Lemma held s a : 0 < refs s a -> exists b, lba_root (bc s) !! a = Some b /\ refctr b <> 0.
Proof. unfold refs. destruct (lba_root (bc s) !! a) as [b|]; cbn; [|lia]. intros Hr. exists b. split; [done|lia]. Qed.

Lemma flush_loop_refs fuel : forall s r s', inv s -> flush_loop fuel s = Some (r, s') -> forall x, refs s' x = refs s x.
Proof.
  induction fuel as [|fuel IH]; intros s r s' Hi; cbn [flush_loop]; [done|].
  destruct (dirty_list (bc s)) as [|a l] eqn:El; [by intros [= <- <-]|].
  destruct (proj1 (wf_dirty _ (inv_wf s Hi) a)) as (b & Ha & Ho); [rewrite El; by left|].
  destruct (flush_buf_ok s a b Hi Ha) as (r1 & s1 & -> & Hk & _ & _ & _ & Hoth & _ & b0 & Ha0 & Hr).
  assert (b0 = b) as -> by congruence. cbn [mbind option_bind].
  assert (forall x, refs s1 x = refs s x) as Hrefs.
  { destruct (r1 =? EOK).
    - destruct Hr as (Ha1 & _). eapply refs_same; [exact Ha|exact Ha1|by destruct (dirty b)|done].
    - destruct Hr as (_ & Ha1 & _). by eapply refs_same. }
  case_if; [by intros [= <- <-]|]. intros E' x. by rewrite (IH s1 r s' (proj1 Hk) E'), Hrefs.
Qed.

(** Steps of the cache and of the disk, and runs of both. *)
Lemma exec_ok s q : inv s -> legal s q -> exists r out s',
  exec s q = Some (r, out, s') /\ inv s' /\ same_setup s s' /\ disk_step (view s, refs s) q r out (view s', refs s').
Proof.
  intros Hi [Hph Hq]. destruct q as [a mem|a|a l|]; cbn [exec].
  - destruct Hq as (Ha & Hcan & Hmem).
    destruct (get_ok s a mem (S (length (lru_root (bc s)))) Hi Hph Ha Hcan Hmem ltac:(lia)) as (r & s' & -> & Hk & Hr).
    cbn [mbind option_bind]. eexists r, _, s'. split; [reflexivity|]. split; [apply Hk|]. split; [apply Hk|]. cbn.
    split; [apply Hk|]. destruct (r =? EOK); [|done]. destruct Hr as ([H1 H2] & b & -> & _ & Hd). split; [done|].
    intros x. case_decide as Hx; [by subst|by apply H2].
  - destruct Hq as (Ha & Hr). destruct (held s a Hr) as (b & Hb & Hrb).
    unfold ext4_block_set. destruct (Z.eqb_spec (ph_refctr s) 0); [done|].
    destruct (free_ok s a b Hi Ha Hb Hrb) as (s' & -> & Hk & H1 & H2). cbn [mbind option_bind].
    exists EOK, [], s'. split; [done|]. split; [apply Hk|]. split; [apply Hk|]. cbn. split; [done|]. split; [apply Hk|].
    intros x. case_decide as Hx; [by subst|by apply H2].
  - destruct Hq as (Hr & Hl). destruct (held s a Hr) as (b & Hb & Hrb).
    destruct (modify_ok s a b l Hi Hb Hrb Hl) as (Hi' & Hs & Hv & Hrefs). exists EOK, [], (modify s a l). done.
  - destruct (flush_loop_ok (S (length (dirty_list (bc s)))) s Hi ltac:(lia)) as (r & s' & E & Hk & _).
    pose proof (flush_loop_refs _ _ _ _ Hi E) as Hrefs.
    unfold ext4_block_cache_flush. rewrite E. cbn [mbind option_bind]. exists r, [], s'. split; [done|].
    split; [apply Hk|]. split; [apply Hk|]. split; [apply Hk|done].
Qed.
(** Runs of legal requests, with their answers. *)
Inductive run : ext4_blockdev (D := D) -> list (request * Z * list Z) -> ext4_blockdev (D := D) -> Prop :=
  | run_nil s : run s [] s
  | run_cons s q r out s1 t s' : legal s q -> exec s q = Some (r, out, s1) -> run s1 t s' -> run s ((q, r, out) :: t) s'.

Inductive disk_run : disk -> list (request * Z * list Z) -> disk -> Prop :=
  | disk_nil d : disk_run d [] d
  | disk_cons d q r out d1 t d' : disk_step d q r out d1 -> disk_run d1 t d' -> disk_run d ((q, r, out) :: t) d'.

Lemma run_ok s t s' : run s t s' -> inv s -> inv s' /\ disk_run (view s, refs s) t (view s', refs s').
Proof.
  induction 1 as [s|s q r out s1 t s' Hq E _ IH]; intros Hi; [split; [done|constructor]|].
  destruct (exec_ok s q Hi Hq) as (r' & out' & s1' & E' & Hi1 & _ & Hd).
  rewrite E' in E. injection E as -> -> ->. destruct (IH Hi1) as [Hi' Hd']. split; [done|]. by econstructor.
Qed.
End cache.

(** ** Example *)

(** A partition of 64 blocks of 512 bytes at the start of the device, with room
    for two buffers. *)
Definition sample_bdev {D} (d : D) (write_back : Z) : ext4_blockdev (D := D) :=
  Bdev (Bcache 2 512 0 0 0 false ∅ [] []) d 1 0 32768 512 64 write_back 0 0 [].

Lemma sample_inv D `{BlockIfaceLaws D} (d : D) wb : ph_bsize = 512 -> inv (sample_bdev d wb).
Proof.
  intros Hp. split; cbn; try lia.
  - unfold geometry. cbn. rewrite Hp. repeat split; lia || reflexivity.
  - split; cbn; try done; try (intros; by rewrite lookup_empty in *).
    + intros a. split; [by intros ?%not_elem_of_nil|]. intros (b & E & _). by rewrite lookup_empty in E.
    + constructor.
    + constructor.
    + intros a. split; [by intros ?%not_elem_of_nil|]. intros (b & E & _). by rewrite lookup_empty in E.
  - intros a b E. cbn in E. by rewrite lookup_empty in E.
  - intros a b E. cbn in E. by rewrite lookup_empty in E.
Qed.

Definition blank : list Z := replicate 512 0.

Lemma blank_bytes : bytes blank.
Proof. apply Forall_replicate. lia. Qed.

(** ** Theorems *)

(** C5. The block cache refines a disk.  On any device that obeys its interface,
    failing reads and writes included, every run of legal requests (get, put,
    change and mark dirty, sync) keeps the invariant of the cache and answers as
    a disk without a cache does: a get that succeeds delivers what was last
    written to the block, nothing but a change alters a block, references are
    counted one by one, and each legal request ends with an answer. *)
Theorem cache_refines_disk {D : Type} `{BlockIfaceLaws D} (s s' : ext4_blockdev (D := D)) t :
  inv s -> run s t s' ->
  inv s' /\ disk_run (view s, refs s) t (view s', refs s') /\
  forall q, legal s' q -> exists answer, exec s' q = Some answer.
Proof.
  intros Hi Hr. destruct (run_ok s t s' Hr Hi) as [Hi' Hd]. do 2 (split; [done|]). intros q Hq.
  destruct (exec_ok s' q Hi' Hq) as (r & out & s1 & E & _). eauto.
Qed.

Lemma cache_refines_disk_witness : exists r out s1, let s := sample_bdev (Ram (fun _ => 7)) 0 in
  exec s (Get 5 (Some blank)) = Some (r, out, s1) /\
  disk_run (view s, refs s) [(Get 5 (Some blank), r, out)] (view s1, refs s1).
Proof.
  set (s := sample_bdev (Ram (fun _ => 7)) 0).
  pose proof (sample_inv ram (Ram (fun _ => 7)) 0 eq_refl : inv s) as Hi.
  assert (legal s (Get 5 (Some blank))) as Hl.
  { split; [vm_compute; discriminate|]. split; [cbn; lia|]. split; [|intros l <-%Some_inj; exact (conj eq_refl blank_bytes)].
    split; [vm_compute; reflexivity|split; vm_compute; reflexivity]. }
  destruct (exec_ok s (Get 5 (Some blank)) Hi Hl) as (r & out & s1 & E & _).
  exists r, out, s1. split; [exact E|].
  destruct (cache_refines_disk s s1 [(Get 5 (Some blank), r, out)] Hi) as (_ & Hd & _);
    [apply (run_cons s _ r out s1); [exact Hl|exact E|constructor]|exact Hd].
Defined.

(** C27. Flushing the cache makes it durable: [ext4_block_cache_flush] ends; it
    changes what no client sees; and when it reports success the list of dirty
    buffers is empty and the device stores every block that was on it as clients
    see it, and, if all dirty buffers were listed, every block. *)
Theorem cache_flush_durable {D : Type} `{BlockIfaceLaws D} (s : ext4_blockdev (D := D)) fuel :
  inv s -> (length (dirty_list (bc s)) < fuel)%nat ->
  exists r s', ext4_block_cache_flush fuel s = Some (r, s') /\ inv s' /\ (forall x, view s' x = view s x) /\
    (r = EOK -> dirty_list (bc s') = [] /\ (forall a, a ∈ dirty_list (bc s) -> stored s' a = view s a) /\
       ((forall a b, lba_root (bc s) !! a = Some b -> dirty b = true -> a ∈ dirty_list (bc s)) ->
        forall x, stored s' x = view s x)).
Proof.
  intros Hi Hf. destruct (flush_loop_ok fuel s Hi Hf) as (r & s' & E & Hk & Hst & Hend).
  exists r, s'. split; [done|]. split; [apply Hk|]. split; [apply Hk|]. intros Er. destruct (Hend Er) as [Hnil Hall].
  do 2 (split; [done|]). intros Hlisted x. destruct (decide (x ∈ dirty_list (bc s))) as [Hx|Hx]; [by apply Hall|].
  rewrite Hst by done. unfold view. destruct (lba_root (bc s) !! x) as [b|] eqn:Eb; [|done].
  destruct (uptodate b) eqn:Eu; [|done]. destruct (dirty b) eqn:Ed; [by destruct Hx; eapply Hlisted|].
  symmetry. by apply (inv_coherent s Hi x b Eb).
Qed.

Lemma cache_flush_durable_witness : exists r s',
  ext4_block_cache_flush 1 (sample_bdev (Ram (fun _ => 7)) 0) = Some (r, s') /\ inv s'.
Proof.
  destruct (cache_flush_durable (sample_bdev (Ram (fun _ => 7)) 0) 1) as (r & s' & E & Hi & _);
    [exact (sample_inv ram (Ram (fun _ => 7)) 0 eq_refl)|cbn; lia|].
  exists r, s'. split; [exact E|exact Hi].
Defined.

(** C34. Shaking the cache ends, changes what no client sees, keeps every buffer
    in use, and when it reports success the cache has room again or every buffer
    in it is in use. *)
Theorem cache_shake_room {D : Type} `{BlockIfaceLaws D} (s : ext4_blockdev (D := D)) fuel :
  inv s -> (length (lru_root (bc s)) < fuel)%nat ->
  exists r s', ext4_block_cache_shake fuel s = Some (r, s') /\ inv s' /\ (forall x, view s' x = view s x) /\
    (forall x, refs s' x = refs s x) /\
    (r = EOK -> dont_shake (bc s) = false ->
     ext4_bcache_is_full (bc s') = false \/ forall a b, lba_root (bc s') !! a = Some b -> refctr b <> 0).
Proof.
  intros Hi Hf. destruct (cache_shake_ok s fuel Hi Hf) as (r & s' & E & Hsh & Hend). exists r, s'. split; [done|].
  pose proof Hsh as (Hk & _). split; [apply Hk|]. split; [apply Hk|]. split; [intros x; by apply shaken_refs|].
  intros Er Hd. destruct (Hend Er Hd) as [Hnil|]; [right|by left]. intros a b Ha Hz.
  assert (a ∈ lru_root (bc s')) as Hin by (apply (wf_lru _ (inv_wf s' (proj1 Hk))); eauto).
  rewrite Hnil in Hin. by apply not_elem_of_nil in Hin.
Qed.

Lemma cache_shake_room_witness : exists r s',
  ext4_block_cache_shake 1 (sample_bdev (Ram (fun _ => 7)) 0) = Some (r, s') /\ inv s'.
Proof.
  destruct (cache_shake_room (sample_bdev (Ram (fun _ => 7)) 0) 1) as (r & s' & E & Hi & _);
    [exact (sample_inv ram (Ram (fun _ => 7)) 0 eq_refl)|cbn; lia|].
  exists r, s'. split; [exact E|exact Hi].
Defined.

(** Invalidating a range whose first block is cached makes exactly the cached
    blocks of the range invalid and takes them off the list of dirty buffers;
    the cache stays well-formed. *)
Theorem invalidate_range c from n :
  wf c -> is_Some (lba_root c !! from) -> 0 <= from -> 0 < n -> from + n < 2 ^ 64 ->
  let c' := ext4_bcache_invalidate_lba c from n in
  wf c' /\ (forall x, from <= x < from + n -> x ∉ dirty_list c') /\
  forall x, lba_root c' !! x = if decide (from <= x < from + n) then invalid <$> lba_root c !! x else lba_root c !! x.
Proof.
  intros Hc [b Hb] Hf Hn Hlt c'. unfold c', ext4_bcache_invalidate_lba, ext4_buf_lookup. rewrite Hb.
  rewrite (uw_small 64 (from + n)), (uw_small 64 (from + n - 1)) by lia.
  destruct (invalidate_loop_ok (from + n - 1) (filter (fun a => from <= a) (in_order c)) c Hc) as [Hw Hr].
  - apply sorted_filter, in_order_sorted.
  - intros x [_ Hx]%list_elem_of_filter. by apply in_order_elem.
  - set (c1 := invalidate_loop _ _ _) in *.
    assert (forall x, lba_root c1 !! x = if decide (from <= x < from + n) then invalid <$> lba_root c !! x else lba_root c !! x) as Hr'.
    { intros x. rewrite Hr. destruct (lba_root c !! x) as [bx|] eqn:Ex; [|by do 2 case_decide].
      assert (x ∈ in_order c) as Hin by (apply in_order_elem; eauto).
      destruct (decide (from <= x < from + n)) as [Hx|Hx].
      - rewrite decide_True; [done|]. split; [|lia]. apply list_elem_of_filter. split; [lia|done].
      - rewrite decide_False; [done|]. intros [[? _]%list_elem_of_filter ?]. lia. }
    split; [done|]. split; [|done]. intros x Hx (bx & Ex & Ho)%(wf_dirty c1 Hw). rewrite Hr', decide_True in Ex by done.
    destruct (lba_root c !! x) as [b0|]; [|done]. injection Ex as <-. done.
Qed.

Lemma invalidate_range_witness :
  let c := Bcache 2 4 1 1 1 false {[ 5 := Buf 3 [] 1 1 false None ]} [] [] in
  wf (ext4_bcache_invalidate_lba c 5 2).
Proof.
  refine (proj1 (invalidate_range (Bcache 2 4 1 1 1 false {[ 5 := Buf 3 [] 1 1 false None ]} [] []) 5 2 _ _ _ _ _)); try lia.
  - split; cbn.
    + intros a b [<- <-]%lookup_singleton_Some. split; [split; [cbn; lia|split; [reflexivity|discriminate]]|cbn; lia].
    + intros a a' b b' [<- <-]%lookup_singleton_Some [<- <-]%lookup_singleton_Some _. reflexivity.
    + intros a. split; [intros ?%not_elem_of_nil; done|]. intros (b & [<- <-]%lookup_singleton_Some & E). discriminate E.
    + constructor.
    + constructor.
    + intros a. split; [intros ?%not_elem_of_nil; done|]. intros (b & [<- <-]%lookup_singleton_Some & E). discriminate E.
    + rewrite map_size_singleton. reflexivity.
  - cbn. rewrite lookup_singleton_eq. eexists. reflexivity.
Defined.

(** Invalidating a range does nothing at all when its first block is not cached,
    whatever else of the range is: here block 6 stays dirty and listed, to be
    written later, although the range from 5 to 6 was invalidated. *)
Theorem invalidate_skips :
  let b := Buf 3 [1] 1 0 true None in
  let c := Bcache 2 1 1 1 1 false {[ 6 := b ]} [6] [6] in
  wf c /\ dirty b = true /\ ext4_bcache_invalidate_lba c 5 2 = c /\
  forall c from n, lba_root c !! from = None -> ext4_bcache_invalidate_lba c from n = c.
Proof.
  intros b c. split; [|split; [reflexivity|split; [reflexivity|]]].
  - split; cbn.
    + intros a b' [<- <-]%lookup_singleton_Some. split; [split; [cbn; lia|by split]|cbn; lia].
    + intros a a' x x' [<- <-]%lookup_singleton_Some [<- <-]%lookup_singleton_Some _. reflexivity.
    + intros a. rewrite list_elem_of_singleton. split; [intros ->|].
      * exists b. by rewrite lookup_singleton_eq.
      * by intros (b' & [<- <-]%lookup_singleton_Some & _).
    + repeat constructor.
    + repeat constructor. apply not_elem_of_nil.
    + intros a. rewrite list_elem_of_singleton. split; [intros ->|].
      * exists b. by rewrite lookup_singleton_eq.
      * by intros (b' & [<- <-]%lookup_singleton_Some & _).
    + by rewrite map_size_singleton.
  - intros c' from n E. unfold ext4_bcache_invalidate_lba, ext4_buf_lookup. by rewrite E.
Qed.

(** A client that reads block 5, changes it, releases it and flushes the cache,
    without write back: the four statuses. *)
Definition four_steps {D} `{BlockIface D} (d : D) : option (list Z * ext4_blockdev (D := D)) :=
  '(r1, s) ← ext4_block_get 1 (sample_bdev d 0) 5 (Some blank);
  let s := modify s 5 (replicate 512 1) in
  '(r2, s) ← ext4_block_set s 5;
  '(r3, s) ← ext4_block_cache_flush 1 s;
  Some ([r1; r2; r3], s).

(** A write that fails when a block is released is not reported: [ext4_block_set]
    answers [EOK], the buffer stays dirty without being listed, and so
    [ext4_block_cache_flush] answers [EOK] as well, while the device never got
    the block. *)
Theorem failed_write_unreported : exists s,
  four_steps (Broken (fun _ => 7)) = Some ([EOK; EOK; EOK], s) /\
  view s 5 = replicate 512 1 /\ stored s 5 = replicate 512 7.
Proof.
  destruct (four_steps (Broken (fun _ => 7))) as [[l s]|] eqn:E; [|vm_compute in E; discriminate].
  exists s. assert (l = [EOK; EOK; EOK]) as -> by (vm_compute in E; by injection E as <- _).
  assert (Some (view s 5, stored s 5) = Some (replicate 512 1, replicate 512 7)) as Hv; [|by injection Hv as -> ->].
  transitivity (let '(_, s) := default ([], sample_bdev (Broken (fun _ => 7)) 0) (four_steps (Broken (fun _ => 7))) in
    Some (view s 5, stored s 5)); [by rewrite E|]. vm_compute. reflexivity.
Qed.
