(* ===== verification/Ext4BlockIo.v ===== *)
(** lwext4, byte access to a partition: [ext4_block_writebytes] and
    [ext4_block_readbytes] of [src/ext4_blockdev.c], which cut a range of bytes
    into a first partial device block, whole blocks, and a last partial one. *)
From S2P Require Import Prelude Memory Ext4Errno Ext4Bcache.
#[local] Open Scope Z_scope.
#[local] Open Scope cint_scope.

Section io.
Context {D : Type} `{BlockIface D}.
Implicit Types s : ext4_blockdev (D := D).

(** ** Model *)

(** [memcpy(buf + off, p, n)] on the scratch block [ph_bbuf]. *)
Definition splice (buf : list Z) (off : Z) (l : list Z) : list Z :=
  take (Z.to_nat off) buf ++ l ++ drop (Z.to_nat off + length l) buf.

(** Read a device block, change part of it, write it back. *)
Definition rewrite_block s (block_idx off : Z) (l : list Z) : Z * ext4_blockdev :=
  let '(r, buf, s) := ext4_bdif_bread s block_idx 1 in
  if negb (r =? EOK) then (r, s)
  else ext4_bdif_bwrite s (splice buf off l) block_idx 1.

Definition cut (n : Z) (p : list Z) : list Z := take (Z.to_nat n) p.
Definition skip (n : Z) (p : list Z) : list Z := drop (Z.to_nat n) p.

(** The aligned part and the rest. *)
Definition write_rest s (block_idx : Z) (p : list Z) (len : Z) : Z * ext4_blockdev :=
  if negb (len =? 0) then rewrite_block s block_idx 0 (cut len p) else (EOK, s).

Definition write_aligned s (block_idx : Z) (p : list Z) (len : Z) : Z * ext4_blockdev :=
  let blen := len / ph_bsize in
  if negb (blen =? 0) then
    let '(r, s) := ext4_bdif_bwrite s (cut (ph_bsize * blen) p) block_idx blen in
    if negb (r =? EOK) then (r, s)
    else write_rest s (u64 (block_idx + blen)) (skip (ph_bsize * blen) p) (len - ph_bsize * blen)
  else write_rest s block_idx p len.

Definition ext4_block_writebytes s (off : Z) (buf : list Z) (len : Z) : Z * ext4_blockdev :=
  if ph_refctr s =? 0 then (EIO, s)
  else if part_size s <? u64 (off + len) then (EINVAL, s)
  else
    let block_idx := u64 (off + part_offset s) / ph_bsize in
    let unalg := off .& (ph_bsize - 1) in
    if negb (unalg =? 0) then
      let wlen := if len <? ph_bsize - unalg then len else ph_bsize - unalg in
      let '(r, s) := rewrite_block s block_idx unalg (cut wlen buf) in
      if negb (r =? EOK) then (r, s)
      else write_aligned s (u64 (block_idx + 1)) (skip wlen buf) (len - wlen)
    else write_aligned s block_idx buf len.

Definition read_rest s (block_idx len : Z) : Z * list Z * ext4_blockdev :=
  if negb (len =? 0) then
    let '(r, buf, s) := ext4_bdif_bread s block_idx 1 in
    if negb (r =? EOK) then (r, [], s) else (EOK, cut len buf, s)
  else (EOK, [], s).

Definition read_aligned s (block_idx len : Z) : Z * list Z * ext4_blockdev :=
  let blen := len / ph_bsize in
  if negb (blen =? 0) then
    let '(r, l, s) := ext4_bdif_bread s block_idx blen in
    if negb (r =? EOK) then (r, [], s)
    else
      let '(r, l', s) := read_rest s (u64 (block_idx + blen)) (len - ph_bsize * blen) in
      (r, l ++ l', s)
  else read_rest s block_idx len.

(** The status and, with [EOK], the [len] bytes put into the caller's buffer. *)
Definition ext4_block_readbytes s (off len : Z) : Z * list Z * ext4_blockdev :=
  if ph_refctr s =? 0 then (EIO, [], s)
  else if part_size s <? u64 (off + len) then (EINVAL, [], s)
  else
    let block_idx := u64 (off + part_offset s) / ph_bsize in
    let unalg := off .& (ph_bsize - 1) in
    if negb (unalg =? 0) then
      let rlen := if len <? ph_bsize - unalg then len else ph_bsize - unalg in
      let '(r, buf, s) := ext4_bdif_bread s block_idx 1 in
      if negb (r =? EOK) then (r, [], s)
      else
        let '(r, l', s) := read_aligned s (u64 (block_idx + 1)) (len - rlen) in
        (r, cut rlen (skip unalg buf) ++ l', s)
    else read_aligned s block_idx len.
End io.

(** ** Bytes of the device *)

Section bytes.
Context {D : Type} `{BlockIfaceLaws D}.
Implicit Types s : ext4_blockdev (D := D).

Definition byte s (x : Z) : Z := ld8 (contents (dev s)) x.
Definition span s (x : Z) (n : nat) : list Z := bytes_of (contents (dev s)) x n.

(** [l] stored at [a] and everything else as before. *)
Definition stores s (a : Z) (l : list Z) s' : Prop :=
  span s' a (length l) = l /\ forall x, x < a \/ a + Z.of_nat (length l) <= x -> byte s' x = byte s x.

(** Everything outside the device blocks [lo, hi) as before. *)
Definition only s (lo hi : Z) s' : Prop := forall x, x < lo * ph_bsize \/ hi * ph_bsize <= x -> byte s' x = byte s x.

Lemma span_ext s s' x n : (forall y, x <= y < x + Z.of_nat n -> byte s' y = byte s y) -> span s' x n = span s x n.
Proof.
  intros Hb. unfold span, bytes_of. apply list_fmap_ext. intros k y Hk. apply lookup_seq in Hk as [-> Hk].
  apply Hb. lia.
Qed.

Lemma span_app s x n1 n2 : span s x (n1 + n2) = span s x n1 ++ span s (x + Z.of_nat n1) n2.
Proof. apply bytes_of_app. Qed.

Lemma span_length s x n : length (span s x n) = n.
Proof. unfold span, bytes_of. by rewrite length_fmap, length_seq. Qed.

(** Two stores next to each other are one. *)
Lemma stores_app s a l1 s1 l2 s2 : stores s a l1 s1 -> stores s1 (a + Z.of_nat (length l1)) l2 s2 -> stores s a (l1 ++ l2) s2.
Proof.
  intros [P1 K1] [P2 K2]. split.
  - rewrite length_app, span_app. f_equal; [|done]. rewrite <- P1 at 2. apply span_ext. intros y Hy. apply K2. lia.
  - intros x Hx. rewrite length_app in Hx. rewrite K2, K1 by lia. done.
Qed.

Lemma stores_nil s a : stores s a [] s.
Proof. by split. Qed.

Lemma only_trans s s1 s2 lo mid hi : lo <= mid <= hi -> only s lo mid s1 -> only s1 mid hi s2 -> only s lo hi s2.
Proof. pose proof ph_bsize_pos. intros Hm O1 O2 x Hx. rewrite O2, O1 by nia. done. Qed.

Lemma only_refl s lo hi : only s lo hi s.
Proof. by intros x _. Qed.

Lemma bdif_read_ok s blk n : 0 <= n ->
  let '(r, l, s') := ext4_bdif_bread s blk n in
  same_setup s s' /\ bc s' = bc s /\ (forall x, byte s' x = byte s x) /\ Z.of_nat (length l) = n * ph_bsize /\ bytes l /\
  (r = EOK -> l = span s (blk * ph_bsize) (Z.to_nat (n * ph_bsize))).
Proof.
  intros Hn. pose proof ph_bsize_pos. unfold ext4_bdif_bread. pose proof (bread_keeps (dev s) blk n) as Hk. pose proof (bread_gets (dev s) blk n) as Hg.
  pose proof (bread_length (dev s) blk n) as Hl. pose proof (bread_bytes (dev s) blk n) as Hb.
  destruct (bread (dev s) blk n) as [[r l] d]. cbn in *. do 2 (split; [done|]).
  split; [intros x; unfold byte, ld8; cbn; by rewrite Hk|]. split; [nia|]. done.
Qed.

Lemma bdif_write_ok s l blk n : Z.of_nat (length l) = n * ph_bsize -> bytes l ->
  let '(r, s') := ext4_bdif_bwrite s l blk n in
  same_setup s s' /\ bc s' = bc s /\ only s blk (blk + n) s' /\ (r = EOK -> stores s (blk * ph_bsize) l s').
Proof.
  intros Hl Hb. unfold ext4_bdif_bwrite. pose proof (bwrite_keeps (dev s) l blk n) as Hk.
  pose proof (bwrite_puts (dev s) l blk n Hl Hb) as Hp. destruct (bwrite (dev s) l blk n) as [r d]. cbn in *.
  do 2 (split; [done|]).
  assert (only s blk (blk + n) (set_dev s d (bread_ctr s) (u32 (bwrite_ctr s + 1)))) as Ho.
  { intros x Hx. unfold byte, ld8. cbn. by rewrite Hk. }
  split; [done|]. intros Hr. split; [by apply Hp|]. intros x Hx. apply Ho. lia.
Qed.
Lemma span_byte s s' a n x : span s' a n = span s a n -> a <= x < a + Z.of_nat n -> byte s' x = byte s x.
Proof.
  intros He Hx. unfold span, bytes_of in He.
  assert (((fun k => ld8 (contents (dev s')) (a + Z.of_nat k)) <$> seq 0 n) !! Z.to_nat (x - a) =
          ((fun k => ld8 (contents (dev s)) (a + Z.of_nat k)) <$> seq 0 n) !! Z.to_nat (x - a)) as E by by rewrite He.
  rewrite !list_lookup_fmap, !lookup_seq_lt in E by lia. cbn in E. injection E as E.
  unfold byte. by replace (a + Z.of_nat (Z.to_nat (x - a))) with x in E by lia.
Qed.

(** A store that repeats what is there around [l] stores [l]. *)
Lemma stores_inner s a A l C s' : stores s a (A ++ l ++ C) s' -> A = span s a (length A) ->
  C = span s (a + Z.of_nat (length A) + Z.of_nat (length l)) (length C) -> stores s (a + Z.of_nat (length A)) l s'.
Proof.
  intros [P K] EA EC. rewrite !length_app in P, K. rewrite !span_app in P.
  apply app_inj_1 in P as [PA P]; [|by rewrite span_length]. apply app_inj_1 in P as [Pl PC]; [|by rewrite span_length].
  split; [done|]. intros x Hx. destruct (decide (x < a \/ a + Z.of_nat (length A + (length l + length C)) <= x)) as [Ho|Ho];
    [by apply K|]. destruct (decide (x < a + Z.of_nat (length A))).
  - apply (span_byte s s' a (length A)); [congruence|lia].
  - apply (span_byte s s' (a + Z.of_nat (length A) + Z.of_nat (length l)) (length C)); [congruence|lia].
Qed.

Lemma span_take s a n k : (k <= n)%nat -> take k (span s a n) = span s a k.
Proof. intros Hk. replace n with (k + (n - k))%nat by lia. rewrite span_app, take_app_length'; [done|by rewrite span_length]. Qed.

Lemma span_drop s a n k : (k <= n)%nat -> drop k (span s a n) = span s (a + Z.of_nat k) (n - k).
Proof.
  intros Hk. replace n with (k + (n - k))%nat at 1 by lia. rewrite span_app, drop_app_length'; [done|by rewrite span_length].
Qed.

(** What an operation may do: store [l] at [a], or fail and touch only blocks of [lo, hi). *)
Definition writes s (a : Z) (l : list Z) (lo hi : Z) (out : Z * ext4_blockdev) : Prop :=
  let '(r, s') := out in
  same_setup s s' /\ bc s' = bc s /\ only s lo hi s' /\ (r = EOK -> stores s a l s').

Lemma bytes_span s a n : bytes (span s a n).
Proof. apply Forall_fmap, Forall_forall. intros k _. cbn. apply ld8_range. Qed.

Lemma rewrite_block_ok s blk off l : 0 <= off -> off + Z.of_nat (length l) <= ph_bsize -> bytes l ->
  writes s (blk * ph_bsize + off) l blk (blk + 1) (rewrite_block s blk off l).
Proof.
  intros Ho He Hb. unfold rewrite_block. pose proof (bdif_read_ok s blk 1 ltac:(lia)) as Hr.
  destruct (ext4_bdif_bread s blk 1) as [[r buf] s1]. destruct Hr as (Hs1 & Hc1 & Hb1 & Hl & Hby & Hget).
  destruct (Z.eqb_spec r EOK) as [->|Hne]; cbn [negb].
  2: { split; [done|]. split; [done|]. split; [intros x _; apply Hb1|done]. }
  specialize (Hget eq_refl). rewrite Z.mul_1_l in Hl.
  assert (length (splice buf off l) = length buf) as Hsl.
  { unfold splice. rewrite !length_app, length_take, length_drop. lia. }
  assert (bytes (splice buf off l)) as Hsb.
  { unfold splice, bytes. rewrite !Forall_app. split; [by apply Forall_take|]. split; [done|by apply Forall_drop]. }
  pose proof (bdif_write_ok s1 (splice buf off l) blk 1 ltac:(lia) Hsb) as Hw.
  destruct (ext4_bdif_bwrite s1 (splice buf off l) blk 1) as [r s2]. destruct Hw as (Hs2 & Hc2 & Ho2 & Hst).
  split; [by eapply same_setup_trans|]. split; [congruence|].
  split; [intros x Hx; rewrite Ho2 by done; apply Hb1|]. intros ->. specialize (Hst eq_refl).
  assert (stores s (blk * ph_bsize) (splice buf off l) s2) as Hst'.
  { destruct Hst as [P K]. split; [done|]. intros x Hx. rewrite K by done. apply Hb1. }
  assert (length (take (Z.to_nat off) buf) = Z.to_nat off) as Elt by (rewrite length_take; lia).
  unfold splice in Hst'. apply stores_inner in Hst'.
  - rewrite Elt, Z2Nat.id in Hst' by lia. done.
  - rewrite Elt, Hget. apply span_take. lia.
  - rewrite Elt, Hget, span_drop, span_length by lia. f_equal. lia.
Qed.
Lemma only_wide s lo hi hi' s' : hi <= hi' -> only s lo hi s' -> only s lo hi' s'.
Proof. pose proof ph_bsize_pos. intros Hh Ho x Hx. apply Ho. nia. Qed.

Lemma writes_wide s a l lo hi hi' out : hi <= hi' -> writes s a l lo hi out -> writes s a l lo hi' out.
Proof. destruct out as [r s']. intros Hh (Ws & Wc & Wo & Wst). split; [done|]. split; [done|]. split; [by eapply only_wide|done]. Qed.

Lemma writes_then s a l1 l2 lo mid hi s1 out : lo <= mid <= hi -> writes s a l1 lo mid (EOK, s1) ->
  writes s1 (a + Z.of_nat (length l1)) l2 mid hi out -> writes s a (l1 ++ l2) lo hi out.
Proof.
  destruct out as [r s2]. intros Hm (Hs1 & Hc1 & Ho1 & Hst1) (Hs2 & Hc2 & Ho2 & Hst2).
  split; [by eapply same_setup_trans|]. split; [congruence|]. split; [by eapply only_trans|].
  intros Hr. eapply stores_app; [by apply Hst1|by apply Hst2].
Qed.

Lemma writes_fail s a l l' lo hi hi' r s' : r <> EOK -> hi <= hi' -> writes s a l lo hi (r, s') -> writes s a l' lo hi' (r, s').
Proof. intros Hr Hh (Ws & Wc & Wo & _). split; [done|]. split; [done|]. split; [by eapply only_wide|done]. Qed.

Lemma length_cut n p : 0 <= n <= Z.of_nat (length p) -> Z.of_nat (length (cut n p)) = n.
Proof. intros Hn. unfold cut. rewrite length_take. lia. Qed.

Lemma cut_skip n k p : 0 <= n -> 0 <= k -> n + k = Z.of_nat (length p) -> cut n p ++ cut k (skip n p) = p.
Proof. intros. unfold cut, skip. rewrite (take_ge (drop _ _)) by (rewrite length_drop; lia). apply take_drop. Qed.

Lemma write_rest_ok s blk p len : 0 <= len < ph_bsize -> len = Z.of_nat (length p) -> bytes p ->
  writes s (blk * ph_bsize) p blk (blk + 1) (write_rest s blk p len).
Proof.
  intros Hl Hp Hb. unfold write_rest. destruct (Z.eqb_spec len 0) as [->|Hne]; cbn [negb].
  - destruct p; [|done]. split; [done|]. split; [done|]. split; [by intros x _|]. intros _. apply stores_nil.
  - assert (cut len p = p) as -> by (unfold cut; apply take_ge; lia).
    rewrite <- (Z.add_0_r (blk * ph_bsize)). apply rewrite_block_ok; (done || lia).
Qed.

Lemma write_aligned_ok s blk p len : 0 <= blk -> 0 <= len -> len = Z.of_nat (length p) -> bytes p ->
  blk + len / ph_bsize < 2 ^ 64 ->
  writes s (blk * ph_bsize) p blk (blk + len / ph_bsize + 1) (write_aligned s blk p len).
Proof.
  intros Hblk Hl Hp Hb Hfit. pose proof ph_bsize_pos as Hph. unfold write_aligned. set (n := len / ph_bsize) in *.
  assert (ph_bsize <> 0) as Hph0 by lia. pose proof (Z.div_mod len ph_bsize Hph0) as Hdm.
  pose proof (Z.mod_pos_bound len ph_bsize Hph) as Hmb. fold n in Hdm.
  assert (0 <= n) by (apply Z.div_pos; lia).
  destruct (Z.eqb_spec n 0) as [E|Hne]; cbn [negb].
  { eapply writes_wide; [|apply write_rest_ok; (done || lia)]. lia. }
  assert (Z.of_nat (length (cut (ph_bsize * n) p)) = ph_bsize * n) as Hcl by (apply length_cut; nia).
  assert (Z.of_nat (length (cut (ph_bsize * n) p)) = n * ph_bsize) as Hcl' by lia.
  pose proof (bdif_write_ok s (cut (ph_bsize * n) p) blk n Hcl' ltac:(by apply Forall_take)) as Hw.
  destruct (ext4_bdif_bwrite s (cut (ph_bsize * n) p) blk n) as [r s1].
  assert (writes s (blk * ph_bsize) (cut (ph_bsize * n) p) blk (blk + n) (r, s1)) as Hw1 by exact Hw.
  destruct (Z.eqb_spec r EOK) as [->|Hr]; cbn [negb].
  2: { eapply writes_fail; [done| |exact Hw1]. lia. }
  assert (p = cut (ph_bsize * n) p ++ skip (ph_bsize * n) p) as Ep by (symmetry; apply take_drop).
  rewrite Ep at 1. rewrite uw_small by lia. eapply writes_then; [|exact Hw1|]; [lia|].
  rewrite Hcl. replace (blk * ph_bsize + ph_bsize * n) with ((blk + n) * ph_bsize) by lia.
  eapply writes_wide; [|apply write_rest_ok]; [lia|lia| |by apply Forall_drop].
  unfold skip. rewrite length_drop. nia.
Qed.
(** What a read may do: deliver the [n] bytes at [a], or fail; the device stays. *)
Definition reads s (a n : Z) (out : Z * list Z * ext4_blockdev) : Prop :=
  let '(r, l, s') := out in
  same_setup s s' /\ bc s' = bc s /\ (forall x, byte s' x = byte s x) /\ (r = EOK -> l = span s a (Z.to_nat n)).

Lemma reads_then s s1 a n1 n2 l1 out : 0 <= n1 -> 0 <= n2 -> same_setup s s1 -> bc s1 = bc s ->
  (forall x, byte s1 x = byte s x) -> l1 = span s a (Z.to_nat n1) -> reads s1 (a + n1) n2 out ->
  reads s a (n1 + n2) (let '(r, l', s2) := out in (r, l1 ++ l', s2)).
Proof.
  destruct out as [[r l2] s2]. intros Hn1 Hn2 Hs1 Hc1 Hb1 -> (Hs2 & Hc2 & Hb2 & Hg).
  split; [by eapply same_setup_trans|]. split; [congruence|]. split; [intros x; by rewrite Hb2|].
  intros Hr. rewrite (Hg Hr), Z2Nat.inj_add, span_app, Z2Nat.id by lia. f_equal. symmetry.
  apply span_ext. intros y _. by rewrite Hb1.
Qed.

Lemma read_rest_ok s blk len : 0 <= len < ph_bsize -> reads s (blk * ph_bsize) len (read_rest s blk len).
Proof.
  intros Hl. unfold read_rest. destruct (Z.eqb_spec len 0) as [->|Hne]; cbn [negb]; [done|].
  pose proof (bdif_read_ok s blk 1 ltac:(lia)) as Hr. destruct (ext4_bdif_bread s blk 1) as [[r buf] s1].
  destruct Hr as (Hs & Hc & Hb & Hlen & _ & Hg). destruct (Z.eqb_spec r EOK) as [->|Hr]; cbn [negb]; [|done].
  do 3 (split; [done|]). intros _. unfold cut. rewrite (Hg eq_refl). apply span_take. lia.
Qed.

Lemma read_aligned_ok s blk len : 0 <= blk -> 0 <= len -> blk + len / ph_bsize < 2 ^ 64 ->
  reads s (blk * ph_bsize) len (read_aligned s blk len).
Proof.
  intros Hblk Hl Hfit. pose proof ph_bsize_pos as Hph. unfold read_aligned. set (n := len / ph_bsize) in *.
  assert (ph_bsize <> 0) as Hph0 by lia. pose proof (Z.div_mod len ph_bsize Hph0) as Hdm.
  pose proof (Z.mod_pos_bound len ph_bsize Hph) as Hmb. fold n in Hdm.
  assert (0 <= n) as Hn by (apply Z.div_pos; lia).
  destruct (Z.eqb_spec n 0) as [E|Hne]; cbn [negb].
  { rewrite E, Z.mul_0_r in Hdm. apply read_rest_ok. lia. }
  pose proof (bdif_read_ok s blk n Hn) as Hr. destruct (ext4_bdif_bread s blk n) as [[r l] s1].
  destruct Hr as (Hs & Hc & Hb & Hlen & _ & Hg). destruct (Z.eqb_spec r EOK) as [->|Hr]; cbn [negb]; [|done].
  rewrite uw_small by lia.
  replace len with (n * ph_bsize + (len - ph_bsize * n)) at 1 by lia.
  apply (reads_then s s1); try done; [nia|lia|by apply Hg|].
  replace (blk * ph_bsize + n * ph_bsize) with ((blk + n) * ph_bsize) by lia. apply read_rest_ok. lia.
Qed.

(** A partition of whole device blocks below 2^64, with the range inside it. *)
Section range.
Context (s : ext4_blockdev (D := D)) (off len k : Z).
Hypothesis (Hk : 0 <= k) (Hph : ph_bsize = 2 ^ k).
Hypothesis (Hpo : 0 <= part_offset s) (Hpa : part_offset s mod ph_bsize = 0).
Hypothesis (Hend : part_offset s + part_size s + ph_bsize < 2 ^ 64).
Hypothesis (Hoff : 0 <= off) (Hlen : 0 <= len) (Hin : off + len <= part_size s) (Hopen : ph_refctr s <> 0).
Let blk := (off + part_offset s) / ph_bsize.

Lemma first_block : off .& (ph_bsize - 1) = off mod ph_bsize /\ u64 (off + part_offset s) / ph_bsize = blk /\
  blk * ph_bsize + off mod ph_bsize = off + part_offset s /\ 0 <= off mod ph_bsize < ph_bsize /\ 0 <= blk /\
  u64 (off + len) = off + len.
Proof.
  pose proof ph_bsize_pos as Hp. split.
  { rewrite Hph, <- Z.land_ones, Z.ones_equiv by done. f_equal. }
  rewrite !uw_small by lia. split; [done|].
  apply Z.mod_divide in Hpa as [j Hj]; [|lia]. unfold blk. rewrite Hj, Z.div_add by lia.
  pose proof (Z.mod_pos_bound off ph_bsize Hp). assert (0 <= off / ph_bsize) by (apply Z.div_pos; lia).
  assert (ph_bsize <> 0) as Hne by lia. pose proof (Z.div_mod off ph_bsize Hne). repeat split; nia.
Qed.

Let last := (off + part_offset s + len) / ph_bsize.

Lemma blk_last : blk <= last.
Proof. apply Z.div_le_mono; [apply ph_bsize_pos|lia]. Qed.

Lemma last_fits : last + 1 < 2 ^ 64.
Proof.
  pose proof ph_bsize_pos as Hp. unfold last.
  assert ((off + part_offset s + len) / ph_bsize <= off + part_offset s + len) by (apply Z.div_le_upper_bound; nia). lia.
Qed.

Lemma last_eq x b : b * ph_bsize = off + part_offset s + x -> b + (len - x) / ph_bsize = last.
Proof.
  intros Hb. unfold last. replace (off + part_offset s + len) with (len - x + b * ph_bsize) by lia.
  pose proof ph_bsize_pos. rewrite Z.div_add by lia. lia.
Qed.

Lemma writebytes_ok buf : len = Z.of_nat (length buf) -> bytes buf ->
  writes s (off + part_offset s) buf blk (last + 1) (ext4_block_writebytes s off buf len).
Proof.
  intros Hl Hb. destruct first_block as (E1 & E2 & E3 & Hu & Hblk & E4). pose proof ph_bsize_pos as Hp. pose proof blk_last.
  unfold ext4_block_writebytes. destruct (Z.eqb_spec (ph_refctr s) 0); [done|]. rewrite E4.
  destruct (Z.ltb_spec (part_size s) (off + len)); [lia|]. rewrite E1, E2. cbv zeta. set (unalg := off mod ph_bsize) in *.
  destruct (Z.eqb_spec unalg 0) as [Ez|Hnz]; cbn [negb].
  { assert (blk * ph_bsize = off + part_offset s) as Hb0 by lia.
    pose proof (last_eq 0 blk ltac:(lia)) as Hlast. rewrite Z.sub_0_r in Hlast. pose proof last_fits.
    rewrite <- Hb0, <- Hlast. apply write_aligned_ok; (done || lia). }
  set (wlen := if len <? ph_bsize - unalg then len else ph_bsize - unalg).
  assert (0 <= wlen <= len /\ wlen <= ph_bsize - unalg) as Hwl by (unfold wlen; case_if; lia).
  assert (Z.of_nat (length (cut wlen buf)) = wlen) as Hcl by (apply length_cut; lia).
  pose proof (rewrite_block_ok s blk unalg (cut wlen buf) ltac:(lia) ltac:(lia) ltac:(by apply Forall_take)) as Hw.
  rewrite E3 in Hw. destruct (rewrite_block s blk unalg (cut wlen buf)) as [r s1].
  destruct (Z.eqb_spec r EOK) as [->|Hr]; cbn [negb]; [|eapply writes_fail; [done| |exact Hw]; lia].
  assert (buf = cut wlen buf ++ skip wlen buf) as Eb by (symmetry; apply take_drop). rewrite Eb at 1.
  assert (bytes (skip wlen buf)) as Hsb by by apply Forall_drop.
  assert (len - wlen = Z.of_nat (length (skip wlen buf))) as Hsl by (unfold skip; rewrite length_drop; lia).
  unfold wlen in Hwl, Hcl, Hsb, Hsl, Hw |- *. destruct (Z.ltb_spec len (ph_bsize - unalg)) as [Hshort|Hlong].
  - assert (skip len buf = []) as -> by (apply nil_length_inv; lia).
    rewrite Z.sub_diag, app_nil_r. unfold write_aligned, write_rest. rewrite Z.div_0_l by lia. cbn [Z.eqb negb].
    eapply writes_wide; [|exact Hw]. lia.
  - assert ((blk + 1) * ph_bsize = off + part_offset s + (ph_bsize - unalg)) as Hb1 by lia.
    pose proof (last_eq _ _ Hb1) as Hlast. pose proof last_fits.
    assert (0 <= (len - (ph_bsize - unalg)) / ph_bsize) by (apply Z.div_pos; lia).
    rewrite (uw_small 64 (blk + 1)) by lia. eapply writes_then; [|exact Hw|]; [lia|].
    rewrite Hcl, <- Hlast, <- Hb1.
    apply write_aligned_ok; (done || lia).
Qed.

Lemma readbytes_ok : reads s (off + part_offset s) len (ext4_block_readbytes s off len).
Proof.
  destruct first_block as (E1 & E2 & E3 & Hu & Hblk & E4). pose proof ph_bsize_pos as Hp. pose proof last_fits.
  unfold ext4_block_readbytes. destruct (Z.eqb_spec (ph_refctr s) 0); [done|]. rewrite E4.
  destruct (Z.ltb_spec (part_size s) (off + len)); [lia|]. rewrite E1, E2. cbv zeta. set (unalg := off mod ph_bsize) in *.
  destruct (Z.eqb_spec unalg 0) as [Ez|Hnz]; cbn [negb].
  { assert (blk * ph_bsize = off + part_offset s) as Hb0 by lia.
    pose proof (last_eq 0 blk ltac:(lia)) as Hlast. rewrite Z.sub_0_r in Hlast.
    rewrite <- Hb0. apply read_aligned_ok; lia. }
  set (rlen := if len <? ph_bsize - unalg then len else ph_bsize - unalg).
  assert (0 <= rlen <= len /\ rlen <= ph_bsize - unalg) as Hwl by (unfold rlen; case_if; lia).
  pose proof (bdif_read_ok s blk 1 ltac:(lia)) as Hr. destruct (ext4_bdif_bread s blk 1) as [[r buf] s1].
  destruct Hr as (Hs & Hc & Hb & Hlb & _ & Hg). destruct (Z.eqb_spec r EOK) as [->|Hr]; cbn [negb]; [|done].
  assert (cut rlen (skip unalg buf) = span s (off + part_offset s) (Z.to_nat rlen)) as Hcut.
  { unfold cut, skip. rewrite (Hg eq_refl), span_drop, span_take by lia. f_equal. lia. }
  replace len with (rlen + (len - rlen)) at 1 by lia.
  apply (reads_then s s1); try done; [lia..|].
  unfold rlen. destruct (Z.ltb_spec len (ph_bsize - unalg)) as [Hshort|Hlong].
  - rewrite Z.sub_diag. unfold read_aligned, read_rest. rewrite Z.div_0_l by lia. done.
  - assert ((blk + 1) * ph_bsize = off + part_offset s + (ph_bsize - unalg)) as Hb1 by lia.
    pose proof (last_eq _ _ Hb1) as Hlast.
    assert (0 <= (len - (ph_bsize - unalg)) / ph_bsize) by (apply Z.div_pos; lia).
    rewrite (uw_small 64 (blk + 1)) by lia.
    rewrite <- Hb1. apply read_aligned_ok; lia.
Qed.
End range.
End bytes.

(** An open device in memory with a partition of 32768 bytes. *)
Definition sample_io : ext4_blockdev (D := ram) :=
  Bdev (Bcache 2 512 0 0 0 false ∅ [] []) (Ram (fun _ => 7)) 1 0 32768 512 64 0 0 0 [].

(** ** Theorems *)

(** C16. Byte access to a partition.  On a closed device, and for a range whose
    end, computed modulo 2^64, is behind the partition, nothing happens but the report.
    For a range inside the partition a successful
    [ext4_block_writebytes] stores exactly the bytes of the caller at their place
    on the device and leaves every other byte, whatever the alignment; one that
    fails leaves every byte outside the device blocks of the range; and
    [ext4_block_readbytes] never changes the device and delivers exactly the
    bytes of the range when it succeeds.  No cached block is touched. *)
Theorem byte_access {D : Type} `{BlockIfaceLaws D} (s : ext4_blockdev (D := D)) off buf k :
  let len := Z.of_nat (length buf) in
  let a := off + part_offset s in
  0 <= k -> ph_bsize = 2 ^ k -> 0 <= part_offset s -> part_offset s mod ph_bsize = 0 ->
  part_offset s + part_size s + ph_bsize < 2 ^ 64 -> 0 <= off -> bytes buf ->
  (ph_refctr s = 0 -> ext4_block_writebytes s off buf len = (EIO, s) /\ ext4_block_readbytes s off len = (EIO, [], s)) /\
  (ph_refctr s <> 0 -> part_size s < u64 (off + len) ->
     ext4_block_writebytes s off buf len = (EINVAL, s) /\ ext4_block_readbytes s off len = (EINVAL, [], s)) /\
  (ph_refctr s <> 0 -> off + len <= part_size s ->
     writes s a buf (a / ph_bsize) ((a + len) / ph_bsize + 1) (ext4_block_writebytes s off buf len) /\
     reads s a len (ext4_block_readbytes s off len)).
Proof.
  intros len a Hk Hph Hpo Hpa Hend Hoff Hb. pose proof ph_bsize_pos. split; [|split].
  - intros Hz. unfold ext4_block_writebytes, ext4_block_readbytes. by rewrite Hz.
  - intros Hopen Hout. unfold ext4_block_writebytes, ext4_block_readbytes.
    destruct (Z.eqb_spec (ph_refctr s) 0); [done|]. by destruct (Z.ltb_spec (part_size s) (u64 (off + len))); [|lia].
  - intros Hopen Hin. split.
    + apply (writebytes_ok s off len k); (done || unfold len; lia).
    + apply (readbytes_ok s off len k); (done || unfold len; lia).
Qed.

Lemma byte_access_witness :
  let s := sample_io in
  writes s 515 [1; 2; 3] 1 2 (ext4_block_writebytes s 515 [1; 2; 3] 3).
Proof.
  exact (proj1 (proj2 (proj2 (byte_access sample_io 515 [1; 2; 3] 9 ltac:(lia) eq_refl ltac:(cbn; lia) eq_refl
    ltac:(cbn; lia) ltac:(lia) ltac:(repeat constructor; lia))) ltac:(discriminate) ltac:(cbn; lia))).
Defined.

(** The check of the range is done at 64 bits, where its end can wrap around: the
    byte at 2^64 - 1 of a partition of 32768 bytes is read without complaint. *)
Theorem range_check_wraps : part_size sample_io = 32768 /\
  (ext4_block_readbytes sample_io (2 ^ 64 - 1) 1).1 = (EOK, [7]).
Proof. split; vm_compute; reflexivity. Qed.
