(* ===== verification/Ext4Store.v ===== *)
(** lwext4, the block cache as the file system sees it.

    [Ext4BcacheSpec] shows that the cache answers like one disk whatever it
    keeps or evicts.  The layers above use it through the interface of this
    file: the buffer of block [a] is at [buf a] of the memory that also holds the
    superblock, a block can be got (which may fail for reasons of the device),
    marked dirty and released.  What is marked dirty and what is held is
    recorded: a change of a block that is not marked is lost, and a block that
    is not released stays in the cache for ever.

    The code above is written in the monad [M] of this state; [None] is a failed
    assertion, a use of a released block or a loop out of fuel. *)
From stdpp Require Export gmap.
From S2P Require Import Prelude Memory Ext4Errno.
#[local] Open Scope Z_scope.

(** ** Interface *)

(** [dev_io n] is the status of the [n]-th access that reaches the device or
    needs memory, [dev_junk n] what a buffer holds that was not read;
    [dev_early n] tells that a failing access fails before it has a buffer,
    [dev_saved n] that the buffer it finds has been written back since its last
    use, [dev_memory n] whether [ext4_calloc] finds memory. *)
Class Device := {
  dev_open : bool;
  dev_blocks : Z;
  dev_bsize : Z;
  dev_bufs : Z;
  dev_io : nat -> Z;
  dev_junk : nat -> memory;
  dev_early : nat -> bool;
  dev_saved : nat -> bool;
  dev_memory : nat -> bool;
  fs_sb : Z;
}.

Definition buf `{Device} (a : Z) : Z := dev_bufs + a * dev_bsize.

Record ext4_fs := Fs {
  mem : memory;
  dirty : gset Z;
  held : list Z;
  clock : nat;
  last_inode_bg_id : Z;
  unsaved : gset Z;
}.

Definition set_mem (s : ext4_fs) (m : memory) : ext4_fs :=
  Fs m (dirty s) (held s) (clock s) (last_inode_bg_id s) (unsaved s).
Definition set_dirty (s : ext4_fs) (d : gset Z) : ext4_fs :=
  Fs (mem s) d (held s) (clock s) (last_inode_bg_id s) (unsaved s).
Definition set_held (s : ext4_fs) (l : list Z) : ext4_fs :=
  Fs (mem s) (dirty s) l (clock s) (last_inode_bg_id s) (unsaved s).
Definition tick (s : ext4_fs) : ext4_fs :=
  Fs (mem s) (dirty s) (held s) (S (clock s)) (last_inode_bg_id s) (unsaved s).
Definition set_last (s : ext4_fs) (b : Z) : ext4_fs := Fs (mem s) (dirty s) (held s) (clock s) b (unsaved s).
Definition set_unsaved (s : ext4_fs) (u : gset Z) : ext4_fs :=
  Fs (mem s) (dirty s) (held s) (clock s) (last_inode_bg_id s) u.

Definition M (A : Type) : Type := ext4_fs -> option (A * ext4_fs).

#[global] Instance M_ret : MRet M := fun A x s => Some (x, s).
#[global] Instance M_bind : MBind M := fun A B k c s => match c s with Some (x, s) => k x s | None => None end.
#[global] Typeclasses Opaque M.

(** The memory, and a change of it. *)
Definition look : M memory := fun s => Some (mem s, s).
Definition update (f : memory -> memory) : M unit := fun s => Some (tt, set_mem s (f (mem s))).
(** A value that a loop may fail to give. *)
Definition lift {A} (o : option A) : M A := fun s => match o with Some x => Some (x, s) | None => None end.
Definition stuck {A} : M A := fun _ => None.
(** [fs->last_inode_bg_id] *)
Definition last_bg : M Z := fun s => Some (last_inode_bg_id s, s).
Definition put_last_bg (b : Z) : M unit := fun s => Some (tt, set_last s b).

Section ops.
Context `{Device}.

(** A reference to the buffer of [a] more. *)
Definition hold (a : Z) (s : ext4_fs) : ext4_fs :=
  set_held (if negb (bool_decide (a ∈ held s)) && dev_saved (clock s) then set_unsaved s (unsaved s ∖ {[ a ]}) else s)
    (a :: held s).

Definition access (a : Z) (ok : nat -> ext4_fs -> ext4_fs) : M Z := fun s =>
  if negb dev_open then Some (EIO, s)
  else if dev_blocks <=? a then Some (ENXIO, s)
  else
    let r := dev_io (clock s) in
    if r =? EOK then Some (EOK, hold a (ok (clock s) (tick s))) else Some (r, tick s).

Definition ext4_trans_block_get (a : Z) : M Z := access a (fun _ s => s).

(** A buffer that is not read holds anything. *)
Definition ext4_trans_block_get_noread (a : Z) : M Z :=
  access a (fun n s => set_mem s (fun x => if (buf a <=? x) && (x <? buf a + dev_bsize) then dev_junk n x else mem s x)).

Fixpoint release (a : Z) (l : list Z) : option (list Z) :=
  match l with
  | [] => None
  | b :: l => if b =? a then Some l else l ← release a l; Some (b :: l)
  end.

Definition ext4_block_set (a : Z) : M Z := fun s =>
  if negb dev_open then Some (EIO, s) else l ← release a (held s); Some (EOK, set_held s l).

(** What is left of a block whose buffer is dropped is not known. *)
Definition ext4_bcache_invalidate_lba (from cnt : Z) : M unit := fun s =>
  Some (tt, tick (set_unsaved
    (set_mem s (fun x => if (buf from <=? x) && (x <? buf (from + cnt)) then dev_junk (clock s) x else mem s x))
    (filter (fun a => ~ (from <= a < from + cnt)) (unsaved s)))).

Definition ext4_trans_set_block_dirty (a : Z) : M unit := fun s =>
  if bool_decide (a ∈ held s) then Some (tt, set_unsaved (set_dirty s ({[ a ]} ∪ dirty s)) ({[ a ]} ∪ unsaved s))
  else None.

(** [struct ext4_block]; its buffer by the block it holds. *)
Record ext4_block := Blk { lb_id : Z; b_buf : option Z }.

Definition EXT4_BLOCK_ZERO : ext4_block := Blk 0 None.
Definition block_data (b : ext4_block) : Z := match b_buf b with Some a => buf a | None => 0 end.

(** Getting block [a] into [b].  A call that is refused leaves [b] alone, one
    that finds no buffer leaves the old one in it, and one that cannot read
    releases the new one. *)
Definition get_into (read : bool) (b : ext4_block) (a : Z) : M (Z * ext4_block) := fun s =>
  match (if read then ext4_trans_block_get a else ext4_trans_block_get_noread a) s with
  | Some (r, s') =>
      let b :=
        if r =? EOK then Blk a (Some a)
        else if negb dev_open || (dev_blocks <=? a) then b
        else if negb read || dev_early (clock s) then Blk a (b_buf b)
        else Blk 0 (Some a) in
      Some ((r, b), s')
  | None => None
  end.

Definition block_set (b : ext4_block) : M (Z * ext4_block) :=
  match b_buf b with
  | None => stuck
  | Some a =>
      r ← ext4_block_set a;
      if negb (r =? EOK) then mret (r, b) else if lb_id b =? 0 then stuck else mret (r, Blk 0 (Some a))
  end.

(** [ext4_bcache_test_flag(buf, BC_DIRTY)] and the success of [ext4_calloc]. *)
Definition test_dirty (a : Z) : M bool := fun s => Some (bool_decide (a ∈ unsaved s), s).
Definition calloc : M bool := fun s => Some (dev_memory (clock s), tick s).
End ops.

(** ** Total correctness

    [c] started in [s] ends with a result and a state in [Q]. *)
Definition run {A} (c : M A) (s : ext4_fs) (Q : A -> ext4_fs -> Prop) : Prop :=
  exists x s', c s = Some (x, s') /\ Q x s'.

Section rules.
Context {A B : Type}.
Implicit Types (s : ext4_fs).

Lemma run_ret (x : A) s (Q : A -> ext4_fs -> Prop) : Q x s -> run (mret x) s Q.
Proof. intros HQ. by exists x, s. Qed.

Lemma run_bind (c : M A) (k : A -> M B) s Q : run c s (fun x s => run (k x) s Q) -> run (c ≫= k) s Q.
Proof. intros (x & s' & E & y & s'' & E' & HQ). exists y, s''. unfold mbind, M_bind. by rewrite E. Qed.

Lemma run_mono (c : M A) s (P Q : A -> ext4_fs -> Prop) : run c s P -> (forall x s', P x s' -> Q x s') -> run c s Q.
Proof. intros (x & s' & E & HP) H. exists x, s'. eauto. Qed.

Lemma run_lift (x : A) o s (Q : A -> ext4_fs -> Prop) : o = Some x -> Q x s -> run (lift o) s Q.
Proof. intros -> HQ. by exists x, s. Qed.
End rules.

Lemma run_look s (Q : memory -> ext4_fs -> Prop) : Q (mem s) s -> run look s Q.
Proof. intros HQ. by exists (mem s), s. Qed.

Lemma run_update f s (Q : unit -> ext4_fs -> Prop) : Q tt (set_mem s (f (mem s))) -> run (update f) s Q.
Proof. intros HQ. by exists tt, (set_mem s (f (mem s))). Qed.

Lemma run_last_bg s (Q : Z -> ext4_fs -> Prop) : Q (last_inode_bg_id s) s -> run last_bg s Q.
Proof. intros HQ. by exists (last_inode_bg_id s), s. Qed.

Lemma run_put_last_bg b s (Q : unit -> ext4_fs -> Prop) : Q tt (set_last s b) -> run (put_last_bg b) s Q.
Proof. intros HQ. by exists tt, (set_last s b). Qed.

(** Steps of a proof about monadic code. *)
Ltac step :=
  lazymatch goal with
  | |- run (mbind _ _) _ _ => apply run_bind
  | |- run (mret _) _ _ => apply run_ret
  | |- run look _ _ => apply run_look
  | |- run (update _) _ _ => apply run_update
  | |- run last_bg _ _ => apply run_last_bg
  | |- run (put_last_bg _) _ _ => apply run_put_last_bg
  end; cbv beta.
Ltac steps := repeat step.

Section laws.
Context `{Device}.
Implicit Types (s : ext4_fs).

(** What a block access can fail with. *)
Definition device_error (r : Z) : Prop :=
  r <> EOK /\ ((r = EIO /\ dev_open = false) \/ r = ENXIO \/ exists n, r = dev_io n).

Lemma hold_fields a s : mem (hold a s) = mem s /\ dirty (hold a s) = dirty s /\ held (hold a s) = a :: held s /\
  last_inode_bg_id (hold a s) = last_inode_bg_id s.
Proof. unfold hold. by destruct (_ && _). Qed.

(** Getting a block fails and changes nothing, or holds it. *)
Lemma run_get a s (Q : Z -> ext4_fs -> Prop) :
  (forall r s', device_error r -> mem s' = mem s -> dirty s' = dirty s -> held s' = held s ->
     last_inode_bg_id s' = last_inode_bg_id s -> Q r s') ->
  (forall s', dev_open = true -> mem s' = mem s -> dirty s' = dirty s -> held s' = a :: held s ->
     last_inode_bg_id s' = last_inode_bg_id s -> Q EOK s') ->
  run (ext4_trans_block_get a) s Q.
Proof.
  intros Hf Ho. unfold run, ext4_trans_block_get, access. destruct dev_open eqn:Hop; cbn [negb].
  2: { exists EIO, s. split; [done|]. apply Hf; try done. split; [done|]. by left. }
  case_if; [exists ENXIO, s; split; [done|]; apply Hf; try done; split; [done|]; by right; left|]. cbv zeta.
  case_if.
  - eexists _, _. split; [done|]. destruct (hold_fields a (tick s)) as (? & ? & ? & ?). by apply Ho.
  - eexists _, _. split; [done|]. apply Hf; try done. split; [by zb|]. right. right. by exists (clock s).
Qed.

Lemma run_get_noread a s (Q : Z -> ext4_fs -> Prop) :
  (forall r s', device_error r -> mem s' = mem s -> dirty s' = dirty s -> held s' = held s ->
     last_inode_bg_id s' = last_inode_bg_id s -> Q r s') ->
  (forall s', dev_open = true -> (forall x, x < buf a \/ buf a + dev_bsize <= x -> mem s' x = mem s x) ->
     dirty s' = dirty s -> held s' = a :: held s -> last_inode_bg_id s' = last_inode_bg_id s -> Q EOK s') ->
  run (ext4_trans_block_get_noread a) s Q.
Proof.
  intros Hf Ho. unfold run, ext4_trans_block_get_noread, access. destruct dev_open eqn:Hop; cbn [negb].
  2: { exists EIO, s. split; [done|]. apply Hf; try done. split; [done|]. by left. }
  case_if; [exists ENXIO, s; split; [done|]; apply Hf; try done; split; [done|]; by right; left|]. cbv zeta.
  case_if.
  - eexists _, _. split; [done|]. match goal with |- context [hold a ?s0] => destruct (hold_fields a s0) as (Em & ? & ? & ?) end.
    apply Ho; try done. intros x Hx. rewrite Em. cbn. case_if; [lia|done].
  - eexists _, _. split; [done|]. apply Hf; try done. split; [by zb|]. right. right. by exists (clock s).
Qed.

Lemma run_set a l s (Q : Z -> ext4_fs -> Prop) : dev_open = true -> held s = a :: l -> Q EOK (set_held s l) ->
  run (ext4_block_set a) s Q.
Proof.
  intros Ho Hh HQ. exists EOK, (set_held s l). split; [|done]. unfold ext4_block_set. rewrite Ho, Hh. cbn.
  by rewrite Z.eqb_refl.
Qed.

Lemma run_dirty a s (Q : unit -> ext4_fs -> Prop) : a ∈ held s ->
  Q tt (set_unsaved (set_dirty s ({[ a ]} ∪ dirty s)) ({[ a ]} ∪ unsaved s)) ->
  run (ext4_trans_set_block_dirty a) s Q.
Proof.
  intros Ha HQ. eexists _, _. split; [|exact HQ]. unfold ext4_trans_set_block_dirty. by rewrite bool_decide_true.
Qed.

Lemma run_invalidate a n s (Q : unit -> ext4_fs -> Prop) :
  (forall s', (forall x, x < buf a \/ buf (a + n) <= x -> mem s' x = mem s x) -> dirty s' = dirty s -> held s' = held s ->
     last_inode_bg_id s' = last_inode_bg_id s -> Q tt s') ->
  run (ext4_bcache_invalidate_lba a n) s Q.
Proof. intros HQ. eexists _, _. split; [done|]. apply HQ; try done. intros x Hx. cbn. case_if; [lia|done]. Qed.
End laws.
