(* ===== verification/Ext4Client.v ===== *)
(** lwext4, clients of a component: a client calls operations in any order and
    chooses the next call from the answers so far.  If every operation follows a
    specification on abstract states, so does every client. *)
From S2P Require Import Prelude Ext4Store.

Inductive client (Op Ans : Type) :=
  | Done
  | Call (o : Op) (k : Ans -> client Op Ans).
Arguments Done {_ _}.
Arguments Call {_ _} _ _.

Section client.
Context {Op Ans Ref Abs : Type}.
Context (exec : Op -> Ref -> M (Ans * Ref)).
Context (spec : Op -> Abs -> Ans -> Abs -> Prop) (legal : Op -> Abs -> Prop).

Fixpoint perform (c : client Op Ans) (r : Ref) : M (list Ans * Ref) :=
  match c with
  | Done => mret ([], r)
  | Call o k =>
      '(x, r) ← exec o r;
      '(l, r) ← perform (k x) r;
      mret (x :: l, r)
  end.

Inductive follows : client Op Ans -> Abs -> list Ans -> Abs -> Prop :=
  | follows_done a : follows Done a [] a
  | follows_call o k a x a1 l a2 : spec o a x a1 -> follows (k x) a1 l a2 -> follows (Call o k) a (x :: l) a2.

(** Whatever the specification answers, the client makes legal calls. *)
Fixpoint permitted (c : client Op Ans) (a : Abs) : Prop :=
  match c with
  | Done => True
  | Call o k => legal o a /\ forall x a', spec o a x a' -> permitted (k x) a'
  end.

(** [inv] relates states, references and abstract states. *)
Lemma run_client (inv : ext4_fs -> Ref -> Abs -> Prop) :
  (forall o r s a, inv s r a -> legal o a ->
     run (exec o r) s (fun '(x, r') s' => exists a', spec o a x a' /\ inv s' r' a')) ->
  forall c r s a, inv s r a -> permitted c a ->
  run (perform c r) s (fun '(l, r') s' => exists a', follows c a l a' /\ inv s' r' a').
Proof.
  intros Hsim c. induction c as [|o k IH]; intros r s a Hinv Hp; cbn [perform].
  - step. exists a. split; [constructor|done].
  - destruct Hp as [Hl Hk]. step. eapply run_mono; [by apply Hsim|]. intros [x r1] s1 (a1 & Hs & Hinv1); cbv beta iota.
    step. eapply run_mono; [by apply (IH x r1 s1 a1); [|apply Hk]|]. intros [l r2] s2 (a2 & Hf & Hinv2); cbv beta iota.
    step. exists a2. split; [by econstructor|done].
Qed.
End client.
