(* ===== verification/Ext4Fs.v ===== *)
(** lwext4, block groups: the part of [src/ext4_fs.c] and [include/ext4_fs.h]
    that finds, initialises and releases group descriptors, and the conversions
    between block addresses and bits of a bitmap.

    The state and the monad are those of [Ext4Store]; [sb] is the address of the
    copy of the superblock in [struct ext4_fs]. *)
From S2P Require Import Prelude Memory Ext4Errno Ext4Bitmap Ext4Layout Ext4Super Ext4BlockGroup Ext4Store.
#[local] Open Scope Z_scope.
#[local] Open Scope cint_scope.

(** ** Model *)

Definition EXT4_BLOCK_GROUP_INODE_UNINIT : Z := 0x0001.
Definition EXT4_BLOCK_GROUP_BLOCK_UNINIT : Z := 0x0002.
Definition EXT4_BLOCK_GROUP_ITABLE_ZEROED : Z := 0x0004.
Definition EXT4_FINCOM_FLEX_BG : Z := 0x0200.

Definition ext4_fs_addr_to_idx_bg (m : memory) (s baddr : Z) : Z :=
  let baddr := if c_true (fget sb_first_data_block m s) && c_true baddr then baddr - 1 else baddr in
  u32 (baddr mod fget sb_blocks_per_group m s).

Definition ext4_fs_bg_idx_to_addr (m : memory) (s index bgid : Z) : Z :=
  let index := if c_true (fget sb_first_data_block m s) then u32 (index + 1) else index in
  u32 (u32 (fget sb_blocks_per_group m s * bgid) + index).

Definition ext4_fs_first_bg_block_no (m : memory) (s bgid : Z) : Z :=
  u64 (u64 (bgid * fget sb_blocks_per_group m s) + fget sb_first_data_block m s).

Definition ext4_balloc_get_bgid_of_block (m : memory) (s baddr : Z) : Z :=
  let baddr := if c_true (fget sb_first_data_block m s) && c_true baddr then baddr - 1 else baddr in
  u32 (baddr / fget sb_blocks_per_group m s).

Definition ext4_balloc_get_block_of_bgid (m : memory) (s bgid : Z) : Z :=
  let baddr := if c_true (fget sb_first_data_block m s) then 1 else 0 in
  u64 (baddr + u32 (bgid * fget sb_blocks_per_group m s)).

Definition ext4_block_in_group (m : memory) (s baddr bgid : Z) : bool :=
  ext4_balloc_get_bgid_of_block m s baddr =? bgid.

(** [for (i = start_bit; i < stop; i++)]; also the value of [i] at the end. *)
Fixpoint mark_loop (fuel : nat) (m : memory) (bitmap i stop : Z) : option (memory * Z) :=
  match fuel with
  | O => None
  | S fuel => if u32 i <? stop then mark_loop fuel (ext4_bmap_bit_set m bitmap i) bitmap (i + 1) stop else Some (m, i)
  end.

Definition ext4_fs_mark_bitmap_end (m : memory) (start_bit end_bit bitmap : Z) : option memory :=
  if end_bit <=? start_bit then Some m
  else
    '(m, i) ← mark_loop 8 m bitmap start_bit (u64 ((start_bit + 7) .& Z.lnot 7));
    Some (if i <? end_bit then memset m (bitmap + (i .>> 3)) 255 ((end_bit - i) .>> 3) else m).

(** [for (bit = 0; bit < bit_max; bit++)] *)
Fixpoint set_bits (n : nat) (m : memory) (bitmap bit : Z) : memory :=
  match n with
  | O => m
  | S n => set_bits n (ext4_bmap_bit_set m bitmap bit) bitmap (bit + 1)
  end.

(** The blocks of the inode table, [n] of them from [i] on. *)
Fixpoint set_table_bits (n : nat) (m : memory) (sb index : Z) (flex_bg : bool) (bitmap first_bg i : Z) : memory :=
  match n with
  | O => m
  | S n =>
      let in_bg := ext4_block_in_group m sb i index in
      let m := if negb flex_bg || in_bg then ext4_bmap_bit_set m bitmap (u32 (i - first_bg)) else m in
      set_table_bits n m sb index flex_bg bitmap first_bg (i + 1)
  end.

Definition ext4_fs_get_descriptor_block (m : memory) (s bgid dsc_per_block : Z) : option Z :=
  let dsc_id := bgid / dsc_per_block in
  let first_meta_bg := ext4_sb_first_meta_bg m s in
  let meta_bg := ext4_sb_feature_incom m s EXT4_FINCOM_META_BG in
  if negb meta_bg || (dsc_id <? first_meta_bg) then Some (u32 (u32 (fget sb_first_data_block m s + dsc_id) + 1))
  else
    has_super ← ext4_sb_is_super_in_bg m s bgid;
    Some (u64 ((if (has_super : bool) then 1 else 0) + ext4_fs_first_bg_block_no m s bgid)).

Record ext4_block_group_ref := BgRef {
  bgr_block : Z;
  block_group : Z;
  bgr_index : Z;
  bgr_dirty : bool;
}.

Definition dirty_ref (r : ext4_block_group_ref) : ext4_block_group_ref :=
  BgRef (bgr_block r) (block_group r) (bgr_index r) true.

Section groups.
Context `{Device}.
#[local] Notation sb := fs_sb.

(** The number of bits that the superblock and the descriptors take. *)
Definition meta_bits (m : memory) (index : Z) : option Z :=
  let dsc_per_block := ext4_sb_get_block_size m sb / ext4_sb_get_desc_size m sb in
  let meta_bg := ext4_sb_feature_incom m sb EXT4_FINCOM_META_BG in
  super ← ext4_sb_is_super_in_bg m sb index;
  let bit_max := if (super : bool) then 1 else 0 in
  let count := u32 (ext4_sb_first_meta_bg m sb * dsc_per_block) in
  if negb meta_bg || (index <? count) then
    if c_true bit_max then
      gdb ← ext4_bg_num_gdb m sb index;
      Some (u32 (u32 (bit_max + gdb) + fget sb_s_reserved_gdt_blocks m sb))
    else Some bit_max
  else
    gdb ← ext4_bg_num_gdb m sb index;
    Some (u32 (bit_max + gdb)).

(** The bits of the bitmap of group [index], at [bitmap]. *)
Definition fill_block_bitmap (m : memory) (index bmp_blk bmp_inode inode_table bitmap : Z) : option memory :=
  let block_size := ext4_sb_get_block_size m sb in
  let first_bg := ext4_balloc_get_block_of_bgid m sb index in
  let flex_bg := ext4_sb_feature_incom m sb EXT4_FINCOM_FLEX_BG in
  let inode_table_bcnt := u32 (fget sb_inodes_per_group m sb * fget sb_inode_size m sb) / block_size in
  let m := memset m bitmap 0 block_size in
  bit_max ← meta_bits m index;
  let m := set_bits (Z.to_nat bit_max) m bitmap 0 in
  let group_blocks :=
    if index =? u32 (ext4_block_group_cnt m sb - 1) then
      u32 (ext4_sb_get_blocks_cnt m sb - fget sb_first_data_block m sb
           - u32 (fget sb_blocks_per_group m sb * u32 (ext4_block_group_cnt m sb - 1)))
    else fget sb_blocks_per_group m sb in
  let m := if negb flex_bg || ext4_block_in_group m sb bmp_blk index
           then ext4_bmap_bit_set m bitmap (u32 (bmp_blk - first_bg)) else m in
  let m := if negb flex_bg || ext4_block_in_group m sb bmp_inode index
           then ext4_bmap_bit_set m bitmap (u32 (bmp_inode - first_bg)) else m in
  let m := set_table_bits (Z.to_nat (u64 (inode_table + inode_table_bcnt) - inode_table)) m sb index flex_bg bitmap
             first_bg inode_table in
  ext4_fs_mark_bitmap_end m (s32 group_blocks) (s32 (u32 (block_size * 8))) bitmap.

Definition ext4_fs_init_block_bitmap (bg_ref : ext4_block_group_ref) : M (Z * ext4_block_group_ref) :=
  m ← look;
  let bmp_blk := ext4_bg_get_block_bitmap m (block_group bg_ref) sb in
  let bmp_inode := ext4_bg_get_inode_bitmap m (block_group bg_ref) sb in
  let inode_table := ext4_bg_get_inode_table_first_block m (block_group bg_ref) sb in
  rc ← ext4_trans_block_get_noread bmp_blk;
  if negb (rc =? EOK) then mret (rc, bg_ref)
  else
    m ← look;
    m ← lift (fill_block_bitmap m (bgr_index bg_ref) bmp_blk bmp_inode inode_table (buf bmp_blk));
    update (fun _ => m);;
    ext4_trans_set_block_dirty bmp_blk;;
    update (fun m => ext4_balloc_set_bitmap_csum m sb (block_group bg_ref) (buf bmp_blk));;
    rc ← ext4_block_set bmp_blk;
    mret (rc, dirty_ref bg_ref).

(** The bits of the inode bitmap at [bitmap]. *)
Definition fill_inode_bitmap (m : memory) (bitmap : Z) : option memory :=
  let block_size := ext4_sb_get_block_size m sb in
  let inodes_per_group := fget sb_inodes_per_group m sb in
  let m := memset m bitmap 0 (u32 (inodes_per_group + 7) / 8) in
  let start_bit := inodes_per_group in
  let end_bit := u32 (block_size * 8) in
  '(m, i) ← mark_loop 8 m bitmap start_bit (u32 (start_bit + 7) .& Z.lnot 7);
  Some (if i <? end_bit then memset m (bitmap + (i .>> 3)) 255 ((end_bit - i) .>> 3) else m).

Definition ext4_fs_init_inode_bitmap (bg_ref : ext4_block_group_ref) : M (Z * ext4_block_group_ref) :=
  m ← look;
  let bitmap_block_addr := ext4_bg_get_inode_bitmap m (block_group bg_ref) sb in
  rc ← ext4_trans_block_get_noread bitmap_block_addr;
  if negb (rc =? EOK) then mret (rc, bg_ref)
  else
    m ← look;
    m ← lift (fill_inode_bitmap m (buf bitmap_block_addr));
    update (fun _ => m);;
    ext4_trans_set_block_dirty bitmap_block_addr;;
    update (fun m => ext4_ialloc_set_bitmap_csum m sb (block_group bg_ref) (buf bitmap_block_addr));;
    rc ← ext4_block_set bitmap_block_addr;
    mret (rc, dirty_ref bg_ref).

(** [for (fblock = first_block; fblock <= last_block; ++fblock)] *)
Fixpoint init_table_loop (fuel : nat) (block_size fblock last_block : Z) : M Z :=
  match fuel with
  | O => stuck
  | S fuel =>
      if fblock <=? last_block then
        rc ← ext4_trans_block_get_noread fblock;
        if negb (rc =? EOK) then mret rc
        else
          update (fun m => memset m (buf fblock) 0 block_size);;
          ext4_trans_set_block_dirty fblock;;
          rc ← ext4_block_set fblock;
          if negb (rc =? EOK) then mret rc else init_table_loop fuel block_size (u64 (fblock + 1)) last_block
      else mret EOK
  end.

Definition ext4_fs_init_inode_table (bg_ref : ext4_block_group_ref) : M Z :=
  m ← look;
  let inode_size := fget sb_inode_size m sb in
  let block_size := ext4_sb_get_block_size m sb in
  let inodes_per_block := block_size / inode_size in
  let inodes_in_group := ext4_inodes_in_group_cnt m sb (bgr_index bg_ref) in
  let table_blocks := inodes_in_group / inodes_per_block in
  let table_blocks := if c_true (inodes_in_group mod inodes_per_block) then table_blocks + 1 else table_blocks in
  let first_block := ext4_bg_get_inode_table_first_block m (block_group bg_ref) sb in
  let last_block := u64 (u64 (first_block + table_blocks) - 1) in
  init_table_loop (S (Z.to_nat table_blocks)) block_size first_block last_block.

Definition ext4_fs_get_block_group_ref (bgid : Z) : M (Z * ext4_block_group_ref) :=
  m ← look;
  let block_size := ext4_sb_get_block_size m sb in
  let dsc_cnt := block_size / ext4_sb_get_desc_size m sb in
  block_id ← lift (ext4_fs_get_descriptor_block m sb bgid dsc_cnt);
  let offset := (bgid mod dsc_cnt) * ext4_sb_get_desc_size m sb in
  rc ← ext4_trans_block_get block_id;
  let bg := buf block_id + offset in
  let ref := BgRef block_id bg bgid false in
  if negb (rc =? EOK) then mret (rc, ref)
  else
    update (fun m => (ext4_fs_verify_bg_csum m sb bgid bg).1);;
    m ← look;
    '(rc, ref) ←
      (if ext4_bg_has_flag m bg EXT4_BLOCK_GROUP_BLOCK_UNINIT then
         '(rc, ref) ← ext4_fs_init_block_bitmap ref;
         if negb (rc =? EOK) then ext4_block_set block_id;; mret (rc, ref)
         else
           update (fun m => ext4_bg_clear_flag m bg EXT4_BLOCK_GROUP_BLOCK_UNINIT);;
           mret (EOK, dirty_ref ref)
       else mret (EOK, ref));
    if negb (rc =? EOK) then mret (rc, ref)
    else
      m ← look;
      if ext4_bg_has_flag m bg EXT4_BLOCK_GROUP_INODE_UNINIT then
        '(rc, ref) ← ext4_fs_init_inode_bitmap ref;
        if negb (rc =? EOK) then ext4_block_set block_id;; mret (rc, ref)
        else
          update (fun m => ext4_bg_clear_flag m bg EXT4_BLOCK_GROUP_INODE_UNINIT);;
          m ← look;
          rc ←
            (if negb (ext4_bg_has_flag m bg EXT4_BLOCK_GROUP_ITABLE_ZEROED) then
               rc ← ext4_fs_init_inode_table ref;
               if negb (rc =? EOK) then ext4_block_set block_id;; mret rc
               else update (fun m => ext4_bg_set_flag m bg EXT4_BLOCK_GROUP_ITABLE_ZEROED);; mret EOK
             else mret EOK);
          if negb (rc =? EOK) then mret (rc, ref) else mret (EOK, dirty_ref ref)
      else mret (EOK, ref).

Definition ext4_fs_put_block_group_ref (ref : ext4_block_group_ref) : M Z :=
  (if bgr_dirty ref then
     update (fun m => put_bg_checksum m sb (bgr_index ref) (block_group ref));;
     ext4_trans_set_block_dirty (bgr_block ref)
   else mret tt);;
  ext4_block_set (bgr_block ref).
End groups.
