(* ===== verification/Ext4Groups.v ===== *)
(** lwext4, the layout of a file system: the superblock, the group descriptors
    and the bitmaps lie apart ([fs_ok]), and a change that leaves the geometry
    alone ([keeps]) leaves the layout alone. *)
From S2P Require Import Prelude Memory Ext4Errno Ext4Bitmap Ext4Crc Ext4Layout Ext4Super Ext4BlockGroup Ext4Store.
From S2P Require Import Ext4Fs.
#[local] Open Scope Z_scope.
#[local] Open Scope cint_scope.

(** ** Reading depends on bytes only *)

Lemma ldn_on n m m' : forall a, (forall x, a <= x < a + Z.of_nat n -> ld8 m' x = ld8 m x) -> ldn n m' a = ldn n m a.
Proof.
  induction n as [|n IH]; intros a Hx; [done|]. cbn [ldn]. pose proof (Hx a ltac:(lia)) as E. unfold ld8 in E.
  rewrite E, IH; [done|]. intros x Hx'. apply Hx. lia.
Qed.

Lemma fget_on f m m' s : 0 <= f_len f ->
  (forall x, s + f_off f <= x < s + f_off f + f_len f -> ld8 m' x = ld8 m x) -> fget f m' s = fget f m s.
Proof. intros Hl Hx. apply ldn_on. intros x Hx'. apply Hx. lia. Qed.

Lemma bytes_of_on m m' p n : (forall x, p <= x < p + Z.of_nat n -> ld8 m' x = ld8 m x) -> bytes_of m' p n = bytes_of m p n.
Proof.
  revert p. induction n as [|n IH]; intros p Hx; [done|]. rewrite !bytes_of_S, Hx, IH by (intros; try apply Hx; lia).
  done.
Qed.

Lemma crc32c_on m m' crc p size : (forall x, p <= x < p + size -> ld8 m' x = ld8 m x) ->
  ext4_crc32c m' crc p size = ext4_crc32c m crc p size.
Proof.
  intros Hx. rewrite !ext4_crc32c_bits. f_equal. apply bytes_of_on. intros x Hx'. apply Hx. lia.
Qed.

Lemma bget_on m m' b i : ld8 m' (b + i / 8) = ld8 m (b + i / 8) -> bget m' b i = bget m b i.
Proof. unfold bget. by intros ->. Qed.

Lemma ld8_fset f m s v x : 0 <= f_len f -> x < s + f_off f \/ s + f_off f + f_len f <= x ->
  ld8 (fset f m s v) x = ld8 m x.
Proof. intros Hl Hx. unfold ld8. by rewrite fset_other. Qed.

Section layout.
Context `{Device}.
#[local] Notation sb := fs_sb.

(** ** Geometry *)

Definition groups (m : memory) : Z := ext4_block_group_cnt m sb.
Definition per_group (m : memory) : Z := fget sb_blocks_per_group m sb.
Definition desc_size (m : memory) : Z := ext4_sb_get_desc_size m sb.
Definition per_block (m : memory) : Z := ext4_sb_get_block_size m sb / desc_size m.
Definition desc_block (m : memory) (g : Z) : Z := default 0 (ext4_fs_get_descriptor_block m sb g (per_block m)).
Definition desc (m : memory) (g : Z) : Z := buf (desc_block m g) + (g mod per_block m) * desc_size m.
Definition bitmap (m : memory) (g : Z) : Z := ext4_bg_get_block_bitmap m (desc m g) sb.
Definition ibitmap (m : memory) (g : Z) : Z := ext4_bg_get_inode_bitmap m (desc m g) sb.

(** Bits of the two bitmaps of group [g]. *)
Definition used (m : memory) (g i : Z) : bool := bget m (buf (bitmap m g)) i.
Definition iused (m : memory) (g i : Z) : bool := bget m (buf (ibitmap m g)) i.

Definition gfree (m : memory) (g : Z) : Z := ext4_bg_get_free_blocks_count m (desc m g) sb.
Definition sbfree (m : memory) : Z := ext4_sb_get_free_blocks_cnt m sb.

(** The free counts of the superblock; every other byte of it is geometry. *)
Definition sb_counter (x : Z) : Prop := sb + 12 <= x < sb + 20 \/ sb + 344 <= x < sb + 348.
(** Addresses and flags of a descriptor. *)
Definition fixed (o : Z) : Prop := 0 <= o < 12 \/ 18 <= o < 20 \/ 32 <= o < 44.

Definition keeps (m m' : memory) : Prop :=
  (forall x, sb <= x < sb + 1024 -> ~ sb_counter x -> ld8 m' x = ld8 m x) /\
  (forall g o, 0 <= g < groups m -> fixed o -> o < desc_size m -> ld8 m' (desc m g + o) = ld8 m (desc m g + o)).

Record fs_ok (m : memory) : Prop := {
  ok_bsize : ext4_sb_get_block_size m sb = dev_bsize;
  ok_log : fget sb_log_block_size m sb <= 6;
  ok_desc_size : desc_size m = 32 \/ desc_size m = 64;
  ok_first : fget sb_first_data_block m sb <= 1;
  ok_per_group : 0 < per_group m <= 8 * dev_bsize;
  ok_per_group8 : per_group m mod 8 = 0;
  ok_narrow : desc_size m = 32 -> per_group m < 2 ^ 16;
  ok_total : 1 <= ext4_sb_get_blocks_cnt m sb < 2 ^ 32 - 2 ^ 20;
  ok_below : sb + 1024 <= dev_bufs;
  ok_descs g g' : 0 <= g < groups m -> 0 <= g' < groups m -> g <> g' -> desc_block m g = desc_block m g' ->
    g mod per_block m <> g' mod per_block m;
  ok_bitmap_desc g g' : 0 <= g < groups m -> 0 <= g' < groups m ->
    bitmap m g <> desc_block m g' /\ ibitmap m g <> desc_block m g';
  ok_bitmaps g g' : 0 <= g < groups m -> 0 <= g' < groups m ->
    (g <> g' -> bitmap m g <> bitmap m g' /\ ibitmap m g <> ibitmap m g') /\ bitmap m g <> ibitmap m g';
  ok_init g : 0 <= g < groups m ->
    ext4_bg_has_flag m (desc m g) EXT4_BLOCK_GROUP_BLOCK_UNINIT = false /\
    ext4_bg_has_flag m (desc m g) EXT4_BLOCK_GROUP_INODE_UNINIT = false;
}.

(** ** What a kept geometry keeps *)

Section kept.
Context (m m' : memory) (Hsb : forall x, sb <= x < sb + 1024 -> ~ sb_counter x -> ld8 m' x = ld8 m x).

Lemma kept_field f : 0 <= f_off f -> 0 <= f_len f -> f_off f + f_len f <= 1024 ->
  (f_off f + f_len f <= 12 \/ 20 <= f_off f) -> (f_off f + f_len f <= 344 \/ 348 <= f_off f) ->
  fget f m' sb = fget f m sb.
Proof.
  intros H0 H1 H2 H3 H4. apply fget_on; [done|]. intros x Hx. apply Hsb; [lia|]. unfold sb_counter. lia.
Qed.

Ltac kept := rewrite ?(kept_field sb_first_data_block), ?(kept_field sb_blocks_per_group),
  ?(kept_field sb_log_block_size), ?(kept_field sb_desc_size), ?(kept_field sb_blocks_count_lo),
  ?(kept_field sb_blocks_count_hi), ?(kept_field sb_features_incompatible), ?(kept_field sb_features_read_only),
  ?(kept_field sb_first_meta_bg), ?(kept_field sb_inodes_count), ?(kept_field sb_inodes_per_group),
  ?(kept_field sb_inode_size) by fld; try done.

Lemma kept_block_size : ext4_sb_get_block_size m' sb = ext4_sb_get_block_size m sb.
Proof. unfold ext4_sb_get_block_size. kept. Qed.
Lemma kept_desc_size : desc_size m' = desc_size m.
Proof. unfold desc_size, ext4_sb_get_desc_size. kept. Qed.
Lemma kept_per_block : per_block m' = per_block m.
Proof. unfold per_block. by rewrite kept_block_size, kept_desc_size. Qed.
Lemma kept_per_group : per_group m' = per_group m.
Proof. unfold per_group. kept. Qed.
Lemma kept_blocks_cnt : ext4_sb_get_blocks_cnt m' sb = ext4_sb_get_blocks_cnt m sb.
Proof. unfold ext4_sb_get_blocks_cnt. kept. Qed.
Lemma kept_groups : groups m' = groups m.
Proof. unfold groups, ext4_block_group_cnt. rewrite kept_blocks_cnt. kept. Qed.
Lemma kept_in_group g : ext4_blocks_in_group_cnt m' sb g = ext4_blocks_in_group_cnt m sb g.
Proof.
  unfold ext4_blocks_in_group_cnt. fold (groups m') (groups m). rewrite kept_blocks_cnt, kept_groups. kept.
Qed.
Lemma kept_inodes_in_group g : ext4_inodes_in_group_cnt m' sb g = ext4_inodes_in_group_cnt m sb g.
Proof. unfold ext4_inodes_in_group_cnt. fold (groups m') (groups m). rewrite kept_groups. kept. Qed.
Lemma kept_ro_com v : ext4_sb_feature_ro_com m' sb v = ext4_sb_feature_ro_com m sb v.
Proof. unfold ext4_sb_feature_ro_com. kept. Qed.
Lemma kept_incom v : ext4_sb_feature_incom m' sb v = ext4_sb_feature_incom m sb v.
Proof. unfold ext4_sb_feature_incom. kept. Qed.
Lemma kept_idx a : ext4_fs_addr_to_idx_bg m' sb a = ext4_fs_addr_to_idx_bg m sb a.
Proof. unfold ext4_fs_addr_to_idx_bg. kept. Qed.
Lemma kept_bgid a : ext4_balloc_get_bgid_of_block m' sb a = ext4_balloc_get_bgid_of_block m sb a.
Proof. unfold ext4_balloc_get_bgid_of_block. kept. Qed.
Lemma kept_first_of a : ext4_balloc_get_block_of_bgid m' sb a = ext4_balloc_get_block_of_bgid m sb a.
Proof. unfold ext4_balloc_get_block_of_bgid. kept. Qed.
Lemma kept_addr i g : ext4_fs_bg_idx_to_addr m' sb i g = ext4_fs_bg_idx_to_addr m sb i g.
Proof. unfold ext4_fs_bg_idx_to_addr. kept. Qed.
Lemma kept_descriptor g d : ext4_fs_get_descriptor_block m' sb g d = ext4_fs_get_descriptor_block m sb g d.
Proof.
  unfold ext4_fs_get_descriptor_block, ext4_sb_is_super_in_bg, ext4_fs_first_bg_block_no, ext4_sb_first_meta_bg.
  rewrite kept_ro_com, kept_incom. kept.
Qed.
Lemma kept_desc_block g : desc_block m' g = desc_block m g.
Proof. unfold desc_block. by rewrite kept_per_block, kept_descriptor. Qed.
Lemma kept_desc g : desc m' g = desc m g.
Proof. unfold desc. by rewrite kept_desc_block, kept_per_block, kept_desc_size. Qed.
Lemma kept_uuid x : sb + 104 <= x < sb + 120 -> ld8 m' x = ld8 m x.
Proof. intros Hx. apply Hsb; [lia|]. unfold sb_counter. lia. Qed.
End kept.

Section keeps.
Context (m m' : memory) (Hk : keeps m m') (Hds : desc_size m = 32 \/ desc_size m = 64).
Let Hsb := proj1 Hk.

Lemma kept_wide : desc_is_wide m' sb = desc_is_wide m sb.
Proof. unfold desc_is_wide. fold (desc_size m') (desc_size m). by rewrite (kept_desc_size m m' Hsb). Qed.

(** A field of a descriptor that is geometry. *)
Lemma kept_desc_field f g : 0 <= g < groups m -> 0 <= f_len f ->
  (forall o, f_off f <= o < f_off f + f_len f -> fixed o) -> f_off f + f_len f <= desc_size m ->
  fget f m' (desc m g) = fget f m (desc m g).
Proof.
  intros Hg Hl Hf Hd. apply fget_on; [done|]. intros x Hx.
  replace x with (desc m g + (x - desc m g)) by lia. apply (proj2 Hk); [done|apply Hf; lia|lia].
Qed.

Lemma kept_flag g v : 0 <= g < groups m -> ext4_bg_has_flag m' (desc m' g) v = ext4_bg_has_flag m (desc m g) v.
Proof.
  intros Hg. rewrite (kept_desc m m' Hsb). unfold ext4_bg_has_flag. rewrite kept_desc_field; [done|done|fld| |cbn; lia].
  unfold fixed. cbn. lia.
Qed.

Lemma kept_bitmap g : 0 <= g < groups m -> bitmap m' g = bitmap m g.
Proof.
  intros Hg. unfold bitmap, ext4_bg_get_block_bitmap. rewrite (kept_desc m m' Hsb). fold (desc_size m') (desc_size m).
  rewrite (kept_desc_size m m' Hsb). unfold EXT4_MIN_BLOCK_GROUP_DESCRIPTOR_SIZE.
  rewrite kept_desc_field by (done || fld || (unfold fixed; cbn; lia)).
  case_if; [|done]. by rewrite kept_desc_field by (done || fld || (unfold fixed; cbn; lia)).
Qed.

Lemma kept_ibitmap g : 0 <= g < groups m -> ibitmap m' g = ibitmap m g.
Proof.
  intros Hg. unfold ibitmap, ext4_bg_get_inode_bitmap. rewrite (kept_desc m m' Hsb). fold (desc_size m') (desc_size m).
  rewrite (kept_desc_size m m' Hsb). unfold EXT4_MIN_BLOCK_GROUP_DESCRIPTOR_SIZE.
  rewrite kept_desc_field by (done || fld || (unfold fixed; cbn; lia)).
  case_if; [|done]. by rewrite kept_desc_field by (done || fld || (unfold fixed; cbn; lia)).
Qed.
End keeps.

Lemma geometry_refl m : keeps m m.
Proof. by split. Qed.

Lemma geometry_trans m m1 m2 : keeps m m1 -> keeps m1 m2 -> keeps m m2.
Proof.
  intros [A1 B1] [A2 B2]. split.
  - intros x Hx Hc. by rewrite A2, A1.
  - intros g o Hg Hf Ho. rewrite <- (B1 g o Hg Hf Ho). rewrite <- (kept_desc m m1 A1). apply B2; [|done|].
    + by rewrite (kept_groups m m1 A1).
    + by rewrite (kept_desc_size m m1 A1).
Qed.

Lemma keeps_ok m m' : fs_ok m -> keeps m m' -> fs_ok m'.
Proof.
  intros Hok Hk. pose proof (proj1 Hk) as Hsb. destruct Hok as [A1 A2 A3 A4 A5 A6 A7 A8 A9 A10 A11 A12 A13].
  constructor.
  - by rewrite (kept_block_size m).
  - by rewrite (kept_field m m' Hsb) by fld.
  - by rewrite (kept_desc_size m).
  - by rewrite (kept_field m m' Hsb) by fld.
  - by rewrite (kept_per_group m).
  - by rewrite (kept_per_group m).
  - by rewrite (kept_per_group m), (kept_desc_size m).
  - by rewrite (kept_blocks_cnt m).
  - done.
  - intros g g'. rewrite (kept_groups m), !(kept_desc_block m m' Hsb), (kept_per_block m) by done. apply A10.
  - intros g g'. rewrite (kept_groups m), (kept_desc_block m m' Hsb) by done. intros Hg Hg'.
    rewrite (kept_bitmap m), (kept_ibitmap m) by done. by apply A11.
  - intros g g'. rewrite (kept_groups m) by done. intros Hg Hg'.
    rewrite !(kept_bitmap m m'), !(kept_ibitmap m m') by done. by apply A12.
  - intros g. rewrite (kept_groups m) by done. intros Hg. rewrite !(kept_flag m m') by done. by apply A13.
Qed.

(** ** Where things are *)

Section places.
Context (m : memory) (Hok : fs_ok m).

Lemma bsize_cases : dev_bsize = 1024 * 2 ^ fget sb_log_block_size m sb /\ 1024 <= dev_bsize <= 65536.
Proof.
  pose proof (fget_range sb_log_block_size m sb) as [Hl _]. pose proof (ok_log m Hok) as Hl'.
  rewrite <- (ok_bsize m Hok). unfold ext4_sb_get_block_size. rewrite shiftl_pow2 by lia.
  assert (1 <= 2 ^ fget sb_log_block_size m sb <= 2 ^ 6) by (split; [pose proof (Z.pow_pos_nonneg 2 (fget sb_log_block_size m sb)); lia|apply Z.pow_le_mono_r; lia]).
  rewrite uw_small by lia. lia.
Qed.

Lemma per_block_exact : per_block m * desc_size m = dev_bsize /\ 16 <= per_block m.
Proof.
  destruct bsize_cases as [E Hb]. unfold per_block. rewrite (ok_bsize m Hok).
  destruct (ok_desc_size m Hok) as [-> | ->].
  - split; [|apply Z.div_le_lower_bound; lia]. rewrite E. replace (1024 * _) with (2 ^ fget sb_log_block_size m sb * 32 * 32) by lia.
    by rewrite Z.div_mul by lia.
  - split; [|apply Z.div_le_lower_bound; lia]. rewrite E. replace (1024 * _) with (2 ^ fget sb_log_block_size m sb * 16 * 64) by lia.
    by rewrite Z.div_mul by lia.
Qed.

Lemma groups_range : 1 <= groups m < 2 ^ 32.
Proof.
  destruct (block_group_cnt_split m sb) as [Hn _]; [| | |exact Hn].
  - pose proof (ok_per_group m Hok). unfold per_group in *. lia.
  - apply (ok_total m Hok).
  - pose proof (ok_total m Hok). pose proof (ok_per_group m Hok) as Hp. unfold per_group in Hp. nia.
Qed.

Lemma descriptor_total g : 0 <= g < groups m ->
  ext4_fs_get_descriptor_block m sb g (per_block m) = Some (desc_block m g) /\ 0 <= desc_block m g.
Proof.
  intros Hg. pose proof groups_range. unfold desc_block, ext4_fs_get_descriptor_block. case_if.
  - split; [done|]. cbn. apply uw_nonneg. lia.
  - unfold ext4_sb_is_super_in_bg. case_if.
    + destruct (ext4_sb_sparse_ok g ltac:(lia)) as (b & -> & _). cbn. split; [done|]. apply uw_nonneg. lia.
    + cbn. split; [done|]. apply uw_nonneg. lia.
Qed.

Lemma desc_inside g : 0 <= g < groups m ->
  buf (desc_block m g) <= desc m g /\ desc m g + desc_size m <= buf (desc_block m g) + dev_bsize.
Proof.
  intros Hg. destruct per_block_exact as [E Hp]. unfold desc. pose proof (Z.mod_pos_bound g (per_block m) ltac:(lia)).
  destruct (ok_desc_size m Hok); nia.
Qed.

Lemma bitmap_nonneg g : 0 <= bitmap m g /\ 0 <= ibitmap m g.
Proof.
  unfold bitmap, ibitmap, ext4_bg_get_block_bitmap, ext4_bg_get_inode_bitmap.
  pose proof (fget_range bg_block_bitmap_lo m (desc m g)). pose proof (fget_range bg_inode_bitmap_lo m (desc m g)).
  split; case_if; try lia; apply Z.lor_nonneg; (split; [lia|apply uw_nonneg; lia]).
Qed.
End places.

Lemma buf_apart a b : 0 < dev_bsize -> a <> b -> buf a + dev_bsize <= buf b \/ buf b + dev_bsize <= buf a.
Proof. intros Hb Hne. unfold buf. nia. Qed.

Lemma buf_above a : 0 < dev_bsize -> 0 <= a -> dev_bufs <= buf a.
Proof. intros Hb Ha. unfold buf. nia. Qed.

(** Descriptors of different groups do not overlap. *)
Lemma descs_apart m g g' : fs_ok m -> 0 <= g < groups m -> 0 <= g' < groups m -> g <> g' ->
  desc m g + desc_size m <= desc m g' \/ desc m g' + desc_size m <= desc m g.
Proof.
  intros Hok Hg Hg' Hne. pose proof (bsize_cases m Hok) as [_ Hb].
  destruct (decide (desc_block m g = desc_block m g')) as [E|E].
  - pose proof (ok_descs m Hok g g' Hg Hg' Hne E). unfold desc. rewrite E. destruct (ok_desc_size m Hok) as [-> | ->]; lia.
  - pose proof (desc_inside m Hok g Hg). pose proof (desc_inside m Hok g' Hg').
    destruct (buf_apart _ _ ltac:(lia) E); lia.
Qed.

(** A bitmap does not overlap a descriptor. *)
Lemma bitmap_desc_apart m g g' : fs_ok m -> 0 <= g < groups m -> 0 <= g' < groups m ->
  (buf (bitmap m g) + dev_bsize <= desc m g' \/ desc m g' + desc_size m <= buf (bitmap m g)) /\
  (buf (ibitmap m g) + dev_bsize <= desc m g' \/ desc m g' + desc_size m <= buf (ibitmap m g)).
Proof.
  intros Hok Hg Hg'. pose proof (bsize_cases m Hok) as [_ Hb]. pose proof (desc_inside m Hok g' Hg') as Hd.
  destruct (ok_bitmap_desc m Hok g g' Hg Hg') as [E1 E2].
  destruct (buf_apart _ _ ltac:(lia) E1), (buf_apart _ _ ltac:(lia) E2); split; lia.
Qed.

Lemma desc_above m g : fs_ok m -> 0 <= g < groups m -> sb + 1024 <= desc m g.
Proof.
  intros Hok Hg. pose proof (bsize_cases m Hok) as [_ Hb]. pose proof (desc_inside m Hok g Hg).
  destruct (descriptor_total m Hok g Hg) as [_ Hn]. pose proof (buf_above _ ltac:(lia) Hn). pose proof (ok_below m Hok). lia.
Qed.

Lemma bitmap_above m g : fs_ok m -> sb + 1024 <= buf (bitmap m g) /\ sb + 1024 <= buf (ibitmap m g).
Proof.
  intros Hok. pose proof (bsize_cases m Hok) as [_ Hb]. destruct (bitmap_nonneg m g) as [H1 H2].
  pose proof (buf_above _ ltac:(lia) H1). pose proof (buf_above _ ltac:(lia) H2). pose proof (ok_below m Hok). lia.
Qed.

(** ** Group references *)

Definition same (m m' : memory) : Prop := forall x, ld8 m' x = ld8 m x.

Definition unchanged (s s' : ext4_fs) : Prop :=
  same (mem s) (mem s') /\ dirty s' = dirty s /\ held s' = held s /\ last_inode_bg_id s' = last_inode_bg_id s.

Lemma same_keeps m m' : same m m' -> keeps m m'.
Proof. intros Hs. by split. Qed.

Definition the_ref (m : memory) (g : Z) : ext4_block_group_ref := BgRef (desc_block m g) (desc m g) g false.

Lemma run_get_ref g s (Q : Z * ext4_block_group_ref -> ext4_fs -> Prop) : fs_ok (mem s) -> 0 <= g < groups (mem s) ->
  (forall r ref s', device_error r -> unchanged s s' -> Q (r, ref) s') ->
  (forall s', dev_open = true -> same (mem s) (mem s') -> dirty s' = dirty s -> held s' = desc_block (mem s) g :: held s ->
     last_inode_bg_id s' = last_inode_bg_id s -> Q (EOK, the_ref (mem s) g) s') ->
  run (ext4_fs_get_block_group_ref g) s Q.
Proof.
  intros Hok Hg Hf Ho. unfold ext4_fs_get_block_group_ref. step. step. step.
  apply (run_lift (desc_block (mem s) g)); [by apply descriptor_total|]. step. apply run_get.
  - intros r s' Hr E1 E2 E3 E4. rewrite (proj2 (Z.eqb_neq r EOK) (proj1 Hr)). cbn [negb]. step. apply Hf; [done|].
    split_and!; try done. intros x. by rewrite E1.
  - intros s' Hop E1 E2 E3 E4. cbn [negb]. rewrite (Z.eqb_refl EOK). cbn [negb]. steps.
    fold (desc_size (mem s)) (per_block (mem s)). fold (desc (mem s) g). rewrite E1.
    set (m1 := (ext4_fs_verify_bg_csum (mem s) sb g (desc (mem s) g)).1).
    assert (same (mem s) m1) as Hs.
    { intros x. unfold m1, ext4_fs_verify_bg_csum. case_if; [done|].
      pose proof (bg_checksum_pure (mem s) sb g (desc (mem s) g) x) as Ep.
      by destruct (ext4_fs_bg_checksum _ _ _ _). }
    assert (forall v, ext4_bg_has_flag m1 (desc (mem s) g) v = ext4_bg_has_flag (mem s) (desc (mem s) g) v) as Hfl.
    { intros v. unfold ext4_bg_has_flag. by rewrite (fget_ld8 _ _ _ _ Hs). }
    cbn [mem set_mem]. destruct (ok_init (mem s) Hok g Hg) as [F1 F2]. rewrite Hfl, F1. steps. cbn [negb]. steps.
    rewrite (Z.eqb_refl EOK). cbn [negb]. steps. cbn [mem set_mem]. rewrite Hfl, F2. steps. by apply Ho.
Qed.

(** The same, for a state whose memory reads like [m]. *)
Lemma run_ref m g s (Q : Z * ext4_block_group_ref -> ext4_fs -> Prop) : fs_ok m -> 0 <= g < groups m -> same m (mem s) ->
  (forall r ref s', device_error r -> unchanged s s' -> Q (r, ref) s') ->
  (forall s', dev_open = true -> same m (mem s') -> dirty s' = dirty s -> held s' = desc_block m g :: held s ->
     last_inode_bg_id s' = last_inode_bg_id s -> Q (EOK, the_ref m g) s') ->
  run (ext4_fs_get_block_group_ref g) s Q.
Proof.
  intros Hok Hg Hs Hf Ho. pose proof (same_keeps m (mem s) Hs) as Hk.
  apply run_get_ref; [by eapply keeps_ok|by rewrite (kept_groups m _ (proj1 Hk))|done|].
  intros s' Hop Hs' Hd' Hh' Hl'. unfold the_ref. rewrite (kept_desc_block m _ (proj1 Hk)), (kept_desc m _ (proj1 Hk)) in *.
  apply Ho; try done. intros x. by rewrite Hs', Hs.
Qed.

Lemma run_put_ref ref l s (Q : Z -> ext4_fs -> Prop) : dev_open = true -> held s = bgr_block ref :: l ->
  (let m := if bgr_dirty ref then put_bg_checksum (mem s) sb (bgr_index ref) (block_group ref) else mem s in
   let d := if bgr_dirty ref then {[ bgr_block ref ]} ∪ dirty s else dirty s in
   forall u, Q EOK (Fs m d l (clock s) (last_inode_bg_id s) u)) ->
  run (ext4_fs_put_block_group_ref ref) s Q.
Proof.
  intros Hop Hh HQ. unfold ext4_fs_put_block_group_ref. step. destruct (bgr_dirty ref).
  - steps. apply run_dirty; [cbn; rewrite Hh; left|]. apply (run_set _ l); [done|done|apply HQ].
  - steps. apply (run_set _ l); [done|done|]. destruct s. apply HQ.
Qed.
End layout.

(** ** Block numbers and groups *)

Section numbering.
Context (m : memory) (s : Z).
#[local] Notation n := (ext4_block_group_cnt m s).
#[local] Notation per := (fget sb_blocks_per_group m s).
#[local] Notation total := (ext4_sb_get_blocks_cnt m s).

(** The number of the first block of group 0, as the code takes it. *)
Definition first_block : Z := if c_true (fget sb_first_data_block m s) then 1 else 0.

Definition group_of (b : Z) : Z * Z := (ext4_balloc_get_bgid_of_block m s b, ext4_fs_addr_to_idx_bg m s b).
Definition block_of (p : Z * Z) : Z := ext4_fs_bg_idx_to_addr m s p.2 p.1.
Definition in_groups (p : Z * Z) : Prop := 0 <= p.1 < n /\ 0 <= p.2 < ext4_blocks_in_group_cnt m s p.1.

Lemma first_block_range : 0 <= first_block <= 1.
Proof. unfold first_block. case_if; lia. Qed.

Lemma group_of_eq b : 1 <= per -> first_block <= b < 2 ^ 32 + first_block ->
  group_of b = ((b - first_block) / per, (b - first_block) mod per).
Proof.
  intros Hp Hb. unfold group_of, ext4_balloc_get_bgid_of_block, ext4_fs_addr_to_idx_bg.
  pose proof (fget_range sb_blocks_per_group m s) as Hpr. change (2 ^ _) with (2 ^ 32) in Hpr.
  assert ((if c_true (fget sb_first_data_block m s) && c_true b then b - 1 else b) = b - first_block) as ->.
  { unfold first_block in *. destruct (c_true (fget sb_first_data_block m s)); cbn [andb]; [|lia]. unfold c_true.
    destruct (b =? 0) eqn:E; zb; cbn [negb]; lia. }
  pose proof (Z.mod_pos_bound (b - first_block) per ltac:(lia)). rewrite !uw_small; [done|lia|].
  split; [apply Z.div_pos; lia|]. apply Z.div_lt_upper_bound; [lia|]. nia.
Qed.

Lemma block_of_eq g i : 0 <= g -> 0 <= i -> per * g + i + first_block < 2 ^ 32 -> 0 <= per -> block_of (g, i) = per * g + i + first_block.
Proof.
  intros Hg Hi Hb Hp. unfold block_of, ext4_fs_bg_idx_to_addr, first_block in *. cbn [fst snd].
  destruct (c_true (fget sb_first_data_block m s)); rewrite ?(uw_small 32 (i + 1)), (uw_small 32 (per * g)), uw_small by nia; lia.
Qed.

(** C13. In a checked superblock with fewer than 2^32 blocks, every block from the first
    on has a group and an index in it, within the counts, from which the code
    computes its number again; and the blocks of the groups are distinct numbers.
    They are the blocks of the file system when it starts at block 0; when it starts at
    block 1, the count of the last group includes the number behind the end. *)
Theorem groups_partition :
  ext4_sb_check m s = true -> total + first_block < 2 ^ 32 ->
  (forall b, first_block <= b < total -> in_groups (group_of b) /\ block_of (group_of b) = b) /\
  (forall p, in_groups p -> group_of (block_of p) = p /\ first_block <= block_of p < total + first_block) /\
  (forall b, first_block <= b < total + first_block -> exists p, in_groups p /\ block_of p = b).
Proof.
  intros Hc Hmax. pose proof (ext4_sb_check_facts m s Hc) as (_ & _ & Ht & Hp & _). pose proof first_block_range as Hf.
  destruct (blocks_in_group_cases m s Hp Ht) as (Hfull & Hlast & Hs); [nia|].
  destruct (block_group_cnt_split m s Hp Ht) as (Hn & _); [nia|].
  assert (Hup : forall b, first_block <= b < total + first_block -> in_groups (group_of b) /\ block_of (group_of b) = b).
  { intros b Hb. rewrite group_of_eq by lia. set (g := (b - first_block) / per). set (i := (b - first_block) mod per).
    pose proof (Z.mod_pos_bound (b - first_block) per ltac:(lia)) as Hi. pose proof (Z.div_mod (b - first_block) per ltac:(lia)) as Hd.
    fold g i in Hi, Hd. assert (0 <= g) by (apply Z.div_pos; lia). assert (g < n) by nia.
    split; [|rewrite block_of_eq by nia; lia]. split; [done|]. cbn [fst snd]. destruct (decide (g = n - 1)) as [->|]; [nia|].
    rewrite Hfull by lia. lia. }
  split; [|split].
  - intros b Hb. apply Hup. lia.
  - intros [g i] [Hg Hi]. cbn [fst snd] in *. assert (i < per /\ per * g + i < total) as [Hi' Hlt].
    { destruct (decide (g = n - 1)) as [->|]; [split; nia|]. rewrite Hfull in Hi by lia. split; [lia|nia]. }
    rewrite block_of_eq by nia. rewrite group_of_eq by nia. replace (per * g + i + first_block - first_block) with (i + g * per) by lia.
    rewrite Z.div_add, Z.mod_add, Z.div_small, Z.mod_small by lia. split; [f_equal; lia|nia].
  - intros b Hb. exists (group_of b). by apply Hup.
Qed.
End numbering.

Lemma groups_partition_witness :
  in_groups sample_sb 0 (group_of sample_sb 0 99999) /\ group_of sample_sb 0 99999 = (3, 1695) /\ block_of sample_sb 0 (3, 1695) = 99999.
Proof.
  destruct (groups_partition sample_sb 0 ltac:(vm_compute; reflexivity) ltac:(vm_compute; reflexivity)) as (H & _).
  destruct (H 99999) as [Hi Hb]; [vm_compute; intuition congruence|]. split; [exact Hi|]. split; [vm_compute; reflexivity|exact Hb].
Defined.
