(* ===== verification/Ext4Balloc.v ===== *)
(** lwext4, block allocation: [src/ext4_balloc.c] without the journal. *)
From S2P Require Import Prelude Memory Ext4Errno Ext4Bitmap Ext4Layout Ext4Super Ext4BlockGroup Ext4Inode Ext4Store.
From S2P Require Import Ext4Fs.
#[local] Open Scope Z_scope.
#[local] Open Scope cint_scope.

(** ** Model *)

Definition EXT4_INODE_BLOCK_SIZE : Z := 512.

Record ext4_inode_ref := InodeRef {
  ir_block : Z;
  ir_inode : Z;
  ir_index : Z;
  ir_dirty : bool;
}.

Definition dirty_inode (r : ext4_inode_ref) : ext4_inode_ref := InodeRef (ir_block r) (ir_inode r) (ir_index r) true.

Section balloc.
Context `{Device}.
#[local] Notation sb := fs_sb.

(** The counters of the superblock, the inode and the group after [cnt] blocks
    became free, or one block became used ([cnt] is -1). *)
Definition count_blocks (inode_ref : ext4_inode_ref) (bg : Z) (cnt : Z) : M unit :=
  update (fun m => ext4_sb_set_free_blocks_cnt m sb (u64 (ext4_sb_get_free_blocks_cnt m sb + cnt)));;
  m ← look;
  let block_size := ext4_sb_get_block_size m sb in
  let ino_blocks := ext4_inode_get_blocks_count m sb (ir_inode inode_ref) in
  let sectors := block_size / EXT4_INODE_BLOCK_SIZE in
  let ino_blocks := u64 (if cnt <? 0 then ino_blocks + sectors else ino_blocks - u32 (cnt * sectors)) in
  update (fun m => (ext4_inode_set_blocks_count m sb (ir_inode inode_ref) ino_blocks).1);;
  m ← look;
  let free_blocks := u32 (ext4_bg_get_free_blocks_count m bg sb + cnt) in
  update (fun m => ext4_bg_set_free_blocks_count m bg sb free_blocks).

(** Sets bit [idx] of the bitmap in block [b], its checksum, and releases it. *)
Definition take_bit (bg b idx : Z) : M Z :=
  update (fun m => ext4_bmap_bit_set m (buf b) idx);;
  update (fun m => ext4_balloc_set_bitmap_csum m sb bg (buf b));;
  ext4_trans_set_block_dirty b;;
  ext4_block_set b.

Definition ext4_balloc_free_block (inode_ref : ext4_inode_ref) (baddr : Z) : M (Z * ext4_inode_ref) :=
  m ← look;
  let bg_id := ext4_balloc_get_bgid_of_block m sb baddr in
  let index_in_group := ext4_fs_addr_to_idx_bg m sb baddr in
  '(rc, bg_ref) ← ext4_fs_get_block_group_ref bg_id;
  if negb (rc =? EOK) then mret (rc, inode_ref)
  else
    m ← look;
    let bg := block_group bg_ref in
    let bitmap_block_addr := ext4_bg_get_block_bitmap m bg sb in
    rc ← ext4_trans_block_get bitmap_block_addr;
    if negb (rc =? EOK) then ext4_fs_put_block_group_ref bg_ref;; mret (rc, inode_ref)
    else
      update (fun m => ext4_bmap_bit_clr m (buf bitmap_block_addr) index_in_group);;
      update (fun m => ext4_balloc_set_bitmap_csum m sb bg (buf bitmap_block_addr));;
      ext4_trans_set_block_dirty bitmap_block_addr;;
      rc ← ext4_block_set bitmap_block_addr;
      if negb (rc =? EOK) then ext4_fs_put_block_group_ref bg_ref;; mret (rc, inode_ref)
      else
        count_blocks inode_ref bg 1;;
        ext4_bcache_invalidate_lba baddr 1;;
        rc ← ext4_fs_put_block_group_ref (dirty_ref bg_ref);
        mret (rc, dirty_inode inode_ref).

(** [while (bg_first <= bg_last)]: the status, and what is left of [count]. *)
Fixpoint free_loop (fuel : nat) (inode_ref : ext4_inode_ref) (bg_first bg_last first count : Z)
    : M (bool * Z * Z * ext4_inode_ref) :=
  match fuel with
  | O => stuck
  | S fuel =>
      if bg_first <=? bg_last then
        '(rc, bg_ref) ← ext4_fs_get_block_group_ref bg_first;
        if negb (rc =? EOK) then mret (true, rc, count, inode_ref)
        else
          m ← look;
          let bg := block_group bg_ref in
          let idx_in_bg_first := ext4_fs_addr_to_idx_bg m sb first in
          let bitmap_blk := ext4_bg_get_block_bitmap m bg sb in
          rc ← ext4_trans_block_get bitmap_blk;
          if negb (rc =? EOK) then ext4_fs_put_block_group_ref bg_ref;; mret (true, rc, count, inode_ref)
          else
            let free_cnt := u32 (ext4_sb_get_block_size m sb * 8 - idx_in_bg_first) in
            let free_cnt := if free_cnt <? count then free_cnt else count in
            m ← look;
            m ← lift (ext4_bmap_bits_free m (buf bitmap_blk) idx_in_bg_first free_cnt);
            update (fun _ => m);;
            update (fun m => ext4_balloc_set_bitmap_csum m sb bg (buf bitmap_blk));;
            ext4_trans_set_block_dirty bitmap_blk;;
            let count := count - free_cnt in
            let first := u64 (first + free_cnt) in
            rc ← ext4_block_set bitmap_blk;
            if negb (rc =? EOK) then ext4_fs_put_block_group_ref bg_ref;; mret (true, rc, count, inode_ref)
            else
              count_blocks inode_ref bg free_cnt;;
              rc ← ext4_fs_put_block_group_ref (dirty_ref bg_ref);
              let inode_ref := dirty_inode inode_ref in
              if negb (rc =? EOK) then mret (false, rc, count, inode_ref)
              else free_loop fuel inode_ref (u32 (bg_first + 1)) bg_last first count
      else mret (false, EOK, count, inode_ref)
  end.

(** [fuel] counts block groups. *)
Definition ext4_balloc_free_blocks (fuel : nat) (inode_ref : ext4_inode_ref) (first count : Z)
    : M (Z * ext4_inode_ref) :=
  m ← look;
  let blk_cnt := count in
  let bg_first := ext4_balloc_get_bgid_of_block m sb first in
  let bg_last := ext4_balloc_get_bgid_of_block m sb (u64 (u64 (first + count) - 1)) in
  '(returned, rc, count, inode_ref) ← free_loop fuel inode_ref bg_first bg_last first count;
  if (returned : bool) then mret (rc, inode_ref)
  else
    ext4_bcache_invalidate_lba first blk_cnt;;
    if negb (count =? 0) then stuck else mret (rc, inode_ref).

(** [for (tmp_idx = idx_in_bg + 1; tmp_idx < end_idx; ++tmp_idx)], the first
    clear bit of [n]. *)
Fixpoint near_loop (n : nat) (m : memory) (bitmap tmp_idx : Z) : option Z :=
  match n with
  | O => None
  | S n => if ext4_bmap_is_bit_clr m bitmap tmp_idx then Some tmp_idx else near_loop n m bitmap (tmp_idx + 1)
  end.

(** How the search of a group ends: with a return, with a block, or without. *)
Inductive attempt :=
  | Failed (r : Z)
  | Success (bg_ref : ext4_block_group_ref) (alloc : Z)
  | Nothing (bg_ref : ext4_block_group_ref).

(** After [take_bit] of bit [idx]. *)
Definition taken (bg_ref : ext4_block_group_ref) (b idx bg_id : Z) : M attempt :=
  r ← take_bit (block_group bg_ref) b idx;
  if negb (r =? EOK) then ext4_fs_put_block_group_ref bg_ref;; mret (Failed r)
  else m ← look; mret (Success bg_ref (ext4_fs_bg_idx_to_addr m sb idx bg_id)).

(** The group of the goal, up to the label [goal_failed]. *)
Definition alloc_near_goal (bg_id idx_in_bg : Z) : M attempt :=
  '(r, bg_ref) ← ext4_fs_get_block_group_ref bg_id;
  if negb (r =? EOK) then mret (Failed r)
  else
    m ← look;
    let bg := block_group bg_ref in
    let free_blocks := ext4_bg_get_free_blocks_count m bg sb in
    if free_blocks =? 0 then mret (Nothing bg_ref)
    else
      let first_in_bg := ext4_balloc_get_block_of_bgid m sb (bgr_index bg_ref) in
      let first_in_bg_index := ext4_fs_addr_to_idx_bg m sb first_in_bg in
      let idx_in_bg := if idx_in_bg <? first_in_bg_index then first_in_bg_index else idx_in_bg in
      let bmp_blk_adr := ext4_bg_get_block_bitmap m bg sb in
      r ← ext4_trans_block_get bmp_blk_adr;
      if negb (r =? EOK) then ext4_fs_put_block_group_ref bg_ref;; mret (Failed r)
      else
        m ← look;
        if ext4_bmap_is_bit_clr m (buf bmp_blk_adr) idx_in_bg then taken bg_ref bmp_blk_adr idx_in_bg bg_id
        else
          let blk_in_bg := ext4_blocks_in_group_cnt m sb bg_id in
          let end_idx := u32 (idx_in_bg + 63) .& u32 (Z.lnot 63) in
          let end_idx := if blk_in_bg <? end_idx then blk_in_bg else end_idx in
          match near_loop (Z.to_nat (end_idx - u32 (idx_in_bg + 1))) m (buf bmp_blk_adr) (u32 (idx_in_bg + 1)) with
          | Some tmp_idx => taken bg_ref bmp_blk_adr tmp_idx bg_id
          | None =>
              '(r, rel_blk_idx) ← lift (ext4_bmap_bit_find_clr m (buf bmp_blk_adr) idx_in_bg blk_in_bg 0);
              if r =? EOK then taken bg_ref bmp_blk_adr rel_blk_idx bg_id
              else
                r ← ext4_block_set bmp_blk_adr;
                if negb (r =? EOK) then ext4_fs_put_block_group_ref bg_ref;; mret (Failed r)
                else mret (Nothing bg_ref)
          end.

(** One turn of the loop over the other groups, up to the label [next_group]. *)
Definition alloc_in_group (bgid : Z) : M attempt :=
  '(r, bg_ref) ← ext4_fs_get_block_group_ref bgid;
  if negb (r =? EOK) then mret (Failed r)
  else
    m ← look;
    let bg := block_group bg_ref in
    let free_blocks := ext4_bg_get_free_blocks_count m bg sb in
    if free_blocks =? 0 then mret (Nothing bg_ref)
    else
      let bmp_blk_adr := ext4_bg_get_block_bitmap m bg sb in
      r ← ext4_trans_block_get bmp_blk_adr;
      if negb (r =? EOK) then ext4_fs_put_block_group_ref bg_ref;; mret (Failed r)
      else
        m ← look;
        let first_in_bg := ext4_balloc_get_block_of_bgid m sb bgid in
        let idx_in_bg := ext4_fs_addr_to_idx_bg m sb first_in_bg in
        let blk_in_bg := ext4_blocks_in_group_cnt m sb bgid in
        '(r, rel_blk_idx) ← lift (ext4_bmap_bit_find_clr m (buf bmp_blk_adr) idx_in_bg blk_in_bg 0);
        if r =? EOK then taken bg_ref bmp_blk_adr rel_blk_idx bgid
        else
          r ← ext4_block_set bmp_blk_adr;
          if negb (r =? EOK) then ext4_fs_put_block_group_ref bg_ref;; mret (Failed r)
          else mret (Nothing bg_ref).

(** From the label [success] on: the status and the block. *)
Definition alloc_success (inode_ref : ext4_inode_ref) (bg_ref : ext4_block_group_ref) (alloc : Z)
    : M (Z * Z * ext4_inode_ref) :=
  count_blocks inode_ref (block_group bg_ref) (-1);;
  r ← ext4_fs_put_block_group_ref (dirty_ref bg_ref);
  mret (r, alloc, dirty_inode inode_ref).

(** [while (count > 0)] *)
Fixpoint groups_loop (count : nat) (inode_ref : ext4_inode_ref) (bgid block_group_count : Z)
    : M (Z * Z * ext4_inode_ref) :=
  match count with
  | O => mret (ENOSPC, 0, inode_ref)
  | S count =>
      a ← alloc_in_group bgid;
      match a with
      | Failed r => mret (r, 0, inode_ref)
      | Success bg_ref alloc => alloc_success inode_ref bg_ref alloc
      | Nothing bg_ref =>
          r ← ext4_fs_put_block_group_ref bg_ref;
          if negb (r =? EOK) then mret (r, 0, inode_ref)
          else groups_loop count inode_ref (u32 (bgid + 1) mod block_group_count) block_group_count
      end
  end.

(** The status, [*fblock] (0 where the code leaves it alone) and the inode. *)
Definition ext4_balloc_alloc_block (inode_ref : ext4_inode_ref) (goal : Z) : M (Z * Z * ext4_inode_ref) :=
  m ← look;
  let bg_id := ext4_balloc_get_bgid_of_block m sb goal in
  let idx_in_bg := ext4_fs_addr_to_idx_bg m sb goal in
  a ← alloc_near_goal bg_id idx_in_bg;
  match a with
  | Failed r => mret (r, 0, inode_ref)
  | Success bg_ref alloc => alloc_success inode_ref bg_ref alloc
  | Nothing bg_ref =>
      r ← ext4_fs_put_block_group_ref bg_ref;
      if negb (r =? EOK) then mret (r, 0, inode_ref)
      else
        m ← look;
        let block_group_count := ext4_block_group_cnt m sb in
        groups_loop (Z.to_nat block_group_count) inode_ref (u32 (bg_id + 1) mod block_group_count) block_group_count
  end.

(** The status, [*free] and the inode. *)
Definition ext4_balloc_try_alloc_block (inode_ref : ext4_inode_ref) (baddr : Z) : M (Z * bool * ext4_inode_ref) :=
  m ← look;
  let bgid := ext4_balloc_get_bgid_of_block m sb baddr in
  let index_in_group := ext4_fs_addr_to_idx_bg m sb baddr in
  '(rc, bg_ref) ← ext4_fs_get_block_group_ref bgid;
  if negb (rc =? EOK) then mret (rc, false, inode_ref)
  else
    m ← look;
    let bg := block_group bg_ref in
    let bmp_blk_addr := ext4_bg_get_block_bitmap m bg sb in
    rc ← ext4_trans_block_get bmp_blk_addr;
    if negb (rc =? EOK) then ext4_fs_put_block_group_ref bg_ref;; mret (rc, false, inode_ref)
    else
      m ← look;
      let free := ext4_bmap_is_bit_clr m (buf bmp_blk_addr) index_in_group in
      (if free then
         update (fun m => ext4_bmap_bit_set m (buf bmp_blk_addr) index_in_group);;
         update (fun m => ext4_balloc_set_bitmap_csum m sb bg (buf bmp_blk_addr));;
         ext4_trans_set_block_dirty bmp_blk_addr
       else mret tt);;
      rc ← ext4_block_set bmp_blk_addr;
      if negb (rc =? EOK) then ext4_fs_put_block_group_ref bg_ref;; mret (rc, free, inode_ref)
      else if negb free then
        rc ← ext4_fs_put_block_group_ref bg_ref; mret (rc, free, inode_ref)
      else
        count_blocks inode_ref bg (-1);;
        rc ← ext4_fs_put_block_group_ref (dirty_ref bg_ref);
        mret (rc, free, dirty_inode inode_ref).
End balloc.
