(* ===== verification/Ext4File.v ===== *)
(** lwext4, operations on one file.

    The functions that work on an inode get a [struct ext4_inode_ref] and mark it
    when they change the inode, which the caller writes back later.  [F] is the
    monad of such functions over the file system's [M]. *)
From S2P Require Import Prelude Memory Ext4Errno Ext4Layout Ext4Super Ext4BlockGroup Ext4Store Ext4Fs Ext4Balloc.
#[local] Open Scope Z_scope.

(** ** Model *)

Definition F (A : Type) : Type := ext4_inode_ref -> M (A * ext4_inode_ref).

#[global] Instance F_ret : MRet F := fun A x r => mret (x, r).
#[global] Instance F_bind : MBind F := fun A B k c r => '(x, r) ← c r; k x r.
#[global] Typeclasses Opaque F.

(** A function that does not depend on the inode, and one that gets it. *)
Definition up {A} (c : M A) : F A := fun r => x ← c; mret (x, r).
Definition see : F memory := up look.
Definition write (f : memory -> memory) : F unit := up (update f).
Definition need {A} (o : option A) : F A := up (lift o).
Definition crash {A} : F A := up stuck.
Definition inode_ref : F ext4_inode_ref := fun r => mret (r, r).
(** [inode_ref->dirty = true] *)
Definition touch : F unit := fun r => mret (tt, dirty_inode r).

Section file.
Context `{Device}.
#[local] Notation sb := fs_sb.

Definition alloc_block (goal : Z) : F (Z * Z) := fun r =>
  '(rc, fblock, r) ← ext4_balloc_alloc_block r goal; mret ((rc, fblock), r).

(** The groups that [count] blocks from [first] on touch, and one turn more. *)
Definition free_fuel (m : memory) (first count : Z) : nat :=
  S (S (Z.to_nat (ext4_balloc_get_bgid_of_block m sb (u64 (u64 (first + count) - 1)) -
                  ext4_balloc_get_bgid_of_block m sb first))).

Definition free_blocks (first count : Z) : F Z := fun r =>
  m ← look; ext4_balloc_free_blocks (free_fuel m first count) r first count.

Definition ext4_fs_inode_to_goal_block : F Z :=
  r ← inode_ref;
  m ← see;
  mret (u32 (ir_index r - 1) / fget sb_inodes_per_group m sb).
End file.

(** ** Total correctness *)

Definition runf {A} (c : F A) (r : ext4_inode_ref) (s : ext4_fs) (Q : A -> ext4_inode_ref -> ext4_fs -> Prop) : Prop :=
  run (c r) s (fun p s' => Q p.1 p.2 s').

Section rules.
Context {A B : Type}.
Implicit Types (r : ext4_inode_ref) (s : ext4_fs).

Lemma runf_ret (x : A) r s (Q : A -> ext4_inode_ref -> ext4_fs -> Prop) : Q x r s -> runf (mret x) r s Q.
Proof. intros HQ. by apply run_ret. Qed.

Lemma runf_bind (c : F A) (k : A -> F B) r s Q :
  runf c r s (fun x r s => runf (k x) r s Q) -> runf (c ≫= k) r s Q.
Proof. intros HQ. apply run_bind. eapply run_mono; [exact HQ|]. by intros [x r'] s' Hk. Qed.

Lemma runf_mono (c : F A) r s (P Q : A -> ext4_inode_ref -> ext4_fs -> Prop) :
  runf c r s P -> (forall x r' s', P x r' s' -> Q x r' s') -> runf c r s Q.
Proof. intros HP H. eapply run_mono; [exact HP|]. intros [x r'] s'. apply H. Qed.

Lemma runf_up (c : M A) r s (Q : A -> ext4_inode_ref -> ext4_fs -> Prop) :
  run c s (fun x s' => Q x r s') -> runf (up c) r s Q.
Proof. intros HQ. apply run_bind. eapply run_mono; [exact HQ|]. intros x s' Hx. by apply run_ret. Qed.

Lemma runf_need (x : A) o r s (Q : A -> ext4_inode_ref -> ext4_fs -> Prop) :
  o = Some x -> Q x r s -> runf (need o) r s Q.
Proof. intros Ho HQ. apply runf_up. by eapply run_lift. Qed.
End rules.

Lemma runf_see r s (Q : memory -> ext4_inode_ref -> ext4_fs -> Prop) : Q (mem s) r s -> runf see r s Q.
Proof. intros HQ. by apply runf_up, run_look. Qed.

Lemma runf_write f r s (Q : unit -> ext4_inode_ref -> ext4_fs -> Prop) :
  Q tt r (set_mem s (f (mem s))) -> runf (write f) r s Q.
Proof. intros HQ. by apply runf_up, run_update. Qed.

Lemma runf_ref r s (Q : ext4_inode_ref -> ext4_inode_ref -> ext4_fs -> Prop) : Q r r s -> runf inode_ref r s Q.
Proof. intros HQ. by apply run_ret. Qed.

Lemma runf_touch r s (Q : unit -> ext4_inode_ref -> ext4_fs -> Prop) : Q tt (dirty_inode r) s -> runf touch r s Q.
Proof. intros HQ. by apply run_ret. Qed.

Ltac fstep :=
  lazymatch goal with
  | |- runf (mbind _ _) _ _ _ => apply runf_bind
  | |- runf (mret _) _ _ _ => apply runf_ret
  | |- runf see _ _ _ => apply runf_see
  | |- runf (write _) _ _ _ => apply runf_write
  | |- runf inode_ref _ _ _ => apply runf_ref
  | |- runf touch _ _ _ => apply runf_touch
  end; cbv beta.
Ltac fsteps := repeat fstep.
