(* ===== verification/Ext4Extent.v ===== *)
(** lwext4, extent trees: [src/ext4_extent.c] without its debug output.

    A node of the tree is a header followed by entries of 12 bytes, extents in
    the leaves and indexes above them; the root is in the inode, the other nodes
    fill a block each.  Nodes are read and written in the memory of the buffers,
    through the addresses of headers and entries; an extent that is a local
    variable of the code is a record.  The array of [struct ext4_extent_path] is a
    list, empty for the null pointer. *)
From stdpp Require Import strings.
From S2P Require Import Prelude Memory Ext4Errno Ext4Crc Ext4Layout Ext4Super Ext4BlockGroup Ext4Inode Ext4Store.
From S2P Require Import Ext4Fs Ext4Balloc Ext4File.
#[local] Open Scope string_scope.
#[local] Open Scope Z_scope.
#[local] Open Scope cint_scope.

(** ** Structures *)

(** [struct ext4_extent_header], [struct ext4_extent], [struct ext4_extent_index] *)
Definition eh_layout : list (string * Z) :=
  [("magic", 2); ("entries_count", 2); ("max_entries_count", 2); ("depth", 2); ("generation", 4)].
Definition ee_layout : list (string * Z) := [("first_block", 4); ("block_count", 2); ("start_hi", 2); ("start_lo", 4)].
Definition ei_layout : list (string * Z) := [("first_block", 4); ("leaf_lo", 4); ("leaf_hi", 2); ("padding", 2)].

Definition eh_magic : field := Eval vm_compute in field_of eh_layout "magic".
Definition eh_entries_count : field := Eval vm_compute in field_of eh_layout "entries_count".
Definition eh_max_entries_count : field := Eval vm_compute in field_of eh_layout "max_entries_count".
Definition eh_depth : field := Eval vm_compute in field_of eh_layout "depth".
Definition eh_generation : field := Eval vm_compute in field_of eh_layout "generation".
Definition ee_first_block : field := Eval vm_compute in field_of ee_layout "first_block".
Definition ee_block_count : field := Eval vm_compute in field_of ee_layout "block_count".
Definition ee_start_hi : field := Eval vm_compute in field_of ee_layout "start_hi".
Definition ee_start_lo : field := Eval vm_compute in field_of ee_layout "start_lo".
Definition ei_first_block : field := Eval vm_compute in field_of ei_layout "first_block".
Definition ei_leaf_lo : field := Eval vm_compute in field_of ei_layout "leaf_lo".
Definition ei_leaf_hi : field := Eval vm_compute in field_of ei_layout "leaf_hi".
Definition et_checksum : field := Field 0 4.

Definition sizeof_eh : Z := Eval vm_compute in struct_size eh_layout.
Definition sizeof_ee : Z := Eval vm_compute in struct_size ee_layout.
Definition sizeof_ei : Z := Eval vm_compute in struct_size ei_layout.

Definition EXT4_EXTENT_MAGIC : Z := 0xF30A.
Definition EXT_INIT_MAX_LEN : Z := 0x8000.
Definition EXT_UNWRITTEN_MAX_LEN : Z := 0x7FFF.
Definition EXT4_EXT_MARK_UNWRIT1 : Z := 0x02.
Definition EXT4_EXT_MARK_UNWRIT2 : Z := 0x04.
Definition EXT4_EXT_NO_COMBINE : Z := 0x20.
Definition EXT_MAX_BLOCKS : Z := 0xFFFFFFFF.

(** [struct ext4_extent] by value. *)
Record ext4_extent := Extent {
  first_block : Z;
  block_count : Z;
  start_hi : Z;
  start_lo : Z;
}.

Definition load_extent (m : memory) (a : Z) : ext4_extent :=
  Extent (fget ee_first_block m a) (fget ee_block_count m a) (fget ee_start_hi m a) (fget ee_start_lo m a).

Record ext4_extent_path := Path {
  p_block : Z;
  p_blk : ext4_block;
  p_depth : Z;
  maxdepth : Z;
  header : Z;
  index : Z;
  extent : Z;
}.

Definition zero_path : ext4_extent_path := Path 0 EXT4_BLOCK_ZERO 0 0 0 0 0.

Definition with_p_block (p : ext4_extent_path) (v : Z) := Path v (p_blk p) (p_depth p) (maxdepth p) (header p) (index p) (extent p).
Definition with_blk (p : ext4_extent_path) (v : ext4_block) := Path (p_block p) v (p_depth p) (maxdepth p) (header p) (index p) (extent p).
Definition with_depth (p : ext4_extent_path) (v : Z) := Path (p_block p) (p_blk p) v (maxdepth p) (header p) (index p) (extent p).
Definition with_header (p : ext4_extent_path) (v : Z) := Path (p_block p) (p_blk p) (p_depth p) (maxdepth p) v (index p) (extent p).
Definition with_index (p : ext4_extent_path) (v : Z) := Path (p_block p) (p_blk p) (p_depth p) (maxdepth p) (header p) v (extent p).
Definition with_extent (p : ext4_extent_path) (v : Z) := Path (p_block p) (p_blk p) (p_depth p) (maxdepth p) (header p) (index p) v.

(** [path[i]] *)
Definition path_at (path : list ext4_extent_path) (i : Z) : option ext4_extent_path :=
  if i <? 0 then None else path !! Z.to_nat i.
Definition path_put (path : list ext4_extent_path) (i : Z) (p : ext4_extent_path) : list ext4_extent_path :=
  <[Z.to_nat i := p]> path.

(** ** Entries *)

Definition EXT_FIRST (h : Z) : Z := h + sizeof_eh.
Definition EXT_LAST (m : memory) (h : Z) : Z := EXT_FIRST h + sizeof_ee * fget eh_entries_count m h - sizeof_ee.
Definition EXT_MAX (m : memory) (h : Z) : Z := EXT_FIRST h + sizeof_ee * fget eh_max_entries_count m h - sizeof_ee.
Definition EXT4_EXTENT_TAIL_OFFSET (m : memory) (h : Z) : Z := sizeof_eh + sizeof_ee * fget eh_max_entries_count m h.
Definition EXT_HAS_FREE_INDEX (m : memory) (p : ext4_extent_path) : bool :=
  fget eh_entries_count m (header p) <? fget eh_max_entries_count m (header p).
(** [m - l] for pointers to entries. *)
Definition entries_from (l m : Z) : Z := (m - l) / sizeof_ee.

Definition IN_RANGE (b first len : Z) : bool := (first <=? b) && (b <=? u32 (first + len - 1)).

Definition ext4_extent_get_block_count (ex : ext4_extent) : Z :=
  if EXT_INIT_MAX_LEN <? block_count ex then block_count ex .& Z.lnot EXT_INIT_MAX_LEN else block_count ex.

Definition ext4_extent_set_block_count (ex : ext4_extent) (count : Z) (unwritten : bool) : ext4_extent :=
  Extent (first_block ex) (if unwritten then u16 count .| EXT_INIT_MAX_LEN else u16 count) (start_hi ex) (start_lo ex).

Definition ext4_extent_get_start (ex : ext4_extent) : Z := u64 (start_hi ex .<< 32) .| start_lo ex.

Definition ext4_extent_set_start (ex : ext4_extent) (fblock : Z) : ext4_extent :=
  Extent (first_block ex) (block_count ex) (u16 (fblock .>> 32)) (u32 (u64 (fblock .<< 32) .>> 32)).

Definition ext4_extent_index_get_leaf (m : memory) (ix : Z) : Z :=
  u64 (fget ei_leaf_hi m ix .<< 32) .| fget ei_leaf_lo m ix.

Definition ext4_extent_index_set_leaf (m : memory) (ix fblock : Z) : memory :=
  let m := fset ei_leaf_lo m ix (u64 (fblock .<< 32) .>> 32) in
  fset ei_leaf_hi m ix (fblock .>> 32).

Definition ext4_ext_get_actual_len (ex : ext4_extent) : Z :=
  if block_count ex <=? EXT_INIT_MAX_LEN then block_count ex else block_count ex - EXT_INIT_MAX_LEN.

Definition ext4_ext_mark_initialized (ex : ext4_extent) : ext4_extent :=
  Extent (first_block ex) (ext4_ext_get_actual_len ex) (start_hi ex) (start_lo ex).

Definition ext4_ext_mark_unwritten (ex : ext4_extent) : ext4_extent :=
  Extent (first_block ex) (block_count ex .| EXT_INIT_MAX_LEN) (start_hi ex) (start_lo ex).

Definition ext4_ext_is_unwritten (ex : ext4_extent) : bool := EXT_INIT_MAX_LEN <? block_count ex.

Definition ext4_ext_pblock (ex : ext4_extent) : Z := start_lo ex .| u64 (u64 (start_hi ex .<< 31) .<< 1).

Definition ext4_idx_pblock (m : memory) (ix : Z) : Z :=
  fget ei_leaf_lo m ix .| u64 (u64 (fget ei_leaf_hi m ix .<< 31) .<< 1).

Definition ext4_ext_store_pblock (ex : ext4_extent) (pb : Z) : ext4_extent :=
  Extent (first_block ex) (block_count ex) (u16 (pb .>> 32)) (pb .& 0xFFFFFFFF).

Definition ext4_idx_store_pblock (m : memory) (ix pb : Z) : memory :=
  let m := fset ei_leaf_lo m ix (pb .& 0xFFFFFFFF) in
  fset ei_leaf_hi m ix (u16 (pb .>> 32)).

(** The same for an extent of a node. *)
Definition store_pblock (m : memory) (ex pb : Z) : memory :=
  let m := fset ee_start_lo m ex (pb .& 0xFFFFFFFF) in
  fset ee_start_hi m ex (u16 (pb .>> 32)).

(** Writing an extent of a node. *)
Definition store_extent (m : memory) (a : Z) (ex : ext4_extent) : memory :=
  let m := fset ee_first_block m a (first_block ex) in
  let m := fset ee_block_count m a (block_count ex) in
  let m := fset ee_start_lo m a (start_lo ex) in
  fset ee_start_hi m a (start_hi ex).

(** [ex->block_count = count], marked unwritten like the extent was. *)
Definition set_len (m : memory) (a count : Z) (unwritten : bool) : memory :=
  let m := fset ee_block_count m a count in
  if unwritten then fset ee_block_count m a (fget ee_block_count m a .| EXT_INIT_MAX_LEN) else m.

(** ** Nodes *)

Definition ext_inode_hdr (ino : Z) : Z := ino + f_off ino_blocks.
Definition ext_depth (m : memory) (ino : Z) : Z := fget eh_depth m (ext_inode_hdr ino).

(** [while (l <= r)] of the two searches, over entries. *)
Fixpoint search_loop (fuel : nat) (m : memory) (block l r : Z) : option Z :=
  match fuel with
  | O => None
  | S fuel =>
      if l <=? r then
        let mid := l + entries_from l r / 2 * sizeof_ee in
        if block <? fget ee_first_block m mid then search_loop fuel m block l (mid - sizeof_ee)
        else search_loop fuel m block (mid + sizeof_ee) r
      else Some (l - sizeof_ee)
  end.

Definition search_fuel (m : memory) (eh : Z) : nat := S (Z.to_nat (fget eh_entries_count m eh)).

(** The new [path->index]. *)
Definition ext4_ext_binsearch_idx (m : memory) (eh block : Z) : option Z :=
  search_loop (search_fuel m eh) m block (EXT_FIRST eh + sizeof_ei) (EXT_LAST m eh).

(** The new [path->extent], that was null. *)
Definition ext4_ext_binsearch (m : memory) (eh block : Z) : option Z :=
  if fget eh_entries_count m eh =? 0 then Some 0
  else search_loop (search_fuel m eh) m block (EXT_FIRST eh + sizeof_ee) (EXT_LAST m eh).

Section extents.
Context `{Device}.
#[local] Notation sb := fs_sb.

Definition ext4_extent_tree_init : F unit :=
  r ← inode_ref;
  let header := ext_inode_hdr (ir_inode r) in
  write (fun m => fset eh_depth m header 0);;
  write (fun m => fset eh_entries_count m header 0);;
  write (fun m => fset eh_generation m header 0);;
  write (fun m => fset eh_magic m header EXT4_EXTENT_MAGIC);;
  write (fun m => fset eh_max_entries_count m header ((f_len ino_blocks - sizeof_eh) / sizeof_ee));;
  touch.

Definition ext4_ext_space_block (m : memory) : Z := u16 (u32 (ext4_sb_get_block_size m sb - sizeof_eh) / sizeof_ee).
Definition ext4_ext_space_block_idx (m : memory) : Z := u16 (u32 (ext4_sb_get_block_size m sb - sizeof_eh) / sizeof_ei).
Definition ext4_ext_space_root : Z := (f_len ino_blocks - sizeof_eh) / sizeof_ee.
Definition ext4_ext_space_root_idx : Z := (f_len ino_blocks - sizeof_eh) / sizeof_ei.

Definition ext4_ext_max_entries (m : memory) (ino depth : Z) : Z :=
  if depth =? ext_depth m ino then
    if depth =? 0 then ext4_ext_space_root else ext4_ext_space_root_idx
  else if depth =? 0 then ext4_ext_space_block m else ext4_ext_space_block_idx m.

Definition ext4_ext_find_goal (path : list ext4_extent_path) (block : Z) : F Z :=
  match path with
  | [] => ext4_fs_inode_to_goal_block
  | p0 :: _ =>
      p ← need (path_at path (p_depth p0));
      m ← see;
      if negb (extent p =? 0) then
        let ext_pblk := ext4_ext_pblock (load_extent m (extent p)) in
        let ext_block := fget ee_first_block m (extent p) in
        mret (if ext_block <? block then u64 (ext_pblk + (block - ext_block)) else u64 (ext_pblk - (ext_block - block)))
      else if negb (lb_id (p_blk p) =? 0) then mret (lb_id (p_blk p))
      else ext4_fs_inode_to_goal_block
  end.

Definition ext4_ext_new_meta_block (path : list ext4_extent_path) (ex : ext4_extent) : F (Z * Z) :=
  goal ← ext4_ext_find_goal path (first_block ex);
  alloc_block goal.

Definition ext4_ext_block_csum (m : memory) (r : ext4_inode_ref) (eh : Z) : Z :=
  if ext4_sb_feature_ro_com m sb EXT4_FRO_COM_METADATA_CSUM then
    let checksum := ext4_crc32c m EXT4_CRC32_INIT (sb + f_off sb_uuid) 16 in
    let checksum := ext4_crc32c (local32 (ir_index r)) checksum 0 4 in
    let checksum := ext4_crc32c (local32 (ext4_inode_get_generation m (ir_inode r))) checksum 0 4 in
    ext4_crc32c m checksum eh (EXT4_EXTENT_TAIL_OFFSET m eh)
  else 0.

Definition ext4_extent_block_csum_set (eh : Z) : F unit :=
  r ← inode_ref;
  write (fun m => fset et_checksum m (eh + EXT4_EXTENT_TAIL_OFFSET m eh) (ext4_ext_block_csum m r eh)).

(** Returns [EOK] always. *)
Definition ext4_ext_dirty (p : ext4_extent_path) : F unit :=
  if negb (lb_id (p_blk p) =? 0) then a ← need (b_buf (p_blk p)); up (ext4_trans_set_block_dirty a) else touch.

(** [n] turns of the loop over [path], from [path[i]] on. *)
Fixpoint drop_loop (n : nat) (i : Z) (path : list ext4_extent_path) : F (list ext4_extent_path) :=
  match n with
  | O => mret path
  | S n =>
      p ← need (path_at path i);
      if negb (lb_id (p_blk p) =? 0) then
        a ← need (b_buf (p_blk p));
        d ← up (test_dirty a);
        (if (d : bool) then ext4_extent_block_csum_set (header p) else mret tt);;
        '(_, b) ← up (block_set (p_blk p));
        drop_loop n (i + 1) (path_put path i (with_blk p b))
      else drop_loop n (i + 1) path
  end.

(** The call with [path + i]. *)
Definition ext4_ext_drop_refs (path : list ext4_extent_path) (i : Z) (keep_other : bool) : F (list ext4_extent_path) :=
  match path with
  | [] => mret path
  | _ =>
      p ← need (path_at path i);
      drop_loop (Z.to_nat (1 + (if keep_other then 0 else p_depth p))) i path
  end.

(** A wrong checksum is only reported. *)
Definition ext4_ext_check (m : memory) (eh depth : Z) : Z :=
  if negb (fget eh_magic m eh =? EXT4_EXTENT_MAGIC) then EIO
  else if negb (fget eh_depth m eh =? depth) then EIO
  else if fget eh_max_entries_count m eh =? 0 then EIO
  else if fget eh_max_entries_count m eh <? fget eh_entries_count m eh then EIO
  else EOK.

(** The status and the block [*bh]. *)
Definition read_extent_tree_block (pblk depth : Z) (bh : ext4_block) : F (Z * ext4_block) :=
  '(err, bh) ← up (get_into true bh pblk);
  m ← see;
  let err := if negb (err =? EOK) then err else ext4_ext_check m (block_data bh) depth in
  if negb (err =? EOK) then
    if negb (lb_id bh =? 0) then '(_, bh) ← up (block_set bh); mret (err, bh) else mret (err, bh)
  else mret (EOK, bh).

(** [while (i)]: the status, [ppos] and the path. *)
Fixpoint walk_loop (i : nat) (block depth ppos : Z) (bh : ext4_block) (path : list ext4_extent_path)
    : F (Z * Z * list ext4_extent_path) :=
  match i with
  | O => mret (EOK, ppos, path)
  | S i =>
      p ← need (path_at path ppos);
      m ← see;
      ix ← need (ext4_ext_binsearch_idx m (header p) block);
      let buf_block := ext4_idx_pblock m ix in
      let p := with_extent (with_depth (with_p_block (with_index p ix) buf_block) (Z.of_nat (S i))) 0 in
      let path := path_put path ppos p in
      let ppos := ppos + 1 in
      p ← need (path_at path ppos);
      if (lb_id (p_blk p) =? 0) || negb (lb_id (p_blk p) =? buf_block) then
        '(ret, bh) ← read_extent_tree_block buf_block (Z.of_nat i) bh;
        if negb (ret =? EOK) then mret (ret, ppos, path)
        else if depth <? ppos then up (block_set bh);; mret (EIO, ppos, path)
        else walk_loop i block depth ppos bh (path_put path ppos (with_header (with_blk p bh) (block_data bh)))
      else walk_loop i block depth ppos bh path
  end.

(** The status and [*orig_path]. *)
Definition ext4_find_extent (block : Z) (orig_path : list ext4_extent_path) : F (Z * list ext4_extent_path) :=
  r ← inode_ref;
  m ← see;
  let eh := ext_inode_hdr (ir_inode r) in
  let depth := ext_depth m (ir_inode r) in
  path ←
    (match orig_path with
     | [] => mret []
     | p0 :: _ =>
         path ← ext4_ext_drop_refs orig_path 0 false;
         mret (if maxdepth p0 <? depth then [] else path)
     end);
  path ←
    (match path with
     | [] =>
         ok ← up calloc;
         mret (if (ok : bool)
               then path_put (replicate (Z.to_nat (depth + 2)) zero_path) 0 (Path 0 EXT4_BLOCK_ZERO 0 (depth + 1) 0 0 0)
               else [])
     | _ => mret path
     end);
  match path with
  | [] => mret (ENOMEM, [])
  | p0 :: path =>
      '(ret, ppos, path) ← walk_loop (Z.to_nat depth) block depth 0 EXT4_BLOCK_ZERO
        (with_blk (with_header p0 eh) EXT4_BLOCK_ZERO :: path);
      if negb (ret =? EOK) then ext4_ext_drop_refs path 0 false;; mret (ret, [])
      else
        p ← need (path_at path ppos);
        m ← see;
        ex ← need (ext4_ext_binsearch m (header p) block);
        let p := with_index (with_extent (with_depth p 0) ex) 0 in
        let p := if negb (ex =? 0) then with_p_block p (ext4_ext_pblock (load_extent m ex)) else p in
        mret (EOK, path_put path ppos p)
  end.

Definition ext4_ext_init_header (eh depth : Z) : F unit :=
  r ← inode_ref;
  write (fun m => fset eh_entries_count m eh 0);;
  write (fun m => fset eh_max_entries_count m eh (ext4_ext_max_entries m (ir_inode r) depth));;
  write (fun m => fset eh_magic m eh EXT4_EXTENT_MAGIC);;
  write (fun m => fset eh_depth m eh depth).

(** [hdr->entries_count += d] *)
Definition add_entries (eh d : Z) : F unit :=
  write (fun m => fset eh_entries_count m eh (fget eh_entries_count m eh + d)).
End extents.
