(* ===== verification/Ext4ExtentOps.v ===== *)
(** lwext4, changes of extent trees: the second half of [src/ext4_extent.c], from
    [ext4_ext_insert_index] on. *)
From S2P Require Import Prelude Memory Ext4Errno Ext4Layout Ext4Super Ext4Inode Ext4Store Ext4Fs Ext4Balloc Ext4File.
From S2P Require Import Ext4Extent.
#[local] Open Scope Z_scope.
#[local] Open Scope cint_scope.

Section extents.
Context `{Device}.
#[local] Notation sb := fs_sb.

(** ** Insertion *)

(** The status and the path. *)
Definition ext4_ext_insert_index (path : list ext4_extent_path) (at_ insert_index insert_block : Z) (set_to_ix : bool)
    : F (Z * list ext4_extent_path) :=
  curp ← need (path_at path at_);
  m ← see;
  let eh := header curp in
  if negb (index curp =? 0) && (insert_index =? fget ei_first_block m (index curp)) then mret (EIO, path)
  else if fget eh_entries_count m eh =? fget eh_max_entries_count m eh then mret (EIO, path)
  else
    let ix :=
      if index curp =? 0 then EXT_FIRST eh
      else if fget ei_first_block m (index curp) <? insert_index then index curp + sizeof_ei
      else index curp in
    let curp := if index curp =? 0 then with_index curp ix else curp in
    let path := path_put path at_ curp in
    if EXT_MAX m eh <? ix then mret (EIO, path)
    else
      let len := entries_from ix (EXT_LAST m eh) + 1 in
      if len <? 0 then crash
      else
        (if 0 <? len then write (fun m => memcpy m (ix + sizeof_ei) ix (len * sizeof_ei)) else mret tt);;
        write (fun m => fset ei_first_block m ix insert_index);;
        write (fun m => ext4_idx_store_pblock m ix insert_block);;
        add_entries eh 1;;
        m ← see;
        if EXT_LAST m eh <? ix then mret (EIO, path)
        else
          ext4_ext_dirty curp;;
          m ← see;
          mret (EOK, if set_to_ix then path_put path at_ (with_p_block (with_index curp ix) (ext4_idx_pblock m ix)) else path).

(** The leaf of a split, after the new block was got: [m] extents move. *)
Definition split_leaf (p : ext4_extent_path) (bh : ext4_block) : F ext4_extent_path :=
  m ← see;
  let n := entries_from (extent p) (EXT_MAX m (header p)) in
  let neh := block_data bh in
  let ex := EXT_FIRST neh in
  ext4_ext_init_header neh 0;;
  (if negb (n =? 0) then
     write (fun m => memcpy m ex (extent p + sizeof_ee) (sizeof_ee * n));;
     add_entries neh n;;
     add_entries (header p) (- n);;
     ext4_ext_dirty p
   else mret tt);;
  m ← see;
  a ← need (b_buf bh);
  up (ext4_trans_set_block_dirty a);;
  mret (Path (if negb (n =? 0) then ext4_ext_pblock (load_extent m ex) else 0) bh (fget eh_depth m neh) 0 neh 0
          (if negb (n =? 0) then ex else 0)).

(** An inner node of a split; [child] is the new block below it. *)
Definition split_index (p : ext4_extent_path) (bh : ext4_block) (level insert_index child : Z) : F ext4_extent_path :=
  m ← see;
  let n := entries_from (index p) (EXT_MAX m (header p)) in
  let neh := block_data bh in
  let ix := EXT_FIRST neh in
  ext4_ext_init_header neh level;;
  write (fun m => fset ei_first_block m ix insert_index);;
  write (fun m => ext4_idx_store_pblock m ix child);;
  write (fun m => fset eh_entries_count m neh 1);;
  (if negb (n =? 0) then
     write (fun m => memcpy m (ix + sizeof_ei) (index p + sizeof_ei) (sizeof_ee * n));;
     add_entries neh n;;
     add_entries (header p) (- n);;
     ext4_ext_dirty p
   else mret tt);;
  m ← see;
  a ← need (b_buf bh);
  up (ext4_trans_set_block_dirty a);;
  mret (Path (ext4_idx_pblock m ix) bh (fget eh_depth m neh) 0 neh ix 0).

(** [for (i = depth; i >= at; i--, npath_at--)] with [n] turns left: the status,
    the block that is allocated but not in [npath], and [npath]. *)
Fixpoint split_loop (n : nat) (path : list ext4_extent_path) (i depth insert_index : Z) (newext : ext4_extent)
    (npath : list ext4_extent_path) (npath_at : Z) : F (Z * Z * list ext4_extent_path) :=
  match n with
  | O => mret (EOK, 0, npath)
  | S n =>
      '(ret, newblock) ← ext4_ext_new_meta_block path newext;
      if negb (ret =? EOK) then mret (ret, newblock, npath)
      else
        '(ret, bh) ← up (get_into false EXT4_BLOCK_ZERO newblock);
        if negb (ret =? EOK) then mret (ret, newblock, npath)
        else
          p ← need (path_at path i);
          np ←
            (if i =? depth then split_leaf p bh
             else
               child ← need (path_at npath (npath_at + 1));
               split_index p bh (depth - i) insert_index (lb_id (p_blk child)));
          split_loop n path (i - 1) depth insert_index newext (path_put npath npath_at np) (npath_at - 1)
  end.

(** [while (npath_at >= 0)] of the clean-up. *)
Fixpoint undo_loop (n : nat) (npath : list ext4_extent_path) (npath_at : Z) : F (list ext4_extent_path) :=
  match n with
  | O => mret npath
  | S n =>
      p ← need (path_at npath npath_at);
      if negb (lb_id (p_blk p) =? 0) then
        let newblock := lb_id (p_blk p) in
        up (block_set (p_blk p));;
        free_blocks newblock 1;;
        undo_loop n (path_put npath npath_at (with_blk p EXT4_BLOCK_ZERO)) (npath_at - 1)
      else undo_loop n npath (npath_at - 1)
  end.

(** The status, both paths and [*ins_right_leaf]. *)
Definition ext4_ext_split_node (path : list ext4_extent_path) (at_ : Z) (newext : ext4_extent)
    (npath : list ext4_extent_path) : F (Z * list ext4_extent_path * list ext4_extent_path * bool) :=
  r ← inode_ref;
  m ← see;
  let depth := ext_depth m (ir_inode r) in
  if at_ <=? 0 then crash
  else
    leaf ← need (path_at path depth);
    let insert_index :=
      if negb (extent leaf =? EXT_MAX m (header leaf)) then fget ee_first_block m (extent leaf + sizeof_ee)
      else first_block newext in
    '(ret, newblock, npath) ←
      split_loop (Z.to_nat (depth - at_ + 1)) path depth depth insert_index newext npath (depth - at_);
    let ins_right_leaf := negb (first_block newext <? insert_index) in
    '(ret, newblock, path) ←
      (if negb (ret =? EOK) then mret (ret, newblock, path)
       else
         top ← need (path_at npath 0);
         '(ret, path) ← ext4_ext_insert_index path (at_ - 1) insert_index (lb_id (p_blk top)) ins_right_leaf;
         mret (ret, 0, path));
    if negb (ret =? EOK) then
      (if negb (newblock =? 0) then free_blocks newblock 1;; mret tt else mret tt);;
      npath ← undo_loop (Z.to_nat (depth - at_ + 1)) npath (depth - at_);
      mret (ret, path, npath, ins_right_leaf)
    else mret (ret, path, npath, ins_right_leaf).

(** [while (k--)] *)
Fixpoint correct_loop (k : nat) (path : list ext4_extent_path) (border : Z) : F unit :=
  match k with
  | O => mret tt
  | S k =>
      q ← need (path_at path (Z.of_nat (S k)));
      p ← need (path_at path (Z.of_nat k));
      if negb (index q =? EXT_FIRST (header q)) then mret tt
      else
        write (fun m => fset ei_first_block m (index p) border);;
        ext4_ext_dirty p;;
        correct_loop k path border
  end.

Definition ext4_ext_correct_indexes (path : list ext4_extent_path) : F Z :=
  r ← inode_ref;
  m ← see;
  let depth := ext_depth m (ir_inode r) in
  leaf ← need (path_at path depth);
  if (extent leaf =? 0) || (header leaf =? 0) then mret EIO
  else if depth =? 0 then mret EOK
  else if negb (extent leaf =? EXT_FIRST (header leaf)) then mret EOK
  else
    let border := fget ee_first_block m (extent leaf) in
    p ← need (path_at path (depth - 1));
    write (fun m => fset ei_first_block m (index p) border);;
    ext4_ext_dirty p;;
    correct_loop (Z.to_nat (depth - 1)) path border;;
    mret EOK.

(** Whether the two lengths fit one extent in the state of [ex1]. *)
Definition lengths_fit (ex1 ex2 : ext4_extent) : bool :=
  let len := ext4_ext_get_actual_len ex1 + ext4_ext_get_actual_len ex2 in
  if ext4_ext_is_unwritten ex1 then len <=? EXT_UNWRITTEN_MAX_LEN else len <=? EXT_INIT_MAX_LEN.

Definition ext4_ext_can_prepend (ex1 ex2 : ext4_extent) : bool :=
  if negb (u64 (ext4_ext_pblock ex2 + ext4_ext_get_actual_len ex2) =? ext4_ext_pblock ex1) then false
  else if negb (lengths_fit ex1 ex2) then false
  else if negb (u32 (first_block ex2 + ext4_ext_get_actual_len ex2) =? first_block ex1) then false
  else true.

Definition ext4_ext_can_append (ex1 ex2 : ext4_extent) : bool :=
  if negb (u64 (ext4_ext_pblock ex1 + ext4_ext_get_actual_len ex1) =? ext4_ext_pblock ex2) then false
  else if negb (lengths_fit ex1 ex2) then false
  else if negb (u32 (first_block ex1 + ext4_ext_get_actual_len ex1) =? first_block ex2) then false
  else true.

(** From the label [out] on, with [err = EOK]. *)
Definition inserted (path : list ext4_extent_path) (at_ : Z) (curp : ext4_extent_path) (ex : Z)
    : F (Z * list ext4_extent_path * bool) :=
  m ← see;
  mret (EOK, path_put path at_ (with_p_block (with_extent curp ex) (ext4_ext_pblock (load_extent m ex))), false).

(** The status, the path and [*need_split]. *)
Definition ext4_ext_insert_leaf (path : list ext4_extent_path) (at_ : Z) (newext : ext4_extent) (flags : Z)
    : F (Z * list ext4_extent_path * bool) :=
  curp ← need (path_at path at_);
  m ← see;
  let ex := extent curp in
  let cur := load_extent m ex in
  let combine := negb (ex =? 0) && negb (c_true (flags .& EXT4_EXT_NO_COMBINE)) in
  if negb (ex =? 0) && (first_block newext =? first_block cur) then mret (EIO, path, false)
  else if combine && ext4_ext_can_append cur newext then
    write (fun m => set_len m ex (ext4_ext_get_actual_len cur + ext4_ext_get_actual_len newext) (ext4_ext_is_unwritten cur));;
    ext4_ext_dirty curp;;
    inserted path at_ curp ex
  else if combine && ext4_ext_can_prepend cur newext then
    write (fun m => fset ee_first_block m ex (first_block newext));;
    write (fun m => set_len m ex (ext4_ext_get_actual_len cur + ext4_ext_get_actual_len newext) (ext4_ext_is_unwritten cur));;
    ext4_ext_dirty curp;;
    inserted path at_ curp ex
  else
    let eh := header curp in
    if fget eh_entries_count m eh =? fget eh_max_entries_count m eh then mret (EIO, path, true)
    else
      let at_ex :=
        if ex =? 0 then EXT_FIRST eh
        else if first_block cur <? first_block newext then ex + sizeof_ee
        else ex in
      let curp := if ex =? 0 then with_extent curp at_ex else curp in
      let path := path_put path at_ curp in
      let len := entries_from at_ex (EXT_LAST m eh) + 1 in
      if len <? 0 then crash
      else
        (if 0 <? len then write (fun m => memcpy m (at_ex + sizeof_ee) at_ex (len * sizeof_ee)) else mret tt);;
        m ← see;
        if EXT_MAX m eh <? at_ex then mret (EIO, path, false)
        else
          write (fun m => store_extent m at_ex (ext4_ext_store_pblock newext (ext4_ext_pblock newext)));;
          add_entries eh 1;;
          m ← see;
          if EXT_LAST m eh <? at_ex then mret (EIO, path, false)
          else
            err ← ext4_ext_correct_indexes path;
            if negb (err =? EOK) then mret (err, path, false)
            else ext4_ext_dirty curp;; inserted path at_ curp at_ex.

Definition ext4_ext_grow_indepth : F Z :=
  r ← inode_ref;
  let ino := ir_inode r in
  m ← see;
  goal ← (if negb (ext_depth m ino =? 0) then mret (ext4_idx_pblock m (EXT_FIRST (ext_inode_hdr ino)))
          else ext4_fs_inode_to_goal_block);
  '(err, newblock) ← alloc_block goal;
  if newblock =? 0 then mret err
  else
    '(err, bh) ← up (get_into false EXT4_BLOCK_ZERO newblock);
    if negb (err =? EOK) then free_blocks newblock 1;; mret err
    else
      let neh := block_data bh in
      write (fun m => memcpy m neh (ino + f_off ino_blocks) (f_len ino_blocks));;
      write (fun m => fset eh_max_entries_count m neh
        (if negb (ext_depth m ino =? 0) then ext4_ext_space_block_idx m else ext4_ext_space_block m));;
      write (fun m => fset eh_magic m neh EXT4_EXTENT_MAGIC);;
      ext4_extent_block_csum_set neh;;
      let root := ext_inode_hdr ino in
      write (fun m => fset eh_entries_count m root 1);;
      write (fun m => ext4_idx_store_pblock m (EXT_FIRST root) newblock);;
      write (fun m =>
        if fget eh_depth m root =? 0 then
          let m := fset eh_max_entries_count m root ext4_ext_space_root_idx in
          fset ei_first_block m (EXT_FIRST root) (fget ee_first_block m (EXT_FIRST root))
        else m);;
      write (fun m => fset eh_depth m root (fget eh_depth m root + 1));;
      a ← need (b_buf bh);
      up (ext4_trans_set_block_dirty a);;
      touch;;
      up (block_set bh);;
      mret err.

(** Both paths after [path[at] = *newpath], [newpath] being [npath[level]]. *)
Definition ext4_ext_replace_path (path npath : list ext4_extent_path) (level at_ : Z)
    : F (list ext4_extent_path * list ext4_extent_path) :=
  path ← ext4_ext_drop_refs path at_ true;
  newpath ← need (path_at npath level);
  mret (path_put path at_ newpath, path_put npath level zero_path).

(** [for (i = depth, level = 0; i >= 0; i--, level++)], [i + 1] turns. *)
Fixpoint room_loop (n : nat) (m : memory) (path : list ext4_extent_path) (level : Z) : option Z :=
  match n with
  | O => Some level
  | S i =>
      match path !! i with
      | None => None
      | Some p => if EXT_HAS_FREE_INDEX m p then Some level else room_loop i m path (level + 1)
      end
  end.

(** [while (--level >= 0)] after a split. *)
Fixpoint adopt_loop (level : nat) (path npath : list ext4_extent_path) (i : Z) (ins_right_leaf : bool)
    : F (list ext4_extent_path * list ext4_extent_path) :=
  match level with
  | O => mret (path, npath)
  | S level =>
      '(path, npath) ←
        (if ins_right_leaf then ext4_ext_replace_path path npath (Z.of_nat level) (i + Z.of_nat level)
         else
           p ← need (path_at npath (Z.of_nat level));
           if negb (lb_id (p_blk p) =? 0) then
             npath ← ext4_ext_drop_refs npath (Z.of_nat level) true; mret (path, npath)
           else mret (path, npath));
      adopt_loop level path npath i ins_right_leaf
  end.

(** [while (--level >= 0 && npath)] at the end of a failed call. *)
Fixpoint discard_loop (level : nat) (npath : list ext4_extent_path) : F unit :=
  match level with
  | O => mret tt
  | S level =>
      p ← need (path_at npath (Z.of_nat level));
      if negb (lb_id (p_blk p) =? 0) then
        free_blocks (lb_id (p_blk p)) 1;;
        npath ← ext4_ext_drop_refs npath (Z.of_nat level) true;
        discard_loop level npath
      else discard_loop level npath
  end.

(** From the label [out] on, with [ret <> EOK]. *)
Definition insert_failed (ret : Z) (path npath : list ext4_extent_path) (level : Z) : F (Z * list ext4_extent_path) :=
  path ← ext4_ext_drop_refs path 0 false;
  (match npath with [] => mret tt | _ => discard_loop (Z.to_nat level) npath end);;
  mret (ret, path).

(** The split of the nodes from the leaf up to [path[i]]: the status, both paths
    and the last [level]. *)
Definition split_path (path npath : list ext4_extent_path) (depth level : Z) (newext : ext4_extent)
    : F (Z * list ext4_extent_path * list ext4_extent_path * Z) :=
  let i := depth - (level - 1) in
  if 0 <? level then
    ok ← up calloc;
    if negb ok then mret (ENOMEM, path, [], level)
    else
      '(ret, path, npath, ins_right_leaf) ← ext4_ext_split_node path i newext (replicate (Z.to_nat level) zero_path);
      if negb (ret =? EOK) then mret (ret, path, npath, level)
      else
        '(path, npath) ← adopt_loop (Z.to_nat level) path npath i ins_right_leaf;
        mret (EOK, path, npath, -1)
  else mret (EOK, path, npath, level).

(** When the tree has to grow: the status, the path, [depth] and [level].  When
    [ext4_find_extent] fails it has freed the path that is released then. *)
Definition grow_path (path : list ext4_extent_path) (depth level : Z) (newext : ext4_extent)
    : F (Z * list ext4_extent_path * Z * Z) :=
  if depth <? level then
    ret ← ext4_ext_grow_indepth;
    if negb (ret =? EOK) then mret (ret, path, depth, level)
    else
      '(ret, path) ← ext4_find_extent (first_block newext) path;
      if negb (ret =? EOK) then crash else mret (EOK, path, depth + 1, level - 1)
  else mret (EOK, path, depth, level).

(** From the label [again] on, [fuel] passes. *)
Fixpoint insert_passes (fuel : nat) (path npath : list ext4_extent_path) (level : Z) (newext : ext4_extent) (flags : Z)
    : F (Z * list ext4_extent_path) :=
  match fuel with
  | O => crash
  | S fuel =>
      r ← inode_ref;
      m ← see;
      let depth := ext_depth m (ir_inode r) in
      '(ret, path, need_split) ← ext4_ext_insert_leaf path depth newext flags;
      if (ret =? EIO) && need_split then
        m ← see;
        level ← need (room_loop (Z.to_nat (depth + 1)) m path 0);
        '(ret, path, depth, level) ← grow_path path depth level newext;
        if negb (ret =? EOK) then insert_failed ret path npath level
        else
          '(ret, path, npath, level) ← split_path path npath depth level newext;
          if negb (ret =? EOK) then insert_failed ret path npath level
          else insert_passes fuel path npath level newext flags
      else if negb (ret =? EOK) then insert_failed ret path npath level
      else mret (ret, path)
  end.

(** The status and [*ppath].  After the first pass the leaf has room, because the
    tree has grown or the leaf was split. *)
Definition ext4_ext_insert_extent (path : list ext4_extent_path) (newext : ext4_extent) (flags : Z)
    : F (Z * list ext4_extent_path) := insert_passes 3 path [] 0 newext flags.

(** ** Removal *)

Definition ext4_ext_remove_blocks (ex : ext4_extent) (from to_ : Z) : F unit :=
  let len := u32 (to_ - from + 1) in
  let num := u32 (from - first_block ex) in
  free_blocks (u64 (ext4_ext_pblock ex + num)) len;;
  mret tt.

(** [while (i > 0)] *)
Fixpoint remove_up (i : nat) (path : list ext4_extent_path) : F unit :=
  match i with
  | O => mret tt
  | S i =>
      q ← need (path_at path (Z.of_nat (S i)));
      p ← need (path_at path (Z.of_nat i));
      if negb (index q =? EXT_FIRST (header q)) then mret tt
      else
        write (fun m => fset ei_first_block m (index p) (fget ei_first_block m (index q)));;
        ext4_ext_dirty p;;
        remove_up i path
  end.

(** Returns [EOK] always. *)
Definition ext4_ext_remove_idx (path : list ext4_extent_path) (depth : Z) : F unit :=
  p ← need (path_at path depth);
  m ← see;
  let leaf := ext4_idx_pblock m (index p) in
  (if negb (index p =? EXT_LAST m (header p)) then
     let len := entries_from (index p) (EXT_LAST m (header p)) in
     write (fun m => memcpy m (index p) (index p + sizeof_ei) (len * sizeof_ei))
   else mret tt);;
  add_entries (header p) (-1);;
  ext4_ext_dirty p;;
  free_blocks leaf 1;;
  remove_up (Z.to_nat depth) path.

(** One turn of the loop over the extents of a leaf, for the extent at [ex]: how
    [start_ex] and [new_entries] change and whether [ex2] is set. *)
Definition remove_extent (ex from to_ : Z) : F (Z * Z * bool) :=
  m ← see;
  let cur := load_extent m ex in
  let start := first_block cur in
  let len := ext4_ext_get_actual_len cur in
  let newblock := ext4_ext_pblock cur in
  let '(start, new_start, len, new_len, newblock, moved, cut) :=
    if start <? from then (from, start, s32 (len - (from - start)), s32 (from - start), newblock, 1, false)
    else if to_ <? u32 (start + len - 1) then
      let new_len := s32 (u32 (start + len - 1 - to_)) in
      (start, u32 (to_ + 1), len - new_len, new_len, u64 (newblock + u32 (to_ + 1 - start)), 0, true)
    else (start, start, len, 0, newblock, 0, false) in
  ext4_ext_remove_blocks cur start (u32 (start + len - 1));;
  write (fun m => fset ee_first_block m ex new_start);;
  (if new_len =? 0 then mret tt
   else
     write (fun m => fset ee_block_count m ex new_len);;
     write (fun m => store_pblock m ex newblock);;
     (if ext4_ext_is_unwritten cur
      then write (fun m => fset ee_block_count m ex (fget ee_block_count m ex .| EXT_INIT_MAX_LEN)) else mret tt));;
  mret (moved, if new_len =? 0 then 1 else 0, cut).

(** The loop over the extents: [ex], [start_ex], [new_entries] and [ex2]. *)
Fixpoint remove_loop (fuel : nat) (eh ex start_ex new_entries ex2 from to_ : Z) : F (Z * Z * Z * Z) :=
  match fuel with
  | O => crash
  | S fuel =>
      m ← see;
      if (ex <=? EXT_LAST m eh) && (fget ee_first_block m ex <=? to_) then
        '(moved, gone, cut) ← remove_extent ex from to_;
        remove_loop fuel eh (ex + sizeof_ee) (start_ex + moved * sizeof_ee) (u16 (new_entries - gone))
          (if (cut : bool) then ex else ex2) from to_
      else mret (ex, start_ex, new_entries, ex2)
  end.

(** The status and the path. *)
Definition ext4_ext_remove_leaf (path : list ext4_extent_path) (from to_ : Z) : F (Z * list ext4_extent_path) :=
  r ← inode_ref;
  m ← see;
  let depth := ext_depth m (ir_inode r) in
  leaf ← need (path_at path depth);
  let eh := header leaf in
  let n := fget eh_entries_count m eh in
  '(ex, start_ex, new_entries, ex2) ← remove_loop (S (Z.to_nat n)) eh (extent leaf) (extent leaf) n 0 from to_;
  let ex2 := if ex2 =? 0 then ex else ex2 in
  m ← see;
  (if ex2 <=? EXT_LAST m eh then
     write (fun m => memcpy m start_ex ex2 ((entries_from ex2 (EXT_LAST m eh) + 1) * sizeof_ee))
   else mret tt);;
  write (fun m => fset eh_entries_count m eh new_entries);;
  ext4_ext_dirty leaf;;
  err ← (if (extent leaf =? EXT_FIRST eh) && negb (new_entries =? 0) then ext4_ext_correct_indexes path else mret EOK);
  if negb (err =? EOK) then mret (err, path)
  else if (new_entries =? 0) && negb (lb_id (p_blk leaf) =? 0) then
    ext4_ext_remove_idx path (depth - 1);; mret (EOK, path)
  else if 0 <? depth then
    p ← need (path_at path (depth - 1));
    mret (EOK, path_put path (depth - 1) (with_index p (index p + sizeof_ei)))
  else mret (EOK, path).

Definition ext4_ext_more_to_rm (m : memory) (p : ext4_extent_path) (to_ : Z) : bool :=
  if fget eh_entries_count m (header p) =? 0 then false
  else if EXT_LAST m (header p) <? index p then false
  else if to_ <? fget ei_first_block m (index p) then false
  else true.

(** The leaf [path[i]] of a removal: [i == depth]. *)
Definition remove_from_leaf (path : list ext4_extent_path) (i from to_ : Z) : F (list ext4_extent_path) :=
  m ← see;
  leaf ← need (path_at path i);
  let eh := header leaf in
  if fget eh_entries_count m eh =? 0 then crash
  else
    let last_ex := load_extent m (EXT_LAST m eh) in
    let leaf_from := fget ee_first_block m (EXT_FIRST eh) in
    let leaf_to := u32 (first_block last_ex + ext4_ext_get_actual_len last_ex - 1) in
    '(_, path) ← ext4_ext_remove_leaf path (if leaf_from <? from then from else leaf_from)
                                           (if to_ <? leaf_to then to_ else leaf_to);
    ext4_ext_drop_refs path i false.

(** A node above the leaves that has no more to remove. *)
Definition leave_node (path : list ext4_extent_path) (i : Z) (p : ext4_extent_path) : F (list ext4_extent_path) :=
  if i =? 0 then mret path
  else
    m ← see;
    path ←
      (if fget eh_entries_count m (header p) =? 0 then ext4_ext_remove_idx path (i - 1);; mret path
       else
         q ← need (path_at path (i - 1));
         mret (path_put path (i - 1) (with_index q (index q + sizeof_ei))));
    '(_, b) ← up (block_set (p_blk p));
    mret (path_put path i (with_blk p b)).

(** [while (i >= 0)]: the status, and the path. *)
Fixpoint remove_walk (fuel : nat) (path : list ext4_extent_path) (i depth from to_ : Z)
    : F (Z * list ext4_extent_path) :=
  match fuel with
  | O => crash
  | S fuel =>
      if i <? 0 then mret (EOK, path)
      else if i =? depth then
        path ← remove_from_leaf path i from to_;
        remove_walk fuel path (i - 1) depth from to_
      else
        p ← need (path_at path i);
        m ← see;
        if ext4_ext_more_to_rm m p to_ then
          q ← need (path_at path (i + 1));
          path ← (if negb (lb_id (p_blk q) =? 0) then ext4_ext_drop_refs path (i + 1) false else mret path);
          m ← see;
          '(ret, bh) ← read_extent_tree_block (ext4_idx_pblock m (index p)) (depth - i - 1) EXT4_BLOCK_ZERO;
          if negb (ret =? EOK) then mret (ret, path)
          else
            m ← see;
            let path := path_put path i (with_p_block p (ext4_idx_pblock m (index p))) in
            q ← need (path_at path (i + 1));
            let q := with_depth (with_header (with_blk q bh) (block_data bh)) (depth - i - 1) in
            let q := if i + 1 =? depth then with_extent q (EXT_FIRST (header q)) else with_index q (EXT_FIRST (header q)) in
            remove_walk fuel (path_put path (i + 1) q) (i + 1) depth from to_
        else
          path ← leave_node path i p;
          remove_walk fuel path (i - 1) depth from to_
  end.

(** [fuel] counts the steps over the tree. *)
Definition ext4_extent_remove_space (fuel : nat) (from to_ : Z) : F Z :=
  r ← inode_ref;
  m ← see;
  let depth := ext_depth m (ir_inode r) in
  '(ret, path) ← ext4_find_extent from [];
  if negb (ret =? EOK) then mret ret
  else
    '(ret, path) ←
      (leaf ← need (path_at path depth);
       m ← see;
       let ex := extent leaf in
       let cur := load_extent m ex in
       if ex =? 0 then mret (EOK, path)
       else if negb (IN_RANGE from (first_block cur) (ext4_ext_get_actual_len cur)) then mret (EOK, path)
       else if (first_block cur <? from) && (to_ <? u32 (first_block cur + ext4_ext_get_actual_len cur - 1)) then
         let unwritten := ext4_ext_is_unwritten cur in
         let ee_block := first_block cur in
         let len := ext4_ext_get_actual_len cur in
         let newblock := u64 (u32 (to_ + 1 - ee_block) + ext4_ext_pblock cur) in
         write (fun m => set_len m ex (from - ee_block) unwritten);;
         ext4_ext_dirty leaf;;
         let newex := ext4_ext_store_pblock (Extent (u32 (to_ + 1)) (u16 (ee_block + len - 1 - to_)) 0 0) newblock in
         let newex := if unwritten then ext4_ext_mark_unwritten newex else newex in
         ext4_ext_insert_extent path newex 0
       else
         '(ret, path) ← remove_walk fuel path depth depth from to_;
         if negb (ret =? EOK) then mret (ret, path)
         else
           top ← need (path_at path 0);
           m ← see;
           if fget eh_entries_count m (header top) =? 0 then
             let root := ext_inode_hdr (ir_inode r) in
             write (fun m => fset eh_depth m root 0);;
             write (fun m => fset eh_max_entries_count m root ext4_ext_space_root);;
             ext4_ext_dirty top;;
             mret (EOK, path)
           else mret (EOK, path));
    ext4_ext_drop_refs path 0 false;;
    mret ret.

(** ** Unwritten extents *)

(** The status and [*ppath]. *)
Definition ext4_ext_split_extent_at (path : list ext4_extent_path) (split split_flag : Z)
    : F (Z * list ext4_extent_path) :=
  r ← inode_ref;
  m ← see;
  let depth := ext_depth m (ir_inode r) in
  leaf ← need (path_at path depth);
  let ex := extent leaf in
  let cur := load_extent m ex in
  let ee_block := first_block cur in
  let ee_len := ext4_ext_get_actual_len cur in
  let newblock := u64 (u32 (split - ee_block) + ext4_ext_pblock cur) in
  if split =? ee_block then
    write (fun m => store_extent m ex
      (if c_true (split_flag .& EXT4_EXT_MARK_UNWRIT2) then ext4_ext_mark_unwritten cur else ext4_ext_mark_initialized cur));;
    ext4_ext_dirty leaf;;
    mret (EOK, path)
  else
    write (fun m => set_len m ex (u32 (split - ee_block)) (c_true (split_flag .& EXT4_EXT_MARK_UNWRIT1)));;
    ext4_ext_dirty leaf;;
    let newex := ext4_ext_store_pblock (Extent split (u16 (ee_len - (split - ee_block))) 0 0) newblock in
    let newex := if c_true (split_flag .& EXT4_EXT_MARK_UNWRIT2) then ext4_ext_mark_unwritten newex else newex in
    '(err, path) ← ext4_ext_insert_extent path newex EXT4_EXT_NO_COMBINE;
    if negb (err =? EOK) then
      write (fun m => fset ee_block_count m ex ee_len);;
      leaf ← need (path_at path depth);
      ext4_ext_dirty leaf;;
      mret (EOK, path)
    else mret (EOK, path).

Definition ext4_ext_convert_to_initialized (path : list ext4_extent_path) (split blocks : Z)
    : F (Z * list ext4_extent_path) :=
  r ← inode_ref;
  m ← see;
  leaf ← need (path_at path (ext_depth m (ir_inode r)));
  let cur := load_extent m (extent leaf) in
  if split <? first_block cur then crash
  else if u32 (split + blocks) =? u32 (first_block cur + ext4_ext_get_actual_len cur) then
    ext4_ext_split_extent_at path split EXT4_EXT_MARK_UNWRIT1
  else if first_block cur =? split then
    ext4_ext_split_extent_at path (u32 (split + blocks)) EXT4_EXT_MARK_UNWRIT2
  else
    '(err, path) ← ext4_ext_split_extent_at path (u32 (split + blocks)) (EXT4_EXT_MARK_UNWRIT1 .| EXT4_EXT_MARK_UNWRIT2);
    if err =? EOK then ext4_ext_split_extent_at path split EXT4_EXT_MARK_UNWRIT1 else mret (err, path).

(** [while (depth >= 0)], from [path[n - 1]] up. *)
Fixpoint next_loop (n : nat) (m : memory) (path : list ext4_extent_path) (leaf_depth : Z) : option Z :=
  match n with
  | O => Some EXT_MAX_BLOCKS
  | S d =>
      match path !! d with
      | None => None
      | Some p =>
          if Z.of_nat d =? leaf_depth then
            if negb (extent p =? 0) && negb (extent p =? EXT_LAST m (header p))
            then Some (fget ee_first_block m (extent p + sizeof_ee)) else next_loop d m path leaf_depth
          else if negb (index p =? EXT_LAST m (header p))
          then Some (fget ei_first_block m (index p + sizeof_ei)) else next_loop d m path leaf_depth
      end
  end.

Definition ext4_ext_next_allocated_block (m : memory) (path : list ext4_extent_path) : option Z :=
  match path with
  | [] => None
  | p0 :: _ =>
      if (p_depth p0 =? 0) && (extent p0 =? 0) then Some EXT_MAX_BLOCKS
      else next_loop (Z.to_nat (p_depth p0 + 1)) m path (p_depth p0)
  end.

(** [for (i = 0; i < blocks_count; i++)], [n] turns left. *)
Fixpoint zero_loop (n : nat) (block : Z) : F Z :=
  match n with
  | O => mret EOK
  | S n =>
      '(err, bh) ← up (get_into false EXT4_BLOCK_ZERO block);
      if negb (err =? EOK) then mret err
      else
        write (fun m => memset m (block_data bh) 0 (ext4_sb_get_block_size m sb));;
        a ← need (b_buf bh);
        up (ext4_trans_set_block_dirty a);;
        '(err, _) ← up (block_set bh);
        if negb (err =? EOK) then mret err else zero_loop n (u64 (block + 1))
  end.

Definition ext4_ext_zero_unwritten_range (block blocks_count : Z) : F Z := zero_loop (Z.to_nat blocks_count) block.

(** ** Lookup *)

(** The block that is not there: the status, the path, and what [*result] and
    [*blocks_count] are set to.  The distance to the next extent does not matter,
    since [ext4_new_meta_blocks] sets [allocated] to 1. *)
Definition create_blocks (path : list ext4_extent_path) (iblock max_blocks : Z)
    : F (Z * list ext4_extent_path * Z * Z) :=
  m ← see;
  _ ← need (ext4_ext_next_allocated_block m path);
  goal ← ext4_ext_find_goal path iblock;
  '(err, newblock) ← alloc_block goal;
  if newblock =? 0 then mret (err, path, 0, 0)
  else
    let allocated := 1 in
    let newex := ext4_ext_store_pblock (Extent iblock (u16 allocated) 0 0) newblock in
    '(err, path) ← ext4_ext_insert_extent path newex 0;
    if negb (err =? EOK) then
      free_blocks (ext4_ext_pblock newex) (block_count newex);;
      mret (err, path, 0, 0)
    else mret (EOK, path, ext4_ext_pblock newex, if max_blocks <? allocated then max_blocks else allocated).

(** The block is in extent [cur], which is not written. *)
Definition write_blocks (path : list ext4_extent_path) (cur : ext4_extent) (iblock allocated max_blocks : Z)
    : F (Z * list ext4_extent_path * Z * Z) :=
  let zero_range := if max_blocks <? allocated then max_blocks else allocated in
  let newblock := u64 (u32 (iblock - first_block cur) + ext4_ext_pblock cur) in
  err ← ext4_ext_zero_unwritten_range newblock zero_range;
  if negb (err =? EOK) then mret (err, path, 0, 0)
  else
    '(err, path) ← ext4_ext_convert_to_initialized path iblock zero_range;
    if negb (err =? EOK) then mret (err, path, 0, 0)
    else mret (EOK, path, newblock, zero_range).

(** The status, [*result] and [*blocks_count]. *)
Definition ext4_extent_get_blocks (iblock max_blocks : Z) (create : bool) : F (Z * Z * Z) :=
  '(err, path) ← ext4_find_extent iblock [];
  if negb (err =? EOK) then mret (err, 0, 0)
  else
    r ← inode_ref;
    m ← see;
    leaf ← need (path_at path (ext_depth m (ir_inode r)));
    let cur := load_extent m (extent leaf) in
    let ee_len := ext4_ext_get_actual_len cur in
    '(err, path, result, blocks_count) ←
      (if negb (extent leaf =? 0) && IN_RANGE iblock (first_block cur) ee_len then
         let allocated := u32 (ee_len - (iblock - first_block cur)) in
         let count := if max_blocks <? allocated then max_blocks else allocated in
         if negb (ext4_ext_is_unwritten cur)
         then mret (EOK, path, u64 (u32 (iblock - first_block cur) + ext4_ext_pblock cur), count)
         else if negb create then mret (EOK, path, 0, count)
         else write_blocks path cur iblock allocated max_blocks
       else if negb create then mret (EOK, path, 0, 0)
       else create_blocks path iblock max_blocks);
    (match path with [] => mret tt | _ => ext4_ext_drop_refs path 0 false;; mret tt end);;
    mret (err, result, blocks_count).
End extents.
