(* ===== verification/Ext4ExtentTree.v ===== *)
(** lwext4, extent trees: well-formed trees and the search in a node.

    [tree m d h lo hi E B] says that the node with header [h] is the root of a
    tree of depth [d] for the logical blocks [lo, hi), with the extents [E] in its
    leaves and its nodes below [h] in the blocks [B]. *)
From S2P Require Import Prelude Memory Ext4Errno Ext4Layout Ext4Super Ext4BlockGroup Ext4Inode Ext4Store Ext4Fs.
From S2P Require Import Ext4Groups Ext4Balloc Ext4File Ext4Extent.
#[local] Open Scope Z_scope.
#[local] Open Scope cint_scope.

(** ** Entries *)

Definition slot (h i : Z) : Z := h + 12 + 12 * i.
Definition key (m : memory) (h i : Z) : Z := fget ee_first_block m (slot h i).
Definition nentries (m : memory) (h : Z) : Z := fget eh_entries_count m h.
Definition nmax (m : memory) (h : Z) : Z := fget eh_max_entries_count m h.
Definition node_end (m : memory) (h : Z) : Z := h + 12 + 12 * nmax m h.

Lemma EXT_FIRST_slot h : EXT_FIRST h = slot h 0.
Proof. unfold EXT_FIRST, slot, sizeof_eh. lia. Qed.
Lemma EXT_LAST_slot m h : EXT_LAST m h = slot h (nentries m h - 1).
Proof. unfold EXT_LAST, EXT_FIRST, slot, sizeof_eh, sizeof_ee, nentries. lia. Qed.
Lemma EXT_MAX_slot m h : EXT_MAX m h = slot h (nmax m h - 1).
Proof. unfold EXT_MAX, EXT_FIRST, slot, sizeof_eh, sizeof_ee, nmax. lia. Qed.
Lemma slot_next h i : slot h i + 12 = slot h (i + 1).
Proof. unfold slot. lia. Qed.
Lemma entries_from_slots h i j : entries_from (slot h i) (slot h j) = j - i.
Proof. unfold entries_from, slot, sizeof_ee. replace (h + 12 + 12 * j - (h + 12 + 12 * i)) with ((j - i) * 12) by lia. by apply Z.div_mul. Qed.

Lemma nentries_range m h : 0 <= nentries m h < 2 ^ 16.
Proof. apply (fget_range eh_entries_count). Qed.
Lemma nmax_range m h : 0 <= nmax m h < 2 ^ 16.
Proof. apply (fget_range eh_max_entries_count). Qed.
Lemma key_range m h i : 0 <= key m h i < 2 ^ 32.
Proof. apply (fget_range ee_first_block). Qed.

(** ** The binary search *)

(** Entry [i] is the last one whose key is not above [block], or the first. *)
Definition found (m : memory) (h n block i : Z) : Prop :=
  0 <= i < n /\ (i = 0 \/ key m h i <= block) /\ forall j, i < j < n -> block < key m h j.

Lemma search_loop_ok fuel m block h n : forall lo hi,
  (forall i j, 1 <= i -> i <= j < n -> key m h i <= key m h j) ->
  1 <= lo -> lo - 1 <= hi < n -> (lo = 1 \/ key m h (lo - 1) <= block) -> (forall j, hi < j < n -> block < key m h j) ->
  hi + 1 - lo < Z.of_nat fuel ->
  exists i, search_loop fuel m block (slot h lo) (slot h hi) = Some (slot h i) /\ found m h n block i.
Proof.
  induction fuel as [|fuel IH]; intros lo hi Hs Hlo Hhi Hl Hr Hf; [lia|]. cbn [search_loop].
  assert (forall i, slot h i - sizeof_ee = slot h (i - 1)) as Hm by (intros; unfold slot, sizeof_ee; lia).
  assert (forall i, slot h i + sizeof_ee = slot h (i + 1)) as Hp by (intros; unfold slot, sizeof_ee; lia).
  destruct (slot h lo <=? slot h hi) eqn:E; zb; unfold slot in E.
  - rewrite entries_from_slots. set (k := (hi - lo) / 2). assert (0 <= k <= hi - lo) as Hk by (unfold k; pose proof (Z.mul_div_le (hi - lo) 2); pose proof (Z.div_pos (hi - lo) 2); lia).
    replace (slot h lo + k * sizeof_ee) with (slot h (lo + k)) by (unfold slot, sizeof_ee; lia).
    change (fget ee_first_block m (slot h (lo + k))) with (key m h (lo + k)).
    destruct (block <? key m h (lo + k)) eqn:Ek; zb.
    + rewrite Hm. apply IH; try done; try lia. intros j Hj. pose proof (Hs (lo + k) j). lia.
    + rewrite Hp. apply IH; try done; try lia. right. by replace (lo + k + 1 - 1) with (lo + k) by lia.
  - exists (lo - 1). rewrite Hm. split; [done|]. split; [lia|]. split; [lia|]. intros j Hj. apply Hr. lia.
Qed.

Lemma search_ok m block h : 1 <= nentries m h ->
  (forall i j, 1 <= i -> i <= j < nentries m h -> key m h i <= key m h j) ->
  exists i, search_loop (search_fuel m h) m block (slot h 1) (EXT_LAST m h) = Some (slot h i) /\ found m h (nentries m h) block i.
Proof.
  intros Hn Hs. rewrite EXT_LAST_slot. apply search_loop_ok; try done; try lia. unfold search_fuel. fold (nentries m h). lia.
Qed.

Lemma binsearch_idx_ok m block h : 1 <= nentries m h ->
  (forall i j, 1 <= i -> i <= j < nentries m h -> key m h i <= key m h j) ->
  exists i, ext4_ext_binsearch_idx m h block = Some (slot h i) /\ found m h (nentries m h) block i.
Proof.
  intros Hn Hs. unfold ext4_ext_binsearch_idx. replace (EXT_FIRST h + sizeof_ei) with (slot h 1) by (unfold slot, EXT_FIRST, sizeof_eh, sizeof_ei; lia).
  by apply search_ok.
Qed.

Lemma binsearch_ok m block h : 1 <= nentries m h ->
  (forall i j, 1 <= i -> i <= j < nentries m h -> key m h i <= key m h j) ->
  exists i, ext4_ext_binsearch m h block = Some (slot h i) /\ found m h (nentries m h) block i.
Proof.
  intros Hn Hs. unfold ext4_ext_binsearch. fold (nentries m h). destruct (nentries m h =? 0) eqn:E; zb; [lia|].
  replace (EXT_FIRST h + sizeof_ee) with (slot h 1) by (unfold slot, EXT_FIRST, sizeof_eh, sizeof_ee; lia). by apply search_ok.
Qed.

(** ** Extents *)

#[global] Instance extent_eq_dec : EqDecision ext4_extent.
Proof. solve_decision. Defined.

#[local] Notation elen := ext4_ext_get_actual_len.

Definition covers (e : ext4_extent) (n : Z) : bool := (first_block e <=? n) && (n <? first_block e + elen e).
Definition lookup_extent (E : list ext4_extent) (n : Z) : option ext4_extent := List.find (fun e => covers e n) E.

(** Non-empty extents in increasing order between [lo] and [hi]. *)
Fixpoint runs (lo hi : Z) (E : list ext4_extent) : Prop :=
  match E with
  | [] => lo <= hi
  | e :: E => lo <= first_block e /\ 0 < elen e /\ runs (first_block e + elen e) hi E
  end.

Lemma runs_le E : forall lo hi, runs lo hi E -> lo <= hi.
Proof. induction E as [|e E IH]; intros lo hi; cbn; [done|]. intros (? & ? & ?%IH). lia. Qed.

Lemma runs_weaken E : forall lo hi lo' hi', runs lo hi E -> lo' <= lo -> hi <= hi' -> runs lo' hi' E.
Proof. induction E as [|e E IH]; intros lo hi lo' hi'; cbn; [lia|]. intros (? & ? & HE) ? ?. split; [lia|]. split; [done|]. by eapply IH. Qed.

Lemma runs_app E1 E2 : forall lo hi, runs lo hi (E1 ++ E2) <-> exists mid, runs lo mid E1 /\ runs mid hi E2.
Proof.
  induction E1 as [|e E1 IH]; intros lo hi; cbn.
  - split; [intros HE; exists lo; split; [lia|done]|]. intros (mid & ? & HE). by eapply runs_weaken; [exact HE| |].
  - rewrite IH. split; [intros (? & ? & mid & ? & ?); by exists mid|intros (mid & (? & ? & ?) & ?); eauto].
Qed.

Lemma runs_in E : forall lo hi e, runs lo hi E -> e ∈ E -> lo <= first_block e /\ 0 < elen e /\ first_block e + elen e <= hi.
Proof.
  induction E as [|e0 E IH]; intros lo hi e; cbn; [by intros _ ?%elem_of_nil|]. intros (? & ? & HE) [->|He]%elem_of_cons.
  - pose proof (runs_le _ _ _ HE). lia.
  - destruct (IH _ _ _ HE He). lia.
Qed.

Lemma lookup_extent_app E1 E2 n : lookup_extent (E1 ++ E2) n = match lookup_extent E1 n with Some e => Some e | None => lookup_extent E2 n end.
Proof. induction E1 as [|e E1 IH]; [done|]. cbn. by destruct (covers e n). Qed.

Lemma lookup_extent_none E n : (forall e, e ∈ E -> covers e n = false) -> lookup_extent E n = None.
Proof.
  induction E as [|e E IH]; intros Hn; [done|]. cbn. rewrite (Hn e) by left. apply IH. intros e' He. apply Hn. by right.
Qed.

Lemma lookup_extent_outside E lo hi n : runs lo hi E -> n < lo \/ hi <= n -> lookup_extent E n = None.
Proof.
  intros HE Hn. apply lookup_extent_none. intros e He. destruct (runs_in _ _ _ _ HE He) as (? & ? & ?). unfold covers. lia.
Qed.

Lemma lookup_extent_some E n e : lookup_extent E n = Some e -> e ∈ E /\ covers e n = true.
Proof.
  induction E as [|e0 E IH]; [done|]. cbn. fold (lookup_extent E n). destruct (covers e0 n) eqn:Ec.
  - intros [= <-]. split; [left|done].
  - intros He. destruct (IH He). split; [by right|done].
Qed.

(** In a runs only the extent with the last key not above [n] can cover [n]. *)
Lemma lookup_extent_at E lo hi i e n : runs lo hi E -> E !! i = Some e ->
  (forall j e', (i < j)%nat -> E !! j = Some e' -> n < first_block e') -> (i = O \/ first_block e <= n) ->
  lookup_extent E n = if covers e n then Some e else None.
Proof.
  intros HE He Hn Hi. rewrite <- (take_drop_middle E i e He) in *. rewrite lookup_extent_app.
  apply runs_app in HE as (mid & H1 & H2). cbn in H2. destruct H2 as (Hm & Hl & H2).
  assert (lookup_extent (take i E) n = None) as ->.
  { destruct Hi as [->|Hi]; [done|]. eapply lookup_extent_outside; [exact H1|]. lia. }
  cbn. fold (lookup_extent (drop (S i) E) n). destruct (covers e n) eqn:Ec; [done|]. apply lookup_extent_none. intros e' [k Hk]%list_elem_of_lookup.
  assert (n < first_block e'); [|unfold covers; lia]. rewrite lookup_drop in Hk. apply (Hn (S i + k)%nat e'); [lia|].
  rewrite take_drop_middle by done. exact Hk.
Qed.

(** ** Trees *)

Definition leaf_extents (m : memory) (h : Z) : list ext4_extent := (fun i => load_extent m (slot h i)) <$> seqZ 0 (nentries m h).

Record node_ok (m : memory) (d : nat) (h : Z) : Prop := {
  n_magic : fget eh_magic m h = EXT4_EXTENT_MAGIC;
  n_depth : fget eh_depth m h = Z.of_nat d;
  n_max : 0 < nmax m h;
  n_entries : nentries m h <= nmax m h;
}.

Section tree.
Context `{Device}.

(** Child [i] of the node [h] of [m], for the logical blocks from [child_lo] to
    [child_hi]. *)
Definition child (m : memory) (h i : Z) : Z := ext4_idx_pblock m (slot h i).
Definition child_lo (m : memory) (h lo i : Z) : Z := if i =? 0 then lo else key m h i.
Definition child_hi (m : memory) (h hi i : Z) : Z := if i + 1 =? nentries m h then hi else key m h (i + 1).

(** A node that fills a block. *)
Definition block_ok (m : memory) (b : Z) : Prop := 0 < b < dev_blocks /\ node_end m (buf b) + 4 <= buf b + dev_bsize.

Fixpoint tree (m : memory) (d : nat) (h lo hi : Z) (E : list ext4_extent) (B : list Z) : Prop :=
  node_ok m d h /\
  match d with
  | O => E = leaf_extents m h /\ B = [] /\ runs lo hi E
  | S d => exists parts : list (list ext4_extent * list Z),
      1 <= nentries m h /\ Z.of_nat (length parts) = nentries m h /\ E = concat parts.*1 /\ B = concat parts.*2 /\
      forall (i : nat) Ei Bi, parts !! i = Some (Ei, Bi) -> exists B',
        let k := Z.of_nat i in
        Bi = child m h k :: B' /\ block_ok m (child m h k) /\
        tree m d (buf (child m h k)) (child_lo m h lo k) (child_hi m h hi k) Ei B'
  end.

Lemma tree_node m d h lo hi E B : tree m d h lo hi E B -> node_ok m d h.
Proof. destruct d; intros [Hn _]; exact Hn. Qed.

(** The parts of a node are runss one after the other. *)
Lemma parts_runs (parts : list (list ext4_extent * list Z)) : forall (bound : nat -> Z),
  (forall i P, parts !! i = Some P -> runs (bound i) (bound (S i)) P.1) ->
  (parts <> [] \/ bound O <= bound (length parts)) -> runs (bound O) (bound (length parts)) (concat parts.*1).
Proof.
  induction parts as [|P parts IH]; intros bound Hp Hb; cbn.
  - by destruct Hb.
  - apply runs_app. exists (bound 1%nat). split; [by apply (Hp O)|]. destruct parts as [|P' parts]; [cbn; lia|].
    apply (IH (fun i => bound (S i))); [|by left]. intros i P'' Hi. by apply (Hp (S i)).
Qed.

Lemma parts_around (parts : list (list ext4_extent * list Z)) (bound : nat -> Z) i P :
  (forall i P, parts !! i = Some P -> runs (bound i) (bound (S i)) P.1) -> parts !! i = Some P ->
  runs (bound O) (bound i) (concat (take i parts.*1)) /\ runs (bound (S i)) (bound (length parts)) (concat (drop (S i) parts.*1)).
Proof.
  intros Hp Hi. pose proof (lookup_lt_Some _ _ _ Hi). rewrite <- fmap_take, <- fmap_drop. split.
  - pose proof (parts_runs (take i parts) bound) as Hc. rewrite length_take_le in Hc by lia. apply Hc.
    + intros j Q Hj. apply Hp. by apply lookup_take_Some in Hj as [? _].
    + destruct i; [right; lia|left]. by destruct parts.
  - pose proof (parts_runs (drop (S i) parts) (fun j => bound (S i + j)%nat)) as Hc. rewrite length_drop, Nat.add_0_r in Hc.
    replace (S i + (length parts - S i))%nat with (length parts) in Hc by lia. apply Hc.
    + intros j Q Hj. rewrite lookup_drop in Hj. replace (S i + S j)%nat with (S (S i + j)) by lia. by apply Hp.
    + destruct (decide (S i = length parts)) as [->|]; [by right|left]. intros E%(f_equal length). rewrite length_drop in E. cbn in E. lia.
Qed.

(** The bound below child [i], and above the last one. *)
Definition bound (m : memory) (h lo hi : Z) (i : nat) : Z :=
  if Z.of_nat i =? nentries m h then hi else child_lo m h lo (Z.of_nat i).

Lemma bound_lo m h lo hi i : Z.of_nat i < nentries m h -> bound m h lo hi i = child_lo m h lo (Z.of_nat i).
Proof. intros Hi. unfold bound. case_if; [lia|done]. Qed.

Lemma bound_hi m h lo hi i : bound m h lo hi (S i) = child_hi m h hi (Z.of_nat i).
Proof.
  unfold bound, child_hi, child_lo. replace (Z.of_nat (S i)) with (Z.of_nat i + 1) by lia.
  destruct (_ =? nentries m h); [done|]. destruct (_ =? 0) eqn:E; [zb; lia|done].
Qed.

Lemma bound_last m h lo hi n : Z.of_nat n = nentries m h -> bound m h lo hi n = hi.
Proof. intros Hn. unfold bound. by rewrite Hn, Z.eqb_refl. Qed.

Lemma tree_runs m d : forall h lo hi E B, tree m d h lo hi E B -> runs lo hi E.
Proof.
  induction d as [|d IH]; intros h lo hi E B [Hn T]; [by destruct T as (_ & _ & ?)|].
  destruct T as (parts & Hne & Hlen & -> & _ & Hp).
  pose proof (parts_runs parts (bound m h lo hi)) as Hch. rewrite bound_lo, bound_last in Hch by lia. apply Hch.
  - intros i [Ei Bi] Hi. destruct (Hp i Ei Bi Hi) as (B' & _ & _ & HT%IH). pose proof (lookup_lt_Some _ _ _ Hi).
    rewrite bound_lo, bound_hi by lia. exact HT.
  - left. intros ->. cbn in Hlen. lia.
Qed.

Lemma tree_parts m d h lo hi (parts : list (list ext4_extent * list Z)) : Z.of_nat (length parts) = nentries m h ->
  (forall (i : nat) Ei Bi, parts !! i = Some (Ei, Bi) -> exists B',
     let k := Z.of_nat i in
     Bi = child m h k :: B' /\ block_ok m (child m h k) /\
     tree m d (buf (child m h k)) (child_lo m h lo k) (child_hi m h hi k) Ei B') ->
  forall i P, parts !! i = Some P -> runs (bound m h lo hi i) (bound m h lo hi (S i)) P.1.
Proof.
  intros Hlen Hp i [Ei Bi] Hi. destruct (Hp i Ei Bi Hi) as (B' & _ & _ & HT%tree_runs). pose proof (lookup_lt_Some _ _ _ Hi).
  rewrite bound_lo, bound_hi by lia. exact HT.
Qed.

(** The keys of an inner node are in order. *)
Lemma bounds_mono (f : nat -> Z) n : (forall i, (i < n)%nat -> f i <= f (S i)) -> forall i j, (i <= j <= n)%nat -> f i <= f j.
Proof. intros Hf i j [Hij Hj]. induction Hij as [|j Hij IH]; [lia|]. pose proof (Hf j ltac:(lia)). lia. Qed.

Lemma tree_keys m d h lo hi E B : tree m (S d) h lo hi E B ->
  forall i j, 1 <= i -> i <= j < nentries m h -> key m h i <= key m h j.
Proof.
  intros [_ (parts & Hne & Hlen & _ & _ & Hp)] i j Hi Hj.
  assert (forall k, (k < length parts)%nat -> bound m h lo hi k <= bound m h lo hi (S k)) as Hb.
  { intros k Hk. destruct (lookup_lt_is_Some_2 parts k Hk) as [[Ek Bk] Ek']. destruct (Hp _ _ _ Ek') as (B' & _ & _ & HT%tree_runs%runs_le).
    rewrite bound_lo, bound_hi by lia. exact HT. }
  pose proof (bounds_mono _ _ Hb (Z.to_nat i) (Z.to_nat j)) as Hm. rewrite !bound_lo in Hm by lia. unfold child_lo in Hm.
  rewrite !Z2Nat.id in Hm by lia. destruct (i =? 0) eqn:E1, (j =? 0) eqn:E2; zb; lia.
Qed.

(** ** Going down *)

Lemma found_bounds m d h lo hi E B block i : tree m (S d) h lo hi E B -> lo <= block < hi ->
  found m h (nentries m h) block i -> child_lo m h lo i <= block < child_hi m h hi i.
Proof.
  intros T Hb (Hi & Hk & Hj). unfold child_lo, child_hi. split.
  - destruct (i =? 0) eqn:E0; zb; lia.
  - destruct (i + 1 =? nentries m h) eqn:E0; zb; [lia|]. apply Hj. lia.
Qed.

Lemma concat_take_drop {A} (l : list (list A)) i x : l !! i = Some x -> concat l = concat (take i l) ++ x ++ concat (drop (S i) l).
Proof. intros Hx. rewrite <- (take_drop_middle l i x Hx) at 1. by rewrite concat_app. Qed.

Lemma tree_descend m d h lo hi E B block i : tree m (S d) h lo hi E B -> lo <= block < hi ->
  found m h (nentries m h) block i -> exists Ei Bi,
    tree m d (buf (child m h i)) (child_lo m h lo i) (child_hi m h hi i) Ei Bi /\ block_ok m (child m h i) /\
    lookup_extent E block = lookup_extent Ei block /\ sublist (child m h i :: Bi) B.
Proof.
  intros T Hb Hf. pose proof (found_bounds _ _ _ _ _ _ _ _ _ T Hb Hf) as Hc.
  destruct T as [_ (parts & Hne & Hlen & -> & -> & Hp)], Hf as (Hi & _).
  destruct (lookup_lt_is_Some_2 parts (Z.to_nat i)) as [[Ei Bi] Ei']; [lia|]. destruct (Hp _ _ _ Ei') as (B' & -> & Hok & HT).
  destruct (parts_around _ _ _ _ (tree_parts _ _ _ _ _ _ Hlen Hp) Ei') as [C1 C2].
  rewrite bound_hi in C2. rewrite !bound_lo in C1 by lia.
  rewrite Z2Nat.id in * by lia. exists Ei, B'. split; [done|]. split; [done|]. split.
  - assert (parts.*1 !! Z.to_nat i = Some Ei) as E1 by (by rewrite list_lookup_fmap, Ei').
    rewrite (concat_take_drop _ _ _ E1), !lookup_extent_app, (lookup_extent_outside _ _ _ _ C1), (lookup_extent_outside _ _ _ _ C2) by lia.
    by destruct (lookup_extent Ei block).
  - assert (parts.*2 !! Z.to_nat i = Some (child m h i :: B')) as E2 by (by rewrite list_lookup_fmap, Ei').
    rewrite (concat_take_drop _ _ _ E2). by apply sublist_inserts_l, sublist_inserts_r.
Qed.

Lemma leaf_lookup m h i : Z.of_nat i < nentries m h -> leaf_extents m h !! i = Some (load_extent m (slot h (Z.of_nat i))).
Proof.
  intros Hi. unfold leaf_extents. rewrite list_lookup_fmap, lookup_seqZ_lt by lia. cbn. by rewrite Z.add_0_l.
Qed.

Lemma leaf_length m h : length (leaf_extents m h) = Z.to_nat (nentries m h).
Proof. unfold leaf_extents. by rewrite length_fmap, length_seqZ. Qed.

Lemma runs_sorted E : forall lo hi i j e e', runs lo hi E -> (i < j)%nat -> E !! i = Some e -> E !! j = Some e' ->
  first_block e + elen e <= first_block e'.
Proof.
  induction E as [|e0 E IH]; intros lo hi i j e e' HE Hij Hi Hj; [done|]. cbn in HE. destruct HE as (_ & _ & HE).
  destruct j as [|j]; [lia|]. destruct i as [|i]; [|by apply (IH _ _ i j e e' HE); [lia| |]]. injection Hi as ->.
  cbn in Hj. apply list_elem_of_lookup_2 in Hj. by destruct (runs_in _ _ _ _ HE Hj).
Qed.

Lemma leaf_keys m h lo hi E B : tree m 0 h lo hi E B -> forall i j, 1 <= i -> i <= j < nentries m h -> key m h i <= key m h j.
Proof.
  intros [_ (-> & _ & HE)] i j Hi Hj. destruct (decide (i = j)) as [->|Hne]; [lia|].
  pose proof (runs_sorted _ _ _ (Z.to_nat i) (Z.to_nat j) _ _ HE ltac:(lia)
    (leaf_lookup m h (Z.to_nat i) ltac:(lia)) (leaf_lookup m h (Z.to_nat j) ltac:(lia))) as Hs.
  rewrite !Z2Nat.id in Hs by lia.
  destruct (runs_in _ _ _ _ HE (list_elem_of_lookup_2 _ _ _ (leaf_lookup m h (Z.to_nat i) ltac:(lia)))) as (_ & Hl & _).
  rewrite Z2Nat.id in Hl by lia. unfold key. cbn in Hs. lia.
Qed.

Lemma leaf_found m h lo hi E B block i : tree m 0 h lo hi E B -> found m h (nentries m h) block i ->
  lookup_extent E block = if covers (load_extent m (slot h i)) block then Some (load_extent m (slot h i)) else None.
Proof.
  intros [_ (-> & _ & HE)] (Hi & Hk & Hj). pose proof (leaf_lookup m h (Z.to_nat i) ltac:(lia)) as Ei. rewrite Z2Nat.id in Ei by lia.
  apply (lookup_extent_at _ _ _ _ _ _ HE Ei).
  - intros j e' Hlt Ej. pose proof (lookup_lt_Some _ _ _ Ej) as Hl. rewrite leaf_length in Hl. rewrite leaf_lookup in Ej by lia.
    injection Ej as <-. apply Hj. lia.
  - destruct Hk as [->|Hk]; [by left|right; exact Hk].
Qed.

(** ** Frame *)

Definition node_same (m m' : memory) (h : Z) : Prop := forall x, h <= x < node_end m h -> ld8 m' x = ld8 m x.

Section same.
Context (m m' : memory) (h : Z) (Hs : node_same m m' h).

Lemma same_field f : 0 <= f_off f -> 0 <= f_len f -> f_off f + f_len f <= 12 -> fget f m' h = fget f m h.
Proof. intros ? ? ?. pose proof (nmax_range m h). apply fget_on; [done|]. intros x Hx. apply Hs. unfold node_end. lia. Qed.

Lemma same_nentries : nentries m' h = nentries m h.
Proof. apply same_field; cbn; lia. Qed.
Lemma same_nmax : nmax m' h = nmax m h.
Proof. apply same_field; cbn; lia. Qed.

Lemma same_node d : node_ok m d h -> node_ok m' d h.
Proof. intros [A1 A2 A3 A4]. constructor; rewrite ?same_nentries, ?same_nmax, ?same_field; try done; cbn; lia. Qed.

Lemma same_entry f i : 0 <= i < nmax m h -> 0 <= f_off f -> 0 <= f_len f -> f_off f + f_len f <= 12 ->
  fget f m' (slot h i) = fget f m (slot h i).
Proof. intros ? ? ? ?. apply fget_on; [done|]. intros x Hx. apply Hs. unfold node_end, slot in *. lia. Qed.

Lemma same_key i : 0 <= i < nmax m h -> key m' h i = key m h i.
Proof. intros Hi. apply same_entry; cbn; lia. Qed.
Lemma same_extent i : 0 <= i < nmax m h -> load_extent m' (slot h i) = load_extent m (slot h i).
Proof. intros Hi. unfold load_extent. by rewrite !same_entry by (cbn; lia). Qed.
Lemma same_child i : 0 <= i < nmax m h -> child m' h i = child m h i.
Proof. intros Hi. unfold child, ext4_idx_pblock. by rewrite !same_entry by (cbn; lia). Qed.

Lemma same_leaf : nentries m h <= nmax m h -> leaf_extents m' h = leaf_extents m h.
Proof.
  intros Hn. unfold leaf_extents. rewrite same_nentries. apply list_fmap_ext. intros i x Hx.
  apply lookup_seqZ in Hx as [-> Hi]. apply same_extent. lia.
Qed.

Lemma same_bounds lo hi i : nentries m h <= nmax m h -> 0 <= i < nentries m h ->
  child_lo m' h lo i = child_lo m h lo i /\ child_hi m' h hi i = child_hi m h hi i.
Proof.
  intros Hn Hi. unfold child_lo, child_hi. rewrite same_nentries. split.
  - destruct (i =? 0); [done|]. apply same_key. lia.
  - destruct (i + 1 =? nentries m h) eqn:E; [done|]. zb. apply same_key. lia.
Qed.
End same.

Lemma tree_on m m' d : forall h lo hi E B, node_same m m' h -> (forall b, b ∈ B -> node_same m m' (buf b)) ->
  tree m d h lo hi E B -> tree m' d h lo hi E B.
Proof.
  induction d as [|d IH]; intros h lo hi E B Hh HB [Hn T]; (split; [by apply (same_node m)|]); pose proof (n_entries _ _ _ Hn) as Hle.
  - by rewrite (same_leaf m).
  - destruct T as (parts & Hne & Hlen & -> & -> & Hp). exists parts. rewrite (same_nentries m) by done. split_and!; try done.
    intros i Ei Bi Hi. destruct (Hp _ _ _ Hi) as (B' & Hb & Hok & HT). exists B'. cbv zeta in *. pose proof (lookup_lt_Some _ _ _ Hi).
    destruct (same_bounds m m' h Hh lo hi (Z.of_nat i)) as [-> ->]; [done|lia|]. rewrite (same_child m) by (done || lia).
    assert (forall b, b ∈ Bi -> node_same m m' (buf b)) as HBi.
    { intros b Hb'. apply HB. apply list_elem_of_In, in_concat. exists Bi. split; [|by apply list_elem_of_In].
      apply list_elem_of_In, list_elem_of_lookup. exists i. by rewrite list_lookup_fmap, Hi. }
    subst Bi. assert (node_same m m' (buf (child m h (Z.of_nat i)))) as Hc by (apply HBi; left).
    split; [done|]. split.
    + unfold block_ok, node_end in *. by rewrite (same_nmax m).
    + apply IH; [done| |done]. intros b Hb. apply HBi. by right.
Qed.
End tree.
