(* ===== verification/Ext4ExtentFind.v ===== *)
(** lwext4, extent trees: [ext4_find_extent] on a well-formed tree, and the
    release of the path it returns. *)
From S2P Require Import Prelude Memory Ext4Errno Ext4Layout Ext4Super Ext4BlockGroup Ext4Inode Ext4Store Ext4Fs.
From S2P Require Import Ext4Groups Ext4Balloc Ext4File Ext4Extent Ext4ExtentTree.
#[local] Open Scope Z_scope.
#[local] Open Scope cint_scope.

Section find.
Context `{Device}.
#[local] Notation sb := fs_sb.

(** ** Blocks *)

(** Nothing but the clock and what has been written back changes. *)
Definition quiet (s s' : ext4_fs) : Prop :=
  mem s' = mem s /\ dirty s' = dirty s /\ last_inode_bg_id s' = last_inode_bg_id s.

Lemma quiet_refl s : quiet s s.
Proof. done. Qed.
Lemma quiet_trans s s1 s2 : quiet s s1 -> quiet s1 s2 -> quiet s s2.
Proof. intros (? & ? & ?) (? & ? & ?). split_and!; congruence. Qed.

(** Every access that fails fails when the block is read, after it has got a
    buffer: neither writing back the buffer that is evicted nor allocating one
    fails.  [read_extent_tree_block] relies on it, see [early_failure_stops]. *)
Definition no_early : Prop := forall n, dev_early n = false.

(** The device is open; for a tree with nodes [B] outside the inode it has
    [no_early]. *)
Definition device_ok (B : list Z) : Prop := dev_open = true /\ (B = [] \/ no_early).

Lemma run_get_any b a s (Q : Z * ext4_block -> ext4_fs -> Prop) :
  (forall r b' s', device_error r -> (no_early -> dev_open = true -> a < dev_blocks -> b' = Blk 0 (Some a)) -> quiet s s' ->
     held s' = held s -> Q (r, b') s') ->
  (forall s', quiet s s' -> held s' = a :: held s -> Q (EOK, Blk a (Some a)) s') ->
  run (get_into true b a) s Q.
Proof.
  intros Hf Ho.
  destruct (run_get a s (fun r s' => quiet s s' /\ ((r = EOK /\ held s' = a :: held s) \/ (device_error r /\ held s' = held s)))) as (r & s' & E & Hq & Hr).
  - intros r s' Hr E1 E2 E3 E4. split; [by split_and!|]. by right.
  - intros s' _ E1 E2 E3 E4. split; [by split_and!|]. by left.
  - unfold run, get_into. rewrite E. destruct Hr as [[-> Hh]|[Hr Hh]].
    + exists (EOK, Blk a (Some a)), s'. split; [done|]. by apply Ho.
    + eexists (r, _), s'. split; [done|]. destruct (r =? EOK) eqn:E0; [by destruct Hr; zb|]. apply Hf; try done.
      intros He Hop Ha. rewrite Hop, He. destruct (dev_blocks <=? a) eqn:E1; [zb; lia|done].
Qed.

Lemma run_get_into b a s (Q : Z * ext4_block -> ext4_fs -> Prop) : dev_open = true -> no_early -> a < dev_blocks ->
  (forall r s', device_error r -> quiet s s' -> held s' = held s -> Q (r, Blk 0 (Some a)) s') ->
  (forall s', quiet s s' -> held s' = a :: held s -> Q (EOK, Blk a (Some a)) s') ->
  run (get_into true b a) s Q.
Proof. intros Hop He Ha Hf Ho. apply run_get_any; [|done]. intros r b' s' Hr Hb. rewrite Hb by done. by apply Hf. Qed.

Lemma release_mid a x l : a ∉ x -> release a (x ++ a :: l) = Some (x ++ l).
Proof.
  induction x as [|b x IH]; intros Hx; cbn; [by rewrite Z.eqb_refl|].
  apply not_elem_of_cons in Hx as [Hb Hx]. destruct (b =? a) eqn:E; [zb; congruence|]. by rewrite IH.
Qed.

Lemma run_block_set a x l s (Q : Z * ext4_block -> ext4_fs -> Prop) : dev_open = true -> a <> 0 -> a ∉ x -> held s = x ++ a :: l ->
  Q (EOK, Blk 0 (Some a)) (set_held s (x ++ l)) -> run (block_set (Blk a (Some a))) s Q.
Proof.
  intros Hop Ha Hx Hh HQ. unfold block_set. cbn [b_buf lb_id]. apply run_bind. exists EOK, (set_held s (x ++ l)). split.
  - unfold ext4_block_set. by rewrite Hop, Hh, release_mid.
  - rewrite (Z.eqb_refl EOK). cbn [negb]. destruct (a =? 0) eqn:E; [by zb|]. by apply run_ret.
Qed.

(** ** Releasing a path *)

(** The bytes between the entries of a node and its end, where its checksum is. *)
Definition in_tail (m : memory) (b x : Z) : Prop := node_end m (buf b) <= x < node_end m (buf b) + 4.
Definition tails (B : list Z) (m m' : memory) : Prop := forall x, (forall b, b ∈ B -> ~ in_tail m b x) -> m' x = m x.

Lemma tails_refl B m : tails B m m.
Proof. done. Qed.

Lemma tails_weaken B B' m m' : B ⊆ B' -> tails B m m' -> tails B' m m'.
Proof. intros Hs Ht x Hx. apply Ht. intros b Hb. by apply Hx, Hs. Qed.

Definition nodes_ok (m : memory) (B : list Z) : Prop := forall b, b ∈ B -> block_ok m b.

(** Tails are apart from nodes. *)
Lemma tail_apart m b b' x : 0 < dev_bsize -> block_ok m b -> block_ok m b' -> in_tail m b x -> ~ (buf b' <= x < node_end m (buf b')).
Proof.
  intros Hp [_ H1] [_ H2] [Hx1 Hx2] [Hy1 Hy2]. pose proof (nmax_range m (buf b)). pose proof (nmax_range m (buf b')). unfold node_end in *.
  destruct (decide (b = b')) as [->|Hne]; [lia|]. pose proof (buf_apart b b' Hp Hne). lia.
Qed.

Lemma tails_node B m m' b : 0 < dev_bsize -> nodes_ok m B -> block_ok m b -> tails B m m' -> node_same m m' (buf b).
Proof.
  intros Hp HB Hb Ht x Hx. unfold ld8. f_equal. apply Ht. intros b' Hb' Hin. by apply (tail_apart m b' b x Hp (HB _ Hb') Hb).
Qed.

Lemma tails_nmax B m m' b : 0 < dev_bsize -> nodes_ok m B -> block_ok m b -> tails B m m' -> nmax m' (buf b) = nmax m (buf b).
Proof. intros Hp HB Hb Ht. apply (same_nmax m). by eapply tails_node. Qed.

Lemma tails_block B m m' b : 0 < dev_bsize -> nodes_ok m B -> block_ok m b -> tails B m m' -> block_ok m' b.
Proof. intros Hp HB Hb Ht. unfold block_ok, node_end in *. by rewrite (tails_nmax B m). Qed.

Lemma tails_trans B m m1 m2 : 0 < dev_bsize -> nodes_ok m B -> tails B m m1 -> tails B m1 m2 -> tails B m m2.
Proof.
  intros Hp HB H1 H2 x Hx. rewrite <- H1 by done. apply H2. intros b Hb. unfold in_tail, node_end. rewrite (tails_nmax B m) by (done || by apply HB).
  by apply Hx.
Qed.

(** What a path entry holds. *)
Definition droppable (m : memory) (p : ext4_extent_path) : Prop :=
  lb_id (p_blk p) = 0 \/ exists b, p_blk p = Blk b (Some b) /\ header p = buf b /\ block_ok m b.
Definition holding (p : ext4_extent_path) : list Z := if lb_id (p_blk p) =? 0 then [] else [lb_id (p_blk p)].

Lemma path_at_app done_ p rest : path_at (done_ ++ p :: rest) (Z.of_nat (length done_)) = Some p.
Proof. unfold path_at. destruct (_ <? 0) eqn:E; [zb; lia|]. rewrite Nat2Z.id. by apply list_lookup_middle. Qed.

Lemma path_put_app done_ p q rest : path_put (done_ ++ p :: rest) (Z.of_nat (length done_)) q = done_ ++ q :: rest.
Proof. unfold path_put. rewrite Nat2Z.id. rewrite insert_app_r_alt by lia. by rewrite Nat.sub_diag. Qed.

Lemma path_put_head p q path : path_put (p :: path) 0 q = q :: path.
Proof. done. Qed.

Lemma runf_csum_set b r s (Q : unit -> ext4_inode_ref -> ext4_fs -> Prop) : block_ok (mem s) b ->
  (forall m', tails [b] (mem s) m' -> Q tt r (set_mem s m')) -> runf (ext4_extent_block_csum_set (buf b)) r s Q.
Proof.
  intros Hb HQ. unfold ext4_extent_block_csum_set. fsteps. apply HQ. intros x Hx. pose proof (Hx b ltac:(by left)) as Hn.
  unfold in_tail, node_end, nmax in Hn. apply stn_other. unfold EXT4_EXTENT_TAIL_OFFSET, sizeof_eh, sizeof_ee. cbn [et_checksum f_off f_len]. lia.
Qed.

Lemma app_cons_assoc {A} (l1 : list A) x l2 : l1 ++ x :: l2 = (l1 ++ [x]) ++ l2.
Proof. by rewrite <- app_assoc. Qed.

Lemma holding_zero p : lb_id (p_blk p) = 0 -> holding p = [].
Proof. intros Hz. unfold holding. by rewrite Hz. Qed.

Lemma holding_block p b : p_blk p = Blk b (Some b) -> b <> 0 -> holding p = [b].
Proof. intros Eb Hb. unfold holding. rewrite Eb. cbn. destruct (b =? 0) eqn:E; [by zb|done]. Qed.

Lemma droppable_nodes m todo : Forall (droppable m) todo -> nodes_ok m (concat (holding <$> todo)).
Proof.
  induction 1 as [|p todo [Hz|(b & Eb & _ & Hb)] _ IH]; cbn [fmap list_fmap concat].
  - by intros b ?%elem_of_nil.
  - by rewrite (holding_zero p Hz).
  - rewrite (holding_block p b Eb) by (destruct Hb; lia). by intros b' [->|]%elem_of_cons; [|apply IH].
Qed.

Lemma droppable_tails m m' b p : 0 < dev_bsize -> block_ok m b -> tails [b] m m' -> droppable m p -> droppable m' p.
Proof.
  intros Hp Hb Ht [Hz|(b' & Eb & Eh & Hb')]; [by left|right]. exists b'. split; [done|]. split; [done|].
  apply (tails_block [b] m); try done. by intros b0 ->%list_elem_of_singleton.
Qed.

(** The checksum is stored or not, then the block is released. *)
Lemma runf_drop_one b h d l x r s (Q : Z * ext4_block -> ext4_inode_ref -> ext4_fs -> Prop) :
  dev_open = true -> block_ok (mem s) b -> h = buf b -> b ∉ x -> held s = x ++ b :: l ->
  (forall m', tails [b] (mem s) m' -> Q (EOK, Blk 0 (Some b)) r (set_held (set_mem s m') (x ++ l))) ->
  runf ((if (d : bool) then ext4_extent_block_csum_set h else mret tt);; up (block_set (Blk b (Some b)))) r s Q.
Proof.
  intros Hop Hb -> Hx Hh HQ. assert (b <> 0) by (destruct Hb; lia).
  assert (forall m', tails [b] (mem s) m' -> runf (up (block_set (Blk b (Some b)))) r (set_mem s m') Q) as Hk.
  { intros m' Ht. apply runf_up. apply (run_block_set b x l); try done. by apply HQ. }
  fstep. destruct d.
  - by apply runf_csum_set.
  - fstep. specialize (Hk (mem s) (tails_refl _ _)). by destruct s.
Qed.

Lemma F_assoc {A B C} (c : F A) (k : A -> F B) (k' : B -> F C) r s Q :
  runf (c ≫= k) r s (fun y r s => runf (k' y) r s Q) -> runf (c ≫= fun x => k x ≫= k') r s Q.
Proof.
  intros (p & s1 & E & HQ). unfold runf, run, mbind, F_bind, mbind, M_bind in *. destruct (c r s) as [[[x r1] s0]|]; [|done].
  rewrite E. by destruct p.
Qed.

Lemma runf_drop_loop todo : forall done_ more l r s (Q : list ext4_extent_path -> ext4_inode_ref -> ext4_fs -> Prop),
  dev_open = true -> 0 < dev_bsize -> Forall (droppable (mem s)) todo -> NoDup (concat (holding <$> todo)) ->
  held s = rev (concat (holding <$> todo)) ++ l ->
  (forall todo' s', length todo' = length todo -> Forall (fun p => lb_id (p_blk p) = 0) todo' ->
     tails (concat (holding <$> todo)) (mem s) (mem s') -> dirty s' = dirty s -> held s' = l ->
     last_inode_bg_id s' = last_inode_bg_id s -> Q (done_ ++ todo' ++ more) r s') ->
  runf (drop_loop (length todo) (Z.of_nat (length done_)) (done_ ++ todo ++ more)) r s Q.
Proof.
  induction todo as [|p todo IH]; intros done_ more l r s Q Hop Hp Hd Hnd Hh HQ.
  - cbn. fstep. apply (HQ []); try done.
  - pose proof (droppable_nodes _ _ Hd) as Hall. apply Forall_cons in Hd as [Hd0 Hd]. cbn [length drop_loop]. fstep. cbn [app].
    eapply runf_need; [apply path_at_app|].
    assert (forall q, Z.of_nat (length done_) + 1 = Z.of_nat (length (done_ ++ [q]))) as El by (intros; rewrite length_app; cbn; lia).
    cbn [fmap list_fmap concat] in Hnd, Hh, HQ, Hall. destruct Hd0 as [Hz|(b & Eb & Ehd & Hb)].
    + rewrite (holding_zero p Hz) in *. rewrite Hz. cbn [Z.eqb negb app] in *.
      rewrite (El p), (app_cons_assoc done_ p (todo ++ more)). apply (IH (done_ ++ [p]) more l); try done.
      intros todo' s' ? ? ? ? ? ?. rewrite <- app_cons_assoc. apply (HQ (p :: todo')); cbn; auto with lia.
    + assert (b <> 0) as Hb0 by (destruct Hb; lia). rewrite (holding_block p b Eb Hb0) in *. rewrite Eb. cbn [lb_id b_buf app] in *.
      destruct (b =? 0) eqn:E0; [by zb|]. cbn [negb]. apply NoDup_cons in Hnd as [Hn Hnd]. fstep. eapply runf_need; [done|].
      fstep. apply runf_up. exists (bool_decide (b ∈ unsaved s)), s. split; [done|]. apply F_assoc.
      cbn [rev] in Hh. rewrite <- app_assoc in Hh. cbn [app] in Hh.
      apply (runf_drop_one b _ _ l (rev (concat (holding <$> todo)))); try done.
      { intros Hi. apply Hn, list_elem_of_In, in_rev. by apply list_elem_of_In. }
      intros m' Ht. rewrite path_put_app, (El (with_blk p (Blk 0 (Some b)))), (app_cons_assoc done_ _ (todo ++ more)).
      apply (IH (done_ ++ [with_blk p (Blk 0 (Some b))]) more l); try done.
      { eapply Forall_impl; [exact Hd|]. intros q. by apply (droppable_tails (mem s) m' b). }
      intros todo' s' ? ? Ht' ? ? ?. rewrite <- app_cons_assoc. apply (HQ (with_blk p (Blk 0 (Some b)) :: todo')); cbn; auto with lia.
      eapply (tails_trans _ _ m'); try done; (eapply tails_weaken; [|eassumption]); set_solver.
Qed.

(** ** Walking down *)

Definition blocks_of (path : list ext4_extent_path) : list Z := concat (holding <$> path).

Lemma blocks_of_app p q : blocks_of (p ++ q) = blocks_of p ++ blocks_of q.
Proof. unfold blocks_of. by rewrite fmap_app, concat_app. Qed.

Lemma blocks_of_zero n : blocks_of (replicate n zero_path) = [].
Proof. induction n as [|n IH]; [done|]. exact IH. Qed.

(** A path to the blocks that it holds in addition to [l]. *)
Record path_held (m : memory) (path : list ext4_extent_path) (l : list Z) (s : ext4_fs) : Prop := {
  ph_drop : Forall (droppable m) path;
  ph_nodup : NoDup (blocks_of path);
  ph_held : held s = rev (blocks_of path) ++ l;
}.

Lemma path_held_zeros m path n l s : path_held m path l s -> path_held m (path ++ replicate n zero_path) l s.
Proof.
  intros [A B C]. constructor; rewrite ?blocks_of_app, ?blocks_of_zero, ?app_nil_r; try done. apply Forall_app. split; [done|].
  apply Forall_replicate. by left.
Qed.

Lemma path_held_quiet m path l s s' : path_held m path l s -> held s' = held s -> path_held m path l s'.
Proof. intros [A B C] E. constructor; try done. by rewrite E. Qed.

Definition head_depth (path : list ext4_extent_path) (depth : Z) : Prop :=
  match path with [] => True | p :: _ => p_depth p = depth end.

(** Setting other fields than the block and the header. *)
Definition same_block (p q : ext4_extent_path) : Prop := p_blk q = p_blk p /\ header q = header p.

Lemma droppable_same m p q : same_block p q -> droppable m p -> droppable m q.
Proof. intros [E1 E2]. unfold droppable. by rewrite E1, E2. Qed.

Lemma blocks_of_same a p q b : same_block p q -> blocks_of (a ++ q :: b) = blocks_of (a ++ p :: b).
Proof. intros [Hs _]. rewrite !blocks_of_app. f_equal. unfold blocks_of. cbn. f_equal. unfold holding. by rewrite Hs. Qed.

Lemma path_held_same m a p q b l s : same_block p q -> path_held m (a ++ p :: b) l s -> path_held m (a ++ q :: b) l s.
Proof.
  intros Hs [A B C]. constructor; rewrite ?(blocks_of_same a p q b Hs); try done. apply Forall_app in A as [A1 (A2 & A3)%Forall_cons]. apply Forall_app. split; [done|].
  apply Forall_cons. split; [by eapply droppable_same|done].
Qed.

Lemma check_ok m d h : node_ok m d h -> ext4_ext_check m h (Z.of_nat d) = EOK.
Proof.
  intros [A1 A2 A3 A4]. unfold ext4_ext_check. rewrite A1, A2, !Z.eqb_refl. cbn [negb]. unfold nmax, nentries in *.
  destruct (_ =? 0) eqn:E; [zb; lia|]. destruct (_ <? _) eqn:E'; [zb; lia|done].
Qed.

Lemma runf_read_block b d bh r s (Q : Z * ext4_block -> ext4_inode_ref -> ext4_fs -> Prop) : dev_open = true -> no_early ->
  block_ok (mem s) b -> node_ok (mem s) d (buf b) ->
  (forall ret s', device_error ret -> quiet s s' -> held s' = held s -> Q (ret, Blk 0 (Some b)) r s') ->
  (forall s', quiet s s' -> held s' = b :: held s -> Q (EOK, Blk b (Some b)) r s') ->
  runf (read_extent_tree_block b (Z.of_nat d) bh) r s Q.
Proof.
  intros Hop He [Hb _] Hn Hf Ho. unfold read_extent_tree_block. fstep. apply runf_up. apply run_get_into; [done|done|lia| |].
  - intros ret s' Hr Hq Hh. fsteps. destruct (ret =? EOK) eqn:E; [by destruct Hr; zb|]. cbn [negb]. rewrite E. cbn [negb lb_id Z.eqb].
    fstep. by apply Hf.
  - intros s' Hq Hh. fsteps. rewrite (Z.eqb_refl EOK). cbn [negb block_data b_buf]. destruct Hq as (Em & Hq). rewrite Em, (check_ok _ _ _ Hn).
    rewrite (Z.eqb_refl EOK). cbn [negb]. fstep. by apply Ho.
Qed.

Lemma tree_search m d h lo hi E B block : tree m (S d) h lo hi E B -> lo <= block < hi ->
  exists i, ext4_ext_binsearch_idx m h block = Some (slot h i) /\ found m h (nentries m h) block i.
Proof.
  intros T Hb. apply binsearch_idx_ok; [|by eapply tree_keys]. by destruct T as [_ (parts & ? & _)].
Qed.

Section walk.
Context (m : memory) (block depth : Z) (l Ball : list Z) (r : ext4_inode_ref).
Hypothesis (Hdev : device_ok Ball) (Hbs : 0 < dev_bsize) (Hbufs : 0 <= dev_bufs) (Hall : NoDup Ball).

(** How the walk ends: without a node, or at the leaf for [block]. *)
Definition walked (E : list ext4_extent) (s : ext4_fs) (out : Z * Z * list ext4_extent_path) (r' : ext4_inode_ref) (s' : ext4_fs) : Prop :=
  let '(ret, ppos, path) := out in
  r' = r /\ quiet s s' /\
  ((exists front, device_error ret /\ path = front ++ [zero_path] /\ Z.of_nat (length front) = depth + 1 /\
      head_depth front depth /\ path_held m front l s' /\ sublist (blocks_of front) Ball) \/
   (exists front leaf lo hi E' B', ret = EOK /\ ppos = depth /\ path = front ++ [leaf; zero_path] /\ Z.of_nat (length front) = depth /\
      head_depth front depth /\ path_held m (front ++ [leaf]) l s' /\ sublist (blocks_of (front ++ [leaf])) Ball /\
      tree m 0 (header leaf) lo hi E' B' /\ lookup_extent E block = lookup_extent E' block /\ 0 <= header leaf /\ hi <= 2 ^ 32)).

Lemma walk_tree i : forall front cur lo hi E B bh s, mem s = m ->
  tree m i (header cur) lo hi E B -> 0 <= header cur -> lo <= block < hi -> hi <= 2 ^ 32 -> path_held m (front ++ [cur]) l s ->
  sublist (blocks_of (front ++ [cur]) ++ B) Ball -> Z.of_nat (length front) + Z.of_nat i = depth -> head_depth front depth ->
  runf (walk_loop i block depth (Z.of_nat (length front)) bh (front ++ cur :: replicate (S i) zero_path)) r s (walked E s).
Proof.
  induction i as [|i IH]; intros front cur lo hi E B bh s Em T Hhd Hb Hhi Hp Hnd Hl Hd; cbn [walk_loop].
  - fstep. split; [done|]. split; [done|]. right. exists front, cur, lo, hi, E, B.
    assert (sublist (blocks_of (front ++ [cur])) Ball) by (etrans; [by apply sublist_inserts_r|exact Hnd]). split_and!; try done; lia.
  - fstep. eapply runf_need; [apply path_at_app|]. fsteps. rewrite Em.
    destruct (tree_search _ _ _ _ _ _ _ _ T Hb) as (k & Ek & Hk). eapply runf_need; [exact Ek|].
    destruct (tree_descend _ _ _ _ _ _ _ _ _ T Hb Hk) as (Ei & Bi & Ti & Hci & Elook & Hsub).
    pose proof (found_bounds _ _ _ _ _ _ _ _ _ T Hb Hk) as Hb'. fold (child m (header cur) k). set (c := child m (header cur) k) in *.
    rewrite path_put_app. set (cur' := with_extent _ _). assert (same_block cur cur') as Hsb by done.
    replace (Z.of_nat (length front) + 1) with (Z.of_nat (length (front ++ [cur']))) by (rewrite length_app; cbn; lia).
    rewrite (app_cons_assoc front cur' (replicate (S (S i)) zero_path)). fstep. cbn [replicate]. eapply runf_need; [apply path_at_app|]. cbn [p_blk zero_path EXT4_BLOCK_ZERO lb_id Z.eqb orb].
    assert (head_depth (front ++ [cur']) depth) as Hd' by (destruct front; [cbn in *; lia|exact Hd]).
    pose proof (path_held_same m front cur cur' [] l s Hsb Hp) as Hp'.
    assert (no_early) as He.
    { destruct Hdev as [_ [->|He]]; [|done]. apply sublist_nil_r, app_eq_nil in Hnd as [_ ->]. by apply sublist_nil_r in Hsub. }
    fstep. apply runf_read_block; [apply Hdev|done|by rewrite Em|rewrite Em; by eapply tree_node| |].
    + intros ret s' Hr Hq Hh. destruct (ret =? EOK) eqn:E0; [by destruct Hr; zb|]. cbn [negb]. fstep. split; [done|]. split; [done|]. left.
      exists (front ++ cur' :: replicate (S i) zero_path). split; [done|]. split.
      { rewrite <- !app_assoc. cbn [app]. f_equal. f_equal. apply (replicate_S_end (S i)). }
      split; [rewrite length_app; cbn [length]; rewrite length_replicate; lia|].
      split; [destruct front; [cbn in *; lia|exact Hd]|]. rewrite (app_cons_assoc front cur' (replicate _ _)). split.
      * apply path_held_zeros. by apply (path_held_quiet m _ l s).
      * rewrite blocks_of_app, blocks_of_zero, app_nil_r. rewrite (blocks_of_same front cur cur' [] Hsb).
        etrans; [by apply sublist_inserts_r|exact Hnd].
    + intros s' Hq Hh. rewrite (Z.eqb_refl EOK). cbn [negb]. destruct (depth <? _) eqn:E0; [zb; rewrite length_app in E0; cbn in E0; lia|].
      rewrite path_put_app. cbn [block_data b_buf]. set (nxt := with_header _ _).
      assert (holding nxt = [c]) as Eh by (apply holding_block; [done|destruct Hci; lia]).
      assert (blocks_of ((front ++ [cur']) ++ [nxt]) = blocks_of (front ++ [cur]) ++ [c]) as Ebl.
      { rewrite !blocks_of_app. f_equal. unfold blocks_of. cbn [fmap list_fmap concat]. by rewrite Eh. }
      assert (sublist (blocks_of ((front ++ [cur']) ++ [nxt]) ++ Bi) Ball) as Hnd'.
      { rewrite Ebl, <- app_assoc. cbn [app]. etrans; [|exact Hnd]. by apply sublist_app. }
      assert (path_held m ((front ++ [cur']) ++ [nxt]) l s') as Hp2.
      { constructor.
        - apply Forall_app. split; [apply Hp'|]. apply Forall_singleton. right. by exists c.
        - pose proof (sublist_NoDup _ _ Hall Hnd') as Hn'. by apply NoDup_app in Hn' as [? _].
        - rewrite Ebl, rev_app_distr, Hh, (ph_held _ _ _ _ Hp). done. }
      assert (mem s' = m) as Em' by (destruct Hq; congruence).
      assert (Z.of_nat (length (front ++ [cur'])) + Z.of_nat i = depth) as Hl' by (rewrite length_app; cbn; lia).
      assert (0 <= header nxt) as Hhd' by (destruct Hci; cbn; unfold buf; nia).
      assert (child_hi m (header cur) hi k <= 2 ^ 32) as Hhi'.
      { unfold child_hi. destruct (k + 1 =? _); [done|]. pose proof (key_range m (header cur) (k + 1)). lia. }
      eapply runf_mono.
      * exact (IH (front ++ [cur']) nxt _ _ Ei Bi (Blk c (Some c)) s' Em' Ti Hhd' Hb' Hhi' Hp2 Hnd' Hl' Hd').
      * intros [[ret ppos] path] r' s2 (-> & Hq' & Hc). split; [done|]. split; [by eapply quiet_trans|].
        destruct Hc as [Hc|(f & lf & lo' & hi' & E' & B' & Hc)]; [by left|right]. exists f, lf, lo', hi', E', B'. by rewrite Elook.
Qed.
End walk.

(** ** The tree of an inode *)

(** The root is in the inode, the other nodes are in blocks of their own. *)
Record inode_tree (m : memory) (ino : Z) (E : list ext4_extent) (B : list Z) : Prop := {
  it_tree : tree m (Z.to_nat (ext_depth m ino)) (ext_inode_hdr ino) 0 (2 ^ 32) E B;
  it_root : nmax m (ext_inode_hdr ino) <= 4;
  it_nodup : NoDup B;
  it_apart b : b ∈ B -> ino + 128 <= buf b \/ buf b + dev_bsize <= ino;
  it_ino : 0 <= ino;
  it_bufs : 0 < dev_bsize /\ 0 <= dev_bufs;
}.

Lemma tree_nodes m d : forall h lo hi E B, tree m d h lo hi E B -> nodes_ok m B.
Proof.
  induction d as [|d IH]; intros h lo hi E B [_ T]; [destruct T as (_ & -> & _); by intros b ?%elem_of_nil|].
  destruct T as (parts & _ & _ & _ & -> & Hp). intros b (Bi & Hb & Hi)%list_elem_of_In%in_concat.
  apply list_elem_of_In, list_elem_of_lookup in Hb as [i Hb]. rewrite list_lookup_fmap in Hb.
  destruct (parts !! i) as [[Ei Bi']|] eqn:Ei'; [|done]. injection Hb as <-. destruct (Hp _ _ _ Ei') as (B' & -> & Hok & HT).
  apply list_elem_of_In, elem_of_cons in Hi as [->|Hi]; [done|]. by eapply IH.
Qed.

Lemma ext_depth_range m ino : 0 <= ext_depth m ino < 2 ^ 16.
Proof. apply (fget_range eh_depth). Qed.

Lemma root_same m m' ino E B B' : inode_tree m ino E B -> B' ⊆ B -> tails B' m m' -> node_same m m' (ext_inode_hdr ino).
Proof.
  intros T Hs Ht x Hx. unfold ld8. f_equal. apply Ht. intros b Hb Hin. pose proof (it_root _ _ _ _ T) as Hr.
  destruct (tree_nodes _ _ _ _ _ _ _ (it_tree _ _ _ _ T) b (Hs _ Hb)) as [_ Hbe]. pose proof (nmax_range m (buf b)).
  destruct Hin as [Hi1 Hi2]. unfold node_end, ext_inode_hdr in *. change (f_off ino_blocks) with 40 in *.
  destruct (it_apart _ _ _ _ T b (Hs _ Hb)); lia.
Qed.

Lemma inode_tree_tails m m' ino E B B' : inode_tree m ino E B -> B' ⊆ B -> tails B' m m' -> inode_tree m' ino E B.
Proof.
  intros T Hs Ht. pose proof (root_same _ _ _ _ _ _ T Hs Ht) as Hroot. pose proof (it_bufs _ _ _ _ T) as [Hp _].
  pose proof (tree_nodes _ _ _ _ _ _ _ (it_tree _ _ _ _ T)) as Hn.
  assert (ext_depth m' ino = ext_depth m ino) as Ed by (apply (same_field m); [done|cbn; lia..]).
  destruct T as [T1 T2 T3 T4 T5 T6]. constructor; try done.
  - rewrite Ed. apply (tree_on m); try done. intros b Hb. apply (tails_node B'); auto. intros b' Hb'. by apply Hn, Hs.
  - by rewrite (same_nmax m).
Qed.

(** ** The search *)

Section search.
Context (m : memory) (ino block : Z) (E : list ext4_extent) (B l : list Z) (r : ext4_inode_ref).
Hypothesis (Hdev : device_ok B) (T : inode_tree m ino E B) (Hr : ir_inode r = ino) (Hblock : 0 <= block < 2 ^ 32).

(** The path to the leaf for [block]. *)
Record located (path : list ext4_extent_path) (front : list ext4_extent_path) (leaf : ext4_extent_path) : Prop := {
  lc_path : path = front ++ [leaf; zero_path];
  lc_length : Z.of_nat (length front) = ext_depth m ino;
  lc_head : head_depth (front ++ [leaf]) (ext_depth m ino);
  lc_blocks : sublist (blocks_of (front ++ [leaf])) B;
  lc_leaf : exists lo hi E' B', tree m 0 (header leaf) lo hi E' B' /\ lookup_extent E block = lookup_extent E' block /\ hi <= 2 ^ 32;
  lc_extent : if nentries m (header leaf) =? 0 then extent leaf = 0
    else extent leaf <> 0 /\ exists i, extent leaf = slot (header leaf) i /\ found m (header leaf) (nentries m (header leaf)) block i;
}.

(** How a search ends: without a path and without references, or with a path. *)
Definition searched (s : ext4_fs) (out : Z * list ext4_extent_path) (r' : ext4_inode_ref) (s' : ext4_fs) : Prop :=
  let '(ret, path) := out in
  r' = r /\ dirty s' = dirty s /\ last_inode_bg_id s' = last_inode_bg_id s /\
  (((device_error ret \/ ret = ENOMEM) /\ path = [] /\ held s' = l /\ tails B m (mem s')) \/
   (ret = EOK /\ mem s' = m /\ exists front leaf, located path front leaf /\ path_held m (front ++ [leaf]) l s')).

Lemma runf_drop_front front q s (Q : list ext4_extent_path -> ext4_inode_ref -> ext4_fs -> Prop) :
  Z.of_nat (length front) = ext_depth m ino + 1 -> head_depth front (ext_depth m ino) -> path_held (mem s) front l s ->
  (forall path' s', tails (blocks_of front) (mem s) (mem s') -> dirty s' = dirty s -> held s' = l ->
     last_inode_bg_id s' = last_inode_bg_id s -> Q path' r s') ->
  runf (ext4_ext_drop_refs (front ++ [q]) 0 false) r s Q.
Proof.
  intros Hl Hd [A1 A2 A3] HQ. pose proof (ext_depth_range m ino). destruct front as [|p0 front]; [cbn in Hl; lia|].
  unfold ext4_ext_drop_refs. cbn [app]. fstep. eapply runf_need; [done|]. cbn in Hd. rewrite Hd.
  replace (Z.to_nat (1 + ext_depth m ino)) with (length (p0 :: front)) by lia. destruct Hdev as [Hop _].
  apply (runf_drop_loop (p0 :: front) [] [q] l); try done; [apply (it_bufs _ _ _ _ T)|]. intros todo' s' _ _ ? ? ? ?. by apply HQ.
Qed.

Lemma finish_leaf m0 (leaf : ext4_extent_path) lo hi E' B' : tree m0 0 (header leaf) lo hi E' B' -> 0 <= header leaf ->
  exists ex, ext4_ext_binsearch m0 (header leaf) block = Some ex /\
    if nentries m0 (header leaf) =? 0 then ex = 0
    else ex <> 0 /\ exists i, ex = slot (header leaf) i /\ found m0 (header leaf) (nentries m0 (header leaf)) block i.
Proof.
  intros HT Hh. destruct (nentries m0 (header leaf) =? 0) eqn:En.
  - exists 0. split; [|done]. unfold ext4_ext_binsearch. fold (nentries m0 (header leaf)). by rewrite En.
  - zb. pose proof (nentries_range m0 (header leaf)). destruct (binsearch_ok m0 block (header leaf)) as (i & Ei & Hi); [lia|by eapply leaf_keys|].
    exists (slot (header leaf) i). split; [done|]. split; [|by exists i]. destruct Hi as [Hi _]. unfold slot. lia.
Qed.

Lemma runf_find s : mem s = m -> held s = l -> runf (ext4_find_extent block []) r s (searched s).
Proof.
  intros Em Hh. pose proof (ext_depth_range m ino) as Hd. pose proof (it_bufs _ _ _ _ T) as [Hbs Hbufs]. unfold ext4_find_extent. fsteps.
  rewrite Em, Hr. apply runf_up. exists (dev_memory (clock s)), (tick s). split; [done|]. fstep. destruct (dev_memory (clock s)).
  2:{ fstep. split_and!; try done. left. split_and!; try done; [by right|]. cbn. by rewrite Em. }
  replace (Z.to_nat (ext_depth m ino + 2)) with (S (S (Z.to_nat (ext_depth m ino)))) by lia.
  cbn [replicate]. rewrite path_put_head. cbv iota.
  match goal with |- context [with_blk ?p ?b] => set (p0 := with_blk p b) end. assert (0 <= header p0) as Hp0 by (pose proof (it_ino _ _ _ _ T); cbn; unfold ext_inode_hdr; cbn; lia).
  fstep. eapply runf_mono.
  { apply (walk_tree m block (ext_depth m ino) l B r Hdev Hbs Hbufs (it_nodup _ _ _ _ T) (Z.to_nat (ext_depth m ino)) [] p0 0 (2 ^ 32) E B); try done.
    - apply (it_tree _ _ _ _ T).
    - constructor; [by apply Forall_singleton; left|by apply NoDup_nil|done].
    - cbn. lia. }
  intros [[ret ppos] path] r' s1 (-> & Hq & Hw). pose proof Hq as (Q1 & Q2 & Q3). cbn [tick mem dirty last_inode_bg_id] in Q1, Q2, Q3.
  destruct Hw as [(front & Herr & -> & Hl & Hh' & Hp & Hsub)|(front & leaf & lo & hi & E' & B' & -> & -> & -> & Hl & Hh' & Hp & Hsub & HT & Elook & Hhl & Hhi)].
  - destruct (ret =? EOK) eqn:E0; [by destruct Herr; zb|]. cbn [negb]. rewrite Em in Q1. fstep.
    apply runf_drop_front; [lia|done|by rewrite Q1|]. intros path' s2 Ht H1 H2 H3. fstep. split_and!; try congruence. left.
    split; [by left|]. split; [done|]. split; [done|]. rewrite Q1 in Ht. eapply tails_weaken; [|exact Ht]. by apply sublist_subseteq.
  - rewrite (Z.eqb_refl EOK). cbn [negb]. fstep. rewrite <- Hl. eapply runf_need; [apply path_at_app|]. fsteps.
    rewrite Em in Q1. rewrite Q1.
    destruct (finish_leaf m leaf lo hi E' B' HT Hhl) as (ex & -> & Hex). eapply runf_need; [done|]. fstep. rewrite path_put_app.
    set (leaf1 := with_index _ _). set (leaf2 := if negb (ex =? 0) then _ else leaf1).
    assert (same_block leaf leaf2 /\ p_depth leaf2 = 0 /\ extent leaf2 = ex) as (Hsb & Hd2 & Hx2) by (unfold leaf2; by destruct (negb (ex =? 0))).
    split_and!; try congruence. right. split; [done|]. split; [done|]. exists front, leaf2. split; [|by eapply path_held_same].
    constructor; try done.
    + destruct front; cbn in *; [lia|done].
    + by rewrite (blocks_of_same front leaf).
    + exists lo, hi, E', B'. by rewrite (proj2 Hsb).
    + by rewrite (proj2 Hsb), Hx2.
Qed.
End search.
End find.
