(* ===== verification/Ext4BallocSpec.v ===== *)
(** lwext4, block allocation: what the operations of [Ext4Balloc] do to the set
    of used blocks and to the counters. *)
From S2P Require Import Prelude Memory Ext4Errno Ext4Bitmap Ext4Crc Ext4Layout Ext4Super Ext4BlockGroup Ext4Inode.
From S2P Require Import Ext4Store Ext4Fs Ext4Groups Ext4Balloc.
#[local] Open Scope Z_scope.
#[local] Open Scope cint_scope.
#[local] Opaque ext4_crc32c ext4_bg_crc16.

Lemma byte_in i n : 0 <= i < 8 * n -> 0 <= i / 8 < n.
Proof. intros Hi. split; [apply Z.div_pos|apply Z.div_lt_upper_bound]; lia. Qed.

Section spec.
Context `{Device}.
#[local] Notation sb := fs_sb.

Definition free_blocks_in (m : memory) (bg : Z) : Z := ext4_bg_get_free_blocks_count m bg sb.
Definition iblocks (m : memory) (ino : Z) : Z := ext4_inode_get_blocks_count m sb ino.

(** The inode lies in a block of its own kind. *)
Definition inode_placed (m : memory) (b ino : Z) : Prop :=
  0 <= b /\ buf b <= ino /\ ino + 128 <= buf b + dev_bsize /\
  forall g, 0 <= g < groups m -> b <> desc_block m g /\ b <> bitmap m g /\ b <> ibitmap m g.

(** None of the [n] blocks from [a] on holds metadata or the inode. *)
Definition data_blocks (m : memory) (ib a n : Z) : Prop :=
  0 <= a /\ 0 <= n /\ ~ (a <= ib < a + n) /\
  forall g, 0 <= g < groups m -> ~ (a <= desc_block m g < a + n) /\ ~ (a <= bitmap m g < a + n) /\ ~ (a <= ibitmap m g < a + n).

(** ** Counters *)

(** [count_blocks] on memory. *)
Definition counted (m : memory) (bg ino cnt : Z) : memory :=
  let m1 := ext4_sb_set_free_blocks_cnt m sb (u64 (ext4_sb_get_free_blocks_cnt m sb + cnt)) in
  let sectors := ext4_sb_get_block_size m1 sb / EXT4_INODE_BLOCK_SIZE in
  let ino_blocks := iblocks m1 ino in
  let m2 := (ext4_inode_set_blocks_count m1 sb ino
               (u64 (if cnt <? 0 then ino_blocks + sectors else ino_blocks - u32 (cnt * sectors)))).1 in
  ext4_bg_set_free_blocks_count m2 bg sb (u32 (free_blocks_in m2 bg + cnt)).

#[local] Strategy expand [counted free_blocks_in iblocks].

Lemma run_count ir bg cnt s (Q : unit -> ext4_fs -> Prop) : Q tt (set_mem s (counted (mem s) bg (ir_inode ir) cnt)) ->
  run (count_blocks ir bg cnt) s Q.
Proof. intros HQ. unfold count_blocks. steps. exact HQ. Qed.

(** The count of free blocks in the superblock. *)
Definition sb_blocks (x : Z) : Prop := sb + 12 <= x < sb + 16 \/ sb + 344 <= x < sb + 348.

Lemma sb_count_frame m c x : ~ sb_blocks x -> ld8 (ext4_sb_set_free_blocks_cnt m sb c) x = ld8 m x.
Proof.
  unfold sb_blocks. intros Hx. unfold ext4_sb_set_free_blocks_cnt. rewrite !ld8_fset by (cbn; lia). done.
Qed.

Lemma sb_count_get m c : 0 <= c < 2 ^ 64 -> ext4_sb_get_free_blocks_cnt (ext4_sb_set_free_blocks_cnt m sb c) sb = c.
Proof.
  intros Hc. pose proof (hi_range c Hc). pose proof (uw_range 32 c ltac:(lia)).
  unfold ext4_sb_get_free_blocks_cnt, ext4_sb_set_free_blocks_cnt. rewrite cut_lo by lia.
  rewrite fget_fset_same, fget_fset_other, fget_fset_same by fld. by apply join_word.
Qed.

(** The count of blocks and the flags of an inode. *)
Definition ino_count (ino x : Z) : Prop := ino + 28 <= x < ino + 36 \/ ino + 116 <= x < ino + 118.

Lemma ino_count_frame m ino c x : ~ ino_count ino x -> ld8 (ext4_inode_set_blocks_count m sb ino c).1 x = ld8 m x.
Proof.
  unfold ino_count. intros Hx. unfold ext4_inode_set_blocks_count, ext4_inode_clear_flag, ext4_inode_set_flag, ext4_inode_set_flags.
  repeat case_if; cbn [fst]; rewrite ?ld8_fset by (cbn; lia); done.
Qed.

(** Bytes of a descriptor that the counters and checksums take. *)
Definition dvar (o : Z) : Prop := 12 <= o < 14 \/ 24 <= o < 26 \/ 30 <= o < 32 \/ 44 <= o < 46 \/ 56 <= o < 58.

Lemma bg_count_frame m bg c x : 0 <= c < 2 ^ 32 -> apart bg sb -> desc_size m = 32 \/ desc_size m = 64 ->
  ~ (x - bg < desc_size m /\ dvar (x - bg)) -> ld8 (ext4_bg_set_free_blocks_count m bg sb c) x = ld8 m x.
Proof.
  intros Hc Hap Hd Hx. unfold ext4_bg_set_free_blocks_count. rewrite desc_size_fset by (done || fld). fold (desc_size m).
  unfold dvar in Hx. case_if; unfold EXT4_MIN_BLOCK_GROUP_DESCRIPTOR_SIZE in *; zb;
    rewrite !ld8_fset by (cbn; lia); done.
Qed.

Lemma bg_count_get m bg c : 0 <= c < 2 ^ 32 -> apart bg sb ->
  free_blocks_in (ext4_bg_set_free_blocks_count m bg sb c) bg = if desc_is_wide m sb then c else u16 c.
Proof.
  intros Hc Hap. unfold free_blocks_in. apply (accessor_set_get (Accessor ext4_bg_get_free_blocks_count
    ext4_bg_set_free_blocks_count bg_free_blocks_count_lo bg_free_blocks_count_hi 16) m bg sb c); [|done|exact Hc].
  pose proof bg_accessors_ok as Ha. unfold bg_accessors in Ha. rewrite !Forall_cons in Ha. apply Ha.
Qed.

(** ** A change of one group *)

Section update.
Context (m : memory) (g ib ino jlo jhi : Z).
Hypothesis (Hok : fs_ok m) (Hg : 0 <= g < groups m) (Hino : inode_placed m ib ino).
Hypothesis (Hj : data_blocks m ib jlo (jhi - jlo)).
#[local] Notation D := (desc m g).
#[local] Notation B := (buf (bitmap m g)).

(** Where bytes may change: the counters of the superblock and the inode, the
    bitmap and the descriptor of the group, and the blocks given up. *)
Definition touched (x : Z) : Prop :=
  sb_blocks x \/ ino_count ino x \/ B <= x < B + dev_bsize \/ (x - D < desc_size m /\ dvar (x - D)) \/
  buf jlo <= x < buf jhi.

Definition frame (m' : memory) : Prop := forall x, ~ touched x -> ld8 m' x = ld8 m x.

(** A block that is none of these is not touched. *)
Lemma block_untouched b x : 0 <= b -> b <> ib -> b <> bitmap m g -> ~ (jlo <= b < jhi) ->
  buf b <= x < buf b + dev_bsize -> b <> desc_block m g -> ~ touched x.
Proof.
  intros Hb Hi Hm Hjb Hx Hd. pose proof (bsize_cases m Hok) as [_ Hbs]. destruct Hino as (Hib & I1 & I2 & _).
  assert (0 < dev_bsize) as Hpos by lia. pose proof (buf_above b Hpos Hb) as Ha. pose proof (ok_below m Hok) as Hbel.
  pose proof (buf_apart b ib Hpos Hi). pose proof (buf_apart b (bitmap m g) Hpos Hm).
  pose proof (buf_apart b (desc_block m g) Hpos Hd). pose proof (desc_inside m Hok g Hg) as [D1 D2].
  unfold touched, sb_blocks, dvar, ino_count. intros [?|[?|[?|[?|?]]]]; try lia.
  unfold buf in *. assert (b < jlo \/ jhi <= b) by lia. nia.
Qed.

Lemma sb_untouched x : sb <= x < sb + 1024 -> ~ sb_blocks x -> ~ touched x.
Proof.
  intros Hx Hc. pose proof (bsize_cases m Hok) as [_ Hbs]. assert (0 < dev_bsize) as Hpos by lia. destruct Hino as (Hib & I1 & I2 & _).
  pose proof (ok_below m Hok) as Hbel. pose proof (buf_above ib Hpos Hib).
  pose proof (desc_above m g Hok Hg). pose proof (bitmap_above m g Hok). destruct Hj as (J1 & J2 & _).
  pose proof (buf_above jlo Hpos J1). unfold touched, dvar, ino_count. intros [?|[?|[?|[?|?]]]]; try lia. done.
Qed.

Lemma desc_untouched g' x : 0 <= g' < groups m -> g' <> g \/ ~ dvar (x - D) ->
  desc m g' <= x < desc m g' + desc_size m -> ~ touched x.
Proof.
  intros Hg' Hne Hx. pose proof (bsize_cases m Hok) as [_ Hbs]. assert (0 < dev_bsize) as Hpos by lia.
  destruct Hino as (Hib & I1 & I2 & I3).
  destruct (I3 g' Hg') as (Hd & _). pose proof (buf_apart ib (desc_block m g') Hpos Hd).
  pose proof (desc_inside m Hok g' Hg') as [D1 D2]. pose proof (desc_above m g' Hok Hg').
  pose proof (bitmap_desc_apart m g g' Hok Hg Hg') as [? _]. destruct Hj as (J1 & J2 & _ & J3).
  destruct (J3 g' Hg') as (Hjd & _). unfold touched, sb_blocks, ino_count.
  intros [?|[?|[?|[[? ?]|?]]]]; try lia.
  - destruct (decide (g' = g)) as [->|Hn]; [destruct Hne; [done|contradiction]|].
    unfold dvar in *. destruct (descs_apart m g g' Hok Hg Hg' ltac:(done)); lia.
  - unfold buf in *. assert (desc_block m g' < jlo \/ jhi <= desc_block m g') by lia. nia.
Qed.

Context (m' : memory) (Hf : frame m').

Lemma frame_keeps : keeps m m'.
Proof.
  split.
  - intros x Hx Hc. apply Hf, sb_untouched; [done|]. unfold sb_counter, sb_blocks in *. lia.
  - intros g' o Hg' Hfx Ho. apply Hf. apply (desc_untouched g'); [done| |unfold fixed in Hfx; lia].
    destruct (decide (g' = g)) as [->|]; [right|by left]. unfold fixed in Hfx. unfold dvar. lia.
Qed.

Lemma frame_used g' i : 0 <= g' < groups m -> g' <> g -> 0 <= i < 8 * dev_bsize -> used m' g' i = used m g' i.
Proof.
  intros Hg' Hne Hi. unfold used. rewrite (kept_bitmap m) by (done || apply frame_keeps || apply (ok_desc_size m Hok)).
  apply bget_on, Hf. destruct Hino as (_ & _ & _ & I3). destruct Hj as (_ & _ & _ & J3).
  destruct (bitmap_nonneg m g'). destruct (I3 g' Hg') as (_ & ? & _). destruct (J3 g' Hg') as (_ & ? & _).
  destruct (ok_bitmaps m Hok g g' Hg Hg') as [Hb _]. destruct (Hb ltac:(done)). pose proof (ok_bitmap_desc m Hok g' g Hg' Hg) as [? _].
  pose proof (byte_in i dev_bsize Hi).
  apply (block_untouched (bitmap m g')); try done; lia.
Qed.

Lemma frame_iused g' i : 0 <= g' < groups m -> 0 <= i < 8 * dev_bsize -> iused m' g' i = iused m g' i.
Proof.
  intros Hg' Hi. unfold iused. rewrite (kept_ibitmap m) by (done || apply frame_keeps || apply (ok_desc_size m Hok)).
  apply bget_on, Hf. destruct Hino as (_ & _ & _ & I3). destruct Hj as (_ & _ & _ & J3).
  destruct (bitmap_nonneg m g'). destruct (I3 g' Hg') as (_ & _ & ?). destruct (J3 g' Hg') as (_ & _ & ?).
  destruct (ok_bitmaps m Hok g g' Hg Hg') as [_ Hb]. pose proof (ok_bitmap_desc m Hok g' g Hg' Hg) as [_ ?].
  pose proof (byte_in i dev_bsize Hi).
  apply (block_untouched (ibitmap m g')); try done; lia.
Qed.

Lemma frame_gfree g' : 0 <= g' < groups m -> g' <> g -> gfree m' g' = gfree m g'.
Proof.
  intros Hg' Hne. unfold gfree. rewrite (kept_desc m m' (proj1 frame_keeps)).
  assert (forall f, 0 <= f_off f -> 0 <= f_len f -> f_off f + f_len f <= desc_size m ->
    fget f m' (desc m g') = fget f m (desc m g')) as Hfd.
  { intros f F1 F2 F3. apply fget_on; [done|]. intros x Hx. apply Hf, (desc_untouched g'); [done|by left|lia]. }
  unfold ext4_bg_get_free_blocks_count. fold (desc_size m') (desc_size m).
  rewrite (kept_desc_size m m' (proj1 frame_keeps)).
  pose proof (ok_desc_size m Hok). rewrite Hfd by (cbn; lia). unfold EXT4_MIN_BLOCK_GROUP_DESCRIPTOR_SIZE.
  case_if; [|done]. by rewrite Hfd by (cbn; lia).
Qed.
End update.

(** The count of a group depends on two fields. *)
Lemma free_blocks_on m m' bg : desc_size m = 32 \/ desc_size m = 64 -> desc_size m' = desc_size m ->
  (forall x, bg + 12 <= x < bg + 14 \/ (bg + 44 <= x < bg + 46 /\ desc_size m = 64) -> ld8 m' x = ld8 m x) ->
  free_blocks_in m' bg = free_blocks_in m bg.
Proof.
  intros Hd Ed Hx. unfold free_blocks_in, ext4_bg_get_free_blocks_count. fold (desc_size m') (desc_size m). rewrite Ed.
  unfold EXT4_MIN_BLOCK_GROUP_DESCRIPTOR_SIZE. rewrite (fget_on _ m m') by (done || (intros x Hx'; apply Hx; cbn in Hx'; lia)).
  case_if; [|done]. rewrite (fget_on bg_free_blocks_count_hi m m') by (done || (intros x Hx'; apply Hx; cbn in Hx'; zb; lia)). done.
Qed.

Lemma csum_frame m bg b x : desc_size m = 32 \/ desc_size m = 64 ->
  ~ (bg + 24 <= x < bg + 26 \/ (desc_size m = 64 /\ bg + 56 <= x < bg + 58)) ->
  ld8 (ext4_balloc_set_bitmap_csum m sb bg b) x = ld8 m x.
Proof.
  intros Hd Hx. unfold ext4_balloc_set_bitmap_csum. fold (desc_size m). unfold EXT4_MAX_BLOCK_GROUP_DESCRIPTOR_SIZE.
  repeat case_if; zb; rewrite ?ld8_fset by (cbn; lia); done.
Qed.

Lemma csum_verify m bg b : desc_size m = 32 \/ desc_size m = 64 -> sb + 1024 <= bg -> sb + 1024 <= b ->
  b + dev_bsize <= bg \/ bg + desc_size m <= b -> per_group m <= 8 * dev_bsize ->
  ext4_balloc_verify_bitmap_csum (ext4_balloc_set_bitmap_csum m sb bg b) sb bg b = true.
Proof.
  intros Hd Hbg Hb Hap Hpg. set (m' := ext4_balloc_set_bitmap_csum m sb bg b).
  assert (forall x, ~ (bg + 24 <= x < bg + 26 \/ (desc_size m = 64 /\ bg + 56 <= x < bg + 58)) -> ld8 m' x = ld8 m x) as Hf
    by (intros x; apply csum_frame; done).
  assert (forall x, sb <= x < sb + 1024 -> ~ sb_counter x -> ld8 m' x = ld8 m x) as Hs by (intros x Hx _; apply Hf; lia).
  assert (ext4_balloc_bitmap_csum m' sb b = ext4_balloc_bitmap_csum m sb b) as Ec.
  { unfold ext4_balloc_bitmap_csum. rewrite (kept_ro_com m m' Hs). case_if; [|done]. fold (per_group m') (per_group m).
    rewrite (kept_per_group m m' Hs). pose proof (fget_range sb_blocks_per_group m sb).
    rewrite (crc32c_on m m' _ b); [f_equal; apply crc32c_on; intros x Hx; cbn in Hx; apply Hf; lia|].
    intros x Hx. apply Hf. assert (per_group m / 8 <= dev_bsize) by (apply Z.div_le_upper_bound; lia). lia. }
  unfold ext4_balloc_verify_bitmap_csum. rewrite Ec, (kept_ro_com m m' Hs). fold (desc_size m') (desc_size m).
  rewrite (kept_desc_size m m' Hs). case_if; [done|]. unfold m', ext4_balloc_set_bitmap_csum. fold (desc_size m).
  rewrite E. cbn [negb]. destruct (desc_size m =? EXT4_MAX_BLOCK_GROUP_DESCRIPTOR_SIZE).
  - rewrite fget_fset_other, !fget_fset_same by (fld || exact (uw_range 16 _ ltac:(lia))). by rewrite !Z.eqb_refl.
  - rewrite fget_fset_same by (fld || exact (uw_range 16 _ ltac:(lia))). by rewrite !Z.eqb_refl.
Qed.

(** The check depends on the superblock, two fields and the bitmap. *)
Lemma verify_on m m' bg b : (forall x, sb <= x < sb + 1024 -> ~ sb_counter x -> ld8 m' x = ld8 m x) ->
  (forall x, bg + 24 <= x < bg + 26 \/ (desc_size m = 64 /\ bg + 56 <= x < bg + 58) -> ld8 m' x = ld8 m x) ->
  (forall x, b <= x < b + dev_bsize -> ld8 m' x = ld8 m x) -> per_group m <= 8 * dev_bsize ->
  ext4_balloc_verify_bitmap_csum m' sb bg b = ext4_balloc_verify_bitmap_csum m sb bg b.
Proof.
  intros Hs Hd Hb Hpg. unfold ext4_balloc_verify_bitmap_csum.
  assert (ext4_balloc_bitmap_csum m' sb b = ext4_balloc_bitmap_csum m sb b) as ->.
  { unfold ext4_balloc_bitmap_csum. rewrite (kept_ro_com m m' Hs). case_if; [|done]. fold (per_group m') (per_group m).
    rewrite (kept_per_group m m' Hs). rewrite (crc32c_on m m' _ b).
    - f_equal. apply crc32c_on. intros x Hx. apply (kept_uuid m m' Hs). cbn in Hx. lia.
    - intros x Hx. apply Hb. assert (per_group m / 8 <= dev_bsize) by (apply Z.div_le_upper_bound; lia). lia. }
  rewrite (kept_ro_com m m' Hs). fold (desc_size m') (desc_size m). rewrite (kept_desc_size m m' Hs).
  unfold EXT4_MAX_BLOCK_GROUP_DESCRIPTOR_SIZE.
  rewrite (fget_on bg_block_bitmap_csum_lo m m') by (done || (intros x Hx; apply Hd; cbn in Hx; lia)).
  destruct (desc_size m =? 64) eqn:E64; [|done]. zb.
  by rewrite (fget_on bg_block_bitmap_csum_hi m m') by (done || (intros x Hx; apply Hd; cbn in Hx; lia)).
Qed.

Lemma stn_on n : forall m m' a v x, ld8 m' x = ld8 m x -> ld8 (stn n m' a v) x = ld8 (stn n m a v) x.
Proof.
  induction n as [|n IH]; intros m m' a v x Hx; [done|]. cbn [stn]. apply IH. unfold ld8, st8 in *. by case_if.
Qed.

(** The check reads the superblock and the descriptor. *)
Lemma verify_desc_on m m' g bg : apart bg sb -> (forall x, sb <= x < sb + 1024 -> ~ sb_counter x -> ld8 m' x = ld8 m x) ->
  (forall x, bg <= x < bg + desc_size m -> ld8 m' x = ld8 m x) ->
  (ext4_fs_verify_bg_csum m' sb g bg).2 = (ext4_fs_verify_bg_csum m sb g bg).2.
Proof.
  intros Hap Hs Hd. unfold ext4_fs_verify_bg_csum, ext4_fs_bg_checksum. rewrite (kept_ro_com m m' Hs).
  destruct (ext4_sb_feature_ro_com m sb EXT4_FRO_COM_METADATA_CSUM); [|done]. cbn [negb snd]. rewrite !desc_size_fset by (done || fld). fold (desc_size m') (desc_size m).
  rewrite (kept_desc_size m m' Hs).
  assert (forall v x, ld8 m' x = ld8 m x -> ld8 (fset bg_checksum m' bg v) x = ld8 (fset bg_checksum m bg v) x) as Hset
    by (intros; by apply stn_on).
  assert (32 <= desc_size m).
  { unfold desc_size, ext4_sb_get_desc_size, EXT4_MIN_BLOCK_GROUP_DESCRIPTOR_SIZE. case_if; zb; lia. }
  rewrite (crc32c_on (fset bg_checksum m bg 0) (fset bg_checksum m' bg 0) _ bg) by (intros x Hx; apply Hset, Hd; lia).
  rewrite (crc32c_on (fset bg_checksum m bg 0) (fset bg_checksum m' bg 0) _ (sb + f_off sb_uuid)).
  2:{ intros x Hx. apply Hset, (kept_uuid m m' Hs). cbn in Hx. lia. }
  f_equal. assert (forall mm, fget bg_checksum (fset bg_checksum (fset bg_checksum mm bg 0) bg (fget bg_checksum mm bg)) bg =
    fget bg_checksum mm bg) as Hback by (intros mm; apply fget_ld8; intros x; by apply local_fset_ld8).
  rewrite !Hback. apply fget_on; [done|]. intros x Hx. apply Hd. cbn in Hx. lia.
Qed.

(** Both checksums of group [g] are right, as far as the features ask for them. *)
Definition sealed (m : memory) (g : Z) : Prop :=
  ext4_balloc_verify_bitmap_csum m sb (desc m g) (buf (bitmap m g)) = true /\ (ext4_fs_verify_bg_csum m sb g (desc m g)).2 = true.

Lemma sealed_on m m' g : fs_ok m -> keeps m m' -> 0 <= g < groups m ->
  (forall x, desc m g <= x < desc m g + desc_size m -> ld8 m' x = ld8 m x) ->
  (forall x, buf (bitmap m g) <= x < buf (bitmap m g) + dev_bsize -> ld8 m' x = ld8 m x) -> sealed m g -> sealed m' g.
Proof.
  intros Hok Hk Hg Hd Hb. pose proof (ok_desc_size m Hok) as Hds. pose proof (ok_per_group m Hok). pose proof (desc_above m g Hok Hg). unfold sealed.
  rewrite (kept_desc m m' (proj1 Hk)), (kept_bitmap m m' Hk Hds) by done.
  rewrite (verify_on m m'), (verify_desc_on m m'); try done; try apply Hk; [right; lia|intros x Hx; apply Hd; lia|lia].
Qed.

(** ** From a changed bitmap to a consistent group

    [m1] is [m] with other bits in the bitmap of group [g]; then come the
    checksum of the bitmap, the counters, the loss of the blocks given up, and
    the checksum of the descriptor. *)
Section finish.
Context (m : memory) (g ib ino jlo jhi cnt : Z).
Hypothesis (Hok : fs_ok m) (Hg : 0 <= g < groups m) (Hino : inode_placed m ib ino).
Hypothesis (Hj : data_blocks m ib jlo (jhi - jlo)).
#[local] Notation D := (desc m g).
#[local] Notation B := (buf (bitmap m g)).
Context (m1 : memory) (H1 : forall x, x < B \/ B + dev_bsize <= x -> ld8 m1 x = ld8 m x).
Let m2 : memory := ext4_balloc_set_bitmap_csum m1 sb D B.
Let ma : memory := ext4_sb_set_free_blocks_cnt m2 sb (u64 (ext4_sb_get_free_blocks_cnt m2 sb + cnt)).
Let count : Z :=
  let sectors := ext4_sb_get_block_size ma sb / EXT4_INODE_BLOCK_SIZE in
  u64 (if cnt <? 0 then iblocks ma ino + sectors else iblocks ma ino - u32 (cnt * sectors)).
Let mb : memory := (ext4_inode_set_blocks_count ma sb ino count).1.
Let m3 : memory := ext4_bg_set_free_blocks_count mb D sb (u32 (free_blocks_in mb D + cnt)).
Context (m3' : memory) (H3 : forall x, x < buf jlo \/ buf jhi <= x -> ld8 m3' x = ld8 m3 x).
Let m4 : memory := put_bg_checksum m3' sb g D.
#[local] Notation touches := (touched m g ino jlo jhi).
#[local] Notation framed := (frame m g ino jlo jhi).

Lemma counted_eq : counted m2 D ino cnt = m3.
Proof. reflexivity. Qed.

Lemma framed_trans mm mm' : framed mm -> (forall x, ~ touches x -> ld8 mm' x = ld8 mm x) -> framed mm'.
Proof. intros Hf Hx x Ht. rewrite Hx by done. by apply Hf. Qed.

Lemma desc_bytes x : D <= x < D + desc_size m ->
  (x < B \/ B + dev_bsize <= x) /\ ~ sb_blocks x /\ (x < ino \/ ino + 128 <= x) /\ (x < buf jlo \/ buf jhi <= x).
Proof.
  intros Hx. pose proof (bsize_cases m Hok) as [_ Hbs]. assert (0 < dev_bsize) as Hpos by lia.
  destruct Hino as (Hib & I1 & I2 & I3). destruct (I3 g Hg) as (Hd & _). pose proof (buf_apart ib (desc_block m g) Hpos Hd).
  pose proof (desc_inside m Hok g Hg) as [D1 D2]. pose proof (desc_above m g Hok Hg).
  pose proof (bitmap_desc_apart m g g Hok Hg Hg) as [? _]. destruct Hj as (J1 & J2 & _ & J3).
  destruct (J3 g Hg) as (Hjd & _). unfold sb_blocks. split; [lia|]. split; [lia|]. split; [lia|].
  unfold buf in *. assert (desc_block m g < jlo \/ jhi <= desc_block m g) by lia. nia.
Qed.

Lemma framed1 : framed m1.
Proof. intros x Hx. apply H1. unfold touched, sb_blocks, dvar, ino_count in Hx. lia. Qed.

Lemma same_desc_size mm : framed mm -> desc_size mm = desc_size m.
Proof. intros Hf. apply kept_desc_size. by apply (frame_keeps m g ib ino jlo jhi). Qed.

Lemma step2 x : ~ (D + 24 <= x < D + 26 \/ (desc_size m = 64 /\ D + 56 <= x < D + 58)) -> ld8 m2 x = ld8 m1 x.
Proof.
  intros Hx. pose proof (ok_desc_size m Hok) as Hd. pose proof (same_desc_size m1 framed1) as E.
  apply csum_frame; rewrite E; done.
Qed.

Lemma framed2 : framed m2.
Proof.
  apply (framed_trans m1); [apply framed1|]. intros x Hx. apply step2. pose proof (ok_desc_size m Hok).
  unfold touched, sb_blocks, dvar, ino_count in Hx. lia.
Qed.

Lemma stepa x : ~ sb_blocks x -> ld8 ma x = ld8 m2 x.
Proof. apply sb_count_frame. Qed.

Lemma stepb x : ~ ino_count ino x -> ld8 mb x = ld8 ma x.
Proof. apply ino_count_frame. Qed.

Lemma framedb : framed mb.
Proof.
  apply (framed_trans m2); [apply framed2|]. intros x Hx. unfold touched in Hx. rewrite stepb, stepa by (unfold sb_blocks in *; tauto). done.
Qed.

Lemma desc_apart_sb : apart D sb.
Proof. right. by apply desc_above. Qed.

Lemma step3 x : ~ (x - D < desc_size m /\ dvar (x - D)) -> ld8 m3 x = ld8 mb x.
Proof.
  intros Hx. pose proof (same_desc_size mb framedb) as E. apply bg_count_frame.
  - apply uw_range. lia.
  - apply desc_apart_sb.
  - rewrite E. apply (ok_desc_size m Hok).
  - by rewrite E.
Qed.

Lemma step4 x : x < D + 30 \/ D + 32 <= x -> ld8 m4 x = ld8 m3' x.
Proof. apply put_bg_ld8. Qed.

Lemma framed3 : framed m3.
Proof. apply (framed_trans mb); [apply framedb|]. intros x Hx. apply step3. unfold touched in Hx. tauto. Qed.

Lemma framed3' : framed m3'.
Proof.
  apply (framed_trans m3); [apply framed3|]. intros x Hx. apply H3. unfold touched, sb_blocks, dvar, ino_count in Hx. lia.
Qed.

Lemma framed4 : framed m4.
Proof.
  apply (framed_trans m3'); [apply framed3'|]. intros x Hx. apply step4. pose proof (ok_desc_size m Hok).
  unfold touched, sb_blocks, dvar, ino_count in Hx. lia.
Qed.

(** A byte of the bitmap stays as [m1] has it. *)
Lemma bitmap_bytes x : B <= x < B + dev_bsize -> ld8 m4 x = ld8 m1 x.
Proof.
  intros Hx. pose proof (bsize_cases m Hok) as [_ Hbs]. assert (0 < dev_bsize) as Hpos by lia.
  destruct Hino as (Hib & I1 & I2 & I3). destruct (I3 g Hg) as (_ & Hd & _). pose proof (buf_apart ib (bitmap m g) Hpos Hd).
  pose proof (bitmap_above m g Hok) as [? _]. pose proof (bitmap_desc_apart m g g Hok Hg Hg) as [? _].
  pose proof (ok_desc_size m Hok). destruct Hj as (J1 & J2 & _ & J3). destruct (J3 g Hg) as (_ & Hjd & _).
  assert (x < buf jlo \/ buf jhi <= x).
  { unfold buf in *. assert (bitmap m g < jlo \/ jhi <= bitmap m g) by lia. nia. }
  rewrite step4, H3, step3, stepb, stepa, step2 by (try (unfold sb_blocks, dvar, ino_count); lia). done.
Qed.

Lemma finish_keeps : keeps m m4.
Proof. apply (frame_keeps m g ib ino jlo jhi); try done. apply framed4. Qed.

Lemma finish_used i : 0 <= i < 8 * dev_bsize -> used m4 g i = bget m1 B i.
Proof.
  intros Hi. unfold used. rewrite (kept_bitmap m m4 finish_keeps (ok_desc_size m Hok)) by done.
  apply bget_on, bitmap_bytes. pose proof (byte_in i dev_bsize Hi). lia.
Qed.

Lemma sb_apart x : sb <= x < sb + 1024 -> x < B /\ x < D /\ x < ino /\ x < buf jlo.
Proof.
  intros Hx. pose proof (bsize_cases m Hok) as [_ Hbs]. assert (0 < dev_bsize) as Hpos by lia.
  destruct Hino as (Hib & I1 & I2 & _). pose proof (ok_below m Hok). pose proof (buf_above ib Hpos Hib).
  pose proof (desc_above m g Hok Hg). pose proof (bitmap_above m g Hok) as [? _]. destruct Hj as (J1 & J2 & _).
  pose proof (buf_above jlo Hpos J1). lia.
Qed.

Lemma finish_sbfree : sbfree m4 = u64 (sbfree m + cnt).
Proof.
  pose proof (ok_desc_size m Hok) as Hd.
  assert (forall mm mm', (forall x, sb <= x < sb + 1024 -> ld8 mm' x = ld8 mm x) ->
    ext4_sb_get_free_blocks_cnt mm' sb = ext4_sb_get_free_blocks_cnt mm sb) as Hsb.
  { intros mm mm' Hx. unfold ext4_sb_get_free_blocks_cnt.
    by rewrite !(fget_on _ mm mm') by (done || (intros x Hx'; apply Hx; cbn in Hx'; lia)). }
  unfold sbfree. rewrite (Hsb ma m4); [|intros x Hx; pose proof (sb_apart x Hx); rewrite step4, H3, step3, stepb
    by (unfold dvar, ino_count; lia); done].
  unfold ma. rewrite sb_count_get by (apply uw_range; lia). do 2 f_equal. apply Hsb. intros x Hx.
  pose proof (sb_apart x Hx). rewrite step2, H1 by lia. done.
Qed.

Lemma finish_gfree : gfree m4 g = let c := u32 (gfree m g + cnt) in if desc_is_wide m sb then c else u16 c.
Proof.
  pose proof (ok_desc_size m Hok) as Hd. unfold gfree. rewrite (kept_desc m m4 (proj1 finish_keeps)).
  fold (free_blocks_in m4 D) (free_blocks_in m D). rewrite (free_blocks_on m3 m4).
  - unfold m3. rewrite bg_count_get by (apply desc_apart_sb || (apply uw_range; lia)). rewrite (free_blocks_on m mb).
    + unfold desc_is_wide. fold (desc_size mb) (desc_size m). by rewrite (same_desc_size mb framedb).
    + done.
    + apply (same_desc_size mb framedb).
    + intros x Hx. pose proof (desc_bytes x ltac:(lia)) as (? & ? & ? & ?). rewrite stepb, stepa, step2, H1 by (done || (unfold ino_count; lia)). done.
  - by rewrite (same_desc_size m3 framed3).
  - by rewrite (same_desc_size m3 framed3), (same_desc_size m4 framed4).
  - rewrite (same_desc_size m3 framed3). intros x Hx. pose proof (desc_bytes x ltac:(lia)) as (? & ? & ? & ?). rewrite step4, H3 by lia. done.
Qed.

(** The checksums are right at the end. *)
Lemma finish_bitmap_csum : ext4_balloc_verify_bitmap_csum m4 sb D B = true.
Proof.
  pose proof (ok_desc_size m Hok) as Hd. pose proof (same_desc_size m1 framed1) as E1.
  pose proof (frame_keeps m g ib ino jlo jhi Hok Hg Hino Hj m1 framed1) as K1.
  pose proof (frame_keeps m g ib ino jlo jhi Hok Hg Hino Hj m2 framed2) as K2.
  pose proof (ok_per_group m Hok) as Hpg. pose proof (bitmap_above m g Hok) as [Hba _].
  pose proof (desc_above m g Hok Hg) as Hda. pose proof (bitmap_desc_apart m g g Hok Hg Hg) as [Hap _].
  rewrite (verify_on m2 m4).
  - apply csum_verify; rewrite ?E1, ?(kept_per_group m m1 (proj1 K1)); done || lia.
  - intros x Hx Hc. pose proof (sb_apart x Hx). rewrite step4, H3, step3, stepb, stepa
      by (unfold dvar, sb_counter, sb_blocks, ino_count in *; lia). done.
  - rewrite (same_desc_size m2 framed2). intros x Hx. pose proof (desc_bytes x ltac:(lia)) as (? & ? & ? & ?).
    rewrite step4, H3 by lia. unfold m3, ext4_bg_set_free_blocks_count. case_if; rewrite !ld8_fset by (cbn; lia);
      by rewrite stepb, stepa by (done || (unfold ino_count; lia)).
  - intros x Hx. pose proof (bitmap_bytes x Hx) as E. rewrite E. symmetry. apply step2. lia.
  - rewrite (kept_per_group m m2 (proj1 K2)). lia.
Qed.

Lemma finish_desc_csum : (ext4_fs_verify_bg_csum m4 sb g D).2 = true.
Proof.
  destruct (ext4_sb_feature_ro_com m3' sb EXT4_FRO_COM_METADATA_CSUM) eqn:Hon.
  - apply bg_verify_put; [apply desc_apart_sb|done].
  - unfold ext4_fs_verify_bg_csum.
    rewrite (kept_ro_com m m4 (proj1 finish_keeps)), <- (kept_ro_com m m3'), Hon; [done|].
    apply (frame_keeps m g ib ino jlo jhi Hok Hg Hino Hj m3' framed3').
Qed.

(** The bytes of the inode are apart from the metadata. *)
Lemma inode_far x : ino <= x < ino + 128 -> (x < B \/ B + dev_bsize <= x) /\ ~ sb_blocks x /\
  (x < D \/ D + desc_size m <= x) /\ (x < buf jlo \/ buf jhi <= x).
Proof.
  intros Hx. pose proof (bsize_cases m Hok) as [_ Hbs]. assert (0 < dev_bsize) as Hpos by lia.
  destruct Hino as (Hib & I1 & I2 & I3). destruct (I3 g Hg) as (Hd & Hb & _).
  pose proof (buf_apart ib _ Hpos Hd). pose proof (buf_apart ib _ Hpos Hb). pose proof (desc_inside m Hok g Hg).
  pose proof (ok_below m Hok). pose proof (buf_above ib Hpos Hib). destruct Hj as (J1 & J2 & J3 & _).
  unfold sb_blocks. split; [lia|]. split; [lia|]. split; [lia|].
  unfold buf in *. assert (ib < jlo \/ jhi <= ib) by lia. nia.
Qed.

(** The flags of the inode, but for [EXT4_INODE_FLAG_HUGE_FILE]. *)
Lemma finish_flags f : f .& EXT4_INODE_FLAG_HUGE_FILE = 0 -> ext4_inode_has_flag m4 ino f = ext4_inode_has_flag m ino f.
Proof.
  intros Hf. pose proof (ok_desc_size m Hok) as Hd.
  assert (forall mm mm', (forall x, ino <= x < ino + 128 -> ld8 mm' x = ld8 mm x) -> ext4_inode_has_flag mm' ino f = ext4_inode_has_flag mm ino f) as Hon.
  { intros mm mm' Hx. unfold ext4_inode_has_flag, ext4_inode_get_flags. by rewrite (fget_on _ mm mm') by (done || (intros x Hx'; apply Hx; cbn in Hx'; lia)). }
  rewrite (Hon mb m4).
  - unfold mb. rewrite blocks_count_flags by done. apply Hon. intros x Hx. pose proof (inode_far x Hx) as (? & ? & ? & ?). rewrite stepa, step2, H1 by lia || done. done.
  - intros x Hx. pose proof (inode_far x Hx) as (? & ? & ? & ?). rewrite step4, H3, step3 by (unfold dvar; lia). done.
Qed.

(** The blocks of the inode, as long as the count has 32 bits. *)
Lemma finish_iblocks :
  let sectors := dev_bsize / EXT4_INODE_BLOCK_SIZE in
  let c := u64 (if cnt <? 0 then iblocks m ino + sectors else iblocks m ino - u32 (cnt * sectors)) in
  c < 2 ^ 32 -> iblocks m4 ino = c.
Proof.
  intros sectors c Hc.
  assert (forall mm mm', (forall x, sb <= x < sb + 1024 -> ~ sb_counter x -> ld8 mm' x = ld8 mm x) ->
    (forall x, ino <= x < ino + 128 -> ld8 mm' x = ld8 mm x) -> iblocks mm' ino = iblocks mm ino) as Hon.
  { intros mm mm' Hs Hx. unfold iblocks, ext4_inode_get_blocks_count, ext4_inode_has_flag, ext4_inode_get_flags.
    rewrite (kept_ro_com mm mm' Hs), (kept_block_size mm mm' Hs).
    by rewrite !(fget_on _ mm mm') by (done || (intros x Hx'; apply Hx; cbn in Hx'; lia)). }
  pose proof inode_far as Hfar.
  pose proof (ok_desc_size m Hok) as Hd.
  assert (iblocks ma ino = iblocks m ino) as Ea.
  { apply Hon; intros x Hx; [intros Hc'; pose proof (sb_apart x Hx)|pose proof (Hfar x Hx)]; rewrite stepa, step2, H1
      by (unfold sb_counter, sb_blocks in *; lia); done. }
  assert (ext4_sb_get_block_size ma sb = dev_bsize) as Eb.
  { rewrite (kept_block_size m); [apply (ok_bsize m Hok)|]. intros x Hx Hc'. pose proof (sb_apart x Hx).
    rewrite stepa, step2, H1 by (unfold sb_counter, sb_blocks in *; lia). done. }
  rewrite (Hon mb m4).
  - unfold iblocks, mb. replace count with c by (unfold count; by rewrite Ea, Eb).
    apply blocks_count_small; [|left; split; [apply uw_nonneg; lia|done]].
    right. destruct Hino as (Hib & I1 & _). pose proof (bsize_cases m Hok) as [_ Hbs]. assert (0 < dev_bsize) as Hpos by lia.
    pose proof (ok_below m Hok). pose proof (buf_above ib Hpos Hib). lia.
  - intros x Hx Hc'. pose proof (sb_apart x Hx). rewrite step4, H3, step3 by (unfold dvar; lia). done.
  - intros x Hx. pose proof (Hfar x Hx) as (? & ? & ? & ?). rewrite step4, H3, step3 by (unfold dvar; lia). done.
Qed.
End finish.

(** ** Group changes

    [bits] are the new bits of the bitmap of group [g], [cnt] how many blocks
    became free, [jlo, jhi) the blocks whose contents are given up. *)
Record group_change (m m' : memory) (g ino jlo jhi cnt : Z) (bits : Z -> bool) : Prop := {
  gc_keeps : keeps m m';
  gc_frame : frame m g ino jlo jhi m';
  gc_bits g' i : 0 <= g' < groups m -> 0 <= i < 8 * dev_bsize -> used m' g' i = if g' =? g then bits i else used m g' i;
  gc_ibits g' i : 0 <= g' < groups m -> 0 <= i < 8 * dev_bsize -> iused m' g' i = iused m g' i;
  gc_count g' : 0 <= g' < groups m ->
    gfree m' g' = if g' =? g then let c := u32 (gfree m g + cnt) in if desc_is_wide m sb then c else u16 c else gfree m g';
  gc_sb : sbfree m' = u64 (sbfree m + cnt);
  gc_inode : let sectors := dev_bsize / EXT4_INODE_BLOCK_SIZE in
    let c := u64 (if cnt <? 0 then iblocks m ino + sectors else iblocks m ino - u32 (cnt * sectors)) in
    c < 2 ^ 32 -> iblocks m' ino = c;
  gc_flags f : f .& EXT4_INODE_FLAG_HUGE_FILE = 0 -> ext4_inode_has_flag m' ino f = ext4_inode_has_flag m ino f;
  gc_bitmap_csum : ext4_balloc_verify_bitmap_csum m' sb (desc m g) (buf (bitmap m g)) = true;
  gc_desc_csum : (ext4_fs_verify_bg_csum m' sb g (desc m g)).2 = true;
}.

Lemma finish_change m g ib ino jlo jhi cnt m1 m3' : fs_ok m -> 0 <= g < groups m -> inode_placed m ib ino ->
  data_blocks m ib jlo (jhi - jlo) ->
  (forall x, x < buf (bitmap m g) \/ buf (bitmap m g) + dev_bsize <= x -> ld8 m1 x = ld8 m x) ->
  (forall x, x < buf jlo \/ buf jhi <= x ->
     ld8 m3' x = ld8 (counted (ext4_balloc_set_bitmap_csum m1 sb (desc m g) (buf (bitmap m g))) (desc m g) ino cnt) x) ->
  group_change m (put_bg_checksum m3' sb g (desc m g)) g ino jlo jhi cnt (fun i => bget m1 (buf (bitmap m g)) i).
Proof.
  intros Hok Hg Hino Hj H1 H3.
  assert (frame m g ino jlo jhi (put_bg_checksum m3' sb g (desc m g))) as Hf by (eapply framed4; done).
  constructor.
  - eapply finish_keeps; done.
  - done.
  - intros g' i Hg' Hi. case_if; [subst g'; by eapply finish_used|].
    by apply (frame_used m g ib ino jlo jhi Hok Hg Hino Hj _ Hf).
  - intros g' i Hg' Hi. by apply (frame_iused m g ib ino jlo jhi Hok Hg Hino Hj _ Hf).
  - intros g' Hg'. case_if; [subst g'; by eapply finish_gfree|]. by apply (frame_gfree m g ib ino jlo jhi Hok Hg Hino Hj _ Hf).
  - eapply finish_sbfree; done.
  - eapply finish_iblocks; done.
  - eapply finish_flags; done.
  - eapply finish_bitmap_csum; done.
  - eapply finish_desc_csum; done.
Qed.

(** The group that changed is sealed, the others stay as they were. *)
Lemma change_sealed m m' g ib ino jlo jhi cnt bits : fs_ok m -> 0 <= g < groups m -> inode_placed m ib ino ->
  data_blocks m ib jlo (jhi - jlo) -> group_change m m' g ino jlo jhi cnt bits ->
  forall g', 0 <= g' < groups m -> sealed m g' -> sealed m' g'.
Proof.
  intros Hok Hg Hino Hj Hgc g' Hg' Hs. pose proof (gc_keeps _ _ _ _ _ _ _ _ Hgc) as Hk. pose proof (ok_desc_size m Hok) as Hds.
  destruct (decide (g' = g)) as [->|Hne].
  - unfold sealed. rewrite (kept_desc m m' (proj1 Hk)), (kept_bitmap m m' Hk Hds) by done.
    split; [apply (gc_bitmap_csum _ _ _ _ _ _ _ _ Hgc)|apply (gc_desc_csum _ _ _ _ _ _ _ _ Hgc)].
  - apply (sealed_on m); try done; intros x Hx; apply (gc_frame _ _ _ _ _ _ _ _ Hgc).
    + apply (desc_untouched m g ib ino jlo jhi Hok Hg Hino Hj g'); [done|by left|done].
    + destruct Hino as (I0 & I1 & I2 & I3). destruct Hj as (J1 & J2 & J3 & J4).
      destruct (bitmap_nonneg m g'). destruct (I3 g' Hg') as (_ & ? & _). destruct (J4 g' Hg') as (_ & ? & _).
      destruct (ok_bitmaps m Hok g g' Hg Hg') as [Hb _]. destruct (Hb ltac:(done)). pose proof (ok_bitmap_desc m Hok g' g Hg' Hg) as [? _].
      apply (block_untouched m g ib ino jlo jhi Hok Hg (conj I0 (conj I1 (conj I2 I3))) (bitmap m g')); try done; try congruence; lia.
Qed.
End spec.
