(* ===== verification/Ext4BallocRun.v ===== *)
(** lwext4, block allocation: the search for a free block, and the effect of the
    operations of [Ext4Balloc] on every path. *)
From S2P Require Import Prelude Memory Ext4Errno Ext4Bitmap Ext4Crc Ext4Layout Ext4Super Ext4BlockGroup Ext4Inode.
From S2P Require Import Ext4Store Ext4Fs Ext4Groups Ext4Balloc Ext4BallocSpec.
#[local] Open Scope Z_scope.
#[local] Open Scope cint_scope.
#[local] Opaque ext4_crc32c ext4_bg_crc16.

Lemma near_loop_ok n m b : forall i, 0 <= i ->
  match near_loop n m b i with
  | Some t => first_clear m b i (i + Z.of_nat n) t
  | None => all_set m b i (i + Z.of_nat n)
  end.
Proof.
  induction n as [|n IH]; intros i Hi; cbn [near_loop]; [intros j Hj; lia|].
  rewrite is_bit_clr_ok by done. destruct (bget m b i) eqn:E; cbn [negb].
  - specialize (IH (i + 1) ltac:(lia)). destruct (near_loop n m b (i + 1)) as [t|].
    + destruct IH as (H1 & H2 & H3). split; [lia|]. split; [done|]. intros j Hj.
      destruct (decide (j = i)) as [->|]; [done|]. apply H3. lia.
    + intros j Hj. destruct (decide (j = i)) as [->|]; [done|]. apply IH. lia.
  - split; [lia|]. split; [done|]. intros j Hj. lia.
Qed.

(** [(i + 63) & ~63] *)
Lemma round_up64 i : 0 <= i < 2 ^ 31 -> u32 (i + 63) .& u32 (Z.lnot 63) = i + (- i) mod 64.
Proof.
  intros Hi. rewrite (uw_small 32 (i + 63)) by lia.
  assert ((i + 63) .& u32 (Z.lnot 63) = (i + 63) .& Z.lnot 63) as ->.
  { apply Z.bits_inj'. intros k Hk. rewrite !Z.land_spec, uw_testbit by lia. destruct (k <? 32) eqn:E; [done|]. zb.
    rewrite (Z_testbit_high 32 (i + 63)) by lia. done. }
  replace (Z.lnot 63) with (Z.lnot (Z.ones 6)) by done. rewrite <- Z.ldiff_land, Z.ldiff_ones_r, shiftl_pow2, shiftr_pow2 by lia.
  change (2 ^ 6) with 64. pose proof (Z.div_mod (i + 63) 64 ltac:(lia)). pose proof (Z.mod_pos_bound (i + 63) 64 ltac:(lia)).
  pose proof (Z.mod_pos_bound (- i) 64 ltac:(lia)). pose proof (Z.div_mod (- i) 64 ltac:(lia)). lia.
Qed.

(** The search from a bit in use whose neighbours up to the next multiple of 64
    are in use: the wrong answer of the search inside a byte cannot occur. *)
Lemma find_clr_after m b i e bit_id : 0 <= i < e -> e < 2 ^ 32 ->
  all_set m b i (Z.min e (i + (- i) mod 64)) ->
  (exists c, first_clear m b i e c /\ ext4_bmap_bit_find_clr m b i e bit_id = Some (EOK, c)) \/
  (all_set m b i e /\ ext4_bmap_bit_find_clr m b i e bit_id = Some (ENOSPC, bit_id)).
Proof.
  intros Hi He Hs. destruct (find_clr_ok m b i e bit_id ltac:(lia) He) as [(c & Hc & ->)|[Ha ->]]; [|by right].
  left. exists c. split; [done|]. case_if; [|done]. exfalso. destruct Hc as (C1 & C2 & _).
  rewrite (Hs c) in C2; [done|]. pose proof (Z.mod_pos_bound (- i) 64 ltac:(lia)).
  pose proof (Z.mod_pos_bound (- i) 8 ltac:(lia)). pose proof (Z.div_mod (- i) 64 ltac:(lia)).
  pose proof (Z.div_mod (- i) 8 ltac:(lia)). lia.
Qed.

Section run.
Context `{Device}.
#[local] Notation sb := fs_sb.

(** ** Addresses *)

Definition in_group (m : memory) (g : Z) : Z := ext4_blocks_in_group_cnt m sb g.
Definition addr (m : memory) (g i : Z) : Z := per_group m * g + i + fget sb_first_data_block m sb.

Section addresses.
Context (m : memory) (Hok : fs_ok m).

Lemma in_group_range g : 0 <= g < groups m -> 1 <= in_group m g <= per_group m.
Proof.
  intros Hg. pose proof (ok_per_group m Hok) as Hp. pose proof (ok_total m Hok) as Ht. unfold per_group in *.
  destruct (blocks_in_group_cases m sb) as (Hf & Hl & _); [lia|lia|nia|]. fold (groups m) in Hf, Hl. unfold in_group.
  destruct (decide (g = groups m - 1)) as [->|]; [done|]. rewrite Hf by lia. lia.
Qed.

Lemma group_base g : 0 <= g < groups m -> 0 <= per_group m * g < 2 ^ 32 - 2 ^ 20.
Proof.
  intros Hg. pose proof (ok_per_group m Hok) as Hp. pose proof (ok_total m Hok) as Ht. unfold per_group in *.
  destruct (blocks_in_group_cases m sb) as (_ & Hl & Hs); [lia|lia|nia|]. fold (groups m) in Hl, Hs. nia.
Qed.

Lemma first_cases : fget sb_first_data_block m sb = 0 \/ fget sb_first_data_block m sb = 1.
Proof. pose proof (ok_first m Hok). pose proof (fget_range sb_first_data_block m sb). lia. Qed.

Lemma addr_ok g i : 0 <= g < groups m -> 0 <= i < per_group m -> ext4_fs_bg_idx_to_addr m sb i g = addr m g i.
Proof.
  intros Hg Hi. pose proof (group_base g Hg). pose proof (bsize_cases m Hok) as [_ Hb]. pose proof (ok_per_group m Hok).
  unfold ext4_fs_bg_idx_to_addr, addr. fold (per_group m). rewrite (uw_small 32 (per_group m * g)) by lia.
  destruct first_cases as [-> | ->]; unfold c_true; cbn [negb Z.eqb]; rewrite ?(uw_small 32 (i + 1)), uw_small by lia; lia.
Qed.

Lemma index_ok g i : 0 <= g < groups m -> 0 <= i < per_group m ->
  ext4_fs_addr_to_idx_bg m sb (addr m g i) = i /\ ext4_balloc_get_bgid_of_block m sb (addr m g i) = g.
Proof.
  intros Hg Hi. pose proof (group_base g Hg) as Hb. pose proof (groups_range m Hok). pose proof (bsize_cases m Hok) as [_ Hbs].
  pose proof (ok_per_group m Hok) as Hp. unfold ext4_fs_addr_to_idx_bg, ext4_balloc_get_bgid_of_block, addr. fold (per_group m).
  assert ((per_group m * g + i) mod per_group m = i /\ (per_group m * g + i) / per_group m = g) as [E1 E2].
  { rewrite Z.mul_comm, Z.add_comm. rewrite Z.mod_add, Z.div_add, Z.mod_small, Z.div_small by lia. lia. }
  destruct first_cases as [-> | ->].
  - change (c_true 0) with false. cbn [andb]. rewrite Z.add_0_r, E1, E2, !uw_small by lia. done.
  - unfold c_true. cbn [negb Z.eqb andb]. rewrite (proj2 (Z.eqb_neq (per_group m * g + i + 1) 0)) by lia. cbn [negb].
    replace (per_group m * g + i + 1 - 1) with (per_group m * g + i) by lia. rewrite E1, E2, !uw_small by lia. done.
Qed.

Lemma first_index g : 0 <= g < groups m ->
  ext4_fs_addr_to_idx_bg m sb (ext4_balloc_get_block_of_bgid m sb g) = 0.
Proof.
  intros Hg. pose proof (group_base g Hg). pose proof (ok_per_group m Hok) as Hp.
  assert (ext4_balloc_get_block_of_bgid m sb g = addr m g 0) as ->.
  { unfold ext4_balloc_get_block_of_bgid, addr. fold (per_group m). rewrite (Z.mul_comm g), (uw_small 32) by lia.
    destruct first_cases as [-> | ->]; unfold c_true; cbn [negb Z.eqb]; rewrite uw_small by lia; lia. }
  apply index_ok; [done|lia].
Qed.
End addresses.

(** ** Taking a bit *)

Lemma same_used m m' g i : same m m' -> used m' g i = used m g i.
Proof.
  intros Hs. pose proof (same_keeps m m' Hs) as [Hk _]. unfold used.
  assert (bitmap m' g = bitmap m g) as ->; [|by apply bget_on].
  unfold bitmap, ext4_bg_get_block_bitmap. rewrite (kept_desc m m' Hk). fold (desc_size m') (desc_size m).
  by rewrite (kept_desc_size m m' Hk), !(fget_ld8 _ _ _ _ Hs).
Qed.

Lemma bit_set_other m b i n x : 0 <= i < 8 * n -> x < b \/ b + n <= x -> ld8 (ext4_bmap_bit_set m b i) x = ld8 m x.
Proof.
  intros Hi Hx. unfold ext4_bmap_bit_set. destruct (byte_of i ltac:(lia)) as [-> _]. apply ld8_st8_other.
  pose proof (byte_in i n Hi). lia.
Qed.

Lemma bit_clr_other m b i n x : 0 <= i < 8 * n -> x < b \/ b + n <= x -> ld8 (ext4_bmap_bit_clr m b i) x = ld8 m x.
Proof.
  intros Hi Hx. unfold ext4_bmap_bit_clr. destruct (byte_of i ltac:(lia)) as [-> _]. apply ld8_st8_other.
  pose proof (byte_in i n Hi). lia.
Qed.

Section take.
Context (m : memory) (g i : Z) (Hok : fs_ok m) (Hg : 0 <= g < groups m) (Hi : 0 <= i < per_group m).

Lemma index_fits : 0 <= i < 8 * dev_bsize.
Proof. pose proof (ok_per_group m Hok). lia. Qed.

Lemma marked_sb m0 x : same m m0 -> sb <= x < sb + 1024 ->
  ld8 (ext4_balloc_set_bitmap_csum (ext4_bmap_bit_set m0 (buf (bitmap m g)) i) sb (desc m g) (buf (bitmap m g))) x = ld8 m x.
Proof.
  intros Hs Hx. pose proof (desc_above m g Hok Hg). pose proof (bitmap_above m g Hok) as [? _]. pose proof index_fits as Hf.
  assert (forall y, y < buf (bitmap m g) -> ld8 (ext4_bmap_bit_set m0 (buf (bitmap m g)) i) y = ld8 m y) as Hb.
  { intros y Hy. rewrite (bit_set_other m0 _ i dev_bsize) by lia. apply Hs. }
  rewrite csum_frame; [apply Hb; lia| |lia].
  rewrite (kept_desc_size m); [apply (ok_desc_size m Hok)|]. intros y Hy _. apply Hb. lia.
Qed.

Lemma run_taken s l (Q : attempt -> ext4_fs -> Prop) : same m (mem s) -> dev_open = true ->
  held s = bitmap m g :: desc_block m g :: l ->
  (forall u, Q (Success (the_ref m g) (addr m g i))
    (Fs (ext4_balloc_set_bitmap_csum (ext4_bmap_bit_set (mem s) (buf (bitmap m g)) i) sb (desc m g) (buf (bitmap m g)))
        ({[ bitmap m g ]} ∪ dirty s) (desc_block m g :: l) (clock s) (last_inode_bg_id s) u)) ->
  run (taken (the_ref m g) (bitmap m g) i g) s Q.
Proof.
  intros Hs Hop Hh HQ. unfold taken, take_bit. steps. apply run_dirty; [cbn; rewrite Hh; left|].
  apply (run_set _ (desc_block m g :: l)); [done|done|]. rewrite (Z.eqb_refl EOK). cbn [negb]. steps. cbn [mem set_held set_dirty set_unsaved set_mem].
  assert (forall x, sb <= x < sb + 1024 -> ~ sb_counter x ->
    ld8 (ext4_balloc_set_bitmap_csum (ext4_bmap_bit_set (mem s) (buf (bitmap m g)) i) sb (desc m g) (buf (bitmap m g))) x = ld8 m x) as Hk
    by (intros x Hx _; by apply marked_sb).
  rewrite (kept_addr m _ Hk), addr_ok by done. apply HQ.
Qed.
End take.

(** ** After the search *)

Definition bits_with (m : memory) (g i : Z) (v : bool) : Z -> bool := fun j => if j =? i then v else used m g j.

Lemma data_blocks_none m ib : 0 <= ib -> data_blocks m ib 0 (0 - 0).
Proof. intros Hib. split; [lia|]. split; [lia|]. split; [lia|]. intros g Hg. lia. Qed.

Lemma group_change_bits m m' g ino jlo jhi cnt bits bits' : (forall i, 0 <= i < 8 * dev_bsize -> bits i = bits' i) ->
  group_change m m' g ino jlo jhi cnt bits -> group_change m m' g ino jlo jhi cnt bits'.
Proof.
  intros Hb [A1 A2 A3 A4 A5 A6 A7 A8 A9 A10]. constructor; try done. intros g' i Hg' Hi. rewrite A3 by done. by rewrite Hb.
Qed.

Lemma run_success ir m g i ib l a s m0 (Q : Z * Z * ext4_inode_ref -> ext4_fs -> Prop) :
  fs_ok m -> 0 <= g < groups m -> 0 <= i < per_group m -> inode_placed m ib (ir_inode ir) -> same m m0 ->
  mem s = ext4_balloc_set_bitmap_csum (ext4_bmap_bit_set m0 (buf (bitmap m g)) i) sb (desc m g) (buf (bitmap m g)) ->
  dev_open = true -> held s = desc_block m g :: l ->
  (forall s', group_change m (mem s') g (ir_inode ir) 0 0 (-1) (bits_with m g i true) ->
     dirty s' = {[ desc_block m g ]} ∪ dirty s -> held s' = l -> last_inode_bg_id s' = last_inode_bg_id s ->
     Q (EOK, a, dirty_inode ir) s') ->
  run (alloc_success ir (the_ref m g) a) s Q.
Proof.
  intros Hok Hg Hi Hino Hs Em Hop Hh HQ. unfold alloc_success. step. apply run_count. step.
  apply (run_put_ref _ l); [done|done|]. cbv zeta. intros u. cbn [bgr_dirty dirty_ref bgr_index block_group bgr_block the_ref]. step.
  pose proof (index_fits m i Hok Hi) as Hf.
  apply HQ; cbn [mem dirty held last_inode_bg_id set_mem]; try done. rewrite Em.
  eapply group_change_bits; [|eapply (finish_change m g ib (ir_inode ir) 0 0 (-1) (ext4_bmap_bit_set m0 (buf (bitmap m g)) i)); try done].
  - intros j Hj. unfold bits_with, used. rewrite bget_set by lia. case_if; [done|]. by apply bget_on.
  - destruct Hino. by apply data_blocks_none.
  - intros x Hx. rewrite (bit_set_other m0 _ i dev_bsize) by (done || lia). apply Hs.
Qed.

(** ** The search in one group *)

(** Bits behind the end of a group are in use. *)
Definition padded (m : memory) : Prop :=
  forall g i, 0 <= g < groups m -> in_group m g <= i < per_group m -> used m g i = true.

(** How the search of group [g] started in [s] may end: nothing is free from
    bit [lo] on, or some free bit is taken. *)
Definition searched (m : memory) (g lo : Z) (s : ext4_fs) (a : attempt) (s' : ext4_fs) : Prop :=
  last_inode_bg_id s' = last_inode_bg_id s /\
  match a with
  | Failed r => device_error r /\ unchanged s s'
  | Nothing ref => ref = the_ref m g /\ dev_open = true /\ same m (mem s') /\ dirty s' = dirty s /\
      held s' = desc_block m g :: held s /\
      (gfree m g = 0 \/ forall i, lo <= i < in_group m g -> used m g i = true)
  | Success ref b => ref = the_ref m g /\ dev_open = true /\ dirty s' = {[ bitmap m g ]} ∪ dirty s /\
      held s' = desc_block m g :: held s /\
      exists i m0, 0 <= i < per_group m /\ used m g i = false /\ b = addr m g i /\ same m m0 /\
        mem s' = ext4_balloc_set_bitmap_csum (ext4_bmap_bit_set m0 (buf (bitmap m g)) i) sb (desc m g) (buf (bitmap m g))
  end.

Section search.
Context (m : memory) (g : Z) (Hok : fs_ok m) (Hg : 0 <= g < groups m).

Lemma same_free m0 : same m m0 -> ext4_bg_get_free_blocks_count m0 (desc m g) sb = gfree m g /\
  ext4_bg_get_block_bitmap m0 (desc m g) sb = bitmap m g.
Proof.
  intros Hs. pose proof (proj1 (same_keeps m m0 Hs)) as Hk.
  unfold gfree, bitmap, ext4_bg_get_free_blocks_count, ext4_bg_get_block_bitmap. fold (desc_size m0) (desc_size m).
  by rewrite (kept_desc_size m m0 Hk), !(fget_ld8 _ _ _ _ Hs).
Qed.

(** Ending with a bit that is known to be free. *)
Lemma run_taken_searched i lo s0 s : same m (mem s) -> dev_open = true -> 0 <= i < per_group m -> used m g i = false ->
  dirty s = dirty s0 -> held s = bitmap m g :: desc_block m g :: held s0 -> last_inode_bg_id s = last_inode_bg_id s0 ->
  run (taken (the_ref m g) (bitmap m g) i g) s (searched m g lo s0).
Proof.
  intros Hs Hop Hi Hu Hd Hh Hl. apply (run_taken m g i Hok Hg Hi s (held s0)); try done. intros u.
  split; [done|]. split; [done|]. split; [done|]. split; [cbn; by rewrite Hd|]. split; [done|].
  exists i, (mem s). done.
Qed.

(** Ending without. *)
Lemma run_nothing lo s0 s : same m (mem s) -> dev_open = true -> dirty s = dirty s0 ->
  held s = bitmap m g :: desc_block m g :: held s0 -> last_inode_bg_id s = last_inode_bg_id s0 ->
  (forall i, lo <= i < in_group m g -> used m g i = true) ->
  run (r ← ext4_block_set (bitmap m g);
       if negb (r =? EOK) then ext4_fs_put_block_group_ref (the_ref m g);; mret (Failed r)
       else mret (Nothing (the_ref m g))) s (searched m g lo s0).
Proof.
  intros Hs Hop Hd Hh Hl Hu. step. apply (run_set _ (desc_block m g :: held s0)); [done|done|].
  rewrite (Z.eqb_refl EOK). cbn [negb]. step. split; [done|]. split; [done|]. do 4 (split; [done|]). by right.
Qed.

(** Ending with a bitmap that cannot be read. *)
Lemma run_unreadable r lo s0 s : device_error r -> same m (mem s0) -> same m (mem s) -> dev_open = true -> dirty s = dirty s0 ->
  held s = desc_block m g :: held s0 -> last_inode_bg_id s = last_inode_bg_id s0 ->
  run (ext4_fs_put_block_group_ref (the_ref m g);; mret (Failed r)) s (searched m g lo s0).
Proof.
  intros Hr Hs0 Hs Hop Hd Hh Hl. step. apply (run_put_ref _ (held s0)); [done|done|]. cbv zeta. intros u. cbn [bgr_dirty the_ref].
  step. split; [done|]. split; [done|]. split; [|done]. intros x. cbn. by rewrite Hs, Hs0.
Qed.

Lemma run_in_group s : same m (mem s) -> run (alloc_in_group g) s (searched m g 0 s).
Proof.
  intros Hs. unfold alloc_in_group. step. apply (run_ref m); [done|done|done| |].
  { intros r ref s' Hr Hu. rewrite (proj2 (Z.eqb_neq r EOK) (proj1 Hr)). cbn [negb]. step.
    split; [apply Hu|]. done. }
  intros s' Hop Hs1 Hd' Hh' Hl'. rewrite (Z.eqb_refl EOK). cbn [negb]. steps.
  cbn [block_group the_ref bgr_index]. destruct (same_free (mem s') Hs1) as [-> ->].
  destruct (gfree m g =? 0) eqn:E0; zb.
  { step. split; [done|]. split; [done|]. do 4 (split; [done|]). by left. }
  step. apply run_get.
  { intros r s2 Hr E1 E2 E3 E4. rewrite (proj2 (Z.eqb_neq r EOK) (proj1 Hr)). cbn [negb].
    apply run_unreadable; try done; congruence. }
  intros s2 _ E1 E2 E3 E4. rewrite (Z.eqb_refl EOK). cbn [negb]. steps. rewrite E1.
  pose proof (proj1 (same_keeps m _ Hs1)) as Hk1.
  rewrite (kept_first_of m _ Hk1), (kept_idx m _ Hk1), (first_index m Hok g Hg), (kept_in_group m _ Hk1). fold (in_group m g).
  pose proof (in_group_range m Hok g Hg) as Hr. pose proof (ok_per_group m Hok) as Hp. pose proof (bsize_cases m Hok) as [_ Hb].
  assert (forall i, bget (mem s') (buf (bitmap m g)) i = used m g i) as Hu by (intros i; by apply bget_on).
  destruct (find_clr_after (mem s') (buf (bitmap m g)) 0 (in_group m g) 0) as [(c & (C1 & C2 & C3) & Ec)|[Ha Ec]]; [lia|lia| | |].
  { intros i Hi. change ((- 0) mod 64) with 0 in Hi. lia. }
  - apply (run_lift (EOK, c)); [done|]. rewrite (Z.eqb_refl EOK). rewrite Hu in C2.
    apply run_taken_searched; try done; try congruence; lia.
  - apply (run_lift (ENOSPC, 0)); [done|]. change (ENOSPC =? EOK) with false.
    apply run_nothing; try done; try congruence. intros i Hi. rewrite <- Hu. by apply Ha.
Qed.

Lemma run_near_goal idx s : same m (mem s) -> 0 <= idx <= in_group m g -> idx < per_group m -> padded m ->
  run (alloc_near_goal g idx) s (searched m g idx s).
Proof.
  intros Hs Hidx Hidx' Hpad. unfold alloc_near_goal. step. apply (run_ref m); [done|done|done| |].
  { intros r ref s' Hr Hu. rewrite (proj2 (Z.eqb_neq r EOK) (proj1 Hr)). cbn [negb]. step.
    split; [apply Hu|]. done. }
  intros s' Hop Hs1 Hd' Hh' Hl'. rewrite (Z.eqb_refl EOK). cbn [negb]. steps.
  cbn [block_group the_ref bgr_index]. destruct (same_free (mem s') Hs1) as [-> ->].
  destruct (gfree m g =? 0) eqn:E0; zb.
  { step. split; [done|]. split; [done|]. do 4 (split; [done|]). by left. }
  pose proof (proj1 (same_keeps m _ Hs1)) as Hk1.
  rewrite (kept_first_of m _ Hk1), (kept_idx m _ Hk1), (first_index m Hok g Hg). rewrite (proj2 (Z.ltb_ge idx 0)) by lia.
  step. apply run_get.
  { intros r s2 Hr E1 E2 E3 E4. rewrite (proj2 (Z.eqb_neq r EOK) (proj1 Hr)). cbn [negb].
    apply run_unreadable; try done; congruence. }
  intros s2 _ E1 E2 E3 E4. rewrite (Z.eqb_refl EOK). cbn [negb]. steps. rewrite E1.
  rewrite (kept_in_group m _ Hk1). fold (in_group m g).
  pose proof (in_group_range m Hok g Hg) as Hr. pose proof (ok_per_group m Hok) as Hp. pose proof (bsize_cases m Hok) as [_ Hb].
  assert (forall i, bget (mem s') (buf (bitmap m g)) i = used m g i) as Hu by (intros i; by apply bget_on).
  rewrite is_bit_clr_ok, Hu by lia. destruct (used m g idx) eqn:Eu; cbn [negb].
  2: { apply run_taken_searched; try done; try congruence; lia. }
  rewrite (uw_small 32 (idx + 1)), round_up64 by lia. pose proof (Z.mod_pos_bound (- idx) 64 ltac:(lia)) as Hm64.
  set (e := if in_group m g <? idx + (- idx) mod 64 then in_group m g else idx + (- idx) mod 64).
  assert (e = Z.min (in_group m g) (idx + (- idx) mod 64)) as Ee by (unfold e; case_if; lia).
  pose proof (near_loop_ok (Z.to_nat (e - (idx + 1))) (mem s') (buf (bitmap m g)) (idx + 1) ltac:(lia)) as Hn.
  destruct (near_loop _ _ _ _) as [t|].
  - destruct Hn as (T1 & T2 & _). rewrite Hu in T2. apply run_taken_searched; try done; try congruence; lia.
  - destruct (decide (idx = in_group m g)) as [Ei|Ei].
    + assert (ext4_bmap_bit_find_clr (mem s') (buf (bitmap m g)) idx (in_group m g) 0 = Some (ENOSPC, 0)) as Ec.
      { destruct (find_clr_ok (mem s') (buf (bitmap m g)) idx (in_group m g) 0) as [(c & (C1 & _) & _)|[_ Ec]]; [lia|lia|lia|done]. }
      step. apply (run_lift (ENOSPC, 0)); [done|]. change (ENOSPC =? EOK) with false.
      apply run_nothing; try done; try congruence. intros i Hi. lia.
    + destruct (find_clr_after (mem s') (buf (bitmap m g)) idx (in_group m g) 0) as [(c & (C1 & C2 & C3) & Ec)|[Ha Ec]]; [lia|lia| | |].
      { intros i Hi. destruct (decide (i = idx)) as [->|]; [by rewrite Hu|]. apply Hn. lia. }
      * step. apply (run_lift (EOK, c)); [done|]. rewrite (Z.eqb_refl EOK). rewrite Hu in C2.
        apply run_taken_searched; try done; try congruence; lia.
      * step. apply (run_lift (ENOSPC, 0)); [done|]. change (ENOSPC =? EOK) with false.
        apply run_nothing; try done; try congruence. intros i Hi. rewrite <- Hu. by apply Ha.
Qed.
End search.

(** ** Allocation *)

Definition group_full (m : memory) (g : Z) : Prop :=
  gfree m g = 0 \/ forall i, 0 <= i < in_group m g -> used m g i = true.

(** One free block is taken; or nothing changes, because of the device or
    because no block is free in the groups of [seen]. *)
Definition allocated (m : memory) (ir : ext4_inode_ref) (seen : Z -> Prop) (s : ext4_fs) (out : Z * Z * ext4_inode_ref)
    (s' : ext4_fs) : Prop :=
  let '(r, a, ir') := out in
  (r = EOK /\ ir' = dirty_inode ir /\ held s' = held s /\ last_inode_bg_id s' = last_inode_bg_id s /\
   exists g i, 0 <= g < groups m /\ 0 <= i < per_group m /\ used m g i = false /\ a = addr m g i /\
     group_change m (mem s') g (ir_inode ir) 0 0 (-1) (bits_with m g i true) /\
     dirty s' = {[ desc_block m g ]} ∪ ({[ bitmap m g ]} ∪ dirty s)) \/
  (unchanged s s' /\ ir' = ir /\ a = 0 /\
   (device_error r \/ (r = ENOSPC /\ forall g, 0 <= g < groups m -> seen g -> group_full m g))).

Section alloc.
Context (m : memory) (ir : ext4_inode_ref) (ib : Z).
Hypothesis (Hok : fs_ok m) (Hino : inode_placed m ib (ir_inode ir)).

Lemma unchanged_trans s s1 s2 : unchanged s s1 -> unchanged s1 s2 -> unchanged s s2.
Proof. intros (A & B & C & D) (A' & B' & C' & D'). split; [intros x; by rewrite A', A|split_and!; congruence]. Qed.

Lemma allocated_weaken s s1 (seen seen' : Z -> Prop) out s2 : unchanged s s1 ->
  (forall g, 0 <= g < groups m -> seen' g -> seen g \/ group_full m g) ->
  allocated m ir seen s1 out s2 -> allocated m ir seen' s out s2.
Proof.
  intros Hu Hsn. destruct out as [[r a] ir']. pose proof Hu as (_ & Hd & Hh & Hl).
  intros [(-> & -> & E1 & E2 & g & i & G)|(U & -> & Ea & C)].
  - left. split; [done|]. split; [done|]. split; [congruence|]. split; [congruence|]. exists g, i. by rewrite <- Hd.
  - right. split; [by eapply unchanged_trans|]. split; [done|]. split; [done|]. destruct C as [?|[? C]]; [by left|]. right. split; [done|].
    intros g Hg Hs. destruct (Hsn g Hg Hs) as [?|?]; [by apply C|done].
Qed.

(** What follows the search of one group: [k] is what the code does when the
    group has no free block. *)
Lemma run_attempt g lo s c (k : M (Z * Z * ext4_inode_ref)) (seen : Z -> Prop) :
  0 <= g < groups m -> same m (mem s) -> run c s (searched m g lo s) ->
  (forall s', unchanged s s' -> (gfree m g = 0 \/ forall i, lo <= i < in_group m g -> used m g i = true) ->
     run k s' (allocated m ir seen s')) ->
  run (a ← c;
       match a with
       | Failed r => mret (r, 0, ir)
       | Success bg_ref alloc => alloc_success ir bg_ref alloc
       | Nothing bg_ref =>
           r ← ext4_fs_put_block_group_ref bg_ref;
           if negb (r =? EOK) then mret (r, 0, ir) else k
       end) s (fun out s' => allocated m ir seen s out s').
Proof.
  intros Hg Hs Hc Hk. step. eapply run_mono; [exact Hc|]. intros [r|ref a|ref] s1 (Hl & Hr); cbv beta iota.
  - destruct Hr as [Hr Hu]. step. right. split; [done|]. split; [done|]. split; [done|]. by left.
  - destruct Hr as (-> & Hop & Hd & Hh & i & m0 & Hi & Hu & -> & Hs0 & Em).
    apply (run_success ir m g i ib (held s) _ s1 m0); try done. intros s2 Hgc Hd2 Hh2 Hl2. left. split; [done|].
    split; [done|]. split; [done|]. split; [congruence|]. exists g, i. split_and!; try done; try lia. by rewrite Hd2, Hd.
  - destruct Hr as (-> & Hop & Hs1 & Hd & Hh & Hf). step. apply (run_put_ref _ (held s)); [done|done|]. cbv zeta. intros u.
    cbn [bgr_dirty the_ref]. rewrite (Z.eqb_refl EOK). cbn [negb].
    set (s2 := Fs (mem s1) (dirty s1) (held s) (clock s1) (last_inode_bg_id s1) u).
    assert (unchanged s s2) as Hu by (split_and!; try done; intros x; cbn; by rewrite Hs1, Hs).
    eapply run_mono; [by apply (Hk s2)|]. intros out s3 Ha. eapply allocated_weaken; [exact Hu| |exact Ha]. by left.
Qed.

Lemma run_groups_loop count : forall bgid s, 0 <= bgid < groups m -> same m (mem s) ->
  run (groups_loop count ir bgid (groups m)) s
    (fun out s' => allocated m ir (fun g => exists j, 0 <= j < Z.of_nat count /\ g = (bgid + j) mod groups m) s out s').
Proof.
  pose proof (groups_range m Hok) as Hn. induction count as [|count IH]; intros bgid s Hb Hs; cbn [groups_loop].
  - step. right. split; [by split_and!|]. split; [done|]. split; [done|]. right. split; [done|]. intros g Hg (j & Hj & _). lia.
  - apply (run_attempt bgid 0); [done|done|by apply run_in_group|]. intros s' Hu Hf.
    assert (0 <= u32 (bgid + 1) mod groups m < groups m) as Hb' by (apply Z.mod_pos_bound; lia).
    eapply run_mono; [apply IH; [done|]|].
    { destruct Hu as [Hu _]. intros x. by rewrite Hu, Hs. }
    intros out s2 Ha. eapply allocated_weaken; [by split_and!| |exact Ha]. intros g Hg (j & Hj & ->).
    destruct (decide (j = 0)) as [->|]; [right; by rewrite Z.add_0_r, Z.mod_small by lia|]. left. exists (j - 1).
    split; [lia|]. rewrite uw_small, Zplus_mod_idemp_l by lia. f_equal. lia.
Qed.

Lemma run_alloc goal s : mem s = m -> padded m ->
  (exists g, 0 <= g < groups m /\ ext4_balloc_get_bgid_of_block m sb goal = g /\
     0 <= ext4_fs_addr_to_idx_bg m sb goal <= in_group m g /\ ext4_fs_addr_to_idx_bg m sb goal < per_group m) ->
  run (ext4_balloc_alloc_block ir goal) s (allocated m ir (fun _ => True) s).
Proof.
  intros Em Hpad (g & Hg & Eg & Hi1 & Hi2). pose proof (groups_range m Hok) as Hn.
  unfold ext4_balloc_alloc_block. step. step. rewrite Em, Eg.
  eapply run_mono.
  - apply (run_attempt g (ext4_fs_addr_to_idx_bg m sb goal) s _ _ (fun _ => True)); [done|by rewrite Em| |].
    { apply run_near_goal; try done. by rewrite Em. }
    intros s' Hu Hf. step. step.
    assert (same m (mem s')) as Hs by (destruct Hu as [Hu _]; by rewrite <- Em).
    rewrite (kept_groups m _ (proj1 (same_keeps m _ Hs)) : ext4_block_group_cnt (mem s') sb = groups m).
    eapply run_mono; [apply run_groups_loop; [apply Z.mod_pos_bound; lia|done]|].
    intros out s2 Ha. eapply allocated_weaken; [by split_and!| |exact Ha]. intros g' Hg' _. left.
    exists ((g' - (g + 1)) mod groups m). split; [rewrite Z2Nat.id by lia; apply Z.mod_pos_bound; lia|].
    rewrite (uw_small 32) by lia. rewrite <- Zplus_mod. replace (g + 1 + (g' - (g + 1))) with g' by lia.
    by rewrite Z.mod_small by lia.
  - done.
Qed.
End alloc.

(** ** Release *)

Definition bits_range (m : memory) (g lo hi : Z) (v : bool) : Z -> bool :=
  fun j => if (lo <=? j) && (j <? hi) then v else used m g j.

(** The blocks [a, a + n), bits [lo, lo + n) of group [g], are free afterwards. *)
Definition released (m : memory) (ir : ext4_inode_ref) (g lo a n : Z) (s : ext4_fs) (out : Z * ext4_inode_ref)
    (s' : ext4_fs) : Prop :=
  let '(r, ir') := out in
  (r = EOK /\ ir' = dirty_inode ir /\ held s' = held s /\ last_inode_bg_id s' = last_inode_bg_id s /\
   group_change m (mem s') g (ir_inode ir) a (a + n) n (bits_range m g lo (lo + n) false) /\
   dirty s' = {[ desc_block m g ]} ∪ ({[ bitmap m g ]} ∪ dirty s)) \/
  (device_error r /\ unchanged s s' /\ ir' = ir).

Section release.
Context (m : memory) (ir : ext4_inode_ref) (ib g : Z).
Hypothesis (Hok : fs_ok m) (Hg : 0 <= g < groups m) (Hino : inode_placed m ib (ir_inode ir)).

(** The bitmap of the group cannot be read. *)
Lemma run_give_up {A} (x : A) l s (Q : A -> ext4_fs -> Prop) : dev_open = true -> held s = desc_block m g :: l ->
  (forall u, Q x (Fs (mem s) (dirty s) l (clock s) (last_inode_bg_id s) u)) ->
  run (ext4_fs_put_block_group_ref (the_ref m g);; mret x) s Q.
Proof. intros Hop Hh HQ. step. apply (run_put_ref _ l); [done|done|]. cbv zeta. intros u. cbn [bgr_dirty the_ref]. step. apply HQ. Qed.

Lemma run_free i a s : mem s = m -> 0 <= i < per_group m -> ext4_balloc_get_bgid_of_block m sb a = g ->
  ext4_fs_addr_to_idx_bg m sb a = i -> data_blocks m ib a 1 ->
  run (ext4_balloc_free_block ir a) s (released m ir g i a 1 s).
Proof.
  intros Em Hi Ea Ei Hj. pose proof (index_fits m i Hok Hi) as Hf. unfold ext4_balloc_free_block. step. step. rewrite Em, Ea, Ei. step.
  apply run_get_ref; rewrite ?Em; try done.
  { intros r ref s' Hr Hu. rewrite (proj2 (Z.eqb_neq r EOK) (proj1 Hr)). cbn [negb]. step. by right. }
  intros s1 Hop Hs1 Hd1 Hh1 Hl1. rewrite (Z.eqb_refl EOK). cbn [negb block_group the_ref]. step. step.
  destruct (same_free m g (mem s1) Hs1) as [_ ->]. step. apply run_get.
  { intros r s2 Hr E1 E2 E3 E4. rewrite (proj2 (Z.eqb_neq r EOK) (proj1 Hr)). cbn [negb].
    eapply run_give_up; [done|by rewrite E3|]. intros u. right. split; [done|]. split; [|done].
    split; [intros x; cbn; by rewrite E1, Em|]. split_and!; cbn; congruence. }
  intros s2 _ E1 E2 E3 E4. rewrite (Z.eqb_refl EOK). cbn [negb]. steps.
  apply run_dirty; [cbn; rewrite E3; left|]. step. apply (run_set _ (desc_block m g :: held s)); [done|cbn; congruence|].
  rewrite (Z.eqb_refl EOK). cbn [negb]. step. apply run_count. step. apply run_invalidate. intros s3 Hs3 Hd3 Hh3 Hl3. step.
  apply (run_put_ref _ (held s)); [done|by rewrite Hh3|]. cbv zeta. intros u. cbn [bgr_dirty dirty_ref bgr_index block_group bgr_block the_ref].
  step. left. split; [done|]. split; [done|]. cbn [mem dirty held last_inode_bg_id set_mem set_held set_dirty set_unsaved] in *.
  split; [done|]. split; [congruence|]. split; [|by rewrite Hd3, E2, Hd1].
  eapply group_change_bits; [|eapply (finish_change m g ib (ir_inode ir) a (a + 1) 1 (ext4_bmap_bit_clr (mem s2) (buf (bitmap m g)) i)); try done].
  - intros j Hj'. unfold bits_range. rewrite bget_clr by lia. rewrite E1. destruct (j =? i) eqn:E; zb; repeat case_if; try done; try lia.
    by apply bget_on.
  - by replace (a + 1 - a) with 1 by lia.
  - intros x Hx. rewrite (bit_clr_other _ _ i dev_bsize) by (done || lia). rewrite E1. apply Hs1.
  - intros x Hx. unfold ld8. by rewrite Hs3.
Qed.

(** [ext4_balloc_try_alloc_block] takes the block when it is free. *)
Lemma run_try_alloc i a s : mem s = m -> 0 <= i < per_group m -> ext4_balloc_get_bgid_of_block m sb a = g ->
  ext4_fs_addr_to_idx_bg m sb a = i ->
  run (ext4_balloc_try_alloc_block ir a) s (fun '(r, free, ir') s' =>
    (device_error r /\ unchanged s s' /\ ir' = ir) \/
    (r = EOK /\ free = negb (used m g i) /\
     if used m g i then unchanged s s' /\ ir' = ir
     else ir' = dirty_inode ir /\ held s' = held s /\ last_inode_bg_id s' = last_inode_bg_id s /\
       group_change m (mem s') g (ir_inode ir) 0 0 (-1) (bits_with m g i true) /\
       dirty s' = {[ desc_block m g ]} ∪ ({[ bitmap m g ]} ∪ dirty s))).
Proof.
  intros Em Hi Ea Ei. pose proof (index_fits m i Hok Hi) as Hf. unfold ext4_balloc_try_alloc_block. step. step. rewrite Em, Ea, Ei. step.
  apply run_get_ref; rewrite ?Em; try done.
  { intros r ref s' Hr Hu. rewrite (proj2 (Z.eqb_neq r EOK) (proj1 Hr)). cbn [negb]. step. by left. }
  intros s1 Hop Hs1 Hd1 Hh1 Hl1. rewrite (Z.eqb_refl EOK). cbn [negb block_group the_ref]. step. step.
  destruct (same_free m g (mem s1) Hs1) as [_ ->]. step. apply run_get.
  { intros r s2 Hr E1 E2 E3 E4. rewrite (proj2 (Z.eqb_neq r EOK) (proj1 Hr)). cbn [negb].
    eapply run_give_up; [done|by rewrite E3|]. intros u. left. split; [done|]. split; [|done].
    split; [intros x; cbn; by rewrite E1, Em|]. split_and!; cbn; congruence. }
  intros s2 _ E1 E2 E3 E4. rewrite (Z.eqb_refl EOK). cbn [negb]. step. step. rewrite is_bit_clr_ok, E1 by lia.
  replace (bget (mem s1) (buf (bitmap m g)) i) with (used m g i) by (symmetry; by apply bget_on).
  destruct (used m g i) eqn:Eu; cbn [negb].
  - steps. apply (run_set _ (desc_block m g :: held s)); [done|congruence|]. rewrite (Z.eqb_refl EOK). cbn [negb]. step.
    apply (run_put_ref _ (held s)); [done|done|]. cbv zeta. intros u. cbn [bgr_dirty the_ref]. step. right. split; [done|]. split; [done|].
    split; [|done]. split; [intros x; cbn; by rewrite E1, Em|]. split_and!; cbn; congruence.
  - steps. apply run_dirty; [cbn; rewrite E3; left|]. step. apply (run_set _ (desc_block m g :: held s)); [done|cbn; congruence|].
    rewrite (Z.eqb_refl EOK). cbn [negb]. step. apply run_count. step.
    apply (run_put_ref _ (held s)); [done|done|]. cbv zeta. intros u. cbn [bgr_dirty dirty_ref bgr_index block_group bgr_block the_ref].
    step. right. split; [done|]. split; [done|]. split; [done|]. cbn [mem dirty held last_inode_bg_id set_mem set_held set_dirty set_unsaved].
    split; [done|]. split; [congruence|]. split; [|by rewrite E2, Hd1].
    eapply group_change_bits; [|eapply (finish_change m g ib (ir_inode ir) 0 0 (-1) (ext4_bmap_bit_set (mem s2) (buf (bitmap m g)) i)); try done].
    + intros j Hj'. unfold bits_with, used. rewrite bget_set by lia. rewrite E1. case_if; [done|]. by apply bget_on.
    + destruct Hino. by apply data_blocks_none.
    + intros x Hx. rewrite (bit_set_other _ _ i dev_bsize) by (done || lia). rewrite E1. apply Hs1.
Qed.
End release.
End run.
