(* ===== verification/Ext4BallocRefine.v ===== *)
(** lwext4, block allocation against sets of blocks: the bitmaps and counters
    represent the set of free blocks and the blocks of one inode, and every
    client of the allocator sees an allocator on sets. *)
From S2P Require Import Prelude Memory Ext4Errno Ext4Bitmap Ext4Crc Ext4Layout Ext4Super Ext4BlockGroup Ext4Inode.
From S2P Require Import Ext4Store Ext4Fs Ext4Groups Ext4Balloc Ext4BallocSpec Ext4BallocRun.
#[local] Open Scope Z_scope.
#[local] Open Scope cint_scope.
#[local] Opaque ext4_crc32c ext4_bg_crc16.

(** The blocks [a, a + n). *)
Definition block_range (a n : Z) : gset Z := list_to_set (seqZ a n).

Lemma elem_of_block_range x a n : x ∈ block_range a n <-> a <= x < a + n.
Proof. unfold block_range. rewrite elem_of_list_to_set, elem_of_seqZ. done. Qed.

Lemma size_block_range a n : 0 <= n -> Z.of_nat (size (block_range a n)) = n.
Proof. intros Hn. unfold block_range. rewrite size_list_to_set by apply NoDup_seqZ. rewrite length_seqZ. lia. Qed.

Lemma block_range_add a k n : 0 <= k -> 0 <= n -> block_range a (k + n) = block_range a k ∪ block_range (a + k) n.
Proof. intros Hk Hn. apply set_eq. intros x. rewrite elem_of_union, !elem_of_block_range. lia. Qed.

Lemma block_range_one a : block_range a 1 = {[ a ]}.
Proof. apply set_eq. intros x. rewrite elem_of_block_range, elem_of_singleton. lia. Qed.

Section refine.
Context `{Device}.
#[local] Notation sb := fs_sb.

(** ** Geometry *)

Definition block_at (m : memory) (a g i : Z) : Prop := 0 <= g < groups m /\ 0 <= i < in_group m g /\ a = addr m g i.

Lemma addr_inj m g i g' i' : fs_ok m -> 0 <= g < groups m -> 0 <= i < per_group m -> 0 <= g' < groups m ->
  0 <= i' < per_group m -> addr m g i = addr m g' i' -> g = g' /\ i = i'.
Proof.
  intros Hok Hg Hi Hg' Hi' E. destruct (index_ok m Hok g i Hg Hi) as [E1 E2]. destruct (index_ok m Hok g' i' Hg' Hi') as [E3 E4].
  rewrite E in E1, E2. split; congruence.
Qed.

Lemma block_at_bit m a g i : fs_ok m -> block_at m a g i -> 0 <= i < per_group m.
Proof. intros Hok (Hg & Hi & _). pose proof (in_group_range m Hok g Hg). lia. Qed.

Section geometry.
Context (m m' : memory) (Hds : desc_size m = 32 \/ desc_size m = 64) (Hk : keeps m m').
Let Hsb := proj1 Hk.

Lemma in_group_keeps g : in_group m' g = in_group m g.
Proof. apply (kept_in_group m m' Hsb). Qed.

Lemma addr_keeps g i : addr m' g i = addr m g i.
Proof. unfold addr. by rewrite (kept_per_group m m' Hsb), (kept_field m m' Hsb) by fld. Qed.

Lemma block_at_keeps a g i : block_at m' a g i <-> block_at m a g i.
Proof. unfold block_at. by rewrite (kept_groups m m' Hsb), in_group_keeps, addr_keeps. Qed.

Lemma data_blocks_keeps ib a n : data_blocks m' ib a n <-> data_blocks m ib a n.
Proof.
  unfold data_blocks. rewrite (kept_groups m m' Hsb).
  split; intros (H1 & H2 & H3 & H4); (split; [done|]; split; [done|]; split; [done|]); intros g Hg; specialize (H4 g Hg);
    rewrite ?(kept_desc_block m m' Hsb), ?(kept_bitmap m m' Hk Hds), ?(kept_ibitmap m m' Hk Hds) in * by done; done.
Qed.

Lemma inode_placed_keeps ib ino : inode_placed m ib ino -> inode_placed m' ib ino.
Proof.
  unfold inode_placed. rewrite (kept_groups m m' Hsb). intros (H1 & H2 & H3 & H4). split; [done|]. split; [done|]. split; [done|].
  intros g Hg. specialize (H4 g Hg). by rewrite (kept_desc_block m m' Hsb), (kept_bitmap m m' Hk Hds), (kept_ibitmap m m' Hk Hds).
Qed.
End geometry.

Lemma data_blocks_each m ib a n : 0 <= a -> 0 <= n -> (forall b, a <= b < a + n -> data_blocks m ib b 1) -> data_blocks m ib a n.
Proof.
  intros Ha Hn Hb. split; [done|]. split; [done|]. split.
  - intros Hi. destruct (Hb ib Hi) as (_ & _ & ? & _). lia.
  - intros g Hg. split_and!; intros Hi; destruct (Hb _ Hi) as (_ & _ & _ & Hd); specialize (Hd g Hg); lia.
Qed.

(** ** Counting *)

Definition nfree (m : memory) (g : Z) : Z := zsum (fun i => if used m g i then 0 else 1) (in_group m g).

Lemma zsum_term f n i : (forall j, 0 <= j < n -> 0 <= f j) -> 0 <= i < n -> f i <= zsum f n.
Proof.
  intros Hf Hi. pose proof (zsum_range i (i + 1) (f i) n ltac:(lia) ltac:(lia)) as E.
  destruct (zsum_bounds (fun j => if (i <=? j) && (j <? i + 1) then f i else 0) f n ltac:(lia)) as [_ ?]; [|replace (i + 1 - i) with 1 in E by lia; lia].
  intros j Hj. specialize (Hf j Hj). case_if; zb; [|lia]. replace j with i in * by lia. lia.
Qed.

Lemma zsum_le f c n : 0 <= n -> (forall i, 0 <= i < n -> 0 <= f i <= c) -> 0 <= zsum f n <= n * c.
Proof.
  intros Hn Hf. pose proof (zsum_range 0 n c n ltac:(lia) ltac:(lia)) as E. rewrite Z.sub_0_r in E. rewrite <- E.
  apply zsum_bounds; [done|]. intros i Hi. rewrite (proj2 (Z.leb_le 0 i)), (proj2 (Z.ltb_lt i _)) by lia. by apply Hf.
Qed.

Lemma nfree_range m g : 0 <= in_group m g -> 0 <= nfree m g <= in_group m g.
Proof.
  intros Hn. unfold nfree. pose proof (zsum_le (fun i => if used m g i then 0 else 1) 1 (in_group m g) Hn) as Hr.
  destruct Hr; [intros; case_if; lia|lia].
Qed.

Lemma nfree_zero m g i : nfree m g = 0 -> 0 <= i < in_group m g -> used m g i = true.
Proof.
  intros Hz Hi. pose proof (zsum_term (fun i => if used m g i then 0 else 1) (in_group m g) i) as Ht. unfold nfree in Hz.
  rewrite Hz in Ht. cbv beta in Ht. destruct (used m g i); [done|]. assert (1 <= 0); [|lia]. apply Ht; [intros; case_if; lia|done].
Qed.

Lemma zsum_nfree_range m : fs_ok m -> 0 <= zsum (nfree m) (groups m) < 2 ^ 32.
Proof.
  intros Hok. pose proof (groups_range m Hok) as Hn. pose proof (ok_per_group m Hok). pose proof (bsize_cases m Hok) as [_ Hb].
  assert (0 <= groups m - 1 < groups m) as Hl by lia. pose proof (group_base m Hok _ Hl).
  destruct (zsum_le (nfree m) (per_group m) (groups m)); [lia| |nia].
  intros g Hg. pose proof (in_group_range m Hok g Hg). pose proof (nfree_range m g). lia.
Qed.

(** ** Representation *)

Definition sectors : Z := dev_bsize / EXT4_INODE_BLOCK_SIZE.

Record repr (ib ino : Z) (m : memory) (F U : gset Z) : Prop := {
  r_ok : fs_ok m;
  r_inode : inode_placed m ib ino;
  r_padded : padded m;
  r_gfree g : 0 <= g < groups m -> gfree m g = nfree m g;
  r_sbfree : sbfree m = zsum (nfree m) (groups m);
  r_free a : a ∈ F <-> exists g i, block_at m a g i /\ used m g i = false;
  r_owned a : a ∈ U -> exists g i, block_at m a g i /\ used m g i = true;
  r_data a : a ∈ F \/ a ∈ U -> data_blocks m ib a 1;
  r_iblocks : iblocks m ino = Z.of_nat (size U) * sectors;
  r_small : Z.of_nat (size U) * sectors < 2 ^ 32;
}.

Lemma repr_disjoint ib ino m F U a : repr ib ino m F U -> a ∈ F -> a ∈ U -> False.
Proof.
  intros R HF HU. apply (r_free _ _ _ _ _ R) in HF as (g & i & B & E). apply (r_owned _ _ _ _ _ R) in HU as (g' & i' & B' & E').
  pose proof (r_ok _ _ _ _ _ R) as Hok. pose proof (block_at_bit m _ _ _ Hok B). pose proof (block_at_bit m _ _ _ Hok B').
  destruct B as (? & ? & Ea), B' as (? & ? & Ea'). destruct (addr_inj m g i g' i') as [-> ->]; try done; congruence.
Qed.

(** A bit outside the group is in use. *)
Lemma repr_free_bit ib ino m F U g i : repr ib ino m F U -> 0 <= g < groups m -> 0 <= i < per_group m ->
  addr m g i ∈ F <-> used m g i = false.
Proof.
  intros R Hg Hi. pose proof (r_ok _ _ _ _ _ R) as Hok. rewrite (r_free _ _ _ _ _ R). split.
  - intros (g' & i' & B & E). pose proof (block_at_bit m _ _ _ Hok B). destruct B as (? & ? & Ea).
    by destruct (addr_inj m g i g' i') as [-> ->].
  - intros E. exists g, i. split; [|done]. split; [done|]. split; [|done].
    destruct (decide (i < in_group m g)); [lia|]. rewrite (r_padded _ _ _ _ _ R) in E; [done|done|lia].
Qed.

(** The bits [lo, hi) of group [g], all of them [negb v], become [v]. *)
Section change.
Context (ib ino : Z) (m m' : memory) (F U : gset Z) (g lo hi jlo jhi : Z) (v : bool).
Hypothesis R : repr ib ino m F U.
Hypothesis (Hg : 0 <= g < groups m) (Hlo : 0 <= lo <= hi) (Hhi : hi <= in_group m g).
Hypothesis Hwas : forall i, lo <= i < hi -> used m g i = negb v.
#[local] Notation cnt := (if v then lo - hi else hi - lo).
Hypothesis Hgc : group_change m m' g ino jlo jhi cnt (bits_range m g lo hi v).
#[local] Notation R_ := (block_range (addr m g lo) (hi - lo)).

Lemma change_keeps : keeps m m'.
Proof. apply (gc_keeps _ _ _ _ _ _ _ _ Hgc). Qed.

Lemma change_used g' i : 0 <= g' < groups m -> 0 <= i < per_group m ->
  used m' g' i = if (g' =? g) && (lo <=? i) && (i <? hi) then v else used m g' i.
Proof.
  intros Hg' Hi. pose proof (ok_per_group m (r_ok _ _ _ _ _ R)). rewrite (gc_bits _ _ _ _ _ _ _ _ Hgc) by (done || lia).
  unfold bits_range. destruct (g' =? g) eqn:E; zb; [subst; done|done].
Qed.

Lemma change_nfree g' : 0 <= g' < groups m -> nfree m' g' = nfree m g' + if (g <=? g') && (g' <? g + 1) then cnt else 0.
Proof.
  intros Hg'. pose proof (r_ok _ _ _ _ _ R) as Hok. pose proof (in_group_range m Hok g' Hg') as Hig. unfold nfree.
  rewrite (in_group_keeps m m' change_keeps).
  rewrite (zsum_add (fun i => if used m g' i then 0 else 1) _
    (fun i => if (lo <=? i) && (i <? hi) then (if g' =? g then if v then -1 else 1 else 0) else 0)); [|lia|].
  - destruct (g' =? g) eqn:E; zb.
    + subst g'. rewrite zsum_range by lia. rewrite (proj2 (Z.leb_le g g)), (proj2 (Z.ltb_lt g (g + 1))) by lia. cbn [andb].
      destruct v; lia.
    + assert ((g <=? g') && (g' <? g + 1) = false) as -> by (apply andb_false_iff; lia).
      pose proof (zsum_le (fun i => if (lo <=? i) && (i <? hi) then 0 else 0) 0 (in_group m g')) as [? ?]; [lia|intros; case_if; lia|lia].
  - intros i Hi. rewrite change_used by lia. destruct (g' =? g) eqn:E; zb; cbn [andb]; [subst g'|repeat case_if; lia].
    destruct ((lo <=? i) && (i <? hi)) eqn:Ei; [|lia]. rewrite Hwas by (zb; lia). by destruct v.
Qed.

Lemma change_sum : zsum (nfree m') (groups m) = zsum (nfree m) (groups m) + cnt.
Proof.
  rewrite (zsum_add (nfree m) _ (fun g' => if (g <=? g') && (g' <? g + 1) then cnt else 0)); [|lia|apply change_nfree].
  rewrite zsum_range by lia. lia.
Qed.

Lemma change_gfree g' : 0 <= g' < groups m -> gfree m' g' = nfree m' g'.
Proof.
  intros Hg'. pose proof (r_ok _ _ _ _ _ R) as Hok. rewrite (gc_count _ _ _ _ _ _ _ _ Hgc), !(r_gfree _ _ _ _ _ R), change_nfree by done.
  destruct (g' =? g) eqn:E; zb.
  - subst g'. pose proof (change_nfree g Hg) as En. rewrite (proj2 (Z.leb_le g g)), (proj2 (Z.ltb_lt g (g + 1))) in * by lia.
    cbn [andb] in *. rewrite <- En. pose proof (in_group_range m Hok g Hg) as Hig.
    pose proof (nfree_range m' g) as Hr. rewrite (in_group_keeps m m' change_keeps) in Hr. specialize (Hr ltac:(lia)).
    pose proof (ok_per_group m Hok). pose proof (bsize_cases m Hok) as [_ Hb]. cbv zeta. rewrite (uw_small 32) by lia.
    unfold desc_is_wide. fold (desc_size m). unfold EXT4_MIN_BLOCK_GROUP_DESCRIPTOR_SIZE. case_if; [done|]. zb.
    pose proof (ok_narrow m Hok). destruct (ok_desc_size m Hok); [|lia]. rewrite uw_small by lia. done.
  - assert ((g <=? g') && (g' <? g + 1) = false) as -> by (apply andb_false_iff; lia). lia.
Qed.

Lemma change_sbfree : sbfree m' = zsum (nfree m') (groups m').
Proof.
  pose proof (r_ok _ _ _ _ _ R) as Hok. pose proof (keeps_ok m m' Hok change_keeps) as Hok'.
  pose proof (zsum_nfree_range m' Hok') as Hr. rewrite (kept_groups m m' (proj1 change_keeps)) in *.
  rewrite (gc_sb _ _ _ _ _ _ _ _ Hgc), (r_sbfree _ _ _ _ _ R), <- change_sum, uw_small by lia. done.
Qed.

Lemma change_padded : padded m'.
Proof.
  pose proof change_keeps as Hk. intros g' i. rewrite (kept_groups m m' (proj1 Hk)), (kept_per_group m m' (proj1 Hk)), (in_group_keeps m m' Hk).
  intros Hg' Hi. pose proof (in_group_range m (r_ok _ _ _ _ _ R) g' Hg').
  rewrite change_used by lia. destruct (g' =? g) eqn:E; zb; cbn [andb].
  - subst g'. rewrite (proj2 (Z.ltb_ge i hi)), andb_false_r by lia. by apply (r_padded _ _ _ _ _ R).
  - by apply (r_padded _ _ _ _ _ R).
Qed.

(** The blocks of the range. *)
Lemma change_block a g' i : block_at m a g' i -> a ∈ R_ <-> g' = g /\ lo <= i < hi.
Proof.
  intros B. pose proof (r_ok _ _ _ _ _ R) as Hok. pose proof (block_at_bit m _ _ _ Hok B) as Hi. destruct B as (Hg' & _ & ->).
  pose proof (in_group_range m Hok g Hg) as Hig. rewrite elem_of_block_range. split.
  - intros Ha. set (k := addr m g' i - addr m g lo + lo). destruct (addr_inj m g' i g k) as [-> E]; try done; try (unfold k; lia). unfold k, addr. lia.
  - intros [-> Hi']. unfold addr. lia.
Qed.

Lemma change_range_blocks a : a ∈ R_ -> exists i, lo <= i < hi /\ block_at m a g i.
Proof.
  rewrite elem_of_block_range. intros Ha. exists (a - addr m g lo + lo). split; [lia|].
  split; [done|]. split; [lia|]. unfold addr. lia.
Qed.

Lemma change_free (F' : gset Z) : (forall a, a ∈ F' <-> if v then a ∈ F /\ a ∉ R_ else a ∈ F \/ a ∈ R_) ->
  forall a, a ∈ F' <-> exists g' i, block_at m' a g' i /\ used m' g' i = false.
Proof.
  intros HF a. pose proof (r_ok _ _ _ _ _ R) as Hok. rewrite HF. setoid_rewrite (block_at_keeps m m' change_keeps).
  assert ((exists g' i, block_at m a g' i /\ used m' g' i = false) <->
    exists g' i, block_at m a g' i /\ (if decide (a ∈ R_) then v else used m g' i) = false) as ->.
  { do 2 (apply exist_proper; intros ?). split; intros [B E]; (split; [done|]);
      pose proof (block_at_bit m _ _ _ Hok B); pose proof (change_block a _ _ B) as C; pose proof B as (Hg' & _);
      rewrite change_used in * by done; destruct (decide (a ∈ R_)) as [Ha|Ha].
    - destruct (proj1 C Ha) as [-> Hi]. rewrite Z.eqb_refl, (proj2 (Z.leb_le _ _)), (proj2 (Z.ltb_lt _ _)) in E by lia. done.
    - destruct ((_ =? g) && _ && _) eqn:Eb in E; [|done]. zb. destruct Ha. apply C. lia.
    - destruct (proj1 C Ha) as [-> Hi]. rewrite Z.eqb_refl, (proj2 (Z.leb_le _ _)), (proj2 (Z.ltb_lt _ _)) by lia. done.
    - destruct ((_ =? g) && _ && _) eqn:Eb; [|done]. zb. destruct Ha. apply C. lia. }
  pose proof (r_free _ _ _ _ _ R a) as HFa. destruct (decide (a ∈ R_)) as [Ha|Ha].
  - destruct (change_range_blocks a Ha) as (i & Hi & B). destruct v; naive_solver.
  - destruct v; naive_solver.
Qed.

(** Everything but the blocks of the inode. *)
Lemma change_repr F' U' : (forall a, a ∈ F' <-> if v then a ∈ F /\ a ∉ R_ else a ∈ F \/ a ∈ R_) ->
  (forall a, a ∈ U' <-> if v then a ∈ U \/ a ∈ R_ else a ∈ U /\ a ∉ R_) ->
  (forall a, a ∈ R_ -> a ∈ F \/ a ∈ U) ->
  iblocks m' ino = Z.of_nat (size U') * sectors -> Z.of_nat (size U') * sectors < 2 ^ 32 -> repr ib ino m' F' U'.
Proof.
  intros HF HU Hsub Hib Hsm. pose proof change_keeps as Hk. pose proof (r_ok _ _ _ _ _ R) as Hok. pose proof (ok_desc_size m Hok) as Hds.
  constructor; try done.
  - by eapply keeps_ok.
  - eapply inode_placed_keeps; [done|done|apply (r_inode _ _ _ _ _ R)].
  - apply change_padded.
  - rewrite (kept_groups m m' (proj1 Hk)). apply change_gfree.
  - apply change_sbfree.
  - by apply change_free.
  - intros a Ha. apply HU in Ha. setoid_rewrite (block_at_keeps m m' Hk).
    assert (exists g' i, block_at m a g' i /\ if decide (a ∈ R_) then v = true else used m g' i = true) as (g' & i & B & E).
    { destruct (decide (a ∈ R_)) as [Hr|Hr].
      - destruct (change_range_blocks a Hr) as (i & _ & B). exists g, i. split; [done|]. destruct v; tauto.
      - apply (r_owned _ _ _ _ _ R). destruct v; tauto. }
    exists g', i. split; [done|]. pose proof (block_at_bit m _ _ _ Hok B). pose proof (change_block a g' i B) as C. destruct B as (Hg' & _).
    rewrite change_used by done. destruct (decide (a ∈ R_)) as [Hr|Hr].
    + destruct (proj1 C Hr) as [-> Hi]. rewrite Z.eqb_refl, (proj2 (Z.leb_le _ _)), (proj2 (Z.ltb_lt _ _)) by lia. done.
    + destruct (_ && _ && _) eqn:Eb; [|done]. zb. destruct Hr. apply C. lia.
  - intros a Ha. apply (data_blocks_keeps m m' Hds Hk). apply (r_data _ _ _ _ _ R). rewrite HF, HU in Ha.
    specialize (Hsub a). destruct v; tauto.
Qed.
End change.

Lemma sectors_range m : fs_ok m -> 2 <= sectors <= 128.
Proof.
  intros Hok. pose proof (bsize_cases m Hok) as [_ Hb]. unfold sectors, EXT4_INODE_BLOCK_SIZE.
  split; [apply Z.div_le_lower_bound|apply Z.div_le_upper_bound]; lia.
Qed.

Lemma group_change_range m m' g ino jlo jhi cnt i v :
  group_change m m' g ino jlo jhi cnt (bits_with m g i v) -> group_change m m' g ino jlo jhi cnt (bits_range m g i (i + 1) v).
Proof.
  apply group_change_bits. intros j _. unfold bits_with, bits_range. destruct (j =? i) eqn:E; zb; repeat case_if; zb; try done; lia.
Qed.

Lemma repr_take ib ino m m' F U g i : repr ib ino m F U -> 0 <= g < groups m -> 0 <= i < per_group m -> used m g i = false ->
  (Z.of_nat (size U) + 1) * sectors < 2 ^ 32 ->
  group_change m m' g ino 0 0 (-1) (bits_with m g i true) ->
  addr m g i ∈ F /\ repr ib ino m' (F ∖ {[ addr m g i ]}) ({[ addr m g i ]} ∪ U).
Proof.
  intros R Hg Hi Hu Hsm Hgc. pose proof (r_ok _ _ _ _ _ R) as Hok. assert (addr m g i ∈ F) as Ha by (by eapply repr_free_bit). split; [done|].
  assert (i < in_group m g). { destruct (decide (i < in_group m g)); [done|]. rewrite (r_padded _ _ _ _ _ R) in Hu; [done|done|lia]. }
  assert (size ({[ addr m g i ]} ∪ U) = S (size U)) as Es.
  { rewrite size_union, size_singleton; [done|]. intros x Hx Hx'. apply elem_of_singleton in Hx as ->. by eapply repr_disjoint. }
  pose proof (group_change_range _ _ _ _ _ _ _ _ _ Hgc) as Hgc'. pose proof (sectors_range m Hok).
  eapply (change_repr ib ino m m' F U g i (i + 1) 0 0 true); try done; try lia; replace (i + 1 - i) with 1 by lia; rewrite ?block_range_one.
  - intros j Hj. by replace j with i by lia.
  - by replace (i - (i + 1)) with (-1) by lia.
  - set_solver.
  - set_solver.
  - set_solver.
  - pose proof (gc_inode _ _ _ _ _ _ _ _ Hgc) as Hib. cbn [Z.ltb Z.compare] in Hib. fold sectors in Hib.
    rewrite (r_iblocks _ _ _ _ _ R) in Hib. rewrite Es, Hib; rewrite uw_small; lia.
Qed.

Lemma repr_release ib ino m m' F U g lo n jlo jhi : repr ib ino m F U -> 0 <= g < groups m -> 0 <= lo -> 1 <= n -> lo + n <= per_group m ->
  block_range (addr m g lo) n ⊆ U -> group_change m m' g ino jlo jhi n (bits_range m g lo (lo + n) false) ->
  repr ib ino m' (F ∪ block_range (addr m g lo) n) (U ∖ block_range (addr m g lo) n).
Proof.
  intros R Hg Hlo Hn Hper Hsub Hgc. pose proof (r_ok _ _ _ _ _ R) as Hok. pose proof (sectors_range m Hok).
  assert (forall i, lo <= i < lo + n -> used m g i = true /\ i < in_group m g) as Hin.
  { intros i Hi. destruct (r_owned _ _ _ _ _ R (addr m g i)) as (g' & i' & B & E).
    { apply Hsub, elem_of_block_range. unfold addr. lia. }
    pose proof (block_at_bit m _ _ _ Hok B). destruct B as (? & ? & Ea).
    destruct (addr_inj m g i g' i') as [-> ->]; try done; try lia. split; [done|lia]. }
  pose proof (Hin (lo + n - 1) ltac:(lia)) as [_ ?].
  assert (Z.of_nat (size (U ∖ block_range (addr m g lo) n)) = Z.of_nat (size U) - n) as Es.
  { rewrite size_difference by done. pose proof (subseteq_size _ _ Hsub). pose proof (size_block_range (addr m g lo) n). lia. }
  pose proof (r_small _ _ _ _ _ R). pose proof (bsize_cases m Hok) as [_ Hb]. pose proof (ok_per_group m Hok).
  eapply (change_repr ib ino m m' F U g lo (lo + n) jlo jhi false); try done; try lia; replace (lo + n - lo) with n by lia.
  - intros i Hi. by apply Hin.
  - done.
  - set_solver.
  - set_solver.
  - set_solver.
  - pose proof (gc_inode _ _ _ _ _ _ _ _ Hgc) as Hib. cbv zeta in Hib. fold sectors in Hib. rewrite (proj2 (Z.ltb_ge n 0)) in Hib by lia.
    rewrite (r_iblocks _ _ _ _ _ R), (uw_small 32) in Hib by nia. rewrite Es, Hib; rewrite uw_small; nia.
Qed.


(** What the representation depends on. *)
Lemma repr_on ib ino m m' F U : repr ib ino m F U -> keeps m m' ->
  (forall g i, 0 <= g < groups m -> 0 <= i < per_group m -> used m' g i = used m g i) ->
  (forall g, 0 <= g < groups m -> gfree m' g = gfree m g) -> sbfree m' = sbfree m -> iblocks m' ino = iblocks m ino -> repr ib ino m' F U.
Proof.
  intros R Hk Hused Hgfree Hsbfree Hib. pose proof (proj1 Hk) as Hsb. pose proof (r_ok _ _ _ _ _ R) as Hok. pose proof (ok_desc_size m Hok) as Hds.
  assert (forall b g i, block_at m b g i -> used m' g i = used m g i) as Hu.
  { intros b g i B. pose proof (block_at_bit m _ _ _ Hok B). apply Hused; [apply B|done]. }
  assert (forall g, 0 <= g < groups m -> nfree m' g = nfree m g) as Hn.
  { intros g Hg. pose proof (in_group_range m Hok g Hg). unfold nfree. rewrite (in_group_keeps m m' Hk).
    apply zsum_ext. intros i Hi. by rewrite Hused by lia. }
  constructor.
  - by eapply keeps_ok.
  - eapply inode_placed_keeps; [done|done|apply (r_inode _ _ _ _ _ R)].
  - intros g i. rewrite (kept_groups m m' Hsb), (kept_per_group m m' Hsb), (in_group_keeps m m' Hk). intros Hg Hi.
    pose proof (in_group_range m Hok g Hg). rewrite Hused by (done || lia). by apply (r_padded _ _ _ _ _ R).
  - intros g. rewrite (kept_groups m m' Hsb). intros Hg. rewrite Hgfree, Hn by done. by apply (r_gfree _ _ _ _ _ R).
  - rewrite (kept_groups m m' Hsb), Hsbfree, (r_sbfree _ _ _ _ _ R). symmetry. by apply zsum_ext.
  - intros b. rewrite (r_free _ _ _ _ _ R). setoid_rewrite (block_at_keeps m m' Hk).
    split; intros (g & i & B & E); exists g, i; (split; [done|]); by rewrite (Hu b) in *.
  - intros b Hb. apply (r_owned _ _ _ _ _ R) in Hb as (g & i & B & E). exists g, i. rewrite (block_at_keeps m m' Hk). split; [done|].
    by rewrite (Hu b).
  - intros b Hb. apply (data_blocks_keeps m m' Hds Hk). by apply (r_data _ _ _ _ _ R).
  - rewrite Hib. apply (r_iblocks _ _ _ _ _ R).
  - apply (r_small _ _ _ _ _ R).
Qed.

(** The contents of data blocks do not matter. *)
Section contents.
Context (ib ino a n : Z) (m m' : memory) (F U : gset Z).
Hypothesis (R : repr ib ino m F U) (Hd : data_blocks m ib a n).
Hypothesis Hon : forall x, x < buf a \/ buf (a + n) <= x -> ld8 m' x = ld8 m x.

Lemma contents_frame : frame m 0 ino a (a + n) m'.
Proof. intros x Hx. apply Hon. unfold touched in Hx. lia. Qed.

Lemma contents_keeps : keeps m m'.
Proof.
  pose proof (r_ok _ _ _ _ _ R) as Hok. pose proof (groups_range m Hok). apply (frame_keeps m 0 ib ino a (a + n)); try done; try lia.
  - apply (r_inode _ _ _ _ _ R).
  - by replace (a + n - a) with n by lia.
  - apply contents_frame.
Qed.

Lemma contents_block b x : ~ (a <= b < a + n) -> buf b <= x < buf b + dev_bsize -> ld8 m' x = ld8 m x.
Proof.
  intros Hb Hx. apply Hon. pose proof (bsize_cases m (r_ok _ _ _ _ _ R)) as [_ ?]. destruct Hd as (? & ? & _).
  unfold buf in *. assert (b < a \/ a + n <= b) by lia. nia.
Qed.

Lemma contents_sb x : sb <= x < sb + 1024 -> ld8 m' x = ld8 m x.
Proof.
  intros Hx. apply Hon. pose proof (r_ok _ _ _ _ _ R) as Hok. pose proof (bsize_cases m Hok) as [_ Hb]. assert (0 < dev_bsize) as Hpos by lia.
  destruct Hd as (Ha & _). pose proof (buf_above a Hpos Ha). pose proof (ok_below m Hok). lia.
Qed.

Lemma contents_used g i : 0 <= g < groups m -> 0 <= i < per_group m -> used m' g i = used m g i.
Proof.
  intros Hg Hi. pose proof (r_ok _ _ _ _ _ R) as Hok. pose proof (ok_per_group m Hok). unfold used.
  rewrite (kept_bitmap m m' contents_keeps (ok_desc_size m Hok)) by done. apply bget_on, (contents_block (bitmap m g)).
  - destruct Hd as (_ & _ & _ & D). by destruct (D g Hg) as (_ & ? & _).
  - assert (0 <= i < 8 * dev_bsize) as Hi' by lia. pose proof (byte_in i dev_bsize Hi'). lia.
Qed.

Lemma contents_gfree g : 0 <= g < groups m -> gfree m' g = gfree m g.
Proof.
  intros Hg. pose proof (r_ok _ _ _ _ _ R) as Hok. unfold gfree. rewrite (kept_desc m m' (proj1 contents_keeps)).
  pose proof (desc_inside m Hok g Hg) as [D1 D2]. pose proof (ok_desc_size m Hok).
  apply (free_blocks_on m m'); [done|apply (kept_desc_size m m' (proj1 contents_keeps))|].
  intros x Hx. apply (contents_block (desc_block m g)); [|lia]. destruct Hd as (_ & _ & _ & D). by destruct (D g Hg).
Qed.

Lemma contents_iblocks : iblocks m' ino = iblocks m ino.
Proof.
  destruct (r_inode _ _ _ _ _ R) as (_ & I1 & I2 & _). destruct Hd as (_ & _ & D & _).
  assert (forall f, 0 <= f_off f -> 0 <= f_len f -> f_off f + f_len f <= 128 -> fget f m' ino = fget f m ino) as Hf.
  { intros f F1 F2 F3. apply fget_on; [done|]. intros x Hx. apply (contents_block ib); [done|lia]. }
  unfold iblocks, ext4_inode_get_blocks_count, ext4_inode_has_flag, ext4_inode_get_flags.
  rewrite (kept_ro_com m m' (proj1 contents_keeps)), (kept_block_size m m' (proj1 contents_keeps)). by rewrite !Hf by fld.
Qed.

Lemma repr_contents : repr ib ino m' F U.
Proof.
  apply (repr_on ib ino m); [done|apply contents_keeps|apply contents_used|apply contents_gfree| |apply contents_iblocks].
  unfold sbfree, ext4_sb_get_free_blocks_cnt. by rewrite !(fget_on _ m m') by (done || (intros x Hx; cbn in Hx; apply contents_sb; lia)).
Qed.
End contents.

Lemma repr_same ib ino m m' F U : repr ib ino m F U -> same m m' -> repr ib ino m' F U.
Proof.
  intros R Hs. destruct (r_inode _ _ _ _ _ R) as (? & _). apply (repr_contents ib ino 0 0 m m'); [done| |by intros x _].
  apply (data_blocks_none m ib); lia.
Qed.

End refine.
