(* ===== verification/Ext4Ialloc.v ===== *)
(** lwext4, inode allocation: [src/ext4_ialloc.c] without the journal. *)
From S2P Require Import Prelude Memory Ext4Errno Ext4Bitmap Ext4Layout Ext4Super Ext4BlockGroup Ext4Store Ext4Fs.
#[local] Open Scope Z_scope.
#[local] Open Scope cint_scope.

Definition ext4_ialloc_inode_to_bgidx (m : memory) (sb inode : Z) : Z :=
  u32 (inode - 1) mod fget sb_inodes_per_group m sb.

Definition ext4_ialloc_bgidx_to_inode (m : memory) (sb index bgid : Z) : Z :=
  u32 (u32 (bgid * fget sb_inodes_per_group m sb) + u32 (index + 1)).

Definition ext4_ialloc_get_bgid_of_inode (m : memory) (sb inode : Z) : Z :=
  u32 (inode - 1) / fget sb_inodes_per_group m sb.

Section ialloc.
Context `{Device}.
#[local] Notation sb := fs_sb.

(** Returns without releasing the group when the bitmap cannot be read. *)
Definition ext4_ialloc_free_inode (index : Z) (is_dir : bool) : M Z :=
  m ← look;
  let bgid := ext4_ialloc_get_bgid_of_inode m sb index in
  '(rc, bg_ref) ← ext4_fs_get_block_group_ref bgid;
  if negb (rc =? EOK) then mret rc
  else
    m ← look;
    let bg := block_group bg_ref in
    let bitmap_block_addr := ext4_bg_get_inode_bitmap m bg sb in
    rc ← ext4_trans_block_get bitmap_block_addr;
    if negb (rc =? EOK) then mret rc
    else
      let index_in_group := ext4_ialloc_inode_to_bgidx m sb index in
      update (fun m => ext4_bmap_bit_clr m (buf bitmap_block_addr) index_in_group);;
      update (fun m => ext4_ialloc_set_bitmap_csum m sb bg (buf bitmap_block_addr));;
      ext4_trans_set_block_dirty bitmap_block_addr;;
      rc ← ext4_block_set bitmap_block_addr;
      if negb (rc =? EOK) then ext4_fs_put_block_group_ref bg_ref;; mret rc
      else
        (if is_dir then
           update (fun m => ext4_bg_set_used_dirs_count m bg sb (u32 (ext4_bg_get_used_dirs_count m bg sb - 1)))
         else mret tt);;
        update (fun m => ext4_bg_set_free_inodes_count m bg sb (u32 (ext4_bg_get_free_inodes_count m bg sb + 1)));;
        rc ← ext4_fs_put_block_group_ref (dirty_ref bg_ref);
        if negb (rc =? EOK) then mret rc
        else
          update (fun m => fset sb_free_inodes_count m sb (u32 (fget sb_free_inodes_count m sb + 1)));;
          mret EOK.

(** The counters of the group after bit [idx_in_bg] was taken. *)
Definition count_inode (bg : Z) (is_dir : bool) (free_inodes used_dirs inodes_in_bg idx_in_bg : Z) : M unit :=
  update (fun m => ext4_bg_set_free_inodes_count m bg sb (u32 (free_inodes - 1)));;
  (if is_dir then update (fun m => ext4_bg_set_used_dirs_count m bg sb (u32 (used_dirs + 1))) else mret tt);;
  m ← look;
  let unused := ext4_bg_get_itable_unused m bg sb in
  let free := u32 (inodes_in_bg - unused) in
  if free <=? idx_in_bg then
    update (fun m => ext4_bg_set_itable_unused m bg sb (u32 (inodes_in_bg - u32 (idx_in_bg + 1))))
  else mret tt.

(** [while (bgid <= bg_count)].  A group that counts free inodes but has none is
    tried again: [continue] without the next group. *)
Fixpoint alloc_inode_loop (fuel : nat) (idx : Z) (is_dir : bool) (sb_free_inodes bgid bg_count : Z) (rewind : bool) : M (Z * Z) :=
  match fuel with
  | O => stuck
  | S fuel =>
      if bgid <=? bg_count then
        if bgid =? bg_count then
          if rewind then mret (ENOSPC, idx)
          else
            last ← last_bg;
            alloc_inode_loop fuel idx is_dir sb_free_inodes 0 last true
        else
          '(rc, bg_ref) ← ext4_fs_get_block_group_ref bgid;
          if negb (rc =? EOK) then mret (rc, idx)
          else
            m ← look;
            let bg := block_group bg_ref in
            let free_inodes := ext4_bg_get_free_inodes_count m bg sb in
            let used_dirs := ext4_bg_get_used_dirs_count m bg sb in
            if 0 <? free_inodes then
              let bmp_blk_add := ext4_bg_get_inode_bitmap m bg sb in
              rc ← ext4_trans_block_get bmp_blk_add;
              if negb (rc =? EOK) then ext4_fs_put_block_group_ref bg_ref;; mret (rc, idx)
              else
                m ← look;
                let inodes_in_bg := ext4_inodes_in_group_cnt m sb bgid in
                '(rc, idx_in_bg) ← lift (ext4_bmap_bit_find_clr m (buf bmp_blk_add) 0 inodes_in_bg 0);
                if rc =? ENOSPC then
                  rc ← ext4_block_set bmp_blk_add;
                  if negb (rc =? EOK) then ext4_fs_put_block_group_ref bg_ref;; mret (rc, idx)
                  else
                    rc ← ext4_fs_put_block_group_ref bg_ref;
                    if negb (rc =? EOK) then mret (rc, idx)
                    else alloc_inode_loop fuel idx is_dir sb_free_inodes bgid bg_count rewind
                else
                  update (fun m => ext4_bmap_bit_set m (buf bmp_blk_add) idx_in_bg);;
                  update (fun m => ext4_ialloc_set_bitmap_csum m sb bg (buf bmp_blk_add));;
                  ext4_trans_set_block_dirty bmp_blk_add;;
                  ext4_block_set bmp_blk_add;;
                  if negb (rc =? EOK) then ext4_fs_put_block_group_ref bg_ref;; mret (rc, idx)
                  else
                    count_inode bg is_dir free_inodes used_dirs inodes_in_bg idx_in_bg;;
                    rc ← ext4_fs_put_block_group_ref (dirty_ref bg_ref);
                    if negb (rc =? EOK) then mret (rc, idx)
                    else
                      update (fun m => fset sb_free_inodes_count m sb (u32 (sb_free_inodes - 1)));;
                      m ← look;
                      put_last_bg bgid;;
                      mret (EOK, ext4_ialloc_bgidx_to_inode m sb idx_in_bg bgid)
            else
              ext4_fs_put_block_group_ref bg_ref;;
              if negb (rc =? EOK) then mret (rc, idx)
              else alloc_inode_loop fuel idx is_dir sb_free_inodes (u32 (bgid + 1)) bg_count rewind
      else mret (ENOSPC, idx)
  end.

(** [idx] is the value of [*idx] before. *)
Definition ext4_ialloc_alloc_inode (fuel : nat) (idx : Z) (is_dir : bool) : M (Z * Z) :=
  bgid ← last_bg;
  m ← look;
  alloc_inode_loop fuel idx is_dir (fget sb_free_inodes_count m sb) bgid (ext4_block_group_cnt m sb) false.
End ialloc.
