(* ===== verification/Ext4FsInode.v ===== *)
(** lwext4, inodes and their data blocks: the part of [src/ext4_fs.c] from
    [__ext4_fs_get_inode_ref] on.

    A file's blocks are found through its extents ([Ext4ExtentOps]) or through
    its block map: twelve direct blocks and three trees of indirect blocks. *)
From S2P Require Import Prelude Memory Ext4Errno Ext4Layout Ext4Super Ext4BlockGroup Ext4Inode Ext4Store Ext4Fs.
From S2P Require Import Ext4Balloc Ext4Ialloc Ext4File Ext4Extent Ext4ExtentOps.
#[local] Open Scope Z_scope.
#[local] Open Scope cint_scope.

(** ** Model *)

Definition EXT4_INODE_DIRECT_BLOCK_COUNT : Z := 12.
Definition EXT4_FINCOM_EXTENTS : Z := 0x0040.
Definition EXT4_INODE_FLAG_EXTENTS : Z := 0x00080000.

(** [inode_block_limits] and [inode_blocks_per_level], which [ext4_fs_init]
    computes from the block size: the loop over [i] from 1 on. *)
Fixpoint limits_loop (n : nat) (blocks_id limit per_level : Z) : list (Z * Z) :=
  match n with
  | O => []
  | S n =>
      let per_level := u64 (per_level * blocks_id) in
      let limit := u64 (limit + per_level) in
      (limit, per_level) :: limits_loop n blocks_id limit per_level
  end.

Definition init_limits (bsize : Z) : list (Z * Z) :=
  (EXT4_INODE_DIRECT_BLOCK_COUNT, 1) :: limits_loop 3 (bsize / 4) EXT4_INODE_DIRECT_BLOCK_COUNT 1.

Definition inode_block_limits (bsize : Z) (i : nat) : Z := (nth i (init_limits bsize) (0, 0)).1.
Definition inode_blocks_per_level (bsize : Z) (i : nat) : Z := (nth i (init_limits bsize) (0, 0)).2.

(** The indirection level of a block; 0 if there is none. *)
Definition find_level (bsize iblock : Z) : nat :=
  if iblock <? inode_block_limits bsize 1 then 1
  else if iblock <? inode_block_limits bsize 2 then 2
  else if iblock <? inode_block_limits bsize 3 then 3
  else 0%nat.

(** [((uint32_t * )block.data)[i]] *)
Definition get_entry (m : memory) (data i : Z) : Z := ld32 m (data + 4 * i).
Definition put_entry (m : memory) (data i v : Z) : memory := st32 m (data + 4 * i) v.

Section inodes.
Context `{Device}.
#[local] Notation sb := fs_sb.

Definition get_inode_ref (index : Z) (ref : ext4_inode_ref) (initialized : bool) : M (Z * ext4_inode_ref) :=
  m ← look;
  let inodes_per_group := fget sb_inodes_per_group m sb in
  let index := u32 (index - 1) in
  let block_group := index / inodes_per_group in
  let offset_in_group := index mod inodes_per_group in
  '(rc, bg_ref) ← ext4_fs_get_block_group_ref block_group;
  if negb (rc =? EOK) then mret (rc, ref)
  else
    m ← look;
    let inode_table_start := ext4_bg_get_inode_table_first_block m (Ext4Fs.block_group bg_ref) sb in
    rc ← ext4_fs_put_block_group_ref bg_ref;
    if negb (rc =? EOK) then mret (rc, ref)
    else
      m ← look;
      let inode_size := fget sb_inode_size m sb in
      let block_size := ext4_sb_get_block_size m sb in
      let byte_offset_in_group := u32 (offset_in_group * inode_size) in
      let block_id := u64 (inode_table_start + byte_offset_in_group / block_size) in
      rc ← ext4_trans_block_get block_id;
      if negb (rc =? EOK) then mret (rc, ref)
      else
        let offset_in_block := byte_offset_in_group mod block_size in
        let ref := InodeRef block_id (buf block_id + offset_in_block) (u32 (index + 1)) false in
        (if initialized then update (fun m => (ext4_fs_verify_inode_csum m sb (ir_index ref) (ir_inode ref)).1)
         else mret tt);;
        mret (EOK, ref).

Definition ext4_fs_get_inode_ref (index : Z) (ref : ext4_inode_ref) : M (Z * ext4_inode_ref) := get_inode_ref index ref true.

Definition ext4_fs_put_inode_ref (ref : ext4_inode_ref) : M Z :=
  (if ir_dirty ref then
     update (fun m => ext4_fs_set_inode_checksum m sb (ir_index ref) (ir_inode ref));;
     ext4_trans_set_block_dirty (ir_block ref)
   else mret tt);;
  ext4_block_set (ir_block ref).

Definition uses_extents (m : memory) (ino : Z) : bool :=
  ext4_sb_feature_incom m sb EXT4_FINCOM_EXTENTS && ext4_inode_has_flag m ino EXT4_INODE_FLAG_EXTENTS.

Definition ext4_fs_inode_blocks_init : F unit :=
  r ← inode_ref;
  m ← see;
  let type := ext4_inode_type m sb (ir_inode r) in
  if (type =? EXT4_INODE_MODE_FILE) || (type =? EXT4_INODE_MODE_DIRECTORY) then
    (if ext4_sb_feature_incom m sb EXT4_FINCOM_EXTENTS then
       write (fun m => ext4_inode_set_flag m (ir_inode r) EXT4_INODE_FLAG_EXTENTS);;
       ext4_extent_tree_init
     else mret tt);;
    touch
  else mret tt.

(** The fields of a new inode at [inode]. *)
Definition init_inode (m : memory) (inode : Z) (t : filetype) : memory :=
  let inode_size := fget sb_inode_size m sb in
  let m := memset m inode 0 inode_size in
  let mode :=
    match t with
    | EXT4_DE_DIR => 0x1FF .| EXT4_INODE_MODE_DIRECTORY
    | EXT4_DE_SYMLINK => 0x1FF .| EXT4_INODE_MODE_SOFTLINK
    | _ => 0x1B6 .| ext4_fs_correspond_inode_mode t
    end in
  let m := ext4_inode_set_mode m sb inode mode in
  let m := ext4_inode_set_links_cnt m inode 0 in
  let m := ext4_inode_set_uid m inode 0 in
  let m := ext4_inode_set_gid m inode 0 in
  let m := ext4_inode_set_size m inode 0 in
  let m := ext4_inode_set_access_time m inode 0 in
  let m := ext4_inode_set_change_inode_time m inode 0 in
  let m := ext4_inode_set_modif_time m inode 0 in
  let m := ext4_inode_set_del_time m inode 0 in
  let m := (ext4_inode_set_blocks_count m sb inode 0).1 in
  let m := ext4_inode_set_flags m inode 0 in
  let m := ext4_inode_set_generation m inode 0 in
  let m :=
    if EXT4_GOOD_OLD_INODE_SIZE <? inode_size
    then ext4_inode_set_extra_isize m sb inode (fget sb_want_extra_isize m sb) else m in
  memset m (inode + f_off ino_blocks) 0 (f_len ino_blocks).

(** [fuel] counts the groups tried; [index] is the value of the local variable
    before. *)
Definition ext4_fs_alloc_inode (fuel : nat) (index : Z) (ref : ext4_inode_ref) (t : filetype) : M (Z * ext4_inode_ref) :=
  let is_dir := match t with EXT4_DE_DIR => true | _ => false end in
  '(rc, index) ← ext4_ialloc_alloc_inode fuel index is_dir;
  if negb (rc =? EOK) then mret (rc, ref)
  else
    '(rc, ref) ← get_inode_ref index ref false;
    if negb (rc =? EOK) then ext4_ialloc_free_inode index is_dir;; mret (rc, ref)
    else
      update (fun m => init_inode m (ir_inode ref) t);;
      mret (EOK, dirty_inode ref).

Definition free_block (baddr : Z) : F Z := fun r => ext4_balloc_free_block r baddr.

(** Frees the blocks that the [n] entries from [offset] on of block [b] name. *)
Fixpoint free_entries (n : nat) (b offset : Z) : F Z :=
  match n with
  | O => mret EOK
  | S n =>
      m ← see;
      let ind_block := get_entry m (buf b) offset in
      if ind_block =? 0 then free_entries n b (offset + 1)
      else
        rc ← free_block ind_block;
        if negb (rc =? EOK) then mret rc else free_entries n b (offset + 1)
  end.

(** The same for a block whose entries name blocks of entries. *)
Fixpoint free_subentries (n : nat) (count : nat) (b offset : Z) : F Z :=
  match n with
  | O => mret EOK
  | S n =>
      m ← see;
      let ind_block := get_entry m (buf b) offset in
      if ind_block =? 0 then free_subentries n count b (offset + 1)
      else
        rc ← up (ext4_trans_block_get ind_block);
        if negb (rc =? EOK) then mret rc
        else
          rc ← free_entries count ind_block 0;
          up (ext4_block_set ind_block);;
          if negb (rc =? EOK) then mret rc
          else
            rc ← free_block ind_block;
            if negb (rc =? EOK) then mret rc else free_subentries n count b (offset + 1)
  end.

(** One of the inode's indirect blocks, with what is below it. *)
Definition free_indirect (idx : Z) (below : Z -> F Z) : F Z :=
  r ← inode_ref;
  m ← see;
  let fblock := ext4_inode_get_indirect_block m (ir_inode r) idx in
  if fblock =? 0 then mret EOK
  else
    rc ← below fblock;
    if negb (rc =? EOK) then mret rc
    else
      rc ← free_block fblock;
      if negb (rc =? EOK) then mret rc
      else
        write (fun m => ext4_inode_set_indirect_block m (ir_inode r) idx 0);;
        mret EOK.

(** The entries of block [fblock], held meanwhile. *)
Definition with_block (fblock : Z) (c : F Z) : F Z :=
  rc ← up (ext4_trans_block_get fblock);
  if negb (rc =? EOK) then mret rc
  else
    rc ← c;
    up (ext4_block_set fblock);;
    mret rc.

Definition ext4_fs_free_inode : F Z :=
  r ← inode_ref;
  m ← see;
  rc ←
    (if uses_extents m (ir_inode r) then mret EOK
     else
       let count := Z.to_nat (ext4_sb_get_block_size m sb / 4) in
       rc ← free_indirect 0 (fun _ => mret EOK);
       if negb (rc =? EOK) then mret rc
       else
         rc ← free_indirect 1 (fun b => with_block b (free_entries count b 0));
         if negb (rc =? EOK) then mret rc
         else free_indirect 2 (fun b => with_block b (free_subentries count count b 0)));
  if negb (rc =? EOK) then mret rc
  else
    touch;;
    m ← see;
    let xattr_block := ext4_inode_get_file_acl m (ir_inode r) sb in
    rc ←
      (if c_true xattr_block then
         rc ← free_block xattr_block;
         if negb (rc =? EOK) then mret rc
         else
           write (fun m => ext4_inode_set_file_acl m (ir_inode r) sb 0);;
           mret EOK
       else mret EOK);
    if negb (rc =? EOK) then mret rc
    else
      m ← see;
      up (ext4_ialloc_free_inode (ir_index r) (ext4_inode_is_type m sb (ir_inode r) EXT4_INODE_MODE_DIRECTORY)).

(** [while (level > 0)]; the block number found, 0 for a hole. *)
Fixpoint release_walk (level : nat) (current_block block_offset_in_level offset_in_block : Z) : F (Z * Z) :=
  match level with
  | O => mret (EOK, current_block)
  | S level' =>
      if current_block =? 0 then mret (EOK, 0)
      else
        rc ← up (ext4_trans_block_get current_block);
        if negb (rc =? EOK) then mret (rc, 0)
        else
          m ← see;
          let next := get_entry m (buf current_block) offset_in_block in
          (match level' with
           | O =>
               write (fun m => put_entry m (buf current_block) offset_in_block 0);;
               up (ext4_trans_set_block_dirty current_block)
           | S _ => mret tt
           end);;
          rc ← up (ext4_block_set current_block);
          if negb (rc =? EOK) then mret (rc, 0)
          else
            match level' with
            | O => mret (EOK, next)
            | S level'' =>
                let bsize := ext4_sb_get_block_size m sb in
                let off := block_offset_in_level mod inode_blocks_per_level bsize level' in
                release_walk level' next off (u32 (off / inode_blocks_per_level bsize level''))
            end
  end.

Definition ext4_fs_release_inode_block (iblock : Z) : F Z :=
  r ← inode_ref;
  m ← see;
  let inode := ir_inode r in
  if uses_extents m inode then crash
  else if iblock <? EXT4_INODE_DIRECT_BLOCK_COUNT then
    let fblock := ext4_inode_get_direct_block m inode iblock in
    if fblock =? 0 then mret EOK
    else
      write (fun m => ext4_inode_set_direct_block m inode iblock 0);;
      free_block fblock
  else
    let bsize := ext4_sb_get_block_size m sb in
    match find_level bsize iblock with
    | O => mret EIO
    | S l =>
        let off := u32 (iblock - inode_block_limits bsize l) in
        let current_block := ext4_inode_get_indirect_block m inode (Z.of_nat l) in
        '(rc, fblock) ← release_walk (S l) current_block off (u32 (off / inode_blocks_per_level bsize l));
        if negb (rc =? EOK) then mret rc
        else if fblock =? 0 then mret EOK
        else free_block fblock
    end.

(** [for (i = 0; i < diff_blocks_cnt; ++i)] *)
Fixpoint release_loop (n : nat) (iblock : Z) : F Z :=
  match n with
  | O => mret EOK
  | S n =>
      r ← ext4_fs_release_inode_block (u32 iblock);
      if negb (r =? EOK) then mret r else release_loop n (iblock + 1)
  end.

(** [fuel] counts the steps over the extent tree. *)
Definition ext4_fs_truncate_inode (fuel : nat) (new_size : Z) : F Z :=
  r ← inode_ref;
  m ← see;
  let inode := ir_inode r in
  if negb (ext4_inode_can_truncate m sb inode) then mret EINVAL
  else
    let old_size := ext4_inode_get_size m sb inode in
    if old_size =? new_size then mret EOK
    else if old_size <? new_size then mret EINVAL
    else if ext4_inode_is_type m sb inode EXT4_INODE_MODE_SOFTLINK && (old_size <? f_len ino_blocks) &&
            negb (c_true (ext4_inode_get_blocks_count m sb inode)) then
      write (fun m => memset m (inode + f_off ino_blocks + new_size) 0 (f_len ino_blocks - u32 new_size));;
      write (fun m => ext4_inode_set_size m inode new_size);;
      touch;;
      mret EOK
    else
      let i := ext4_inode_type m sb inode in
      if (i =? EXT4_INODE_MODE_CHARDEV) || (i =? EXT4_INODE_MODE_BLOCKDEV) || (i =? EXT4_INODE_MODE_SOCKET) then
        write (fun m => fset (ino_block 0) m inode 0);;
        write (fun m => fset (ino_block 1) m inode 0);;
        touch;;
        mret EOK
      else
        let block_size := ext4_sb_get_block_size m sb in
        let new_blocks_cnt := u32 (u64 (new_size + block_size - 1) / block_size) in
        let old_blocks_cnt := u32 (u64 (old_size + block_size - 1) / block_size) in
        let diff_blocks_cnt := u32 (old_blocks_cnt - new_blocks_cnt) in
        rc ←
          (if uses_extents m inode then
             if c_true diff_blocks_cnt then ext4_extent_remove_space fuel new_blocks_cnt EXT_MAX_BLOCKS else mret EOK
           else release_loop (Z.to_nat diff_blocks_cnt) new_blocks_cnt);
        if negb (rc =? EOK) then mret rc
        else
          write (fun m => ext4_inode_set_size m inode new_size);;
          touch;;
          mret EOK.

(** The walk over the indirect blocks; 0 for a hole. *)
Fixpoint get_walk (l : nat) (current_block blk_off_in_lvl off_in_blk : Z) : F (Z * Z) :=
  match l with
  | O => mret (EOK, current_block)
  | S l' =>
      rc ← up (ext4_trans_block_get current_block);
      if negb (rc =? EOK) then mret (rc, 0)
      else
        m ← see;
        let next := get_entry m (buf current_block) off_in_blk in
        rc ← up (ext4_block_set current_block);
        if negb (rc =? EOK) then mret (rc, 0)
        else if next =? 0 then mret (EOK, 0)
        else
          match l' with
          | O => mret (EOK, next)
          | S l'' =>
              let bsize := ext4_sb_get_block_size m sb in
              let off := blk_off_in_lvl mod inode_blocks_per_level bsize l' in
              get_walk l' next off (u32 (off / inode_blocks_per_level bsize l''))
          end
  end.

(** The status and, with [EOK], [*fblock]. *)
Definition ext4_fs_get_inode_dblk_idx_internal (iblock : Z) (extent_create support_unwritten : bool) : F (Z * Z) :=
  r ← inode_ref;
  m ← see;
  let inode := ir_inode r in
  if ext4_inode_get_size m sb inode =? 0 then mret (EOK, 0)
  else if uses_extents m inode then
    '(rc, fblock, _) ← ext4_extent_get_blocks iblock 1 extent_create;
    if negb (rc =? EOK) then mret (rc, 0)
    else if negb (c_true fblock || support_unwritten) then crash
    else mret (EOK, fblock)
  else if iblock <? EXT4_INODE_DIRECT_BLOCK_COUNT then mret (EOK, ext4_inode_get_direct_block m inode iblock)
  else
    let bsize := ext4_sb_get_block_size m sb in
    match find_level bsize iblock with
    | O => mret (EIO, 0)
    | S l =>
        let off := u32 (iblock - inode_block_limits bsize l) in
        let current_block := ext4_inode_get_indirect_block m inode (Z.of_nat l) in
        if current_block =? 0 then mret (EOK, 0)
        else get_walk (S l) current_block off (u32 (off / inode_blocks_per_level bsize l))
    end.

Definition ext4_fs_get_inode_dblk_idx (iblock : Z) (support_unwritten : bool) : F (Z * Z) :=
  ext4_fs_get_inode_dblk_idx_internal iblock false support_unwritten.

Definition ext4_fs_init_inode_dblk_idx (iblock : Z) : F (Z * Z) := ext4_fs_get_inode_dblk_idx_internal iblock true true.

(** The status and [*goal]. *)
Definition ext4_fs_indirect_find_goal : F (Z * Z) :=
  r ← inode_ref;
  m ← see;
  let inode_size := ext4_inode_get_size m sb (ir_inode r) in
  let block_size := ext4_sb_get_block_size m sb in
  let iblock_cnt := u32 (inode_size / block_size) in
  let iblock_cnt := if negb (inode_size mod block_size =? 0) then u32 (iblock_cnt + 1) else iblock_cnt in
  '(rc, goal) ← (if 0 <? iblock_cnt then ext4_fs_get_inode_dblk_idx (iblock_cnt - 1) false else mret (EOK, 0));
  if negb (rc =? EOK) then mret (rc, goal)
  else if negb (goal =? 0) then mret (EOK, u64 (goal + 1))
  else
    m ← see;
    let inodes_per_bg := fget sb_inodes_per_group m sb in
    let block_group := u32 (ir_index r - 1) / inodes_per_bg in
    let block_size := ext4_sb_get_block_size m sb in
    '(rc, bg_ref) ← up (ext4_fs_get_block_group_ref block_group);
    if negb (rc =? EOK) then mret (rc, 0)
    else
      m ← see;
      let bg_count := ext4_block_group_cnt m sb in
      let itab_first_block := ext4_bg_get_inode_table_first_block m (Ext4Fs.block_group bg_ref) sb in
      let itab_item_size := fget sb_inode_size m sb in
      let itab_bytes :=
        if block_group <? u32 (bg_count - 1) then u32 (inodes_per_bg * itab_item_size)
        else u32 (u32 (fget sb_inodes_count m sb - u32 (u32 (bg_count - 1) * inodes_per_bg)) * itab_item_size) in
      let inode_table_blocks := itab_bytes / block_size + (if c_true (itab_bytes mod block_size) then 1 else 0) in
      rc ← up (ext4_fs_put_block_group_ref bg_ref);
      mret (rc, u64 (itab_first_block + inode_table_blocks)).

(** A new indirect block, which is held, is cleared and released. *)
Definition clear_block (b block_size : Z) : F Z :=
  write (fun m => memset m (buf b) 0 block_size);;
  up (ext4_trans_set_block_dirty b);;
  up (ext4_block_set b).

(** The walk of [ext4_fs_set_inode_data_block_index]. *)
Fixpoint set_walk (l : nat) (current_block blk_off_in_lvl off_in_blk fblock : Z) : F Z :=
  match l with
  | O => mret EOK
  | S l' =>
      rc ← up (ext4_trans_block_get current_block);
      if negb (rc =? EOK) then mret rc
      else
        m ← see;
        let bsize := ext4_sb_get_block_size m sb in
        let next := get_entry m (buf current_block) off_in_blk in
        '(rc, next) ←
          (if match l' with O => false | S _ => next =? 0 end then
             '(rc, goal) ← ext4_fs_indirect_find_goal;
             if negb (rc =? EOK) then mret (rc, 0)
             else
               '(rc, new_blk) ← alloc_block goal;
               if negb (rc =? EOK) then mret (rc, 0)
               else
                 rc ← up (ext4_trans_block_get_noread new_blk);
                 if negb (rc =? EOK) then mret (rc, 0)
                 else
                   rc ← clear_block new_blk bsize;
                   if negb (rc =? EOK) then mret (rc, 0)
                   else
                     write (fun m => put_entry m (buf current_block) off_in_blk (u32 new_blk));;
                     up (ext4_trans_set_block_dirty current_block);;
                     mret (EOK, new_blk)
           else mret (EOK, next));
        if negb (rc =? EOK) then up (ext4_block_set current_block);; mret rc
        else
          (match l' with
           | O =>
               write (fun m => put_entry m (buf current_block) off_in_blk (u32 fblock));;
               up (ext4_trans_set_block_dirty current_block)
           | S _ => mret tt
           end);;
          rc ← up (ext4_block_set current_block);
          if negb (rc =? EOK) then mret rc
          else
            match l' with
            | O => mret EOK
            | S l'' =>
                let off := blk_off_in_lvl mod inode_blocks_per_level bsize l' in
                set_walk l' next off (u32 (off / inode_blocks_per_level bsize l'')) fblock
            end
  end.

Definition ext4_fs_set_inode_data_block_index (iblock fblock : Z) : F Z :=
  r ← inode_ref;
  m ← see;
  let inode := ir_inode r in
  if uses_extents m inode then mret ENOTSUP
  else if iblock <? EXT4_INODE_DIRECT_BLOCK_COUNT then
    write (fun m => ext4_inode_set_direct_block m inode iblock (u32 fblock));;
    touch;;
    mret EOK
  else
    let bsize := ext4_sb_get_block_size m sb in
    match find_level bsize iblock with
    | O => mret EIO
    | S l =>
        let off := u32 (iblock - inode_block_limits bsize l) in
        let current_block := ext4_inode_get_indirect_block m inode (Z.of_nat l) in
        '(rc, current_block) ←
          (if current_block =? 0 then
             '(rc, goal) ← ext4_fs_indirect_find_goal;
             if negb (rc =? EOK) then mret (rc, 0)
             else
               '(rc, new_blk) ← alloc_block goal;
               if negb (rc =? EOK) then mret (rc, 0)
               else
                 write (fun m => ext4_inode_set_indirect_block m inode (Z.of_nat l) (u32 new_blk));;
                 touch;;
                 rc ← up (ext4_trans_block_get_noread new_blk);
                 if negb (rc =? EOK) then free_block new_blk;; mret (rc, 0)
                 else
                   rc ← clear_block new_blk bsize;
                   mret (rc, new_blk)
           else mret (EOK, current_block));
        if negb (rc =? EOK) then mret rc
        else set_walk (S l) current_block off (u32 (off / inode_blocks_per_level bsize l)) fblock
    end.

(** The status and, with [EOK], [*fblock] and [*iblock]. *)
Definition ext4_fs_append_inode_dblk : F (Z * Z * Z) :=
  r ← inode_ref;
  m ← see;
  let inode := ir_inode r in
  let inode_size := ext4_inode_get_size m sb inode in
  let block_size := ext4_sb_get_block_size m sb in
  if uses_extents m inode then
    let iblock := u32 (u64 (inode_size + block_size - 1) / block_size) in
    '(rc, fblock, _) ← ext4_extent_get_blocks iblock 1 true;
    if negb (rc =? EOK) then mret (rc, 0, iblock)
    else if negb (c_true fblock) then crash
    else
      write (fun m => ext4_inode_set_size m inode (u64 (inode_size + block_size)));;
      touch;;
      mret (EOK, fblock, iblock)
  else
    let inode_size :=
      if negb (inode_size mod block_size =? 0) then u64 (inode_size + (block_size - inode_size mod block_size))
      else inode_size in
    let new_block_idx := u32 (inode_size / block_size) in
    '(rc, goal) ← ext4_fs_indirect_find_goal;
    if negb (rc =? EOK) then mret (rc, 0, 0)
    else
      '(rc, phys_block) ← alloc_block goal;
      if negb (rc =? EOK) then mret (rc, 0, 0)
      else
        rc ← ext4_fs_set_inode_data_block_index new_block_idx phys_block;
        if negb (rc =? EOK) then free_block phys_block;; mret (rc, 0, 0)
        else
          write (fun m => ext4_inode_set_size m inode (u64 (inode_size + block_size)));;
          touch;;
          mret (EOK, phys_block, new_block_idx).
End inodes.
