(* ===== verification/Ext4DirIdx.v ===== *)
(** lwext4, indexed directories: [src/ext4_dir_idx.c].

    Block 0 of an indexed directory is the root of a tree of hash values, at most
    one level of nodes lies below it, and the entries of the last level name the
    directory blocks of [Ext4Dir].  Nodes are read and written in the memory of
    the buffers.  The two buffers that are allocated to sort the entries of a
    block are a memory of their own. *)
From stdpp Require Import strings.
From S2P Require Import Prelude Memory KlibSort Ext4Errno Ext4Crc Ext4Hash Ext4Layout Ext4Super Ext4BlockGroup Ext4Dir.
From S2P Require Import Ext4Inode Ext4Store Ext4Fs Ext4Balloc Ext4File Ext4FsInode.
#[local] Open Scope Z_scope.
#[local] Open Scope cint_scope.

(** ** Structures *)

(** [struct ext4_dir_idx_climit], [struct ext4_dir_idx_dot_en], [struct
    ext4_dir_idx_rinfo], [struct ext4_dir_idx_entry], [struct ext4_dir_idx_tail] *)
Definition climit_layout : list (string * Z) := [("limit", 2); ("count", 2)]%string.
Definition dot_layout : list (string * Z) :=
  [("inode", 4); ("entry_length", 2); ("name_length", 1); ("inode_type", 1); ("name", 4)]%string.
Definition rinfo_layout : list (string * Z) :=
  [("reserved_zero", 4); ("hash_version", 1); ("info_length", 1); ("indirect_levels", 1); ("unused_flags", 1)]%string.
Definition dx_entry_layout : list (string * Z) := [("hash", 4); ("block", 4)]%string.
Definition dx_tail_layout : list (string * Z) := [("reserved", 4); ("checksum", 4)]%string.

Definition climit_limit : field := Eval vm_compute in field_of climit_layout "limit".
Definition climit_count : field := Eval vm_compute in field_of climit_layout "count".
Definition dot_inode : field := Eval vm_compute in field_of dot_layout "inode".
Definition ri_reserved_zero : field := Eval vm_compute in field_of rinfo_layout "reserved_zero".
Definition ri_hash_version : field := Eval vm_compute in field_of rinfo_layout "hash_version".
Definition ri_info_length : field := Eval vm_compute in field_of rinfo_layout "info_length".
Definition ri_indirect_levels : field := Eval vm_compute in field_of rinfo_layout "indirect_levels".
Definition ri_unused_flags : field := Eval vm_compute in field_of rinfo_layout "unused_flags".
Definition dx_hash : field := Eval vm_compute in field_of dx_entry_layout "hash".
Definition dx_blockno : field := Eval vm_compute in field_of dx_entry_layout "block".
Definition dxt_checksum : field := Eval vm_compute in field_of dx_tail_layout "checksum".
Definition sb_default_hash_version : field := Eval vm_compute in field_of sb_layout "default_hash_version".
Definition sb_hash_seed : field := Eval vm_compute in field_of sb_layout "hash_seed".

Definition sizeof_dot : Z := Eval vm_compute in struct_size dot_layout.
Definition sizeof_rinfo : Z := Eval vm_compute in struct_size rinfo_layout.
Definition sizeof_dx_entry : Z := Eval vm_compute in struct_size dx_entry_layout.
Definition sizeof_dx_tail : Z := Eval vm_compute in struct_size dx_tail_layout.

(** Members of [struct ext4_dir_idx_root] and [struct ext4_dir_idx_node]. *)
Definition root_dots (root i : Z) : Z := root + i * sizeof_dot.
Definition root_info (root : Z) : Z := root_dots root 2.
Definition root_en (root : Z) : Z := root_info root + sizeof_rinfo.
Definition node_entries (node : Z) : Z := node + sizeof_fake.

Definition EXT4_DIR_DX_INIT_BCNT : Z := 2.
Definition EXT4_SUPERBLOCK_FLAGS_UNSIGNED_HASH : Z := 0x0002.
Definition EXT4_ERR_BAD_DX_DIR : Z := -25000.

(** ** Accessors *)

Definition ext4_dir_dx_rinfo_get_hash_version (m : memory) (ri : Z) : Z := fget ri_hash_version m ri.
Definition ext4_dir_dx_rinfo_set_hash_version (m : memory) (ri v : Z) : memory := fset ri_hash_version m ri v.
Definition ext4_dir_dx_rinfo_get_info_length (m : memory) (ri : Z) : Z := fget ri_info_length m ri.
Definition ext4_dir_dx_root_info_set_info_length (m : memory) (ri len : Z) : memory := fset ri_info_length m ri len.
Definition ext4_dir_dx_rinfo_get_indirect_levels (m : memory) (ri : Z) : Z := fget ri_indirect_levels m ri.
Definition ext4_dir_dx_rinfo_set_indirect_levels (m : memory) (ri l : Z) : memory := fset ri_indirect_levels m ri l.
Definition ext4_dir_dx_climit_get_limit (m : memory) (climit : Z) : Z := fget climit_limit m climit.
Definition ext4_dir_dx_climit_set_limit (m : memory) (climit limit : Z) : memory := fset climit_limit m climit limit.
Definition ext4_dir_dx_climit_get_count (m : memory) (climit : Z) : Z := fget climit_count m climit.
Definition ext4_dir_dx_climit_set_count (m : memory) (climit count : Z) : memory := fset climit_count m climit count.
Definition ext4_dir_dx_entry_get_hash (m : memory) (entry : Z) : Z := fget dx_hash m entry.
Definition ext4_dir_dx_entry_set_hash (m : memory) (entry hash : Z) : memory := fset dx_hash m entry hash.
Definition ext4_dir_dx_entry_get_block (m : memory) (entry : Z) : Z := fget dx_blockno m entry.
Definition ext4_dir_dx_entry_set_block (m : memory) (entry block : Z) : memory := fset dx_blockno m entry block.
Definition ext4_dx_dot_en_set_inode (m : memory) (de inode : Z) : memory := fset dot_inode m de inode.

(** [entries + i] *)
Definition dx_at (entries i : Z) : Z := entries + i * sizeof_dx_entry.

(** ** Checksums *)

(** The checksum field of the tail [t] counts as 0; it is put back afterwards. *)
Definition ext4_dir_dx_checksum (m : memory) (sb index ino de count_offset count t : Z) : Z :=
  if ext4_sb_feature_ro_com m sb EXT4_FRO_COM_METADATA_CSUM then
    let ino_gen := ext4_inode_get_generation m ino in
    let sz := count_offset + count * sizeof_dx_tail in
    let m := fset dxt_checksum m t 0 in
    let csum := ext4_crc32c m EXT4_CRC32_INIT (sb + f_off sb_uuid) 16 in
    let csum := ext4_crc32c (local32 index) csum 0 4 in
    let csum := ext4_crc32c (local32 ino_gen) csum 0 4 in
    let csum := ext4_crc32c m csum de sz in
    ext4_crc32c m csum t sizeof_dx_tail
  else 0.

(** The count and limit of a node and [*offset]; [None] is the null pointer. *)
Definition ext4_dir_dx_get_climit (m : memory) (sb dirent : Z) : option (Z * Z) :=
  let block_size := ext4_sb_get_block_size m sb in
  let entry_len := ext4_dir_en_get_entry_len m dirent in
  if entry_len =? 12 then
    if negb (ext4_dir_en_get_entry_len m (root_dots dirent 1) =? u32 (block_size - 12)) then None
    else if c_true (fget ri_reserved_zero m (root_info dirent)) then None
    else if negb (fget ri_info_length m (root_info dirent) =? sizeof_rinfo) then None
    else Some (dirent + 32, 32)
  else if entry_len =? block_size then Some (dirent + 8, 8)
  else None.

(** The tail of a node, with the offset and the count of its entries. *)
Definition dx_tail (m : memory) (sb de : Z) : option (Z * Z * Z) :=
  let block_size := ext4_sb_get_block_size m sb in
  '(climit, coff) ← ext4_dir_dx_get_climit m sb de;
  let limit := ext4_dir_dx_climit_get_limit m climit in
  let count := ext4_dir_dx_climit_get_count m climit in
  if block_size - sizeof_dx_tail <? coff + limit * sizeof_dx_entry then None
  else Some (dx_at climit limit, coff, count).

Definition ext4_dir_dx_csum_verify (m : memory) (sb index ino de : Z) : bool :=
  if ext4_sb_feature_ro_com m sb EXT4_FRO_COM_METADATA_CSUM then
    match dx_tail m sb de with
    | None => true
    | Some (t, coff, cnt) => fget dxt_checksum m t =? ext4_dir_dx_checksum m sb index ino de coff cnt t
    end
  else true.

Definition ext4_dir_set_dx_csum (m : memory) (sb index ino dirent : Z) : memory :=
  if ext4_sb_feature_ro_com m sb EXT4_FRO_COM_METADATA_CSUM then
    match dx_tail m sb dirent with
    | None => m
    | Some (t, coff, count) => fset dxt_checksum m t (ext4_dir_dx_checksum m sb index ino dirent coff count t)
    end
  else m.

(** ** Hashes *)

(** [struct ext4_hash_info]; the seed is that of the superblock. *)
Record ext4_hash_info := Hinfo { hi_hash : Z; hi_minor_hash : Z; hi_version : Z }.

Definition sb_seed (m : memory) (sb : Z) : hash4 :=
  let w i := ld32 m (sb + f_off sb_hash_seed + 4 * i) in (w 0, w 1, w 2, w 3).

Definition ext4_dir_dx_hash_string (m : memory) (sb : Z) (hinfo : ext4_hash_info) (len name : Z) : option (Z * ext4_hash_info) :=
  '(rc, hash, minor_hash) ← ext2_htree_hash m name len (Some (sb_seed m sb)) (hi_version hinfo);
  Some (rc, Hinfo hash minor_hash (hi_version hinfo)).

(** The entries that fit behind [used] bytes of a node. *)
Definition dx_space (m : memory) (sb used : Z) : Z :=
  let entry_space := u32 (ext4_sb_get_block_size m sb - used) in
  let entry_space :=
    if ext4_sb_feature_ro_com m sb EXT4_FRO_COM_METADATA_CSUM then u32 (entry_space - sizeof_dx_tail) else entry_space in
  entry_space / sizeof_dx_entry.

(** [name] is not the null pointer. *)
Definition ext4_dir_hinfo_init (m : memory) (root sb name_len name : Z) : option (Z * ext4_hash_info) :=
  let info := root_info root in
  let none := Hinfo 0 0 0 in
  let version := fget ri_hash_version m info in
  if negb (version =? EXT2_HTREE_LEGACY) && negb (version =? EXT2_HTREE_HALF_MD4) && negb (version =? EXT2_HTREE_TEA)
  then Some (EXT4_ERR_BAD_DX_DIR, none)
  else if negb (fget ri_unused_flags m info =? 0) then Some (EXT4_ERR_BAD_DX_DIR, none)
  else if 1 <? fget ri_indirect_levels m info then Some (EXT4_ERR_BAD_DX_DIR, none)
  else if negb (ext4_dir_dx_climit_get_limit m (root_en root) =? dx_space m sb (2 * sizeof_dot + sizeof_rinfo))
  then Some (EXT4_ERR_BAD_DX_DIR, none)
  else
    let version := ext4_dir_dx_rinfo_get_hash_version m info in
    let version :=
      if (version <=? EXT2_HTREE_TEA) && ext4_sb_check_flag m sb EXT4_SUPERBLOCK_FLAGS_UNSIGNED_HASH
      then version + 3 else version in
    ext4_dir_dx_hash_string m sb (Hinfo 0 0 version) name_len name.

(** [while (p <= q)] over the entries by their number; the last one that is not
    above the hash is before the result. *)
Fixpoint dx_search (fuel : nat) (m : memory) (entries hash p q : Z) : option Z :=
  match fuel with
  | O => None
  | S fuel =>
      if q <? p then Some p
      else
        let k := p + (q - p) / 2 in
        if hash <? ext4_dir_dx_entry_get_hash m (dx_at entries k) then dx_search fuel m entries hash p (k - 1)
        else dx_search fuel m entries hash (k + 1) q
  end.

(** [struct ext4_dir_idx_block]; the array [dx_blocks] up to [dx_block] is a list. *)
Record ext4_dir_idx_block := DxBlk { dx_b : ext4_block; dx_entries : Z; dx_position : Z }.
Definition with_position (p : ext4_dir_idx_block) (pos : Z) : ext4_dir_idx_block := DxBlk (dx_b p) (dx_entries p) pos.

(** The addresses of the string constants of the code. *)
Class Literals := { lit_dot : Z; lit_dotdot : Z }.

Section index.
Context `{Device} `{Literals}.
#[local] Notation sb := fs_sb.

(** ** Blocks of a directory *)

(** A walk over a block moves on by at least one byte a turn. *)
Definition dir_fuel (m : memory) : nat := S (Z.to_nat (ext4_sb_get_block_size m sb)).

(** [ext4_trans_set_block_dirty(b->buf)] *)
Definition mark (b : ext4_block) : F unit :=
  match b_buf b with Some a => up (ext4_trans_set_block_dirty a) | None => crash end.
Definition put_block (b : ext4_block) : F (Z * ext4_block) := up (block_set b).
(** A block that is got into a variable without a value. *)
Definition take_block (read : bool) (a : Z) : F (Z * ext4_block) := up (get_into read EXT4_BLOCK_ZERO a).

Definition find_in_block (b : ext4_block) (name_len name : Z) : F (Z * Z) :=
  m ← see;
  need (ext4_dir_find_in_block (dir_fuel m) m (block_data b) sb name_len name).

Definition try_insert_entry (b : ext4_block) (cindex child name name_len : Z) : F Z :=
  r ← inode_ref;
  m ← see;
  '(rc, m') ← need (ext4_dir_try_insert_entry (dir_fuel m) m sb (ir_index r) (ir_inode r) (block_data b) cindex child name name_len);
  write (fun _ => m');;
  (if rc =? EOK then mark b else mret tt);;
  mret rc.

Definition write_entry (en entry_len cindex child name name_len : Z) : F unit :=
  m ← see;
  m' ← need (ext4_dir_write_entry m sb en entry_len cindex child name name_len);
  write (fun _ => m').

Definition set_csum (b : ext4_block) : F unit :=
  r ← inode_ref;
  write (fun m => ext4_dir_set_csum m sb (ir_index r) (ir_inode r) (block_data b)).
Definition set_dx_csum (b : ext4_block) : F unit :=
  r ← inode_ref;
  write (fun m => ext4_dir_set_dx_csum m sb (ir_index r) (ir_inode r) (block_data b)).

(** ** A new index *)

(** An empty directory block at [be]. *)
Definition empty_block (m : memory) (index ino be : Z) : memory :=
  let block_size := ext4_sb_get_block_size m sb in
  let m :=
    if ext4_sb_feature_ro_com m sb EXT4_FRO_COM_METADATA_CSUM then
      let m := ext4_dir_en_set_entry_len m be (u16 (block_size - sizeof_tail)) in
      let m := ext4_dir_en_set_name_len m sb be 0 in
      let m := ext4_dir_en_set_inode_type m sb be Ext4Dir.EXT4_DE_UNKNOWN in
      let m := ext4_dir_init_entry_tail m (EXT4_DIRENT_TAIL be block_size) in
      ext4_dir_set_csum m sb index ino be
    else ext4_dir_en_set_entry_len m be (u16 block_size) in
  ext4_dir_en_set_inode m be 0.

(** The root at [root]. *)
Definition init_root (root pindex pino : Z) : F unit :=
  r ← inode_ref;
  write (fun m => memset m root 0 (root_en 0));;
  write_entry (root_dots root 0) 12 (ir_index r) (ir_inode r) lit_dot 1;;
  m ← see;
  write_entry (root_dots root 1) (u16 (ext4_sb_get_block_size m sb - 12)) pindex pino lit_dotdot 2;;
  write (fun m =>
    let info := root_info root in
    let climit := root_en root in
    let m := ext4_dir_dx_rinfo_set_hash_version m info (fget sb_default_hash_version m sb) in
    let m := ext4_dir_dx_rinfo_set_indirect_levels m info 0 in
    let m := ext4_dir_dx_root_info_set_info_length m info 8 in
    let m := ext4_dir_dx_climit_set_count m climit 1 in
    ext4_dir_dx_climit_set_limit m climit (u16 (dx_space m sb (2 * sizeof_dot + sizeof_rinfo)))).

(** Block [iblock] of the directory, an old one or one more: the status, the block
    and its number. *)
Definition dx_block_at (need_append : bool) (iblock : Z) : F (Z * Z * Z) :=
  if need_append then ext4_fs_append_inode_dblk
  else '(rc, fblock) ← ext4_fs_init_inode_dblk_idx iblock; mret (rc, fblock, iblock).

(** The parent is the inode number [pindex] with its inode at [pino]. *)
Definition ext4_dir_dx_init (pindex pino : Z) : F Z :=
  dir ← inode_ref;
  m ← see;
  let need_append := ext4_inode_get_size m sb (ir_inode dir) <? EXT4_DIR_DX_INIT_BCNT in
  '(rc, fblock, iblock) ← dx_block_at need_append 0;
  if negb (rc =? EOK) then mret rc
  else
    '(rc, block) ← take_block false fblock;
    if negb (rc =? EOK) then mret rc
    else
      let root := block_data block in
      init_root root pindex pino;;
      '(rc, fblock, iblock) ← dx_block_at need_append (u32 (iblock + 1));
      if negb (rc =? EOK) then put_block block;; mret rc
      else
        '(rc, new_block) ← take_block false fblock;
        if negb (rc =? EOK) then put_block block;; mret rc
        else
          dir ← inode_ref;
          write (fun m => empty_block m (ir_index dir) (ir_inode dir) (block_data new_block));;
          mark new_block;;
          '(rc, _) ← put_block new_block;
          if negb (rc =? EOK) then put_block block;; mret rc
          else
            write (fun m => ext4_dir_dx_entry_set_block m (root_en root) iblock);;
            set_dx_csum block;;
            mark block;;
            '(rc, _) ← put_block block;
            mret rc.

(** ** Searching *)

(** The limit that a node below the root should have. *)
Definition node_space (m : memory) : Z :=
  let entry_space := u16 (ext4_sb_get_block_size m sb - sizeof_fake) in
  let entry_space :=
    if ext4_sb_feature_ro_com m sb EXT4_FRO_COM_METADATA_CSUM then u16 (entry_space - sizeof_dx_tail) else entry_space in
  entry_space / sizeof_dx_entry.

(** [while (true)] of [ext4_dir_dx_get_leaf]: [tmp_blk] is the caller's block, and
    [dx_blocks] has what was written of the array. *)
Fixpoint leaf_walk (ind_level : nat) (hash : Z) (tmp_blk : ext4_block) (entries limit : Z)
    (dx_blocks : list ext4_dir_idx_block) : F (Z * ext4_block * list ext4_dir_idx_block) :=
  m ← see;
  let cnt := ext4_dir_dx_climit_get_count m entries in
  if (cnt =? 0) || (limit <? cnt) then mret (EXT4_ERR_BAD_DX_DIR, tmp_blk, dx_blocks)
  else
    p ← need (dx_search (S (Z.to_nat cnt)) m entries hash 1 (cnt - 1));
    let at_ := dx_at entries (p - 1) in
    let dx_blocks := dx_blocks ++ [DxBlk tmp_blk entries at_] in
    match ind_level with
    | O => mret (EOK, tmp_blk, dx_blocks)
    | S ind_level =>
        '(r, fblk) ← ext4_fs_get_inode_dblk_idx (ext4_dir_dx_entry_get_block m at_) false;
        if negb (r =? EOK) then mret (r, tmp_blk, dx_blocks)
        else
          '(r, tmp_blk) ← up (get_into true tmp_blk fblk);
          if negb (r =? EOK) then mret (r, tmp_blk, dx_blocks)
          else
            m ← see;
            let entries := node_entries (block_data tmp_blk) in
            let limit := ext4_dir_dx_climit_get_limit m entries in
            if negb (limit =? node_space m) then
              '(_, tmp_blk) ← put_block tmp_blk;
              mret (EXT4_ERR_BAD_DX_DIR, tmp_blk, dx_blocks)
            else leaf_walk ind_level hash tmp_blk entries limit dx_blocks
    end.

(** The status, the root block as the walk leaves it and the path.  The array has
    room for two nodes. *)
Definition ext4_dir_dx_get_leaf (hinfo : ext4_hash_info) (root_block : ext4_block)
    : F (Z * ext4_block * list ext4_dir_idx_block) :=
  m ← see;
  let root := block_data root_block in
  let entries := root_en root in
  let limit := ext4_dir_dx_climit_get_limit m entries in
  let ind_level := ext4_dir_dx_rinfo_get_indirect_levels m (root_info root) in
  if 1 <? ind_level then crash
  else leaf_walk (Z.to_nat ind_level) (hi_hash hinfo) root_block entries limit [].

(** The first loop of [ext4_dir_dx_next_block], from the last node up: the path
    with the positions moved on, and the nodes that have to be loaded again below
    the one found; no number if there is none. *)
Fixpoint next_up (m : memory) (rev_path : list ext4_dir_idx_block) : list ext4_dir_idx_block * option nat :=
  match rev_path with
  | [] => ([], None)
  | p :: above =>
      let cnt := ext4_dir_dx_climit_get_count m (dx_entries p) in
      let p := with_position p (dx_position p + sizeof_dx_entry) in
      if dx_position p <? dx_at (dx_entries p) cnt then (p :: above, Some O)
      else let '(above, found) := next_up m above in (p :: above, S <$> found)
  end.

(** [while (num_handles--)]: [k] is the number of the node [p]. *)
Fixpoint next_down (num_handles : nat) (k : nat) (path : list ext4_dir_idx_block) : F (Z * list ext4_dir_idx_block) :=
  match num_handles with
  | O => mret (ENOENT, path)
  | S num_handles =>
      p ← need (path !! k);
      m ← see;
      '(r, blk_adr) ← ext4_fs_get_inode_dblk_idx (ext4_dir_dx_entry_get_block m (dx_position p)) false;
      if negb (r =? EOK) then mret (r, path)
      else
        '(r, b) ← take_block true blk_adr;
        if negb (r =? EOK) then mret (r, path)
        else
          p ← need (path !! S k);
          '(r, old) ← put_block (dx_b p);
          if negb (r =? EOK) then mret (r, <[S k := DxBlk old (dx_entries p) (dx_position p)]> path)
          else
            let entries := node_entries (block_data b) in
            next_down num_handles (S k) (<[S k := DxBlk b entries entries]> path)
  end.

(** [ENOENT] tells that there is a next block. *)
Definition ext4_dir_dx_next_block (hash : Z) (path : list ext4_dir_idx_block) : F (Z * list ext4_dir_idx_block) :=
  m ← see;
  let '(rev_path, found) := next_up m (rev path) in
  let path := rev rev_path in
  match found with
  | None => mret (EOK, path)
  | Some num_handles =>
      let k := (length path - 1 - num_handles)%nat in
      p ← need (path !! k);
      let current_hash := ext4_dir_dx_entry_get_hash m (dx_position p) in
      if (hash .& 1 =? 0) && negb (current_hash .& 0xfffffffe =? hash) then mret (EOK, path)
      else next_down num_handles k path
  end.

(** The whole path is released. *)
Fixpoint release_path (rc : Z) (path : list ext4_dir_idx_block) : F Z :=
  match path with
  | [] => mret rc
  | p :: path =>
      '(rc2, _) ← put_block (dx_b p);
      release_path (if (rc =? EOK) && negb (rc2 =? EOK) then rc2 else rc) path
  end.

(** [do ... while (rc == ENOENT)]: the status, the path and the entry found. *)
Fixpoint dx_find_loop (fuel : nat) (hash name_len name : Z) (path : list ext4_dir_idx_block)
    : F (Z * list ext4_dir_idx_block * option (ext4_block * Z)) :=
  match fuel with
  | O => crash
  | S fuel =>
      p ← need (last path);
      m ← see;
      '(rc, leaf_block_addr) ← ext4_fs_get_inode_dblk_idx (ext4_dir_dx_entry_get_block m (dx_position p)) false;
      if negb (rc =? EOK) then mret (rc, path, None)
      else
        '(rc, b) ← take_block true leaf_block_addr;
        if negb (rc =? EOK) then mret (rc, path, None)
        else
          '(rc, de) ← find_in_block b name_len name;
          if rc =? EOK then mret (EOK, path, Some (b, de))
          else
            '(rc2, _) ← put_block b;
            if negb (rc2 =? EOK) then mret (rc, path, None)
            else if negb (rc =? ENOENT) then mret (rc, path, None)
            else
              '(rc, path) ← ext4_dir_dx_next_block hash path;
              if rc <? 0 then mret (rc, path, None)
              else if rc =? ENOENT then dx_find_loop fuel hash name_len name path
              else mret (ENOENT, path, None)
  end.

(** The status and [*result]; [fuel] counts the blocks searched. *)
Definition ext4_dir_dx_find_entry (fuel : nat) (name_len name : Z) : F (Z * option (ext4_block * Z)) :=
  '(rc, root_block_addr) ← ext4_fs_get_inode_dblk_idx 0 false;
  if negb (rc =? EOK) then mret (rc, None)
  else
    '(rc, root_block) ← take_block true root_block_addr;
    if negb (rc =? EOK) then mret (rc, None)
    else
      m ← see;
      '(rc, hinfo) ← need (ext4_dir_hinfo_init m (block_data root_block) sb name_len name);
      if negb (rc =? EOK) then put_block root_block;; mret (EXT4_ERR_BAD_DX_DIR, None)
      else
        '(rc, root_block, path) ← ext4_dir_dx_get_leaf hinfo root_block;
        if negb (rc =? EOK) then put_block root_block;; mret (EXT4_ERR_BAD_DX_DIR, None)
        else
          '(rc, path, result) ← dx_find_loop fuel (hi_hash hinfo) name_len name path;
          rc ← release_path rc path;
          mret (rc, result).

(** ** Inserting *)

(** [struct ext4_dx_sort_entry] *)
Definition sort_hash : field := Field 0 4.
Definition sort_rec_len : field := Field 4 4.
Definition sort_dentry : field := Field 8 8.
Definition sizeof_sort : Z := 16.

Definition ext4_dir_dx_entry_comparator (w : memory) (arg1 arg2 : Z) : Z :=
  if fget sort_hash w arg1 =? fget sort_hash w arg2 then 0
  else if fget sort_hash w arg1 <? fget sort_hash w arg2 then -1
  else 1.

Definition ext4_dir_dx_insert_entry (index_block : ext4_dir_idx_block) (hash iblock : Z) : F unit :=
  m ← see;
  let climit := dx_entries index_block in
  let new_index_entry := dx_position index_block + sizeof_dx_entry in
  let count := ext4_dir_dx_climit_get_count m climit in
  let bytes := dx_at climit count - new_index_entry in
  if bytes <? 0 then crash
  else
    write (fun m =>
      let m := memcpy m (new_index_entry + sizeof_dx_entry) new_index_entry bytes in
      let m := ext4_dir_dx_entry_set_block m new_index_entry iblock in
      let m := ext4_dir_dx_entry_set_hash m new_index_entry hash in
      ext4_dir_dx_climit_set_count m climit (count + 1));;
    set_dx_csum (dx_b index_block);;
    mark (dx_b index_block).

(** Bytes of another memory. *)
Definition copy_from (w m : memory) (dst src n : Z) : memory := fun x =>
  if (dst <=? x) && (x <? dst + n) then w (src + (x - dst)) else m x.

(** The live entries of the block from [de] to [stop] go to the buffers, the
    entries to the first [bs] bytes of [w] and the array to be sorted behind
    them: the status, the buffers, the length of the array and the size. *)
Fixpoint load_entries (fuel : nat) (m w : memory) (bs : Z) (hinfo : ext4_hash_info) (de stop idx ptr : Z)
    : option (Z * memory * Z) :=
  match fuel with
  | O => None
  | S fuel =>
      if negb (de <? stop) then Some (EOK, w, idx)
      else
        let next := de + ext4_dir_en_get_entry_len m de in
        if c_true (ext4_dir_en_get_inode m de) && c_true (fget de_name_len m de) then
          let len := ext4_dir_en_get_name_len m sb de in
          '(rc, hinfo) ← ext4_dir_dx_hash_string m sb hinfo len (de + sizeof_fake);
          if negb (rc =? EOK) then Some (rc, w, idx)
          else
            let rec_len := 8 + len in
            let rec_len := if negb (rec_len mod 4 =? 0) then rec_len + (4 - rec_len mod 4) else rec_len in
            if (bs <? ptr + rec_len) || (bs / sizeof_dot <=? idx) then None
            else
              let w := copy_from m w ptr de rec_len in
              let e := bs + idx * sizeof_sort in
              let w := fset sort_dentry w e ptr in
              let w := fset sort_rec_len w e rec_len in
              let w := fset sort_hash w e (hi_hash hinfo) in
              load_entries fuel m w bs hinfo next stop (idx + 1) (ptr + rec_len)
        else load_entries fuel m w bs hinfo next stop idx ptr
  end.

(** The entry where the second half begins and its hash; both 0 if all entries fit
    into one half. *)
Fixpoint find_half (n : nat) (w : memory) (bs i current_size : Z) : Z * Z :=
  match n with
  | O => (0, 0)
  | S n =>
      let e := bs + i * sizeof_sort in
      if bs / 2 <? current_size + fget sort_rec_len w e then (i, fget sort_hash w e)
      else find_half n w bs (i + 1) (current_size + fget sort_rec_len w e)
  end.

(** The entries [i] to [stop] go to the block at [data]; the last one gets the
    rest of its [size] bytes. *)
Fixpoint store_entries (n : nat) (w m : memory) (bs data size i stop off : Z) : memory :=
  match n with
  | O => m
  | S n =>
      let e := bs + i * sizeof_sort in
      let rec_len := fget sort_rec_len w e in
      let ptr := data + off in
      let m := copy_from w m ptr (fget sort_dentry w e) rec_len in
      let m := ext4_dir_en_set_entry_len m ptr (u16 (if i <? stop - 1 then rec_len else u32 (size - off))) in
      store_entries n w m bs data size (i + 1) stop (u32 (off + rec_len))
  end.

(** The status and the new block. *)
Definition ext4_dir_dx_split_data (hinfo : ext4_hash_info) (old_data_block : ext4_block) (index_block : ext4_dir_idx_block)
    : F (Z * ext4_block) :=
  ok ← up calloc;
  if negb ok then mret (ENOMEM, EXT4_BLOCK_ZERO)
  else
    ok ← up calloc;
    if negb ok then mret (ENOMEM, EXT4_BLOCK_ZERO)
    else
      m ← see;
      let bs := ext4_sb_get_block_size m sb in
      let data := block_data old_data_block in
      '(rc, w, idx) ← need (load_entries (dir_fuel m) m (fun _ => 0) bs hinfo data (data + bs) 0 0);
      if negb (rc =? EOK) then mret (rc, EXT4_BLOCK_ZERO)
      else
        w ← need (qsort ext4_dir_dx_entry_comparator (S (Z.to_nat bs)) w bs idx sizeof_sort);
        '(rc, new_fblock, new_iblock) ← ext4_fs_append_inode_dblk;
        if negb (rc =? EOK) then mret (rc, EXT4_BLOCK_ZERO)
        else
          '(rc, new_block) ← take_block false new_fblock;
          if negb (rc =? EOK) then mret (rc, EXT4_BLOCK_ZERO)
          else
            let '(mid, new_hash) := find_half (Z.to_nat idx) w bs 0 0 in
            if mid =? 0 then crash
            else
              let continued := if new_hash =? fget sort_hash w (bs + (mid - 1) * sizeof_sort) then 1 else 0 in
              let csum := ext4_sb_feature_ro_com m sb EXT4_FRO_COM_METADATA_CSUM in
              let size := if csum then u32 (bs - sizeof_tail) else bs in
              let new_data := block_data new_block in
              write (fun m => store_entries (Z.to_nat mid) w m bs data size 0 mid 0);;
              write (fun m => store_entries (Z.to_nat (idx - mid)) w m bs new_data size mid idx 0);;
              (if csum then
                 write (fun m => ext4_dir_init_entry_tail m (EXT4_DIRENT_TAIL data bs));;
                 write (fun m => ext4_dir_init_entry_tail m (EXT4_DIRENT_TAIL new_data bs))
               else mret tt);;
              set_csum old_data_block;;
              set_csum new_block;;
              mark old_data_block;;
              mark new_block;;
              ext4_dir_dx_insert_entry index_block (u32 (new_hash + continued)) new_iblock;;
              mret (EOK, new_block).

(** A node of [leaf_count] entries below the root is split: the status and the
    path. *)
Definition split_node (root dxb : ext4_dir_idx_block) (e leaf_count node_limit new_iblk : Z) (b : ext4_block)
    : F (Z * list ext4_dir_idx_block) :=
  m ← see;
  let new_en := node_entries (block_data b) in
  let count_left := leaf_count / 2 in
  let count_right := leaf_count - count_left in
  let hash_right := ext4_dir_dx_entry_get_hash m (dx_at e count_left) in
  write (fun m =>
    let m := memcpy m new_en (dx_at e count_left) (count_right * sizeof_dx_entry) in
    let m := ext4_dir_dx_climit_set_count m e count_left in
    let m := ext4_dir_dx_climit_set_count m new_en count_right in
    ext4_dir_dx_climit_set_limit m new_en (u16 node_limit));;
  let position_index := (dx_position dxb - dx_entries dxb) / sizeof_dx_entry in
  '(dxb, b) ←
    (if count_left <=? position_index then
       set_dx_csum (dx_b dxb);;
       mark (dx_b dxb);;
       mret (DxBlk b new_en (dx_at new_en (position_index - count_left)), dx_b dxb)
     else mret (dxb, b));
  ext4_dir_dx_insert_entry root hash_right new_iblk;;
  set_dx_csum (dx_b root);;
  set_dx_csum (dx_b dxb);;
  mark (dx_b root);;
  mark (dx_b dxb);;
  set_dx_csum b;;
  mark b;;
  '(r, _) ← put_block b;
  mret (r, [root; dxb]).

(** The root is split: its entries go to a node below it. *)
Definition split_root (root : ext4_dir_idx_block) (e leaf_count node_limit new_iblk : Z) (b : ext4_block)
    : F (Z * list ext4_dir_idx_block) :=
  let new_en := node_entries (block_data b) in
  write (fun m =>
    let m := memcpy m new_en e (leaf_count * sizeof_dx_entry) in
    let m := ext4_dir_dx_climit_set_limit m new_en (u16 node_limit) in
    let m := ext4_dir_dx_climit_set_count m e 1 in
    let m := ext4_dir_dx_entry_set_block m e new_iblk in
    fset ri_indirect_levels m (root_info (block_data (dx_b root))) 1);;
  let dxb := DxBlk b new_en (dx_position root - e + new_en) in
  set_dx_csum (dx_b root);;
  set_dx_csum (dx_b dxb);;
  mark (dx_b root);;
  mark (dx_b dxb);;
  mret (EOK, [root; dxb]).

(** The status and the path, whose last node is [*new_dx_block]. *)
Definition ext4_dir_dx_split_index (path : list ext4_dir_idx_block) : F (Z * list ext4_dir_idx_block) :=
  root ← need (head path);
  dxb ← need (last path);
  m ← see;
  let block_size := ext4_sb_get_block_size m sb in
  let node_limit := u32 (block_size - sizeof_fake) / sizeof_dx_entry in
  let levels := (length path - 1)%nat in
  let root_e := root_en (block_data (dx_b root)) in
  let e := match levels with O => root_e | S _ => node_entries (block_data (dx_b dxb)) end in
  let leaf_limit := ext4_dir_dx_climit_get_limit m e in
  let leaf_count := ext4_dir_dx_climit_get_count m e in
  if negb (leaf_limit =? leaf_count) then mret (EOK, path)
  else if match levels with O => false | S _ => ext4_dir_dx_climit_get_limit m root_e =? ext4_dir_dx_climit_get_count m root_e end
  then mret (ENOSPC, path)
  else
    '(r, new_fblk, new_iblk) ← ext4_fs_append_inode_dblk;
    if negb (r =? EOK) then mret (r, path)
    else
      '(r, b) ← take_block false new_fblk;
      if negb (r =? EOK) then mret (r, path)
      else
        write (fun m => memset m (block_data b) 0 sizeof_fake);;
        write (fun m => fset de_entry_len m (block_data b) block_size);;
        match levels with
        | O => split_root root e leaf_count node_limit new_iblk b
        | S _ => split_node root dxb e leaf_count node_limit new_iblk b
        end.

(** The end of [ext4_dir_dx_add_entry] from [release_index] on, with [r = EOK]. *)
Fixpoint release_index (rc2 : Z) (path : list ext4_dir_idx_block) : F Z :=
  match path with
  | [] => mret rc2
  | p :: path =>
      '(r, _) ← put_block (dx_b p);
      if negb (r =? EOK) then mret r else release_index rc2 path
  end.

(** From [release_target_index] on. *)
Definition release_target_index (r : Z) (target_block : ext4_block) (path : list ext4_dir_idx_block) : F Z :=
  let rc2 := r in
  '(r, _) ← put_block target_block;
  if negb (r =? EOK) then mret r else release_index rc2 path.

(** When no leaf is found the release uses a path that was never set, and when the
    index cannot be split it uses a block that was never got. *)
Definition ext4_dir_dx_add_entry (cindex child name name_len : Z) : F Z :=
  '(r, rblock_addr) ← ext4_fs_get_inode_dblk_idx 0 false;
  if negb (r =? EOK) then mret r
  else
    '(r, root_blk) ← take_block true rblock_addr;
    if negb (r =? EOK) then mret r
    else
      m ← see;
      '(r, hinfo) ← need (ext4_dir_hinfo_init m (block_data root_blk) sb name_len name);
      if negb (r =? EOK) then put_block root_blk;; mret EXT4_ERR_BAD_DX_DIR
      else
        '(r, root_blk, path) ← ext4_dir_dx_get_leaf hinfo root_blk;
        if negb (r =? EOK) then crash
        else
          dx_blk ← need (last path);
          m ← see;
          '(r, leaf_block_addr) ← ext4_fs_get_inode_dblk_idx (ext4_dir_dx_entry_get_block m (dx_position dx_blk)) false;
          if negb (r =? EOK) then release_index r path
          else
            '(r, path) ← ext4_dir_dx_split_index path;
            if negb (r =? EOK) then crash
            else
              dx_blk ← need (last path);
              '(r, target_block) ← take_block true leaf_block_addr;
              if negb (r =? EOK) then release_index r path
              else
                r ← try_insert_entry target_block cindex child name name_len;
                if r =? EOK then release_target_index r target_block path
                else
                  '(r, new_block) ← ext4_dir_dx_split_data hinfo target_block dx_blk;
                  if negb (r =? EOK) then release_target_index r target_block path
                  else
                    m ← see;
                    let blk_hash := ext4_dir_dx_entry_get_hash m (dx_position dx_blk + sizeof_dx_entry) in
                    try_insert_entry (if blk_hash <=? hi_hash hinfo then new_block else target_block) cindex child name name_len;;
                    '(r, _) ← put_block new_block;
                    if negb (r =? EOK) then mret r else release_target_index r target_block path.

Definition ext4_dir_dx_reset_parent_inode (parent_inode : Z) : F Z :=
  '(rc, fblock) ← ext4_fs_get_inode_dblk_idx 0 false;
  if negb (rc =? EOK) then mret rc
  else
    '(rc, block) ← take_block true fblock;
    if negb (rc =? EOK) then mret rc
    else
      write (fun m => ext4_dx_dot_en_set_inode m (root_dots (block_data block) 1) parent_inode);;
      set_dx_csum block;;
      mark block;;
      '(rc, _) ← put_block block;
      mret rc.
End index.
