(* ===== verification/Ext4DirOps.v ===== *)
(** lwext4, directories: the part of [src/ext4_dir.c] that walks over the blocks
    of a directory: the iterator, and adding, finding and removing an entry. *)
From S2P Require Import Prelude Memory Ext4Errno Ext4Layout Ext4Super Ext4BlockGroup Ext4Dir.
From S2P Require Import Ext4Inode Ext4Store Ext4Fs Ext4Balloc Ext4File Ext4FsInode Ext4DirIdx.
#[local] Open Scope Z_scope.
#[local] Open Scope cint_scope.

Definition EXT4_FCOM_DIR_INDEX : Z := 0x0020.

(** [struct ext4_dir_iter]; the inode is that of [F]. *)
Record ext4_dir_iter := DirIter { curr_blk : ext4_block; curr_off : Z; curr : option Z }.

Definition no_block (b : ext4_block) : ext4_block := Blk 0 (b_buf b).

Section directories.
Context `{Device} `{Literals}.
#[local] Notation sb := fs_sb.

(** ** The iterator *)

(** [if (it->curr_blk.lb_id)]: the block is released; the status and the block. *)
Definition leave_block (b : ext4_block) : F (Z * ext4_block) :=
  if negb (lb_id b =? 0) then '(r, b) ← put_block b; mret (r, no_block b) else mret (EOK, b).

Definition ext4_dir_iterator_seek (it : ext4_dir_iter) (pos : Z) : F (Z * ext4_dir_iter) :=
  r ← inode_ref;
  m ← see;
  let size := ext4_inode_get_size m sb (ir_inode r) in
  let it := DirIter (curr_blk it) (curr_off it) None in
  if size <=? pos then
    '(r, b) ← leave_block (curr_blk it);
    if negb (r =? EOK) then mret (r, DirIter b (curr_off it) None)
    else mret (EOK, DirIter b pos None)
  else
    let block_size := ext4_sb_get_block_size m sb in
    let current_blk_idx := curr_off it / block_size in
    let next_blk_idx := u32 (pos / block_size) in
    '(r, it) ←
      (if (lb_id (curr_blk it) =? 0) || negb (current_blk_idx =? next_blk_idx) then
         '(r, b) ← leave_block (curr_blk it);
         let it := DirIter b (curr_off it) None in
         if negb (r =? EOK) then mret (r, it)
         else
           '(r, next_blk) ← ext4_fs_get_inode_dblk_idx next_blk_idx false;
           if negb (r =? EOK) then mret (r, it)
           else
             '(r, b) ← up (get_into true b next_blk);
             mret (r, DirIter (if negb (r =? EOK) then no_block b else b) (curr_off it) None)
       else mret (EOK, it));
    if negb (r =? EOK) then mret (r, it)
    else
      m ← see;
      let '(r, curr) := ext4_dir_iterator_set m sb (block_data (curr_blk it)) pos block_size in
      mret (r, DirIter (curr_blk it) pos curr).

Definition ext4_dir_iterator_init (pos : Z) : F (Z * ext4_dir_iter) :=
  ext4_dir_iterator_seek (DirIter EXT4_BLOCK_ZERO 0 None) pos.

(** [fuel] counts the records. *)
Fixpoint ext4_dir_iterator_next (fuel : nat) (it : ext4_dir_iter) : F (Z * ext4_dir_iter) :=
  match fuel with
  | O => crash
  | S fuel =>
      de ← need (curr it);
      m ← see;
      let skip := ext4_dir_en_get_entry_len m de in
      '(r, it) ← ext4_dir_iterator_seek it (u64 (curr_off it + skip));
      match curr it with
      | None => mret (r, it)
      | Some de =>
          m ← see;
          if negb (ext4_dir_en_get_inode m de =? 0) then mret (r, it)
          else if r =? EOK then ext4_dir_iterator_next fuel it
          else mret (r, it)
      end
  end.

Definition ext4_dir_iterator_fini (it : ext4_dir_iter) : F (Z * ext4_dir_iter) :=
  if negb (lb_id (curr_blk it) =? 0) then
    '(r, b) ← put_block (curr_blk it);
    mret (r, DirIter b (curr_off it) None)
  else mret (EOK, DirIter (curr_blk it) (curr_off it) None).

(** ** Entries *)

(** The directory is indexed. *)
Definition indexed (m : memory) (ino : Z) : bool :=
  ext4_sb_feature_com m sb EXT4_FCOM_DIR_INDEX && ext4_inode_has_flag m ino EXT4_INODE_FLAG_INDEX.

(** A damaged index is given up. *)
Definition drop_index : F unit :=
  r ← inode_ref;
  write (fun m => ext4_inode_clear_flag m (ir_inode r) EXT4_INODE_FLAG_INDEX);;
  touch.

(** [for (iblock = 0; iblock < total_blocks; ++iblock)] of [ext4_dir_add_entry];
    no status if no block has room. *)
Fixpoint add_loop (n : nat) (iblock cindex child name name_len : Z) : F (option Z) :=
  match n with
  | O => mret None
  | S n =>
      '(r, fblock) ← ext4_fs_get_inode_dblk_idx iblock false;
      if negb (r =? EOK) then mret (Some r)
      else
        '(r, block) ← take_block true fblock;
        if negb (r =? EOK) then mret (Some r)
        else
          success ← try_insert_entry block cindex child name name_len;
          '(r, _) ← put_block block;
          if negb (r =? EOK) then mret (Some r)
          else if success =? EOK then mret (Some EOK)
          else add_loop n (iblock + 1) cindex child name name_len
  end.

(** The block is emptied and gets the entry. *)
Definition fill_block (b : ext4_block) (cindex child name name_len : Z) : F unit :=
  m ← see;
  let block_size := ext4_sb_get_block_size m sb in
  let blk_en := block_data b in
  write (fun m => memset m blk_en 0 block_size);;
  (if ext4_sb_feature_ro_com m sb EXT4_FRO_COM_METADATA_CSUM then
     write_entry blk_en (u16 (block_size - sizeof_tail)) cindex child name name_len;;
     write (fun m => ext4_dir_init_entry_tail m (EXT4_DIRENT_TAIL blk_en block_size))
   else write_entry blk_en (u16 block_size) cindex child name name_len);;
  set_csum b;;
  mark b.

(** A new block with the entry and nothing else. *)
Definition add_block (cindex child name name_len : Z) : F Z :=
  '(r, fblock, _) ← ext4_fs_append_inode_dblk;
  if negb (r =? EOK) then mret r
  else
    '(r, b) ← take_block false fblock;
    if negb (r =? EOK) then mret r
    else
      fill_block b cindex child name name_len;;
      '(r, _) ← put_block b;
      mret r.

Definition total_blocks (m : memory) (ino : Z) : Z :=
  u32 (ext4_inode_get_size m sb ino / ext4_sb_get_block_size m sb).

(** The entry is for inode number [cindex], whose inode is at [child]. *)
Definition ext4_dir_add_entry (name name_len cindex child : Z) : F Z :=
  parent ← inode_ref;
  m ← see;
  r ←
    (if indexed m (ir_inode parent) then
       r ← ext4_dir_dx_add_entry cindex child name name_len;
       if negb (r =? EXT4_ERR_BAD_DX_DIR) then mret (Some r) else drop_index;; mret None
     else mret None);
  match r with
  | Some r => mret r
  | None =>
      m ← see;
      r ← add_loop (Z.to_nat (total_blocks m (ir_inode parent))) 0 cindex child name name_len;
      match r with
      | Some r => mret r
      | None => add_block cindex child name name_len
      end
  end.

(** [struct ext4_dir_search_result] *)
Record ext4_dir_search_result := Found { sr_block : ext4_block; sr_dentry : option Z }.
Definition nothing : ext4_dir_search_result := Found EXT4_BLOCK_ZERO None.

Fixpoint search_blocks (n : nat) (iblock name name_len : Z) : F (Z * ext4_dir_search_result) :=
  match n with
  | O => mret (ENOENT, nothing)
  | S n =>
      '(r, fblock) ← ext4_fs_get_inode_dblk_idx iblock false;
      if negb (r =? EOK) then mret (r, nothing)
      else
        '(r, b) ← take_block true fblock;
        if negb (r =? EOK) then mret (r, nothing)
        else
          '(r, res_entry) ← find_in_block b name_len name;
          if r =? EOK then mret (EOK, Found b (Some res_entry))
          else
            '(r, _) ← put_block b;
            if negb (r =? EOK) then mret (r, nothing) else search_blocks n (iblock + 1) name name_len
  end.

(** [fuel] counts the blocks that an index leads to. *)
Definition ext4_dir_find_entry (fuel : nat) (name name_len : Z) : F (Z * ext4_dir_search_result) :=
  parent ← inode_ref;
  m ← see;
  r ←
    (if indexed m (ir_inode parent) then
       '(r, result) ← ext4_dir_dx_find_entry fuel name_len name;
       if negb (r =? EXT4_ERR_BAD_DX_DIR) then
         mret (Some (r, match result with Some (b, de) => Found b (Some de) | None => nothing end))
       else drop_index;; mret None
     else mret None);
  match r with
  | Some r => mret r
  | None =>
      m ← see;
      search_blocks (Z.to_nat (total_blocks m (ir_inode parent))) 0 name name_len
  end.

Definition ext4_dir_destroy_result (result : ext4_dir_search_result) : F Z :=
  if negb (lb_id (sr_block result) =? 0) then '(r, _) ← put_block (sr_block result); mret r else mret EOK.

Definition ext4_dir_remove_entry (fuel : nat) (name name_len : Z) : F Z :=
  parent ← inode_ref;
  m ← see;
  if negb (ext4_inode_is_type m sb (ir_inode parent) EXT4_INODE_MODE_DIRECTORY) then mret ENOTDIR
  else
    '(rc, result) ← ext4_dir_find_entry fuel name name_len;
    if negb (rc =? EOK) then mret rc
    else
      dentry ← need (sr_dentry result);
      m ← see;
      m' ← need (remove_found (dir_fuel m) m sb (ir_index parent) (ir_inode parent) (block_data (sr_block result)) dentry);
      write (fun _ => m');;
      mark (sr_block result);;
      ext4_dir_destroy_result result.
End directories.
