(* ===== verification/RustInode.v ===== *)
(** lwext4_rust, inodes: the Rust code through which the kernel calls lwext4,
    [src/inode] of the crate.

    A method of [InodeRef] is a function of [F], whose reference is [self].  A panic,
    also that of an arithmetic overflow, stops the model.  Strings are given by
    their address and length, [Ext4Error] by its code. *)
From S2P Require Import Prelude Memory Ext4Errno Ext4Layout Ext4Super Ext4BlockGroup Ext4Dir Ext4Inode.
From S2P Require Import Ext4Store Ext4Fs Ext4Balloc Ext4File Ext4FsInode Ext4DirIdx Ext4DirOps.
#[local] Open Scope Z_scope.
#[local] Open Scope cint_scope.

(** [Result<T, Ext4Error>] *)
Inductive result (A : Type) := Ok (x : A) | Err (code : Z).
Arguments Ok {A} x.
Arguments Err {A} code.

(** ** Types of inodes, [mod.rs] *)

Inductive InodeType := Unknown | Fifo | CharacterDevice | Directory | BlockDevice | RegularFile | Symlink | Socket.

#[global] Instance InodeType_eq : EqDecision InodeType.
Proof. solve_decision. Defined.

Definition inode_type_from (value : Z) : InodeType :=
  match value with
  | 1 => Fifo
  | 2 => CharacterDevice
  | 4 => Directory
  | 6 => BlockDevice
  | 8 => RegularFile
  | 10 => Symlink
  | 12 => Socket
  | _ => Unknown
  end.

(** ** Times, [attr.rs] *)

(** [core::time::Duration]; [duration_new] is [Duration::new]. *)
Record Duration := Dur { as_secs : Z; subsec_nanos : Z }.
Definition duration_new (secs nanos : Z) : Duration := Dur (secs + nanos / 1000000000) (nanos mod 1000000000).

Definition encode_time (dur : Duration) : Z * Z :=
  let sec := as_secs dur in
  let nsec := subsec_nanos dur in
  let time := u32 sec in
  let extra := u32 (nsec .<< 2) .| u32 (sec .>> 32) in
  (time, extra).

Definition decode_time (time extra : Z) : Duration :=
  let epoch := extra .& 3 in
  let nsec := extra .>> 2 in
  duration_new (time + (epoch .<< 32)) nsec.

(** [struct FileAttr]; the device is always 0. *)
Record FileAttr := Attr {
  at_ino : Z; at_nlink : Z; at_mode : Z; at_type : InodeType; at_uid : Z; at_gid : Z; at_size : Z; at_block_size : Z; at_blocks : Z;
  at_atime : Duration; at_mtime : Duration; at_ctime : Duration;
}.

Module InodeRef.
Section inodes.
Context `{Device}.
#[local] Notation sb := fs_sb.

Definition get_block_size (m : memory) : Z := u32 (1024 .<< (fget sb_log_block_size m sb)).

(** ** Fields, [attr.rs] and [mod.rs] *)

Definition mode (m : memory) (ino : Z) : Z := ext4_inode_get_mode m sb ino.
Definition inode_type (m : memory) (ino : Z) : InodeType := inode_type_from (u8 (mode m ino .>> 12)).
Definition is_dir (m : memory) (ino : Z) : bool := bool_decide (inode_type m ino = Directory).
Definition nlink (m : memory) (ino : Z) : Z := fget ino_links_count m ino.

(** A change of the inode, after which it is marked. *)
Definition change_inode (f : Z -> memory -> memory) : F unit :=
  r ← inode_ref; write (f (ir_inode r));; touch.

Definition set_mode (v : Z) : F unit := change_inode (fun ino m => ext4_inode_set_mode m sb ino v).
Definition set_nlink (v : Z) : F unit := change_inode (fun ino m => fset ino_links_count m ino v).
Definition set_owner (uid gid : Z) : F unit := change_inode (fun ino m => fset ino_gid (fset ino_uid m ino uid) ino gid).

Definition inc_nlink : F unit := change_inode (fun ino m => ext4_fs_inode_links_count_inc m sb ino).
Definition dec_nlink : F unit :=
  r ← inode_ref;
  m ← see;
  let n := nlink m (ir_inode r) in
  if n =? 0 then crash else set_nlink (n - 1).

Definition set_atime (dur : Duration) : F unit := change_inode (fun ino m =>
  let '(time, extra) := encode_time dur in fset ino_atime_extra (fset ino_access_time m ino time) ino extra).
Definition set_mtime (dur : Duration) : F unit := change_inode (fun ino m =>
  let '(time, extra) := encode_time dur in fset ino_mtime_extra (fset ino_modification_time m ino time) ino extra).
Definition set_ctime (dur : Duration) : F unit := change_inode (fun ino m =>
  let '(time, extra) := encode_time dur in fset ino_ctime_extra (fset ino_change_inode_time m ino time) ino extra).

Definition get_attr : F FileAttr :=
  r ← inode_ref;
  m ← see;
  let ino := ir_inode r in
  mret {|
    at_ino := ir_index r;
    at_nlink := nlink m ino;
    at_mode := mode m ino;
    at_type := inode_type m ino;
    at_uid := fget ino_uid m ino;
    at_gid := fget ino_gid m ino;
    at_size := ext4_inode_get_size m sb ino;
    at_block_size := get_block_size m;
    at_blocks := ext4_inode_get_blocks_count m sb ino;
    at_atime := decode_time (fget ino_access_time m ino) (fget ino_atime_extra m ino);
    at_mtime := decode_time (fget ino_modification_time m ino) (fget ino_mtime_extra m ino);
    at_ctime := decode_time (fget ino_change_inode_time m ino) (fget ino_ctime_extra m ino);
  |}.

(** ** Directories, [dir.rs] *)

(** [RawDirEntry::name] and [ino] of the entry at [de]. *)
Definition entry_name (m : memory) (de : Z) : list Z :=
  let name_len := fget de_name_len m de in
  let rev := fget sb_rev_level m sb in
  let minor := fget sb_minor_rev_level m sb in
  let name_len := if (rev =? 0) && (minor <? 5) then name_len .| (fget de_in m de .<< 8) else name_len in
  bytes_of m (de + sizeof_fake) (Z.to_nat name_len).
Definition entry_ino (m : memory) (de : Z) : Z := fget de_inode m de.
Definition set_entry_ino (m : memory) (de ino : Z) : memory := fset de_inode m de ino.

(** [InodeRef::read_dir]; the reader is the iterator. *)
Definition read_dir (offset : Z) : F (result ext4_dir_iter) :=
  '(rc, iter) ← ext4_dir_iterator_init offset;
  mret (if rc =? EOK then Ok iter else Err rc).

(** [DirReader::step] and its [drop]; [fuel] counts the records. *)
Definition step (fuel : nat) (it : ext4_dir_iter) : F (result unit * ext4_dir_iter) :=
  match curr it with
  | None => mret (Ok tt, it)
  | Some _ =>
      '(rc, it) ← ext4_dir_iterator_next fuel it;
      mret (if rc =? EOK then Ok tt else Err rc, it)
  end.
Definition drop_reader (it : ext4_dir_iter) : F unit := '(_, _) ← ext4_dir_iterator_fini it; mret tt.

(** [InodeRef::lookup] *)
Definition lookup (fuel : nat) (name name_len : Z) : F (result ext4_dir_search_result) :=
  '(rc, res) ← ext4_dir_find_entry fuel name name_len;
  mret (if rc =? EOK then Ok res else Err rc).

(** [while let Some(curr) = reader.current()] of [has_children]. *)
Fixpoint children_loop (fuel : nat) (it : ext4_dir_iter) : F (result bool * ext4_dir_iter) :=
  match fuel with
  | O => crash
  | S fuel' =>
      match curr it with
      | None => mret (Ok false, it)
      | Some de =>
          m ← see;
          let name := entry_name m de in
          if negb (bool_decide (name = [46])) && negb (bool_decide (name = [46; 46])) then mret (Ok true, it)
          else
            '(out, it) ← step fuel it;
            match out with
            | Err rc => mret (Err rc, it)
            | Ok _ => children_loop fuel' it
            end
      end
  end.

Definition has_children (fuel : nat) : F (result bool) :=
  r ← inode_ref;
  m ← see;
  if negb (bool_decide (inode_type m (ir_inode r) = Directory)) then mret (Ok false)
  else
    reader ← read_dir 0;
    match reader with
    | Err rc => mret (Err rc)
    | Ok it =>
        '(out, it) ← children_loop fuel it;
        drop_reader it;;
        mret out
    end.

(** [InodeRef::add_entry] and [remove_entry] for the inode of [entry]. *)
Definition add_entry (name name_len : Z) (entry : ext4_inode_ref) : F (result unit * ext4_inode_ref) :=
  rc ← ext4_dir_add_entry name name_len (ir_index entry) (ir_inode entry);
  if negb (rc =? EOK) then mret (Err rc, entry)
  else '(_, entry) ← up (inc_nlink entry); mret (Ok tt, entry).

Definition remove_entry (fuel : nat) (name name_len : Z) (entry : ext4_inode_ref) : F (result unit * ext4_inode_ref) :=
  rc ← ext4_dir_remove_entry fuel name name_len;
  if negb (rc =? EOK) then mret (Err rc, entry)
  else '(_, entry) ← up (dec_nlink entry); mret (Ok tt, entry).
End inodes.
End InodeRef.
