(* ===== verification/RustFs.v ===== *)
(** lwext4_rust, the file system: [src/fs.rs] of the crate, the operations that the
    kernel calls.

    A reference that goes out of scope is released ([drop_ref]), in the reverse order
    of the declarations; a temporary at the end of its statement.  The number of a
    clone of a reference is the same, its mark is its own.  [now] is the time that
    [Hal::now] tells.  The guard for writing back changes when blocks are written and
    is left out, as are the contents of files. *)
From S2P Require Import Prelude Memory Ext4Errno Ext4Layout Ext4Super Ext4BlockGroup Ext4Dir Ext4Inode.
From S2P Require Import Ext4Store Ext4Fs Ext4Balloc Ext4Ialloc Ext4File Ext4FsInode Ext4DirIdx Ext4DirOps RustInode.
#[local] Open Scope Z_scope.
#[local] Open Scope cint_scope.

(** [struct StatFs] *)
Record StatFs := Stat { inodes_count : Z; free_inodes_count : Z; blocks_count : Z; free_blocks_count : Z; block_size : Z }.

(** The code of [EXT4_DE_*] for a type. *)
Definition de_of (ty : InodeType) : filetype :=
  match ty with
  | Fifo => EXT4_DE_FIFO
  | CharacterDevice => EXT4_DE_CHRDEV
  | Directory => EXT4_DE_DIR
  | BlockDevice => EXT4_DE_BLKDEV
  | RegularFile => EXT4_DE_REG_FILE
  | Symlink => EXT4_DE_SYMLINK
  | Socket => EXT4_DE_SOCK
  | Unknown => EXT4_DE_UNKNOWN
  end.

Module Ext4Filesystem.
Section operations.
Context `{Device} `{Literals} (now : Duration).
#[local] Notation sb := fs_sb.

(** [mem::zeroed()] *)
Definition zeroed : ext4_inode_ref := InodeRef 0 0 0 false.

(** The [drop] of [InodeRef] panics if it fails. *)
Definition drop_ref (r : ext4_inode_ref) : M unit :=
  rc ← ext4_fs_put_inode_ref r;
  if rc =? EOK then mret tt else stuck.

(** A reference that cannot be got is dropped as it is, with a null pointer to the
    file system. *)
Definition inode_ref (ino : Z) : M ext4_inode_ref :=
  '(rc, r) ← ext4_fs_get_inode_ref ino zeroed;
  if rc =? EOK then mret r else stuck.
Definition clone_ref (r : ext4_inode_ref) : M ext4_inode_ref := inode_ref (ir_index r).

(** [fuel] counts the groups. *)
Definition alloc_inode (fuel : nat) (ty : InodeType) : M ext4_inode_ref :=
  '(rc, r) ← ext4_fs_alloc_inode fuel 0 zeroed (de_of ty);
  if rc =? EOK then '(_, r) ← ext4_fs_inode_blocks_init r; mret r else stuck.

(** [with_inode_ref] *)
Definition with_inode_ref {A} (ino : Z) (f : F A) : M A :=
  r ← inode_ref ino;
  '(out, r) ← f r;
  drop_ref r;;
  mret out.

Definition get_attr (ino : Z) : M FileAttr := with_inode_ref ino InodeRef.get_attr.

(** A found entry goes out of scope: its block, then the reference to the directory. *)
Definition drop_lookup (res : ext4_dir_search_result) (r : ext4_inode_ref) : M unit :=
  '(_, r) ← ext4_dir_destroy_result res r;
  drop_ref r.

(** [r.lookup(name)?.entry().ino()] for a reference that is given away. *)
Definition lookup_ino (fuel : nat) (name name_len : Z) (r : ext4_inode_ref) : M (result Z) :=
  '(found, r) ← InodeRef.lookup fuel name name_len r;
  match found with
  | Err c => drop_ref r;; mret (Err c)
  | Ok res =>
      de ← lift (sr_dentry res);
      m ← look;
      drop_lookup res r;;
      mret (Ok (InodeRef.entry_ino m de))
  end.

(** [self.lookup(parent, name)?.entry().ino()] *)
Definition lookup (fuel : nat) (parent name name_len : Z) : M (result Z) :=
  r ← inode_ref parent;
  '(_, r) ← InodeRef.set_atime now r;
  lookup_ino fuel name name_len r.

(** The entries [.] and [..] of a new directory. *)
Definition dot_entries (child parent : ext4_inode_ref) : M (result unit * ext4_inode_ref * ext4_inode_ref) :=
  clone ← clone_ref child;
  '((out, clone), child) ← InodeRef.add_entry lit_dot 1 clone child;
  drop_ref clone;;
  match out with
  | Err c => mret (Err c, child, parent)
  | Ok _ =>
      '((out, parent), child) ← InodeRef.add_entry lit_dotdot 2 parent child;
      match out with
      | Err c => mret (Err c, child, parent)
      | Ok _ =>
          m ← look;
          if InodeRef.nlink m (ir_inode child) =? 2 then mret (Ok tt, child, parent) else stuck
      end
  end.

Definition create (fuel : nat) (parent name name_len : Z) (ty : InodeType) (mode : Z) : M (result Z) :=
  child ← alloc_inode fuel ty;
  parent ← inode_ref parent;
  '((out, child), parent) ← InodeRef.add_entry name name_len child parent;
  '(out, child, parent) ←
    (match out with
     | Err c => mret (Err c, child, parent)
     | Ok _ => if bool_decide (ty = Directory) then dot_entries child parent else mret (Ok tt, child, parent)
     end);
  match out with
  | Err c => drop_ref parent;; drop_ref child;; mret (Err c)
  | Ok _ =>
      m ← look;
      '(_, child) ← InodeRef.set_mode ((InodeRef.mode m (ir_inode child) .& u32 (Z.lnot 0x1FF)) .| (mode .& 0x1FF)) child;
      '(_, parent) ← InodeRef.set_mtime now parent;
      '(_, parent) ← InodeRef.set_ctime now parent;
      '(_, child) ← InodeRef.set_atime now child;
      '(_, child) ← InodeRef.set_mtime now child;
      '(_, child) ← InodeRef.set_ctime now child;
      let ino := ir_index child in
      drop_ref parent;; drop_ref child;; mret (Ok ino)
  end.

Definition link (dir name name_len child : Z) : M (result unit) :=
  child_ref ← inode_ref child;
  m ← look;
  if InodeRef.is_dir m (ir_inode child_ref) then drop_ref child_ref;; mret (Err EISDIR)
  else
    r ← inode_ref dir;
    '((out, child_ref), r) ← InodeRef.add_entry name name_len child_ref r;
    drop_ref r;; drop_ref child_ref;; mret out.

(** The end of [unlink], from [if child_ref.is_dir()] on. *)
Definition last_link (fuel : nat) (dir_ref child_ref : ext4_inode_ref) : M (result unit * ext4_inode_ref * ext4_inode_ref) :=
  m ← look;
  '(dir_ref, child_ref) ←
    (if InodeRef.is_dir m (ir_inode child_ref) then
       '(_, dir_ref) ← InodeRef.dec_nlink dir_ref;
       '(_, child_ref) ← InodeRef.dec_nlink child_ref;
       mret (dir_ref, child_ref)
     else mret (dir_ref, child_ref));
  m ← look;
  if InodeRef.nlink m (ir_inode child_ref) =? 0 then
    '(rc, child_ref) ← ext4_fs_truncate_inode fuel 0 child_ref;
    if negb (rc =? EOK) then mret (Err rc, dir_ref, child_ref)
    else
      update (fun m => ext4_inode_set_del_time m (ir_inode child_ref) (2 ^ 32 - 1));;
      '(_, child_ref) ← ext4_fs_free_inode (dirty_inode child_ref);
      mret (Ok tt, dir_ref, child_ref)
  else mret (Ok tt, dir_ref, child_ref).

Definition unlink (fuel : nat) (dir name name_len : Z) : M (result unit) :=
  dir_ref ← inode_ref dir;
  clone ← clone_ref dir_ref;
  found ← lookup_ino fuel name name_len clone;
  match found with
  | Err c => drop_ref dir_ref;; mret (Err c)
  | Ok child =>
      child_ref ← inode_ref child;
      clone ← clone_ref child_ref;
      '(children, clone) ← InodeRef.has_children fuel clone;
      drop_ref clone;;
      '(out, dir_ref, child_ref) ←
        (match children with
         | Err c => mret (Err c, dir_ref, child_ref)
         | Ok true => mret (Err ENOTEMPTY, dir_ref, child_ref)
         | Ok false =>
             m ← look;
             '(rc, child_ref) ←
               (if bool_decide (InodeRef.inode_type m (ir_inode child_ref) = Directory)
                then ext4_fs_truncate_inode fuel (InodeRef.get_block_size m) child_ref else mret (EOK, child_ref));
             if negb (rc =? EOK) then mret (Err rc, dir_ref, child_ref)
             else
               '((out, child_ref), dir_ref) ← InodeRef.remove_entry fuel name name_len child_ref dir_ref;
               match out with
               | Err c => mret (Err c, dir_ref, child_ref)
               | Ok _ => last_link fuel dir_ref child_ref
               end
         end);
      drop_ref child_ref;; drop_ref dir_ref;; mret out
  end.

(** [if src_ref.is_dir()] of [rename]: the entry [..] is changed in its buffer. *)
Definition reparent (fuel : nat) (src_ref src_dir_ref dst_dir_ref : ext4_inode_ref) (dst_dir : Z)
    : M (result unit * ext4_inode_ref * ext4_inode_ref) :=
  m ← look;
  if InodeRef.is_dir m (ir_inode src_ref) then
    clone ← clone_ref src_ref;
    '(found, clone) ← InodeRef.lookup fuel lit_dotdot 2 clone;
    match found with
    | Err c => drop_ref clone;; mret (Err c, src_dir_ref, dst_dir_ref)
    | Ok res =>
        de ← lift (sr_dentry res);
        update (fun m => InodeRef.set_entry_ino m de dst_dir);;
        '(_, src_dir_ref) ← InodeRef.dec_nlink src_dir_ref;
        '(_, dst_dir_ref) ← InodeRef.inc_nlink dst_dir_ref;
        drop_lookup res clone;;
        mret (Ok tt, src_dir_ref, dst_dir_ref)
    end
  else mret (Ok tt, src_dir_ref, dst_dir_ref).

(** The end of [rename], once the inode number of the entry is known. *)
Definition move_entry (fuel : nat) (src src_name src_len dst_dir dst_name dst_len : Z) (src_dir_ref dst_dir_ref : ext4_inode_ref)
    : M (result unit * ext4_inode_ref * ext4_inode_ref) :=
  src_ref ← inode_ref src;
  '(out, src_dir_ref, dst_dir_ref) ← reparent fuel src_ref src_dir_ref dst_dir_ref dst_dir;
  match out with
  | Err c => drop_ref src_ref;; mret (Err c, src_dir_ref, dst_dir_ref)
  | Ok _ =>
      '((out, src_ref), src_dir_ref) ← InodeRef.remove_entry fuel src_name src_len src_ref src_dir_ref;
      match out with
      | Err c => drop_ref src_ref;; mret (Err c, src_dir_ref, dst_dir_ref)
      | Ok _ =>
          '((out, src_ref), dst_dir_ref) ← InodeRef.add_entry dst_name dst_len src_ref dst_dir_ref;
          match out with
          | Err c => drop_ref src_ref;; mret (Err c, src_dir_ref, dst_dir_ref)
          | Ok _ =>
              '(_, src_dir_ref) ← InodeRef.set_mtime now src_dir_ref;
              '(_, src_dir_ref) ← InodeRef.set_ctime now src_dir_ref;
              '(_, dst_dir_ref) ← InodeRef.set_mtime now dst_dir_ref;
              '(_, dst_dir_ref) ← InodeRef.set_ctime now dst_dir_ref;
              '(_, src_ref) ← InodeRef.set_ctime now src_ref;
              drop_ref src_ref;; mret (Ok tt, src_dir_ref, dst_dir_ref)
          end
      end
  end.

Definition rename (fuel : nat) (src_dir src_name src_len dst_dir dst_name dst_len : Z) : M (result unit) :=
  src_dir_ref ← inode_ref src_dir;
  dst_dir_ref ← inode_ref dst_dir;
  gone ← unlink fuel dst_dir dst_name dst_len;
  '(out, src_dir_ref, dst_dir_ref) ←
    (match gone with
     | Err c => if c =? ENOENT then mret (Ok tt, src_dir_ref, dst_dir_ref) else mret (Err c, src_dir_ref, dst_dir_ref)
     | Ok _ => mret (Ok tt, src_dir_ref, dst_dir_ref)
     end);
  '(out, src_dir_ref, dst_dir_ref) ←
    (match out with
     | Err c => mret (Err c, src_dir_ref, dst_dir_ref)
     | Ok _ =>
         found ← lookup fuel src_dir src_name src_len;
         match found with
         | Err c => mret (Err c, src_dir_ref, dst_dir_ref)
         | Ok src => move_entry fuel src src_name src_len dst_dir dst_name dst_len src_dir_ref dst_dir_ref
         end
     end);
  drop_ref dst_dir_ref;; drop_ref src_dir_ref;; mret out.

Definition stat (m : memory) : StatFs :=
  {| inodes_count := fget sb_inodes_count m sb;
     free_inodes_count := fget sb_free_inodes_count m sb;
     blocks_count := u64 (fget sb_blocks_count_hi m sb .<< 32) .| fget sb_blocks_count_lo m sb;
     free_blocks_count := u64 (fget sb_free_blocks_count_hi m sb .<< 32) .| fget sb_free_blocks_count_lo m sb;
     block_size := InodeRef.get_block_size m |}.
End operations.
End Ext4Filesystem.
