(* ===== verification/Ext4Mount.v ===== *)
(** lwext4, mounting: [ext4_sb_read] and [ext4_sb_write] of [src/ext4_super.c],
    [ext4_fs_check_features], [ext4_fs_init] and [ext4_fs_fini] of
    [src/ext4_fs.c], on the byte access of [Ext4BlockIo]. *)
From S2P Require Import Prelude Memory Ext4Errno Ext4Crc Ext4Layout Ext4Super Ext4Groups Ext4Bcache Ext4BlockIo Ext4FsInode.
#[local] Open Scope Z_scope.
#[local] Open Scope cint_scope.
#[local] Opaque ext4_crc32c.

(** ** Model *)

Definition EXT4_MAX_BLOCK_SIZE : Z := 65536.
Definition EXT4_SUPERBLOCK_STATE_VALID_FS : Z := 0x0001.
Definition EXT4_SUPERBLOCK_STATE_ERROR_FS : Z := 0x0002.
(** FILETYPE, META_BG, EXTENTS, FLEX_BG and 64BIT, with RECOVER and MMP, which are
    ignored. *)
Definition CONFIG_SUPPORTED_FINCOM : Z := 0x0002 .| 0x0010 .| 0x0040 .| 0x0200 .| 0x0080 .| (0x0004 .| 0x0100).
(** SPARSE_SUPER, METADATA_CSUM, LARGE_FILE, GDT_CSUM, DIR_NLINK, EXTRA_ISIZE and
    HUGE_FILE. *)
Definition CONFIG_SUPPORTED_FRO_COM : Z := 0x0001 .| 0x0400 .| 0x0002 .| 0x0010 .| 0x0020 .| 0x0040 .| 0x0008.

(** The status and [*read_only]. *)
Definition ext4_fs_check_features (m : memory) (s : Z) (read_only : bool) : Z * bool :=
  if fget sb_rev_level m s =? 0 then (EOK, false)
  else if c_true (fget sb_features_incompatible m s .& Z.lnot CONFIG_SUPPORTED_FINCOM) then (ENOTSUP, read_only)
  else if c_true (fget sb_features_read_only m s .& Z.lnot CONFIG_SUPPORTED_FRO_COM) then (EOK, true)
  else (EOK, false).

(** Bytes that are put into memory. *)
Definition put_bytes (m : memory) (a : Z) (l : list Z) : memory := fun x =>
  if (a <=? x) && (x <? a + Z.of_nat (length l)) then nth (Z.to_nat (x - a)) l 0 else m x.

Section mount.
Context {D : Type} `{BlockIface D}.

(** [struct ext4_fs] without what is in [Ext4Store]: the device, the memory with
    the superblock at [fs_sblock] and the two results of [ext4_fs_init]. *)
Record fs_inst := FsInst {
  fs_bdev : ext4_blockdev (D := D);
  fs_mem : memory;
  fs_sblock : Z;
  fs_read_only : bool;
  fs_limits : list (Z * Z);
}.
Implicit Types f : fs_inst.

Definition with_mem f (m : memory) : fs_inst := FsInst (fs_bdev f) m (fs_sblock f) (fs_read_only f) (fs_limits f).
Definition with_ro f (b : bool) : fs_inst := FsInst (fs_bdev f) (fs_mem f) (fs_sblock f) b (fs_limits f).
Definition with_limits f (l : list (Z * Z)) : fs_inst := FsInst (fs_bdev f) (fs_mem f) (fs_sblock f) (fs_read_only f) l.

Definition ext4_sb_write f : Z * fs_inst :=
  let m := ext4_sb_set_csum (fs_mem f) (fs_sblock f) in
  let '(r, bdev) := ext4_block_writebytes (fs_bdev f) EXT4_SUPERBLOCK_OFFSET
    (bytes_of m (fs_sblock f) (Z.to_nat EXT4_SUPERBLOCK_SIZE)) EXT4_SUPERBLOCK_SIZE in
  (r, FsInst bdev m (fs_sblock f) (fs_read_only f) (fs_limits f)).

(** A read that fails has put the bytes before the failure. *)
Definition ext4_sb_read f : Z * fs_inst :=
  let '(r, l, bdev) := ext4_block_readbytes (fs_bdev f) EXT4_SUPERBLOCK_OFFSET EXT4_SUPERBLOCK_SIZE in
  (r, FsInst bdev (put_bytes (fs_mem f) (fs_sblock f) l) (fs_sblock f) (fs_read_only f) (fs_limits f)).

Definition ext4_fs_init f (read_only : bool) : Z * fs_inst :=
  let f := with_ro f read_only in
  let '(r, f) := ext4_sb_read f in
  if negb (r =? EOK) then (r, f)
  else if negb (ext4_sb_check (fs_mem f) (fs_sblock f)) then (ENOTSUP, f)
  else
    let bsize := ext4_sb_get_block_size (fs_mem f) (fs_sblock f) in
    if EXT4_MAX_BLOCK_SIZE <? bsize then (ENXIO, f)
    else
      let '(r, read_only) := ext4_fs_check_features (fs_mem f) (fs_sblock f) read_only in
      if negb (r =? EOK) then (r, f)
      else
        let f := if read_only then with_ro f read_only else f in
        let f := with_limits f (init_limits bsize) in
        if negb (fs_read_only f) then
          let f := with_mem f (fset sb_state (fs_mem f) (fs_sblock f) EXT4_SUPERBLOCK_STATE_ERROR_FS) in
          let '(r, f) := ext4_sb_write f in
          if negb (r =? EOK) then (r, f)
          else (r, with_mem f (fset sb_mount_count (fs_mem f) (fs_sblock f) (fget sb_mount_count (fs_mem f) (fs_sblock f) + 1)))
        else (r, f).

Definition ext4_fs_fini f : Z * fs_inst :=
  let f := with_mem f (fset sb_state (fs_mem f) (fs_sblock f) EXT4_SUPERBLOCK_STATE_VALID_FS) in
  if negb (fs_read_only f) then ext4_sb_write f else (EOK, f).
End mount.

(** ** The bytes of the superblock *)

Lemma put_bytes_ld8 m a l k : Forall (fun b => 0 <= b < 256) l -> (k < length l)%nat -> l !! k = Some (ld8 (put_bytes m a l) (a + Z.of_nat k)).
Proof.
  intros Hb Hk. unfold ld8, put_bytes. rewrite (proj2 (Z.leb_le _ _)), (proj2 (Z.ltb_lt _ _)) by lia. cbn [andb].
  replace (Z.to_nat (a + Z.of_nat k - a)) with k by lia. destruct (lookup_lt_is_Some_2 l k Hk) as [v Hv]. rewrite (nth_lookup_Some _ _ _ _ Hv).
  rewrite Forall_forall in Hb. pose proof (Hb v (list_elem_of_lookup_2 _ _ _ Hv)). rewrite Hv. f_equal. symmetry. apply uw_small. lia.
Qed.

Lemma put_bytes_of m a l : Forall (fun b => 0 <= b < 256) l -> bytes_of (put_bytes m a l) a (length l) = l.
Proof.
  intros Hb. apply list_eq. intros k. unfold bytes_of. rewrite list_lookup_fmap. destruct (decide (k < length l)%nat) as [Hk|Hk].
  - rewrite lookup_seq_lt by done. cbn. by rewrite <- put_bytes_ld8.
  - rewrite lookup_seq_ge, lookup_ge_None_2 by lia. done.
Qed.

(** Equal bytes read alike. *)
Lemma bytes_of_ld8 m m' a a' n k : bytes_of m' a' n = bytes_of m a n -> 0 <= k < Z.of_nat n -> ld8 m' (a' + k) = ld8 m (a + k).
Proof.
  intros E Hk. pose proof (f_equal (fun l => l !! Z.to_nat k) E) as Ek. cbn in Ek. unfold bytes_of in Ek.
  rewrite !list_lookup_fmap, !lookup_seq_lt in Ek by lia. cbn in Ek. injection Ek as Ek. by rewrite !Z2Nat.id in Ek by lia.
Qed.

Lemma same_bytes m m' s s' n : (forall k, 0 <= k < Z.of_nat n -> ld8 m' (s' + k) = ld8 m (s + k)) -> bytes_of m' s' n = bytes_of m s n.
Proof.
  intros Hx. apply list_eq. intros k. unfold bytes_of. rewrite !list_lookup_fmap. destruct (decide (k < n)%nat).
  - rewrite lookup_seq_lt by done. cbn. f_equal. apply Hx. lia.
  - by rewrite lookup_seq_ge by lia.
Qed.

Lemma same_get m m' a a' f : (forall k, f_off f <= k < f_off f + f_len f -> ld8 m' (a' + k) = ld8 m (a + k)) -> fget f m' a' = fget f m a.
Proof.
  intros Hx. unfold fget. assert (forall n b b', (forall j, 0 <= j < Z.of_nat n -> ld8 m' (b' + j) = ld8 m (b + j)) -> ldn n m' b' = ldn n m b) as Hm.
  { induction n as [|n IH]; intros b b' Hb; [done|]. cbn [ldn]. pose proof (Hb 0 ltac:(lia)) as H0. rewrite !Z.add_0_r in H0. unfold ld8 in H0.
    rewrite H0. do 2 f_equal. apply IH. intros j Hj. rewrite <- !Z.add_assoc. apply Hb. lia. }
  apply Hm. intros j Hj. rewrite <- !Z.add_assoc. apply Hx. lia.
Qed.

(** A superblock that is accepted, and the features that allow writing. *)
Definition acceptable (m : memory) (s : Z) : Prop :=
  ext4_sb_check m s = true /\ ext4_sb_get_block_size m s <= EXT4_MAX_BLOCK_SIZE /\
  (fget sb_rev_level m s = 0 \/ fget sb_features_incompatible m s .& Z.lnot CONFIG_SUPPORTED_FINCOM = 0).
Definition writable (m : memory) (s : Z) : Prop :=
  fget sb_rev_level m s = 0 \/ fget sb_features_read_only m s .& Z.lnot CONFIG_SUPPORTED_FRO_COM = 0.

(** What mounting changes: the state, the count of mounts and the checksum. *)
Definition mount_byte (k : Z) : Prop := 52 <= k < 54 \/ 58 <= k < 60 \/ 1020 <= k < 1024.

Section changed.
Context (m m' : memory) (s s' : Z) (Hon : forall k, 0 <= k < 1024 -> ~ mount_byte k -> ld8 m' (s' + k) = ld8 m (s + k)).

Lemma changed_field f : 0 <= f_off f -> 0 <= f_len f ->
  f_off f + f_len f <= 52 \/ (54 <= f_off f /\ f_off f + f_len f <= 58) \/ (60 <= f_off f /\ f_off f + f_len f <= 1020) ->
  fget f m' s' = fget f m s.
Proof.
  intros Ho Hl Hd. apply same_get. intros k Hk. apply Hon; unfold mount_byte; lia.
Qed.

Lemma changed_accept : (ext4_sb_feature_ro_com m s EXT4_FRO_COM_METADATA_CSUM = true -> ext4_sb_verify_csum m' s' = true) ->
  acceptable m s -> acceptable m' s'.
Proof.
  intros Hv (Hc & Hb & Hf). unfold acceptable, ext4_sb_get_block_size in *. rewrite !changed_field by fld. split; [|done].
  pose proof (ext4_sb_check_facts _ _ Hc) as (_ & _ & _ & _ & _ & _ & _ & _ & Hs).
  assert (ext4_sb_verify_csum m' s' = true) as Hv'.
  { destruct (ext4_sb_feature_ro_com m s EXT4_FRO_COM_METADATA_CSUM) eqn:E; [by apply Hv|]. unfold ext4_sb_verify_csum, ext4_sb_feature_ro_com in *.
    rewrite changed_field by fld. by rewrite E. }
  unfold ext4_sb_check, ext4_sb_get_blocks_cnt, ext4_sb_get_desc_size in *. rewrite !changed_field by fld. rewrite Hv'. rewrite Hs in Hc. exact Hc.
Qed.

Lemma changed_writable : writable m s -> writable m' s'.
Proof. unfold writable. by rewrite !changed_field by fld. Qed.
End changed.

(** Superblocks with the same bytes are accepted alike. *)
Lemma sb_set_csum_verifies m s : fget sb_checksum_type m s = EXT4_CHECKSUM_CRC32C -> ext4_sb_verify_csum (ext4_sb_set_csum m s) s = true.
Proof.
  intros Ht. unfold ext4_sb_verify_csum, ext4_sb_feature_ro_com. rewrite !set_csum_get, Ht, Z.eqb_refl by fld. cbn [negb].
  destruct (c_true _) eqn:Hf; cbn [negb]; [|done]. rewrite (csum_same m) by (intros x Hx; apply set_csum_other; lia). apply Z.eqb_eq.
  unfold ext4_sb_set_csum, ext4_sb_feature_ro_com. rewrite Hf. cbn [negb]. apply fget_fset_same; [done|apply csum_range].
Qed.

Lemma same_verify m m' s s' : (forall k, 0 <= k < 1024 -> ld8 m' (s' + k) = ld8 m (s + k)) -> ext4_sb_verify_csum m' s' = ext4_sb_verify_csum m s.
Proof.
  intros Hx. unfold ext4_sb_verify_csum, ext4_sb_feature_ro_com, ext4_sb_csum. rewrite !(same_get m m' s s') by (intros k Hk; apply Hx; cbn in Hk; lia).
  rewrite !ext4_crc32c_bits. rewrite (same_bytes m m' s s'); [done|]. intros k Hk. apply Hx. cbn in Hk. lia.
Qed.

Lemma check_verify m s : ext4_sb_check m s = true -> ext4_sb_verify_csum m s = true.
Proof. intros Hc. by pose proof (ext4_sb_check_facts _ _ Hc) as (_ & _ & _ & _ & _ & _ & _ & _ & Hs). Qed.

Lemma same_accept m m' s s' : (forall k, 0 <= k < 1024 -> ld8 m' (s' + k) = ld8 m (s + k)) -> acceptable m s -> acceptable m' s'.
Proof.
  intros Hx Ha. apply (changed_accept m m' s s'); [intros k Hk _; by apply Hx| |done].
  intros _. rewrite (same_verify m m' s s' Hx). apply check_verify, Ha.
Qed.

(** ** Reading and writing it *)

Section cycle.
Context {D : Type} `{BlockIfaceLaws D}.
Implicit Types (f : fs_inst (D := D)) (b : ext4_blockdev (D := D)).

(** An open device with a partition that has room for the superblock. *)
Record partition_ok b (k : Z) : Prop := {
  po_bits : 0 <= k /\ ph_bsize = 2 ^ k;
  po_offset : 0 <= part_offset b /\ part_offset b mod ph_bsize = 0;
  po_end : part_offset b + part_size b + ph_bsize < 2 ^ 64;
  po_size : 2048 <= part_size b;
  po_open : ph_refctr b <> 0;
}.

Definition sb_place b : Z := EXT4_SUPERBLOCK_OFFSET + part_offset b.
(** The superblock on the device, at address 0 of a memory of its own. *)
Definition disk_sb b : memory := fun x => byte b (sb_place b + x).
Definition untouched b b' : Prop := forall x, byte b' x = byte b x.

Lemma partition_same b b' k : same_setup b b' -> partition_ok b k -> partition_ok b' k /\ sb_place b' = sb_place b.
Proof.
  intros (E1 & E2 & E3 & _) [P1 P2 P3 P4 P5]. unfold sb_place. rewrite E2. split; [|done]. constructor; rewrite ?E1, ?E2, ?E3; done.
Qed.

Lemma disk_ld8 b x : ld8 (disk_sb b) x = byte b (sb_place b + x).
Proof. unfold ld8 at 1, disk_sb. apply uw_small. unfold byte. pose proof (ld8_range (contents (dev b)) (sb_place b + x)). lia. Qed.

Lemma sb_read_ok f k : partition_ok (fs_bdev f) k ->
  let '(r, f') := ext4_sb_read f in
  same_setup (fs_bdev f) (fs_bdev f') /\ untouched (fs_bdev f) (fs_bdev f') /\ fs_sblock f' = fs_sblock f /\ fs_read_only f' = fs_read_only f /\
  (r = EOK -> forall j, 0 <= j < 1024 -> ld8 (fs_mem f') (fs_sblock f + j) = ld8 (disk_sb (fs_bdev f)) (0 + j)).
Proof.
  intros [[P1 P1'] [P2 P2'] P3 P4 P5]. unfold ext4_sb_read.
  pose proof (readbytes_ok (fs_bdev f) EXT4_SUPERBLOCK_OFFSET EXT4_SUPERBLOCK_SIZE k P1 P1' P2 P2' P3) as Hr.
  unfold EXT4_SUPERBLOCK_OFFSET, EXT4_SUPERBLOCK_SIZE in *. specialize (Hr ltac:(lia) ltac:(lia) ltac:(lia) P5).
  destruct (ext4_block_readbytes (fs_bdev f) 1024 1024) as [[r l] b']. destruct Hr as (R1 & _ & R2 & R3). cbn [fs_bdev fs_mem fs_sblock fs_read_only].
  split_and!; try done. intros Hr j Hj. specialize (R3 Hr). rewrite disk_ld8.
  assert (length l = 1024%nat) as Hl by (rewrite R3; apply span_length).
  assert (bytes l) as Hb by (rewrite R3; apply bytes_span).
  pose proof (put_bytes_ld8 (fs_mem f) (fs_sblock f) l (Z.to_nat j) Hb ltac:(lia)) as E. rewrite Z2Nat.id in E by lia.
  rewrite R3 in E at 1. unfold span, bytes_of in E. rewrite list_lookup_fmap, lookup_seq_lt in E by lia. cbn in E. injection E as E.
  rewrite <- E. unfold byte, sb_place, EXT4_SUPERBLOCK_OFFSET. f_equal. lia.
Qed.

Lemma sb_write_ok f k : partition_ok (fs_bdev f) k ->
  let '(r, f') := ext4_sb_write f in
  same_setup (fs_bdev f) (fs_bdev f') /\ fs_sblock f' = fs_sblock f /\ fs_read_only f' = fs_read_only f /\
  fs_mem f' = ext4_sb_set_csum (fs_mem f) (fs_sblock f) /\
  only (fs_bdev f) (sb_place (fs_bdev f) / ph_bsize) ((sb_place (fs_bdev f) + 1024) / ph_bsize + 1) (fs_bdev f') /\
  (r = EOK -> (forall j, 0 <= j < 1024 -> ld8 (disk_sb (fs_bdev f')) (0 + j) = ld8 (fs_mem f') (fs_sblock f + j)) /\
     forall x, x < sb_place (fs_bdev f) \/ sb_place (fs_bdev f) + 1024 <= x -> byte (fs_bdev f') x = byte (fs_bdev f) x).
Proof.
  intros [[P1 P1'] [P2 P2'] P3 P4 P5]. unfold ext4_sb_write. set (m' := ext4_sb_set_csum _ _).
  set (l := bytes_of m' (fs_sblock f) (Z.to_nat EXT4_SUPERBLOCK_SIZE)).
  assert (Z.of_nat (length l) = 1024) as Hl by (unfold l, bytes_of; by rewrite length_fmap, length_seq).
  assert (bytes l) as Hb by (apply Forall_fmap, Forall_forall; intros j _; cbn; apply ld8_range).
  pose proof (writebytes_ok (fs_bdev f) EXT4_SUPERBLOCK_OFFSET EXT4_SUPERBLOCK_SIZE k P1 P1' P2 P2' P3) as Hw.
  unfold EXT4_SUPERBLOCK_OFFSET, EXT4_SUPERBLOCK_SIZE in Hw |- *. specialize (Hw ltac:(lia) ltac:(lia) ltac:(lia) P5 l (eq_sym Hl) Hb).
  destruct (ext4_block_writebytes (fs_bdev f) 1024 l 1024) as [r b']. destruct Hw as (W1 & _ & W2 & W3). cbn [fs_bdev fs_mem fs_sblock fs_read_only].
  split_and!; try done. intros Hr. destruct (W3 Hr) as [Ws Wo]. assert (sb_place b' = sb_place (fs_bdev f)) as Ep by (unfold sb_place; by destruct W1 as (_ & -> & _)).
  split; [|intros x Hx; apply Wo; unfold sb_place, EXT4_SUPERBLOCK_OFFSET in Hx; lia]. intros j Hj. rewrite disk_ld8, Ep.
  replace (length l) with (Z.to_nat 1024) in Ws by lia. unfold span, l in Ws.
  pose proof (bytes_of_ld8 m' (contents (dev b')) (fs_sblock f) (1024 + part_offset (fs_bdev f)) (Z.to_nat 1024) j Ws ltac:(lia)) as E.
  rewrite <- E. unfold byte, sb_place, EXT4_SUPERBLOCK_OFFSET. by rewrite Z.add_0_l.
Qed.

(** ** Mount and unmount *)

Lemma check_features_ok m s ro : let '(r, ro') := ext4_fs_check_features m s ro in
  (r = EOK \/ r = ENOTSUP) /\
  (r = EOK <-> fget sb_rev_level m s = 0 \/ fget sb_features_incompatible m s .& Z.lnot CONFIG_SUPPORTED_FINCOM = 0) /\
  (r = EOK -> ro' = false <-> writable m s).
Proof.
  unfold ext4_fs_check_features, writable, c_true. set (inc := _ .& Z.lnot CONFIG_SUPPORTED_FINCOM).
  set (ro_com := _ .& Z.lnot CONFIG_SUPPORTED_FRO_COM). unfold EOK, ENOTSUP.
  destruct (Z.eqb_spec (fget sb_rev_level m s) 0), (Z.eqb_spec inc 0), (Z.eqb_spec ro_com 0); cbn [negb]; naive_solver.
Qed.

(** How mounting may end. *)
Definition mounted f (ro : bool) (r : Z) f1 : Prop :=
  let d := disk_sb (fs_bdev f) in
  (~ acceptable d 0 -> r <> EOK /\ untouched (fs_bdev f) (fs_bdev f1)) /\
  (r = EOK -> acceptable d 0 /\ (fs_read_only f1 = false <-> ro = false /\ writable d 0) /\
     fs_limits f1 = init_limits (ext4_sb_get_block_size d 0) /\
     if fs_read_only f1 then untouched (fs_bdev f) (fs_bdev f1)
     else fget sb_state (disk_sb (fs_bdev f1)) 0 = EXT4_SUPERBLOCK_STATE_ERROR_FS /\
       (forall x, x < sb_place (fs_bdev f) \/ sb_place (fs_bdev f) + 1024 <= x -> byte (fs_bdev f1) x = byte (fs_bdev f) x)).

(** Unmounting what was mounted for writing. *)
Definition unmounted f f1 : Prop :=
  let '(r, f2) := ext4_fs_fini f1 in
  let d := disk_sb (fs_bdev f) in
  let d2 := disk_sb (fs_bdev f2) in
  r = EOK -> fs_read_only f1 = false ->
  fget sb_state d2 0 = EXT4_SUPERBLOCK_STATE_VALID_FS /\ fget sb_mount_count d2 0 = u16 (fget sb_mount_count d 0 + 1) /\
  (forall j, 0 <= j < 1024 -> ~ mount_byte j -> ld8 d2 j = ld8 d j) /\
  (forall x, x < sb_place (fs_bdev f) \/ sb_place (fs_bdev f) + 1024 <= x -> byte (fs_bdev f2) x = byte (fs_bdev f) x) /\
  acceptable d2 0 /\ writable d2 0.

(** Between the two: the memory has the superblock, with one mount more. *)
Record ready f f1 : Prop := {
  ry_setup : same_setup (fs_bdev f) (fs_bdev f1);
  ry_bytes : forall j, 0 <= j < 1024 -> ~ mount_byte j -> ld8 (fs_mem f1) (fs_sblock f1 + j) = ld8 (disk_sb (fs_bdev f)) (0 + j);
  ry_count : fget sb_mount_count (fs_mem f1) (fs_sblock f1) = u16 (fget sb_mount_count (disk_sb (fs_bdev f)) 0 + 1);
  ry_other : forall x, x < sb_place (fs_bdev f) \/ sb_place (fs_bdev f) + 1024 <= x -> byte (fs_bdev f1) x = byte (fs_bdev f) x;
  ry_accept : acceptable (disk_sb (fs_bdev f)) 0;
  ry_write : writable (disk_sb (fs_bdev f)) 0;
}.

Lemma ld8_set_state m s v j : ~ mount_byte j -> ld8 (fset sb_state m s v) (s + j) = ld8 m (s + j).
Proof. intros Hj. unfold mount_byte in Hj. rewrite ld8_fset by (cbn; lia). done. Qed.

Lemma ld8_set_csum m s j : ~ mount_byte j -> j < 1024 -> ld8 (ext4_sb_set_csum m s) (s + j) = ld8 m (s + j).
Proof. intros Hj Hl. unfold mount_byte in Hj. unfold ld8. rewrite set_csum_other by lia. done. Qed.

(** What writing the superblock with a new state leaves on the device. *)
Lemma write_state f f1 v k : partition_ok (fs_bdev f) k -> same_setup (fs_bdev f) (fs_bdev f1) -> 0 <= v < 65536 ->
  (forall j, 0 <= j < 1024 -> ~ mount_byte j -> ld8 (fs_mem f1) (fs_sblock f1 + j) = ld8 (disk_sb (fs_bdev f)) (0 + j)) ->
  (forall x, x < sb_place (fs_bdev f) \/ sb_place (fs_bdev f) + 1024 <= x -> byte (fs_bdev f1) x = byte (fs_bdev f) x) ->
  acceptable (disk_sb (fs_bdev f)) 0 ->
  let '(r, f2) := ext4_sb_write (with_mem f1 (fset sb_state (fs_mem f1) (fs_sblock f1) v)) in
  let d2 := disk_sb (fs_bdev f2) in
  same_setup (fs_bdev f) (fs_bdev f2) /\ fs_sblock f2 = fs_sblock f1 /\ fs_read_only f2 = fs_read_only f1 /\ fs_limits f2 = fs_limits f1 /\
  (forall j, 0 <= j < 1024 -> ~ mount_byte j -> ld8 (fs_mem f2) (fs_sblock f2 + j) = ld8 (disk_sb (fs_bdev f)) (0 + j)) /\
  fget sb_mount_count (fs_mem f2) (fs_sblock f2) = fget sb_mount_count (fs_mem f1) (fs_sblock f1) /\
  (r = EOK -> fget sb_state d2 0 = v /\ fget sb_mount_count d2 0 = fget sb_mount_count (fs_mem f1) (fs_sblock f1) /\
     (forall j, 0 <= j < 1024 -> ~ mount_byte j -> ld8 d2 (0 + j) = ld8 (disk_sb (fs_bdev f)) (0 + j)) /\
     (forall x, x < sb_place (fs_bdev f) \/ sb_place (fs_bdev f) + 1024 <= x -> byte (fs_bdev f2) x = byte (fs_bdev f) x) /\
     acceptable d2 0).
Proof.
  intros Hp Hs Hv Hm Ho Ha. destruct (partition_same _ _ _ Hs Hp) as [Hp1 Epl].
  pose proof (sb_write_ok (with_mem f1 (fset sb_state (fs_mem f1) (fs_sblock f1) v)) k Hp1) as Hw.
  assert (fs_limits (ext4_sb_write (with_mem f1 (fset sb_state (fs_mem f1) (fs_sblock f1) v))).2 = fs_limits f1) as El.
  { unfold ext4_sb_write. by destruct (ext4_block_writebytes _ _ _ _). }
  destruct (ext4_sb_write _) as [r f2]. cbn [snd] in El. cbn zeta.
  destruct Hw as (W1 & W2 & W3 & W4 & _ & W5). cbn [with_mem fs_bdev fs_mem fs_sblock fs_read_only] in *.
  set (m1 := fset sb_state (fs_mem f1) (fs_sblock f1) v) in *. rewrite W2. set (s := fs_sblock f1) in *.
  assert (forall j, 0 <= j < 1024 -> ~ mount_byte j -> ld8 (fs_mem f2) (s + j) = ld8 (disk_sb (fs_bdev f)) (0 + j)) as Hm2.
  { intros j Hj Hn. rewrite W4, ld8_set_csum by (done || lia). unfold m1. rewrite ld8_set_state by done. by apply Hm. }
  assert (fget sb_mount_count (fs_mem f2) s = fget sb_mount_count (fs_mem f1) s) as Ec.
  { rewrite W4, set_csum_get by fld. unfold m1. by rewrite fget_fset_other by fld. }
  split_and!; [by eapply same_setup_trans|done..|]. intros Hr. destruct (W5 Hr) as [Hd Hout].
  assert (forall j, 0 <= j < 1024 -> ~ mount_byte j -> ld8 (disk_sb (fs_bdev f2)) (0 + j) = ld8 (disk_sb (fs_bdev f)) (0 + j)) as Hdd.
  { intros j Hj Hn. rewrite Hd by done. by apply Hm2. }
  split_and!; [| |done| |].
  - rewrite (same_get (fs_mem f2) _ s 0) by (intros j Hj; apply Hd; cbn in Hj; lia). rewrite W4, set_csum_get by fld.
    unfold m1. by rewrite fget_fset_same by fld.
  - rewrite (same_get (fs_mem f2) _ s 0) by (intros j Hj; apply Hd; cbn in Hj; lia). done.
  - intros x Hx. rewrite Hout by (rewrite Epl; done). by apply Ho.
  - apply (changed_accept (disk_sb (fs_bdev f)) _ 0 0 Hdd); [|done]. intros Hf. rewrite (same_verify (fs_mem f2) _ s 0 Hd), W4.
    apply sb_set_csum_verifies. unfold m1. rewrite fget_fset_other by fld.
    rewrite (changed_field (disk_sb (fs_bdev f)) (fs_mem f1) 0 s Hm) by fld.
    pose proof (check_verify _ _ (proj1 Ha)) as Hver. unfold ext4_sb_verify_csum in Hver. rewrite Hf in Hver. cbn [negb] in Hver.
    destruct (Z.eqb_spec (fget sb_checksum_type (disk_sb (fs_bdev f)) 0) EXT4_CHECKSUM_CRC32C); done.
Qed.

Lemma fini_ok f f1 k : partition_ok (fs_bdev f) k -> ready f f1 -> unmounted f f1.
Proof.
  intros Hp [R1 R2 R3 R4 R5 R6]. unfold unmounted, ext4_fs_fini. cbn [with_mem fs_read_only].
  destruct (fs_read_only f1) eqn:Ero; cbn [negb]; [done|].
  pose proof (write_state f f1 EXT4_SUPERBLOCK_STATE_VALID_FS k Hp R1 ltac:(unfold EXT4_SUPERBLOCK_STATE_VALID_FS; lia) R2 R4 R5) as Hw.
  destruct (ext4_sb_write _) as [r f2]. cbn zeta in Hw. destruct Hw as (_ & _ & _ & _ & _ & _ & Hw). intros Hr _.
  destruct (Hw Hr) as (W1 & W2 & W3 & W4 & W5). split_and!; [done|by rewrite W2| |done..|].
  - intros j Hj Hn. by apply W3.
  - by apply (changed_writable (disk_sb (fs_bdev f)) _ 0 0 W3).
Qed.

(** The last part of [ext4_fs_init], for a superblock that is in memory. *)
Lemma init_write f f1 k : partition_ok (fs_bdev f) k -> same_setup (fs_bdev f) (fs_bdev f1) -> untouched (fs_bdev f) (fs_bdev f1) ->
  (forall j, 0 <= j < 1024 -> ld8 (fs_mem f1) (fs_sblock f1 + j) = ld8 (disk_sb (fs_bdev f)) (0 + j)) ->
  acceptable (disk_sb (fs_bdev f)) 0 -> writable (disk_sb (fs_bdev f)) 0 ->
  let '(r, f2) := ext4_sb_write (with_mem f1 (fset sb_state (fs_mem f1) (fs_sblock f1) EXT4_SUPERBLOCK_STATE_ERROR_FS)) in
  let f3 := with_mem f2 (fset sb_mount_count (fs_mem f2) (fs_sblock f2) (fget sb_mount_count (fs_mem f2) (fs_sblock f2) + 1)) in
  fs_read_only f2 = fs_read_only f1 /\ fs_limits f2 = fs_limits f1 /\
  (r = EOK -> fget sb_state (disk_sb (fs_bdev f2)) 0 = EXT4_SUPERBLOCK_STATE_ERROR_FS /\ ready f f3).
Proof.
  intros Hp Hs Hu Hm Ha Hw. pose proof (write_state f f1 EXT4_SUPERBLOCK_STATE_ERROR_FS k Hp Hs ltac:(unfold EXT4_SUPERBLOCK_STATE_ERROR_FS; lia)) as Hst.
  specialize (Hst ltac:(intros j Hj _; by apply Hm) ltac:(intros x _; apply Hu) Ha).
  destruct (ext4_sb_write _) as [r f2]. cbn zeta in *. destruct Hst as (S1 & S2 & S3 & S4 & S5 & S6 & S7). split_and!; [done..|].
  intros Hr. destruct (S7 Hr) as (T1 & T2 & T3 & T4 & T5). split; [done|]. constructor; cbn [with_mem fs_bdev fs_mem fs_sblock]; [done| |..|done|done].
  - intros j Hj Hn. rewrite ld8_fset by (unfold mount_byte in Hn; cbn; lia). by apply S5.
  - rewrite fget_fset_mod by fld. rewrite S6. rewrite (same_get (disk_sb (fs_bdev f)) (fs_mem f1) 0 (fs_sblock f1)); [done|].
    intros j Hj. apply Hm. cbn in Hj. lia.
  - done.
Qed.

Lemma init_ok f ro k : partition_ok (fs_bdev f) k -> let '(r, f1) := ext4_fs_init f ro in
  mounted f ro r f1 /\ (r = EOK -> fs_read_only f1 = false -> ready f f1).
Proof.
  intros Hp. unfold ext4_fs_init. pose proof (sb_read_ok (with_ro f ro) k Hp) as Hr. destruct (ext4_sb_read (with_ro f ro)) as [r f1].
  destruct Hr as (R1 & R2 & R3 & R4 & R5). cbn [with_ro fs_bdev fs_sblock fs_read_only] in *. rewrite <- R3 in R5.
  destruct (Z.eqb_spec r EOK) as [->|Hr]; cbn [negb]; [|split; [split; done|done]]. specialize (R5 eq_refl).
  set (d := disk_sb (fs_bdev f)) in *. set (s := fs_sblock f1) in *.
  assert (acceptable d 0 <-> acceptable (fs_mem f1) s) as Hacc.
  { split; apply same_accept; [done|]. intros j Hj. symmetry. by apply R5. }
  assert (writable d 0 <-> writable (fs_mem f1) s) as Hwr.
  { split; apply changed_writable; intros j Hj _; [by apply R5|]. symmetry. by apply R5. }
  assert (ext4_sb_get_block_size (fs_mem f1) s = ext4_sb_get_block_size d 0) as Ebs.
  { unfold ext4_sb_get_block_size. rewrite (same_get d _ 0 s); [done|]. intros j Hj. apply R5. cbn in Hj. lia. }
  assert (forall e, e <> EOK -> mounted f ro e f1 /\ (e = EOK -> fs_read_only f1 = false -> ready f f1)) as Hbad.
  { intros e He. split; [split; done|done]. }
  destruct (ext4_sb_check (fs_mem f1) s) eqn:Hc; cbn [negb]; [|by apply Hbad].
  destruct (Z.ltb_spec EXT4_MAX_BLOCK_SIZE (ext4_sb_get_block_size (fs_mem f1) s)) as [|Hb]; [by apply Hbad|].
  pose proof (check_features_ok (fs_mem f1) s ro) as Hf. destruct (ext4_fs_check_features (fs_mem f1) s ro) as [e ro'].
  destruct Hf as (_ & F2 & F3). destruct (Z.eqb_spec e EOK) as [->|He]; cbn [negb]; [|by apply Hbad]. specialize (F3 eq_refl).
  assert (acceptable d 0) as Ha by (apply Hacc; split_and!; [done|lia|by apply F2]).
  rewrite Ebs. set (f2 := with_limits _ _).
  assert (fs_bdev f2 = fs_bdev f1 /\ fs_mem f2 = fs_mem f1 /\ fs_sblock f2 = s /\ fs_limits f2 = init_limits (ext4_sb_get_block_size d 0) /\
    fs_read_only f2 = ro' || ro) as (E1 & E2 & E3 & E4 & E5) by (unfold f2; destruct ro'; cbn; rewrite ?R4; done).
  assert (fs_read_only f2 = false <-> ro = false /\ writable d 0) as Hro by (rewrite E5, Hwr, <- F3; destruct ro', ro; cbn; naive_solver).
  destruct (fs_read_only f2) eqn:Ero; cbn [negb].
  - split; [|congruence]. split; [done|]. intros _. rewrite E1, E4, Ero. done.
  - destruct (proj1 Hro eq_refl) as [_ Hw2]. pose proof (init_write f f2 k Hp) as Hi. rewrite E1, E2, E3 in Hi. specialize (Hi R1 R2 R5 Ha Hw2).
    rewrite E2, E3. destruct (ext4_sb_write _) as [e f3]. cbn zeta in Hi. destruct Hi as (I1 & I2 & I3).
    destruct (Z.eqb_spec e EOK) as [->|He]; cbn [negb]; [|split; [split; done|done]]. destruct (I3 eq_refl) as [I4 I5].
    split; [|done]. split; [done|]. intros _. cbn [with_mem fs_read_only fs_limits fs_bdev]. rewrite I1, I2, E4, Ero.
    split_and!; [done..|]. apply (ry_other _ _ I5).
Qed.

(** C17. Mounting and unmounting.  [ext4_fs_init] refuses a device whose
    superblock is not acceptable (wrong magic or checksum, impossible geometry,
    blocks that are too large, features it does not know) and leaves every byte
    of it alone.  When it succeeds, the file system is writable exactly if that
    was asked for and every read-only compatible feature is known; a read-only
    mount does not change the device, and a writable one marks it as in error on
    the device and changes nothing outside the superblock.  [ext4_fs_fini] then
    leaves a device that is marked clean, counts one mount more, is otherwise as
    it was but for the checksum, and is accepted for writing again. *)
Theorem mount_cycle f ro k : partition_ok (fs_bdev f) k -> let '(r, f1) := ext4_fs_init f ro in
  mounted f ro r f1 /\ (r = EOK -> fs_read_only f1 = false -> unmounted f f1).
Proof.
  intros Hp. pose proof (init_ok f ro k Hp) as Hi. destruct (ext4_fs_init f ro) as [r f1]. destruct Hi as [Hm Hry].
  split; [done|]. intros Hr Hro. apply (fini_ok f f1 k Hp). by apply Hry.
Qed.
End cycle.

(** ** A sample device *)

(** A device of 64 blocks with the sample superblock, which has the checksum on. *)
Definition sample_disk : fs_inst (D := ram) :=
  FsInst (set_dev sample_io (Ram (fun x => sample_sb (x - 1024))) 0 0) (fun _ => 0) 0 false [].

Lemma sample_partition : partition_ok (fs_bdev sample_disk) 9.
Proof. constructor; cbn; try lia. split; [lia|reflexivity]. Qed.

Lemma mount_cycle_witness : let '(r, f1) := ext4_fs_init sample_disk false in r = EOK /\ unmounted sample_disk f1.
Proof.
  pose proof (mount_cycle sample_disk false 9 sample_partition) as Hm.
  assert ((ext4_fs_init sample_disk false).1 = EOK) as Hr by (vm_compute; reflexivity).
  assert (fs_read_only (ext4_fs_init sample_disk false).2 = false) as Hro by (vm_compute; reflexivity).
  destruct (ext4_fs_init sample_disk false) as [r f1]. cbn [fst snd] in Hr, Hro. destruct Hm as [_ Hu].
  split; [exact Hr|exact (Hu Hr Hro)].
Defined.
