(* ===== verification/Ext4IallocSpec.v ===== *)
(** lwext4, inode allocation: what taking and releasing a bit of an inode bitmap
    does to the group and to the rest of the file system. *)
From S2P Require Import Prelude Memory Ext4Errno Ext4Bitmap Ext4Crc Ext4Layout Ext4Super Ext4BlockGroup Ext4Inode.
From S2P Require Import Ext4Store Ext4Fs Ext4Groups Ext4BallocSpec Ext4BallocRun Ext4Ialloc.
#[local] Open Scope Z_scope.
#[local] Open Scope cint_scope.
#[local] Opaque ext4_crc32c ext4_bg_crc16.

(** The three counters of a group that inode allocation changes. *)
Definition free_inodes_acc : accessor :=
  Accessor ext4_bg_get_free_inodes_count ext4_bg_set_free_inodes_count bg_free_inodes_count_lo bg_free_inodes_count_hi 16.
Definition used_dirs_acc : accessor :=
  Accessor ext4_bg_get_used_dirs_count ext4_bg_set_used_dirs_count bg_used_dirs_count_lo bg_used_dirs_count_hi 16.
Definition unused_acc : accessor :=
  Accessor ext4_bg_get_itable_unused ext4_bg_set_itable_unused bg_itable_unused_lo bg_itable_unused_hi 16.
Definition inode_accs : list accessor := [free_inodes_acc; used_dirs_acc; unused_acc].

Lemma inode_accs_ok a : a ∈ inode_accs -> accessor_ok a /\ a_w a = 16 /\
  (forall o, f_off (a_lo a) <= o < f_off (a_lo a) + f_len (a_lo a) -> 14 <= o < 18 \/ 28 <= o < 30) /\
  (forall o, f_off (a_hi a) <= o < f_off (a_hi a) + f_len (a_hi a) -> 46 <= o < 52).
Proof.
  pose proof bg_accessors_ok as Hall. unfold bg_accessors in Hall. rewrite !Forall_cons in Hall.
  destruct Hall as (_ & _ & _ & _ & H1 & H2 & H3 & _).
  unfold inode_accs. rewrite !elem_of_cons, elem_of_nil. intros [->|[->|[->|[]]]]; (split; [done|split; [done|]]); cbn; split; lia.
Qed.

Lemma inode_accs_apart a b : a ∈ inode_accs -> b ∈ inode_accs -> a <> b ->
  f_disjoint (a_lo a) (a_lo b) /\ f_disjoint (a_lo a) (a_hi b) /\ f_disjoint (a_hi a) (a_lo b) /\ f_disjoint (a_hi a) (a_hi b).
Proof.
  unfold inode_accs. rewrite !elem_of_cons, !elem_of_nil.
  intros [->|[->|[->|[]]]] [->|[->|[->|[]]]] Hne; try done; unfold f_disjoint; cbn; lia.
Qed.

Section spec.
Context `{Device}.
#[local] Notation sb := fs_sb.

(** ** Setting counters *)

Definition set_all (l : list (accessor * Z)) (m : memory) (bg : Z) : memory :=
  foldl (fun m '(a, v) => a_set a m bg sb v) m l.

Definition valid_sets (l : list (accessor * Z)) : Prop :=
  forall a v, (a, v) ∈ l -> a ∈ inode_accs /\ 0 <= v < 2 ^ 32.

(** Bytes of a descriptor that belong to the counters, and to inodes. *)
Definition cvar (o : Z) : Prop := 14 <= o < 18 \/ 28 <= o < 30 \/ 46 <= o < 52.
Definition ivar (o : Z) : Prop := 14 <= o < 18 \/ 26 <= o < 32 \/ 46 <= o < 52 \/ 58 <= o < 60.

Lemma acc_set_frame a m bg v x : a ∈ inode_accs -> 0 <= v < 2 ^ 32 -> apart bg sb -> desc_size m = 32 \/ desc_size m = 64 ->
  ~ (x - bg < desc_size m /\ cvar (x - bg)) -> ld8 (a_set a m bg sb v) x = ld8 m x.
Proof.
  intros Ha Hv Hap Hd Hx. destruct (inode_accs_ok a Ha) as ((_ & Hs & Hw & Hl & Hh & O1 & O2 & O3 & O4) & Ew & Blo & Bhi).
  rewrite Hs by (rewrite Ew; done). cbv zeta. rewrite desc_is_wide_fset by (done || lia). unfold desc_is_wide. fold (desc_size m).
  unfold EXT4_MIN_BLOCK_GROUP_DESCRIPTOR_SIZE. unfold cvar in Hx.
  assert (x < bg + f_off (a_lo a) \/ bg + f_off (a_lo a) + f_len (a_lo a) <= x).
  { destruct (decide (bg + f_off (a_lo a) <= x < bg + f_off (a_lo a) + f_len (a_lo a))); [|lia]. specialize (Blo (x - bg)). lia. }
  case_if; zb.
  - assert (x < bg + f_off (a_hi a) \/ bg + f_off (a_hi a) + f_len (a_hi a) <= x).
    { destruct (decide (bg + f_off (a_hi a) <= x < bg + f_off (a_hi a) + f_len (a_hi a))); [|lia]. specialize (Bhi (x - bg)). lia. }
    rewrite !ld8_fset by (done || lia). done.
  - by rewrite ld8_fset by (done || lia).
Qed.

Lemma acc_set_desc_size a m bg v : a ∈ inode_accs -> 0 <= v < 2 ^ 32 -> apart bg sb -> desc_size m = 32 \/ desc_size m = 64 ->
  desc_size (a_set a m bg sb v) = desc_size m.
Proof.
  intros Ha Hv Hap Hd. apply kept_desc_size. intros x Hx _. apply acc_set_frame; try done. unfold cvar, apart in *. lia.
Qed.

Lemma acc_get_other a b m bg v : a ∈ inode_accs -> b ∈ inode_accs -> a <> b -> 0 <= v < 2 ^ 32 -> apart bg sb ->
  a_get a (a_set b m bg sb v) bg sb = a_get a m bg sb.
Proof.
  intros Ha Hb Hne Hv Hap. destruct (inode_accs_ok a Ha) as (Hoka & _). destruct (inode_accs_ok b Hb) as (Hokb & Ew & _).
  destruct (inode_accs_apart a b Ha Hb Hne) as (D1 & D2 & D3 & D4).
  assert (0 <= f_len (a_lo a) /\ 0 <= f_len (a_hi a)) as [? ?] by (destruct Hoka as (_ & _ & Hw & Hl & Hh & _); lia).
  apply accessor_get_ext; [done| | |].
  - apply accessor_set_field; try done. by rewrite Ew.
  - apply accessor_set_field; try done. by rewrite Ew.
  - apply accessor_set_wide; try done. by rewrite Ew.
Qed.

Section sets.
Context (bg : Z) (Hap : apart bg sb).

Lemma set_all_spec l : forall m, valid_sets l -> desc_size m = 32 \/ desc_size m = 64 ->
  desc_size (set_all l m bg) = desc_size m /\
  forall x, ~ (x - bg < desc_size m /\ cvar (x - bg)) -> ld8 (set_all l m bg) x = ld8 m x.
Proof.
  induction l as [|[a v] l IH]; intros m Hl Hd; [done|]. destruct (Hl a v ltac:(left)) as [Ha Hv].
  pose proof (acc_set_desc_size a m bg v Ha Hv Hap Hd) as E.
  destruct (IH (a_set a m bg sb v)) as [E' Hx]; [intros b w Hb; apply Hl; by right|by rewrite E|]. split.
  - change (set_all ((a, v) :: l) m bg) with (set_all l (a_set a m bg sb v) bg). by rewrite E', E.
  - intros x Hn. change (set_all ((a, v) :: l) m bg) with (set_all l (a_set a m bg sb v) bg). rewrite Hx by (by rewrite E). by apply acc_set_frame.
Qed.

Lemma set_all_other l a : forall m, valid_sets l -> a ∈ inode_accs -> (forall v, (a, v) ∉ l) ->
  a_get a (set_all l m bg) bg sb = a_get a m bg sb.
Proof.
  induction l as [|[b v] l IH]; intros m Hl Ha Hn; [done|]. destruct (Hl b v ltac:(left)) as [Hb Hv].
  change (set_all ((b, v) :: l) m bg) with (set_all l (a_set b m bg sb v) bg).
  rewrite IH; [|intros c w Hc; apply Hl; by right|done|intros w Hw; apply (Hn w); by right].
  apply acc_get_other; try done. intros ->. apply (Hn v). left.
Qed.

(** A counter that [l] sets once. *)
Lemma set_all_get l1 l2 a v m : valid_sets (l1 ++ (a, v) :: l2) -> (forall w, (a, w) ∉ l2) -> desc_size m = 32 \/ desc_size m = 64 ->
  a_get a (set_all (l1 ++ (a, v) :: l2) m bg) bg sb = if desc_is_wide m sb then v else u16 v.
Proof.
  intros Hl Hn Hd. assert (valid_sets l1) as Hl1 by (intros b w Hb; apply Hl, elem_of_app; by left).
  assert (valid_sets l2) as Hl2 by (intros b w Hb; apply Hl, elem_of_app; right; by right).
  destruct (Hl a v) as [Ha Hv]; [apply elem_of_app; right; left|]. unfold set_all. rewrite foldl_app. cbn [foldl].
  fold (set_all l1 m bg). change (foldl _ ?x l2) with (set_all l2 x bg). rewrite set_all_other by done.
  destruct (inode_accs_ok a Ha) as (Hok & Ew & _). rewrite accessor_set_get by (rewrite ?Ew; done). rewrite Ew.
  unfold desc_is_wide. change (ext4_sb_get_desc_size ?m sb) with (desc_size m).
  by destruct (set_all_spec l1 m Hl1 Hd) as [-> _].
Qed.

Lemma set_all_in l l1 l2 a v m : l = l1 ++ (a, v) :: l2 -> valid_sets l -> (forall w, (a, w) ∉ l2) -> desc_size m = 32 \/ desc_size m = 64 ->
  a_get a (set_all l m bg) bg sb = if desc_is_wide m sb then v else u16 v.
Proof. intros ->. apply set_all_get. Qed.
End sets.

(** ** Inode geometry *)

Definition ipg (m : memory) : Z := fget sb_inodes_per_group m sb.
Definition inodes_in (m : memory) (g : Z) : Z := ext4_inodes_in_group_cnt m sb g.
Definition sbifree (m : memory) : Z := fget sb_free_inodes_count m sb.
Definition counter (a : accessor) (m : memory) (g : Z) : Z := a_get a m (desc m g) sb.

Record inodes_ok (m : memory) : Prop := {
  ok_ipg : 0 < ipg m <= 8 * dev_bsize;
  ok_inarrow : desc_size m = 32 -> ipg m < 2 ^ 16;
  ok_inodes : (groups m - 1) * ipg m < fget sb_inodes_count m sb <= groups m * ipg m;
}.

Lemma inodes_in_range m g : fs_ok m -> inodes_ok m -> 0 <= g < groups m -> 1 <= inodes_in m g <= ipg m.
Proof.
  intros Hok [H1 _ H3] Hg. pose proof (groups_range m Hok). pose proof (fget_range sb_inodes_count m sb) as Hc. change (2 ^ _) with (2 ^ 32) in Hc.
  unfold inodes_in, ext4_inodes_in_group_cnt. fold (groups m) (ipg m). rewrite (uw_small 32 (groups m - 1)) by lia. case_if; zb; [lia|].
  rewrite (uw_small 32 ((groups m - 1) * ipg m)), uw_small by nia. nia.
Qed.

Lemma inodes_ok_keeps m m' : keeps m m' -> inodes_ok m -> inodes_ok m'.
Proof.
  intros Hk [H1 H2 H3]. pose proof (proj1 Hk) as Hsb. assert (ipg m' = ipg m) as E by (unfold ipg; by rewrite (kept_field m m' Hsb) by fld).
  constructor; rewrite ?E, ?(kept_desc_size m m' Hsb), ?(kept_groups m m' Hsb), ?(kept_field m m' Hsb) by fld; done.
Qed.

(** ** A change of one group *)

Section update.
Context (m : memory) (g : Z) (Hok : fs_ok m) (Hiok : inodes_ok m) (Hg : 0 <= g < groups m).
#[local] Notation D := (desc m g).
#[local] Notation B := (buf (ibitmap m g)).

Definition itouched (x : Z) : Prop :=
  sb + 16 <= x < sb + 20 \/ B <= x < B + dev_bsize \/ (x - D < desc_size m /\ ivar (x - D)).

Definition iframe (m' : memory) : Prop := forall x, ~ itouched x -> ld8 m' x = ld8 m x.

Lemma block_not_itouched b x : 0 <= b -> b <> ibitmap m g -> b <> desc_block m g -> buf b <= x < buf b + dev_bsize -> ~ itouched x.
Proof.
  intros Hb Hm Hd Hx. pose proof (bsize_cases m Hok) as [_ Hbs]. assert (0 < dev_bsize) as Hpos by lia. pose proof (buf_above b Hpos Hb).
  pose proof (ok_below m Hok). pose proof (buf_apart b _ Hpos Hm). pose proof (buf_apart b _ Hpos Hd). pose proof (desc_inside m Hok g Hg).
  unfold itouched, ivar. lia.
Qed.

Lemma sb_not_itouched x : sb <= x < sb + 1024 -> ~ sb + 16 <= x < sb + 20 -> ~ itouched x.
Proof.
  intros Hx Hc. pose proof (desc_above m g Hok Hg). pose proof (bitmap_above m g Hok) as [_ ?]. unfold itouched, ivar. lia.
Qed.

Lemma desc_not_itouched g' x : 0 <= g' < groups m -> g' <> g \/ ~ ivar (x - D) -> desc m g' <= x < desc m g' + desc_size m -> ~ itouched x.
Proof.
  intros Hg' Hne Hx. pose proof (desc_above m g' Hok Hg'). pose proof (bitmap_desc_apart m g g' Hok Hg Hg') as [_ ?].
  pose proof (ok_desc_size m Hok). unfold itouched, ivar in *. intros [?|[?|[? ?]]]; try lia.
  destruct (decide (g' = g)) as [->|Hn]; [lia|]. destruct (descs_apart m g g' Hok Hg Hg' ltac:(done)); lia.
Qed.

Context (m' : memory) (Hf : iframe m').

Lemma iframe_keeps : keeps m m'.
Proof.
  split.
  - intros x Hx Hc. apply Hf, sb_not_itouched; [done|]. unfold sb_counter in Hc. lia.
  - intros g' o Hg' Hfx Ho. apply Hf, (desc_not_itouched g'); [done| |unfold fixed in Hfx; lia].
    destruct (decide (g' = g)) as [->|]; [right|by left]. unfold fixed, ivar in *. lia.
Qed.

Lemma iframe_used g' i : 0 <= g' < groups m -> 0 <= i < 8 * dev_bsize -> used m' g' i = used m g' i.
Proof.
  intros Hg' Hi. unfold used. rewrite (kept_bitmap m m' iframe_keeps (ok_desc_size m Hok)) by done. apply bget_on, Hf.
  destruct (bitmap_nonneg m g'). destruct (ok_bitmaps m Hok g' g Hg' Hg) as [_ ?]. pose proof (ok_bitmap_desc m Hok g' g Hg' Hg) as [? _].
  pose proof (byte_in i dev_bsize Hi). apply (block_not_itouched (bitmap m g')); try done; lia.
Qed.

Lemma iframe_iused g' i : 0 <= g' < groups m -> g' <> g -> 0 <= i < 8 * dev_bsize -> iused m' g' i = iused m g' i.
Proof.
  intros Hg' Hne Hi. unfold iused. rewrite (kept_ibitmap m m' iframe_keeps (ok_desc_size m Hok)) by done. apply bget_on, Hf.
  destruct (bitmap_nonneg m g'). destruct (ok_bitmaps m Hok g' g Hg' Hg) as [Hb _]. destruct (Hb Hne).
  pose proof (ok_bitmap_desc m Hok g' g Hg' Hg) as [_ ?].
  pose proof (byte_in i dev_bsize Hi). apply (block_not_itouched (ibitmap m g')); try done; lia.
Qed.

Lemma iframe_gfree g' : 0 <= g' < groups m -> gfree m' g' = gfree m g'.
Proof.
  intros Hg'. pose proof (ok_desc_size m Hok). unfold gfree. rewrite (kept_desc m m' (proj1 iframe_keeps)).
  apply (free_blocks_on m m'); [done|apply (kept_desc_size m m' (proj1 iframe_keeps))|]. intros x Hx. apply Hf, (desc_not_itouched g'); [done| |lia].
  destruct (decide (g' = g)) as [->|]; [right|by left]. unfold ivar. lia.
Qed.

Lemma iframe_sbfree : sbfree m' = sbfree m.
Proof.
  unfold sbfree, ext4_sb_get_free_blocks_cnt.
  by rewrite !(fget_on _ m m') by (done || (intros x Hx; cbn in Hx; apply Hf, sb_not_itouched; lia)).
Qed.

Lemma iframe_counter a g' : a ∈ inode_accs -> 0 <= g' < groups m -> g' <> g -> counter a m' g' = counter a m g'.
Proof.
  intros Ha Hg' Hne. destruct (inode_accs_ok a Ha) as ((Hget & _ & Hw & Hl & Hh & O1 & O2 & O3 & O4) & _).
  unfold counter. rewrite (kept_desc m m' (proj1 iframe_keeps)), !Hget, (kept_wide m m' iframe_keeps).
  unfold desc_is_wide. fold (desc_size m). unfold EXT4_MIN_BLOCK_GROUP_DESCRIPTOR_SIZE. pose proof (ok_desc_size m Hok).
  rewrite (fget_on _ m m') by (lia || (intros x Hx; apply Hf, (desc_not_itouched g'); [done|by left|lia])).
  case_if; [|done]. zb. by rewrite (fget_on _ m m') by (lia || (intros x Hx; apply Hf, (desc_not_itouched g'); [done|by left|lia])).
Qed.
End update.

(** ** Checksum of an inode bitmap *)

Lemma icsum_frame m bg b x : desc_size m = 32 \/ desc_size m = 64 ->
  ~ (bg + 26 <= x < bg + 28 \/ (desc_size m = 64 /\ bg + 58 <= x < bg + 60)) ->
  ld8 (ext4_ialloc_set_bitmap_csum m sb bg b) x = ld8 m x.
Proof.
  intros Hd Hx. unfold ext4_ialloc_set_bitmap_csum. fold (desc_size m). unfold EXT4_MAX_BLOCK_GROUP_DESCRIPTOR_SIZE.
  repeat case_if; zb; rewrite ?ld8_fset by (cbn; lia); done.
Qed.

Section csum.
Context (m m' : memory) (b : Z) (Hs : forall x, sb <= x < sb + 1024 -> ~ sb_counter x -> ld8 m' x = ld8 m x).
Hypothesis (Hb : forall x, b <= x < b + dev_bsize -> ld8 m' x = ld8 m x) (Hi : 0 < ipg m <= 8 * dev_bsize).

Lemma icsum_on : ext4_ialloc_bitmap_csum m' sb b = ext4_ialloc_bitmap_csum m sb b.
Proof.
  unfold ext4_ialloc_bitmap_csum. rewrite (kept_ro_com m m' Hs). case_if; [|done]. rewrite (kept_field m m' Hs) by fld.
  fold (ipg m). assert (u32 (ipg m + 7) / 8 <= dev_bsize).
  { pose proof (uw_range 32 (ipg m + 7) ltac:(lia)). assert (u32 (ipg m + 7) <= ipg m + 7) by (apply Z.mod_le; lia).
    apply Z.lt_succ_r, Z.div_lt_upper_bound; lia. }
  rewrite (crc32c_on m m' _ b) by (intros x Hx; apply Hb; lia).
  f_equal. apply crc32c_on. intros x Hx. apply (kept_uuid m m' Hs). cbn in Hx. lia.
Qed.

Lemma iverify_on bg : (forall x, bg + 26 <= x < bg + 28 \/ (desc_size m = 64 /\ bg + 58 <= x < bg + 60) -> ld8 m' x = ld8 m x) ->
  ext4_ialloc_verify_bitmap_csum m' sb bg b = ext4_ialloc_verify_bitmap_csum m sb bg b.
Proof.
  intros Hd. unfold ext4_ialloc_verify_bitmap_csum. rewrite icsum_on, (kept_ro_com m m' Hs). fold (desc_size m') (desc_size m).
  rewrite (kept_desc_size m m' Hs). unfold EXT4_MAX_BLOCK_GROUP_DESCRIPTOR_SIZE.
  rewrite (fget_on bg_inode_bitmap_csum_lo m m') by (done || (intros x Hx; apply Hd; cbn in Hx; lia)).
  destruct (desc_size m =? 64) eqn:E64; [|done]. zb.
  by rewrite (fget_on bg_inode_bitmap_csum_hi m m') by (done || (intros x Hx; apply Hd; cbn in Hx; lia)).
Qed.
End csum.

Lemma icsum_verify m bg b : desc_size m = 32 \/ desc_size m = 64 -> sb + 1024 <= bg -> sb + 1024 <= b ->
  b + dev_bsize <= bg \/ bg + desc_size m <= b -> 0 < ipg m <= 8 * dev_bsize ->
  ext4_ialloc_verify_bitmap_csum (ext4_ialloc_set_bitmap_csum m sb bg b) sb bg b = true.
Proof.
  intros Hd Hbg Hb Hap Hpg. set (m' := ext4_ialloc_set_bitmap_csum m sb bg b).
  assert (forall x, ~ (bg + 26 <= x < bg + 28 \/ (desc_size m = 64 /\ bg + 58 <= x < bg + 60)) -> ld8 m' x = ld8 m x) as Hf
    by (intros x; apply icsum_frame; done).
  assert (forall x, sb <= x < sb + 1024 -> ~ sb_counter x -> ld8 m' x = ld8 m x) as Hs by (intros x Hx _; apply Hf; lia).
  assert (ext4_ialloc_bitmap_csum m' sb b = ext4_ialloc_bitmap_csum m sb b) as Ec.
  { apply icsum_on; try done. intros x Hx. apply Hf. lia. }
  unfold ext4_ialloc_verify_bitmap_csum. rewrite Ec, (kept_ro_com m m' Hs). fold (desc_size m') (desc_size m).
  rewrite (kept_desc_size m m' Hs). case_if; [done|]. unfold m', ext4_ialloc_set_bitmap_csum. fold (desc_size m).
  rewrite E. cbn [negb]. destruct (desc_size m =? EXT4_MAX_BLOCK_GROUP_DESCRIPTOR_SIZE).
  - rewrite fget_fset_other, !fget_fset_same by (fld || exact (uw_range 16 _ ltac:(lia))). by rewrite !Z.eqb_refl.
  - rewrite fget_fset_same by (fld || exact (uw_range 16 _ ltac:(lia))). by rewrite !Z.eqb_refl.
Qed.

(** ** From a changed bitmap to a consistent group *)

(** [l] are the counters set, [c] is the free count of the superblock. *)
Record inode_change (m m' : memory) (g : Z) (bits : Z -> bool) (l : list (accessor * Z)) (c : Z) : Prop := {
  ic_keeps : keeps m m';
  ic_frame : iframe m g m';
  ic_bits g' i : 0 <= g' < groups m -> 0 <= i < 8 * dev_bsize -> iused m' g' i = if g' =? g then bits i else iused m g' i;
  ic_counter a g' : a ∈ inode_accs -> 0 <= g' < groups m ->
    counter a m' g' = if g' =? g then a_get a (set_all l m (desc m g)) (desc m g) sb else counter a m g';
  ic_sb : sbifree m' = c;
  ic_bitmap_csum : ext4_ialloc_verify_bitmap_csum m' sb (desc m g) (buf (ibitmap m g)) = true;
  ic_desc_csum : (ext4_fs_verify_bg_csum m' sb g (desc m g)).2 = true;
}.

(** Counters set by [l] do not depend on the rest. *)
Lemma set_all_ext l : forall bg m m', apart bg sb -> valid_sets l -> desc_size m = 32 \/ desc_size m = 64 -> desc_size m' = desc_size m ->
  (forall a, a ∈ inode_accs -> a_get a m' bg sb = a_get a m bg sb) ->
  forall a, a ∈ inode_accs -> a_get a (set_all l m' bg) bg sb = a_get a (set_all l m bg) bg sb.
Proof.
  induction l as [|[b v] l IH]; intros bg m m' Hap Hl Hd Ed Hget a Ha; [by apply Hget|]. destruct (Hl b v ltac:(left)) as [Hb Hv].
  change (set_all ((b, v) :: l) ?x bg) with (set_all l (a_set b x bg sb v) bg).
  apply IH; try done.
  - intros c w Hc. apply Hl. by right.
  - by rewrite acc_set_desc_size.
  - rewrite !acc_set_desc_size by (rewrite ?Ed; done). done.
  - intros c Hc. assert ({c = b} + {c <> b}) as [->|Hne].
    { unfold inode_accs in Hc, Hb. rewrite !elem_of_cons, !elem_of_nil in *.
      destruct (decide (f_off (a_lo c) = f_off (a_lo b))) as [E|E]; [left|right; by intros ->].
      destruct Hc as [->|[->|[->|[]]]], Hb as [->|[->|[->|[]]]]; done. }
    + destruct (inode_accs_ok b Hb) as (Hok & Ew & _). rewrite !accessor_set_get by (rewrite ?Ew; done).
      unfold desc_is_wide. change (ext4_sb_get_desc_size ?m sb) with (desc_size m). by rewrite Ed.
    + rewrite !acc_get_other by done. by apply Hget.
Qed.

Section finish.
Context (m : memory) (g : Z) (Hok : fs_ok m) (Hiok : inodes_ok m) (Hg : 0 <= g < groups m).
#[local] Notation D := (desc m g).
#[local] Notation B := (buf (ibitmap m g)).
Context (m1 : memory) (H1 : forall x, x < B \/ B + dev_bsize <= x -> ld8 m1 x = ld8 m x).
Context (l : list (accessor * Z)) (c : Z) (Hl : valid_sets l) (Hc : 0 <= c < 2 ^ 32).
Let m2 : memory := ext4_ialloc_set_bitmap_csum m1 sb D B.
Let m3 : memory := set_all l m2 D.
Let m4 : memory := put_bg_checksum m3 sb g D.
Let m5 : memory := fset sb_free_inodes_count m4 sb c.

Lemma fin_desc_far x : D <= x < D + desc_size m -> (x < B \/ B + dev_bsize <= x) /\ sb + 1024 <= x.
Proof.
  intros Hx. pose proof (desc_above m g Hok Hg). pose proof (bitmap_desc_apart m g g Hok Hg Hg) as [_ ?]. lia.
Qed.

Lemma fin_frame1 : iframe m g m1.
Proof. intros x Hx. apply H1. unfold itouched in Hx. lia. Qed.

Lemma fin_ds mm : iframe m g mm -> desc_size mm = desc_size m.
Proof. intros Hf. apply kept_desc_size, (iframe_keeps m g Hok Hg mm Hf). Qed.

Lemma fin_apart : apart D sb.
Proof. right. by apply desc_above. Qed.

Lemma fin_step2 x : ~ (D + 26 <= x < D + 28 \/ (desc_size m = 64 /\ D + 58 <= x < D + 60)) -> ld8 m2 x = ld8 m1 x.
Proof. intros Hx. apply icsum_frame; rewrite (fin_ds m1 fin_frame1); [apply (ok_desc_size m Hok)|done]. Qed.

Lemma fin_frame2 : iframe m g m2.
Proof.
  intros x Hx. pose proof (ok_desc_size m Hok). rewrite fin_step2 by (unfold itouched, ivar in Hx; lia). by apply fin_frame1.
Qed.

Lemma fin_ds2 : desc_size m2 = 32 \/ desc_size m2 = 64.
Proof. rewrite (fin_ds m2 fin_frame2). apply (ok_desc_size m Hok). Qed.

Lemma fin_step3 x : ~ (x - D < desc_size m /\ cvar (x - D)) -> ld8 m3 x = ld8 m2 x.
Proof. intros Hx. apply (set_all_spec D fin_apart l m2 Hl fin_ds2). by rewrite (fin_ds m2 fin_frame2). Qed.

Lemma fin_frame3 : iframe m g m3.
Proof. intros x Hx. rewrite fin_step3 by (unfold itouched, ivar, cvar in *; lia). by apply fin_frame2. Qed.

Lemma fin_step4 x : x < D + 30 \/ D + 32 <= x -> ld8 m4 x = ld8 m3 x.
Proof. apply put_bg_ld8. Qed.

Lemma fin_step5 x : x < sb + 16 \/ sb + 20 <= x -> ld8 m5 x = ld8 m4 x.
Proof. intros Hx. unfold m5. by rewrite ld8_fset by (cbn; lia). Qed.

Lemma fin_frame4 : iframe m g m4.
Proof.
  intros x Hx. pose proof (ok_desc_size m Hok). rewrite fin_step4 by (unfold itouched, ivar in Hx; lia). by apply fin_frame3.
Qed.

Lemma fin_frame5 : iframe m g m5.
Proof. intros x Hx. rewrite fin_step5 by (unfold itouched in Hx; lia). by apply fin_frame4. Qed.

Lemma fin_bits i : 0 <= i < 8 * dev_bsize -> iused m5 g i = bget m1 B i.
Proof.
  intros Hi. pose proof (byte_in i dev_bsize Hi) as Hb. unfold iused.
  rewrite (kept_ibitmap m m5 (iframe_keeps m g Hok Hg m5 fin_frame5) (ok_desc_size m Hok)) by done. apply bget_on.
  pose proof (bitmap_above m g Hok) as [_ ?]. pose proof (bitmap_desc_apart m g g Hok Hg Hg) as [_ ?]. pose proof (ok_desc_size m Hok).
  rewrite fin_step5, fin_step4, fin_step3, fin_step2 by (unfold cvar; lia). done.
Qed.

(** The counters read the bytes that [set_all] left. *)
Lemma fin_get a : a ∈ inode_accs -> a_get a m5 D sb = a_get a m3 D sb.
Proof.
  intros Ha. destruct (inode_accs_ok a Ha) as (Hacc & _ & Blo & Bhi). pose proof Hacc as (Hget & _ & Hw & Hll & Hh & O1 & O2 & O3 & O4).
  rewrite !Hget. rewrite (kept_wide m m3 (iframe_keeps m g Hok Hg m3 fin_frame3)), (kept_wide m m5 (iframe_keeps m g Hok Hg m5 fin_frame5)).
  pose proof (ok_desc_size m Hok) as Hd. unfold desc_is_wide. fold (desc_size m). unfold EXT4_MIN_BLOCK_GROUP_DESCRIPTOR_SIZE.
  assert (forall f, 0 <= f_len f -> (forall o, f_off f <= o < f_off f + f_len f -> 14 <= o < 18 \/ 28 <= o < 30 \/ 46 <= o < 52) ->
    f_off f + f_len f <= desc_size m -> fget f m5 D = fget f m3 D) as Hf.
  { intros f Hf0 Ho Hfd. apply fget_on; [done|]. intros x Hx. assert (f_off f <= x - D < f_off f + f_len f) as Hxo by lia.
    specialize (Ho _ Hxo). assert (D <= x < D + desc_size m) as Hxd by lia. pose proof (fin_desc_far x Hxd).
    rewrite fin_step5, fin_step4 by lia. done. }
  rewrite Hf by (lia || (intros o Ho; specialize (Blo o Ho); lia)). case_if; [|done]. zb.
  by rewrite Hf by (lia || (intros o Ho; specialize (Bhi o Ho); lia)).
Qed.

Lemma fin_before a : a ∈ inode_accs -> a_get a m2 D sb = a_get a m D sb.
Proof.
  intros Ha. destruct (inode_accs_ok a Ha) as (Hacc & _ & Blo & Bhi). pose proof Hacc as (Hget & _ & Hw & Hll & Hh & O1 & O2 & O3 & O4).
  rewrite !Hget. rewrite (kept_wide m m2 (iframe_keeps m g Hok Hg m2 fin_frame2)).
  pose proof (ok_desc_size m Hok) as Hd. unfold desc_is_wide. fold (desc_size m). unfold EXT4_MIN_BLOCK_GROUP_DESCRIPTOR_SIZE.
  assert (forall f, 0 <= f_len f -> (forall o, f_off f <= o < f_off f + f_len f -> 14 <= o < 18 \/ 28 <= o < 30 \/ 46 <= o < 52) ->
    f_off f + f_len f <= desc_size m -> fget f m2 D = fget f m D) as Hf.
  { intros f Hf0 Ho Hfd. apply fget_on; [done|]. intros x Hx. assert (f_off f <= x - D < f_off f + f_len f) as Hxo by lia.
    specialize (Ho _ Hxo). assert (D <= x < D + desc_size m) as Hxd by lia. pose proof (fin_desc_far x Hxd).
    rewrite fin_step2, H1 by lia. done. }
  rewrite Hf by (lia || (intros o Ho; specialize (Blo o Ho); lia)). case_if; [|done]. zb.
  by rewrite Hf by (lia || (intros o Ho; specialize (Bhi o Ho); lia)).
Qed.

Lemma fin_bitmap_csum : ext4_ialloc_verify_bitmap_csum m5 sb D B = true.
Proof.
  pose proof (ok_desc_size m Hok) as Hd. pose proof (iframe_keeps m g Hok Hg m1 fin_frame1) as K1.
  pose proof (iframe_keeps m g Hok Hg m2 fin_frame2) as K2. pose proof (iframe_keeps m g Hok Hg m5 fin_frame5) as K5.
  pose proof (ok_ipg m Hiok) as Hpg. pose proof (bitmap_above m g Hok) as [_ Hba].
  pose proof (desc_above m g Hok Hg) as Hda. pose proof (bitmap_desc_apart m g g Hok Hg Hg) as [_ Hap].
  assert (forall mm, keeps m mm -> ipg mm = ipg m) as Hi by (intros mm K; unfold ipg; by rewrite (kept_field m mm (proj1 K)) by fld).
  rewrite (iverify_on m2 m5).
  - apply icsum_verify; rewrite ?(fin_ds m1 fin_frame1), ?(Hi m1 K1); done || lia.
  - intros x Hx Hn. by rewrite (proj1 K5), (proj1 K2).
  - intros x Hx. rewrite fin_step5, fin_step4, fin_step3 by (unfold cvar; lia). done.
  - by rewrite (Hi m2 K2).
  - rewrite (fin_ds m2 fin_frame2). intros x Hx. rewrite fin_step5, fin_step4, fin_step3 by (unfold cvar; lia). done.
Qed.

Lemma fin_desc_csum : (ext4_fs_verify_bg_csum m5 sb g D).2 = true.
Proof.
  pose proof (iframe_keeps m g Hok Hg m5 fin_frame5) as K5. pose proof (iframe_keeps m g Hok Hg m3 fin_frame3) as K3.
  pose proof (iframe_keeps m g Hok Hg m4 fin_frame4) as K4.
  rewrite (verify_desc_on m4 m5).
  - destruct (ext4_sb_feature_ro_com m3 sb EXT4_FRO_COM_METADATA_CSUM) eqn:Hon; [apply bg_verify_put; [apply fin_apart|done]|].
    unfold ext4_fs_verify_bg_csum. by rewrite (kept_ro_com m m4 (proj1 K4)), <- (kept_ro_com m m3 (proj1 K3)), Hon.
  - apply fin_apart.
  - intros x Hx Hn. apply fin_step5. unfold sb_counter in Hn. lia.
  - rewrite (fin_ds m4 fin_frame4). intros x Hx. pose proof (fin_desc_far x Hx). apply fin_step5. lia.
Qed.

Lemma fin_sbifree : fget sb_free_inodes_count m4 sb = sbifree m.
Proof.
  unfold sbifree. apply fget_on; [done|]. intros x Hx. cbn in Hx. pose proof (desc_above m g Hok Hg). pose proof (bitmap_above m g Hok) as [_ ?].
  pose proof (ok_desc_size m Hok). rewrite fin_step4, fin_step3, fin_step2, H1 by (unfold cvar; lia). done.
Qed.

Lemma inode_finish : inode_change m m5 g (fun i => bget m1 B i) l c.
Proof.
  pose proof (iframe_keeps m g Hok Hg m5 fin_frame5) as K5. constructor; [done|apply fin_frame5| | | |apply fin_bitmap_csum|apply fin_desc_csum].
  - intros g' i Hg' Hi. destruct (g' =? g) eqn:E; zb; [subst; by apply fin_bits|]. apply (iframe_iused m g Hok Hg m5 fin_frame5); done.
  - intros a g' Ha Hg'. destruct (g' =? g) eqn:E; zb; [subst g'|by apply (iframe_counter m g Hok Hg m5 fin_frame5)].
    unfold counter. rewrite (kept_desc m m5 (proj1 K5)), fin_get by done.
    apply set_all_ext; try done; [apply fin_apart|apply (ok_desc_size m Hok)|apply (fin_ds m2 fin_frame2)|apply fin_before].
  - unfold sbifree, m5. by rewrite fget_fset_same by fld.
Qed.
End finish.
End spec.
