(* ===== verification/Ext4IallocRefine.v ===== *)
(** lwext4, inode allocation against sets of inodes: the inode bitmaps and the
    counters represent the set of free inodes and the set of directories. *)
From S2P Require Import Prelude Memory Ext4Errno Ext4Bitmap Ext4Crc Ext4Layout Ext4Super Ext4BlockGroup Ext4Inode.
From S2P Require Import Ext4Store Ext4Fs Ext4Groups Ext4BallocSpec Ext4BallocRun Ext4BallocRefine Ext4Ialloc.
From S2P Require Import Ext4IallocSpec.
#[local] Open Scope Z_scope.
#[local] Open Scope cint_scope.
#[local] Opaque ext4_crc32c ext4_bg_crc16.

(** ** Counting clear bits *)

Definition nclear (f : Z -> bool) (n : Z) : Z := zsum (fun i => if f i then 0 else 1) n.

Lemma nclear_range f n : 0 <= n -> 0 <= nclear f n <= n.
Proof. intros Hn. destruct (zsum_le (fun i => if f i then 0 else 1) 1 n Hn); [intros; case_if; lia|]. unfold nclear. lia. Qed.

Lemma nclear_ext f f' n : (forall i, 0 <= i < n -> f' i = f i) -> nclear f' n = nclear f n.
Proof. intros Hf. apply zsum_ext. intros i Hi. by rewrite Hf. Qed.

Lemma nclear_flip f f' n i v : 0 <= i < n -> (forall j, 0 <= j < n -> f' j = if j =? i then v else f j) -> f i = negb v ->
  nclear f' n = nclear f n + if v then -1 else 1.
Proof.
  intros Hi Hf Hw. unfold nclear.
  rewrite (zsum_add (fun i => if f i then 0 else 1) _ (fun j => if (i <=? j) && (j <? i + 1) then if v then -1 else 1 else 0)); [|lia|].
  - rewrite zsum_range by lia. destruct v; lia.
  - intros j Hj. rewrite Hf by done. destruct (j =? i) eqn:E; zb.
    + subst j. rewrite Hw, (proj2 (Z.leb_le i i)), (proj2 (Z.ltb_lt i (i + 1))) by lia. by destruct v.
    + assert ((i <=? j) && (j <? i + 1) = false) as -> by (apply andb_false_iff; lia). lia.
Qed.

Lemma nclear_used f n i : 0 <= i < n -> f i = true -> nclear f n <= n - 1.
Proof.
  intros Hi Hf. assert (0 <= n) as Hn by lia. pose proof (nclear_range (fun j => if j =? i then false else f j) n Hn).
  rewrite (nclear_flip f (fun j => if j =? i then false else f j) n i false) in * by done. lia.
Qed.

Lemma nclear_zero f n i : nclear f n = 0 -> 0 <= i < n -> f i = true.
Proof.
  intros Hz Hi. pose proof (zsum_term (fun i => if f i then 0 else 1) n i) as Ht. unfold nclear in Hz. rewrite Hz in Ht. cbv beta in Ht.
  destruct (f i); [done|]. assert (1 <= 0); [|lia]. apply Ht; [intros; case_if; lia|done].
Qed.

(** ** One member more or less *)

Section members.
Context (A G : gset Z) (n : Z).

Lemma size_add : n ∈ G -> n ∉ A -> size (({[ n ]} ∪ A) ∩ G) = S (size (A ∩ G)).
Proof.
  intros HG HA. replace (({[ n ]} ∪ A) ∩ G) with ({[ n ]} ∪ A ∩ G) by (apply set_eq; set_solver).
  by rewrite size_union, size_singleton by set_solver.
Qed.

Lemma size_remove : n ∈ G -> n ∈ A -> size (A ∩ G) = S (size (A ∖ {[ n ]} ∩ G)).
Proof.
  intros HG HA. replace (A ∖ {[ n ]} ∩ G) with ((A ∩ G) ∖ {[ n ]}) by (apply set_eq; set_solver).
  assert ({[ n ]} ⊆ A ∩ G) as Hs by set_solver. rewrite (size_difference (A ∩ G) {[ n ]} Hs), size_singleton.
  assert (0 < size (A ∩ G))%nat; [|lia]. apply Nat.neq_0_lt_0. intros Hz. apply size_empty_inv in Hz. set_solver.
Qed.

Lemma add_apart : n ∉ G -> ({[ n ]} ∪ A) ∩ G = A ∩ G.
Proof. intros HG. apply set_eq. set_solver. Qed.

Lemma remove_apart : n ∉ G -> A ∖ {[ n ]} ∩ G = A ∩ G.
Proof. intros HG. apply set_eq. set_solver. Qed.
End members.

Section refine.
Context `{Device}.
#[local] Notation sb := fs_sb.

(** ** Inode numbers *)

Definition inum (m : memory) (g i : Z) : Z := g * ipg m + i + 1.

Lemma inum_small m g i : fs_ok m -> inodes_ok m -> 0 <= g < groups m -> 0 <= i < inodes_in m g -> 1 <= inum m g i < 2 ^ 32 /\ 0 <= g * ipg m.
Proof.
  intros Hok Hiok Hg Hi. pose proof (inodes_in_range m g Hok Hiok Hg). destruct Hiok as [H1 _ H3].
  pose proof (fget_range sb_inodes_count m sb) as Hc. change (2 ^ _) with (2 ^ 32) in Hc. pose proof (groups_range m Hok).
  unfold inum, inodes_in, ext4_inodes_in_group_cnt in *. fold (groups m) (ipg m) in Hi. rewrite (uw_small 32 (groups m - 1)) in Hi by lia.
  case_if_in Hi; zb; [nia|]. rewrite (uw_small 32 ((groups m - 1) * ipg m)), uw_small in Hi by nia. nia.
Qed.

Lemma inum_ok m g i : fs_ok m -> inodes_ok m -> 0 <= g < groups m -> 0 <= i < inodes_in m g ->
  ext4_ialloc_bgidx_to_inode m sb i g = inum m g i /\ ext4_ialloc_get_bgid_of_inode m sb (inum m g i) = g /\
  ext4_ialloc_inode_to_bgidx m sb (inum m g i) = i.
Proof.
  intros Hok Hiok Hg Hi. destruct (inum_small m g i Hok Hiok Hg Hi) as [Hs Hs']. pose proof (inodes_in_range m g Hok Hiok Hg).
  unfold ext4_ialloc_bgidx_to_inode, ext4_ialloc_get_bgid_of_inode, ext4_ialloc_inode_to_bgidx. fold (ipg m). unfold inum in *.
  rewrite (uw_small 32 (g * ipg m)), (uw_small 32 (i + 1)), !uw_small by lia. replace (g * ipg m + i + 1 - 1) with (i + g * ipg m) by lia.
  rewrite Z.div_add, Z.mod_add, Z.div_small, Z.mod_small by lia. lia.
Qed.

Lemma inum_inj m g i g' i' : fs_ok m -> inodes_ok m -> 0 <= g < groups m -> 0 <= i < inodes_in m g -> 0 <= g' < groups m ->
  0 <= i' < inodes_in m g' -> inum m g i = inum m g' i' -> g = g' /\ i = i'.
Proof.
  intros Hok Hiok Hg Hi Hg' Hi' E. destruct (inum_ok m g i Hok Hiok Hg Hi) as (_ & E1 & E2).
  destruct (inum_ok m g' i' Hok Hiok Hg' Hi') as (_ & E3 & E4). rewrite E in E1, E2. split; congruence.
Qed.

Lemma zsum_inodes m : fs_ok m -> inodes_ok m -> zsum (inodes_in m) (groups m) = fget sb_inodes_count m sb.
Proof.
  intros Hok [H1 _ H3]. pose proof (groups_range m Hok). pose proof (fget_range sb_inodes_count m sb) as Hc. change (2 ^ _) with (2 ^ 32) in Hc.
  rewrite (zsum_const_last _ _ (ipg m)); [|lia|].
  - unfold inodes_in, ext4_inodes_in_group_cnt. fold (groups m) (ipg m). rewrite (uw_small 32 (groups m - 1)), Z.ltb_irrefl by lia.
    rewrite (uw_small 32 ((groups m - 1) * ipg m)), uw_small by nia. lia.
  - intros g Hg. unfold inodes_in, ext4_inodes_in_group_cnt. fold (groups m) (ipg m). rewrite (uw_small 32 (groups m - 1)) by lia.
    by rewrite (proj2 (Z.ltb_lt g (groups m - 1))) by lia.
Qed.

(** ** Representation *)

Definition group_inodes (m : memory) (g : Z) : gset Z := block_range (g * ipg m + 1) (inodes_in m g).

Record irepr (m : memory) (I Dirs : gset Z) : Prop := {
  i_ok : fs_ok m;
  i_iok : inodes_ok m;
  i_count g : 0 <= g < groups m -> counter free_inodes_acc m g = nclear (iused m g) (inodes_in m g);
  i_sb : sbifree m = zsum (fun g => nclear (iused m g) (inodes_in m g)) (groups m);
  i_free n : n ∈ I <-> exists g i, 0 <= g < groups m /\ 0 <= i < inodes_in m g /\ n = inum m g i /\ iused m g i = false;
  i_dirs g : 0 <= g < groups m -> counter used_dirs_acc m g = Z.of_nat (size (Dirs ∩ group_inodes m g));
  i_dirs_used n : n ∈ Dirs -> exists g i, 0 <= g < groups m /\ 0 <= i < inodes_in m g /\ n = inum m g i /\ iused m g i = true;
  i_table g i : 0 <= g < groups m -> 0 <= i < inodes_in m g -> iused m g i = true -> i < inodes_in m g - counter unused_acc m g;
  i_unused g : 0 <= g < groups m -> 0 <= counter unused_acc m g <= inodes_in m g;
}.

Lemma elem_of_group_inodes m n g : n ∈ group_inodes m g <-> exists i, 0 <= i < inodes_in m g /\ n = inum m g i.
Proof.
  unfold group_inodes. rewrite elem_of_block_range. unfold inum. split.
  - intros Hn. exists (n - (g * ipg m + 1)). lia.
  - intros (i & Hi & ->). lia.
Qed.

Lemma group_inodes_size m (S : gset Z) g : 0 <= inodes_in m g -> 0 <= Z.of_nat (size (S ∩ group_inodes m g)) <= inodes_in m g.
Proof.
  intros Hn. split; [lia|]. rewrite <- (size_block_range (g * ipg m + 1) (inodes_in m g) Hn). apply inj_le, subseteq_size.
  fold (group_inodes m g). set_solver.
Qed.

(** The count of the superblock has room for a released inode. *)
Lemma sbifree_room m I Dirs g i : irepr m I Dirs -> 0 <= g < groups m -> 0 <= i < inodes_in m g ->
  0 <= sbifree m /\ (iused m g i = true -> sbifree m + 1 < 2 ^ 32) /\ (iused m g i = false -> 1 <= sbifree m).
Proof.
  intros R Hg Hi. pose proof (i_ok _ _ _ R) as Hok. pose proof (i_iok _ _ _ R) as Hiok. pose proof (groups_range m Hok).
  pose proof (zsum_inodes m Hok Hiok) as Hsum. pose proof (fget_range sb_inodes_count m sb) as Hc. change (2 ^ _) with (2 ^ 32) in Hc.
  assert (forall g', 0 <= g' < groups m -> 0 <= nclear (iused m g') (inodes_in m g') <= inodes_in m g') as Hr.
  { intros g' Hg'. pose proof (inodes_in_range m g' Hok Hiok Hg'). apply nclear_range. lia. }
  pose proof (fun Hn => zsum_bounds (fun g' => nclear (iused m g') (inodes_in m g')) (inodes_in m) (groups m) Hn Hr) as Hb.
  rewrite (i_sb _ _ _ R). specialize (Hb ltac:(lia)). split; [lia|]. split; intros Hu.
  - pose proof (nclear_used _ _ i Hi Hu) as Hlt.
    pose proof (fun Hn => zsum_bounds (fun g' => nclear (iused m g') (inodes_in m g'))
      (fun g' => inodes_in m g' + if (g <=? g') && (g' <? g + 1) then -1 else 0) (groups m) Hn) as Hb'.
    rewrite (zsum_add (inodes_in m) (fun g' => inodes_in m g' + _) (fun g' => if (g <=? g') && (g' <? g + 1) then -1 else 0)) in Hb' by (done || lia).
    rewrite zsum_range in Hb' by lia. destruct Hb' as [_ Hb']; [lia| |lia].
    intros g' Hg'. pose proof (Hr g' Hg'). destruct ((g <=? g') && (g' <? g + 1)) eqn:E; [|lia]. zb.
    assert (g' = g) as -> by lia. lia.
  - assert (1 <= nclear (iused m g) (inodes_in m g)) as Hp.
    { destruct (decide (nclear (iused m g) (inodes_in m g) = 0)) as [E|]; [|pose proof (Hr g Hg); lia].
      by rewrite (nclear_zero _ _ i E Hi) in Hu. }
    pose proof (zsum_term (fun g' => nclear (iused m g') (inodes_in m g')) (groups m) g) as Ht. cbv beta in Ht.
    etransitivity; [exact Hp|]. apply Ht; [intros; by apply Hr|done].
Qed.

Lemma unused_not_dir m I Dirs g i : irepr m I Dirs -> 0 <= g < groups m -> 0 <= i < inodes_in m g -> iused m g i = false ->
  inum m g i ∉ Dirs.
Proof.
  intros R Hg Hi Hu Hn. apply (i_dirs_used _ _ _ R) in Hn as (g' & j & Hg' & Hj & E & Hu').
  destruct (inum_inj m g i g' j) as [-> ->]; try done; try apply R. congruence.
Qed.

(** ** One bit of one group *)

Definition ibits_with (m : memory) (g i : Z) (v : bool) : Z -> bool := fun j => if j =? i then v else iused m g j.

(** The directories after inode [n] of kind [is_dir] was taken or released. *)
Definition with_inode (v is_dir : bool) (n : Z) (S : gset Z) : gset Z :=
  if is_dir then if v then {[ n ]} ∪ S else S ∖ {[ n ]} else S.

Section change.
Context (m m' : memory) (I Dirs : gset Z) (g i : Z) (v is_dir : bool) (l : list (accessor * Z)).
Hypothesis R : irepr m I Dirs.
Hypothesis (Hg : 0 <= g < groups m) (Hi : 0 <= i < inodes_in m g) (Hwas : iused m g i = negb v).
#[local] Notation n := (inum m g i).
Hypothesis Hdir : if v then True else n ∈ Dirs <-> is_dir = true.
#[local] Notation d := (if v then -1 else 1).
Hypothesis Hic : inode_change m m' g (ibits_with m g i v) l (sbifree m + d).
Hypothesis Hfree : a_get free_inodes_acc (set_all l m (desc m g)) (desc m g) sb = counter free_inodes_acc m g + d.
Hypothesis Hdirs : a_get used_dirs_acc (set_all l m (desc m g)) (desc m g) sb = counter used_dirs_acc m g - if is_dir then d else 0.
Hypothesis Hunused : let u := a_get unused_acc (set_all l m (desc m g)) (desc m g) sb in
  0 <= u <= counter unused_acc m g /\ (v = true -> i < inodes_in m g - u).

Lemma ch_keeps : keeps m m'.
Proof. apply (ic_keeps _ _ _ _ _ _ Hic). Qed.

Lemma ch_ipg : ipg m' = ipg m.
Proof. unfold ipg. by rewrite (kept_field m m' (proj1 ch_keeps)) by fld. Qed.

Lemma ch_in g' : inodes_in m' g' = inodes_in m g'.
Proof. apply (kept_inodes_in_group m m' (proj1 ch_keeps)). Qed.

Lemma ch_inum g' j : inum m' g' j = inum m g' j.
Proof. unfold inum. by rewrite ch_ipg. Qed.

Lemma ch_groups : groups m' = groups m.
Proof. apply (kept_groups m m' (proj1 ch_keeps)). Qed.

Lemma ch_bit g' j : 0 <= g' < groups m -> 0 <= j < inodes_in m g' ->
  iused m' g' j = if (g' =? g) && (j =? i) then v else iused m g' j.
Proof.
  intros Hg' Hj. pose proof (inodes_in_range m g' (i_ok _ _ _ R) (i_iok _ _ _ R) Hg'). pose proof (ok_ipg m (i_iok _ _ _ R)).
  rewrite (ic_bits _ _ _ _ _ _ Hic) by (done || lia). unfold ibits_with. destruct (g' =? g) eqn:E; zb; [by subst|done].
Qed.

Lemma ch_nclear g' : 0 <= g' < groups m ->
  nclear (iused m' g') (inodes_in m g') = nclear (iused m g') (inodes_in m g') + if (g <=? g') && (g' <? g + 1) then d else 0.
Proof.
  intros Hg'. pose proof (inodes_in_range m g' (i_ok _ _ _ R) (i_iok _ _ _ R) Hg').
  destruct (decide (g' = g)) as [->|Hne].
  - rewrite (proj2 (Z.leb_le g g)), (proj2 (Z.ltb_lt g (g + 1))) by lia. cbn [andb].
    apply (nclear_flip _ _ _ i); [done| |done]. intros j Hj. rewrite ch_bit by done. by rewrite Z.eqb_refl.
  - assert ((g <=? g') && (g' <? g + 1) = false) as -> by (apply andb_false_iff; lia). rewrite Z.add_0_r.
    apply nclear_ext. intros j Hj. rewrite ch_bit by done. by rewrite (proj2 (Z.eqb_neq g' g)).
Qed.

Lemma ch_free n' : (if v then n' ∈ I /\ n' <> n else n' ∈ I \/ n' = n) <->
  exists g' j, 0 <= g' < groups m /\ 0 <= j < inodes_in m g' /\ n' = inum m g' j /\ iused m' g' j = false.
Proof.
  pose proof (i_ok _ _ _ R) as Hok. pose proof (i_iok _ _ _ R) as Hiok. pose proof (i_free _ _ _ R n') as HI.
  assert (forall g' j, 0 <= g' < groups m -> 0 <= j < inodes_in m g' -> n' = inum m g' j ->
    iused m' g' j = if decide (n' = n) then v else iused m g' j) as Hb.
  { intros g' j Hg' Hj ->. rewrite ch_bit by done. destruct (decide (inum m g' j = n)) as [E|E].
    - destruct (inum_inj m g' j g i) as [-> ->]; try done. by rewrite !Z.eqb_refl.
    - destruct ((g' =? g) && (j =? i)) eqn:Eb; [|done]. by apply andb_true_iff in Eb as [->%Z.eqb_eq ->%Z.eqb_eq]. }
  split.
  - intros Hn. assert ((n' = n /\ v = false) \/ (n' <> n /\ n' ∈ I)) as [[-> Ev]|[Hne Hn']].
    { destruct v; [right; tauto|]. destruct (decide (n' = n)); [left; tauto|right; tauto]. }
    + exists g, i. rewrite (Hb g i) by done. rewrite decide_True by done. done.
    + apply HI in Hn' as (g' & j & Hg' & Hj & -> & Hu). exists g', j. rewrite (Hb g' j) by done. by rewrite decide_False by done.
  - intros (g' & j & Hg' & Hj & -> & Hu). rewrite (Hb g' j) in Hu by done. destruct (decide (inum m g' j = n)) as [E|E].
    + subst v. by right.
    + assert (inum m g' j ∈ I) by (apply HI; eauto 10). destruct v; [done|by left].
Qed.

Lemma ch_group_inodes g' : group_inodes m' g' = group_inodes m g'.
Proof. unfold group_inodes. by rewrite ch_ipg, ch_in. Qed.

Lemma ch_member g' : 0 <= g' < groups m -> n ∈ group_inodes m g' <-> g' = g.
Proof.
  intros Hg'. rewrite elem_of_group_inodes. split; [|intros ->; eauto].
  intros (j & Hj & E). destruct (inum_inj m g i g' j) as [-> _]; try done; apply R.
Qed.

Lemma ch_dir : n ∈ Dirs -> v = false.
Proof.
  intros Hn. apply not_true_is_false. intros Ev. rewrite Ev in Hwas. exact (unused_not_dir m I Dirs g i R Hg Hi Hwas Hn).
Qed.

Lemma ch_dirs g' : 0 <= g' < groups m ->
  counter used_dirs_acc m' g' = Z.of_nat (size (with_inode v is_dir n Dirs ∩ group_inodes m g')).
Proof.
  intros Hg'. rewrite (ic_counter _ _ _ _ _ _ Hic) by (done || (right; left)). pose proof (ch_member g' Hg') as Hm.
  destruct (g' =? g) eqn:E; zb.
  - subst g'. rewrite Hdirs, (i_dirs _ _ _ R) by done. pose proof (proj2 Hm eq_refl) as Hn. unfold with_inode.
    pose proof ch_dir as Hd. destruct is_dir; [|lia]. destruct v.
    + rewrite size_add; [lia|done|]. intros Hx. by specialize (Hd Hx).
    + rewrite (size_remove Dirs (group_inodes m g) n); [lia|done|by apply Hdir].
  - rewrite (i_dirs _ _ _ R) by done. do 2 f_equal. unfold with_inode. assert (n ∉ group_inodes m g') as Hn by (by rewrite Hm).
    by destruct is_dir, v; rewrite ?add_apart, ?remove_apart.
Qed.

Lemma ch_repr I' : (forall n', n' ∈ I' <-> if v then n' ∈ I /\ n' <> n else n' ∈ I \/ n' = n) ->
  irepr m' I' (with_inode v is_dir n Dirs).
Proof.
  intros HI. pose proof (i_ok _ _ _ R) as Hok. pose proof (i_iok _ _ _ R) as Hiok. pose proof ch_keeps as Hk.
  constructor.
  - by eapply keeps_ok.
  - by eapply inodes_ok_keeps.
  - intros g'. rewrite ch_groups, ch_in. intros Hg'. rewrite ch_nclear by done.
    rewrite (ic_counter _ _ _ _ _ _ Hic) by (done || left). rewrite Hfree, !(i_count _ _ _ R) by done.
    destruct (g' =? g) eqn:E; zb; [subst; rewrite (proj2 (Z.leb_le g g)), (proj2 (Z.ltb_lt g (g + 1))) by lia; done|].
    assert ((g <=? g') && (g' <? g + 1) = false) as -> by (apply andb_false_iff; lia). lia.
  - rewrite (ic_sb _ _ _ _ _ _ Hic), (i_sb _ _ _ R), ch_groups.
    rewrite (zsum_add (fun g => nclear (iused m g) (inodes_in m g)) (fun g => nclear (iused m' g) (inodes_in m' g))
      (fun g' => if (g <=? g') && (g' <? g + 1) then d else 0)); [rewrite zsum_range by lia; lia|lia|].
    intros g' Hg'. by rewrite ch_in, ch_nclear.
  - intros n'. rewrite HI, ch_free, ch_groups. by setoid_rewrite ch_in; setoid_rewrite ch_inum.
  - intros g'. rewrite ch_groups, ch_group_inodes. apply ch_dirs.
  - intros n' Hn'. rewrite ch_groups. setoid_rewrite ch_in. setoid_rewrite ch_inum.
    assert (n' <> n \/ v = true /\ n' = n) as Hcase.
    { destruct (decide (n' = n)) as [->|]; [right|by left]. destruct v; [done|]. unfold with_inode in Hn'. destruct is_dir; [set_solver|].
      apply Hdir in Hn'. done. }
    destruct Hcase as [Hne|[Ev ->]].
    + destruct (i_dirs_used _ _ _ R n') as (g' & j & Hg' & Hj & -> & Hu); [unfold with_inode in Hn'; destruct is_dir, v; set_solver|].
      exists g', j. split_and!; try done; try lia. rewrite ch_bit by done. destruct ((g' =? g) && (j =? i)) eqn:Eb; [|done].
      by apply andb_true_iff in Eb as [->%Z.eqb_eq ->%Z.eqb_eq].
    + exists g, i. split_and!; try done; try lia. rewrite ch_bit by done. by rewrite !Z.eqb_refl.
  - intros g' j. rewrite ch_groups, ch_in. intros Hg' Hj. rewrite ch_bit by done.
    rewrite (ic_counter _ _ _ _ _ _ Hic) by (done || (right; right; left)). destruct (g' =? g) eqn:E; zb; cbn [andb].
    + subst g'. destruct Hunused as [Hu1 Hu2]. destruct (j =? i) eqn:Ej; zb; [intros Hv; subst j; by apply Hu2|].
      intros Hu. pose proof (i_table _ _ _ R g j Hg Hj Hu). lia.
    + by apply (i_table _ _ _ R).
  - intros g'. rewrite ch_groups, ch_in. intros Hg'. rewrite (ic_counter _ _ _ _ _ _ Hic) by (done || (right; right; left)).
    pose proof (i_unused _ _ _ R g' Hg'). destruct (g' =? g) eqn:E; zb; [subst g'; destruct Hunused; lia|done].
Qed.
End change.

(** ** The two allocators do not disturb each other *)

Lemma irepr_on m m' I Dirs : irepr m I Dirs -> keeps m m' ->
  (forall g i, 0 <= g < groups m -> 0 <= i < 8 * dev_bsize -> iused m' g i = iused m g i) ->
  (forall a g, a ∈ inode_accs -> 0 <= g < groups m -> counter a m' g = counter a m g) -> sbifree m' = sbifree m -> irepr m' I Dirs.
Proof.
  intros R Hk Hb Hc Hsb. pose proof (i_ok _ _ _ R) as Hok. pose proof (i_iok _ _ _ R) as Hiok.
  assert (groups m' = groups m) as Eg by apply (kept_groups m m' (proj1 Hk)).
  assert (ipg m' = ipg m) as Ei by (unfold ipg; by rewrite (kept_field m m' (proj1 Hk)) by fld).
  assert (forall g, inodes_in m' g = inodes_in m g) as En by (intros g; apply (kept_inodes_in_group m m' (proj1 Hk))).
  assert (forall g i, inum m' g i = inum m g i) as Eu by (intros; unfold inum; by rewrite Ei).
  assert (forall g i, 0 <= g < groups m -> 0 <= i < inodes_in m g -> iused m' g i = iused m g i) as Hb'.
  { intros g i Hg Hi. pose proof (inodes_in_range m g Hok Hiok Hg). pose proof (ok_ipg m Hiok). apply Hb; lia. }
  assert (forall g, 0 <= g < groups m -> nclear (iused m' g) (inodes_in m g) = nclear (iused m g) (inodes_in m g)) as Hn.
  { intros g Hg. pose proof (inodes_in_range m g Hok Hiok Hg). apply nclear_ext. intros i Hi. by apply Hb'. }
  constructor; rewrite ?Eg.
  - by eapply keeps_ok.
  - by eapply inodes_ok_keeps.
  - intros g Hg. rewrite En, Hc, Hn by (done || left). by apply (i_count _ _ _ R).
  - rewrite Hsb, (i_sb _ _ _ R). symmetry. apply zsum_ext. intros g Hg. by rewrite En, Hn.
  - intros n. rewrite (i_free _ _ _ R). split; intros (g & i & Hg & Hi & E & Hu); exists g, i; rewrite En, Eu, Hb' in * by (done || by rewrite <- En); done.
  - intros g Hg. unfold group_inodes. rewrite En, Ei, Hc by (done || (right; left)). by apply (i_dirs _ _ _ R).
  - intros n Hn'. apply (i_dirs_used _ _ _ R) in Hn' as (g & i & Hg & Hi & E & Hu). exists g, i. by rewrite En, Eu, Hb'.
  - intros g i Hg. rewrite En. intros Hi. rewrite Hb', Hc by (done || (right; right; left)). by apply (i_table _ _ _ R).
  - intros g Hg. rewrite En, Hc by (done || (right; right; left)). by apply (i_unused _ _ _ R).
Qed.

(** Counters read fields that are the same. *)
Lemma counter_on m m' a g : a ∈ inode_accs -> desc_size m = 32 \/ desc_size m = 64 -> keeps m m' ->
  (forall x, desc m g <= x < desc m g + desc_size m -> cvar (x - desc m g) -> ld8 m' x = ld8 m x) -> counter a m' g = counter a m g.
Proof.
  intros Ha Hd Hk Hx. destruct (inode_accs_ok a Ha) as ((Hget & _ & Hw & Hl & Hh & O1 & O2 & O3 & O4) & _ & Blo & Bhi).
  unfold counter. rewrite (kept_desc m m' (proj1 Hk)), !Hget, (kept_wide m m' Hk).
  unfold desc_is_wide. fold (desc_size m). unfold EXT4_MIN_BLOCK_GROUP_DESCRIPTOR_SIZE, cvar in *.
  rewrite (fget_on (a_lo a) m m'); [|lia|].
  2:{ intros x Hx'. apply Hx; [lia|]. specialize (Blo (x - desc m g)). lia. }
  case_if; [|done]. zb. rewrite (fget_on (a_hi a) m m'); [done|lia|].
  intros x Hx'. apply Hx; [lia|]. specialize (Bhi (x - desc m g)). lia.
Qed.

Lemma group_change_irepr ib ino m m' F U g jlo jhi cnt bits I Dirs : repr ib ino m F U -> 0 <= g < groups m ->
  data_blocks m ib jlo (jhi - jlo) -> group_change m m' g ino jlo jhi cnt bits -> irepr m I Dirs -> irepr m' I Dirs.
Proof.
  intros Rb Hg Hj Hgc R. pose proof (i_ok _ _ _ R) as Hok. pose proof (r_inode _ _ _ _ _ Rb) as Hino.
  pose proof (gc_keeps _ _ _ _ _ _ _ _ Hgc) as Hk. pose proof (gc_frame _ _ _ _ _ _ _ _ Hgc) as Hf.
  apply (irepr_on m); [done|done|apply (gc_ibits _ _ _ _ _ _ _ _ Hgc)| |].
  - intros a g' Ha Hg'. apply counter_on; [done|apply (ok_desc_size m Hok)|done|]. intros x Hx Hc. apply Hf.
    apply (desc_untouched m g ib ino jlo jhi Hok Hg Hino Hj g'); [done| |done]. destruct (decide (g' = g)) as [->|]; [right|by left].
    unfold cvar, dvar in *. lia.
  - unfold sbifree. apply fget_on; [done|]. intros x Hx. cbn in Hx. apply Hf, (sb_untouched m g ib ino jlo jhi Hok Hg Hino Hj); [lia|].
    unfold sb_blocks. lia.
Qed.

Lemma contents_irepr ib ino m m' F U a n I Dirs : repr ib ino m F U -> data_blocks m ib a n ->
  (forall x, x < buf a \/ buf (a + n) <= x -> ld8 m' x = ld8 m x) -> irepr m I Dirs -> irepr m' I Dirs.
Proof.
  intros Rb Hd Hon R. pose proof (i_ok _ _ _ R) as Hok. pose proof (contents_keeps ib ino a n m m' F U Rb Hd Hon) as Hk.
  apply (irepr_on m); [done|done| | |].
  - intros g i Hg Hi. unfold iused. rewrite (kept_ibitmap m m' Hk (ok_desc_size m Hok)) by done.
    pose proof (byte_in i dev_bsize Hi). apply bget_on, (contents_block ib ino a n m m' F U Rb Hd Hon (ibitmap m g)); [|lia].
    destruct Hd as (_ & _ & _ & D). by destruct (D g Hg) as (_ & _ & ?).
  - intros b g Hb Hg. apply counter_on; [done|apply (ok_desc_size m Hok)|done|]. intros x Hx _. pose proof (desc_inside m Hok g Hg).
    apply (contents_block ib ino a n m m' F U Rb Hd Hon (desc_block m g)); [|lia]. destruct Hd as (_ & _ & _ & D). by destruct (D g Hg) as (? & _).
  - unfold sbifree. apply fget_on; [done|]. intros x Hx. cbn in Hx. apply (contents_sb ib ino a n m m' F U Rb Hd Hon). lia.
Qed.

Lemma irepr_same m m' I Dirs : irepr m I Dirs -> same m m' -> irepr m' I Dirs.
Proof.
  intros R Hs. pose proof (i_ok _ _ _ R) as Hok. pose proof (same_keeps m m' Hs) as Hk. apply (irepr_on m); [done|done| | |].
  - intros g i Hg Hi. unfold iused. rewrite (kept_ibitmap m m' Hk (ok_desc_size m Hok)) by done. by apply bget_on.
  - intros a g Ha Hg. apply counter_on; [done|apply (ok_desc_size m Hok)|done|]. intros x _ _. apply Hs.
  - by apply fget_ld8.
Qed.

Lemma inode_change_repr ib ino m m' F U g bits l c : repr ib ino m F U -> 0 <= g < groups m -> inode_change m m' g bits l c ->
  repr ib ino m' F U.
Proof.
  intros R Hg Hic. pose proof (r_ok _ _ _ _ _ R) as Hok. pose proof (ic_keeps _ _ _ _ _ _ Hic) as Hk. pose proof (ic_frame _ _ _ _ _ _ Hic) as Hf.
  pose proof (ok_per_group m Hok) as Hp.
  apply (repr_on ib ino m); [done|done| |apply (iframe_gfree m g Hok Hg m' Hf)|apply (iframe_sbfree m g Hok Hg m' Hf)|].
  - intros g' i Hg' Hi. apply (iframe_used m g Hok Hg m' Hf); [done|lia].
  - destruct (r_inode _ _ _ _ _ R) as (I0 & I1 & I2 & I3). destruct (I3 g Hg) as (J1 & _ & J2).
    assert (forall f, 0 <= f_off f -> 0 <= f_len f -> f_off f + f_len f <= 128 -> fget f m' ino = fget f m ino) as Hfd.
    { intros f F1 F2 F3. apply fget_on; [done|]. intros x Hx. apply Hf, (block_not_itouched m g Hok Hg ib); try done. lia. }
    unfold iblocks, ext4_inode_get_blocks_count, ext4_inode_has_flag, ext4_inode_get_flags.
    rewrite (kept_ro_com m m' (proj1 Hk)), (kept_block_size m m' (proj1 Hk)). by rewrite !Hfd by fld.
Qed.
End refine.
