(* ===== verification/Ext4Sample.v ===== *)
(** lwext4, a small file system: 64 blocks of 1 KiB in one group.

    Block 2 holds the group descriptor, 3 and 4 the bitmaps, 5 to 8 the inode
    table; the blocks 21 to 28 are free and 11 and 12 are the two blocks of the
    first inode of the table, a regular file with one extent. *)
From S2P Require Import Prelude Memory Ext4Errno Ext4Bitmap Ext4Layout Ext4Super Ext4BlockGroup Ext4Inode Ext4Store.
From S2P Require Import Ext4Fs Ext4Groups Ext4Balloc Ext4BallocSpec Ext4BallocRun Ext4BallocRefine Ext4IallocSpec.
From S2P Require Import Ext4IallocRefine Ext4File Ext4Extent.
#[local] Open Scope Z_scope.

#[local] Instance sample_device : Device := {|
  dev_open := true;
  dev_blocks := 64;
  dev_bsize := 1024;
  dev_bufs := 4096;
  dev_io := fun _ => EOK;
  dev_junk := fun _ _ => 0;
  dev_early := fun _ => false;
  dev_saved := fun _ => false;
  dev_memory := fun _ => true;
  fs_sb := 0;
|}.

Definition sample_inode : Z := 4096 + 5 * 1024.

Definition sample_bitmaps (m : memory) : memory := fun x =>
  if (4096 + 3 * 1024 <=? x) && (x <? 4096 + 5 * 1024) then
    if x =? 4096 + 3 * 1024 + 2 then 0x0F else if x =? 4096 + 3 * 1024 + 3 then 0xF0
    else if x =? 4096 + 4 * 1024 + 1 then 0x07 else if x =? 4096 + 4 * 1024 + 2 then 0 else if x =? 4096 + 4 * 1024 + 3 then 0
    else 255
  else m x.

Definition sample_file (m : memory) : memory :=
  let root := ext_inode_hdr sample_inode in
  let i f v m := fset f m sample_inode v in
  let h f v m := fset f m root v in
  i ino_mode 0x81A4 (i ino_flags 0x00080000 (i ino_size_lo 2048 (i ino_blocks_count_lo 4
    (h eh_magic EXT4_EXTENT_MAGIC (h eh_entries_count 1 (h eh_max_entries_count 4
    (store_extent m (EXT_FIRST root) (Extent 0 2 0 11)))))))).

Definition sample_fs : memory :=
  let w f v m := fset f m 0 v in
  let d f v m := fset f m (4096 + 2 * 1024) v in
  sample_bitmaps
    (w sb_magic 0xEF53 (w sb_inodes_count 32 (w sb_blocks_count_lo 64 (w sb_blocks_per_group 8192 (w sb_first_data_block 1
    (w sb_inodes_per_group 32 (w sb_inode_size 128 (w sb_first_inode 11 (w sb_free_blocks_count_lo 8 (w sb_free_inodes_count 21
    (w sb_rev_level 1 (w sb_features_incompatible 0x0040
    (d bg_block_bitmap_lo 3 (d bg_inode_bitmap_lo 4 (d bg_inode_table_first_block_lo 5 (d bg_free_blocks_count_lo 8
    (d bg_free_inodes_count_lo 21
    (sample_file (fun _ => 0))))))))))))))))))).

Definition sample_free : gset Z := block_range 21 8.
Definition sample_owned : gset Z := block_range 11 2.

Lemma all_below (P : Z -> bool) n : forallb P (seqZ 0 n) = true -> forall i, 0 <= i < n -> P i = true.
Proof. intros Hf i Hi. rewrite forallb_forall in Hf. apply Hf. apply list_elem_of_In, elem_of_seqZ. lia. Qed.

Lemma sample_values : groups sample_fs = 1 /\ per_group sample_fs = 8192 /\ desc_size sample_fs = 32 /\ desc_block sample_fs 0 = 2 /\
  bitmap sample_fs 0 = 3 /\ ibitmap sample_fs 0 = 4 /\ in_group sample_fs 0 = 64.
Proof. vm_compute. tauto. Qed.

Lemma sample_group g : 0 <= g < groups sample_fs -> g = 0.
Proof. rewrite (proj1 sample_values). lia. Qed.

Lemma sample_used i : 0 <= i < 8192 -> used sample_fs 0 i = negb ((20 <=? i) && (i <? 28)).
Proof.
  destruct sample_values as (_ & _ & _ & _ & E5 & _). unfold used. rewrite E5. clear E5. intros Hi. apply eqb_true_iff. revert i Hi.
  apply (all_below (fun i => eqb (bget sample_fs (buf 3) i) (negb ((20 <=? i) && (i <? 28))))). vm_compute. reflexivity.
Qed.

Lemma sample_head : ext4_sb_get_block_size sample_fs fs_sb = 1024 /\ fget sb_log_block_size sample_fs fs_sb = 0 /\
  fget sb_first_data_block sample_fs fs_sb = 1 /\ ext4_sb_get_blocks_cnt sample_fs fs_sb = 64 /\
  ext4_bg_has_flag sample_fs (desc sample_fs 0) EXT4_BLOCK_GROUP_BLOCK_UNINIT = false /\
  ext4_bg_has_flag sample_fs (desc sample_fs 0) EXT4_BLOCK_GROUP_INODE_UNINIT = false.
Proof. vm_compute. tauto. Qed.

Lemma sample_ok : fs_ok sample_fs.
Proof.
  destruct sample_values as (E1 & E2 & E3 & E4 & E5 & E6 & _). destruct sample_head as (B1 & B2 & B3 & B4 & B5 & B6).
  constructor; rewrite ?E2, ?E3, ?B1, ?B2, ?B3, ?B4; try (cbn [dev_bsize dev_bufs fs_sb sample_device]; lia); try reflexivity.
  - intros g g' ->%sample_group ->%sample_group. rewrite E4, E5, E6. lia.
  - intros g g' ->%sample_group ->%sample_group. rewrite E5, E6. lia.
  - intros g ->%sample_group. by split.
Qed.

Lemma sample_data a : 9 <= a -> data_blocks sample_fs 5 a 1.
Proof.
  destruct sample_values as (E1 & E2 & E3 & E4 & E5 & E6 & _). intros Ha. split; [lia|]. split; [lia|]. split; [lia|].
  intros g ->%sample_group. rewrite E4, E5, E6. lia.
Qed.

Lemma sample_block i : 0 <= i < 64 -> block_at sample_fs (i + 1) 0 i.
Proof.
  destruct sample_values as (E1 & E2 & _ & _ & _ & _ & E7). intros Hi. split; [lia|]. split; [lia|].
  unfold addr. destruct sample_head as (_ & _ & -> & _). rewrite E2. lia.
Qed.

Lemma sample_counts : gfree sample_fs 0 = 8 /\ nfree sample_fs 0 = 8 /\ sbfree sample_fs = 8 /\ zsum (nfree sample_fs) 1 = 8 /\
  iblocks sample_fs sample_inode = 4 /\ Z.of_nat (size sample_owned) * sectors = 4.
Proof. vm_compute. tauto. Qed.

Lemma sample_repr : repr 5 sample_inode sample_fs sample_free sample_owned.
Proof.
  destruct sample_values as (E1 & E2 & E3 & E4 & E5 & E6 & E7). destruct sample_counts as (C1 & C2 & C3 & C4 & C5 & C6). constructor.
  - apply sample_ok.
  - split; [lia|]. split; [discriminate|]. split; [discriminate|]. intros g ->%sample_group. rewrite E4, E5, E6. lia.
  - intros g i ->%sample_group. rewrite E2, E7. intros Hi. rewrite sample_used by lia. by rewrite (proj2 (Z.ltb_ge i 28)), andb_false_r by lia.
  - intros g ->%sample_group. congruence.
  - rewrite E1. congruence.
  - intros a. unfold sample_free. rewrite elem_of_block_range. split.
    + intros Ha. exists 0, (a - 1). replace a with (a - 1 + 1) at 1 by lia. split; [apply sample_block; lia|].
      rewrite sample_used by lia. rewrite (proj2 (Z.leb_le _ _)), (proj2 (Z.ltb_lt _ _)) by lia. done.
    + intros (g & i & (->%sample_group & Hi & ->) & Hu). rewrite E7 in Hi. pose proof (sample_block i Hi) as (_ & _ & <-).
      rewrite sample_used in Hu by lia. apply negb_false_iff in Hu. zb. lia.
  - intros a. unfold sample_owned. rewrite elem_of_block_range. intros Ha. exists 0, (a - 1). replace a with (a - 1 + 1) at 1 by lia.
    split; [apply sample_block; lia|]. rewrite sample_used by lia. by rewrite (proj2 (Z.leb_gt _ _)) by lia.
  - intros a. unfold sample_free, sample_owned. rewrite !elem_of_block_range. intros Ha. apply sample_data. lia.
  - congruence.
  - lia.
Qed.

(** ** Inodes *)

Definition sample_free_inodes : gset Z := block_range 12 21.

Lemma sample_inodes : ipg sample_fs = 32 /\ inodes_in sample_fs 0 = 32 /\ fget sb_inodes_count sample_fs fs_sb = 32 /\
  counter free_inodes_acc sample_fs 0 = 21 /\ counter used_dirs_acc sample_fs 0 = 0 /\ counter unused_acc sample_fs 0 = 0 /\
  sbifree sample_fs = 21 /\ nclear (iused sample_fs 0) 32 = 21.
Proof. vm_compute. tauto. Qed.

Lemma sample_iused i : 0 <= i < 32 -> iused sample_fs 0 i = (i <? 11).
Proof.
  intros Hi. apply eqb_true_iff. revert i Hi. apply (all_below (fun i => eqb (iused sample_fs 0 i) (i <? 11))). vm_compute. reflexivity.
Qed.

Lemma sample_irepr : irepr sample_fs sample_free_inodes ∅.
Proof.
  destruct sample_values as (E1 & E2 & E3 & _). destruct sample_inodes as (I1 & I2 & I3 & I4 & I5 & I6 & I7 & I8).
  assert (forall i, inum sample_fs 0 i = i + 1) as Hn by (intros i; unfold inum; rewrite I1; lia). constructor.
  - apply sample_ok.
  - constructor; rewrite ?I1, ?I3, ?E1; cbn [dev_bsize sample_device]; lia.
  - intros g ->%sample_group. rewrite I2. congruence.
  - rewrite E1, I7. change 1 with (0 + 1). rewrite zsum_succ by lia. rewrite I2, I8. done.
  - intros n. unfold sample_free_inodes. rewrite elem_of_block_range. split.
    + intros Hx. exists 0, (n - 1). rewrite E1, I2, Hn, sample_iused by lia. split_and!; lia.
    + intros (g & i & ->%sample_group & Hi & -> & Hu). rewrite I2 in Hi. rewrite Hn. rewrite sample_iused in Hu by lia. zb. lia.
  - intros g ->%sample_group. rewrite I5, intersection_empty_l_L. reflexivity.
  - intros n Hx. destruct (not_elem_of_empty n Hx).
  - intros g i ->%sample_group. rewrite I2, I6. lia.
  - intros g ->%sample_group. rewrite I2, I6. lia.
Qed.
