(* ===== verification/Ext4ExtentLookup.v ===== *)
(** lwext4, extent trees: what [ext4_extent_get_blocks] answers. *)
From S2P Require Import Prelude Memory Ext4Errno Ext4Layout Ext4Super Ext4BlockGroup Ext4Inode Ext4Store Ext4Fs.
From S2P Require Import Ext4Groups Ext4Balloc Ext4File Ext4Extent Ext4ExtentOps Ext4ExtentTree Ext4ExtentFind.
From S2P Require Import Ext4Sample.
#[local] Open Scope Z_scope.
#[local] Open Scope cint_scope.

#[local] Notation elen := ext4_ext_get_actual_len.

(** ** Specification *)

(** The physical block of logical block [n], 0 without one, and how many of [max]
    blocks follow in the extent. *)
Definition answer (E : list ext4_extent) (n max : Z) : Z * Z :=
  match lookup_extent E n with
  | None => (0, 0)
  | Some e => (if ext4_ext_is_unwritten e then 0 else ext4_ext_pblock e + (n - first_block e), Z.min max (first_block e + elen e - n))
  end.

Lemma load_range m a : let e := load_extent m a in
  0 <= first_block e < 2 ^ 32 /\ 0 <= block_count e < 2 ^ 16 /\ 0 <= start_hi e < 2 ^ 16 /\ 0 <= start_lo e < 2 ^ 32.
Proof.
  cbn. split_and!; try apply (fget_range ee_first_block); try apply (fget_range ee_block_count); try apply (fget_range ee_start_hi);
    apply (fget_range ee_start_lo).
Qed.

Lemma elen_range e : 0 <= block_count e < 2 ^ 16 -> 0 <= elen e <= 0x8000.
Proof. intros He. unfold ext4_ext_get_actual_len, EXT_INIT_MAX_LEN. destruct (_ <=? _) eqn:E; zb; lia. Qed.

Lemma pblock_value e : 0 <= start_hi e < 2 ^ 16 -> 0 <= start_lo e < 2 ^ 32 -> ext4_ext_pblock e = start_hi e * 2 ^ 32 + start_lo e.
Proof.
  intros Hh Hl. unfold ext4_ext_pblock. rewrite !Z.shiftl_mul_pow2 by lia.
  rewrite (uw_small 64 (start_hi e * _)), uw_small by (pow2; lia).
  replace (start_hi e * 2 ^ 31 * 2 ^ 1) with (start_hi e * 2 ^ 32) by lia. rewrite Z.lor_comm. by apply lor_add_disjoint.
Qed.

Lemma in_range_covers e n : 0 <= first_block e -> 0 < elen e -> first_block e + elen e <= 2 ^ 32 ->
  IN_RANGE n (first_block e) (elen e) = covers e n.
Proof. intros ? ? ?. unfold IN_RANGE, covers. rewrite uw_small by lia. destruct (_ <=? _); [|done]. cbn [andb]. lia. Qed.

Section lookup.
Context `{Device}.

Section leaf.
Context (m : memory) (ino n : Z) (E : list ext4_extent) (B : list Z) (path front : list ext4_extent_path) (leaf : ext4_extent_path).
Hypothesis (L : located m ino n E B path front leaf).
#[local] Notation cur := (load_extent m (extent leaf)).

(** The test of the code finds the extent of the tree. *)
Lemma located_extent : if negb (extent leaf =? 0) && IN_RANGE n (first_block cur) (elen cur)
  then lookup_extent E n = Some cur else lookup_extent E n = None.
Proof.
  destruct L as [_ _ _ _ (lo & hi & E' & B' & HT & -> & Hhi) Hx]. destruct (nentries m (header leaf) =? 0) eqn:En; zb.
  - rewrite Hx. cbn [Z.eqb negb andb]. destruct HT as [_ (-> & _)]. unfold leaf_extents. by rewrite En.
  - destruct Hx as (Hne & i & Ex & Hf). rewrite (leaf_found _ _ _ _ _ _ _ _ HT Hf), Ex in *.
    destruct (slot (header leaf) i =? 0) eqn:E0; [by zb|]. cbn [negb andb].
    assert (load_extent m (slot (header leaf) i) ∈ E') as Hin.
    { destruct HT as [_ (-> & _ & _)], Hf as (Hi & _). apply (list_elem_of_lookup_2 _ (Z.to_nat i)). rewrite leaf_lookup by lia. by rewrite Z2Nat.id by lia. }
    destruct (runs_in _ _ _ _ (tree_runs _ _ _ _ _ _ _ HT) Hin) as (H1 & H2 & H3). pose proof (load_range m (slot (header leaf) i)) as (? & _).
    rewrite in_range_covers by lia. by destruct (covers _ n).
Qed.

Lemma located_leaf : path_at path (ext_depth m ino) = Some leaf.
Proof. destruct L as [-> <- _ _ _ _]. apply path_at_app. Qed.
End leaf.

(** The values the code computes from the extent it found. *)
Lemma answer_found m a E n max : let e := load_extent m a in
  lookup_extent E n = Some e -> 0 <= n < 2 ^ 32 ->
  let allocated := u32 (elen e - (n - first_block e)) in
  let count := if max <? allocated then max else allocated in
  (if negb (ext4_ext_is_unwritten e) then (u64 (u32 (n - first_block e) + ext4_ext_pblock e), count) else (0, count)) = answer E n max.
Proof.
  intros e He Hn. pose proof (load_range m a) as (R1 & R2 & R3 & R4). fold e in R1, R2, R3, R4. pose proof (elen_range e R2) as Rl.
  pose proof (proj2 (lookup_extent_some _ _ _ He)) as Hc. unfold covers in Hc. zb. unfold answer. rewrite He. cbv zeta.
  rewrite (uw_small 32 (elen e - _)), (uw_small 32 (n - _)), uw_small by (rewrite ?pblock_value by done; lia).
  assert (forall c, (if max <? c then max else c) = Z.min max c) as -> by (intros c; destruct (max <? c) eqn:E0; zb; lia).
  replace (elen e - (n - first_block e)) with (first_block e + elen e - n) by lia.
  destruct (ext4_ext_is_unwritten e); cbn [negb]; f_equal. lia.
Qed.

(** What a lookup leaves: nothing is held or dirtied in addition, and the tree is
    there with other checksums at most. *)
Definition looked_up (E : list ext4_extent) (B : list Z) (r : ext4_inode_ref) (s : ext4_fs) (r' : ext4_inode_ref) (s' : ext4_fs) : Prop :=
  r' = r /\ held s' = held s /\ dirty s' = dirty s /\ last_inode_bg_id s' = last_inode_bg_id s /\
  tails B (mem s) (mem s') /\ inode_tree (mem s') (ir_inode r) E B.

Lemma runf_lookup E B n max r s : device_ok B -> inode_tree (mem s) (ir_inode r) E B -> 0 <= n < 2 ^ 32 ->
  runf (ext4_extent_get_blocks n max false) r s (fun '(err, result, count) r' s' =>
    looked_up E B r s r' s' /\
    if err =? EOK then (result, count) = answer E n max
    else (device_error err \/ err = ENOMEM) /\ result = 0 /\ count = 0).
Proof.
  intros Hdev T Hn. unfold ext4_extent_get_blocks. fstep. eapply runf_mono; [by apply (runf_find (mem s) (ir_inode r) n E B (held s) r)|].
  intros [err path] r1 s1 (-> & Hd & Hl & [(Herr & -> & Hh & Ht)|(-> & Em & front & leaf & L & Hp)]).
  - destruct (err =? EOK) eqn:E0; [zb; destruct Herr as [[? _]|?]; [congruence|unfold EOK, ENOMEM in *; lia]|]. cbn [negb]. fstep. rewrite E0.
    split; [|by split]. split_and!; try done. by eapply inode_tree_tails.
  - rewrite (Z.eqb_refl EOK). cbn [negb]. fsteps. rewrite Em. eapply runf_need; [by eapply located_leaf|].
    pose proof (located_extent _ _ _ _ _ _ _ _ L) as Hx. set (cur := load_extent (mem s) (extent leaf)) in *.
    assert (forall out, (out = answer E n max) -> runf ((match path with [] => mret tt | _ => ext4_ext_drop_refs path 0 false;; mret tt end);;
      mret (EOK, out.1, out.2)) r s1 (fun '(err, result, count) r' s' => looked_up E B r s r' s' /\
        if err =? EOK then (result, count) = answer E n max else (device_error err \/ err = ENOMEM) /\ result = 0 /\ count = 0)) as Hfin.
    { intros out Hout. fstep. pose proof L as [Epath Elen Ehead Ebl _ _]. rewrite app_cons_assoc in Epath.
      destruct path as [|p0 path]; [by destruct front|]. fstep. rewrite Epath. apply (runf_drop_front (mem s) (ir_inode r) E B (held s) r Hdev T (front ++ [leaf]) zero_path); try done; [rewrite length_app; cbn; lia|by rewrite Em|].
      intros path' s' Ht H1 H2 H3. fsteps. rewrite (Z.eqb_refl EOK). split; [|by destruct out].
      rewrite Em in Ht. assert (blocks_of (front ++ [leaf]) ⊆ B) as Hs by (by apply sublist_subseteq).
      split_and!; try congruence; [by eapply tails_weaken|]. by eapply inode_tree_tails. }
    destruct (negb (extent leaf =? 0) && _).
    + pose proof (answer_found (mem s) (extent leaf) E n max Hx Hn) as Ha. cbv zeta in Ha. fold cur in Ha.
      destruct (negb (ext4_ext_is_unwritten cur)); cbn [negb]; do 2 fstep; exact (Hfin _ Ha).
    + cbn [negb]. do 2 fstep. apply (Hfin (0, 0)). unfold answer. by rewrite Hx.
Qed.

(** C8. A lookup without creation in any well-formed extent tree, of any depth, on an
    open device; if the tree has nodes outside the inode, an access that fails fails at
    its read, after it has got a buffer ([device_ok]; without it the code stops, see
    [early_failure_stops]).  It ends: with the answer of the list of extents of the tree,
    the physical block and how many blocks follow it, or with an error of the device or
    of memory and no answer. It releases every block it took, marks none dirty, and the
    tree is still there. *)
Theorem extent_lookup E B n max r s : device_ok B -> inode_tree (mem s) (ir_inode r) E B -> 0 <= n < 2 ^ 32 ->
  runf (ext4_extent_get_blocks n max false) r s (fun '(err, result, count) r' s' =>
    looked_up E B r s r' s' /\
    if err =? EOK then (result, count) = answer E n max
    else (device_error err \/ err = ENOMEM) /\ result = 0 /\ count = 0).
Proof. intros. by apply runf_lookup. Qed.
End lookup.

(** ** A tree of two levels *)

#[local] Existing Instance sample_device.

(** The inode of the sample with an index to block 11, which holds two written
    blocks from 21 on and three unwritten ones from 24 on. *)
Definition sample_tree : memory :=
  let root := ext_inode_hdr sample_inode in
  let node h depth entries m := fset eh_magic (fset eh_entries_count (fset eh_max_entries_count (fset eh_depth m h depth) h 4) h entries) h EXT4_EXTENT_MAGIC in
  let m := node root 1 1 (node (buf 11) 0 2 sample_fs) in
  let m := ext4_idx_store_pblock (fset ei_first_block m (slot root 0) 0) (slot root 0) 11 in
  let m := store_extent m (slot (buf 11) 0) (Extent 0 2 0 21) in
  store_extent m (slot (buf 11) 1) (Extent 5 (0x8000 + 3) 0 24).

Definition sample_extents : list ext4_extent := [Extent 0 2 0 21; Extent 5 0x8003 0 24].

Lemma sample_nodes : nentries sample_tree (ext_inode_hdr sample_inode) = 1 /\ child sample_tree (ext_inode_hdr sample_inode) 0 = 11 /\
  ext_depth sample_tree sample_inode = 1 /\ leaf_extents sample_tree (buf 11) = sample_extents /\ nmax sample_tree (buf 11) = 4 /\
  nmax sample_tree (ext_inode_hdr sample_inode) = 4.
Proof. vm_compute. done. Qed.

Lemma sample_node d h : (d = 1%nat /\ h = ext_inode_hdr sample_inode) \/ (d = 0%nat /\ h = buf 11) -> node_ok sample_tree d h.
Proof. by intros [[-> ->]|[-> ->]]; constructor; vm_compute. Qed.

Lemma sample_inode_tree : inode_tree sample_tree sample_inode sample_extents [11].
Proof.
  destruct sample_nodes as (E1 & E2 & E3 & E4 & E5 & E6). constructor.
  - rewrite E3. split; [by apply sample_node; left|]. exists [(sample_extents, [11])]. rewrite E1. split_and!; try done.
    intros [|i] Ei Bi Hi; [|by destruct i]. injection Hi as <- <-. exists []. cbv zeta. change (Z.of_nat 0) with 0. rewrite E2. unfold child_lo, child_hi. rewrite E1.
    split; [reflexivity|]. split; [unfold block_ok, node_end; rewrite E5; vm_compute; split_and!; congruence|].
    split; [apply sample_node; by right|]. rewrite E4. split; [reflexivity|]. split; [reflexivity|]. vm_compute. split_and!; congruence.
  - rewrite E6. lia.
  - apply NoDup_singleton.
  - intros b ->%list_elem_of_singleton. left. by vm_compute.
  - by vm_compute.
  - by vm_compute.
Qed.

(** The device of the sample where writing back an evicted buffer fails. *)
Definition failing_device : Device := {|
  dev_open := true; dev_blocks := 64; dev_bsize := 1024; dev_bufs := 4096; dev_io := fun _ => EIO; dev_junk := fun _ _ => 0;
  dev_early := fun _ => true; dev_saved := fun _ => false; dev_memory := fun _ => true; fs_sb := 0;
|}.

(** Without [no_early] the lookup does not return the error: its error exit
    releases a block that was never got, where [ext4_block_set] asserts a buffer. *)
Example early_failure_stops :
  @ext4_extent_get_blocks failing_device 1 8 false (InodeRef 5 sample_inode 1 false) (Fs sample_tree ∅ [] 0 0 ∅) = None.
Proof. vm_compute. done. Qed.

Lemma extent_lookup_witness :
  runf (ext4_extent_get_blocks 1 8 false) (InodeRef 5 sample_inode 1 false) (Fs sample_tree ∅ [] 0 0 ∅)
    (fun '(err, result, count) r' s' => held s' = [] /\ (err = EOK -> result = 22 /\ count = 1)).
Proof.
  eapply runf_mono; [apply (extent_lookup sample_extents [11] 1 8)|].
  - split; [done|]. by right.
  - apply sample_inode_tree.
  - lia.
  - intros [[err result] count] r' s' ((_ & Hh & _) & Hc). split; [exact Hh|]. intros ->. cbn in Hc. injection Hc as -> ->. split; reflexivity.
Defined.
