(* ===== verification/Ext4ExtentLeaf.v ===== *)
(** lwext4, extent trees: what the writes of [ext4_ext_insert_leaf] make of the
    extents of a leaf. *)
From S2P Require Import Prelude Memory Ext4Errno Ext4Layout Ext4Super Ext4BlockGroup Ext4Inode Ext4Store Ext4Fs.
From S2P Require Import Ext4Groups Ext4Balloc Ext4File Ext4Extent Ext4ExtentOps Ext4ExtentTree Ext4ExtentFind.
From S2P Require Import Ext4ExtentLookup.
#[local] Open Scope Z_scope.
#[local] Open Scope cint_scope.

#[local] Notation elen := ext4_ext_get_actual_len.

(** ** Bytes of entries *)

Lemma ldn_moved n m m' : forall a a', (forall j, 0 <= j < Z.of_nat n -> ld8 m' (a' + j) = ld8 m (a + j)) -> ldn n m' a' = ldn n m a.
Proof.
  induction n as [|n IH]; intros a a' Hx; [done|]. cbn [ldn]. unfold ld8 in Hx. pose proof (Hx 0 ltac:(lia)) as H0.
  rewrite !Z.add_0_r in H0. rewrite H0. f_equal. f_equal. apply IH. intros j Hj. replace (a' + 1 + j) with (a' + (1 + j)) by lia.
  replace (a + 1 + j) with (a + (1 + j)) by lia. apply Hx. lia.
Qed.

Definition entry_moved (m m' : memory) (a a' : Z) : Prop := forall j, 0 <= j < 12 -> ld8 m' (a' + j) = ld8 m (a + j).

Lemma load_moved m m' a a' : entry_moved m m' a a' -> load_extent m' a' = load_extent m a.
Proof.
  intros Hx. unfold load_extent, fget. cbn [f_off f_len ee_first_block ee_block_count ee_start_hi ee_start_lo].
  f_equal; apply ldn_moved; intros j Hj; rewrite <- !Z.add_assoc; apply Hx; cbn in Hj; lia.
Qed.

(** An extent whose fields have their widths. *)
Definition extent_wf (e : ext4_extent) : Prop :=
  0 <= first_block e < 2 ^ 32 /\ 0 <= block_count e < 2 ^ 16 /\ 0 <= start_hi e < 2 ^ 16 /\ 0 <= start_lo e < 2 ^ 32.

Lemma load_store m a e : extent_wf e -> load_extent (store_extent m a e) a = e.
Proof.
  intros (? & ? & ? & ?). destruct e as [f c h l]. unfold load_extent, store_extent. cbn [first_block block_count start_hi start_lo] in *. f_equal.
  - by rewrite !fget_fset_other, fget_fset_same by fld.
  - by rewrite !fget_fset_other, fget_fset_same by fld.
  - by rewrite fget_fset_same by fld.
  - by rewrite fget_fset_other, fget_fset_same by fld.
Qed.

Lemma store_extent_other m a e x : x < a \/ a + 12 <= x -> ld8 (store_extent m a e) x = ld8 m x.
Proof. intros Hx. unfold store_extent. rewrite !ld8_fset by (cbn; lia). done. Qed.

(** ** Insertion *)

Section insert.
Context (m : memory) (h k : Z) (e : ext4_extent).
Hypothesis (Hk : 0 <= k <= nentries m h) (Hmax : nentries m h < nmax m h) (He : extent_wf e).
Let n := nentries m h.
Let m1 : memory := if 0 <? n - k then memcpy m (slot h k + sizeof_ee) (slot h k) ((n - k) * sizeof_ee) else m.
Let m2 : memory := store_extent m1 (slot h k) e.
Definition insert_entry : memory := fset eh_entries_count m2 h (n + 1).
#[local] Notation m' := insert_entry.

Lemma moved_bytes x : ld8 m1 x = if (slot h (k + 1) <=? x) && (x <? slot h (n + 1)) then ld8 m (x - 12) else ld8 m x.
Proof.
  unfold m1, ld8. destruct (0 <? n - k) eqn:E; zb.
  - unfold memcpy. replace (slot h k + sizeof_ee) with (slot h (k + 1)) by (unfold slot, sizeof_ee; lia).
    replace (slot h (k + 1) + (n - k) * sizeof_ee) with (slot h (n + 1)) by (unfold slot, sizeof_ee; lia).
    destruct (_ && _); [|done]. do 2 f_equal. unfold slot. lia.
  - destruct (slot h (k + 1) <=? x) eqn:E1; [|done]. destruct (x <? slot h (n + 1)) eqn:E2; [|done]. zb. unfold slot in *. lia.
Qed.

Lemma inserted_bytes x : x < h + 2 \/ h + 4 <= x -> x < slot h k \/ slot h (k + 1) <= x -> ld8 m' x = ld8 m1 x.
Proof.
  intros H1 H2. unfold insert_entry. rewrite ld8_fset by (cbn; lia). apply store_extent_other. unfold slot in *. lia.
Qed.

Lemma insert_frame x : x < h + 2 \/ (h + 4 <= x < slot h k) \/ slot h (n + 1) <= x -> ld8 m' x = ld8 m x.
Proof.
  intros Hx. rewrite inserted_bytes, moved_bytes by (unfold slot, n in *; lia).
  destruct (slot h (k + 1) <=? x) eqn:E1; [|done]. destruct (x <? slot h (n + 1)) eqn:E2; [|done]. zb. unfold slot in *. lia.
Qed.

Lemma insert_count : nentries m' h = n + 1.
Proof.
  pose proof (nmax_range m h). unfold nentries, insert_entry. rewrite fget_fset_same; [done|cbn; lia|]. cbn. unfold n. pose proof (nentries_range m h). lia.
Qed.

Lemma insert_field f : 0 <= f_off f -> 0 <= f_len f -> f_off f + f_len f <= 2 \/ (4 <= f_off f /\ f_off f + f_len f <= 12) ->
  fget f m' h = fget f m h.
Proof. intros ? ? ?. apply fget_on; [done|]. intros x Hx. apply insert_frame. unfold slot. lia. Qed.

Lemma insert_load i : 0 <= i < n + 1 ->
  load_extent m' (slot h i) = if i =? k then e else load_extent m (slot h (if i <? k then i else i - 1)).
Proof.
  intros Hi. fold n in Hk. destruct (i =? k) eqn:E; zb.
  - subst i. rewrite <- (load_store m1 (slot h k) e He). apply load_moved. intros j Hj. unfold insert_entry, m2.
    rewrite ld8_fset by (cbn; unfold slot; lia). done.
  - apply load_moved. intros j Hj. destruct (i <? k) eqn:E'; zb.
    + apply insert_frame. unfold slot. lia.
    + rewrite inserted_bytes, moved_bytes by (unfold slot; lia).
      destruct (slot h (k + 1) <=? slot h i + j) eqn:E1; zb; [|unfold slot in *; lia].
      destruct (slot h i + j <? slot h (n + 1)) eqn:E2; zb; [|unfold slot in *; lia]. cbn [andb]. f_equal. unfold slot. lia.
Qed.

Lemma insert_leaf_extents : leaf_extents m' h = take (Z.to_nat k) (leaf_extents m h) ++ e :: drop (Z.to_nat k) (leaf_extents m h).
Proof.
  pose proof (leaf_length m h) as Hlen. pose proof (leaf_length m' h) as Hlen'. rewrite insert_count in Hlen'. fold n in Hlen. fold n in Hk.
  apply list_eq. intros i. destruct (decide (i < Z.to_nat (n + 1))%nat) as [Hi|Hi].
  - rewrite leaf_lookup by (rewrite insert_count; lia). rewrite insert_load by lia.
    assert (length (take (Z.to_nat k) (leaf_extents m h)) = Z.to_nat k) as Ht by (rewrite length_take_le by lia; done).
    destruct (Z.of_nat i =? k) eqn:E; zb.
    + assert (i = Z.to_nat k) as -> by lia. by rewrite list_lookup_middle.
    + destruct (Z.of_nat i <? k) eqn:E'; zb.
      * rewrite lookup_app_l by lia. rewrite lookup_take_lt by lia. rewrite leaf_lookup by (fold n; lia). done.
      * rewrite lookup_app_r by lia. rewrite Ht. replace (i - Z.to_nat k)%nat with (S (i - 1 - Z.to_nat k)) by lia. simpl (_ !! S _).
        rewrite lookup_drop, leaf_lookup by (fold n; lia). do 3 f_equal. lia.
  - rewrite lookup_ge_None_2 by lia. symmetry. apply lookup_ge_None_2. rewrite length_app, length_take. cbn [length]. rewrite length_drop. lia.
Qed.
End insert.

(** ** A longer extent *)

Section longer.
Context (m : memory) (h i c : Z).
Hypothesis (Hi : 0 <= i < nentries m h) (Hc : 0 <= c < 2 ^ 16).
#[local] Notation m' := (set_len m (slot h i) c false).

Lemma set_len_other x : x < slot h i + 4 \/ slot h i + 6 <= x -> ld8 m' x = ld8 m x.
Proof. intros Hx. unfold set_len. by rewrite ld8_fset by (cbn; lia). Qed.

Lemma set_len_field f : 0 <= f_off f -> 0 <= f_len f -> f_off f + f_len f <= 12 -> fget f m' h = fget f m h.
Proof. intros ? ? ?. apply fget_on; [done|]. intros x Hx. apply set_len_other. unfold slot. lia. Qed.

Lemma set_len_load : load_extent m' (slot h i) = ext4_extent_set_block_count (load_extent m (slot h i)) c false.
Proof.
  unfold load_extent, set_len, ext4_extent_set_block_count. cbn [first_block start_hi start_lo].
  rewrite fget_fset_same by fld. rewrite !fget_fset_other by fld. by rewrite uw_small by lia.
Qed.

Lemma set_len_leaf : leaf_extents m' h =
  <[Z.to_nat i := ext4_extent_set_block_count (load_extent m (slot h i)) c false]> (leaf_extents m h).
Proof.
  assert (nentries m' h = nentries m h) as En by (apply set_len_field; cbn; lia).
  apply list_eq. intros j. destruct (decide (Z.of_nat j < nentries m h)) as [Hj|Hj].
  - rewrite leaf_lookup by lia. destruct (decide (j = Z.to_nat i)) as [->|Hne].
    + rewrite list_lookup_insert_eq by (rewrite leaf_length; lia). rewrite Z2Nat.id by lia. by rewrite set_len_load.
    + rewrite list_lookup_insert_ne by done. rewrite leaf_lookup by done. f_equal. apply load_moved. intros k Hk.
      apply set_len_other. unfold slot. lia.
  - rewrite !lookup_ge_None_2; [done|rewrite length_insert|]; rewrite leaf_length; lia.
Qed.
End longer.

(** ** The blocks of a list of extents *)

(** The physical block of logical block [n], and whether it is unwritten. *)
Definition phys (E : list ext4_extent) (n : Z) : option (Z * bool) :=
  e ← lookup_extent E n; Some (ext4_ext_pblock e + (n - first_block e), ext4_ext_is_unwritten e).

(** [E'] has block [a] for [n], which has none in [E]. *)
Definition phys_adds (E E' : list ext4_extent) (n a : Z) : Prop := forall k, phys E' k = if k =? n then Some (a, false) else phys E k.

(** A new extent for [n] alone. *)
Lemma phys_insert E1 E2 e n a : lookup_extent (E1 ++ E2) n = None -> first_block e = n -> block_count e = 1 -> ext4_ext_pblock e = a ->
  phys_adds (E1 ++ E2) (E1 ++ e :: E2) n a.
Proof.
  intros Hn Hf Hl Ha k. assert (elen e = 1) as El by (unfold ext4_ext_get_actual_len; by rewrite Hl).
  assert (ext4_ext_is_unwritten e = false) as Hu by (unfold ext4_ext_is_unwritten; by rewrite Hl).
  unfold phys. rewrite !lookup_extent_app in *. cbn [lookup_extent List.find]. fold (lookup_extent E2 k). unfold covers. rewrite Hf, El.
  destruct (k =? n) eqn:Ek; zb.
  - subst k. destruct (lookup_extent E1 n); [done|]. rewrite (proj2 (Z.leb_le n n)), (proj2 (Z.ltb_lt n (n + 1))) by lia. cbn.
    rewrite Ha, Hf, Hu. do 2 f_equal. lia.
  - destruct (lookup_extent E1 k); [done|]. by replace ((n <=? k) && (k <? n + 1)) with false by lia.
Qed.

(** The extent before [n] grows by one block. *)
Lemma phys_append E1 E2 e n a : let e' := ext4_extent_set_block_count e (elen e + 1) false in
  lookup_extent (E1 ++ e :: E2) n = None -> 0 < elen e -> elen e + 1 <= 0x8000 -> first_block e + elen e = n -> ext4_ext_is_unwritten e = false ->
  ext4_ext_pblock e + elen e = a -> phys_adds (E1 ++ e :: E2) (E1 ++ e' :: E2) n a.
Proof.
  intros e' Hn Hpos Hle Hf Hu Ha k.
  assert (block_count e' = elen e + 1) as Eb by (apply uw_small; lia).
  assert (elen e' = elen e + 1) as El.
  { unfold ext4_ext_get_actual_len at 1. rewrite Eb, (proj2 (Z.leb_le _ _)); [done|exact Hle]. }
  assert (ext4_ext_is_unwritten e' = false) as Hu' by (unfold ext4_ext_is_unwritten, EXT_INIT_MAX_LEN; rewrite Eb; lia).
  unfold phys. rewrite !lookup_extent_app in *. cbn [lookup_extent List.find] in *. fold (lookup_extent E2 k). fold (lookup_extent E2 n) in Hn.
  assert (covers e' k = covers e k || (k =? n)) as ->.
  { unfold covers. rewrite El. change (first_block e') with (first_block e). lia. }
  destruct (k =? n) eqn:Ek; zb.
  - subst k. destruct (lookup_extent E1 n); [done|]. rewrite orb_true_r. cbn. rewrite Hu'. do 2 f_equal.
    change (ext4_ext_pblock e') with (ext4_ext_pblock e). lia.
  - destruct (lookup_extent E1 k); [done|]. rewrite orb_false_r. destruct (covers e k); [|done]. cbn. by rewrite Hu', Hu.
Qed.

Lemma phys_none E n : lookup_extent E n = None <-> phys E n = None.
Proof. unfold phys. by destruct (lookup_extent E n). Qed.
