(* ===== verification/Ext4BallocClient.v ===== *)
(** lwext4, the clients of the block allocator: a client calls the operations of
    [ext4_balloc.c] in any order, chosen from the answers so far, and sees an
    allocator on sets of blocks. *)
From S2P Require Import Prelude Memory Ext4Errno Ext4Bitmap Ext4Crc Ext4Layout Ext4Super Ext4BlockGroup Ext4Inode.
From S2P Require Import Ext4Store Ext4Client Ext4Fs Ext4Groups Ext4Balloc Ext4BallocSpec Ext4BallocRun.
From S2P Require Import Ext4BallocRefine Ext4Sample Ext4IallocSpec Ext4IallocRefine.
#[local] Open Scope Z_scope.
#[local] Open Scope cint_scope.
#[local] Opaque ext4_crc32c ext4_bg_crc16.

(** [ext4_bmap_bits_free] inside a bitmap of [n] bytes. *)
Lemma bits_free_inside m b lo cnt n : 0 <= lo -> 0 <= cnt -> lo + cnt <= 8 * n -> 8 * n < 2 ^ 32 ->
  exists m', ext4_bmap_bits_free m b lo cnt = Some m' /\
    (forall i, 0 <= i -> bget m' b i = if (lo <=? i) && (i <? lo + cnt) then false else bget m b i) /\
    (forall x, x < b \/ b + n <= x -> ld8 m' x = ld8 m x).
Proof.
  intros Hl Hc Hn Hn'. destruct (bits_free_ok m b lo cnt ltac:(lia) ltac:(lia) ltac:(lia)) as (m' & E & Hb & Hf).
  exists m'. split; [done|]. split; [done|]. intros x [Hx|Hx]; [by apply Hf|]. apply Z.bits_inj'. intros k Hk.
  destruct (decide (k < 8)).
  - specialize (Hb (8 * (x - b) + k) ltac:(lia)). unfold bget in Hb.
    assert ((8 * (x - b) + k) / 8 = x - b /\ (8 * (x - b) + k) mod 8 = k) as [E1 E2].
    { rewrite (Z.mul_comm 8), Z.add_comm, Z.div_add, Z.mod_add, Z.div_small, Z.mod_small by lia. lia. }
    rewrite E1, E2 in Hb. replace (b + (x - b)) with x in Hb by lia. rewrite Hb. case_if; [zb; lia|done].
  - pose proof (ld8_range m x). pose proof (ld8_range m' x). rewrite !(Z_testbit_high 8) by (lia || (pow2; lia)). done.
Qed.

Section client.
Context `{Device}.
#[local] Notation sb := fs_sb.

(** ** What every operation preserves *)

(** A block outside [X] that is not marked dirty is as before. *)
Definition covered (ib : Z) (X : gset Z) (s s' : ext4_fs) : Prop :=
  dirty s ⊆ dirty s' /\
  forall b x, 0 <= b -> b <> ib -> b ∉ X -> b ∉ dirty s' -> buf b <= x < buf b + dev_bsize -> ld8 (mem s') x = ld8 (mem s) x.

Record preserves (ib : Z) (X : gset Z) (s s' : ext4_fs) : Prop := {
  p_keeps : keeps (mem s) (mem s');
  p_held : held s' = held s;
  p_last : last_inode_bg_id s' = last_inode_bg_id s;
  p_covered : covered ib X s s';
  p_inodes I Dirs : irepr (mem s) I Dirs -> irepr (mem s') I Dirs;
  p_sealed g : fs_ok (mem s) -> 0 <= g < groups (mem s) -> sealed (mem s) g -> sealed (mem s') g;
}.

Lemma preserves_unchanged ib X s s' : unchanged s s' -> preserves ib X s s'.
Proof.
  intros (Hs & Hd & Hh & Hl). constructor; [by apply same_keeps|done|done| | |].
  - split; [by rewrite Hd|]. intros. apply Hs.
  - intros I Dirs R. by eapply irepr_same.
  - intros g Hok Hg. apply sealed_on; [done|by apply same_keeps|done|intros; apply Hs..].
Qed.

Lemma preserves_trans ib X s s1 s2 : preserves ib X s s1 -> preserves ib X s1 s2 -> preserves ib X s s2.
Proof.
  intros [A1 A2 A3 [A4 A5] A6 A7] [B1 B2 B3 [B4 B5] B6 B7]. constructor; [by eapply geometry_trans|congruence|congruence| |by eauto|].
  2:{ intros g Hok Hg Hs. apply B7; [by eapply keeps_ok|by rewrite (kept_groups _ _ (proj1 A1))|by apply A7]. }
  split; [set_solver|]. intros b x H1 H2 H3 H4 H5. rewrite (B5 b x), (A5 b x); try done. set_solver.
Qed.

Lemma preserves_change ib ino m s s' F U g jlo jhi cnt bits X : repr ib ino m F U -> 0 <= g < groups m -> mem s = m ->
  held s' = held s -> last_inode_bg_id s' = last_inode_bg_id s ->
  dirty s' = {[ desc_block m g ]} ∪ ({[ bitmap m g ]} ∪ dirty s) ->
  data_blocks m ib jlo (jhi - jlo) -> (forall b, jlo <= b < jhi -> b ∈ X) ->
  group_change m (mem s') g ino jlo jhi cnt bits -> preserves ib X s s'.
Proof.
  intros R Hg <- Hh Hl Hd Hj HX Hgc. constructor; [apply (gc_keeps _ _ _ _ _ _ _ _ Hgc)|done|done| | |].
  2:{ intros I Dirs. by apply (group_change_irepr ib ino (mem s) (mem s') F U g jlo jhi cnt bits). }
  2:{ intros g' Hok. by apply (change_sealed (mem s) (mem s') g ib ino jlo jhi cnt bits Hok Hg (r_inode _ _ _ _ _ R)). }
  split; [set_solver|].
  intros b x H1 H2 H3 H4 H5. apply (gc_frame _ _ _ _ _ _ _ _ Hgc).
  eapply (block_untouched (mem s) g ib ino jlo jhi); try done; try (by intros ->; set_solver).
  - apply (r_ok _ _ _ _ _ R).
  - apply (r_inode _ _ _ _ _ R).
  - intros Hb. apply H3. by apply HX.
Qed.

Lemma preserves_contents ib ino s s' F U a n X : repr ib ino (mem s) F U -> data_blocks (mem s) ib a n ->
  (forall b, a <= b < a + n -> b ∈ X) ->
  (forall x, x < buf a \/ buf (a + n) <= x -> ld8 (mem s') x = ld8 (mem s) x) ->
  dirty s' = dirty s -> held s' = held s -> last_inode_bg_id s' = last_inode_bg_id s -> preserves ib X s s'.
Proof.
  intros R Hd HX Hon Ed Eh El. constructor; [by eapply (contents_keeps ib ino a n)|done|done| | |].
  2:{ intros I Dirs. by apply (contents_irepr ib ino (mem s) (mem s') F U a n). }
  2:{ intros g Hok Hg. pose proof (desc_inside _ Hok g Hg). destruct Hd as (D1 & D2 & D3 & D4). destruct (D4 g Hg) as (D5 & D6 & _).
      apply sealed_on; [done|by eapply (contents_keeps ib ino a n)|done| |]; intros x Hx;
        [apply (contents_block ib ino a n (mem s) (mem s') F U R (conj D1 (conj D2 (conj D3 D4))) Hon (desc_block (mem s) g))
        |apply (contents_block ib ino a n (mem s) (mem s') F U R (conj D1 (conj D2 (conj D3 D4))) Hon (bitmap (mem s) g))]; (done || lia). }
  split; [by rewrite Ed|].
  intros b x H1 H2 H3 H4 H5. eapply (contents_block ib ino a n); try done. intros Hb. apply H3. by apply HX.
Qed.

(** ** Release of a range *)

Lemma run_free_group ib ir s m F U g lo a n (Q : bool * Z * Z * ext4_inode_ref -> ext4_fs -> Prop) fuel last :
  repr ib (ir_inode ir) m F U -> mem s = m -> per_group m = 8 * dev_bsize -> 0 <= g <= last -> last < groups m ->
  0 <= lo < per_group m -> a = addr m g lo -> 1 <= n < 2 ^ 32 ->
  let k := Z.min n (per_group m - lo) in
  (forall r s', device_error r -> unchanged s s' -> Q (true, r, n, ir) s') ->
  (forall s', group_change m (mem s') g (ir_inode ir) 0 0 k (bits_range m g lo (lo + k) false) -> held s' = held s ->
     last_inode_bg_id s' = last_inode_bg_id s -> dirty s' = {[ desc_block m g ]} ∪ ({[ bitmap m g ]} ∪ dirty s) ->
     run (free_loop fuel (dirty_inode ir) (u32 (g + 1)) last (u64 (a + k)) (n - k)) s' Q) ->
  run (free_loop (S fuel) ir g last a n) s Q.
Proof.
  intros R Em Hper Hg Hl Hlo -> Hn k Herr Hok. pose proof (r_ok _ _ _ _ _ R) as Hfs. pose proof (bsize_cases m Hfs) as [_ Hb].
  assert (0 <= g < groups m) as Hg' by lia. cbn [free_loop]. rewrite (proj2 (Z.leb_le g last)) by lia. step.
  apply run_get_ref; rewrite ?Em; try done.
  { intros r ref s' Hr Hu. rewrite (proj2 (Z.eqb_neq r EOK) (proj1 Hr)). cbn [negb]. step. by apply Herr. }
  intros s1 Hop Hs1 Hd1 Hh1 Hl1. rewrite (Z.eqb_refl EOK). cbn [negb block_group the_ref]. step. step.
  destruct (same_free m g (mem s1) Hs1) as [_ ->]. step. apply run_get.
  { intros r s2 Hr E1 E2 E3 E4. rewrite (proj2 (Z.eqb_neq r EOK) (proj1 Hr)). cbn [negb].
    eapply run_give_up; [done|by rewrite E3|]. intros u. apply Herr; [done|].
    split; [intros x; cbn; by rewrite E1, Em|]. split_and!; cbn; congruence. }
  intros s2 _ E1 E2 E3 E4. rewrite (Z.eqb_refl EOK). cbn [negb]. step. step. step.
  pose proof (proj1 (same_keeps m (mem s1) Hs1)) as Hk1. rewrite (kept_idx m (mem s1) Hk1), (kept_block_size m (mem s1) Hk1).
  destruct (index_ok m Hfs g lo Hg' Hlo) as [-> _]. rewrite (ok_bsize m Hfs), (uw_small 32 (dev_bsize * 8 - lo)) by lia.
  assert ((if dev_bsize * 8 - lo <? n then dev_bsize * 8 - lo else n) = k) as -> by (case_if; zb; unfold k; lia).
  destruct (bits_free_inside (mem s2) (buf (bitmap m g)) lo k dev_bsize) as (m2 & Em2 & Hbits & Hout); [lia..|].
  apply run_lift with m2; [done|]. steps.
  apply run_dirty; [cbn; rewrite E3; left|]. step. apply (run_set _ (desc_block m g :: held s)); [done|cbn; congruence|].
  rewrite (Z.eqb_refl EOK). cbn [negb]. step. apply run_count. step.
  apply (run_put_ref _ (held s)); [done|done|]. cbv zeta. intros u. cbn [bgr_dirty dirty_ref bgr_index block_group bgr_block the_ref].
  rewrite (Z.eqb_refl EOK). cbn [negb]. apply Hok; cbn [mem dirty held last_inode_bg_id set_mem set_held set_dirty set_unsaved];
    [|done|congruence|by rewrite E2, Hd1].
  pose proof (r_inode _ _ _ _ _ R) as Hino.
  eapply group_change_bits; [|eapply (finish_change m g ib (ir_inode ir) 0 0 k m2); try done].
  - intros j Hj. unfold bits_range, used. rewrite Hbits, E1 by lia. case_if; [done|]. by apply bget_on.
  - destruct Hino. by apply data_blocks_none.
  - intros x Hx. rewrite Hout, E1 by done. apply Hs1.
Qed.

Lemma addr_next m g lo k : addr m g lo + k = addr m g (lo + k).
Proof. unfold addr. lia. Qed.

Lemma addr_small m g i : fs_ok m -> 0 <= g < groups m -> 0 <= i < per_group m -> 0 <= addr m g i < 2 ^ 32.
Proof.
  intros Hok Hg Hi. pose proof (group_base m Hok g Hg). pose proof (first_cases m Hok). pose proof (ok_per_group m Hok).
  pose proof (bsize_cases m Hok) as [_ ?]. unfold addr. lia.
Qed.

(** The group of the last block of a range of owned blocks. *)
Lemma last_group ib ino m F U g lo n last : repr ib ino m F U -> 0 <= g < groups m -> 0 <= lo < per_group m -> 1 <= n ->
  block_range (addr m g lo) n ⊆ U -> ext4_balloc_get_bgid_of_block m sb (addr m g lo + n - 1) = last ->
  last < groups m /\ if lo + n <=? per_group m then last = g else g < last.
Proof.
  intros R Hg Hlo Hn Hsub El. pose proof (r_ok _ _ _ _ _ R) as Hok.
  destruct (r_owned _ _ _ _ _ R (addr m g lo + n - 1)) as (g' & i' & B & _); [apply Hsub, elem_of_block_range; lia|].
  pose proof (block_at_bit m _ _ _ Hok B) as Hi'. destruct B as (Hg' & _ & Ea).
  rewrite Ea in El. destruct (index_ok m Hok g' i' Hg' Hi') as [_ E2]. assert (last = g') as -> by congruence. split; [lia|].
  unfold addr in Ea. case_if; zb; nia.
Qed.

(** What [free_loop] leaves: the first [k] blocks of the range are free. *)
Definition freed (ib : Z) (ir : ext4_inode_ref) (F U : gset Z) (a n : Z) (s : ext4_fs) (failed : bool) (r : Z)
    (ir' : ext4_inode_ref) (s' : ext4_fs) : Prop :=
  preserves ib (F ∪ U) s s' /\ ir_inode ir' = ir_inode ir /\
  exists k, repr ib (ir_inode ir) (mem s') (F ∪ block_range a k) (U ∖ block_range a k) /\
    if failed then device_error r /\ 0 <= k < n else r = EOK /\ k = n.

Lemma freed_next ib ir F U a k n s s1 failed r ir' s' : 0 <= k -> 0 <= n -> block_range a k ⊆ U -> preserves ib (F ∪ U) s s1 ->
  freed ib (dirty_inode ir) (F ∪ block_range a k) (U ∖ block_range a k) (a + k) n s1 failed r ir' s' ->
  freed ib ir F U a (k + n) s failed r ir' s'.
Proof.
  intros Hk Hn Hsub P (P' & Ei & j & R & Hj).
  replace (F ∪ block_range a k ∪ U ∖ block_range a k) with (F ∪ U) in P'.
  2:{ apply set_eq. intros x. rewrite !elem_of_union, elem_of_difference. destruct (decide (x ∈ block_range a k)); set_solver. }
  split; [by eapply preserves_trans|]. split; [done|]. exists (k + j).
  rewrite block_range_add by (destruct failed, Hj; lia). split; [|destruct failed, Hj; (split; [done|lia])].
  replace (F ∪ (block_range a k ∪ block_range (a + k) j)) with (F ∪ block_range a k ∪ block_range (a + k) j) by (apply set_eq; set_solver).
  by replace (U ∖ (block_range a k ∪ block_range (a + k) j)) with (U ∖ block_range a k ∖ block_range (a + k) j) by (apply set_eq; set_solver).
Qed.

Lemma run_free_loop ib last fuel : forall ir F U g lo n s,
  repr ib (ir_inode ir) (mem s) F U -> per_group (mem s) = 8 * dev_bsize -> 0 <= g < groups (mem s) -> 0 <= lo < per_group (mem s) ->
  1 <= n < 2 ^ 32 -> block_range (addr (mem s) g lo) n ⊆ U ->
  ext4_balloc_get_bgid_of_block (mem s) sb (addr (mem s) g lo + n - 1) = last -> last - g + 1 < Z.of_nat fuel ->
  run (free_loop fuel ir g last (addr (mem s) g lo) n) s (fun '(returned, r, count, ir') s' =>
    (returned = false -> count = 0) /\ freed ib ir F U (addr (mem s) g lo) n s returned r ir' s').
Proof.
  induction fuel as [|fuel IH]; intros ir F U g lo n s R Hper Hg Hlo Hn Hsub Hlast Hfuel;
    assert (1 <= n) as Hn1 by lia.
  { destruct (last_group _ _ _ _ _ _ _ _ _ R Hg Hlo Hn1 Hsub Hlast) as [_ Hx]. case_if_in Hx; lia. }
  pose proof (r_ok _ _ _ _ _ R) as Hok. pose proof (groups_range _ Hok) as Hgr. pose proof (addr_small _ g lo Hok Hg Hlo) as Has.
  destruct (last_group _ _ _ _ _ _ _ _ _ R Hg Hlo Hn1 Hsub Hlast) as [Hlt Hcase].
  assert (g <= last) by (case_if_in Hcase; lia).
  apply (run_free_group ib ir s (mem s) F U g lo _ n); try done; try lia.
  - intros r s' Hr Hu. split; [done|]. split; [by apply preserves_unchanged|]. split; [done|]. exists 0.
    split; [|split; [done|lia]]. replace (block_range (addr (mem s) g lo) 0) with (∅ : gset Z) by done. rewrite union_empty_r_L, difference_empty_L.
    eapply repr_same; [done|apply Hu].
  - set (k := Z.min n (per_group (mem s) - lo)). intros s1 Hgc Hh Hl Hd.
    pose proof (bsize_cases _ Hok) as [_ Hbs]. rewrite (uw_small 32) by lia. rewrite (uw_small 64) by lia.
    assert (block_range (addr (mem s) g lo) k ⊆ U) as Hsk.
    { intros x Hx. apply Hsub. rewrite elem_of_block_range in *. lia. }
    assert (repr ib (ir_inode ir) (mem s1) (F ∪ block_range (addr (mem s) g lo) k) (U ∖ block_range (addr (mem s) g lo) k)) as R1
      by (eapply repr_release; try done; lia).
    pose proof (gc_keeps _ _ _ _ _ _ _ _ Hgc) as Hkeep.
    assert (preserves ib (F ∪ U) s s1) as P1.
    { eapply (preserves_change ib (ir_inode ir) (mem s) s s1 F U g 0 0); try done; [|intros; lia].
      apply data_blocks_none. apply (r_inode _ _ _ _ _ R). }
    case_if_in Hcase; zb.
    + assert (k = n) as Ek by lia. destruct fuel as [|fuel]; [lia|]. cbn [free_loop]. rewrite (proj2 (Z.leb_gt (g + 1) last)) by lia.
      step. split; [lia|]. split; [done|]. split; [done|]. exists n. rewrite <- Ek. done.
    + assert (addr (mem s) g lo + k = addr (mem s1) (g + 1) 0) as En.
      { rewrite (addr_keeps _ _ Hkeep). unfold k, addr. lia. }
      rewrite En. eapply run_mono; [apply (IH (dirty_inode ir) _ _ (g + 1) 0 (n - k) s1 R1)|].
      * by rewrite (kept_per_group _ _ (proj1 Hkeep)).
      * rewrite (kept_groups _ _ (proj1 Hkeep)). lia.
      * rewrite (kept_per_group _ _ (proj1 Hkeep)). lia.
      * lia.
      * rewrite <- En. intros x Hx. apply elem_of_difference. split; [apply Hsub|]; rewrite elem_of_block_range in *; lia.
      * rewrite <- En, (kept_bgid _ _ (proj1 Hkeep)), <- Hlast. f_equal. lia.
      * lia.
      * intros [[[ret r] c] ir'] s2 [Hc Hf]. split; [done|]. replace n with (k + (n - k)) by lia.
        eapply freed_next; try done; try lia. by rewrite En.
Qed.

Lemma range_data ib ino m F U a n : repr ib ino m F U -> 1 <= n -> block_range a n ⊆ U -> data_blocks m ib a n.
Proof.
  intros R Hn Hsub. assert (forall b, a <= b < a + n -> data_blocks m ib b 1) as Hb.
  { intros b Hb. apply (r_data _ _ _ _ _ R). right. by apply Hsub, elem_of_block_range. }
  apply data_blocks_each; [|lia|done]. destruct (Hb a ltac:(lia)). done.
Qed.

Lemma run_free_blocks ib fuel ir a n F U s : repr ib (ir_inode ir) (mem s) F U -> per_group (mem s) = 8 * dev_bsize ->
  groups (mem s) + 1 < Z.of_nat fuel -> 1 <= n < 2 ^ 32 -> block_range a n ⊆ U ->
  run (ext4_balloc_free_blocks fuel ir a n) s (fun '(r, ir') s' => exists failed, freed ib ir F U a n s failed r ir' s').
Proof.
  intros R Hper Hfuel Hn Hsub. assert (1 <= n) as Hn1 by lia. pose proof (r_ok _ _ _ _ _ R) as Hok.
  pose proof (range_data _ _ _ _ _ _ _ R Hn1 Hsub) as Hdata.
  destruct (r_owned _ _ _ _ _ R a) as (g & lo & B & _); [apply Hsub, elem_of_block_range; lia|].
  pose proof (block_at_bit _ _ _ _ Hok B) as Hlo. destruct B as (Hg & _ & ->). pose proof (addr_small _ g lo Hok Hg Hlo).
  unfold ext4_balloc_free_blocks. step. step. destruct (index_ok _ Hok g lo Hg Hlo) as [_ ->].
  rewrite (uw_small 64 (addr (mem s) g lo + n)), uw_small by lia.
  destruct (last_group _ _ _ _ _ _ _ _ _ R Hg Hlo Hn1 Hsub eq_refl) as [Hl _].
  step. eapply run_mono; [apply (run_free_loop ib _ fuel ir F U g lo n s); try done; lia|].
  intros [[[[|] r] count] ir'] s1 [Hc (P & Ei & k & R1 & Hk)]; cbv beta iota.
  - step. exists true. split; [done|]. split; [done|]. by exists k.
  - rewrite (Hc eq_refl). destruct Hk as [-> ->]. step. apply run_invalidate. intros s2 Hs2 Hd2 Hh2 Hl2. cbn [Z.eqb negb]. step.
    exists false. pose proof (proj2 (data_blocks_keeps _ _ (ok_desc_size _ Hok) (p_keeps _ _ _ _ P) ib _ n) Hdata) as Hdata1.
    assert (forall x, x < buf (addr (mem s) g lo) \/ buf (addr (mem s) g lo + n) <= x -> ld8 (mem s2) x = ld8 (mem s1) x) as Hon
      by (intros x Hx; unfold ld8; by rewrite Hs2).
    split; [|split; [done|]].
    + eapply preserves_trans; [exact P|]. eapply preserves_contents; try done. intros b Hb. apply elem_of_union_r, Hsub.
      by apply elem_of_block_range.
    + exists n. split; [|done]. by eapply repr_contents.
Qed.

(** ** Operations *)

Inductive bop :=
  | Alloc (goal : Z)
  | TryAlloc (a : Z)
  | Free (a : Z)
  | FreeRange (a n : Z).

(** The status, and the block or flag the operation stores. *)
Definition balloc_exec (fuel : nat) (o : bop) (ir : ext4_inode_ref) : M (Z * Z * ext4_inode_ref) :=
  match o with
  | Alloc goal => ext4_balloc_alloc_block ir goal
  | TryAlloc a => '(r, free, ir) ← ext4_balloc_try_alloc_block ir a; mret (r, Z.b2z free, ir)
  | Free a => '(r, ir) ← ext4_balloc_free_block ir a; mret (r, 0, ir)
  | FreeRange a n => '(r, ir) ← ext4_balloc_free_blocks fuel ir a n; mret (r, 0, ir)
  end.

(** The allocator on the set of free blocks and the blocks of the inode. *)
Inductive bspec : bop -> gset Z * gset Z -> Z * Z -> gset Z * gset Z -> Prop :=
  | spec_alloc goal F U a : a ∈ F -> bspec (Alloc goal) (F, U) (EOK, a) (F ∖ {[ a ]}, {[ a ]} ∪ U)
  | spec_full goal U a : bspec (Alloc goal) (∅, U) (ENOSPC, a) (∅, U)
  | spec_try F U a : a ∈ F -> bspec (TryAlloc a) (F, U) (EOK, 1) (F ∖ {[ a ]}, {[ a ]} ∪ U)
  | spec_taken F U a : a ∉ F -> bspec (TryAlloc a) (F, U) (EOK, 0) (F, U)
  | spec_free F U a : bspec (Free a) (F, U) (EOK, 0) (F ∪ {[ a ]}, U ∖ {[ a ]})
  | spec_free_range F U a n : bspec (FreeRange a n) (F, U) (EOK, 0) (F ∪ block_range a n, U ∖ block_range a n)
  | spec_free_part F U a n k r v : device_error r -> 0 <= k < n ->
      bspec (FreeRange a n) (F, U) (r, v) (F ∪ block_range a k, U ∖ block_range a k)
  | spec_error o F U r v : device_error r -> bspec o (F, U) (r, v) (F, U).

Definition room (U : gset Z) : Prop := (Z.of_nat (size U) + 1) * sectors < 2 ^ 32.

Definition legal (m : memory) (o : bop) (st : gset Z * gset Z) : Prop :=
  let U := st.2 in
  match o with
  | Alloc goal => room U /\ exists g, 0 <= g < groups m /\ ext4_balloc_get_bgid_of_block m sb goal = g /\
      0 <= ext4_fs_addr_to_idx_bg m sb goal <= in_group m g /\ ext4_fs_addr_to_idx_bg m sb goal < per_group m
  | TryAlloc a => room U /\ exists g i, 0 <= g < groups m /\ 0 <= i < per_group m /\ a = addr m g i
  | Free a => a ∈ U
  | FreeRange a n => per_group m = 8 * dev_bsize /\ 1 <= n < 2 ^ 32 /\ block_range a n ⊆ U
  end.

Lemma legal_keeps m m' o st : keeps m m' -> legal m o st -> legal m' o st.
Proof.
  intros Hk. pose proof (proj1 Hk) as Hsb. destruct o; cbn [legal]; try done.
  - rewrite (kept_groups m m' Hsb), (kept_bgid m m' Hsb), (kept_idx m m' Hsb), (kept_per_group m m' Hsb).
    intros (Hr & g & Hg & E & Hi). split; [done|]. exists g. by rewrite (in_group_keeps m m' Hk).
  - rewrite (kept_groups m m' Hsb), (kept_per_group m m' Hsb). intros (Hr & g & i & Hx). split; [done|]. exists g, i.
    by rewrite (addr_keeps m m' Hk).
  - by rewrite (kept_per_group m m' Hsb).
Qed.

(** How an operation started in [s] with [F] and [U] may end. *)
Definition simulated (ib : Z) (ir : ext4_inode_ref) (o : bop) (F U : gset Z) (s : ext4_fs) (out : Z * Z * ext4_inode_ref) (s' : ext4_fs) : Prop :=
  let '(r, v, ir') := out in
  preserves ib (F ∪ U) s s' /\ ir_inode ir' = ir_inode ir /\
  exists F' U', bspec o (F, U) (r, v) (F', U') /\ repr ib (ir_inode ir) (mem s') F' U'.

Lemma simulated_error ib ir o F U s r v s' : repr ib (ir_inode ir) (mem s) F U -> device_error r -> unchanged s s' ->
  simulated ib ir o F U s (r, v, ir) s'.
Proof.
  intros R Hr Hu. split; [by apply preserves_unchanged|]. split; [done|]. exists F, U. split; [by constructor|].
  eapply repr_same; [done|apply Hu].
Qed.

Lemma simulated_take ib ir o F U s s' g i v : repr ib (ir_inode ir) (mem s) F U -> room U -> 0 <= g < groups (mem s) ->
  0 <= i < per_group (mem s) -> used (mem s) g i = false -> held s' = held s -> last_inode_bg_id s' = last_inode_bg_id s ->
  group_change (mem s) (mem s') g (ir_inode ir) 0 0 (-1) (bits_with (mem s) g i true) ->
  dirty s' = {[ desc_block (mem s) g ]} ∪ ({[ bitmap (mem s) g ]} ∪ dirty s) ->
  (addr (mem s) g i ∈ F -> bspec o (F, U) (EOK, v) (F ∖ {[ addr (mem s) g i ]}, {[ addr (mem s) g i ]} ∪ U)) ->
  simulated ib ir o F U s (EOK, v, dirty_inode ir) s'.
Proof.
  intros R Hroom Hg Hi Hu Hh Hl Hgc Hd Hspec. destruct (repr_take _ _ _ _ _ _ _ _ R Hg Hi Hu Hroom Hgc) as [Ha R'].
  split; [|split; [done|]].
  - eapply (preserves_change ib (ir_inode ir) (mem s) s s' F U g 0 0); try done; [|intros; lia]. apply data_blocks_none, (r_inode _ _ _ _ _ R).
  - exists (F ∖ {[ addr (mem s) g i ]}), ({[ addr (mem s) g i ]} ∪ U). split; [by apply Hspec|done].
Qed.

Lemma all_full ib ino m F U : repr ib ino m F U -> (forall g, 0 <= g < groups m -> group_full m g) -> F = ∅.
Proof.
  intros R Hf. apply set_eq. intros a. split; [|set_solver]. intros Ha. apply (r_free _ _ _ _ _ R) in Ha as (g & i & (Hg & Hi & _) & Hu).
  destruct (Hf g Hg) as [E|E]; [|by rewrite E in Hu]. rewrite (r_gfree _ _ _ _ _ R g Hg) in E.
  by rewrite (nfree_zero m g i E Hi) in Hu.
Qed.

Lemma run_exec ib fuel ir o F U s : repr ib (ir_inode ir) (mem s) F U -> groups (mem s) + 1 < Z.of_nat fuel -> legal (mem s) o (F, U) ->
  run (balloc_exec fuel o ir) s (simulated ib ir o F U s).
Proof.
  intros R Hfuel Hl. pose proof (r_ok _ _ _ _ _ R) as Hok. pose proof (r_inode _ _ _ _ _ R) as Hino. destruct o as [goal|a|a|a n]; cbn [balloc_exec legal snd] in *.
  - destruct Hl as [Hroom Hgoal]. eapply run_mono; [apply (run_alloc (mem s) ir ib); try done; apply (r_padded _ _ _ _ _ R)|].
    intros [[r a] ir'] s' [(-> & -> & Hh & Hl & g & i & Hg & Hi & Hu & -> & Hgc & Hd)|(Hun & -> & _ & [Hr|[-> Hfull]])].
    + eapply simulated_take; try done. by constructor.
    + by apply simulated_error.
    + assert (F = ∅) as -> by (eapply all_full; [done|]; intros; by apply Hfull). split; [by apply preserves_unchanged|]. split; [done|].
      exists ∅, U. split; [constructor|]. eapply repr_same; [done|apply Hun].
  - destruct Hl as (Hroom & g & i & Hg & Hi & ->). destruct (index_ok _ Hok g i Hg Hi) as [Ei Eg]. step.
    eapply run_mono; [by apply (run_try_alloc (mem s) ir ib g Hok Hg Hino i)|].
    intros [[r free] ir'] s' [(Hr & Hun & ->)|(-> & -> & Hc)]; cbv beta iota; step; [by apply simulated_error|].
    destruct (used (mem s) g i) eqn:Hu; cbn [negb Z.b2z].
    + destruct Hc as [Hun ->]. split; [by apply preserves_unchanged|]. split; [done|]. exists F, U.
      split; [|eapply repr_same; [done|apply Hun]]. constructor. rewrite (repr_free_bit _ _ _ _ _ _ _ R Hg Hi). congruence.
    + destruct Hc as (-> & Hh & Hl & Hgc & Hd). eapply simulated_take; try done. by constructor.
  - cbn [legal] in Hl. destruct (r_owned _ _ _ _ _ R a Hl) as (g & i & B & Hu). pose proof (block_at_bit _ _ _ _ Hok B) as Hi. destruct B as (Hg & _ & ->).
    destruct (index_ok _ Hok g i Hg Hi) as [Ei Eg]. pose proof (r_data _ _ _ _ _ R _ (or_intror Hl)) as Hdata. step.
    eapply run_mono; [by apply (run_free (mem s) ir ib g Hok Hg Hino i)|].
    intros [r ir'] s' [(-> & -> & Hh & Hl' & Hgc & Hd)|(Hr & Hun & ->)]; cbv beta iota; step; [|by apply simulated_error].
    split; [|split; [done|]].
    + eapply (preserves_change ib (ir_inode ir) (mem s) s s' F U g _ (addr (mem s) g i + 1)); try done.
      * by replace (addr (mem s) g i + 1 - addr (mem s) g i) with 1 by lia.
      * intros b Hb. replace b with (addr (mem s) g i) by lia. by apply elem_of_union_r.
    + exists (F ∪ {[ addr (mem s) g i ]}), (U ∖ {[ addr (mem s) g i ]}). split; [constructor|]. rewrite <- block_range_one.
      eapply repr_release; try done; try lia. rewrite block_range_one. set_solver.
  - destruct Hl as (Hper & Hn & Hsub). step. eapply run_mono; [by apply (run_free_blocks ib fuel ir a n F U s)|].
    intros [r ir'] s' (failed & P & Ei & k & R' & Hk); cbv beta iota; step. split; [done|]. split; [done|].
    exists (F ∪ block_range a k), (U ∖ block_range a k). split; [|done]. destruct failed, Hk as [Hr Hk]; [by constructor|]. subst. constructor.
Qed.

(** ** Clients *)

Lemma bspec_blocks m o F U x F' U' : legal m o (F, U) -> bspec o (F, U) x (F', U') -> F' ∪ U' = F ∪ U.
Proof.
  intros Hl Hs. assert (forall A B : gset Z, A ⊆ B -> F ∪ A ∪ B ∖ A = F ∪ B) as Hmove.
  { intros A B Hs'. apply set_eq. intros y. rewrite !elem_of_union, elem_of_difference. destruct (decide (y ∈ A)); set_solver. }
  assert (forall a, a ∈ F -> F ∖ {[ a ]} ∪ ({[ a ]} ∪ U) = F ∪ U) as Htake.
  { intros a Ha. apply set_eq. intros y. rewrite !elem_of_union, elem_of_difference. destruct (decide (y = a)); set_solver. }
  inversion Hs; subst; cbn [legal snd] in Hl; try done; try (by apply Htake); apply Hmove.
  - by intros y ->%elem_of_singleton.
  - apply Hl.
  - intros y Hy. apply Hl. rewrite elem_of_block_range in *. lia.
Qed.

(** The state of a client that started in [s0] with the blocks [X]. *)
Definition block_inv (ib ino : Z) (X : gset Z) (s0 s : ext4_fs) (ir : ext4_inode_ref) (st : gset Z * gset Z) : Prop :=
  preserves ib X s0 s /\ ir_inode ir = ino /\ st.1 ∪ st.2 = X /\ repr ib ino (mem s) st.1 st.2.

(** C4. Every client of the block allocator, whatever calls it makes next after
    each answer, gets the answers of an allocator on sets: a block handed out was
    free, ENOSPC means that no block is free, a failing device changes nothing
    but what a release had already given back. At the end the bitmaps, the
    counters of the groups, of the superblock and of the inode still represent
    the two sets, the checksums of the block bitmaps and of the descriptors of all
    groups that were right are right, no reference is held in addition, every changed
    block of metadata is marked dirty, and the inode bitmaps and counters are as
    before.  The file system has its bitmaps initialised; a goal lies in the file
    system, only blocks of the inode are released, and ranges only where a group
    has as many blocks as a bitmap has bits. *)
Theorem balloc_refines ib fuel c ir s F U :
  repr ib (ir_inode ir) (mem s) F U -> groups (mem s) + 1 < Z.of_nat fuel -> permitted bspec (legal (mem s)) c (F, U) ->
  run (perform (balloc_exec fuel) c ir) s (fun '(answers, ir') s' => exists st,
    follows bspec c (F, U) answers st /\ block_inv ib (ir_inode ir) (F ∪ U) s s' ir' st).
Proof.
  intros R Hfuel. apply run_client; [|by split; [apply preserves_unchanged; split_and!|]].
  intros o ir1 s1 [F1 U1] (P & Ei & HX & R1) Hl. cbn [fst snd] in *. pose proof (p_keeps _ _ _ _ P) as Hk. rewrite <- Ei in R1.
  eapply run_mono.
  - apply (run_exec ib fuel ir1 o F1 U1 s1 R1); [by rewrite (kept_groups _ _ (proj1 Hk))|by eapply legal_keeps].
  - intros [[r v] ir2] s2 (P2 & Ei2 & F2 & U2 & Hs & R2). exists (F2, U2). split; [done|]. rewrite HX in P2.
    split; [by eapply preserves_trans|]. split; [congruence|]. rewrite <- Ei. split; [|done].
    rewrite <- HX. by eapply bspec_blocks.
Qed.
End client.

#[local] Existing Instance sample_device.

(** Takes a block near block 11 and gives it back. *)
Definition sample_client : client bop (Z * Z) :=
  Call (Alloc 11) (fun '(r, a) => if r =? EOK then Call (Free a) (fun _ => Done) else Done).

Lemma sample_permitted : permitted bspec (legal sample_fs) sample_client (sample_free, sample_owned).
Proof.
  destruct sample_values as (E1 & E2 & _ & _ & _ & _ & E7). split.
  - split; [unfold room; destruct sample_counts as (_ & _ & _ & _ & _ & E); change sectors with 2 in *; cbn [snd]; lia|].
    exists 0. rewrite E1, E2, E7. split; [lia|]. split; [by vm_compute|]. change (ext4_fs_addr_to_idx_bg _ _ _) with 10. lia.
  - intros [r a] [F' U'] Hs. destruct (r =? EOK) eqn:E; [|done]. zb. subst r.
    assert (a ∈ U') as Ha by (inversion Hs; subst; try set_solver; match goal with H : device_error EOK |- _ => destruct H end; congruence).
    split; [exact Ha|done].
Qed.

Lemma balloc_refines_witness :
  run (perform (balloc_exec 3) sample_client (InodeRef 5 sample_inode 1 false)) (Fs sample_fs ∅ [] 0 0 ∅)
    (fun '(answers, ir') s' => held s' = [] /\
       exists st, follows bspec sample_client (sample_free, sample_owned) answers st /\ repr 5 sample_inode (mem s') st.1 st.2).
Proof.
  eapply run_mono.
  - apply (balloc_refines 5 3 sample_client (InodeRef 5 sample_inode 1 false) (Fs sample_fs ∅ [] 0 0 ∅) sample_free sample_owned).
    + apply sample_repr.
    + cbn [mem]. destruct sample_values as (-> & _). lia.
    + apply sample_permitted.
  - intros [answers ir'] s' (st & Hf & P & _ & _ & R). split; [apply (p_held _ _ _ _ P)|]. by exists st.
Defined.
