(* ===== verification/Ext4InodeData.v ===== *)
(** lwext4, the fields of an inode beside its count of blocks: changing them does
    not matter to the allocators, and the allocators do not change them. *)
From S2P Require Import Prelude Memory Ext4Errno Ext4Bitmap Ext4Crc Ext4Layout Ext4Super Ext4BlockGroup Ext4Inode.
From S2P Require Import Ext4Store Ext4Fs Ext4Groups Ext4Balloc Ext4BallocSpec Ext4BallocRun Ext4BallocRefine.
From S2P Require Import Ext4IallocSpec Ext4IallocRefine Ext4BallocClient.
#[local] Open Scope Z_scope.

Section data.
Context `{Device}.
#[local] Notation sb := fs_sb.

(** The bytes of the inode at [ino] that are not its count of blocks. *)
Definition ino_data (ino x : Z) : Prop := ino <= x < ino + 128 /\ ~ ino_count ino x.

(** ** Changing them *)

Section change.
Context (ib ino : Z) (m m' : memory) (F U : gset Z).
Hypothesis (R : repr ib ino m F U) (Hon : forall x, ~ ino_data ino x -> ld8 m' x = ld8 m x).

Lemma data_block b x : b <> ib -> buf b <= x < buf b + dev_bsize -> ld8 m' x = ld8 m x.
Proof.
  intros Hb Hx. apply Hon. intros [Hi _]. pose proof (bsize_cases m (r_ok _ _ _ _ _ R)) as [_ Hbs].
  destruct (r_inode _ _ _ _ _ R) as (_ & I1 & I2 & _). assert (0 < dev_bsize) as Hpos by lia. pose proof (buf_apart b ib Hpos Hb). lia.
Qed.

Lemma data_sb x : sb <= x < sb + 1024 -> ld8 m' x = ld8 m x.
Proof.
  intros Hx. apply Hon. intros [Hi _]. pose proof (r_ok _ _ _ _ _ R) as Hok. pose proof (bsize_cases m Hok) as [_ Hbs].
  destruct (r_inode _ _ _ _ _ R) as (I0 & I1 & _). assert (0 < dev_bsize) as Hpos by lia. pose proof (buf_above ib Hpos I0).
  pose proof (ok_below m Hok). lia.
Qed.

Lemma data_desc g x : 0 <= g < groups m -> desc m g <= x < desc m g + desc_size m -> ld8 m' x = ld8 m x.
Proof.
  intros Hg Hx. pose proof (desc_inside m (r_ok _ _ _ _ _ R) g Hg). destruct (r_inode _ _ _ _ _ R) as (_ & _ & _ & I3).
  destruct (I3 g Hg) as (Hne & _). apply (data_block (desc_block m g)); [congruence|lia].
Qed.

Lemma data_keeps : keeps m m'.
Proof.
  split; [intros x Hx _; by apply data_sb|]. intros g o Hg Ho Hs. apply (data_desc g); [done|]. unfold fixed in Ho. lia.
Qed.

Lemma data_used g i : 0 <= g < groups m -> 0 <= i < 8 * dev_bsize -> used m' g i = used m g i /\ iused m' g i = iused m g i.
Proof.
  intros Hg Hi. pose proof (ok_desc_size m (r_ok _ _ _ _ _ R)) as Hd. unfold used, iused.
  rewrite (kept_bitmap m m' data_keeps Hd), (kept_ibitmap m m' data_keeps Hd) by done. pose proof (byte_in i dev_bsize Hi).
  destruct (r_inode _ _ _ _ _ R) as (_ & _ & _ & I3). destruct (I3 g Hg) as (_ & Hb & Hib).
  split; apply bget_on; [apply (data_block (bitmap m g))|apply (data_block (ibitmap m g))]; (congruence || lia).
Qed.

Lemma data_gfree g : 0 <= g < groups m -> gfree m' g = gfree m g.
Proof.
  intros Hg. pose proof (ok_desc_size m (r_ok _ _ _ _ _ R)). unfold gfree. rewrite (kept_desc m m' (proj1 data_keeps)).
  apply (free_blocks_on m m'); [done|apply (kept_desc_size m m' (proj1 data_keeps))|]. intros x Hx. apply (data_desc g); [done|lia].
Qed.

Lemma data_iblocks : iblocks m' ino = iblocks m ino.
Proof.
  assert (forall f, 0 <= f_len f -> (28 <= f_off f /\ f_off f + f_len f <= 36) \/ (116 <= f_off f /\ f_off f + f_len f <= 118) ->
    fget f m' ino = fget f m ino) as Hf.
  { intros f F1 F2. apply fget_on; [done|]. intros x Hx. apply Hon. unfold ino_data, ino_count. lia. }
  unfold iblocks, ext4_inode_get_blocks_count, ext4_inode_has_flag, ext4_inode_get_flags.
  rewrite (kept_ro_com m m' (proj1 data_keeps)), (kept_block_size m m' (proj1 data_keeps)). by rewrite !Hf by fld.
Qed.

Lemma repr_data : repr ib ino m' F U.
Proof.
  apply (repr_on ib ino m); [done|apply data_keeps| |apply data_gfree| |apply data_iblocks].
  - intros g i Hg Hi. pose proof (ok_per_group m (r_ok _ _ _ _ _ R)). apply data_used; [done|lia].
  - unfold sbfree, ext4_sb_get_free_blocks_cnt. by rewrite !(fget_on _ m m') by (done || (intros x Hx; cbn in Hx; apply data_sb; lia)).
Qed.

Lemma irepr_data I Dirs : irepr m I Dirs -> irepr m' I Dirs.
Proof.
  intros Ri. apply (irepr_on m); [done|apply data_keeps| | |].
  - intros g i Hg Hi. by apply data_used.
  - intros a g Ha Hg. apply counter_on; [done|apply (ok_desc_size m (r_ok _ _ _ _ _ R))|apply data_keeps|]. intros x Hx _. by apply (data_desc g).
  - unfold sbifree. apply fget_on; [done|]. intros x Hx. cbn in Hx. apply data_sb. lia.
Qed.
End change.

Lemma preserves_data ib ino X s m' F U : repr ib ino (mem s) F U -> (forall x, ~ ino_data ino x -> ld8 m' x = ld8 (mem s) x) ->
  preserves ib X s (set_mem s m').
Proof.
  intros R Hon. constructor; [by apply (data_keeps ib ino _ _ F U)|done|done| |intros I Dirs; by apply (irepr_data ib ino _ _ F U)|].
  2:{ intros g Hok Hg. destruct (r_inode _ _ _ _ _ R) as (_ & _ & _ & I3). destruct (I3 g Hg) as (_ & Hb & _).
      apply sealed_on; [done|by apply (data_keeps ib ino _ _ F U)|done|intros x Hx; by apply (data_desc ib ino _ _ F U R Hon g)|].
      intros x Hx. by apply (data_block ib ino _ _ F U R Hon (bitmap (mem s) g)). }
  split; [done|]. intros b x Hb Hne _ _ Hx. by apply (data_block ib ino _ _ F U R Hon b).
Qed.

(** ** Allocation leaves them alone *)

Lemma alloc_data ib ino m m' F U g cnt bits x : repr ib ino m F U -> 0 <= g < groups m ->
  group_change m m' g ino 0 0 cnt bits -> ino_data ino x -> ld8 m' x = ld8 m x.
Proof.
  intros R Hg Hgc [Hx Hc]. apply (gc_frame _ _ _ _ _ _ _ _ Hgc). pose proof (r_ok _ _ _ _ _ R) as Hok.
  pose proof (bsize_cases m Hok) as [_ Hbs]. assert (0 < dev_bsize) as Hpos by lia.
  destruct (r_inode _ _ _ _ _ R) as (Hib & I1 & I2 & I3). destruct (I3 g Hg) as (Hd & Hb & _).
  pose proof (buf_apart ib _ Hpos Hd). pose proof (buf_apart ib _ Hpos Hb). pose proof (desc_inside m Hok g Hg).
  pose proof (ok_below m Hok). pose proof (buf_above ib Hpos Hib). pose proof (ok_desc_size m Hok).
  unfold touched, sb_blocks, dvar. intros [?|[?|[?|[?|?]]]]; try done; lia.
Qed.

(** All the flags of the inode but [EXT4_INODE_FLAG_HUGE_FILE] are the same. *)
Definition flags_but_huge (m m' : memory) (ino : Z) : Prop := forall f,
  Z.land f EXT4_INODE_FLAG_HUGE_FILE = 0 -> ext4_inode_has_flag m' ino f = ext4_inode_has_flag m ino f.

(** ** Memory that is neither metadata nor the inode *)

Definition in_block (b x : Z) : Prop := buf b <= x < buf b + dev_bsize.

Definition elsewhere (m : memory) (ino x : Z) : Prop :=
  ~ (sb <= x < sb + 1024) /\ ~ (ino <= x < ino + 128) /\
  forall g, 0 <= g < groups m -> ~ in_block (desc_block m g) x /\ ~ in_block (bitmap m g) x.

Lemma alloc_elsewhere m m' ino g cnt bits x : fs_ok m -> 0 <= g < groups m ->
  group_change m m' g ino 0 0 cnt bits -> elsewhere m ino x -> ld8 m' x = ld8 m x.
Proof.
  intros Hok Hg Hgc (Hs & Hi & Hb). apply (gc_frame _ _ _ _ _ _ _ _ Hgc). destruct (Hb g Hg) as [Hd Hm]. unfold in_block in *.
  pose proof (desc_inside m Hok g Hg). pose proof (ok_desc_size m Hok).
  unfold touched, sb_blocks, ino_count, dvar. intros [?|[?|[?|[?|?]]]]; try done; lia.
Qed.

Lemma owned_elsewhere ib ino m F U b x : repr ib ino m F U -> b ∈ F \/ b ∈ U -> in_block b x -> elsewhere m ino x.
Proof.
  intros R Hb Hx. pose proof (r_ok _ _ _ _ _ R) as Hok. destruct (r_data _ _ _ _ _ R b Hb) as (H0 & _ & Hib & Hg).
  pose proof (bsize_cases m Hok) as [_ Hbs]. assert (0 < dev_bsize) as Hpos by lia. pose proof (ok_below m Hok). pose proof (buf_above b Hpos H0).
  destruct (r_inode _ _ _ _ _ R) as (_ & I1 & I2 & _). unfold in_block in *. split_and!; [lia| |].
  - assert (b <> ib) as Hne by lia. pose proof (buf_apart b ib Hpos Hne). lia.
  - intros g Hgr. destruct (Hg g Hgr) as (G1 & G2 & _).
    assert (b <> desc_block m g) as N1 by lia. assert (b <> bitmap m g) as N2 by lia.
    pose proof (buf_apart b _ Hpos N1). pose proof (buf_apart b _ Hpos N2). unfold in_block. lia.
Qed.
End data.
