(* ===== verification/Ext4ExtentCreate.v ===== *)
(** lwext4, extent trees: [ext4_extent_get_blocks] when it has to allocate, for
    files whose extents are in the inode. *)
From S2P Require Import Prelude Memory Ext4Errno Ext4Layout Ext4Super Ext4BlockGroup Ext4Inode Ext4Store Ext4Fs.
From S2P Require Import Ext4Groups Ext4Balloc Ext4File Ext4Extent Ext4ExtentOps Ext4ExtentTree Ext4ExtentFind.
From S2P Require Import Ext4BallocSpec Ext4BallocRun Ext4BallocRefine Ext4Sample Ext4ExtentLookup Ext4ExtentLeaf.
From S2P Require Import Ext4BallocClient Ext4InodeData.
#[local] Open Scope Z_scope.
#[local] Open Scope cint_scope.

#[local] Notation elen := ext4_ext_get_actual_len.

(** ** Where a block goes in a list of extents *)

Lemma runs_raise E lo hi n : runs lo hi E -> (forall e, e ∈ E -> n < first_block e) -> n + 1 <= hi -> runs (n + 1) hi E.
Proof.
  destruct E as [|e E]; cbn; [done|]. intros (? & ? & ?) He ?. pose proof (He e ltac:(by left)). split; [lia|done].
Qed.

(** The extent the search for [n] ends at. *)
Definition neighbour (E : list ext4_extent) (n : Z) (e : ext4_extent) (E1 E2 : list ext4_extent) : Prop :=
  E = E1 ++ e :: E2 /\ (E1 = [] \/ first_block e <= n) /\ forall e', e' ∈ E2 -> n < first_block e'.

Lemma found_neighbour `{Device} m h lo hi E n i : tree m 0 h lo hi E [] -> found m h (nentries m h) n i ->
  exists E1 E2, neighbour E n (load_extent m (slot h i)) E1 E2 /\ Z.of_nat (length E1) = i.
Proof.
  intros [_ (-> & _ & HE)] (Hi & Hk & Hj). pose proof (leaf_lookup m h (Z.to_nat i) ltac:(lia)) as Ei. rewrite Z2Nat.id in Ei by lia.
  exists (take (Z.to_nat i) (leaf_extents m h)), (drop (S (Z.to_nat i)) (leaf_extents m h)). split; [split; [|split]|].
  - by rewrite take_drop_middle.
  - destruct Hk as [->|Hk]; [by left|right; exact Hk].
  - intros e' [k Hk']%list_elem_of_lookup. rewrite lookup_drop in Hk'. pose proof (lookup_lt_Some _ _ _ Hk') as Hl.
    rewrite leaf_length in Hl. rewrite leaf_lookup in Hk' by lia. injection Hk' as <-. apply Hj. lia.
  - rewrite length_take_le; [lia|]. rewrite leaf_length. lia.
Qed.

(** A block that is in no extent, put behind its neighbour. *)
Lemma neighbour_behind E lo hi n e E1 E2 : runs lo hi E -> neighbour E n e E1 E2 -> lookup_extent E n = None -> first_block e <= n ->
  n + 1 <= hi -> first_block e + elen e <= n /\ runs lo (first_block e + elen e) (E1 ++ [e]) /\ runs (n + 1) hi E2.
Proof.
  intros HE (-> & Hf & Ha) Hn Hle Hhi. apply runs_app in HE as (mid & R1 & R2). cbn in R2. destruct R2 as (Hm & Hl & R2).
  assert (first_block e + elen e <= n) as Hend.
  { destruct (decide (first_block e + elen e <= n)); [done|]. rewrite lookup_extent_app in Hn. destruct (lookup_extent E1 n); [done|].
    cbn in Hn. fold (lookup_extent E2 n) in Hn. destruct (covers e n) eqn:Ec; [done|]. unfold covers in Ec. lia. }
  split; [done|]. split; [apply runs_app; exists mid; split; [done|]; cbn; split_and!; [done|done|lia]|]. by apply (runs_raise _ (first_block e + elen e)).
Qed.

Lemma neighbour_front E lo hi n e E1 E2 : runs lo hi E -> neighbour E n e E1 E2 -> n < first_block e -> E1 = [] /\ runs (n + 1) hi E.
Proof.
  intros HE (-> & Hf & Ha) Hlt. assert (E1 = []) as -> by (destruct Hf; [done|lia]). split; [done|]. cbn in *.
  destruct HE as (? & ? & ?). split; [lia|done].
Qed.

(** ** A new extent of one block *)

Definition one_block (n a : Z) : ext4_extent := ext4_ext_store_pblock (Extent n (u16 1) 0 0) a.

Section one_block.
Context (n a : Z) (Hn : 0 <= n < 2 ^ 32) (Ha : 0 <= a < 2 ^ 32).

Lemma one_block_eq : one_block n a = Extent n 1 0 a.
Proof.
  unfold one_block, ext4_ext_store_pblock. cbn [first_block block_count]. change 0xFFFFFFFF with (Z.ones 32).
  rewrite Z.land_ones, Z.mod_small by lia. rewrite Z.shiftr_div_pow2, Z.div_small by lia. done.
Qed.

Lemma one_block_wf : extent_wf (one_block n a).
Proof. rewrite one_block_eq. unfold extent_wf. cbn. lia. Qed.

Lemma one_block_pblock : ext4_ext_pblock (one_block n a) = a.
Proof. rewrite pblock_value; rewrite one_block_eq; cbn; lia. Qed.

Lemma one_block_stored : ext4_ext_store_pblock (one_block n a) (ext4_ext_pblock (one_block n a)) = one_block n a.
Proof. rewrite one_block_pblock. done. Qed.
End one_block.

(** ** The root *)

Section root.
Context `{Device}.
#[local] Notation sb := fs_sb.

Definition root_path (h ex pb : Z) : list ext4_extent_path := [Path pb EXT4_BLOCK_ZERO 0 1 h 0 ex; zero_path].

(** The entry the search for [n] in the leaf [h] ends at. *)
Definition at_leaf (m : memory) (h n ex : Z) : Prop :=
  if nentries m h =? 0 then ex = 0 else ex <> 0 /\ exists i, ex = slot h i /\ found m h (nentries m h) n i.

Section leaf.
Context (m : memory) (ino n : Z) (E : list ext4_extent).
#[local] Notation h := (ext_inode_hdr ino).
Hypothesis (Hino : 0 <= ino) (T : tree m 0 h 0 (2 ^ 32) E []) (Hn : 0 <= n < EXT_MAX_BLOCKS).

Lemma root_depth : ext_depth m ino = 0.
Proof. destruct T as [Hok _]. apply (n_depth _ _ _ Hok). Qed.

Lemma root_length : Z.of_nat (length E) = nentries m h.
Proof. destruct T as [_ (-> & _)]. rewrite leaf_length. pose proof (nentries_range m h). lia. Qed.

Lemma runf_find_root r s (Q : Z * list ext4_extent_path -> ext4_inode_ref -> ext4_fs -> Prop) : mem s = m -> ir_inode r = ino ->
  (forall s', quiet s s' -> held s' = held s -> Q (ENOMEM, []) r s') ->
  (forall ex pb s', quiet s s' -> held s' = held s -> at_leaf m h n ex -> Q (EOK, root_path h ex pb) r s') ->
  runf (ext4_find_extent n []) r s Q.
Proof.
  intros Em Er Hno Hyes. unfold ext4_find_extent. fsteps. rewrite Em, Er, root_depth. apply runf_up.
  exists (dev_memory (clock s)), (tick s). split; [done|]. fstep. destruct (dev_memory (clock s)); [|fstep; by apply Hno].
  change (Z.to_nat (0 + 2)) with 2%nat. cbn [replicate]. rewrite path_put_head. cbv iota. change (Z.to_nat 0) with O. cbn [walk_loop].
  fsteps. rewrite (Z.eqb_refl EOK). cbn [negb]. fstep. eapply runf_need; [done|]. fsteps. change (mem (tick s)) with (mem s). rewrite Em.
  match goal with |- context [ext4_ext_binsearch m (header ?p) n] => set (p0 := p) end.
  destruct (finish_leaf n m p0 0 (2 ^ 32) E [] T) as (ex & Eex & Hex); [cbn; unfold ext_inode_hdr; cbn; lia|].
  eapply runf_need; [exact Eex|]. fstep. destruct (ex =? 0) eqn:E0; cbn [negb]; by apply Hyes.
Qed.

Hypothesis (R : runs 0 EXT_MAX_BLOCKS E) (Hroom : nentries m h < nmax m h) (Hmax : nmax m h <= 4) (Hfree : lookup_extent E n = None).

(** What a change of the root leaves. *)
Record root_ok (m' : memory) (E' : list ext4_extent) (a : Z) : Prop := {
  ro_frame x : x < h \/ h + 60 <= x -> ld8 m' x = ld8 m x;
  ro_tree : tree m' 0 h 0 (2 ^ 32) E' [];
  ro_runs : runs 0 EXT_MAX_BLOCKS E';
  ro_max : nmax m' h = nmax m h;
  ro_length : (length E' <= S (length E))%nat;
  ro_phys : phys_adds E E' n a;
}.

(** A new entry before the [k]-th. *)
Lemma root_insert k E1 E2 a : 0 <= a < 2 ^ 32 -> E = E1 ++ E2 -> Z.of_nat (length E1) = k -> runs 0 n E1 -> runs (n + 1) EXT_MAX_BLOCKS E2 ->
  root_ok (insert_entry m h k (one_block n a)) (E1 ++ one_block n a :: E2) a.
Proof.
  intros Ha HE Hk R1 R2. assert (n < 2 ^ 32) as Hn' by (unfold EXT_MAX_BLOCKS in *; lia). assert (0 <= n < 2 ^ 32) as Hn2 by lia.
  pose proof root_length as Hlen. pose proof (one_block_wf n a Hn2 Ha) as Hwf. pose proof (one_block_eq n a Ha) as Eeq.
  assert (0 <= k <= nentries m h) as Hk' by (rewrite <- Hlen, HE, length_app; lia).
  assert (runs 0 EXT_MAX_BLOCKS (E1 ++ one_block n a :: E2)) as R'.
  { apply runs_app. exists n. split; [done|]. cbn [runs]. rewrite Eeq. split; [done|]. change (elen (Extent n 1 0 a)) with 1. split; [lia|done]. }
  destruct T as [Hok (HEE & _ & _)]. constructor; [| |done| | |].
  - intros x Hx. apply insert_frame; try done. unfold slot. lia.
  - split.
    + constructor; unfold nmax; rewrite ?insert_field by (done || (cbn; lia)); try apply Hok. rewrite insert_count by done.
      fold (nmax m h). lia.
    + split; [|split; [done|by eapply runs_weaken; [exact R'| |unfold EXT_MAX_BLOCKS]]].
      rewrite insert_leaf_extents by done. rewrite <- HEE, HE. replace (Z.to_nat k) with (length E1) by lia. by rewrite take_app_length, drop_app_length.
  - unfold nmax. by rewrite insert_field by (done || (cbn; lia)).
  - rewrite HE, !length_app. cbn. lia.
  - rewrite HE. apply phys_insert; [by rewrite <- HE|by rewrite Eeq|by rewrite Eeq|by apply one_block_pblock].
Qed.

(** A longer extent. *)
Lemma root_append i e E1 E2 a : e = load_extent m (slot h i) -> E = E1 ++ e :: E2 -> Z.of_nat (length E1) = i ->
  first_block e + elen e = n -> elen e + 1 <= 0x8000 -> ext4_ext_is_unwritten e = false -> ext4_ext_pblock e + elen e = a ->
  runs (n + 1) EXT_MAX_BLOCKS E2 ->
  root_ok (set_len m (slot h i) (elen e + 1) false) (E1 ++ ext4_extent_set_block_count e (elen e + 1) false :: E2) a.
Proof.
  intros He HE Hi Hf Hle Hu Ha R2. pose proof root_length as Hlen. rewrite HE, length_app in Hlen. cbn in Hlen.
  assert (0 <= i < nentries m h) as Hi' by lia. set (e' := ext4_extent_set_block_count _ _ _).
  pose proof R as R0. rewrite HE in R0. apply runs_app in R0 as (mid & R1 & R0). cbn in R0. destruct R0 as (Hm & Hl & _).
  assert (0 <= elen e + 1 < 2 ^ 16) as Hc by lia. assert (elen e' = elen e + 1) as El.
  { unfold ext4_ext_get_actual_len at 1. unfold e', ext4_extent_set_block_count. cbn [block_count]. rewrite uw_small by lia.
    by rewrite (proj2 (Z.leb_le _ _)). }
  assert (runs 0 EXT_MAX_BLOCKS (E1 ++ e' :: E2)) as R'.
  { apply runs_app. exists mid. split; [done|]. cbn [runs]. rewrite El. change (first_block e') with (first_block e).
    split; [done|]. split; [lia|]. by replace (first_block e + (elen e + 1)) with (n + 1) by lia. }
  destruct T as [Hok (HEE & _ & _)]. constructor; [| |done| | |].
  - intros x Hx. apply set_len_other. unfold slot. lia.
  - split.
    + constructor; unfold nmax, nentries; rewrite ?set_len_field by (done || (cbn; lia)); apply Hok.
    + split; [|split; [done|by eapply runs_weaken; [exact R'| |unfold EXT_MAX_BLOCKS]]].
      rewrite set_len_leaf by done. rewrite <- HEE, <- He, HE. replace (Z.to_nat i) with (length E1) by lia.
      by rewrite insert_app_r_alt, Nat.sub_diag by lia.
  - unfold nmax. by rewrite set_len_field by (done || (cbn; lia)).
  - rewrite HE, !length_app. cbn. lia.
  - rewrite HE. apply phys_append; try done. by rewrite <- HE.
Qed.

(** ** The insertion *)

(** The code merges a block with the extent behind it without moving the start of
    that extent, and a written block with an unwritten extent before it. *)
Definition mergeable : Prop :=
  (forall e E2, E = e :: E2 -> first_block e <> n + 1) /\
  (forall e, e ∈ E -> first_block e + elen e = n -> ext4_ext_is_unwritten e = false).
Hypothesis Hmerge : mergeable.

Section merge.
Context (i a : Z) (E1 E2 : list ext4_extent).
#[local] Notation e := (load_extent m (slot h i)).
Hypothesis (Ha : 0 <= a < 2 ^ 32) (N : neighbour E n e E1 E2) (Hi : Z.of_nat (length E1) = i).

Lemma neighbour_in : e ∈ E.
Proof. destruct N as (-> & _). apply list_elem_of_In, in_elt. Qed.

Lemma neighbour_range : 0 <= first_block e /\ 0 < elen e <= 0x8000 /\ first_block e + elen e <= EXT_MAX_BLOCKS /\ 0 <= ext4_ext_pblock e < 2 ^ 48.
Proof.
  pose proof (runs_in _ _ _ _ R neighbour_in) as (? & ? & ?). pose proof (load_range m (slot h i)) as (R1 & R2 & R3 & R4).
  pose proof (elen_range e R2). rewrite pblock_value by done. lia.
Qed.

Lemma neighbour_other : first_block e <> n.
Proof.
  intros Ef. destruct neighbour_range as (? & ? & ? & _). destruct (neighbour_behind E 0 EXT_MAX_BLOCKS n e E1 E2 R N Hfree) as (? & _); lia.
Qed.

Lemma one_block_len : elen (one_block n a) = 1.
Proof. rewrite one_block_eq by done. done. Qed.

Lemma append_merges : ext4_ext_can_append e (one_block n a) = true ->
  first_block e + elen e = n /\ elen e + 1 <= 0x8000 /\ ext4_ext_is_unwritten e = false /\ ext4_ext_pblock e + elen e = a.
Proof.
  destruct neighbour_range as (? & ? & Hend & ?). unfold ext4_ext_can_append. rewrite one_block_pblock by done.
  rewrite one_block_eq by done. cbn [first_block]. unfold EXT_MAX_BLOCKS in *. rewrite !uw_small by lia.
  destruct (_ + elen e =? a) eqn:E0; [|done]. destruct (lengths_fit _ _) eqn:El; [|done]. destruct (first_block e + elen e =? n) eqn:Ef; [|done].
  intros _. zb. assert (ext4_ext_is_unwritten e = false) as Hu by (apply Hmerge; [apply neighbour_in|done]).
  unfold lengths_fit in El. rewrite Hu in El. change (elen (Extent n 1 0 a)) with 1 in El. unfold EXT_INIT_MAX_LEN in El. zb. done.
Qed.

Lemma prepend_refused : ext4_ext_can_prepend e (one_block n a) = false.
Proof.
  destruct neighbour_range as (? & ? & Hend & ?). unfold ext4_ext_can_prepend. rewrite one_block_pblock, one_block_len by done.
  rewrite one_block_eq by done. cbn [first_block]. destruct (negb _); [done|]. destruct (negb (lengths_fit _ _)); [done|].
  unfold EXT_MAX_BLOCKS in *. rewrite (uw_small 32) by lia. destruct (n + 1 =? first_block e) eqn:Ef; [|done]. zb.
  destruct (neighbour_front E 0 (2 ^ 32 - 1) n e E1 E2 R N) as [-> _]; [lia|]. destruct N as (HE & _). destruct Hmerge as [Hm _]. by destruct (Hm _ _ HE).
Qed.

(** The place for a new entry. *)
Lemma neighbour_split : exists L1 L2, E = L1 ++ L2 /\ runs 0 n L1 /\ runs (n + 1) EXT_MAX_BLOCKS L2 /\
  Z.of_nat (length L1) = if first_block e <? n then i + 1 else i.
Proof.
  destruct (decide (first_block e <= n)) as [Hle|Hgt].
  - destruct (neighbour_behind E 0 EXT_MAX_BLOCKS n e E1 E2 R N Hfree Hle) as (Hend & R1 & R2); [lia|].
    pose proof neighbour_other. exists (E1 ++ [e]), E2. rewrite (proj2 (Z.ltb_lt _ _)) by lia. split_and!.
    + destruct N as (-> & _). by rewrite <- app_assoc.
    + by eapply runs_weaken.
    + done.
    + rewrite length_app. cbn. lia.
  - destruct (neighbour_front E 0 EXT_MAX_BLOCKS n e E1 E2 R N) as [HE1 R2]; [lia|]. exists [], E. rewrite (proj2 (Z.ltb_ge _ _)) by lia.
    split_and!; [done|cbn; lia|done|]. rewrite <- Hi, HE1. done.
Qed.
End merge.

Lemma root_at ex pb : path_at (root_path h ex pb) 0 = Some (Path pb EXT4_BLOCK_ZERO 0 1 h 0 ex).
Proof. done. Qed.

(** The new entry is written at [slot h k]. *)
Lemma runf_new_entry k L1 L2 a ex pb r s (Q : Z * list ext4_extent_path * bool -> ext4_inode_ref -> ext4_fs -> Prop) :
  mem s = m -> ir_inode r = ino -> 0 <= a < 2 ^ 32 -> E = L1 ++ L2 -> runs 0 n L1 -> runs (n + 1) EXT_MAX_BLOCKS L2 ->
  Z.of_nat (length L1) = k -> ex <> 0 ->
  (forall m' E' ex' pb', root_ok m' E' a -> Q (EOK, root_path h ex' pb', false) (dirty_inode r) (set_mem s m')) ->
  let curp := Path pb EXT4_BLOCK_ZERO 0 1 h 0 ex in
  let path := path_put (root_path h ex pb) 0 curp in
  let at_ex := slot h k in
  runf (let len := entries_from at_ex (EXT_LAST m h) + 1 in
        if len <? 0 then crash
        else
          (if 0 <? len then write (fun m => memcpy m (at_ex + sizeof_ee) at_ex (len * sizeof_ee)) else mret tt);;
          m ← see;
          if EXT_MAX m h <? at_ex then mret (EIO, path, false)
          else
            write (fun m => store_extent m at_ex (ext4_ext_store_pblock (one_block n a) (ext4_ext_pblock (one_block n a))));;
            add_entries h 1;;
            m ← see;
            if EXT_LAST m h <? at_ex then mret (EIO, path, false)
            else
              err ← ext4_ext_correct_indexes path;
              if negb (err =? EOK) then mret (err, path, false)
              else ext4_ext_dirty curp;; inserted path 0 curp at_ex) r s Q.
Proof.
  intros Em Er Ha HE R1 R2 Hk Hex HQ curp path at_ex. pose proof root_length as Hlen. rewrite HE, length_app in Hlen.
  rewrite EXT_LAST_slot. unfold at_ex. rewrite entries_from_slots. replace (nentries m h - 1 - k + 1) with (nentries m h - k) by lia. cbv zeta.
  rewrite (proj2 (Z.ltb_ge _ _)) by lia. fstep.
  set (m1 := if 0 <? nentries m h - k then memcpy m (slot h k + sizeof_ee) (slot h k) ((nentries m h - k) * sizeof_ee) else m).
  assert (forall Q' : unit -> ext4_inode_ref -> ext4_fs -> Prop, Q' tt r (set_mem s m1) ->
    runf (if 0 <? nentries m h - k then write (fun m0 => memcpy m0 (slot h k + sizeof_ee) (slot h k) ((nentries m h - k) * sizeof_ee)) else mret tt) r s Q') as Hw.
  { intros Q' HQ'. unfold m1 in HQ'. destruct (0 <? _); fstep; [by rewrite Em|]. rewrite <- Em in HQ'. by destruct s. }
  apply Hw. clear Hw. assert (forall x, x < slot h k -> ld8 m1 x = ld8 m x) as Hm1.
  { intros x Hx. unfold m1. rewrite (moved_bytes m h k (one_block n a)). rewrite (proj2 (Z.leb_gt _ _)) by (unfold slot in *; lia). done. }
  assert (forall f, 0 <= f_off f -> 0 <= f_len f -> f_off f + f_len f <= 12 -> fget f m1 h = fget f m h) as Hf1.
  { intros f ? ? ?. apply fget_on; [done|]. intros x Hx. apply Hm1. unfold slot. lia. }
  fsteps. cbn [mem set_mem]. rewrite EXT_MAX_slot. unfold nmax. rewrite Hf1 by (cbn; lia). fold (nmax m h).
  rewrite (proj2 (Z.ltb_ge _ _)) by (unfold slot; lia). assert (0 <= n < 2 ^ 32) as Hn' by (unfold EXT_MAX_BLOCKS in Hn; lia).
  rewrite one_block_stored by done. unfold add_entries. fsteps. cbn [mem set_mem].
  assert (fget eh_entries_count (store_extent m1 (slot h k) (one_block n a)) h = nentries m h) as Ec.
  { rewrite (fget_on eh_entries_count m1) by (done || (intros x Hx; apply store_extent_other; cbn in Hx; unfold slot; lia)). apply Hf1; cbn; lia. }
  rewrite Ec.
  change (fset eh_entries_count (store_extent m1 (slot h k) (one_block n a)) h (nentries m h + 1)) with (insert_entry m h k (one_block n a)).
  set (m2 := insert_entry m h k (one_block n a)).
  pose proof (root_insert k L1 L2 a Ha HE Hk R1 R2) as Hok. fold m2 in Hok.
  assert (0 <= k <= nentries m h) as Hk' by lia.
  rewrite EXT_LAST_slot. assert (nentries m2 h = nentries m h + 1) as -> by (by apply insert_count).
  rewrite (proj2 (Z.ltb_ge _ _)) by (unfold slot; lia).
  assert (h <> 0) as Hh by (unfold ext_inode_hdr; cbn; lia).
  fstep. unfold ext4_ext_correct_indexes. fsteps. cbn [mem set_mem]. rewrite Er.
  assert (ext_depth m2 ino = 0) as -> by (destruct (ro_tree _ _ _ Hok) as [Hnode _]; apply (n_depth _ _ _ Hnode)).
  eapply runf_need; [done|].
  cbn [extent header curp]. rewrite (proj2 (Z.eqb_neq ex 0)), (proj2 (Z.eqb_neq h 0)) by done. cbn [orb Z.eqb]. fstep.
  rewrite (Z.eqb_refl EOK). cbn [negb]. fstep. unfold ext4_ext_dirty. cbn [p_blk curp EXT4_BLOCK_ZERO lb_id Z.eqb negb]. fstep.
  unfold inserted. fsteps. exact (HQ m2 _ (slot h k) _ Hok).
Qed.

Lemma runf_insert_leaf ex pb a r s (Q : Z * list ext4_extent_path * bool -> ext4_inode_ref -> ext4_fs -> Prop) :
  mem s = m -> ir_inode r = ino -> 0 <= a < 2 ^ 32 -> at_leaf m h n ex ->
  (forall m' E' ex' pb', root_ok m' E' a -> Q (EOK, root_path h ex' pb', false) (dirty_inode r) (set_mem s m')) ->
  runf (ext4_ext_insert_leaf (root_path h ex pb) 0 (one_block n a) 0) r s Q.
Proof.
  intros Em Er Ha Hat HQ. unfold ext4_ext_insert_leaf. fstep. eapply runf_need; [apply root_at|]. fsteps. rewrite Em.
  cbn [extent header]. assert (first_block (one_block n a) = n) as Ef by (by rewrite one_block_eq by done).
  assert (fget eh_entries_count m h =? fget eh_max_entries_count m h = false) as Hne by (fold (nentries m h) (nmax m h); lia).
  assert (slot h 0 <> 0) as H0 by (unfold slot, ext_inode_hdr; cbn; lia). unfold at_leaf in Hat.
  destruct (nentries m h =? 0) eqn:En.
  - apply Z.eqb_eq in En. subst ex. cbn [Z.eqb negb andb]. rewrite Hne. rewrite EXT_FIRST_slot. pose proof root_length as Hlen. rewrite En in Hlen.
    apply (runf_new_entry 0 [] [] a (slot h 0) pb); try done; try (cbn; lia). by destruct E.
  - destruct Hat as (Hex & i & -> & Hf). rewrite (proj2 (Z.eqb_neq _ 0)) by done. cbn [negb andb].
    destruct (found_neighbour _ _ _ _ _ _ _ T Hf) as (E1 & E2 & N & Hi). set (e := load_extent m (slot h i)) in *.
    assert (first_block e <> n) as Hoth by apply (neighbour_other i E1 E2 N).
    rewrite Ef, (proj2 (Z.eqb_neq n (first_block e))) by congruence.
    change (negb (c_true (0 .& EXT4_EXT_NO_COMBINE))) with true. cbn [andb]. rewrite one_block_len by done.
    destruct (ext4_ext_can_append e (one_block n a)) eqn:Ea.
    + destruct (append_merges i a E1 E2 Ha N Ea) as (M1 & M2 & M3 & M4). fold e in M1, M2, M3, M4. fsteps. unfold ext4_ext_dirty. cbn [p_blk EXT4_BLOCK_ZERO lb_id Z.eqb negb].
      fsteps. unfold inserted. fsteps. rewrite M3, Em. apply (HQ _ (E1 ++ ext4_extent_set_block_count e (elen e + 1) false :: E2)).
      apply root_append; try done; [apply N|]. destruct (neighbour_behind E 0 EXT_MAX_BLOCKS n e E1 E2 R N Hfree) as (_ & _ & ?); try done; [|lia].
      pose proof (neighbour_range i E1 E2 N) as (_ & Hle & _). fold e in Hle. lia.
    + rewrite (prepend_refused i a E1 E2 Ha N Hi : ext4_ext_can_prepend e (one_block n a) = false), Hne. destruct (neighbour_split i E1 E2 N Hi) as (L1 & L2 & HE & R1 & R2 & Hl). fold e in Hl.
      assert ((if first_block e <? n then slot h i + sizeof_ee else slot h i) = slot h (if first_block e <? n then i + 1 else i)) as ->
        by (destruct (_ <? n); unfold slot, sizeof_ee; lia).
      by apply (runf_new_entry _ L1 L2 a (slot h i) pb).
Qed.

Lemma runf_insert_root ex pb a r s (Q : Z * list ext4_extent_path -> ext4_inode_ref -> ext4_fs -> Prop) :
  mem s = m -> ir_inode r = ino -> 0 <= a < 2 ^ 32 -> at_leaf m h n ex ->
  (forall m' E' ex' pb', root_ok m' E' a -> Q (EOK, root_path h ex' pb') (dirty_inode r) (set_mem s m')) ->
  runf (ext4_ext_insert_extent (root_path h ex pb) (one_block n a) 0) r s Q.
Proof.
  intros Em Er Ha Hat HQ. unfold ext4_ext_insert_extent. cbn [insert_passes]. fsteps. rewrite Em, Er, root_depth.
  apply runf_insert_leaf; try done. intros m' E' ex' pb' Hok. rewrite (proj2 (Z.eqb_neq EOK EIO)) by done. cbn [andb].
  rewrite (Z.eqb_refl EOK). cbn [negb]. fstep. by apply (HQ m' E').
Qed.
End leaf.

(** ** Allocation *)

(** The block near which the code allocates. *)
Definition goal_near (e : ext4_extent) (n : Z) : Z :=
  if first_block e <? n then u64 (ext4_ext_pblock e + (n - first_block e)) else u64 (ext4_ext_pblock e - (first_block e - n)).
Definition goal_inode (m : memory) (index : Z) : Z := u32 (index - 1) / fget sb_inodes_per_group m sb.

(** It lies in a group of the file system. *)
Definition goal_legal (m : memory) (index : Z) (E : list ext4_extent) (n : Z) (st : gset Z * gset Z) : Prop :=
  (E = [] -> legal m (Alloc (goal_inode m index)) st) /\
  forall e E1 E2, neighbour E n e E1 E2 -> legal m (Alloc (goal_near e n)) st.

Lemma at_leaf_on m m' h n ex : nentries m h <= nmax m h -> node_same m m' h -> at_leaf m h n ex -> at_leaf m' h n ex.
Proof.
  intros Hn Hs. unfold at_leaf. rewrite (same_nentries m m' h Hs). destruct (_ =? 0); [done|]. intros (Hex & i & -> & Hi & Hk & Hj).
  split; [done|]. exists i. split; [done|]. split; [done|]. rewrite (same_key m m' h Hs) by lia. split; [done|].
  intros j Hj'. rewrite (same_key m m' h Hs) by lia. by apply Hj.
Qed.

Lemma root_in_data ino x : ext_inode_hdr ino <= x < ext_inode_hdr ino + 60 -> ino_data ino x.
Proof. unfold ext_inode_hdr, ino_data, ino_count. change (f_off ino_blocks) with 40. lia. Qed.

Section create.
Context (ib n max : Z) (E : list ext4_extent) (F U : gset Z) (r : ext4_inode_ref) (s : ext4_fs).
#[local] Notation ino := (ir_inode r).
#[local] Notation h := (ext_inode_hdr ino).
Hypothesis (R : repr ib ino (mem s) F U) (T : inode_tree (mem s) ino E []).
Hypothesis (HE : runs 0 EXT_MAX_BLOCKS E) (Hroom : Z.of_nat (length E) < nmax (mem s) h).
Hypothesis (Hn : 0 <= n < EXT_MAX_BLOCKS) (Hnone : lookup_extent E n = None) (Hmerge : mergeable n E).
Hypothesis (Hgoal : goal_legal (mem s) (ir_index r) E n (F, U)) (Hzero : 0 ∉ F).

Lemma no_blocks_root : ext_depth (mem s) ino = 0 /\ tree (mem s) 0 h 0 (2 ^ 32) E [].
Proof.
  pose proof (it_tree _ _ _ _ T) as HT. pose proof (ext_depth_range (mem s) ino). destruct (Z.to_nat _) as [|d] eqn:Ed; [split; [lia|done]|].
  destruct HT as [_ (parts & H1 & H2 & _ & H3 & Hp)]. destruct parts as [|[E0 B0] parts]; [cbn in H2; lia|].
  destruct (Hp O E0 B0 eq_refl) as (B' & -> & _). cbn in H3. by destruct (concat parts.*2).
Qed.

(** How the call ends. *)
Definition created (out : Z * Z * Z) (r' : ext4_inode_ref) (s' : ext4_fs) : Prop :=
  let '(err, result, count) := out in
  preserves ib (F ∪ U) s s' /\
  if err =? EOK then exists E',
    result ∈ F /\ count = Z.min max 1 /\ repr ib ino (mem s') (F ∖ {[ result ]}) ({[ result ]} ∪ U) /\
    inode_tree (mem s') ino E' [] /\ runs 0 EXT_MAX_BLOCKS E' /\ (length E' <= S (length E))%nat /\ phys_adds E E' n result /\
    r' = dirty_inode r /\ nmax (mem s') h = nmax (mem s) h /\
    (forall x, ino_data ino x -> ~ (h <= x < h + 60) -> ld8 (mem s') x = ld8 (mem s) x) /\
    (forall x, elsewhere (mem s) ino x -> ld8 (mem s') x = ld8 (mem s) x) /\ flags_but_huge (mem s) (mem s') ino
  else (device_error err \/ err = ENOMEM \/ (err = ENOSPC /\ F = ∅)) /\ result = 0 /\ count = 0 /\ r' = r /\ same (mem s) (mem s').

Lemma runf_drop_root ex pb r0 s0 (Q : unit -> ext4_inode_ref -> ext4_fs -> Prop) : Q tt r0 s0 ->
  runf (match root_path h ex pb with [] => mret tt | _ => ext4_ext_drop_refs (root_path h ex pb) 0 false;; mret tt end) r0 s0 Q.
Proof.
  intros HQ. unfold root_path, ext4_ext_drop_refs. cbv iota. do 2 fstep. eapply runf_need; [done|]. change (Z.to_nat _) with 1%nat.
  cbn [drop_loop]. fstep. eapply runf_need; [done|]. cbn [p_blk EXT4_BLOCK_ZERO lb_id Z.eqb negb]. by fsteps.
Qed.

Lemma runf_goal ex pb s1 (Q : Z -> ext4_inode_ref -> ext4_fs -> Prop) : mem s1 = mem s -> at_leaf (mem s) h n ex ->
  (forall goal, legal (mem s) (Alloc goal) (F, U) -> Q goal r s1) -> runf (ext4_ext_find_goal (root_path h ex pb) n) r s1 Q.
Proof.
  intros Em Hat HQ. destruct no_blocks_root as [_ HT]. destruct Hgoal as [G1 G2]. unfold ext4_ext_find_goal, root_path. cbv iota. fstep.
  eapply runf_need; [done|]. fsteps. rewrite Em. cbn [extent p_blk EXT4_BLOCK_ZERO lb_id Z.eqb negb]. unfold at_leaf in Hat.
  destruct (nentries (mem s) h =? 0) eqn:En; zb.
  - subst ex. cbn [Z.eqb negb]. unfold ext4_fs_inode_to_goal_block. fsteps. rewrite Em. apply HQ. apply G1.
    pose proof (root_length (mem s) ino E HT). destruct E; [done|cbn in *; lia].
  - destruct Hat as (Hex & i & -> & Hf). rewrite (proj2 (Z.eqb_neq _ 0)) by done. cbn [negb]. fstep. apply HQ.
    destruct (found_neighbour _ _ _ _ _ _ _ HT Hf) as (E1 & E2 & N & _). exact (G2 _ _ _ N).
Qed.

(** From the block [a] on, which was free and is in use now. *)
Lemma runf_insert_taken ex pb a s1 g i (Q : Z * list ext4_extent_path -> ext4_inode_ref -> ext4_fs -> Prop) :
  0 <= g < groups (mem s) -> 0 <= i < per_group (mem s) -> used (mem s) g i = false -> a = addr (mem s) g i -> at_leaf (mem s) h n ex ->
  group_change (mem s) (mem s1) g ino 0 0 (-1) (bits_with (mem s) g i true) ->
  dirty s1 = {[ desc_block (mem s) g ]} ∪ ({[ bitmap (mem s) g ]} ∪ dirty s) ->
  held s1 = held s -> last_inode_bg_id s1 = last_inode_bg_id s -> room U ->
  (forall ex' pb' s', a <> 0 -> created (EOK, a, Z.min max 1) (dirty_inode r) s' -> Q (EOK, root_path h ex' pb') (dirty_inode r) s') ->
  runf (ext4_ext_insert_extent (root_path h ex pb) (one_block n a) 0) (dirty_inode r) s1 Q.
Proof.
  intros Hg Hi Hu -> Hat Hgc Hd Hh Hl Hr HQ. pose proof (r_ok _ _ _ _ _ R) as Hok.
  destruct (repr_take _ _ _ _ _ _ _ _ R Hg Hi Hu Hr Hgc) as [Ha R1]. set (a := addr (mem s) g i) in *.
  pose proof (addr_small (mem s) g i Hok Hg Hi) as Hsmall. fold a in Hsmall.
  assert (a <> 0) as Ha0 by (intros Ea; rewrite Ea in Ha; done). destruct no_blocks_root as [_ HT]. pose proof (tree_node _ _ _ _ _ _ _ HT) as Hnode.
  pose proof (it_root _ _ _ _ T) as Hmax. pose proof (root_length (mem s) ino E HT) as Hlen. pose proof (it_ino _ _ _ _ T) as Hino.
  assert (forall x, ino_data ino x -> ld8 (mem s1) x = ld8 (mem s) x) as Hdata.
  { intros x. by apply (alloc_data ib ino (mem s) (mem s1) F U g (-1) (bits_with (mem s) g i true)). }
  assert (node_same (mem s) (mem s1) h) as Hs by (intros x Hx; apply Hdata, root_in_data; unfold node_end in Hx; lia).
  assert (tree (mem s1) 0 h 0 (2 ^ 32) E []) as HT1 by (apply (tree_on (mem s)); [done|by intros b ?%elem_of_nil|done]).
  assert (nmax (mem s1) h = nmax (mem s) h) as Em1 by (by apply (same_nmax (mem s))).
  assert (nentries (mem s1) h = nentries (mem s) h) as En1 by (by apply (same_nentries (mem s))).
  assert (preserves ib (F ∪ U) s s1) as P1.
  { eapply (preserves_change ib ino (mem s) s s1 F U g 0 0); try done; [|intros; lia]. apply data_blocks_none, (r_inode _ _ _ _ _ R). }
  apply (runf_insert_root (mem s1) ino n E); try done; try lia.
  { apply (at_leaf_on (mem s)); [apply Hnode|done|done]. }
  intros m' E' ex' pb' [K1 K2 K3 K4 K5 K6]. apply HQ; [done|].
  assert (forall x, ~ ino_data ino x -> ld8 m' x = ld8 (mem s1) x) as Hon.
  { intros x Hx. apply K1. destruct (decide (h <= x < h + 60)); [destruct Hx; by apply root_in_data|lia]. }
  split; [eapply preserves_trans; [exact P1|]; by apply (preserves_data ib ino _ s1 m' _ _ R1)|].
  rewrite (Z.eqb_refl EOK). exists E'. split; [done|]. split; [done|]. split; [by apply (repr_data ib ino (mem s1))|]. split.
  - destruct T as [T1 T2 T3 T4 T5 T6]. constructor; try done.
    + cbn [mem set_mem]. assert (ext_depth m' ino = 0) as -> by (apply (n_depth _ _ _ (tree_node _ _ _ _ _ _ _ K2))). done.
    + cbn [mem set_mem]. lia.
  - split_and!; try done; cbn [mem set_mem]; [lia| | |]; [intros x Hx..|].
    + intros Hout. rewrite K1 by lia. by apply Hdata.
    + rewrite Hon by (destruct Hx as (_ & ? & _); unfold ino_data; lia).
      by apply (alloc_elsewhere (mem s) (mem s1) ino g (-1) (bits_with (mem s) g i true)).
    + intros f Hf. rewrite <- (gc_flags _ _ _ _ _ _ _ _ Hgc) by done. unfold ext4_inode_has_flag, ext4_inode_get_flags.
      rewrite (fget_on _ (mem s1) m'); [done|done|]. intros x Hx. cbn in Hx. apply Hon. unfold ino_data, ino_count. lia.
Qed.

Lemma next_root m ex pb : exists v, ext4_ext_next_allocated_block m (root_path h ex pb) = Some v.
Proof.
  cbn. change (Z.to_nat (0 + 1)) with 1%nat. destruct (ex =? 0) eqn:E0; [by eexists|]. cbn. rewrite E0.
  destruct (ex =? EXT_LAST m h); by eexists.
Qed.

(** The search does not find [n]. *)
Lemma at_leaf_miss ex : at_leaf (mem s) h n ex ->
  let cur := load_extent (mem s) ex in negb (ex =? 0) && IN_RANGE n (first_block cur) (elen cur) = false.
Proof.
  destruct no_blocks_root as [_ HT]. unfold at_leaf. destruct (nentries (mem s) h =? 0); [by intros ->|]. intros (_ & i & -> & Hf).
  destruct (found_neighbour _ _ _ _ _ _ _ HT Hf) as (E1 & E2 & N & Hi). cbv zeta.
  destruct (neighbour_range (mem s) ino n E HT HE Hnone i E1 E2 N) as (? & ? & ? & _). unfold EXT_MAX_BLOCKS in *. rewrite in_range_covers by lia.
  pose proof (leaf_found _ _ _ _ _ _ _ _ HT Hf) as El. rewrite Hnone in El. destruct (covers _ n); [done|]. apply andb_false_r.
Qed.

Lemma runf_create : runf (ext4_extent_get_blocks n max true) r s created.
Proof.
  destruct no_blocks_root as [Hd HT]. unfold ext4_extent_get_blocks. fstep.
  apply (runf_find_root (mem s) ino n E); [apply (it_ino _ _ _ _ T)|done|done|done| |].
  - intros s1 (Q1 & Q2 & Q3) Hh. change (ENOMEM =? EOK) with false. cbn [negb]. fstep. assert (unchanged s s1) as Hu by (split_and!; try done; intros x; by rewrite Q1).
    split; [by apply preserves_unchanged|]. change (ENOMEM =? EOK) with false. split_and!; try done; [by right; left|]. apply Hu.
  - intros ex pb s1 (Q1 & Q2 & Q3) Hh Hat. assert (unchanged s s1) as Hu by (split_and!; try done; intros x; by rewrite Q1).
    rewrite (Z.eqb_refl EOK). cbn [negb]. fsteps. rewrite Q1, Hd. eapply runf_need; [apply root_at|]. cbn [extent].
    rewrite (at_leaf_miss ex Hat). cbn [negb]. fstep. unfold create_blocks. fsteps. rewrite Q1.
    destruct (next_root (mem s) ex pb) as [v Hv]. eapply runf_need; [exact Hv|]. fstep. apply runf_goal; [done|done|].
    intros goal [Hr Hgl]. fstep. apply run_bind. eapply run_mono.
    { apply (run_alloc (mem s) r ib); [apply (r_ok _ _ _ _ _ R)|apply (r_inode _ _ _ _ _ R)|done|apply (r_padded _ _ _ _ _ R)|exact Hgl]. }
    intros [[err a] r2] s2 [(-> & -> & Hh2 & Hl2 & g & i & Hg & Hi & Hus & Ea & Hgc & Hd2)|(Hu2 & -> & -> & Herr)]; cbv beta iota; apply run_ret; cbn [fst snd].
    + destruct (a =? 0) eqn:E0; zb.
      { destruct (repr_take _ _ _ _ _ _ _ _ R Hg Hi Hus Hr Hgc) as [Ha _]. rewrite <- Ea, E0 in Ha. done. }
      fstep. apply (runf_insert_taken ex pb a s2 g i); try done; try congruence.
      intros ex' pb' s3 Ha Hc. rewrite (Z.eqb_refl EOK). cbn [negb]. fsteps. apply runf_drop_root. fsteps.
      assert (0 <= a < 2 ^ 32) as Hsm by (rewrite Ea; apply addr_small; [apply (r_ok _ _ _ _ _ R)|done|done]).
      fold (one_block n a). rewrite one_block_pblock by done. replace (if max <? 1 then max else 1) with (Z.min max 1) by (case_if; zb; lia). exact Hc.
    + cbn [Z.eqb]. fsteps. apply runf_drop_root. fsteps. pose proof (unchanged_trans _ _ _ Hu Hu2) as Hu3. split; [by apply preserves_unchanged|].
      assert (err <> EOK) as Hne by (destruct Herr as [[? _]|[-> _]]; done). rewrite (proj2 (Z.eqb_neq _ _)) by done.
      split; [|split_and!; try done; apply Hu3]. destruct Herr as [?|[-> Hf]]; [by left|]. right. right. split; [done|]. eapply all_full; [done|]. intros; by apply Hf.
Qed.
End create.

(** C10. Asking for a block that a file does not have yet, with creation, ends for
    every file whose extents are in its inode with room for one more, where the block is
    not right in front of the first extent and no unwritten extent ends at it
    ([mergeable]; the code corrupts the mapping there, see [prepend_moves] and
    [append_unwritten]), and where the goal of the allocation lies in the file system
    ([goal_legal]).  It ends with a block that was free and belongs to the file now,
    mapped at exactly the logical block asked for while every other logical block keeps
    its physical block; or with an error of the device, of memory, or because no block
    is free, and then nothing has changed. In both cases bitmaps and counters represent
    the blocks again, no reference is held in addition, changed metadata is marked
    dirty. *)
Theorem extent_create ib n max E F U r s :
  repr ib (ir_inode r) (mem s) F U -> inode_tree (mem s) (ir_inode r) E [] -> runs 0 EXT_MAX_BLOCKS E ->
  Z.of_nat (length E) < nmax (mem s) (ext_inode_hdr (ir_inode r)) -> 0 <= n < EXT_MAX_BLOCKS -> lookup_extent E n = None ->
  mergeable n E -> goal_legal (mem s) (ir_index r) E n (F, U) -> 0 ∉ F ->
  runf (ext4_extent_get_blocks n max true) r s (created ib n max E F U r s).
Proof. intros. by apply runf_create. Qed.
End root.

(** ** The file of the sample *)

#[local] Existing Instance sample_device.

Definition sample_file_extents : list ext4_extent := [Extent 0 2 0 11].

Lemma sample_root : leaf_extents sample_fs (ext_inode_hdr sample_inode) = sample_file_extents /\
  ext_depth sample_fs sample_inode = 0 /\ nmax sample_fs (ext_inode_hdr sample_inode) = 4.
Proof. vm_compute. done. Qed.

Lemma sample_file_tree : inode_tree sample_fs sample_inode sample_file_extents [].
Proof.
  destruct sample_root as (E1 & E2 & E3). constructor.
  - rewrite E2. split; [constructor; vm_compute; congruence|]. split; [by rewrite E1|]. split; [reflexivity|]. vm_compute. split_and!; congruence.
  - rewrite E3. lia.
  - apply NoDup_nil_2.
  - by intros b ?%elem_of_nil.
  - by vm_compute.
  - by vm_compute.
Qed.

Lemma sample_room : room sample_owned.
Proof. unfold room. destruct sample_counts as (_ & _ & _ & _ & _ & E). change sectors with 2 in *. lia. Qed.

Lemma sample_goal n : 0 <= n < 32 -> goal_legal sample_fs 1 sample_file_extents n (sample_free, sample_owned).
Proof.
  intros Hn. split; [done|]. intros e E1 E2 (HE & _). destruct sample_values as (V1 & V2 & _ & _ & _ & _ & V7). destruct sample_head as (_ & _ & V3 & _).
  assert (e = Extent 0 2 0 11) as -> by (destruct E1 as [|? E1]; [by injection HE|]; injection HE as _ HE; by destruct E1). split; [apply sample_room|]. exists 0.
  rewrite V1, V2, V7. assert (goal_near (Extent 0 2 0 11) n = 11 + n) as ->.
  { unfold goal_near. change (ext4_ext_pblock _) with 11. cbn [first_block]. case_if; rewrite uw_small; lia. }
  unfold ext4_balloc_get_bgid_of_block, ext4_fs_addr_to_idx_bg. fold (per_group sample_fs). rewrite V2, V3. cbn [c_true Z.eqb negb andb].
  assert (c_true (11 + n) = true) as -> by (unfold c_true; lia). rewrite Z.div_small, Z.mod_small, !uw_small by lia. lia.
Qed.

Lemma extent_create_witness :
  runf (ext4_extent_get_blocks 5 1 true) (InodeRef 5 sample_inode 1 false) (Fs sample_fs ∅ [] 0 0 ∅)
    (created 5 5 1 sample_file_extents sample_free sample_owned (InodeRef 5 sample_inode 1 false) (Fs sample_fs ∅ [] 0 0 ∅)).
Proof.
  apply extent_create; cbn [mem ir_inode ir_index].
  - apply sample_repr.
  - apply sample_file_tree.
  - vm_compute. split_and!; congruence.
  - destruct sample_root as (_ & _ & ->). by vm_compute.
  - by vm_compute.
  - reflexivity.
  - split; [intros e E2 [= <- _]; by vm_compute|]. intros e ->%list_elem_of_singleton. by vm_compute.
  - apply sample_goal. lia.
  - unfold sample_free. rewrite elem_of_block_range. lia.
Defined.

(** ** Where the merging is wrong *)

(** The physical block of [n] of the sample's file after some calls. *)
Definition blocks_after (calls : F unit) (ns : list Z) : option (list Z) :=
  match calls (InodeRef 5 sample_inode 1 false) (Fs sample_fs ∅ [] 0 0 ∅) with
  | Some ((_, r), s) =>
      mapM (fun n => match ext4_extent_get_blocks n 1 false r s with Some ((_, a, _, _), _) => Some a | None => None end) ns
  | None => None
  end.

Definition get (n : Z) : F unit := ext4_extent_get_blocks n 1 true;; mret tt.

(** Block 0 is removed and written again: the code puts it before block 1 in the
    extent and does not move the start of the extent, so that both blocks change
    their place and block 1 is a block that does not belong to the file. *)
Example prepend_moves :
  blocks_after (mret tt) [0; 1] = Some [11; 12] /\
  blocks_after (ext4_extent_remove_space 8 0 0;; get 0) [0; 1] = Some [12; 13].
Proof. vm_compute. done. Qed.

(** The extent marked as not yet written. *)
Definition unwritten (n : Z) : F unit := write (fun m => set_len m (EXT_FIRST (ext_inode_hdr sample_inode)) n true).
Definition entries_after (calls : F unit) : option (list ext4_extent) :=
  match calls (InodeRef 5 sample_inode 1 false) (Fs sample_fs ∅ [] 0 0 ∅) with
  | Some (_, s) => Some (leaf_extents (mem s) (ext_inode_hdr sample_inode))
  | None => None
  end.

(** A write into the middle of three unwritten blocks splits their extent twice;
    the second split is applied to the new extent, which the path points to after
    the first, and leaves extents that overlap and a physical block outside of
    every file system. *)
Example convert_corrupts :
  entries_after (unwritten 3;; get 1) = Some [Extent 0 (0x8000 + 2) 0 11; Extent 1 2 1 12; Extent 2 0xFFFF 0 13].
Proof. vm_compute. done. Qed.

(** A written block behind an unwritten extent becomes part of it, and reads as
    not there. *)
Example append_unwritten : blocks_after (ext4_extent_remove_space 8 1 1;; unwritten 1;; get 1) [1] = Some [0].
Proof. vm_compute. done. Qed.
