(* ===== verification/Ext4FsAppend.v ===== *)
(** lwext4, appending a block to a file: [ext4_fs_append_inode_dblk] on the
    allocator and the extents. *)
From S2P Require Import Prelude Memory Ext4Errno Ext4Layout Ext4Super Ext4BlockGroup Ext4Inode Ext4Store Ext4Fs.
From S2P Require Import Ext4Groups Ext4Balloc Ext4File Ext4Extent Ext4ExtentOps Ext4ExtentTree Ext4ExtentFind.
From S2P Require Import Ext4BallocSpec Ext4BallocRun Ext4BallocRefine Ext4Sample Ext4ExtentLookup Ext4ExtentLeaf.
From S2P Require Import Ext4BallocClient Ext4InodeData Ext4ExtentCreate Ext4FsInode.
#[local] Open Scope Z_scope.
#[local] Open Scope cint_scope.

#[local] Notation elen := ext4_ext_get_actual_len.

(** The last extent is written, if it ends at [n]. *)
Definition ends_written (E : list ext4_extent) (n : Z) : Prop :=
  forall e, e ∈ E -> first_block e + elen e = n -> ext4_ext_is_unwritten e = false.

Lemma appending_merges E n : runs 0 n E -> ends_written E n -> mergeable n E.
Proof.
  intros HE Hw. split; [|done]. intros e E2 ->. cbn in HE. destruct HE as (_ & ? & ?%runs_le). lia.
Qed.

(** The last block of an ordered list bounds it. *)
Lemma runs_tight E : forall lo hi hi', runs lo hi E -> (forall k, hi' <= k -> lookup_extent E k = None) -> lo <= hi' -> runs lo hi' E.
Proof.
  induction E as [|e E IH]; intros lo hi hi' HE Hk Hlo; [done|]. cbn in HE. destruct HE as (? & ? & HE). split; [done|]. split; [done|].
  assert (first_block e + elen e <= hi') as Hend.
  { destruct (decide (first_block e + elen e <= hi')); [done|]. specialize (Hk (first_block e + elen e - 1) ltac:(lia)). cbn in Hk.
    destruct (covers e _) eqn:Ec; [done|]. unfold covers in Ec. lia. }
  apply (IH _ hi); [done| |done]. intros k Hk'. specialize (Hk k Hk'). cbn in Hk. by destruct (covers e k).
Qed.

Section append.
Context `{Device}.
#[local] Notation sb := fs_sb.

(** A file with extents whose size does not overflow when it grows: that of a
    regular file has 64 bits, that of a directory 32. *)
Record extent_file (m : memory) (ino : Z) : Prop := {
  ef_size : (0 <? fget sb_rev_level m sb) && ext4_inode_is_type m sb ino EXT4_INODE_MODE_FILE = true \/
    ext4_inode_get_size m sb ino + dev_bsize < 2 ^ 32;
  ef_extents : uses_extents m ino = true;
}.

Section one.
Context (ib : Z) (E : list ext4_extent) (F U : gset Z) (r : ext4_inode_ref) (s : ext4_fs).
#[local] Notation ino := (ir_inode r).
#[local] Notation h := (ext_inode_hdr ino).
#[local] Notation size m := (ext4_inode_get_size m sb ino).
Let n : Z := (size (mem s) + dev_bsize - 1) / dev_bsize.
Hypothesis (R : repr ib ino (mem s) F U) (T : inode_tree (mem s) ino E []) (Hfile : extent_file (mem s) ino).
Hypothesis (HE : runs 0 n E) (Hroom : Z.of_nat (length E) < nmax (mem s) h) (Hn : n < EXT_MAX_BLOCKS).
Hypothesis (Hlast : ends_written E n) (Hgoal : goal_legal (mem s) (ir_index r) E n (F, U)) (Hzero : 0 ∉ F).

Lemma size_range : 0 <= size (mem s) < 2 ^ 48.
Proof.
  pose proof (bsize_cases _ (r_ok _ _ _ _ _ R)) as [_ Hb]. assert (0 <= size (mem s)) as H0.
  { unfold ext4_inode_get_size. pose proof (fget_range ino_size_lo (mem s) ino). case_if; [|lia]. apply Z.lor_nonneg. split; [lia|apply uw_nonneg; lia]. }
  split; [done|]. unfold EXT_MAX_BLOCKS in Hn. assert (0 < dev_bsize) as Hpos by lia.
  pose proof (Z.mul_succ_div_gt (size (mem s) + dev_bsize - 1) dev_bsize Hpos) as Hgt. fold n in Hgt.
  assert (0 <= n) by (apply Z.div_pos; lia). assert (dev_bsize * n <= 65536 * (2 ^ 32 - 1)) by (apply Z.mul_le_mono_nonneg; lia). lia.
Qed.

(** The inode after its size has been set. *)
Lemma set_size_data m v x : ~ ino_data ino x -> ld8 (ext4_inode_set_size m ino v) x = ld8 m x.
Proof. intros Hx. unfold ext4_inode_set_size. rewrite !ld8_fset by (unfold ino_data, ino_count in Hx; cbn; lia). done. Qed.

Lemma set_size_root m v x : h <= x < h + 60 -> ld8 (ext4_inode_set_size m ino v) x = ld8 m x.
Proof.
  intros Hx. unfold ext_inode_hdr in Hx. change (f_off ino_blocks) with 40 in Hx. unfold ext4_inode_set_size.
  rewrite !ld8_fset by (cbn; lia). done.
Qed.

Lemma root_kept m m' E' : inode_tree m ino E' [] -> (forall x, h <= x < h + 60 -> ld8 m' x = ld8 m x) -> inode_tree m' ino E' [].
Proof.
  intros [T1 T2 T3 T4 T5 T6] Hx. assert (node_same m m' h) as Hs by (intros x Hx'; apply Hx; unfold node_end in Hx'; lia).
  constructor; try done; [|by rewrite (same_nmax m m' h Hs)].
  assert (ext_depth m' ino = ext_depth m ino) as -> by (apply (same_field m); [done|cbn; lia..]).
  apply (tree_on m); [done|by intros b ?%elem_of_nil|done].
Qed.

Lemma file_apart : ino_apart 132 ino sb.
Proof.
  right. pose proof (r_ok _ _ _ _ _ R) as Hok. pose proof (bsize_cases _ Hok) as [_ Hb]. destruct (r_inode _ _ _ _ _ R) as (I0 & I1 & _).
  assert (0 < dev_bsize) as Hpos by lia. pose proof (buf_above ib Hpos I0). pose proof (ok_below _ Hok). lia.
Qed.

(** What the type of the file and the revision depend on. *)
Lemma type_kept m' : keeps (mem s) m' -> (forall x, ino_data ino x -> ~ (h <= x < h + 60) -> ld8 m' x = ld8 (mem s) x) ->
  (0 <? fget sb_rev_level m' sb) && ext4_inode_is_type m' sb ino EXT4_INODE_MODE_FILE =
  (0 <? fget sb_rev_level (mem s) sb) && ext4_inode_is_type (mem s) sb ino EXT4_INODE_MODE_FILE.
Proof.
  intros Hk Hd. rewrite (kept_field _ _ (proj1 Hk)) by fld. f_equal. unfold ext4_inode_is_type, ext4_inode_type, ext4_inode_get_mode. rewrite (kept_field _ _ (proj1 Hk)) by fld.
  assert (forall f, f = ino_mode \/ f = ino_mode_high -> fget f m' ino = fget f (mem s) ino) as Hf.
  { intros f Hf. assert (0 <= f_len f) by (destruct Hf as [-> | ->]; cbn; lia). apply fget_on; [done|]. intros x Hx. apply Hd.
    - unfold ino_data, ino_count. destruct Hf as [-> | ->]; cbn in Hx; lia.
    - unfold ext_inode_hdr. change (f_off ino_blocks) with 40. destruct Hf as [-> | ->]; cbn in Hx; lia. }
  rewrite !Hf by auto. done.
Qed.

(** The bytes of the size. *)
Definition ino_size (i x : Z) : Prop := i + 4 <= x < i + 8 \/ i + 108 <= x < i + 112.

(** How appending ends. *)
Definition appended (out : Z * Z * Z) (r' : ext4_inode_ref) (s' : ext4_fs) : Prop :=
  let '(rc, fblock, iblock) := out in
  preserves ib (F ∪ U) s s' /\ iblock = n /\
  if rc =? EOK then exists E',
    fblock ∈ F /\ repr ib ino (mem s') (F ∖ {[ fblock ]}) ({[ fblock ]} ∪ U) /\ inode_tree (mem s') ino E' [] /\
    runs 0 (n + 1) E' /\ (length E' <= S (length E))%nat /\ phys_adds E E' n fblock /\ r' = dirty_inode r /\
    size (mem s') = size (mem s) + dev_bsize /\ nmax (mem s') h = nmax (mem s) h /\
    (forall x, ino_data ino x -> ~ (h <= x < h + 60) -> ~ ino_size ino x -> ld8 (mem s') x = ld8 (mem s) x) /\
    (forall x, elsewhere (mem s) ino x -> ld8 (mem s') x = ld8 (mem s) x) /\ flags_but_huge (mem s) (mem s') ino
  else (device_error rc \/ rc = ENOMEM \/ (rc = ENOSPC /\ F = ∅)) /\ fblock = 0 /\ r' = r /\ same (mem s) (mem s').

Lemma runf_append : runf ext4_fs_append_inode_dblk r s appended.
Proof.
  pose proof (bsize_cases _ (r_ok _ _ _ _ _ R)) as [_ Hb]. pose proof size_range as Hs. assert (0 <= n) as Hn0 by (apply Z.div_pos; lia).
  unfold ext4_fs_append_inode_dblk. fsteps. rewrite (ef_extents _ _ Hfile), (ok_bsize _ (r_ok _ _ _ _ _ R)).
  rewrite (uw_small 64 (_ + dev_bsize - 1)) by lia. fold n. rewrite (uw_small 32 n) by (unfold EXT_MAX_BLOCKS in Hn; lia). fstep.
  assert (runs 0 EXT_MAX_BLOCKS E) as HE' by (eapply runs_weaken; [exact HE|lia|lia]). assert (0 <= n < EXT_MAX_BLOCKS) as Hn' by lia.
  assert (lookup_extent E n = None) as Hnone by (eapply lookup_extent_outside; [exact HE|lia]).
  eapply runf_mono; [exact (runf_create ib n 1 E F U r s R T HE' Hroom Hn' Hnone (appending_merges E n HE Hlast) Hgoal Hzero)|].
  intros [[rc a] count] r1 s1 [P Hc]. cbv beta iota. destruct (rc =? EOK) eqn:Erc; cbn [negb].
  2:{ fstep. destruct Hc as (C1 & -> & _ & -> & C2). split; [done|]. split; [done|]. by rewrite Erc. }
  destruct Hc as (E' & Ha & _ & R1 & T1 & HE1 & Hl1 & Hph & -> & Hm1 & Hd1).
  assert (c_true a = true) as -> by (unfold c_true; destruct (a =? 0) eqn:E0; [zb; subst; done|done]). cbn [negb]. fsteps.
  rewrite uw_small by lia. destruct Hd1 as (Hd1 & He1 & Hf1). set (m2 := ext4_inode_set_size _ _ _).
  assert (forall x, ~ ino_data ino x -> ld8 m2 x = ld8 (mem s1) x) as Hon by (intros x; apply set_size_data).
  split; [eapply preserves_trans; [exact P|]; by apply (preserves_data ib ino _ s1 m2 _ _ R1)|]. split; [done|].
  rewrite (Z.eqb_refl EOK). exists E'. split; [done|]. split; [by apply (repr_data ib ino (mem s1))|].
  split; [apply (root_kept (mem s1)); [done|]; intros x; apply set_size_root|]. split.
  { apply (runs_tight _ _ EXT_MAX_BLOCKS); [done| |lia]. intros k Hk. apply phys_none. rewrite Hph, (proj2 (Z.eqb_neq _ _)) by lia.
    apply phys_none. eapply lookup_extent_outside; [exact HE|lia]. }
  assert (0 <= size (mem s) + dev_bsize < 2 ^ 64) as Hsum by lia. assert (0 <= 0 < 2 ^ 16) as Hz by lia.
  destruct (inode_mode_size (mem s1) sb ino 0 (size (mem s) + dev_bsize) file_apart Hz Hsum) as [_ Hsz].
  cbn [mem set_mem]. split_and!; try done.
  - unfold m2. rewrite Hsz. rewrite (type_kept (mem s1) (p_keeps _ _ _ _ P) Hd1). destruct (ef_size _ _ Hfile) as [Hf|Hs32]; [by rewrite Hf|].
    destruct ((0 <? fget sb_rev_level (mem s) sb) && _); [done|]. apply uw_small. lia.
  - rewrite <- Hm1. apply (same_nmax (mem s1)). intros x Hx. apply set_size_root. pose proof (it_root _ _ _ _ T1). unfold node_end in Hx. lia.
  - intros x Hx Hr Hsx. unfold ino_size in Hsx. unfold m2, ext4_inode_set_size. rewrite !ld8_fset by (cbn; lia). by apply Hd1.
  - intros x Hx. rewrite Hon by (destruct Hx as (_ & ? & _); unfold ino_data; lia). by apply He1.
  - intros f Hf. rewrite <- Hf1 by done. unfold ext4_inode_has_flag, ext4_inode_get_flags.
    rewrite (fget_on _ (mem s1) m2); [done|done|]. intros x Hx. cbn in Hx. apply Hon. unfold ino_data, ino_count. lia.
Qed.

(** C9. Appending a block to a file whose extents are in its inode with room for one
    more, whose last extent is written if it ends where the new block goes
    ([ends_written]) and for which the goal of the allocation lies in the file system
    ([goal_legal]): the block that is handed out was free, is mapped right behind the
    blocks of the file and nowhere else, all the blocks before keep their place, and the
    size grows by one block; an error of the device or of memory, or a full file system,
    is reported and changes nothing. *)
Theorem append_block : runf ext4_fs_append_inode_dblk r s appended.
Proof. apply runf_append. Qed.
End one.
End append.

#[local] Existing Instance sample_device.

Lemma sample_extent_file : extent_file sample_fs sample_inode /\ ext4_inode_get_size sample_fs fs_sb sample_inode = 2048.
Proof. split; [constructor; [left|]|]; by vm_compute. Qed.

Lemma append_block_witness :
  runf ext4_fs_append_inode_dblk (InodeRef 5 sample_inode 1 false) (Fs sample_fs ∅ [] 0 0 ∅)
    (fun '(rc, fblock, iblock) r' s' => iblock = 2 /\ held s' = [] /\ (rc = EOK -> fblock ∈ sample_free /\
       ext4_inode_get_size (mem s') fs_sb sample_inode = 3072)).
Proof.
  destruct sample_extent_file as [Hf Hs]. eapply runf_mono.
  - apply (append_block 5 sample_file_extents sample_free sample_owned); cbn [mem ir_inode ir_index]; rewrite ?Hs.
    + apply sample_repr.
    + apply sample_file_tree.
    + exact Hf.
    + vm_compute. split_and!; congruence.
    + destruct sample_root as (_ & _ & ->). by vm_compute.
    + by vm_compute.
    + intros e ->%list_elem_of_singleton. by vm_compute.
    + by apply sample_goal.
    + unfold sample_free. rewrite elem_of_block_range. lia.
  - intros [[rc fblock] iblock] r' s' (P & Hi & Hc). cbn [mem ir_inode] in Hi, Hc. rewrite Hs in Hi, Hc. split; [by rewrite Hi|].
    split; [apply (p_held _ _ _ _ P)|]. intros ->. rewrite (Z.eqb_refl EOK) in Hc. destruct Hc as (E' & Ha & _ & _ & _ & _ & _ & _ & Hz & _).
    split; [exact Ha|exact Hz].
Defined.
