(* ===== verification/Ext4DirSpec.v ===== *)
(** lwext4, directories as maps: finding, removing and adding names in
    directories without an index, over all their blocks. *)
From S2P Require Import Prelude Memory Ext4Errno Ext4Crc Ext4Layout Ext4Super Ext4BlockGroup Ext4Dir.
From S2P Require Import Ext4Inode Ext4Store Ext4Fs Ext4Groups Ext4Balloc Ext4File Ext4Extent Ext4ExtentOps Ext4ExtentTree.
From S2P Require Import Ext4ExtentFind Ext4BallocSpec Ext4BallocRun Ext4BallocRefine Ext4ExtentLookup Ext4ExtentLeaf.
From S2P Require Import Ext4BallocClient Ext4InodeData Ext4ExtentCreate Ext4FsInode Ext4FsAppend Ext4DirIdx Ext4DirOps Ext4Sample.
#[local] Open Scope Z_scope.
#[local] Open Scope cint_scope.
#[local] Opaque ext4_crc32c.

Lemma Forall2_in {A B} (P Q : A -> B -> Prop) l k : (forall x y, x ∈ l -> P x y -> Q x y) -> Forall2 P l k -> Forall2 Q l k.
Proof.
  intros HPQ HP. induction HP as [|x y l k Hx HP IH]; constructor; [apply HPQ; [by left|done]|].
  apply IH. intros x' y' Hx'. apply HPQ. by right.
Qed.

(** ** Names and their records *)

Lemma named_map l name d : unique l -> d ∈ l -> named name d -> dir_map l !! name = Some (d_ino d, d_type d).
Proof. intros Hu Hd [Hl <-]. apply elem_of_list_to_map_1; [done|]. by apply entries_elem. Qed.

Lemma unnamed_map l name : (forall d, d ∈ l -> ~ named name d) -> dir_map l !! name = None.
Proof.
  intros Hn. apply not_elem_of_list_to_map_1. intros ([n v] & -> & Hin)%list_elem_of_fmap.
  apply list_elem_of_fmap in Hin as (d & Eq & Hd). apply list_elem_of_filter in Hd as [Hl Hd]. apply (Hn d Hd).
  split; [done|]. by injection Eq as -> _.
Qed.

Lemma map_insert l l' name v : unique l -> dir_map l !! name = None -> entries l' ≡ₚ (name, v) :: entries l ->
  unique l' /\ dir_map l' = <[name := v]> (dir_map l).
Proof.
  intros Hu Hn Hp. assert (unique l') as Hu'.
  { unfold unique. rewrite Hp. cbn. constructor; [by apply not_elem_of_list_to_map_2|done]. }
  split; [done|]. unfold dir_map. by rewrite (list_to_map_proper _ _ Hu' Hp).
Qed.

Lemma map_delete l l' name v : unique l -> entries l ≡ₚ (name, v) :: entries l' -> unique l' /\ dir_map l' = delete name (dir_map l).
Proof.
  intros Hu Hp. pose proof Hu as Hu2. unfold unique in Hu2. rewrite Hp in Hu2. cbn in Hu2. apply NoDup_cons in Hu2 as [Hni Hu2].
  split; [done|]. unfold dir_map. rewrite (list_to_map_proper _ _ Hu Hp). cbn. symmetry. apply delete_insert_id. by apply not_elem_of_list_to_map_1.
Qed.

Lemma entries_replace (L : list (list dent)) i l l' : L !! i = Some l -> exists rest,
  entries (concat L) ≡ₚ entries l ++ rest /\ entries (concat (<[i := l']> L)) ≡ₚ entries l' ++ rest.
Proof.
  intros Hi. exists (entries (concat (take i L)) ++ entries (concat (drop (S i) L))). split.
  - rewrite <- (take_drop_middle L i l Hi) at 1. rewrite concat_app. cbn [concat]. rewrite !entries_app. solve_Permutation.
  - rewrite (insert_take_drop L i l') by (by eapply lookup_lt_Some). rewrite concat_app. cbn [concat]. rewrite !entries_app. solve_Permutation.
Qed.

Section dirs.
Context `{Device}.
#[local] Notation sb := fs_sb.

(** ** Directory blocks depend on their bytes only *)

Section on.
Context (m m' : memory) (Hsb : forall x, sb <= x < sb + 1024 -> ~ sb_counter x -> ld8 m' x = ld8 m x).

Lemma kept_types : has_types m' sb = has_types m sb.
Proof. unfold has_types. by rewrite !(kept_field m m' Hsb) by fld. Qed.

Lemma holds_on data d : (forall x, data + d_off d <= x < data + d_off d + d_len d -> ld8 m' x = ld8 m x) -> 8 <= d_len d ->
  holds m sb data d -> holds m' sb data d.
Proof.
  intros Hx Hl (H1 & H2 & H3 & H4). assert (forall f, 0 <= f_off f -> 0 <= f_len f -> f_off f + f_len f <= 8 ->
    fget f m' (data + d_off d) = fget f m (data + d_off d)) as Hf.
  { intros f F0 F1 F2. apply fget_on; [done|]. intros x Hx'. apply Hx. lia. }
  unfold holds, ext4_dir_en_get_inode, ext4_dir_en_get_entry_len, ext4_dir_en_get_inode_type, ext4_dir_en_get_name_len in *. cbv zeta in *.
  rewrite !(kept_field m m' Hsb), !Hf by fld. split_and!; try done. intros Hd. destruct (H4 Hd) as (H5 & H6 & H7). split_and!; try done.
  rewrite <- H7 at 2. apply bytes_of_on. intros x Hx'. apply Hx. unfold sizeof_fake in *. lia.
Qed.

Lemma chain_on data l stop : forall off, (forall x, data + off <= x < data + stop -> ld8 m' x = ld8 m x) ->
  chain m sb data off l stop -> chain m' sb data off l stop.
Proof.
  induction l as [|d l IH]; intros off Hx; cbn [chain]; [done|]. intros (<- & H1 & H2 & H3 & H4).
  pose proof (chain_le _ _ _ _ _ _ H4). unfold sizeof_fake in *. split_and!; try done.
  - apply holds_on; [|done|done]. intros x Hx'. apply Hx. lia.
  - apply IH; [|done]. intros x Hx'. apply Hx. lia.
Qed.

Context (data : Z) (Hbs : ext4_sb_get_block_size m sb = dev_bsize) (Hbig : 1024 <= dev_bsize).
Context (Hx : forall x, data <= x < data + dev_bsize -> ld8 m' x = ld8 m x).

Lemma get_tail_on : ext4_dir_get_tail m' sb data = ext4_dir_get_tail m sb data.
Proof.
  unfold ext4_dir_get_tail. rewrite (kept_block_size m m' Hsb), Hbs. unfold EXT4_DIRENT_TAIL, sizeof_tail.
  rewrite !(fget_on _ m m') by (try done; intros x Hx'; apply Hx; cbn in Hx'; lia). done.
Qed.

Lemma dir_block_on l : dir_block m sb data l -> dir_block m' sb data l.
Proof.
  intros [Hc Ht]. unfold dir_block, tailed, has_csum in *. rewrite (kept_ro_com m m' Hsb), (kept_block_size m m' Hsb), kept_types, get_tail_on.
  split; [|done]. apply chain_on; [|done]. intros x Hx'. apply Hx. lia.
Qed.

Lemma csum_verify_on index ino : (forall x, ino + 100 <= x < ino + 104 -> ld8 m' x = ld8 m x) ->
  ext4_dir_csum_verify m' sb index ino data = ext4_dir_csum_verify m sb index ino data.
Proof.
  intros Hi. unfold ext4_dir_csum_verify. rewrite (kept_ro_com m m' Hsb), get_tail_on. destruct (ext4_sb_feature_ro_com m sb _); [|done].
  destruct (ext4_dir_get_tail m sb data) as [t|] eqn:Et; [|done]. destruct (get_tail_facts _ _ _ _ Et) as (-> & _). rewrite Hbs.
  rewrite (fget_on _ m m') by (try done; intros x Hx'; apply Hx; cbn in Hx'; lia). f_equal.
  unfold ext4_dir_csum, ext4_inode_get_generation. rewrite (fget_on _ m m') by (try done; intros x Hx'; apply Hi; cbn in Hx'; lia).
  rewrite (crc32c_on m m' EXT4_CRC32_INIT).
  - apply crc32c_on. intros x Hx'. apply Hx. lia.
  - intros x Hx'. apply Hsb; [cbn in Hx'; lia|]. unfold sb_counter. cbn in Hx'. lia.
Qed.
End on.

(** ** Directories *)

(** The file has the blocks [P], in this order and without holes. *)
Record file_blocks (m : memory) (ino : Z) (E : list ext4_extent) (B P : list Z) : Prop := {
  fb_tree : inode_tree m ino E B;
  fb_extents : uses_extents m ino = true;
  fb_size : ext4_inode_get_size m sb ino = Z.of_nat (length P) * dev_bsize;
  fb_map i p : P !! i = Some p -> phys E (Z.of_nat i) = Some (p, false);
  fb_count : Z.of_nat (length P) < 2 ^ 32;
}.

(** It is a directory without an index whose blocks have the records [L], each name
    once. *)
Record directory (m : memory) (index ino : Z) (E : list ext4_extent) (B P : list Z) (L : list (list dent)) : Prop := {
  di_file : file_blocks m ino E B P;
  di_plain : indexed m ino = false;
  di_bsize : ext4_sb_get_block_size m sb = dev_bsize;
  di_small : 1024 <= dev_bsize < 2 ^ 16;
  di_below : sb + 1024 <= dev_bufs;
  di_blocks : Forall2 (fun p l => dir_block m sb (buf p) l) P L;
  di_csums p : p ∈ P -> ext4_dir_csum_verify m sb index ino (buf p) = true;
  di_apart p : p ∈ P -> 0 < p < dev_blocks /\ p ∉ B /\ Ext4Dir.apart ino 128 (buf p) dev_bsize;
  di_nodup : NoDup P;
  di_unique : unique (concat L);
}.

Section kept.
Context (m m' : memory) (ino : Z) (Hsb : forall x, sb <= x < sb + 1024 -> ~ sb_counter x -> ld8 m' x = ld8 m x).

(** The flags of the inode tell how its blocks are found. *)
Lemma flags_kept : (forall x, ino + 32 <= x < ino + 36 -> ld8 m' x = ld8 m x) ->
  uses_extents m' ino = uses_extents m ino /\ indexed m' ino = indexed m ino.
Proof.
  intros Hf. unfold uses_extents, indexed, ext4_sb_feature_incom, ext4_sb_feature_com, ext4_inode_has_flag, ext4_inode_get_flags.
  rewrite !(kept_field m m' Hsb), !(fget_on ino_flags m m') by (fld || (intros x Hx; apply Hf; cbn in Hx; lia)). done.
Qed.

Lemma size_kept : (forall x, ino <= x < ino + 128 -> ld8 m' x = ld8 m x) -> ext4_inode_get_size m' sb ino = ext4_inode_get_size m sb ino.
Proof.
  intros Hi. unfold ext4_inode_get_size, ext4_inode_is_type, ext4_inode_type, ext4_inode_get_mode.
  assert (forall f, 0 <= f_off f -> 0 <= f_len f -> f_off f + f_len f <= 128 -> fget f m' ino = fget f m ino) as Hf.
  { intros f ???. apply fget_on; [done|]. intros x Hx. apply Hi. lia. }
  by rewrite !(kept_field m m' Hsb), !Hf by fld.
Qed.

Lemma directory_on index E B P L : (forall x, ino <= x < ino + 128 -> ld8 m' x = ld8 m x) ->
  (forall p x, p ∈ P -> in_block p x -> ld8 m' x = ld8 m x) -> inode_tree m' ino E B ->
  directory m index ino E B P L -> directory m' index ino E B P L.
Proof.
  intros Hi Hp HT [[F1 F2 F3 F4 F5] D2 D3 D4 D5 D6 D7 D8 D9 D10].
  destruct flags_kept as [K1 K2]; [intros x Hx; apply Hi; lia|].
  constructor; try done.
  - constructor; try done; [by rewrite K1|by rewrite size_kept].
  - by rewrite K2.
  - by rewrite (kept_block_size m m' Hsb).
  - eapply Forall2_in; [|exact D6]. intros p l Hin Hb. apply (dir_block_on m m'); try done; [lia|]. intros x Hx. by apply (Hp p).
  - intros p Hin. rewrite (csum_verify_on m m' Hsb); [by apply D7|done|lia| |intros x Hx; apply Hi; lia].
    intros x Hx. by apply (Hp p).
Qed.
End kept.

(** ** Changing one block *)

Lemma inode_tree_on m m' ino E B : inode_tree m ino E B -> (forall x, ino <= x < ino + 128 -> ld8 m' x = ld8 m x) ->
  (forall b x, b ∈ B -> in_block b x -> ld8 m' x = ld8 m x) -> inode_tree m' ino E B.
Proof.
  intros T Hi Hb. pose proof (tree_nodes _ _ _ _ _ _ _ (it_tree _ _ _ _ T)) as Hn. destruct T as [T1 T2 T3 T4 T5 T6].
  assert (node_same m m' (ext_inode_hdr ino)) as Hroot.
  { intros x Hx. apply Hi. unfold node_end, ext_inode_hdr in *. change (f_off ino_blocks) with 40 in *. lia. }
  constructor; try done; [|by rewrite (same_nmax m)].
  assert (ext_depth m' ino = ext_depth m ino) as -> by (apply (same_field m); [done|cbn; lia..]).
  apply (tree_on m); try done. intros b Hin x Hx. apply (Hb b); [done|]. destruct (Hn b Hin) as [_ He]. unfold in_block. lia.
Qed.

Section replace.
Context (m m' : memory) (index ino : Z) (E : list ext4_extent) (B P : list Z) (L : list (list dent)) (i : nat) (p : Z) (l l' : list dent).
Hypothesis (D : directory m index ino E B P L) (Hp : P !! i = Some p) (Hl : L !! i = Some l) (Hx : forall x, ~ in_block p x -> m' x = m x).

Lemma replace_apart : 0 < p < dev_blocks /\ p ∉ B /\ Ext4Dir.apart ino 128 (buf p) dev_bsize.
Proof. apply (di_apart _ _ _ _ _ _ _ D). by eapply list_elem_of_lookup_2. Qed.

Lemma replace_above : 0 < dev_bsize /\ dev_bufs <= buf p.
Proof.
  destruct (it_bufs _ _ _ _ (fb_tree _ _ _ _ _ (di_file _ _ _ _ _ _ _ D))) as [Hpos _]. split; [done|]. apply buf_above; [done|].
  destruct replace_apart. lia.
Qed.

Lemma replace_sb x : sb <= x < sb + 1024 -> m' x = m x.
Proof. intros Hs. apply Hx. destruct replace_above. pose proof (di_below _ _ _ _ _ _ _ D). unfold in_block. lia. Qed.

Lemma replace_ino x : ino <= x < ino + 128 -> ld8 m' x = ld8 m x.
Proof. intros Hi. unfold ld8. f_equal. apply Hx. destruct replace_apart as (_ & _ & Ha). unfold in_block, Ext4Dir.apart in *. lia. Qed.

Lemma replace_block b x : b <> p -> in_block b x -> ld8 m' x = ld8 m x.
Proof.
  intros Hb Hin. unfold ld8. f_equal. apply Hx. destruct replace_above as [Hpos _]. pose proof (buf_apart b p Hpos Hb). unfold in_block in *. lia.
Qed.

Lemma directory_replace : dir_block m' sb (buf p) l' -> ext4_dir_csum_verify m' sb index ino (buf p) = true ->
  unique (concat (<[i := l']> L)) -> directory m' index ino E B P (<[i := l']> L).
Proof.
  intros Hb Hc Hu. destruct D as [[F1 F2 F3 F4 F5] D2 D3 D4 D5 D6 D7 D8 D9 D10].
  assert (forall x, sb <= x < sb + 1024 -> ~ sb_counter x -> ld8 m' x = ld8 m x) as Hsb by (intros x Hs _; unfold ld8; by rewrite replace_sb).
  destruct (flags_kept m m' ino Hsb) as [K1 K2]; [intros x Hi; apply replace_ino; lia|].
  constructor; try done.
  - constructor; try done; [|by rewrite K1|rewrite (size_kept m m' ino Hsb); [done|apply replace_ino]].
    apply (inode_tree_on m); [done|apply replace_ino|]. intros b x Hin. apply replace_block. intros ->. by destruct replace_apart as (_ & ? & _).
  - by rewrite K2.
  - by rewrite (kept_block_size m m' Hsb).
  - apply Forall2_same_length_lookup_2; [rewrite length_insert; by eapply Forall2_length|]. intros j q k Hq Hk.
    destruct (decide (i = j)) as [<-|Hne].
    + rewrite list_lookup_insert_eq in Hk by (by eapply lookup_lt_Some). injection Hk as <-. by assert (q = p) as -> by congruence.
    + rewrite list_lookup_insert_ne in Hk by done. apply (dir_block_on m m'); try done; [lia| |].
      * intros x Hin. apply (replace_block q); [|done]. intros Eq. apply Hne. eapply (NoDup_lookup P); [exact D9|exact Hp|by rewrite Hq, Eq].
      * exact (Forall2_lookup_lr _ _ _ _ _ _ D6 Hq Hk).
  - intros q Hin. destruct (decide (q = p)) as [->|Hne]; [done|].
    rewrite (csum_verify_on m m' Hsb); [by apply D7|done|lia| |intros x Hi; apply replace_ino; lia]. intros x Hin'. by apply (replace_block q).
Qed.
End replace.

(** ** Looking blocks up *)

Lemma tail_in_block m b x : block_ok m b -> in_tail m b x -> in_block b x.
Proof. intros [_ Hb] Hx. pose proof (nmax_range m (buf b)). unfold in_tail, in_block, node_end in *. lia. Qed.

Section lookup.
Context (m m' : memory) (index ino : Z) (E : list ext4_extent) (B P : list Z) (L : list (list dent)).
Hypothesis (D : directory m index ino E B P L) (Ht : tails B m m').

Lemma tails_outside x : (forall b, b ∈ B -> ~ in_block b x) -> m' x = m x.
Proof.
  intros Hx. apply Ht. intros b Hb Hin. apply (Hx b Hb), (tail_in_block m); [|done].
  by apply (tree_nodes _ _ _ _ _ _ _ (it_tree _ _ _ _ (fb_tree _ _ _ _ _ (di_file _ _ _ _ _ _ _ D)))).
Qed.

Lemma node_above b : b ∈ B -> dev_bufs <= buf b.
Proof.
  intros Hb. destruct (it_bufs _ _ _ _ (fb_tree _ _ _ _ _ (di_file _ _ _ _ _ _ _ D))) as [Hp _]. apply buf_above; [done|].
  destruct (tree_nodes _ _ _ _ _ _ _ (it_tree _ _ _ _ (fb_tree _ _ _ _ _ (di_file _ _ _ _ _ _ _ D))) b Hb) as [? _]. lia.
Qed.

Lemma directory_tails : directory m' index ino E B P L.
Proof.
  pose proof (di_file _ _ _ _ _ _ _ D) as [T _ _ _ _]. destruct (it_bufs _ _ _ _ T) as [Hpos _]. apply (directory_on m); try done.
  - intros x Hx _. unfold ld8. f_equal. apply tails_outside. intros b Hb. pose proof (node_above b Hb). pose proof (di_below _ _ _ _ _ _ _ D). unfold in_block. lia.
  - intros x Hx. unfold ld8. f_equal. apply tails_outside. intros b Hb. pose proof (it_apart _ _ _ _ T b Hb). unfold in_block. lia.
  - intros p x Hp Hx. unfold ld8. f_equal. apply tails_outside. intros b Hb. destruct (di_apart _ _ _ _ _ _ _ D p Hp) as (_ & Hn & _).
    assert (p <> b) as Hne by (intros ->; done). pose proof (buf_apart p b Hpos Hne). unfold in_block in *. lia.
  - by eapply inode_tree_tails.
Qed.

Lemma name_tails name nl : (forall b, b ∈ B -> Ext4Dir.apart name (Z.of_nat nl) (buf b) dev_bsize) -> bytes_of m' name nl = bytes_of m name nl.
Proof.
  intros Hn. apply bytes_of_on. intros x Hx. unfold ld8. f_equal. apply tails_outside. intros b Hb. specialize (Hn b Hb). unfold Ext4Dir.apart, in_block in *. lia.
Qed.
End lookup.

Lemma phys_answer E n p : phys E n = Some (p, false) -> (answer E n 1).1 = p.
Proof. unfold phys, answer. destruct (lookup_extent E n) as [e|]; [|done]. cbn. intros [= <- ->]. done. Qed.

Definition failed (rc : Z) : Prop := device_error rc \/ rc = ENOMEM.

Lemma failed_neq rc : failed rc -> rc <> EOK.
Proof. intros [[? _]| ->]; done. Qed.

(** Taking and releasing a block of the directory. *)
Lemma runf_take r p s (Q : Z * ext4_block -> ext4_inode_ref -> ext4_fs -> Prop) :
  (forall rc b s', failed rc -> quiet s s' -> held s' = held s -> Q (rc, b) r s') ->
  (forall s', quiet s s' -> held s' = p :: held s -> Q (EOK, Blk p (Some p)) r s') ->
  runf (take_block true p) r s Q.
Proof. intros Hf Ho. apply runf_up, run_get_any; [|done]. intros rc b s' Hr _ Hq Hh. apply Hf; [by left|done|done]. Qed.

Lemma runf_put r p s l (Q : Z * ext4_block -> ext4_inode_ref -> ext4_fs -> Prop) : dev_open = true -> p <> 0 -> held s = p :: l ->
  Q (EOK, Blk 0 (Some p)) r (set_held s l) -> runf (put_block (Blk p (Some p))) r s Q.
Proof. intros Hop Hp Hh HQ. apply runf_up. apply (run_block_set p [] l); try done. apply not_elem_of_nil. Qed.

Section one.
Context (r : ext4_inode_ref) (E : list ext4_extent) (B P : list Z) (L : list (list dent)).
#[local] Notation ino := (ir_inode r).
#[local] Notation dir m := (directory m (ir_index r) ino E B P L).
Hypothesis (Hdev : device_ok B).

Lemma runf_dblk i p s (Q : Z * Z -> ext4_inode_ref -> ext4_fs -> Prop) : dir (mem s) -> P !! i = Some p ->
  (forall rc s', failed rc -> looked_up E B r s r s' -> Q (rc, 0) r s') ->
  (forall s', looked_up E B r s r s' -> Q (EOK, p) r s') ->
  runf (ext4_fs_get_inode_dblk_idx (Z.of_nat i) false) r s Q.
Proof.
  intros D Hi Hf Ho. pose proof (di_file _ _ _ _ _ _ _ D) as [T F1 F2 F3 F4]. pose proof (di_small _ _ _ _ _ _ _ D).
  pose proof (lookup_lt_Some _ _ _ Hi). destruct (di_apart _ _ _ _ _ _ _ D p) as (Hp & _); [by eapply list_elem_of_lookup_2|].
  unfold ext4_fs_get_inode_dblk_idx, ext4_fs_get_inode_dblk_idx_internal. fsteps. rewrite F1, F2, (proj2 (Z.eqb_neq _ 0)) by nia. fstep.
  eapply runf_mono; [apply (runf_lookup E B); try done; lia|]. intros [[rc a] count] r1 s1 [HL Hc]. destruct HL as (-> & HL).
  destruct (rc =? EOK) eqn:Erc; cbn [negb].
  - zb. subst rc. assert (a = p) as ->. { pose proof (phys_answer _ _ _ (F3 _ _ Hi)) as Ha. rewrite <- Hc in Ha. done. }
    unfold c_true. rewrite (proj2 (Z.eqb_neq p 0)) by lia. cbn [negb orb]. fstep. by apply Ho.
  - fstep. zb. apply Hf; [|done]. apply Hc.
Qed.

(** ** Finding *)

Lemma looked_quiet s s1 s2 : looked_up E B r s r s1 -> quiet s1 s2 ->
  dirty s2 = dirty s /\ last_inode_bg_id s2 = last_inode_bg_id s /\ tails B (mem s) (mem s2) /\ held s1 = held s.
Proof. intros (_ & L1 & L2 & L3 & L4 & _) (Q1 & Q2 & Q3). rewrite Q1. split_and!; congruence || done. Qed.

Lemma dir_tails s m' : dir (mem s) -> tails B (mem s) m' -> dir m'.
Proof. intros D Ht. by apply (directory_tails (mem s)). Qed.

Lemma dir_tails_trans m m1 m2 : dir m -> tails B m m1 -> tails B m1 m2 -> tails B m m2.
Proof.
  intros D. pose proof (fb_tree _ _ _ _ _ (di_file _ _ _ _ _ _ _ D)) as T. destruct (it_bufs _ _ _ _ T).
  apply tails_trans; [done|]. by apply (tree_nodes _ _ _ _ _ _ _ (it_tree _ _ _ _ T)).
Qed.

Section name.
Context (name : Z) (nl : nat) (nm : list Z).
Hypothesis (Hname : forall b, b ∈ B -> Ext4Dir.apart name (Z.of_nat nl) (buf b) dev_bsize).
#[local] Notation called m := (bytes_of m name nl = nm).

Lemma called_tails m m' : dir m -> tails B m m' -> called m -> called m'.
Proof. intros D Ht <-. by apply (name_tails m m' _ _ _ _ _ _ D Ht). Qed.

Lemma runf_find_in p l s (Q : Z * Z -> ext4_inode_ref -> ext4_fs -> Prop) : called (mem s) -> dir_block (mem s) sb (buf p) l ->
  Q (match list_find (named nm) l with Some (_, d) => (EOK, buf p + d_off d) | None => (ENOENT, 0) end) r s ->
  runf (find_in_block (Blk p (Some p)) (Z.of_nat nl) name) r s Q.
Proof.
  intros Hc Hb HQ. unfold find_in_block. fsteps. cbn [block_data b_buf]. eapply runf_need; [|exact HQ].
  pose proof (find_loop_ok (mem s) sb (buf p) name nl l 0 (dir_fuel (mem s)) (proj1 Hb)) as Hl. rewrite Z.add_0_r, Hc in Hl.
  unfold ext4_dir_find_in_block. apply Hl. pose proof (chain_length _ _ _ _ _ _ (proj1 Hb)). unfold dir_fuel. lia.
Qed.

(** How the search from block [k] on ends. *)
Definition searched_from (k : nat) (s : ext4_fs) (out : Z * ext4_dir_search_result) (r' : ext4_inode_ref) (s' : ext4_fs) : Prop :=
  let '(rc, res) := out in
  r' = r /\ dirty s' = dirty s /\ last_inode_bg_id s' = last_inode_bg_id s /\ tails B (mem s) (mem s') /\
  ((exists i p l d, P !! i = Some p /\ L !! i = Some l /\ d ∈ l /\ named nm d /\ rc = EOK /\
      res = Found (Blk p (Some p)) (Some (buf p + d_off d)) /\ held s' = p :: held s) \/
   ((rc = ENOENT /\ (forall d, d ∈ concat (drop k L) -> ~ named nm d) \/ failed rc) /\ res = nothing /\ held s' = held s)).

Lemma searched_weaken k s s1 out r' s' : dir (mem s) -> dirty s1 = dirty s -> last_inode_bg_id s1 = last_inode_bg_id s ->
  tails B (mem s) (mem s1) -> held s1 = held s -> (forall l d, L !! k = Some l -> d ∈ l -> ~ named nm d) ->
  searched_from (S k) s1 out r' s' -> searched_from k s out r' s'.
Proof.
  intros D E1 E2 E3 E4 Hk. destruct out as [rc res]. intros (-> & S1 & S2 & S3 & S4). split; [done|]. split; [congruence|]. split; [congruence|].
  split; [by eapply dir_tails_trans|]. rewrite E4 in S4. destruct S4 as [?|(Hrc & S4)]; [by left|]. right. split; [|done].
  destruct Hrc as [[-> Hno]|?]; [left|by right]. split; [done|]. intros d Hd. destruct (L !! k) as [l|] eqn:El.
  - rewrite (drop_S _ l) in Hd by done. cbn in Hd. apply elem_of_app in Hd as [Hd|Hd]; [by apply (Hk l)|by apply Hno].
  - apply lookup_ge_None in El. rewrite drop_ge in Hd by done. by apply elem_of_nil in Hd.
Qed.

Lemma runf_search n : forall k s, (n + k = length P)%nat -> dir (mem s) -> called (mem s) ->
  runf (search_blocks n (Z.of_nat k) name (Z.of_nat nl)) r s (searched_from k s).
Proof.
  induction n as [|n IH]; intros k s Hk D Hc; cbn [search_blocks].
  { fstep. split_and!; try done. right. split_and!; try done. left. split; [done|]. intros d Hd.
    rewrite drop_ge in Hd by (rewrite <- (Forall2_length _ _ _ (di_blocks _ _ _ _ _ _ _ D)); lia). by apply elem_of_nil in Hd. }
  destruct (lookup_lt_is_Some_2 P k ltac:(lia)) as [p Hp].
  destruct (Forall2_lookup_l _ _ _ _ _ (di_blocks _ _ _ _ _ _ _ D) Hp) as (l & Hl & _).
  destruct (di_apart _ _ _ _ _ _ _ D p) as (Hpr & _); [by eapply list_elem_of_lookup_2|].
  fstep. apply (runf_dblk k p); [done|done| |].
  { intros rc s1 Hf (_ & L1 & L2 & L3 & L4 & _). rewrite (proj2 (Z.eqb_neq _ _)) by (by apply failed_neq). cbn [negb]. fstep.
    split_and!; try done. right. split_and!; try done. by right. }
  intros s1 HL1. rewrite (Z.eqb_refl EOK). cbn [negb]. fstep. apply runf_take.
  { intros rc b s2 Hf Hq Hh. rewrite (proj2 (Z.eqb_neq _ _)) by (by apply failed_neq). cbn [negb]. fstep.
    destruct (looked_quiet _ _ _ HL1 Hq) as (Q1 & Q2 & Q3 & Q4). split_and!; try done. right. split_and!; try done; [by right|congruence]. }
  intros s2 Hq Hh. destruct (looked_quiet _ _ _ HL1 Hq) as (Q1 & Q2 & Q3 & Q4). rewrite (Z.eqb_refl EOK). cbn [negb].
  pose proof (dir_tails s _ D Q3) as D2. pose proof (called_tails _ _ D Q3 Hc) as Hc2.
  pose proof (Forall2_lookup_lr _ _ _ _ _ _ (di_blocks _ _ _ _ _ _ _ D2) Hp Hl) as Hb. cbv beta in Hb.
  fstep. apply (runf_find_in p l); [done|done|]. destruct (list_find (named nm) l) as [[j d]|] eqn:Ef.
  - rewrite (Z.eqb_refl EOK). fstep. apply list_find_Some in Ef as (Hj & Hn & _). split_and!; try done. left.
    exists k, p, l, d. split_and!; try done; [by eapply list_elem_of_lookup_2|congruence].
  - rewrite (proj2 (Z.eqb_neq ENOENT EOK)) by done. fstep. apply (runf_put r p s2 (held s)); [apply Hdev|lia|congruence|].
    rewrite (Z.eqb_refl EOK). cbn [negb]. replace (Z.of_nat k + 1) with (Z.of_nat (S k)) by lia.
    eapply runf_mono; [apply IH; [lia|exact D2|exact Hc2]|]. intros out r' s'. apply searched_weaken; try done.
    intros l' d Hl' Hd. assert (l' = l) as -> by congruence. apply list_find_None in Ef. rewrite Forall_forall in Ef. by apply Ef.
Qed.

Lemma runf_find_entry fuel s : dir (mem s) -> called (mem s) ->
  runf (ext4_dir_find_entry fuel name (Z.of_nat nl)) r s (searched_from 0 s).
Proof.
  intros D Hc. pose proof (di_file _ _ _ _ _ _ _ D) as [_ _ F2 _ F4]. pose proof (di_small _ _ _ _ _ _ _ D).
  unfold ext4_dir_find_entry. fsteps. rewrite (di_plain _ _ _ _ _ _ _ D). fsteps. unfold total_blocks.
  rewrite F2, (di_bsize _ _ _ _ _ _ _ D), Z.div_mul by lia. rewrite uw_small, Nat2Z.id by lia. apply (runf_search (length P) 0); [lia|done|done].
Qed.

(** How a search of the whole directory ends. *)
Definition found (s : ext4_fs) (out : Z * ext4_dir_search_result) (r' : ext4_inode_ref) (s' : ext4_fs) : Prop :=
  let '(rc, res) := out in
  r' = r /\ dirty s' = dirty s /\ tails B (mem s) (mem s') /\ dir (mem s') /\
  (match dir_map (concat L) !! nm with
   | Some (i, t) => rc = EOK /\ exists p de, p ∈ P /\ in_block p de /\ res = Found (Blk p (Some p)) (Some de) /\ held s' = p :: held s /\
       ext4_dir_en_get_inode (mem s') de = i /\ ext4_dir_en_get_inode_type (mem s') sb de = t
   | None => rc = ENOENT /\ res = nothing /\ held s' = held s
   end \/ (failed rc /\ res = nothing /\ held s' = held s)).

Lemma named_concat i l d : L !! i = Some l -> d ∈ l -> named nm d -> unique (concat L) -> dir_map (concat L) !! nm = Some (d_ino d, d_type d).
Proof.
  intros Hl Hd Hn Hu. apply named_map; [done| |done]. apply list_elem_of_In, in_concat. exists l.
  split; apply list_elem_of_In; [by eapply list_elem_of_lookup_2|done].
Qed.

(** C25. Finding a name in a directory without an index, of any size and any depth of
    its extents, on an open device; with nodes of the extent tree outside the inode a
    failing access fails at its read ([device_ok]).  If the directory maps the name to
    an inode number and a type, the entry with them is handed out in a block of the
    directory, which is held; if not, the name is reported missing and no block is held.
    Only an error of the device or of memory can come between. Nothing is changed but
    the tails of the nodes of the extent tree, where their checksums are. *)
Theorem directory_find fuel s : dir (mem s) -> called (mem s) ->
  runf (ext4_dir_find_entry fuel name (Z.of_nat nl)) r s (found s).
Proof.
  intros D Hc. eapply runf_mono; [by apply runf_find_entry|]. intros [rc res] r' s' (-> & S1 & S2 & S3 & S4).
  pose proof (dir_tails s _ D S3) as D'. split; [done|]. split; [done|]. split; [done|]. split; [done|].
  destruct S4 as [(i & p & l & d & Hp & Hl & Hd & Hn & -> & -> & Hh)|([[-> Hno]|Hf] & -> & Hh)]; [left|left|by right].
  - assert (p ∈ P) as Hin by (by eapply list_elem_of_lookup_2). rewrite (named_concat i l d) by (try done; apply (di_unique _ _ _ _ _ _ _ D)).
    split; [done|]. exists p, (buf p + d_off d).
    pose proof (Forall2_lookup_lr _ _ _ _ _ _ (di_blocks _ _ _ _ _ _ _ D') Hp Hl) as [Hb _]. destruct (chain_in _ _ _ _ _ _ d Hb Hd) as (? & ? & ? & _ & H1 & _ & H3 & _).
    split_and!; try done. unfold in_block. rewrite (di_bsize _ _ _ _ _ _ _ D') in *. unfold sizeof_fake in *. lia.
  - by rewrite (unnamed_map (concat L) nm Hno).
Qed.

(** ** Removing *)

Lemma runf_mark p s (Q : unit -> ext4_inode_ref -> ext4_fs -> Prop) : p ∈ held s ->
  Q tt r (set_unsaved (set_dirty s ({[ p ]} ∪ dirty s)) ({[ p ]} ∪ unsaved s)) -> runf (mark (Blk p (Some p))) r s Q.
Proof. intros Hp HQ. unfold mark. cbn [b_buf]. apply runf_up. eexists tt, _. split; [|exact HQ]. unfold ext4_trans_set_block_dirty. by rewrite bool_decide_true. Qed.

(** The memory outside the nodes of the tree and the blocks of the directory. *)
Definition outside (x : Z) : Prop := forall b, b ∈ B \/ b ∈ P -> ~ in_block b x.

Definition removed (s : ext4_fs) (rc : Z) (r' : ext4_inode_ref) (s' : ext4_fs) : Prop :=
  r' = r /\ held s' = held s /\ (forall x, outside x -> mem s' x = mem s x) /\
  exists L', directory (mem s') (ir_index r) ino E B P L' /\
    ((failed rc /\ L' = L /\ dirty s' = dirty s) \/
     match dir_map (concat L) !! nm with
     | Some _ => rc = EOK /\ dir_map (concat L') = delete nm (dir_map (concat L)) /\ exists p, p ∈ P /\ dirty s' = {[ p ]} ∪ dirty s
     | None => rc = ENOENT /\ L' = L /\ dirty s' = dirty s
     end).

(** What is done to the block of the entry. *)
Lemma remove_effect m i p l d : dir m -> P !! i = Some p -> L !! i = Some l -> d ∈ l -> named nm d -> exists m' l',
  remove_found (dir_fuel m) m sb (ir_index r) ino (buf p) (buf p + d_off d) = Some m' /\ (forall x, ~ in_block p x -> m' x = m x) /\
  directory m' (ir_index r) ino E B P (<[i := l']> L) /\ dir_map (concat (<[i := l']> L)) = delete nm (dir_map (concat L)).
Proof.
  intros D Hp Hl Hd [Hlive Hnm]. pose proof (Forall2_lookup_lr _ _ _ _ _ _ (di_blocks _ _ _ _ _ _ _ D) Hp Hl) as Hb. cbv beta in Hb.
  pose proof (replace_apart _ _ _ _ _ _ _ _ _ D Hp) as (_ & _ & Hap). destruct (replace_above _ _ _ _ _ _ _ _ _ D Hp) as [_ Hab].
  pose proof (di_below _ _ _ _ _ _ _ D). pose proof (di_small _ _ _ _ _ _ _ D). pose proof (di_bsize _ _ _ _ _ _ _ D) as Ebs.
  pose proof (list_elem_of_split _ _ Hd) as (l1 & l2 & El).
  destruct (remove_found_ok m sb (buf p) (ir_index r) ino l1 l2 d) with (fuel := dir_fuel m) as (m' & E1 & Hx & Hb' & Hv); try done.
  { by rewrite Ebs. } { left. lia. } { by rewrite Ebs. } { by rewrite <- El. }
  { pose proof (chain_length _ _ _ _ _ _ (proj1 Hb)) as Hlen. rewrite El, length_app in Hlen. unfold dir_fuel. lia. }
  rewrite Ebs in Hx. set (l' := without l1 d ++ l2) in *. exists m', l'. split; [done|].
  assert (forall x, ~ in_block p x -> m' x = m x) as Hx' by (intros x Hn; apply Hx; unfold in_block in Hn; lia). split; [done|].
  destruct (entries_replace L i l l' Hl) as (rest & P1 & P2). assert (entries l ≡ₚ (nm, (d_ino d, d_type d)) :: entries l') as P3.
  { rewrite El, (cons_middle d), !entries_app. unfold l'. rewrite entries_app, entries_without by done. unfold entries at 2.
    rewrite filter_cons_True by done. cbn [fmap list_fmap]. unfold said. rewrite Hnm. solve_Permutation. }
  destruct (map_delete (concat L) (concat (<[i := l']> L)) nm (d_ino d, d_type d) (di_unique _ _ _ _ _ _ _ D)) as [Hu' Hm].
  { rewrite P1, P2, P3. done. }
  split; [by apply (directory_replace m _ _ _ _ _ _ _ i p l)|done].
Qed.

(** C21. Removing a name from a directory without an index, of any size and any depth of
    its extents, on an open device; with nodes of the extent tree outside the inode a
    failing access fails at its read ([device_ok]).  Afterwards the directory maps every
    other name as before and this one to nothing, and the block it was in is marked for
    writing; a name that is not there is reported and no name is changed. All blocks
    keep the form of directory blocks with right checksums. Only an error of the device
    or of memory, which changes no name, can come between. *)
Theorem directory_remove fuel s : dir (mem s) -> called (mem s) -> ext4_inode_is_type (mem s) sb ino EXT4_INODE_MODE_DIRECTORY = true ->
  runf (ext4_dir_remove_entry fuel name (Z.of_nat nl)) r s (removed s).
Proof.
  intros D Hc Hty. unfold ext4_dir_remove_entry. fsteps. rewrite Hty. cbn [negb]. fstep.
  eapply runf_mono; [by apply runf_find_entry|]. intros [rc res] r1 s1 (-> & S1 & S2 & S3 & S4). cbv beta iota.
  pose proof (dir_tails s _ D S3) as D1. pose proof (di_unique _ _ _ _ _ _ _ D) as Hu.
  assert (forall x, outside x -> mem s1 x = mem s x) as Hout.
  { intros x Hx. apply (tails_outside (mem s) (mem s1) _ _ _ _ _ _ D S3). intros b Hb. apply Hx. by left. }
  destruct S4 as [(i & p & l & d & Hp & Hl & Hd & Hn & -> & -> & Hh)|(Hrc & -> & Hh)].
  2:{ assert (rc <> EOK) as Hne by (destruct Hrc as [[-> _]|?]; [done|by apply failed_neq]). rewrite (proj2 (Z.eqb_neq _ _)) by done.
      cbn [negb]. fstep. split_and!; try done. exists L. split; [done|]. destruct Hrc as [[-> Hno]|Hf]; [right|by left].
      by rewrite (unnamed_map (concat L) nm Hno). }
  rewrite (Z.eqb_refl EOK). cbn [negb sr_dentry sr_block block_data b_buf]. fstep. eapply runf_need; [done|]. fsteps.
  destruct (replace_apart _ _ _ _ _ _ _ _ _ D1 Hp) as (Hpr & _). assert (p ∈ P) as Hin by (by eapply list_elem_of_lookup_2).
  destruct (remove_effect (mem s1) i p l d D1 Hp Hl Hd Hn) as (m' & l' & E1 & Hx & D' & Hm).
  eapply runf_need; [exact E1|]. fsteps. apply runf_mark; [cbn; rewrite Hh; by left|].
  unfold ext4_dir_destroy_result. cbn [sr_block lb_id]. rewrite (proj2 (Z.eqb_neq p 0)) by lia. cbn [negb]. fstep.
  apply (runf_put r p _ (held s)); [apply Hdev|lia|done|]. fstep. split; [done|]. split; [done|]. split.
  { intros x Hx'. cbn. rewrite Hx; [by apply Hout|]. apply Hx'. by right. }
  exists (<[i := l']> L). split; [done|]. right. rewrite (named_concat i l d) by done. split; [done|]. split; [done|].
  exists p. split; [done|]. cbn. by rewrite S1.
Qed.

(** ** Adding to a block that has room *)

Section child.
Context (cindex child : Z).
Hypothesis (Hci : 0 < cindex < 2 ^ 32) (Hnl : Z.of_nat nl < 256).
Hypothesis (Hplace : forall b, b ∈ P -> Ext4Dir.apart name (Z.of_nat nl) (buf b) dev_bsize).
Hypothesis (Hchild : forall b, b ∈ B \/ b ∈ P -> Ext4Dir.apart child 128 (buf b) dev_bsize).
#[local] Notation type m := (new_type m sb child).

Lemma type_tails m m' : dir m -> tails B m m' -> type m' = type m.
Proof.
  intros D Ht. apply new_type_ext; intros x Hx; apply (tails_outside m m' _ _ _ _ _ _ D Ht); intros b Hb.
  - pose proof (node_above m _ _ _ _ _ _ D b Hb). pose proof (di_below _ _ _ _ _ _ _ D). unfold in_block. lia.
  - specialize (Hchild b (or_introl Hb)). unfold Ext4Dir.apart, in_block in *. lia.
Qed.

(** The records of the directory once the entry is in block [p]. *)
Definition added (m : memory) (i : nat) (p : Z) (m' : memory) : Prop := exists l',
  P !! i = Some p /\ (forall x, ~ in_block p x -> m' x = m x) /\
  directory m' (ir_index r) ino E B P (<[i := l']> L) /\
  dir_map (concat (<[i := l']> L)) = <[nm := (cindex, type m)]> (dir_map (concat L)).

Lemma runf_try_insert i p s (Q : Z -> ext4_inode_ref -> ext4_fs -> Prop) : dir (mem s) -> called (mem s) -> P !! i = Some p -> p ∈ held s ->
  dir_map (concat L) !! nm = None -> Q ENOSPC r (set_mem s (mem s)) ->
  (forall m', added (mem s) i p m' -> Q EOK r (set_unsaved (set_dirty (set_mem s m') ({[ p ]} ∪ dirty s)) ({[ p ]} ∪ unsaved s))) ->
  runf (try_insert_entry (Blk p (Some p)) cindex child name (Z.of_nat nl)) r s Q.
Proof.
  intros D Hc Hp Hh Hnew Hf Ho. destruct (Forall2_lookup_l _ _ _ _ _ (di_blocks _ _ _ _ _ _ _ D) Hp) as (l & Hl & Hb). cbv beta in Hb.
  pose proof (replace_apart _ _ _ _ _ _ _ _ _ D Hp) as (Hpr & _ & Hap). destruct (replace_above _ _ _ _ _ _ _ _ _ D Hp) as [_ Hab].
  pose proof (di_below _ _ _ _ _ _ _ D). pose proof (di_small _ _ _ _ _ _ _ D). pose proof (di_bsize _ _ _ _ _ _ _ D) as Ebs.
  assert (p ∈ P) as Hin by (by eapply list_elem_of_lookup_2). unfold try_insert_entry. fsteps. cbn [block_data b_buf].
  destruct (try_insert_cases (mem s) sb (buf p) (ir_index r) ino cindex child name nl l) with (fuel := dir_fuel (mem s))
    as [[_ Er]|(l1 & d & l2 & m' & -> & _ & Er & Hx & Hb' & Hv)]; rewrite ?Ebs; try done; [left; lia|by apply Hchild; right|by apply Hplace| | |].
  { pose proof (chain_length _ _ _ _ _ _ (proj1 Hb)). unfold dir_fuel. lia. }
  { eapply runf_need; [exact Er|]. cbv beta iota. fsteps. rewrite (proj2 (Z.eqb_neq ENOSPC EOK)) by done. by fsteps. }
  eapply runf_need; [exact Er|]. cbv beta iota. fsteps. rewrite (Z.eqb_refl EOK). apply runf_mark; [done|]. fsteps. apply Ho.
  rewrite Hc in Hb'. rewrite Ebs in Hx. set (l' := l1 ++ _ ++ l2) in Hb'. exists l'.
  destruct (entries_replace L i _ l' Hl) as (rest & P1 & P2).
  destruct (map_insert (concat L) (concat (<[i := l']> L)) nm (cindex, type (mem s))) as [Hu' Hm]; [apply (di_unique _ _ _ _ _ _ _ D)|done| |].
  { rewrite P1, P2. unfold l'. rewrite (cons_middle d), !entries_app, entries_put by lia. solve_Permutation. }
  assert (forall x, ~ in_block p x -> m' x = mem s x) as Hx' by (intros x Hn; apply Hx; unfold in_block in Hn; lia).
  split_and!; try done. by apply (directory_replace (mem s) _ _ _ _ _ _ _ i p _ _ D Hp Hl).
Qed.

Definition added_from (s : ext4_fs) (out : option Z) (r' : ext4_inode_ref) (s' : ext4_fs) : Prop :=
  r' = r /\ held s' = held s /\ last_inode_bg_id s' = last_inode_bg_id s /\
  ((exists m1 i p, out = Some EOK /\ tails B (mem s) m1 /\ added m1 i p (mem s') /\ dirty s' = {[ p ]} ∪ dirty s) \/
   (match out with Some rc => failed rc | None => True end /\ tails B (mem s) (mem s') /\ dirty s' = dirty s)).

Lemma added_weaken s s1 out r' s' : dir (mem s) -> dirty s1 = dirty s -> last_inode_bg_id s1 = last_inode_bg_id s ->
  tails B (mem s) (mem s1) -> held s1 = held s -> added_from s1 out r' s' -> added_from s out r' s'.
Proof.
  intros D E1 E2 E3 E4 (-> & A1 & A2 & A3). split; [done|]. split; [congruence|]. split; [congruence|]. rewrite E1 in A3.
  destruct A3 as [(m1 & i & p & -> & T1 & A)|(Ho & T1 & A)]; [left|right].
  - exists m1, i, p. split; [done|]. split; [by eapply dir_tails_trans|done].
  - split; [done|]. split; [by eapply dir_tails_trans|done].
Qed.

Lemma runf_add_loop n : forall k s, (n + k = length P)%nat -> dir (mem s) -> called (mem s) -> dir_map (concat L) !! nm = None ->
  runf (add_loop n (Z.of_nat k) cindex child name (Z.of_nat nl)) r s (added_from s).
Proof.
  induction n as [|n IH]; intros k s Hk D Hc Hnew; cbn [add_loop].
  { fstep. split_and!; try done. by right. }
  destruct (lookup_lt_is_Some_2 P k ltac:(lia)) as [p Hp]. destruct (di_apart _ _ _ _ _ _ _ D p) as (Hpr & _); [by eapply list_elem_of_lookup_2|].
  fstep. apply (runf_dblk k p); [done|done| |].
  { intros rc s1 Hf (_ & L1 & L2 & L3 & L4 & _). rewrite (proj2 (Z.eqb_neq _ _)) by (by apply failed_neq). cbn [negb]. fstep.
    split_and!; try done. by right. }
  intros s1 HL1. rewrite (Z.eqb_refl EOK). cbn [negb]. fstep. apply runf_take.
  { intros rc b s2 Hf Hq Hh. rewrite (proj2 (Z.eqb_neq _ _)) by (by apply failed_neq). cbn [negb]. fstep.
    destruct (looked_quiet _ _ _ HL1 Hq) as (Q1 & Q2 & Q3 & Q4). split_and!; try done; [congruence|]. by right. }
  intros s2 Hq Hh. destruct (looked_quiet _ _ _ HL1 Hq) as (Q1 & Q2 & Q3 & Q4). rewrite (Z.eqb_refl EOK). cbn [negb].
  pose proof (dir_tails s _ D Q3) as D2. pose proof (called_tails _ _ D Q3 Hc) as Hc2. fstep.
  apply (runf_try_insert k p); [done|done|done|rewrite Hh; by left|done| |].
  - fstep. apply (runf_put r p _ (held s)); [apply Hdev|lia|cbn; congruence|]. rewrite (Z.eqb_refl EOK), (proj2 (Z.eqb_neq ENOSPC EOK)) by done. cbn [negb].
    replace (Z.of_nat k + 1) with (Z.of_nat (S k)) by lia. eapply runf_mono; [apply IH; [lia|exact D2|exact Hc2|done]|].
    intros out r' s'. by apply added_weaken.
  - intros m' Ha. fstep. apply (runf_put r p _ (held s)); [apply Hdev|lia|cbn; congruence|]. rewrite (Z.eqb_refl EOK). cbn [negb]. fstep.
    split_and!; try done. left. exists (mem s2), k, p. split_and!; try done. cbn. by rewrite Q1.
Qed.
End child.
End name.
End one.
End dirs.

(** ** A directory *)

#[local] Existing Instance sample_device.

(** [l] at [a]. *)
Definition laid (a : Z) (l : list Z) (m : memory) : memory :=
  fun x => if (a <=? x) && (x <? a + Z.of_nat (length l)) then default 0 (l !! Z.to_nat (x - a)) else m x.

(** The first inode of the sample as a directory: block 11 has the names [.] and
    [..], block 12 the name [hello]; at block 40 are the bytes [hello] and [world]. *)
Definition sample_records : list (list dent) :=
  [[Dent 0 12 2 [46] 2; Dent 12 1012 2 [46; 46] 2]; [Dent 0 1024 12 [104; 101; 108; 108; 111] 1]].

Definition sample_dir : memory :=
  laid (buf 40) [104; 101; 108; 108; 111; 119; 111; 114; 108; 100]
    (laid (buf 12) ([12; 0; 0; 0; 0; 4; 5; 1; 104; 101; 108; 108; 111] ++ repeat 0 1011)
      (laid (buf 11) ([2; 0; 0; 0; 12; 0; 1; 2; 46; 0; 0; 0; 2; 0; 0; 0; 0xF4; 3; 2; 2; 46; 46] ++ repeat 0 1002)
        (fset ino_mode sample_fs sample_inode 0x41ED))).

Lemma sample_dir_values : uses_extents sample_dir sample_inode = true /\ ext4_inode_get_size sample_dir fs_sb sample_inode = 2048 /\
  indexed sample_dir sample_inode = false /\ ext4_sb_get_block_size sample_dir fs_sb = 1024 /\ has_csum sample_dir fs_sb = false /\
  ext4_inode_is_type sample_dir fs_sb sample_inode EXT4_INODE_MODE_DIRECTORY = true.
Proof. vm_compute. tauto. Qed.

Lemma sample_dir_tree : inode_tree sample_dir sample_inode [Extent 0 2 0 11] [].
Proof.
  assert (leaf_extents sample_dir (ext_inode_hdr sample_inode) = [Extent 0 2 0 11] /\ ext_depth sample_dir sample_inode = 0 /\
    nmax sample_dir (ext_inode_hdr sample_inode) = 4) as (E1 & E2 & E3) by (vm_compute; done). constructor.
  - rewrite E2. split; [constructor; vm_compute; congruence|]. split; [by rewrite E1|]. split; [reflexivity|]. vm_compute. split_and!; congruence.
  - rewrite E3. lia.
  - apply NoDup_nil_2.
  - by intros b ?%elem_of_nil.
  - by vm_compute.
  - by vm_compute.
Qed.

Lemma sample_directory : directory sample_dir 1 sample_inode [Extent 0 2 0 11] [] [11; 12] sample_records.
Proof.
  destruct sample_dir_values as (V1 & V2 & V3 & V4 & V5 & V6). constructor.
  - constructor; [apply sample_dir_tree|exact V1|exact V2|intros [|[|i]] p Hi; [injection Hi as <-; reflexivity..|done]|by vm_compute].
  - exact V3.
  - exact V4.
  - vm_compute. split; congruence.
  - vm_compute. congruence.
  - assert (forall p l, chain sample_dir fs_sb (buf p) 0 l 1024 -> dir_block sample_dir fs_sb (buf p) l) as Hb.
    { intros p l Hl. split; [by rewrite V4|]. intros Hcs. by rewrite V5 in Hcs. }
    constructor; [|constructor; [|by constructor]]; apply Hb; vm_compute; split_and!; (congruence || done).
  - intros p _. unfold ext4_dir_csum_verify. unfold has_csum in V5. by rewrite V5.
  - intros p. rewrite !elem_of_cons, elem_of_nil. intros [->|[->|[]]]; (split; [by vm_compute|]; split; [tauto|left; vm_compute; congruence]).
  - apply (bool_decide_unpack _). by vm_compute.
  - apply (bool_decide_unpack _). by vm_compute.
Qed.

#[local] Notation sample_ref := (InodeRef 5 sample_inode 1 false).
#[local] Notation sample_state := (Fs sample_dir ∅ [] 0 0 ∅).

Lemma sample_hello : bytes_of sample_dir (buf 40) 5 = [104; 101; 108; 108; 111] /\
  dir_map (concat sample_records) !! [104; 101; 108; 108; 111] = Some (12, 1).
Proof. vm_compute. done. Qed.

Lemma sample_works B : device_ok B.
Proof. split; [done|]. by right. Qed.

Lemma directory_find_witness :
  runf (ext4_dir_find_entry 0 (buf 40) 5) sample_ref sample_state
    (fun '(rc, res) r' s' => failed rc \/ exists p de, (p = 11 \/ p = 12) /\ held s' = [p] /\ res = Found (Blk p (Some p)) (Some de) /\
       ext4_dir_en_get_inode (mem s') de = 12).
Proof.
  destruct sample_hello as [Hn Hm]. eapply runf_mono.
  - apply (directory_find sample_ref [Extent 0 2 0 11] [] [11; 12] sample_records) with (nl := 5%nat) (nm := [104; 101; 108; 108; 111]).
    + apply sample_works.
    + by intros b ?%elem_of_nil.
    + apply sample_directory.
    + exact Hn.
  - intros [rc res] r' s' (_ & _ & _ & _ & Hc). rewrite Hm in Hc. destruct Hc as [(-> & p & de & Hp & _ & Hr & Hh & Hi & _)|[Hf _]]; [right|by left].
    exists p, de. split_and!; try done. set_solver.
Defined.

Lemma directory_remove_witness :
  runf (ext4_dir_remove_entry 0 (buf 40) 5) sample_ref sample_state
    (fun rc r' s' => held s' = [] /\ exists L', directory (mem s') 1 sample_inode [Extent 0 2 0 11] [] [11; 12] L' /\
       (rc = EOK -> dir_map (concat L') !! [104; 101; 108; 108; 111] = None)).
Proof.
  destruct sample_hello as [Hn Hm]. eapply runf_mono.
  - apply (directory_remove sample_ref [Extent 0 2 0 11] [] [11; 12] sample_records) with (nl := 5%nat) (nm := [104; 101; 108; 108; 111]).
    + apply sample_works.
    + by intros b ?%elem_of_nil.
    + apply sample_directory.
    + exact Hn.
    + apply sample_dir_values.
  - intros rc r' s' (_ & Hh & _ & L' & D & Hc). split; [exact Hh|]. exists L'. split; [exact D|]. intros ->. rewrite Hm in Hc.
    destruct Hc as [[Hf _]|(_ & -> & _)]; [by apply failed_neq in Hf|apply lookup_delete_eq].
Defined.
