(* ===== verification/Ext4DirIter.v ===== *)
(** lwext4, reading a directory: the iterator of [ext4_dir.c] visits the records
    that are in use, in order, each once. *)
From S2P Require Import Prelude Memory Ext4Errno Ext4Crc Ext4Layout Ext4Super Ext4BlockGroup Ext4Dir.
From S2P Require Import Ext4Inode Ext4Store Ext4Fs Ext4Groups Ext4Balloc Ext4File Ext4Extent Ext4ExtentOps Ext4ExtentTree.
From S2P Require Import Ext4ExtentFind Ext4BallocSpec Ext4ExtentLookup Ext4InodeData Ext4FsInode Ext4DirIdx Ext4DirOps.
From S2P Require Import Ext4Sample Ext4DirSpec.
#[local] Open Scope Z_scope.
#[local] Open Scope cint_scope.
#[local] Opaque ext4_crc32c.

(** The records of all blocks with the number of their block. *)
Definition numbered (L : list (list dent)) : list (nat * dent) := concat (imap (fun i l => pair i <$> l) L).

Section iterate.
Context `{Device}.
#[local] Notation sb := fs_sb.

Section one.
Context (r : ext4_inode_ref) (E : list ext4_extent) (B P : list Z) (L : list (list dent)).
#[local] Notation ino := (ir_inode r).
#[local] Notation dir m := (directory m (ir_index r) ino E B P L).
Hypothesis (Hdev : device_ok B).

(** The name of a free record stays inside it too. *)
Definition names_inside (m : memory) : Prop := forall i p l d, P !! i = Some p -> L !! i = Some l -> d ∈ l ->
  ext4_dir_en_get_name_len m sb (buf p + d_off d) <= d_len d - 8.

(** The record [x] is in the directory. *)
Record placed (x : nat * dent) : Prop := {
  pl_block : exists p l, P !! x.1 = Some p /\ L !! x.1 = Some l /\ x.2 ∈ l;
  pl_off : 0 <= d_off x.2;
  pl_end : d_off x.2 + d_len x.2 <= dev_bsize;
  pl_len : 8 <= d_len x.2;
  pl_mod : d_off x.2 mod 4 = 0;
}.

(** The records [R] lie side by side from position [pos] to position [stop] of the file. *)
Fixpoint row (pos : Z) (R : list (nat * dent)) (stop : Z) : Prop :=
  match R with
  | [] => pos = stop
  | x :: R => pos = Z.of_nat x.1 * dev_bsize + d_off x.2 /\ placed x /\ row (pos + d_len x.2) R stop
  end.

Lemma row_app R1 R2 : forall pos mid stop, row pos R1 mid -> row mid R2 stop -> row pos (R1 ++ R2) stop.
Proof. induction R1 as [|x R1 IH]; intros pos mid stop; cbn; [by intros ->|]. intros (E1 & Hx & HR1) HR2. split_and!; [done|done|]. by eapply IH. Qed.

Lemma row_block m i p l : P !! i = Some p -> L !! i = Some l -> forall l' off, (forall d, d ∈ l' -> d ∈ l) -> chain m sb (buf p) off l' dev_bsize ->
  0 <= off -> off mod 4 = 0 -> row (Z.of_nat i * dev_bsize + off) (pair i <$> l') (Z.of_nat i * dev_bsize + dev_bsize).
Proof.
  intros Hp Hl. induction l' as [|d l' IH]; intros off Hin; cbn [chain fmap list_fmap row]; [by intros ->|].
  intros (Ho & Hlen & Hmod & Hh & Hc) H0 H4. pose proof (chain_le _ _ _ _ _ _ Hc). unfold sizeof_fake in *. cbn [fst snd]. split; [lia|]. split.
  - constructor; cbn [fst snd]; try lia; [|by rewrite Ho]. exists p, l. split_and!; try done. apply Hin. by left.
  - rewrite <- Z.add_assoc. apply IH; [|done|lia|]. + intros d' Hd. apply Hin. by right. + rewrite Zplus_mod, H4, Hmod. done.
Qed.

Lemma row_blocks m P' : forall k L', (forall i p, P' !! i = Some p -> P !! (k + i)%nat = Some p) ->
  (forall i l, L' !! i = Some l -> L !! (k + i)%nat = Some l) -> Forall2 (fun p l => chain m sb (buf p) 0 l dev_bsize) P' L' ->
  row (Z.of_nat k * dev_bsize) (concat (imap (fun i l => pair (k + i)%nat <$> l) L')) (Z.of_nat (k + length P') * dev_bsize).
Proof.
  induction P' as [|p P' IH]; intros k L' HP HL HF; inversion HF as [|? l ? L0 Hc HF']; subst; cbn [imap concat length].
  { cbn. f_equal. lia. }
  specialize (HP O p eq_refl) as Hp. specialize (HL O l eq_refl) as Hl. rewrite Nat.add_0_r in *.
  apply (row_app _ _ _ (Z.of_nat (S k) * dev_bsize)).
  - replace (Z.of_nat (S k) * dev_bsize) with (Z.of_nat k * dev_bsize + dev_bsize) by lia. rewrite <- (Z.add_0_r (Z.of_nat k * dev_bsize)) at 1.
    by apply (row_block m k p l).
  - replace (k + S (length P'))%nat with (S k + length P')%nat by lia.
    erewrite imap_ext; [apply (IH (S k) L0); [| |done]|].
    + intros i q Hq. replace (S k + i)%nat with (k + S i)%nat by lia. by apply (HP (S i)).
    + intros i l' Hq. replace (S k + i)%nat with (k + S i)%nat by lia. by apply (HL (S i)).
    + intros i l' _. cbn. by replace (k + S i)%nat with (S (k + i)) by lia.
Qed.

Lemma row_all m : dir m -> row 0 (numbered L) (Z.of_nat (length P) * dev_bsize).
Proof.
  intros D. pose proof (row_blocks m P 0 L) as HR. cbn in HR. apply HR; [done|done|]. eapply Forall2_impl; [apply (di_blocks _ _ _ _ _ _ _ D)|].
  intros p l [Hc _]. by rewrite (di_bsize _ _ _ _ _ _ _ D) in Hc.
Qed.

(** ** The iterator and the block it holds *)

Definition idle (it : ext4_dir_iter) (s : ext4_fs) (l : list Z) : Prop := lb_id (curr_blk it) = 0 /\ held s = l.

Definition holding (i : nat) (it : ext4_dir_iter) (s : ext4_fs) (l : list Z) : Prop := exists p,
  P !! i = Some p /\ curr_blk it = Blk p (Some p) /\ held s = p :: l /\ curr_off it / dev_bsize = Z.of_nat i.

(** It points at the record [x]. *)
Definition at_record (x : nat * dent) (it : ext4_dir_iter) (s : ext4_fs) (l : list Z) : Prop := exists p,
  P !! x.1 = Some p /\ curr_blk it = Blk p (Some p) /\ held s = p :: l /\
  curr_off it = Z.of_nat x.1 * dev_bsize + d_off x.2 /\ curr it = Some (buf p + d_off x.2).

(** It points at the first of the records [R]; at the end it holds no block. *)
Definition pointing (R : list (nat * dent)) (it : ext4_dir_iter) (s : ext4_fs) (l : list Z) : Prop :=
  match R with [] => curr it = None /\ idle it s l | x :: _ => at_record x it s l end.

Lemma at_holding x it s l : placed x -> at_record x it s l -> holding x.1 it s l.
Proof.
  intros Hx (p & Hp & Hb & Hh & Ho & _). exists p. split_and!; try done. rewrite Ho. destruct Hx as [_ ? ? ? _].
  rewrite Z.add_comm, Z.div_add, Z.div_small by lia. lia.
Qed.

(** What a step leaves alone. *)
Definition steady (s s' : ext4_fs) : Prop :=
  tails B (mem s) (mem s') /\ dirty s' = dirty s /\ last_inode_bg_id s' = last_inode_bg_id s.

Lemma steady_refl s : steady s s.
Proof. done. Qed.

Lemma steady_trans s s1 s2 : dir (mem s) -> steady s s1 -> steady s1 s2 -> steady s s2.
Proof. intros D (A1 & A2 & A3) (B1 & B2 & B3). split; [by eapply dir_tails_trans|]. split; congruence. Qed.

Lemma steady_dir s s' : dir (mem s) -> steady s s' -> dir (mem s').
Proof. intros D (A1 & _). by apply (dir_tails r E B P L s). Qed.

Lemma steady_names s s' : dir (mem s) -> steady s s' -> names_inside (mem s) -> names_inside (mem s').
Proof.
  intros D (Ht & _) Hn i p l d Hp Hl Hd. rewrite <- (Hn i p l d Hp Hl Hd). apply Z.eq_le_incl.
  pose proof (di_file _ _ _ _ _ _ _ D) as [T _ _ _ _]. destruct (it_bufs _ _ _ _ T) as [Hpos _].
  destruct (Forall2_lookup_lr _ _ _ _ _ _ (di_blocks _ _ _ _ _ _ _ D) Hp Hl) as [Hc _]. destruct (chain_in _ _ _ _ _ _ d Hc Hd) as (? & ? & ? & _).
  rewrite (di_bsize _ _ _ _ _ _ _ D) in *. apply get_name_len_ext; intros x Hx; apply (tails_outside (mem s) (mem s') _ _ _ _ _ _ D Ht); intros b Hb.
  - pose proof (node_above (mem s) _ _ _ _ _ _ D b Hb). pose proof (di_below _ _ _ _ _ _ _ D). unfold in_block. lia.
  - destruct (di_apart _ _ _ _ _ _ _ D p) as (_ & Hnb & _); [by eapply list_elem_of_lookup_2|].
    assert (p <> b) as Hne by (intros ->; done). pose proof (buf_apart p b Hpos Hne). unfold in_block. lia.
Qed.

Lemma runf_leave it s l (Q : Z * ext4_block -> ext4_inode_ref -> ext4_fs -> Prop) : dir (mem s) -> idle it s l \/ (exists i, holding i it s l) ->
  (forall b s', lb_id b = 0 -> held s' = l -> steady s s' -> Q (EOK, b) r s') -> runf (leave_block (curr_blk it)) r s Q.
Proof.
  intros D [[Hb Hh]|(i & p & Hp & Hb & Hh & _)] HQ; unfold leave_block.
  - rewrite Hb. cbn [Z.eqb negb]. fstep. by apply HQ.
  - destruct (di_apart _ _ _ _ _ _ _ D p) as (Hpr & _); [by eapply list_elem_of_lookup_2|].
    rewrite Hb. cbn [lb_id]. rewrite (proj2 (Z.eqb_neq p 0)) by lia. cbn [negb]. fstep. apply (runf_put r p s l); [apply Hdev|lia|done|]. fstep. by apply HQ.
Qed.

(** The checks of [ext4_dir_iterator_set] pass at a record. *)
Lemma iterator_set_ok m x p pos : dir m -> names_inside m -> placed x -> P !! x.1 = Some p -> pos = Z.of_nat x.1 * dev_bsize + d_off x.2 ->
  ext4_dir_iterator_set m sb (buf p) pos dev_bsize = (EOK, Some (buf p + d_off x.2)).
Proof.
  intros D Hn [(p' & l & Hp' & Hl & Hd) H0' H1 H2 H3] Hp ->. assert (p' = p) as -> by congruence. pose proof (di_small _ _ _ _ _ _ _ D).
  destruct (Forall2_lookup_lr _ _ _ _ _ _ (di_blocks _ _ _ _ _ _ _ D) Hp Hl) as [Hc _]. destruct (chain_in _ _ _ _ _ _ _ Hc Hd) as (_ & _ & _ & _ & Hh).
  destruct Hh as (_ & Hlen & _). cbv zeta in Hlen. specialize (Hn _ _ _ _ Hp Hl Hd).
  unfold ext4_dir_iterator_set. rewrite (Z.add_comm (_ * _)), Z.mod_add, (Z.mod_small (d_off x.2) dev_bsize) by lia. rewrite H3. cbn [Z.eqb negb].
  rewrite (uw_small 32 (dev_bsize - 8)) by lia. rewrite (proj2 (Z.ltb_ge _ _)) by lia. cbv zeta. rewrite Hlen, (uw_small 32) by lia.
  by rewrite !(proj2 (Z.ltb_ge _ _)) by lia.
Qed.

(** How a move to the records [R] ends: with the iterator at the first of them, or
    with an error and no block held. *)
Definition moved (R : list (nat * dent)) (s : ext4_fs) (l : list Z) (out : Z * ext4_dir_iter) (r' : ext4_inode_ref) (s' : ext4_fs) : Prop :=
  let '(rc, it) := out in
  r' = r /\ steady s s' /\ ((rc = EOK /\ pointing R it s' l) \/ (failed rc /\ curr it = None /\ idle it s' l)).

(** Another block is taken. *)
Lemma runf_fetch i p it s l (Q : Z * ext4_dir_iter -> ext4_inode_ref -> ext4_fs -> Prop) : dir (mem s) -> P !! i = Some p ->
  idle it s l \/ (exists j, holding j it s l) ->
  (forall rc it' s', failed rc -> curr it' = None -> idle it' s' l -> steady s s' -> Q (rc, it') r s') ->
  (forall s', held s' = p :: l -> steady s s' -> Q (EOK, DirIter (Blk p (Some p)) (curr_off it) None) r s') ->
  runf ('(rc, b) ← leave_block (curr_blk it);
        let it := DirIter b (curr_off it) None in
        if negb (rc =? EOK) then mret (rc, it)
        else
          '(rc, next_blk) ← ext4_fs_get_inode_dblk_idx (Z.of_nat i) false;
          if negb (rc =? EOK) then mret (rc, it)
          else
            '(rc, b) ← up (get_into true b next_blk);
            mret (rc, DirIter (if negb (rc =? EOK) then no_block b else b) (curr_off it) None)) r s Q.
Proof.
  intros D Hp Hb Hf Ho. destruct (di_apart _ _ _ _ _ _ _ D p) as (Hpr & _); [by eapply list_elem_of_lookup_2|].
  fstep. apply (runf_leave it s l); [done|done|]. intros b s1 Hb1 Hh1 S1. rewrite (Z.eqb_refl EOK). cbn [negb]. fstep.
  pose proof (steady_dir s s1 D S1) as D1. apply (runf_dblk r E B P L Hdev i p); [done|done| |].
  { intros rc s2 Hrc (_ & L1 & L2 & L3 & L4 & _). rewrite (proj2 (Z.eqb_neq _ _)) by (by apply failed_neq). cbn [negb]. fstep.
    apply Hf; try done; [split; [done|congruence]|]. by apply (steady_trans s s1). }
  intros s2 (_ & L1 & L2 & L3 & L4 & _). rewrite (Z.eqb_refl EOK). cbn [negb]. fstep.
  assert (steady s s2) as S2 by (by apply (steady_trans s s1)).
  apply runf_up, run_get_any.
  - intros rc b' s3 Hrc _ (Q1 & Q2 & Q3) Hh. fstep. rewrite (proj2 (Z.eqb_neq _ _)) by apply Hrc. cbn [negb]. apply Hf; try done; [by left|split; [done|cbn; congruence]|].
    apply (steady_trans s s2); [done|done|]. split; [by rewrite Q1|done].
  - intros s3 (Q1 & Q2 & Q3) Hh. fstep. rewrite (Z.eqb_refl EOK). cbn [negb]. apply Ho; [congruence|].
    apply (steady_trans s s2); [done|done|]. split; [by rewrite Q1|done].
Qed.

Lemma runf_seek R pos it s l : dir (mem s) -> names_inside (mem s) -> idle it s l \/ (exists j, holding j it s l) ->
  row pos R (Z.of_nat (length P) * dev_bsize) -> runf (ext4_dir_iterator_seek it pos) r s (moved R s l).
Proof.
  intros D Hn Hb HR. pose proof (di_file _ _ _ _ _ _ _ D) as [_ _ F2 _ F4]. pose proof (di_small _ _ _ _ _ _ _ D) as Hbs.
  unfold ext4_dir_iterator_seek. fsteps. rewrite F2, (di_bsize _ _ _ _ _ _ _ D). destruct R as [|x R]; cbn [row] in HR.
  { subst pos. rewrite (proj2 (Z.leb_le _ _)) by lia. cbn [curr_blk curr_off]. fstep. apply (runf_leave it s l); [done|done|].
    intros b s1 Hb1 Hh1 S1. rewrite (Z.eqb_refl EOK). cbn [negb]. fstep. split; [done|]. split; [done|]. by left. }
  destruct HR as (Hpos & Hx & _). pose proof Hx as [(p & lx & Hp & Hlx & Hdx) X1 X2 X3 X4].
  pose proof (lookup_lt_Some _ _ _ Hp) as Hlt. rewrite (proj2 (Z.leb_gt _ _)) by nia. cbn [curr_blk curr_off].
  assert (pos / dev_bsize = Z.of_nat x.1) as Hdiv by (rewrite Hpos, Z.add_comm, Z.div_add, Z.div_small by lia; lia).
  rewrite Hdiv, (uw_small 32) by lia.
  assert (forall it' s', steady s s' -> curr_blk it' = Blk p (Some p) -> held s' = p :: l ->
    runf (if negb (EOK =? EOK) then mret (EOK, it')
          else m ← see; let '(rc, c) := ext4_dir_iterator_set m sb (block_data (curr_blk it')) pos dev_bsize in mret (rc, DirIter (curr_blk it') pos c))
      r s' (moved (x :: R) s l)) as Hend.
  { intros it' s' S Hb' Hh'. rewrite (Z.eqb_refl EOK). cbn [negb]. fsteps. rewrite Hb'. cbn [block_data b_buf].
    rewrite (iterator_set_ok (mem s') x p pos); [|by eapply steady_dir|by eapply steady_names|done|done|done]. fstep.
    split; [done|]. split; [done|]. left. split; [done|]. exists p. by rewrite <- Hpos. }
  destruct ((lb_id (curr_blk it) =? 0) || negb (curr_off it / dev_bsize =? Z.of_nat x.1)) eqn:Eb.
  - fstep. cbn [curr_blk curr_off]. apply (runf_fetch x.1 p it s l); [done|done|done| |].
    + intros rc it' s' Hf Hc Hi S. rewrite (proj2 (Z.eqb_neq _ _)) by (by apply failed_neq). cbn [negb]. fstep. split; [done|]. split; [done|]. by right.
    + intros s' Hh S. by apply Hend.
  - apply orb_false_iff in Eb as [Eb1 Eb2]. destruct Hb as [[Hb _]|(j & q & Hq & Hb & Hh & Hj)]; [by rewrite Hb in Eb1|].
    fsteps. apply Hend; [done|cbn|]; apply negb_false_iff, Z.eqb_eq in Eb2; assert (j = x.1) as -> by lia; by assert (q = p) as <- by congruence.
Qed.

(** The records from the first one in use on. *)
Fixpoint drop_free (R : list (nat * dent)) : list (nat * dent) :=
  match R with [] => [] | x :: R' => if d_ino x.2 =? 0 then drop_free R' else x :: R' end.

Lemma record_fields m x p : dir m -> placed x -> P !! x.1 = Some p ->
  ext4_dir_en_get_inode m (buf p + d_off x.2) = d_ino x.2 /\ ext4_dir_en_get_entry_len m (buf p + d_off x.2) = d_len x.2.
Proof.
  intros D [(p' & l & Hp' & Hl & Hd) _ _ _ _] Hp. assert (p' = p) as -> by congruence.
  destruct (Forall2_lookup_lr _ _ _ _ _ _ (di_blocks _ _ _ _ _ _ _ D) Hp Hl) as [Hc _]. destruct (chain_in _ _ _ _ _ _ _ Hc Hd) as (_ & _ & _ & _ & Hh).
  by destruct Hh as (? & ? & _).
Qed.

Lemma moved_weaken R s s1 l out r' s' : dir (mem s) -> steady s s1 -> moved R s1 l out r' s' -> moved R s l out r' s'.
Proof. intros D S1. destruct out as [rc it]. intros (-> & S2 & Hc). split; [done|]. split; [by apply (steady_trans s s1)|done]. Qed.

(** Moving on: to the next record in use. *)
Lemma runf_next R : forall fuel x it s l pos, (length R < fuel)%nat -> dir (mem s) -> names_inside (mem s) -> at_record x it s l ->
  row pos (x :: R) (Z.of_nat (length P) * dev_bsize) -> runf (ext4_dir_iterator_next fuel it) r s (moved (drop_free R) s l).
Proof.
  induction R as [|y R IH]; intros [|fuel] x it s l pos Hfuel D Hn Hx (Hpos & Hpl & HR); try (cbn in Hfuel; lia);
    pose proof (di_small _ _ _ _ _ _ _ D) as Hbs; pose proof Hx as (p & Hp & Hb & Hh & Ho & Hc); destruct (record_fields _ _ _ D Hpl Hp) as [_ Hlen];
    pose proof (fb_count _ _ _ _ _ (di_file _ _ _ _ _ _ _ D)) as Hcnt; pose proof (lookup_lt_Some _ _ _ Hp) as Hlt; pose proof Hpl as [_ X1 X2 X3 _];
    cbn [ext4_dir_iterator_next]; (fstep; eapply runf_need; [exact Hc|]; fsteps; rewrite Hlen, Ho, (uw_small 64) by nia; rewrite <- Hpos);
    (eapply runf_mono; [eapply (runf_seek _ _ it s l D Hn); [right; exists x.1; by apply at_holding|exact HR]|]);
    intros [rc it1] r1 s1 (-> & S1 & Hcase); cbv beta iota.
  - destruct Hcase as [(-> & Hci & Hi)|(Hf & Hci & Hi)]; rewrite Hci; fstep; (split; [done|]; split; [done|]); [by left|by right].
  - destruct Hcase as [(-> & Hy)|(Hf & Hci & Hi)].
    2:{ rewrite Hci. fstep. split; [done|]. split; [done|]. by right. }
    pose proof Hy as (q & Hq & _ & _ & _ & Hcy). cbn [row] in HR. destruct HR as (Hpos' & Hpy & HR). rewrite Hcy. fsteps.
    destruct (record_fields (mem s1) y q) as [Hino _]; [by eapply steady_dir|done|done|]. rewrite Hino. cbn [drop_free].
    destruct (d_ino y.2 =? 0) eqn:E0; cbn [negb].
    + rewrite (Z.eqb_refl EOK). eapply runf_mono; [eapply (IH fuel y it1 s1 l); [cbn in Hfuel; lia|by eapply steady_dir|by eapply steady_names|done|]|].
      * split; [exact Hpos'|by split].
      * intros out r' s'. by apply moved_weaken.
    + fstep. split; [done|]. split; [done|]. left. by split.
Qed.
End one.
End iterate.
