(* ===== verification/RustDir.v ===== *)
(** lwext4_rust, directories: [has_children] tells whether the map of a directory has
    a name beside [.] and [..]. *)
From S2P Require Import Prelude Memory Ext4Errno Ext4Crc Ext4Layout Ext4Super Ext4BlockGroup Ext4Dir.
From S2P Require Import Ext4Inode Ext4Store Ext4Fs Ext4Groups Ext4Balloc Ext4File Ext4Extent Ext4ExtentOps Ext4ExtentTree.
From S2P Require Import Ext4ExtentFind Ext4BallocSpec Ext4ExtentLookup Ext4InodeData Ext4FsInode Ext4DirIdx Ext4DirOps.
From S2P Require Import Ext4Sample Ext4DirSpec Ext4DirIter RustInode.
#[local] Open Scope Z_scope.
#[local] Open Scope cint_scope.
#[local] Opaque ext4_crc32c.

(** A name beside [.] and [..]. *)
Definition childish (name : list Z) : bool := negb (bool_decide (name = [46])) && negb (bool_decide (name = [46; 46])).

Definition child_record (x : nat * dent) : bool := negb (d_ino x.2 =? 0) && childish (d_name x.2).

Lemma childish_spec name : childish name = true <-> name <> [46] /\ name <> [46; 46].
Proof. unfold childish. rewrite andb_true_iff, !negb_true_iff, !bool_decide_eq_false. done. Qed.

Lemma drop_free_child R : existsb child_record (drop_free R) = existsb child_record R.
Proof.
  induction R as [|x R IH]; [done|]. cbn [drop_free]. destruct (d_ino x.2 =? 0) eqn:E; [|done]. rewrite IH. cbn.
  unfold child_record at 2. by rewrite E.
Qed.

Lemma drop_free_live R : match drop_free R with [] => True | x :: _ => d_ino x.2 <> 0 end.
Proof. induction R as [|x R IH]; [done|]. cbn. destruct (d_ino x.2 =? 0) eqn:E; [done|]. by zb. Qed.

Lemma drop_free_suffix R : exists R0, R = R0 ++ drop_free R.
Proof.
  induction R as [|x R [R0 IH]]; [by exists []|]. cbn. destruct (_ =? 0); [|by exists []]. exists (x :: R0). cbn. by rewrite <- IH.
Qed.

Lemma numbered_elem L x : x ∈ numbered L <-> exists l, L !! x.1 = Some l /\ x.2 ∈ l.
Proof.
  unfold numbered. rewrite list_elem_of_In, in_concat. split.
  - intros (l' & Hl' & Hx). apply list_elem_of_In in Hl', Hx. apply elem_of_lookup_imap in Hl' as (i & l & -> & Hl).
    apply list_elem_of_fmap in Hx as (d & -> & Hd). by exists l.
  - intros (l & Hl & Hd). exists (pair x.1 <$> l). split; apply list_elem_of_In.
    + apply elem_of_lookup_imap. by exists x.1, l.
    + apply list_elem_of_fmap. exists x.2. by destruct x.
Qed.

(** The records and the map of the directory. *)
Lemma children_map L : unique (concat L) ->
  existsb child_record (numbered L) = true <-> exists name, is_Some (dir_map (concat L) !! name) /\ name <> [46] /\ name <> [46; 46].
Proof.
  intros Hu. rewrite existsb_exists. setoid_rewrite <- list_elem_of_In. split.
  - intros (x & (l & Hl & Hd)%numbered_elem & Hc). unfold child_record in Hc. apply andb_true_iff in Hc as [H0 Hc%childish_spec].
    apply negb_true_iff, Z.eqb_neq in H0. exists (d_name x.2). split; [|done]. erewrite named_concat; [done|exact Hl|exact Hd|by split|done].
  - intros (name & [v Hv] & Hn). destruct (list_find (named name) (concat L)) as [[k d]|] eqn:Ef.
    + apply list_find_Some in Ef as (Hd%list_elem_of_lookup_2 & [Hl Hnm] & _). apply list_elem_of_In, in_concat in Hd as (l & Hl' & Hd). apply list_elem_of_In, list_elem_of_lookup in Hl' as [i Hi].
      exists (i, d). split; [apply numbered_elem; exists l; split; [done|by apply list_elem_of_In]|]. unfold child_record. cbn.
      rewrite (proj2 (Z.eqb_neq _ _)) by done. cbn. apply childish_spec. by rewrite Hnm.
    + rewrite unnamed_map in Hv; [done|]. apply list_find_None in Ef. by rewrite Forall_forall in Ef.
Qed.

Section children.
Context `{Device}.
#[local] Notation sb := fs_sb.
Context (r : ext4_inode_ref) (E : list ext4_extent) (B P : list Z) (L : list (list dent)).
#[local] Notation ino := (ir_inode r).
#[local] Notation dir m := (directory m (ir_index r) ino E B P L).
#[local] Notation placed := (placed P L).
#[local] Notation row := (row P L).
#[local] Notation size := (Z.of_nat (length P) * dev_bsize).
Hypothesis (Hdev : device_ok B).

(** The Rust code reads the name that the record has. *)
Lemma entry_name_record m x p : dir m -> placed x -> P !! x.1 = Some p -> d_ino x.2 <> 0 -> InodeRef.entry_name m (buf p + d_off x.2) = d_name x.2.
Proof.
  intros D [(p' & l & Hp' & Hl & Hd) _ _ _ _] Hp Hlive. assert (p' = p) as -> by congruence.
  destruct (Forall2_lookup_lr _ _ _ _ _ _ (di_blocks _ _ _ _ _ _ _ D) Hp Hl) as [Hc _]. destruct (chain_in _ _ _ _ _ _ _ Hc Hd) as (_ & _ & _ & _ & Hh).
  destruct Hh as (_ & _ & _ & Hh). destruct (Hh Hlive) as (_ & Hn & Hb). unfold ext4_dir_en_get_name_len in Hn. unfold InodeRef.entry_name.
  rewrite <- Hb. f_equal. rewrite <- (Nat2Z.id (length _)), <- Hn. f_equal.
  pose proof (fget_range de_in m (buf p + d_off x.2)) as Hr. change (2 ^ _) with 256 in Hr. rewrite uw_small; [done|].
  rewrite shiftl_pow2 by lia. lia.
Qed.

Definition listed (b : bool) (s : ext4_fs) (l : list Z) (out : result bool * ext4_dir_iter) (r' : ext4_inode_ref) (s' : ext4_fs) : Prop :=
  let '(res, it) := out in
  r' = r /\ steady B s s' /\ (idle it s' l \/ exists i, holding P i it s' l) /\ (res = Ok b \/ exists rc, failed rc /\ res = Err rc).

Lemma listed_weaken b s s1 l out r' s' : dir (mem s) -> steady B s s1 -> listed b s1 l out r' s' -> listed b s l out r' s'.
Proof.
  intros D S1. destruct out as [res it]. intros (-> & S2 & Hc). split; [done|]. split; [|done].
  by eapply (steady_trans r E B P L s s1).
Qed.

Lemma runf_children fuel : forall R it s l pos, (length R < fuel)%nat -> dir (mem s) -> names_inside P L (mem s) -> row pos R size ->
  pointing P R it s l -> match R with [] => True | x :: _ => d_ino x.2 <> 0 end ->
  runf (InodeRef.children_loop fuel it) r s (listed (existsb child_record R) s l).
Proof.
  induction fuel as [|fuel IH]; intros R it s l pos Hf D Hn HR Hat Hlive; [lia|]. cbn [InodeRef.children_loop]. destruct R as [|x R]; cbn [pointing] in Hat.
  { destruct Hat as [-> Hi]. fstep. split; [done|]. split; [done|]. split; [by left|by left]. }
  pose proof Hat as (p & Hp & _ & _ & _ & Hc). rewrite Hc. fsteps. destruct HR as (Hpos & Hpl & HR).
  rewrite (entry_name_record (mem s) x p) by done. fold (childish (d_name x.2)). cbn [existsb]. unfold child_record at 1.
  rewrite (proj2 (Z.eqb_neq _ _)) by done. cbn [negb andb]. destruct (childish (d_name x.2)) eqn:Ec; cbn [orb].
  { fstep. split; [done|]. split; [done|]. split; [right; exists x.1; by eapply at_holding|by left]. }
  cbn [length] in Hf. fstep. unfold InodeRef.step. rewrite Hc. fstep.
  eapply runf_mono; [eapply (runf_next r E B P L Hdev R (S fuel) x it s l pos); [lia|done|done|done|by split]|].
  intros [rc it1] r1 s1 (-> & S1 & Hcase). fstep. destruct Hcase as [(-> & Hp1)|(Hrc & Hci & Hi)].
  - rewrite (Z.eqb_refl EOK). destruct (drop_free_suffix R) as [R0 ER]. pose proof (drop_free_live R) as Hlv. rewrite <- (drop_free_child R).
    assert (exists pos', row pos' (drop_free R) size) as [pos' HR'].
    { rewrite ER in HR. clear -HR. revert HR. generalize (pos + d_len x.2). induction R0 as [|y R0 IH0]; intros o HR; [by exists o|]. cbn in HR. by eapply IH0, HR. }
    eapply runf_mono; [apply (IH (drop_free R) it1 s1 l pos'); try done|].
    + apply (f_equal length) in ER. rewrite length_app in ER. cbn in Hf. lia.
    + by eapply (steady_dir r E B P L s).
    + by eapply (steady_names r E B P L s).
    + intros out r' s'. by apply listed_weaken.
  - rewrite (proj2 (Z.eqb_neq _ _)) by (by apply failed_neq). fstep. split; [done|]. split; [done|]. split; [by left|]. right. by exists rc.
Qed.

(** Dropping the reader releases its block. *)
Lemma runf_drop_reader it s l (Q : unit -> ext4_inode_ref -> ext4_fs -> Prop) : dir (mem s) -> idle it s l \/ (exists i, holding P i it s l) ->
  Q tt r (set_held s l) -> runf (InodeRef.drop_reader it) r s Q.
Proof.
  intros D [[Hb Hh]|(i & p & Hp & Hb & Hh & _)] HQ; unfold InodeRef.drop_reader, ext4_dir_iterator_fini; fstep.
  - rewrite Hb. cbn [Z.eqb negb]. fsteps. by destruct s; cbn in Hh; subst l.
  - destruct (di_apart _ _ _ _ _ _ _ D p) as (Hpr & _); [by eapply list_elem_of_lookup_2|].
    rewrite Hb. cbn [lb_id]. rewrite (proj2 (Z.eqb_neq p 0)) by lia. cbn [negb]. fstep. apply (runf_put r p s l); [apply Hdev|lia|done|]. by fsteps.
Qed.

(** C26. [has_children] on a directory without an index whose first record is in
    use and whose free records too have names that end inside them, which the iterator
    checks; on an open device, and with nodes of the extent tree outside the inode a
    failing access fails at its read ([device_ok]).  It walks over all records and ends;
    the answer is whether the directory has a name beside [.] and [..], or an error of
    the device or of memory. All blocks are released and nothing is marked for writing. *)
Theorem has_children_spec fuel s x R : dir (mem s) -> names_inside P L (mem s) -> numbered L = x :: R -> d_ino x.2 <> 0 ->
  InodeRef.inode_type (mem s) ino = Directory -> (length (numbered L) < fuel)%nat ->
  runf (InodeRef.has_children fuel) r s (fun out r' s' =>
    r' = r /\ held s' = held s /\ dirty s' = dirty s /\ tails B (mem s) (mem s') /\
    ((exists b, out = Ok b /\ (b = true <-> exists name, is_Some (dir_map (concat L) !! name) /\ name <> [46] /\ name <> [46; 46])) \/
     exists rc, failed rc /\ out = Err rc)).
Proof.
  intros D Hn Hfirst Hlive Hty Hf. unfold InodeRef.has_children, InodeRef.read_dir, ext4_dir_iterator_init. fsteps. rewrite bool_decide_true by done. cbn [negb].
  pose proof (row_all r E B P L (mem s) D) as HR. fsteps. eapply runf_mono; [eapply (runf_seek r E B P L Hdev _ _ _ s (held s) D Hn); [by left|exact HR]|].
  intros [rc it] r1 s1 (-> & S1 & Hcase). fstep. destruct Hcase as [(-> & Hp1)|(Hrc & Hci & Hi)].
  2:{ rewrite (proj2 (Z.eqb_neq _ _)) by (by apply failed_neq). fstep. destruct S1 as (T1 & T2 & T3). split_and!; try done; [apply Hi|]. right. by exists rc. }
  rewrite (Z.eqb_refl EOK). fstep. assert (match numbered L with [] => True | x :: _ => d_ino x.2 <> 0 end) as Hl by (by rewrite Hfirst).
  eapply runf_mono; [apply (runf_children fuel (numbered L) it s1 (held s) 0); try done; [by eapply (steady_dir r E B P L s)|by eapply (steady_names r E B P L s)]|].
  intros [res it2] r2 s2 (-> & S2 & Hb & Hres). cbv beta iota. pose proof (steady_trans r E B P L s s1 s2 D S1 S2) as S3. fstep.
  apply (runf_drop_reader it2 s2 (held s)); [by eapply (steady_dir r E B P L s)|done|]. fstep. destruct S3 as (T1 & T2 & T3). split_and!; try done.
  destruct Hres as [->|?]; [left|by right]. eexists. split; [done|]. apply children_map, (di_unique _ _ _ _ _ _ _ D).
Qed.
End children.

#[local] Existing Instance sample_device.

Lemma sample_names_inside : names_inside [11; 12] sample_records sample_dir.
Proof.
  intros [|[|i]] p l d Hp Hl Hd; [| |done]; injection Hp as <-; injection Hl as <-; rewrite ?elem_of_cons, ?elem_of_nil in Hd; destruct_or! Hd; try done;
    subst d; vm_compute; congruence.
Qed.

Lemma has_children_spec_witness :
  runf (InodeRef.has_children 10) (InodeRef 5 sample_inode 1 false) (Fs sample_dir ∅ [] 0 0 ∅)
    (fun out r' s' => held s' = [] /\ (out = Ok true \/ exists rc, failed rc /\ out = Err rc)).
Proof.
  eapply runf_mono.
  - apply (has_children_spec (InodeRef 5 sample_inode 1 false) [Extent 0 2 0 11] [] [11; 12] sample_records) with (x := (O, Dent 0 12 2 [46] 2))
      (R := [(O, Dent 12 1012 2 [46; 46] 2); (1%nat, Dent 0 1024 12 [104; 101; 108; 108; 111] 1)]).
    + apply sample_works.
    + apply sample_directory.
    + apply sample_names_inside.
    + reflexivity.
    + done.
    + by vm_compute.
    + vm_compute. lia.
  - intros out r' s' (_ & Hh & _ & _ & Hc). split; [exact Hh|]. destruct Hc as [(b & -> & Hb)|Hf]; [left|by right].
    f_equal. apply Hb. exists [104; 101; 108; 108; 111]. destruct sample_hello as [_ ->]. done.
Defined.
