(* ===== verification/RustClaims.v ===== *)
(** lwext4_rust, what its operations do: times are stored exactly, and inputs on which
    the operations depart from their intention. *)
From S2P Require Import Prelude Memory Ext4Errno Ext4Crc Ext4Layout Ext4Super Ext4BlockGroup Ext4Dir.
From S2P Require Import Ext4Inode Ext4Store Ext4Fs Ext4Groups Ext4Balloc Ext4Ialloc Ext4File Ext4Extent Ext4FsInode.
From S2P Require Import Ext4DirIdx Ext4DirOps RustInode RustFs Ext4Sample Ext4DirSpec.
#[local] Open Scope Z_scope.
#[local] Open Scope cint_scope.

(** ** Times *)

Definition duration_ok (d : Duration) : Prop := 0 <= as_secs d < 2 ^ 34 /\ 0 <= subsec_nanos d < 1000000000.

Lemma encode_decode d : duration_ok d -> let '(time, extra) := encode_time d in
  0 <= time < 2 ^ 32 /\ 0 <= extra < 2 ^ 32 /\ decode_time time extra = d.
Proof.
  intros [Hs Hn]. unfold encode_time. set (sec := as_secs d) in *. set (ns := subsec_nanos d) in *.
  assert (0 <= sec .>> 32 < 4) as Hh.
  { rewrite shiftr_pow2 by lia. split; [apply Z.div_pos; lia|]. apply Z.div_lt_upper_bound; lia. }
  rewrite (uw_small 32 (sec .>> 32)) by lia. rewrite shiftl_pow2 by lia. rewrite (uw_small 32 (ns * 2 ^ 2)) by lia.
  rewrite lor_add_disjoint by lia. assert (0 <= ns * 2 ^ 2 + sec .>> 32 < 2 ^ 32) as Hx by lia.
  split; [apply uw_range; lia|]. split; [done|]. unfold decode_time, duration_new.
  assert ((ns * 2 ^ 2 + sec .>> 32) .& 3 = sec .>> 32) as ->.
  { change 3 with (Z.ones 2). rewrite Z.land_ones by lia. rewrite Z.add_comm, Z.mod_add by lia. apply Z.mod_small. lia. }
  assert ((ns * 2 ^ 2 + sec .>> 32) .>> 2 = ns) as ->.
  { rewrite (shiftr_pow2 _ 2) by lia. rewrite Z.add_comm, Z.div_add by lia. rewrite Z.div_small by lia. lia. }
  rewrite Z.div_small, Z.mod_small by lia. rewrite shiftl_pow2 by lia. rewrite shiftr_pow2 by lia. unfold uw.
  destruct d as [a b]. cbn in sec, ns. unfold sec, ns. f_equal. pose proof (Z.div_mod a (2 ^ 32)). lia.
Qed.

Section times.
Context `{Device}.

(** The attributes before and after [c]. *)
Definition between (c : F unit) (r : ext4_inode_ref) (s : ext4_fs) (Q : FileAttr -> FileAttr -> Prop) : Prop :=
  runf InodeRef.get_attr r s (fun a _ _ => runf c r s (fun _ r' s' => ir_dirty r' = true /\ runf InodeRef.get_attr r' s' (fun a' _ _ => Q a a'))).

(** C38. A time below 2^34 seconds that is set in an inode is read back exactly, to
    the nanosecond, whichever of the three times it is; the other two times
    are left alone, and the inode is marked for writing. *)
Theorem times_roundtrip r s d : duration_ok d ->
  between (InodeRef.set_atime d) r s (fun a a' => at_atime a' = d /\ at_mtime a' = at_mtime a /\ at_ctime a' = at_ctime a) /\
  between (InodeRef.set_mtime d) r s (fun a a' => at_mtime a' = d /\ at_atime a' = at_atime a /\ at_ctime a' = at_ctime a) /\
  between (InodeRef.set_ctime d) r s (fun a a' => at_ctime a' = d /\ at_atime a' = at_atime a /\ at_mtime a' = at_mtime a).
Proof.
  intros Hd. pose proof (encode_decode d Hd) as He.
  unfold between, InodeRef.set_atime, InodeRef.set_mtime, InodeRef.set_ctime, InodeRef.change_inode, InodeRef.get_attr.
  destruct (encode_time d) as [time extra]. destruct He as (Ht & Hx & He).
  split_and!; fsteps; (split; [done|]); fsteps; cbn [at_atime at_mtime at_ctime mem set_mem ir_inode dirty_inode].
  all: repeat first [rewrite fget_fset_same by (done || fld)|rewrite fget_fset_other by (done || fld)]; split_and!; done.
Qed.
End times.

Definition noon : Duration := Dur (2 ^ 32 + 5) 999999999.

Lemma times_roundtrip_witness : duration_ok noon /\
  between (H := sample_device) (InodeRef.set_ctime noon) (InodeRef 5 sample_inode 1 false) (Fs sample_fs ∅ [] 0 0 ∅)
    (fun a a' => at_ctime a' = noon /\ at_atime a' = at_atime a /\ at_mtime a' = at_mtime a).
Proof. assert (duration_ok noon) as Hd by (split; vm_compute; split; congruence). split; [exact Hd|]. apply (times_roundtrip _ _ _ Hd). Defined.

(** ** Inputs that go wrong

    A file system as in [sample_dir], with the inodes of the directory (1) and of the
    file [hello] (11) in order. *)

#[local] Existing Instance sample_device.
#[local] Instance sample_literals : Literals := {| lit_dot := buf 41; lit_dotdot := buf 41 |}.

Definition sample_child : Z := buf 6 + 256.

Definition sample_home : memory :=
  let w f v m := fset f m sample_child v in
  laid (buf 41) [46; 46] (laid (buf 12) [11; 0; 0; 0]
    (fset ino_links_count (w ino_mode 0x81A4 (w ino_links_count 1 (w ino_flags 0x00080000 sample_dir))) sample_inode 2)).

Definition sample_state (m : memory) : ext4_fs := Fs m ∅ [] 0 0 ∅.
Definition hello : Z := buf 40.
Definition world : Z := buf 40 + 5.

(** What a call says, and the inode that [name] has afterwards. *)
Definition after {A} (c : M (result A)) (name : Z) : option (result A * result Z) :=
  match c (sample_state sample_home) with
  | Some (out, s) =>
      match Ext4Filesystem.lookup noon 10 1 name 5 s with Some (out', _) => Some (out, out') | None => None end
  | None => None
  end.

(** Renaming a file to the name it has removes it: the entry is unlinked before it is
    looked up. *)
Example rename_same_loses :
  after (mret (Ok tt) : M (result unit)) hello = Some (Ok tt, Ok 11) /\
  after (Ext4Filesystem.rename noon 10 1 hello 5 1 hello 5) hello = Some (Err ENOENT, Err ENOENT).
Proof. split; vm_compute; reflexivity. Qed.

(** Creating a file when there is no free inode dereferences a null pointer: the
    reference that could not be filled is dropped. *)
Example create_without_inodes :
  Ext4Filesystem.create noon 10 1 world 5 RegularFile 420
    (sample_state (fset bg_free_inodes_count_lo (fset sb_free_inodes_count sample_home 0 0) (buf 2) 0)) = None.
Proof. vm_compute. reflexivity. Qed.

(** In a file system whose inodes have 128 bytes, setting a time of an inode writes its
    nanoseconds over the size of the next one. *)
Example ctime_overwrites_next :
  fget sb_inode_size sample_home fs_sb = 128 /\ ext4_inode_get_size sample_home fs_sb (sample_inode + 128) = 0 /\
  match InodeRef.set_ctime noon (InodeRef 5 sample_inode 1 false) (sample_state sample_home) with
  | Some (_, s) => ext4_inode_get_size (mem s) fs_sb (sample_inode + 128) = 3999999997
  | None => False
  end.
Proof. vm_compute. tauto. Qed.

(** Moving a directory changes its entry [..], in block 22 here, without marking the
    block for writing. *)
Definition third : Z := buf 42.
Definition sample_dirs : M (result Z) :=
  _ ← Ext4Filesystem.create noon 10 1 world 5 Directory 0x1FF;
  Ext4Filesystem.create noon 10 1 third 5 Directory 0x1FF.

Example rename_loses_dotdot :
  match sample_dirs (sample_state (laid third [116; 104; 105; 114; 100] sample_home)) with
  | Some (made, s) =>
      match Ext4Filesystem.rename noon 10 1 third 5 12 third 5 (sample_state (mem s)) with
      | Some (out, s') => made = Ok 13 /\ out = Ok tt /\ InodeRef.entry_ino (mem s) (buf 22 + 12) = 1 /\
          InodeRef.entry_ino (mem s') (buf 22 + 12) = 12 /\ 22 ∉ dirty s'
      | None => False
      end
  | None => False
  end.
Proof. vm_compute. split_and!; try reflexivity. intros Hin. discriminate Hin. Qed.
