(* ===== verification/Ext4DirAdd.v ===== *)
(** lwext4, adding a name to a directory without an index: into a block that has
    room, or into a new block at its end. *)
From S2P Require Import Prelude Memory Ext4Errno Ext4Crc Ext4Layout Ext4Super Ext4BlockGroup Ext4Dir.
From S2P Require Import Ext4Inode Ext4Store Ext4Fs Ext4Groups Ext4Balloc Ext4File Ext4Extent Ext4ExtentOps Ext4ExtentTree.
From S2P Require Import Ext4ExtentFind Ext4BallocSpec Ext4BallocRun Ext4BallocRefine Ext4ExtentLookup Ext4ExtentLeaf.
From S2P Require Import Ext4BallocClient Ext4InodeData Ext4ExtentCreate Ext4FsInode Ext4FsAppend Ext4DirIdx Ext4DirOps.
From S2P Require Import Ext4IallocSpec Ext4IallocRefine Ext4Sample Ext4DirSpec.
#[local] Open Scope Z_scope.
#[local] Open Scope cint_scope.
#[local] Opaque ext4_crc32c.

(** ** A block with one entry *)

Lemma memset_other m d v n x : x < d \/ d + n <= x -> memset m d v n x = m x.
Proof. intros Hx. unfold memset. case_if; [lia|done]. Qed.

Lemma init_tail_other m t x : x < t \/ t + 12 <= x -> ext4_dir_init_entry_tail m t x = m x.
Proof.
  intros Hx. unfold ext4_dir_init_entry_tail. rewrite !fset_other by (done || (cbn; lia)). apply memset_other. unfold sizeof_tail. lia.
Qed.

Lemma init_tail_get m sb data : let bs := ext4_sb_get_block_size m sb in 1024 <= bs -> Ext4Dir.apart sb 1024 data bs ->
  let m' := ext4_dir_init_entry_tail m (EXT4_DIRENT_TAIL data bs) in
  ext4_dir_get_tail m' sb data = Some (data + bs - sizeof_tail) /\
  (has_types m sb = true -> holds m' sb data (Dent (bs - 12) 12 0 [] EXT4_DIRENTRY_DIR_CSUM)).
Proof.
  intros bs Hbs Hsb m'. assert (same_on sb (sb + 1024) m m') as Hs.
  { intros x Hx. apply init_tail_other. unfold EXT4_DIRENT_TAIL, sizeof_tail, Ext4Dir.apart in *. lia. }
  set (t := data + (bs - sizeof_tail)). assert (forall f, f = tail_reserved_zero1 \/ f = tail_rec_len \/ f = tail_reserved_zero2 \/ f = tail_reserved_ft ->
    fget f m' t = if f_off f =? 4 then 12 else if f_off f =? 7 then 0xDE else 0) as Hf.
  { intros f Hf. unfold m', ext4_dir_init_entry_tail, EXT4_DIRENT_TAIL. fold t.
    destruct_or! Hf; subst f; cbn [f_off Z.eqb Pos.eqb tail_reserved_zero1 tail_rec_len tail_reserved_zero2 tail_reserved_ft];
      repeat first [rewrite fget_fset_same by (done || fld)|rewrite fget_fset_other by (done || fld)]; try done;
      (rewrite (fget_on _ (fun _ => 0)); [done|done|]; intros x Hx; cbn in Hx; unfold ld8, memset, sizeof_tail; case_if; [done|lia]). }
  split.
  - unfold ext4_dir_get_tail. rewrite (block_size_sb m m' sb Hs). fold bs. unfold EXT4_DIRENT_TAIL. fold t. rewrite !Hf by auto. cbn. f_equal. unfold t. lia.
  - intros Hty. unfold holds. cbn [d_off d_len d_ino d_name d_type]. cbv zeta. change (data + (bs - 12)) with t.
    unfold ext4_dir_en_get_inode, ext4_dir_en_get_entry_len, ext4_dir_en_get_inode_type. fold (has_types m' sb). rewrite (has_types_sb m m' sb Hs), Hty.
    change de_inode with tail_reserved_zero1. change de_entry_len with tail_rec_len. change de_in with tail_reserved_ft. rewrite !Hf by auto. done.
Qed.

Section fresh.
Context (m : memory) (sb data index ino cindex child name : Z) (nl : nat).
Let bs := ext4_sb_get_block_size m sb.
Hypothesis (Hbs : 1024 <= bs < 2 ^ 16) (Hmod : bs mod 4 = 0) (Hsb : Ext4Dir.apart sb 1024 data bs) (Hino : Ext4Dir.apart ino 128 data bs).
Hypothesis (Hchild : Ext4Dir.apart child 128 data bs).
Hypothesis (Hname : Ext4Dir.apart name (Z.of_nat nl) data bs) (Hnl : Z.of_nat nl < 256) (Hci : 0 < cindex < 2 ^ 32).
Hypothesis (Hty : has_csum m sb = true -> has_types m sb = true).
Let m0 := memset m data 0 bs.
Let nm := bytes_of m name nl.
Let ty := new_type m sb child.
#[local] Notation wrote len := (ext4_dir_write_entry m0 sb data len cindex child name (Z.of_nat nl)).

(** The entry in front of the rest of the block. *)
Lemma fresh_entry len : 8 + Z.of_nat nl + 4 <= len <= bs -> len mod 4 = 0 -> exists m1, wrote len = Some m1 /\
  (forall x, x < data \/ data + len <= x -> m1 x = m0 x) /\ holds m1 sb data (Dent 0 len cindex nm ty).
Proof.
  intros Hlen Hm. assert (forall x, x < data \/ data + bs <= x -> m0 x = m x) as Hf by (intros x Hx; by apply memset_other).
  unfold Ext4Dir.apart in *. assert (same_on sb (sb + 1024) m m0) as Hs by (intros x Hx; apply Hf; lia).
  pose proof (block_size_sb m m0 sb Hs) as Eb. fold bs in Eb. pose proof (need_bounds (Z.of_nat nl) ltac:(lia)) as [Hn _].
  destruct (write_holds m0 sb data cindex child name nl) with (off := 0) (len := len) as (m1 & E1 & Hx & Hh);
    try (rewrite ?Eb; unfold Ext4Dir.apart; lia). rewrite Z.add_0_r in E1. exists m1. split; [done|]. split; [intros x Hx'; apply Hx; lia|].
  assert (bytes_of m0 name nl = nm) as <- by (apply bytes_of_ext; intros x Hx'; apply Hf; lia).
  assert (new_type m0 sb child = ty) as <- by (apply new_type_ext; [done|]; intros x Hx'; apply Hf; lia). done.
Qed.

Lemma fresh_block : exists m1 l,
  (if has_csum m sb then exists m', wrote (u16 (bs - sizeof_tail)) = Some m' /\ m1 = ext4_dir_init_entry_tail m' (EXT4_DIRENT_TAIL data bs)
   else wrote (u16 bs) = Some m1) /\
  entries l = [(nm, (cindex, ty))] /\
  let m2 := ext4_dir_set_csum m1 sb index ino data in
  (forall x, x < data \/ data + bs <= x -> m2 x = m x) /\ dir_block m2 sb data l /\
  ext4_dir_csum_verify m2 sb index ino data = true.
Proof.
  assert (forall x, x < data \/ data + bs <= x -> m0 x = m x) as Hf by (intros x Hx; by apply memset_other).
  assert (entries [Dent 0 bs cindex nm ty] = [(nm, (cindex, ty))] /\
    entries [Dent 0 (bs - 12) cindex nm ty; Dent (bs - 12) 12 0 [] EXT4_DIRENTRY_DIR_CSUM] = [(nm, (cindex, ty))]) as [He1 He2].
  { unfold entries. rewrite !filter_cons_True, (filter_cons_False _ (Dent (bs - 12) _ _ _ _)) by (unfold live; cbn; lia). done. }
  destruct (has_csum m sb) eqn:Hcs.
  - rewrite (uw_small 16) by (unfold sizeof_tail; lia). change sizeof_tail with 12. destruct (fresh_entry (bs - 12)) as (m' & Ew & Hx & Hh); [lia| |].
    { rewrite Zminus_mod, Hmod. done. }
    set (m1 := ext4_dir_init_entry_tail m' (EXT4_DIRENT_TAIL data bs)). eexists m1, _. split; [by exists m'|].
    assert (same_on sb (sb + 1024) m m') as Hs by (intros x Hx'; unfold Ext4Dir.apart in Hsb; rewrite Hx by lia; apply Hf; lia).
    pose proof (block_size_sb m m' sb Hs) as Eb. fold bs in Eb.
    destruct (init_tail_get m' sb data) as [Ht Htr]; rewrite Eb in *; [lia|done|]. fold m1 in Ht, Htr.
    assert (forall x, x < data + (bs - 12) \/ data + bs <= x -> m1 x = m' x) as Hx1.
    { intros x Hx'. apply init_tail_other. unfold EXT4_DIRENT_TAIL, sizeof_tail. lia. }
    assert (same_on sb (sb + 1024) m m1) as Hs1 by (intros x Hx'; unfold Ext4Dir.apart in Hsb; rewrite Hx1 by lia; by apply Hs).
    rewrite (has_types_sb m m' sb Hs) in Htr. specialize (Htr (Hty eq_refl)). split; [exact He2|].
    apply (seal_block m m1); try done; fold bs; [lia| | |].
    + intros x Hx'. rewrite Hx1, Hx by lia. by apply Hf.
    + cbn [chain d_off d_len]. unfold sizeof_fake. split_and!; try lia; try done; [rewrite Zminus_mod, Hmod; done|].
      apply (holds_ext m'); [by intros x Hx'; rewrite Hs1, Hs| | |done]; [|intros _]; intros x Hx'; apply Hx1; cbn in Hx'; lia.
    + intros _. rewrite (has_types_sb m m1 sb Hs1), (block_size_sb m m1 sb Hs1). fold bs. split; [by apply Hty|]. split; [done|].
      eexists [_], _. by split.
  - rewrite (uw_small 16) by lia. destruct (fresh_entry bs) as (m1 & Ew & Hx & Hh); [lia|done|]. eexists m1, _. split; [done|].
    split; [exact He1|].
    assert (forall x, x < data \/ data + bs <= x -> m1 x = m x) as Hx1 by (intros x Hx'; rewrite Hx by done; by apply Hf).
    apply (seal_block m m1); try done; fold bs; [lia| |].
    + cbn [chain d_off d_len]. unfold sizeof_fake. split_and!; done || lia.
    + intros Hc. assert (same_on sb (sb + 1024) m m1) as Hs by (intros x Hx'; unfold Ext4Dir.apart in Hsb; apply Hx1; lia).
      rewrite (has_csum_sb m m1 sb Hs) in Hc. congruence.
Qed.
End fresh.

Section add.
Context `{Device}.
#[local] Notation sb := fs_sb.

(** The bytes at [a] are neither metadata, nor the inode, nor in a block of [X]. *)
Definition clear_of (m : memory) (ino : Z) (X : gset Z) (a n : Z) : Prop :=
  forall x, a <= x < a + n -> elsewhere m ino x /\ forall b, b ∈ X -> ~ in_block b x.

Lemma clear_apart m ino X a n b : clear_of m ino X a n -> 0 < n -> 0 < dev_bsize -> b ∈ X -> Ext4Dir.apart a n (buf b) dev_bsize.
Proof.
  intros Hc Hn Hpos Hb. destruct (decide (a + n <= buf b \/ buf b + dev_bsize <= a)) as [|Hno]; [done|]. exfalso.
  destruct (Hc (Z.max a (buf b))) as [_ Hx]; [lia|]. apply (Hx b Hb). unfold in_block. lia.
Qed.

Lemma new_type_on m m' child : (forall x, sb <= x < sb + 1024 -> ~ sb_counter x -> ld8 m' x = ld8 m x) ->
  (forall x, child <= x < child + 128 -> ld8 m' x = ld8 m x) -> new_type m' sb child = new_type m sb child.
Proof.
  intros Hsb Hc. unfold new_type, ext4_inode_type, ext4_inode_get_mode. rewrite (kept_types m m' Hsb), !(kept_field m m' Hsb) by fld.
  by rewrite !(fget_on _ m m') by (try done; intros x Hx; apply Hc; cbn in Hx; lia).
Qed.

Section one.
Context (ib : Z) (E : list ext4_extent) (P : list Z) (L : list (list dent)) (F U : gset Z) (r : ext4_inode_ref).
Context (cindex child name : Z) (nl : nat) (nm : list Z).
#[local] Notation ino := (ir_inode r).
#[local] Notation h := (ext_inode_hdr ino).
#[local] Notation n := (Z.of_nat (length P)).
Hypothesis (Hdev : dev_open = true) (Hci : 0 < cindex < 2 ^ 32) (Hnl : 0 < Z.of_nat nl < 256).
Hypothesis (HE : runs 0 n E) (Hn : n + 1 < EXT_MAX_BLOCKS) (Hpos : P <> []) (Hfit : (n + 1) * dev_bsize < 2 ^ 32).
Hypothesis (Hfree : forall a, a ∈ F -> 0 < a < dev_blocks) (Hown : forall p, p ∈ P -> p ∈ U).

(** The state before: a directory with its extents in the inode, a block behind it that
    can be allocated, and a name and a child that lie elsewhere. *)
Record ready (m : memory) : Prop := {
  rd_dir : directory m (ir_index r) ino E [] P L;
  rd_repr : repr ib ino m F U;
  rd_room : Z.of_nat (length E) < nmax m h;
  rd_goal : goal_legal m (ir_index r) E n (F, U);
  rd_name : bytes_of m name nl = nm;
  rd_name_clear : clear_of m ino (F ∪ U) name (Z.of_nat nl);
  rd_child_clear : clear_of m ino (F ∪ U) child 128;
}.

(** The blocks of the file are written, the last one too. *)
Lemma blocks_written m : directory m (ir_index r) ino E [] P L -> ends_written E n.
Proof.
  intros D e He Hend. pose proof (di_file _ _ _ _ _ _ _ D) as [T _ _ Hmap _]. destruct (runs_in _ _ _ _ HE He) as (_ & Hlen & _).
  assert (0 < length P)%nat as Hne by (destruct P; [done|cbn; lia]).
  destruct (lookup_lt_is_Some_2 P (length P - 1)) as [p Hp]; [lia|]. specialize (Hmap _ _ Hp).
  apply list_elem_of_lookup in He as [i Hi]. assert (lookup_extent E (Z.of_nat (length P - 1)) = Some e) as El.
  { rewrite (lookup_extent_at E 0 n i e); [|done|done| |lia]; [unfold covers; case_if; [done|]; destruct_or! E0; zb; lia|].
    intros j e' Hij Hj. pose proof (runs_sorted E 0 n i j e e' HE Hij Hi Hj). lia. }
  unfold phys in Hmap. rewrite El in Hmap. by injection Hmap.
Qed.

(** ** The new block *)

Lemma runf_noread a s (Q : Z * ext4_block -> ext4_inode_ref -> ext4_fs -> Prop) :
  (forall rc b s', failed rc -> quiet s s' -> held s' = held s -> Q (rc, b) (dirty_inode r) s') ->
  (forall s', (forall x, ~ in_block a x -> mem s' x = mem s x) -> dirty s' = dirty s -> held s' = a :: held s ->
     last_inode_bg_id s' = last_inode_bg_id s -> Q (EOK, Blk a (Some a)) (dirty_inode r) s') ->
  runf (take_block false a) (dirty_inode r) s Q.
Proof.
  intros Hf Ho. apply runf_up.
  destruct (run_get_noread a s (fun rc s' => dirty s' = dirty s /\ last_inode_bg_id s' = last_inode_bg_id s /\
    ((rc = EOK /\ held s' = a :: held s /\ forall x, ~ in_block a x -> mem s' x = mem s x) \/
     (device_error rc /\ held s' = held s /\ mem s' = mem s)))) as (rc & s' & Er & Hd & Hl & Hc).
  - intros rc s' ? E1 E2 E3 E4. split_and!; try done. by right.
  - intros s' _ E1 E2 E3 E4. split_and!; try done. left. split_and!; try done. intros x Hx. apply E1. unfold in_block in Hx. lia.
  - unfold run, get_into. rewrite Er. destruct Hc as [(-> & Hh & Hm)|(Hr & Hh & Hm)].
    + eexists _, s'. split; [done|]. by apply Ho.
    + eexists _, s'. split; [done|]. rewrite (proj2 (Z.eqb_neq rc EOK)) by apply Hr. apply Hf; [by left|done|done].
Qed.

Lemma runf_fill a s l (Q : unit -> ext4_inode_ref -> ext4_fs -> Prop) : held s = a :: l ->
  ext4_sb_get_block_size (mem s) sb = dev_bsize -> 1024 <= dev_bsize < 2 ^ 16 -> dev_bsize mod 4 = 0 ->
  Ext4Dir.apart sb 1024 (buf a) dev_bsize -> Ext4Dir.apart ino 128 (buf a) dev_bsize -> Ext4Dir.apart child 128 (buf a) dev_bsize ->
  Ext4Dir.apart name (Z.of_nat nl) (buf a) dev_bsize -> (has_csum (mem s) sb = true -> has_types (mem s) sb = true) -> bytes_of (mem s) name nl = nm ->
  (forall m' l', (forall x, ~ in_block a x -> m' x = mem s x) -> dir_block m' sb (buf a) l' ->
     ext4_dir_csum_verify m' sb (ir_index r) ino (buf a) = true -> entries l' = [(nm, (cindex, new_type (mem s) sb child))] ->
     Q tt (dirty_inode r) (set_unsaved (set_dirty (set_mem s m') ({[ a ]} ∪ dirty s)) ({[ a ]} ∪ unsaved s))) ->
  runf (fill_block (Blk a (Some a)) cindex child name (Z.of_nat nl)) (dirty_inode r) s Q.
Proof.
  intros Hh Eb Hbs Hmod A1 A2 A3 A4 Hty Hc HQ.
  destruct (fresh_block (mem s) sb (buf a) (ir_index r) ino cindex child name nl) as (m1 & l' & Hw & He & Hx & Hb & Hv); rewrite ?Eb; try done; [lia|].
  rewrite Eb in Hw, Hx. rewrite Hc in He. unfold fill_block. fsteps. cbn [block_data b_buf]. rewrite Eb. fold (has_csum (mem s) sb).
  assert (forall m0, m1 = m0 -> runf (set_csum (Blk a (Some a))) (dirty_inode r) (set_mem s m0) (fun _ r s => runf (mark (Blk a (Some a))) r s Q)) as Hend.
  { intros m0 <-. unfold set_csum. fsteps. cbn [block_data b_buf mem set_mem ir_inode ir_index dirty_inode]. unfold mark. cbn [b_buf]. apply runf_up, run_dirty.
    - cbn. rewrite Hh. by left.
    - apply (HQ _ l'); try done. intros x Hx'. apply Hx. unfold in_block in Hx'. lia. }
  destruct (has_csum (mem s) sb); [destruct Hw as (m' & Ew & Em1)|]; unfold write_entry; fsteps; (eapply runf_need; [eassumption|]); fsteps; by apply Hend.
Qed.

(** ** The directory with the new block *)

(** The block [a] is there, at the end of the file. *)
Record grown (m m1 : memory) (a : Z) (E' : list ext4_extent) : Prop := {
  gr_free : a ∈ F;
  gr_repr : repr ib ino m1 (F ∖ {[ a ]}) ({[ a ]} ∪ U);
  gr_tree : inode_tree m1 ino E' [];
  gr_adds : phys_adds E E' n a;
  gr_size : ext4_inode_get_size m1 sb ino = ext4_inode_get_size m sb ino + dev_bsize;
  gr_ino x : ino_data ino x -> ~ (h <= x < h + 60) -> ~ ino_size ino x -> ld8 m1 x = ld8 m x;
  gr_else x : elsewhere m ino x -> ld8 m1 x = ld8 m x;
  gr_flags : flags_but_huge m m1 ino;
  gr_keeps : keeps m m1;
}.

Section grown.
Context (m m1 : memory) (a : Z) (E' : list ext4_extent).
Hypothesis (Rd : ready m) (G : grown m m1 a E').

Lemma grown_file : file_blocks m1 ino E' [] (P ++ [a]).
Proof.
  destruct (di_file _ _ _ _ _ _ _ (rd_dir _ Rd)) as [F1 F2 F3 F4 F5]. constructor.
  - apply G.
  - revert F2. unfold uses_extents, ext4_sb_feature_incom. rewrite !(kept_field m m1 (proj1 (gr_keeps _ _ _ _ G))), (gr_flags _ _ _ _ G) by fld || done. done.
  - rewrite length_app, (gr_size _ _ _ _ G), F3. cbn. lia.
  - intros i p Hi. rewrite (gr_adds _ _ _ _ G). destruct (decide (i < length P)%nat) as [Hl|Hl].
    + rewrite lookup_app_l in Hi by done. rewrite (proj2 (Z.eqb_neq _ _)) by lia. by apply F4.
    + rewrite lookup_app_r in Hi by lia. destruct (i - length P)%nat eqn:Ei; [|done]. injection Hi as ->.
      by rewrite (proj2 (Z.eqb_eq _ _)) by lia.
  - rewrite length_app. cbn. unfold EXT_MAX_BLOCKS in Hn. lia.
Qed.

Lemma grown_block b x : b ∈ F \/ b ∈ U -> in_block b x -> ld8 m1 x = ld8 m x.
Proof. intros Hb Hx. apply (gr_else _ _ _ _ G). by apply (owned_elsewhere ib ino m F U b x (rd_repr _ Rd)). Qed.

(** A block of the file system, free or owned, is apart from the rest. *)
Lemma block_apart b : b ∈ F \/ b ∈ U -> Ext4Dir.apart ino 128 (buf b) dev_bsize /\ Ext4Dir.apart sb 1024 (buf b) dev_bsize.
Proof.
  intros Hb. pose proof (rd_repr _ Rd) as R. destruct (r_data _ _ _ _ _ R b Hb) as (H1 & _ & H2 & _).
  pose proof (bsize_cases m (r_ok _ _ _ _ _ R)) as [_ Hbs]. destruct (r_inode _ _ _ _ _ R) as (_ & I1 & I2 & _).
  assert (0 < dev_bsize) as Hp by lia. assert (b <> ib) as Hne by lia. pose proof (buf_apart b ib Hp Hne). pose proof (buf_above b Hp H1).
  pose proof (di_below _ _ _ _ _ _ _ (rd_dir _ Rd)). unfold Ext4Dir.apart. lia.
Qed.

Lemma new_outside : a ∉ P.
Proof. intros Hp. by apply (repr_disjoint _ _ _ _ _ _ (rd_repr _ Rd) (gr_free _ _ _ _ G)), Hown. Qed.

Context (m2 : memory) (l' : list dent).
Hypothesis (Hx : forall x, ~ in_block a x -> m2 x = m1 x) (Hb : dir_block m2 sb (buf a) l').
Hypothesis (Hv : ext4_dir_csum_verify m2 sb (ir_index r) ino (buf a) = true).

Lemma filled_sb x : sb <= x < sb + 1024 -> m2 x = m1 x.
Proof. intros Hs. apply Hx. destruct (block_apart a (or_introl (gr_free _ _ _ _ G))) as [_ Hap]. unfold Ext4Dir.apart, in_block in *. lia. Qed.

Lemma filled_ino x : ino <= x < ino + 128 -> ld8 m2 x = ld8 m1 x.
Proof. intros Hi. unfold ld8. f_equal. apply Hx. destruct (block_apart a (or_introl (gr_free _ _ _ _ G))) as [Hap _]. unfold Ext4Dir.apart, in_block in *. lia. Qed.

Lemma filled_kept x : sb <= x < sb + 1024 -> ~ sb_counter x -> ld8 m2 x = ld8 m x.
Proof. intros Hs Hc. rewrite <- (proj1 (gr_keeps _ _ _ _ G) x Hs Hc). unfold ld8. by rewrite filled_sb. Qed.

Lemma filled_old p x : p ∈ P -> in_block p x -> ld8 m2 x = ld8 m x.
Proof.
  intros Hp Hin. rewrite <- (grown_block p) by (try done; right; by apply Hown). unfold ld8. f_equal. apply Hx.
  assert (a <> p) as Hne by (intros Eq; apply new_outside; by rewrite Eq). pose proof (di_small _ _ _ _ _ _ _ (rd_dir _ Rd)).
  assert (0 < dev_bsize) as H0' by lia. pose proof (buf_apart a p H0' Hne). unfold in_block in *. lia.
Qed.

Lemma filled_file : file_blocks m2 ino E' [] (P ++ [a]).
Proof.
  destruct grown_file as [F1 F2 F3 F4 F5]. assert (forall x, sb <= x < sb + 1024 -> ~ sb_counter x -> ld8 m2 x = ld8 m1 x) as Hs.
  { intros x Hs _. unfold ld8. by rewrite filled_sb. }
  constructor; try done.
  - apply (inode_tree_on m1); [done|apply filled_ino|]. by intros b x ?%elem_of_nil.
  - rewrite (proj1 (flags_kept m1 m2 ino Hs ltac:(intros x Hi; apply filled_ino; lia))). done.
  - rewrite (size_kept m1 m2 ino Hs filled_ino). done.
Qed.

Lemma filled_directory : entries l' = [(nm, (cindex, new_type m sb child))] -> dir_map (concat L) !! nm = None ->
  directory m2 (ir_index r) ino E' [] (P ++ [a]) (L ++ [l']) /\
  dir_map (concat (L ++ [l'])) = <[nm := (cindex, new_type m sb child)]> (dir_map (concat L)).
Proof.
  intros He Hnew. destruct (rd_dir _ Rd) as [_ D2 D3 D4 D5 D6 D7 D8 D9 D10].
  destruct (map_insert (concat L) (concat (L ++ [l'])) nm (cindex, new_type m sb child)) as [Hu Hm]; [done|done| |].
  { rewrite concat_app. cbn [concat]. rewrite app_nil_r, entries_app, He. solve_Permutation. }
  split; [|done]. constructor; try done.
  - apply filled_file.
  - revert D2. unfold indexed, ext4_sb_feature_com. rewrite !(kept_field m m2 filled_kept) by fld.
    unfold ext4_inode_has_flag at 2, ext4_inode_get_flags. rewrite (fget_on _ m1 m2) by (try done; intros x Hi; cbn in Hi; apply filled_ino; lia).
    fold (ext4_inode_get_flags m1 ino). fold (ext4_inode_has_flag m1 ino EXT4_INODE_FLAG_INDEX). by rewrite (gr_flags _ _ _ _ G).
  - by rewrite (kept_block_size m m2 filled_kept).
  - apply Forall2_app; [|by constructor]. eapply Forall2_in; [|exact D6]. intros p l Hin Hl.
    apply (dir_block_on m m2 filled_kept); [done|lia| |done]. intros x Hin'. by apply (filled_old p).
  - intros p [Hp|Eq%list_elem_of_singleton]%elem_of_app; [|by rewrite Eq]. rewrite (csum_verify_on m m2 filled_kept); [by apply D7|done|lia| |].
    + intros x Hin'. by apply (filled_old p).
    + intros x Hi. rewrite filled_ino by lia. apply (gr_ino _ _ _ _ G); unfold ino_data, ino_count, ino_size, ext_inode_hdr; change (f_off ino_blocks) with 40; lia.
  - intros p [Hp|Eq%list_elem_of_singleton]%elem_of_app; [by apply D8|]. rewrite Eq. split; [apply Hfree, G|]. split; [apply not_elem_of_nil|].
    apply block_apart. left. apply G.
  - apply NoDup_app. split; [done|]. split; [|apply NoDup_singleton]. intros p Hp Eq%list_elem_of_singleton. apply new_outside. by rewrite <- Eq.
Qed.
End grown.

(** ** Memory that reads the same *)

Lemma elsewhere_keeps m m' x : fs_ok m -> keeps m m' -> elsewhere m ino x -> elsewhere m' ino x.
Proof.
  intros Hok Hk (H1 & H2 & H3). split; [done|]. split; [done|]. intros g Hg. rewrite (kept_groups m m' (proj1 Hk)) in Hg.
  rewrite (kept_desc_block m m' (proj1 Hk)), (kept_bitmap m m' Hk (ok_desc_size m Hok)) by done. by apply H3.
Qed.

Lemma ready_same m m' : (forall x, m' x = m x) -> ready m -> ready m'.
Proof.
  intros Hx [D R Hr Hg Hm Hc1 Hc2]. assert (same m m') as Hs by (intros x; unfold ld8; by rewrite Hx).
  pose proof (same_keeps m m' Hs) as Hk. pose proof (r_ok _ _ _ _ _ R) as Hok. constructor.
  - apply (directory_tails m); [done|]. by intros x _.
  - by eapply repr_same.
  - rewrite (same_nmax m); [done|]. intros x _. apply Hs.
  - destruct Hg as [G1 G2]. split; [|intros; by eapply legal_keeps; [exact Hk|eapply G2]].
    unfold goal_inode. rewrite (kept_field m m' (proj1 Hk)) by fld. intros HE0. by apply (legal_keeps m); [|apply G1].
  - rewrite <- Hm. apply bytes_of_on. intros x _. apply Hs.
  - intros x Hin. destruct (Hc1 x Hin). split; [by apply (elsewhere_keeps m)|done].
  - intros x Hin. destruct (Hc2 x Hin). split; [by apply (elsewhere_keeps m)|done].
Qed.

Lemma block_contents m m' F1 U1 b : repr ib ino m F1 U1 -> b ∈ F1 \/ b ∈ U1 -> (forall x, ~ in_block b x -> m' x = m x) ->
  repr ib ino m' F1 U1 /\ forall I Dirs, irepr m I Dirs -> irepr m' I Dirs.
Proof.
  intros R Hb Hx. pose proof (r_data _ _ _ _ _ R b Hb) as Hd.
  assert (forall x, x < buf b \/ buf (b + 1) <= x -> ld8 m' x = ld8 m x) as Hon.
  { intros x Hx'. unfold ld8. f_equal. apply Hx. unfold in_block, buf in *. lia. }
  split; [by apply (repr_contents ib ino b 1 m)|]. intros I Dirs. by apply (contents_irepr ib ino m m' F1 U1 b 1).
Qed.

(** ** How the call ends *)

(** The blocks of the file system that the directory has at the end: the same, or a
    free one in addition. *)
Definition takes (P' : list Z) (F' U' : gset Z) : Prop :=
  (P' = P /\ F' = F /\ U' = U) \/ exists a, a ∈ F /\ P' = P ++ [a] /\ F' = F ∖ {[ a ]} /\ U' = {[ a ]} ∪ U.

Definition entry_added (s : ext4_fs) (rc : Z) (r' : ext4_inode_ref) (s' : ext4_fs) : Prop :=
  ir_inode r' = ino /\ held s' = held s /\ last_inode_bg_id s' = last_inode_bg_id s /\
  (forall I Dirs, irepr (mem s) I Dirs -> irepr (mem s') I Dirs) /\
  (forall x, elsewhere (mem s) ino x -> (forall b, b ∈ F ∪ U -> ~ in_block b x) -> ld8 (mem s') x = ld8 (mem s) x) /\
  exists F' U' E' P', takes P' F' U' /\ repr ib ino (mem s') F' U' /\ file_blocks (mem s') ino E' [] P' /\
  if rc =? EOK then exists L', directory (mem s') (ir_index r) ino E' [] P' L' /\
    dir_map (concat L') = <[nm := (cindex, new_type (mem s) sb child)]> (dir_map (concat L))
  else (failed rc \/ (rc = ENOSPC /\ F = ∅)) /\ Forall2 (fun p l => dir_block (mem s') sb (buf p) l) P L /\
    (P' = P -> directory (mem s') (ir_index r) ino E' [] P' L).

(** Nothing has happened. *)
Lemma not_added s rc s' : rc <> EOK -> failed rc \/ (rc = ENOSPC /\ F = ∅) -> ready (mem s) -> same (mem s) (mem s') ->
  held s' = held s -> last_inode_bg_id s' = last_inode_bg_id s -> entry_added s rc r s'.
Proof.
  intros Hrc Hf Rd Hs Hh Hl. assert (directory (mem s') (ir_index r) ino E [] P L) as D.
  { apply (directory_on (mem s)); try (by intros; apply Hs); [|apply Rd]. apply (inode_tree_on (mem s)); try (by intros; apply Hs). apply Rd. }
  split; [done|]. split; [done|]. split; [done|].
  split; [intros I Dirs Ri; by eapply irepr_same|]. split; [intros x _ _; apply Hs|].
  exists F, U, E, P. split; [by left|]. split; [eapply repr_same; [apply (rd_repr _ Rd)|done]|]. split; [apply (di_file _ _ _ _ _ _ _ D)|].
  rewrite (proj2 (Z.eqb_neq rc EOK)) by done. split_and!; [done|apply (di_blocks _ _ _ _ _ _ _ D)|done].
Qed.

Lemma blocks_of_size m : directory m (ir_index r) ino E [] P L -> (ext4_inode_get_size m sb ino + dev_bsize - 1) / dev_bsize = n.
Proof.
  intros D. rewrite (fb_size _ _ _ _ _ (di_file _ _ _ _ _ _ _ D)). pose proof (di_small _ _ _ _ _ _ _ D).
  replace (n * dev_bsize + dev_bsize - 1) with (dev_bsize - 1 + n * dev_bsize) by lia. rewrite Z.div_add by lia. rewrite Z.div_small by lia. lia.
Qed.

Lemma runf_grow s (Q : Z * Z * Z -> ext4_inode_ref -> ext4_fs -> Prop) : ready (mem s) ->
  (forall rc s', rc <> EOK -> failed rc \/ (rc = ENOSPC /\ F = ∅) -> same (mem s) (mem s') -> held s' = held s ->
     last_inode_bg_id s' = last_inode_bg_id s -> Q (rc, 0, n) r s') ->
  (forall a E' s', grown (mem s) (mem s') a E' -> preserves ib (F ∪ U) s s' -> Q (EOK, a, n) (dirty_inode r) s') ->
  runf ext4_fs_append_inode_dblk r s Q.
Proof.
  intros Rd Hf Ho. pose proof (rd_dir _ Rd) as D. pose proof (blocks_of_size _ D) as En. pose proof (di_small _ _ _ _ _ _ _ D) as Hbs.
  pose proof (rd_repr _ Rd) as R. pose proof (di_file _ _ _ _ _ _ _ D) as [T Hext Hsz _ _].
  assert (extent_file (mem s) ino) as Hfile by (constructor; [right; rewrite Hsz; lia|done]).
  assert (0 ∉ F) as Hz by (intros H0'; destruct (Hfree 0 H0'); lia). pose proof (blocks_written _ D) as Hw.
  assert (n < EXT_MAX_BLOCKS) as Hn' by lia.
  pose proof (runf_append ib E F U r s R T Hfile) as HA. unfold appended in HA. rewrite En in HA.
  eapply runf_mono; [exact (HA HE (rd_room _ Rd) Hn' Hw (rd_goal _ Rd) Hz)|].
  intros [[rc a] iblock] r1 s1 (Pr & -> & HC). destruct (rc =? EOK) eqn:Erc; zb.
  - subst rc. destruct HC as (E' & Ha & R1 & T1 & HE1 & Hl1 & Hph & -> & Hz1 & _ & Hd & He & Hfl). apply (Ho a E'); [|done].
    constructor; try done. apply Pr.
  - destruct HC as (Hrc & -> & -> & Hs). apply Hf; try done; [|apply Pr..]. by destruct Hrc as [?|[?|?]]; [left; left|left; right|right].
Qed.

Lemma ready_types m : ready m -> has_csum m sb = true -> has_types m sb = true.
Proof.
  intros Rd Hc. pose proof (di_blocks _ _ _ _ _ _ _ (rd_dir _ Rd)) as Hb. destruct P as [|p P0]; [done|]. destruct L as [|l L0]; [by inversion Hb|].
  apply Forall2_cons in Hb as [[_ Ht] _]. by destruct (Ht Hc).
Qed.

Section filling.
Context (s s1 : ext4_fs) (a : Z) (E' : list ext4_extent).
Hypothesis (Rd : ready (mem s)) (G : grown (mem s) (mem s1) a E') (Pr : preserves ib (F ∪ U) s s1).

(** The block is there and cannot be got. *)
Lemma left_behind rc s2 : failed rc -> quiet s1 s2 -> held s2 = held s1 -> entry_added s rc (dirty_inode r) s2.
Proof.
  intros Hf (Q1 & Q2 & Q3) Hh. pose proof (rd_dir _ Rd) as D. split; [done|]. split; [rewrite Hh; apply Pr|]. split; [rewrite Q3; apply Pr|]. rewrite Q1.
  split; [apply Pr|]. split; [intros x Hx _; by apply (gr_else _ _ _ _ G)|]. exists (F ∖ {[ a ]}), ({[ a ]} ∪ U), E', (P ++ [a]).
  split; [right; exists a; split; [apply G|done]|]. split; [apply G|]. split; [by eapply grown_file|].
  rewrite (proj2 (Z.eqb_neq _ _)) by (by apply failed_neq).
  split; [by left|]. split; [|intros Eq; exfalso; apply (f_equal length) in Eq; rewrite length_app in Eq; cbn in Eq; lia].
  eapply Forall2_in; [|apply (di_blocks _ _ _ _ _ _ _ D)]. intros p l Hp Hl. pose proof (di_small _ _ _ _ _ _ _ D).
  apply (dir_block_on (mem s) (mem s1)); [apply Pr|apply D|lia| |done]. intros x Hx. apply (grown_block _ _ _ _ Rd G p); [right; by apply Hown|done].
Qed.

Lemma filled_added s2 l' : (forall x, ~ in_block a x -> mem s2 x = mem s1 x) -> dir_block (mem s2) sb (buf a) l' ->
  ext4_dir_csum_verify (mem s2) sb (ir_index r) ino (buf a) = true -> entries l' = [(nm, (cindex, new_type (mem s) sb child))] ->
  dir_map (concat L) !! nm = None -> held s2 = held s -> last_inode_bg_id s2 = last_inode_bg_id s1 ->
  entry_added s EOK (dirty_inode r) s2.
Proof.
  intros Hx Hb Hv He Hnew Hh Hl.
  destruct (block_contents (mem s1) (mem s2) (F ∖ {[ a ]}) ({[ a ]} ∪ U) a) as [R2 I2]; [apply G|right; set_solver|done|].
  destruct (filled_directory (mem s) (mem s1) a E' Rd G (mem s2) l' Hx Hb Hv He Hnew) as [D2 Hm].
  split; [done|]. split; [done|]. split; [rewrite Hl; apply Pr|]. split; [intros I Dirs Ri; by apply I2, Pr|]. split.
  { intros x He' Hno. rewrite <- (gr_else _ _ _ _ G x He'). unfold ld8. f_equal. apply Hx, Hno. apply elem_of_union. left. apply G. }
  exists (F ∖ {[ a ]}), ({[ a ]} ∪ U), E', (P ++ [a]). split; [right; exists a; split; [apply G|done]|]. split; [done|].
  split; [apply (di_file _ _ _ _ _ _ _ D2)|]. rewrite (Z.eqb_refl EOK). by exists (L ++ [l']).
Qed.
End filling.

Lemma runf_add_block s : ready (mem s) -> dir_map (concat L) !! nm = None ->
  runf (add_block cindex child name (Z.of_nat nl)) r s (entry_added s).
Proof.
  intros Rd Hnew. pose proof (rd_dir _ Rd) as D. pose proof (di_small _ _ _ _ _ _ _ D) as Hbs. pose proof (rd_repr _ Rd) as R.
  pose proof (bsize_cases _ (r_ok _ _ _ _ _ R)) as [Hcases _]. unfold add_block. fstep. apply runf_grow; [done| |].
  { intros rc s1 Hrc Hf Hs Hh Hl. rewrite (proj2 (Z.eqb_neq _ _)) by done. cbn [negb]. fstep. by apply not_added. }
  intros a E' s1 G Pr. rewrite (Z.eqb_refl EOK). cbn [negb]. fstep. apply runf_noread.
  { intros rc b s2 Hf Hq Hh. rewrite (proj2 (Z.eqb_neq _ _)) by (by apply failed_neq). cbn [negb]. fstep. by eapply left_behind. }
  intros s2 Hx2 Hd2 Hh2 Hl2. rewrite (Z.eqb_refl EOK). cbn [negb]. fstep. assert (a ∈ F ∪ U) as Hin by (apply elem_of_union; left; apply G).
  assert (a ∈ F \/ a ∈ U) as Hin' by (by apply elem_of_union). destruct (block_apart _ Rd a Hin') as [Ai As]. assert (0 < dev_bsize) as H0' by lia.
  assert (0 < 128) as H128 by lia.
  pose proof (clear_apart _ _ _ _ _ a (rd_name_clear _ Rd) (proj1 Hnl) H0' Hin) as An. pose proof (clear_apart _ _ _ _ _ a (rd_child_clear _ Rd) H128 H0' Hin) as Ac.
  pose proof (filled_kept _ _ _ _ Rd G (mem s2) Hx2) as Hk.
  assert (forall x, elsewhere (mem s) ino x -> ~ in_block a x -> ld8 (mem s2) x = ld8 (mem s) x) as He.
  { intros x He Hno. rewrite <- (gr_else _ _ _ _ G x He). unfold ld8. by rewrite Hx2. }
  apply (runf_fill a s2 (held s1)); try done.
  - rewrite (kept_block_size _ _ Hk). apply D.
  - rewrite Hcases. replace (1024 * 2 ^ _) with (256 * 2 ^ fget sb_log_block_size (mem s) sb * 4) by lia. apply Z.mod_mul. lia.
  - unfold has_csum. rewrite (kept_ro_com _ _ Hk), (kept_types _ _ Hk). by apply ready_types.
  - rewrite <- (rd_name _ Rd). apply bytes_of_on. intros x Hx. destruct (rd_name_clear _ Rd x Hx) as [He1 He2]. apply He; [done|by apply He2].
  - intros m' l' Hx' Hb Hv Hent. fstep. assert (0 < a < dev_blocks) as Ha by (apply Hfree, G). apply (runf_put (dirty_inode r) a _ (held s1)); [done|lia|done|]. fstep.
    assert (new_type (mem s2) sb child = new_type (mem s) sb child) as Et.
    { apply new_type_on; [done|]. intros x Hx. destruct (rd_child_clear _ Rd x Hx) as [He1 He2]. apply He; [done|by apply He2]. }
    rewrite Et in Hent. apply (filled_added s s1 a E' Rd G Pr _ l'); try done; [|apply Pr]. intros x Hx. rewrite Hx' by done. by apply Hx2.
Qed.

(** ** The whole call *)

Lemma added_in_room s m1 i p s' : ready (mem s) -> (forall x, m1 x = mem s x) ->
  added r E [] P L nm cindex child m1 i p (mem s') -> held s' = held s -> last_inode_bg_id s' = last_inode_bg_id s -> entry_added s EOK r s'.
Proof.
  intros Rd Hm1 (l' & Hp & Hx & D & Hmap) Hh Hl.
  assert (p ∈ U) as Hp' by (apply Hown; by eapply list_elem_of_lookup_2).
  assert (forall x, ~ in_block p x -> mem s' x = mem s x) as Hx' by (intros x Hn'; by rewrite Hx).
  destruct (block_contents (mem s) (mem s') F U p) as [R2 I2]; [apply Rd|by right|done|].
  split; [done|]. split; [done|]. split; [done|]. split; [done|]. split.
  { intros x _ Hno. unfold ld8. f_equal. apply Hx', Hno. apply elem_of_union. by right. }
  exists F, U, E, P. split; [by left|]. split; [done|]. split; [apply (di_file _ _ _ _ _ _ _ D)|]. rewrite (Z.eqb_refl EOK).
  exists (<[i := l']> L). split; [done|]. rewrite Hmap. do 2 f_equal. apply new_type_ext; intros x _; apply Hm1.
Qed.

Lemma entry_added_weaken s s1 rc r' s' : ready (mem s) -> (forall x, mem s1 x = mem s x) -> held s1 = held s ->
  last_inode_bg_id s1 = last_inode_bg_id s -> entry_added s1 rc r' s' -> entry_added s rc r' s'.
Proof.
  intros Rd Hx Hh Hl (A1 & A2 & A3 & A4 & A5 & A6). assert (same (mem s) (mem s1)) as Hs by (intros x; unfold ld8; by rewrite Hx).
  split; [done|]. split; [congruence|]. split; [congruence|]. split; [intros I Dirs Ri; by eapply A4, irepr_same|]. split.
  { intros x He Hno. rewrite A5; [apply Hs| |done]. apply (elsewhere_keeps (mem s)); [apply (r_ok _ _ _ _ _ (rd_repr _ Rd))|by apply same_keeps|done]. }
  assert (new_type (mem s1) sb child = new_type (mem s) sb child) as Et by (apply new_type_ext; intros x _; apply Hx).
  rewrite Et in A6. done.
Qed.

Lemma runf_add_entry s : ready (mem s) -> dir_map (concat L) !! nm = None ->
  runf (ext4_dir_add_entry name (Z.of_nat nl) cindex child) r s (entry_added s).
Proof.
  intros Rd Hnew. pose proof (rd_dir _ Rd) as D. pose proof (di_small _ _ _ _ _ _ _ D) as Hbs. unfold ext4_dir_add_entry. fsteps.
  rewrite (di_plain _ _ _ _ _ _ _ D). fsteps. unfold total_blocks.
  rewrite (fb_size _ _ _ _ _ (di_file _ _ _ _ _ _ _ D)), (di_bsize _ _ _ _ _ _ _ D), Z.div_mul by lia.
  pose proof (fb_count _ _ _ _ _ (di_file _ _ _ _ _ _ _ D)) as Hcnt. rewrite uw_small, Nat2Z.id by lia. assert (0 < dev_bsize) as H0' by lia.
  assert (0 < 128) as H128 by lia. assert (forall b, b ∈ P -> b ∈ F ∪ U) as HP by (intros b Hb; apply elem_of_union; right; by apply Hown).
  eapply runf_mono; [apply (runf_add_loop r E [] P L (conj Hdev (or_introl eq_refl)) name nl nm) with (k := O); try done; try apply Rd|].
  - by intros b ?%elem_of_nil.
  - lia.
  - intros b Hb. eapply clear_apart; [apply Rd|lia|done|by apply HP].
  - intros b [Hb%elem_of_nil|Hb]; [done|]. eapply clear_apart; [apply Rd|lia|done|by apply HP].
  - intros out r' s1 (-> & A1 & A2 & A3). destruct A3 as [(m1 & i & p & -> & T1 & A & _)|(Ho & T1 & A)].
    + fstep. apply (added_in_room s m1 i p); try done. intros x. apply T1. by intros b ?%elem_of_nil.
    + assert (forall x, mem s1 x = mem s x) as Hx by (intros x; apply T1; by intros b ?%elem_of_nil). destruct out as [rc|].
      * fstep. apply not_added; try done; [by apply failed_neq|by left|]. intros x. unfold ld8. by rewrite Hx.
      * eapply runf_mono; [apply runf_add_block; [by apply (ready_same (mem s))|done]|]. intros rc r' s'. by apply entry_added_weaken.
Qed.

(** C6. Adding a name that a directory without an index does not have, on an open
    device: the extents of the directory are in its inode with room for one more, the
    goal for a new block lies in the file system, name and child lie outside the blocks
    of the file system ([ready]).  On success the directory maps the name to the inode
    number and type of the child and every other name as before; the entry went into one
    of its blocks or into a block that was free and is now the last of the directory.
    An error of the device or of memory, or a full file system, leaves the blocks the
    directory had, and so their names, as they were; if a block had been appended
    already, it stays at the end of the file with contents that nothing has
    initialised.  In all cases the bitmaps and counters represent the blocks again. *)
Theorem directory_add s : ready (mem s) -> dir_map (concat L) !! nm = None ->
  runf (ext4_dir_add_entry name (Z.of_nat nl) cindex child) r s (entry_added s).
Proof. apply runf_add_entry. Qed.
End one.
End add.

(** ** The sample *)

#[local] Existing Instance sample_device.

Lemma laid_other a l m x : x < a \/ a + Z.of_nat (length l) <= x -> laid a l m x = m x.
Proof. intros Hx. unfold laid. case_if; [lia|done]. Qed.

(** Laying bytes into a data block matters to no bitmap. *)
Lemma laid_repr m F U b l : repr 5 sample_inode m F U -> keeps sample_fs m -> 9 <= b -> Z.of_nat (length l) <= 1024 ->
  repr 5 sample_inode (laid (buf b) l m) F U /\ keeps sample_fs (laid (buf b) l m).
Proof.
  intros R Hk Hb Hl. assert (data_blocks m 5 b 1) as Hd.
  { destruct (sample_data b Hb) as (D1 & D2 & D3 & D4). split_and!; [done|done|done|]. intros g Hg. rewrite (kept_groups _ _ (proj1 Hk)) in Hg.
    pose proof (ok_desc_size _ sample_ok) as Hds.
    rewrite (kept_desc_block _ _ (proj1 Hk)), (kept_bitmap _ _ Hk Hds), (kept_ibitmap _ _ Hk Hds) by done. by apply D4. }
  assert (forall x, x < buf b \/ buf (b + 1) <= x -> ld8 (laid (buf b) l m) x = ld8 m x) as Hon.
  { intros x Hx. unfold ld8. rewrite laid_other; [done|]. unfold buf in *. change dev_bsize with 1024 in *. lia. }
  split; [by apply (repr_contents 5 sample_inode b 1 m)|]. eapply geometry_trans; [exact Hk|]. by apply (contents_keeps 5 sample_inode b 1 m _ F U).
Qed.

Lemma sample_dir_repr : repr 5 sample_inode sample_dir sample_free sample_owned /\ keeps sample_fs sample_dir.
Proof.
  assert (forall x, ~ ino_data sample_inode x -> ld8 (fset ino_mode sample_fs sample_inode 0x41ED) x = ld8 sample_fs x) as Hon.
  { intros x Hx. unfold ino_data, ino_count in Hx. by rewrite ld8_fset by (cbn; lia). }
  pose proof (repr_data 5 sample_inode _ _ _ _ sample_repr Hon) as R0. pose proof (data_keeps 5 sample_inode _ _ _ _ sample_repr Hon) as K0.
  destruct (laid_repr _ _ _ 11 ([2; 0; 0; 0; 12; 0; 1; 2; 46; 0; 0; 0; 2; 0; 0; 0; 0xF4; 3; 2; 2; 46; 46] ++ repeat 0 1002) R0 K0) as [R1 K1]; [done|by vm_compute|].
  destruct (laid_repr _ _ _ 12 ([12; 0; 0; 0; 0; 4; 5; 1; 104; 101; 108; 108; 111] ++ repeat 0 1011) R1 K1) as [R2 K2]; [done|by vm_compute|].
  apply (laid_repr _ _ _ 40 [104; 101; 108; 108; 111; 119; 111; 114; 108; 100] R2 K2); [done|by vm_compute].
Qed.

(** Memory after the inode and before the blocks of the data, or far behind them. *)
Lemma sample_clear a n : (forall x, a <= x < a + n -> sample_inode + 128 <= x < buf 11 \/ buf 29 <= x) ->
  clear_of sample_dir sample_inode (sample_free ∪ sample_owned) a n.
Proof.
  intros Hx x Hin. specialize (Hx x Hin). assert (groups sample_dir = 1 /\ desc_block sample_dir 0 = 2 /\ bitmap sample_dir 0 = 3) as (V1 & V2 & V3)
    by (vm_compute; tauto). unfold elsewhere, in_block. unfold sample_inode, buf in *. cbn [dev_bufs dev_bsize fs_sb sample_device] in *. split.
  - split; [lia|]. split; [lia|]. intros g Hg. rewrite V1 in Hg. replace g with 0 by lia. rewrite V2, V3. lia.
  - intros b. unfold sample_free, sample_owned. rewrite elem_of_union, !elem_of_block_range. lia.
Qed.

Lemma sample_ready : ready 5 [Extent 0 2 0 11] [11; 12] sample_records sample_free sample_owned (InodeRef 5 sample_inode 1 false)
  (sample_inode + 128) (buf 40 + 5) 5 [119; 111; 114; 108; 100] sample_dir.
Proof.
  destruct sample_dir_repr as [R K]. constructor; cbn [ir_inode ir_index].
  - apply sample_directory.
  - exact R.
  - assert (nmax sample_dir (ext_inode_hdr sample_inode) = 4) as -> by (by vm_compute). done.
  - destruct (sample_goal 2 ltac:(lia)) as [G1 G2]. split; [done|]. intros e E1 E2 HN. eapply legal_keeps; [exact K|]. by eapply G2.
  - by vm_compute.
  - apply sample_clear. intros x Hx. unfold sample_inode, buf in *. cbn [dev_bufs dev_bsize sample_device] in *. lia.
  - apply sample_clear. intros x Hx. unfold sample_inode, buf in *. cbn [dev_bufs dev_bsize sample_device] in *. lia.
Qed.

Lemma directory_add_witness :
  runf (ext4_dir_add_entry (buf 40 + 5) 5 13 (sample_inode + 128)) (InodeRef 5 sample_inode 1 false) (Fs sample_dir ∅ [] 0 0 ∅)
    (fun rc r' s' => held s' = [] /\ (rc = EOK -> exists E' P' L', directory (mem s') 1 sample_inode E' [] P' L' /\
       dir_map (concat L') !! [119; 111; 114; 108; 100] = Some (13, 0))).
Proof.
  eapply runf_mono.
  - apply (directory_add 5 [Extent 0 2 0 11] [11; 12] sample_records sample_free sample_owned (InodeRef 5 sample_inode 1 false)
      13 (sample_inode + 128) (buf 40 + 5) 5 [119; 111; 114; 108; 100]).
    + done.
    + lia.
    + lia.
    + vm_compute. split_and!; congruence.
    + by vm_compute.
    + done.
    + by vm_compute.
    + intros a. unfold sample_free. rewrite elem_of_block_range. cbn [dev_blocks sample_device]. lia.
    + intros p. unfold sample_owned. rewrite !elem_of_cons, elem_of_nil, elem_of_block_range. lia.
    + apply sample_ready.
    + by vm_compute.
  - intros rc r' s' (_ & Hh & _ & _ & _ & F' & U' & E' & P' & _ & _ & _ & Hc). split; [exact Hh|]. intros ->. rewrite (Z.eqb_refl EOK) in Hc.
    destruct Hc as (L' & D & Hm). exists E', P', L'. split; [exact D|]. rewrite Hm, lookup_insert_eq. by vm_compute.
Defined.
