(* ===== verification/Ext4IallocClient.v ===== *)
(** lwext4, the clients of the inode allocator of [ext4_ialloc.c]. *)
From S2P Require Import Prelude Memory Ext4Errno Ext4Bitmap Ext4Crc Ext4Layout Ext4Super Ext4BlockGroup Ext4Inode.
From S2P Require Import Ext4Store Ext4Client Ext4Fs Ext4Groups Ext4Balloc Ext4BallocSpec Ext4BallocRun.
From S2P Require Import Ext4BallocRefine Ext4Sample Ext4Ialloc Ext4IallocSpec Ext4IallocRefine.
#[local] Open Scope Z_scope.
#[local] Open Scope cint_scope.
#[local] Opaque ext4_crc32c ext4_bg_crc16.

Section client.
Context `{Device}.
#[local] Notation sb := fs_sb.

(** ** Counters of a group *)

Lemma fitting_counter m v : fs_ok m -> inodes_ok m -> 0 <= v <= ipg m -> (if desc_is_wide m sb then u32 v else u16 (u32 v)) = v.
Proof.
  intros Hok Hiok Hv. pose proof (ok_ipg m Hiok). pose proof (bsize_cases m Hok) as [_ ?]. rewrite (uw_small 32) by lia.
  unfold desc_is_wide. fold (desc_size m). unfold EXT4_MIN_BLOCK_GROUP_DESCRIPTOR_SIZE. case_if; [done|]. zb.
  pose proof (ok_inarrow m Hiok). destruct (ok_desc_size m Hok); [|lia]. rewrite uw_small; lia.
Qed.

Lemma valid_set a v : a ∈ inode_accs -> valid_sets [(a, u32 v)].
Proof. intros Ha b w [= -> ->]%list_elem_of_singleton. split; [done|]. apply uw_range. lia. Qed.

Lemma valid_app l1 l2 : valid_sets l1 -> valid_sets l2 -> valid_sets (l1 ++ l2).
Proof. intros H1 H2 a v [?|?]%elem_of_app; [by apply H1|by apply H2]. Qed.

Lemma valid_nil : valid_sets [].
Proof. intros a v Hx. by apply elem_of_nil in Hx. Qed.

Definition dir_set (is_dir : bool) (v : Z) : list (accessor * Z) := if is_dir then [(used_dirs_acc, u32 v)] else [].
Definition unused_set (u : option Z) : list (accessor * Z) := match u with Some u => [(unused_acc, u32 u)] | None => [] end.

Lemma valid_dir_set is_dir v : valid_sets (dir_set is_dir v).
Proof. destruct is_dir; [apply valid_set; right; left|apply valid_nil]. Qed.

Lemma valid_unused_set u : valid_sets (unused_set u).
Proof. destruct u; [apply valid_set; right; right; left|apply valid_nil]. Qed.

Lemma not_in_dir_set a is_dir v w : a <> used_dirs_acc -> (a, w) ∉ dir_set is_dir v.
Proof. intros Ha. destruct is_dir; cbn; [|apply not_elem_of_nil]. intros E%list_elem_of_singleton. congruence. Qed.

Lemma not_in_unused_set a u w : a <> unused_acc -> (a, w) ∉ unused_set u.
Proof. intros Ha. destruct u; cbn; [|apply not_elem_of_nil]. intros E%list_elem_of_singleton. congruence. Qed.

Lemma accs_differ : free_inodes_acc <> used_dirs_acc /\ free_inodes_acc <> unused_acc /\ used_dirs_acc <> unused_acc.
Proof.
  assert (forall a b : accessor, f_off (a_lo a) <> f_off (a_lo b) -> a <> b) as Hd by (intros a b Hne ->; done).
  split_and!; apply Hd; done.
Qed.

(** ** Release *)

Definition free_sets (m : memory) (g : Z) (is_dir : bool) : list (accessor * Z) :=
  dir_set is_dir (counter used_dirs_acc m g - 1) ++ [(free_inodes_acc, u32 (counter free_inodes_acc m g + 1))].

Lemma valid_free_sets m g is_dir : valid_sets (free_sets m g is_dir).
Proof. apply valid_app; [apply valid_dir_set|apply valid_set; left]. Qed.

Lemma repr_freed m m' I Dirs g i is_dir : irepr m I Dirs -> 0 <= g < groups m -> 0 <= i < inodes_in m g -> iused m g i = true ->
  (inum m g i ∈ Dirs <-> is_dir = true) ->
  inode_change m m' g (ibits_with m g i false) (free_sets m g is_dir) (u32 (sbifree m + 1)) ->
  irepr m' (I ∪ {[ inum m g i ]}) (with_inode false is_dir (inum m g i) Dirs).
Proof.
  intros R Hg Hi Hu Hd Hic. pose proof (i_ok _ _ _ R) as Hok. pose proof (i_iok _ _ _ R) as Hiok. pose proof (ok_desc_size m Hok) as Hds.
  pose proof (inodes_in_range m g Hok Hiok Hg) as Hin. assert (0 <= inodes_in m g) as Hn0 by lia. destruct (sbifree_room m I Dirs g i R Hg Hi) as (Hs0 & Hs1 & _).
  rewrite (uw_small 32) in Hic by (specialize (Hs1 Hu); lia). destruct accs_differ as (Hd1 & Hd2 & Hd3).
  assert (apart (desc m g) sb) as Hap by (right; by apply desc_above). pose proof (valid_free_sets m g is_dir) as Hv.
  pose proof (nclear_used _ _ i Hi Hu) as Hlt. pose proof (nclear_range (iused m g) (inodes_in m g) Hn0) as Hge.
  apply (ch_repr m m' I Dirs g i false is_dir (free_sets m g is_dir)); try done.
  - rewrite (set_all_in _ Hap (free_sets m g is_dir) _ [] free_inodes_acc _ m eq_refl) by (done || (intros; apply not_elem_of_nil)).
    apply fitting_counter; [done|done|]. rewrite (i_count _ _ _ R g Hg). lia.
  - destruct is_dir.
    + rewrite (set_all_in _ Hap (free_sets m g true) [] [_] used_dirs_acc _ m eq_refl); [|done| |done].
      * apply fitting_counter; [done|done|]. rewrite (i_dirs _ _ _ R g Hg). pose proof (group_inodes_size m Dirs g Hn0).
        assert (inum m g i ∈ Dirs ∩ group_inodes m g) as Hm.
        { apply elem_of_intersection. split; [by apply Hd|]. apply elem_of_group_inodes. eauto. }
        assert (size (Dirs ∩ group_inodes m g) <> 0%nat); [|lia]. intros Hz. apply size_empty_inv in Hz. set_solver.
      * by intros w [= E]%list_elem_of_singleton.
    + rewrite (set_all_other _ Hap); [cbn; lia|done|right; left|]. intros w Hw. unfold free_sets in Hw.
      apply elem_of_app in Hw as [Hw|[= E]%list_elem_of_singleton]. by apply elem_of_nil in Hw.
  - cbv zeta. rewrite (set_all_other _ Hap); [|done|right; right; left|].
    + pose proof (i_unused _ _ _ R g Hg). fold (counter unused_acc m g). split; [lia|done].
    + intros w [Hw|[= E]%list_elem_of_singleton]%elem_of_app. by eapply not_in_dir_set in Hw.
  - intros n'. set_solver.
Qed.

(** ** Taking *)

Definition alloc_sets (m : memory) (g : Z) (is_dir : bool) (u : option Z) : list (accessor * Z) :=
  (free_inodes_acc, u32 (counter free_inodes_acc m g - 1)) :: dir_set is_dir (counter used_dirs_acc m g + 1) ++ unused_set u.

Lemma valid_alloc_sets m g is_dir u : valid_sets (alloc_sets m g is_dir u).
Proof.
  apply (valid_app [_]); [apply valid_set; left|]. apply valid_app; [apply valid_dir_set|apply valid_unused_set].
Qed.

(** The inode table is initialised up to inode [i]. *)
Definition new_unused (m : memory) (g i : Z) : option Z :=
  if inodes_in m g - counter unused_acc m g <=? i then Some (inodes_in m g - (i + 1)) else None.

Lemma repr_allocated m m' I Dirs g i is_dir : irepr m I Dirs -> 0 <= g < groups m -> 0 <= i < inodes_in m g -> iused m g i = false ->
  inode_change m m' g (ibits_with m g i true) (alloc_sets m g is_dir (new_unused m g i)) (u32 (sbifree m - 1)) ->
  inum m g i ∈ I /\ irepr m' (I ∖ {[ inum m g i ]}) (with_inode true is_dir (inum m g i) Dirs).
Proof.
  intros R Hg Hi Hu Hic. pose proof (i_ok _ _ _ R) as Hok. pose proof (i_iok _ _ _ R) as Hiok. pose proof (ok_desc_size m Hok) as Hds.
  split; [apply (i_free _ _ _ R); eauto 10|].
  pose proof (inodes_in_range m g Hok Hiok Hg) as Hin. assert (0 <= inodes_in m g) as Hn0 by lia. destruct (sbifree_room m I Dirs g i R Hg Hi) as (Hs0 & _ & Hs1). specialize (Hs1 Hu).
  assert (sbifree m < 2 ^ 32) by apply (fget_range sb_free_inodes_count m sb).
  rewrite (uw_small 32) in Hic by lia. destruct accs_differ as (Hd1 & Hd2 & Hd3).
  assert (apart (desc m g) sb) as Hap by (right; by apply desc_above). pose proof (valid_alloc_sets m g is_dir (new_unused m g i)) as Hv.
  pose proof (nclear_range (iused m g) (inodes_in m g) Hn0) as Hge.
  assert (1 <= nclear (iused m g) (inodes_in m g)) as Hp.
  { destruct (decide (nclear (iused m g) (inodes_in m g) = 0)) as [E|]; [|lia]. by rewrite (nclear_zero _ _ i E Hi) in Hu. }
  apply (ch_repr m m' I Dirs g i true is_dir (alloc_sets m g is_dir (new_unused m g i))); try done.
  - rewrite (set_all_in _ Hap (alloc_sets m g is_dir _) [] _ free_inodes_acc _ m eq_refl); [|done| |done].
    + apply fitting_counter; [done|done|]. rewrite (i_count _ _ _ R g Hg). lia.
    + intros w [Hw|Hw]%elem_of_app; [by eapply not_in_dir_set in Hw|by eapply not_in_unused_set in Hw].
  - destruct is_dir.
    + rewrite (set_all_in _ Hap (alloc_sets m g true _) [_] (unused_set _) used_dirs_acc _ m eq_refl); [|done| |done].
      * apply fitting_counter; [done|done|]. rewrite (i_dirs _ _ _ R g Hg).
        pose proof (group_inodes_size m ({[ inum m g i ]} ∪ Dirs) g Hn0) as Hsz. rewrite size_add in Hsz; [lia| |].
        { apply elem_of_group_inodes. eauto. }
        by apply (unused_not_dir m I Dirs g i).
      * intros w Hw. by eapply not_in_unused_set in Hw.
    + rewrite (set_all_other _ Hap); [fold (counter used_dirs_acc m g); lia|done|right; left|].
      intros w [[= E]|[Hw|Hw]%elem_of_app]%elem_of_cons; [by apply elem_of_nil in Hw|by eapply not_in_unused_set in Hw].
  - cbv zeta. pose proof (i_unused _ _ _ R g Hg). unfold new_unused in *. destruct (inodes_in m g - counter unused_acc m g <=? i) eqn:E; zb.
    + rewrite (set_all_in _ Hap (alloc_sets m g is_dir (Some _)) (_ :: _) [] unused_acc _ m eq_refl); [|done| |done].
      * rewrite fitting_counter by (done || lia). lia.
      * intros w. apply not_elem_of_nil.
    + rewrite (set_all_other _ Hap); [fold (counter unused_acc m g); lia|done|right; right; left|].
      intros w [[= E']|[Hw|Hw]%elem_of_app]%elem_of_cons; [by eapply not_in_dir_set in Hw|by apply elem_of_nil in Hw].
  - intros n'. set_solver.
Qed.

(** ** The operations *)

(** The bitmap of the group, in a memory that reads like [m]. *)
Lemma same_ibitmap m m0 g : same m m0 -> ext4_bg_get_inode_bitmap m0 (desc m g) sb = ibitmap m g.
Proof.
  intros Hs. pose proof (proj1 (same_keeps m m0 Hs)) as Hk. unfold ibitmap, ext4_bg_get_inode_bitmap. fold (desc_size m0) (desc_size m).
  by rewrite (kept_desc_size m m0 Hk), !(fget_ld8 _ _ _ _ Hs).
Qed.

Lemma inode_change_bits m m' g bits bits' l c : (forall i, 0 <= i < 8 * dev_bsize -> bits i = bits' i) ->
  inode_change m m' g bits l c -> inode_change m m' g bits' l c.
Proof. intros Hb [A1 A2 A3 A4 A5 A6 A7]. constructor; try done. intros g' i Hg' Hi. rewrite A3 by done. by rewrite Hb. Qed.

Section operations.
Context (m : memory) (Hok : fs_ok m) (Hiok : inodes_ok m).

Lemma same_counter a m0 g : a ∈ inode_accs -> same m m0 -> a_get a m0 (desc m g) sb = counter a m g.
Proof.
  intros Ha Hs. destruct (inode_accs_ok a Ha) as (Hacc & _). apply accessor_get_ext; [done|by apply fget_ld8..|].
  apply (kept_wide m m0 (same_keeps m m0 Hs)).
Qed.

Lemma run_when (b : bool) f s (Q : unit -> ext4_fs -> Prop) : Q tt (set_mem s (if b then f (mem s) else mem s)) ->
  run (if b then update f else mret tt) s Q.
Proof. intros HQ. destruct b; step; [done|]. by destruct s. Qed.

(** Setting the counters one after the other is setting them all. *)
Lemma free_sets_eq g m2 (is_dir : bool) : 0 <= g < groups m -> (forall a, a ∈ inode_accs -> a_get a m2 (desc m g) sb = counter a m g) ->
  let m3 := if is_dir then ext4_bg_set_used_dirs_count m2 (desc m g) sb (u32 (ext4_bg_get_used_dirs_count m2 (desc m g) sb - 1)) else m2 in
  ext4_bg_set_free_inodes_count m3 (desc m g) sb (u32 (ext4_bg_get_free_inodes_count m3 (desc m g) sb + 1)) =
    set_all (free_sets m g is_dir) m2 (desc m g).
Proof.
  intros Hg Hget m3. assert (a_get used_dirs_acc m2 (desc m g) sb = counter used_dirs_acc m g) as Hd by (apply Hget; right; left).
  assert (a_get free_inodes_acc m2 (desc m g) sb = counter free_inodes_acc m g) as Hfr by (apply Hget; left).
  cbn [a_get used_dirs_acc free_inodes_acc] in Hd, Hfr.
  assert (ext4_bg_get_free_inodes_count m3 (desc m g) sb = counter free_inodes_acc m g) as ->.
  { unfold m3. destruct is_dir; [|done]. rewrite <- Hfr. destruct accs_differ as (Hne & _).
    apply (acc_get_other free_inodes_acc used_dirs_acc); [left|right; left|done|apply uw_range; lia|right; by apply desc_above]. }
  unfold m3. rewrite Hd. by destruct is_dir.
Qed.

Lemma run_free_inode g i is_dir s : mem s = m -> 0 <= g < groups m -> 0 <= i < inodes_in m g ->
  run (ext4_ialloc_free_inode (inum m g i) is_dir) s (fun r s' =>
    (r = EOK /\ held s' = held s /\ last_inode_bg_id s' = last_inode_bg_id s /\
     dirty s' = {[ desc_block m g ]} ∪ ({[ ibitmap m g ]} ∪ dirty s) /\
     inode_change m (mem s') g (ibits_with m g i false) (free_sets m g is_dir) (u32 (sbifree m + 1))) \/
    (device_error r /\ same m (mem s') /\ dirty s' = dirty s /\ last_inode_bg_id s' = last_inode_bg_id s /\
     (held s' = held s \/ held s' = desc_block m g :: held s))).
Proof.
  intros Em Hg Hi. destruct (inum_ok m g i Hok Hiok Hg Hi) as (_ & Eg & Ei). pose proof (inodes_in_range m g Hok Hiok Hg) as Hin.
  pose proof (ok_ipg m Hiok) as Hipg. assert (0 <= i < 8 * dev_bsize) as Hf by lia.
  unfold ext4_ialloc_free_inode. step. step. rewrite Em, Eg. step. apply (run_ref m); [done|done|by rewrite Em| |].
  { intros r ref s' Hr Hu. rewrite (proj2 (Z.eqb_neq r EOK) (proj1 Hr)). cbn [negb]. step. right. destruct Hu as (U1 & U2 & U3 & U4).
    split; [done|]. split; [by rewrite <- Em|]. split_and!; try done. by left. }
  intros s1 Hop Hs1 Hd1 Hh1 Hl1. rewrite (Z.eqb_refl EOK). cbn [negb block_group the_ref]. step. step. rewrite same_ibitmap by done.
  step. apply run_get.
  { intros r s2 Hr E1 E2 E3 E4. rewrite (proj2 (Z.eqb_neq r EOK) (proj1 Hr)). cbn [negb]. step. right. split; [done|]. split; [by rewrite E1|].
    split_and!; try congruence. right. congruence. }
  intros s2 _ E1 E2 E3 E4. rewrite (Z.eqb_refl EOK). cbn [negb]. step.
  assert (ext4_ialloc_inode_to_bgidx (mem s1) sb (inum m g i) = i) as ->.
  { unfold ext4_ialloc_inode_to_bgidx in *. by rewrite (kept_field m (mem s1) (proj1 (same_keeps m _ Hs1))) by fld. }
  set (m1 := ext4_bmap_bit_clr (mem s2) (buf (ibitmap m g)) i).
  assert (forall x, x < buf (ibitmap m g) \/ buf (ibitmap m g) + dev_bsize <= x -> ld8 m1 x = ld8 m x) as H1.
  { intros x Hx. unfold m1. rewrite (bit_clr_other _ _ i dev_bsize) by done. rewrite E1. apply Hs1. }
  steps. apply run_dirty; [cbn; rewrite E3; left|]. step. apply (run_set _ (desc_block m g :: held s)); [done|cbn; congruence|].
  rewrite (Z.eqb_refl EOK). cbn [negb]. cbn [mem set_mem set_dirty set_held set_unsaved]. fold m1. step. apply run_when. steps.
  cbn [mem set_mem set_dirty set_held set_unsaved]. rewrite free_sets_eq by (done || by apply fin_before).
  apply (run_put_ref _ (held s)); [done|done|]. cbv zeta. intros u. cbn [bgr_dirty dirty_ref bgr_index block_group bgr_block the_ref].
  rewrite (Z.eqb_refl EOK). cbn [negb mem set_mem set_dirty set_held set_unsaved dirty held last_inode_bg_id]. steps. left.
  cbn [mem set_mem set_dirty set_held set_unsaved dirty held last_inode_bg_id]. split; [done|]. split; [done|]. split; [congruence|].
  split; [by rewrite E2, Hd1|]. rewrite fin_sbifree by (done || apply valid_free_sets).
  eapply inode_change_bits; [|apply inode_finish; [done|done|done|exact H1|apply valid_free_sets|apply uw_range; lia]].
  intros j Hj. unfold ibits_with, iused, m1. rewrite bget_clr by lia. rewrite E1. case_if; [done|]. by apply bget_on.
Qed.

Lemma run_count_inode g i is_dir s (Q : unit -> ext4_fs -> Prop) : 0 <= g < groups m -> 0 <= i < inodes_in m g ->
  0 <= counter unused_acc m g <= inodes_in m g -> (forall a, a ∈ inode_accs -> a_get a (mem s) (desc m g) sb = counter a m g) ->
  Q tt (set_mem s (set_all (alloc_sets m g is_dir (new_unused m g i)) (mem s) (desc m g))) ->
  run (count_inode (desc m g) is_dir (counter free_inodes_acc m g) (counter used_dirs_acc m g) (inodes_in m g) i) s Q.
Proof.
  intros Hg Hi Hu Hget HQ. pose proof (inodes_in_range m g Hok Hiok Hg). pose proof (ok_ipg m Hiok). pose proof (bsize_cases m Hok) as [_ ?].
  assert (apart (desc m g) sb) as Hap by (right; by apply desc_above).
  unfold count_inode. steps. apply run_when. steps. cbn [mem set_mem].
  set (l0 := (free_inodes_acc, u32 (counter free_inodes_acc m g - 1)) :: dir_set is_dir (counter used_dirs_acc m g + 1)).
  assert ((if is_dir then ext4_bg_set_used_dirs_count (ext4_bg_set_free_inodes_count (mem s) (desc m g) sb (u32 (counter free_inodes_acc m g - 1)))
      (desc m g) sb (u32 (counter used_dirs_acc m g + 1))
    else ext4_bg_set_free_inodes_count (mem s) (desc m g) sb (u32 (counter free_inodes_acc m g - 1))) = set_all l0 (mem s) (desc m g)) as ->
    by (unfold l0; by destruct is_dir).
  assert (ext4_bg_get_itable_unused (set_all l0 (mem s) (desc m g)) (desc m g) sb = counter unused_acc m g) as ->.
  { rewrite <- (Hget unused_acc) by (right; right; left). apply (set_all_other (desc m g) Hap l0 unused_acc); [|right; right; left|].
    - apply (valid_app [_]); [apply valid_set; left|apply valid_dir_set].
    - intros w [[= E]|Hw]%elem_of_cons. by eapply not_in_dir_set in Hw; destruct accs_differ as (_ & _ & Hne). }
  rewrite (uw_small 32 (inodes_in m g - _)), (uw_small 32 (i + 1)) by lia. unfold new_unused in HQ.
  destruct (inodes_in m g - counter unused_acc m g <=? i); step; cbn [mem set_mem].
  - unfold alloc_sets in HQ. cbn [unused_set] in HQ. rewrite app_comm_cons in HQ. fold l0 in HQ.
    unfold set_all in *. rewrite foldl_app in HQ. exact HQ.
  - unfold alloc_sets in HQ. cbn [unused_set] in HQ. rewrite app_nil_r in HQ. exact HQ.
Qed.

(** One group of the search. *)
Lemma run_inode_group fuel idx is_dir sbfree g bg_count rewind s (Q : Z * Z -> ext4_fs -> Prop) : same m (mem s) ->
  0 <= g < groups m -> g < bg_count -> sbfree = sbifree m -> 0 <= counter unused_acc m g <= inodes_in m g ->
  (0 < counter free_inodes_acc m g -> exists j, 0 <= j < inodes_in m g /\ iused m g j = false) ->
  (forall r s', device_error r -> unchanged s s' -> Q (r, idx) s') ->
  (forall s', counter free_inodes_acc m g <= 0 -> unchanged s s' ->
     run (alloc_inode_loop fuel idx is_dir sbfree (u32 (g + 1)) bg_count rewind) s' Q) ->
  (forall i s', 0 <= i < inodes_in m g -> iused m g i = false -> held s' = held s -> last_inode_bg_id s' = g ->
     dirty s' = {[ desc_block m g ]} ∪ ({[ ibitmap m g ]} ∪ dirty s) ->
     inode_change m (mem s') g (ibits_with m g i true) (alloc_sets m g is_dir (new_unused m g i)) (u32 (sbifree m - 1)) ->
     Q (EOK, inum m g i) s') ->
  run (alloc_inode_loop (S fuel) idx is_dir sbfree g bg_count rewind) s Q.
Proof.
  intros Hs Hg Hlt -> Hu Hsome Herr Hnext Hfound. pose proof (inodes_in_range m g Hok Hiok Hg) as Hin. pose proof (ok_ipg m Hiok) as Hipg.
  pose proof (bsize_cases m Hok) as [_ Hb].
  cbn [alloc_inode_loop]. rewrite (proj2 (Z.leb_le g bg_count)), (proj2 (Z.eqb_neq g bg_count)) by lia.
  step. apply (run_ref m); [done|done|done| |].
  { intros r ref s' Hr Hu'. rewrite (proj2 (Z.eqb_neq r EOK) (proj1 Hr)). cbn [negb]. step. by apply Herr. }
  intros s1 Hop Hs1 Hd1 Hh1 Hl1. rewrite (Z.eqb_refl EOK). cbn [negb block_group the_ref]. step. step. rewrite same_ibitmap by done.
  pose proof (same_counter free_inodes_acc (mem s1) g ltac:(left) Hs1) as Ef. pose proof (same_counter used_dirs_acc (mem s1) g ltac:(right; left) Hs1) as Ed.
  cbn [a_get free_inodes_acc used_dirs_acc] in Ef, Ed. rewrite Ef, Ed.
  destruct (0 <? counter free_inodes_acc m g) eqn:E0; zb.
  2:{ step. apply (run_put_ref _ (held s)); [done|done|]. cbv zeta. intros u. cbn [bgr_dirty the_ref].
      apply Hnext; [lia|]. split; [intros x; cbn; by rewrite Hs1, Hs|]. split_and!; cbn; congruence. }
  step. apply run_get.
  { intros r s2 Hr E1 E2 E3 E4. rewrite (proj2 (Z.eqb_neq r EOK) (proj1 Hr)). cbn [negb].
    eapply run_give_up; [done|by rewrite E3|]. intros u. apply Herr; [done|].
    split; [intros x; cbn; by rewrite E1, Hs1, Hs|]. split_and!; cbn; congruence. }
  intros s2 _ E1 E2 E3 E4. rewrite (Z.eqb_refl EOK). cbn [negb]. step. step. step.
  pose proof (proj1 (same_keeps m (mem s1) Hs1)) as Hk1. rewrite E1, (kept_inodes_in_group m (mem s1) Hk1). fold (inodes_in m g).
  assert (forall j, bget (mem s1) (buf (ibitmap m g)) j = iused m g j) as Hbits by (intros j; by apply bget_on).
  destruct (find_clr_ok (mem s1) (buf (ibitmap m g)) 0 (inodes_in m g) 0) as [(i & (C1 & C2 & _) & Ec)|[Ha _]]; [lia|lia| |].
  2:{ destruct (Hsome ltac:(lia)) as (j & Hj & Hf). rewrite <- Hbits, (Ha j Hj) in Hf. done. }
  change (0 + (- 0) mod 8) with 0 in Ec. rewrite (proj2 (Z.ltb_ge i 0)) in Ec by lia. rewrite Hbits in C2.
  apply (run_lift (EOK, i)); [done|]. change (EOK =? ENOSPC) with false. cbv iota.
  set (m1 := ext4_bmap_bit_set (mem s2) (buf (ibitmap m g)) i). assert (0 <= i < 8 * dev_bsize) as Hif by lia.
  assert (forall x, x < buf (ibitmap m g) \/ buf (ibitmap m g) + dev_bsize <= x -> ld8 m1 x = ld8 m x) as H1.
  { intros x Hx. unfold m1. rewrite (bit_set_other _ _ i dev_bsize) by done. rewrite E1. apply Hs1. }
  steps. apply run_dirty; [cbn; rewrite E3; left|]. step. apply (run_set _ (desc_block m g :: held s)); [done|cbn; congruence|].
  rewrite (Z.eqb_refl EOK). cbn [negb]. cbn [mem set_mem set_dirty set_held set_unsaved]. fold m1. step.
  apply run_count_inode; [done|done|done|cbn [mem set_mem set_dirty set_held set_unsaved]; by apply fin_before|]. step.
  apply (run_put_ref _ (held s)); [done|done|]. cbv zeta. intros u. cbn [bgr_dirty dirty_ref bgr_index block_group bgr_block the_ref].
  rewrite (Z.eqb_refl EOK). cbn [negb mem set_mem set_dirty set_held set_unsaved dirty held last_inode_bg_id]. steps.
  pose proof (inode_finish m g Hok Hiok Hg m1 H1 (alloc_sets m g is_dir (new_unused m g i)) (u32 (sbifree m - 1))
    (valid_alloc_sets _ _ _ _) (uw_range 32 _ ltac:(lia))) as Hfin.
  cbn [mem set_mem set_dirty set_held set_unsaved dirty held last_inode_bg_id].
  assert (ext4_ialloc_bgidx_to_inode (fset sb_free_inodes_count (put_bg_checksum (set_all (alloc_sets m g is_dir (new_unused m g i))
    (ext4_ialloc_set_bitmap_csum m1 sb (desc m g) (buf (ibitmap m g))) (desc m g)) sb g (desc m g)) sb (u32 (sbifree m - 1))) sb i g =
      inum m g i) as ->.
  { destruct (inum_ok m g i Hok Hiok Hg ltac:(lia)) as (<- & _). unfold ext4_ialloc_bgidx_to_inode.
    by rewrite (kept_field m _ (proj1 (ic_keeps _ _ _ _ _ _ Hfin))) by fld. }
  apply Hfound; cbn [mem set_mem set_dirty set_held set_unsaved dirty held last_inode_bg_id set_last]; try done.
  - by rewrite E2, Hd1.
  - eapply inode_change_bits; [|exact Hfin]. intros j Hj. unfold ibits_with, m1. rewrite bget_set by lia. rewrite E1, Hbits. done.
Qed.

Section search.
Context (I Dirs : gset Z) (idx : Z) (is_dir : bool).
Hypothesis R : irepr m I Dirs.

Definition no_inode (g : Z) : Prop := 0 <= g < groups m -> counter free_inodes_acc m g <= 0.

(** How the search started in [s] may end. *)
Definition inode_allocated (s : ext4_fs) (out : Z * Z) (s' : ext4_fs) : Prop :=
  let '(r, n) := out in
  (r = EOK /\ held s' = held s /\ 0 <= last_inode_bg_id s' < groups m /\
   exists g i, 0 <= g < groups m /\ 0 <= i < inodes_in m g /\ iused m g i = false /\ n = inum m g i /\
     dirty s' = {[ desc_block m g ]} ∪ ({[ ibitmap m g ]} ∪ dirty s) /\
     inode_change m (mem s') g (ibits_with m g i true) (alloc_sets m g is_dir (new_unused m g i)) (u32 (sbifree m - 1))) \/
  (unchanged s s' /\ n = idx /\ (device_error r \/ r = ENOSPC /\ forall g, no_inode g)).

Lemma inode_allocated_trans s s1 out s2 : unchanged s s1 -> inode_allocated s1 out s2 -> inode_allocated s out s2.
Proof.
  intros Hu. destruct out as [r n]. pose proof Hu as (_ & Hd & Hh & Hl). intros [(-> & E1 & E2 & g & i & G)|(U & C)].
  - left. split; [done|]. split; [congruence|]. split; [done|]. exists g, i. by rewrite <- Hd.
  - right. split; [by eapply unchanged_trans|done].
Qed.

(** One group, in terms of the outcome. *)
Lemma run_inode_step fuel g bg_count rewind s : same m (mem s) -> 0 <= g < groups m -> g < bg_count ->
  (forall s', no_inode g -> unchanged s s' ->
     run (alloc_inode_loop fuel idx is_dir (sbifree m) (u32 (g + 1)) bg_count rewind) s' (inode_allocated s')) ->
  run (alloc_inode_loop (S fuel) idx is_dir (sbifree m) g bg_count rewind) s (inode_allocated s).
Proof.
  intros Hs Hg Hlt Hnext. apply run_inode_group; try done.
  - by apply (i_unused _ _ _ R).
  - intros Hp. rewrite (i_count _ _ _ R) in Hp by done.
    destruct (decide (Exists (fun j => iused m g j = false) (seqZ 0 (inodes_in m g)))) as [He|He].
    + apply Exists_exists in He as (j & Hj & Hf). apply elem_of_seqZ in Hj. exists j. split; [lia|done].
    + exfalso. enough (nclear (iused m g) (inodes_in m g) = 0) by lia.
      destruct (zsum_le (fun j => if iused m g j then 0 else 1) 0 (inodes_in m g)); [|intros j Hj|unfold nclear; lia].
      * pose proof (inodes_in_range m g Hok Hiok Hg). lia.
      * destruct (iused m g j) eqn:E; [lia|]. destruct He. apply Exists_exists. exists j. split; [apply elem_of_seqZ; lia|done].
  - intros r s' Hr Hu. right. split; [done|]. split; [done|]. by left.
  - intros s' Hz Hu. eapply run_mono; [apply (Hnext s'); [by intros _|done]|]. intros out s2. by apply inode_allocated_trans.
  - intros i s' Hi Hf Hh Hl Hd Hic. left. split; [done|]. split; [done|]. split; [by rewrite Hl|]. exists g, i. done.
Qed.

(** After the wrap around: groups 0 to [last - 1]. *)
Lemma run_rewound last fuel : forall g s, same m (mem s) -> 0 <= g <= last -> last <= groups m -> last - g < Z.of_nat fuel ->
  (forall g', g' < g \/ last <= g' -> no_inode g') ->
  run (alloc_inode_loop fuel idx is_dir (sbifree m) g last true) s (inode_allocated s).
Proof.
  pose proof (groups_range m Hok) as Hgr. induction fuel as [|fuel IH]; intros g s Hs Hg Hl Hf Hseen; [lia|].
  destruct (decide (g = last)) as [->|Hne].
  - cbn [alloc_inode_loop]. rewrite Z.leb_refl, Z.eqb_refl. step. right. split; [by split_and!|]. split; [done|]. right. split; [done|].
    intros g'. apply Hseen. lia.
  - apply run_inode_step; [done|lia|lia|]. intros s' Hz Hu. rewrite (uw_small 32) by lia. apply IH; try lia.
    + destruct Hu as [Hu _]. intros x. by rewrite Hu, Hs.
    + intros g' Hg'. destruct (decide (g' = g)) as [->|]; [done|]. apply Hseen. lia.
Qed.

Lemma run_inode_loop last fuel : forall g s, same m (mem s) -> last_inode_bg_id s = last -> 0 <= last -> last <= g <= groups m ->
  groups m - g + last + 1 < Z.of_nat fuel -> (forall g', last <= g' < g -> no_inode g') ->
  run (alloc_inode_loop fuel idx is_dir (sbifree m) g (groups m) false) s (inode_allocated s).
Proof.
  pose proof (groups_range m Hok) as Hgr. induction fuel as [|fuel IH]; intros g s Hs Hlast Hl0 Hg Hf Hseen; [lia|].
  destruct (decide (g = groups m)) as [->|Hne].
  - cbn [alloc_inode_loop]. rewrite Z.leb_refl, Z.eqb_refl. step. step. rewrite Hlast. apply run_rewound; try done; try lia.
    intros g' [?|?]; [intros ?; lia|]. intros Hg'. apply Hseen; lia.
  - apply run_inode_step; [done|lia|lia|]. intros s' Hz Hu. rewrite (uw_small 32) by lia. destruct Hu as (U1 & _ & _ & U4). apply IH; try lia.
    + intros x. by rewrite U1, Hs.
    + intros g' Hg'. destruct (decide (g' = g)) as [->|]; [done|]. apply Hseen. lia.
Qed.

Lemma run_alloc_inode fuel s : mem s = m -> 0 <= last_inode_bg_id s < groups m -> groups m + 1 < Z.of_nat fuel ->
  run (ext4_ialloc_alloc_inode fuel idx is_dir) s (inode_allocated s).
Proof.
  intros Em Hl Hf. unfold ext4_ialloc_alloc_inode. step. step. step. step. rewrite Em. fold (sbifree m) (groups m).
  apply (run_inode_loop (last_inode_bg_id s)); [by rewrite Em|done|lia|lia|lia|]. intros g'. lia.
Qed.
End search.
End operations.

(** ** Clients *)

Inductive iop :=
  | AllocInode (is_dir : bool)
  | FreeInode (n : Z) (is_dir : bool).

Definition ialloc_exec (fuel : nat) (o : iop) (_ : unit) : M (Z * Z * unit) :=
  match o with
  | AllocInode is_dir => '(r, n) ← ext4_ialloc_alloc_inode fuel 0 is_dir; mret (r, n, tt)
  | FreeInode n is_dir => r ← ext4_ialloc_free_inode n is_dir; mret (r, 0, tt)
  end.

(** The allocator on the set of free inodes and the set of directories. *)
Inductive ispec : iop -> gset Z * gset Z -> Z * Z -> gset Z * gset Z -> Prop :=
  | ispec_alloc is_dir I Dirs n : n ∈ I -> ispec (AllocInode is_dir) (I, Dirs) (EOK, n) (I ∖ {[ n ]}, with_inode true is_dir n Dirs)
  | ispec_full is_dir Dirs v : ispec (AllocInode is_dir) (∅, Dirs) (ENOSPC, v) (∅, Dirs)
  | ispec_free n is_dir I Dirs : ispec (FreeInode n is_dir) (I, Dirs) (EOK, 0) (I ∪ {[ n ]}, with_inode false is_dir n Dirs)
  | ispec_error o st r v : device_error r -> ispec o st (r, v) st.

(** An inode that is in use is released as what it is. *)
Definition ilegal (m : memory) (o : iop) (st : gset Z * gset Z) : Prop :=
  match o with
  | AllocInode _ => True
  | FreeInode n is_dir => n ∉ st.1 /\ (n ∈ st.2 <-> is_dir = true) /\ exists g i, 0 <= g < groups m /\ 0 <= i < inodes_in m g /\ n = inum m g i
  end.

(** What a client that started in [s0] leaves: the block allocator is not
    disturbed, what is changed is marked dirty, and references are released
    except for those that a failed release of an inode keeps. *)
Record inode_inv (s0 s : ext4_fs) (u : unit) (st : gset Z * gset Z) : Prop := {
  v_keeps : keeps (mem s0) (mem s);
  v_repr : irepr (mem s) st.1 st.2;
  v_last : 0 <= last_inode_bg_id s < groups (mem s0);
  v_held : held s0 `suffix_of` held s;
  v_dirty : dirty s0 ⊆ dirty s;
  v_covered b x : 0 <= b -> b ∉ dirty s -> buf b <= x < buf b + dev_bsize -> ld8 (mem s) x = ld8 (mem s0) x;
  v_blocks ib ino F U : repr ib ino (mem s0) F U -> repr ib ino (mem s) F U;
}.

Lemma inode_inv_same s0 s s' st : inode_inv s0 s tt st -> same (mem s) (mem s') -> dirty s' = dirty s ->
  last_inode_bg_id s' = last_inode_bg_id s -> held s `suffix_of` held s' -> inode_inv s0 s' tt st.
Proof.
  intros [A1 A2 A3 A4 A5 A6 A7] Hs Hd Hl Hh. constructor.
  - eapply geometry_trans; [done|by apply same_keeps].
  - by eapply irepr_same.
  - by rewrite Hl.
  - by etransitivity.
  - by rewrite Hd.
  - rewrite Hd. intros b x Hb Hx Hx'. rewrite Hs. by eapply A6.
  - intros ib ino F U R. eapply repr_same; [by apply A7|done].
Qed.

Lemma inode_inv_change s0 s s' st st' g bits l c : inode_inv s0 s tt st -> 0 <= g < groups (mem s) ->
  inode_change (mem s) (mem s') g bits l c -> irepr (mem s') st'.1 st'.2 -> held s' = held s -> 0 <= last_inode_bg_id s' < groups (mem s) ->
  dirty s' = {[ desc_block (mem s) g ]} ∪ ({[ ibitmap (mem s) g ]} ∪ dirty s) -> inode_inv s0 s' tt st'.
Proof.
  intros [A1 A2 A3 A4 A5 A6 A7] Hg Hic R' Hh Hl Hd. pose proof (i_ok _ _ _ A2) as Hok. constructor.
  - eapply geometry_trans; [done|apply (ic_keeps _ _ _ _ _ _ Hic)].
  - done.
  - by rewrite (kept_groups _ _ (proj1 A1)) in Hl.
  - by rewrite Hh.
  - set_solver.
  - rewrite Hd. intros b x Hb Hx Hx'. rewrite (ic_frame _ _ _ _ _ _ Hic).
    + apply (A6 b); [done|set_solver|done].
    + apply (block_not_itouched (mem s) g Hok Hg b); try done; intros ->; set_solver.
  - intros ib ino F U R. apply (inode_change_repr ib ino (mem s) (mem s') F U g bits l c); [by apply A7|done|done].
Qed.

Lemma run_iop s0 fuel o s st : inode_inv s0 s tt st -> groups (mem s0) + 1 < Z.of_nat fuel -> ilegal (mem s0) o st ->
  run (ialloc_exec fuel o tt) s (fun '(x, u) s' => exists st', ispec o st x st' /\ inode_inv s0 s' u st').
Proof.
  intros Hv Hfuel Hl. pose proof Hv as [A1 A2 A3 A4 A5 A6 A7]. destruct st as [I Dirs]. cbn [fst snd] in *.
  pose proof (i_ok _ _ _ A2) as Hok. pose proof (i_iok _ _ _ A2) as Hiok. rewrite <- (kept_groups _ _ (proj1 A1)) in *.
  destruct o as [is_dir|n is_dir]; cbn [ialloc_exec ilegal fst snd] in *; step.
  - eapply run_mono; [by apply (run_alloc_inode (mem s) Hok Hiok I Dirs)|]. intros [r n] s' Ha; cbv beta iota. step.
    destruct Ha as [(-> & Hh & Hl' & g & i & Hg & Hi & Hu & -> & Hd & Hic)|((U1 & U2 & U3 & U4) & -> & [Hr|[-> Hz]])].
    + destruct (repr_allocated _ _ _ _ _ _ _ A2 Hg Hi Hu Hic) as [Hin R'].
      exists (I ∖ {[ inum (mem s) g i ]}, with_inode true is_dir (inum (mem s) g i) Dirs). split; [by constructor|].
      by eapply inode_inv_change.
    + exists (I, Dirs). split; [by constructor|]. eapply inode_inv_same; try done. by rewrite U3.
    + assert (I = ∅) as ->.
      { apply elem_of_equiv_empty_L. intros n Hn. apply (i_free _ _ _ A2) in Hn as (g & i & Hg & Hi & _ & Hu).
        specialize (Hz g Hg). rewrite (i_count _ _ _ A2) in Hz by done. pose proof (inodes_in_range _ g Hok Hiok Hg).
        pose proof (nclear_range (iused (mem s) g) (inodes_in (mem s) g)). rewrite (nclear_zero (iused (mem s) g) (inodes_in (mem s) g) i) in Hu; [done|lia|done]. }
      exists (∅, Dirs). split; [constructor|]. eapply inode_inv_same; try done. by rewrite U3.
  - destruct Hl as (HnI & HnD & g & i & Hg & Hi & ->).
    assert (inum (mem s0) g i = inum (mem s) g i) as En by (unfold inum, ipg; by rewrite (kept_field _ _ (proj1 A1)) by fld).
    assert (inodes_in (mem s) g = inodes_in (mem s0) g) as Ei by apply (kept_inodes_in_group _ _ (proj1 A1)).
    rewrite <- Ei in Hi. rewrite <- (kept_groups _ _ (proj1 A1)) in Hg. rewrite En in *.
    assert (iused (mem s) g i = true) as Hu.
    { destruct (iused (mem s) g i) eqn:E; [done|]. destruct HnI. apply (i_free _ _ _ A2). eauto 10. }
    eapply run_mono; [by apply (run_free_inode (mem s) Hok Hiok g i)|]. intros r s' Ha; cbv beta iota. step.
    destruct Ha as [(-> & Hh & Hl' & Hd & Hic)|(Hr & Hs & Hd & Hl' & Hh)].
    + exists (I ∪ {[ inum (mem s) g i ]}, with_inode false is_dir (inum (mem s) g i) Dirs). split; [constructor|].
      apply (inode_inv_change s0 s s' (I, Dirs) _ g _ _ _ Hv Hg Hic); [by apply (repr_freed (mem s) (mem s') I Dirs)|done|by rewrite Hl'|done].
    + exists (I, Dirs). split; [by constructor|]. eapply inode_inv_same; try done.
      destruct Hh as [-> | ->]; [done|]. by apply suffix_cons_r.
Qed.

(** C11. Every client of the inode allocator gets the answers of an allocator on
    sets: an inode handed out was free and lies in the initialised part of its
    inode table, ENOSPC means that no inode is free, a failing device changes no
    byte. The bitmaps, the counts of free inodes and directories and the count of
    the superblock represent the sets at the end, changed blocks are marked
    dirty, and the block allocator is as before. *)
Theorem ialloc_refines fuel c s I Dirs :
  irepr (mem s) I Dirs -> 0 <= last_inode_bg_id s < groups (mem s) -> groups (mem s) + 1 < Z.of_nat fuel ->
  permitted ispec (ilegal (mem s)) c (I, Dirs) ->
  run (perform (ialloc_exec fuel) c tt) s (fun '(answers, u) s' => exists st,
    follows ispec c (I, Dirs) answers st /\ inode_inv s s' u st).
Proof.
  intros R Hl Hfuel. apply (run_client _ _ _ (inode_inv s)).
  - intros o [] s1 st Hv Hleg. by apply run_iop.
  - by constructor.
Qed.

(** ** Two defects *)

(** When the count of a group says that inodes are free and its bitmap says that
    none is, the search tries the same group again and again: it never returns
    an inode or ENOSPC, whatever the fuel. *)
Theorem ialloc_hangs m g idx is_dir sbfree bg_count rewind :
  fs_ok m -> inodes_ok m -> 0 <= g < groups m -> g < bg_count -> 0 < counter free_inodes_acc m g ->
  (forall i, 0 <= i < inodes_in m g -> iused m g i = true) ->
  forall fuel s, same m (mem s) ->
  match alloc_inode_loop fuel idx is_dir sbfree g bg_count rewind s with
  | None => True
  | Some ((r, _), _) => device_error r
  end.
Proof.
  intros Hok Hiok Hg Hlt Hc Hfull fuel. pose proof (inodes_in_range m g Hok Hiok Hg). pose proof (ok_ipg m Hiok).
  pose proof (bsize_cases m Hok) as [_ ?]. set (ends := fun o : option (Z * Z * ext4_fs) => match o with None => True | Some ((r, _), _) => device_error r end).
  assert (forall A (c : M A) (k : A -> M (Z * Z)) s, run c s (fun x s' => ends (k x s')) -> ends ((c ≫= k) s)) as Hbind.
  { intros A c k s' (x & s'' & E & HQ). unfold mbind, M_bind. by rewrite E. }
  induction fuel as [|fuel IH]; intros s Hs; [done|]. change (ends (alloc_inode_loop (S fuel) idx is_dir sbfree g bg_count rewind s)).
  cbn [alloc_inode_loop]. rewrite (proj2 (Z.leb_le g bg_count)), (proj2 (Z.eqb_neq g bg_count)) by lia.
  apply Hbind, (run_ref m); [done|done|done| |].
  { intros r ref s' Hr Hu'. rewrite (proj2 (Z.eqb_neq r EOK) (proj1 Hr)). done. }
  intros s1 Hop Hs1 Hd1 Hh1 Hl1. rewrite (Z.eqb_refl EOK). cbn [negb block_group the_ref]. apply Hbind. step. rewrite same_ibitmap by done.
  pose proof (same_counter m free_inodes_acc (mem s1) g ltac:(left) Hs1) as Ef. cbn [a_get free_inodes_acc] in Ef. rewrite Ef.
  rewrite (proj2 (Z.ltb_lt 0 _)) by lia. apply Hbind, run_get.
  { intros r s2 Hr E1 E2 E3 E4. rewrite (proj2 (Z.eqb_neq r EOK) (proj1 Hr)). cbn [negb]. apply Hbind.
    by apply (run_put_ref _ (held s)); [done|by rewrite E3|]. }
  intros s2 _ E1 E2 E3 E4. rewrite (Z.eqb_refl EOK). cbn [negb]. apply Hbind. step. apply Hbind.
  pose proof (proj1 (same_keeps m (mem s1) Hs1)) as Hk1. rewrite E1, (kept_inodes_in_group m (mem s1) Hk1). fold (inodes_in m g).
  assert (forall j, bget (mem s1) (buf (ibitmap m g)) j = iused m g j) as Hbits by (intros j; by apply bget_on).
  destruct (find_clr_ok (mem s1) (buf (ibitmap m g)) 0 (inodes_in m g) 0) as [(i & (C1 & C2 & _) & Ec)|[Ha Ec]]; [lia|lia| |].
  { by rewrite Hbits, Hfull in C2. }
  apply (run_lift (ENOSPC, 0)); [done|]. rewrite (Z.eqb_refl ENOSPC). apply Hbind, (run_set _ (desc_block m g :: held s)); [done|congruence|].
  rewrite (Z.eqb_refl EOK). cbn [negb]. apply Hbind, (run_put_ref _ (held s)); [done|done|]. cbv zeta. intros u. cbn [bgr_dirty the_ref].
  rewrite (Z.eqb_refl EOK). cbn [negb]. apply IH. intros x. cbn. by rewrite E1.
Qed.
End client.

#[local] Existing Instance sample_device.

(** Takes an inode for a directory and gives it back. *)
Definition sample_inode_client : client iop (Z * Z) :=
  Call (AllocInode true) (fun '(r, n) => if r =? EOK then Call (FreeInode n true) (fun _ => Done) else Done).

Lemma sample_inode_permitted : permitted ispec (ilegal sample_fs) sample_inode_client (sample_free_inodes, ∅).
Proof.
  split; [done|]. intros [r n] [I' D'] Hs. destruct (r =? EOK) eqn:E; [|done]. zb. subst r.
  assert (n ∈ sample_free_inodes /\ n ∉ I' /\ n ∈ D') as (Hn & HI & HD).
  { inversion Hs; subst; [|match goal with H : device_error EOK |- _ => destruct H end; congruence]. cbn [with_inode]. set_solver. }
  split; [|done]. split; [done|]. split; [done|]. apply (i_free _ _ _ sample_irepr) in Hn as (g & i & Hg & Hi & -> & _). by exists g, i.
Qed.

Lemma ialloc_refines_witness :
  run (perform (ialloc_exec 3) sample_inode_client tt) (Fs sample_fs ∅ [] 0 0 ∅)
    (fun '(answers, _) s' => exists st, follows ispec sample_inode_client (sample_free_inodes, ∅) answers st /\ irepr (mem s') st.1 st.2).
Proof.
  eapply run_mono.
  - apply (ialloc_refines 3 sample_inode_client (Fs sample_fs ∅ [] 0 0 ∅) sample_free_inodes ∅).
    + apply sample_irepr.
    + cbn [mem last_inode_bg_id]. destruct sample_values as (-> & _). lia.
    + cbn [mem]. destruct sample_values as (-> & _). lia.
    + apply sample_inode_permitted.
  - intros [answers u] s' (st & Hf & [_ R _ _ _ _ _]). by exists st.
Defined.

(** The sample device, with one access that succeeds. *)
Definition failing_device : Device := {|
  dev_open := true; dev_blocks := 64; dev_bsize := 1024; dev_bufs := 4096; dev_io := fun n => if (n =? 0)%nat then EOK else EIO;
  dev_junk := fun _ _ => 0; dev_early := fun _ => true; dev_saved := fun _ => false; dev_memory := fun _ => true; fs_sb := 0;
|}.

(** [ext4_ialloc_free_inode] keeps the descriptor block when it cannot read the
    bitmap: block 2 is still held. *)
Example free_inode_leaks :
  option_map (fun '(r, s) => (r, held s)) (ext4_ialloc_free_inode (H := failing_device) 5 false (Fs sample_fs ∅ [] 0 0 ∅)) = Some (EIO, [2]).
Proof. vm_compute. reflexivity. Qed.
