(* ===== verification/KlibMalloc.v ===== *)
(** The kernel C library, [malloc] and friends: [src/clib/src/klib/malloc.c].

    The static variable [tlsf] is the heap the functions take and return;
    [init_heap] yields none when the allocator cannot be created.  The theorems
    are stated with the contract of [TlsfClaims]. *)
From S2P Require Import Prelude Memory TlsfBits Tlsf TlsfHdr TlsfInv TlsfSpec TlsfClaims.

(** ** Model *)

Definition init_heap (start size : Z) (m : memory) : option heap := tlsf_create_with_pool start size m.

Definition malloc (h : heap) (size : Z) : heap * Z := tlsf_malloc h size.

Definition sizeof_ptr : Z := 8.

Definition malloc_aligned (h : heap) (align size : Z) : heap * Z :=
  if align <=? sizeof_ptr then tlsf_malloc h size else tlsf_memalign h align size.

Definition calloc (h : heap) (count size : Z) : heap * Z :=
  let '(h, ptr) := tlsf_malloc h (u64 (count * size)) in
  if c_true ptr then (set_mem h (memset (hmem h) ptr 0 (u64 (count * size))), ptr) else (h, ptr).

Definition free (h : heap) (ptr : Z) : heap := tlsf_free h ptr.

(** ** Lemmas *)

(** Writing inside a block just allocated keeps the contract of the allocation. *)
Lemma alloc_then_write h B h1 p B1 m size align :
  inv h1 B1 -> spec_alloc align size (view_of h B) p (view_of h1 B1) -> p <> 0 ->
  (forall x, ~ (p <= x < p + size) -> m x = hmem h1 x) ->
  inv (set_mem h1 m) B1 /\ spec_alloc align size (view_of h B) p (view_of (set_mem h1 m) B1).
Proof.
  intros H1 [[? _]|(G & Ha & Hn & [F1 F2])] Hp Hm; [done|].
  pose proof G as (_ & _ & s & (a & -> & Hu)%live_used & Hs & Hd).
  destruct (inv_payload h1 B1 a s m H1 Hu) as [Hi Hk]; [intros x Hx; apply Hm; lia|].
  split; [done|]. right. split; [done|]. split; [done|]. split; [done|]. split; [done|].
  intros q t Hq Hl x Hx. cbn. rewrite Hm; [by apply (F2 q t)|].
  cbn [live view_of] in F1, Hd, Hl. assert (q <> a + 16) as Hne by (intros ->; apply Hq; by apply list_elem_of_singleton).
  rewrite <- (F1 q Hq) in Hl. specialize (Hd q t Hl Hne). lia.
Qed.

(** ** Theorems *)

(** [calloc] either refuses with nothing changed or returns a fresh block, apart
    from every live block and all of its requested bytes zero, and the other
    live blocks keep their contents, provided the product does not overflow. *)
Theorem calloc_zeroed h B count size h' p :
  inv h B -> 0 <= count -> 0 <= size -> count * size < 2 ^ 64 - 7 -> calloc h count size = (h', p) ->
  exists B', inv h' B' /\ spec_alloc 8 (count * size) (view_of h B) p (view_of h' B') /\
    (p <> 0 -> forall k, 0 <= k < count * size -> ld8 (hmem h') (p + k) = 0).
Proof.
  intros H Hc Hs Hlt. assert (0 <= count * size) by nia. unfold calloc. rewrite uw_small by lia.
  destruct (tlsf_malloc h (count * size)) as [h1 q] eqn:E.
  destruct (malloc_view h B (count * size) h1 q H ltac:(lia) E) as (B1 & H1 & S1).
  unfold c_true. case_if; intros [= <- <-].
  - exists B1. edestruct (alloc_then_write h B h1 q B1) as [Hi Hsp]; [exact H1|exact S1|lia| |].
    2:{ split; [exact Hi|]. split; [exact Hsp|]. intros _ k Hk. cbn. unfold memset, ld8. case_if; [done|lia]. }
    intros x Hx. unfold memset. case_if; [lia|done].
  - exists B1. split; [done|]. split; [done|]. intros; lia.
Qed.

Lemma calloc_zeroed_witness :
  exists B B', inv demo B /\ inv (calloc demo 10 10).1 B' /\
    ld8 (hmem (calloc demo 10 10).1) (10640 + 99) = 0.
Proof.
  destruct demo_inv as (B & H & _). destruct (calloc demo 10 10) as [h' p] eqn:E.
  assert (p = 10640) as -> by (assert ((calloc demo 10 10).2 = 10640) as E2 by (vm_compute; reflexivity); by rewrite E in E2).
  destruct (calloc_zeroed demo B 10 10 h' 10640 H ltac:(lia) ltac:(lia) ltac:(lia) E) as (B' & H' & _ & Hz).
  exists B, B'. split; [exact H|]. split; [exact H'|]. apply Hz; lia.
Defined.

(** [malloc_aligned] honours any power-of-two alignment, also the small ones it
    hands to plain [tlsf_malloc]. *)
Theorem malloc_aligned_ok h B k size h' p :
  inv h B -> 0 <= k <= 62 -> 0 <= size < 2 ^ 64 - 7 -> malloc_aligned h (2 ^ k) size = (h', p) ->
  exists B', inv h' B' /\ spec_alloc (2 ^ k) size (view_of h B) p (view_of h' B').
Proof.
  intros H Hk Hs. unfold malloc_aligned, sizeof_ptr. case_if; intros Em.
  - destruct (malloc_view h B size h' p H Hs Em) as (B' & H' & S'). exists B'. split; [done|].
    destruct S' as [?|(G & Ha & Hn & F)]; [by left|right]. split; [done|]. split; [|done].
    assert (k <= 3). { destruct (decide (k <= 3)); [done|]. pose proof (Z.pow_le_mono_r 2 4 k). lia. }
    etransitivity; [|exact Ha]. exists (2 ^ (3 - k)). rewrite <- Z.pow_add_r by lia. by replace (3 - k + k) with 3 by lia.
  - apply (exec_view h B (CMemalign (2 ^ k) size) h' p H); [|exact Em]. split; [by exists k|done].
Qed.

Lemma malloc_aligned_ok_witness :
  exists B', inv (malloc_aligned demo 64 100).1 B' /\ (64 | (malloc_aligned demo 64 100).2).
Proof.
  destruct demo_inv as (B & H & _). destruct (malloc_aligned demo 64 100) as [h' p] eqn:E.
  destruct (malloc_aligned_ok demo B 6 100 h' p H ltac:(lia) ltac:(lia) E) as (B' & H' & S').
  exists B'. split; [exact H'|]. destruct S' as [[-> _]|(_ & Ha & _)]; [by exists 0|exact Ha].
Defined.

(** The product in [calloc] is not checked: only its low 64 bits count.  With
    [2^61 + 1] elements of 8 bytes the caller gets a 24-byte block. *)
Theorem calloc_wraps h count size : calloc h count size = calloc h 1 (u64 (count * size)).
Proof. unfold calloc. by rewrite Z.mul_1_l, uw_uw by lia. Qed.

Lemma calloc_wraps_witness :
  (calloc demo (2 ^ 61 + 1) 8).2 = 10640 /\ tlsf_block_size (calloc demo (2 ^ 61 + 1) 8).1 10640 = 24.
Proof. rewrite calloc_wraps. by vm_compute. Defined.
