(* ===== verification/Fdt.v ===== *)
(** libfdt, tags and nodes: [src/clib/lib/libfdt/fdt.c] with the header accessors
    of [libfdt.h] and the byte order of [libfdt_env.h].

    The blob is at [fdt] in memory.  A function with an [int *] result returns
    it beside its value, and a pointer that may be NULL is an [option].  Strings
    passed by the caller are lists of characters.  No assumption of
    [FDT_ASSUME_MASK] is enabled, so every [can_assume] is false.  Loops take
    the size of the blob as fuel; [FdtSafe] shows that it is always enough. *)
From S2P Require Import Prelude Memory KlibString.
#[local] Open Scope Z_scope.
#[local] Open Scope cint_scope.

(** ** Constants *)

Definition FDT_MAGIC : Z := 0xd00dfeed.
Definition FDT_SW_MAGIC : Z := u32 (Z.lnot FDT_MAGIC).
Definition FDT_TAGSIZE : Z := 4.
Definition FDT_BEGIN_NODE : Z := 1.
Definition FDT_END_NODE : Z := 2.
Definition FDT_PROP : Z := 3.
Definition FDT_NOP : Z := 4.
Definition FDT_END : Z := 9.
Definition FDT_V1_SIZE : Z := 7 * 4.
Definition FDT_V2_SIZE : Z := FDT_V1_SIZE + 4.
Definition FDT_V3_SIZE : Z := FDT_V2_SIZE + 4.
Definition FDT_V16_SIZE : Z := FDT_V3_SIZE.
Definition FDT_V17_SIZE : Z := FDT_V16_SIZE + 4.
Definition FDT_FIRST_SUPPORTED_VERSION : Z := 0x02.
Definition FDT_LAST_SUPPORTED_VERSION : Z := 0x11.
Definition FDT_ERR_NOTFOUND : Z := 1.
Definition FDT_ERR_NOSPACE : Z := 3.
Definition FDT_ERR_BADOFFSET : Z := 4.
Definition FDT_ERR_BADPHANDLE : Z := 6.
Definition FDT_ERR_BADSTATE : Z := 7.
Definition FDT_ERR_TRUNCATED : Z := 8.
Definition FDT_ERR_BADMAGIC : Z := 9.
Definition FDT_ERR_BADVERSION : Z := 10.
Definition FDT_ERR_BADSTRUCTURE : Z := 11.
Definition FDT_ERR_INTERNAL : Z := 13.
Definition FDT_ERR_BADNCELLS : Z := 14.
Definition FDT_ERR_NOPHANDLES : Z := 17.
Definition FDT_ERR_ALIGNMENT : Z := 19.
Definition FDT_MAX_PHANDLE : Z := 0xfffffffe.
Definition FDT_MAX_NCELLS : Z := 4.
Definition INT_MAX : Z := 2 ^ 31 - 1.

(** ** Words and header *)

Definition fdt32_ld (m : memory) (p : Z) : Z :=
  u32 (ld8 m p .<< 24) .| u32 (ld8 m (p + 1) .<< 16) .| u32 (ld8 m (p + 2) .<< 8) .| ld8 m (p + 3).

(** [EXTRACT_BYTE(x, n)], the byte [n] of the variable [x] in memory. *)
Definition EXTRACT_BYTE (x n : Z) : Z := u8 (x .>> (8 * n)).

Definition fdt32_to_cpu (x : Z) : Z :=
  u32 ((EXTRACT_BYTE x 0 .<< 24) .| (EXTRACT_BYTE x 1 .<< 16) .| (EXTRACT_BYTE x 2 .<< 8) .| EXTRACT_BYTE x 3).

Definition fdt64_to_cpu (x : Z) : Z :=
  u64 ((EXTRACT_BYTE x 0 .<< 56) .| (EXTRACT_BYTE x 1 .<< 48) .| (EXTRACT_BYTE x 2 .<< 40) .| (EXTRACT_BYTE x 3 .<< 32)
       .| (EXTRACT_BYTE x 4 .<< 24) .| (EXTRACT_BYTE x 5 .<< 16) .| (EXTRACT_BYTE x 6 .<< 8) .| EXTRACT_BYTE x 7).

Definition fdt32_ld_ (m : memory) (p : Z) : Z := fdt32_to_cpu (ld32 m p).
Definition fdt64_ld_ (m : memory) (p : Z) : Z := fdt64_to_cpu (ld64 m p).

Definition fdt_magic (m : memory) (fdt : Z) : Z := fdt32_ld m fdt.
Definition fdt_totalsize (m : memory) (fdt : Z) : Z := fdt32_ld m (fdt + 4).
Definition fdt_off_dt_struct (m : memory) (fdt : Z) : Z := fdt32_ld m (fdt + 8).
Definition fdt_off_dt_strings (m : memory) (fdt : Z) : Z := fdt32_ld m (fdt + 12).
Definition fdt_off_mem_rsvmap (m : memory) (fdt : Z) : Z := fdt32_ld m (fdt + 16).
Definition fdt_version (m : memory) (fdt : Z) : Z := fdt32_ld m (fdt + 20).
Definition fdt_last_comp_version (m : memory) (fdt : Z) : Z := fdt32_ld m (fdt + 24).
Definition fdt_size_dt_strings (m : memory) (fdt : Z) : Z := fdt32_ld m (fdt + 32).
Definition fdt_size_dt_struct (m : memory) (fdt : Z) : Z := fdt32_ld m (fdt + 36).

Definition fuel_of (m : memory) (fdt : Z) : nat := S (Z.to_nat (fdt_totalsize m fdt)).

(** ** [fdt.c] *)

Definition fdt_ro_probe_ (m : memory) (fdt : Z) : Z :=
  let totalsize := fdt_totalsize m fdt in
  let size := if totalsize <? INT_MAX then totalsize else - FDT_ERR_TRUNCATED in
  if c_true (fdt .& 7) then - FDT_ERR_ALIGNMENT
  else if fdt_magic m fdt =? FDT_MAGIC then
    if fdt_version m fdt <? FDT_FIRST_SUPPORTED_VERSION then - FDT_ERR_BADVERSION
    else if FDT_LAST_SUPPORTED_VERSION <? fdt_last_comp_version m fdt then - FDT_ERR_BADVERSION
    else size
  else if fdt_magic m fdt =? FDT_SW_MAGIC then
    if fdt_size_dt_struct m fdt =? 0 then - FDT_ERR_BADSTATE else size
  else - FDT_ERR_BADMAGIC.

Definition check_off_ (hdrsize totalsize off : Z) : bool := (hdrsize <=? off) && (off <=? totalsize).

Definition check_block_ (hdrsize totalsize base size : Z) : bool :=
  if negb (check_off_ hdrsize totalsize base) then false
  else if u32 (base + size) <? base then false
  else if negb (check_off_ hdrsize totalsize (u32 (base + size))) then false
  else true.

Definition fdt_header_size_ (version : Z) : Z :=
  if version <=? 1 then FDT_V1_SIZE
  else if version <=? 2 then FDT_V2_SIZE
  else if version <=? 3 then FDT_V3_SIZE
  else if version <=? 16 then FDT_V16_SIZE
  else FDT_V17_SIZE.

Definition fdt_header_size (m : memory) (fdt : Z) : Z := fdt_header_size_ (fdt_version m fdt).

Definition fdt_check_header (m : memory) (fdt : Z) : Z :=
  if c_true (fdt .& 7) then - FDT_ERR_ALIGNMENT
  else if negb (fdt_magic m fdt =? FDT_MAGIC) then - FDT_ERR_BADMAGIC
  else if (fdt_version m fdt <? FDT_FIRST_SUPPORTED_VERSION)
       || (FDT_LAST_SUPPORTED_VERSION <? fdt_last_comp_version m fdt) then - FDT_ERR_BADVERSION
  else if fdt_version m fdt <? fdt_last_comp_version m fdt then - FDT_ERR_BADVERSION
  else
    let hdrsize := fdt_header_size m fdt in
    let totalsize := fdt_totalsize m fdt in
    if (totalsize <? hdrsize) || (INT_MAX <? totalsize) then - FDT_ERR_TRUNCATED
    else if negb (check_off_ hdrsize totalsize (fdt_off_mem_rsvmap m fdt)) then - FDT_ERR_TRUNCATED
    else if negb (if fdt_version m fdt <? 17
                  then check_off_ hdrsize totalsize (fdt_off_dt_struct m fdt)
                  else check_block_ hdrsize totalsize (fdt_off_dt_struct m fdt) (fdt_size_dt_struct m fdt))
    then - FDT_ERR_TRUNCATED
    else if negb (check_block_ hdrsize totalsize (fdt_off_dt_strings m fdt) (fdt_size_dt_strings m fdt))
    then - FDT_ERR_TRUNCATED
    else 0.

Definition fdt_offset_ptr_ (m : memory) (fdt offset : Z) : Z := fdt + fdt_off_dt_struct m fdt + offset.

Definition fdt_offset_ptr (m : memory) (fdt offset len : Z) : option Z :=
  let uoffset := u32 offset in
  let absoffset := u32 (offset + fdt_off_dt_struct m fdt) in
  if offset <? 0 then None
  else if (absoffset <? uoffset) || (u32 (absoffset + len) <? absoffset)
       || (fdt_totalsize m fdt <? u32 (absoffset + len)) then None
  else if (0x11 <=? fdt_version m fdt)
       && ((u32 (uoffset + len) <? uoffset) || (fdt_size_dt_struct m fdt <? u32 (offset + len))) then None
  else Some (fdt_offset_ptr_ m fdt offset).

(** [do { p = fdt_offset_ptr(fdt, offset++, 1); } while (p && *p != '\0');] *)
Fixpoint skip_name (fuel : nat) (m : memory) (fdt offset : Z) : option (option Z * Z) :=
  match fuel with
  | O => None
  | S fuel =>
    match fdt_offset_ptr m fdt offset 1 with
    | Some p => if negb (ld8 m p =? 0) then skip_name fuel m fdt (s32 (offset + 1))
                else Some (Some p, s32 (offset + 1))
    | None => Some (None, s32 (offset + 1))
    end
  end.

Definition FDT_TAGALIGN (x : Z) : Z := s32 (u64 (x + FDT_TAGSIZE - 1) .& u64 (Z.lnot (FDT_TAGSIZE - 1))).

(** The end of [fdt_next_tag], after the tag's contents: [nextoffset] is still
    [-FDT_ERR_BADSTRUCTURE]. *)
Definition close_tag (m : memory) (fdt startoffset tag offset : Z) : Z * Z :=
  match fdt_offset_ptr m fdt startoffset (u32 (offset - startoffset)) with
  | None => (FDT_END, - FDT_ERR_BADSTRUCTURE)
  | Some _ => (tag, FDT_TAGALIGN offset)
  end.

(** Returns the tag and [*nextoffset]. *)
Definition fdt_next_tag (m : memory) (fdt startoffset : Z) : option (Z * Z) :=
  match fdt_offset_ptr m fdt startoffset FDT_TAGSIZE with
  | None => Some (FDT_END, - FDT_ERR_TRUNCATED)
  | Some tagp =>
    let tag := fdt32_ld_ m tagp in
    let offset := s32 (startoffset + FDT_TAGSIZE) in
    if tag =? FDT_BEGIN_NODE then
      '(p, offset) ← skip_name (fuel_of m fdt) m fdt offset;
      match p with
      | None => Some (FDT_END, - FDT_ERR_BADSTRUCTURE)
      | Some _ => Some (close_tag m fdt startoffset tag offset)
      end
    else if tag =? FDT_PROP then
      match fdt_offset_ptr m fdt offset 4 with
      | None => Some (FDT_END, - FDT_ERR_BADSTRUCTURE)
      | Some lenp =>
        let len := fdt32_ld_ m lenp in
        let sum := u32 (len + offset) in
        if (INT_MAX <=? sum) || (sum <? u32 offset) then Some (FDT_END, - FDT_ERR_BADSTRUCTURE)
        else
          let offset := s32 (offset + (12 - FDT_TAGSIZE) + len) in
          let offset :=
            if (fdt_version m fdt <? 0x10) && (8 <=? len) && negb (u32 (offset - len) mod 8 =? 0)
            then s32 (offset + 4) else offset in
          Some (close_tag m fdt startoffset tag offset)
      end
    else if (tag =? FDT_END) || (tag =? FDT_END_NODE) || (tag =? FDT_NOP) then
      Some (close_tag m fdt startoffset tag offset)
    else Some (FDT_END, - FDT_ERR_BADSTRUCTURE)
  end.

Definition fdt_check_node_offset_ (m : memory) (fdt offset : Z) : option Z :=
  if (offset <? 0) || negb (u64 offset mod FDT_TAGSIZE =? 0) then Some (- FDT_ERR_BADOFFSET)
  else
    '(tag, offset) ← fdt_next_tag m fdt offset;
    if negb (tag =? FDT_BEGIN_NODE) then Some (- FDT_ERR_BADOFFSET) else Some offset.

Definition fdt_check_prop_offset_ (m : memory) (fdt offset : Z) : option Z :=
  if (offset <? 0) || negb (u64 offset mod FDT_TAGSIZE =? 0) then Some (- FDT_ERR_BADOFFSET)
  else
    '(tag, offset) ← fdt_next_tag m fdt offset;
    if negb (tag =? FDT_PROP) then Some (- FDT_ERR_BADOFFSET) else Some offset.

(** The loop of [fdt_next_node]; [depth] is [None] when the pointer is NULL. *)
Fixpoint next_node_loop (fuel : nat) (m : memory) (fdt nextoffset : Z) (depth : option Z) : option (Z * option Z) :=
  match fuel with
  | O => None
  | S fuel =>
    let offset := nextoffset in
    '(tag, nextoffset) ← fdt_next_tag m fdt offset;
    if (tag =? FDT_PROP) || (tag =? FDT_NOP) then next_node_loop fuel m fdt nextoffset depth
    else if tag =? FDT_BEGIN_NODE then Some (offset, (fun d => s32 (d + 1)) <$> depth)
    else if tag =? FDT_END_NODE then
      match depth with
      | None => next_node_loop fuel m fdt nextoffset depth
      | Some d =>
        let d := s32 (d - 1) in
        if d <? 0 then Some (nextoffset, Some d) else next_node_loop fuel m fdt nextoffset (Some d)
      end
    else (* FDT_END *)
      if (0 <=? nextoffset) || ((nextoffset =? - FDT_ERR_TRUNCATED) && negb (bool_decide (is_Some depth)))
      then Some (- FDT_ERR_NOTFOUND, depth)
      else Some (nextoffset, depth)
  end.

Definition fdt_next_node (m : memory) (fdt offset : Z) (depth : option Z) : option (Z * option Z) :=
  if 0 <=? offset then
    nextoffset ← fdt_check_node_offset_ m fdt offset;
    if nextoffset <? 0 then Some (nextoffset, depth)
    else next_node_loop (fuel_of m fdt) m fdt nextoffset depth
  else next_node_loop (fuel_of m fdt) m fdt 0 depth.

Definition fdt_first_subnode (m : memory) (fdt offset : Z) : option Z :=
  '(offset, depth) ← fdt_next_node m fdt offset (Some 0);
  if (offset <? 0) || negb (default 0 depth =? 1) then Some (- FDT_ERR_NOTFOUND) else Some offset.

Fixpoint next_subnode_loop (fuel : nat) (m : memory) (fdt offset depth : Z) : option Z :=
  match fuel with
  | O => None
  | S fuel =>
    '(offset, depth) ← fdt_next_node m fdt offset (Some depth);
    let depth := default 0 depth in
    if (offset <? 0) || (depth <? 1) then Some (- FDT_ERR_NOTFOUND)
    else if 1 <? depth then next_subnode_loop fuel m fdt offset depth
    else Some offset
  end.

Definition fdt_next_subnode (m : memory) (fdt offset : Z) : option Z :=
  next_subnode_loop (fuel_of m fdt) m fdt offset 1.

(** [memcmp] against a string of the caller is 0. *)
Fixpoint memcmp_eq (len : nat) (m : memory) (p : Z) (s : list Z) : bool :=
  match len with
  | O => true
  | S len => (ld8 m p =? default 0 (head s)) && memcmp_eq len m (p + 1) (tail s)
  end.

Definition strlen (s : list Z) : Z := Z.of_nat (length s).

(** Length of the string at [p] in the blob. *)
Definition blob_strlen (m : memory) (fdt p : Z) : option Z :=
  strnlen_loop (fuel_of m fdt) m p (2 ^ 64 - 1) 0.

Fixpoint find_string_loop (fuel : nat) (m : memory) (p last : Z) (s : list Z) (len : Z) : option (option Z) :=
  match fuel with
  | O => None
  | S fuel =>
    if p <=? last then
      if memcmp_eq (Z.to_nat len) m p s then Some (Some p) else find_string_loop fuel m (p + 1) last s len
    else Some None
  end.

Definition fdt_find_string_ (m : memory) (strtab tabsize : Z) (s : list Z) : option (option Z) :=
  let len := s32 (strlen s + 1) in
  let last := strtab + tabsize - len in
  find_string_loop (S (S (Z.to_nat tabsize))) m strtab last s len.

Definition fdt_move (m : memory) (fdt buf bufsize : Z) : memory * Z :=
  if bufsize <? 0 then (m, - FDT_ERR_NOSPACE)
  else if fdt_ro_probe_ m fdt <? 0 then (m, fdt_ro_probe_ m fdt)
  else if u32 bufsize <? fdt_totalsize m fdt then (m, - FDT_ERR_NOSPACE)
  else (memcpy m buf fdt (fdt_totalsize m fdt), 0).
