(* ===== verification/FdtRo.v ===== *)
(** libfdt, read access: [src/clib/lib/libfdt/fdt_ro.c] (without paths, aliases
    and symbols), [fdt_check.c] and the cell counts of [fdt_addresses.c].

    Conventions as in [Fdt]; a [const char *] result comes with the value the
    function leaves in its length argument. *)
From S2P Require Import Prelude Memory KlibString Fdt.
#[local] Open Scope Z_scope.
#[local] Open Scope cint_scope.

(** ** Strings and names *)

Definition fdt_get_string (m : memory) (fdt stroffset : Z) : option Z * Z :=
  let totalsize := fdt_ro_probe_ m fdt in
  if totalsize <? 0 then (None, totalsize)
  else
    let err := - FDT_ERR_BADOFFSET in
    let absoffset := u32 (stroffset + fdt_off_dt_strings m fdt) in
    if u32 totalsize <=? absoffset then (None, err)
    else
      let len := totalsize - absoffset in
      let search len :=
        let s := fdt + absoffset in
        let n := memchr m s 0 len in
        if n =? 0 then (None, - FDT_ERR_TRUNCATED) else (Some s, n - s) in
      if fdt_magic m fdt =? FDT_MAGIC then
        if stroffset <? 0 then (None, err)
        else if 17 <=? fdt_version m fdt then
          if fdt_size_dt_strings m fdt <=? u32 stroffset then (None, err)
          else if u32 (fdt_size_dt_strings m fdt - stroffset) <? len
          then search (u32 (fdt_size_dt_strings m fdt - stroffset)) else search len
        else search len
      else if fdt_magic m fdt =? FDT_SW_MAGIC then
        let sw_stroffset := u32 (- stroffset) in
        if (0 <=? stroffset) || (fdt_size_dt_strings m fdt <? sw_stroffset) then (None, err)
        else if sw_stroffset <? len then search sw_stroffset else search len
      else (None, - FDT_ERR_INTERNAL).

Definition fdt_string (m : memory) (fdt stroffset : Z) : option Z := (fdt_get_string m fdt stroffset).1.

Definition fdt_string_eq_ (m : memory) (fdt stroffset : Z) (s : list Z) (len : Z) : bool :=
  let '(p, slen) := fdt_get_string m fdt stroffset in
  match p with
  | None => false
  | Some p => (slen =? len) && memcmp_eq (Z.to_nat len) m p s
  end.

Definition fdt_get_name (m : memory) (fdt nodeoffset : Z) : option (option Z * Z) :=
  let nameptr := fdt_offset_ptr_ m fdt nodeoffset + 4 in
  let err := fdt_ro_probe_ m fdt in
  if err <? 0 then Some (None, err)
  else
    err ← fdt_check_node_offset_ m fdt nodeoffset;
    if err <? 0 then Some (None, err)
    else if fdt_version m fdt <? 0x10 then
      leaf ← strrchr (fuel_of m fdt) m nameptr 47;
      if leaf =? 0 then Some (None, - FDT_ERR_BADSTRUCTURE)
      else
        let nameptr := leaf + 1 in
        len ← blob_strlen m fdt nameptr;
        Some (Some nameptr, s32 len)
    else
      len ← blob_strlen m fdt nameptr;
      Some (Some nameptr, s32 len).

(** [memchr] of ['@'] in the caller's string. *)
Definition has_at (s : list Z) (len : Z) : bool := bool_decide (64 ∈ take (Z.to_nat len) s).

Definition fdt_nodename_eq_ (m : memory) (fdt offset : Z) (s : list Z) (len : Z) : option bool :=
  '(p, olen) ← fdt_get_name m fdt offset;
  match p with
  | None => Some false
  | Some p =>
    if olen <? len then Some false
    else if negb (memcmp_eq (Z.to_nat len) m p s) then Some false
    else if ld8 m (p + len) =? 0 then Some true
    else if negb (has_at s len) && (ld8 m (p + len) =? 64) then Some true
    else Some false
  end.

(** ** Memory reservations *)

Definition fdt_mem_rsv_ (m : memory) (fdt n : Z) : Z := fdt + fdt_off_mem_rsvmap m fdt + 16 * n.

Definition fdt_mem_rsv (m : memory) (fdt n : Z) : option Z :=
  let offset := u32 (n * 16) in
  let absoffset := u32 (fdt_off_mem_rsvmap m fdt + offset) in
  if absoffset <? fdt_off_mem_rsvmap m fdt then None
  else if u64 (fdt_totalsize m fdt - 16) <? absoffset then None
  else Some (fdt_mem_rsv_ m fdt n).

Definition fdt_get_mem_rsv (m : memory) (fdt n : Z) : Z * option (Z * Z) :=
  if fdt_ro_probe_ m fdt <? 0 then (fdt_ro_probe_ m fdt, None)
  else
    match fdt_mem_rsv m fdt n with
    | None => (- FDT_ERR_BADOFFSET, None)
    | Some re => (0, Some (fdt64_ld_ m re, fdt64_ld_ m (re + 8)))
    end.

Fixpoint num_mem_rsv_loop (fuel : nat) (m : memory) (fdt i : Z) : option Z :=
  match fuel with
  | O => None
  | S fuel =>
    match fdt_mem_rsv m fdt i with
    | None => Some (- FDT_ERR_TRUNCATED)
    | Some re => if fdt64_ld_ m (re + 8) =? 0 then Some i else num_mem_rsv_loop fuel m fdt (s32 (i + 1))
    end
  end.

Definition fdt_num_mem_rsv (m : memory) (fdt : Z) : option Z := num_mem_rsv_loop (fuel_of m fdt) m fdt 0.

(** ** Subnodes *)

Fixpoint subnode_offset_loop (fuel : nat) (m : memory) (fdt offset depth : Z) (name : list Z) (namelen : Z) : option Z :=
  match fuel with
  | O => None
  | S fuel =>
    if (0 <=? offset) && (0 <=? depth) then
      found ← (if depth =? 1 then fdt_nodename_eq_ m fdt offset name namelen else Some false);
      if (found : bool) then Some offset
      else
        '(offset, d) ← fdt_next_node m fdt offset (Some depth);
        subnode_offset_loop fuel m fdt offset (default 0 d) name namelen
    else if depth <? 0 then Some (- FDT_ERR_NOTFOUND)
    else Some offset
  end.

Definition fdt_subnode_offset_namelen (m : memory) (fdt offset : Z) (name : list Z) (namelen : Z) : option Z :=
  if fdt_ro_probe_ m fdt <? 0 then Some (fdt_ro_probe_ m fdt)
  else subnode_offset_loop (S (fuel_of m fdt)) m fdt offset 0 name namelen.

Definition fdt_subnode_offset (m : memory) (fdt parentoffset : Z) (name : list Z) : option Z :=
  fdt_subnode_offset_namelen m fdt parentoffset name (s32 (strlen name)).

(** ** Properties *)

Fixpoint nextprop_ (fuel : nat) (m : memory) (fdt offset : Z) : option Z :=
  match fuel with
  | O => None
  | S fuel =>
    '(tag, nextoffset) ← fdt_next_tag m fdt offset;
    if tag =? FDT_END then Some (if 0 <=? nextoffset then - FDT_ERR_BADSTRUCTURE else nextoffset)
    else if tag =? FDT_PROP then Some offset
    else if tag =? FDT_NOP then nextprop_ fuel m fdt nextoffset
    else Some (- FDT_ERR_NOTFOUND)
  end.

Definition fdt_first_property_offset (m : memory) (fdt nodeoffset : Z) : option Z :=
  offset ← fdt_check_node_offset_ m fdt nodeoffset;
  if offset <? 0 then Some offset else nextprop_ (fuel_of m fdt) m fdt offset.

Definition fdt_next_property_offset (m : memory) (fdt offset : Z) : option Z :=
  offset ← fdt_check_prop_offset_ m fdt offset;
  if offset <? 0 then Some offset else nextprop_ (fuel_of m fdt) m fdt offset.

(** Fields of [struct fdt_property]. *)
Definition prop_len (prop : Z) : Z := prop + 4.
Definition prop_nameoff (prop : Z) : Z := prop + 8.
Definition prop_data (prop : Z) : Z := prop + 12.

Definition fdt_get_property_by_offset_ (m : memory) (fdt offset : Z) : option (option Z * Z) :=
  err ← fdt_check_prop_offset_ m fdt offset;
  if err <? 0 then Some (None, err)
  else
    let prop := fdt_offset_ptr_ m fdt offset in
    Some (Some prop, s32 (fdt32_ld_ m (prop_len prop))).

Definition fdt_get_property_by_offset (m : memory) (fdt offset : Z) : option (option Z * Z) :=
  if fdt_version m fdt <? 0x10 then Some (None, - FDT_ERR_BADVERSION)
  else fdt_get_property_by_offset_ m fdt offset.

(** Returns the property, its length (or the error) and its offset. *)
Fixpoint get_property_loop (fuel : nat) (m : memory) (fdt offset : Z) (name : list Z) (namelen : Z) :
  option (option Z * Z * Z) :=
  match fuel with
  | O => None
  | S fuel =>
    if 0 <=? offset then
      '(prop, len) ← fdt_get_property_by_offset_ m fdt offset;
      match prop with
      | None => Some (None, - FDT_ERR_INTERNAL, 0)
      | Some prop =>
        if fdt_string_eq_ m fdt (s32 (fdt32_ld_ m (prop_nameoff prop))) name namelen
        then Some (Some prop, len, offset)
        else
          offset ← fdt_next_property_offset m fdt offset;
          get_property_loop fuel m fdt offset name namelen
      end
    else Some (None, offset, 0)
  end.

Definition fdt_get_property_namelen_ (m : memory) (fdt offset : Z) (name : list Z) (namelen : Z) :
  option (option Z * Z * Z) :=
  offset ← fdt_first_property_offset m fdt offset;
  get_property_loop (fuel_of m fdt) m fdt offset name namelen.

Definition fdt_get_property_namelen (m : memory) (fdt offset : Z) (name : list Z) (namelen : Z) : option (option Z * Z) :=
  if fdt_version m fdt <? 0x10 then Some (None, - FDT_ERR_BADVERSION)
  else
    '(prop, len, _) ← fdt_get_property_namelen_ m fdt offset name namelen;
    Some (prop, len).

Definition fdt_get_property (m : memory) (fdt nodeoffset : Z) (name : list Z) : option (option Z * Z) :=
  fdt_get_property_namelen m fdt nodeoffset name (s32 (strlen name)).

Definition fdt_getprop_namelen (m : memory) (fdt nodeoffset : Z) (name : list Z) (namelen : Z) : option (option Z * Z) :=
  '(prop, len, poffset) ← fdt_get_property_namelen_ m fdt nodeoffset name namelen;
  match prop with
  | None => Some (None, len)
  | Some prop =>
    if (fdt_version m fdt <? 0x10) && c_true (u64 (poffset + 12) mod 8) && (8 <=? fdt32_ld_ m (prop_len prop))
    then Some (Some (prop_data prop + 4), len) else Some (Some (prop_data prop), len)
  end.

Definition fdt_getprop (m : memory) (fdt nodeoffset : Z) (name : list Z) : option (option Z * Z) :=
  fdt_getprop_namelen m fdt nodeoffset name (s32 (strlen name)).

(** Returns the value, the name and the length. *)
Definition fdt_getprop_by_offset (m : memory) (fdt offset : Z) : option (option Z * option Z * Z) :=
  '(prop, len) ← fdt_get_property_by_offset_ m fdt offset;
  match prop with
  | None => Some (None, None, len)
  | Some prop =>
    let '(name, namelen) := fdt_get_string m fdt (s32 (fdt32_ld_ m (prop_nameoff prop))) in
    match name with
    | None => Some (None, None, namelen)
    | Some name =>
      if (fdt_version m fdt <? 0x10) && c_true (u64 (offset + 12) mod 8) && (8 <=? fdt32_ld_ m (prop_len prop))
      then Some (Some (prop_data prop + 4), Some name, len)
      else Some (Some (prop_data prop), Some name, len)
    end
  end.

(** ** Phandles *)

(** The characters of ["phandle"] and ["linux,phandle"]. *)
Definition str_phandle : list Z := [112; 104; 97; 110; 100; 108; 101].
Definition str_linux_phandle : list Z := [108; 105; 110; 117; 120; 44] ++ str_phandle.

Definition fdt_get_phandle (m : memory) (fdt nodeoffset : Z) : option Z :=
  '(php, len) ← fdt_getprop m fdt nodeoffset str_phandle;
  match php with
  | Some p =>
    if len =? 4 then Some (fdt32_ld_ m p)
    else
      '(php, len) ← fdt_getprop m fdt nodeoffset str_linux_phandle;
      match php with Some p => if len =? 4 then Some (fdt32_ld_ m p) else Some 0 | None => Some 0 end
  | None =>
    '(php, len) ← fdt_getprop m fdt nodeoffset str_linux_phandle;
    match php with Some p => if len =? 4 then Some (fdt32_ld_ m p) else Some 0 | None => Some 0 end
  end.

(** Returns the error code and, on success, [*phandle]. *)
Fixpoint find_max_phandle_loop (fuel : nat) (m : memory) (fdt offset max : Z) : option (Z * Z) :=
  match fuel with
  | O => None
  | S fuel =>
    '(offset, _) ← fdt_next_node m fdt offset None;
    if offset <? 0 then
      if offset =? - FDT_ERR_NOTFOUND then Some (0, max) else Some (offset, 0)
    else
      value ← fdt_get_phandle m fdt offset;
      find_max_phandle_loop fuel m fdt offset (if max <? value then value else max)
  end.

Definition fdt_find_max_phandle (m : memory) (fdt : Z) : option (Z * Z) :=
  find_max_phandle_loop (S (fuel_of m fdt)) m fdt (-1) 0.

Definition fdt_generate_phandle (m : memory) (fdt : Z) : option (Z * Z) :=
  '(err, max) ← fdt_find_max_phandle m fdt;
  if err <? 0 then Some (err, 0)
  else if max =? FDT_MAX_PHANDLE then Some (- FDT_ERR_NOPHANDLES, 0)
  else Some (0, u32 (max + 1)).

Fixpoint by_phandle_loop (fuel : nat) (m : memory) (fdt offset phandle : Z) : option Z :=
  match fuel with
  | O => None
  | S fuel =>
    if 0 <=? offset then
      value ← fdt_get_phandle m fdt offset;
      if value =? phandle then Some offset
      else
        '(offset, _) ← fdt_next_node m fdt offset None;
        by_phandle_loop fuel m fdt offset phandle
    else Some offset
  end.

Definition fdt_node_offset_by_phandle (m : memory) (fdt phandle : Z) : option Z :=
  if (phandle =? 0) || (phandle =? 2 ^ 32 - 1) then Some (- FDT_ERR_BADPHANDLE)
  else if fdt_ro_probe_ m fdt <? 0 then Some (fdt_ro_probe_ m fdt)
  else
    '(offset, _) ← fdt_next_node m fdt (-1) None;
    by_phandle_loop (S (fuel_of m fdt)) m fdt offset phandle.

(** ** Parents *)

(** Returns the supernode offset or error, and [*nodedepth]. *)
Fixpoint supernode_loop (fuel : nat) (m : memory) (fdt offset depth nodeoffset supernodedepth supernodeoffset : Z) :
  option (Z * Z) :=
  match fuel with
  | O => None
  | S fuel =>
    if (0 <=? offset) && (offset <=? nodeoffset) then
      let supernodeoffset := if depth =? supernodedepth then offset else supernodeoffset in
      if offset =? nodeoffset then
        if depth <? supernodedepth then Some (- FDT_ERR_NOTFOUND, depth) else Some (supernodeoffset, depth)
      else
        '(offset, d) ← fdt_next_node m fdt offset (Some depth);
        supernode_loop fuel m fdt offset (default 0 d) nodeoffset supernodedepth supernodeoffset
    else if (offset =? - FDT_ERR_NOTFOUND) || (0 <=? offset) then Some (- FDT_ERR_BADOFFSET, 0)
    else if offset =? - FDT_ERR_BADOFFSET then Some (- FDT_ERR_BADSTRUCTURE, 0)
    else Some (offset, 0)
  end.

Definition fdt_supernode_atdepth_offset (m : memory) (fdt nodeoffset supernodedepth : Z) : option (Z * Z) :=
  if fdt_ro_probe_ m fdt <? 0 then Some (fdt_ro_probe_ m fdt, 0)
  else if supernodedepth <? 0 then Some (- FDT_ERR_NOTFOUND, 0)
  else supernode_loop (S (fuel_of m fdt)) m fdt 0 0 nodeoffset supernodedepth (- FDT_ERR_INTERNAL).

Definition fdt_node_depth (m : memory) (fdt nodeoffset : Z) : option Z :=
  '(err, nodedepth) ← fdt_supernode_atdepth_offset m fdt nodeoffset 0;
  if c_true err then Some (if err <? 0 then err else - FDT_ERR_INTERNAL) else Some nodedepth.

Definition fdt_parent_offset (m : memory) (fdt nodeoffset : Z) : option Z :=
  nodedepth ← fdt_node_depth m fdt nodeoffset;
  if nodedepth <? 0 then Some nodedepth
  else
    '(offset, _) ← fdt_supernode_atdepth_offset m fdt nodeoffset (s32 (nodedepth - 1));
    Some offset.

(** ** Cell counts, [fdt_addresses.c] *)

Definition fdt_cells (m : memory) (fdt nodeoffset : Z) (name : list Z) : option Z :=
  '(c, len) ← fdt_getprop m fdt nodeoffset name;
  match c with
  | None => Some len
  | Some c =>
    if negb (len =? 4) then Some (- FDT_ERR_BADNCELLS)
    else
      let val := fdt32_ld_ m c in
      if FDT_MAX_NCELLS <? val then Some (- FDT_ERR_BADNCELLS) else Some val
  end.

(** The characters of ["#address-cells"] and ["#size-cells"]. *)
Definition str_cells : list Z := [45; 99; 101; 108; 108; 115].
Definition str_address_cells : list Z := [35; 97; 100; 100; 114; 101; 115; 115] ++ str_cells.
Definition str_size_cells : list Z := [35; 115; 105; 122; 101] ++ str_cells.

Definition fdt_address_cells (m : memory) (fdt nodeoffset : Z) : option Z :=
  val ← fdt_cells m fdt nodeoffset str_address_cells;
  if val =? 0 then Some (- FDT_ERR_BADNCELLS)
  else if val =? - FDT_ERR_NOTFOUND then Some 2
  else Some val.

Definition fdt_size_cells (m : memory) (fdt nodeoffset : Z) : option Z :=
  val ← fdt_cells m fdt nodeoffset str_size_cells;
  if val =? - FDT_ERR_NOTFOUND then Some 1 else Some val.

(** ** [fdt_check.c] *)

Fixpoint check_full_loop (fuel : nat) (m : memory) (fdt nextoffset depth : Z) (expect_end : bool) : option Z :=
  match fuel with
  | O => None
  | S fuel =>
    let offset := nextoffset in
    '(tag, nextoffset) ← fdt_next_tag m fdt offset;
    if nextoffset <? 0 then Some nextoffset
    else if expect_end && negb (tag =? FDT_END) then Some (- FDT_ERR_BADSTRUCTURE)
    else if tag =? FDT_NOP then check_full_loop fuel m fdt nextoffset depth expect_end
    else if tag =? FDT_END then
      if negb (depth =? 0) then Some (- FDT_ERR_BADSTRUCTURE) else Some 0
    else if tag =? FDT_BEGIN_NODE then
      let depth := u32 (depth + 1) in
      if INT_MAX <? depth then Some (- FDT_ERR_BADSTRUCTURE)
      else if depth =? 1 then
        '(name, len) ← fdt_get_name m fdt offset;
        match name with
        | None => Some len
        | Some name =>
          if negb (ld8 m name =? 0) || c_true len then Some (- FDT_ERR_BADSTRUCTURE)
          else check_full_loop fuel m fdt nextoffset depth expect_end
        end
      else check_full_loop fuel m fdt nextoffset depth expect_end
    else if tag =? FDT_END_NODE then
      if depth =? 0 then Some (- FDT_ERR_BADSTRUCTURE)
      else
        let depth := u32 (depth - 1) in
        check_full_loop fuel m fdt nextoffset depth (if depth =? 0 then true else expect_end)
    else if tag =? FDT_PROP then
      '(prop, _, err) ← fdt_getprop_by_offset m fdt offset;
      match (prop : option Z) with
      | None => Some err
      | Some _ => check_full_loop fuel m fdt nextoffset depth expect_end
      end
    else Some (- FDT_ERR_INTERNAL)
  end.

Definition fdt_check_full (m : memory) (fdt bufsize : Z) : option Z :=
  if bufsize <? FDT_V1_SIZE then Some (- FDT_ERR_TRUNCATED)
  else if bufsize <? fdt_header_size m fdt then Some (- FDT_ERR_TRUNCATED)
  else
    let err := fdt_check_header m fdt in
    if c_true err then Some err
    else if bufsize <? fdt_totalsize m fdt then Some (- FDT_ERR_TRUNCATED)
    else
      num_memrsv ← fdt_num_mem_rsv m fdt;
      if num_memrsv <? 0 then Some num_memrsv
      else check_full_loop (fuel_of m fdt) m fdt 0 0 false.
