(* ===== verification/FdtSafe.v ===== *)
(** libfdt, safety of the readers: on every blob that [fdt_check_header] accepts,
    whatever its contents, the functions of [Fdt] and [FdtRo] return, and their
    results depend on the bytes of the blob alone.

    Both are shown at once with [ret], a postcondition calculus for two runs of a
    function: on the memory of the blob and on another that agrees with it on the
    blob's bytes. *)
From S2P Require Import Prelude Memory KlibString Fdt FdtRo.
#[local] Open Scope Z_scope.
#[local] Open Scope cint_scope.

(** ** Two runs *)

(** Both runs return, with the same result, which satisfies [P]. *)
Definition ret {A} (o o' : option A) (P : A -> Prop) : Prop := exists r, o = Some r /\ o' = Some r /\ P r.

Lemma ret_some {A} (x : A) (P : A -> Prop) : P x -> ret (Some x) (Some x) P.
Proof. by exists x. Qed.

Lemma ret_bind {A B} (o o' : option A) (k k' : A -> option B) P Q :
  ret o o' P -> (forall r, P r -> ret (k r) (k' r) Q) -> ret (o ≫= k) (o' ≫= k') Q.
Proof. intros (r & -> & -> & H) Hk. by apply Hk. Qed.

Lemma ret_mono {A} (o o' : option A) (P Q : A -> Prop) : ret o o' P -> (forall r, P r -> Q r) -> ret o o' Q.
Proof. intros (r & ? & ? & H) HQ. exists r. eauto. Qed.

Lemma ret_if {A} (b : bool) (x y x' y' : option A) P :
  (b = true -> ret x x' P) -> (b = false -> ret y y' P) -> ret (if b then x else y) (if b then x' else y') P.
Proof. destruct b; auto. Qed.

(** ** Words *)

(** A value of type [int]. *)
Definition int (z : Z) : Prop := - 2 ^ 31 <= z < 2 ^ 31.

Lemma s32_int z : int (s32 z).
Proof. unfold int, sw. pose proof (uw_range 32 z ltac:(lia)). case_if; pow2; lia. Qed.

Lemma s32_small z : int z -> s32 z = z.
Proof.
  unfold int. intros. destruct (decide (0 <= z)); [apply sw_small; pow2; lia|].
  unfold sw. assert (uw 32 z = z + 2 ^ 32) as ->; [|case_if; pow2; lia].
  unfold uw. rewrite <- (Z_mod_plus_full z 1). apply Z.mod_small. pow2; lia.
Qed.

Lemma u32_s32_add z a : u32 (s32 z + a) = u32 (z + a).
Proof.
  unfold sw. case_if; [by apply uw_add_l|]. replace (uw 32 z - 2 ^ 32 + a) with (uw 32 z + a + (-1) * 2 ^ 32) by lia.
  unfold uw at 1. rewrite Z_mod_plus_full. by apply uw_add_l.
Qed.

Lemma s32_s32_add z a : s32 (s32 z + a) = s32 (z + a).
Proof. unfold sw at 1 3. by rewrite u32_s32_add. Qed.

Lemma fdt32_ld_range m p : 0 <= fdt32_ld m p < 2 ^ 32.
Proof.
  unfold fdt32_ld. pose proof (ld8_range m (p + 3)).
  repeat apply lor_range; try (apply uw_range); pow2; lia.
Qed.

Lemma fdt32_ld__range m p : 0 <= fdt32_ld_ m p < 2 ^ 32.
Proof. apply uw_range. lia. Qed.

Lemma fdt32_ld_ext m m' p : same_on p (p + 4) m m' -> fdt32_ld m' p = fdt32_ld m p.
Proof. intros H. unfold fdt32_ld, ld8. rewrite !H by lia. done. Qed.

Lemma fdt32_ld__ext m m' p : same_on p (p + 4) m m' -> fdt32_ld_ m' p = fdt32_ld_ m p.
Proof. intros H. unfold fdt32_ld_, ld32. by rewrite (ldn_ext 4 m m'). Qed.

Lemma fdt64_ld__ext m m' p : same_on p (p + 8) m m' -> fdt64_ld_ m' p = fdt64_ld_ m p.
Proof. intros H. unfold fdt64_ld_. by rewrite (ld64_ext m m'). Qed.

Lemma memcmp_eq_ext m m' n p s :
  same_on p (p + Z.of_nat n) m m' -> memcmp_eq n m' p s = memcmp_eq n m p s.
Proof.
  revert p s. induction n as [|n IH]; intros p s H; cbn; [done|].
  unfold ld8. rewrite (H p) by lia. rewrite IH; [done|]. intros x Hx. apply H. lia.
Qed.

Lemma memchr_loop_ext m m' n p c :
  same_on p (p + Z.of_nat n) m m' -> memchr_loop n m' p c = memchr_loop n m p c.
Proof.
  revert p. induction n as [|n IH]; intros p H; cbn; [done|].
  unfold ld8. rewrite (H p) by lia. rewrite IH; [done|]. intros x Hx. apply H. lia.
Qed.

(** ** Headers *)

(** What [fdt_check_header] establishes; [struct_size] is the number of bytes of
    the structure block that can be used. *)
Definition struct_size (m : memory) (fdt : Z) : Z :=
  if fdt_version m fdt <? 17 then fdt_totalsize m fdt - fdt_off_dt_struct m fdt else fdt_size_dt_struct m fdt.

Record good_header (m : memory) (fdt : Z) : Prop := {
  gh_align : fdt .& 7 = 0;
  gh_magic : fdt_magic m fdt = FDT_MAGIC;
  gh_version : FDT_FIRST_SUPPORTED_VERSION <= fdt_version m fdt;
  gh_last : fdt_last_comp_version m fdt <= FDT_LAST_SUPPORTED_VERSION;
  gh_total : fdt_header_size m fdt <= fdt_totalsize m fdt <= INT_MAX;
  gh_rsv : fdt_header_size m fdt <= fdt_off_mem_rsvmap m fdt <= fdt_totalsize m fdt;
  gh_struct : fdt_header_size m fdt <= fdt_off_dt_struct m fdt;
  gh_struct_end : 0 <= struct_size m fdt /\ fdt_off_dt_struct m fdt + struct_size m fdt <= fdt_totalsize m fdt;
  gh_strings : fdt_header_size m fdt <= fdt_off_dt_strings m fdt;
  gh_strings_end : fdt_off_dt_strings m fdt + fdt_size_dt_strings m fdt <= fdt_totalsize m fdt
}.

Lemma check_off_true h t o : check_off_ h t o = true -> h <= o <= t.
Proof. unfold check_off_. intros. zb. lia. Qed.

Lemma check_block_true h t b s :
  0 <= b < 2 ^ 32 -> 0 <= s < 2 ^ 32 -> check_block_ h t b s = true -> h <= b /\ b + s <= t.
Proof.
  intros Hb Hs. unfold check_block_.
  destruct (check_off_ h t b) eqn:E1; [|done]. apply check_off_true in E1. cbn [negb].
  case_if; [done|]. destruct (check_off_ h t (u32 (b + s))) eqn:E2; [|done]. apply check_off_true in E2.
  intros _. destruct (decide (b + s < 2 ^ 32)); [rewrite uw_small in E2; lia|].
  exfalso. revert E. unfold uw. rewrite <- (Z_mod_plus_full (b + s) (-1)), Z.mod_small; pow2; lia.
Qed.

Lemma check_header_good m fdt : fdt_check_header m fdt = 0 -> good_header m fdt.
Proof.
  unfold fdt_check_header. intros H. repeat (case_if_in H; try done). unfold c_true in *. zb. clear H.
  repeat match goal with H : check_off_ _ _ _ = true |- _ => apply check_off_true in H end.
  assert (Hst : fdt_off_dt_strings m fdt + fdt_size_dt_strings m fdt <= fdt_totalsize m fdt
    /\ fdt_header_size m fdt <= fdt_off_dt_strings m fdt).
  { match goal with H : check_block_ _ _ (fdt_off_dt_strings _ _) _ = true |- _ =>
      apply check_block_true in H; [lia|apply fdt32_ld_range..] end. }
  assert (Hsr : fdt_header_size m fdt <= fdt_off_dt_struct m fdt /\ 0 <= struct_size m fdt
    /\ fdt_off_dt_struct m fdt + struct_size m fdt <= fdt_totalsize m fdt).
  { unfold struct_size. pose proof (fdt32_ld_range m (fdt + 36)).
    change (fdt32_ld m (fdt + 36)) with (fdt_size_dt_struct m fdt) in *.
    match goal with H : context [fdt_version m fdt <? 17] |- _ => revert H end.
    destruct (_ <? 17); intros Hc; [apply check_off_true in Hc; lia|].
    apply check_block_true in Hc; [lia|apply fdt32_ld_range..]. }
  split; try done; lia.
Qed.

Lemma header_size_bounds m fdt : FDT_FIRST_SUPPORTED_VERSION <= fdt_version m fdt ->
  32 <= fdt_header_size m fdt /\ (fdt_version m fdt < 17 \/ fdt_header_size m fdt = 40).
Proof.
  unfold fdt_header_size, fdt_header_size_, FDT_FIRST_SUPPORTED_VERSION. intros.
  repeat case_if; split; unfold FDT_V17_SIZE, FDT_V16_SIZE, FDT_V3_SIZE, FDT_V2_SIZE, FDT_V1_SIZE; lia.
Qed.

(** With a good header, [fdt_offset_ptr] is a range check. *)
Definition in_struct (m : memory) (fdt off len : Z) : bool := (0 <=? off) && (off + len <=? struct_size m fdt).

Lemma geometry m fdt : good_header m fdt ->
  32 <= fdt_off_dt_struct m fdt /\ 0 <= struct_size m fdt
  /\ fdt_off_dt_struct m fdt + struct_size m fdt <= fdt_totalsize m fdt < 2 ^ 31.
Proof.
  intros H. pose proof (header_size_bounds m fdt (gh_version _ _ H)).
  pose proof (gh_total _ _ H). pose proof (gh_struct _ _ H). pose proof (gh_struct_end _ _ H).
  unfold INT_MAX in *. lia.
Qed.

Lemma u32_wraps a b : 0 <= a < 2 ^ 32 -> 0 <= b < 2 ^ 32 -> (u32 (a + b) <? a) = (2 ^ 32 <=? a + b).
Proof.
  intros. unfold uw. destruct (decide (a + b < 2 ^ 32)).
  - rewrite Z.mod_small by lia. apply eq_true_iff_eq. rewrite Z.ltb_lt, Z.leb_le. lia.
  - rewrite <- (Z_mod_plus_full (a + b) (-1)), Z.mod_small by (pow2; lia).
    apply eq_true_iff_eq. rewrite Z.ltb_lt, Z.leb_le. pow2. lia.
Qed.

Lemma offset_ptr_eq m fdt off len : good_header m fdt -> int off -> 0 <= len < 2 ^ 32 ->
  fdt_offset_ptr m fdt off len = if in_struct m fdt off len then Some (fdt_offset_ptr_ m fdt off) else None.
Proof.
  intros Hg Hoff Hlen. pose proof (geometry _ _ Hg) as Hgeo. unfold int in Hoff.
  unfold fdt_offset_ptr, in_struct. destruct (decide (off < 0)).
  { rewrite (proj2 (Z.ltb_lt _ _)), (proj2 (Z.leb_gt _ _)) by lia. done. }
  rewrite (proj2 (Z.ltb_ge off 0)), (proj2 (Z.leb_le 0 off)) by lia. cbn [andb].
  rewrite (uw_small 32 off), (uw_small 32 (off + fdt_off_dt_struct m fdt)) by lia. rewrite !u32_wraps by lia.
  rewrite (proj2 (Z.ltb_ge (off + fdt_off_dt_struct m fdt) off)) by lia. cbn [orb].
  destruct (decide (off + fdt_off_dt_struct m fdt + len < 2 ^ 32)).
  2:{ rewrite (proj2 (Z.leb_le (2 ^ 32) (off + fdt_off_dt_struct m fdt + len))) by lia. cbn [orb].
      rewrite (proj2 (Z.leb_gt (off + len) _)) by lia. done. }
  rewrite (proj2 (Z.leb_gt (2 ^ 32) _)), (uw_small 32 (off + fdt_off_dt_struct m fdt + len)) by lia. cbn [orb].
  rewrite (proj2 (Z.leb_gt (2 ^ 32) (off + len))), (uw_small 32 (off + len)) by lia. cbn [orb].
  unfold struct_size in *. destruct (fdt_version m fdt <? 17) eqn:Ev; zb.
  - rewrite (proj2 (Z.leb_gt 17 _)) by lia. cbn [andb]. case_if; case_if; zb; try done; lia.
  - rewrite (proj2 (Z.leb_le 17 _)) by lia. cbn [andb]. repeat case_if; zb; try done; lia.
Qed.

(** *** Tags *)

Definition align4 (x : Z) : Z := (x + 3) / 4 * 4.

Lemma align4_bounds x : x <= align4 x <= x + 3.
Proof. unfold align4. Z.to_euclidean_division_equations. lia. Qed.

Lemma tagalign_eq x : 0 <= x < 2 ^ 31 - 4 -> FDT_TAGALIGN x = align4 x.
Proof.
  intros Hx. unfold FDT_TAGALIGN, FDT_TAGSIZE, align4.
  rewrite (uw_small 64 (x + 4 - 1)), uw_land, (Z.land_comm (Z.lnot _)), Z.land_assoc, <- uw_land, uw_small by (pow2; lia).
  change (4 - 1) with (Z.ones 2). rewrite <- Z.ldiff_land, Z.ldiff_ones_r, shiftl_pow2, shiftr_pow2 by lia.
  change (2 ^ 2) with 4. replace (x + 4 - Z.ones 2 + 2) with (x + 3) by (change (Z.ones 2) with 3; lia).
  replace (x + 4 - 1) with (x + 3) by lia. apply s32_small. pose proof (align4_bounds x). unfold align4, int in *. pow2. lia.
Qed.

(** The contents of the tag [tag] at offset [off] end at [e]. *)
Definition tag_body (m : memory) (fdt off tag e : Z) : Prop :=
  (tag = FDT_BEGIN_NODE /\ off + 4 < e /\ ld8 m (fdt_offset_ptr_ m fdt (e - 1)) = 0
     /\ forall k, off + 4 <= k < e - 1 -> ld8 m (fdt_offset_ptr_ m fdt k) <> 0)
  \/ (tag = FDT_PROP /\ (let len := fdt32_ld_ m (fdt_offset_ptr_ m fdt (off + 4)) in
        e = off + 12 + len
          + if (fdt_version m fdt <? 16) && (8 <=? len) && negb ((off + 12) mod 8 =? 0) then 4 else 0))
  \/ ((tag = FDT_END \/ tag = FDT_END_NODE \/ tag = FDT_NOP) /\ e = off + 4).

(** A complete tag at [off], followed by [n]. *)
Definition token (m : memory) (fdt off tag n : Z) : Prop :=
  0 <= off /\ tag = fdt32_ld_ m (fdt_offset_ptr_ m fdt off)
  /\ exists e, tag_body m fdt off tag e /\ off + 4 <= e <= struct_size m fdt /\ n = align4 e.

Lemma token_next m fdt off tag n : token m fdt off tag n ->
  0 <= off /\ off + 4 <= struct_size m fdt /\ off + 4 <= n <= struct_size m fdt + 3 /\ n mod 4 = 0.
Proof. intros (? & _ & e & _ & ? & ->). pose proof (align4_bounds e). unfold align4 in *. rewrite Z.mod_mul by lia. lia. Qed.

(** *** Strings *)

(** A string of [l] characters at [p], inside the blob with its terminator. *)
Definition str_at (m : memory) (fdt p l : Z) : Prop :=
  0 <= l /\ fdt <= p /\ p + l < fdt + fdt_totalsize m fdt
  /\ ld8 m (p + l) = 0 /\ forall k, 0 <= k < l -> ld8 m (p + k) <> 0.

Section Runs.
Context (m m' : memory) (fdt : Z).
Context (Hg : good_header m fdt) (Hs : same_on fdt (fdt + Z.max 36 (fdt_totalsize m fdt)) m m').

(** *** The header *)

Lemma run_word k : 0 <= k -> k + 4 <= Z.max 36 (fdt_totalsize m fdt) -> fdt32_ld m' (fdt + k) = fdt32_ld m (fdt + k).
Proof. intros. apply fdt32_ld_ext. eapply same_on_weaken; [exact Hs|lia..]. Qed.

Lemma run_magic : fdt_magic m' fdt = fdt_magic m fdt.
Proof. unfold fdt_magic. rewrite <- (Z.add_0_r fdt). apply run_word; lia. Qed.

Lemma run_totalsize : fdt_totalsize m' fdt = fdt_totalsize m fdt.
Proof. apply run_word; lia. Qed.

Lemma run_off_struct : fdt_off_dt_struct m' fdt = fdt_off_dt_struct m fdt.
Proof. apply run_word; lia. Qed.

Lemma run_off_strings : fdt_off_dt_strings m' fdt = fdt_off_dt_strings m fdt.
Proof. apply run_word; lia. Qed.

Lemma run_off_rsv : fdt_off_mem_rsvmap m' fdt = fdt_off_mem_rsvmap m fdt.
Proof. apply run_word; lia. Qed.

Lemma run_version : fdt_version m' fdt = fdt_version m fdt.
Proof. apply run_word; lia. Qed.

Lemma run_last : fdt_last_comp_version m' fdt = fdt_last_comp_version m fdt.
Proof. apply run_word; lia. Qed.

Lemma run_size_strings : fdt_size_dt_strings m' fdt = fdt_size_dt_strings m fdt.
Proof. apply run_word; lia. Qed.

Lemma run_struct_size : struct_size m' fdt = struct_size m fdt.
Proof.
  unfold struct_size. rewrite run_version, run_totalsize, run_off_struct. case_if; [done|].
  pose proof (header_size_bounds m fdt (gh_version _ _ Hg)). pose proof (gh_total _ _ Hg).
  apply run_word; lia.
Qed.

Lemma run_header_size : fdt_header_size m' fdt = fdt_header_size m fdt.
Proof. unfold fdt_header_size. by rewrite run_version. Qed.

Lemma run_fuel : fuel_of m' fdt = fuel_of m fdt.
Proof. unfold fuel_of. by rewrite run_totalsize. Qed.

Lemma run_good : good_header m' fdt.
Proof.
  destruct Hg. split;
    rewrite ?run_magic, ?run_totalsize, ?run_off_struct, ?run_off_strings, ?run_off_rsv, ?run_version, ?run_last,
      ?run_size_strings, ?run_struct_size, ?run_header_size; done.
Qed.

Lemma run_ptr_ off : fdt_offset_ptr_ m' fdt off = fdt_offset_ptr_ m fdt off.
Proof. unfold fdt_offset_ptr_. by rewrite run_off_struct. Qed.

Lemma run_ptr off len : int off -> 0 <= len < 2 ^ 32 -> fdt_offset_ptr m' fdt off len = fdt_offset_ptr m fdt off len.
Proof.
  intros. rewrite !offset_ptr_eq by (done || apply run_good). unfold in_struct.
  by rewrite run_struct_size, run_ptr_.
Qed.

Lemma probe_good m0 : good_header m0 fdt ->
  fdt_ro_probe_ m0 fdt = if fdt_totalsize m0 fdt <? INT_MAX then fdt_totalsize m0 fdt else - FDT_ERR_TRUNCATED.
Proof.
  intros [Ha Hm Hv Hl]. unfold fdt_ro_probe_. rewrite Ha, Hm. cbn [c_true negb Z.eqb].
  rewrite Z.eqb_refl, (proj2 (Z.ltb_ge _ _)), (proj2 (Z.ltb_ge FDT_LAST_SUPPORTED_VERSION _)) by done. done.
Qed.

Lemma run_probe : fdt_ro_probe_ m' fdt = fdt_ro_probe_ m fdt.
Proof. rewrite !probe_good by (done || apply run_good). by rewrite run_totalsize. Qed.

(** *** Loads inside the blob *)

Lemma run_struct_bytes off len : 0 <= off -> off + len <= struct_size m fdt ->
  same_on (fdt_offset_ptr_ m fdt off) (fdt_offset_ptr_ m fdt off + len) m m'.
Proof.
  intros. pose proof (geometry _ _ Hg). unfold fdt_offset_ptr_. eapply same_on_weaken; [exact Hs|lia..].
Qed.

Lemma run_tag off : in_struct m fdt off 4 = true -> fdt32_ld_ m' (fdt_offset_ptr_ m fdt off) = fdt32_ld_ m (fdt_offset_ptr_ m fdt off).
Proof. unfold in_struct. intros. zb. apply fdt32_ld__ext, run_struct_bytes; lia. Qed.

Lemma run_ld8 off : in_struct m fdt off 1 = true -> ld8 m' (fdt_offset_ptr_ m fdt off) = ld8 m (fdt_offset_ptr_ m fdt off).
Proof.
  unfold in_struct. intros. zb. unfold ld8. f_equal. apply (run_struct_bytes off 1); lia.
Qed.

(** *** [fdt_next_tag] *)

Lemma run_skip_name fuel off : 0 <= off <= struct_size m fdt + 16 -> struct_size m fdt - off < Z.of_nat fuel -> 0 < Z.of_nat fuel ->
  ret (skip_name fuel m fdt off) (skip_name fuel m' fdt off) (fun '(p, o) =>
    match p with
    | None => True
    | Some _ => off < o <= struct_size m fdt /\ ld8 m (fdt_offset_ptr_ m fdt (o - 1)) = 0
                /\ forall k, off <= k < o - 1 -> ld8 m (fdt_offset_ptr_ m fdt k) <> 0
    end).
Proof.
  pose proof (geometry _ _ Hg) as Hgeo. revert off. induction fuel as [|fuel IH]; intros off Hoff Hf Hf0; [lia|].
  cbn [skip_name]. rewrite run_ptr, offset_ptr_eq by (done || unfold int; pow2; lia).
  rewrite s32_small by (unfold int; pow2; lia).
  destruct (in_struct m fdt off 1) eqn:Hin; [|by apply ret_some].
  rewrite run_ld8 by done. unfold in_struct in Hin. zb.
  destruct (ld8 m (fdt_offset_ptr_ m fdt off) =? 0) eqn:E0; zb; cbn [negb].
  - apply ret_some. split; [lia|]. replace (off + 1 - 1) with off by lia. split; [done|]. intros k Hk. lia.
  - eapply ret_mono; [apply IH; lia|]. intros [[p|] o]; [|done]. intros (Ho & Hz & Hk). split; [lia|]. split; [done|].
    intros k Hk'. destruct (decide (k = off)) as [->|]; [done|]. apply Hk. lia.
Qed.

Lemma fuel_enough : struct_size m fdt + 32 < Z.of_nat (fuel_of m fdt).
Proof. unfold fuel_of. pose proof (geometry _ _ Hg). lia. Qed.

Definition tag_result (off : Z) (r : Z * Z) : Prop :=
  r.1 = FDT_END /\ - 20 < r.2 < 0 \/ token m fdt off r.1 r.2.

Lemma run_close_tag off tag e : 0 <= off < 2 ^ 31 -> off + 4 <= e < off + 2 ^ 32 ->
  tag = fdt32_ld_ m (fdt_offset_ptr_ m fdt off) -> tag_body m fdt off tag e ->
  ret (Some (close_tag m fdt off tag (s32 e))) (Some (close_tag m' fdt off tag (s32 e))) (tag_result off).
Proof.
  intros Hoff He Htag Hbody. pose proof (geometry _ _ Hg) as Hgeo. unfold close_tag.
  replace (s32 e - off) with (s32 e + - off) by lia. rewrite u32_s32_add, (uw_small 32) by lia.
  rewrite run_ptr, offset_ptr_eq by (done || unfold int; lia).
  destruct (in_struct m fdt off (e + - off)) eqn:Hin; apply ret_some; [right|left].
  - unfold in_struct in Hin. zb. cbn. split; [lia|]. split; [done|]. exists e. split; [done|]. split; [lia|].
    rewrite s32_small by (unfold int; lia). apply tagalign_eq. pow2. lia.
  - cbn. unfold FDT_ERR_BADSTRUCTURE. split; [done|lia].
Qed.

Lemma run_prop_tag off : in_struct m fdt off 4 = true -> fdt32_ld_ m (fdt_offset_ptr_ m fdt off) = FDT_PROP ->
  int off -> let offset := s32 (off + FDT_TAGSIZE) in
  let k m := match fdt_offset_ptr m fdt offset 4 with
      | None => Some (FDT_END, - FDT_ERR_BADSTRUCTURE)
      | Some lenp =>
        let len := fdt32_ld_ m lenp in
        let sum := u32 (len + offset) in
        if (INT_MAX <=? sum) || (sum <? u32 offset) then Some (FDT_END, - FDT_ERR_BADSTRUCTURE)
        else
          let offset := s32 (offset + (12 - FDT_TAGSIZE) + len) in
          let offset :=
            if (fdt_version m fdt <? 0x10) && (8 <=? len) && negb (u32 (offset - len) mod 8 =? 0)
            then s32 (offset + 4) else offset in
          Some (close_tag m fdt off FDT_PROP offset)
      end in ret (k m) (k m') (tag_result off).
Proof.
  intros Hin Htag Hint offset k. pose proof (geometry _ _ Hg) as Hgeo. pose proof Hin as Hin'.
  unfold in_struct in Hin'. zb. unfold k, offset, FDT_TAGSIZE.
  rewrite (s32_small (off + 4)) by (unfold int; lia). rewrite run_ptr, offset_ptr_eq by (done || unfold int; lia).
  assert (Herr : tag_result off (FDT_END, - FDT_ERR_BADSTRUCTURE))
    by (left; cbn; unfold FDT_ERR_BADSTRUCTURE; split; [done|lia]).
  destruct (in_struct m fdt (off + 4) 4) eqn:Hin2; [|by apply ret_some].
  cbv zeta. rewrite run_tag, run_version by done. set (len := fdt32_ld_ m (fdt_offset_ptr_ m fdt (off + 4))).
  assert (Hlen : 0 <= len < 2 ^ 32) by apply fdt32_ld__range.
  rewrite (uw_small 32 (off + 4)), Z.add_comm, u32_wraps by (unfold INT_MAX in *; lia).
  destruct (_ || _) eqn:Hov; [by apply ret_some|]. zb. rewrite (uw_small 32) in * by lia. unfold INT_MAX in *.
  replace (off + 4 + (12 - 4) + len) with (off + 12 + len) by lia.
  replace (s32 (off + 12 + len) - len) with (s32 (off + 12 + len) + - len) by lia.
  rewrite u32_s32_add, s32_s32_add. replace (off + 12 + len + - len) with (off + 12) by lia.
  rewrite (uw_small 32 (off + 12)) by lia.
  assert (Hb : tag_body m fdt off FDT_PROP (off + 12 + len
    + if (fdt_version m fdt <? 16) && (8 <=? len) && negb ((off + 12) mod 8 =? 0) then 4 else 0)) by (right; left; done).
  destruct (_ && _ && _) eqn:Hal; zb; [apply run_close_tag; (lia || done)|].
  rewrite Z.add_0_r in Hb. apply run_close_tag; (lia || done).
Qed.

Lemma run_next_tag off : int off -> ret (fdt_next_tag m fdt off) (fdt_next_tag m' fdt off) (tag_result off).
Proof.
  intros Hint. pose proof (geometry _ _ Hg) as Hgeo. unfold fdt_next_tag.
  rewrite run_ptr, offset_ptr_eq, run_fuel by (done || unfold FDT_TAGSIZE; lia).
  change (in_struct m fdt off FDT_TAGSIZE) with (in_struct m fdt off 4).
  destruct (in_struct m fdt off 4) eqn:Hin.
  2:{ apply ret_some. left. cbn. unfold FDT_ERR_TRUNCATED. split; [done|lia]. }
  rewrite run_tag by done. pose proof Hin as Hin'. unfold in_struct in Hin'. zb. cbv zeta.
  set (tag := fdt32_ld_ m (fdt_offset_ptr_ m fdt off)).
  destruct (tag =? FDT_BEGIN_NODE) eqn:E1; zb.
  { unfold FDT_TAGSIZE. rewrite (s32_small (off + 4)) by (unfold int; lia). pose proof fuel_enough.
    eapply ret_bind; [apply run_skip_name; lia|]. intros [[p|] o]; [|intros _; apply ret_some; left; cbn; unfold FDT_ERR_BADSTRUCTURE; split; [done|lia]].
    intros (Ho & Hz & Hk). rewrite <- (s32_small o) by (unfold int; lia). apply run_close_tag; [lia|lia|done|].
    left. split; [done|]. split; [lia|]. done. }
  destruct (tag =? FDT_PROP) eqn:E2; zb; [rewrite E2; by apply run_prop_tag|].
  destruct (_ || _ || _) eqn:E3.
  - apply run_close_tag; [lia|unfold FDT_TAGSIZE; lia|done|]. right; right. split; [|done].
    apply orb_true_iff in E3 as [E3|E3]; [apply orb_true_iff in E3 as [E3|E3]|]; zb; auto.
  - apply ret_some. left. cbn. unfold FDT_ERR_BADSTRUCTURE. split; [done|lia].
Qed.

(** *** Nodes *)

(** An error of libfdt. *)
Definition err_code (z : Z) : Prop := - 20 < z < 0.

Lemma token_int off tag n : token m fdt off tag n -> int off /\ int n.
Proof. intros H%token_next. pose proof (geometry _ _ Hg). unfold int. pow2. lia. Qed.

Lemma run_check_node off : int off ->
  ret (fdt_check_node_offset_ m fdt off) (fdt_check_node_offset_ m' fdt off)
    (fun r => err_code r \/ token m fdt off FDT_BEGIN_NODE r).
Proof.
  intros Hint. unfold fdt_check_node_offset_. destruct (_ || _) eqn:E; [apply ret_some; by left|].
  eapply ret_bind; [by apply run_next_tag|]. intros [tag n] Hr. cbv beta iota.
  destruct (tag =? FDT_BEGIN_NODE) eqn:Et; zb; cbn [negb]; apply ret_some; [|by left].
  destruct Hr as [[Ht _]|Ht]; cbn in Ht; [by rewrite Et in Ht|]. right. by rewrite <- Et.
Qed.

Lemma run_check_prop off : int off ->
  ret (fdt_check_prop_offset_ m fdt off) (fdt_check_prop_offset_ m' fdt off)
    (fun r => err_code r \/ token m fdt off FDT_PROP r).
Proof.
  intros Hint. unfold fdt_check_prop_offset_. destruct (_ || _) eqn:E; [apply ret_some; by left|].
  eapply ret_bind; [by apply run_next_tag|]. intros [tag n] Hr. cbv beta iota.
  destruct (tag =? FDT_PROP) eqn:Et; zb; cbn [negb]; apply ret_some; [|by left].
  destruct Hr as [[Ht _]|Ht]; cbn in Ht; [by rewrite Et in Ht|]. right. by rewrite <- Et.
Qed.

(** Fuel for a walk that goes on at [off]. *)
Definition fuelled (fuel : nat) (off : Z) : Prop :=
  0 < Z.of_nat fuel /\ struct_size m fdt - Z.max off (-1) < Z.of_nat fuel.

Lemma fuelled_step fuel off off' : fuelled (S fuel) off -> off + 4 <= struct_size m fdt -> off < off' -> -1 <= off ->
  fuelled fuel off'.
Proof. unfold fuelled. lia. Qed.

Lemma fuelled_start off : fuelled (fuel_of m fdt) off.
Proof. unfold fuelled. pose proof fuel_enough. pose proof (geometry _ _ Hg). lia. Qed.

(** Result of looking for a node from [off]: an error, a node at or after [off],
    or, when the depth became negative, some offset. *)
Definition node_result (off : Z) (depth : option Z) (r : Z * option Z) : Prop :=
  err_code r.1
  \/ (off <= r.1 /\ exists n, token m fdt r.1 FDT_BEGIN_NODE n)
  \/ is_Some depth /\ exists d, r.2 = Some d /\ d < 0 /\ int r.1 /\ off < r.1 /\ off + 4 <= struct_size m fdt.

Lemma run_next_node_loop fuel off depth : int off -> fuelled fuel off ->
  ret (next_node_loop fuel m fdt off depth) (next_node_loop fuel m' fdt off depth) (node_result off depth).
Proof.
  revert off depth. induction fuel as [|fuel IH]; intros off depth Hint Hf; [destruct Hf; lia|].
  cbn [next_node_loop]. eapply ret_bind; [by apply run_next_tag|]. intros [tag n] Hr. cbv beta iota.
  assert (Hgo : tag <> FDT_END -> token m fdt off tag n) by (intros; destruct Hr as [[]|]; [done|done]).
  assert (Hnext : forall d, (is_Some d -> is_Some depth) -> tag <> FDT_END ->
    ret (next_node_loop fuel m fdt n d) (next_node_loop fuel m' fdt n d) (node_result off depth)).
  { intros d Hsd Ht. specialize (Hgo Ht). pose proof (token_next _ _ _ _ _ Hgo). pose proof (token_int _ _ _ Hgo).
    eapply ret_mono; [apply IH; [tauto|eapply fuelled_step; eauto; lia]|].
    intros r [?|[(? & ?)|(? & d' & ? & ? & ? & ? & ?)]]; [by left|right; left; split; [lia|done]|].
    right; right. split; [auto|]. exists d'. do 3 (split; [done|]). lia. }
  destruct (_ || _) eqn:E1; [apply Hnext; [done|]; apply orb_true_iff in E1 as [E1|E1]; zb; by rewrite E1|].
  destruct (tag =? FDT_BEGIN_NODE) eqn:E2; zb.
  { apply ret_some. right; left. cbn. split; [lia|]. exists n. rewrite <- E2. apply Hgo. by rewrite E2. }
  destruct (tag =? FDT_END_NODE) eqn:E3; zb.
  { assert (tag <> FDT_END) by (by rewrite E3). destruct depth as [d|]; [|by apply Hnext].
    apply ret_if; intros Ed; zb; [|by apply Hnext]. apply ret_some. right; right. split; [done|]. exists (s32 (d - 1)). cbn.
    specialize (Hgo ltac:(done)). pose proof (token_int _ _ _ Hgo). apply token_next in Hgo. do 3 (split; [tauto|]). lia. }
  destruct (_ || _) eqn:E4; apply ret_some; left; [by unfold err_code|]. cbn. apply orb_false_iff in E4 as [E4 _]. zb.
  destruct Hr as [[_ ?]|Ht]; [done|]. apply token_next in Ht. cbn in Ht. lia.
Qed.

Definition next_result (off : Z) (depth : option Z) (r : Z * option Z) : Prop :=
  err_code r.1
  \/ (off < r.1 /\ exists n, token m fdt r.1 FDT_BEGIN_NODE n)
  \/ is_Some depth /\ exists d, r.2 = Some d /\ d < 0 /\ int r.1 /\ off < r.1 /\ Z.max off (-1) + 4 <= struct_size m fdt.

Lemma run_next_node off depth : int off ->
  ret (fdt_next_node m fdt off depth) (fdt_next_node m' fdt off depth) (next_result off depth).
Proof.
  intros Hint. unfold fdt_next_node. rewrite run_fuel. destruct (0 <=? off) eqn:E0; zb.
  - eapply ret_bind; [by apply run_check_node|]. intros n Hr. cbv beta.
    apply ret_if; intros En; zb; [apply ret_some; left; destruct Hr as [?|Ht]; [done|apply token_next in Ht; lia]|].
    destruct Hr as [?|Ht]; [unfold err_code in *; lia|]. pose proof (token_int _ _ _ Ht). apply token_next in Ht.
    eapply ret_mono; [apply run_next_node_loop; [tauto|apply fuelled_start]|].
    intros r [?|[(? & ?)|(? & d' & ? & ? & ? & ? & ?)]]; [by left|right; left; split; [lia|done]|].
    right; right. split; [auto|]. exists d'. do 3 (split; [done|]). lia.
  - eapply ret_mono; [apply run_next_node_loop; [unfold int; lia|apply fuelled_start]|].
    intros r [?|[(? & ?)|(? & d' & ? & ? & ? & ? & ?)]]; [by left|right; left; split; [lia|done]|].
    right; right. split; [auto|]. exists d'. do 3 (split; [done|]). lia.
Qed.

Lemma next_result_int off depth r : next_result off depth r -> int r.1.
Proof.
  intros [?|[(_ & n & Ht)|(_ & d & _ & _ & ? & _)]]; [unfold err_code, int in *; lia|by apply token_int in Ht as []|done].
Qed.

(** A walk that continues at the next node keeps its fuel. *)
Lemma next_fuelled fuel off depth r : fuelled (S fuel) off -> next_result off depth r -> 0 <= r.1 -> fuelled fuel r.1.
Proof.
  intros Hf Hr Hr0. destruct Hr as [?|[(Hlt & n & Ht)|(_ & d & _ & _ & _ & ? & ?)]]; [unfold err_code in *; lia|apply token_next in Ht|];
    unfold fuelled in *; lia.
Qed.

Lemma run_first_subnode off : int off ->
  ret (fdt_first_subnode m fdt off) (fdt_first_subnode m' fdt off)
    (fun r => err_code r \/ off < r /\ exists n, token m fdt r FDT_BEGIN_NODE n).
Proof.
  intros Hint. unfold fdt_first_subnode. eapply ret_bind; [by apply run_next_node|]. intros [o d] Hr. cbv beta iota.
  destruct (_ || _) eqn:E; apply ret_some; [by left|]. zb. cbn in *.
  destruct Hr as [?|[?|(_ & d' & Hd & ? & _)]]; [unfold err_code in *; cbn in *; lia|by right|]. cbn in Hd. subst. cbn in *. lia.
Qed.

Lemma run_next_subnode_loop fuel off depth : int off -> fuelled fuel off ->
  ret (next_subnode_loop fuel m fdt off depth) (next_subnode_loop fuel m' fdt off depth)
    (fun r => err_code r \/ off < r /\ exists n, token m fdt r FDT_BEGIN_NODE n).
Proof.
  revert off depth. induction fuel as [|fuel IH]; intros off depth Hint Hf; [destruct Hf; lia|].
  cbn [next_subnode_loop]. eapply ret_bind; [by apply run_next_node|]. intros [o d] Hr. cbv beta iota zeta.
  destruct (_ || _) eqn:E; [apply ret_some; by left|]. zb.
  pose proof (next_fuelled _ _ _ _ Hf Hr ltac:(cbn; lia)) as Hf'. pose proof (next_result_int _ _ _ Hr) as Hi.
  destruct Hr as [?|[Hr|(_ & d' & Hd & ? & _)]]; cbn in *; [unfold err_code in *; lia| |subst; cbn in *; lia].
  apply ret_if; intros _; [|apply ret_some; by right].
  eapply ret_mono; [by apply IH|]. intros r [?|[? ?]]; [by left|right; split; [lia|done]].
Qed.

Lemma run_next_subnode off : int off ->
  ret (fdt_next_subnode m fdt off) (fdt_next_subnode m' fdt off)
    (fun r => err_code r \/ off < r /\ exists n, token m fdt r FDT_BEGIN_NODE n).
Proof. intros. unfold fdt_next_subnode. rewrite run_fuel. apply run_next_subnode_loop; [done|apply fuelled_start]. Qed.

(** *** Strings and names *)

Lemma run_search s len : fdt <= s -> 0 <= len -> s + len <= fdt + fdt_totalsize m fdt ->
  memchr m' s 0 len = memchr m s 0 len
  /\ (memchr m s 0 len <> 0 -> str_at m fdt s (memchr m s 0 len - s)).
Proof.
  intros Hs0 Hl He. unfold memchr. split.
  - apply memchr_loop_ext. eapply same_on_weaken; [exact Hs|lia..].
  - intros Hn. destruct (memchr_loop_ok (Z.to_nat len) m s (u8 0)) as [[? _]|(Hr & Hz & Hx)]; [done|]. split; [lia|]. split; [lia|].
    split; [lia|]. replace (s + (_ - s)) with (memchr_loop (Z.to_nat len) m s (u8 0)) by lia. split; [done|].
    intros k Hk. apply Hx. lia.
Qed.

Definition string_result (r : option Z * Z) : Prop :=
  match r.1 with Some p => str_at m fdt p r.2 | None => err_code r.2 end.

Lemma run_get_string so : int so ->
  fdt_get_string m' fdt so = fdt_get_string m fdt so /\ string_result (fdt_get_string m fdt so).
Proof.
  intros Hso. unfold fdt_get_string. rewrite run_probe, run_off_strings, run_magic, run_version, run_size_strings.
  rewrite probe_good, (gh_magic _ _ Hg), Z.eqb_refl by done. pose proof (geometry _ _ Hg).
  pose proof (gh_strings_end _ _ Hg). pose proof (fdt32_ld_range m (fdt + 32)) as Hsz. fold (fdt_size_dt_strings m fdt) in Hsz.
  destruct (fdt_totalsize m fdt <? INT_MAX) eqn:ET; zb; [|split; [done|by unfold string_result, err_code]].
  destruct (fdt_totalsize m fdt <? 0) eqn:ET0; zb; [lia|]. cbv zeta.
  set (ab := u32 (so + fdt_off_dt_strings m fdt)). rewrite (uw_small 32 (fdt_totalsize m fdt)) by lia.
  destruct (_ <=? ab) eqn:Eab; zb; [split; [done|by unfold string_result, err_code]|].
  assert (Hab : 0 <= ab < 2 ^ 32) by (apply uw_range; lia).
  destruct (so <? 0) eqn:Eso; zb; [split; [done|by unfold string_result, err_code]|].
  assert (Hsearch : forall len, 0 <= len <= fdt_totalsize m fdt - ab ->
    (let n := memchr m' (fdt + ab) 0 len in if n =? 0 then (None, - FDT_ERR_TRUNCATED) else (Some (fdt + ab), n - (fdt + ab)))
    = (let n := memchr m (fdt + ab) 0 len in if n =? 0 then (None, - FDT_ERR_TRUNCATED) else (Some (fdt + ab), n - (fdt + ab)))
    /\ string_result (let n := memchr m (fdt + ab) 0 len in if n =? 0 then (None, - FDT_ERR_TRUNCATED) else (Some (fdt + ab), n - (fdt + ab)))).
  { intros len Hlen. destruct (run_search (fdt + ab) len) as [-> Hstr]; [lia..|]. split; [done|]. cbv zeta.
    case_if; [by unfold string_result, err_code|]. by apply Hstr. }
  unfold int in Hso. destruct (17 <=? _); [|apply Hsearch; lia].
  destruct (_ <=? u32 so) eqn:Eb; zb; [split; [done|by unfold string_result, err_code]|].
  rewrite (uw_small 32 so) in Eb by lia. rewrite (uw_small 32 (_ - so)) by lia.
  destruct (_ <? _) eqn:El; zb; apply Hsearch; lia.
Qed.

Lemma run_string_eq so s len : int so -> fdt_string_eq_ m' fdt so s len = fdt_string_eq_ m fdt so s len.
Proof.
  intros Hso. unfold fdt_string_eq_. destruct (run_get_string so Hso) as [-> Hr].
  destruct (fdt_get_string m fdt so) as [[p|] slen]; [|done]. destruct (slen =? len) eqn:E; zb; [|done]. cbn [andb].
  subst. apply memcmp_eq_ext. destruct Hr as (? & ? & ? & _). cbn in *. eapply same_on_weaken; [exact Hs|lia..].
Qed.

Lemma run_strnlen fuel p l k : str_at m fdt p l -> 0 <= k <= l -> l - k < Z.of_nat fuel -> l < 2 ^ 64 - 1 ->
  ret (strnlen_loop fuel m p (2 ^ 64 - 1) k) (strnlen_loop fuel m' p (2 ^ 64 - 1) k) (fun r => r = l).
Proof.
  intros (_ & Hp & He & Hz & Hnz). revert k. induction fuel as [|fuel IH]; intros k Hk Hf Hl; [lia|].
  cbn [strnlen_loop]. assert (ld8 m' (p + k) = ld8 m (p + k)) as -> by (unfold ld8; rewrite Hs by lia; done).
  rewrite (proj2 (Z.ltb_lt k _)) by lia. cbn [andb]. unfold c_true. destruct (decide (k = l)) as [->|].
  - rewrite Hz. by apply ret_some.
  - rewrite (proj2 (Z.eqb_neq _ _)) by (apply Hnz; lia). cbn [negb]. rewrite uw_small by lia. apply IH; lia.
Qed.

Lemma run_blob_strlen p l : str_at m fdt p l ->
  ret (blob_strlen m fdt p) (blob_strlen m' fdt p) (fun r => r = l).
Proof.
  intros H. unfold blob_strlen. rewrite run_fuel. pose proof (geometry _ _ Hg). pose proof H as (? & ? & ? & _).
  unfold fuel_of. apply run_strnlen; [done|lia|lia|pow2; lia].
Qed.

Lemma run_strrchr fuel p c l k ret0 : str_at m fdt p l -> 0 <= k <= l -> l - k < Z.of_nat fuel -> c <> 0 ->
  (ret0 = 0 \/ p <= ret0 < p + l) ->
  ret (strrchr_loop fuel m (p + k) c ret0) (strrchr_loop fuel m' (p + k) c ret0) (fun r => r = 0 \/ p <= r < p + l).
Proof.
  intros (_ & Hp & He & Hz & Hnz). revert k ret0. induction fuel as [|fuel IH]; intros k ret0 Hk Hf Hc Hr; [lia|].
  cbn [strrchr_loop]. assert (ld8 m' (p + k) = ld8 m (p + k)) as -> by (unfold ld8; rewrite Hs by lia; done).
  unfold c_true. destruct (decide (k = l)) as [->|].
  - rewrite Hz. rewrite (proj2 (Z.eqb_neq 0 c)) by lia. by apply ret_some.
  - rewrite (proj2 (Z.eqb_neq (ld8 m (p + k)) 0)) by (apply Hnz; lia). cbn [negb].
    rewrite <- Z.add_assoc. apply IH; try lia. case_if; lia.
Qed.

Lemma str_at_suffix p l q : str_at m fdt p l -> p <= q <= p + l -> str_at m fdt q (l - (q - p)).
Proof.
  intros (? & ? & ? & Hz & Hnz) Hq. split; [lia|]. split; [lia|]. split; [lia|].
  replace (q + (l - (q - p))) with (p + l) by lia. split; [done|]. intros k Hk.
  replace (q + k) with (p + (q - p + k)) by lia. apply Hnz. lia.
Qed.

(** The name that follows the tag of a node. *)
Lemma token_name off n : token m fdt off FDT_BEGIN_NODE n ->
  exists l, str_at m fdt (fdt_offset_ptr_ m fdt off + 4) l /\ n = align4 (off + 5 + l).
Proof.
  intros (H0 & _ & e & Hb & He & ->). pose proof (geometry _ _ Hg).
  destruct Hb as [(_ & Hlt & Hz & Hnz)|[[? _]|[[?|[?|?]] _]]]; try done.
  exists (e - 5 - off). unfold fdt_offset_ptr_ in *. split; [|f_equal; lia]. split; [lia|]. split; [lia|]. split; [lia|].
  replace (fdt + fdt_off_dt_struct m fdt + off + 4 + (e - 5 - off)) with (fdt + fdt_off_dt_struct m fdt + (e - 1)) by lia.
  split; [done|]. intros k Hk. replace (_ + off + 4 + k) with (fdt + fdt_off_dt_struct m fdt + (off + 4 + k)) by lia.
  apply Hnz. lia.
Qed.

Lemma run_get_name off : int off ->
  ret (fdt_get_name m fdt off) (fdt_get_name m' fdt off) string_result.
Proof.
  intros Hint. pose proof (geometry _ _ Hg) as Hgeo. unfold fdt_get_name. rewrite run_probe, run_ptr_, run_version, run_fuel.
  rewrite probe_good by done. cbv zeta.
  apply ret_if; intros Ep; zb.
  { apply ret_some. unfold string_result. cbn. revert Ep. case_if; intros; [lia|by unfold err_code]. }
  eapply ret_bind; [by apply run_check_node|]. intros err Hr. cbv beta.
  apply ret_if; intros Ee; zb; [apply ret_some; destruct Hr as [?|Ht]; [done|apply token_next in Ht; lia]|].
  destruct Hr as [?|Ht]; [unfold err_code in *; lia|]. destruct (token_name _ _ Ht) as (l & Hl & _).
  pose proof Hl as (Hl0 & Hl1 & Hl2 & _).
  apply ret_if; intros Ev; zb.
  - assert (Hrr := run_strrchr (fuel_of m fdt) _ 47 l 0 0 Hl ltac:(lia) ltac:(unfold fuel_of; lia) ltac:(done) (or_introl eq_refl)).
    rewrite Z.add_0_r in Hrr. eapply ret_bind; [exact Hrr|].
    intros leaf Hleaf. cbv beta in *. apply ret_if; intros El; zb; [apply ret_some; by unfold string_result, err_code|].
    assert (Hsuf : str_at m fdt (leaf + 1) (l - (leaf + 1 - (fdt_offset_ptr_ m fdt off + 4)))) by (apply str_at_suffix; [done|lia]).
    eapply ret_bind; [by apply run_blob_strlen|]. cbv beta. intros ? ->. apply ret_some. unfold string_result. cbn.
    rewrite s32_small; [done|]. destruct Hsuf as (? & ? & ? & _). unfold int. lia.
  - eapply ret_bind; [by apply run_blob_strlen|]. cbv beta. intros ? ->. apply ret_some. unfold string_result. cbn.
    rewrite s32_small; [done|]. unfold int. lia.
Qed.

Lemma run_nodename_eq off s len : int off -> 0 <= len ->
  ret (fdt_nodename_eq_ m fdt off s len) (fdt_nodename_eq_ m' fdt off s len) (fun _ => True).
Proof.
  intros Hint Hlen. unfold fdt_nodename_eq_. eapply ret_bind; [by apply run_get_name|].
  intros [[p|] olen] Hr; cbv beta iota; [|by apply ret_some].
  destruct (olen <? len) eqn:El; zb; [by apply ret_some|]. destruct Hr as (? & ? & ? & _). cbn in *.
  rewrite (memcmp_eq_ext m m') by (eapply same_on_weaken; [exact Hs|lia..]).
  assert (ld8 m' (p + len) = ld8 m (p + len)) as -> by (unfold ld8; rewrite Hs by lia; done).
  repeat (apply ret_if; intros _; [by apply ret_some|]). by apply ret_some.
Qed.

Lemma run_subnode_loop fuel off depth name len : int off -> 0 <= len ->
  (0 <= off -> 0 <= depth -> fuelled fuel off) ->
  ret (subnode_offset_loop (S fuel) m fdt off depth name len) (subnode_offset_loop (S fuel) m' fdt off depth name len) (fun _ => True).
Proof.
  intros Hint Hlen. revert off depth Hint. induction fuel as [|fuel IH]; intros off depth Hint Hf;
    cbn [subnode_offset_loop]; (apply ret_if; intros Ec; [|by apply ret_if; intros _; apply ret_some]); zb.
  { destruct (Hf ltac:(done) ltac:(done)). lia. }
  eapply ret_bind.
  { apply ret_if; intros _; [by apply run_nodename_eq|by apply ret_some]. }
  intros found _. cbv beta. apply ret_if; intros _; [by apply ret_some|].
  eapply ret_bind; [by apply run_next_node|]. intros [o d] Hr. cbv beta iota. pose proof (next_result_int _ _ _ Hr) as Hi.
  apply IH; [done|]. intros. apply (next_fuelled _ off (Some depth) (o, d)); auto.
Qed.

Lemma run_subnode_offset_namelen off name len : int off -> 0 <= len ->
  ret (fdt_subnode_offset_namelen m fdt off name len) (fdt_subnode_offset_namelen m' fdt off name len) (fun _ => True).
Proof.
  intros. unfold fdt_subnode_offset_namelen. rewrite run_probe, run_fuel. apply ret_if; intros _; [by apply ret_some|].
  apply run_subnode_loop; [done..|]. intros. apply fuelled_start.
Qed.

(** *** Properties *)

Definition prop_offset_result (off r : Z) : Prop := err_code r \/ off <= r /\ exists n, token m fdt r FDT_PROP n.

Lemma run_nextprop fuel off : int off -> fuelled fuel off ->
  ret (nextprop_ fuel m fdt off) (nextprop_ fuel m' fdt off) (prop_offset_result off).
Proof.
  revert off. induction fuel as [|fuel IH]; intros off Hint Hf; [destruct Hf; lia|].
  cbn [nextprop_]. eapply ret_bind; [by apply run_next_tag|]. intros [tag n] Hr. cbv beta iota.
  destruct (tag =? FDT_END) eqn:E1; zb.
  { apply ret_some. left. case_if; [by unfold err_code|]. destruct Hr as [[_ ?]|Ht]; [done|]. apply token_next in Ht. cbn in *. lia. }
  destruct Hr as [[? _]|Ht]; [done|]. cbn in Ht. pose proof (token_next _ _ _ _ _ Ht). pose proof (token_int _ _ _ Ht) as [].
  destruct (tag =? FDT_PROP) eqn:E2; zb; [apply ret_some; right; split; [lia|]; subst; eauto|].
  apply ret_if; intros _; [|apply ret_some; by left].
  eapply ret_mono; [apply IH; [done|eapply fuelled_step; eauto; lia]|].
  intros r [?|[? ?]]; [by left|right; split; [lia|done]].
Qed.

Lemma run_first_property off : int off ->
  ret (fdt_first_property_offset m fdt off) (fdt_first_property_offset m' fdt off) (prop_offset_result (off + 1)).
Proof.
  intros Hint. unfold fdt_first_property_offset. rewrite run_fuel. eapply ret_bind; [by apply run_check_node|].
  intros n Hr. cbv beta in *. apply ret_if; intros En; zb; [apply ret_some; left; destruct Hr as [?|Ht]; [done|apply token_next in Ht; lia]|].
  destruct Hr as [?|Ht]; [unfold err_code in *; lia|]. pose proof (token_next _ _ _ _ _ Ht). apply token_int in Ht as [].
  eapply ret_mono; [apply run_nextprop; [done|apply fuelled_start]|]. intros r [?|[? ?]]; [by left|right; split; [lia|done]].
Qed.

Lemma run_next_property off : int off ->
  ret (fdt_next_property_offset m fdt off) (fdt_next_property_offset m' fdt off) (prop_offset_result (off + 1)).
Proof.
  intros Hint. unfold fdt_next_property_offset. rewrite run_fuel. eapply ret_bind; [by apply run_check_prop|].
  intros n Hr. cbv beta in *. apply ret_if; intros En; zb; [apply ret_some; left; destruct Hr as [?|Ht]; [done|apply token_next in Ht; lia]|].
  destruct Hr as [?|Ht]; [unfold err_code in *; lia|]. pose proof (token_next _ _ _ _ _ Ht). apply token_int in Ht as [].
  eapply ret_mono; [apply run_nextprop; [done|apply fuelled_start]|]. intros r [?|[? ?]]; [by left|right; split; [lia|done]].
Qed.

(** The header of a property is inside the structure block, and so are the bytes
    of its value. *)
Lemma token_prop off n : token m fdt off FDT_PROP n ->
  let prop := fdt_offset_ptr_ m fdt off in
  let len := fdt32_ld_ m (prop_len prop) in
  off + 12 + len + (if (fdt_version m fdt <? 16) && (8 <=? len) && negb ((off + 12) mod 8 =? 0) then 4 else 0)
    <= struct_size m fdt.
Proof.
  intros (H0 & _ & e & Hb & He & Hn) prop len.
  destruct Hb as [[? _]|[[_ Hb]|[[?|[?|?]] _]]]; try done. cbv zeta in Hb.
  assert (Hlen : len = fdt32_ld_ m (fdt_offset_ptr_ m fdt (off + 4))).
  { unfold len, prop, prop_len, fdt_offset_ptr_. f_equal. lia. }
  rewrite <- Hlen in Hb. lia.
Qed.

Lemma prop_words off n : token m fdt off FDT_PROP n ->
  let prop := fdt_offset_ptr_ m fdt off in
  fdt32_ld_ m' (prop_len prop) = fdt32_ld_ m (prop_len prop)
  /\ fdt32_ld_ m' (prop_nameoff prop) = fdt32_ld_ m (prop_nameoff prop).
Proof.
  intros Ht prop. pose proof (token_prop _ _ Ht) as Hp. cbv zeta in Hp. fold prop in Hp.
  pose proof (fdt32_ld__range m (prop_len prop)). apply token_next in Ht as (H0 & _).
  assert (0 <= if (fdt_version m fdt <? 16) && (8 <=? fdt32_ld_ m (prop_len prop)) && negb ((off + 12) mod 8 =? 0) then 4 else 0)
    by (case_if; lia).
  assert (Hb := run_struct_bytes off 12 H0 ltac:(lia)). fold prop in Hb.
  split; apply fdt32_ld__ext; (eapply same_on_weaken; [exact Hb|unfold prop_len, prop_nameoff; lia..]).
Qed.

(** A property found at [off]. *)
Definition prop_at (off : Z) (r : option Z * Z) : Prop :=
  match r.1 with
  | Some prop => prop = fdt_offset_ptr_ m fdt off /\ r.2 = fdt32_ld_ m (prop_len prop) /\ exists n, token m fdt off FDT_PROP n
  | None => err_code r.2
  end.

Lemma run_get_property_by_offset_ off : int off ->
  ret (fdt_get_property_by_offset_ m fdt off) (fdt_get_property_by_offset_ m' fdt off) (prop_at off).
Proof.
  intros Hint. unfold fdt_get_property_by_offset_. rewrite run_ptr_. eapply ret_bind; [by apply run_check_prop|].
  intros n Hr. cbv beta in *. apply ret_if; intros En; zb; [apply ret_some; destruct Hr as [?|Ht]; [done|apply token_next in Ht; lia]|].
  destruct Hr as [?|Ht]; [unfold err_code in *; lia|]. cbv zeta. destruct (prop_words _ _ Ht) as [-> _].
  apply ret_some. unfold prop_at. cbn. split; [done|]. split; [|eauto].
  pose proof (token_prop _ _ Ht) as Hp. cbv zeta in Hp. pose proof (geometry _ _ Hg). apply token_next in Ht as (H0 & _).
  pose proof (fdt32_ld__range m (prop_len (fdt_offset_ptr_ m fdt off))).
  apply s32_small. revert Hp. unfold int. case_if; lia.
Qed.

Definition property_result (r : option Z * Z * Z) : Prop :=
  match r.1.1 with Some _ => prop_at r.2 r.1 | None => err_code r.1.2 end.

Lemma run_get_property_loop fuel off name len : int off -> (0 <= off -> fuelled fuel off /\ exists n, token m fdt off FDT_PROP n) ->
  (off < 0 -> err_code off) ->
  ret (get_property_loop (S fuel) m fdt off name len) (get_property_loop (S fuel) m' fdt off name len) property_result.
Proof.
  revert off. induction fuel as [|fuel IH]; intros off Hint Hf Hneg;
    cbn [get_property_loop]; (apply ret_if; intros Ec; zb; [|apply ret_some; by apply Hneg]).
  { destruct (Hf Ec) as [[]]. lia. }
  destruct (Hf Ec) as (Hfu & n & Ht).
  eapply ret_bind; [by apply run_get_property_by_offset_|]. intros [[prop|] l] Hr; cbv beta iota; [|by apply ret_some].
  destruct (Hr) as (-> & _ & _). destruct (prop_words _ _ Ht) as [_ ->].
  rewrite run_string_eq by apply s32_int. apply ret_if; intros _; [by apply ret_some|].
  eapply ret_bind; [by apply run_next_property|]. intros o Ho. cbv beta.
  apply IH; [destruct Ho as [?|(_ & n' & Ht')]; [unfold err_code, int in *; lia|by apply token_int in Ht' as []]|..].
  - intros H0. destruct Ho as [?|(Hlt & n' & Ht')]; [unfold err_code in *; lia|]. split; [|eauto].
    apply token_next in Ht. eapply fuelled_step; eauto; lia.
  - intros H0. destruct Ho as [?|(Hlt & n' & Ht')]; [done|]. apply token_next in Ht'. lia.
Qed.

Lemma run_get_property_namelen_ off name len : int off ->
  ret (fdt_get_property_namelen_ m fdt off name len) (fdt_get_property_namelen_ m' fdt off name len) property_result.
Proof.
  intros Hint. unfold fdt_get_property_namelen_. rewrite run_fuel. eapply ret_bind; [by apply run_first_property|].
  intros o Ho. cbv beta. unfold fuel_of. pose proof (geometry _ _ Hg).
  apply run_get_property_loop; [destruct Ho as [?|(_ & n' & Ht')]; [unfold err_code, int in *; lia|by apply token_int in Ht' as []]|..].
  - intros H0. destruct Ho as [?|(Hlt & n' & Ht')]; [unfold err_code in *; lia|]. split; [|eauto].
    apply token_next in Ht'. unfold fuelled. lia.
  - intros H0. destruct Ho as [?|(Hlt & n' & Ht')]; [done|]. apply token_next in Ht'. lia.
Qed.

(** The value of a property: [l] bytes at [p], all of them in the blob. *)
Definition value_result (r : option Z * Z) : Prop :=
  match r.1 with
  | Some p => 0 <= r.2 /\ fdt <= p /\ p + r.2 <= fdt + fdt_totalsize m fdt
  | None => err_code r.2
  end.

Lemma prop_value off prop l : prop_at off (Some prop, l) ->
  fdt32_ld_ m' (prop_len prop) = fdt32_ld_ m (prop_len prop)
  /\ value_result (Some (if (fdt_version m fdt <? 16) && c_true (u64 (off + 12) mod 8) && (8 <=? fdt32_ld_ m (prop_len prop))
                         then prop_data prop + 4 else prop_data prop), l).
Proof.
  intros (Hp & Hl & n & Ht). cbn in Hp, Hl. subst prop l. split; [exact (proj1 (prop_words _ _ Ht))|]. pose proof (token_prop _ _ Ht) as Hp.
  cbv zeta in Hp. pose proof (geometry _ _ Hg). apply token_next in Ht as (H0 & H1 & _).
  pose proof (fdt32_ld__range m (prop_len (fdt_offset_ptr_ m fdt off))). rewrite uw_small by lia.
  unfold value_result, c_true, prop_data in *. cbn. set (len := fdt32_ld_ _ _) in *. unfold fdt_offset_ptr_.
  assert (Hif : (fdt_version m fdt <? 16) && negb ((off + 12) mod 8 =? 0) && (8 <=? len)
    = (fdt_version m fdt <? 16) && (8 <=? len) && negb ((off + 12) mod 8 =? 0))
    by (destruct (_ <? 16), (8 <=? len), ((off + 12) mod 8 =? 0); done).
  rewrite Hif. revert Hp. case_if; lia.
Qed.

Lemma run_getprop_namelen off name len : int off ->
  ret (fdt_getprop_namelen m fdt off name len) (fdt_getprop_namelen m' fdt off name len) value_result.
Proof.
  intros Hint. unfold fdt_getprop_namelen. eapply ret_bind; [by apply run_get_property_namelen_|].
  intros [[[prop|] l] po] Hr; cbv beta iota; [|by apply ret_some]. cbn in Hr.
  destruct (prop_value _ _ _ Hr) as [-> Hv]. rewrite run_version. revert Hv. case_if; intros; by apply ret_some.
Qed.

Lemma run_getprop_by_offset off : int off ->
  ret (fdt_getprop_by_offset m fdt off) (fdt_getprop_by_offset m' fdt off)
    (fun '(p, name, l) => match p with
       | Some p => value_result (Some p, l) /\ exists s ls, name = Some s /\ str_at m fdt s ls
       | None => err_code l end).
Proof.
  intros Hint. unfold fdt_getprop_by_offset. eapply ret_bind; [by apply run_get_property_by_offset_|].
  intros [[prop|] l] Hr; cbv beta iota; [|by apply ret_some].
  destruct (prop_value _ _ _ Hr) as [-> Hv]. destruct Hr as (Hp & _ & n & Ht). cbn in Hp. subst prop.
  destruct (prop_words _ _ Ht) as [_ ->]. destruct (run_get_string (s32 (fdt32_ld_ m (prop_nameoff (fdt_offset_ptr_ m fdt off)))) (s32_int _)) as [-> Hsr].
  destruct (fdt_get_string _ _ _) as [[s|] ls]; [|by apply ret_some]. rewrite run_version. revert Hv. case_if; intros; apply ret_some; (split; [done|by exists s, ls]).
Qed.

(** *** Phandles, cell counts and parents *)

Lemma value_word p : value_result (Some p, 4) -> fdt32_ld_ m' p = fdt32_ld_ m p.
Proof. intros (_ & ? & ?). cbn in *. apply fdt32_ld__ext. eapply same_on_weaken; [exact Hs|lia..]. Qed.

Lemma run_getprop off name : int off -> ret (fdt_getprop m fdt off name) (fdt_getprop m' fdt off name) value_result.
Proof. apply run_getprop_namelen. Qed.

Lemma run_get_phandle off : int off -> ret (fdt_get_phandle m fdt off) (fdt_get_phandle m' fdt off) (fun r => 0 <= r < 2 ^ 32).
Proof.
  intros Hint. unfold fdt_get_phandle.
  assert (Hword : forall (php : option Z) l (o o' : option Z), value_result (php, l) -> ret o o' (fun r => 0 <= r < 2 ^ 32) ->
    ret (match php with Some p => if l =? 4 then Some (fdt32_ld_ m p) else o | None => o end)
        (match php with Some p => if l =? 4 then Some (fdt32_ld_ m' p) else o' | None => o' end) (fun r => 0 <= r < 2 ^ 32)).
  { intros [p|] l o o' Hv Ho; [|done]. destruct (l =? 4) eqn:E; zb; [|done]. subst. rewrite value_word by done.
    apply ret_some, fdt32_ld__range. }
  eapply ret_bind; [by apply run_getprop|]. intros [php l] Hv. cbv beta iota. apply Hword; [done|].
  eapply ret_bind; [by apply run_getprop|]. intros [php' l'] Hv'. cbv beta iota. apply Hword; [done|]. apply ret_some. lia.
Qed.

Lemma run_cells off name : int off -> ret (fdt_cells m fdt off name) (fdt_cells m' fdt off name) (fun r => err_code r \/ 0 <= r <= 4).
Proof.
  intros Hint. unfold fdt_cells. eapply ret_bind; [by apply run_getprop|]. intros [[c|] l] Hv; cbv beta iota.
  2:{ apply ret_some. by left. }
  destruct (l =? 4) eqn:E; zb; cbn [negb]; [|apply ret_some; by left]. subst. rewrite value_word by done. cbv zeta.
  apply ret_if; intros Ev; zb; apply ret_some; [by left|right]. unfold FDT_MAX_NCELLS in Ev.
  pose proof (fdt32_ld__range m c). lia.
Qed.

Lemma run_address_cells off : int off ->
  ret (fdt_address_cells m fdt off) (fdt_address_cells m' fdt off) (fun r => err_code r \/ 1 <= r <= 4).
Proof.
  intros Hint. unfold fdt_address_cells. eapply ret_bind; [by apply run_cells|]. intros v Hv. cbv beta in *.
  destruct (v =? 0) eqn:E0; zb; [apply ret_some; by left|]. apply ret_if; intros; apply ret_some; [right; lia|].
  destruct Hv; [by left|right; lia].
Qed.

Lemma run_size_cells off : int off ->
  ret (fdt_size_cells m fdt off) (fdt_size_cells m' fdt off) (fun r => err_code r \/ 0 <= r <= 4).
Proof.
  intros Hint. unfold fdt_size_cells. eapply ret_bind; [by apply run_cells|]. intros v Hv. cbv beta in *.
  apply ret_if; intros; apply ret_some; [right; lia|done].
Qed.

Lemma run_find_max_loop fuel off mx : int off -> fuelled fuel off ->
  ret (find_max_phandle_loop fuel m fdt off mx) (find_max_phandle_loop fuel m' fdt off mx) (fun _ => True).
Proof.
  revert off mx. induction fuel as [|fuel IH]; intros off mx Hint Hf; [destruct Hf; lia|].
  cbn [find_max_phandle_loop]. eapply ret_bind; [by apply run_next_node|]. intros [o d] Hr. cbv beta iota.
  apply ret_if; intros Eo; zb; [by apply ret_if; intros; apply ret_some|].
  pose proof (next_result_int _ _ _ Hr) as Hi. cbn in Hi. eapply ret_bind; [by apply run_get_phandle|]. intros v _. cbv beta.
  apply IH; [done|]. apply (next_fuelled _ off None (o, d)); auto.
Qed.

Lemma run_find_max_phandle : ret (fdt_find_max_phandle m fdt) (fdt_find_max_phandle m' fdt) (fun _ => True).
Proof.
  unfold fdt_find_max_phandle. rewrite run_fuel. pose proof (fuelled_start (-1)).
  apply run_find_max_loop; [unfold int; lia|unfold fuelled in *; lia].
Qed.

Lemma run_by_phandle_loop fuel off ph : int off -> (0 <= off -> fuelled fuel off) ->
  ret (by_phandle_loop (S fuel) m fdt off ph) (by_phandle_loop (S fuel) m' fdt off ph) (fun _ => True).
Proof.
  revert off. induction fuel as [|fuel IH]; intros off Hint Hf;
    cbn [by_phandle_loop]; (apply ret_if; intros Ec; zb; [|by apply ret_some]).
  { destruct (Hf Ec). lia. }
  eapply ret_bind; [by apply run_get_phandle|]. intros v _. cbv beta. apply ret_if; intros _; [by apply ret_some|].
  eapply ret_bind; [by apply run_next_node|]. intros [o d] Hr. cbv beta iota. pose proof (next_result_int _ _ _ Hr) as Hi.
  apply IH; [done|]. intros. apply (next_fuelled _ off None (o, d)); auto.
Qed.

Lemma run_by_phandle ph : ret (fdt_node_offset_by_phandle m fdt ph) (fdt_node_offset_by_phandle m' fdt ph) (fun _ => True).
Proof.
  unfold fdt_node_offset_by_phandle. rewrite run_fuel, run_probe. repeat (apply ret_if; intros _; [by apply ret_some|]).
  eapply ret_bind; [apply run_next_node; unfold int; lia|]. intros [o d] Hr. cbv beta iota.
  pose proof (next_result_int _ _ _ Hr) as Hi. apply run_by_phandle_loop; [done|]. intros. apply fuelled_start.
Qed.

Lemma run_supernode_loop fuel off depth node sd so : int off -> (0 <= off -> fuelled fuel off) ->
  ret (supernode_loop (S fuel) m fdt off depth node sd so) (supernode_loop (S fuel) m' fdt off depth node sd so) (fun _ => True).
Proof.
  revert off depth so. induction fuel as [|fuel IH]; intros off depth so Hint Hf; cbn [supernode_loop];
    (apply ret_if; intros Ec; zb; [|by repeat (apply ret_if; intros _; [by apply ret_some|]); apply ret_some]).
  { destruct (Hf ltac:(done)). lia. }
  cbv zeta. apply ret_if; intros _; [by apply ret_if; intros _; apply ret_some|].
  eapply ret_bind; [by apply run_next_node|]. intros [o d] Hr. cbv beta iota. pose proof (next_result_int _ _ _ Hr) as Hi.
  apply IH; [done|]. intros Ho. apply (next_fuelled _ off (Some depth) (o, d)); auto.
Qed.

Lemma run_supernode node sd :
  ret (fdt_supernode_atdepth_offset m fdt node sd) (fdt_supernode_atdepth_offset m' fdt node sd) (fun _ => True).
Proof.
  unfold fdt_supernode_atdepth_offset. rewrite run_fuel, run_probe. repeat (apply ret_if; intros _; [by apply ret_some|]).
  apply run_supernode_loop; [unfold int; lia|]. intros. apply fuelled_start.
Qed.

Lemma run_node_depth node : ret (fdt_node_depth m fdt node) (fdt_node_depth m' fdt node) (fun _ => True).
Proof.
  unfold fdt_node_depth. eapply ret_bind; [apply run_supernode|]. intros [e d] _. cbv beta iota.
  by apply ret_if; intros _; apply ret_some.
Qed.

Lemma run_parent_offset node : ret (fdt_parent_offset m fdt node) (fdt_parent_offset m' fdt node) (fun _ => True).
Proof.
  unfold fdt_parent_offset. eapply ret_bind; [apply run_node_depth|]. intros d _. cbv beta.
  apply ret_if; intros _; [by apply ret_some|]. eapply ret_bind; [apply run_supernode|]. intros [o e] _. by apply ret_some.
Qed.

(** *** Reservations *)

Lemma mem_rsv_eq m0 i : good_header m0 fdt -> 0 <= i < 2 ^ 27 ->
  fdt_mem_rsv m0 fdt i =
    if fdt_off_mem_rsvmap m0 fdt + 16 * i + 16 <=? fdt_totalsize m0 fdt then Some (fdt_mem_rsv_ m0 fdt i) else None.
Proof.
  intros H Hi. pose proof (gh_rsv _ _ H). pose proof (geometry _ _ H). pose proof (header_size_bounds _ _ (gh_version _ _ H)).
  unfold fdt_mem_rsv. rewrite (uw_small 32 (i * 16)), uw_small, (uw_small 64) by (pow2; lia).
  rewrite (proj2 (Z.ltb_ge _ (fdt_off_mem_rsvmap m0 fdt))) by lia. repeat case_if; try done; lia.
Qed.

Lemma run_num_rsv_loop fuel i : 0 <= i -> fdt_off_mem_rsvmap m fdt + 16 * i < fdt_totalsize m fdt + 16 ->
  fdt_totalsize m fdt - fdt_off_mem_rsvmap m fdt - 16 * i < Z.of_nat fuel -> 0 < Z.of_nat fuel ->
  ret (num_mem_rsv_loop fuel m fdt i) (num_mem_rsv_loop fuel m' fdt i) (fun _ => True).
Proof.
  pose proof (gh_rsv _ _ Hg). pose proof (geometry _ _ Hg). pose proof (header_size_bounds _ _ (gh_version _ _ Hg)).
  revert i. induction fuel as [|fuel IH]; intros i Hi He Hf Hf0; [lia|]. cbn [num_mem_rsv_loop].
  rewrite !mem_rsv_eq by (done || apply run_good || (pow2; lia)). rewrite run_off_rsv, run_totalsize.
  destruct (_ <=? _) eqn:E; zb; [|by apply ret_some]. unfold fdt_mem_rsv_. rewrite run_off_rsv.
  rewrite (fdt64_ld__ext m m') by (eapply same_on_weaken; [exact Hs|lia..]).
  apply ret_if; intros _; [by apply ret_some|]. rewrite s32_small by (unfold int; pow2; lia). apply IH; lia.
Qed.

Lemma run_num_mem_rsv : ret (fdt_num_mem_rsv m fdt) (fdt_num_mem_rsv m' fdt) (fun _ => True).
Proof.
  unfold fdt_num_mem_rsv. rewrite run_fuel. pose proof (gh_rsv _ _ Hg). pose proof (header_size_bounds _ _ (gh_version _ _ Hg)).
  apply run_num_rsv_loop; unfold fuel_of; lia.
Qed.

(** *** [fdt_check_full] *)

Lemma run_check_full_loop fuel off depth b : int off -> fuelled fuel off ->
  ret (check_full_loop fuel m fdt off depth b) (check_full_loop fuel m' fdt off depth b) (fun _ => True).
Proof.
  revert off depth b. induction fuel as [|fuel IH]; intros off depth b Hint Hf; [destruct Hf; lia|].
  cbn [check_full_loop]. eapply ret_bind; [by apply run_next_tag|]. intros [tag n] Hr. cbv beta iota.
  apply ret_if; intros En; zb; [by apply ret_some|].
  destruct Hr as [[_ ?]|Ht]; cbn in *; [lia|]. pose proof (token_int _ _ _ Ht) as [_ Hn]. apply token_next in Ht.
  assert (Hnext : forall d e, ret (check_full_loop fuel m fdt n d e) (check_full_loop fuel m' fdt n d e) (fun _ => True)).
  { intros. apply IH; [done|]. eapply fuelled_step; eauto; lia. }
  do 2 (apply ret_if; intros _; [by apply ret_some || apply Hnext|]).
  apply ret_if; intros _; [by apply ret_if; intros _; apply ret_some|].
  apply ret_if; intros _; [|apply ret_if; intros _; [|apply ret_if; intros _; [|by apply ret_some]]].
  - cbv zeta. apply ret_if; intros _; [by apply ret_some|]. apply ret_if; intros _; [|apply Hnext].
    eapply ret_bind; [by apply run_get_name|]. intros [[name|] l] Hsr; cbv beta iota; [|by apply ret_some].
    assert (ld8 m' name = ld8 m name) as ->; [|apply ret_if; intros _; [by apply ret_some|apply Hnext]].
    destruct Hsr as (? & ? & ? & _). cbn in *. unfold ld8. by rewrite Hs by lia.
  - apply ret_if; intros _; [by apply ret_some|apply Hnext].
  - eapply ret_bind; [by apply run_getprop_by_offset|]. intros [[[p|] name] e] _; cbv beta iota; [apply Hnext|by apply ret_some].
Qed.
End Runs.

(** ** The whole blob *)

Lemma check_header_ext m m' fdt :
  same_on fdt (fdt + 36) m m' -> (17 <= fdt_version m fdt -> same_on fdt (fdt + 40) m m') ->
  fdt_check_header m' fdt = fdt_check_header m fdt.
Proof.
  intros Hs H17.
  assert (Hw : forall k, 0 <= k <= 32 -> fdt32_ld m' (fdt + k) = fdt32_ld m (fdt + k)).
  { intros. apply fdt32_ld_ext. eapply same_on_weaken; [exact Hs|lia..]. }
  unfold fdt_check_header, fdt_header_size.
  assert (fdt_magic m' fdt = fdt_magic m fdt) as -> by (unfold fdt_magic; rewrite <- (Z.add_0_r fdt); apply Hw; lia).
  unfold fdt_totalsize, fdt_off_mem_rsvmap, fdt_off_dt_strings, fdt_size_dt_strings, fdt_off_dt_struct, fdt_last_comp_version.
  unfold fdt_version in *. rewrite !Hw by lia. destruct (fdt32_ld m (fdt + 20) <? 17) eqn:E; [done|]. zb.
  unfold fdt_size_dt_struct. rewrite (fdt32_ld_ext m m' (fdt + 36)); [done|].
  eapply same_on_weaken; [apply H17; done|lia..].
Qed.

Lemma run_check_full m m' fdt bufsize : 36 <= bufsize -> same_on fdt (fdt + bufsize) m m' ->
  ret (fdt_check_full m fdt bufsize) (fdt_check_full m' fdt bufsize) (fun _ => True).
Proof.
  intros Hb Hs. unfold fdt_check_full.
  assert (Hw : forall k, 0 <= k <= 32 -> fdt32_ld m' (fdt + k) = fdt32_ld m (fdt + k)).
  { intros. apply fdt32_ld_ext. eapply same_on_weaken; [exact Hs|lia..]. }
  unfold fdt_header_size, fdt_totalsize. unfold fdt_version. rewrite !Hw by lia. fold (fdt_version m fdt) (fdt_totalsize m fdt).
  apply ret_if; intros _; [by apply ret_some|]. apply ret_if; intros Eh; zb; [by apply ret_some|].
  rewrite (check_header_ext m m').
  2:{ eapply same_on_weaken; [exact Hs|lia..]. }
  2:{ intros Hv. eapply same_on_weaken; [exact Hs|lia|]. unfold fdt_header_size_ in Eh. repeat case_if_in Eh; try lia. exact (Zplus_le_compat_l _ _ fdt Eh). }
  cbv zeta. unfold c_true. destruct (fdt_check_header m fdt =? 0) eqn:Ech; zb; cbn [negb]; [|by apply ret_some].
  apply check_header_good in Ech. apply ret_if; intros Et; zb; [by apply ret_some|].
  assert (Hs' : same_on fdt (fdt + Z.max 36 (fdt_totalsize m fdt)) m m') by (eapply same_on_weaken; [exact Hs|lia..]).
  eapply ret_bind; [by apply run_num_mem_rsv|]. intros n _. cbv beta. apply ret_if; intros _; [by apply ret_some|].
  rewrite (run_fuel m m') by done. apply run_check_full_loop; [done..|unfold int; lia|by apply fuelled_start].
Qed.

(** C33. [fdt_check_full] returns on every buffer of at least 36 bytes, whatever is in
    it, and reads no byte outside the buffer: another memory with the same
    buffer gives the same answer. *)
Theorem check_full_confined m m' fdt bufsize : 36 <= bufsize -> same_on fdt (fdt + bufsize) m m' ->
  exists r, fdt_check_full m fdt bufsize = Some r /\ fdt_check_full m' fdt bufsize = Some r.
Proof. intros Hb Hs. destruct (run_check_full m m' fdt bufsize Hb Hs) as (r & H & H' & _). eauto. Qed.

(** C22. On a blob whose header [fdt_check_header] accepts, and whatever the rest of
    it holds, every reader returns for every offset and string, and reads no byte
    outside the blob; names are terminated inside the blob and values of
    properties lie inside it. *)
Theorem readers_confined m m' fdt (off : Z) (name : list Z) (len : Z) :
  fdt_check_header m fdt = 0 -> same_on fdt (fdt + Z.max 36 (fdt_totalsize m fdt)) m m' -> int off -> 0 <= len ->
  ret (fdt_next_tag m fdt off) (fdt_next_tag m' fdt off) (tag_result m fdt off)
  /\ (forall depth, ret (fdt_next_node m fdt off depth) (fdt_next_node m' fdt off depth) (next_result m fdt off depth))
  /\ ret (fdt_first_subnode m fdt off) (fdt_first_subnode m' fdt off) (fun r => err_code r \/ off < r)
  /\ ret (fdt_next_subnode m fdt off) (fdt_next_subnode m' fdt off) (fun r => err_code r \/ off < r)
  /\ ret (fdt_subnode_offset_namelen m fdt off name len) (fdt_subnode_offset_namelen m' fdt off name len) (fun _ => True)
  /\ ret (fdt_get_name m fdt off) (fdt_get_name m' fdt off) (string_result m fdt)
  /\ ret (fdt_first_property_offset m fdt off) (fdt_first_property_offset m' fdt off) (prop_offset_result m fdt (off + 1))
  /\ ret (fdt_next_property_offset m fdt off) (fdt_next_property_offset m' fdt off) (prop_offset_result m fdt (off + 1))
  /\ ret (fdt_getprop_namelen m fdt off name len) (fdt_getprop_namelen m' fdt off name len) (value_result m fdt)
  /\ ret (fdt_get_phandle m fdt off) (fdt_get_phandle m' fdt off) (fun r => 0 <= r < 2 ^ 32)
  /\ ret (fdt_address_cells m fdt off) (fdt_address_cells m' fdt off) (fun r => err_code r \/ 1 <= r <= 4)
  /\ ret (fdt_size_cells m fdt off) (fdt_size_cells m' fdt off) (fun r => err_code r \/ 0 <= r <= 4)
  /\ ret (fdt_node_offset_by_phandle m fdt len) (fdt_node_offset_by_phandle m' fdt len) (fun _ => True)
  /\ ret (fdt_parent_offset m fdt off) (fdt_parent_offset m' fdt off) (fun _ => True).
Proof.
  intros Hch Hs Hint Hlen. apply check_header_good in Hch as Hg.
  split; [by apply run_next_tag|]. split; [intros; by apply run_next_node|].
  split; [eapply ret_mono; [by apply run_first_subnode|]; cbv beta; tauto|].
  split; [eapply ret_mono; [by apply run_next_subnode|]; cbv beta; tauto|].
  split; [by apply run_subnode_offset_namelen|]. split; [by apply run_get_name|]. split; [by apply run_first_property|].
  split; [by apply run_next_property|]. split; [by apply run_getprop_namelen|]. split; [by apply run_get_phandle|].
  split; [by apply run_address_cells|]. split; [by apply run_size_cells|]. split; [by apply run_by_phandle|].
  by apply run_parent_offset.
Qed.
