(* ===== verification/FdtTree.v ===== *)
(** libfdt, correctness of the readers: the structure block as a tree of
    properties and nodes, and the walks of [Fdt] and [FdtRo] on it. *)
From S2P Require Import Prelude Memory KlibString Fdt FdtRo FdtSafe.
#[local] Open Scope Z_scope.
#[local] Open Scope cint_scope.

(** ** Trees *)

(** A property or a node of the structure block, by the offset of its tag. *)
Inductive item : Type :=
| IProp (off : Z)
| INode (off : Z) (sub : list item).

(** The structure block from [off] to [e] holds the items [l], with no-ops
    anywhere between them. *)
Inductive items (m : memory) (fdt : Z) : Z -> list item -> Z -> Prop :=
| items_nil off : items m fdt off [] off
| items_nop off n l e : token m fdt off FDT_NOP n -> items m fdt n l e -> items m fdt off l e
| items_prop off n l e : token m fdt off FDT_PROP n -> items m fdt n l e -> items m fdt off (IProp off :: l) e
| items_node off n sub e1 e2 l e :
    token m fdt off FDT_BEGIN_NODE n -> items m fdt n sub e1 -> token m fdt e1 FDT_END_NODE e2 ->
    items m fdt e2 l e -> items m fdt off (INode off sub :: l) e.

(** The node at [off] with the items [sub], up to its end tag at [e1]. *)
Definition node_at (m : memory) (fdt off : Z) (sub : list item) (e1 : Z) : Prop :=
  exists n, token m fdt off FDT_BEGIN_NODE n /\ items m fdt n sub e1 /\ exists e2, token m fdt e1 FDT_END_NODE e2.

(** The offsets of the nodes of a list of items. *)
Fixpoint nodes_of (l : list item) : list Z :=
  match l with
  | [] => []
  | IProp _ :: l => nodes_of l
  | INode off _ :: l => off :: nodes_of l
  end.

(** The properties that come before the first node. *)
Fixpoint props_of (l : list item) : list Z :=
  match l with IProp off :: l => off :: props_of l | _ => [] end.

Definition head_or_notfound (l : list Z) : Z := default (- FDT_ERR_NOTFOUND) (head l).

Section Tree.
Context (m : memory) (fdt : Z) (Hg : good_header m fdt).

Lemma skip_name_finds fuel off e : 0 <= off < e -> e <= struct_size m fdt -> e - off < Z.of_nat fuel + 1 ->
  ld8 m (fdt_offset_ptr_ m fdt (e - 1)) = 0 -> (forall k, off <= k < e - 1 -> ld8 m (fdt_offset_ptr_ m fdt k) <> 0) ->
  exists p, skip_name fuel m fdt off = Some (Some p, e).
Proof.
  pose proof (geometry _ _ Hg) as Hgeo. revert off. induction fuel as [|fuel IH]; intros off Ho He Hf Hz Hnz; [lia|].
  cbn [skip_name]. rewrite offset_ptr_eq by (done || unfold int; pow2; lia).
  assert (in_struct m fdt off 1 = true) as -> by (unfold in_struct; apply andb_true_iff; rewrite !Z.leb_le; lia).
  rewrite s32_small by (unfold int; pow2; lia). destruct (decide (off = e - 1)) as [->|].
  - rewrite Hz. cbn. replace (e - 1 + 1) with e by lia. eauto.
  - rewrite (proj2 (Z.eqb_neq _ _)) by (apply Hnz; lia). cbn [negb]. apply IH; try lia. intros. apply Hnz. lia.
Qed.

Lemma close_tag_fits off tag e : 0 <= off -> off + 4 <= e <= struct_size m fdt ->
  close_tag m fdt off tag e = (tag, align4 e).
Proof.
  intros H0 He. pose proof (geometry _ _ Hg) as Hgeo. unfold close_tag.
  rewrite uw_small, offset_ptr_eq by (done || unfold int; pow2; lia).
  assert (in_struct m fdt off (e - off) = true) as -> by (unfold in_struct; apply andb_true_iff; rewrite !Z.leb_le; lia).
  f_equal. apply tagalign_eq. pow2. lia.
Qed.

(** [fdt_next_tag] reads a complete tag. *)
Lemma next_tag_token off tag n : token m fdt off tag n -> fdt_next_tag m fdt off = Some (tag, n).
Proof.
  intros Htok. pose proof (token_next _ _ _ _ _ Htok) as Hb. destruct Htok as (H0 & Htag & e & Hbody & He & ->).
  pose proof (geometry _ _ Hg) as Hgeo. unfold fdt_next_tag. unfold FDT_TAGSIZE.
  rewrite offset_ptr_eq by (done || unfold int; pow2; lia).
  assert (in_struct m fdt off 4 = true) as -> by (unfold in_struct; apply andb_true_iff; rewrite !Z.leb_le; lia).
  rewrite <- Htag, (s32_small (off + 4)) by (unfold int; pow2; lia). cbv zeta.
  destruct Hbody as [(-> & Hlt & Hz & Hnz)|[(-> & Hl)|(Ht & ->)]].
  - cbn [Z.eqb]. change (FDT_BEGIN_NODE =? FDT_BEGIN_NODE) with true. cbv iota.
    destruct (skip_name_finds (fuel_of m fdt) (off + 4) e) as [p ->]; try lia; try done;
      [pose proof (fuel_enough m fdt Hg); lia|]. cbn. by rewrite close_tag_fits by lia.
  - change (FDT_PROP =? FDT_BEGIN_NODE) with false. change (FDT_PROP =? FDT_PROP) with true. cbv iota zeta in *.
    set (len := fdt32_ld_ m (fdt_offset_ptr_ m fdt (off + 4))) in *. assert (0 <= len < 2 ^ 32) by apply fdt32_ld__range.
    assert (Hpad : 0 <= if (fdt_version m fdt <? 16) && (8 <=? len) && negb ((off + 12) mod 8 =? 0) then 4 else 0) by (case_if; lia).
    rewrite offset_ptr_eq by (done || unfold int; pow2; lia).
    assert (in_struct m fdt (off + 4) 4 = true) as -> by (unfold in_struct; apply andb_true_iff; rewrite !Z.leb_le; lia).
    fold len. rewrite (uw_small 32 (len + _)), (uw_small 32 (off + 4)) by lia. unfold INT_MAX.
    rewrite (proj2 (Z.leb_gt _ _)), (proj2 (Z.ltb_ge _ _)) by lia. cbn [orb].
    rewrite (s32_small (off + 4 + (12 - 4) + len)) by (unfold int; pow2; lia).
    replace (off + 4 + (12 - 4) + len) with (off + 12 + len) by lia.
    replace (off + 12 + len - len) with (off + 12) by lia. rewrite (uw_small 32 (off + 12)) by lia. change 0x10 with 16.
    rewrite <- (close_tag_fits off FDT_PROP e) by lia. do 2 f_equal. revert Hl He. case_if; intros; [rewrite s32_small by (unfold int; pow2; lia)|]; lia.
  - assert (tag =? FDT_BEGIN_NODE = false /\ tag =? FDT_PROP = false /\ (tag =? FDT_END) || (tag =? FDT_END_NODE) || (tag =? FDT_NOP) = true)
      as (-> & -> & ->) by (destruct Ht as [->|[->| ->]]; done).
    by rewrite close_tag_fits by lia.
Qed.

(** ** Unfolding the loops

    With the fuel of the model, which is always enough, the loops satisfy the
    equations of the C code. *)

Lemma next_node_loop_mono f f' pos d r : (f <= f')%nat ->
  next_node_loop f m fdt pos d = Some r -> next_node_loop f' m fdt pos d = Some r.
Proof.
  revert f' pos d. induction f as [|f IH]; intros f' pos d Hf H; [done|]. destruct f' as [|f']; [lia|].
  cbn [next_node_loop] in *. destruct (fdt_next_tag m fdt pos) as [[tag n]|]; [|done]. cbn in *.
  assert (forall d, next_node_loop f m fdt n d = Some r -> next_node_loop f' m fdt n d = Some r) by (intros; apply IH; [lia|done]).
  repeat case_if_in H; try done; auto. destruct d; [|auto]. cbv zeta in *. case_if_in H; auto.
Qed.

Lemma next_subnode_loop_mono f f' pos d r : (f <= f')%nat ->
  next_subnode_loop f m fdt pos d = Some r -> next_subnode_loop f' m fdt pos d = Some r.
Proof.
  revert f' pos d. induction f as [|f IH]; intros f' pos d Hf H; [done|]. destruct f' as [|f']; [lia|].
  cbn [next_subnode_loop] in *. destruct (fdt_next_node m fdt pos (Some d)) as [[o d']|]; [|done]. cbn in *.
  repeat case_if_in H; try done. apply IH; [lia|done].
Qed.

Lemma subnode_offset_loop_mono f f' pos d name len r : (f <= f')%nat ->
  subnode_offset_loop f m fdt pos d name len = Some r -> subnode_offset_loop f' m fdt pos d name len = Some r.
Proof.
  revert f' pos d. induction f as [|f IH]; intros f' pos d Hf H; [done|]. destruct f' as [|f']; [lia|].
  cbn [subnode_offset_loop] in *. case_if_in H; [|done].
  destruct (if d =? 1 then _ else _) as [[]|]; [done| |done]. cbn in *.
  destruct (fdt_next_node m fdt pos (Some d)) as [[o d']|]; [|done]. cbn in *. apply IH; [lia|done].
Qed.

Lemma nextprop_mono f f' pos r : (f <= f')%nat -> nextprop_ f m fdt pos = Some r -> nextprop_ f' m fdt pos = Some r.
Proof.
  revert f' pos. induction f as [|f IH]; intros f' pos Hf H; [done|]. destruct f' as [|f']; [lia|].
  cbn [nextprop_] in *. destruct (fdt_next_tag m fdt pos) as [[tag n]|]; [|done]. cbn in *.
  repeat case_if_in H; try done. apply IH; [lia|done].
Qed.

Lemma get_property_loop_mono f f' pos name len r : (f <= f')%nat ->
  get_property_loop f m fdt pos name len = Some r -> get_property_loop f' m fdt pos name len = Some r.
Proof.
  revert f' pos. induction f as [|f IH]; intros f' pos Hf H; [done|]. destruct f' as [|f']; [lia|].
  cbn [get_property_loop] in *. case_if_in H; [|done].
  destruct (fdt_get_property_by_offset_ m fdt pos) as [[[p|] l]|]; [|done|done]. cbn in *. case_if_in H; [done|].
  destruct (fdt_next_property_offset m fdt pos) as [o|]; [|done]. cbn in *. apply IH; [lia|done].
Qed.

Let Hsame : same_on fdt (fdt + Z.max 36 (fdt_totalsize m fdt)) m m := same_on_refl _ _ m.
Let F := fuel_of m fdt.

Lemma fuel_S : F = S (Z.to_nat (fdt_totalsize m fdt)).
Proof. done. Qed.

#[local] Opaque fuel_of.

Lemma loop_total pos d : int pos -> exists r, next_node_loop F m fdt pos d = Some r.
Proof.
  intros Hp. destruct (run_next_node_loop m m fdt Hg Hsame F pos d Hp (fuelled_start m fdt Hg pos)) as (r & ? & _). eauto.
Qed.

Lemma loop_skip pos tag n d : token m fdt pos tag n -> tag = FDT_PROP \/ tag = FDT_NOP ->
  next_node_loop F m fdt pos d = next_node_loop F m fdt n d.
Proof.
  intros Ht Htag. destruct (loop_total pos d) as [r Hr]; [by apply (token_int m fdt Hg) in Ht as []|]. rewrite Hr.
  rewrite fuel_S in Hr. cbn [next_node_loop] in Hr.
  rewrite (next_tag_token _ _ _ Ht) in Hr. cbn in Hr. symmetry.
  eapply next_node_loop_mono; [|destruct Htag as [-> | ->]; exact Hr]. rewrite fuel_S. lia.
Qed.

Lemma loop_begin pos n d : token m fdt pos FDT_BEGIN_NODE n ->
  next_node_loop F m fdt pos (Some d) = Some (pos, Some (s32 (d + 1))).
Proof.
  intros Ht. rewrite fuel_S. cbn [next_node_loop].
  by rewrite (next_tag_token _ _ _ Ht).
Qed.

Lemma loop_end pos n d : token m fdt pos FDT_END_NODE n ->
  next_node_loop F m fdt pos (Some d) =
    if s32 (d - 1) <? 0 then Some (n, Some (s32 (d - 1))) else next_node_loop F m fdt n (Some (s32 (d - 1))).
Proof.
  intros Ht. destruct (loop_total pos (Some d)) as [r Hr]; [by apply (token_int m fdt Hg) in Ht as []|]. rewrite Hr.
  rewrite fuel_S in Hr. cbn [next_node_loop] in Hr.
  rewrite (next_tag_token _ _ _ Ht) in Hr. cbn in Hr. symmetry. case_if; [done|].
  eapply next_node_loop_mono; [|exact Hr]. rewrite fuel_S. lia.
Qed.

Lemma items_aligned pos l e : items m fdt pos l e -> pos mod 4 = 0 -> e mod 4 = 0.
Proof.
  induction 1 as [off|off n l e Ht _ IH|off n l e Ht _ IH|off n sub e1 e2 l e _ _ _ Ht _ IH]; intros Ha; [done|..];
    apply token_next in Ht as (_ & _ & _ & ?); auto.
Qed.

Lemma items_bounds pos l e : items m fdt pos l e -> 0 <= pos <= struct_size m fdt + 3 ->
  pos <= e <= struct_size m fdt + 3.
Proof.
  induction 1 as [off|off n l e Ht _ IH|off n l e Ht _ IH|off n sub e1 e2 l e Hb _ IH1 Ht _ IH2]; intros Hp; [lia|..].
  1,2: apply token_next in Ht; lia.
  apply token_next in Hb, Ht. lia.
Qed.

(** The next node from a place in a list of items. *)
Lemma loop_items pos l e d : items m fdt pos l e -> 0 <= d < 2 ^ 31 - 1 ->
  next_node_loop F m fdt pos (Some d) =
    match nodes_of l with o :: _ => Some (o, Some (d + 1)) | [] => next_node_loop F m fdt e (Some d) end.
Proof.
  intros H Hd. induction H as [off|off n l e Ht _ IH|off n l e Ht _ IH|off n sub e1 e2 l e Hb _ _ _ _ _]; cbn [nodes_of]; [done|..].
  1,2: by rewrite (loop_skip _ _ _ _ Ht) by auto.
  rewrite (loop_begin _ _ _ Hb), s32_small; [done|]. unfold int. pow2. lia.
Qed.

Lemma next_node_eq off n d : token m fdt off FDT_BEGIN_NODE n -> off mod 4 = 0 ->
  fdt_next_node m fdt off d = next_node_loop F m fdt n d.
Proof.
  intros Ht Ha. pose proof (token_next _ _ _ _ _ Ht) as Hb. pose proof (geometry _ _ Hg). unfold fdt_next_node, fdt_check_node_offset_.
  rewrite (proj2 (Z.leb_le 0 off)), (proj2 (Z.ltb_ge off 0)), uw_small by (pow2; lia). unfold FDT_TAGSIZE. rewrite Ha.
  cbn. rewrite (next_tag_token _ _ _ Ht). cbn. rewrite (proj2 (Z.ltb_ge n 0)) by lia. done.
Qed.

(** ** [fdt_first_subnode] and [fdt_next_subnode] *)

Lemma nodes_nonneg pos l e o : items m fdt pos l e -> o ∈ nodes_of l -> 0 <= o.
Proof.
  induction 1 as [off|off n l e Ht _ IH|off n l e Ht _ IH|off n sub e1 e2 l e Hb _ _ _ _ IH]; cbn [nodes_of]; auto.
  - by intros ?%elem_of_nil.
  - intros [-> |?]%elem_of_cons; [by apply token_next in Hb as []|auto].
Qed.

(** What the two functions do with the answer of [fdt_next_node]. *)
Definition pick_subnode (r : option (Z * option Z)) : option Z :=
  '(o, d) ← r;
  let depth := default 0 d in
  if (o <? 0) || (depth <? 1) then Some (- FDT_ERR_NOTFOUND)
  else if 1 <? depth then next_subnode_loop F m fdt o depth else Some o.

Lemma next_subnode_loop_eq off n d : token m fdt off FDT_BEGIN_NODE n -> off mod 4 = 0 ->
  next_subnode_loop F m fdt off d = pick_subnode (next_node_loop F m fdt n (Some d)).
Proof.
  intros Ht Ha. destruct (run_next_subnode_loop m m fdt Hg Hsame F off d) as (r & Hr & _);
    [by apply (token_int m fdt Hg) in Ht as []|by apply fuelled_start|]. rewrite Hr.
  rewrite fuel_S in Hr. cbn [next_subnode_loop] in Hr.
  rewrite (next_node_eq _ _ _ Ht Ha) in Hr. unfold pick_subnode.
  destruct (next_node_loop F m fdt n (Some d)) as [[o d']|]; [|done]. cbn in *. symmetry.
  repeat case_if; try done. eapply next_subnode_loop_mono; [|exact Hr]. rewrite fuel_S. lia.
Qed.

(** Below a node, the walk comes back to the end of the node. *)
Lemma pick_items pos l e d : items m fdt pos l e -> pos mod 4 = 0 -> 1 <= d <= pos -> pos <= struct_size m fdt + 3 ->
  pick_subnode (next_node_loop F m fdt pos (Some d)) = pick_subnode (next_node_loop F m fdt e (Some d)).
Proof.
  pose proof (geometry _ _ Hg) as Hgeo. intros H. revert d.
  induction H as [off|off n l e Ht _ IH|off n l e Ht _ IH|off n sub e1 e2 l e Hb H1 IH1 He H2 IH2]; intros d Ha Hd Hp; [done|..].
  1,2: rewrite (loop_skip _ _ _ _ Ht) by auto; apply token_next in Ht; apply IH; lia.
  pose proof (token_next _ _ _ _ _ Hb) as Hb'. pose proof (token_next _ _ _ _ _ He) as He'.
  pose proof (items_bounds _ _ _ H1 ltac:(lia)).
  rewrite (loop_begin _ _ _ Hb), s32_small by (unfold int; pow2; lia). unfold pick_subnode at 1. cbn.
  rewrite (proj2 (Z.ltb_ge off 0)), (proj2 (Z.ltb_ge (d + 1) 1)), (proj2 (Z.ltb_lt 1 (d + 1))) by lia. cbn [orb].
  rewrite (next_subnode_loop_eq _ _ _ Hb Ha), IH1 by lia. rewrite (loop_end _ _ _ He), s32_small by (unfold int; pow2; lia).
  rewrite (proj2 (Z.ltb_ge _ 0)) by lia. replace (d + 1 - 1) with d by lia. apply IH2; lia.
Qed.

(** Among the items of a node, the first node is taken. *)
Lemma pick_siblings pos l e e2 : items m fdt pos l e -> token m fdt e FDT_END_NODE e2 ->
  pick_subnode (next_node_loop F m fdt pos (Some 0)) = Some (head_or_notfound (nodes_of l)).
Proof.
  intros Hi He. rewrite (loop_items _ _ _ 0 Hi) by lia. unfold head_or_notfound.
  destruct (nodes_of l) as [|o l'] eqn:El.
  - rewrite (loop_end _ _ _ He). change (s32 (0 - 1)) with (-1). cbn. by rewrite orb_true_r.
  - cbn. rewrite (proj2 (Z.ltb_ge o 0)); [done|]. eapply nodes_nonneg; [exact Hi|]. rewrite El. left.
Qed.

Lemma first_subnode_ok off sub e : node_at m fdt off sub e -> off mod 4 = 0 ->
  fdt_first_subnode m fdt off = Some (head_or_notfound (nodes_of sub)).
Proof.
  intros (n & Ht & Hi & e2 & He) Ha. unfold fdt_first_subnode. rewrite (next_node_eq _ _ _ Ht Ha).
  rewrite <- (pick_siblings _ _ _ _ Hi He), (loop_items _ _ _ 0 Hi) by lia. unfold pick_subnode.
  destruct (nodes_of sub) as [|o l'].
  - rewrite (loop_end _ _ _ He). change (s32 (0 - 1)) with (-1). cbn. by rewrite !orb_true_r.
  - cbn. by rewrite !orb_false_r.
Qed.

Lemma next_subnode_ok off sub e1 e2 l e e3 : node_at m fdt off sub e1 -> off mod 4 = 0 ->
  token m fdt e1 FDT_END_NODE e2 -> items m fdt e2 l e -> token m fdt e FDT_END_NODE e3 ->
  fdt_next_subnode m fdt off = Some (head_or_notfound (nodes_of l)).
Proof.
  intros (n & Ht & Hi & _) Ha He1 Hl He. unfold fdt_next_subnode. fold F.
  pose proof (token_next _ _ _ _ _ Ht) as Hb. rewrite (next_subnode_loop_eq _ _ _ Ht Ha), (pick_items _ _ _ _ Hi) by lia.
  rewrite (loop_end _ _ _ He1). change (s32 (1 - 1)) with 0. by apply (pick_siblings _ _ e e3).
Qed.

(** ** [fdt_subnode_offset] *)

(** A node named [s] is found under [name] with or without its unit address. *)
Definition name_matches (s name : list Z) : bool :=
  bool_decide (s = name) || (bool_decide (64 ∉ name) && bool_decide (take (S (length name)) s = name ++ [64])).

Lemma memcmp_eq_bytes n p s : (n <= length s)%nat ->
  memcmp_eq n m p s = bool_decide (bytes_of m p n = take n s).
Proof.
  revert p s. induction n as [|n IH]; intros p s Hn; [done|]. destruct s as [|c s]; [cbn in Hn; lia|].
  cbn [memcmp_eq head tail]. rewrite bytes_of_S, IH by (cbn in Hn; lia). cbn [take].
  change (default 0 (Some c)) with c. destruct (ld8 m p =? c) eqn:E; zb; cbn [andb]; [rewrite E|].
  - apply bool_decide_ext. split; [by intros ->|by intros [=]].
  - symmetry. apply bool_decide_eq_false. by intros [=].
Qed.

Lemma cstr_bytes p s n : cstr m p s -> (n <= length s)%nat -> bytes_of m p n = take n s.
Proof.
  revert p n. induction s as [|c s IH]; intros p [|n] H Hn; cbn in Hn; try done; [lia|].
  destruct H as (Hc & _ & H). rewrite bytes_of_S, Hc. cbn [take]. f_equal. apply IH; [done|lia].
Qed.

Lemma str_at_cstr p l s : str_at m fdt p l -> cstr m p s -> l = Z.of_nat (length s).
Proof.
  intros (Hl & _ & _ & Hz & Hnz) Hc. destruct (Z.lt_trichotomy l (Z.of_nat (length s))) as [Hlt|[?|Hgt]]; [|done|].
  - exfalso. destruct (lookup_lt_is_Some_2 s (Z.to_nat l)) as [c Hsc]; [lia|].
    destruct (cstr_lookup _ _ _ _ _ Hc Hsc) as [Hv Hv0]. rewrite Z2Nat.id in Hv by lia. congruence.
  - exfalso. apply (Hnz (Z.of_nat (length s))); [lia|]. by apply cstr_end.
Qed.

Lemma check_node_eq off n : token m fdt off FDT_BEGIN_NODE n -> off mod 4 = 0 -> fdt_check_node_offset_ m fdt off = Some n.
Proof.
  intros Ht Ha. pose proof (token_next _ _ _ _ _ Ht) as Hb. pose proof (geometry _ _ Hg). unfold fdt_check_node_offset_.
  rewrite (proj2 (Z.ltb_ge off 0)), uw_small by (pow2; lia). unfold FDT_TAGSIZE. rewrite Ha.
  cbn. by rewrite (next_tag_token _ _ _ Ht).
Qed.

(** [fdt_get_name] in the versions that have plain names. *)
Lemma get_name_ok off n s : token m fdt off FDT_BEGIN_NODE n -> off mod 4 = 0 -> 16 <= fdt_version m fdt ->
  fdt_totalsize m fdt < INT_MAX -> cstr m (fdt_offset_ptr_ m fdt off + 4) s ->
  fdt_get_name m fdt off = Some (Some (fdt_offset_ptr_ m fdt off + 4), Z.of_nat (length s)).
Proof.
  intros Ht Ha Hv HT Hs. pose proof (geometry _ _ Hg). pose proof (token_next _ _ _ _ _ Ht). unfold fdt_get_name.
  rewrite probe_good, (proj2 (Z.ltb_lt _ INT_MAX)) by done.
  rewrite (proj2 (Z.ltb_ge (fdt_totalsize m fdt) 0)), (check_node_eq _ _ Ht Ha) by lia. cbn.
  rewrite (proj2 (Z.ltb_ge n 0)), (proj2 (Z.ltb_ge (fdt_version m fdt) 16)) by lia.
  destruct (token_name m fdt Hg _ _ Ht) as (l & Hl & _). pose proof (str_at_cstr _ _ _ Hl Hs) as ->.
  destruct (run_blob_strlen m m fdt Hg Hsame _ _ Hl) as (r & -> & _ & ->). cbn. rewrite s32_small; [done|].
  destruct Hl as (? & ? & ? & _). unfold int, fdt_offset_ptr_ in *. pow2. lia.
Qed.

Lemma nodename_eq_ok off n s name : token m fdt off FDT_BEGIN_NODE n -> off mod 4 = 0 -> 16 <= fdt_version m fdt ->
  fdt_totalsize m fdt < INT_MAX -> cstr m (fdt_offset_ptr_ m fdt off + 4) s ->
  fdt_nodename_eq_ m fdt off name (Z.of_nat (length name)) = Some (name_matches s name).
Proof.
  intros Ht Ha Hv HT Hs. unfold fdt_nodename_eq_, name_matches. rewrite (get_name_ok _ _ _ Ht Ha Hv HT Hs). cbn.
  destruct (Z.of_nat (length s) <? Z.of_nat (length name)) eqn:El; zb.
  { rewrite (bool_decide_eq_false_2 (s = name)), (bool_decide_eq_false_2 (take _ s = _)), andb_false_r; [done|..].
    - intros H%(f_equal length). rewrite length_take, length_app in H. cbn [length] in H. lia.
    - intros ->. lia. }
  rewrite Nat2Z.id, memcmp_eq_bytes, (cstr_bytes _ _ _ Hs), (take_ge name) by lia.
  destruct (bool_decide (take (length name) s = name)) eqn:Et; cbn [negb].
  2:{ apply bool_decide_eq_false in Et. rewrite (bool_decide_eq_false_2 (s = name)), (bool_decide_eq_false_2 (take _ s = _)), andb_false_r; [done|..].
    - intros H%(f_equal (take (length name))). rewrite take_take, take_app_length in H. rewrite Nat.min_l in H by lia. done.
    - intros ->. by rewrite take_ge in Et. }
  apply bool_decide_eq_true in Et. destruct (decide (length s = length name)) as [Hlen|Hlen].
  { rewrite <- Hlen, (cstr_end _ _ _ Hs). rewrite bool_decide_eq_true_2; [done|]. rewrite <- Et, take_ge; [done|lia]. }
  destruct (lookup_lt_is_Some_2 s (length name)) as [c Hc]; [lia|].
  destruct (cstr_lookup _ _ _ _ _ Hs Hc) as [-> Hc0]. rewrite (proj2 (Z.eqb_neq c 0)) by done.
  rewrite (bool_decide_eq_false_2 (s = name)) by (by intros ->). cbn [orb].
  rewrite (take_S_r _ _ _ Hc), Et. unfold has_at. rewrite Nat2Z.id, take_ge by lia. rewrite bool_decide_not.
  destruct (bool_decide (64 ∈ name)); cbn; [done|]. case_if; [subst; by rewrite bool_decide_eq_true_2|].
  rewrite bool_decide_eq_false_2; [done|]. intros H%app_inj_tail. naive_solver.
Qed.

Definition pick_named (name : list Z) (len : Z) (r : option (Z * option Z)) : option Z :=
  '(o, d) ← r; subnode_offset_loop (S F) m fdt o (default 0 d) name len.

Lemma subnode_loop_eq off n d name len : token m fdt off FDT_BEGIN_NODE n -> off mod 4 = 0 -> 0 <= d -> 0 <= len ->
  subnode_offset_loop (S F) m fdt off d name len =
    (found ← (if d =? 1 then fdt_nodename_eq_ m fdt off name len else Some false);
     if (found : bool) then Some off else pick_named name len (next_node_loop F m fdt n (Some d))).
Proof.
  intros Ht Ha Hd Hlen. destruct (run_subnode_loop m m fdt Hg Hsame F off d name len) as (r & Hr & _);
    [by apply (token_int m fdt Hg) in Ht as []|done|intros; by apply fuelled_start|]. rewrite Hr.
  cbn [subnode_offset_loop] in Hr. apply token_next in Ht as Hb.
  rewrite (proj2 (Z.leb_le 0 off)), (proj2 (Z.leb_le 0 d)) in Hr by lia. cbn [andb] in Hr.
  destruct (if d =? 1 then _ else _) as [[]|]; [done| |done]. cbn in *. rewrite (next_node_eq _ _ _ Ht Ha) in Hr.
  unfold pick_named. destruct (next_node_loop F m fdt n (Some d)) as [[o d']|]; [|done]. cbn -[subnode_offset_loop] in *. symmetry.
  eapply subnode_offset_loop_mono; [|exact Hr]. lia.
Qed.

Lemma named_items pos l e d name len : items m fdt pos l e -> pos mod 4 = 0 -> 1 <= d <= pos -> pos <= struct_size m fdt + 3 ->
  0 <= len ->
  pick_named name len (next_node_loop F m fdt pos (Some d)) = pick_named name len (next_node_loop F m fdt e (Some d)).
Proof.
  pose proof (geometry _ _ Hg) as Hgeo. intros H. revert d.
  induction H as [off|off n l e Ht _ IH|off n l e Ht _ IH|off n sub e1 e2 l e Hb H1 IH1 He H2 IH2]; intros d Ha Hd Hp Hlen; [done|..].
  1,2: rewrite (loop_skip _ _ _ _ Ht) by auto; apply token_next in Ht; apply IH; lia.
  pose proof (token_next _ _ _ _ _ Hb) as Hb'. pose proof (token_next _ _ _ _ _ He) as He'.
  pose proof (items_bounds _ _ _ H1 ltac:(lia)).
  rewrite (loop_begin _ _ _ Hb), s32_small by (unfold int; pow2; lia). unfold pick_named at 1.
  cbn -[subnode_offset_loop]. rewrite (subnode_loop_eq _ _ _ _ _ Hb Ha) by lia.
  rewrite (proj2 (Z.eqb_neq (d + 1) 1)) by lia. cbn -[subnode_offset_loop].
  rewrite IH1 by lia. rewrite (loop_end _ _ _ He), s32_small by (unfold int; pow2; lia).
  rewrite (proj2 (Z.ltb_ge _ 0)) by lia. replace (d + 1 - 1) with d by lia. apply IH2; lia.
Qed.

(** The first of the named nodes that matches. *)
Fixpoint first_named (name : list Z) (names : list (Z * list Z)) : Z :=
  match names with
  | [] => - FDT_ERR_NOTFOUND
  | (o, s) :: names => if name_matches s name then o else first_named name names
  end.

Lemma named_siblings pos l e e2 name names : items m fdt pos l e -> token m fdt e FDT_END_NODE e2 ->
  pos mod 4 = 0 -> 0 < pos <= struct_size m fdt + 3 -> 16 <= fdt_version m fdt -> fdt_totalsize m fdt < INT_MAX ->
  nodes_of l = names.*1 -> Forall (fun '(o, s) => cstr m (fdt_offset_ptr_ m fdt o + 4) s) names ->
  pick_named name (Z.of_nat (length name)) (next_node_loop F m fdt pos (Some 0)) = Some (first_named name names).
Proof.
  pose proof (geometry _ _ Hg) as Hgeo. intros H He2. revert names.
  induction H as [off|off n l e Ht _ IH|off n l e Ht _ IH|off n sub e1 e3 l e Hb H1 _ He H2 IH2];
    intros names Ha Hp Hv HT Hn Hnames; cbn [nodes_of] in Hn.
  - destruct names; [|done]. rewrite (loop_end _ _ _ He2). change (s32 (0 - 1)) with (-1).
    cbn. by rewrite andb_false_r.
  - rewrite (loop_skip _ _ _ _ Ht) by auto; apply token_next in Ht; apply IH; try done; lia.
  - rewrite (loop_skip _ _ _ _ Ht) by auto; apply token_next in Ht; apply IH; try done; lia.
  - destruct names as [|[o s] names]; [done|]. cbn in Hn. simplify_eq. apply Forall_cons in Hnames as [Hs Hnames].
    pose proof (token_next _ _ _ _ _ Hb) as Hb'. pose proof (token_next _ _ _ _ _ He) as He'.
    pose proof (items_bounds _ _ _ H1 ltac:(lia)).
    rewrite (loop_begin _ _ _ Hb). change (s32 (0 + 1)) with 1. unfold pick_named at 1. cbn -[subnode_offset_loop].
    rewrite (subnode_loop_eq _ _ _ _ _ Hb Ha) by lia. cbn -[subnode_offset_loop].
    rewrite (nodename_eq_ok _ _ _ _ Hb Ha Hv HT Hs). cbn -[subnode_offset_loop]. destruct (name_matches s name); [done|].
    rewrite (named_items _ _ _ _ _ _ H1) by lia. rewrite (loop_end _ _ _ He). change (s32 (1 - 1)) with 0. cbv iota.
    apply IH2; try done; lia.
Qed.

Lemma subnode_offset_ok off sub e name names : node_at m fdt off sub e -> off mod 4 = 0 ->
  16 <= fdt_version m fdt -> fdt_totalsize m fdt < INT_MAX -> Z.of_nat (length name) < 2 ^ 31 ->
  nodes_of sub = names.*1 -> Forall (fun '(o, s) => cstr m (fdt_offset_ptr_ m fdt o + 4) s) names ->
  fdt_subnode_offset m fdt off name = Some (first_named name names).
Proof.
  intros (n & Ht & Hi & e2 & He) Ha Hv HT Hlen Hn Hnames. pose proof (geometry _ _ Hg). pose proof (token_next _ _ _ _ _ Ht) as Hb.
  unfold fdt_subnode_offset, fdt_subnode_offset_namelen, strlen. rewrite s32_small by (unfold int; pow2; lia).
  rewrite probe_good, (proj2 (Z.ltb_lt _ INT_MAX)), (proj2 (Z.ltb_ge (fdt_totalsize m fdt) 0)) by (done || lia). fold F.
  rewrite (subnode_loop_eq _ _ _ _ _ Ht Ha) by lia. cbn -[subnode_offset_loop].
  apply (named_siblings _ _ _ e2 _ _ Hi); try done; lia.
Qed.

(** ** Properties *)

Lemma nextprop_total pos : int pos -> exists r, nextprop_ F m fdt pos = Some r.
Proof.
  intros Hp. destruct (run_nextprop m m fdt Hg Hsame F pos Hp (fuelled_start m fdt Hg pos)) as (r & ? & _). eauto.
Qed.

Lemma nextprop_items pos l e e2 : items m fdt pos l e -> token m fdt e FDT_END_NODE e2 ->
  nextprop_ F m fdt pos = Some (head_or_notfound (props_of l)).
Proof.
  intros H He2. induction H as [off|off n l e Ht _ IH|off n l e Ht _ _|off n sub e1 e3 l e Hb _ _ _ _ _].
  - rewrite fuel_S. cbn [nextprop_]. by rewrite (next_tag_token _ _ _ He2).
  - destruct (nextprop_total off) as [r Hr]; [by apply (token_int m fdt Hg) in Ht as []|]. rewrite Hr.
    rewrite <- IH by done. rewrite fuel_S in Hr. cbn [nextprop_] in Hr. rewrite (next_tag_token _ _ _ Ht) in Hr. cbn in Hr.
    symmetry. eapply nextprop_mono; [|exact Hr]. rewrite fuel_S. lia.
  - rewrite fuel_S. cbn [nextprop_]. by rewrite (next_tag_token _ _ _ Ht).
  - rewrite fuel_S. cbn [nextprop_]. by rewrite (next_tag_token _ _ _ Hb).
Qed.

(** The name of the property at [off] is the string [s] of the strings block. *)
Definition prop_named (off : Z) (s : list Z) : Prop :=
  let nameoff := fdt32_ld_ m (prop_nameoff (fdt_offset_ptr_ m fdt off)) in
  nameoff + Z.of_nat (length s) < fdt_size_dt_strings m fdt
  /\ cstr m (fdt + fdt_off_dt_strings m fdt + nameoff) s.

Lemma get_string_ok so s : 0 <= fdt -> fdt_totalsize m fdt < INT_MAX -> 0 <= so ->
  so + Z.of_nat (length s) < fdt_size_dt_strings m fdt -> cstr m (fdt + fdt_off_dt_strings m fdt + so) s ->
  fdt_get_string m fdt so = (Some (fdt + fdt_off_dt_strings m fdt + so), Z.of_nat (length s)).
Proof.
  intros Hf HT Hso Hlen Hs. pose proof (geometry _ _ Hg). pose proof (gh_strings_end _ _ Hg). pose proof (gh_strings _ _ Hg).
  pose proof (header_size_bounds _ _ (gh_version _ _ Hg)). unfold fdt_get_string.
  rewrite probe_good, (gh_magic _ _ Hg), Z.eqb_refl, (proj2 (Z.ltb_lt _ INT_MAX)) by done.
  rewrite (proj2 (Z.ltb_ge _ 0)) by lia. cbv zeta. rewrite !(uw_small 32) by lia.
  rewrite (proj2 (Z.leb_gt (fdt_totalsize m fdt) _)), (proj2 (Z.ltb_ge so 0)), (proj2 (Z.leb_gt (fdt_size_dt_strings m fdt) so)) by lia.
  replace (fdt + (so + fdt_off_dt_strings m fdt)) with (fdt + fdt_off_dt_strings m fdt + so) by lia.
  set (p := fdt + fdt_off_dt_strings m fdt + so) in *.
  assert (Hgo : forall n, Z.of_nat (length s) < n -> memchr m p 0 n = p + Z.of_nat (length s)).
  { intros n Hn. unfold memchr. destruct (memchr_loop_ok (Z.to_nat n) m p (u8 0)) as [[_ Hno]|(Hr & Hz & Hx)].
    - exfalso. apply (Hno (p + Z.of_nat (length s))); [lia|]. by apply cstr_end.
    - destruct (Z.lt_trichotomy (memchr_loop (Z.to_nat n) m p (u8 0)) (p + Z.of_nat (length s))) as [Hlt|[?|Hgt]]; [|done|].
      + exfalso. destruct (lookup_lt_is_Some_2 s (Z.to_nat (memchr_loop (Z.to_nat n) m p (u8 0) - p))) as [c Hc]; [lia|].
        destruct (cstr_lookup _ _ _ _ _ Hs Hc) as [Hv Hv0]. rewrite Z2Nat.id in Hv by lia.
        replace (p + (_ - p)) with (memchr_loop (Z.to_nat n) m p (u8 0)) in Hv by lia. rewrite Hz in Hv. by apply Hv0.
      + exfalso. apply (Hx (p + Z.of_nat (length s))); [lia|]. by apply cstr_end. }
  destruct (17 <=? _); [destruct (_ <? _) eqn:E; zb|]; rewrite Hgo, (proj2 (Z.eqb_neq (p + _) 0)) by lia; f_equal; lia.
Qed.

Lemma string_eq_ok so s name : 0 <= fdt -> fdt_totalsize m fdt < INT_MAX -> 0 <= so ->
  so + Z.of_nat (length s) < fdt_size_dt_strings m fdt -> cstr m (fdt + fdt_off_dt_strings m fdt + so) s ->
  fdt_string_eq_ m fdt so name (Z.of_nat (length name)) = bool_decide (s = name).
Proof.
  intros Hf HT Hso Hlen Hs. unfold fdt_string_eq_. rewrite (get_string_ok _ _ Hf HT Hso Hlen Hs).
  destruct (decide (length s = length name)) as [He|He].
  - rewrite He, Z.eqb_refl, Nat2Z.id, memcmp_eq_bytes, <- He, (cstr_bytes _ _ _ Hs), !take_ge by lia. done.
  - rewrite (proj2 (Z.eqb_neq _ _)) by lia. cbn. symmetry. apply bool_decide_eq_false. by intros ->.
Qed.

Lemma check_prop_eq off n : token m fdt off FDT_PROP n -> off mod 4 = 0 -> fdt_check_prop_offset_ m fdt off = Some n.
Proof.
  intros Ht Ha. pose proof (token_next _ _ _ _ _ Ht) as Hb. pose proof (geometry _ _ Hg). unfold fdt_check_prop_offset_.
  rewrite (proj2 (Z.ltb_ge off 0)), uw_small by (pow2; lia). unfold FDT_TAGSIZE. rewrite Ha.
  cbn. by rewrite (next_tag_token _ _ _ Ht).
Qed.

Lemma get_property_by_offset_ok off n : token m fdt off FDT_PROP n -> off mod 4 = 0 ->
  let prop := fdt_offset_ptr_ m fdt off in
  fdt_get_property_by_offset_ m fdt off = Some (Some prop, fdt32_ld_ m (prop_len prop)).
Proof.
  intros Ht Ha prop. pose proof (token_next _ _ _ _ _ Ht) as Hb. pose proof (geometry _ _ Hg).
  destruct (run_get_property_by_offset_ m m fdt Hg Hsame off) as (r & Hr & _ & Hp); [by apply (token_int m fdt Hg) in Ht as []|].
  rewrite Hr. unfold fdt_get_property_by_offset_ in Hr. rewrite (check_prop_eq _ _ Ht Ha) in Hr. cbn in Hr.
  rewrite (proj2 (Z.ltb_ge n 0)) in Hr by lia. simplify_eq. destruct Hp as (_ & Hl & _). cbn in Hl. by rewrite Hl.
Qed.

Lemma next_property_eq off n : token m fdt off FDT_PROP n -> off mod 4 = 0 ->
  fdt_next_property_offset m fdt off = nextprop_ F m fdt n.
Proof.
  intros Ht Ha. pose proof (token_next _ _ _ _ _ Ht) as Hb. unfold fdt_next_property_offset.
  rewrite (check_prop_eq _ _ Ht Ha). cbn. by rewrite (proj2 (Z.ltb_ge n 0)) by lia.
Qed.

Lemma first_property_eq off n : token m fdt off FDT_BEGIN_NODE n -> off mod 4 = 0 ->
  fdt_first_property_offset m fdt off = nextprop_ F m fdt n.
Proof.
  intros Ht Ha. pose proof (token_next _ _ _ _ _ Ht) as Hb. unfold fdt_first_property_offset.
  rewrite (check_node_eq _ _ Ht Ha). cbn. by rewrite (proj2 (Z.ltb_ge n 0)) by lia.
Qed.

(** The first of the named properties with the name. *)
Fixpoint first_prop (name : list Z) (names : list (Z * list Z)) : option Z :=
  match names with
  | [] => None
  | (o, s) :: names => if bool_decide (s = name) then Some o else first_prop name names
  end.

Definition found_prop (name : list Z) (names : list (Z * list Z)) : option Z * Z * Z :=
  match first_prop name names with
  | Some p => (Some (fdt_offset_ptr_ m fdt p), fdt32_ld_ m (prop_len (fdt_offset_ptr_ m fdt p)), p)
  | None => (None, - FDT_ERR_NOTFOUND, 0)
  end.

Lemma property_loop_items pos l e e2 name names : items m fdt pos l e -> token m fdt e FDT_END_NODE e2 -> pos mod 4 = 0 ->
  0 <= fdt -> fdt_totalsize m fdt < INT_MAX ->
  props_of l = names.*1 -> Forall (fun '(o, s) => prop_named o s) names ->
  get_property_loop F m fdt (head_or_notfound (props_of l)) name (Z.of_nat (length name)) = Some (found_prop name names).
Proof.
  pose proof (geometry _ _ Hg) as Hgeo. intros H He2. revert names.
  induction H as [off|off n l e Ht _ IH|off n l e Ht H2 IH|off n sub e1 e3 l e Hb H1 _ He H2 IH2];
    intros names Ha Hf HT Hn Hnames; cbn [props_of] in *.
  1,4: (destruct names; [|done]; rewrite fuel_S; done).
  { apply token_next in Ht. apply IH; (done || lia). }
  destruct names as [|[o s] names]; [done|]. cbn in Hn. simplify_eq. apply Forall_cons in Hnames as [[Hs1 Hs2] Hnames].
  pose proof (token_next _ _ _ _ _ Ht) as Hb'. change (head_or_notfound (o :: props_of l)) with o.
  destruct (run_get_property_loop m m fdt Hg Hsame (Z.to_nat (fdt_totalsize m fdt)) o name (Z.of_nat (length name))) as (r & Hr & _);
    [by apply (token_int m fdt Hg) in Ht as []|intros _; split; [unfold fuelled; lia|eauto]|lia|].
  rewrite fuel_S, Hr.
  pose proof (fdt32_ld__range m (prop_nameoff (fdt_offset_ptr_ m fdt o))). pose proof (gh_strings_end _ _ Hg).
  pose proof (gh_strings _ _ Hg). pose proof (header_size_bounds _ _ (gh_version _ _ Hg)).
  assert (Hso : s32 (fdt32_ld_ m (prop_nameoff (fdt_offset_ptr_ m fdt o))) = fdt32_ld_ m (prop_nameoff (fdt_offset_ptr_ m fdt o)))
    by (apply s32_small; unfold int; pow2; lia).
  cbn [get_property_loop] in Hr. rewrite (proj2 (Z.leb_le 0 o)) in Hr by lia.
  rewrite (get_property_by_offset_ok _ _ Ht Ha) in Hr. cbn in Hr.
  rewrite Hso, (string_eq_ok _ s) in Hr by (done || lia). unfold found_prop. cbn [first_prop].
  case_bool_decide; [done|]. rewrite (next_property_eq _ _ Ht Ha), (nextprop_items _ _ _ _ H2 He2) in Hr. cbn in Hr.
  change (Some r = Some (found_prop name names)). rewrite <- IH by (done || lia). symmetry.
  eapply get_property_loop_mono; [|exact Hr]. rewrite fuel_S. lia.
Qed.

Lemma getprop_ok off sub e name names : node_at m fdt off sub e -> off mod 4 = 0 ->
  16 <= fdt_version m fdt -> 0 <= fdt -> fdt_totalsize m fdt < INT_MAX -> Z.of_nat (length name) < 2 ^ 31 ->
  props_of sub = names.*1 -> Forall (fun '(o, s) => prop_named o s) names ->
  fdt_getprop m fdt off name = Some
    match first_prop name names with
    | Some p => let prop := fdt_offset_ptr_ m fdt p in (Some (prop_data prop), fdt32_ld_ m (prop_len prop))
    | None => (None, - FDT_ERR_NOTFOUND)
    end.
Proof.
  intros (n & Ht & Hi & e2 & He) Ha Hv Hf HT Hlen Hn Hnames. pose proof (token_next _ _ _ _ _ Ht) as Hb.
  unfold fdt_getprop, fdt_getprop_namelen, fdt_get_property_namelen_, strlen. rewrite s32_small by (unfold int; pow2; lia).
  rewrite (first_property_eq _ _ Ht Ha), (nextprop_items _ _ _ _ Hi He). cbn -[get_property_loop]. fold F.
  rewrite (property_loop_items _ _ _ _ _ _ Hi He) by (done || lia). cbn. unfold found_prop.
  destruct (first_prop name names); [|done]. cbn. by rewrite (proj2 (Z.ltb_ge (fdt_version m fdt) 16)) by lia.
Qed.

(** ** [fdt_check_full] *)

(** The properties of a list of items, at every depth. *)
Fixpoint prop_offs (i : item) : list Z :=
  match i with IProp off => [off] | INode _ sub => concat (map prop_offs sub) end.

Definition all_props (l : list item) : list Z := concat (map prop_offs l).

(** The name of the property at [off] is a terminated string. *)
Definition has_name (off : Z) : Prop :=
  exists p l, fdt_get_string m fdt (s32 (fdt32_ld_ m (prop_nameoff (fdt_offset_ptr_ m fdt off)))) = (Some p, l).

Lemma getprop_by_offset_named off n : token m fdt off FDT_PROP n -> off mod 4 = 0 ->
  exists v name l, fdt_getprop_by_offset m fdt off = Some (v, name, l) /\ (is_Some v <-> has_name off) /\ (v = None -> l < 0).
Proof.
  intros Ht Ha. unfold fdt_getprop_by_offset. rewrite (get_property_by_offset_ok _ _ Ht Ha). cbn.
  destruct (run_get_string m m fdt Hg Hsame (s32 (fdt32_ld_ m (prop_nameoff (fdt_offset_ptr_ m fdt off)))) (s32_int _)) as [_ Hs].
  unfold has_name. destruct (fdt_get_string _ _ _) as [[p|] l] eqn:E.
  - case_if; do 3 eexists; (split; [done|]); (split; [split; [by eauto|done]|done]).
  - do 3 eexists. split; [done|]. split; [split; [by intros []|intros (? & ? & [=])]|]. unfold string_result, err_code in Hs. cbn in Hs. lia.
Qed.

(** Inside a node, the check follows the items of the node to its end tag. *)
Lemma check_inside fuel off d : int off -> off mod 4 = 0 -> 1 <= d <= INT_MAX -> check_full_loop fuel m fdt off d false = Some 0 ->
  exists l e e2 fuel', items m fdt off l e /\ token m fdt e FDT_END_NODE e2 /\ Forall has_name (all_props l)
    /\ (fuel' < fuel)%nat /\ check_full_loop fuel' m fdt e2 (d - 1) (d =? 1) = Some 0.
Proof.
  revert off d. induction fuel as [fuel IH] using (well_founded_induction lt_wf). intros off d Hint Ha Hd Hc.
  destruct fuel as [|fuel]; [done|]. cbn [check_full_loop] in Hc.
  destruct (run_next_tag m m fdt Hg Hsame off Hint) as ([tag n] & Htag & _ & Hr). rewrite Htag in Hc. cbn in Hc.
  case_if_in Hc; [simplify_eq; lia|]. destruct Hr as [[_ ?]|Ht]; cbn in *; [lia|].
  pose proof (token_next _ _ _ _ _ Ht) as Hb. pose proof (token_int m fdt Hg _ _ _ Ht) as [_ Hn].
  destruct (tag =? FDT_NOP) eqn:E1; zb; [subst tag|].
  { destruct (IH fuel ltac:(lia) n d) as (l & e & e2 & f & H1 & H2 & H3 & H4 & H5); try done; [tauto|].
    exists l, e, e2, f. split; [by econstructor|]. split_and!; try done. lia. }
  destruct (tag =? FDT_END) eqn:E2; zb; [rewrite (proj2 (Z.eqb_neq d 0)) in Hc by lia; done|].
  destruct (tag =? FDT_BEGIN_NODE) eqn:E3; zb; [subst tag|].
  { rewrite uw_small in Hc by (unfold INT_MAX in *; lia). case_if_in Hc; [done|]. rewrite (proj2 (Z.eqb_neq (d + 1) 1)) in Hc by lia.
    destruct (IH fuel ltac:(lia) n (d + 1)) as (sub & e1 & e2 & f & H1 & H2 & H3 & H4 & H5); try done; [tauto|lia|].
    pose proof (token_next _ _ _ _ _ H2). pose proof (token_int m fdt Hg _ _ _ H2) as [_ ?].
    rewrite (proj2 (Z.eqb_neq (d + 1) 1)) in H5 by lia. replace (d + 1 - 1) with d in H5 by lia.
    destruct (IH f ltac:(lia) e2 d) as (l & e & e3 & f' & K1 & K2 & K3 & K4 & K5); try done; [tauto|].
    exists (INode off sub :: l), e, e3, f'. split; [by econstructor|]. split; [done|]. split; [|split; [lia|done]].
    unfold all_props. cbn. apply Forall_app. done. }
  destruct (tag =? FDT_END_NODE) eqn:E4; zb; [subst tag|].
  { exists [], off, n, fuel. split; [constructor|]. split; [done|]. split; [done|]. split; [lia|].
    rewrite (proj2 (Z.eqb_neq d 0)), uw_small in Hc by (unfold INT_MAX in *; lia).
    replace (d =? 1) with (d - 1 =? 0) by (apply eq_true_iff_eq; rewrite !Z.eqb_eq; lia). by destruct (d - 1 =? 0). }
  destruct (tag =? FDT_PROP) eqn:E5; zb; [subst tag|done].
  destruct (getprop_by_offset_named _ _ Ht Ha) as (v & name & l0 & Hp & Hv & Hl). rewrite Hp in Hc. cbn in Hc.
  destruct v as [v|]; [|specialize (Hl eq_refl); simplify_eq; lia].
  destruct (IH fuel ltac:(lia) n d) as (l & e & e2 & f & H1 & H2 & H3 & H4 & H5); try done; [tauto|].
  exists (IProp off :: l), e, e2, f. split; [by econstructor|]. split; [done|]. split; [|split; [lia|done]].
  unfold all_props. cbn. constructor; [by apply Hv|done].
Qed.

Definition unnamed (off : Z) : Prop := exists p, fdt_get_name m fdt off = Some (Some p, 0).

(** The structure block from [off] as [fdt_check_full] wants it: properties and
    no-ops, then the end tag, or one node without a name, in which begin and end tags
    balance, and the end tag right after it.  The name of every property is a
    string of the blob.  This admits more than the device tree format, which
    asks for a root, for no property outside of it, and in every node for the
    properties before the subnodes; [conforming] is the format. *)
Definition balanced (off : Z) (root : option (Z * list item)) : Prop :=
  exists ps r, items m fdt off ps r /\ nodes_of ps = [] /\ Forall has_name (all_props ps)
  /\ match root with
     | None => exists n, token m fdt r FDT_END n
     | Some (o, sub) => o = r /\ unnamed r /\ Forall has_name (all_props sub)
         /\ exists e1 e2 n, node_at m fdt r sub e1 /\ token m fdt e1 FDT_END_NODE e2 /\ token m fdt e2 FDT_END n
     end.

(** Properties before nodes, at every depth: every item is one of the leading
    properties or a node. *)
Fixpoint props_first (i : item) : bool :=
  match i with
  | IProp _ => true
  | INode _ sub => forallb props_first sub && (length (props_of sub) + length (nodes_of sub) =? length sub)%nat
  end.

Definition conforming (root : Z * list item) : Prop := balanced 0 (Some root) /\ items m fdt 0 [] root.1 /\ props_first (uncurry INode root) = true.

Lemma check_end fuel off : int off -> check_full_loop fuel m fdt off 0 true = Some 0 -> exists n, token m fdt off FDT_END n.
Proof.
  intros Hint Hc. destruct fuel as [|fuel]; [done|]. cbn [check_full_loop] in Hc.
  destruct (run_next_tag m m fdt Hg Hsame off Hint) as ([tag n] & Htag & _ & Hr). rewrite Htag in Hc. cbn in Hc.
  case_if_in Hc; [simplify_eq; lia|]. destruct Hr as [[_ ?]|Ht]; cbn in *; [lia|].
  destruct (tag =? FDT_END) eqn:Et; zb; [|done]. subst. eauto.
Qed.

Lemma unnamed_iff off : int off -> exists p l, fdt_get_name m fdt off = Some (p, l)
  /\ (unnamed off <-> exists q, p = Some q /\ (negb (ld8 m q =? 0) || c_true l) = false) /\ (p = None -> l < 0).
Proof.
  intros Hint. destruct (run_get_name m m fdt Hg Hsame off Hint) as ([p l] & Hr & _ & Hs). exists p, l. split; [done|].
  unfold unnamed. rewrite Hr. destruct p as [p|]; unfold string_result, err_code in Hs; cbn in Hs.
  - split; [|done]. destruct Hs as (Hl & _ & _ & Hz & Hnz). unfold c_true. split.
    + intros [q [= -> ->]]. exists q. rewrite Z.add_0_r in Hz. by rewrite Hz.
    + intros (q & [= <-] & H). zb. eexists. done || (repeat f_equal; lia).
  - split; [|lia]. split; [by intros [q [=]]|by intros (q & [=] & _)].
Qed.

Lemma check_top fuel off : int off -> off mod 4 = 0 -> check_full_loop fuel m fdt off 0 false = Some 0 ->
  exists root, balanced off root.
Proof.
  revert off. induction fuel as [|fuel IH]; intros off Hint Ha Hc; [done|]. cbn [check_full_loop] in Hc.
  destruct (run_next_tag m m fdt Hg Hsame off Hint) as ([tag n] & Htag & _ & Hr). rewrite Htag in Hc. cbn in Hc.
  case_if_in Hc; [simplify_eq; lia|]. destruct Hr as [[_ ?]|Ht]; cbn in *; [lia|].
  pose proof (token_next _ _ _ _ _ Ht) as Hb. pose proof (token_int m fdt Hg _ _ _ Ht) as [_ Hn].
  destruct (tag =? FDT_NOP) eqn:E1; zb; [subst tag|].
  { destruct (IH n) as (root & ps & r & H1 & ?); try done; [tauto|]. exists root, ps, r. split; [by econstructor|done]. }
  destruct (tag =? FDT_END) eqn:E2; zb; [subst tag|].
  { exists None, [], off. split; [constructor|]. split; [done|]. split; [constructor|]. eauto. }
  destruct (tag =? FDT_BEGIN_NODE) eqn:E3; zb; [subst tag|].
  { change (u32 (0 + 1)) with 1 in Hc. change (INT_MAX <? 1) with false in Hc. cbn in Hc. destruct (unnamed_iff off Hint) as (p & l & Hname & Hu & Hneg). rewrite Hname in Hc.
    cbn in Hc. destruct p as [p|]; [|specialize (Hneg eq_refl); simplify_eq; lia]. case_if_in Hc; [done|].
    destruct (check_inside fuel n 1) as (sub & e1 & e2 & f & H1 & H2 & H3 & H4 & H5); try done; [tauto|].
    pose proof (token_int m fdt Hg _ _ _ H2) as [_ ?]. destruct (check_end f e2) as [n2 Hend]; try done.
    exists (Some (off, sub)), [], off. split; [constructor|]. split; [done|]. split; [constructor|]. split; [done|].
    split; [apply Hu; exists p; split; [done|]; unfold c_true; apply orb_false_iff; split; [by apply negb_false_iff, Z.eqb_eq|done]|].
    split; [done|]. exists e1, e2, n2. split; [|done]. exists n. eauto. }
  destruct (tag =? FDT_END_NODE) eqn:E4; zb; [done|].
  destruct (tag =? FDT_PROP) eqn:E5; zb; [subst tag|done].
  destruct (getprop_by_offset_named _ _ Ht Ha) as (v & name & l0 & Hp & Hv & Hl). rewrite Hp in Hc. cbn in Hc.
  destruct v as [v|]; [|specialize (Hl eq_refl); simplify_eq; lia].
  destruct (IH n) as (root & ps & r & H1 & H2 & H3 & H4); try done; [tauto|]. exists root, (IProp off :: ps), r.
  split; [by econstructor|]. split; [done|]. split; [|done]. unfold all_props. cbn. constructor; [by apply Hv|done].
Qed.

(** *** Completeness *)

Lemma check_full_loop_mono f f' off d b r : (f <= f')%nat ->
  check_full_loop f m fdt off d b = Some r -> check_full_loop f' m fdt off d b = Some r.
Proof.
  revert f' off d b. induction f as [|f IH]; intros f' off d b Hf H; [done|]. destruct f' as [|f']; [lia|].
  cbn [check_full_loop] in *. destruct (fdt_next_tag m fdt off) as [[tag n]|]; [|done]. cbn in *.
  assert (Hgo : forall d b, check_full_loop f m fdt n d b = Some r -> check_full_loop f' m fdt n d b = Some r)
    by (intros; apply IH; [lia|done]).
  destruct (n <? 0); [done|]. destruct (b && _); [done|]. destruct (tag =? FDT_NOP); [by apply Hgo|].
  destruct (tag =? FDT_END); [done|]. destruct (tag =? FDT_BEGIN_NODE).
  { destruct (_ <? _); [done|]. destruct (_ =? 1); [|by apply Hgo].
    destruct (fdt_get_name m fdt off) as [[[p|] l]|]; [|done|done]. cbn in *. destruct (_ || _); [done|by apply Hgo]. }
  destruct (tag =? FDT_END_NODE); [destruct (d =? 0); [done|by apply Hgo]|]. destruct (tag =? FDT_PROP); [|done].
  destruct (fdt_getprop_by_offset m fdt off) as [[[[v|] nm] l]|]; [by apply Hgo|done|done].
Qed.

(** One turn of the loop. *)
Lemma check_loop_eq off tag n d b : token m fdt off tag n ->
  exists r, check_full_loop F m fdt off d b = Some r /\
    check_full_loop (S F) m fdt off d b = Some r.
Proof.
  intros Ht. destruct (run_check_full_loop m m fdt Hg Hsame F off d b) as (r & Hr & _);
    [by apply (token_int m fdt Hg) in Ht as []|by apply fuelled_start|]. exists r. split; [done|].
  eapply check_full_loop_mono; [|exact Hr]. lia.
Qed.

Lemma check_unfold off tag n d b : token m fdt off tag n ->
  check_full_loop F m fdt off d b = check_full_loop (S F) m fdt off d b.
Proof. intros Ht. destruct (check_loop_eq _ _ _ d b Ht) as (r & -> & ->). done. Qed.

Lemma check_skip off tag n d : token m fdt off tag n -> off mod 4 = 0 ->
  tag = FDT_NOP \/ tag = FDT_PROP /\ has_name off ->
  check_full_loop F m fdt off d false = check_full_loop F m fdt n d false.
Proof.
  intros Ht Ha Htag. rewrite (check_unfold _ _ _ _ _ Ht). cbn [check_full_loop]. rewrite (next_tag_token _ _ _ Ht). cbn.
  pose proof (token_next _ _ _ _ _ Ht) as Hb. rewrite (proj2 (Z.ltb_ge n 0)) by lia. destruct Htag as [-> |[-> Hn]]; [done|].
  destruct (getprop_by_offset_named _ _ Ht Ha) as (v & name & l0 & -> & Hv & _). apply Hv in Hn as [x ->]. done.
Qed.

Lemma check_items off l e d : items m fdt off l e -> off mod 4 = 0 -> 1 <= d <= off -> off <= struct_size m fdt + 3 ->
  Forall has_name (all_props l) ->
  check_full_loop F m fdt off d false = check_full_loop F m fdt e d false.
Proof.
  pose proof (geometry _ _ Hg) as Hgeo. intros H. revert d.
  induction H as [off|off n l e Ht _ IH|off n l e Ht _ IH|off n sub e1 e2 l e Hb H1 IH1 He H2 IH2]; intros d Ha Hd Hp Hn; [done|..].
  - rewrite (check_skip _ _ _ _ Ht Ha) by auto. apply token_next in Ht. apply IH; (done || lia).
  - unfold all_props in Hn. cbn in Hn. apply Forall_cons in Hn as [Hn Hns].
    rewrite (check_skip _ _ _ _ Ht Ha) by auto. apply token_next in Ht. apply IH; (done || lia).
  - unfold all_props in Hn. cbn in Hn. apply Forall_app in Hn as [Hn Hns].
    pose proof (token_next _ _ _ _ _ Hb) as Hb'. pose proof (token_next _ _ _ _ _ He) as He'.
    pose proof (items_bounds _ _ _ H1 ltac:(lia)). rewrite (check_unfold _ _ _ _ _ Hb). cbn [check_full_loop].
    rewrite (next_tag_token _ _ _ Hb). cbn. rewrite (proj2 (Z.ltb_ge n 0)), uw_small by (pow2; lia). unfold INT_MAX.
    rewrite (proj2 (Z.ltb_ge _ (d + 1))), (proj2 (Z.eqb_neq (d + 1) 1)) by lia. rewrite IH1 by (done || lia).
    rewrite (check_unfold _ _ _ _ _ He). cbn [check_full_loop]. rewrite (next_tag_token _ _ _ He). cbn.
    rewrite (proj2 (Z.ltb_ge e2 0)), (proj2 (Z.eqb_neq (d + 1) 0)), uw_small by (pow2; lia).
    replace (d + 1 - 1) with d by lia. rewrite (proj2 (Z.eqb_neq d 0)) by lia. apply IH2; (done || lia).
Qed.

Lemma check_props off l e : items m fdt off l e -> off mod 4 = 0 -> nodes_of l = [] -> Forall has_name (all_props l) ->
  check_full_loop F m fdt off 0 false = check_full_loop F m fdt e 0 false.
Proof.
  induction 1 as [off|off n l e Ht _ IH|off n l e Ht _ IH|]; intros Ha Hno Hn; [done|..|done].
  - rewrite (check_skip _ _ _ _ Ht Ha) by auto. apply token_next in Ht. apply IH; (done || lia).
  - unfold all_props in Hn. cbn in Hn. apply Forall_cons in Hn as [Hn Hns].
    rewrite (check_skip _ _ _ _ Ht Ha) by auto. apply token_next in Ht. apply IH; (done || lia).
Qed.

Lemma check_complete root : balanced 0 root -> check_full_loop F m fdt 0 0 false = Some 0.
Proof.
  pose proof (geometry _ _ Hg) as Hgeo. intros (ps & r & Hps & Hno & Hn & Hroot). rewrite (check_props _ _ _ Hps) by done.
  pose proof (items_aligned _ _ _ Hps eq_refl) as Har. pose proof (items_bounds _ _ _ Hps ltac:(lia)) as Hbr.
  destruct root as [[o sub]|].
  2:{ destruct Hroot as [n Ht]. pose proof (token_next _ _ _ _ _ Ht). rewrite (check_unfold _ _ _ _ _ Ht). cbn [check_full_loop].
    rewrite (next_tag_token _ _ _ Ht). cbn. by rewrite (proj2 (Z.ltb_ge n 0)) by lia. }
  destruct Hroot as (_ & Hun & Hsub & e1 & e2 & n2 & (n & Hb & Hi & _) & He & Hend).
  pose proof (token_next _ _ _ _ _ Hb). pose proof (token_next _ _ _ _ _ He). pose proof (token_next _ _ _ _ _ Hend).
  rewrite (check_unfold _ _ _ _ _ Hb). cbn [check_full_loop]. rewrite (next_tag_token _ _ _ Hb). cbn.
  rewrite (proj2 (Z.ltb_ge n 0)) by lia. change (u32 (0 + 1)) with 1. cbn. change (INT_MAX <? 1) with false. cbv iota.
  destruct (unnamed_iff r) as (p & l & -> & Hu & _); [unfold int; pow2; lia|]. apply Hu in Hun as (q & -> & Hq). cbn. rewrite Hq.
  rewrite (check_items _ _ _ _ Hi) by (done || lia). rewrite (check_unfold _ _ _ _ _ He). cbn [check_full_loop].
  rewrite (next_tag_token _ _ _ He). cbn. rewrite (proj2 (Z.ltb_ge e2 0)) by lia. change (u32 (1 - 1)) with 0. cbn.
  rewrite (check_unfold _ _ _ _ _ Hend). cbn [check_full_loop]. rewrite (next_tag_token _ _ _ Hend). cbn.
  by rewrite (proj2 (Z.ltb_ge n2 0)) by lia.
Qed.
End Tree.

(** ** The readers on a tree *)

Lemma next_tag_is_token m fdt off tag n : good_header m fdt -> int off ->
  fdt_next_tag m fdt off = Some (tag, n) -> 0 <= n -> token m fdt off tag n.
Proof.
  intros Hg Hint H Hn. destruct (run_next_tag m m fdt Hg (same_on_refl _ _ m) off Hint) as (r & Hr & _ & Ht).
  rewrite H in Hr. simplify_eq. destruct Ht as [[_ ?]|]; [cbn in *; lia|done].
Qed.

Lemma token_aligned m fdt off tag n : token m fdt off tag n -> n mod 4 = 0.
Proof. by intros (_ & _ & _ & ?)%token_next. Qed.

(** A child of a list of items, and what follows it. *)
Lemma child_split m fdt pos l e i c : items m fdt pos l e -> pos mod 4 = 0 -> nodes_of l !! i = Some c ->
  exists sub e1 e2 l', node_at m fdt c sub e1 /\ c mod 4 = 0 /\ token m fdt e1 FDT_END_NODE e2
    /\ items m fdt e2 l' e /\ nodes_of l' = drop (S i) (nodes_of l).
Proof.
  intros H. revert i. induction H as [off|off n l e Ht _ IH|off n l e Ht _ IH|off n sub e1 e2 l e Hb H1 _ He H2 IH];
    intros i Ha Hc; cbn [nodes_of] in *; [done|apply IH; [by eapply token_aligned|done]..|].
  destruct i as [|i]; cbn in Hc.
  - simplify_eq. exists sub, e1, e2, l. split; [exists n; eauto|]. done.
  - destruct (IH i) as (sub' & f1 & f2 & l' & ?); [by eapply token_aligned|done|]. exists sub', f1, f2, l'. done.
Qed.

Lemma child_prop m fdt pos l e i p : items m fdt pos l e -> pos mod 4 = 0 -> props_of l !! i = Some p ->
  exists n l', token m fdt p FDT_PROP n /\ p mod 4 = 0 /\ items m fdt n l' e /\ props_of l' = drop (S i) (props_of l).
Proof.
  intros H. revert i. induction H as [off|off n l e Ht _ IH|off n l e Ht H2 IH|off n sub e1 e2 l e Hb H1 _ He H2 _];
    intros i Ha Hc; cbn [props_of] in *; [done|apply IH; [by eapply token_aligned|done]| |done].
  destruct i as [|i]; cbn in Hc.
  - simplify_eq. exists n, l. done.
  - destruct (IH i) as (n' & l' & ?); [by eapply token_aligned|done|]. exists n', l'. done.
Qed.

(** C28. [fdt_for_each_subnode] and [fdt_for_each_property_offset] go over the children
    and the properties of a node, in order: the first is found from the node, each
    next from the one before, and after the last the answer is NOTFOUND. *)
Theorem walks_in_order m fdt off sub e : fdt_check_header m fdt = 0 -> node_at m fdt off sub e -> off mod 4 = 0 ->
  let subnodes := nodes_of sub in
  let props := props_of sub in
  fdt_first_subnode m fdt off = Some (default (- FDT_ERR_NOTFOUND) (subnodes !! 0%nat))
  /\ (forall i c, subnodes !! i = Some c -> fdt_next_subnode m fdt c = Some (default (- FDT_ERR_NOTFOUND) (subnodes !! S i)))
  /\ fdt_first_property_offset m fdt off = Some (default (- FDT_ERR_NOTFOUND) (props !! 0%nat))
  /\ (forall i p, props !! i = Some p -> fdt_next_property_offset m fdt p = Some (default (- FDT_ERR_NOTFOUND) (props !! S i))).
Proof.
  intros Hch Hnode Ha. apply check_header_good in Hch as Hg. destruct (Hnode) as (n & Ht & Hi & e2 & He).
  pose proof (token_next _ _ _ _ _ Ht) as (_ & _ & _ & Han).
  assert (Hhd : forall i l, default (- FDT_ERR_NOTFOUND) (l !! i) = head_or_notfound (drop i l)).
  { intros i l. unfold head_or_notfound. by rewrite head_lookup, lookup_drop, Nat.add_0_r. }
  cbv zeta. rewrite !Hhd. split; [by apply (first_subnode_ok m fdt Hg _ _ e)|]. split; [|split].
  - intros i c Hc. destruct (child_split _ _ _ _ _ _ _ Hi Han Hc) as (subc & f1 & f2 & l' & Hc1 & Hc2 & Hc3 & Hc4 & Hc5).
    rewrite Hhd, <- Hc5. by apply (next_subnode_ok m fdt Hg _ subc f1 f2 _ e e2).
  - rewrite (first_property_eq m fdt Hg _ _ Ht Ha). by apply (nextprop_items m fdt Hg _ _ e e2).
  - intros i p Hp. destruct (child_prop _ _ _ _ _ _ _ Hi Han Hp) as (n' & l' & Hp1 & Hp2 & Hp3 & Hp4).
    rewrite Hhd, <- Hp4, (next_property_eq m fdt Hg _ _ Hp1 Hp2). by apply (nextprop_items m fdt Hg _ _ e e2).
Qed.

(** C29. [fdt_subnode_offset] finds the first child with the name, with or without its
    unit address. *)
Theorem subnode_by_name m fdt off sub e name names :
  fdt_check_header m fdt = 0 -> 16 <= fdt_version m fdt -> fdt_totalsize m fdt < INT_MAX ->
  node_at m fdt off sub e -> off mod 4 = 0 -> Z.of_nat (length name) < 2 ^ 31 ->
  nodes_of sub = names.*1 -> Forall (fun '(o, s) => cstr m (fdt_offset_ptr_ m fdt o + 4) s) names ->
  fdt_subnode_offset m fdt off name = Some (first_named name names).
Proof. intros Hch%check_header_good. intros. by eapply subnode_offset_ok. Qed.

(** C15. [fdt_getprop] returns the value and the length of the first property of the
    node with the name. *)
Theorem getprop_by_name m fdt off sub e name names :
  fdt_check_header m fdt = 0 -> 16 <= fdt_version m fdt -> 0 <= fdt -> fdt_totalsize m fdt < INT_MAX ->
  node_at m fdt off sub e -> off mod 4 = 0 -> Z.of_nat (length name) < 2 ^ 31 ->
  props_of sub = names.*1 -> Forall (fun '(o, s) => prop_named m fdt o s) names ->
  fdt_getprop m fdt off name = Some
    match first_prop name names with
    | Some p => let prop := fdt_offset_ptr_ m fdt p in (Some (prop_data prop), fdt32_ld_ m (prop_len prop))
    | None => (None, - FDT_ERR_NOTFOUND)
    end.
Proof. intros Hch%check_header_good. intros. by eapply getprop_ok. Qed.

Lemma accepts m fdt bufsize :
  fdt_check_full m fdt bufsize = Some 0 <->
    fdt_check_header m fdt = 0 /\ fdt_totalsize m fdt <= bufsize
    /\ (exists k, fdt_num_mem_rsv m fdt = Some k /\ 0 <= k) /\ exists root, balanced m fdt 0 root.
Proof.
  unfold fdt_check_full. split.
  - intros H. case_if_in H; [done|]. case_if_in H; [done|]. unfold c_true in H.
    destruct (fdt_check_header m fdt =? 0) eqn:Ech; zb; cbn [negb] in H; [|simplify_eq; lia].
    apply check_header_good in Ech as Hg. case_if_in H; [done|].
    destruct (fdt_num_mem_rsv m fdt) as [k|] eqn:Ek; [|done]. cbn in H. case_if_in H; [simplify_eq; lia|].
    split; [done|]. split; [done|]. split; [by exists k|]. apply (check_top m fdt Hg (fuel_of m fdt)); [unfold int; lia|done|done].
  - intros (Ech & Hb & (k & -> & Hk) & root & Hwf). apply check_header_good in Ech as Hg.
    pose proof (gh_total _ _ Hg). pose proof (header_size_bounds _ _ (gh_version _ _ Hg)).
    rewrite (proj2 (Z.ltb_ge bufsize FDT_V1_SIZE)) by (unfold FDT_V1_SIZE; lia).
    rewrite (proj2 (Z.ltb_ge bufsize _)) by lia. rewrite Ech. cbn.
    rewrite (proj2 (Z.ltb_ge bufsize _)), (proj2 (Z.ltb_ge k 0)) by lia. by apply (check_complete m fdt Hg root).
Qed.

(** No blob that conforms to the format is rejected. *)
Lemma conforming_accepted m fdt bufsize k root : fdt_check_header m fdt = 0 -> fdt_totalsize m fdt <= bufsize ->
  fdt_num_mem_rsv m fdt = Some k -> 0 <= k -> conforming m fdt root -> fdt_check_full m fdt bufsize = Some 0.
Proof. intros H1 H2 H3 H4 [Hb _]. apply accepts. split_and!; eauto. Qed.

(** C2. [fdt_check_full] accepts exactly the buffers that hold the blob, with a valid
    header, a terminated reservation map and a [balanced] structure block: named
    properties and no-ops, then at most one node, which has no name and in which begin
    and end tags nest and all properties have names, then the end tag.  It asks
    neither for a root nor for properties before subnodes, see
    [check_full_rootless] and [check_full_late_property]. *)
Theorem check_full_spec m fdt bufsize :
  fdt_check_full m fdt bufsize = Some 0 <->
    fdt_check_header m fdt = 0 /\ fdt_totalsize m fdt <= bufsize
    /\ (exists k, fdt_num_mem_rsv m fdt = Some k /\ 0 <= k) /\ exists root, balanced m fdt 0 root.
Proof. apply accepts. Qed.

(** ** An example

    A blob with the root, [cpus] with [cpu@0], and [memory@80000000]. *)
Definition be_mem (base : Z) (ws : list Z) : memory := fun a =>
  if a <? base then 0 else u8 (nth (Z.to_nat ((a - base) / 4)) ws 0 .>> (8 * (3 - (a - base) mod 4))).

Definition example_words : list Z :=
  [0xd00dfeed; 0xf4; 0x38; 0xd4; 0x28; 0x11; 0x10; 0x0; 0x1f; 0x9c; 0x0; 0x0; 0x0; 0x0;
   0x1; 0x0; 0x3; 0x4; 0x0; 0x2; 0x1; 0x63707573; 0x0; 0x1; 0x63707540; 0x30000000; 0x3; 0x4; 0xf; 0x0; 0x2; 0x2; 0x4;
   0x1; 0x6d656d6f; 0x72794038; 0x30303030; 0x30303000; 0x3; 0x7; 0x13; 0x6d656d6f; 0x72790000;
   0x3; 0x10; 0xf; 0x0; 0x80000000; 0x0; 0x8000000; 0x2; 0x2; 0x9;
   0x23616464; 0x72657373; 0x2d63656c; 0x6c730072; 0x65670064; 0x65766963; 0x655f7479; 0x70650000].

Definition example : memory := be_mem 0x1000 example_words.

(** The memory node's items and the root's. *)
Definition example_memory : list item := [IProp 96; IProp 116].
Definition example_root : list item := [IProp 8; INode 24 [INode 36 [IProp 48]]; INode 76 example_memory].

Definition str_cpus : list Z := [99; 112; 117; 115].
Definition str_memory : list Z := [109; 101; 109; 111; 114; 121].
Definition str_memory_unit : list Z := str_memory ++ [64; 56; 48; 48; 48; 48; 48; 48; 48].
Definition str_reg : list Z := [114; 101; 103].
Definition str_device_type : list Z := [100; 101; 118; 105; 99; 101; 95; 116; 121; 112; 101].

Lemma example_good : good_header example 0x1000.
Proof. apply check_header_good. by vm_compute. Qed.

Lemma example_token off tag n : int off -> fdt_next_tag example 0x1000 off = Some (tag, n) -> 0 <= n -> token example 0x1000 off tag n.
Proof. intros. by apply next_tag_is_token; [apply example_good|..]. Qed.

Ltac ex_token := apply example_token; [split; vm_compute; congruence|vm_compute; reflexivity|vm_compute; congruence].

Lemma example_root_at : node_at example 0x1000 0 example_root 148.
Proof.
  exists 8. split; [ex_token|]. split; [|exists 152; ex_token].
  apply items_prop with 24; [ex_token|]. apply items_node with 36 68 72; [ex_token| |ex_token|].
  { apply items_node with 48 64 68; [ex_token| |ex_token|constructor].
    apply items_prop with 64; [ex_token|constructor]. }
  apply items_nop with 76; [ex_token|]. apply items_node with 96 144 148; [ex_token| |ex_token|constructor].
  apply items_prop with 116; [ex_token|]. apply items_prop with 144; [ex_token|constructor].
Qed.

Lemma example_memory_at : node_at example 0x1000 76 example_memory 144.
Proof.
  exists 96. split; [ex_token|]. split; [|exists 148; ex_token].
  apply items_prop with 116; [ex_token|]. apply items_prop with 144; [ex_token|constructor].
Qed.

(** The blob conforms to the format. *)
Lemma example_conforming : conforming example 0x1000 (0, example_root).
Proof.
  split; [|split; [constructor|by vm_compute]]. exists [], 0. split; [constructor|]. split; [done|]. split; [constructor|]. split; [done|].
  split; [eexists; vm_compute; reflexivity|]. split; [repeat constructor; eexists _, _; vm_compute; reflexivity|].
  exists 148, 152, 156. split; [apply example_root_at|]. split; ex_token.
Qed.

(** A structure block that is only the end tag is accepted. *)
Definition rootless : memory :=
  be_mem 0x1000 [0xd00dfeed; 0x3c; 0x38; 0x3c; 0x28; 0x11; 0x10; 0x0; 0x0; 0x4; 0x0; 0x0; 0x0; 0x0; 0x9].

Example check_full_rootless : fdt_check_full rootless 0x1000 0x3c = Some 0.
Proof. vm_compute. done. Qed.

(** A property of the root behind its subnode is accepted, which [fdt_getprop] does not find. *)
Definition late_property : memory :=
  be_mem 0x1000 [0xd00dfeed; 0x64; 0x38; 0x60; 0x28; 0x11; 0x10; 0x0; 0x4; 0x28; 0x0; 0x0; 0x0; 0x0;
    0x1; 0x0; 0x1; 0x61000000; 0x2; 0x3; 0x0; 0x0; 0x2; 0x9; 0x78000000].

Example check_full_late_property : fdt_check_full late_property 0x1000 0x64 = Some 0 /\
  fdt_getprop late_property 0x1000 0 [120] = Some (None, - FDT_ERR_NOTFOUND).
Proof. vm_compute. done. Qed.

Lemma walks_in_order_witness :
  fdt_first_subnode example 0x1000 0 = Some 24 /\ fdt_next_subnode example 0x1000 24 = Some 76
  /\ fdt_next_subnode example 0x1000 76 = Some (- FDT_ERR_NOTFOUND).
Proof.
  destruct (walks_in_order example 0x1000 0 example_root 148) as (H1 & H2 & _ & _);
    [vm_compute; reflexivity|exact example_root_at|reflexivity|].
  split; [exact H1|]. split; [exact (H2 0%nat 24 eq_refl)|exact (H2 1%nat 76 eq_refl)].
Defined.

Lemma subnode_by_name_witness : fdt_subnode_offset example 0x1000 0 str_memory = Some 76.
Proof.
  apply (subnode_by_name example 0x1000 0 example_root 148 str_memory [(24, str_cpus); (76, str_memory_unit)]);
    [vm_compute; reflexivity|vm_compute; congruence|vm_compute; reflexivity|exact example_root_at|reflexivity
    |vm_compute; reflexivity|reflexivity|].
  repeat constructor; vm_compute; congruence.
Defined.

Lemma getprop_by_name_witness : fdt_getprop example 0x1000 76 str_reg = Some (Some (0x1000 + 56 + 128), 16).
Proof.
  apply (getprop_by_name example 0x1000 76 example_memory 144 str_reg [(96, str_device_type); (116, str_reg)]);
    [vm_compute; reflexivity|vm_compute; congruence|vm_compute; congruence|vm_compute; reflexivity|exact example_memory_at|reflexivity
    |vm_compute; reflexivity|reflexivity|].
  constructor; [|constructor; [|constructor]]; (split; [vm_compute; reflexivity|]); repeat split; vm_compute; congruence.
Defined.

Lemma check_full_confined_witness :
  exists r, fdt_check_full example 0x1000 244 = Some r /\ fdt_check_full (st8 example 0x10f4 7) 0x1000 244 = Some r.
Proof.
  apply (check_full_confined example (st8 example 0x10f4 7) 0x1000 244); [vm_compute; congruence|].
  intros x Hx. unfold st8. destruct (Z.eqb_spec x 0x10f4); [lia|done].
Defined.

Lemma readers_confined_witness :
  ret (fdt_getprop_namelen example 0x1000 76 str_reg 3) (fdt_getprop_namelen (st8 example 0x10f4 7) 0x1000 76 str_reg 3)
    (value_result example 0x1000).
Proof.
  apply (readers_confined example (st8 example 0x10f4 7) 0x1000 76 str_reg 3);
    [vm_compute; reflexivity| |split; vm_compute; congruence|vm_compute; congruence].
  intros x Hx. change (Z.max 36 (fdt_totalsize example 0x1000)) with 0xf4 in Hx. unfold st8.
  destruct (Z.eqb_spec x 0x10f4); [lia|done].
Defined.

(** ** Two flaws *)

(** A version 2 header ends before [size_dt_strings], which [fdt_check_header]
    reads all the same: the answer depends on a word after the blob. *)
Theorem check_header_v2_overread : exists m m',
  fdt_version m 0x1000 = 2 /\ fdt_totalsize m 0x1000 = fdt_header_size m 0x1000
  /\ same_on 0x1000 (0x1000 + fdt_totalsize m 0x1000) m m'
  /\ fdt_check_header m 0x1000 = 0 /\ fdt_check_header m' 0x1000 = - FDT_ERR_TRUNCATED.
Proof.
  set (m := be_mem 0x1000 [0xd00dfeed; 32; 32; 32; 32; 2; 2; 0]). exists m, (st8 m (0x1000 + 35) 1).
  do 2 (split; [by vm_compute|]). split; [|by vm_compute]. intros x Hx.
  change (fdt_totalsize m 0x1000) with 32 in Hx. unfold st8. destruct (Z.eqb_spec x (0x1000 + 35)); [lia|done].
Qed.

(** [fdt_mem_rsv] computes the offset of an entry in 32 bits: entry [2 ^ 28] passes
    the checks as if it were entry 0, and its address is 4 GiB after the blob's
    reservation map. *)
Theorem mem_rsv_wraps m fdt : fdt_check_header m fdt = 0 ->
  fdt_off_mem_rsvmap m fdt + 16 <= fdt_totalsize m fdt ->
  fdt_mem_rsv m fdt (2 ^ 28) = Some (fdt + fdt_off_mem_rsvmap m fdt + 2 ^ 32).
Proof.
  intros Hg%check_header_good Hr. pose proof (gh_rsv _ _ Hg). pose proof (geometry _ _ Hg).
  pose proof (header_size_bounds _ _ (gh_version _ _ Hg)). unfold fdt_mem_rsv. change (u32 (2 ^ 28 * 16)) with 0.
  rewrite Z.add_0_r, (uw_small 32), (uw_small 64) by (pow2; lia). unfold fdt_mem_rsv_. repeat case_if; try lia. f_equal.
Qed.

Lemma mem_rsv_wraps_witness : fdt_mem_rsv example 0x1000 (2 ^ 28) = Some (0x1000 + 40 + 2 ^ 32).
Proof. apply (mem_rsv_wraps example 0x1000); [vm_compute; reflexivity|vm_compute; congruence]. Defined.
