(* ===== verification/Entry.v ===== *)
(** Boot code: [src/clib/src/arch/riscv/entry/] ([fdt.c], [init.c], [mapkernel.c]).

    The state is physical memory, which also holds the variables of the code:
    [__riscv_kpgtable_root], [__riscv_kaddr_offset] and [__riscv_copied_fdt] in the
    BSS, [__riscv_ktop] in the data of the boot code.  Their addresses and those that
    the linker script defines are a [layout]; the functions of [symbol.S] return
    them.  [None] is a loop that has not ended when its turns are used up.  A boot
    that cannot go on prints its reason and powers the machine off ([Dies]). *)
From S2P Require Import Prelude Memory KlibString Fdt FdtRo.
From Stdlib Require Import String Ascii.
#[local] Open Scope Z_scope.
#[local] Open Scope cint_scope.

(** ** State *)

Record layout := Layout {
  kernel_end : Z;
  init_start : Z; init_end : Z;
  text_start : Z; text_end : Z;
  bss_start : Z; bss_end : Z;
  symbol_ktop : Z; symbol_kpgtable_root : Z; symbol_kaddr_offset : Z; symbol_copied_fdt : Z
}.

(** How the boot ends. *)
Inductive outcome (A : Type) : Type :=
| Done (a : A)
| Dies (printed : string).
Arguments Done {A} a.
Arguments Dies {A} printed.

Section boot.
Context (L : layout).

Definition ktop (m : memory) : Z := ld64 m (symbol_ktop L).
Definition kpgtable_root (m : memory) : Z := ld64 m (symbol_kpgtable_root L).
Definition kaddr_offset (m : memory) : Z := ld64 m (symbol_kaddr_offset L).
Definition copied_fdt (m : memory) : Z := ld64 m (symbol_copied_fdt L).

Definition set_ktop (v : Z) (m : memory) : memory := st64 m (symbol_ktop L) v.
Definition set_kpgtable_root (v : Z) (m : memory) : memory := st64 m (symbol_kpgtable_root L) v.
Definition set_kaddr_offset (v : Z) (m : memory) : memory := st64 m (symbol_kaddr_offset L) v.
Definition set_copied_fdt (v : Z) (m : memory) : memory := st64 m (symbol_copied_fdt L) v.

(** ** [mapkernel.c] *)

Definition LEVEL : Z := 2.
Definition PGSIZE : Z := 4096.

Definition PTE_V : Z := 1 .<< 0.
Definition PTE_R : Z := 1 .<< 1.
Definition PTE_W : Z := 1 .<< 2.
Definition PTE_X : Z := 1 .<< 3.
Definition PTE_G : Z := 1 .<< 5.
Definition PTE_A : Z := 1 .<< 6.
Definition PTE_D : Z := 1 .<< 7.

Definition alloc_page (m : memory) : memory * Z :=
  let page := ktop m in
  (set_ktop (u64 (page + PGSIZE)) m, page).

Definition get_ppn (paddr : Z) : Z := paddr .>> 12.

(** [for (i = 0; i < PGSIZE / sizeof(uintptr_t); i++) p[i] = 0;] with [n] turns left. *)
Fixpoint zero_page (n : nat) (m : memory) (p : Z) : memory :=
  match n with
  | O => m
  | S n => zero_page n (st64 m p 0) (p + 8)
  end.

(** A new table for the entry at [pte] unless it is valid. *)
Definition fill_pte (m : memory) (pte : Z) : memory :=
  if negb (c_true (ld64 m pte .& PTE_V)) then
    let '(m, new_page) := alloc_page m in
    let m := zero_page (Z.to_nat (PGSIZE / 8)) m new_page in
    st64 m pte (u64 (get_ppn new_page .<< 10) .| PTE_V)
  else m.

(** The loop of [map] from [level] on; [n] is [LEVEL - level]. *)
Fixpoint map_loop (n : nat) (m : memory) (ppn kaddr paddr flags : Z) : memory :=
  let vpn := (kaddr .>> (12 + Z.of_nat n * 9)) .& 0x1ff in
  let pagetable := u64 (ppn .<< 12) in
  let pte := pagetable + 8 * vpn in
  match n with
  | O => st64 m pte (u64 (get_ppn paddr .<< 10) .| flags)
  | S n =>
    let m := fill_pte m pte in
    map_loop n m (ld64 m pte .>> 10) kaddr paddr flags
  end.

Definition map (m : memory) (root kaddr paddr flags : Z) : memory :=
  map_loop (Z.to_nat LEVEL) m (get_ppn root) kaddr paddr flags.

(** [~(PGSIZE - 1)]: [PGSIZE] is a 32-bit unsigned integer. *)
Definition PGMASK : Z := u32 (Z.lnot (PGSIZE - 1)).

(** Turns of [for (paddr = start; paddr < stop; paddr += PGSIZE)]. *)
Definition pages (start stop : Z) : nat := Z.to_nat ((stop - start + PGSIZE - 1) / PGSIZE).

(** The first loop maps each page at its own address too. *)
Fixpoint map_init (fuel : nat) (m : memory) (root paddr stop offset flags : Z) : option memory :=
  match fuel with
  | O => None
  | S fuel =>
    if paddr <? stop then
      let kaddr := u64 (paddr + offset) in
      let m := map m root paddr paddr flags in
      let m := map m root kaddr paddr flags in
      map_init fuel m root (u64 (paddr + PGSIZE)) stop offset flags
    else Some m
  end.

Fixpoint map_range (fuel : nat) (m : memory) (root paddr stop offset flags : Z) : option memory :=
  match fuel with
  | O => None
  | S fuel =>
    if paddr <? stop then
      let kaddr := u64 (paddr + offset) in
      let m := map m root kaddr paddr flags in
      map_range fuel m root (u64 (paddr + PGSIZE)) stop offset flags
    else Some m
  end.

Definition RWX : Z := PTE_V .| PTE_R .| PTE_W .| PTE_X .| PTE_G .| PTE_A .| PTE_D.
Definition RX : Z := PTE_V .| PTE_R .| PTE_X .| PTE_G .| PTE_A .| PTE_D.
Definition RW : Z := PTE_V .| PTE_R .| PTE_W .| PTE_G .| PTE_A .| PTE_D.

(** The last turn of a loop only tests its condition. *)
Definition __riscv_map_kaddr (m : memory) (offset memory_top : Z) : option (memory * Z) :=
  let m := set_ktop (u64 (ktop m + PGSIZE - 1) .& PGMASK) m in
  let '(m, root) := alloc_page m in
  let m := set_kpgtable_root (u64 (root + kaddr_offset m)) m in
  let m := zero_page (Z.to_nat (PGSIZE / 8)) m root in
  m ← map_init (S (pages (init_start L) (init_end L))) m root (init_start L) (init_end L) offset RWX;
  m ← map_range (S (pages (text_start L) (text_end L))) m root (text_start L) (text_end L) offset RX;
  let memory_top := u64 (memory_top + PGSIZE - 1) .& PGMASK in
  m ← map_range (S (pages (text_end L) memory_top)) m root (text_end L) memory_top offset RW;
  Some (m, u64 (8 .<< 60) .| get_ppn root).

(** ** [fdt.c] *)

(** [__riscv_init_die] prints the prefix and the reason. *)
Definition __riscv_init_die {A} (reason : string) : outcome A := Dies ("Kernel panic: " ++ reason)%string.

Definition newline : string := String (ascii_of_nat 10) EmptyString.

(** The memory node's top, from the value of its [reg]. *)
Definition reg_top (m : memory) (prop_val prop_len : Z) : outcome Z :=
  if 16 <=? prop_len then
    let base := u64 (fdt32_to_cpu (ld32 m prop_val) .<< 32) .| fdt32_to_cpu (ld32 m (prop_val + 4)) in
    let size := u64 (fdt32_to_cpu (ld32 m (prop_val + 8)) .<< 32) .| fdt32_to_cpu (ld32 m (prop_val + 12)) in
    Done (u64 (base + size))
  else if 8 <=? prop_len then
    let base := fdt32_to_cpu (ld32 m prop_val) in
    let size := fdt32_to_cpu (ld32 m (prop_val + 4)) in
    Done (u64 (base + size))
  else __riscv_init_die "prop_len is invalid.".

(** The characters of ["reg"]. *)
Definition lit_reg : list Z := [114; 101; 103].

(** The body of [fdt_for_each_subnode]; [lit] is the address of the literal
    ["memory"].  [None] is a walk out of fuel. *)
Fixpoint memory_top_loop (fuel : nat) (m : memory) (lit fdt node_offset : Z) : option (outcome Z) :=
  match fuel with
  | O => None
  | S fuel =>
    if 0 <=? node_offset then
      let next := node_offset ← fdt_next_subnode m fdt node_offset; memory_top_loop fuel m lit fdt node_offset in
      '(node_name, _) ← fdt_get_name m fdt node_offset;
      match (node_name : option Z) with
      | None => next
      | Some node_name =>
        c ← strncmp m node_name lit 6;
        if c =? 0 then
          '(prop_val, prop_len) ← fdt_getprop m fdt node_offset lit_reg;
          match (prop_val : option Z) with
          | None => next
          | Some prop_val => Some (reg_top m prop_val prop_len)
          end
        else next
      end
    else Some (__riscv_init_die ("Kernel panic: no memory node found in FDT" ++ newline)%string)
  end.

Definition get_memory_top_from_fdt (m : memory) (lit fdt : Z) : option (outcome Z) :=
  node_offset ← fdt_first_subnode m fdt 0;
  memory_top_loop (S (fuel_of m fdt)) m lit fdt node_offset.

(** [for (i = 0; i < fdt_size; i++) dst[i] = src[i];] with [n] turns left. *)
Fixpoint copy_bytes (n : nat) (m : memory) (dst src : Z) : memory :=
  match n with
  | O => m
  | S n => copy_bytes n (st8 m dst (ld8 m src)) (dst + 1) (src + 1)
  end.

Definition __riscv_load_fdt (m : memory) (lit fdt : Z) : option (outcome (memory * Z)) :=
  if negb (fdt_check_header m fdt =? 0) then
    Some (__riscv_init_die ("FDT header is invalid." ++ newline)%string)
  else
    let fdt_size := fdt_totalsize m fdt in
    let dst := ktop m in
    let m := copy_bytes (Z.to_nat fdt_size) m dst fdt in
    let m := set_copied_fdt (u64 (dst + kaddr_offset m)) m in
    let m := set_ktop (u64 (ktop m + fdt_size)) m in
    r ← get_memory_top_from_fdt m lit fdt;
    Some match r with Done top => Done (m, top) | Dies p => Dies p end.

(** ** [init.c] *)

(** [for (p = bss_start; p < bss_end; p++) *p = 0;] *)
Fixpoint clear_bss (fuel : nat) (m : memory) (p stop : Z) : option memory :=
  match fuel with
  | O => None
  | S fuel => if p <? stop then clear_bss fuel (st64 m p 0) (p + 8) stop else Some m
  end.

(** Returns the memory and [a0] to [a3]. *)
Definition __riscv_init (m : memory) (lit hartid fdt offset : Z) : option (outcome (memory * (Z * Z * Z * Z))) :=
  m ← clear_bss (S (Z.to_nat ((bss_end L - bss_start L + 7) / 8))) m (bss_start L) (bss_end L);
  let m := set_ktop (kernel_end L) m in
  let m := set_kaddr_offset offset m in
  r ← __riscv_load_fdt m lit fdt;
  match r with
  | Dies p => Some (Dies p)
  | Done (m, memory_top) =>
    '(m, satp) ← __riscv_map_kaddr m offset memory_top;
    Some (Done (m, (hartid, u64 (ktop m + offset), u64 (memory_top + offset), satp)))
  end.
End boot.
