(* ===== verification/EntryMap.v ===== *)
(** The kernel page table built by [mapkernel.c]: [map] refines the insertion of
    one page into the translation that the hardware computes (Sv39). *)
From S2P Require Import Prelude Memory Entry.
#[local] Open Scope Z_scope.
#[local] Open Scope cint_scope.

(** ** The translation of the hardware

    The Sv39 walk of the RISC-V privileged architecture: an entry without V stops
    it, one with R, W or X is a leaf, any other points to the next table. *)

Definition vpn (n : nat) (va : Z) : Z := (va .>> (12 + Z.of_nat n * 9)) .& 0x1ff.

Definition pte_ppn (pte : Z) : Z := (pte .>> 10) .& Z.ones 44.

Fixpoint sv39_walk (n : nat) (m : memory) (table va : Z) : option (nat * Z) :=
  let pte := ld64 m (table + 8 * vpn n va) in
  if negb (c_true (pte .& PTE_V)) then None
  else if c_true (pte .& (PTE_R .| PTE_W .| PTE_X)) then Some (n, pte)
  else match n with O => None | S n => sv39_walk n m (4096 * pte_ppn pte) va end.

(** Physical address and flags of a virtual address. *)
Definition translate (m : memory) (root va : Z) : option (Z * Z) :=
  '(n, pte) ← sv39_walk 2 m root va;
  let size := 2 ^ (12 + 9 * Z.of_nat n) in
  Some (4096 * pte_ppn pte / size * size + va mod size, pte .& 0xff).

(** ** Table pages *)

(** The indices of [va] from level [n] down. *)
Fixpoint vpns (n : nat) (va : Z) : list Z :=
  vpn n va :: match n with O => [] | S n => vpns n va end.

Definition path (va : Z) : list Z := vpns 2 va.

Definition table_pte (q : Z) : Z := u64 (get_ppn q .<< 10) .| PTE_V.
Definition leaf_pte (paddr flags : Z) : Z := u64 (get_ppn paddr .<< 10) .| flags.

(** What entry [i] of the table with indices [a] holds, when [P] gives the table
    pages and [A] the mapped pages by their indices. *)
Definition want (P A : gmap (list Z) Z) (a : list Z) (i : Z) : Z :=
  if decide (length a < 2)%nat then
    match P !! (a ++ [i]) with Some q => table_pte q | None => 0 end
  else default 0 (A !! (a ++ [i])).

Definition leaf_ok (pte : Z) : Prop :=
  0 <= pte < 2 ^ 64 /\ c_true (pte .& PTE_V) = true /\ c_true (pte .& (PTE_R .| PTE_W .| PTE_X)) = true.

Record pt_inv (m : memory) (root lo hi : Z) (P A : gmap (list Z) Z) : Prop := {
  pt_root : P !! [] = Some root;
  pt_page : forall a p, P !! a = Some p -> p mod 4096 = 0 /\ lo <= p /\ p + 4096 <= hi /\ (length a <= 2)%nat;
  pt_inj : forall a b p, P !! a = Some p -> P !! b = Some p -> a = b;
  pt_closed : forall a i, is_Some (P !! (a ++ [i])) -> is_Some (P !! a);
  pt_leafs : forall a i, is_Some (A !! (a ++ [i])) -> is_Some (P !! a) /\ length a = 2%nat;
  pt_leaf : forall a pte, A !! a = Some pte -> leaf_ok pte;
  pt_entry : forall a p i, P !! a = Some p -> 0 <= i < 512 -> ld64 m (p + 8 * i) = want P A a i;
  pt_bounds : 0 <= lo /\ hi mod 4096 = 0 /\ hi <= 2 ^ 56
}.

(** *** Words *)

Lemma vpn_range n va : 0 <= vpn n va < 512.
Proof. unfold vpn. change 511 with (Z.ones 9). rewrite Z.land_ones by lia. apply Z.mod_pos_bound. lia. Qed.

Lemma get_ppn_shift p : 0 <= p < 2 ^ 64 -> p mod 4096 = 0 -> u64 (get_ppn p .<< 12) = p.
Proof.
  intros Hp Ha. unfold get_ppn. rewrite shiftr_pow2, shiftl_pow2 by lia. change (2 ^ 12) with 4096.
  rewrite uw_small; [|split; [pose proof (Z.div_pos p 4096); lia|]]; pose proof (Z.div_mod p 4096 ltac:(lia)); lia.
Qed.

(** An entry is a page number above ten bits of flags. *)
Lemma pte_split ppn flags : 0 <= ppn < 2 ^ 44 -> 0 <= flags < 2 ^ 10 -> u64 (ppn .<< 10) .| flags = ppn * 2 ^ 10 + flags.
Proof.
  intros Hp Hf. rewrite shiftl_pow2, uw_small by (pow2; lia). by rewrite lor_add_disjoint by (pow2; lia).
Qed.

Lemma pte_low ppn flags k : 0 <= flags < 2 ^ 10 -> 0 <= k < 2 ^ 10 -> 0 <= ppn -> (ppn * 2 ^ 10 + flags) .& k = flags .& k.
Proof.
  intros Hf Hk Hp. apply Z.bits_inj'. intros i Hi. rewrite !Z.land_spec.
  destruct (decide (i < 10)); [|rewrite (Z_testbit_high 10 k i) by lia; by rewrite !andb_false_r].
  f_equal. rewrite <- (Z.mod_pow2_bits_low _ 10) by lia. rewrite Z.add_comm, Z_mod_plus_full, Z.mod_small by lia. done.
Qed.

Lemma pte_high ppn flags : 0 <= ppn -> 0 <= flags < 2 ^ 10 -> (ppn * 2 ^ 10 + flags) .>> 10 = ppn.
Proof. intros. rewrite shiftr_pow2, Z.div_add_l, Z.div_small by lia. lia. Qed.

Lemma page_ppn q : 0 <= q -> q + 4096 <= 2 ^ 56 -> 0 <= get_ppn q < 2 ^ 44.
Proof.
  intros. unfold get_ppn. rewrite shiftr_pow2 by lia. split; [apply Z.div_pos; lia|].
  apply Z.div_lt_upper_bound; [lia|]. change (2 ^ 12 * 2 ^ 44) with (2 ^ 56). lia.
Qed.

Lemma table_pte_ok q : 0 <= q -> q + 4096 <= 2 ^ 56 ->
  0 <= table_pte q < 2 ^ 64 /\ c_true (table_pte q .& PTE_V) = true
  /\ c_true (table_pte q .& (PTE_R .| PTE_W .| PTE_X)) = false
  /\ table_pte q .>> 10 = get_ppn q /\ pte_ppn (table_pte q) = get_ppn q.
Proof.
  intros H0 H1. pose proof (page_ppn q H0 H1) as Hp. unfold table_pte.
  rewrite pte_split by (done || (vm_compute; done)). change PTE_V with 1.
  split; [pow2; lia|]. rewrite !pte_low by (done || (vm_compute; intuition congruence) || lia).
  split; [done|]. split; [done|]. unfold pte_ppn. rewrite pte_high by (pow2; lia). split; [done|].
  rewrite Z.land_ones by lia. apply Z.mod_small. lia.
Qed.

(** *** Stores to the tables *)

Lemma zero_page_other n m p x : x < p \/ p + 8 * Z.of_nat n <= x -> zero_page n m p x = m x.
Proof.
  revert m p. induction n as [|n IH]; intros m p Hx; cbn [zero_page]; [done|].
  rewrite IH by lia. apply st64_other. lia.
Qed.

Lemma zero_page_ld n m p i : 0 <= i < Z.of_nat n -> ld64 (zero_page n m p) (p + 8 * i) = 0.
Proof.
  revert m p i. induction n as [|n IH]; intros m p i Hi; [lia|]. cbn [zero_page]. destruct (decide (i = 0)) as [->|].
  - rewrite Z.mul_0_r, Z.add_0_r. rewrite (ld64_ext (st64 m p 0)); [by apply ld64_st64_same|].
    intros x Hx. apply zero_page_other. lia.
  - replace (p + 8 * i) with (p + 8 + 8 * (i - 1)) by lia. apply IH. lia.
Qed.

Section Table.
Context (root lo : Z).

(** Distinct entries of the tables do not overlap. *)
Lemma entries_apart m hi P A a b p q i j : pt_inv m root lo hi P A -> P !! a = Some p -> P !! b = Some q ->
  0 <= i < 512 -> 0 <= j < 512 -> ~ (a = b /\ i = j) -> q + 8 * j + 8 <= p + 8 * i \/ p + 8 * i + 8 <= q + 8 * j.
Proof.
  intros H Ha Hb Hi Hj Hne. destruct (pt_page _ _ _ _ _ _ H _ _ Ha) as (Hp & _). destruct (pt_page _ _ _ _ _ _ H _ _ Hb) as (Hq & _).
  destruct (decide (p = q)) as [->|].
  - pose proof (pt_inj _ _ _ _ _ _ H _ _ _ Ha Hb). destruct (decide (i = j)); [tauto|lia].
  - apply Z.mod_divide in Hp as [p' ->]; [|lia]. apply Z.mod_divide in Hq as [q' ->]; [|lia]. lia.
Qed.

Lemma want_inner P A a i : (length a < 2)%nat ->
  want P A a i = match P !! (a ++ [i]) with Some q => table_pte q | None => 0 end.
Proof. intros. unfold want. by rewrite decide_True. Qed.

Lemma want_last P A a i : length a = 2%nat -> want P A a i = default 0 (A !! (a ++ [i])).
Proof. intros H. unfold want. rewrite decide_False; [done|lia]. Qed.

(** A new table for an empty entry. *)
Lemma add_table m hi P A a p v : pt_inv m root lo hi P A -> P !! a = Some p -> (length a < 2)%nat -> P !! (a ++ [v]) = None ->
  0 <= v < 512 -> hi + 4096 <= 2 ^ 56 ->
  pt_inv (st64 (zero_page 512 m hi) (p + 8 * v) (table_pte hi)) root lo (hi + 4096) (<[a ++ [v] := hi]> P) A.
Proof.
  intros H Ha Hlen Hno Hv Hhi. pose proof (pt_bounds _ _ _ _ _ _ H) as (Hlo & Hhm & _).
  destruct (pt_page _ _ _ _ _ _ H _ _ Ha) as (Hpa & Hpl & Hph & _).
  assert (Hold : forall b q, P !! b = Some q -> q + 4096 <= hi) by (intros b q Hb; by apply (pt_page _ _ _ _ _ _ H) in Hb as (_ & _ & ? & _)).
  destruct (table_pte_ok hi) as (Hpte & _); [lia..|]. split; try apply H.
  - rewrite lookup_insert_ne; [apply H|]. by destruct a.
  - intros b q Hb. apply lookup_insert_Some in Hb as [[<- <-]|[_ Hb]].
    + rewrite length_app. cbn. lia.
    + apply (pt_page _ _ _ _ _ _ H) in Hb as (? & ? & ? & ?). repeat split; try done. lia.
  - intros b c q Hb Hc. apply lookup_insert_Some in Hb as [[<- <-]|[_ Hb]], Hc as [[<- ?]|[_ Hc]]; try done.
    + apply Hold in Hc. lia.
    + subst. apply Hold in Hb. lia.
    + by eapply (pt_inj _ _ _ _ _ _ H).
  - intros b i Hb. destruct (decide (a ++ [v] = b ++ [i])) as [[<- <-]%app_inj_tail|Hne].
    + rewrite lookup_insert_ne; [eauto|]. intros E%(f_equal length). rewrite length_app in E. cbn in E. lia.
    + rewrite lookup_insert_ne in Hb by done. apply (pt_closed _ _ _ _ _ _ H) in Hb as [q Hb].
      destruct (decide (a ++ [v] = b)) as [<-|]; [by rewrite Hno in Hb|]. rewrite lookup_insert_ne by done. eauto.
  - intros b i Hb. apply (pt_leafs _ _ _ _ _ _ H) in Hb as [[q Hq] ?]. split; [|done].
    destruct (decide (a ++ [v] = b)) as [<-|]; [by rewrite Hno in Hq|]. rewrite lookup_insert_ne by done. eauto.
  - intros b q i Hb Hi. apply lookup_insert_Some in Hb as [[<- <-]|[Hne Hb]].
    + rewrite ld64_st64_other by lia. rewrite zero_page_ld by lia. unfold want.
      rewrite lookup_insert_ne by (intros E%(f_equal length); rewrite !length_app in E; cbn in E; lia).
      destruct (decide _).
      * destruct (P !! ((a ++ [v]) ++ [i])) eqn:E; [|done].
        destruct (pt_closed _ _ _ _ _ _ H (a ++ [v]) i) as [? ?]; [eauto|]. congruence.
      * destruct (A !! ((a ++ [v]) ++ [i])) eqn:E; [|done].
        destruct (pt_leafs _ _ _ _ _ _ H (a ++ [v]) i) as [[? ?] _]; [eauto|]. congruence.
    + destruct (decide (b = a /\ i = v)) as [[-> ->]|Hd].
      * rewrite Ha in Hb. simplify_eq. rewrite ld64_st64_same by done. rewrite want_inner, lookup_insert_eq by done. done.
      * rewrite ld64_st64_other by (eapply (entries_apart m hi P A a b p q); eauto; intros [-> ->]; tauto).
        apply Hold in Hb as Hq. rewrite (ld64_ext m) by (intros x Hx; apply zero_page_other; lia).
        rewrite (pt_entry _ _ _ _ _ _ H _ _ _ Hb Hi). unfold want.
        rewrite lookup_insert_ne; [done|]. intros [E1 E2]%app_inj_tail. subst. tauto.
  - split; [done|]. split; [|done]. rewrite <- Zplus_mod_idemp_l, Hhm. done.
Qed.

(** A page in the last table. *)
Lemma set_leaf m hi P A a p v pte : pt_inv m root lo hi P A -> P !! a = Some p -> length a = 2%nat -> 0 <= v < 512 -> leaf_ok pte ->
  pt_inv (st64 m (p + 8 * v) pte) root lo hi P (<[a ++ [v] := pte]> A).
Proof.
  intros H Ha Hlen Hv Hpte. split; try apply H.
  - intros b i Hb. destruct (decide (a ++ [v] = b ++ [i])) as [[<- <-]%app_inj_tail|Hne]; [eauto|].
    rewrite lookup_insert_ne in Hb by done. by apply (pt_leafs _ _ _ _ _ _ H) in Hb.
  - intros b x Hb. apply lookup_insert_Some in Hb as [[_ <-]|[_ Hb]]; [done|]. by apply (pt_leaf _ _ _ _ _ _ H) in Hb.
  - intros b q i Hb Hi. destruct (decide (b = a /\ i = v)) as [[-> ->]|Hd].
    + rewrite Ha in Hb. simplify_eq. rewrite ld64_st64_same by apply Hpte. rewrite want_last, lookup_insert_eq by done. done.
    + rewrite ld64_st64_other by (eapply (entries_apart m hi P A a b p q); eauto; intros [-> ->]; tauto).
      rewrite (pt_entry _ _ _ _ _ _ H _ _ _ Hb Hi). unfold want.
      rewrite lookup_insert_ne; [done|]. intros [E1 E2]%app_inj_tail. subst. tauto.
Qed.
End Table.

(** ** [map] *)

(** The tables depend on their pages only. *)
Lemma pt_ext m m' root lo hi P A : pt_inv m root lo hi P A -> same_on lo hi m m' -> pt_inv m' root lo hi P A.
Proof.
  intros H Hs. split; try apply H. intros a p i Ha Hi. rewrite <- (pt_entry _ _ _ _ _ _ H a p i Ha Hi).
  destruct (pt_page _ _ _ _ _ _ H _ _ Ha) as (_ & ? & ? & _). apply ld64_ext. eapply same_on_weaken; [exact Hs|lia..].
Qed.

(** [x] is outside the word at [a]. *)
Definition off_word (a x : Z) : Prop := x < a \/ a + 8 <= x.

(** The words at [a] and [b] do not overlap. *)
Definition off_words (a b : Z) : Prop := a + 8 <= b \/ b + 8 <= a.

Section map.
Context (L : layout) (root lo : Z) (Hsym : symbol_ktop L + 8 <= lo).
#[local] Notation ktop := (ktop L).

(** Only memory in [lo, ktop m') and the variable [__riscv_ktop] changed, and at most
    [n] pages were taken. *)
Definition tables_only (n : Z) (m m' : memory) : Prop :=
  ktop m <= ktop m' <= ktop m + 4096 * n
  /\ forall x, x < lo \/ ktop m' <= x -> off_word (symbol_ktop L) x -> m' x = m x.

Lemma tables_only_trans n n' m m' m'' : tables_only n m m' -> tables_only n' m' m'' -> tables_only (n + n') m m''.
Proof.
  intros (? & Hm) (? & Hm'). split; [lia|]. intros x Hx Ho. rewrite Hm' by (done || lia). apply Hm; [lia|done].
Qed.

Lemma tables_only_refl m : tables_only 0 m m.
Proof. split; [lia|done]. Qed.

Lemma tables_only_weaken n n' m m' : tables_only n m m' -> n <= n' -> tables_only n' m m'.
Proof. intros (? & ?) Hn. split; [lia|done]. Qed.

(** A store to a table does not touch [__riscv_ktop]. *)
Lemma ktop_store m a v : lo <= a -> ktop (st64 m a v) = ktop m.
Proof. intros. unfold Entry.ktop. apply ld64_st64_other. lia. Qed.

Lemma ktop_zero_page n m p : lo <= p -> ktop (zero_page n m p) = ktop m.
Proof. intros. unfold Entry.ktop. apply ld64_ext. intros x Hx. apply zero_page_other. lia. Qed.

Lemma ktop_set m v : 0 <= v < 2 ^ 64 -> ktop (set_ktop L v m) = v.
Proof. intros. unfold Entry.ktop, set_ktop. by apply ld64_st64_same. Qed.

(** One level: the entry is a table afterwards. *)
Lemma fill_pte_ok m P A a p v :
  pt_inv m root lo (ktop m) P A -> P !! a = Some p -> (length a < 2)%nat -> 0 <= v < 512 -> ktop m + 4096 <= 2 ^ 56 ->
  let m' := fill_pte L m (p + 8 * v) in
  tables_only 1 m m' /\ exists P' q, pt_inv m' root lo (ktop m') P' A /\ P' !! (a ++ [v]) = Some q
    /\ ld64 m' (p + 8 * v) .>> 10 = get_ppn q.
Proof.
  intros H Ha Hlen Hv Hroom. pose proof (pt_page _ _ _ _ _ _ H _ _ Ha) as (_ & Hpl & Hph & _).
  pose proof (pt_bounds _ _ _ _ _ _ H) as (Hlo & Hhm & Hhi). unfold fill_pte.
  rewrite (pt_entry _ _ _ _ _ _ H _ _ _ Ha Hv), want_inner by done. destruct (P !! (a ++ [v])) as [q|] eqn:Eq.
  - destruct (pt_page _ _ _ _ _ _ H _ _ Eq) as (_ & Hql & Hqh & _). destruct (table_pte_ok q) as (_ & -> & _ & Hnext & _); [lia..|].
    cbn [negb]. split; [by eapply tables_only_weaken; [apply tables_only_refl|]|]. exists P, q. split; [done|]. split; [done|].
    by rewrite (pt_entry _ _ _ _ _ _ H _ _ _ Ha Hv), want_inner, Eq.
  - change (c_true (0 .& PTE_V)) with false. cbn [negb alloc_page]. change (Z.to_nat (PGSIZE / 8)) with 512%nat.
    unfold PGSIZE. rewrite (uw_small 64 (ktop m + 4096)) by (pow2; lia). set (m1 := set_ktop L _ m).
    assert (Hm1 : same_on lo (ktop m) m m1) by (intros x Hx; apply st64_other; lia).
    assert (Hk : ktop m1 = ktop m + 4096) by (apply ktop_set; pow2; lia).
    fold (table_pte (ktop m)). destruct (table_pte_ok (ktop m)) as (Hr & _ & _ & Hnext & _); [lia..|].
    set (m2 := zero_page 512 m1 (ktop m)). assert (Hk2 : ktop (st64 m2 (p + 8 * v) (table_pte (ktop m))) = ktop m + 4096).
    { rewrite ktop_store, <- Hk by lia. apply ktop_zero_page. lia. }
    split.
    + split; [lia|]. intros x Hx Ho. rewrite Hk2 in Hx. rewrite st64_other by lia. unfold m2. rewrite zero_page_other by lia. by apply st64_other.
    + exists (<[a ++ [v] := ktop m]> P), (ktop m). rewrite Hk2. split; [apply add_table; [by eapply pt_ext|done..]|].
      split; [apply lookup_insert_eq|]. by rewrite ld64_st64_same.
Qed.

Lemma map_loop_ok n m P A a p kaddr paddr flags :
  pt_inv m root lo (ktop m) P A -> P !! a = Some p -> (length a + n = 2)%nat -> leaf_ok (leaf_pte paddr flags) ->
  ktop m + 4096 * Z.of_nat n <= 2 ^ 56 ->
  let m' := map_loop L n m (get_ppn p) kaddr paddr flags in
  tables_only (Z.of_nat n) m m'
  /\ exists P', pt_inv m' root lo (ktop m') P' (<[a ++ vpns n kaddr := leaf_pte paddr flags]> A).
Proof.
  revert m P a p. induction n as [|n IH]; intros m P a p H Ha Hlen Hpte Hroom; cbn [map_loop vpns];
    pose proof (pt_page _ _ _ _ _ _ H _ _ Ha) as (Hpa & Hpl & Hph & _); pose proof (pt_bounds _ _ _ _ _ _ H) as (Hlo & Hhm & Hhi);
    cbv zeta; rewrite get_ppn_shift by (done || (pow2; lia)).
  - fold (vpn 0 kaddr). pose proof (vpn_range 0 kaddr). rewrite ktop_store by lia. split.
    + split; rewrite ktop_store by lia; [lia|]. intros x Hx _. apply st64_other. lia.
    + exists P. apply (set_leaf _ _ _ _ P A a p _ _ H Ha); [lia|done|done].
  - fold (vpn (S n) kaddr). set (v := vpn (S n) kaddr). assert (Hv : 0 <= v < 512) by apply vpn_range.
    destruct (fill_pte_ok m P A a p v H Ha) as (Ht & P' & q & H' & Hq & ->); [lia|done|lia|].
    destruct (IH _ P' (a ++ [v]) q H' Hq) as (Ht' & P'' & H''); [rewrite length_app; cbn; lia|done|destruct Ht as (? & _); lia|].
    split; [eapply tables_only_weaken; [by eapply tables_only_trans|lia]|]. exists P''. by rewrite <- app_assoc in H''.
Qed.

(** The abstract effect of [map]: one more page in the translation. *)
Lemma map_ok m P A kaddr paddr flags :
  pt_inv m root lo (ktop m) P A -> leaf_ok (leaf_pte paddr flags) -> ktop m + 2 * 4096 <= 2 ^ 56 ->
  let m' := map L m root kaddr paddr flags in
  tables_only 2 m m' /\ exists P', pt_inv m' root lo (ktop m') P' (<[path kaddr := leaf_pte paddr flags]> A).
Proof. intros H Hl Hr. apply (map_loop_ok 2 m P A [] root); [done|apply H|done|done|cbn; lia]. Qed.
End map.

(** The hardware walk reads the abstract table. *)
Lemma walk_ok m root lo hi P A n a p va : pt_inv m root lo hi P A -> P !! a = Some p -> (length a + n = 2)%nat ->
  sv39_walk n m p va = pte ← A !! (a ++ vpns n va); Some (0%nat, pte).
Proof.
  intros H. pose proof (pt_bounds _ _ _ _ _ _ H) as (Hlo & _ & Hhi). revert a p.
  induction n as [|n IH]; intros a p Ha Hlen; cbn [sv39_walk vpns];
    rewrite (pt_entry _ _ _ _ _ _ H _ _ _ Ha (vpn_range _ va)).
  - rewrite want_last by lia. destruct (A !! (a ++ [vpn 0 va])) as [pte|] eqn:E; cbn; [|done].
    destruct (pt_leaf _ _ _ _ _ _ H _ _ E) as (_ & Hv & Hl). change (id pte) with pte. by rewrite Hv, Hl.
  - rewrite want_inner by lia. destruct (P !! (a ++ [vpn (S n) va])) as [q|] eqn:E.
    + destruct (pt_page _ _ _ _ _ _ H _ _ E) as (Hqa & Hql & Hqh & _). destruct (table_pte_ok q) as (_ & -> & -> & _ & ->); [lia..|].
      cbn [negb]. replace (4096 * get_ppn q) with q.
      * rewrite (IH _ _ E) by (rewrite length_app; cbn; lia). by rewrite <- app_assoc.
      * unfold get_ppn. rewrite shiftr_pow2 by lia. change (2 ^ 12) with 4096. pose proof (Z.div_mod q 4096). lia.
    + change (c_true (0 .& PTE_V)) with false. cbn [negb]. destruct (A !! _) as [pte|] eqn:EA; [exfalso|done].
      revert E EA. clear IH. destruct n as [|[|n]]; cbn [vpns]; [| |lia]; intros E EA.
      * destruct (pt_leafs _ _ _ _ _ _ H (a ++ [vpn 1 va]) (vpn 0 va)) as [[? ?] _]; [rewrite <- app_assoc; eauto|]. congruence.
      * destruct (pt_leafs _ _ _ _ _ _ H (a ++ [vpn 2 va; vpn 1 va]) (vpn 0 va)) as [Hs _]; [rewrite <- app_assoc; eauto|].
        replace (a ++ [vpn 2 va; vpn 1 va]) with ((a ++ [vpn 2 va]) ++ [vpn 1 va]) in Hs by (by rewrite <- app_assoc).
        apply (pt_closed _ _ _ _ _ _ H) in Hs as [? ?]. congruence.
Qed.
