(* ===== verification/EntryKaddr.v ===== *)
(** [__riscv_map_kaddr] of [mapkernel.c]: the page table of the kernel as a list
    of mappings, what it maps, and two mistakes in it. *)
From S2P Require Import Prelude Memory Entry EntryMap.
#[local] Open Scope Z_scope.
#[local] Open Scope cint_scope.

(** ** Sequences of mappings *)

(** Virtual address, physical address and flags. *)
Definition mapping : Type := Z * Z * Z.

Definition same_page (k va : Z) : bool := (k / 4096) mod 2 ^ 27 =? (va / 4096) mod 2 ^ 27.

(** The last mapping of the page of [va] decides. *)
Fixpoint lookup_map (l : list mapping) (va : Z) : option (Z * Z) :=
  match l with
  | [] => None
  | (k, p, f) :: l =>
    match lookup_map l va with
    | Some r => Some r
    | None => if same_page k va then Some (p / 4096 * 4096 + va mod 4096, f) else None
    end
  end.

Definition install (A : gmap (list Z) Z) (l : list mapping) : gmap (list Z) Z :=
  foldl (fun A '(k, p, f) => <[path k := leaf_pte p f]> A) A l.

Definition good_mapping (x : mapping) : Prop :=
  let '(k, p, f) := x in
  0 <= k /\ 0 <= p < 2 ^ 56 /\ 0 <= f < 256 /\ c_true (f .& PTE_V) = true /\ c_true (f .& (PTE_R .| PTE_W .| PTE_X)) = true.

Lemma path_digits va : 0 <= va -> path va = [va / 4096 / 2 ^ 18 mod 512; va / 4096 / 2 ^ 9 mod 512; va / 4096 mod 512].
Proof.
  intros. unfold path, vpns, vpn. change 511 with (Z.ones 9). rewrite !Z.land_ones, !shiftr_pow2, !Z.div_div by lia. done.
Qed.

Lemma digits y : y mod 2 ^ 27 = y / 2 ^ 18 mod 512 * 2 ^ 18 + y / 2 ^ 9 mod 512 * 2 ^ 9 + y mod 512.
Proof.
  replace (y / 2 ^ 18) with (y / 2 ^ 9 / 2 ^ 9) by (by rewrite Z.div_div by lia).
  change (2 ^ 27) with (2 ^ 9 * (2 ^ 9 * 2 ^ 9)). rewrite !Z.rem_mul_r by lia. change 512 with (2 ^ 9). lia.
Qed.

Lemma path_eq k va : 0 <= k -> 0 <= va -> path k = path va <-> same_page k va = true.
Proof.
  intros Hk Hva. rewrite !path_digits by done. unfold same_page. rewrite Z.eqb_eq, !digits. split.
  - intros [= -> -> ->]. done.
  - intros E. assert (Hb : forall y, 0 <= y mod 512 < 512) by (intros; apply Z.mod_pos_bound; lia).
    pose proof (Hb (k / 4096 / 2 ^ 18)). pose proof (Hb (k / 4096 / 2 ^ 9)). pose proof (Hb (k / 4096)).
    pose proof (Hb (va / 4096 / 2 ^ 18)). pose proof (Hb (va / 4096 / 2 ^ 9)). pose proof (Hb (va / 4096)).
    change (2 ^ 18) with 262144 in *. change (2 ^ 9) with 512 in *.
    assert (k / 4096 / 262144 mod 512 = va / 4096 / 262144 mod 512 /\ k / 4096 / 512 mod 512 = va / 4096 / 512 mod 512
      /\ k / 4096 mod 512 = va / 4096 mod 512) as (-> & -> & ->) by lia. done.
Qed.

Lemma leaf_pte_eq p f : 0 <= p < 2 ^ 56 -> 0 <= f < 256 -> leaf_pte p f = p / 4096 * 2 ^ 10 + f /\ 0 <= p / 4096 < 2 ^ 44.
Proof.
  intros Hp Hf. assert (0 <= p / 4096 < 2 ^ 44).
  { split; [apply Z.div_pos; lia|]. apply Z.div_lt_upper_bound; [lia|]. change (4096 * 2 ^ 44) with (2 ^ 56). lia. }
  split; [|done]. unfold leaf_pte, get_ppn. rewrite (shiftr_pow2 p) by lia. change (2 ^ 12) with 4096. apply pte_split; [done|pow2; lia].
Qed.

Lemma leaf_pte_ok k p f : good_mapping (k, p, f) ->
  leaf_ok (leaf_pte p f) /\ pte_ppn (leaf_pte p f) = p / 4096 /\ leaf_pte p f .& 0xff = f.
Proof.
  intros (_ & Hp & Hf & Hv & Hl). destruct (leaf_pte_eq p f Hp Hf) as [-> Hq]. unfold leaf_ok, pte_ppn.
  rewrite pte_high by (pow2; lia). rewrite !pte_low by ((vm_compute; intuition congruence) || (pow2; lia) || lia).
  split; [split; [pow2; lia|done]|]. rewrite Z.land_ones, Z.mod_small by lia. split; [done|].
  change 0xff with (Z.ones 8). rewrite Z.land_ones, Z.mod_small by lia. done.
Qed.

(** The translation from the abstract table. *)
Definition entry_of (A : gmap (list Z) Z) (va : Z) : option (Z * Z) :=
  pte ← A !! path va; Some (4096 * pte_ppn pte + va mod 4096, pte .& 0xff).

Lemma translate_ok m root lo hi P A va : pt_inv m root lo hi P A -> translate m root va = entry_of A va.
Proof.
  intros H. unfold translate, entry_of. rewrite (walk_ok _ _ _ _ _ _ 2 [] root va H) by (apply H || done).
  change ([] ++ vpns 2 va) with (path va). destruct (A !! path va) as [pte|]; [|done]. cbn.
  change (12 + 9 * Z.of_nat 0) with 12. change (2 ^ 12) with 4096. rewrite (Z.mul_comm 4096 (pte_ppn pte)), Z.div_mul by lia. done.
Qed.

Lemma entry_of_install A l va : Forall good_mapping l -> 0 <= va ->
  entry_of (install A l) va = match lookup_map l va with Some r => Some r | None => entry_of A va end.
Proof.
  revert A. induction l as [|[[k p] f] l IH]; intros A Hl Hva; cbn [lookup_map install foldl]; [done|].
  apply Forall_cons in Hl as [Hx Hl]. fold (install (<[path k := leaf_pte p f]> A) l). rewrite IH by done.
  destruct (lookup_map l va); [done|]. destruct (leaf_pte_ok _ _ _ Hx) as (_ & Hppn & Hf). destruct Hx as (Hk & _).
  unfold entry_of. destruct (same_page k va) eqn:E.
  - apply path_eq in E as <-; [|done..]. rewrite lookup_insert_eq. cbn. rewrite Hppn, Hf, Z.mul_comm. done.
  - rewrite lookup_insert_ne; [done|]. intros Hp. apply path_eq in Hp; [congruence|done..].
Qed.

Lemma map_seq_ok L root lo m P A x : symbol_ktop L + 8 <= lo -> pt_inv m root lo (ktop L m) P A -> good_mapping x -> ktop L m + 2 * 4096 <= 2 ^ 56 ->
  let m' := map L m root x.1.1 x.1.2 x.2 in
  tables_only L lo 2 m m' /\ exists P', pt_inv m' root lo (ktop L m') P' (install A [x]).
Proof. destruct x as [[k p] f]. intros Hs H Hx Hr. apply (map_ok L root lo Hs m P A k p f H); [by apply (leaf_pte_ok k)|done]. Qed.

(** ** The loops of [__riscv_map_kaddr] *)

Fixpoint range_maps (n : nat) (paddr offset flags : Z) : list mapping :=
  match n with
  | O => []
  | S n => (u64 (paddr + offset), paddr, flags) :: range_maps n (paddr + 4096) offset flags
  end.

Fixpoint init_maps (n : nat) (paddr offset flags : Z) : list mapping :=
  match n with
  | O => []
  | S n => (paddr, paddr, flags) :: (u64 (paddr + offset), paddr, flags) :: init_maps n (paddr + 4096) offset flags
  end.

Lemma install_app A l l' : install A (l ++ l') = install (install A l) l'.
Proof. apply foldl_app. Qed.

Definition good_flags (f : Z) : Prop :=
  0 <= f < 256 /\ c_true (f .& PTE_V) = true /\ c_true (f .& (PTE_R .| PTE_W .| PTE_X)) = true.

(** What a loop of [n] turns over [start, stop) does: it ends, and installs [l]. *)
Definition installs (L : layout) (root lo k : Z) (A : gmap (list Z) Z) (l : list mapping) (m : memory) (out : option memory) : Prop :=
  exists m', out = Some m' /\ tables_only L lo k m m' /\ exists P, pt_inv m' root lo (ktop L m') P (install A l).

(** The loop over [start, stop) has [n] turns. *)
Definition turns (n : nat) (start stop : Z) : Prop :=
  (n = 0%nat \/ start + 4096 * (Z.of_nat n - 1) < stop) /\ stop <= start + 4096 * Z.of_nat n.

Lemma map_range_ok L root lo n m P A paddr stop offset flags : symbol_ktop L + 8 <= lo ->
  pt_inv m root lo (ktop L m) P A -> good_flags flags -> 0 <= paddr -> turns n paddr stop ->
  stop <= 2 ^ 40 -> ktop L m + 2 * 4096 * Z.of_nat n <= 2 ^ 56 ->
  installs L root lo (2 * Z.of_nat n) A (range_maps n paddr offset flags) m (map_range L (S n) m root paddr stop offset flags).
Proof.
  intros Hsym H Hf. revert m P A paddr H. induction n as [|n IH]; intros m P A paddr H Hp [Hn Hc] Hs Hroom; [|remember (S n) as f eqn:Ef]; cbn [map_range range_maps].
  { rewrite (proj2 (Z.ltb_ge paddr stop)) by lia. exists m. split; [done|]. split; [apply tables_only_refl|]. by exists P. }
  subst f. rewrite (proj2 (Z.ltb_lt paddr stop)) by lia. cbv zeta. set (x := (u64 (paddr + offset), paddr, flags) : mapping).
  destruct (map_seq_ok L root lo m P A x Hsym H) as (Ht & P1 & H1); [split; [by apply uw_nonneg|split; [pow2; lia|done]]|lia|].
  unfold PGSIZE. rewrite (uw_small 64 (paddr + 4096)) by (pow2; lia). cbn [x fst snd] in Ht, H1.
  destruct (IH _ P1 _ (paddr + 4096) H1) as (m2 & -> & Ht' & P2 & H2); [lia|split; lia|lia|destruct Ht as (? & _); lia|].
  exists m2. split; [done|]. split; [eapply tables_only_weaken; [by eapply tables_only_trans|lia]|]. exists P2.
  cbn [range_maps]. fold x. change (x :: ?l) with ([x] ++ l). by rewrite install_app.
Qed.

Lemma map_init_ok L root lo n m P A paddr stop offset flags : symbol_ktop L + 8 <= lo ->
  pt_inv m root lo (ktop L m) P A -> good_flags flags -> 0 <= paddr -> turns n paddr stop ->
  stop <= 2 ^ 40 -> ktop L m + 4 * 4096 * Z.of_nat n <= 2 ^ 56 ->
  installs L root lo (4 * Z.of_nat n) A (init_maps n paddr offset flags) m (map_init L (S n) m root paddr stop offset flags).
Proof.
  intros Hsym H Hf. revert m P A paddr H. induction n as [|n IH]; intros m P A paddr H Hp [Hn Hc] Hs Hroom; [|remember (S n) as f eqn:Ef]; cbn [map_init init_maps].
  { rewrite (proj2 (Z.ltb_ge paddr stop)) by lia. exists m. split; [done|]. split; [apply tables_only_refl|]. by exists P. }
  subst f. rewrite (proj2 (Z.ltb_lt paddr stop)) by lia. cbv zeta.
  set (x := (paddr, paddr, flags) : mapping). set (y := (u64 (paddr + offset), paddr, flags) : mapping).
  destruct (map_seq_ok L root lo m P A x Hsym H) as (Ht & P1 & H1); [split; [done|split; [pow2; lia|done]]|lia|]. cbn [x fst snd] in Ht, H1.
  destruct (map_seq_ok L root lo _ P1 _ y Hsym H1) as (Ht' & P2 & H2);
    [split; [by apply uw_nonneg|split; [pow2; lia|done]]|destruct Ht as (? & _); lia|]. cbn [y fst snd] in Ht', H2.
  pose proof (tables_only_trans _ _ _ _ _ _ _ Ht Ht') as Htt.
  unfold PGSIZE. rewrite (uw_small 64 (paddr + 4096)) by (pow2; lia).
  destruct (IH _ P2 _ (paddr + 4096) H2) as (m3 & -> & Ht3 & P3 & H3); [lia|split; lia|lia|destruct Htt as (? & _); lia|].
  exists m3. split; [done|]. split; [eapply tables_only_weaken; [by eapply tables_only_trans|lia]|]. exists P3.
  cbn [init_maps]. fold x y. change (x :: y :: ?l) with ([x] ++ [y] ++ l). by rewrite !install_app.
Qed.

Lemma pages_bounds start stop : 0 <= start -> stop <= 2 ^ 40 ->
  (pages start stop = 0%nat \/ start + 4096 * (Z.of_nat (pages start stop) - 1) < stop) /\ Z.of_nat (pages start stop) <= 2 ^ 28
  /\ stop <= start + 4096 * Z.of_nat (pages start stop).
Proof.
  intros. unfold pages, PGSIZE. pose proof (Z.div_mod (stop - start + 4096 - 1) 4096 ltac:(lia)) as Hd.
  pose proof (Z.mod_pos_bound (stop - start + 4096 - 1) 4096 ltac:(lia)). change (2 ^ 40) with (4096 * 2 ^ 28) in *.
  change (2 ^ 28) with 268435456 in *. set (q := (stop - start + 4096 - 1) / 4096) in *.
  destruct (decide (0 <= q)); [rewrite Z2Nat.id by done|assert (Z.to_nat q = 0%nat) as -> by lia]; lia.
Qed.

(** The empty table. *)
Lemma new_root m root : 0 <= root -> root mod 4096 = 0 -> root + 4096 <= 2 ^ 56 ->
  pt_inv (zero_page 512 m root) root root (root + 4096) {[ [] := root ]} ∅.
Proof.
  intros H0 Ha Hr. split.
  - apply lookup_singleton_eq.
  - intros a p [<- <-]%lookup_singleton_Some. cbn. lia.
  - intros a b p [<- _]%lookup_singleton_Some [<- _]%lookup_singleton_Some. done.
  - intros a i [p [Hp _]%lookup_singleton_Some]. by destruct a.
  - intros a i [p Hp]. by rewrite lookup_empty in Hp.
  - intros a p Hp. by rewrite lookup_empty in Hp.
  - intros a p i [<- <-]%lookup_singleton_Some Hi. rewrite zero_page_ld by lia. unfold want. cbn.
    rewrite lookup_singleton_ne; done.
  - split; [lia|]. split; [|lia]. rewrite <- Zplus_mod_idemp_l, Ha. done.
Qed.

(** ** [__riscv_map_kaddr] *)

(** Rounding to pages with a 32-bit mask. *)
Definition round32 (x : Z) : Z := u64 (x + PGSIZE - 1) .& PGMASK.

Lemma round32_eq x : round32 x = (x + 4095) mod 2 ^ 32 / 4096 * 4096.
Proof.
  unfold round32, PGSIZE, PGMASK. replace (x + 4096 - 1) with (x + 4095) by lia. set (y := u64 (x + 4095)).
  rewrite uw_land, (Z.land_comm (Z.lnot _)), Z.land_assoc, <- uw_land by lia.
  change (4096 - 1) with (Z.ones 12). unfold PGSIZE. change (4096 - 1) with (Z.ones 12).
  rewrite <- Z.ldiff_land, Z.ldiff_ones_r, shiftl_pow2, shiftr_pow2 by lia. unfold y, uw. do 2 f_equal.
  change (2 ^ 64) with (2 ^ 32 * 2 ^ 32). rewrite Z.rem_mul_r, Z.mul_comm, Z_mod_plus_full, Z.mod_mod by lia. done.
Qed.

Definition kernel_maps (L : layout) (offset memory_top : Z) : list mapping :=
  init_maps (pages (init_start L) (init_end L)) (init_start L) offset RWX
  ++ range_maps (pages (text_start L) (text_end L)) (text_start L) offset RX
  ++ range_maps (pages (text_end L) (round32 memory_top)) (text_end L) offset RW.

Record good_layout (L : layout) : Prop := {
  gl_init : 0 <= init_start L <= init_end L;
  gl_text : init_end L <= text_start L <= text_end L;
  gl_end : text_end L <= 2 ^ 32;
  gl_align : init_start L mod 4096 = 0 /\ text_start L mod 4096 = 0
}.

Lemma round32_bounds x : 0 <= round32 x <= 2 ^ 32 /\ round32 x mod 4096 = 0.
Proof.
  rewrite round32_eq. split; [|apply Z.mod_mul; lia].
  pose proof (Z.mod_pos_bound (x + 4095) (2 ^ 32) ltac:(lia)). set (y := (x + 4095) mod 2 ^ 32) in *.
  pose proof (Z.div_mod y 4096 ltac:(lia)). pose proof (Z.mod_pos_bound y 4096 ltac:(lia)). pose proof (Z.div_pos y 4096). lia.
Qed.

(** Mappings of the three loops are in range. *)
Lemma range_maps_good n paddr offset flags stop : good_flags flags -> 0 <= paddr ->
  (n = 0%nat \/ paddr + 4096 * (Z.of_nat n - 1) < stop) -> stop <= 2 ^ 40 -> Forall good_mapping (range_maps n paddr offset flags).
Proof.
  intros Hf. revert paddr. induction n as [|n IH]; intros paddr Hp Hn Hs; cbn [range_maps]; [constructor|].
  constructor; [split; [by apply uw_nonneg|split; [pow2; lia|done]]|]. apply IH; lia.
Qed.

Lemma init_maps_good n paddr offset flags stop : good_flags flags -> 0 <= paddr ->
  (n = 0%nat \/ paddr + 4096 * (Z.of_nat n - 1) < stop) -> stop <= 2 ^ 40 -> Forall good_mapping (init_maps n paddr offset flags).
Proof.
  intros Hf. revert paddr. induction n as [|n IH]; intros paddr Hp Hn Hs; cbn [init_maps]; [constructor|].
  constructor; [split; [done|split; [pow2; lia|done]]|].
  constructor; [split; [by apply uw_nonneg|split; [pow2; lia|done]]|]. apply IH; lia.
Qed.

Lemma flags_good : good_flags RWX /\ good_flags RX /\ good_flags RW.
Proof. repeat split; vm_compute; congruence. Qed.

Lemma kernel_maps_good L offset top : good_layout L -> Forall good_mapping (kernel_maps L offset top).
Proof.
  intros HL. pose proof (gl_init _ HL). pose proof (gl_text _ HL). pose proof (gl_end _ HL). pose proof (round32_bounds top) as [? _].
  destruct flags_good as (? & ? & ?). unfold kernel_maps. rewrite !Forall_app.
  split; [apply (init_maps_good _ _ _ _ (init_end L))|split; [apply (range_maps_good _ _ _ _ (text_end L))|apply (range_maps_good _ _ _ _ (round32 top))]];
    (done || lia || (apply pages_bounds; lia)).
Qed.

Lemma pages_small start stop : 0 <= start -> stop <= 2 ^ 32 ->
  turns (pages start stop) start stop /\ 4096 * Z.of_nat (pages start stop) <= 2 ^ 32 + 4096.
Proof. intros. destruct (pages_bounds start stop) as (Hn & _ & Hc); [lia..|]. split; [done|]. lia. Qed.

(** The three loops from an empty table. *)
Lemma loops_ok L m root offset top : good_layout L -> root <= 2 ^ 32 -> symbol_ktop L + 8 <= root ->
  pt_inv m root root (ktop L m) {[ [] := root ]} ∅ -> ktop L m = root + 4096 ->
  installs L root root (2 ^ 24) ∅ (kernel_maps L offset top) m
    (m ← map_init L (S (pages (init_start L) (init_end L))) m root (init_start L) (init_end L) offset RWX;
     m ← map_range L (S (pages (text_start L) (text_end L))) m root (text_start L) (text_end L) offset RX;
     map_range L (S (pages (text_end L) (round32 top))) m root (text_end L) (round32 top) offset RW).
Proof.
  intros HL Hroot Hsym H0 Hk. pose proof (gl_init _ HL) as Hl1. pose proof (gl_text _ HL) as Hl2. pose proof (gl_end _ HL) as Hl3.
  pose proof (round32_bounds top) as [Hr32 _]. destruct flags_good as (Hf1 & Hf2 & Hf3).
  destruct (pages_small (init_start L) (init_end L)) as (Hn1 & Hm1); [lia..|].
  destruct (pages_small (text_start L) (text_end L)) as (Hn2 & Hm2); [lia..|].
  destruct (pages_small (text_end L) (round32 top)) as (Hn3 & Hm3); [lia..|].
  destruct (map_init_ok L root root _ m _ _ (init_start L) (init_end L) offset RWX Hsym H0 Hf1 ltac:(lia) Hn1) as (m1 & -> & T1 & P1 & H1); [lia|lia|].
  pose proof T1 as (K1 & _). cbn [mbind option_bind].
  destruct (map_range_ok L root root _ m1 _ _ (text_start L) (text_end L) offset RX Hsym H1 Hf2 ltac:(lia) Hn2) as (m2 & -> & T2 & P2 & H2); [lia|lia|].
  pose proof T2 as (K2 & _). cbn [mbind option_bind].
  destruct (map_range_ok L root root _ m2 _ _ (text_end L) (round32 top) offset RW Hsym H2 Hf3 ltac:(lia) Hn3) as (m3 & -> & T3 & P3 & H3); [lia|lia|].
  exists m3. split; [done|]. split; [|exists P3; unfold kernel_maps; by rewrite !install_app].
  eapply tables_only_weaken; [exact (tables_only_trans _ _ _ _ _ _ _ (tables_only_trans _ _ _ _ _ _ _ T1 T2) T3)|]. pow2. lia.
Qed.

(** The variables of the boot code: words below the end of the kernel that do not
    overlap. *)
Record good_symbols (L : layout) : Prop := {
  gs_low : symbol_ktop L + 8 <= kernel_end L /\ symbol_kpgtable_root L + 8 <= kernel_end L
    /\ symbol_kaddr_offset L + 8 <= kernel_end L /\ symbol_copied_fdt L + 8 <= kernel_end L;
  gs_ktop : off_words (symbol_ktop L) (symbol_kpgtable_root L) /\ off_words (symbol_ktop L) (symbol_kaddr_offset L)
    /\ off_words (symbol_ktop L) (symbol_copied_fdt L);
  gs_rest : off_words (symbol_kpgtable_root L) (symbol_kaddr_offset L) /\ off_words (symbol_kpgtable_root L) (symbol_copied_fdt L)
    /\ off_words (symbol_kaddr_offset L) (symbol_copied_fdt L)
}.

(** The result of [__riscv_map_kaddr] with the root at [root]. *)
Record mapped (L : layout) (offset top root : Z) (m m' : memory) : Prop := {
  mp_root : kpgtable_root L m' = u64 (root + kaddr_offset L m);
  mp_ktop : root + 4096 <= ktop L m' <= 2 ^ 37;
  mp_frame : forall x, x < root \/ ktop L m' <= x -> off_word (symbol_ktop L) x -> off_word (symbol_kpgtable_root L) x -> m' x = m x;
  mp_table : forall va, 0 <= va -> translate m' root va = lookup_map (kernel_maps L offset top) va
}.

(** The start of the function, up to the loops. *)
Lemma map_kaddr_start L m root : good_symbols L -> kernel_end L <= root -> root <= 2 ^ 32 -> 0 <= root -> root mod 4096 = 0 ->
  let m1 := set_ktop L (u64 (root + 4096)) (set_ktop L root m) in
  let m0 := zero_page 512 (set_kpgtable_root L (u64 (root + kaddr_offset L m1)) m1) root in
  pt_inv m0 root root (ktop L m0) {[ [] := root ]} ∅ /\ ktop L m0 = root + 4096 /\ kpgtable_root L m0 = u64 (root + kaddr_offset L m)
  /\ forall x, x < root \/ root + 4096 <= x -> off_word (symbol_ktop L) x -> off_word (symbol_kpgtable_root L) x -> m0 x = m x.
Proof.
  intros [Hlow (K1 & K2 & K3) (R1 & R2 & _)] Hke Hr H0 Ha m1 m0. unfold off_words in *.
  assert (Ho : kaddr_offset L m1 = kaddr_offset L m) by (unfold kaddr_offset, m1, set_ktop; by rewrite !ld64_st64_other by lia).
  assert (Hz : forall y, y + 8 <= root -> ld64 m0 y = ld64 (set_kpgtable_root L (u64 (root + kaddr_offset L m1)) m1) y).
  { intros y Hy. apply ld64_ext. intros x Hx. apply zero_page_other. lia. }
  assert (Hk : ktop L m0 = root + 4096).
  { unfold ktop. rewrite Hz by lia. unfold set_kpgtable_root, m1, set_ktop. rewrite ld64_st64_other by lia.
    rewrite (uw_small 64 (root + 4096)) by (pow2; lia). apply ld64_st64_same. pow2. lia. }
  rewrite Hk. split; [apply new_root; [done|done|pow2; lia]|]. split; [done|]. split.
  - unfold kpgtable_root. rewrite Hz by lia. rewrite Ho. apply ld64_st64_same, uw_range. lia.
  - intros x Hx Hx1 Hx2. unfold m0. rewrite zero_page_other by lia. unfold set_kpgtable_root, m1, set_ktop. by rewrite !st64_other.
Qed.

Lemma map_kaddr_ok L m offset top : good_layout L -> good_symbols L ->
  kernel_end L <= ktop L m -> ktop L m + 4095 < 2 ^ 32 ->
  let root := (ktop L m + 4095) / 4096 * 4096 in
  exists m', __riscv_map_kaddr L m offset top = Some (m', 8 * 2 ^ 60 + root / 4096) /\ mapped L offset top root m m'.
Proof.
  intros HL HS Hk0 Hk root. pose proof (ld64_range m (symbol_ktop L)) as Hkr. change (ld64 m (symbol_ktop L)) with (ktop L m) in Hkr.
  assert (Hroot : u64 (ktop L m + PGSIZE - 1) .& PGMASK = root).
  { fold (round32 (ktop L m)). rewrite round32_eq. by rewrite Z.mod_small by lia. }
  assert (Hra : root mod 4096 = 0) by (apply Z.mod_mul; lia).
  assert (Hrb : ktop L m <= root <= ktop L m + 4095).
  { unfold root. pose proof (Z.div_mod (ktop L m + 4095) 4096 ltac:(lia)). pose proof (Z.mod_pos_bound (ktop L m + 4095) 4096 ltac:(lia)). lia. }
  assert (Hsatp : u64 (8 .<< 60) .| get_ppn root = 8 * 2 ^ 60 + root / 4096).
  { unfold get_ppn. rewrite shiftr_pow2 by lia. change (u64 (8 .<< 60)) with (8 * 2 ^ 60). apply lor_add_disjoint; [lia|].
    split; [apply Z.div_pos; lia|]. apply Z.div_lt_upper_bound; [lia|]. pow2. lia. }
  unfold __riscv_map_kaddr. rewrite Hroot. clearbody root. cbn [alloc_page]. cbv zeta. cbv beta iota delta [alloc_page].
  rewrite (ktop_set L m root) by (pow2; lia). rewrite Hsatp. change (Z.to_nat (PGSIZE / 8)) with 512%nat. fold (round32 top). unfold PGSIZE.
  destruct (map_kaddr_start L m root HS) as (H0 & Hk1 & Hr1 & Hf1); [lia|lia|lia|done|]. cbv zeta in *. set (m0 := zero_page 512 _ root) in *.
  pose proof (gs_low _ HS) as (S1 & S2 & _). pose proof (gs_ktop _ HS) as (K1 & _). unfold off_words in K1.
  destruct (loops_ok L m0 root offset top HL) as (m3 & Hrun & (Tk & Tm) & P & HP); [lia|lia|done|done|].
  exists m3. split.
  { destruct (map_init _ _ _ _ _ _ _ _) as [a|]; [|done]. cbn [mbind option_bind] in *. destruct (map_range _ _ _ _ _ _ _ _) as [b|]; [|done].
    cbn [mbind option_bind] in *. by rewrite Hrun. }
  split.
  - rewrite <- Hr1. unfold kpgtable_root. apply ld64_ext. intros x Hx. apply Tm; [lia|unfold off_word; lia].
  - pow2. lia.
  - intros x Hx Hx1 Hx2. rewrite Tm by (done || lia). apply Hf1; [lia|done|done].
  - intros va Hva. rewrite (translate_ok _ _ _ _ _ _ _ HP), entry_of_install by (done || by apply kernel_maps_good).
    destruct (lookup_map _ va); [done|]. unfold entry_of. by rewrite lookup_empty.
Qed.

(** ** What is mapped *)

Lemma lookup_map_app l l' va : lookup_map (l ++ l') va = match lookup_map l' va with Some r => Some r | None => lookup_map l va end.
Proof.
  induction l as [|[[k p] f] l IH]; cbn [app lookup_map]; [by destruct (lookup_map l' va)|].
  rewrite IH. by destruct (lookup_map l' va).
Qed.

(** An offset between physical and virtual addresses: whole pages, and no address
    below 4 GiB is the image of one below 8 GiB. *)
Definition good_offset (offset : Z) : Prop :=
  0 <= offset /\ offset mod 4096 = 0 /\ 2 ^ 33 <= offset mod 2 ^ 39 < 2 ^ 39 - 2 ^ 33.

Lemma u64_page x : 0 <= x -> (u64 x / 4096) mod 2 ^ 27 = x mod 2 ^ 39 / 4096 /\ u64 x mod 4096 = x mod 4096.
Proof.
  intros Hx. unfold uw. assert (Hm : forall y, y / 4096 mod 2 ^ 27 = y mod 2 ^ 39 / 4096).
  { intros y. pose proof (Z.div_mod y (2 ^ 39) ltac:(lia)) as E. set (q := y / 2 ^ 39) in *. set (r := y mod 2 ^ 39) in *.
    assert (0 <= r < 2 ^ 39) by (apply Z.mod_pos_bound; lia).
    replace y with (r + q * 2 ^ 27 * 4096) by (rewrite E; change (2 ^ 39) with (2 ^ 27 * 4096); lia).
    rewrite Z.div_add, Z_mod_plus_full, Z.mod_small; [done| |lia]. split; [apply Z.div_pos; lia|]. apply Z.div_lt_upper_bound; [lia|].
    change (4096 * 2 ^ 27) with (2 ^ 39). lia. }
  rewrite Hm. change (2 ^ 64) with (2 ^ 39 * 2 ^ 25). split.
  - f_equal. rewrite Z.rem_mul_r, Z.mul_comm, Z_mod_plus_full, Z.mod_mod by lia. done.
  - change (2 ^ 39 * 2 ^ 25) with (4096 * 2 ^ 52). rewrite Z.rem_mul_r, Z.mul_comm, Z_mod_plus_full, Z.mod_mod by lia. done.
Qed.

Section Lookup.
Context (offset : Z) (Hoff : good_offset offset).

(** The page of the image of [pa]. *)
Lemma image_page pa : 0 <= pa < 2 ^ 33 ->
  (u64 (pa + offset) / 4096) mod 2 ^ 27 = pa / 4096 + offset mod 2 ^ 39 / 4096 /\ u64 (pa + offset) mod 4096 = pa mod 4096.
Proof.
  intros Hpa. destruct Hoff as (Ho & Ha & Hr). destruct (u64_page (pa + offset)) as [-> ->]; [lia|]. split.
  - rewrite <- Zplus_mod_idemp_r, Z.mod_small by lia.
    assert (E : offset mod 2 ^ 39 = offset mod 2 ^ 39 / 4096 * 4096).
    { assert (offset mod 2 ^ 39 mod 4096 = 0).
      { change (2 ^ 39) with (4096 * 2 ^ 27). rewrite Z.rem_mul_r, Ha, Z.add_0_l, Z.mul_comm by lia. apply Z.mod_mul. lia. }
      pose proof (Z.div_mod (offset mod 2 ^ 39) 4096 ltac:(lia)). lia. }
    rewrite E at 1. apply Z.div_add. lia.
  - rewrite <- Zplus_mod_idemp_r, Ha, Z.add_0_r. done.
Qed.

Lemma image_same p pa : 0 <= p < 2 ^ 33 -> 0 <= pa < 2 ^ 33 ->
  same_page (u64 (p + offset)) (u64 (pa + offset)) = (p / 4096 =? pa / 4096).
Proof.
  intros Hp Hpa. unfold same_page. destruct (image_page p Hp) as [-> _]. destruct (image_page pa Hpa) as [-> _].
  apply eq_true_iff_eq. rewrite !Z.eqb_eq. lia.
Qed.

Lemma plain_page p : 0 <= p < 2 ^ 33 -> (p / 4096) mod 2 ^ 27 = p / 4096.
Proof. intros. apply Z.mod_small. split; [apply Z.div_pos; lia|]. apply Z.div_lt_upper_bound; [lia|]. pow2. lia. Qed.

Lemma plain_image p pa : 0 <= p < 2 ^ 33 -> 0 <= pa < 2 ^ 33 ->
  same_page p (u64 (pa + offset)) = false /\ same_page (u64 (pa + offset)) p = false.
Proof.
  intros Hp Hpa. unfold same_page. destruct (image_page pa Hpa) as [-> _]. rewrite plain_page by done.
  destruct Hoff as (_ & _ & Hr). pose proof (Z.div_pos pa 4096 ltac:(lia) ltac:(lia)).
  assert (2 ^ 21 <= offset mod 2 ^ 39 / 4096) by (apply Z.div_le_lower_bound; [lia|]; change (4096 * 2 ^ 21) with (2 ^ 33); lia).
  assert (p / 4096 < 2 ^ 21) by (apply Z.div_lt_upper_bound; [lia|]; change (4096 * 2 ^ 21) with (2 ^ 33); lia).
  split; apply Z.eqb_neq; lia.
Qed.

(** A range of pages, from the page of [start] on. *)
Lemma range_lookup n start flags pa : 0 <= start -> start + 4096 * Z.of_nat n < 2 ^ 33 -> 0 <= pa < 2 ^ 33 ->
  lookup_map (range_maps n start offset flags) (u64 (pa + offset)) =
    if (start / 4096 <=? pa / 4096) && (pa / 4096 <? start / 4096 + Z.of_nat n) then Some (pa, flags) else None.
Proof.
  intros H0 Hn Hpa. revert start H0 Hn. induction n as [|n IH]; intros start H0 Hn; cbn [range_maps lookup_map].
  { destruct (_ <=? _) eqn:E, (_ <? _) eqn:E'; zb; try done. lia. }
  rewrite IH, image_same by lia. assert ((start + 4096) / 4096 = start / 4096 + 1) as -> by (rewrite <- (Z.div_add start 1 4096); [f_equal; lia|lia]).
  destruct (image_page pa Hpa) as [_ ->]. pose proof (Z.div_mod pa 4096 ltac:(lia)) as Hd.
  destruct (start / 4096 =? pa / 4096) eqn:E; zb.
  - rewrite (proj2 (Z.leb_gt _ (pa / 4096))) by lia. cbn [andb]. rewrite E, (proj2 (Z.leb_le _ _)), (proj2 (Z.ltb_lt _ _)) by lia.
    cbn [andb]. do 2 f_equal. lia.
  - repeat match goal with |- context [?a <=? ?b] => destruct (a <=? b) eqn:?; zb
      | |- context [?a <? ?b] => destruct (a <? b) eqn:?; zb end; cbn [andb]; try done; lia.
Qed.

Lemma init_lookup n start flags pa : 0 <= start -> start + 4096 * Z.of_nat n < 2 ^ 33 -> 0 <= pa < 2 ^ 33 ->
  lookup_map (init_maps n start offset flags) (u64 (pa + offset)) = lookup_map (range_maps n start offset flags) (u64 (pa + offset))
  /\ lookup_map (init_maps n start offset flags) pa =
    if (start / 4096 <=? pa / 4096) && (pa / 4096 <? start / 4096 + Z.of_nat n) then Some (pa, flags) else None.
Proof.
  intros H0 Hn Hpa. revert start H0 Hn. induction n as [|n IH]; intros start H0 Hn; cbn [range_maps init_maps lookup_map].
  { split; [done|]. destruct (_ <=? _) eqn:E, (_ <? _) eqn:E'; zb; try done. lia. }
  destruct (IH (start + 4096)) as [-> ->]; [lia..|]. destruct (plain_image start pa) as [-> _]; [lia..|].
  destruct (plain_image pa start) as [_ ->]; [lia..|]. split.
  { destruct (lookup_map _ _); [done|]. by destruct (same_page _ _). }
  assert ((start + 4096) / 4096 = start / 4096 + 1) as -> by (rewrite <- (Z.div_add start 1 4096); [f_equal; lia|lia]).
  pose proof (Z.div_mod pa 4096 ltac:(lia)) as Hd. unfold same_page. rewrite !plain_page by lia.
  destruct (start / 4096 =? pa / 4096) eqn:E; zb.
  - rewrite (proj2 (Z.leb_gt _ (pa / 4096))) by lia. cbn [andb]. rewrite E, (proj2 (Z.leb_le _ _)), (proj2 (Z.ltb_lt _ _)) by lia.
    cbn [andb]. do 2 f_equal. lia.
  - repeat match goal with |- context [?a <=? ?b] => destruct (a <=? b) eqn:?; zb
      | |- context [?a <? ?b] => destruct (a <? b) eqn:?; zb end; cbn [andb]; try done; lia.
Qed.

Lemma range_plain n start flags pa : 0 <= start -> start + 4096 * Z.of_nat n < 2 ^ 33 -> 0 <= pa < 2 ^ 33 ->
  lookup_map (range_maps n start offset flags) pa = None.
Proof.
  intros H0 Hn Hpa. revert start H0 Hn. induction n as [|n IH]; intros start H0 Hn; cbn [range_maps lookup_map]; [done|].
  rewrite IH by lia. by destruct (plain_image pa start) as [_ ->]; [lia..|].
Qed.
End Lookup.

(** The pages of a loop over [start, stop), by number. *)
Lemma pages_cover start stop : 0 <= start -> stop <= 2 ^ 32 -> start <= 2 ^ 32 ->
  let n := Z.of_nat (pages start stop) in
  start + 4096 * n < 2 ^ 33 /\ stop <= start + 4096 * n /\ (n = 0 \/ start + 4096 * (n - 1) < stop).
Proof.
  intros H0 Hs Hst n. destruct (pages_bounds start stop) as (Hn & _ & Hc); [lia..|]. unfold n.
  split; [destruct Hn as [-> |]; lia|]. split; [done|]. destruct Hn as [-> |]; [by left|by right].
Qed.

Lemma kernel_lookup L offset top pa : good_layout L -> good_offset offset -> 0 <= pa < 2 ^ 33 ->
  let va := u64 (pa + offset) in
  lookup_map (kernel_maps L offset top) va =
    if (text_end L / 4096 <=? pa / 4096) && (pa / 4096 <? text_end L / 4096 + Z.of_nat (pages (text_end L) (round32 top))) then Some (pa, RW)
    else if (text_start L / 4096 <=? pa / 4096) && (pa / 4096 <? text_start L / 4096 + Z.of_nat (pages (text_start L) (text_end L))) then Some (pa, RX)
    else if (init_start L / 4096 <=? pa / 4096) && (pa / 4096 <? init_start L / 4096 + Z.of_nat (pages (init_start L) (init_end L))) then Some (pa, RWX)
    else None.
Proof.
  intros HL Ho Hpa va. pose proof (gl_init _ HL). pose proof (gl_text _ HL). pose proof (gl_end _ HL).
  pose proof (round32_bounds top) as [? _]. unfold kernel_maps, va. rewrite !lookup_map_app.
  destruct (pages_cover (init_start L) (init_end L)) as (? & _); [lia..|].
  destruct (pages_cover (text_start L) (text_end L)) as (? & _); [lia..|].
  destruct (pages_cover (text_end L) (round32 top)) as (? & _); [lia..|].
  destruct (init_lookup offset Ho (pages (init_start L) (init_end L)) (init_start L) RWX pa) as [-> _]; [lia..|].
  rewrite !range_lookup by (done || lia). repeat (destruct (_ && _); [done|]). done.
Qed.

Lemma kernel_lookup_plain L offset top pa : good_layout L -> good_offset offset -> 0 <= pa < 2 ^ 33 ->
  lookup_map (kernel_maps L offset top) pa =
    if (init_start L / 4096 <=? pa / 4096) && (pa / 4096 <? init_start L / 4096 + Z.of_nat (pages (init_start L) (init_end L))) then Some (pa, RWX)
    else None.
Proof.
  intros HL Ho Hpa. pose proof (gl_init _ HL). pose proof (gl_text _ HL). pose proof (gl_end _ HL).
  pose proof (round32_bounds top) as [? _]. unfold kernel_maps. rewrite !lookup_map_app.
  destruct (pages_cover (init_start L) (init_end L)) as (? & _); [lia..|].
  destruct (pages_cover (text_start L) (text_end L)) as (? & _); [lia..|].
  destruct (pages_cover (text_end L) (round32 top)) as (? & _); [lia..|].
  rewrite !range_plain by (done || lia). by destruct (init_lookup offset Ho (pages (init_start L) (init_end L)) (init_start L) RWX pa) as [_ ->]; [lia..|].
Qed.

(** Page numbers: [a / 4096] between its bounds. *)
Lemma page_number a : 4096 * (a / 4096) <= a < 4096 * (a / 4096) + 4096.
Proof. pose proof (Z.div_mod a 4096 ltac:(lia)). pose proof (Z.mod_pos_bound a 4096 ltac:(lia)). lia. Qed.

(** Everything from the end of the text to the end of memory is mapped readable and
    writable, the whole pages of the text before it readable and executable, the boot
    code with all rights and at its own address too. *)
Definition kernel_view (L : layout) (offset top : Z) (m : memory) (root : Z) : Prop :=
  (forall pa, text_end L / 4096 * 4096 <= pa < top -> translate m root (u64 (pa + offset)) = Some (pa, RW))
  /\ (forall pa, text_start L <= pa < text_end L / 4096 * 4096 -> translate m root (u64 (pa + offset)) = Some (pa, RX))
  /\ (forall pa, init_start L <= pa < init_end L ->
        translate m root (u64 (pa + offset)) = Some (pa, RWX) /\ translate m root pa = Some (pa, RWX)).

Lemma kernel_view_ok L offset top m root : good_layout L -> good_offset offset -> 0 <= top <= 2 ^ 32 - 4096 ->
  (forall va, 0 <= va -> translate m root va = lookup_map (kernel_maps L offset top) va) -> kernel_view L offset top m root.
Proof.
  intros HL Ho Ht Htr. pose proof (gl_init _ HL). pose proof (gl_text _ HL). pose proof (gl_end _ HL). pose proof (gl_align _ HL) as [Hia Hta].
  pose proof (round32_bounds top) as [? Hr0]. pose proof (Z.div_mod (round32 top) 4096 ltac:(lia)) as Hr1.
  rewrite Hr0, Z.add_0_r in Hr1. assert (Hr : top <= round32 top).
  { rewrite round32_eq, Z.mod_small by lia. pose proof (page_number (top + 4095)). lia. }
  pose proof (pages_cover (init_start L) (init_end L) ltac:(lia) ltac:(lia) ltac:(lia)) as (_ & Hc1 & _).
  pose proof (pages_cover (text_start L) (text_end L) ltac:(lia) ltac:(lia) ltac:(lia)) as (_ & Hc2 & _).
  pose proof (pages_cover (text_end L) (round32 top) ltac:(lia) ltac:(lia) ltac:(lia)) as (_ & Hc3 & _).
  pose proof (page_number (text_end L)) as Hte. pose proof (page_number (text_start L)). pose proof (page_number (init_start L)).
  pose proof (Z.div_mod (text_start L) 4096 ltac:(lia)) as Hts. rewrite Hta, Z.add_0_r in Hts.
  pose proof (Z.div_mod (init_start L) 4096 ltac:(lia)) as His. rewrite Hia, Z.add_0_r in His.
  split; [|split]; intros pa Hpa; pose proof (page_number pa).
  - rewrite Htr, kernel_lookup by (done || lia || by apply uw_nonneg).
    rewrite (proj2 (Z.leb_le (text_end L / 4096) _)), (proj2 (Z.ltb_lt _ _)) by lia. done.
  - rewrite Htr, kernel_lookup by (done || lia || by apply uw_nonneg).
    rewrite (proj2 (Z.leb_gt (text_end L / 4096) _)) by lia. cbn [andb].
    rewrite (proj2 (Z.leb_le (text_start L / 4096) _)), (proj2 (Z.ltb_lt _ _)) by lia. done.
  - split.
    + rewrite Htr, kernel_lookup by (done || lia || by apply uw_nonneg).
      rewrite (proj2 (Z.leb_gt (text_end L / 4096) _)), (proj2 (Z.leb_gt (text_start L / 4096) _)) by lia. cbn [andb].
      rewrite (proj2 (Z.leb_le (init_start L / 4096) _)), (proj2 (Z.ltb_lt _ _)) by lia. done.
    + rewrite Htr, (kernel_lookup_plain _ offset) by (done || lia).
      rewrite (proj2 (Z.leb_le (init_start L / 4096) _)), (proj2 (Z.ltb_lt _ _)) by lia. done.
Qed.

Section kaddr.
Context (L : layout) (m : memory) (offset top : Z).
Hypothesis (HL : good_layout L) (HS : good_symbols L) (Hlow : kernel_end L <= ktop L m) (Hroom : ktop L m + 4095 < 2 ^ 32).
#[local] Notation root := ((ktop L m + 4095) / 4096 * 4096).

(** C7. [__riscv_map_kaddr] ends and builds, in pages it takes from [ktop], a page table
    whose Sv39 translation is the list of mappings of its loops, the last one of a page
    winning; beside these pages it changes only the variables [__riscv_ktop] and
    [__riscv_kpgtable_root]. *)
Theorem map_kaddr_refines :
  exists m', __riscv_map_kaddr L m offset top = Some (m', 8 * 2 ^ 60 + root / 4096)
  /\ kpgtable_root L m' = u64 (root + kaddr_offset L m) /\ root + 4096 <= ktop L m' <= 2 ^ 37
  /\ (forall x, x < root \/ ktop L m' <= x -> off_word (symbol_ktop L) x -> off_word (symbol_kpgtable_root L) x -> m' x = m x)
  /\ forall va, 0 <= va -> translate m' root va = lookup_map (kernel_maps L offset top) va.
Proof. destruct (map_kaddr_ok L m offset top HL HS Hlow Hroom) as (m' & Hrun & []). exists m'. tauto.
Qed.

(** C30. With memory below 4 GiB, the page table maps the pages from the end of the text
    to the end of memory to themselves plus the offset, readable and writable; the
    pages of the text before that readable and executable; the pages of the boot
    code with all rights, at their own addresses too. *)
Theorem kernel_mapped : good_offset offset -> 0 <= top <= 2 ^ 32 - 4096 ->
  exists m' satp, __riscv_map_kaddr L m offset top = Some (m', satp) /\ kernel_view L offset top m' root.
Proof.
  intros Ho Ht. destruct (map_kaddr_ok L m offset top HL HS Hlow Hroom) as (m' & Hrun & []).
  exists m', (8 * 2 ^ 60 + root / 4096). split; [done|]. by apply kernel_view_ok.
Qed.

(** The last page of the text is not executable unless the text ends at a page
    boundary: the third loop starts in the middle of it. *)
Theorem text_tail_not_executable : good_offset offset -> text_end L <= top <= 2 ^ 32 - 4096 ->
  text_start L < text_end L -> text_end L mod 4096 <> 0 ->
  exists m' satp, __riscv_map_kaddr L m offset top = Some (m', satp)
  /\ translate m' root (u64 (text_end L - 1 + offset)) = Some (text_end L - 1, RW) /\ RW .& PTE_X = 0.
Proof.
  intros Ho Ht Hne Hmid. pose proof (gl_init _ HL). pose proof (gl_text _ HL). pose proof (gl_end _ HL).
  destruct (map_kaddr_ok L m offset top HL HS Hlow Hroom) as (m' & Hrun & [_ _ _ Htr]).
  exists m', (8 * 2 ^ 60 + root / 4096). split; [done|].
  split; [|done]. rewrite Htr, kernel_lookup by (done || lia || by apply uw_nonneg).
  pose proof (page_number (text_end L)). pose proof (page_number (text_end L - 1)). pose proof (Z.div_mod (text_end L) 4096 ltac:(lia)).
  pose proof (Z.mod_pos_bound (text_end L) 4096 ltac:(lia)).
  assert (Hr : top <= round32 top) by (rewrite round32_eq, Z.mod_small by lia; pose proof (page_number (top + 4095)); lia).
  pose proof (round32_bounds top) as [? Hr0].
  pose proof (pages_cover (text_end L) (round32 top) ltac:(lia) ltac:(lia) ltac:(lia)) as (_ & Hc3 & _).
  assert (text_end L <> round32 top) by congruence.
  rewrite (proj2 (Z.leb_le (text_end L / 4096) _)), (proj2 (Z.ltb_lt _ _)) by lia. done.
Qed.

(** [~(PGSIZE - 1)] is a 32-bit mask: the end of memory is taken modulo 4 GiB, and
    memory above that is not mapped. *)
Theorem top_truncated : good_offset offset ->
  exists m' satp, __riscv_map_kaddr L m offset top = Some (m', satp)
  /\ forall pa, text_end L + 4096 <= pa < 2 ^ 33 -> (top + 4095) mod 2 ^ 32 <= pa -> translate m' root (u64 (pa + offset)) = None.
Proof.
  intros Ho. destruct (map_kaddr_ok L m offset top HL HS Hlow Hroom) as (m' & Hrun & [_ _ _ Htr]).
  exists m', (8 * 2 ^ 60 + root / 4096). split; [done|]. intros pa Hpa Htop. pose proof (gl_init _ HL). pose proof (gl_text _ HL). pose proof (gl_end _ HL).
  rewrite Htr, kernel_lookup by (done || lia || by apply uw_nonneg).
  pose proof (page_number pa). pose proof (page_number (text_end L)). pose proof (page_number (text_start L)). pose proof (page_number (init_start L)).
  assert (Hr : round32 top <= pa) by (rewrite round32_eq; pose proof (page_number ((top + 4095) mod 2 ^ 32)); lia).
  pose proof (round32_bounds top) as [? Hr0]. pose proof (Z.div_mod (round32 top) 4096 ltac:(lia)) as Hr1.
  rewrite Hr0, Z.add_0_r in Hr1.
  pose proof (pages_cover (init_start L) (init_end L) ltac:(lia) ltac:(lia) ltac:(lia)) as (_ & _ & Hc1).
  pose proof (pages_cover (text_start L) (text_end L) ltac:(lia) ltac:(lia) ltac:(lia)) as (_ & _ & Hc2).
  pose proof (pages_cover (text_end L) (round32 top) ltac:(lia) ltac:(lia) ltac:(lia)) as (_ & _ & Hc3).
  rewrite !(proj2 (Z.ltb_ge (pa / 4096) _)) by lia. by rewrite !andb_false_r.
Qed.
End kaddr.

(** ** An example: QEMU's virt machine with 128 MiB *)

Definition example_layout : layout :=
  Layout 0x80210000 0x80200000 0x80201000 0x80201000 0x80203800 0x80206000 0x80207000 0x80200ff8 0x80206008 0x80206010 0x80206018.
Definition example_offset : Z := 0xffffffc000000000 - 0x80200000.
Definition example_boot : memory :=
  set_kaddr_offset example_layout example_offset (set_ktop example_layout 0x80210010 (fun _ => 0)).

Lemma example_layout_good : good_layout example_layout.
Proof. split; vm_compute; intuition congruence. Qed.

Lemma example_symbols_good : good_symbols example_layout.
Proof. split; unfold off_words; vm_compute; intuition congruence. Qed.

Lemma example_offset_good : good_offset example_offset.
Proof. vm_compute. intuition congruence. Qed.

Lemma example_ktop : kernel_end example_layout <= ktop example_layout example_boot /\ ktop example_layout example_boot + 4095 < 2 ^ 32.
Proof. vm_compute. intuition congruence. Qed.

Lemma map_kaddr_refines_witness : exists m',
  __riscv_map_kaddr example_layout example_boot example_offset 0x88000000 = Some (m', 8 * 2 ^ 60 + 0x80211)
  /\ translate m' 0x80211000 0x80200010 = lookup_map (kernel_maps example_layout example_offset 0x88000000) 0x80200010.
Proof.
  destruct (map_kaddr_refines example_layout example_boot example_offset 0x88000000 example_layout_good example_symbols_good
    (proj1 example_ktop) (proj2 example_ktop)) as (m' & H1 & _ & _ & _ & H2).
  exists m'. split; [exact H1|exact (H2 0x80200010 ltac:(vm_compute; congruence))].
Defined.

Lemma kernel_mapped_witness : exists m' satp,
  __riscv_map_kaddr example_layout example_boot example_offset 0x88000000 = Some (m', satp)
  /\ translate m' 0x80211000 (u64 (0x87ffffff + example_offset)) = Some (0x87ffffff, RW).
Proof.
  destruct (kernel_mapped example_layout example_boot example_offset 0x88000000 example_layout_good example_symbols_good
    (proj1 example_ktop) (proj2 example_ktop) example_offset_good ltac:(vm_compute; intuition congruence)) as (m' & satp & H1 & H2 & _).
  exists m', satp. split; [exact H1|]. apply (H2 0x87ffffff). vm_compute. intuition congruence.
Defined.

Lemma text_tail_not_executable_witness : exists m' satp,
  __riscv_map_kaddr example_layout example_boot example_offset 0x88000000 = Some (m', satp)
  /\ translate m' 0x80211000 (u64 (0x802037ff + example_offset)) = Some (0x802037ff, RW).
Proof.
  destruct (text_tail_not_executable example_layout example_boot example_offset 0x88000000 example_layout_good example_symbols_good
    (proj1 example_ktop) (proj2 example_ktop) example_offset_good) as (m' & satp & H1 & H2 & _); [vm_compute; intuition congruence..|].
  exists m', satp. split; [exact H1|exact H2].
Defined.

(** With 2 GiB the end of memory is 4 GiB, and nothing after the text is mapped. *)
Lemma top_truncated_witness : exists m' satp,
  __riscv_map_kaddr example_layout example_boot example_offset 0x100000000 = Some (m', satp)
  /\ translate m' 0x80211000 (u64 (0x80210000 + example_offset)) = None.
Proof.
  destruct (top_truncated example_layout example_boot example_offset 0x100000000 example_layout_good example_symbols_good
    (proj1 example_ktop) (proj2 example_ktop) example_offset_good) as (m' & satp & H1 & H2).
  exists m', satp. split; [exact H1|]. apply (H2 0x80210000); vm_compute; intuition congruence.
Defined.
