(* ===== verification/EntryBoot.v ===== *)
(** The boot of the kernel: [__riscv_load_fdt] of [fdt.c] and [__riscv_init] of
    [init.c], with the device tree reader and the page table together. *)
From S2P Require Import Prelude Memory KlibString Fdt FdtRo FdtSafe FdtTree Entry EntryMap EntryKaddr.
From Stdlib Require Import String.
#[local] Open Scope Z_scope.
#[local] Open Scope cint_scope.

(** ** The end of memory *)

Section MemoryTop.
Context (m m' : memory) (fdt lit : Z).
Context (Hg : good_header m fdt) (Hs : same_on fdt (fdt + Z.max 36 (fdt_totalsize m fdt)) m m').
Context (Hlit : same_on lit (lit + 6) m m').

Lemma run_strncmp p l n k : str_at m fdt p l -> 0 <= k <= l -> 0 <= n -> k + n <= 6 ->
  ret (strncmp_loop (S (Z.to_nat n)) m (p + k) (lit + k) n) (strncmp_loop (S (Z.to_nat n)) m' (p + k) (lit + k) n) (fun _ => True).
Proof.
  intros (_ & Hp & He & Hz & Hnz) Hk Hn. revert k Hk.
  pattern n. apply natlike_ind; [|clear n Hn; intros n Hn IH|done]; intros k Hk H6.
  { cbn. by apply ret_some. }
  rewrite Z2Nat.inj_succ by done. remember (S (Z.to_nat n)) as f eqn:Ef. cbn [strncmp_loop].
  assert (ld8 m' (p + k) = ld8 m (p + k)) as -> by (unfold ld8; rewrite Hs by lia; done).
  assert (ld8 m' (lit + k) = ld8 m (lit + k)) as -> by (unfold ld8; rewrite Hlit by lia; done).
  assert (c_true (Z.succ n) = true) as -> by (unfold c_true; apply negb_true_iff, Z.eqb_neq; lia). cbn [andb].
  apply ret_if; intros E; [|by apply ret_some]. apply andb_true_iff in E as [E _]. unfold c_true in E. zb.
  replace (Z.succ n - 1) with n by lia. rewrite (uw_small 64 n) by lia. rewrite <- !Z.add_assoc.
  apply IH; [|lia]. destruct (decide (k = l)) as [->|]; [by rewrite Hz in E|lia].
Qed.

Lemma run_reg_top p l : value_result m fdt (Some p, l) -> reg_top m' p l = reg_top m p l.
Proof.
  intros (Hl & Hp & He). cbn in Hl, Hp, He. assert (Hw : forall k, 0 <= k -> k + 4 <= l -> ld32 m' (p + k) = ld32 m (p + k)).
  { intros. unfold ld32. apply (ldn_ext 4). eapply same_on_weaken; [exact Hs|lia..]. }
  unfold reg_top. pose proof (Hw 0) as Hw0. rewrite Z.add_0_r in Hw0.
  destruct (16 <=? l) eqn:E1; zb; [by rewrite Hw0, !Hw by lia|]. destruct (8 <=? l) eqn:E2; zb; [by rewrite Hw0, Hw by lia|done].
Qed.

Lemma run_memory_top_loop fuel node : int node -> (0 <= node -> fuelled m fdt fuel node /\ exists n, token m fdt node FDT_BEGIN_NODE n) ->
  ret (memory_top_loop (S fuel) m lit fdt node) (memory_top_loop (S fuel) m' lit fdt node) (fun _ => True).
Proof.
  revert node. induction fuel as [|fuel IH]; intros node Hint Hf; remember (S _) as f1 eqn:Ef1;
    (destruct (decide (0 <= node)) as [H0|]; [|subst f1; cbn [memory_top_loop]; rewrite (proj2 (Z.leb_gt 0 node)) by lia; by apply ret_some]);
    destruct (Hf H0) as [Hfu [n Ht]]; [destruct Hfu; lia|]. subst f1.
  assert (Hnext : ret (node ← fdt_next_subnode m fdt node; memory_top_loop (S fuel) m lit fdt node)
                      (node ← fdt_next_subnode m' fdt node; memory_top_loop (S fuel) m' lit fdt node) (fun _ => True)).
  { eapply ret_bind; [by apply run_next_subnode|]. intros r Hr. cbv beta in *. apply IH.
    - destruct Hr as [?|[_ [n' Ht']]]; [unfold err_code, int in *; lia|by apply (token_int m fdt Hg) in Ht' as []].
    - intros Hr0. destruct Hr as [?|[Hlt [n' Ht']]]; [unfold err_code in *; lia|]. split; [|eauto].
      apply token_next in Ht. eapply fuelled_step; eauto; lia. }
  remember (S fuel) as f2 eqn:Ef2. cbn [memory_top_loop]. rewrite (proj2 (Z.leb_le 0 node)) by done. cbv zeta.
  eapply ret_bind; [by apply run_get_name|]. intros [[name|] l] Hname; cbv beta iota; [|done].
  eapply ret_bind.
  { unfold strncmp. change (Z.to_nat 6) with 6%nat. rewrite <- (Z.add_0_r name), <- (Z.add_0_r lit).
    apply (run_strncmp name l 6 0); [exact Hname|destruct Hname; cbn in *; lia|lia|lia]. }
  intros c _. cbv beta. apply ret_if; intros _; [|done].
  eapply ret_bind; [by apply run_getprop|]. intros [[v|] vl] Hv; cbv beta iota; [|done].
  rewrite run_reg_top by done. by apply ret_some.
Qed.

Lemma run_memory_top : ret (get_memory_top_from_fdt m lit fdt) (get_memory_top_from_fdt m' lit fdt) (fun _ => True).
Proof.
  unfold get_memory_top_from_fdt. rewrite (run_fuel m m' fdt Hs). eapply ret_bind; [apply run_first_subnode; (done || unfold int; lia)|].
  intros r Hr. cbv beta in *. apply run_memory_top_loop.
  - destruct Hr as [?|[_ [n' Ht']]]; [unfold err_code, int in *; lia|by apply (token_int m fdt Hg) in Ht' as []].
  - intros Hr0. destruct Hr as [?|[Hlt [n' Ht']]]; [unfold err_code in *; lia|]. split; [by apply fuelled_start|eauto].
Qed.
End MemoryTop.

#[local] Arguments fdt_next_subnode : simpl never.
#[local] Arguments fdt_get_name : simpl never.
#[local] Arguments fdt_getprop : simpl never.
#[local] Arguments strncmp : simpl never.

Lemma memory_top_loop_mono f f' m lit fdt node r : (f <= f')%nat ->
  memory_top_loop f m lit fdt node = Some r -> memory_top_loop f' m lit fdt node = Some r.
Proof.
  revert f' node. induction f as [|f IH]; intros f' node Hf H; [done|]. destruct f' as [|f']; [lia|].
  cbn [memory_top_loop] in *. case_if_in H; [|done]. cbv zeta in *.
  assert (Hnext : (node ← fdt_next_subnode m fdt node; memory_top_loop f m lit fdt node) = Some r ->
                  (node ← fdt_next_subnode m fdt node; memory_top_loop f' m lit fdt node) = Some r).
  { destruct (fdt_next_subnode m fdt node); cbn; [|done]. apply IH. lia. }
  destruct (fdt_get_name m fdt node) as [[[name|] l]|]; [|by apply Hnext|done]. cbn in *.
  destruct (strncmp m name lit 6) as [c|]; [|done]. cbn in *. case_if_in H; [|by apply Hnext].
  destruct (fdt_getprop m fdt node lit_reg) as [[[v|] vl]|]; [done|by apply Hnext|done].
Qed.

(** The answer from the names of the children of the root, in order. *)
Fixpoint pick_memory (m : memory) (fdt : Z) (names : list (Z * list Z)) : outcome Z :=
  match names with
  | [] => __riscv_init_die ("Kernel panic: no memory node found in FDT" ++ newline)%string
  | (o, s) :: names =>
    if bool_decide (take 6 s = str_memory) then
      match fdt_getprop m fdt o lit_reg with
      | Some (Some v, l) => reg_top m v l
      | _ => pick_memory m fdt names
      end
    else pick_memory m fdt names
  end.

Section Children.
Context (m : memory) (fdt lit : Z) (Hg : good_header m fdt) (Hv : 16 <= fdt_version m fdt) (HT : fdt_totalsize m fdt < INT_MAX).
Context (Hlit : cstr m lit str_memory).

Lemma memory_name p s : cstr m p s -> exists c, strncmp m p lit 6 = Some c /\ (c =? 0) = bool_decide (take 6 s = str_memory).
Proof.
  intros Hp. destruct (strncmp_loop_ok 6 m p lit s str_memory 7 Hp Hlit) as (r & Hr & Hc); [lia|lia|]. exists r.
  split; [exact Hr|]. change (take 6 str_memory) with str_memory in Hc.
  apply eq_true_iff_eq. rewrite Z.eqb_eq, bool_decide_eq_true, <- lex_eq, <- Hc, Z.compare_eq_iff. done.
Qed.

Lemma children_loop n l e e2 names : items m fdt n l e -> token m fdt e FDT_END_NODE e2 -> n mod 4 = 0 ->
  nodes_of l = names.*1 -> Forall (fun '(o, s) => cstr m (fdt_offset_ptr_ m fdt o + 4) s) names ->
  memory_top_loop (S (fuel_of m fdt)) m lit fdt (head_or_notfound (names.*1)) = Some (pick_memory m fdt names).
Proof.
  revert n l. induction names as [|[o s] names IH]; intros n l Hi He Hn Hno Hnames; [done|].
  apply Forall_cons in Hnames as [Hs Hnames]. change (head_or_notfound ((o, s) :: names).*1) with o.
  destruct (child_split m fdt n l e 0 o Hi Hn) as (sub & e1 & e3 & l' & Hc & Hoa & He1 & Hi' & Hl'); [by rewrite Hno|].
  assert (Hno' : nodes_of l' = names.*1) by (rewrite Hl', Hno; done).
  pose proof (IH e3 l' Hi' He (token_aligned _ _ _ _ _ He1) Hno' Hnames) as Hrest.
  pose proof (next_subnode_ok m fdt Hg _ _ _ _ _ _ _ Hc Hoa He1 Hi' He) as Hnext. rewrite Hno' in Hnext.
  destruct (Hc) as (no & Hto & _). pose proof (token_next _ _ _ _ _ Hto) as Hb.
  destruct (run_memory_top_loop m m fdt lit Hg (same_on_refl _ _ m) (same_on_refl _ _ m) (fuel_of m fdt) o) as (r & Hr & _);
    [by apply (token_int m fdt Hg) in Hto as []|intros _; split; [by apply fuelled_start|eauto]|].
  rewrite Hr. remember (fuel_of m fdt) as f eqn:Ef. cbn [memory_top_loop] in Hr. rewrite (proj2 (Z.leb_le 0 o)) in Hr by lia. cbv zeta in Hr.
  assert (Hgo : (node ← fdt_next_subnode m fdt o; memory_top_loop f m lit fdt node) = Some r -> r = pick_memory m fdt names).
  { rewrite Hnext. cbn. intros Hx. apply (memory_top_loop_mono _ (S f)) in Hx; [|lia]. rewrite Hrest in Hx. congruence. }
  rewrite (get_name_ok m fdt Hg _ _ s Hto Hoa Hv HT Hs) in Hr. cbn in Hr.
  destruct (memory_name _ _ Hs) as (c & Hcmp & Hc0). rewrite Hcmp in Hr. cbn in Hr. rewrite Hc0 in Hr.
  cbn [pick_memory]. f_equal. destruct (bool_decide _); [|by apply Hgo].
  destruct (fdt_getprop m fdt o lit_reg) as [[[v|] vl]|]; cbn in Hr; [congruence|by apply Hgo|done].
Qed.
End Children.

(** C31. [get_memory_top_from_fdt]: the first child of the root whose name starts with
    ["memory"] and which has a [reg] gives the end of memory. *)
Theorem memory_top_found m fdt lit sub e names :
  fdt_check_header m fdt = 0 -> 16 <= fdt_version m fdt -> fdt_totalsize m fdt < INT_MAX -> cstr m lit str_memory ->
  node_at m fdt 0 sub e -> nodes_of sub = names.*1 ->
  Forall (fun '(o, s) => cstr m (fdt_offset_ptr_ m fdt o + 4) s) names ->
  get_memory_top_from_fdt m lit fdt = Some (pick_memory m fdt names).
Proof.
  intros Hg%check_header_good Hv HT Hlit Hroot Hno Hnames. unfold get_memory_top_from_fdt.
  rewrite (first_subnode_ok m fdt Hg _ _ _ Hroot eq_refl), Hno. destruct Hroot as (n & Ht & Hi & e2 & He).
  apply (children_loop m fdt lit Hg Hv HT Hlit n sub e e2); try done. by eapply token_aligned.
Qed.

(** ** Copy of the blob and the BSS *)

Definition apart (a n b k : Z) : Prop := a + n <= b \/ b + k <= a.

Lemma copy_bytes_other n m dst src x : x < dst \/ dst + Z.of_nat n <= x -> copy_bytes n m dst src x = m x.
Proof.
  revert m dst src. induction n as [|n IH]; intros m dst src Hx; cbn [copy_bytes]; [done|].
  rewrite IH by lia. unfold st8. case_if; [lia|done].
Qed.

Lemma copy_bytes_ok n m dst src : apart dst (Z.of_nat n) src (Z.of_nat n) ->
  bytes_of (copy_bytes n m dst src) dst n = bytes_of m src n.
Proof.
  unfold apart. revert m dst src. induction n as [|n IH]; intros m dst src Hd; [done|]. cbn [copy_bytes]. rewrite !bytes_of_S. f_equal.
  - unfold ld8 at 1. rewrite copy_bytes_other by lia. unfold st8. rewrite Z.eqb_refl, uw_uw by lia. apply uw_small, ld8_range.
  - rewrite IH by lia. apply bytes_of_other. lia.
Qed.

Lemma st64_zero m p x : p <= x < p + 8 -> st64 m p 0 x = 0.
Proof.
  intros Hx. Transparent st64. unfold st64. Opaque st64. cbn [stn]. rewrite !Zdiv_0_l. unfold st8.
  repeat (case_if; [done|]). lia.
Qed.

(** The loop over the BSS ends; it clears whole words. *)
Lemma clear_bss_ok n m p stop : stop <= p + 8 * Z.of_nat n -> exists m', clear_bss (S n) m p stop = Some m'
  /\ (forall x, x < p \/ Z.max p (stop + 7) <= x -> m' x = m x) /\ forall x, p <= x < stop -> m' x = 0.
Proof.
  revert m p. induction n as [|n IH]; intros m p Hn; [|remember (S n) as f eqn:Ef]; cbn [clear_bss].
  { rewrite (proj2 (Z.ltb_ge p stop)) by lia. exists m. split_and!; [done|done|lia]. }
  destruct (p <? stop) eqn:E; zb; [|exists m; split_and!; [done|done|lia]]. subst f.
  destruct (IH (st64 m p 0) (p + 8)) as (m' & -> & Ho & Hz); [lia|]. exists m'. split; [done|]. split.
  - intros x Hx. rewrite Ho by lia. apply st64_other. lia.
  - intros x Hx. destruct (decide (x < p + 8)); [|apply Hz; lia]. rewrite Ho by lia. apply st64_zero. lia.
Qed.

(** ** [__riscv_load_fdt] *)

(** The copy of the blob with the two variables set. *)
Definition loaded (L : layout) (m : memory) (fdt : Z) : memory :=
  let size := fdt_totalsize m fdt in
  set_ktop L (ktop L m + size) (set_copied_fdt L (u64 (ktop L m + kaddr_offset L m)) (copy_bytes (Z.to_nat size) m (ktop L m) fdt)).

Lemma loaded_other L m fdt x : x < ktop L m \/ ktop L m + fdt_totalsize m fdt <= x ->
  off_word (symbol_ktop L) x -> off_word (symbol_copied_fdt L) x -> 0 <= fdt_totalsize m fdt -> loaded L m fdt x = m x.
Proof. intros. unfold loaded, set_ktop, set_copied_fdt. rewrite !st64_other by done. apply copy_bytes_other. lia. Qed.

Lemma load_fdt_ok L m lit fdt r : good_symbols L -> kernel_end L <= ktop L m ->
  fdt_check_header m fdt = 0 -> get_memory_top_from_fdt m lit fdt = Some r ->
  let size := fdt_totalsize m fdt in
  same_on fdt (fdt + Z.max 40 size) m (loaded L m fdt) -> same_on lit (lit + 6) m (loaded L m fdt) -> ktop L m + size < 2 ^ 64 ->
  __riscv_load_fdt L m lit fdt = Some match r with Done top => Done (loaded L m fdt, top) | Dies p => Dies p end.
Proof.
  intros HS Hlow Hch Htop size Hb Hl Hw. unfold __riscv_load_fdt. rewrite Hch. cbn [Z.eqb negb].
  pose proof (gs_low _ HS) as (S1 & _ & S3 & S4). pose proof (gs_ktop _ HS) as (_ & _ & K3).
  apply check_header_good in Hch as Hg. pose proof (geometry _ _ Hg). fold size in H |- *. cbv zeta.
  pose proof (ld64_range m (symbol_ktop L)) as Hkr. change (ld64 m (symbol_ktop L)) with (ktop L m) in Hkr.
  set (m1 := copy_bytes _ _ _ _).
  assert (Hw8 : forall y, y + 8 <= ktop L m -> ld64 m1 y = ld64 m y).
  { intros y Hy. apply ld64_ext. intros x Hx. apply copy_bytes_other. lia. }
  assert (kaddr_offset L m1 = kaddr_offset L m) as -> by (apply Hw8; lia).
  assert (ktop L (set_copied_fdt L (u64 (ktop L m + kaddr_offset L m)) m1) = ktop L m) as ->.
  { unfold ktop at 1, set_copied_fdt. rewrite ld64_st64_other by (unfold off_words in K3; lia). apply Hw8. lia. }
  rewrite (uw_small 64 (ktop L m + size)) by lia. fold size in Hb. change (set_ktop _ _ _) with (loaded L m fdt).
  destruct (run_memory_top m (loaded L m fdt) fdt lit Hg) as (r' & Hr & Hr' & _).
  - eapply same_on_weaken; [exact Hb|lia..].
  - exact Hl.
  - rewrite Hr'. rewrite Htop in Hr. simplify_eq. by destruct r'.
Qed.

(** ** [__riscv_init] *)

(** The BSS holds three of the variables, [__riscv_ktop] precedes it; the blob and the
    literal are outside of what the boot code writes. *)
Record boot_room (L : layout) (size fdt lit : Z) : Prop := {
  br_symbols : good_symbols L;
  br_bss : 0 <= bss_start L <= bss_end L /\ bss_end L + 7 <= kernel_end L;
  br_vars : symbol_ktop L + 8 <= bss_start L
    /\ (bss_start L <= symbol_kpgtable_root L /\ symbol_kpgtable_root L + 8 <= bss_end L)
    /\ (bss_start L <= symbol_kaddr_offset L /\ symbol_kaddr_offset L + 8 <= bss_end L)
    /\ (bss_start L <= symbol_copied_fdt L /\ symbol_copied_fdt L + 8 <= bss_end L);
  br_end : kernel_end L + size + 4095 < 2 ^ 32;
  br_fdt : apart (bss_start L) (bss_end L + 7 - bss_start L) fdt (Z.max 40 size) /\ apart (symbol_ktop L) 8 fdt (Z.max 40 size)
    /\ apart (kernel_end L) size fdt (Z.max 40 size);
  br_lit : apart (bss_start L) (bss_end L + 7 - bss_start L) lit 6 /\ apart (symbol_ktop L) 8 lit 6 /\ apart (kernel_end L) size lit 6
}.

(** Memory when [__riscv_load_fdt] is called. *)
Record started (L : layout) (offset : Z) (m m1 : memory) : Prop := {
  st_ktop : ktop L m1 = kernel_end L;
  st_offset : kaddr_offset L m1 = offset;
  st_zero : forall x, bss_start L <= x < bss_end L -> off_word (symbol_kaddr_offset L) x -> m1 x = 0;
  st_other : forall x, x < bss_start L \/ bss_end L + 7 <= x -> off_word (symbol_ktop L) x -> m1 x = m x
}.

Section init.
Context (L : layout) (m : memory) (lit hartid fdt offset : Z).
#[local] Notation size := (fdt_totalsize m fdt).
#[local] Notation root := ((kernel_end L + size + 4095) / 4096 * 4096).
Hypothesis (Hroom : boot_room L size fdt lit) (Hoff : 0 <= offset < 2 ^ 64).

(** What [__riscv_init] does after the BSS and two variables are set. *)
Definition init_rest (m1 : memory) : option (outcome (memory * (Z * Z * Z * Z))) :=
  r ← __riscv_load_fdt L m1 lit fdt;
  match r with
  | Dies p => Some (Dies p)
  | Done (m, memory_top) =>
    '(m, satp) ← __riscv_map_kaddr L m offset memory_top;
    Some (Done (m, (hartid, u64 (ktop L m + offset), u64 (memory_top + offset), satp)))
  end.

Lemma init_start_ok : exists m1, __riscv_init L m lit hartid fdt offset = init_rest m1 /\ started L offset m m1.
Proof.
  pose proof (br_bss _ _ _ _ Hroom) as Hbss. pose proof (br_end _ _ _ _ Hroom) as Hend. destruct (br_vars _ _ _ _ Hroom) as (Hk & _ & Ho & _).
  assert (Hsize : 0 <= size) by apply fdt32_ld_range.
  destruct (clear_bss_ok (Z.to_nat ((bss_end L - bss_start L + 7) / 8)) m (bss_start L) (bss_end L)) as (m0 & Hrun & Hother & Hzero).
  { rewrite Z2Nat.id by (apply Z.div_pos; lia). pose proof (Z.div_mod (bss_end L - bss_start L + 7) 8 ltac:(lia)).
    pose proof (Z.mod_pos_bound (bss_end L - bss_start L + 7) 8 ltac:(lia)). lia. }
  exists (set_kaddr_offset L offset (set_ktop L (kernel_end L) m0)). split; [unfold __riscv_init; by rewrite Hrun|].
  unfold set_kaddr_offset, set_ktop. split.
  - unfold ktop. rewrite ld64_st64_other by lia. apply ld64_st64_same. lia.
  - unfold kaddr_offset. by apply ld64_st64_same.
  - intros x Hx Hw. rewrite !st64_other by (done || lia). by apply Hzero.
  - intros x Hx Hw. rewrite !st64_other by (done || lia). apply Hother. lia.
Qed.

(** The blob and the literal are read as they were. *)
Lemma started_reads m1 : started L offset m m1 ->
  same_on fdt (fdt + Z.max 40 size) m m1 /\ fdt_check_header m1 fdt = fdt_check_header m fdt /\ fdt_totalsize m1 fdt = size
  /\ (fdt_check_header m fdt = 0 -> exists r, get_memory_top_from_fdt m lit fdt = Some r /\ get_memory_top_from_fdt m1 lit fdt = Some r).
Proof.
  intros S. destruct (br_fdt _ _ _ _ Hroom) as (F1 & F2 & _). destruct (br_lit _ _ _ _ Hroom) as (L1 & L2 & _).
  pose proof (br_bss _ _ _ _ Hroom). unfold apart in *.
  assert (Hs : same_on fdt (fdt + Z.max 40 size) m m1) by (intros x Hx; apply (st_other _ _ _ _ S); [lia|unfold off_word; lia]).
  split; [done|]. split; [|split].
  - apply check_header_ext; [|intros _]; (eapply same_on_weaken; [exact Hs|lia..]).
  - apply fdt32_ld_ext. eapply same_on_weaken; [exact Hs|lia..].
  - intros Hg%check_header_good. destruct (run_memory_top m m1 fdt lit Hg) as (r & Hr & Hr' & _); [| |eauto].
    + eapply same_on_weaken; [exact Hs|lia..].
    + intros x Hx. apply (st_other _ _ _ _ S); [lia|unfold off_word; lia].
Qed.

(** [__riscv_load_fdt] then answers as the blob says. *)
Lemma started_loads m1 r : started L offset m m1 -> fdt_check_header m fdt = 0 -> get_memory_top_from_fdt m lit fdt = Some r ->
  __riscv_load_fdt L m1 lit fdt = Some match r with Done top => Done (loaded L m1 fdt, top) | Dies p => Dies p end.
Proof.
  intros S Hch Htop. destruct (started_reads m1 S) as (_ & Hch1 & Hsz & Hr). destruct (Hr Hch) as (r' & Hr0 & Hr1).
  assert (r' = r) as -> by congruence. pose proof (br_symbols _ _ _ _ Hroom) as HS. pose proof (br_end _ _ _ _ Hroom).
  destruct (br_fdt _ _ _ _ Hroom) as (F1 & F2 & F3). destruct (br_lit _ _ _ _ Hroom) as (L1 & L2 & L3).
  destruct (br_vars _ _ _ _ Hroom) as (_ & _ & _ & V). pose proof (br_bss _ _ _ _ Hroom).
  assert (Hsize : 0 <= size) by apply fdt32_ld_range.
  pose proof (st_ktop _ _ _ _ S) as Hk. unfold apart in *.
  apply load_fdt_ok; try (done || congruence); rewrite ?Hsz, ?Hk; try lia; intros x Hx; apply loaded_other;
    rewrite ?Hsz, ?Hk; unfold off_word; lia.
Qed.

(** Memory before [__riscv_map_kaddr]. *)
Lemma loaded_state m1 : started L offset m m1 -> let m2 := loaded L m1 fdt in
  ktop L m2 = kernel_end L + size /\ kaddr_offset L m2 = offset /\ copied_fdt L m2 = u64 (kernel_end L + offset)
  /\ bytes_of m2 (kernel_end L) (Z.to_nat size) = bytes_of m fdt (Z.to_nat size)
  /\ forall x, bss_start L <= x < bss_end L -> off_word (symbol_kaddr_offset L) x -> off_word (symbol_copied_fdt L) x -> m2 x = 0.
Proof.
  intros S m2. destruct (started_reads m1 S) as (Hs & _ & Hsz & _). pose proof (br_symbols _ _ _ _ Hroom) as [(G1 & _ & G3 & G4) (_ & K2 & K3) (_ & _ & R3)].
  destruct (br_fdt _ _ _ _ Hroom) as (_ & _ & F3). destruct (br_vars _ _ _ _ Hroom) as (Vk & _ & _ & V). pose proof (br_bss _ _ _ _ Hroom). pose proof (br_end _ _ _ _ Hroom).
  assert (Hsize : 0 <= size) by apply fdt32_ld_range.
  pose proof (st_ktop _ _ _ _ S) as Hk. pose proof (st_offset _ _ _ _ S) as Ho. unfold off_words, apart in *.
  assert (Hc : forall x, x < kernel_end L -> copy_bytes (Z.to_nat size) m1 (kernel_end L) fdt x = m1 x) by (intros x Hx; apply copy_bytes_other; lia).
  unfold m2, loaded. rewrite Hsz, Hk, Ho. unfold set_ktop, set_copied_fdt. split_and!.
  - unfold ktop. apply ld64_st64_same. lia.
  - rewrite <- Ho. unfold kaddr_offset. rewrite !ld64_st64_other by lia. apply ld64_ext. intros x Hx. apply Hc. lia.
  - unfold copied_fdt. rewrite ld64_st64_other by lia. apply ld64_st64_same, uw_range. lia.
  - rewrite (bytes_of_ext (copy_bytes (Z.to_nat size) m1 (kernel_end L) fdt)) by (intros x Hx; rewrite !st64_other by lia; done).
    rewrite copy_bytes_ok by (unfold apart; lia). apply bytes_of_ext. eapply same_on_weaken; [exact Hs|lia..].
  - intros x Hx H1 H2. rewrite !st64_other by (done || lia). rewrite Hc by lia. by apply (st_zero _ _ _ _ S).
Qed.

(** [__riscv_map_kaddr] then ends. *)
Lemma loaded_maps m1 top : good_layout L -> started L offset m m1 ->
  exists m', __riscv_map_kaddr L (loaded L m1 fdt) offset top = Some (m', 8 * 2 ^ 60 + root / 4096) /\ mapped L offset top root (loaded L m1 fdt) m'.
Proof.
  intros HL S. destruct (loaded_state m1 S) as (Hk & _). pose proof (br_end _ _ _ _ Hroom).
  assert (Hsize : 0 <= size) by apply fdt32_ld_range.
  rewrite <- Hk. apply map_kaddr_ok; [done|apply (br_symbols _ _ _ _ Hroom)|lia|lia].
Qed.

(** C3. The boot: with a valid blob that names an end of memory below 4 GiB, and with
    kernel, variables, blob and its copy placed apart below 4 GiB ([boot_room]),
    [__riscv_init] returns; the copy of the blob is at the end of the kernel, the
    variables point to it and to the page table, every other byte of the BSS is zero,
    and the page table in [satp] maps the boot code, the text and everything from
    there to the end of memory. *)
Theorem init_boots top : good_layout L -> good_offset offset -> 0 <= top <= 2 ^ 32 - 4096 ->
  fdt_check_header m fdt = 0 -> get_memory_top_from_fdt m lit fdt = Some (Done top) ->
  exists m', __riscv_init L m lit hartid fdt offset =
      Some (Done (m', (hartid, u64 (ktop L m' + offset), u64 (top + offset), 8 * 2 ^ 60 + root / 4096)))
    /\ kaddr_offset L m' = offset /\ copied_fdt L m' = u64 (kernel_end L + offset) /\ kpgtable_root L m' = u64 (root + offset)
    /\ bytes_of m' (kernel_end L) (Z.to_nat size) = bytes_of m fdt (Z.to_nat size)
    /\ (forall x, bss_start L <= x < bss_end L -> off_word (symbol_kaddr_offset L) x -> off_word (symbol_copied_fdt L) x ->
          off_word (symbol_kpgtable_root L) x -> m' x = 0)
    /\ kernel_view L offset top m' root.
Proof.
  intros HL Hgo Ht Hch Htop. destruct init_start_ok as (m1 & -> & S). unfold init_rest. rewrite (started_loads m1 _ S Hch Htop). cbn [mbind option_bind].
  destruct (loaded_state m1 S) as (Hk & Ho & Hc & Hcopy & Hz). destruct (loaded_maps m1 top HL S) as (m' & -> & [Mr Mk Mf Mt]).
  cbn [mbind option_bind]. exists m'. split; [done|].
  pose proof (br_symbols _ _ _ _ Hroom) as [(G1 & _ & G3 & G4) (_ & K2 & K3) (R1 & R2 & _)].
  pose proof (br_bss _ _ _ _ Hroom) as Hb. destruct (br_vars _ _ _ _ Hroom) as (Vk & Vr & _ & _).
  assert (Hrb : kernel_end L + size <= root) by (pose proof (page_number (kernel_end L + size + 4095)); lia).
  assert (Hsize : 0 <= size) by apply fdt32_ld_range. unfold off_words in *. split_and!.
  - rewrite <- Ho. apply ld64_ext. intros x Hx. apply Mf; unfold off_word; lia.
  - rewrite <- Hc. apply ld64_ext. intros x Hx. apply Mf; unfold off_word; lia.
  - by rewrite Mr, Ho.
  - rewrite <- Hcopy. apply bytes_of_ext. intros x Hx. apply Mf; unfold off_word; lia.
  - intros x Hx H1 H2 H3. rewrite Mf by (done || unfold off_word; lia). by apply Hz.
  - by apply kernel_view_ok.
Qed.

(** C32. Every loop of the boot ends, whatever the blob holds, if kernel, variables,
    blob and its copy are placed apart ([boot_room]): the boot stops with a message when the header is bad or no memory is found, and returns otherwise, also
    for memory that ends above 4 GiB. *)
Theorem init_ends : good_layout L ->
  let r := __riscv_init L m lit hartid fdt offset in
  (fdt_check_header m fdt <> 0 -> r = Some (Dies ("Kernel panic: FDT header is invalid." ++ newline)%string))
  /\ (fdt_check_header m fdt = 0 ->
      (exists reason, get_memory_top_from_fdt m lit fdt = Some (Dies reason) /\ r = Some (Dies reason))
      \/ exists top m' regs, get_memory_top_from_fdt m lit fdt = Some (Done top) /\ r = Some (Done (m', regs))).
Proof.
  intros HL r. destruct init_start_ok as (m1 & Er & S). fold r in Er. rewrite Er. clearbody r. destruct (started_reads m1 S) as (_ & Hch1 & _ & Hr).
  unfold init_rest. split.
  - intros Hbad. unfold __riscv_load_fdt. rewrite Hch1, (proj2 (Z.eqb_neq _ 0)) by done. done.
  - intros Hch. destruct (Hr Hch) as (o & Ho & _). rewrite (started_loads m1 o S Hch Ho). cbn [mbind option_bind]. destruct o as [top|p].
    + right. destruct (loaded_maps m1 top HL S) as (m' & -> & _). eauto 10.
    + left. eauto.
Qed.
End init.

(** ** The example of [FdtTree] on the machine of [EntryKaddr] *)

(** The blob, and the literal ["memory"] at [0x3000]. *)
Definition boot_mem : memory := fun a =>
  if (0x3000 <=? a) && (a <? 0x3007) then nth (Z.to_nat (a - 0x3000)) str_memory 0 else example a.

Ltac boot_token := apply next_tag_is_token;
  [apply check_header_good; vm_compute; reflexivity|split; vm_compute; congruence|vm_compute; reflexivity|vm_compute; congruence].

Lemma boot_root_at : node_at boot_mem 0x1000 0 example_root 148.
Proof.
  exists 8. split; [boot_token|]. split; [|exists 152; boot_token].
  apply items_prop with 24; [boot_token|]. apply items_node with 36 68 72; [boot_token| |boot_token|].
  { apply items_node with 48 64 68; [boot_token| |boot_token|constructor].
    apply items_prop with 64; [boot_token|constructor]. }
  apply items_nop with 76; [boot_token|]. apply items_node with 96 144 148; [boot_token| |boot_token|constructor].
  apply items_prop with 116; [boot_token|]. apply items_prop with 144; [boot_token|constructor].
Qed.

Lemma memory_top_found_witness : get_memory_top_from_fdt boot_mem 0x3000 0x1000 = Some (Done 0x88000000).
Proof.
  assert (E : pick_memory boot_mem 0x1000 [(24, str_cpus); (76, str_memory_unit)] = Done 0x88000000) by (vm_compute; reflexivity).
  rewrite <- E. apply (memory_top_found boot_mem 0x1000 0x3000 example_root 148);
    [vm_compute; reflexivity|vm_compute; congruence|vm_compute; reflexivity|repeat split; vm_compute; congruence
    |exact boot_root_at|reflexivity|].
  repeat constructor; vm_compute; congruence.
Defined.

Lemma boot_room_example : boot_room example_layout (fdt_totalsize boot_mem 0x1000) 0x1000 0x3000.
Proof. split; try exact example_symbols_good; unfold apart; vm_compute; intuition congruence. Qed.

Lemma init_boots_witness : exists m',
  __riscv_init example_layout boot_mem 0x3000 0 0x1000 example_offset =
    Some (Done (m', (0, u64 (ktop example_layout m' + example_offset), u64 (0x88000000 + example_offset), 8 * 2 ^ 60 + 0x80211)))
  /\ copied_fdt example_layout m' = 0xffffffc000010000.
Proof.
  destruct (init_boots example_layout boot_mem 0x3000 0 0x1000 example_offset boot_room_example ltac:(vm_compute; intuition congruence) 0x88000000)
    as (m' & H1 & _ & H2 & _);
    [exact example_layout_good|exact example_offset_good|vm_compute; intuition congruence|vm_compute; reflexivity|vm_compute; reflexivity|].
  exists m'. split; [exact H1|exact H2].
Defined.

Lemma init_ends_witness : fdt_check_header (fun _ => 0) 0x1000 <> 0 /\
  __riscv_init example_layout (fun _ => 0) 0x3000 0 0x1000 example_offset
  = Some (Dies ("Kernel panic: FDT header is invalid." ++ newline)%string).
Proof.
  assert (H : fdt_check_header (fun _ => 0) 0x1000 <> 0) by (vm_compute; congruence). split; [exact H|].
  apply (init_ends example_layout (fun _ => 0) 0x3000 0 0x1000 example_offset); [|vm_compute; intuition congruence|exact example_layout_good|exact H].
  split; try exact example_symbols_good; unfold apart; vm_compute; intuition congruence.
Defined.
